(* ===== verification/_CoqProject ===== *)
-Q . S2P
Prelude.v
Text.v
Float.v
StatusCode.v
NumericRange.v
Variant.v
RangeFacts.v
Limits.v
SequenceNumber.v
Wire.v
BinaryTypes.v
BinaryVariant.v
BinaryVariantFacts.v
Crypto.v
Chunk.v
SecureChannel.v
AsymmetricSecurity.v
ConcreteChannel.v
SecureChannelFacts.v
Chunker.v
ChunkerFacts.v
TcpTypes.v
TcpCodec.v
SendBuffer.v
SendBufferFacts.v
ServerTransport.v
ServerTransportFacts.v
DataChangeFilter.v
MonitoredItem.v
Concrete.v
MonitoredItemFacts.v
Subscription.v
SubscriptionFacts.v
RetransmissionQueue.v
SessionSubscriptions.v
SessionFacts.v
References.v
TypeTree.v
Nodes.v
Rbac.v
Roles.v
AddressSpace.v
NodeManagement.v
NodeManagementFacts.v
ReferenceServiceFacts.v
Browse.v
BrowseFacts.v
BrowseAccess.v
SessionManager.v
SessionConcrete.v
SessionManagerFacts.v
SessionSecurity.v
KeyDerivation.v
ChannelTokens.v
ChannelTokensFacts.v
NodeIdText.v
VariantConvert.v
VariantConvertFacts.v
EventFilter.v
EventFilterFacts.v
Uadp.v
PubSubSecurity.v
PubSubSecurityFacts.v
FanOut.v
Attributes.v
AttributeService.v
AttributeFacts.v
AttributeWriteFacts.v
