(* ===== verification/Prelude.v ===== *)
(** * async-opcua: verification library

    async-opcua is an OPC UA client and server in Rust.  This library models the parts whose
    correctness does not depend on I/O, as pure functions on explicit states, and proves what they
    promise.  Paths are relative to src/.

    ** The program and its parts

    A client and a server exchange messages over a secure channel: a message is encoded, cut into
    chunks, each chunk is signed and encrypted, numbered and sent (async-opcua-core/src/comms, with
    async-opcua-crypto and the encodings of async-opcua-types).  A session of the server holds
    subscriptions, a subscription holds monitored items, and these turn sampled values and events
    into notifications that publish requests carry to the client
    (async-opcua-server/src/subscriptions).  Values are variants with status codes and index ranges
    (async-opcua-types/src).  The nodes that are served, with their references and types
    (async-opcua-nodes), form address spaces; node managers change and search them for sessions whose
    roles grant the permissions (async-opcua-server/src/address_space, node_manager and rbac).
    A session is created, activated on a channel and closed by the session manager
    (async-opcua-server/src/session); an event reaches a monitored item when the filter of the item
    selects it (async-opcua-nodes/src/events).  PubSub sends values in datagrams that all subscribers of
    a security group share the keys for (async-opcua-pubsub/src).

    ** Files

    Foundations: [Prelude] (results, panics, machine integers, list lemmas, tactics), [Text] (Rust
    strings and numbers in text), [Float] (IEEE-754 numbers).

    Types:
    - [StatusCode]: status_code.rs, the bit fields of a status code;
    - [NumericRange]: numeric_range.rs, index ranges and their text;
    - [Variant], [RangeFacts]: variant/mod.rs, array.rs and what they use; reading and writing index
      ranges of strings, byte strings and arrays of any dimension;
    - [Limits]: handle.rs and config/limits.rs;
    - [Wire]: encoding.rs and the built-in types that headers and node identifiers consist of;
    - [BinaryTypes]: the other built-in types (basic_types.rs, date_time.rs, qualified_name.rs,
      localized_text.rs, expanded_node_id.rs, diagnostic_info.rs);
    - [BinaryVariant], [BinaryVariantFacts]: the encoding of variant/mod.rs, data_value.rs,
      extension_object.rs and the fallback type loader.

    - [NodeIdText]: node ids and expanded node ids as text and in JSON strings;
    - [VariantConvert], [VariantConvertFacts]: conversions and casts of variants;
    - [EventFilter], [EventFilterFacts]: nodes/src/events/, validation of an event filter and the
      evaluation of its where clause.

    Secure channel:
    - [SequenceNumber]: comms/sequence_number.rs, the counter of the sender and the check of the
      receiver;
    - [Crypto]: security_policy.rs, policy/, hash.rs, aes/aeskey.rs of async-opcua-crypto;
    - [Chunk], [SecureChannel], [AsymmetricSecurity]: comms/message_chunk.rs, security_header.rs,
      message_chunk_info.rs and comms/secure_channel/, from headers and padding to
      [apply_security] and [verify_and_remove_security];
    - [Chunker]: comms/chunker.rs, [ChunkingStream], [ReceiveStream] and [Chunker];
    - [ConcreteChannel]: instances of the interfaces; [SecureChannelFacts], [ChunkerFacts]: proofs;
    - [KeyDerivation], [ChannelTokens], [ChannelTokensFacts]: the nonces, tokens and keys of a
      channel, OpenSecureChannel on the server (session/controller.rs) and in the client.

    Transport:
    - [TcpTypes], [TcpCodec]: comms/tcp_types.rs and tcp_codec.rs, the messages of the connection
      and the codec that cuts a byte stream into frames;
    - [SendBuffer], [SendBufferFacts]: comms/buffer.rs, the queue between messages and the socket;
    - [ServerTransport], [ServerTransportFacts]: server/src/transport/tcp.rs, the server's half of
      the handshake, [poll] with its draining of frames, and the delivery of requests end to end.

    Subscriptions, from the inside out (server/src/subscriptions):
    - [DataChangeFilter]: monitored_item/filters.rs;
    - [MonitoredItem], [MonitoredItemFacts]: monitored_item.rs and triggering.rs;
    - [Subscription], [SubscriptionFacts]: subscription.rs and types/src/notification_message.rs;
    - [RetransmissionQueue]: retransmission_queue.rs;
    - [SessionSubscriptions], [SessionFacts]: session_subscriptions.rs, ring.rs;
    - [Concrete]: instances of the interfaces.

    Address space, from the inside out:
    - [References]: nodes/src/references.rs, the store of references with its two tables;
    - [TypeTree]: nodes/src/type_tree.rs and types/src/namespaces.rs, subtype queries with their cache;
    - [Nodes]: the node classes of nodes/src and the building of nodes from AddNodes attributes
      (node_manager/memory/manager/crud/node_builder.rs);
    - [Rbac], [Roles]: server/src/rbac and the access checks of address_space/utils.rs and
      services/node_access.rs; roles, identity mapping rules and their presets;
    - [AddressSpace]: address_space/mod.rs with its browse name index, and the translation of browse
      paths (node_manager/memory/manager/browse.rs and view.rs);
    - [NodeManagement], [NodeManagementFacts], [ReferenceServiceFacts]: node_management.rs and the
      services of memory/manager/crud.rs and references.rs that add and delete nodes and references;
    - [Browse], [BrowseFacts], [BrowseAccess]: node_manager/view.rs and
      session/services/view.rs, Browse and BrowseNext over all node managers with their
      continuation points;
    - [Attributes]: the [Node] implementations of nodes/src, reading an attribute with
      [get_attribute_max_age] and replacing one with [set_attribute];
    - [FanOut]: session/services/mod.rs, the distribution of a request over the node managers;
    - [AttributeService], [AttributeFacts], [AttributeWriteFacts]: address_space/utils.rs and
      write_validation.rs, node_manager/attributes.rs, the reads and writes of node_manager/memory and the
      Read and Write services (session/message_handler.rs and actor.rs).

    Sessions (server/src/session):
    - [SessionManager], [SessionConcrete], [SessionManagerFacts], [SessionSecurity]: instance.rs,
      manager/; creation, activation, closing, expiry and eviction of sessions.

    PubSub (async-opcua-pubsub/src):
    - [Uadp]: codec/uadp.rs, the binary network messages;
    - [PubSubSecurity], [PubSubSecurityFacts]: security/, engine.rs and engine/security.rs; key sets and
      their rotation, signed and encrypted messages, replay windows.

    ** How definitions correspond to the code

    Definitions keep the names of the code; a prefix ([rq_], [ss_], [sub_], [mi_], [cs_], [rs_], [sn_])
    separates methods and fields that share a name.  A struct is a record, an enum an inductive
    type, a method that takes [&mut self] a function that returns the new state.  A [Result] is
    [result]; a call that may panic or loop is an [outcome] ([Ret], [Panic], [OutOfFuel]);
    [let?], [let!] and [let^] sequence them.  An integer is a [Z]; arithmetic that can wrap is written
    with [wrap32] or [wrap_usize], checked and saturating operations are their own functions.
    [usize] has 64 bits.  Times are numbers of nanoseconds.  Log lines, metrics, lock guards and pools
    that only recycle allocations are left out.  A function that writes into a buffer of the caller
    returns the bytes written.

    Loops have fuel where the recursion is not structural, and a theorem shows that the fuel given
    is enough: the length of the buffer for [write_all], the number of queued notifications for the
    loop of [pop_all], the number of elapsed intervals for the aggregate loop, the number of
    selected elements for the odometer, the length of the buffer for the codec.  The decoder of
    variants recurs on the number of locks its depth gauge still grants.  P_SHA is given as many
    rounds as bytes are asked for; the validation and the evaluation of a where clause recur on the
    number of elements of the filter, which bounds every chain of elements that passed validation.

    ** Interfaces

    Code outside the repository, and parts that are not modelled, are type classes with the
    documented behaviour the code relies on: [RangeRegex] (the regular expression of numeric
    ranges), [DynEncodable] (bodies of extension objects), [Chrono] (calendar arithmetic),
    [EventModel] (the events of monitored items), [AggregateEngine], [HashOrder], [RefOrder] and
    [ChildOrder] (the iteration orders of hash tables and sets), [Moka] (what a bounded cache keeps),
    [Features] (cargo features), [CryptoLib] with [SymmetricLaws] and [CtrLaws] (HMAC, AES), [Pki]
    (certificates and keys), [AsymmetricLib] (RSA and ECDSA), [Message] with [MessageLaws] (the service
    messages), [Context] with [ContextLaws] (the bodies of extension objects and the type loaders),
    [Bodies] (what the bodies of role permissions, data type definitions and ranges are).
    Theorems are proved for every instance; the witnesses use the instances of [NumericRange],
    [Concrete], [ConcreteChannel], [ChunkerFacts] and [BinaryVariant].

    ** What the theorems show

    - Delivery: publish requests are conserved (each is answered exactly once or still queued),
      responses carry the messages in order, acknowledgements and retransmission implement a plain
      list, subscriptions are served by priority.
    - Subscriptions: a tick appends messages with consecutive numbers within the limits and drops
      only the oldest; emptying an item delivers every notification once and in order and ends; an
      abandoned subscription expires, with the exception described below.
    - Monitored items: the queue stays within its bound, overflow drops and marks exactly the right
      entry, the SemanticsChanged bit is not lost, sampling intervals are respected, the aggregate
      loop ends.
    - Secure channel: a chunk secured by one side is recovered by the other; received bytes are only
      accepted when they end in the HMAC of what precedes it; the computed body size is exact; the chunks of a message decode to the message and are
      the cut of its encoding; sequence numbers agree across the wrap-around and are not accepted
      twice.
    - Keys: after an open or renew handshake both sides hold the same keys and tokens, the keys are
      those of the P_SHA of the specification; a renewal drops the keys of the previous token at once.
    - Transport: however the network cuts the stream the codec recovers the frames; the send buffer
      is a queue; a handshake that succeeds respects the limits of both sides, where the server
      has limits of its own; requests written on one side come out of the other, each once and in order.
    - Values: reads are type safe, writes are read back and change nothing else, the odometer
      enumerates the selection in row-major order; ranges round trip through text; a variant
      without empty arrays is encoded to the announced length and decoded back, and whatever is decoded is well typed and
      within the limits; a cast has the type asked for or is empty; node ids round trip through text.
    - Event filters: a filter that passes validation is evaluated without panic and selects the
      events that its denotation, a three-valued logic, selects.
    - PubSub: a secured message comes out of a subscriber as it was sent, whatever is delivered is
      signed with a key in use, no number is accepted twice across any rotation of the keys, and the
      replay window of 64 bits decides like one over unbounded numbers.
    - Sessions: registries, counters and heaps account for every session; the session of a channel
      changes only by an activation that proves the client's key; expiry removes the sessions due,
      except those that are locked then.
    - Browsing: a client is shown only what its roles permit, and each reference is delivered once over
      Browse and BrowseNext.
    - Address space: the reference store implements a set of edges, subtype queries end and decide the
      reflexive transitive closure where the types have no cycle and the cache is up to date; node management acts on a graph of nodes and edges item by item,
      each refused without effect or done exactly, under the conditions checked; a browse path
      translation reports exactly the nodes that its elements reach.
    - Attributes: the Read service is the reading of each item on its own, from the first node manager
      that owns the node; what a Write stores is what a later Read shows; a Write changes only what was
      asked for and permitted, in what is stored and in what Reads show.
    - Access control: a permission is granted exactly when the roles grant its bits, identities get
      exactly the roles whose rules match, the advertised write mask is what writing permits.
    - Behaviour the code should not have, as theorems of its own: a reachable state in which a
      publish request panics, one in which a session starves, subscriptions that never expire,
      delayed samples that are not reported, a loop that diverges, a bit lost by [modify], requests
      lost when a later frame is refused, a refused text that is shown, an abort that desynchronizes
      the sequence numbers, an empty array that cannot be relayed, cached subtype answers that are
      out of date, references that stay hidden, a translation that panics when the index is
      invalidated under it, children it does not find.

    ** What is not modelled

    The asynchronous tasks, channels and locks around the sessions (mod.rs, actor.rs, notify.rs of
    the subscriptions) and the sockets; certificates and the signatures of ECC policies; the
    client's transport, reverse connections, WebSockets, the timeouts of the handshake and a poll
    that is abandoned while it waits; the generated types, JSON and XML (extension
    objects are decoded as in a build without the feature [xml]); the fields of the base event
    type; the aggregate engine beyond its interface; the dispatch of services, audits and the
    negotiation of endpoints; method calls; loading node sets into the type tree; history, alarms,
    programs; the client; the transports, configuration and JSON messages of PubSub; generated code.
    A node management request is modelled as one step, although its checks and its changes are two
    critical sections between which other requests may run; so is each call of a node manager by the
    Read and Write services, whose callbacks are functions of their arguments. *)

From stdpp Require Export base tactics option list sorting gmap sets strings fin_maps.
From Stdlib Require Export ZArith Lia Bool.

#[export] Set Default Goal Selector "!".

Declare Scope opcua_scope.
Delimit Scope opcua_scope with opcua.
#[global] Open Scope opcua_scope.
#[global] Open Scope Z_scope.

(** ** Rust results and panics *)

(** [Result<A, E>]. *)
Inductive result (A E : Type) : Type :=
| Ok (a : A)
| Err (e : E).
Arguments Ok {A E} a.
Arguments Err {A E} e.

(** A computation that returns, panics ([unwrap] of [None], an explicit [panic!]), or has a loop that
    has not ended within its fuel. *)
Inductive outcome (A : Type) : Type :=
| Ret (a : A)
| Panic
| OutOfFuel.
Arguments Ret {A} a.
Arguments Panic {A}.
Arguments OutOfFuel {A}.

#[export] Instance result_eq_dec `{EqDecision A, EqDecision E} : EqDecision (result A E).
Proof. solve_decision. Defined.
#[export] Instance outcome_eq_dec `{EqDecision A} : EqDecision (outcome A).
Proof. solve_decision. Defined.

Definition result_bind {A B E} (m : result A E) (k : A -> result B E) : result B E :=
  match m with Ok a => k a | Err e => Err e end.
Definition outcome_bind {A B} (m : outcome A) (k : A -> outcome B) : outcome B :=
  match m with Ret a => k a | Panic => Panic | OutOfFuel => OutOfFuel end.
(** A loop with fuel, among computations that may panic. *)
Definition fueled {A} (m : option A) : outcome A :=
  match m with Some a => Ret a | None => OutOfFuel end.

(** The [?] operator of Rust on [Result] and on [Option], and sequencing of calls that may panic. *)
Notation "'let?' x ':=' m 'in' k" := (result_bind m (fun x => k))
  (at level 10, x pattern, m at level 100, k at level 200) : opcua_scope.
Notation "'let!' x ':=' m 'in' k" := (outcome_bind m (fun x => k))
  (at level 10, x pattern, m at level 100, k at level 200) : opcua_scope.
Notation "'let*' x ':=' m 'in' k" := (option_bind _ _ (fun x => k) m)
  (at level 10, x pattern, m at level 100, k at level 200) : opcua_scope.

(** Calls that may panic or return an error. *)
Definition comp_bind {A B E} (m : outcome (result A E)) (k : A -> outcome (result B E)) : outcome (result B E) :=
  match m with Ret (Ok a) => k a | Ret (Err e) => Ret (Err e) | Panic => Panic | OutOfFuel => OutOfFuel end.
Notation "'let^' x ':=' m 'in' k" := (comp_bind m (fun x => k))
  (at level 10, x pattern, m at level 100, k at level 200) : opcua_scope.

(** [Option::ok_or]. *)
Definition ok_or {A E} (m : option A) (e : E) : result A E :=
  match m with Some a => Ok a | None => Err e end.
(** [Result::ok]. *)
Definition result_ok {A E} (m : result A E) : option A :=
  match m with Ok a => Some a | Err _ => None end.
(** [Option::unwrap]. *)
Definition unwrap {A} (m : option A) : outcome A :=
  match m with Some a => Ret a | None => Panic end.

(** Injectivity of [Ok], without reducing the values. *)
Lemma Ok_inj {A E} (a b : A) : @Ok A E a = Ok b -> a = b.
Proof. by injection 1. Qed.
Lemma result_bind_ok {A B E} (m : result A E) (k : A -> result B E) b :
  result_bind m k = Ok b <-> exists a, m = Ok a /\ k a = Ok b.
Proof. destruct m; simpl; split; intros; destruct_and?; eauto; naive_solver. Qed.
Lemma outcome_bind_ret {A B} (m : outcome A) (k : A -> outcome B) b :
  outcome_bind m k = Ret b <-> exists a, m = Ret a /\ k a = Ret b.
Proof. destruct m; simpl; split; intros; destruct_and?; eauto; naive_solver. Qed.
Lemma comp_bind_ok {A B E} (m : outcome (result A E)) (k : A -> outcome (result B E)) b :
  comp_bind m k = Ret (Ok b) <-> exists a, m = Ret (Ok a) /\ k a = Ret (Ok b).
Proof. destruct m as [[]| |]; simpl; split; intros; destruct_and?; eauto; naive_solver. Qed.
Lemma ok_or_ok {A E} (m : option A) (e : E) a : ok_or m e = Ok a <-> m = Some a.
Proof. destruct m; simpl; split; intros; destruct_and?; eauto; naive_solver. Qed.

(** ** Machine integers: a [w]-bit unsigned integer is a [Z] in [0, 2^w) *)

Definition u8_max : Z := 255.
Definition u16_max : Z := 65535.
Definition u32_max : Z := 4294967295.
Definition i32_max : Z := 2147483647.
Definition u64_max : Z := 18446744073709551615.
Definition i64_max : Z := 9223372036854775807.
(** [usize] of a 64-bit target. *)
Definition usize_max : Z := u64_max.

Definition is_u32 (z : Z) : Prop := 0 <= z <= u32_max.
Definition is_usize (z : Z) : Prop := 0 <= z <= usize_max.

(** Release-mode wrap-around of the arithmetic operators on [u32] and on [usize]. *)
Definition wrap32 (z : Z) : Z := z mod (u32_max + 1).
Definition wrap_usize (z : Z) : Z := z mod (usize_max + 1).
(** [u32::saturating_sub], [u32::saturating_add]. *)
Definition saturating_sub (a b : Z) : Z := Z.max 0 (a - b).
Definition saturating_add32 (a b : Z) : Z := Z.min u32_max (a + b).
(** [usize::checked_mul], [usize::checked_add], [usize::checked_sub]. *)
Definition checked_mul (a b : Z) : option Z := if a * b <=? usize_max then Some (a * b) else None.
Definition checked_add (a b : Z) : option Z := if a + b <=? usize_max then Some (a + b) else None.
Definition checked_sub (a b : Z) : option Z := if b <=? a then Some (a - b) else None.
(** [!x] on [u32]. *)
Definition not32 (x : Z) : Z := Z.lxor x u32_max.

Lemma wrap32_small z : is_u32 z -> wrap32 z = z.
Proof. unfold is_u32, wrap32. intros ?. apply Z.mod_small. lia. Qed.
Lemma wrap32_range z : is_u32 (wrap32 z).
Proof.
  unfold is_u32, wrap32. assert (0 < u32_max + 1) by (unfold u32_max; lia).
  pose proof (Z.mod_pos_bound z (u32_max + 1)). lia.
Qed.
Lemma wrap_usize_small z : is_usize z -> wrap_usize z = z.
Proof. unfold is_usize, wrap_usize. intros ?. apply Z.mod_small. lia. Qed.
Lemma checked_mul_Some a b c : checked_mul a b = Some c <-> c = a * b /\ a * b <= usize_max.
Proof. unfold checked_mul. destruct (Z.leb_spec (a * b) usize_max); naive_solver lia. Qed.
Lemma checked_add_Some a b c : checked_add a b = Some c <-> c = a + b /\ a + b <= usize_max.
Proof. unfold checked_add. destruct (Z.leb_spec (a + b) usize_max); naive_solver lia. Qed.
Lemma checked_sub_Some a b c : checked_sub a b = Some c <-> c = a - b /\ b <= a.
Proof. unfold checked_sub. destruct (Z.leb_spec b a); naive_solver lia. Qed.

(** *** Bits *)

Lemma u32_max_ones : u32_max = Z.ones 32.
Proof. reflexivity. Qed.

Lemma is_u32_testbit x : is_u32 x <-> 0 <= x /\ forall i, 32 <= i -> Z.testbit x i = false.
Proof.
  unfold is_u32. split.
  - intros [H1 H2]. split; [done|]. intros i Hi.
    destruct (decide (x = 0)) as [->|]; [apply Z.bits_0|].
    apply Z.bits_above_log2; [done|]. apply Z.log2_lt_pow2; [lia|].
    assert (2 ^ 32 <= 2 ^ i) by (apply Z.pow_le_mono_r; lia). unfold u32_max in *. lia.
  - intros [H1 H2]. split; [done|].
    assert (x = x mod 2 ^ 32) as ->.
    { apply Z.bits_inj'. intros n Hn. rewrite Z.testbit_mod_pow2 by lia.
      destruct (Z.ltb_spec n 32); simpl; [done|]. apply H2. lia. }
    pose proof (Z.mod_pos_bound x (2 ^ 32) ltac:(lia)). unfold u32_max. lia.
Qed.

Lemma not32_spec x i : 0 <= i -> Z.testbit (not32 x) i = xorb (Z.testbit x i) (i <? 32).
Proof.
  intros Hi. unfold not32. rewrite Z.lxor_spec, u32_max_ones. f_equal.
  destruct (Z.ltb_spec i 32).
  - apply Z.ones_spec_low. lia.
  - apply Z.ones_spec_high. lia.
Qed.

(** [Option::is_some]. *)
Definition is_some {A} (a : option A) : bool := match a with Some _ => true | None => false end.

(** ** Lists *)

(** [slice.get(i)] for a [usize] index. *)
Definition zlookup {A} (l : list A) (i : Z) : option A :=
  if i <? 0 then None else l !! Z.to_nat i.
(** [Vec::len] as a [usize]. *)
Definition zlen {A} (l : list A) : Z := Z.of_nat (length l).

Lemma zlen_cons {A} (x : A) l : zlen (x :: l) = zlen l + 1.
Proof. unfold zlen. cbn [length]. lia. Qed.
Lemma zlen_app {A} (l k : list A) : zlen (l ++ k) = zlen l + zlen k.
Proof. unfold zlen. rewrite length_app. lia. Qed.
Lemma zlen_nonneg {A} (l : list A) : 0 <= zlen l.
Proof. unfold zlen. lia. Qed.
Lemma zlookup_Some_range {A} (l : list A) i a : zlookup l i = Some a -> 0 <= i < zlen l.
Proof.
  unfold zlookup, zlen. destruct (Z.ltb_spec i 0); [done|]. intros Hl%lookup_lt_Some. lia.
Qed.
Lemma zlookup_is_Some {A} (l : list A) i : 0 <= i < zlen l -> is_Some (zlookup l i).
Proof.
  unfold zlookup, zlen. intros Hi. destruct (Z.ltb_spec i 0); [lia|]. apply lookup_lt_is_Some. lia.
Qed.

(** [VecDeque::pop_back]: the queue without its last element, and that element. *)
Definition pop_back {A} (l : list A) : list A * option A := (removelast l, last l).
(** [VecDeque::pop_front]. *)
Definition pop_front {A} (l : list A) : list A * option A := (tail l, head l).

Lemma length_removelast {A} (l : list A) : length (removelast l) = pred (length l).
Proof.
  induction l as [|a [|b l] IH]; [done..|].
  change (removelast (a :: b :: l)) with (a :: removelast (b :: l)).
  simpl length in *. rewrite IH. done.
Qed.

Create HintDb ints.
#[export] Hint Unfold is_u32 is_usize u8_max u16_max u32_max u64_max usize_max i64_max i32_max
  saturating_sub saturating_add32 : ints.
(** Arithmetic on machine integers: unfold the bounds and call [lia]. *)
Ltac int_lia := autounfold with ints in *; lia.

(** Case analysis on the [match]es and [if]s of a hypothesis or of the goal. *)
Ltac break_match :=
  repeat match goal with
  | H : context [match ?x with _ => _ end] |- _ => destruct x eqn:?; simplify_eq/=
  | |- context [match ?x with _ => _ end] => destruct x eqn:?; simplify_eq/=
  end.
(** Turn the boolean tests of the code into propositions. *)
Ltac bool_to_prop :=
  repeat match goal with
  | H : (_ && _) = true |- _ => apply andb_true_iff in H as [? ?]
  | H : (_ || _) = false |- _ => apply orb_false_iff in H as [? ?]
  | H : negb _ = true |- _ => apply negb_true_iff in H
  | H : negb _ = false |- _ => apply negb_false_iff in H
  | H : (_ <? _) = true |- _ => apply Z.ltb_lt in H
  | H : (_ <? _) = false |- _ => apply Z.ltb_ge in H
  | H : (_ <=? _) = true |- _ => apply Z.leb_le in H
  | H : (_ <=? _) = false |- _ => apply Z.leb_gt in H
  | H : (_ =? _) = true |- _ => apply Z.eqb_eq in H
  | H : (_ =? _) = false |- _ => apply Z.eqb_neq in H
  | H : bool_decide _ = true |- _ => apply bool_decide_eq_true in H
  | H : bool_decide _ = false |- _ => apply bool_decide_eq_false in H
  end.
