(* ===== verification/Text.v ===== *)
(** * Strings and numbers in text

    Rust's [String] as the list of its Unicode scalar values, with the standard-library
    functions the modelled code uses: [split], [Display] and [FromStr] of unsigned integers,
    [ilog10], and the UTF-8 length.  Lemmas: printing then parsing a number, joining then
    splitting a list of parts. *)

From S2P Require Import Prelude.

(** A [String]: its [chars()]. *)
Abbreviation rstr := (list Z).

(** ASCII literals. *)
Fixpoint str (s : string) : rstr :=
  match s with
  | EmptyString => []
  | String c s' => Z.of_N (Ascii.N_of_ascii c) :: str s'
  end.

(** Number of bytes of the UTF-8 encoding ([str::len]). *)
Definition utf8_len_char (c : Z) : Z :=
  if c <? 0x80 then 1 else if c <? 0x800 then 2 else if c <? 0x10000 then 3 else 4.
Definition utf8_len (s : rstr) : Z := foldr (fun c n => utf8_len_char c + n) 0 s.

(** [str::split] on a character: always at least one part. *)
Fixpoint split_on (sep : Z) (s : rstr) : list rstr :=
  match s with
  | [] => [[]]
  | c :: s' =>
      if c =? sep then [] :: split_on sep s'
      else match split_on sep s' with
           | p :: ps => (c :: p) :: ps
           | [] => [[c]]
           end
  end.

(** The white space of Unicode, which [trim] removes. *)
Definition is_white (c : Z) : bool :=
  ((9 <=? c) && (c <=? 13)) || (c =? 0x20) || (c =? 0x85) || (c =? 0xA0) || (c =? 0x1680)
  || ((0x2000 <=? c) && (c <=? 0x200A)) || (c =? 0x2028) || (c =? 0x2029) || (c =? 0x202F) || (c =? 0x205F) || (c =? 0x3000).
Fixpoint trim_start (s : rstr) : rstr :=
  match s with c :: s' => if is_white c then trim_start s' else s | [] => [] end.
Definition trim (s : rstr) : rstr := rev (trim_start (rev (trim_start s))).
(** [to_ascii_lowercase] of a string. *)
Definition ascii_lowercase (s : rstr) : rstr := map (fun c => if (65 <=? c) && (c <=? 90) then c + 32 else c) s.

(** ** Decimal numbers *)

Definition is_digit (c : Z) : bool := (48 <=? c) && (c <=? 57).
Definition digits_value (s : rstr) : Z := fold_left (fun acc c => acc * 10 + (c - 48)) s 0.

(** [str::parse] for an unsigned integer bounded by [max], on text without a leading [+]. *)
Definition parse_unsigned (max : Z) (s : rstr) : option Z :=
  match s with
  | [] => None
  | _ => if forallb is_digit s && (digits_value s <=? max) then Some (digits_value s) else None
  end.

Fixpoint decimal_aux (fuel : nat) (n : Z) (acc : rstr) : rstr :=
  match fuel with
  | O => acc
  | S fuel' =>
      let acc' := (48 + n mod 10) :: acc in
      if n / 10 =? 0 then acc' else decimal_aux fuel' (n / 10) acc'
  end.
(** [Display] of an unsigned integer; a [u64] has at most twenty digits. *)
Definition decimal (n : Z) : rstr := decimal_aux 20 n [].

Fixpoint ilog10_aux (fuel : nat) (n : Z) : Z :=
  match fuel with
  | O => 0
  | S fuel' => if n / 10 =? 0 then 0 else 1 + ilog10_aux fuel' (n / 10)
  end.
(** [u32::ilog10] of a positive number. *)
Definition ilog10 (n : Z) : Z := ilog10_aux 20 n.

(** ** Lemmas *)

Lemma utf8_len_app s t : utf8_len (s ++ t) = utf8_len s + utf8_len t.
Proof. induction s as [|c s IH]; simpl; [done|]. rewrite IH. lia. Qed.

#[global] Arguments decimal : simpl never.
#[global] Arguments ilog10 : simpl never.

Lemma digits_fold_acc s acc :
  fold_left (fun acc c => acc * 10 + (c - 48)) s acc = acc * 10 ^ zlen s + digits_value s.
Proof.
  unfold digits_value. revert acc. induction s as [|c s IH]; intros acc; simpl; [unfold zlen; simpl; lia|].
  rewrite (IH (acc * 10 + (c - 48))). rewrite (IH (c - 48)) || rewrite (IH (0 * 10 + (c - 48))).
  unfold zlen. simpl length. rewrite Nat2Z.inj_succ, Z.pow_succ_r by lia. lia.
Qed.

Lemma digits_value_cons c s : digits_value (c :: s) = (c - 48) * 10 ^ zlen s + digits_value s.
Proof. unfold digits_value at 1. simpl. by rewrite digits_fold_acc. Qed.

Lemma digits_value_bound s : forallb is_digit s = true -> 0 <= digits_value s < 10 ^ zlen s.
Proof.
  induction s as [|c s IH]; [done|].
  simpl. intros [Hc Hs]%andb_true_iff. specialize (IH Hs). unfold is_digit in Hc. bool_to_prop.
  rewrite digits_value_cons. unfold zlen in *. simpl length.
  rewrite Nat2Z.inj_succ, Z.pow_succ_r by lia. nia.
Qed.

Lemma decimal_aux_spec fuel n acc :
  0 <= n < 10 ^ Z.of_nat fuel -> (0 < fuel)%nat -> forallb is_digit acc = true ->
  forallb is_digit (decimal_aux fuel n acc) = true
  /\ digits_value (decimal_aux fuel n acc) = n * 10 ^ zlen acc + digits_value acc.
Proof.
  revert n acc. induction fuel as [|fuel IH]; intros n acc Hn Hf Hacc; [lia|].
  pose proof (Z.mod_pos_bound n 10 ltac:(lia)) as Hmod.
  pose proof (Z.div_mod n 10 ltac:(lia)) as Hdm.
  rewrite Nat2Z.inj_succ, Z.pow_succ_r in Hn by lia.
  assert (forallb is_digit (48 + n mod 10 :: acc) = true) as Hacc'.
  { simpl. rewrite Hacc, andb_true_r. unfold is_digit. apply andb_true_iff.
    rewrite !Z.leb_le. lia. }
  simpl. destruct (Z.eqb_spec (n / 10) 0) as [H0|H0].
  - split; [done|]. rewrite digits_value_cons. replace (n mod 10) with n by lia. lia.
  - assert (0 <= n / 10 < 10 ^ Z.of_nat fuel) by lia.
    destruct fuel as [|fuel']; [lia|].
    destruct (IH (n / 10) (48 + n mod 10 :: acc)) as [H1 H2]; [lia|lia|done|].
    split; [exact H1|].
    rewrite H2, digits_value_cons. unfold zlen. simpl length.
    rewrite Nat2Z.inj_succ, Z.pow_succ_r by lia. nia.
Qed.

Lemma decimal_ne fuel n acc : (0 < fuel)%nat \/ acc <> [] -> decimal_aux fuel n acc <> [].
Proof.
  revert n acc. induction fuel as [|fuel IH]; intros n acc [H|H]; simpl; [lia|done| |];
    case_match; try done; apply IH; by right.
Qed.

Lemma decimal_digits n : 0 <= n <= u64_max -> forallb is_digit (decimal n) = true.
Proof. intros. apply (decimal_aux_spec 20 n []); [unfold u64_max in *; lia|lia|done]. Qed.
Lemma decimal_value n : 0 <= n <= u64_max -> digits_value (decimal n) = n.
Proof.
  intros. destruct (decimal_aux_spec 20 n []) as [_ H']; [unfold u64_max in *; lia|lia|done|].
  unfold decimal. rewrite H'. unfold zlen, digits_value. simpl. lia.
Qed.

Lemma parse_decimal max n : 0 <= n <= max -> max <= u64_max -> parse_unsigned max (decimal n) = Some n.
Proof.
  intros Hn Hmax. unfold parse_unsigned.
  destruct (decimal n) as [|c s] eqn:E; [by destruct (decimal_ne 20 n []); [left; lia|]|].
  rewrite <- E, decimal_digits, decimal_value by lia.
  destruct (Z.leb_spec n max); [done|lia].
Qed.

Lemma parse_unsigned_Some max s n :
  parse_unsigned max s = Some n <->
  s <> [] /\ forallb is_digit s = true /\ n = digits_value s /\ n <= max.
Proof.
  unfold parse_unsigned. destruct s as [|c s]; [naive_solver|].
  destruct (forallb is_digit (c :: s)) eqn:Hd; [|naive_solver].
  destruct (Z.leb_spec (digits_value (c :: s)) max); naive_solver lia.
Qed.

Lemma decimal_aux_length fuel n acc :
  0 <= n < 10 ^ Z.of_nat fuel -> (0 < fuel)%nat ->
  zlen (decimal_aux fuel n acc) = 1 + ilog10_aux fuel n + zlen acc.
Proof.
  revert n acc. induction fuel as [|fuel IH]; intros n acc Hn Hf; [lia|].
  rewrite Nat2Z.inj_succ, Z.pow_succ_r in Hn by lia. simpl.
  destruct (Z.eqb_spec (n / 10) 0) as [H0|H0]; [unfold zlen; simpl; lia|].
  pose proof (Z.div_mod n 10 ltac:(lia)). pose proof (Z.mod_pos_bound n 10 ltac:(lia)).
  destruct fuel; [lia|]. rewrite IH; [|lia|lia]. unfold zlen. simpl length. lia.
Qed.

Lemma decimal_length n : 0 <= n <= u64_max -> zlen (decimal n) = 1 + ilog10 n.
Proof.
  intros. unfold decimal, ilog10. rewrite decimal_aux_length; [|unfold u64_max in *; lia|lia].
  change (zlen (@nil Z)) with 0. lia.
Qed.

Lemma ilog10_aux_bound fuel n : 0 <= n < 10 ^ Z.of_nat fuel -> (0 < fuel)%nat ->
  0 <= ilog10_aux fuel n /\ forall k, 0 <= k -> n < 10 ^ (k + 1) -> ilog10_aux fuel n <= k.
Proof.
  revert n. induction fuel as [|fuel IH]; intros n Hn Hf; [lia|].
  rewrite Nat2Z.inj_succ, Z.pow_succ_r in Hn by lia. simpl.
  destruct (Z.eqb_spec (n / 10) 0) as [H0|H0]; [split; intros; lia|].
  pose proof (Z.div_mod n 10 ltac:(lia)). pose proof (Z.mod_pos_bound n 10 ltac:(lia)).
  destruct fuel; [lia|]. destruct (IH (n / 10)) as [Hlo Hhi]; [lia|lia|]. split; [lia|].
  intros k Hk Hlt. destruct (decide (k = 0)) as [->|]; [lia|].
  assert (ilog10_aux (S fuel) (n / 10) <= k - 1); [|lia].
  apply Hhi; [lia|]. replace (k - 1 + 1) with k by lia.
  rewrite Z.pow_add_r in Hlt by lia. lia.
Qed.

Lemma decimal_length_u32 n : is_u32 n -> 1 <= zlen (decimal n) <= 10.
Proof.
  intros [? ?]. rewrite decimal_length by int_lia.
  destruct (ilog10_aux_bound 20 n) as [Hlo Hhi]; [int_lia|lia|].
  specialize (Hhi 9 ltac:(lia)). unfold ilog10. int_lia.
Qed.

Lemma utf8_len_ascii s : Forall (fun c => c < 0x80) s -> utf8_len s = zlen s.
Proof.
  induction 1 as [|c s Hc Hs IH]; [done|]. simpl. rewrite IH. unfold utf8_len_char, zlen.
  destruct (Z.ltb_spec c 0x80); simpl length; lia.
Qed.

Lemma is_digit_range c : is_digit c = true -> 48 <= c <= 57.
Proof. unfold is_digit. intros. bool_to_prop. lia. Qed.

Lemma digits_Forall s (P : Z -> Prop) :
  forallb is_digit s = true -> (forall c, 48 <= c <= 57 -> P c) -> Forall P s.
Proof.
  intros Hs HP. apply Forall_forall. intros c Hc. apply HP, is_digit_range.
  rewrite forallb_forall in Hs. apply Hs. by apply list_elem_of_In.
Qed.

(** *** [split] undoes [join] *)

Lemma split_on_ne sep s : split_on sep s <> [].
Proof. destruct s; simpl; [done|]. repeat case_match; done. Qed.

Lemma split_on_app sep p s :
  Forall (fun c => c <> sep) p ->
  split_on sep (p ++ sep :: s) = p :: split_on sep s.
Proof.
  induction 1 as [|c p Hc Hp IH]; simpl.
  - by rewrite Z.eqb_refl.
  - apply Z.eqb_neq in Hc. rewrite Hc, IH. done.
Qed.

Lemma split_on_none sep p : Forall (fun c => c <> sep) p -> split_on sep p = [p].
Proof.
  induction 1 as [|c p Hc Hp IH]; simpl; [done|].
  apply Z.eqb_neq in Hc. by rewrite Hc, IH.
Qed.

Lemma split_on_parts sep s : Forall (Forall (fun c => c <> sep)) (split_on sep s).
Proof.
  induction s as [|c s IH]; simpl; [by repeat constructor|].
  destruct (Z.eqb_spec c sep); [by constructor|].
  destruct (split_on sep s) as [|p ps]; [by repeat constructor|].
  inversion IH; subst. by repeat constructor.
Qed.
