(* ===== verification/Float.v ===== *)
(** * Floating-point numbers

    Rust's [f32] and [f64] as the IEEE-754 values of [SpecFloat] (24-bit significand with
    exponents up to 128, and 53-bit significand with exponents up to 1024), with the arithmetic,
    the comparisons and the [as] casts the modelled code uses.  Everything computes. *)

From S2P Require Import Prelude.
From Stdlib Require Export SpecFloat.

Abbreviation f64 := spec_float.
Abbreviation f32 := spec_float.

Definition f64_of_Z (z : Z) : f64 := binary_normalize 53 1024 z 0 false.
(** [m * 2^e], for constants. *)
Definition f64_make (m e : Z) : f64 := binary_normalize 53 1024 m e false.
Definition f32_make (m e : Z) : f32 := binary_normalize 24 128 m e false.
Definition f64_zero : f64 := S754_zero false.

Definition f64_add : f64 -> f64 -> f64 := SFadd 53 1024.
Definition f64_sub : f64 -> f64 -> f64 := SFsub 53 1024.
Definition f64_mul : f64 -> f64 -> f64 := SFmul 53 1024.
Definition f64_div : f64 -> f64 -> f64 := SFdiv 53 1024.
Definition f64_abs : f64 -> f64 := SFabs.

(** Comparisons: false as soon as one side is NaN. *)
Definition f64_lt : f64 -> f64 -> bool := SFltb.
Definition f64_le : f64 -> f64 -> bool := SFleb.
Definition f64_gt (a b : f64) : bool := SFltb b a.
Definition f64_ge (a b : f64) : bool := SFleb b a.
Definition f64_eq : f64 -> f64 -> bool := SFeqb.

Definition is_nan (a : f64) : bool := match a with S754_nan => true | _ => false end.
Definition is_finite (a : f64) : bool :=
  match a with S754_zero _ | S754_finite _ _ _ => true | _ => false end.

(** [f64::max]: the other operand when one is NaN. *)
Definition f64_max (a b : f64) : f64 :=
  if is_nan a then b else if is_nan b then a else if f64_lt a b then b else a.

(** [f32 as f64] (exact). *)
Definition f64_of_f32 (a : f32) : f64 :=
  match a with
  | S754_finite s m e => binary_normalize 53 1024 (cond_Zopp s (Zpos m)) e s
  | _ => a
  end.

(** Truncation toward zero of a finite number. *)
Definition f64_trunc (a : f64) : Z :=
  match a with
  | S754_finite s m e =>
      let mag := if 0 <=? e then Zpos m * 2 ^ e else Zpos m / 2 ^ (- e) in
      if s then - mag else mag
  | _ => 0
  end.
(** [f64 as iN] / [as uN]: truncate, saturate, NaN to zero. *)
Definition f64_as_int (lo hi : Z) (a : f64) : Z :=
  match a with
  | S754_nan => 0
  | S754_infinity s => if s then lo else hi
  | _ => Z.max lo (Z.min hi (f64_trunc a))
  end.
Definition f64_as_i64 : f64 -> Z := f64_as_int (- i64_max - 1) i64_max.
Definition f64_as_u64 : f64 -> Z := f64_as_int 0 u64_max.

Lemma f64_as_u64_range a : 0 <= f64_as_u64 a <= u64_max.
Proof. unfold f64_as_u64, f64_as_int. destruct a; [int_lia| |int_lia|int_lia]. destruct s; int_lia. Qed.

Lemma f64_max_cases a b : f64_max a b = a \/ f64_max a b = b.
Proof. unfold f64_max. destruct (is_nan a), (is_nan b), (f64_lt a b); auto. Qed.

Lemma SFcompare_nan_r a : SFcompare a S754_nan = None.
Proof. by destruct a as [[]|[]| |[]]. Qed.
Lemma SFcompare_None a b : SFcompare a b = None -> is_nan a = true \/ is_nan b = true.
Proof. destruct a as [[]|[]| |[]], b as [[]|[]| |[]]; simpl; auto; repeat case_match; try discriminate; auto. Qed.

(** The result of [f64_max] is not below a non-NaN bound. *)
Lemma f64_max_not_below a b : f64_lt (f64_max a b) b = false.
Proof.
  unfold f64_max. destruct a as [sa|sa| |sa ma ea]; simpl is_nan; cbv iota.
  3: { unfold f64_lt, SFltb. destruct b as [[]|[]| |[] m e]; simpl; try done;
       rewrite Z.compare_refl, Pos.compare_cont_refl; done. }
  all: destruct b as [sb|sb| |sb mb eb]; simpl is_nan; cbv iota;
    try (unfold f64_lt, SFltb; rewrite SFcompare_nan_r; done).
  all: match goal with |- f64_lt (if f64_lt ?x ?y then _ else _) _ = _ => destruct (f64_lt x y) eqn:E end;
    try done; unfold f64_lt, SFltb; simpl; repeat case_match; try done.
  all: simplify_eq; rewrite ?Z.compare_refl, ?Pos.compare_cont_refl in *; try done.
Qed.

Example f64_const_1000 : f64_of_Z 1000 = S754_finite false 8796093022208000 (-43).
Proof. reflexivity. Qed.
