(* ===== verification/StatusCode.v ===== *)
(** * Status codes

    Models [async-opcua-types/src/status_code.rs]: the wrapper around a [u32], its severity,
    sub code, flag and info fields with their getters and setters, [validate], and the table of
    known sub codes.  The theorems show that the setters write exactly their own field, that what
    a setter writes the getter reads back, and that setters stay within 32 bits. *)

From S2P Require Import Prelude.

(** ** Data *)

(** [StatusCode(u32)]. *)
Abbreviation StatusCode := Z.

Inductive StatusCodeSeverity : Set := SevGood | SevUncertain | SevBad.
Inductive StatusCodeLimit : Set := LimNone | LimLow | LimHigh | LimConstant.
Inductive StatusCodeValueType : Set := VtRaw | VtCalculated | VtInterpolated | VtUndefined.
Inductive StatusCodeInfoType : Set := InfoNotUsed | InfoDataValue.
Inductive StatusCodeValidationError : Set :=
| InvalidSeverity | UsedReservedBit | UnknownSubCode | InvalidInfoBits.

#[export] Instance StatusCodeSeverity_eq_dec : EqDecision StatusCodeSeverity.
Proof. solve_decision. Defined.
#[export] Instance StatusCodeLimit_eq_dec : EqDecision StatusCodeLimit.
Proof. solve_decision. Defined.

(** [value as u32] of the field enums. *)
Definition severity_value (s : StatusCodeSeverity) : Z :=
  match s with SevGood => 0 | SevUncertain => 1 | SevBad => 2 end.
Definition limit_value (l : StatusCodeLimit) : Z :=
  match l with LimNone => 0 | LimLow => 1 | LimHigh => 2 | LimConstant => 3 end.
Definition value_type_value (t : StatusCodeValueType) : Z :=
  match t with VtRaw => 0 | VtCalculated => 1 | VtInterpolated => 2 | VtUndefined => 3 end.
Definition info_type_value (t : StatusCodeInfoType) : Z :=
  match t with InfoNotUsed => 0 | InfoDataValue => 1 end.

(** [from_value] of the field enums. *)
Definition severity_from_value (v : Z) : option StatusCodeSeverity :=
  if v =? 0 then Some SevGood else if v =? 1 then Some SevUncertain
  else if v =? 2 then Some SevBad else None.
Definition limit_from_value (v : Z) : option StatusCodeLimit :=
  if v =? 3 then Some LimConstant else if v =? 2 then Some LimHigh
  else if v =? 1 then Some LimLow else if v =? 0 then Some LimNone else None.
Definition value_type_from_value (v : Z) : option StatusCodeValueType :=
  if v =? 0 then Some VtRaw else if v =? 1 then Some VtCalculated
  else if v =? 2 then Some VtInterpolated else if v =? 3 then Some VtUndefined else None.
Definition info_type_from_value (v : Z) : option StatusCodeInfoType :=
  if v =? 0 then Some InfoNotUsed else if v =? 1 then Some InfoDataValue else None.

(** The [SubStatusCode] enum: the name and value of each category, in the order of the source. *)
Definition SubStatusCode_table : list (string * Z) := [
    ("Good"%string, 0x00000000);
    ("Uncertain"%string, 0x40000000);
    ("Bad"%string, 0x80000000);
    ("BadUnexpectedError"%string, 0x80010000);
    ("BadInternalError"%string, 0x80020000);
    ("BadOutOfMemory"%string, 0x80030000);
    ("BadResourceUnavailable"%string, 0x80040000);
    ("BadCommunicationError"%string, 0x80050000);
    ("BadEncodingError"%string, 0x80060000);
    ("BadDecodingError"%string, 0x80070000);
    ("BadEncodingLimitsExceeded"%string, 0x80080000);
    ("BadRequestTooLarge"%string, 0x80B80000);
    ("BadResponseTooLarge"%string, 0x80B90000);
    ("BadUnknownResponse"%string, 0x80090000);
    ("BadTimeout"%string, 0x800A0000);
    ("BadServiceUnsupported"%string, 0x800B0000);
    ("BadShutdown"%string, 0x800C0000);
    ("BadServerNotConnected"%string, 0x800D0000);
    ("BadServerHalted"%string, 0x800E0000);
    ("BadNothingToDo"%string, 0x800F0000);
    ("BadTooManyOperations"%string, 0x80100000);
    ("BadTooManyMonitoredItems"%string, 0x80DB0000);
    ("BadDataTypeIdUnknown"%string, 0x80110000);
    ("BadCertificateInvalid"%string, 0x80120000);
    ("BadSecurityChecksFailed"%string, 0x80130000);
    ("BadCertificatePolicyCheckFailed"%string, 0x81140000);
    ("BadCertificateTimeInvalid"%string, 0x80140000);
    ("BadCertificateIssuerTimeInvalid"%string, 0x80150000);
    ("BadCertificateHostNameInvalid"%string, 0x80160000);
    ("BadCertificateUriInvalid"%string, 0x80170000);
    ("BadCertificateUseNotAllowed"%string, 0x80180000);
    ("BadCertificateIssuerUseNotAllowed"%string, 0x80190000);
    ("BadCertificateUntrusted"%string, 0x801A0000);
    ("BadCertificateRevocationUnknown"%string, 0x801B0000);
    ("BadCertificateIssuerRevocationUnknown"%string, 0x801C0000);
    ("BadCertificateRevoked"%string, 0x801D0000);
    ("BadCertificateIssuerRevoked"%string, 0x801E0000);
    ("BadCertificateChainIncomplete"%string, 0x810D0000);
    ("BadUserAccessDenied"%string, 0x801F0000);
    ("BadIdentityTokenInvalid"%string, 0x80200000);
    ("BadIdentityTokenRejected"%string, 0x80210000);
    ("BadSecureChannelIdInvalid"%string, 0x80220000);
    ("BadInvalidTimestamp"%string, 0x80230000);
    ("BadNonceInvalid"%string, 0x80240000);
    ("BadSessionIdInvalid"%string, 0x80250000);
    ("BadSessionClosed"%string, 0x80260000);
    ("BadSessionNotActivated"%string, 0x80270000);
    ("BadSubscriptionIdInvalid"%string, 0x80280000);
    ("BadRequestHeaderInvalid"%string, 0x802A0000);
    ("BadTimestampsToReturnInvalid"%string, 0x802B0000);
    ("BadRequestCancelledByClient"%string, 0x802C0000);
    ("BadTooManyArguments"%string, 0x80E50000);
    ("BadLicenseExpired"%string, 0x810E0000);
    ("BadLicenseLimitsExceeded"%string, 0x810F0000);
    ("BadLicenseNotAvailable"%string, 0x81100000);
    ("BadServerTooBusy"%string, 0x80EE0000);
    ("GoodPasswordChangeRequired"%string, 0x00EF0000);
    ("GoodSubscriptionTransferred"%string, 0x002D0000);
    ("GoodCompletesAsynchronously"%string, 0x002E0000);
    ("GoodOverload"%string, 0x002F0000);
    ("GoodClamped"%string, 0x00300000);
    ("BadNoCommunication"%string, 0x80310000);
    ("BadWaitingForInitialData"%string, 0x80320000);
    ("BadNodeIdInvalid"%string, 0x80330000);
    ("BadNodeIdUnknown"%string, 0x80340000);
    ("BadAttributeIdInvalid"%string, 0x80350000);
    ("BadIndexRangeInvalid"%string, 0x80360000);
    ("BadIndexRangeNoData"%string, 0x80370000);
    ("BadIndexRangeDataMismatch"%string, 0x80EA0000);
    ("BadDataEncodingInvalid"%string, 0x80380000);
    ("BadDataEncodingUnsupported"%string, 0x80390000);
    ("BadNotReadable"%string, 0x803A0000);
    ("BadNotWritable"%string, 0x803B0000);
    ("BadOutOfRange"%string, 0x803C0000);
    ("BadNotSupported"%string, 0x803D0000);
    ("BadNotFound"%string, 0x803E0000);
    ("BadObjectDeleted"%string, 0x803F0000);
    ("BadNotImplemented"%string, 0x80400000);
    ("BadMonitoringModeInvalid"%string, 0x80410000);
    ("BadMonitoredItemIdInvalid"%string, 0x80420000);
    ("BadMonitoredItemFilterInvalid"%string, 0x80430000);
    ("BadMonitoredItemFilterUnsupported"%string, 0x80440000);
    ("BadFilterNotAllowed"%string, 0x80450000);
    ("BadStructureMissing"%string, 0x80460000);
    ("BadEventFilterInvalid"%string, 0x80470000);
    ("BadContentFilterInvalid"%string, 0x80480000);
    ("BadFilterOperatorInvalid"%string, 0x80C10000);
    ("BadFilterOperatorUnsupported"%string, 0x80C20000);
    ("BadFilterOperandCountMismatch"%string, 0x80C30000);
    ("BadFilterOperandInvalid"%string, 0x80490000);
    ("BadFilterElementInvalid"%string, 0x80C40000);
    ("BadFilterLiteralInvalid"%string, 0x80C50000);
    ("BadContinuationPointInvalid"%string, 0x804A0000);
    ("BadNoContinuationPoints"%string, 0x804B0000);
    ("BadReferenceTypeIdInvalid"%string, 0x804C0000);
    ("BadBrowseDirectionInvalid"%string, 0x804D0000);
    ("BadNodeNotInView"%string, 0x804E0000);
    ("BadNumericOverflow"%string, 0x81120000);
    ("BadLocaleNotSupported"%string, 0x80ED0000);
    ("BadNoValue"%string, 0x80F00000);
    ("BadServerUriInvalid"%string, 0x804F0000);
    ("BadServerNameMissing"%string, 0x80500000);
    ("BadDiscoveryUrlMissing"%string, 0x80510000);
    ("BadSempahoreFileMissing"%string, 0x80520000);
    ("BadRequestTypeInvalid"%string, 0x80530000);
    ("BadSecurityModeRejected"%string, 0x80540000);
    ("BadSecurityPolicyRejected"%string, 0x80550000);
    ("BadTooManySessions"%string, 0x80560000);
    ("BadUserSignatureInvalid"%string, 0x80570000);
    ("BadApplicationSignatureInvalid"%string, 0x80580000);
    ("BadNoValidCertificates"%string, 0x80590000);
    ("BadIdentityChangeNotSupported"%string, 0x80C60000);
    ("BadRequestCancelledByRequest"%string, 0x805A0000);
    ("BadParentNodeIdInvalid"%string, 0x805B0000);
    ("BadReferenceNotAllowed"%string, 0x805C0000);
    ("BadNodeIdRejected"%string, 0x805D0000);
    ("BadNodeIdExists"%string, 0x805E0000);
    ("BadNodeClassInvalid"%string, 0x805F0000);
    ("BadBrowseNameInvalid"%string, 0x80600000);
    ("BadBrowseNameDuplicated"%string, 0x80610000);
    ("BadNodeAttributesInvalid"%string, 0x80620000);
    ("BadTypeDefinitionInvalid"%string, 0x80630000);
    ("BadSourceNodeIdInvalid"%string, 0x80640000);
    ("BadTargetNodeIdInvalid"%string, 0x80650000);
    ("BadDuplicateReferenceNotAllowed"%string, 0x80660000);
    ("BadInvalidSelfReference"%string, 0x80670000);
    ("BadReferenceLocalOnly"%string, 0x80680000);
    ("BadNoDeleteRights"%string, 0x80690000);
    ("UncertainReferenceNotDeleted"%string, 0x40BC0000);
    ("BadServerIndexInvalid"%string, 0x806A0000);
    ("BadViewIdUnknown"%string, 0x806B0000);
    ("BadViewTimestampInvalid"%string, 0x80C90000);
    ("BadViewParameterMismatch"%string, 0x80CA0000);
    ("BadViewVersionInvalid"%string, 0x80CB0000);
    ("UncertainNotAllNodesAvailable"%string, 0x40C00000);
    ("GoodResultsMayBeIncomplete"%string, 0x00BA0000);
    ("BadNotTypeDefinition"%string, 0x80C80000);
    ("UncertainReferenceOutOfServer"%string, 0x406C0000);
    ("BadTooManyMatches"%string, 0x806D0000);
    ("BadQueryTooComplex"%string, 0x806E0000);
    ("BadNoMatch"%string, 0x806F0000);
    ("BadMaxAgeInvalid"%string, 0x80700000);
    ("BadSecurityModeInsufficient"%string, 0x80E60000);
    ("BadHistoryOperationInvalid"%string, 0x80710000);
    ("BadHistoryOperationUnsupported"%string, 0x80720000);
    ("BadInvalidTimestampArgument"%string, 0x80BD0000);
    ("BadWriteNotSupported"%string, 0x80730000);
    ("BadTypeMismatch"%string, 0x80740000);
    ("BadMethodInvalid"%string, 0x80750000);
    ("BadArgumentsMissing"%string, 0x80760000);
    ("BadNotExecutable"%string, 0x81110000);
    ("BadTooManySubscriptions"%string, 0x80770000);
    ("BadTooManyPublishRequests"%string, 0x80780000);
    ("BadNoSubscription"%string, 0x80790000);
    ("BadSequenceNumberUnknown"%string, 0x807A0000);
    ("GoodRetransmissionQueueNotSupported"%string, 0x00DF0000);
    ("BadMessageNotAvailable"%string, 0x807B0000);
    ("BadInsufficientClientProfile"%string, 0x807C0000);
    ("BadStateNotActive"%string, 0x80BF0000);
    ("BadAlreadyExists"%string, 0x81150000);
    ("BadTcpServerTooBusy"%string, 0x807D0000);
    ("BadTcpMessageTypeInvalid"%string, 0x807E0000);
    ("BadTcpSecureChannelUnknown"%string, 0x807F0000);
    ("BadTcpMessageTooLarge"%string, 0x80800000);
    ("BadTcpNotEnoughResources"%string, 0x80810000);
    ("BadTcpInternalError"%string, 0x80820000);
    ("BadTcpEndpointUrlInvalid"%string, 0x80830000);
    ("BadRequestInterrupted"%string, 0x80840000);
    ("BadRequestTimeout"%string, 0x80850000);
    ("BadSecureChannelClosed"%string, 0x80860000);
    ("BadSecureChannelTokenUnknown"%string, 0x80870000);
    ("BadSequenceNumberInvalid"%string, 0x80880000);
    ("BadProtocolVersionUnsupported"%string, 0x80BE0000);
    ("BadConfigurationError"%string, 0x80890000);
    ("BadNotConnected"%string, 0x808A0000);
    ("BadDeviceFailure"%string, 0x808B0000);
    ("BadSensorFailure"%string, 0x808C0000);
    ("BadOutOfService"%string, 0x808D0000);
    ("BadDeadbandFilterInvalid"%string, 0x808E0000);
    ("UncertainNoCommunicationLastUsableValue"%string, 0x408F0000);
    ("UncertainLastUsableValue"%string, 0x40900000);
    ("UncertainSubstituteValue"%string, 0x40910000);
    ("UncertainInitialValue"%string, 0x40920000);
    ("UncertainSensorNotAccurate"%string, 0x40930000);
    ("UncertainEngineeringUnitsExceeded"%string, 0x40940000);
    ("UncertainSubNormal"%string, 0x40950000);
    ("GoodLocalOverride"%string, 0x00960000);
    ("GoodSubNormal"%string, 0x00EB0000);
    ("BadRefreshInProgress"%string, 0x80970000);
    ("BadConditionAlreadyDisabled"%string, 0x80980000);
    ("BadConditionAlreadyEnabled"%string, 0x80CC0000);
    ("BadConditionDisabled"%string, 0x80990000);
    ("BadEventIdUnknown"%string, 0x809A0000);
    ("BadEventNotAcknowledgeable"%string, 0x80BB0000);
    ("BadDialogNotActive"%string, 0x80CD0000);
    ("BadDialogResponseInvalid"%string, 0x80CE0000);
    ("BadConditionBranchAlreadyAcked"%string, 0x80CF0000);
    ("BadConditionBranchAlreadyConfirmed"%string, 0x80D00000);
    ("BadConditionAlreadyShelved"%string, 0x80D10000);
    ("BadConditionNotShelved"%string, 0x80D20000);
    ("BadShelvingTimeOutOfRange"%string, 0x80D30000);
    ("BadNoData"%string, 0x809B0000);
    ("BadBoundNotFound"%string, 0x80D70000);
    ("BadBoundNotSupported"%string, 0x80D80000);
    ("BadDataLost"%string, 0x809D0000);
    ("BadDataUnavailable"%string, 0x809E0000);
    ("BadEntryExists"%string, 0x809F0000);
    ("BadNoEntryExists"%string, 0x80A00000);
    ("BadTimestampNotSupported"%string, 0x80A10000);
    ("GoodEntryInserted"%string, 0x00A20000);
    ("GoodEntryReplaced"%string, 0x00A30000);
    ("UncertainDataSubNormal"%string, 0x40A40000);
    ("GoodNoData"%string, 0x00A50000);
    ("GoodMoreData"%string, 0x00A60000);
    ("BadAggregateListMismatch"%string, 0x80D40000);
    ("BadAggregateNotSupported"%string, 0x80D50000);
    ("BadAggregateInvalidInputs"%string, 0x80D60000);
    ("BadAggregateConfigurationRejected"%string, 0x80DA0000);
    ("GoodDataIgnored"%string, 0x00D90000);
    ("BadRequestNotAllowed"%string, 0x80E40000);
    ("BadRequestNotComplete"%string, 0x81130000);
    ("BadTransactionPending"%string, 0x80E80000);
    ("BadTicketRequired"%string, 0x811F0000);
    ("BadTicketInvalid"%string, 0x81200000);
    ("BadLocked"%string, 0x80E90000);
    ("BadRequiresLock"%string, 0x80EC0000);
    ("GoodEdited"%string, 0x00DC0000);
    ("GoodPostActionFailed"%string, 0x00DD0000);
    ("UncertainDominantValueChanged"%string, 0x40DE0000);
    ("GoodDependentValueChanged"%string, 0x00E00000);
    ("BadDominantValueChanged"%string, 0x80E10000);
    ("UncertainDependentValueChanged"%string, 0x40E20000);
    ("BadDependentValueChanged"%string, 0x80E30000);
    ("GoodEdited_DependentValueChanged"%string, 0x01160000);
    ("GoodEdited_DominantValueChanged"%string, 0x01170000);
    ("GoodEdited_DominantValueChanged_DependentValueChanged"%string, 0x01180000);
    ("BadEdited_OutOfRange"%string, 0x81190000);
    ("BadInitialValue_OutOfRange"%string, 0x811A0000);
    ("BadOutOfRange_DominantValueChanged"%string, 0x811B0000);
    ("BadEdited_OutOfRange_DominantValueChanged"%string, 0x811C0000);
    ("BadOutOfRange_DominantValueChanged_DependentValueChanged"%string, 0x811D0000);
    ("BadEdited_OutOfRange_DominantValueChanged_DependentValueChanged"%string, 0x811E0000);
    ("GoodCommunicationEvent"%string, 0x00A70000);
    ("GoodShutdownEvent"%string, 0x00A80000);
    ("GoodCallAgain"%string, 0x00A90000);
    ("GoodNonCriticalTimeout"%string, 0x00AA0000);
    ("BadInvalidArgument"%string, 0x80AB0000);
    ("BadConnectionRejected"%string, 0x80AC0000);
    ("BadDisconnect"%string, 0x80AD0000);
    ("BadConnectionClosed"%string, 0x80AE0000);
    ("BadInvalidState"%string, 0x80AF0000);
    ("BadEndOfStream"%string, 0x80B00000);
    ("BadNoDataAvailable"%string, 0x80B10000);
    ("BadWaitingForResponse"%string, 0x80B20000);
    ("BadOperationAbandoned"%string, 0x80B30000);
    ("BadExpectedStreamToBlock"%string, 0x80B40000);
    ("BadWouldBlock"%string, 0x80B50000);
    ("BadSyntaxError"%string, 0x80B60000);
    ("BadMaxConnectionsReached"%string, 0x80B70000);
    ("UncertainTransducerInManual"%string, 0x42080000);
    ("UncertainSimulatedValue"%string, 0x42090000);
    ("UncertainSensorCalibration"%string, 0x420A0000);
    ("UncertainConfigurationError"%string, 0x420F0000);
    ("GoodCascadeInitializationAcknowledged"%string, 0x04010000);
    ("GoodCascadeInitializationRequest"%string, 0x04020000);
    ("GoodCascadeNotInvited"%string, 0x04030000);
    ("GoodCascadeNotSelected"%string, 0x04040000);
    ("GoodFaultStateActive"%string, 0x04070000);
    ("GoodInitiateFaultState"%string, 0x04080000);
    ("GoodCascade"%string, 0x04090000);
    ("BadDataSetIdInvalid"%string, 0x80E70000);
    ("Invalid"%string, 0xFFFFFFFF)
  ].

(** [SubStatusCode::from_value]: a sub code is identified with its value. *)
Definition sub_code_from_value (v : Z) : option Z :=
  snd <$> List.find (fun p => snd p =? v) SubStatusCode_table.

(** The associated constants of [StatusCode] that the modelled code uses. *)
Definition Good : Z := 0x00000000.
Definition BadTimeout : Z := 0x800A0000.
Definition BadNoSubscription : Z := 0x80790000.
Definition BadTooManyPublishRequests : Z := 0x80780000.
Definition BadSequenceNumberUnknown : Z := 0x807A0000.
Definition BadMessageNotAvailable : Z := 0x807B0000.
Definition BadSubscriptionIdInvalid : Z := 0x80280000.
Definition BadMonitoredItemIdInvalid : Z := 0x80420000.
Definition BadTooManySubscriptions : Z := 0x80770000.
Definition BadTooManyMonitoredItems : Z := 0x80DB0000.
Definition BadNothingToDo : Z := 0x800F0000.
Definition BadIndexRangeInvalid : Z := 0x80360000.
Definition BadIndexRangeNoData : Z := 0x80370000.
Definition BadIndexRangeDataMismatch : Z := 0x80EA0000.
Definition BadWriteNotSupported : Z := 0x80730000.
Definition BadWaitingForInitialData : Z := 0x80320000.
Definition BadDeadbandFilterInvalid : Z := 0x808E0000.
Definition BadNodeIdUnknown : Z := 0x80340000.
Definition BadRequestCancelledByClient : Z := 0x802C0000.
Definition BadFilterNotAllowed : Z := 0x80450000.
Definition BadAggregateNotSupported : Z := 0x80D50000.
Definition BadAggregateInvalidInputs : Z := 0x80D60000.
Definition GoodSubscriptionTransferred : Z := 0x002D0000.
Definition BadMonitoredItemFilterUnsupported : Z := 0x80440000.
Definition BadTcpMessageTooLarge : Z := 0x80800000.
Definition BadCommunicationError : Z := 0x80050000.
Definition BadEncodingLimitsExceeded : Z := 0x80080000.
Definition BadEncodingError : Z := 0x80060000.
Definition BadDecodingError : Z := 0x80070000.
Definition BadSequenceNumberInvalid : Z := 0x80880000.
Definition BadSecureChannelIdInvalid : Z := 0x80220000.
Definition BadAttributeIdInvalid : Z := 0x80350000.
Definition BadDataEncodingInvalid : Z := 0x80380000.
Definition BadInvalidArgument : Z := 0x80AB0000.
Definition BadUnexpectedError : Z := 0x80010000.
Definition BadSecurityChecksFailed : Z := 0x80130000.
Definition BadSecurityPolicyRejected : Z := 0x80550000.
Definition BadSecurityModeRejected : Z := 0x80540000.
Definition BadSecureChannelClosed : Z := 0x80860000.
Definition BadTcpInternalError : Z := 0x80820000.
Definition BadCertificateInvalid : Z := 0x80120000.
Definition BadRequestTooLarge : Z := 0x80B80000.
Definition BadResponseTooLarge : Z := 0x80B90000.
Definition BadNotImplemented : Z := 0x80400000.
Definition BadNoValidCertificates : Z := 0x80590000.
Definition BadNodeAttributesInvalid : Z := 0x80620000.
Definition BadNodeClassInvalid : Z := 0x805F0000.
Definition BadParentNodeIdInvalid : Z := 0x805B0000.
Definition BadNodeIdExists : Z := 0x805E0000.
Definition BadReferenceTypeIdInvalid : Z := 0x804C0000.
Definition BadServiceUnsupported : Z := 0x800B0000.
Definition BadUserAccessDenied : Z := 0x801F0000.
Definition BadBrowseNameDuplicated : Z := 0x80610000.
Definition BadTypeDefinitionInvalid : Z := 0x80630000.
Definition BadNodeIdRejected : Z := 0x805D0000.
Definition BadNodeIdInvalid : Z := 0x80330000.
Definition BadSourceNodeIdInvalid : Z := 0x80640000.
Definition BadTargetNodeIdInvalid : Z := 0x80650000.
Definition BadInvalidSelfReference : Z := 0x80670000.
Definition BadDuplicateReferenceNotAllowed : Z := 0x80660000.
Definition BadReferenceNotAllowed : Z := 0x805C0000.
Definition BadReferenceLocalOnly : Z := 0x80680000.
Definition BadNotSupported : Z := 0x803D0000.
Definition BadSecurityModeInsufficient : Z := 0x80E60000.
Definition BadAlreadyExists : Z := 0x81150000.
Definition BadNotFound : Z := 0x803E0000.
Definition BadBrowseNameInvalid : Z := 0x80600000.
Definition BadRequestNotAllowed : Z := 0x80E40000.
Definition BadTypeMismatch : Z := 0x80740000.
Definition BadNotReadable : Z := 0x803A0000.
Definition BadNotWritable : Z := 0x803B0000.

Definition SUBCODE_MASK : Z := 0xFFFF0000.
Definition INFO_BITS_MASK : Z := 0x3FF.

(** ** Operations *)

Definition severity (s : StatusCode) : StatusCodeSeverity :=
  default SevBad (severity_from_value (Z.land (Z.shiftr s 30) 3)).
Definition is_good (s : StatusCode) : bool :=
  match severity s with SevGood => true | _ => false end.
Definition is_bad (s : StatusCode) : bool :=
  match severity s with SevBad => true | _ => false end.
Definition is_uncertain (s : StatusCode) : bool :=
  match severity s with SevUncertain => true | _ => false end.

Definition get_bool (s : StatusCode) (offset : Z) : bool :=
  negb (Z.land s (Z.shiftl 1 offset) =? 0).
Definition set_bool (s : StatusCode) (value : bool) (offset : Z) : StatusCode :=
  Z.lor (Z.land s (not32 (Z.shiftl 1 offset))) (Z.shiftl (Z.b2z value) offset).

Definition set_severity (s : StatusCode) (value : StatusCodeSeverity) : StatusCode :=
  Z.lor (Z.land s (not32 SUBCODE_MASK)) (Z.shiftl (severity_value value) 30).

Definition structure_changed (s : StatusCode) : bool := get_bool s 15.
Definition set_structure_changed (s : StatusCode) (value : bool) : StatusCode := set_bool s value 15.
Definition semantics_changed (s : StatusCode) : bool := get_bool s 14.
Definition set_semantics_changed (s : StatusCode) (value : bool) : StatusCode := set_bool s value 14.

(** A sub code is represented by its numeric value; [SubStatusCode::Invalid] is [0xFFFFFFFF]. *)
Definition SubStatusCode_Invalid : Z := 0xFFFFFFFF.
Definition sub_code (s : StatusCode) : Z :=
  default SubStatusCode_Invalid (sub_code_from_value (Z.land s SUBCODE_MASK)).
Definition set_sub_code (s : StatusCode) (value : Z) : StatusCode :=
  Z.lor (Z.land s (not32 SUBCODE_MASK)) (Z.land value SUBCODE_MASK).

Definition info_type (s : StatusCode) : StatusCodeInfoType :=
  default InfoNotUsed (info_type_from_value (Z.land (Z.shiftr s 10) 1)).
Definition set_info_type (s : StatusCode) (value : StatusCodeInfoType) : StatusCode :=
  let s' := Z.lor (Z.land s (not32 (Z.shiftl 1 10)))
                  (Z.shiftl (Z.land (info_type_value value) 1) 10) in
  match value with
  | InfoNotUsed => Z.land s' (not32 INFO_BITS_MASK)
  | InfoDataValue => s'
  end.

Definition limit (s : StatusCode) : StatusCodeLimit :=
  default LimNone (limit_from_value (Z.land (Z.shiftr s 8) 3)).
Definition set_limit (s : StatusCode) (l : StatusCodeLimit) : StatusCode :=
  Z.lor (Z.land s (not32 (Z.shiftl 3 8))) (Z.shiftl (limit_value l) 8).

Definition overflow (s : StatusCode) : bool := get_bool s 7.
Definition set_overflow (s : StatusCode) (value : bool) : StatusCode := set_bool s value 7.
Definition multi_value (s : StatusCode) : bool := get_bool s 4.
Definition set_multi_value (s : StatusCode) (value : bool) : StatusCode := set_bool s value 4.
Definition extra_data (s : StatusCode) : bool := get_bool s 3.
Definition set_extra_data (s : StatusCode) (value : bool) : StatusCode := set_bool s value 3.
Definition partial (s : StatusCode) : bool := get_bool s 2.
Definition set_partial (s : StatusCode) (value : bool) : StatusCode := set_bool s value 2.

Definition value_type (s : StatusCode) : StatusCodeValueType :=
  default VtUndefined (value_type_from_value (Z.land s 3)).
Definition set_value_type (s : StatusCode) (value : StatusCodeValueType) : StatusCode :=
  Z.lor (Z.land s (not32 3)) (Z.land (value_type_value value) 3).

Definition validate (s : StatusCode) : result unit StatusCodeValidationError :=
  if Z.shiftr s 30 =? 3 then Err InvalidSeverity
  else if negb (Z.land s (Z.shiftl 3 28) =? 0) || negb (Z.land s (Z.shiftl 7 11) =? 0)
          || negb (Z.land s (Z.shiftl 3 5) =? 0) then Err UsedReservedBit
  else if sub_code s =? SubStatusCode_Invalid then Err UnknownSubCode
  else if (match info_type s with InfoNotUsed => true | InfoDataValue => false end)
          && negb (Z.land s INFO_BITS_MASK =? 0) then Err InvalidInfoBits
  else Ok tt.

(** ** Bit-field lemmas *)

(** A setter clears the [w] bits from [lo] and writes [v] there. *)
Definition write_field (x lo w v : Z) : Z :=
  Z.lor (Z.land x (not32 (Z.shiftl (Z.ones w) lo))) (Z.shiftl v lo).

(** A bit at or above the width of a number is clear. *)
Lemma testbit_high x w i : 0 <= x < 2 ^ w -> 0 <= w <= i -> Z.testbit x i = false.
Proof.
  intros Hx Hw. rewrite <- (Z.mod_small x (2 ^ w)) by done.
  rewrite Z.testbit_mod_pow2 by lia. destruct (Z.ltb_spec i w); [lia|done].
Qed.

Lemma ones_shift_testbit w lo i :
  0 <= w -> 0 <= lo -> 0 <= i -> Z.testbit (Z.shiftl (Z.ones w) lo) i = (lo <=? i) && (i <? lo + w).
Proof.
  intros Hw Hlo Hi. rewrite Z.shiftl_spec by done.
  destruct (Z.leb_spec lo i); simpl.
  - rewrite Z.testbit_ones_nonneg by lia.
    destruct (Z.ltb_spec (i - lo) w), (Z.ltb_spec i (lo + w)); lia.
  - apply Z.testbit_neg_r. lia.
Qed.

Lemma write_field_spec x lo w v i :
  is_u32 x -> 0 <= lo -> 0 <= w -> lo + w <= 32 -> 0 <= v < 2 ^ w -> 0 <= i ->
  Z.testbit (write_field x lo w v) i =
    if (lo <=? i) && (i <? lo + w) then Z.testbit v (i - lo) else Z.testbit x i.
Proof.
  intros [Hx Hbits]%is_u32_testbit Hlo Hw Hle Hv Hi. unfold write_field.
  rewrite Z.lor_spec, Z.land_spec, not32_spec, ones_shift_testbit, Z.shiftl_spec by done.
  destruct (Z.leb_spec lo i), (Z.ltb_spec i (lo + w)), (Z.ltb_spec i 32); simpl;
    rewrite ?andb_false_r, ?andb_true_r, ?orb_false_l; try done; try lia.
  - rewrite (testbit_high v w) by lia. by rewrite orb_false_r.
  - rewrite (testbit_high v w), Hbits by lia. done.
  - rewrite (Z.testbit_neg_r v) by lia. by rewrite orb_false_r.
Qed.

Lemma write_field_u32 x lo w v :
  is_u32 x -> 0 <= lo -> 0 <= w -> lo + w <= 32 -> 0 <= v < 2 ^ w -> is_u32 (write_field x lo w v).
Proof.
  intros Hx Hlo Hw Hle Hv. apply is_u32_testbit. split.
  - unfold write_field. apply Z.lor_nonneg. split.
    + apply Z.land_nonneg. left. unfold is_u32 in Hx. lia.
    + apply Z.shiftl_nonneg. lia.
  - intros i Hi. rewrite write_field_spec by (done || lia).
    destruct (Z.ltb_spec i (lo + w)); [lia|]. rewrite andb_false_r.
    apply is_u32_testbit in Hx as [_ Hx]. by apply Hx.
Qed.

(** Reading [w] bits at [lo]. *)
Lemma read_field_spec x lo w i :
  0 <= lo -> 0 <= w -> 0 <= i ->
  Z.testbit (Z.land (Z.shiftr x lo) (Z.ones w)) i = (i <? w) && Z.testbit x (i + lo).
Proof.
  intros. rewrite Z.land_spec, Z.shiftr_spec, Z.testbit_ones_nonneg by lia.
  by rewrite andb_comm.
Qed.

Lemma read_write_field x lo w v :
  is_u32 x -> 0 <= lo -> 0 <= w -> lo + w <= 32 -> 0 <= v < 2 ^ w ->
  Z.land (Z.shiftr (write_field x lo w v) lo) (Z.ones w) = v.
Proof.
  intros. apply Z.bits_inj'. intros i Hi. rewrite read_field_spec by done.
  rewrite write_field_spec by (done || lia).
  destruct (Z.ltb_spec i w); simpl.
  - destruct (Z.leb_spec lo (i + lo)), (Z.ltb_spec (i + lo) (lo + w)); try lia.
    simpl. f_equal. lia.
  - symmetry. apply (testbit_high v w); lia.
Qed.

Lemma read_write_field_ne x lo w v lo' w' :
  is_u32 x -> 0 <= lo -> 0 <= w -> lo + w <= 32 -> 0 <= v < 2 ^ w ->
  0 <= lo' -> 0 <= w' -> (lo' + w' <= lo \/ lo + w <= lo') ->
  Z.land (Z.shiftr (write_field x lo w v) lo') (Z.ones w') = Z.land (Z.shiftr x lo') (Z.ones w').
Proof.
  intros. apply Z.bits_inj'. intros i Hi. rewrite !read_field_spec by done.
  destruct (Z.ltb_spec i w'); simpl; [|done].
  rewrite write_field_spec by (done || lia).
  destruct (Z.leb_spec lo (i + lo')), (Z.ltb_spec (i + lo') (lo + w)); simpl; done || lia.
Qed.

Lemma get_bool_testbit s o : 0 <= o -> get_bool s o = Z.testbit s o.
Proof.
  intros Ho. unfold get_bool.
  destruct (Z.eqb_spec (Z.land s (Z.shiftl 1 o)) 0) as [He|Hne]; simpl.
  - apply (f_equal (fun z => Z.testbit z o)) in He.
    rewrite Z.land_spec, Z.shiftl_spec, Z.bits_0, Z.sub_diag, Z.bit0_odd in He by done.
    simpl in He. by rewrite andb_true_r in He.
  - destruct (Z.testbit s o) eqn:Hb; [done|]. destruct Hne. apply Z.bits_inj'. intros i Hi.
    rewrite Z.land_spec, Z.bits_0. change 1 with (Z.ones 1).
    rewrite ones_shift_testbit by lia.
    destruct (decide (i = o)) as [->|]; [by rewrite Hb|].
    destruct (Z.leb_spec o i), (Z.ltb_spec i (o + 1)); simpl; rewrite ?andb_false_r; done || lia.
Qed.

Lemma set_bool_write_field s b o : set_bool s b o = write_field s o 1 (Z.b2z b).
Proof. done. Qed.

Lemma b2z_range b : 0 <= Z.b2z b < 2 ^ 1.
Proof. destruct b; simpl; lia. Qed.

Lemma get_set_bool s b o o' :
  is_u32 s -> 0 <= o < 32 -> 0 <= o' ->
  get_bool (set_bool s b o) o' = if decide (o' = o) then b else get_bool s o'.
Proof.
  intros Hs Ho Ho'. rewrite !get_bool_testbit, set_bool_write_field by lia.
  rewrite write_field_spec by (apply b2z_range || lia || done).
  case_decide as Heq.
  - subst. rewrite Z.leb_refl. destruct (Z.ltb_spec o (o + 1)); [|lia].
    simpl. rewrite Z.sub_diag. by destruct b.
  - destruct (Z.leb_spec o o'), (Z.ltb_spec o' (o + 1)); simpl; done || lia.
Qed.

Lemma set_bool_u32 s b o : is_u32 s -> 0 <= o < 32 -> is_u32 (set_bool s b o).
Proof.
  intros. rewrite set_bool_write_field. apply write_field_u32; try lia; [done|]. apply b2z_range.
Qed.

(** The single-bit flags of a status code. *)
Inductive Flag : Set :=
| FStructureChanged | FSemanticsChanged | FOverflow | FMultiValue | FExtraData | FPartial.

#[export] Instance Flag_eq_dec : EqDecision Flag.
Proof. solve_decision. Defined.

Definition get_flag (f : Flag) : StatusCode -> bool :=
  match f with
  | FStructureChanged => structure_changed | FSemanticsChanged => semantics_changed
  | FOverflow => overflow | FMultiValue => multi_value
  | FExtraData => extra_data | FPartial => partial
  end.
Definition set_flag (f : Flag) : StatusCode -> bool -> StatusCode :=
  match f with
  | FStructureChanged => set_structure_changed | FSemanticsChanged => set_semantics_changed
  | FOverflow => set_overflow | FMultiValue => set_multi_value
  | FExtraData => set_extra_data | FPartial => set_partial
  end.

Lemma get_set_flag f g s b :
  is_u32 s -> get_flag f (set_flag g s b) = if decide (f = g) then b else get_flag f s.
Proof.
  intros Hs. case_decide as Hfg.
  - subst. destruct g; simpl; unfold structure_changed, semantics_changed, overflow, multi_value,
      extra_data, partial, set_structure_changed, set_semantics_changed, set_overflow,
      set_multi_value, set_extra_data, set_partial;
      (rewrite get_set_bool by (done || lia)); by rewrite decide_True.
  - destruct f, g; try done; simpl; unfold structure_changed, semantics_changed, overflow,
      multi_value, extra_data, partial, set_structure_changed, set_semantics_changed, set_overflow,
      set_multi_value, set_extra_data, set_partial;
      (rewrite get_set_bool by (done || lia)); rewrite decide_False by lia; done.
Qed.

Lemma set_flag_u32 f s b : is_u32 s -> is_u32 (set_flag f s b).
Proof. intros Hs. destruct f; simpl; apply set_bool_u32; done || lia. Qed.

Lemma set_flag_severity f s b : is_u32 s -> severity (set_flag f s b) = severity s.
Proof.
  intros Hs. unfold severity. f_equal. f_equal.
  change 3 with (Z.ones 2).
  destruct f; simpl;
    unfold set_structure_changed, set_semantics_changed, set_overflow, set_multi_value,
      set_extra_data, set_partial; rewrite set_bool_write_field;
    apply read_write_field_ne; try lia; done || apply b2z_range.
Qed.

Lemma set_limit_write_field s l : set_limit s l = write_field s 8 2 (limit_value l).
Proof. done. Qed.
Lemma limit_value_range l : 0 <= limit_value l < 2 ^ 2.
Proof. destruct l; simpl; lia. Qed.
Lemma limit_roundtrip l : limit_from_value (limit_value l) = Some l.
Proof. by destruct l. Qed.
Lemma severity_roundtrip l : severity_from_value (severity_value l) = Some l.
Proof. by destruct l. Qed.
Lemma value_type_roundtrip l : value_type_from_value (value_type_value l) = Some l.
Proof. by destruct l. Qed.
Lemma value_type_range l : 0 <= value_type_value l < 2 ^ 2.
Proof. destruct l; simpl; lia. Qed.

Lemma set_value_type_write_field s t :
  set_value_type s t = write_field s 0 2 (value_type_value t).
Proof.
  unfold set_value_type, write_field. rewrite !Z.shiftl_0_r. f_equal. by destruct t.
Qed.

(** [set_severity] writes the sixteen sub-code bits, the severity in the top two of them. *)
Lemma set_severity_write_field s v :
  set_severity s v = write_field s 16 16 (severity_value v * 2 ^ 14).
Proof.
  unfold set_severity, write_field. f_equal. destruct v; reflexivity.
Qed.

Lemma value_type_read s : value_type s =
  default VtUndefined (value_type_from_value (Z.land (Z.shiftr s 0) (Z.ones 2))).
Proof. done. Qed.

Lemma get_set_limit s l : is_u32 s -> limit (set_limit s l) = l.
Proof.
  intros Hs. unfold limit. rewrite set_limit_write_field. change 3 with (Z.ones 2).
  rewrite read_write_field by (done || lia || apply limit_value_range).
  by rewrite limit_roundtrip.
Qed.
Lemma get_set_value_type s l : is_u32 s -> value_type (set_value_type s l) = l.
Proof.
  intros Hs. rewrite value_type_read, set_value_type_write_field.
  rewrite read_write_field by (done || lia || apply value_type_range).
  by rewrite value_type_roundtrip.
Qed.
Lemma get_set_severity s l : is_u32 s -> severity (set_severity s l) = l.
Proof.
  intros Hs. unfold severity.
  assert (Z.land (Z.shiftr (set_severity s l) 30) 3 = severity_value l) as ->;
    [|by rewrite severity_roundtrip].
  rewrite set_severity_write_field. change 3 with (Z.ones 2).
  apply Z.bits_inj'. intros i Hi. rewrite read_field_spec by lia.
  rewrite write_field_spec; [|done|lia|lia|lia|destruct l; simpl; lia|lia].
  destruct (Z.ltb_spec i 2); simpl.
  - destruct (Z.leb_spec 16 (i + 30)), (Z.ltb_spec (i + 30) (16 + 16)); try lia. simpl.
    assert (i = 0 \/ i = 1) as [-> | ->] by lia; by destruct l.
  - symmetry. apply (testbit_high _ 2); [destruct l; simpl; lia|lia].
Qed.

Lemma severity_clears_sub_code s v :
  Z.land (set_severity s v) SUBCODE_MASK = Z.shiftl (severity_value v) 30.
Proof.
  apply Z.bits_inj'. intros i Hi. unfold set_severity.
  rewrite !Z.land_spec, Z.lor_spec, !Z.land_spec, not32_spec by done.
  destruct (Z.testbit SUBCODE_MASK i) eqn:Hm; rewrite ?andb_false_r, ?andb_true_r.
  - destruct (Z.ltb_spec i 32); simpl; [by rewrite andb_false_r|].
    rewrite (testbit_high SUBCODE_MASK 32) in Hm; [done|unfold SUBCODE_MASK; lia|lia].
  - symmetry. rewrite Z.shiftl_spec by done.
    destruct (Z.ltb_spec i 32); [|apply (testbit_high _ 2); [destruct v; simpl; lia|lia]].
    destruct (Z.ltb_spec i 16); [apply Z.testbit_neg_r; lia|].
    change SUBCODE_MASK with (Z.shiftl (Z.ones 16) 16) in Hm.
    rewrite ones_shift_testbit in Hm by lia.
    destruct (Z.leb_spec 16 i), (Z.ltb_spec i (16 + 16)); done || lia.
Qed.

(** What [set_info_type] leaves in the info bits. *)
Lemma set_info_type_info_bits s :
  is_u32 s -> Z.land (set_info_type s InfoNotUsed) INFO_BITS_MASK = 0.
Proof.
  intros Hs. unfold set_info_type. apply Z.bits_inj'. intros i Hi.
  rewrite Z.land_spec, Z.land_spec, not32_spec, Z.bits_0 by done.
  change INFO_BITS_MASK with (Z.ones 10). rewrite Z.testbit_ones_nonneg by lia.
  destruct (Z.ltb_spec i 10), (Z.ltb_spec i 32); simpl; rewrite ?andb_false_r; done || lia.
Qed.

(** ** Properties *)

(** The six flags of a status code are independent: setting one makes its getter return the
    value written, leaves the other five and the severity as they were, and keeps the code within
    32 bits. *)
Theorem flag_set_get (f g : Flag) (s : StatusCode) (b : bool) (Hs : is_u32 s) :
  get_flag f (set_flag g s b) = (if decide (f = g) then b else get_flag f s)
  /\ severity (set_flag g s b) = severity s
  /\ is_u32 (set_flag g s b).
Proof.
  split_and!; [by apply get_set_flag|by apply set_flag_severity|by apply set_flag_u32].
Qed.

Theorem flag_set_get_witness :
  get_flag FOverflow (set_flag FSemanticsChanged BadTimeout true) = false
  /\ severity (set_flag FSemanticsChanged BadTimeout true) = SevBad.
Proof.
  assert (is_u32 BadTimeout) as Hs by (vm_compute; intuition congruence).
  destruct (flag_set_get FOverflow FSemanticsChanged BadTimeout true Hs) as (H1 & H2 & _).
  rewrite H1, H2. split; vm_compute; reflexivity.
Defined.

Lemma sub_code_table_ok :
  forallb (fun p => (snd p =? SubStatusCode_Invalid)
                    || (Z.land (snd p) SUBCODE_MASK =? snd p)
                       && (default 1 (sub_code_from_value (snd p)) =? snd p)) SubStatusCode_table = true.
Proof. vm_compute. reflexivity. Qed.

Lemma land_sub_code_mask_set s c :
  Z.land (set_sub_code s c) SUBCODE_MASK = Z.land c SUBCODE_MASK.
Proof.
  apply Z.bits_inj'. intros i Hi. unfold set_sub_code.
  rewrite !Z.land_spec, Z.lor_spec, !Z.land_spec, not32_spec by done.
  destruct (Z.testbit SUBCODE_MASK i) eqn:Hm; rewrite ?andb_false_r, ?andb_true_r; [|done].
  destruct (Z.ltb_spec i 32); simpl; [by rewrite andb_false_r|].
  rewrite (testbit_high SUBCODE_MASK 32) in Hm; [done| |lia].
  unfold SUBCODE_MASK. lia.
Qed.

Lemma get_set_sub_code s c :
  c ∈ SubStatusCode_table -> snd c <> SubStatusCode_Invalid -> sub_code (set_sub_code s (snd c)) = snd c.
Proof.
  intros Hc Hne. pose proof sub_code_table_ok as Htab. rewrite forallb_forall in Htab.
  specialize (Htab c). rewrite <- list_elem_of_In in Htab. specialize (Htab Hc).
  unfold sub_code. rewrite land_sub_code_mask_set.
  destruct (Z.eqb_spec (snd c) SubStatusCode_Invalid) as [|_]; [done|]. simpl in Htab.
  bool_to_prop. destruct (sub_code_from_value (snd c)) as [d|] eqn:Hf.
  - replace (Z.land (snd c) SUBCODE_MASK) with (snd c) by done. rewrite Hf. simpl in *. lia.
  - simpl in *. replace (snd c) with 1 in H by lia. by vm_compute in H.
Qed.

(** The limit, value-type, severity and sub-code fields read back what was written; setting
    the severity clears the sub code, as the documentation of [set_severity] says. *)
Theorem field_set_get (s : StatusCode) (Hs : is_u32 s)
    (l : StatusCodeLimit) (t : StatusCodeValueType) (v : StatusCodeSeverity) (c : string * Z)
    (Hc : c ∈ SubStatusCode_table) (Hne : snd c <> SubStatusCode_Invalid) :
  limit (set_limit s l) = l
  /\ value_type (set_value_type s t) = t
  /\ severity (set_severity s v) = v
  /\ Z.land (set_severity s v) SUBCODE_MASK = Z.shiftl (severity_value v) 30
  /\ sub_code (set_sub_code s (snd c)) = snd c
  /\ Z.land (set_info_type s InfoNotUsed) INFO_BITS_MASK = 0.
Proof.
  split_and!; [by apply get_set_limit|by apply get_set_value_type|by apply get_set_severity|
    by apply severity_clears_sub_code|by apply get_set_sub_code|by apply set_info_type_info_bits].
Qed.

Theorem field_set_get_witness :
  severity (set_severity BadTimeout SevUncertain) = SevUncertain
  /\ sub_code (set_sub_code 0x80FF0489 BadTimeout) = BadTimeout.
Proof.
  assert (is_u32 BadTimeout) as Hs by (vm_compute; intuition congruence).
  assert (("BadTimeout"%string, BadTimeout) ∈ SubStatusCode_table) as Hc.
  { apply list_elem_of_lookup. exists 14%nat. vm_compute. reflexivity. }
  assert (is_u32 0x80FF0489) as Hs' by (vm_compute; intuition congruence).
  split.
  - destruct (field_set_get BadTimeout Hs LimNone VtRaw SevUncertain _ Hc ltac:(done))
      as (_ & _ & H & _). exact H.
  - destruct (field_set_get _ Hs' LimNone VtRaw SevUncertain _ Hc ltac:(done))
      as (_ & _ & _ & _ & H & _). exact H.
Defined.
