(* ===== verification/NumericRange.v ===== *)
(** * Numeric ranges

    Models [async-opcua-types/src/numeric_range.rs]: the [NumericRange] type, its parser
    ([FromStr], [parse_range]), its printer ([Display]), [is_valid], and its encoding as a
    [UAString] with the [byte_len] the encoder announces.  The regular-expression engine is a
    parameter ([RangeRegex]) that states what the one constant pattern of the file matches; an
    instance shows the statement can hold.

    Theorems: the parser accepts exactly the printed forms it should (round trip in both
    directions between text and canonical ranges), everything parsed is valid, and the exact
    relation between [byte_len] and the number of bytes written. *)

From S2P Require Import Prelude Text.

(** ** Data *)

(** [UAString]: a nullable string. *)
Abbreviation UAString := (option rstr).
(** [UAString::as_ref]. *)
Definition ua_as_ref (s : UAString) : rstr := default [] s.

Inductive NumericRange : Type :=
| NRNone
| NRIndex (i : Z)
| NRRange (min max : Z)
| NRMultiple (ranges : list NumericRange)
| NRInvalid (s : UAString).

Definition COMMA : Z := 44.
Definition COLON : Z := 58.

(** What the constant pattern [^(?P<min>[0-9]{1,10})(:(?P<max>[0-9]{1,10}))?$] matches, with the
    groups it captures. *)
Definition is_number (s : rstr) : Prop := 1 <= zlen s <= 10 /\ forallb is_digit s = true.
Inductive RangeMatch : rstr -> option rstr -> option rstr -> Prop :=
| match_single mn : is_number mn -> RangeMatch mn (Some mn) None
| match_pair mn mx :
    is_number mn -> is_number mx -> RangeMatch (mn ++ COLON :: mx) (Some mn) (Some mx).

(** The regular-expression engine applied to that pattern: [RE.captures(s)] with the [min] and
    [max] groups. *)
Class RangeRegex := {
  captures : rstr -> option (option rstr * option rstr);
  captures_spec : forall s mn mx, captures s = Some (mn, mx) <-> RangeMatch s mn mx
}.

(** ** Operations *)

Section operations.
Context {re : RangeRegex}.

Definition parse_range (s : rstr) : result NumericRange unit :=
  match s with
  | [] => Err tt
  | _ =>
      match captures s with
      | Some (None, _) => Err tt
      | Some (Some mn, None) =>
          match parse_unsigned u32_max mn with
          | Some i => Ok (NRIndex i)
          | None => Err tt
          end
      | Some (Some mn, Some mx) =>
          match parse_unsigned u64_max mn with
          | Some min =>
              match parse_unsigned u64_max mx with
              | Some max =>
                  if (max <=? min) || (u32_max <? max) then Err tt
                  else Ok (NRRange (wrap32 min) (wrap32 max))
              | None => Err tt
              end
          | None => Err tt
          end
      | None => Err tt
      end
  end.

(** The loop over the comma-separated parts. *)
Fixpoint parse_parts (parts : list rstr) : result (list NumericRange) unit :=
  match parts with
  | [] => Ok []
  | p :: ps =>
      let? r := parse_range p in
      let? rs := parse_parts ps in
      Ok (r :: rs)
  end.

Definition from_str (s : rstr) : result NumericRange unit :=
  match s with
  | [] => Ok NRNone
  | _ =>
      match split_on COMMA s with
      | [p] => parse_range p
      | parts => let? ranges := parse_parts parts in Ok (NRMultiple ranges)
      end
  end.

Definition from_ua_string (s : UAString) : NumericRange :=
  match from_str (ua_as_ref s) with Ok r => r | Err _ => NRInvalid s end.
End operations.

(** [Display]. *)
Fixpoint to_string (r : NumericRange) : rstr :=
  match r with
  | NRNone => []
  | NRIndex i => decimal i
  | NRRange min max => decimal min ++ COLON :: decimal max
  | NRMultiple rs =>
      (fix go (needs_comma : bool) (rs : list NumericRange) : rstr :=
         match rs with
         | [] => []
         | r :: rs' => (if needs_comma then [COMMA] else []) ++ to_string r ++ go true rs'
         end) false rs
  | NRInvalid s => ua_as_ref s
  end.

Definition to_ua_string (r : NumericRange) : UAString :=
  match r with
  | NRNone => None
  | NRInvalid s => s
  | _ => Some (to_string r)
  end.

Fixpoint is_valid (r : NumericRange) : bool :=
  match r with
  | NRNone => true
  | NRIndex _ => true
  | NRRange min max => min <? max
  | NRMultiple rs =>
      negb (existsb (fun r => match r with NRMultiple _ => true | r => negb (is_valid r) end) rs)
  | NRInvalid _ => false
  end.

Definition num_len (n : Z) : Z := if n =? 0 then 1 else ilog10 n + 1.

(** [byte_len]; [usize] arithmetic wraps in release mode. *)
Fixpoint byte_len (r : NumericRange) : Z :=
  (4 + match r with
       | NRNone => 0
       | NRIndex i => num_len i
       | NRRange l r => num_len l + num_len r + 1
       | NRMultiple rs => foldr (fun r n => byte_len r + n) 0 rs + zlen rs - 1
       | NRInvalid s => utf8_len (ua_as_ref s)
       end) mod (usize_max + 1).

(** The bytes the encoder writes for a [UAString]: a 4-byte length and the UTF-8 text. *)
Definition ua_string_encoded_len (s : UAString) : Z :=
  match s with None => 4 | Some t => 4 + utf8_len t end.

(** ** Canonical ranges: what the parser produces *)

Definition dimension_ok (r : NumericRange) : bool :=
  match r with
  | NRIndex i => (0 <=? i) && (i <=? u32_max)
  | NRRange a b => (0 <=? a) && (a <? b) && (b <=? u32_max)
  | _ => false
  end.
Definition canonical (r : NumericRange) : bool :=
  match r with
  | NRNone => true
  | NRMultiple rs => (2 <=? zlen rs) && forallb dimension_ok rs
  | r => dimension_ok r
  end.

(** ** Lemmas *)

Lemma number_ne s : is_number s -> s <> [].
Proof. intros [Hl _] ->. unfold zlen in Hl. simpl in Hl. lia. Qed.
Lemma number_value s : is_number s -> 0 <= digits_value s < 10 ^ 10.
Proof.
  intros [Hl Hd]. pose proof (digits_value_bound s Hd).
  assert (10 ^ zlen s <= 10 ^ 10) by (apply Z.pow_le_mono_r; lia). lia.
Qed.
Lemma decimal_number n : is_u32 n -> is_number (decimal n).
Proof.
  intros Hn. split; [by apply decimal_length_u32|]. apply decimal_digits. int_lia.
Qed.
Lemma number_parse max s :
  is_number s -> parse_unsigned max s = if digits_value s <=? max then Some (digits_value s) else None.
Proof.
  intros Hs. pose proof (number_ne s Hs) as Hne. destruct Hs as [_ Hd].
  unfold parse_unsigned. destruct s; [done|]. rewrite Hd. done.
Qed.

(** What a single dimension may be, in terms of the text. *)
Inductive DimensionText : rstr -> NumericRange -> Prop :=
| dim_index s : is_number s -> digits_value s <= u32_max -> DimensionText s (NRIndex (digits_value s))
| dim_range a b :
    is_number a -> is_number b -> digits_value a < digits_value b -> digits_value b <= u32_max ->
    DimensionText (a ++ COLON :: b) (NRRange (digits_value a) (digits_value b)).

Section parsing.
Context {re : RangeRegex}.

Lemma parse_range_text s r : parse_range s = Ok r <-> DimensionText s r.
Proof.
  split.
  - unfold parse_range. destruct s as [|c s']; [done|]. set (s := c :: s').
    destruct (captures s) as [[mn mx]|] eqn:Hc; [|done]. apply captures_spec in Hc.
    destruct Hc as [mn Hn|mn mx Hn Hm].
    + rewrite number_parse by done. destruct (Z.leb_spec (digits_value mn) u32_max); [|done].
      intros [= <-]. by constructor.
    + rewrite !number_parse by done.
      pose proof (number_value mn Hn). pose proof (number_value mx Hm).
      destruct (Z.leb_spec (digits_value mn) u64_max); [|done].
      destruct (Z.leb_spec (digits_value mx) u64_max); [|done].
      destruct (Z.leb_spec (digits_value mx) (digits_value mn)); [done|].
      destruct (Z.ltb_spec u32_max (digits_value mx)); [done|]. simpl.
      intros [= <-]. rewrite !wrap32_small by int_lia. by constructor.
  - destruct 1 as [s Hs Hle|a b Ha Hb Hlt Hle].
    + pose proof (number_ne s Hs) as Hne. unfold parse_range. destruct s as [|c s']; [done|].
      assert (captures (c :: s') = Some (Some (c :: s'), None)) as ->
        by (apply captures_spec; by constructor).
      rewrite number_parse by done. destruct (Z.leb_spec (digits_value (c :: s')) u32_max); [done|lia].
    + unfold parse_range. destruct (a ++ COLON :: b) as [|c s'] eqn:E; [by destruct a|].
      assert (captures (c :: s') = Some (Some a, Some b)) as ->
        by (apply captures_spec; rewrite <- E; by constructor).
      pose proof (number_value a Ha). pose proof (number_value b Hb).
      rewrite !number_parse by done.
      destruct (Z.leb_spec (digits_value a) u64_max); [|int_lia].
      destruct (Z.leb_spec (digits_value b) u64_max); [|int_lia].
      destruct (Z.leb_spec (digits_value b) (digits_value a)); [lia|].
      destruct (Z.ltb_spec u32_max (digits_value b)); [lia|]. simpl.
      by rewrite !wrap32_small by int_lia.
Qed.

Lemma dimension_text_ok s r : DimensionText s r -> dimension_ok r = true.
Proof.
  destruct 1; simpl; rewrite ?andb_true_iff, ?Z.leb_le, ?Z.ltb_lt.
  - pose proof (number_value s ltac:(done)). lia.
  - pose proof (number_value a ltac:(done)). lia.
Qed.

Lemma dimension_ok_text r : dimension_ok r = true -> DimensionText (to_string r) r.
Proof.
  destruct r as [|i|a b| |]; simpl; try done; intros Hok; bool_to_prop.
  - assert (is_u32 i) by int_lia. rewrite <- (decimal_value i) at 2 by int_lia.
    constructor; [by apply decimal_number|]. rewrite decimal_value; int_lia.
  - assert (is_u32 a) by int_lia. assert (is_u32 b) by int_lia.
    assert (digits_value (decimal a) = a) as Ha by (apply decimal_value; int_lia).
    assert (digits_value (decimal b) = b) as Hb by (apply decimal_value; int_lia).
    pose proof (dim_range (decimal a) (decimal b)) as Hd. rewrite Ha, Hb in Hd.
    apply Hd; try by apply decimal_number. all: lia.
Qed.

Lemma dimension_text_ascii s r :
  DimensionText s r -> s <> [] /\ Forall (fun c => c <> COMMA) s /\ Forall (fun c => c < 0x80) s.
Proof.
  assert (forall t, is_number t -> Forall (fun c => c <> COMMA) t /\ Forall (fun c => c < 0x80) t) as Hnum.
  { intros t [_ Ht]. split; apply digits_Forall; try done; unfold COMMA; lia. }
  destruct 1 as [s Hs _|a b Ha Hb _ _].
  - destruct (Hnum s Hs). split; [by apply number_ne|done].
  - destruct (Hnum a Ha), (Hnum b Hb). split; [by destruct a|].
    split; apply Forall_app; (split; [done|]); constructor; done.
Qed.

Lemma parse_parts_ok parts rs :
  parse_parts parts = Ok rs <-> Forall2 (fun p r => parse_range p = Ok r) parts rs.
Proof.
  revert rs. induction parts as [|p ps IH]; intros rs; simpl.
  - split; [by intros [= <-]|]. by inversion 1.
  - rewrite result_bind_ok. setoid_rewrite result_bind_ok. setoid_rewrite IH. split.
    + intros (r & Hr & rs' & Hrs & [= <-]). by constructor.
    + inversion 1; subst. eauto 10.
Qed.
End parsing.

(** The loop of [Display] is a comma-separated join. *)
Definition display_parts : bool -> list NumericRange -> rstr :=
  fix go (needs_comma : bool) (rs : list NumericRange) : rstr :=
    match rs with
    | [] => []
    | r :: rs' => (if needs_comma then [COMMA] else []) ++ to_string r ++ go true rs'
    end.
Lemma to_string_multiple rs : to_string (NRMultiple rs) = display_parts false rs.
Proof. done. Qed.

Lemma split_display rs r :
  Forall (fun r => Forall (fun c => c <> COMMA) (to_string r)) (r :: rs) ->
  split_on COMMA (display_parts false (r :: rs)) = map to_string (r :: rs).
Proof.
  revert r. induction rs as [|r' rs IH]; intros r Hall; inversion Hall; subst; simpl.
  - rewrite app_nil_r. by apply split_on_none.
  - rewrite split_on_app by done. f_equal. by apply (IH r').
Qed.

Section roundtrip.
Context {re : RangeRegex}.

Lemma dimensions_text rs :
  forallb dimension_ok rs = true -> Forall2 (fun p r => parse_range p = Ok r) (map to_string rs) rs.
Proof.
  induction rs as [|r rs IH]; simpl; [by constructor|].
  intros [Hr Hrs]%andb_true_iff. constructor; [|by apply IH].
  by apply parse_range_text, dimension_ok_text.
Qed.

Lemma from_str_single s :
  s <> [] -> Forall (fun c => c <> COMMA) s -> from_str s = parse_range s.
Proof.
  intros Hne Hs. unfold from_str. destruct s as [|c s']; [done|]. by rewrite split_on_none.
Qed.

Lemma from_to_string r : canonical r = true -> from_str (to_string r) = Ok r.
Proof.
  assert (forall r, dimension_ok r = true -> from_str (to_string r) = Ok r) as Hdim.
  { intros r' Hr. apply dimension_ok_text in Hr.
    destruct (dimension_text_ascii _ _ Hr) as (Hne & Hs & _).
    rewrite from_str_single by done. by apply parse_range_text. }
  destruct r as [|i|a b|rs|s]; try done; [by apply (Hdim (NRIndex i))|by apply (Hdim (NRRange a b))|].
  simpl canonical. intros [Hlen Hrs]%andb_true_iff. apply Z.leb_le in Hlen.
  assert (Forall (fun r => Forall (fun c => c <> COMMA) (to_string r)) rs) as Hall.
  { apply Forall_forall. intros r Hr. rewrite forallb_forall in Hrs.
    apply list_elem_of_In, Hrs, dimension_ok_text in Hr.
    by destruct (dimension_text_ascii _ _ Hr) as (_ & Hs & _). }
  destruct rs as [|r1 [|r2 rs]]; [unfold zlen in Hlen; simpl in Hlen; lia..|].
  rewrite to_string_multiple. pose proof (split_display (r2 :: rs) r1 Hall) as Hsplit.
  unfold from_str. destruct (display_parts false _) as [|c s'] eqn:E; [done|].
  rewrite Hsplit. pose proof (dimensions_text _ Hrs) as Hp. apply parse_parts_ok in Hp.
  change (map to_string (r1 :: r2 :: rs))
    with (to_string r1 :: to_string r2 :: map to_string rs) in *.
  lazy beta iota. by rewrite Hp.
Qed.

Lemma parse_range_dimension p r : parse_range p = Ok r -> dimension_ok r = true.
Proof. intros H%parse_range_text. by eapply dimension_text_ok. Qed.

Lemma dimension_canonical r : dimension_ok r = true -> canonical r = true.
Proof. by destruct r. Qed.

Lemma from_str_canonical s r : from_str s = Ok r -> canonical r = true.
Proof.
  unfold from_str. destruct s as [|c s']; [by intros [= <-]|].
  destruct (split_on COMMA (c :: s')) as [|p1 [|p2 ps]] eqn:E; [by destruct (split_on_ne COMMA (c :: s'))| |].
  - intros H. by apply dimension_canonical, (parse_range_dimension p1).
  - rewrite result_bind_ok. intros (rs & Hrs%parse_parts_ok & [= <-]).
    pose proof (Forall2_length _ _ _ Hrs) as Hlen. simpl in Hlen |- *.
    apply andb_true_iff. split; [unfold zlen; apply Z.leb_le; lia|].
    apply forallb_forall. intros r Hr%list_elem_of_In.
    apply list_elem_of_lookup in Hr as [i Hi].
    destruct (Forall2_lookup_r _ _ _ _ _ Hrs Hi) as (p & _ & Hp).
    by apply (parse_range_dimension p).
Qed.
End roundtrip.

Lemma dimension_valid r : dimension_ok r = true -> is_valid r = true.
Proof. destruct r; simpl; try done. intros. bool_to_prop. by apply Z.ltb_lt. Qed.

Lemma canonical_valid r : canonical r = true -> is_valid r = true.
Proof.
  destruct r as [| | |rs|]; try done; [by apply dimension_valid|].
  simpl. intros [_ Hrs]%andb_true_iff. apply negb_true_iff.
  apply not_true_iff_false. rewrite existsb_exists. intros (r & Hr & Hbad).
  rewrite forallb_forall in Hrs. specialize (Hrs r Hr).
  pose proof (dimension_valid r Hrs) as Hv. destruct r; try done.
  all: by rewrite Hv in Hbad.
Qed.

(** *** [byte_len] *)

Lemma num_len_decimal n : is_u32 n -> num_len n = zlen (decimal n).
Proof.
  intros Hn. unfold num_len. rewrite decimal_length by int_lia.
  destruct (Z.eqb_spec n 0) as [->|]; [reflexivity|lia].
Qed.

Lemma dimension_display_len r :
  dimension_ok r = true -> byte_len r = 4 + utf8_len (to_string r) /\ 1 <= utf8_len (to_string r) <= 21.
Proof.
  intros Hok. pose proof (dimension_ok_text r Hok) as Ht.
  destruct (dimension_text_ascii _ _ Ht) as (_ & _ & Hascii).
  rewrite utf8_len_ascii by done.
  destruct r as [|i|a b| |]; simpl in Hok; try done; bool_to_prop; simpl.
  - assert (is_u32 i) by int_lia. pose proof (decimal_length_u32 i ltac:(done)).
    rewrite num_len_decimal by done. rewrite Z.mod_small; int_lia.
  - assert (is_u32 a) by int_lia. assert (is_u32 b) by int_lia.
    pose proof (decimal_length_u32 a ltac:(done)). pose proof (decimal_length_u32 b ltac:(done)).
    rewrite !num_len_decimal by done. unfold zlen in *. rewrite length_app. simpl length.
    rewrite Z.mod_small; int_lia.
Qed.

Lemma display_parts_len rs nc :
  forallb dimension_ok rs = true ->
  utf8_len (display_parts nc rs) + 4 * zlen rs + (if nc then 0 else Z.min 1 (zlen rs)) =
    foldr (fun r n => byte_len r + n) 0 rs + zlen rs
  /\ 0 <= foldr (fun r n => byte_len r + n) 0 rs <= 25 * zlen rs.
Proof.
  revert nc. induction rs as [|r rs IH]; intros nc; simpl; [destruct nc; unfold zlen; simpl; lia|].
  intros [Hr Hrs]%andb_true_iff. destruct (dimension_display_len r Hr) as [Hb Hl].
  destruct (IH true Hrs) as [IH1 IH2]. rewrite !utf8_len_app, Hb.
  unfold zlen in *. simpl length. rewrite Nat2Z.inj_succ.
  split; [|lia]. destruct nc; simpl utf8_len; unfold utf8_len_char, COMMA; simpl; lia.
Qed.

(** ** Properties *)

(** Text and ranges round trip.  The parser maps every text to a canonical, valid range or
    rejects it; printing a canonical range and parsing it gives the range back; and a range that
    went through a [UAString] once (including text that does not parse, kept as [Invalid]) is
    unchanged by encoding and decoding it again. *)
Theorem numeric_range_roundtrip {re : RangeRegex} :
  (forall s r, from_str s = Ok r -> canonical r = true /\ is_valid r = true)
  /\ (forall r, canonical r = true -> from_str (to_string r) = Ok r)
  /\ (forall u, from_ua_string (to_ua_string (from_ua_string u)) = from_ua_string u).
Proof.
  split_and!.
  - intros s r H. apply from_str_canonical in H as Hc. eauto using canonical_valid.
  - apply from_to_string.
  - intros u. unfold from_ua_string at 2 3. destruct (from_str (ua_as_ref u)) as [r|[]] eqn:E.
    + pose proof (from_str_canonical _ _ E) as Hc. pose proof (from_to_string r Hc) as Hr.
      unfold from_ua_string. destruct r; simpl in *; try done; by rewrite Hr.
    + simpl. unfold from_ua_string. by rewrite E.
Qed.

(** The parser accepts, for one dimension, exactly a number of one to ten digits that fits 32
    bits, or two of them separated by a colon with the first strictly smaller, and returns their
    values. *)
Theorem parse_dimension_spec {re : RangeRegex} (s : rstr) (r : NumericRange) :
  parse_range s = Ok r <-> DimensionText s r.
Proof. apply parse_range_text. Qed.

(** The length announced for a canonical range is the number of bytes of its encoding, except
    that a range with several dimensions announces four bytes too many for each dimension (the
    recursive call adds the string's length prefix once per dimension). *)
Theorem byte_len_announced (r : NumericRange) (Hr : canonical r = true)
    (Hsize : match r with NRMultiple rs => zlen rs <= u32_max | _ => True end) :
  byte_len r = ua_string_encoded_len (to_ua_string r)
               + match r with NRMultiple rs => 4 * zlen rs | _ => 0 end.
Proof.
  destruct r as [|i|a b|rs|s]; [reflexivity| | | |done].
  - destruct (dimension_display_len (NRIndex i) Hr) as [H _]. rewrite H. simpl. lia.
  - destruct (dimension_display_len (NRRange a b) Hr) as [H _]. rewrite H. simpl. lia.
  - simpl canonical in Hr. apply andb_true_iff in Hr as [Hlen Hrs]. apply Z.leb_le in Hlen.
    destruct (display_parts_len rs false Hrs) as [H1 H2].
    change (to_ua_string (NRMultiple rs)) with (Some (display_parts false rs)). simpl.
    rewrite Z.mod_small by int_lia. lia.
Qed.

Theorem byte_len_announced_witness :
  byte_len (NRMultiple [NRIndex 1; NRIndex 2]) = 15
  /\ ua_string_encoded_len (to_ua_string (NRMultiple [NRIndex 1; NRIndex 2])) = 7.
Proof.
  pose proof (byte_len_announced (NRMultiple [NRIndex 1; NRIndex 2]) eq_refl ltac:(vm_compute; discriminate)) as H.
  split; [rewrite H|]; vm_compute; reflexivity.
Defined.

(** ** The regular-expression interface can be met *)

Definition is_number_b (s : rstr) : bool := (1 <=? zlen s) && (zlen s <=? 10) && forallb is_digit s.

Lemma is_number_b_spec s : is_number_b s = true <-> is_number s.
Proof. unfold is_number_b, is_number. rewrite !andb_true_iff, !Z.leb_le. tauto. Qed.

Definition run_pattern (s : rstr) : option (option rstr * option rstr) :=
  match split_on COLON s with
  | [a] => if is_number_b a then Some (Some a, None) else None
  | [a; b] => if is_number_b a && is_number_b b then Some (Some a, Some b) else None
  | _ => None
  end.

Lemma number_no_colon s : is_number s -> Forall (fun c => c <> COLON) s.
Proof. intros [_ Hs]. apply digits_Forall; [done|]. unfold COLON. lia. Qed.

Lemma join_split sep s : foldr (fun p q => match q with None => Some p | Some q => Some (p ++ sep :: q) end)
    None (split_on sep s) = Some s.
Proof.
  induction s as [|c s IH]; simpl; [done|].
  destruct (Z.eqb_spec c sep) as [->|]; simpl; [by rewrite IH|].
  destruct (split_on sep s) as [|p ps]; simpl in *; [done|].
  destruct (foldr _ None ps); naive_solver.
Qed.

#[export] Program Instance regex_instance : RangeRegex := {| captures := run_pattern |}.
Next Obligation.
  intros s mn mx. unfold run_pattern. split.
  - pose proof (join_split COLON s) as Hj. destruct (split_on COLON s) as [|a [|b [|]]]; try done.
    + simpl in Hj. destruct (is_number_b a) eqn:Ha; [|done]. intros [= <- <-].
      injection Hj as ->. constructor. by apply is_number_b_spec.
    + simpl in Hj. destruct (is_number_b a) eqn:Ha, (is_number_b b) eqn:Hb; try done.
      intros [= <- <-]. injection Hj as <-. constructor; by apply is_number_b_spec.
  - destruct 1 as [mn Hn|mn mx Hn Hm].
    + rewrite split_on_none by by apply number_no_colon. apply is_number_b_spec in Hn. by rewrite Hn.
    + rewrite split_on_app, split_on_none by by apply number_no_colon.
      apply is_number_b_spec in Hn, Hm. by rewrite Hn, Hm.
Qed.

(** Inputs of the test-suite of the source. *)
Example parse_examples :
  from_str (str "0:1,2") = Ok (NRMultiple [NRRange 0 1; NRIndex 2])
  /\ from_str (str "0123456789") = Ok (NRIndex 123456789)
  /\ from_str (str "1:1") = Err tt /\ from_str (str "1,") = Err tt
  /\ from_str (str "4294967296") = Err tt /\ from_str (str "01234567890") = Err tt
  /\ from_str (str " 1") = Err tt /\ from_str (str "") = Ok NRNone.
Proof. vm_compute. done. Qed.

Lemma numeric_range_roundtrip_witness :
  from_str (to_string (NRMultiple [NRRange 0 1; NRIndex 2])) = Ok (NRMultiple [NRRange 0 1; NRIndex 2])
  /\ to_string (NRMultiple [NRRange 0 1; NRIndex 2]) = str "0:1,2".
Proof.
  split; [|vm_compute; reflexivity].
  apply (proj1 (proj2 numeric_range_roundtrip)). vm_compute. reflexivity.
Defined.

Lemma parse_dimension_spec_witness : parse_range (str "3:17") = Ok (NRRange 3 17).
Proof.
  assert (is_number (str "3") /\ is_number (str "17")) as [H3 H17].
  { split; apply is_number_b_spec; vm_compute; reflexivity. }
  apply parse_dimension_spec. apply (dim_range (str "3") (str "17") H3 H17).
  - vm_compute. reflexivity.
  - vm_compute. discriminate.
Defined.
