(* ===== verification/Variant.v ===== *)
(** * Variants, arrays and data values

    Models [async-opcua-types/src/variant/mod.rs] (the [Variant] type, its equality, [type_id],
    [data_type], [as_f64], [range_of], [set_range_of] and their helpers), [array.rs], the
    substring functions of [string.rs] and [byte_string.rs], and the [DataValue] record of
    [data_value.rs].  An extension object's body is a trait object; its type, equality and data
    type are the parameter class [DynEncodable]. *)

From S2P Require Import Prelude Text Float StatusCode NumericRange.

(** ** Data *)

(** Trait objects inside an [ExtensionObject]. *)
Class DynEncodable := {
  dyn : Type;
  dyn_eqb : dyn -> dyn -> bool;
  (** [data_type()]: the numeric identifier of the type, when it has one. *)
  dyn_data_type : dyn -> option Z
}.

(** [ByteString]: nullable bytes. *)
Abbreviation ByteString := (option (list Z)).
(** [DateTime]: nanoseconds since the Unix epoch, a multiple of 100. *)
Abbreviation DateTime := Z.

Inductive Identifier : Type :=
| IdNumeric (n : Z) | IdString (s : UAString) | IdGuid (g : list Z) | IdByteString (b : ByteString).
Record NodeId := { namespace : Z; identifier : Identifier }.
Record ExpandedNodeId := { node_id : NodeId; namespace_uri : UAString; server_index : Z }.
Record QualifiedName := { namespace_index : Z; qname : UAString }.
Record LocalizedText := { locale : UAString; text : UAString }.

#[export] Instance Identifier_eq_dec : EqDecision Identifier.
Proof. solve_decision. Defined.
#[export] Instance NodeId_eq_dec : EqDecision NodeId.
Proof. solve_decision. Defined.
#[export] Instance ExpandedNodeId_eq_dec : EqDecision ExpandedNodeId.
Proof. solve_decision. Defined.
#[export] Instance QualifiedName_eq_dec : EqDecision QualifiedName.
Proof. solve_decision. Defined.
#[export] Instance LocalizedText_eq_dec : EqDecision LocalizedText.
Proof. solve_decision. Defined.

Inductive DiagnosticInfo : Type :=
| DiagInfo (symbolic_id namespace_uri locale localized_text : option Z)
    (additional_info : option UAString) (inner_status_code : option StatusCode)
    (inner_diagnostic_info : option DiagnosticInfo).

Fixpoint diag_eqb (a b : DiagnosticInfo) : bool :=
  match a, b with
  | DiagInfo a1 a2 a3 a4 a5 a6 a7, DiagInfo b1 b2 b3 b4 b5 b6 b7 =>
      bool_decide (a1 = b1) && bool_decide (a2 = b2) && bool_decide (a3 = b3)
      && bool_decide (a4 = b4) && bool_decide (a5 = b5) && bool_decide (a6 = b6)
      && match a7, b7 with
         | Some x, Some y => diag_eqb x y | None, None => true | _, _ => false
         end
  end.

Inductive VariantScalarTypeId : Set :=
| TBoolean | TSByte | TByte | TInt16 | TUInt16 | TInt32 | TUInt32 | TInt64 | TUInt64
| TFloat | TDouble | TString | TDateTime | TGuid | TByteString | TXmlElement | TNodeId
| TExpandedNodeId | TStatusCode | TQualifiedName | TLocalizedText | TExtensionObject
| TDataValue | TVariant | TDiagnosticInfo.

#[export] Instance VariantScalarTypeId_eq_dec : EqDecision VariantScalarTypeId.
Proof. solve_decision. Defined.

(** [Array] and [DataValue], over the type of variants they hold. *)
Record ArrayOf (V : Type) := mkArray {
  value_type : VariantScalarTypeId;
  values : list V;
  dimensions : option (list Z)
}.
Arguments mkArray {V}.
Arguments value_type {V}.
Arguments values {V}.
Arguments dimensions {V}.

Record DataValueOf (V : Type) := mkDataValue {
  dv_value : option V;
  dv_status : option StatusCode;
  source_timestamp : option DateTime;
  source_picoseconds : option Z;
  server_timestamp : option DateTime;
  server_picoseconds : option Z
}.
Arguments mkDataValue {V}.
Arguments dv_value {V}.
Arguments dv_status {V}.
Arguments source_timestamp {V}.
Arguments source_picoseconds {V}.
Arguments server_timestamp {V}.
Arguments server_picoseconds {V}.

Inductive Variant {D : DynEncodable} : Type :=
| VEmpty
| VBoolean (b : bool)
| VSByte (z : Z) | VByte (z : Z) | VInt16 (z : Z) | VUInt16 (z : Z) | VInt32 (z : Z)
| VUInt32 (z : Z) | VInt64 (z : Z) | VUInt64 (z : Z)
| VFloat (f : f32) | VDouble (f : f64)
| VString (s : UAString)
| VDateTime (t : DateTime)
| VGuid (g : list Z)
| VStatusCode (s : StatusCode)
| VByteString (b : ByteString)
| VXmlElement (s : UAString)
| VQualifiedName (q : QualifiedName)
| VLocalizedText (t : LocalizedText)
| VNodeId (n : NodeId)
| VExpandedNodeId (n : ExpandedNodeId)
| VExtensionObject (body : option dyn)
| VVariant (v : Variant)
| VDataValue (d : DataValueOf Variant)
| VDiagnosticInfo (d : DiagnosticInfo)
| VArray (a : ArrayOf Variant).

Inductive VariantTypeId : Type :=
| TyEmpty | TyScalar (s : VariantScalarTypeId) | TyArray (s : VariantScalarTypeId) (dims : option (list Z)).

Inductive ArrayError : Set := ContentMismatch | InvalidDimensions.

Section variant.
Context {D : DynEncodable}.

Abbreviation Array := (ArrayOf Variant).
Abbreviation DataValue := (DataValueOf Variant).

(** ** Equality ([PartialEq], derived: NaN differs from itself) *)

Fixpoint variant_eqb (a b : Variant) {struct a} : bool :=
  let option_eqb :=
    fun (f : Variant -> Variant -> bool) (x y : option Variant) =>
      match x, y with Some x, Some y => f x y | None, None => true | _, _ => false end in
  match a, b with
  | VEmpty, VEmpty => true
  | VBoolean x, VBoolean y => Bool.eqb x y
  | VSByte x, VSByte y | VByte x, VByte y | VInt16 x, VInt16 y | VUInt16 x, VUInt16 y
  | VInt32 x, VInt32 y | VUInt32 x, VUInt32 y | VInt64 x, VInt64 y | VUInt64 x, VUInt64 y
  | VDateTime x, VDateTime y | VStatusCode x, VStatusCode y => x =? y
  | VFloat x, VFloat y | VDouble x, VDouble y => f64_eq x y
  | VString x, VString y | VXmlElement x, VXmlElement y => bool_decide (x = y)
  | VGuid x, VGuid y => bool_decide (x = y)
  | VByteString x, VByteString y => bool_decide (x = y)
  | VQualifiedName x, VQualifiedName y => bool_decide (x = y)
  | VLocalizedText x, VLocalizedText y => bool_decide (x = y)
  | VNodeId x, VNodeId y => bool_decide (x = y)
  | VExpandedNodeId x, VExpandedNodeId y => bool_decide (x = y)
  | VExtensionObject x, VExtensionObject y =>
      match x, y with Some x, Some y => dyn_eqb x y | None, None => true | _, _ => false end
  | VVariant x, VVariant y => variant_eqb x y
  | VDataValue x, VDataValue y =>
      option_eqb variant_eqb (dv_value x) (dv_value y)
      && bool_decide (dv_status x = dv_status y)
      && bool_decide (source_timestamp x = source_timestamp y)
      && bool_decide (source_picoseconds x = source_picoseconds y)
      && bool_decide (server_timestamp x = server_timestamp y)
      && bool_decide (server_picoseconds x = server_picoseconds y)
  | VDiagnosticInfo x, VDiagnosticInfo y => diag_eqb x y
  | VArray x, VArray y =>
      bool_decide (value_type x = value_type y)
      && (fix list_eqb (l1 l2 : list Variant) : bool :=
            match l1, l2 with
            | [], [] => true
            | v1 :: l1', v2 :: l2' => variant_eqb v1 v2 && list_eqb l1' l2'
            | _, _ => false
            end) (values x) (values y)
      && bool_decide (dimensions x = dimensions y)
  | _, _ => false
  end.

Definition variant_option_eqb (x y : option Variant) : bool :=
  match x, y with Some x, Some y => variant_eqb x y | None, None => true | _, _ => false end.

(** [PartialEq] of [DataValue]. *)
Definition data_value_eqb (x y : DataValue) : bool :=
  variant_option_eqb (dv_value x) (dv_value y)
  && bool_decide (dv_status x = dv_status y)
  && bool_decide (source_timestamp x = source_timestamp y)
  && bool_decide (source_picoseconds x = source_picoseconds y)
  && bool_decide (server_timestamp x = server_timestamp y)
  && bool_decide (server_picoseconds x = server_picoseconds y).

(** [DataValue::status]: [Good] when absent; [is_valid]. *)
Definition dv_status_or_good (d : DataValue) : StatusCode := default Good (dv_status d).
Definition dv_is_valid (d : DataValue) : bool := is_good (dv_status_or_good d).
Definition dv_set_status (d : DataValue) (s : StatusCode) : DataValue :=
  mkDataValue (dv_value d) (Some s) (source_timestamp d) (source_picoseconds d)
              (server_timestamp d) (server_picoseconds d).
Definition dv_set_value (d : DataValue) (v : option Variant) : DataValue :=
  mkDataValue v (dv_status d) (source_timestamp d) (source_picoseconds d)
              (server_timestamp d) (server_picoseconds d).
Definition dv_set_source_timestamp (d : DataValue) (t : option DateTime) : DataValue :=
  mkDataValue (dv_value d) (dv_status d) t (source_picoseconds d)
              (server_timestamp d) (server_picoseconds d).

(** ** Types *)

Definition type_id (v : Variant) : VariantTypeId :=
  match v with
  | VEmpty => TyEmpty
  | VBoolean _ => TyScalar TBoolean
  | VSByte _ => TyScalar TSByte
  | VByte _ => TyScalar TByte
  | VInt16 _ => TyScalar TInt16
  | VUInt16 _ => TyScalar TUInt16
  | VInt32 _ => TyScalar TInt32
  | VUInt32 _ => TyScalar TUInt32
  | VInt64 _ => TyScalar TInt64
  | VUInt64 _ => TyScalar TUInt64
  | VFloat _ => TyScalar TFloat
  | VDouble _ => TyScalar TDouble
  | VString _ => TyScalar TString
  | VDateTime _ => TyScalar TDateTime
  | VGuid _ => TyScalar TGuid
  | VByteString _ => TyScalar TByteString
  | VXmlElement _ => TyScalar TXmlElement
  | VNodeId _ => TyScalar TNodeId
  | VExpandedNodeId _ => TyScalar TExpandedNodeId
  | VStatusCode _ => TyScalar TStatusCode
  | VQualifiedName _ => TyScalar TQualifiedName
  | VLocalizedText _ => TyScalar TLocalizedText
  | VExtensionObject _ => TyScalar TExtensionObject
  | VVariant _ => TyScalar TVariant
  | VDataValue _ => TyScalar TDataValue
  | VDiagnosticInfo _ => TyScalar TDiagnosticInfo
  | VArray a => TyArray (value_type a) (dimensions a)
  end.

Definition scalar_type_id (v : Variant) : option VariantScalarTypeId :=
  match type_id v with
  | TyEmpty => None
  | TyScalar s => Some s
  | TyArray s _ => Some s
  end.

Definition is_numeric (v : Variant) : bool :=
  match v with
  | VSByte _ | VByte _ | VInt16 _ | VUInt16 _ | VInt32 _ | VUInt32 _ | VInt64 _ | VUInt64 _
  | VFloat _ | VDouble _ => true
  | _ => false
  end.

Definition as_array (v : Variant) : option (list Variant) :=
  match v with VArray a => Some (values a) | _ => None end.

Definition as_f64 (v : Variant) : option f64 :=
  match v with
  | VSByte z | VByte z | VInt16 z | VUInt16 z | VInt32 z | VUInt32 z | VInt64 z | VUInt64 z =>
      Some (f64_of_Z z)
  | VFloat f => Some (f64_of_f32 f)
  | VDouble f => Some f
  | _ => None
  end.

(** The numeric [DataTypeId] of a variant. *)
Fixpoint data_type (v : Variant) : option Z :=
  match v with
  | VBoolean _ => Some 1
  | VSByte _ => Some 2
  | VByte _ => Some 3
  | VInt16 _ => Some 4
  | VUInt16 _ => Some 5
  | VInt32 _ => Some 6
  | VUInt32 _ => Some 7
  | VInt64 _ => Some 8
  | VUInt64 _ => Some 9
  | VFloat _ => Some 10
  | VDouble _ => Some 11
  | VString _ => Some 12
  | VDateTime _ => Some 13
  | VGuid _ => Some 14
  | VByteString _ => Some 15
  | VXmlElement _ => Some 16
  | VNodeId _ => Some 17
  | VExpandedNodeId _ => Some 18
  | VStatusCode _ => Some 19
  | VQualifiedName _ => Some 20
  | VLocalizedText _ => Some 21
  | VVariant _ => Some 24
  | VDataValue _ => Some 23
  | VDiagnosticInfo _ => Some 25
  | VExtensionObject b => match b with Some d => dyn_data_type d | None => None end
  | VArray a => match values a with [] => None | v :: _ => data_type v end
  | VEmpty => None
  end.

(** ** Arrays *)

Definition values_are_of_type (vs : list Variant) (expected : VariantScalarTypeId) : bool :=
  negb (existsb (fun v => match type_id v with
                          | TyArray _ _ => true
                          | TyScalar s => bool_decide (s <> expected)
                          | TyEmpty => true
                          end) vs).

Definition validate_array_type_to_values (t : VariantScalarTypeId) (vs : list Variant) : result unit ArrayError :=
  if negb (values_are_of_type vs t) then Err ContentMismatch else Ok tt.

(** [reduce(|a, b| a * b).unwrap_or(0)], with wrapping [usize] products. *)
Definition validate_dimensions (values_len : Z) (dims : list Z) : bool :=
  match dims with
  | [] => 0 =? values_len
  | d :: ds => fold_left (fun a b => (a * b) mod (usize_max + 1)) ds d =? values_len
  end.

Definition array_new (t : VariantScalarTypeId) (vs : list Variant) : result Array ArrayError :=
  let? _ := validate_array_type_to_values t vs in
  Ok (mkArray t vs None).

Definition array_new_multi (t : VariantScalarTypeId) (vs : list Variant) (dims : list Z) : result Array ArrayError :=
  if negb (validate_dimensions (zlen vs) dims) then Err InvalidDimensions
  else let? _ := validate_array_type_to_values t vs in Ok (mkArray t vs (Some dims)).

Definition array_is_valid (vs : list Variant) : bool :=
  match vs with
  | [] => true
  | v :: vs' =>
      match type_id v with
      | TyArray _ _ => false
      | TyEmpty => false
      | TyScalar s => values_are_of_type vs' s
      end
  end.

Definition is_valid_dimensions (a : Array) : bool :=
  match dimensions a with
  | Some dims => validate_dimensions (zlen (values a)) dims
  | None => true
  end.

Definition is_valid (v : Variant) : bool :=
  match v with
  | VArray a => is_valid_dimensions a && array_is_valid (values a)
  | _ => true
  end.

(** [Variant::from((type, values))] unwraps the array it builds. *)
Definition variant_of_values (t : VariantScalarTypeId) (vs : list Variant) : outcome Variant :=
  match array_new t vs with Ok a => Ret (VArray a) | Err _ => Panic end.

(** ** Substrings *)

(** [UAString::substring]: [max] may be beyond the end. *)
Definition string_substring (s : UAString) (min max : Z) : option UAString :=
  match s with
  | Some v =>
      let char_count := zlen v in
      if char_count <=? min then None
      else
        let max := Z.min max (char_count - 1) in
        if max <? min then None
        else Some (Some (take (Z.to_nat (max - min + 1)) (drop (Z.to_nat min) v)))
  | None => None
  end.

(** [slice.get(min..=max)]. *)
Definition get_inclusive {A} (l : list A) (min max : Z) : option (list A) :=
  if (max + 1 <? min) || (zlen l <? max + 1) then None
  else Some (take (Z.to_nat (max + 1 - min)) (drop (Z.to_nat min) l)).

(** [ByteString::substring]. *)
Definition bytestring_substring (s : ByteString) (min max : Z) : option ByteString :=
  match s with
  | Some v =>
      if zlen v <=? min then None
      else
        let max := if zlen v <=? max then zlen v - 1 else max in
        Some <$> get_inclusive v min max
  | None => None
  end.

Definition substring (v : Variant) (min max : Z) : result Variant StatusCode :=
  match v with
  | VByteString b => let? r := ok_or (bytestring_substring b min max) BadIndexRangeNoData in Ok (VByteString r)
  | VString s => let? r := ok_or (string_substring s min max) BadIndexRangeNoData in Ok (VString r)
  | _ => Err BadIndexRangeDataMismatch
  end.

(** ** Index arithmetic *)

Definition range_bounds (r : NumericRange) : option (Z * Z) :=
  match r with
  | NRIndex i => Some (i, i)
  | NRRange min max => Some (min, max)
  | NRNone | NRMultiple _ | NRInvalid _ => None
  end.

(** The strides from the last dimension to the first; the second component is the product of all
    dimensions, which the loop also checks for overflow. *)
Fixpoint strides_and_product (dims : list Z) : option (list Z * Z) :=
  match dims with
  | [] => Some ([], 1)
  | dim :: dims' =>
      let* (strides, stride) := strides_and_product dims' in
      let* stride' := checked_mul stride dim in
      Some (stride :: strides, stride')
  end.
Definition row_major_strides (dims : list Z) : option (list Z) := fst <$> strides_and_product dims.

(** [try_fold] with [checked_mul]. *)
Fixpoint try_product (product : Z) (dims : list Z) : option Z :=
  match dims with
  | [] => Some product
  | d :: ds => let* p := checked_mul product d in try_product p ds
  end.
Definition checked_dimension_product (dims : list Z) : option Z :=
  match dims with [] => Some 0 | _ => try_product 1 dims end.

Fixpoint try_selection_count (product : Z) (selections : list (Z * Z)) : option Z :=
  match selections with
  | [] => Some product
  | (lo, hi) :: ss =>
      if hi <? lo then None
      else
        let* d := checked_sub hi lo in
        let* extent := checked_add d 1 in
        let* p := checked_mul product extent in
        try_selection_count p ss
  end.
Definition checked_selection_count (selections : list (Z * Z)) : option Z :=
  match selections with [] => Some 0 | _ => try_selection_count 1 selections end.

(** The flat index of the coordinates. *)
Fixpoint flat_index (flat : Z) (coords strides : list Z) : option Z :=
  match coords, strides with
  | idx :: coords', stride :: strides' =>
      let* m := checked_mul idx stride in
      let* f := checked_add flat m in
      flat_index f coords' strides'
  | _, _ => Some flat
  end.

(** One step of the odometer: the last coordinate below its upper bound is incremented and the
    ones after it are reset. [Some None]: no coordinate could advance; [None]: overflow. *)
Fixpoint advance (coords : list Z) (selections : list (Z * Z)) : option (option (list Z)) :=
  match coords, selections with
  | coord :: coords', (lo, hi) :: selections' =>
      let* rest := advance coords' selections' in
      match rest with
      | Some coords'' => Some (Some (coord :: coords''))
      | None =>
          if coord <? hi then
            let* c := checked_add coord 1 in
            Some (Some (c :: map fst selections'))
          else Some None
      end
  | _, _ => Some None
  end.

(** The loop, with one unit of fuel per index pushed. *)
Fixpoint odometer (fuel : nat) (strides coords : list Z) (selections : list (Z * Z)) : option (list Z) :=
  match fuel with
  | O => None
  | S fuel' =>
      let* flat := flat_index 0 coords strides in
      let* next := advance coords selections in
      match next with
      | None => Some [flat]
      | Some coords' =>
          let* rest := odometer fuel' strides coords' selections in
          Some (flat :: rest)
      end
  end.

Definition row_major_indices (dims : list Z) (selections : list (Z * Z)) : option (list Z) :=
  if negb (zlen dims =? zlen selections) then None
  else
    let* strides := row_major_strides dims in
    let* selected_count := checked_selection_count selections in
    match selections with
    | [] => Some []
    | _ => odometer (Z.to_nat selected_count) strides (map fst selections) selections
    end.

Definition array_stored_dimensions (a : Array) : result (list Z) StatusCode :=
  match dimensions a with
  | Some stored_dims =>
      let? stored_len := ok_or (checked_dimension_product stored_dims) BadIndexRangeNoData in
      if negb (stored_len =? zlen (values a)) then Err BadIndexRangeNoData
      else Ok stored_dims
  | None => Ok [zlen (values a)]
  end.

Definition is_invalid_range (r : NumericRange) : bool :=
  match r with NRInvalid _ => true | _ => false end.

(** One dimension of a read: the bounds clipped to the dimension, and the extent. *)
Definition select_dimension (range : NumericRange) (dim : Z) : result ((Z * Z) * Z) StatusCode :=
  if is_invalid_range range then Err BadIndexRangeInvalid
  else
    let? (lo, hi) := ok_or (range_bounds range) BadIndexRangeNoData in
    if dim <=? lo then Err BadIndexRangeNoData
    else
      let? max_hi := ok_or (checked_sub dim 1) BadIndexRangeNoData in
      let hi := Z.min hi max_hi in
      if hi <? lo then Err BadIndexRangeNoData
      else
        let? extent := ok_or (let* d := checked_sub hi lo in checked_add d 1) BadIndexRangeNoData in
        if u32_max <? extent then Err BadIndexRangeNoData
        else Ok ((lo, hi), extent).

Fixpoint select_dimensions (ranges : list NumericRange) (dims : list Z)
    : result (list (Z * Z) * list Z) StatusCode :=
  match ranges, dims with
  | range :: ranges', dim :: dims' =>
      let? (sel, extent) := select_dimension range dim in
      let? (sels, extents) := select_dimensions ranges' dims' in
      Ok (sel :: sels, extent :: extents)
  | _, _ => Ok ([], [])
  end.

Definition array_range_selection (a : Array) (stored_dims : list Z) (ranges : list NumericRange)
    : result (list Z * list Z) StatusCode :=
  if negb (zlen ranges =? zlen stored_dims) then Err BadIndexRangeNoData
  else
    let? (selections, extents) := select_dimensions ranges stored_dims in
    let? indices := ok_or (row_major_indices stored_dims selections) BadIndexRangeNoData in
    let? stored_product := (if zlen (values a) <? zlen indices
                            then ok_or (checked_dimension_product stored_dims) BadIndexRangeNoData
                            else Ok (zlen (values a))) in
    if negb (stored_product =? zlen (values a)) then Err BadIndexRangeNoData
    else Ok (indices, extents).

(** ** [range_of] *)

Fixpoint collect_values (vs : list Variant) (indices : list Z) : result (list Variant) StatusCode :=
  match indices with
  | [] => Ok []
  | flat :: indices' =>
      let? v := ok_or (zlookup vs flat) BadIndexRangeNoData in
      let? rest := collect_values vs indices' in
      Ok (v :: rest)
  end.

(** The loop over String or ByteString elements with a final substring dimension: the values, and
    whether any element had the substring. *)
Fixpoint collect_substrings (a : Array) (s_lo s_hi : Z) (indices : list Z)
    : result (list Variant * bool) StatusCode :=
  match indices with
  | [] => Ok ([], false)
  | flat :: indices' =>
      let? element := ok_or (zlookup (values a) flat) BadIndexRangeNoData in
      let? (v, found) :=
        match substring element s_lo s_hi with
        | Ok v => Ok (v, true)
        | Err _ =>
            match value_type a with
            | TString => Ok (VString None, false)
            | TByteString => Ok (VByteString None, false)
            | _ => Err BadIndexRangeNoData
            end
        end in
      let? (vs, any) := collect_substrings a s_lo s_hi indices' in
      Ok (v :: vs, found || any)
  end.

Definition is_text_type (t : VariantScalarTypeId) : bool :=
  match t with TString | TByteString => true | _ => false end.

Definition new_multi_or_no_data (t : VariantScalarTypeId) (vs : list Variant) (dims : list Z)
    : result Variant StatusCode :=
  match array_new_multi t vs dims with Ok a => Ok (VArray a) | Err _ => Err BadIndexRangeNoData end.

Definition range_of_multiple (a : Array) (ranges : list NumericRange) : result Variant StatusCode :=
  let? stored_dims := array_stored_dimensions a in
  if is_text_type (value_type a) && (zlen ranges =? zlen stored_dims + 1) then
    let array_ranges := take (length stored_dims) ranges in
    let? substring_range := ok_or (head (drop (length stored_dims) ranges)) BadIndexRangeNoData in
    if is_invalid_range substring_range then Err BadIndexRangeInvalid
    else
      let? (s_lo, s_hi) := ok_or (range_bounds substring_range) BadIndexRangeNoData in
      let? (source_indices, dims) := array_range_selection a stored_dims array_ranges in
      let? (vs, any_substring) := collect_substrings a s_lo s_hi source_indices in
      if negb any_substring then Err BadIndexRangeNoData
      else new_multi_or_no_data (value_type a) vs dims
  else
    let? (source_indices, dims) := array_range_selection a stored_dims ranges in
    let? vs := collect_values (values a) source_indices in
    new_multi_or_no_data (value_type a) vs dims.

Definition is_multi_dimensional (a : Array) : bool :=
  match dimensions a with Some d => 1 <? zlen d | None => false end.

(** [range_of]; the conversions of the one-dimensional cases may panic. *)
Definition range_of (v : Variant) (range : NumericRange) : outcome (result Variant StatusCode) :=
  match range with
  | NRNone => Ret (Ok v)
  | NRInvalid _ => Ret (Err BadIndexRangeInvalid)
  | NRIndex idx =>
      match v with
      | VString _ | VByteString _ => Ret (substring v idx idx)
      | VArray a =>
          if is_multi_dimensional a then Ret (Err BadIndexRangeNoData)
          else match zlookup (values a) idx with
               | Some x => let! r := variant_of_values (value_type a) [x] in Ret (Ok r)
               | None => Ret (Err BadIndexRangeNoData)
               end
      | _ => Ret (Err BadIndexRangeDataMismatch)
      end
  | NRRange min max =>
      match v with
      | VString _ | VByteString _ => Ret (substring v min max)
      | VArray a =>
          if is_multi_dimensional a then Ret (Err BadIndexRangeNoData)
          else if zlen (values a) <=? min then Ret (Err BadIndexRangeNoData)
          else
            let max := if zlen (values a) <=? max then zlen (values a) - 1 else max in
            match get_inclusive (values a) min max with
            | Some vs => let! r := variant_of_values (value_type a) vs in Ret (Ok r)
            | None => Ret (Err BadIndexRangeNoData)
            end
      | _ => Ret (Err BadIndexRangeDataMismatch)
      end
  | NRMultiple ranges =>
      match v with
      | VArray a => Ret (range_of_multiple a ranges)
      | _ => Ret (Err BadIndexRangeNoData)
      end
  end.

(** ** [set_range_of] *)

Definition substring_write_bounds (range : NumericRange) (len : Z) : result (Z * Z) StatusCode :=
  let? (min, max) :=
    match range with
    | NRIndex idx => Ok (idx, idx)
    | NRRange min max => Ok (min, max)
    | NRInvalid _ => Err BadIndexRangeInvalid
    | NRNone | NRMultiple _ => Err BadIndexRangeNoData
    end in
  if (len =? 0) || (len <=? min) || (len <=? max) || (max <? min) then Err BadIndexRangeNoData
  else Ok (min, max).

(** The new text of a write: what is before [min], the replacement, what is after [max]. *)
Definition splice {A} (l replacement : list A) (min max : Z) : list A :=
  take (Z.to_nat min) l ++ replacement ++ drop (Z.to_nat (max + 1)) l.

Definition set_string_substring (target : UAString) (range : NumericRange) (other : Variant)
    : UAString * result unit StatusCode :=
  match other with
  | VString replacement =>
      match target with
      | None => (target, Err BadIndexRangeNoData)
      | Some chars =>
          match substring_write_bounds range (zlen chars) with
          | Err e => (target, Err e)
          | Ok (min, max) =>
              let replacement_text := default [] replacement in
              if negb (zlen replacement_text =? max - min + 1) then (target, Err BadIndexRangeDataMismatch)
              else (Some (splice chars replacement_text min max), Ok tt)
          end
      end
  | _ => (target, Err BadIndexRangeDataMismatch)
  end.

Definition set_bytestring_substring (target : ByteString) (range : NumericRange) (other : Variant)
    : ByteString * result unit StatusCode :=
  match other with
  | VByteString replacement =>
      match target with
      | None => (target, Err BadIndexRangeNoData)
      | Some bytes =>
          match substring_write_bounds range (zlen bytes) with
          | Err e => (target, Err e)
          | Ok (min, max) =>
              let replacement_bytes := default [] replacement in
              if negb (zlen replacement_bytes =? max - min + 1) then (target, Err BadIndexRangeDataMismatch)
              else (Some (splice bytes replacement_bytes min max), Ok tt)
          end
      end
  | _ => (target, Err BadIndexRangeDataMismatch)
  end.

(** The copy loop of a one-dimensional write. *)
Fixpoint copy_range (vs : list Variant) (idx max : Z) (others : list Variant) : list Variant :=
  match others with
  | [] => vs
  | o :: others' =>
      if (idx <? zlen vs) && (idx <=? max)
      then copy_range (<[Z.to_nat idx := o]> vs) (idx + 1) max others'
      else vs
  end.

(** The bounds of a multi-dimensional write: no clipping. *)
Fixpoint write_selections (ranges : list NumericRange) (dims : list Z) : result (list (Z * Z)) StatusCode :=
  match ranges, dims with
  | range :: ranges', dim :: dims' =>
      if is_invalid_range range then Err BadIndexRangeInvalid
      else
        let? (lo, hi) := ok_or (range_bounds range) BadIndexRangeNoData in
        if hi <? lo then Err BadIndexRangeNoData
        else if (dim <=? lo) || (dim <=? hi) then Err BadIndexRangeNoData
        else let? sels := write_selections ranges' dims' in Ok ((lo, hi) :: sels)
  | _, _ => Ok []
  end.

(** The assignment loop: values written so far, and the outcome. *)
Fixpoint write_indices (vs : list Variant) (indices : list Z) (source_idx : Z) (others : list Variant)
    : list Variant * result unit StatusCode :=
  match indices with
  | [] => (vs, Ok tt)
  | flat :: indices' =>
      match zlookup vs flat with
      | None => (vs, Err BadIndexRangeNoData)
      | Some _ =>
          match zlookup others source_idx with
          | None => (vs, Err BadIndexRangeDataMismatch)
          | Some o => write_indices (<[Z.to_nat flat := o]> vs) indices' (source_idx + 1) others
          end
      end
  end.

Definition set_range_of_multiple (a : Array) (ranges : list NumericRange) (others : list Variant)
    : list Variant * result unit StatusCode :=
  let vs := values a in
  let dest_dims := default [zlen vs] (dimensions a) in
  match
    (let? stored_len := ok_or (checked_dimension_product dest_dims) BadIndexRangeNoData in
     if negb (stored_len =? zlen vs) then Err BadIndexRangeNoData
     else if negb (zlen ranges =? zlen dest_dims) then Err BadIndexRangeNoData
     else
       let? selections := write_selections ranges dest_dims in
       let? selected_count := ok_or (checked_selection_count selections) BadIndexRangeNoData in
       if negb (selected_count =? zlen others) then Err BadIndexRangeDataMismatch
       else ok_or (row_major_indices dest_dims selections) BadIndexRangeNoData)
  with
  | Err e => (vs, Err e)
  | Ok dest_indices => write_indices vs dest_indices 0 others
  end.

Definition set_array_values (a : Array) (vs : list Variant) : Array :=
  mkArray (value_type a) vs (dimensions a).

Definition set_range_of (v : Variant) (range : NumericRange) (other : Variant)
    : Variant * result unit StatusCode :=
  if negb (bool_decide (data_type v = data_type other)) then (v, Err BadIndexRangeDataMismatch)
  else
    match v with
    | VString target => let '(t, r) := set_string_substring target range other in (VString t, r)
    | VByteString target => let '(t, r) := set_bytestring_substring target range other in (VByteString t, r)
    | VArray a =>
        match other with
        | VArray other_array =>
            let other_values := values other_array in
            match range with
            | NRNone => (v, Err BadIndexRangeNoData)
            | NRInvalid _ => (v, Err BadIndexRangeInvalid)
            | NRIndex idx =>
                if (zlen (values a) <=? idx) || (zlen other_values =? 0) then (v, Err BadIndexRangeNoData)
                else
                  match zlookup (values a) idx, head other_values with
                  | Some _, Some o => (VArray (set_array_values a (<[Z.to_nat idx := o]> (values a))), Ok tt)
                  | _, _ => (v, Err BadIndexRangeNoData)
                  end
            | NRRange min max =>
                if zlen (values a) <=? min then (v, Err BadIndexRangeNoData)
                else (VArray (set_array_values a (copy_range (values a) min max other_values)), Ok tt)
            | NRMultiple ranges =>
                let '(vs, r) := set_range_of_multiple a ranges other_values in
                (VArray (set_array_values a vs), r)
            end
        | _ => (v, Err BadIndexRangeNoData)
        end
    | _ => (v, Err BadWriteNotSupported)
    end.

End variant.

Arguments Variant {D}.
Abbreviation Array := (ArrayOf Variant).
Abbreviation DataValue := (DataValueOf Variant).
