(* ===== verification/RangeFacts.v ===== *)
(** * Reading and writing index ranges

    Facts about the index arithmetic, [range_of] and [set_range_of] of [Variant.v]: the odometer
    loop enumerates the selected box of a multi-dimensional array in row-major order; reads of
    well-typed variants never panic and return well-typed results; a write followed by a read of
    the same range gives the written value back. *)

From S2P Require Import Prelude Text Float StatusCode NumericRange Variant.

(** ** The reference enumeration *)

(** All coordinates of a selection, in lexicographic order. *)
Fixpoint box (selections : list (Z * Z)) : list (list Z) :=
  match selections with
  | [] => [[]]
  | (lo, hi) :: ss => flat_map (fun c => map (cons c) (box ss)) (seqZ lo (hi - lo + 1))
  end.

Definition product (dims : list Z) : Z := foldr Z.mul 1 dims.

(** The position of coordinates in an array stored in row-major order. *)
Fixpoint row_major (dims coords : list Z) : Z :=
  match dims, coords with
  | _ :: ds, c :: cs => c * product ds + row_major ds cs
  | _, _ => 0
  end.

(** A selection within the dimensions. *)
Definition in_dim (s : Z * Z) (d : Z) : Prop := 0 <= fst s <= snd s /\ snd s < d.
Definition in_box (c : Z) (s : Z * Z) : Prop := fst s <= c <= snd s.

(** ** Lists of numbers *)

Lemma product_pos dims : Forall (fun d => 1 <= d) dims -> 1 <= product dims.
Proof. induction 1; simpl; [lia|]. nia. Qed.

Lemma in_dims_pos sels dims : Forall2 in_dim sels dims -> Forall (fun d => 1 <= d) dims.
Proof. induction 1 as [|s d ? ? [? ?] ? IH]; constructor; [lia|done]. Qed.

Lemma seqZ_step lo n : 0 < n -> seqZ lo n = lo :: seqZ (lo + 1) (n - 1).
Proof. intros. rewrite seqZ_cons by lia. f_equal. Qed.

(** ** Strides *)

Fixpoint tail_products (dims : list Z) : list Z :=
  match dims with [] => [] | _ :: ds => product ds :: tail_products ds end.

Lemma strides_spec dims :
  Forall (fun d => 1 <= d) dims -> product dims <= usize_max ->
  strides_and_product dims = Some (tail_products dims, product dims).
Proof.
  induction 1 as [|d ds Hd Hds IH]; [done|]. simpl. intros Hmax.
  pose proof (product_pos ds Hds). rewrite IH by nia. simpl.
  unfold checked_mul. rewrite (Z.mul_comm (product ds)).
  destruct (Z.leb_spec (d * product ds) usize_max); [done|lia].
Qed.

Lemma row_major_bound dims coords sels :
  Forall2 in_dim sels dims -> Forall2 in_box coords sels -> 0 <= row_major dims coords < product dims.
Proof.
  intros Hs. revert coords. induction Hs as [|s d sels dims Hd Hs IH]; intros coords Hc;
    inversion Hc as [|c ? cs ? Hcs Hcss]; subst; simpl; [lia|].
  specialize (IH cs Hcss). pose proof (product_pos dims (in_dims_pos _ _ Hs)).
  unfold in_dim, in_box in *. nia.
Qed.

Lemma flat_index_spec dims coords sels flat :
  Forall2 in_dim sels dims -> Forall2 in_box coords sels ->
  0 <= flat -> flat + row_major dims coords <= usize_max ->
  flat_index flat coords (tail_products dims) = Some (flat + row_major dims coords).
Proof.
  intros Hs. revert coords flat. induction Hs as [|s d sels dims Hd Hs IH]; intros coords flat Hc Hf Hmax;
    inversion Hc as [|c ? cs ? Hcs Hcss]; subst; simpl in *; [f_equal; lia|].
  pose proof (row_major_bound dims cs sels Hs Hcss).
  pose proof (product_pos dims (in_dims_pos _ _ Hs)). unfold in_dim, in_box in *.
  unfold checked_mul. destruct (Z.leb_spec (c * product dims) usize_max); [|nia].
  simpl. unfold checked_add. destruct (Z.leb_spec (flat + c * product dims) usize_max); [|nia].
  simpl. rewrite IH by (done || nia). f_equal. lia.
Qed.

(** ** The odometer *)

(** The coordinates of the box from a given one on. *)
Fixpoint box_from (coords : list Z) (selections : list (Z * Z)) : list (list Z) :=
  match coords, selections with
  | c :: cs, (lo, hi) :: ss =>
      map (cons c) (box_from cs ss)
      ++ flat_map (fun c' => map (cons c') (box ss)) (seqZ (c + 1) (hi - c))
  | _, _ => [[]]
  end.

Lemma box_from_first sels : Forall (fun s => fst s <= snd s) sels -> box_from (map fst sels) sels = box sels.
Proof.
  induction 1 as [|[lo hi] sels Hs Hss IH]; [done|]. simpl in *. rewrite IH.
  rewrite (seqZ_step lo (hi - lo + 1)) by lia. simpl.
  replace (hi - lo + 1 - 1) with (hi - lo) by lia. done.
Qed.

Lemma box_from_advance coords sels :
  Forall2 in_box coords sels -> Forall (fun s => fst s <= snd s /\ snd s < usize_max) sels ->
  exists next, advance coords sels = Some next
  /\ match next with
     | None => box_from coords sels = [coords]
     | Some coords' =>
         Forall2 in_box coords' sels /\ box_from coords sels = coords :: box_from coords' sels
     end.
Proof.
  induction 1 as [|c [lo hi] cs sels Hc Hcs IH]; intros Hs; [by exists None|].
  inversion Hs as [|? ? [Hlh Hmax] Hs']; subst. destruct (IH Hs') as (next & Hnext & Hbox).
  simpl in *. rewrite Hnext. simpl. unfold in_box in Hc. simpl in Hc.
  destruct next as [cs'|].
  - destruct Hbox as [Hin Hbox]. eexists. split; [done|]. simpl. split; [by constructor|].
    by rewrite Hbox.
  - rewrite Hbox. destruct (Z.ltb_spec c hi) as [Hlt|Hge].
    + unfold checked_add. destruct (Z.leb_spec (c + 1) usize_max); [|lia].
      eexists. split; [done|]. simpl. split.
      * constructor; [unfold in_box; simpl; lia|]. clear - Hs'.
        induction Hs' as [|s ss [Hs _] _ IH']; constructor; [unfold in_box; lia|done].
      * f_equal. rewrite box_from_first by (eapply Forall_impl; [exact Hs'|]; intros ? [? _]; done).
        rewrite (seqZ_step (c + 1) (hi - c)) by lia. simpl.
        replace (hi - c - 1) with (hi - (c + 1)) by lia. done.
    + eexists. split; [done|]. simpl. rewrite seqZ_nil by lia. done.
Qed.

Lemma box_from_in coords sels c :
  Forall2 in_box coords sels -> c ∈ box_from coords sels -> Forall2 in_box c sels.
Proof.
  assert (forall ss c, c ∈ box ss -> Forall2 in_box c ss) as Hbox.
  { induction ss as [|[lo hi] ss IH]; intros c'; simpl.
    - intros ->%list_elem_of_singleton. constructor.
    - rewrite list_elem_of_In, in_flat_map. intros (x & Hx & Hin).
      apply in_map_iff in Hin as (cs & <- & Hcs). apply list_elem_of_In, elem_of_seqZ in Hx.
      constructor; [unfold in_box; simpl; lia|]. by apply IH, list_elem_of_In. }
  intros H. revert c. induction H as [|c0 [lo hi] cs sels Hc Hcs IH]; intros c; simpl.
  - intros ->%list_elem_of_singleton. constructor.
  - rewrite elem_of_app, !list_elem_of_In, in_flat_map. intros [Hin|(x & Hx & Hin)].
    + apply in_map_iff in Hin as (cs' & <- & Hcs'). constructor; [done|].
      by apply IH, list_elem_of_In.
    + apply in_map_iff in Hin as (cs' & <- & Hcs'). apply list_elem_of_In, elem_of_seqZ in Hx.
      unfold in_box in Hc. simpl in Hc.
      constructor; [unfold in_box; simpl; lia|]. by apply Hbox, list_elem_of_In.
Qed.

Lemma odometer_spec dims sels : Forall2 in_dim sels dims -> product dims <= usize_max ->
  forall fuel coords, Forall2 in_box coords sels -> (length (box_from coords sels) <= fuel)%nat ->
  odometer fuel (tail_products dims) coords sels = Some (map (row_major dims) (box_from coords sels)).
Proof.
  intros Hs Hmax. induction fuel as [|fuel IH]; intros coords Hc Hlen.
  - destruct (box_from_advance coords sels Hc) as (next & _ & Hb).
    { clear - Hs Hmax. revert Hmax. induction Hs as [|s d sels dims [? ?] Hs IH]; intros; constructor.
      - simpl in Hmax. pose proof (product_pos dims (in_dims_pos _ _ Hs)). nia.
      - apply IH. simpl in Hmax. pose proof (product_pos dims (in_dims_pos _ _ Hs)). nia. }
    destruct next as [cs'|]; [destruct Hb as [_ Hb]|]; rewrite Hb in Hlen; simpl in Hlen; lia.
  - simpl. pose proof (row_major_bound dims coords sels Hs Hc).
    rewrite (flat_index_spec dims coords sels 0) by (done || lia). simpl.
    destruct (box_from_advance coords sels Hc) as (next & Hnext & Hb).
    { clear - Hs Hmax. revert Hmax. induction Hs as [|s d sels dims [? ?] Hs IH]; intros; constructor.
      - simpl in Hmax. pose proof (product_pos dims (in_dims_pos _ _ Hs)). nia.
      - apply IH. simpl in Hmax. pose proof (product_pos dims (in_dims_pos _ _ Hs)). nia. }
    rewrite Hnext. simpl. destruct next as [cs'|].
    + destruct Hb as [Hin Hb]. rewrite Hb in Hlen |- *. simpl in Hlen. rewrite IH by (done || lia). done.
    + by rewrite Hb.
Qed.

(** ** The whole enumeration *)

Lemma box_elem sels c : c ∈ box sels <-> Forall2 in_box c sels.
Proof.
  revert c. induction sels as [|[lo hi] ss IH]; intros c; simpl.
  - rewrite list_elem_of_singleton. split; [intros ->; constructor|by inversion 1].
  - rewrite list_elem_of_In, in_flat_map. split.
    + intros (x & Hx & Hin). apply in_map_iff in Hin as (cs & <- & Hcs).
      apply list_elem_of_In, elem_of_seqZ in Hx.
      constructor; [unfold in_box; simpl; lia|]. by apply IH, list_elem_of_In.
    + inversion 1 as [|x ? cs ? Hx Hcs]; subst. unfold in_box in Hx. simpl in Hx.
      exists x. rewrite <-list_elem_of_In, elem_of_seqZ. split; [lia|].
      apply in_map, list_elem_of_In, IH. done.
Qed.

Lemma row_major_inj dims sels c1 c2 : Forall2 in_dim sels dims ->
  Forall2 in_box c1 sels -> Forall2 in_box c2 sels -> row_major dims c1 = row_major dims c2 -> c1 = c2.
Proof.
  intros Hs. revert c1 c2. induction Hs as [|s d sels dims Hd Hs IH]; intros c1 c2 H1 H2;
    inversion H1 as [|x1 ? cs1 ? Hx1 Hc1]; inversion H2 as [|x2 ? cs2 ? Hx2 Hc2]; subst; [done|].
  simpl. intros Heq.
  pose proof (row_major_bound dims cs1 sels Hs Hc1). pose proof (row_major_bound dims cs2 sels Hs Hc2).
  assert (x1 = x2) as -> by nia. f_equal. apply IH; [done..|lia].
Qed.

Lemma NoDup_map_on {A B} (f : A -> B) l :
  (forall x y, x ∈ l -> y ∈ l -> f x = f y -> x = y) -> NoDup l -> NoDup (map f l).
Proof.
  intros Hf. induction 1 as [|x l Hx Hl IH]; simpl; constructor.
  - intros (y & Hy & Hin)%list_elem_of_fmap. apply Hf in Hy as ->; [done|left|by right].
  - apply IH. intros y z ? ?. apply Hf; by right.
Qed.

Lemma box_NoDup sels : NoDup (box sels).
Proof.
  induction sels as [|[lo hi] ss IH]; simpl; [apply NoDup_singleton|].
  assert (NoDup (seqZ lo (hi - lo + 1))) as Hseq by apply NoDup_seqZ.
  induction Hseq as [|x l Hx Hl IHl]; simpl; [constructor|].
  apply NoDup_app. split; [|split; [|done]].
  - apply NoDup_map_on; [|done]. intros ????. by intros [= ->].
  - intros c (cs & -> & _)%list_elem_of_fmap Hin.
    apply list_elem_of_In, in_flat_map in Hin as (y & Hy & Hc).
    apply in_map_iff in Hc as (? & [= ->] & _). by apply Hx, list_elem_of_In.
Qed.

Lemma length_box_cons lo hi ss :
  lo <= hi -> zlen (box ((lo, hi) :: ss)) = (hi - lo + 1) * zlen (box ss).
Proof.
  intros H. unfold zlen. simpl.
  assert (forall l, length (flat_map (fun c => map (cons c) (box ss)) l) = (length l * length (box ss))%nat) as Hl.
  { induction l as [|x l IH]; simpl; [done|]. rewrite length_app, length_map, IH. done. }
  rewrite Hl, length_seqZ. lia.
Qed.

(** The extents of a selection. *)
Definition extents (sels : list (Z * Z)) : list Z := map (fun s => snd s - fst s + 1) sels.

Lemma length_box sels : Forall (fun s => fst s <= snd s) sels -> zlen (box sels) = product (extents sels).
Proof.
  induction 1 as [|[lo hi] ss H Hs IH]; [done|]. rewrite length_box_cons by done. simpl. rewrite IH. done.
Qed.

Lemma in_dim_le sels dims : Forall2 in_dim sels dims -> Forall (fun s => fst s <= snd s) sels.
Proof. induction 1 as [|??? ? [? ?]]; constructor; [lia|done]. Qed.

Lemma extents_pos sels : Forall (fun s => fst s <= snd s) sels -> Forall (fun d => 1 <= d) (extents sels).
Proof. induction 1; simpl; constructor; [lia|done]. Qed.

Lemma try_selection_count_spec p sels : Forall (fun s => fst s <= snd s) sels -> 0 <= p ->
  forall n, try_selection_count p sels = Some n -> n = p * product (extents sels).
Proof.
  intros Hs. revert p. induction Hs as [|[lo hi] ss H Hs IH]; intros p Hp n; simpl in *.
  - intros [= ->]. lia.
  - destruct (Z.ltb_spec hi lo); [lia|].
    destruct (checked_sub hi lo) as [e|] eqn:He; simpl; [|done].
    apply checked_sub_Some in He as [-> _].
    destruct (checked_add _ 1) as [e|] eqn:He; simpl; [|done].
    apply checked_add_Some in He as [-> _].
    destruct (checked_mul _ _) as [q|] eqn:Hq; simpl; [|done].
    apply checked_mul_Some in Hq as [-> _]. intros Hn%IH; [|nia]. subst n. unfold extents. lia.
Qed.

Lemma extents_le_dims sels dims : Forall2 in_dim sels dims -> product (extents sels) <= product dims.
Proof.
  induction 1 as [|[lo hi] d ss ds [? ?] Hs IH]; simpl in *; [done|].
  pose proof (product_pos _ (extents_pos _ (in_dim_le _ _ Hs))). unfold extents in *. nia.
Qed.

Lemma try_selection_count_total p sels dims : Forall2 in_dim sels dims ->
  0 <= p -> p * product (extents sels) <= usize_max -> (forall d, d ∈ dims -> d <= usize_max) ->
  try_selection_count p sels = Some (p * product (extents sels)).
Proof.
  intros Hs. revert p. induction Hs as [|[lo hi] d ss ds [? ?] Hs IH]; intros p Hp Hm Hd; simpl in *.
  - f_equal. lia.
  - destruct (Z.ltb_spec hi lo); [lia|]. unfold checked_sub. destruct (Z.leb_spec lo hi); [|lia]. simpl.
    assert (d <= usize_max) by (apply Hd; left).
    unfold checked_add. destruct (Z.leb_spec (hi - lo + 1) usize_max); [|lia]. simpl.
    pose proof (product_pos _ (extents_pos _ (in_dim_le _ _ Hs))). unfold extents in *.
    unfold checked_mul. destruct (Z.leb_spec (p * (hi - lo + 1)) usize_max); [|nia]. simpl.
    rewrite IH; [f_equal; lia|nia|lia|]. intros x ?. apply Hd. by right.
Qed.

Lemma dims_le_product dims d : Forall (fun d => 1 <= d) dims -> d ∈ dims -> d <= product dims.
Proof.
  induction 1 as [|x ds Hx Hds IH]; [by intros ?%not_elem_of_nil|].
  pose proof (product_pos ds Hds). intros [->|Hin]%elem_of_cons; simpl; [nia|].
  specialize (IH Hin). nia.
Qed.

Lemma selection_count_total sels dims : sels <> [] -> Forall2 in_dim sels dims -> product dims <= usize_max ->
  checked_selection_count sels = Some (product (extents sels)).
Proof.
  intros Hne Hs Hmax. destruct sels as [|s sels]; [done|]. unfold checked_selection_count.
  rewrite (try_selection_count_total 1 (s :: sels) dims Hs); [f_equal; lia|lia| |].
  - pose proof (extents_le_dims _ _ Hs). lia.
  - intros d Hd. pose proof (dims_le_product dims d (in_dims_pos _ _ Hs) Hd). lia.
Qed.

Lemma first_in_box sels : Forall (fun s => fst s <= snd s) sels -> Forall2 in_box (map fst sels) sels.
Proof. induction 1; simpl; constructor; [unfold in_box; lia|done]. Qed.

Lemma row_major_indices_eq dims sels :
  sels <> [] -> Forall2 in_dim sels dims -> product dims <= usize_max ->
  row_major_indices dims sels = Some (map (row_major dims) (box sels)).
Proof.
  intros Hne Hs Hmax. unfold row_major_indices, zlen.
  rewrite (Forall2_length _ _ _ Hs), Z.eqb_refl. simpl.
  unfold row_major_strides. rewrite strides_spec by (done || by eapply in_dims_pos). simpl.
  rewrite (selection_count_total sels dims) by done. simpl.
  pose proof (in_dim_le _ _ Hs) as Hle.
  destruct sels as [|s sels]; [done|].
  rewrite (odometer_spec dims (s :: sels)); [|done..| |].
  - rewrite box_from_first by done. done.
  - by apply first_in_box.
  - rewrite box_from_first by done. rewrite <-(length_box (s :: sels)) by done. unfold zlen. lia.
Qed.

Definition selected (dims : list Z) (sels : list (Z * Z)) : list Z := map (row_major dims) (box sels).

Lemma selected_NoDup dims sels : Forall2 in_dim sels dims -> NoDup (selected dims sels).
Proof.
  intros Hs. apply NoDup_map_on; [|apply box_NoDup].
  intros x y Hx%box_elem Hy%box_elem. by eapply row_major_inj.
Qed.

Lemma selected_bound dims sels i : Forall2 in_dim sels dims -> i ∈ selected dims sels -> 0 <= i < product dims.
Proof. intros Hs (c & -> & Hc%box_elem)%list_elem_of_fmap. by eapply row_major_bound. Qed.

Lemma selected_length dims sels : Forall2 in_dim sels dims -> zlen (selected dims sels) = product (extents sels).
Proof.
  intros Hs. unfold selected, zlen. rewrite length_map. apply length_box. by eapply in_dim_le.
Qed.

(** ** Multi-dimensional writes *)

Definition range_u32 (r : NumericRange) : Prop :=
  match range_bounds r with Some (lo, hi) => is_u32 lo /\ is_u32 hi | None => True end.

Lemma write_selections_in_dim ranges dims sels :
  Forall range_u32 ranges -> length ranges = length dims ->
  write_selections ranges dims = Ok sels -> Forall2 in_dim sels dims.
Proof.
  intros Hr. revert dims sels. induction Hr as [|r ranges Hr Hrs IH]; intros [|d dims] sels Hlen; simpl;
    try done; [intros [= <-]; constructor|].
  destruct (is_invalid_range r); [done|]. unfold range_u32 in Hr.
  destruct (range_bounds r) as [[lo hi]|]; simpl; [|done]. destruct Hr as [Hlo Hhi].
  destruct (Z.ltb_spec hi lo); [done|].
  destruct (Z.leb_spec d lo); simpl; [done|]. destruct (Z.leb_spec d hi); simpl; [done|].
  intros (ss & Hss & [= <-])%result_bind_ok. constructor; [unfold in_dim, is_u32 in *; simpl; lia|].
  apply IH; [simpl in Hlen; lia|done].
Qed.

Lemma select_dimensions_of_write ranges dims sels :
  Forall range_u32 ranges -> length ranges = length dims ->
  write_selections ranges dims = Ok sels -> Forall (fun e => e <= u32_max) (extents sels) ->
  Forall (fun d => d <= usize_max) dims ->
  select_dimensions ranges dims = Ok (sels, extents sels).
Proof.
  intros Hr. revert dims sels. induction Hr as [|r ranges Hr Hrs IH]; intros [|d dims] sels Hlen; simpl;
    try done; [by intros [= <-]|].
  unfold select_dimension. destruct (is_invalid_range r); [done|]. unfold range_u32 in Hr.
  destruct (range_bounds r) as [[lo hi]|]; simpl; [|done]. destruct Hr as [Hlo Hhi].
  destruct (Z.ltb_spec hi lo); [done|].
  destruct (Z.leb_spec d lo); simpl; [done|]. destruct (Z.leb_spec d hi); simpl; [done|].
  intros (ss & Hss & [= <-])%result_bind_ok. simpl.
  intros [He Hes]%Forall_cons_1 [Hd Hds]%Forall_cons_1. unfold is_u32 in *.
  unfold checked_sub at 1. destruct (Z.leb_spec 1 d); [|lia]. simpl.
  replace (Z.min hi (d - 1)) with hi by lia. destruct (Z.ltb_spec hi lo); [lia|].
  unfold checked_sub. destruct (Z.leb_spec lo hi); [|lia]. simpl.
  unfold checked_add. destruct (Z.leb_spec (hi - lo + 1) usize_max); [|lia]. simpl.
  destruct (Z.ltb_spec u32_max (hi - lo + 1)); [simpl in He; lia|]. simpl.
  rewrite (IH dims ss); [done|simpl in Hlen; lia|done..].
Qed.

Lemma zlookup_insert_eq {A} (l : list A) i x : 0 <= i < zlen l -> zlookup (<[Z.to_nat i := x]> l) i = Some x.
Proof.
  unfold zlookup, zlen. intros H. destruct (Z.ltb_spec i 0); [lia|]. apply list_lookup_insert_eq. lia.
Qed.
Lemma zlookup_insert_ne {A} (l : list A) i j x : i <> j -> 0 <= i ->
  zlookup (<[Z.to_nat i := x]> l) j = zlookup l j.
Proof.
  unfold zlookup. intros H Hi. destruct (Z.ltb_spec j 0); [done|]. apply list_lookup_insert_ne. lia.
Qed.
Lemma zlen_insert {A} (l : list A) i x : zlen (<[i := x]> l) = zlen l.
Proof. unfold zlen. by rewrite length_insert. Qed.

Section writes.
Context {D : DynEncodable}.

Lemma write_indices_spec others : forall indices (vs : list Variant) k,
  0 <= k -> NoDup indices -> Forall (fun i => 0 <= i < zlen vs) indices -> k + zlen indices = zlen others ->
  exists vs', write_indices vs indices k others = (vs', Ok tt)
  /\ zlen vs' = zlen vs
  /\ (forall i, i ∉ indices -> zlookup vs' i = zlookup vs i)
  /\ collect_values vs' indices = Ok (drop (Z.to_nat k) others).
Proof.
  induction indices as [|i indices IH]; intros vs k Hk Hnd Hb Hlen; simpl.
  - exists vs. repeat split; [done..|]. rewrite drop_ge; [done|]. unfold zlen in Hlen. simpl in Hlen. lia.
  - apply NoDup_cons in Hnd as [Hi Hnd]. apply Forall_cons in Hb as [Hib Hb].
    destruct (zlookup_is_Some vs i Hib) as [old ->].
    assert (0 <= k < zlen others) as Hkb by (unfold zlen in *; simpl in Hlen; lia).
    destruct (zlookup_is_Some others k Hkb) as [o Ho]. rewrite Ho.
    destruct (IH (<[Z.to_nat i := o]> vs) (k + 1)) as (vs' & Hw & Hl & Hf & Hc).
    + lia.
    + done.
    + by rewrite zlen_insert.
    + unfold zlen in *. simpl in Hlen. lia.
    + rewrite zlen_insert in Hl. exists vs'. repeat split; [done..| |].
      * intros j [Hj1 Hj2]%not_elem_of_cons. rewrite Hf by done. apply zlookup_insert_ne; [congruence|lia].
      * rewrite (Hf i Hi), zlookup_insert_eq by done. simpl. rewrite Hc. simpl.
        rewrite (drop_S others o (Z.to_nat k)).
        -- do 3 f_equal. lia.
        -- unfold zlookup in Ho. by destruct (k <? 0).
Qed.

Lemma validate_dimensions_product n dims :
  dims <> [] -> Forall (fun d => 1 <= d) dims -> product dims = n -> n <= usize_max ->
  validate_dimensions n dims = true.
Proof.
  intros Hne Hpos <- Hmax. destruct dims as [|d dims]; [done|]. simpl in *.
  apply Forall_cons in Hpos as [Hd Hpos]. apply Z.eqb_eq. revert d Hd Hmax Hne.
  induction Hpos as [|e dims He Hpos IH]; intros d Hd Hmax Hne; simpl in *; [lia|].
  pose proof (product_pos dims Hpos). rewrite Z.mod_small by nia. rewrite IH; [lia|nia|nia|done].
Qed.

Lemma try_product_spec p dims n : try_product p dims = Some n -> n = p * product dims.
Proof.
  revert p. induction dims as [|d dims IH]; intros p; simpl; [intros [= ->]; lia|].
  destruct (checked_mul p d) as [q|] eqn:Hq; simpl; [|done].
  apply checked_mul_Some in Hq as [-> _]. intros ->%IH. lia.
Qed.

Lemma try_product_max p dims n : p <= usize_max -> try_product p dims = Some n -> n <= usize_max.
Proof.
  revert p. induction dims as [|d dims IH]; intros p Hp; simpl; [by intros [= <-]|].
  destruct (checked_mul p d) as [q|] eqn:Hq; simpl; [|done].
  apply checked_mul_Some in Hq as [-> Hq]. by apply IH.
Qed.

(** What a successful multi-dimensional write has established. *)
Lemma set_range_of_multiple_ok (a : Array) ranges others vs' :
  ranges <> [] -> Forall range_u32 ranges ->
  set_range_of_multiple a ranges others = (vs', Ok tt) ->
  let dims := default [zlen (values a)] (dimensions a) in
  exists sels, write_selections ranges dims = Ok sels
  /\ length ranges = length dims /\ sels <> [] /\ Forall2 in_dim sels dims
  /\ product dims = zlen (values a) /\ zlen (values a) <= usize_max
  /\ checked_dimension_product dims = Some (zlen (values a))
  /\ product (extents sels) = zlen others
  /\ write_indices (values a) (selected dims sels) 0 others = (vs', Ok tt).
Proof.
  intros Hne Hr. unfold set_range_of_multiple. cbv zeta.
  set (dims := default _ _).
  destruct (checked_dimension_product dims) as [n|] eqn:Hn; simpl; [|done].
  destruct (Z.eqb_spec n (zlen (values a))) as [->|]; simpl; [|done].
  destruct (Z.eqb_spec (zlen ranges) (zlen dims)) as [Hlen|]; simpl; [|done].
  assert (length ranges = length dims) as Hl by (unfold zlen in Hlen; lia).
  destruct (write_selections ranges dims) as [sels|] eqn:Hsels; simpl; [|done].
  pose proof (write_selections_in_dim _ _ _ Hr Hl Hsels) as Hin.
  assert (dims <> []) as Hdne by (destruct dims, ranges; done).
  assert (sels <> []) as Hsne by (destruct Hin; done).
  assert (product dims = zlen (values a)) as Hprod.
  { destruct dims; [done|]. apply try_product_spec in Hn. lia. }
  assert (zlen (values a) <= usize_max) as Hmax.
  { destruct dims; [done|]. by apply try_product_max in Hn. }
  rewrite (selection_count_total _ _ Hsne Hin) by lia. simpl.
  destruct (Z.eqb_spec (product (extents sels)) (zlen others)); simpl; [|done].
  rewrite row_major_indices_eq by (done || lia). simpl. intros Hw. exists sels. repeat split; done.
Qed.

Lemma dims_bounded dims : Forall (fun d => 1 <= d) dims -> product dims <= usize_max ->
  Forall (fun d => d <= usize_max) dims.
Proof.
  intros Hpos Hmax. apply Forall_forall. intros d Hd.
  pose proof (dims_le_product _ _ Hpos Hd). lia.
Qed.

Lemma values_of_type_new (t : VariantScalarTypeId) (vs : list Variant) dims :
  values_are_of_type vs t = true -> validate_dimensions (zlen vs) dims = true ->
  new_multi_or_no_data t vs dims = Ok (VArray (mkArray t vs (Some dims))).
Proof.
  intros Ht Hd. unfold new_multi_or_no_data, array_new_multi. rewrite Hd. simpl.
  unfold validate_array_type_to_values. by rewrite Ht.
Qed.

Lemma range_of_multiple_selected (a : Array) ranges sels vs :
  let dims := default [zlen (values a)] (dimensions a) in
  checked_dimension_product dims = Some (zlen (values a)) -> product dims = zlen (values a) ->
  zlen (values a) <= usize_max -> length ranges = length dims -> Forall2 in_dim sels dims -> sels <> [] ->
  select_dimensions ranges dims = Ok (sels, extents sels) ->
  collect_values (values a) (selected dims sels) = Ok vs ->
  range_of_multiple a ranges = new_multi_or_no_data (value_type a) vs (extents sels).
Proof.
  intros dims Hn Hprod Hmax Hlen Hin Hne Hsel Hcol. unfold range_of_multiple.
  assert (array_stored_dimensions a = Ok dims) as ->.
  { unfold array_stored_dimensions, dims in *. destruct (dimensions a); simpl in *; [|done].
    rewrite Hn. simpl. by rewrite Z.eqb_refl. }
  simpl. assert (zlen ranges = zlen dims) as Hz by (unfold zlen; lia).
  rewrite Hz. destruct (Z.eqb_spec (zlen dims) (zlen dims + 1)); [lia|]. rewrite andb_false_r.
  unfold array_range_selection. rewrite Hz, Z.eqb_refl. simpl. rewrite Hsel. simpl.
  rewrite row_major_indices_eq by (done || lia). simpl. fold (selected dims sels).
  pose proof (selected_length dims sels Hin). pose proof (extents_le_dims _ _ Hin).
  destruct (Z.ltb_spec (zlen (values a)) (zlen (selected dims sels))); [lia|]. simpl.
  rewrite Z.eqb_refl. simpl. rewrite Hcol. done.
Qed.

End writes.

(** ** Well-typed variants *)

Section typing.
Context {D : DynEncodable}.

(** The elements of an array have the array's type. *)
Definition well_typed (v : Variant) : Prop :=
  match v with VArray a => values_are_of_type (values a) (value_type a) = true | _ => True end.

Lemma values_are_of_type_spec (vs : list Variant) t :
  values_are_of_type vs t = true <-> Forall (fun v => type_id v = TyScalar t) vs.
Proof.
  unfold values_are_of_type. rewrite negb_true_iff, <-not_true_iff_false, existsb_exists, Forall_forall.
  split.
  - intros H v Hv. destruct (type_id v) as [|s|s d] eqn:Hty.
    + destruct H. exists v. rewrite Hty. split; [by apply list_elem_of_In|done].
    + destruct (decide (s = t)) as [->|Hne]; [done|]. destruct H. exists v. rewrite Hty.
      split; [by apply list_elem_of_In|]. by apply bool_decide_eq_true.
    + destruct H. exists v. rewrite Hty. split; [by apply list_elem_of_In|done].
  - intros H (v & Hv%list_elem_of_In & Hb). rewrite (H v Hv) in Hb. by apply bool_decide_eq_true in Hb.
Qed.

Lemma variant_of_values_ok t (vs : list Variant) : values_are_of_type vs t = true ->
  variant_of_values t vs = Ret (VArray (mkArray t vs None)).
Proof.
  intros H. unfold variant_of_values, array_new, validate_array_type_to_values. by rewrite H.
Qed.

Lemma zlookup_elem {A} (l : list A) i x : zlookup l i = Some x -> x ∈ l.
Proof. unfold zlookup. destruct (i <? 0); [done|]. apply list_elem_of_lookup_2. Qed.

Lemma get_inclusive_incl {A} (l l' : list A) min max x : get_inclusive l min max = Some l' -> x ∈ l' -> x ∈ l.
Proof.
  unfold get_inclusive. destruct (_ || _); [done|]. intros [= <-] Hx.
  apply elem_of_take in Hx as (i & Hx & _). rewrite lookup_drop in Hx. by eapply list_elem_of_lookup_2.
Qed.

Lemma substring_typed (v v' : Variant) min max : substring v min max = Ok v' ->
  well_typed v' /\ scalar_type_id v' = scalar_type_id v.
Proof.
  destruct v; simpl; try done; intros (? & _ & [= <-])%result_bind_ok; done.
Qed.

Lemma substring_type_id (v v' : Variant) min max : substring v min max = Ok v' -> type_id v' = type_id v.
Proof. destruct v; simpl; try done; intros (? & _ & [= <-])%result_bind_ok; done. Qed.

Lemma collect_substrings_typed a lo hi indices vs any :
  Forall (fun v => type_id v = TyScalar (value_type a)) (values a) ->
  collect_substrings a lo hi indices = Ok (vs, any) ->
  Forall (fun v => type_id v = TyScalar (value_type a)) vs.
Proof.
  intros Hwt. revert vs any. induction indices as [|i indices IH]; intros vs any; simpl; [by intros [= <- <-]|].
  intros (e & He%ok_or_ok & ([v found] & Hv & ([vs' any'] & Hvs & [= <- <-])%result_bind_ok)%result_bind_ok)%result_bind_ok.
  constructor; [|by eapply IH].
  apply zlookup_elem in He. rewrite Forall_forall in Hwt. specialize (Hwt e He).
  destruct (substring e lo hi) as [w|] eqn:Hs.
  - injection Hv as <- <-. apply substring_type_id in Hs. congruence.
  - destruct (value_type a); try done; by injection Hv as <- <-.
Qed.

Lemma new_multi_typed t (vs : list Variant) dims v' : new_multi_or_no_data t vs dims = Ok v' ->
  well_typed v' /\ scalar_type_id v' = Some t.
Proof.
  unfold new_multi_or_no_data, array_new_multi, validate_array_type_to_values.
  destruct (validate_dimensions _ _); simpl; [|done].
  destruct (values_are_of_type vs t) eqn:Hvs; simpl; [|done]. by intros [= <-].
Qed.

Lemma range_of_typed (v : Variant) (r : NumericRange) :
  well_typed v ->
  exists res, range_of v r = Ret res
  /\ forall v', res = Ok v' -> well_typed v' /\ scalar_type_id v' = scalar_type_id v.
Proof.
  intros Hwt.
  assert (forall t vs, scalar_type_id v = Some t -> values_are_of_type vs t = true ->
    exists res, outcome_bind (variant_of_values t vs) (fun r => Ret (Ok (E:=StatusCode) r)) = Ret res
    /\ forall v', res = Ok v' -> well_typed v' /\ scalar_type_id v' = scalar_type_id v) as Hmk.
  { intros t vs Ht Hvs. rewrite variant_of_values_ok by done. simpl. eexists. split; [done|].
    intros v' [= <-]. done. }
  destruct r as [|i|min max|rs|s]; simpl.
  - eexists. split; [done|]. by intros v' [= <-].
  - destruct v as [| | | | | | | | | | | | | | | | | | | | | | | | | |a]; try (eexists; split; [done|]; done);
      try (eexists; split; [done|]; intros v' H; by apply (substring_typed _ _ _ _ H)).
    destruct (is_multi_dimensional a); [eexists; split; [done|]; done|].
    destruct (zlookup (values a) i) as [x|] eqn:Hx; [|eexists; split; [done|]; done].
    apply Hmk; [done|]. apply values_are_of_type_spec. apply values_are_of_type_spec in Hwt.
    rewrite Forall_forall in Hwt. repeat constructor. apply Hwt. by eapply zlookup_elem.
  - destruct v as [| | | | | | | | | | | | | | | | | | | | | | | | | |a]; try (eexists; split; [done|]; done);
      try (eexists; split; [done|]; intros v' H; by apply (substring_typed _ _ _ _ H)).
    destruct (is_multi_dimensional a); [eexists; split; [done|]; done|].
    destruct (zlen (values a) <=? min); [eexists; split; [done|]; done|].
    set (m := if _ <=? max then _ else _). destruct (get_inclusive (values a) min m) as [vs|] eqn:Hx;
      [|eexists; split; [done|]; done].
    apply Hmk; [done|]. apply values_are_of_type_spec. apply values_are_of_type_spec in Hwt.
    rewrite Forall_forall in Hwt |- *. intros x Hin. apply Hwt. by eapply get_inclusive_incl.
  - destruct v as [| | | | | | | | | | | | | | | | | | | | | | | | | |a]; try (eexists; split; [done|]; done).
    eexists. split; [done|]. intros v' H. unfold range_of_multiple in H.
    apply result_bind_ok in H as (dims & _ & H).
    destruct (is_text_type (value_type a) && _).
    + apply result_bind_ok in H as (sr & _ & H). destruct (is_invalid_range sr); [done|].
      apply result_bind_ok in H as ([lo hi] & _ & H). apply result_bind_ok in H as ([ix ex] & _ & H).
      apply result_bind_ok in H as ([vs any] & _ & H). destruct any; simpl in H; [|done].
      by apply new_multi_typed in H.
    + apply result_bind_ok in H as ([ix ex] & _ & H). apply result_bind_ok in H as (vs & _ & H).
      by apply new_multi_typed in H.
  - eexists. split; [done|]. done.
Qed.

(** Reading an index range of a well-typed variant never panics, and a value it returns is
    well-typed and of the same scalar type as the variant read. *)
Theorem range_of_type_safe (v : Variant) (r : NumericRange) :
  well_typed v ->
  exists res, range_of v r = Ret res
  /\ forall v', res = Ok v' -> well_typed v' /\ scalar_type_id v' = scalar_type_id v.
Proof. apply range_of_typed. Qed.

End typing.

#[local] Instance no_dyn : DynEncodable := {| dyn := unit; dyn_eqb _ _ := true; dyn_data_type _ := None |}.

Definition grid : Array :=
  mkArray TInt32 (map VInt32 [1; 2; 3; 4; 5; 6]) (Some [2; 3]).

Lemma range_of_type_safe_witness :
  well_typed (VArray grid)
  /\ exists res, range_of (VArray grid) (NRMultiple [NRRange 0 1; NRIndex 2]) = Ret res
     /\ forall v', res = Ok v' -> well_typed v' /\ scalar_type_id v' = Some TInt32.
Proof.
  split; [reflexivity|].
  exact (range_of_type_safe (VArray grid) (NRMultiple [NRRange 0 1; NRIndex 2]) eq_refl).
Defined.

(** ** Enumeration *)

(** For a selection inside the dimensions of an array, the odometer loop produces exactly the
    row-major positions of the coordinates of the selected box, in lexicographic order, each once,
    all inside the array, and their number is the product of the extents; in particular the loop
    terminates and no checked operation overflows. *)
Theorem row_major_indices_enumerates (dims : list Z) (sels : list (Z * Z)) :
  sels <> [] -> Forall2 in_dim sels dims -> product dims <= usize_max ->
  exists indices, row_major_indices dims sels = Some indices
  /\ indices = map (row_major dims) (box sels)
  /\ NoDup indices
  /\ (forall i, i ∈ indices -> 0 <= i < product dims)
  /\ zlen indices = product (extents sels)
  /\ checked_selection_count sels = Some (zlen indices).
Proof.
  intros Hne Hs Hmax. exists (selected dims sels). split; [by apply row_major_indices_eq|].
  split; [done|]. split; [by apply selected_NoDup|]. split; [intros i; by apply selected_bound|].
  split; [by apply selected_length|]. rewrite selected_length by done. by eapply selection_count_total.
Qed.

Lemma row_major_indices_enumerates_witness :
  row_major_indices [2; 3] [(0, 1); (1, 2)] = Some [1; 2; 4; 5]
  /\ exists indices, row_major_indices [2; 3] [(0, 1); (1, 2)] = Some indices
     /\ NoDup indices /\ zlen indices = 4.
Proof.
  split; [reflexivity|].
  assert (Forall2 in_dim [(0, 1); (1, 2)] [2; 3]) as H by (repeat constructor; simpl; lia).
  destruct (row_major_indices_enumerates [2; 3] [(0, 1); (1, 2)] ltac:(discriminate) H
    ltac:(vm_compute; discriminate)) as (ix & H1 & _ & H2 & _ & H3 & _).
  exists ix. split; [exact H1|]. split; [exact H2|exact H3].
Defined.

(** ** Reads after writes *)

Section read_after_write.
Context {D : DynEncodable}.

(** When a multi-dimensional write succeeds, reading the same range gives back exactly the
    values written, and every element outside the selected indices keeps its old value. *)
Theorem multi_write_read (a b : Array) (ranges : list NumericRange) (v' : Variant) :
  ranges <> [] -> Forall range_u32 ranges ->
  values_are_of_type (values b) (value_type a) = true -> zlen (values b) <= u32_max ->
  set_range_of (VArray a) (NRMultiple ranges) (VArray b) = (v', Ok tt) ->
  exists vs' indices exts, v' = VArray (set_array_values a vs')
  /\ range_of v' (NRMultiple ranges) = Ret (Ok (VArray (mkArray (value_type a) (values b) (Some exts))))
  /\ zlen vs' = zlen (values a) /\ zlen indices = zlen (values b)
  /\ forall i, i ∉ indices -> zlookup vs' i = zlookup (values a) i.
Proof.
  intros Hne Hr Ht Hmaxb. unfold set_range_of.
  destruct (bool_decide _); simpl; [|done].
  destruct (set_range_of_multiple a ranges (values b)) as [vs' r] eqn:Hset. intros [= <- ->].
  destruct (set_range_of_multiple_ok a ranges (values b) vs' Hne Hr Hset)
    as (sels & Hsel & Hlen & Hsne & Hin & Hprod & Hmax & Hdp & Hext & Hw).
  set (dims := default [zlen (values a)] (dimensions a)) in *.
  destruct (write_indices_spec (values b) (selected dims sels) (values a) 0) as (w & Hw' & Hl & Hf & Hc).
  - done.
  - by apply selected_NoDup.
  - apply Forall_forall. intros i Hi. rewrite <-Hprod. by eapply selected_bound.
  - rewrite selected_length by done. lia.
  - rewrite Hw in Hw'. injection Hw' as <-.
    exists vs', (selected dims sels), (extents sels). split; [done|].
    assert (default [zlen vs'] (dimensions a) = dims) as Hdims by (unfold dims; by rewrite Hl).
    pose proof (extents_pos _ (in_dim_le _ _ Hin)) as Hpos.
    split; [|rewrite selected_length by done; repeat split; [done|lia|done]].
    simpl. rewrite (range_of_multiple_selected (set_array_values a vs') ranges sels (values b)); simpl;
      rewrite ?Hdims, ?Hl; [|done..| |done].
    + rewrite values_of_type_new; [done|done|].
      apply validate_dimensions_product; [by destruct sels|done..|].
      unfold u32_max, usize_max, u64_max in *. lia.
    + apply select_dimensions_of_write; [done..| |].
      * apply Forall_forall. intros d Hd. pose proof (dims_le_product _ _ Hpos Hd). lia.
      * apply dims_bounded; [by eapply in_dims_pos|lia].
Qed.

(** The text of a string or byte string variant, as a list of characters or bytes. *)
Definition text_of (v : Variant) : option (list Z) :=
  match v with VString s => s | VByteString s => s | _ => None end.

Lemma splice_get {A} (l rep : list A) min max : 0 <= min <= max -> max < zlen l -> zlen rep = max - min + 1 ->
  take (Z.to_nat (max - min + 1)) (drop (Z.to_nat min) (splice l rep min max)) = rep
  /\ zlen (splice l rep min max) = zlen l.
Proof.
  unfold splice, zlen. intros Hmm Hmax Hrep. split.
  - rewrite drop_app_ge by (rewrite length_take; lia).
    rewrite length_take, Nat.min_l by lia. rewrite Nat.sub_diag, drop_0.
    rewrite take_app_le by lia. rewrite take_ge by lia. done.
  - rewrite !length_app, length_take, length_drop. lia.
Qed.

Lemma write_bounds_ok r len min max : range_u32 r -> substring_write_bounds r len = Ok (min, max) ->
  range_bounds r = Some (min, max) /\ 0 <= min <= max /\ max < len
  /\ (r = NRIndex min /\ min = max \/ r = NRRange min max).
Proof.
  intros Hr H. unfold substring_write_bounds in H.
  destruct r as [|i|lo hi|rs|s]; simpl in H; try done;
    repeat match type of H with
    | context [?x =? ?y] => destruct (Z.eqb_spec x y)
    | context [?x <=? ?y] => destruct (Z.leb_spec x y)
    | context [?x <? ?y] => destruct (Z.ltb_spec x y)
    end; simpl in H; try done; injection H as <- <-; unfold range_u32, is_u32 in Hr; simpl in Hr;
    repeat split; try lia; auto.
Qed.

(** A successful write of a substring replaces exactly the addressed characters (bytes): the
    length is unchanged, the text before and after the range is kept, and reading the same range
    gives the replacement back. *)
Theorem substring_write_read (v other v' : Variant) (r : NumericRange) (l : list Z) :
  range_u32 r -> text_of v = Some l ->
  set_range_of v r other = (v', Ok tt) ->
  exists min max rep, range_bounds r = Some (min, max)
  /\ text_of v' = Some (take (Z.to_nat min) l ++ rep ++ drop (Z.to_nat (max + 1)) l)
  /\ rep = default [] (text_of other) /\ zlen rep = max - min + 1
  /\ scalar_type_id v' = scalar_type_id v
  /\ exists w, range_of v' r = Ret (Ok w) /\ text_of w = Some rep.
Proof.
  intros Hr Hl. unfold set_range_of. destruct (bool_decide _); simpl; [|done].
  destruct v; simpl in Hl; try done; subst; simpl.
  - unfold set_string_substring. destruct other; try done.
    destruct (substring_write_bounds r (zlen l)) as [[min max]|] eqn:Hb; [|done].
    destruct (Z.eqb_spec (zlen (default [] s)) (max - min + 1)) as [Hrep|]; simpl; [|done].
    intros [= <-]. destruct (write_bounds_ok _ _ _ _ Hr Hb) as (Hrb & Hmm & Hmax & Hcase).
    destruct (splice_get l (default [] s) min max Hmm Hmax Hrep) as [Hget Hlen].
    exists min, max, (default [] s). repeat split; [done..|].
    exists (VString (Some (default [] s))). split; [|done].
    assert (substring (VString (Some (splice l (default [] s) min max))) min max
            = Ok (VString (Some (default [] s)))) as Hsub.
    { simpl. rewrite Hlen. destruct (Z.leb_spec (zlen l) min); [lia|].
      rewrite Z.min_l by lia. destruct (Z.ltb_spec max min); [lia|]. simpl. by rewrite Hget. }
    destruct Hcase as [[-> ->]| ->]; simpl; by rewrite <-Hsub.
  - unfold set_bytestring_substring. destruct other; try done.
    destruct (substring_write_bounds r (zlen l)) as [[min max]|] eqn:Hb; [|done].
    destruct (Z.eqb_spec (zlen (default [] b)) (max - min + 1)) as [Hrep|]; simpl; [|done].
    intros [= <-]. destruct (write_bounds_ok _ _ _ _ Hr Hb) as (Hrb & Hmm & Hmax & Hcase).
    destruct (splice_get l (default [] b) min max Hmm Hmax Hrep) as [Hget Hlen].
    exists min, max, (default [] b). repeat split; [done..|].
    exists (VByteString (Some (default [] b))). split; [|done].
    assert (substring (VByteString (Some (splice l (default [] b) min max))) min max
            = Ok (VByteString (Some (default [] b)))) as Hsub.
    { simpl. rewrite Hlen. destruct (Z.leb_spec (zlen l) min); [lia|].
      destruct (Z.leb_spec (zlen l) max); [lia|]. unfold get_inclusive. rewrite Hlen.
      destruct (Z.ltb_spec (max + 1) min); [lia|]. destruct (Z.ltb_spec (zlen l) (max + 1)); [lia|]. simpl.
      replace (max + 1 - min) with (max - min + 1) by lia. by rewrite Hget. }
    destruct Hcase as [[-> ->]| ->]; simpl; by rewrite <-Hsub.
Qed.

(** The copy loop of a one-dimensional range write overwrites, from [min] on, as many elements
    as the source, the range and the array all have, and keeps the others; so a source longer or
    shorter than the range is accepted and only partly written. *)
Theorem copy_range_spec (vs others : list Variant) (min max : Z) :
  0 <= min <= zlen vs -> min <= max ->
  let n := Z.to_nat (Z.min (zlen others) (Z.min (max - min + 1) (zlen vs - min))) in
  copy_range vs min max others
  = take (Z.to_nat min) vs ++ take n others ++ drop (Z.to_nat min + n) vs.
Proof.
  intros Hmin Hmm n. subst n. assert (min <= max + 1) as Hle by lia. clear Hmm.
  revert vs min Hmin Hle. induction others as [|o others IH]; intros vs min Hmin Hle; simpl.
  - replace (Z.to_nat (Z.min _ _)) with 0%nat by (unfold zlen in *; simpl; lia).
    simpl. by rewrite Nat.add_0_r, take_drop.
  - destruct (Z.ltb_spec min (zlen vs)); simpl.
    2:{ replace (Z.to_nat (Z.min _ _)) with 0%nat by (unfold zlen in *; simpl; lia).
        simpl. by rewrite Nat.add_0_r, take_drop. }
    destruct (Z.leb_spec min max); simpl.
    2:{ replace (Z.to_nat (Z.min _ _)) with 0%nat by (unfold zlen in *; simpl; lia).
        simpl. by rewrite Nat.add_0_r, take_drop. }
    rewrite IH by (rewrite ?zlen_insert; lia). rewrite zlen_insert.
    set (n := Z.to_nat (Z.min (zlen (o :: others)) _)).
    assert (Z.to_nat (Z.min (zlen others) (Z.min (max - (min + 1) + 1) (zlen vs - (min + 1)))) = pred n) as ->.
    { unfold n, zlen in *. simpl length. lia. }
    assert (n <> 0)%nat as Hn by (unfold n, zlen in *; simpl length; lia).
    destruct n as [|n]; [done|]. simpl.
    assert (Z.to_nat min < length vs)%nat by (unfold zlen in *; lia).
    replace (Z.to_nat (min + 1)) with (S (Z.to_nat min)) by lia.
    rewrite insert_take_drop by done. rewrite take_app_ge by (rewrite length_take; lia).
    rewrite length_take, Nat.min_l by lia.
    replace (S (Z.to_nat min) - Z.to_nat min)%nat with 1%nat by lia. simpl. rewrite <-app_assoc. simpl.
    do 3 f_equal.
    rewrite drop_app_ge by (rewrite length_take; lia). rewrite length_take, Nat.min_l by lia.
    replace (S (Z.to_nat min + n) - Z.to_nat min)%nat with (S n) by lia.
    change (drop n (drop (S (Z.to_nat min)) vs) = drop (Z.to_nat min + S n) vs).
    rewrite drop_drop. f_equal. lia.
Qed.

End read_after_write.

(** ** Witnesses *)

Definition patch : Array := mkArray TInt32 (map VInt32 [70; 80]) None.

Lemma multi_write_read_witness :
  let ranges := [NRRange 0 1; NRIndex 2] in
  set_range_of (VArray grid) (NRMultiple ranges) (VArray patch)
  = (VArray (set_array_values grid (map VInt32 [1; 2; 70; 4; 5; 80])), Ok tt)
  /\ exists exts,
     range_of (VArray (set_array_values grid (map VInt32 [1; 2; 70; 4; 5; 80]))) (NRMultiple ranges)
     = Ret (Ok (VArray (mkArray TInt32 (map VInt32 [70; 80]) (Some exts)))).
Proof.
  split; [vm_compute; reflexivity|].
  destruct (multi_write_read grid patch [NRRange 0 1; NRIndex 2]
              (VArray (set_array_values grid (map VInt32 [1; 2; 70; 4; 5; 80]))))
    as (vs' & ix & exts & _ & Hread & _).
  - discriminate.
  - repeat constructor; unfold is_u32, u32_max; simpl; lia.
  - reflexivity.
  - vm_compute. discriminate.
  - vm_compute. reflexivity.
  - exists exts. exact Hread.
Defined.

Lemma substring_write_read_witness :
  set_range_of (VString (Some (str "abcdef"))) (NRRange 1 3) (VString (Some (str "xyz")))
  = (VString (Some (str "axyzef")), Ok tt)
  /\ exists w, range_of (VString (Some (str "axyzef"))) (NRRange 1 3) = Ret (Ok w)
     /\ text_of w = Some (str "xyz").
Proof.
  split; [vm_compute; reflexivity|].
  destruct (substring_write_read (VString (Some (str "abcdef"))) (VString (Some (str "xyz")))
              (VString (Some (str "axyzef"))) (NRRange 1 3) (str "abcdef"))
    as (min & max & rep & _ & _ & Hrep & _ & _ & w & Hw & Hrd).
  - unfold range_u32, is_u32, u32_max. simpl. lia.
  - reflexivity.
  - vm_compute. reflexivity.
  - exists w. split; [exact Hw|]. rewrite Hrd, Hrep. reflexivity.
Defined.

Lemma copy_range_spec_witness :
  copy_range (map VInt32 [1; 2; 3]) 1 1 (map VInt32 [8; 9]) = map VInt32 [1; 8; 3].
Proof.
  rewrite (copy_range_spec (map VInt32 [1; 2; 3]) (map VInt32 [8; 9]) 1 1);
    [vm_compute; reflexivity|vm_compute; split; discriminate|vm_compute; discriminate].
Defined.
