(* ===== verification/Limits.v ===== *)
(** * Handles and subscription limits

    Models [Handle] of [async-opcua-core/src/handle.rs] (the sequence number generator of
    notification messages and of identifiers) and the [SubscriptionLimits] of
    [async-opcua-server/src/config/limits.rs] with their defaults. *)

From S2P Require Import Prelude Float.

(** ** Handles *)

Record Handle := { next : Z; first : Z }.

#[export] Instance Handle_eq_dec : EqDecision Handle.
Proof. solve_decision. Defined.

Definition handle_new (first : Z) : Handle := {| next := first; first := first |}.
(** [Handle::next]: the handle issued, and the generator after it. *)
Definition handle_next (h : Handle) : Z * Handle :=
  (next h, {| next := if next h =? u32_max then first h else next h + 1; first := first h |}).
Definition peek_next (h : Handle) : Z := next h.
Definition set_next (h : Handle) (n : Z) : Handle := {| next := n; first := first h |}.
Definition reset (h : Handle) : Handle := set_next h (first h).

(** A generator between its first value and [u32::MAX]. *)
Definition handle_ok (h : Handle) : Prop := 0 <= first h <= next h /\ next h <= u32_max.

Lemma handle_new_ok f : is_u32 f -> handle_ok (handle_new f).
Proof. unfold handle_ok, is_u32. simpl. lia. Qed.
Lemma handle_next_ok h : handle_ok h -> handle_ok (handle_next h).2.
Proof. unfold handle_ok. simpl. case_match; bool_to_prop; lia. Qed.
Lemma handle_next_first h : first (handle_next h).2 = first h.
Proof. done. Qed.

(** The [n]-th generator. *)
Definition handle_after (n : nat) (h : Handle) : Handle := Nat.iter n (fun h => (handle_next h).2) h.

Lemma handle_after_ok n h : handle_ok h -> handle_ok (handle_after n h).
Proof. intros H. induction n; [done|]. by apply handle_next_ok. Qed.

(** The generator is a counter modulo the size of its interval. *)
Lemma handle_after_next n h : handle_ok h ->
  next (handle_after n h) = first h + (next h - first h + Z.of_nat n) mod (u32_max + 1 - first h).
Proof.
  unfold handle_ok. intros Hok. assert (0 < u32_max + 1 - first h) as Hpos by lia.
  assert (first (handle_after n h) = first h) as Hf by (induction n; done).
  induction n as [|n IH]; [simpl; rewrite Z.add_0_r, Z.mod_small by lia; lia|].
  assert (first (handle_after n h) = first h) as Hfn by (clear; induction n; done).
  specialize (IH Hfn). change (handle_after (S n) h) with ((handle_next (handle_after n h)).2).
  unfold handle_next. simpl. rewrite IH, Hfn.
  replace (next h - first h + Z.of_nat (S n)) with (next h - first h + Z.of_nat n + 1) by lia.
  set (m := u32_max + 1 - first h) in *. set (k := next h - first h + Z.of_nat n).
  pose proof (Z.mod_pos_bound k m Hpos).
  rewrite <-(Z.add_mod_idemp_l k 1 m) by lia.
  destruct (Z.eqb_spec (first h + k mod m) u32_max) as [He|He].
  - assert (k mod m + 1 = m) as -> by lia. rewrite Z.mod_same by lia. lia.
  - rewrite (Z.mod_small (k mod m + 1)) by lia. lia.
Qed.

(** ** Limits *)

Record SubscriptionLimits := {
  max_subscriptions_per_session : Z;
  max_pending_publish_requests : Z;
  max_publish_requests_per_subscription : Z;
  min_sampling_interval_ms : f64;
  min_publishing_interval_ms : f64;
  max_keep_alive_count : Z;
  default_keep_alive_count : Z;
  max_monitored_items_per_sub : Z;
  max_monitored_item_queue_size : Z;
  max_lifetime_count : Z;
  max_notifications_per_publish : Z;
  max_queued_notifications : Z
}.

(** The defaults of the server configuration. *)
Definition default_limits : SubscriptionLimits := {|
  max_subscriptions_per_session := 200;
  max_pending_publish_requests := 200;
  max_publish_requests_per_subscription := 4;
  min_sampling_interval_ms := f64_of_Z 100;
  min_publishing_interval_ms := f64_of_Z 100;
  max_keep_alive_count := 30000;
  default_keep_alive_count := 10;
  max_monitored_items_per_sub := 10000;
  max_monitored_item_queue_size := 10;
  max_lifetime_count := 30000 * 3;
  max_notifications_per_publish := 1000;
  max_queued_notifications := 10000
|}.

(** A handle generator that starts at [first] issues, as its [n]-th number, the [n]-th value of
    the interval from [first] to [u32::MAX], starting over after [u32::MAX]: numbers are never
    repeated before the wrap-around, and a generator that starts at 1 never issues 0. *)
Theorem handle_sequence (f : Z) (n : nat) :
  is_u32 f ->
  let h := handle_after n (handle_new f) in
  (handle_next h).1 = f + Z.of_nat n mod (u32_max + 1 - f)
  /\ f <= (handle_next h).1 <= u32_max
  /\ peek_next h = (handle_next h).1.
Proof.
  intros Hf. cbv zeta. pose proof (handle_new_ok f Hf) as Hok.
  pose proof (handle_after_next n (handle_new f) Hok) as Hn. simpl in Hn |- *.
  rewrite Z.sub_diag, Z.add_0_l in Hn. rewrite Hn.
  assert (0 < u32_max + 1 - f) as Hpos by (unfold is_u32 in Hf; lia).
  pose proof (Z.mod_pos_bound (Z.of_nat n) _ Hpos). unfold peek_next. rewrite Hn. lia.
Qed.

Lemma handle_sequence_witness :
  (handle_next (handle_after 2 (handle_new 1))).1 = 3
  /\ peek_next (handle_after 2 (handle_new 1)) = 3.
Proof.
  destruct (handle_sequence 1 2 ltac:(unfold is_u32, u32_max; lia)) as (H1 & _ & H3).
  split; [exact H1|]. rewrite H3. exact H1.
Defined.
