(* ===== verification/SequenceNumber.v ===== *)
(** * Sequence numbers of message chunks

    [SequenceNumberHandle] of async-opcua-core/src/comms/sequence_number.rs: the counter of a
    sender, and the check a receiver makes on every chunk.  Lemmas: what a receiver accepts, runs of
    accepted numbers, numbers accepted twice. *)

From S2P Require Import Prelude StatusCode.

Record SequenceNumberHandle := { sn_is_legacy : bool; sn_current_value : Z }.

Definition max_value (h : SequenceNumberHandle) : Z := if sn_is_legacy h then u32_max - 1024 else u32_max.
Definition min_value (h : SequenceNumberHandle) : Z := if sn_is_legacy h then 1 else 0.
Definition sn_new (is_legacy : bool) : SequenceNumberHandle :=
  {| sn_is_legacy := is_legacy; sn_current_value := if is_legacy then 1 else 0 |}.
Definition sn_new_at (is_legacy : bool) (value : Z) : SequenceNumberHandle :=
  let max := if is_legacy then u32_max - 1024 else u32_max in
  {| sn_is_legacy := is_legacy; sn_current_value := value mod max |}.
Definition current (h : SequenceNumberHandle) : Z := sn_current_value h.
Definition sn_set (value : Z) (h : SequenceNumberHandle) : SequenceNumberHandle :=
  {| sn_is_legacy := sn_is_legacy h; sn_current_value := value |}.

Definition set_is_legacy (is_legacy : bool) (h : SequenceNumberHandle) : SequenceNumberHandle :=
  let h := {| sn_is_legacy := is_legacy; sn_current_value := sn_current_value h |} in
  if max_value h <? sn_current_value h
  then sn_set (min_value h + (sn_current_value h - max_value h - 1)) h else h.

Definition increment (value : Z) (h : SequenceNumberHandle) : SequenceNumberHandle :=
  let remaining := wrap32 (max_value h - sn_current_value h) in
  if remaining <? value then sn_set (wrap32 (min_value h + value - remaining - 1)) h
  else sn_set (wrap32 (sn_current_value h + value)) h.

Definition validate_and_increment (incoming : Z) (h : SequenceNumberHandle)
    : result SequenceNumberHandle StatusCode :=
  let expected := current h in
  let? h :=
    (if negb (incoming =? expected) then
       if sn_is_legacy h && (expected =? min_value h) && (incoming <? 1024) then Ok (sn_set incoming h)
       else Err BadSequenceNumberInvalid
     else Ok h) in
  Ok (increment 1 h).

(** ** Valid handles *)

Definition sn_valid (h : SequenceNumberHandle) : Prop := min_value h <= sn_current_value h <= max_value h.

Ltac sn_unfold := unfold max_value, min_value, current, sn_set in *; simpl in *.

Lemma sn_new_valid b : sn_valid (sn_new b).
Proof. destruct b; unfold sn_valid, sn_new; sn_unfold; int_lia. Qed.

(** The number after [x]. *)
Definition next_number (is_legacy : bool) (x : Z) : Z :=
  let h := sn_new is_legacy in if x =? max_value h then min_value h else x + 1.

Lemma increment_one b x :
  0 <= x <= max_value (sn_new b) ->
  increment 1 {| sn_is_legacy := b; sn_current_value := x |}
  = {| sn_is_legacy := b; sn_current_value := next_number b x |}.
Proof.
  intros Hx. unfold increment, next_number. sn_unfold.
  rewrite (wrap32_small (_ - x)) by (destruct b; int_lia).
  destruct (Z.ltb_spec ((if b then u32_max - 1024 else u32_max) - x) 1);
    destruct (Z.eqb_spec x (if b then u32_max - 1024 else u32_max)); try int_lia.
  - rewrite wrap32_small by (destruct b; int_lia). f_equal. int_lia.
  - by rewrite wrap32_small by (destruct b; int_lia).
Qed.

(** The increment is addition modulo the length of the interval of sequence numbers. *)
Lemma increment_spec n h : sn_valid h -> 0 <= n <= max_value h - min_value h + 1 ->
  let period := max_value h - min_value h + 1 in
  sn_current_value (increment n h) = min_value h + (sn_current_value h - min_value h + n) mod period
  /\ sn_valid (increment n h) /\ sn_is_legacy (increment n h) = sn_is_legacy h.
Proof.
  intros Hv Hn period. destruct h as [b c]. unfold sn_valid in *. unfold increment.
  assert (0 <= min_value {| sn_is_legacy := b; sn_current_value := c |}) by (destruct b; by sn_unfold).
  assert (max_value {| sn_is_legacy := b; sn_current_value := c |} <= u32_max) by (destruct b; sn_unfold; int_lia).
  set (mx := max_value _) in *. set (mn := min_value _) in *. cbn [sn_current_value sn_is_legacy] in *.
  rewrite (wrap32_small (mx - c)) by int_lia.
  destruct (Z.ltb_spec (mx - c) n) as [Hlt|Hge]; unfold sn_set; simpl.
  - rewrite wrap32_small by int_lia.
    assert (mn + n - (mx - c) - 1 = mn + (c - mn + n) mod period) as ->.
    { subst period. rewrite <- (Z.mod_add (c - mn + n) (-1)) by lia. rewrite Z.mod_small; lia. }
    split; [done|]. split; [|done]. change (mn <= mn + (c - mn + n) mod period <= mx).
    pose proof (Z.mod_pos_bound (c - mn + n) period ltac:(lia)). lia.
  - rewrite wrap32_small by int_lia. unfold period. rewrite Z.mod_small by lia.
    split; [lia|]. split; [|done]. change (mn <= c + n <= mx). lia.
Qed.

(** ** What a receiver accepts *)

Lemma validate_spec h x : sn_valid h -> 0 <= x ->
  validate_and_increment x h
  = if bool_decide (x = current h) || (sn_is_legacy h && (current h =? min_value h) && (x <? 1024))
    then Ok {| sn_is_legacy := sn_is_legacy h; sn_current_value := next_number (sn_is_legacy h) x |}
    else Err BadSequenceNumberInvalid.
Proof.
  intros Hv Hx. destruct h as [b c]. unfold validate_and_increment, sn_valid, current in *.
  cbn [sn_current_value sn_is_legacy] in *. assert (1024 <= u32_max - 1024) by int_lia.
  destruct (Z.eqb_spec x c) as [->|Hne].
  - rewrite bool_decide_eq_true_2 by done. simpl. f_equal. apply increment_one.
    destruct b; sn_unfold; int_lia.
  - rewrite bool_decide_eq_false_2 by done. cbn [orb negb].
    destruct (b && _ && _) eqn:Hb; [|done]. bool_to_prop. cbn [result_bind]. f_equal. apply increment_one.
    destruct b; sn_unfold; int_lia.
Qed.

Lemma next_number_valid b x : 0 <= x <= max_value (sn_new b) ->
  sn_valid {| sn_is_legacy := b; sn_current_value := next_number b x |}.
Proof.
  intros Hx. unfold sn_valid, next_number. destruct b; sn_unfold;
    match goal with |- context [?x =? ?y] => destruct (Z.eqb_spec x y) end; int_lia.
Qed.

(** The numbers of a run of chunks, all accepted. *)
Fixpoint accept_all (xs : list Z) (h : SequenceNumberHandle) : result SequenceNumberHandle StatusCode :=
  match xs with
  | [] => Ok h
  | x :: xs' => let? h := validate_and_increment x h in accept_all xs' h
  end.

Lemma next_number_max b : next_number b (max_value (sn_new b)) = min_value (sn_new b).
Proof. unfold next_number. by rewrite Z.eqb_refl. Qed.
Lemma next_number_lt b x : x < max_value (sn_new b) -> next_number b x = x + 1.
Proof. intros Hx. unfold next_number. destruct (Z.eqb_spec x (max_value (sn_new b))); lia. Qed.

Definition handle_at (b : bool) (x : Z) : SequenceNumberHandle :=
  {| sn_is_legacy := b; sn_current_value := x |}.

(** Accepted numbers other than zero lie in the interval of the counter. *)
Lemma accepted_range b c x h :
  sn_valid (handle_at b c) -> 0 <= x -> (b = true -> x <> 0) ->
  validate_and_increment x (handle_at b c) = Ok h ->
  min_value (sn_new b) <= x <= max_value (sn_new b) /\ h = handle_at b (next_number b x)
  /\ (x = c \/ b = true /\ c = 1 /\ x < 1024).
Proof.
  intros Hv Hx H0. rewrite validate_spec by done. unfold current, handle_at. cbn [sn_is_legacy sn_current_value].
  destruct (_ || _) eqn:Hb; [|done]. intros [= <-]. unfold sn_valid, handle_at in Hv.
  assert (1024 <= u32_max - 1024) by int_lia.
  apply orb_true_iff in Hb as [Hb|Hb]; bool_to_prop; destruct b; sn_unfold;
    (split; [try specialize (H0 eq_refl); int_lia|split; [done|]]); auto; lia.
Qed.

(** Runs: consecutive numbers up to the end of the interval, then a run from its start. *)
Lemma run_split b xs : forall c h,
  sn_valid (handle_at b c) -> Forall (fun x => 0 <= x) xs -> (b = true -> 0 ∉ xs) ->
  (b = true -> c <> 1) -> accept_all xs (handle_at b c) = Ok h ->
  exists n rest, xs = seqZ c (Z.of_nat n) ++ rest /\ c + Z.of_nat n - 1 <= max_value (sn_new b)
  /\ (rest = [] \/ c + Z.of_nat n - 1 = max_value (sn_new b)
      /\ accept_all rest (handle_at b (min_value (sn_new b))) = Ok h).
Proof.
  induction xs as [|x xs IH]; intros c h Hv Hxs H0 Hc Hrun.
  { exists 0%nat, []. split; [done|]. split; [|by left]. unfold sn_valid in Hv. destruct b; sn_unfold; lia. }
  simpl in Hrun. apply result_bind_ok in Hrun as (h1 & Hx & Hrun).
  inversion Hxs as [|? ? Hx0 Hxs']; subst.
  apply accepted_range in Hx as (Hr & -> & Hcase); [|done|done|set_solver].
  assert (x = c) as -> by (destruct Hcase as [?|(Hb & ? & _)]; [done|by destruct (Hc Hb)]).
  destruct (decide (c = max_value (sn_new b))) as [Heq|Hne].
  - exists 1%nat, xs. split; [done|]. split; [lia|]. right. split; [lia|].
    by rewrite Heq, next_number_max in Hrun.
  - rewrite next_number_lt in Hrun by lia.
    assert (sn_valid (handle_at b (c + 1))) as Hv1.
    { rewrite <- (next_number_lt b c) by lia. apply next_number_valid. destruct b; sn_unfold; lia. }
    assert (b = true -> c + 1 <> 1) as Hc' by (intros ->; unfold sn_valid in Hv; sn_unfold; lia).
    assert (b = true -> 0 ∉ xs) as H0' by (intros Hb ?; apply (H0 Hb); by right).
    destruct (IH (c + 1) h Hv1 Hxs' H0' Hc' Hrun) as (n & rest & -> & Hn & Hrest).
    exists (S n), rest. rewrite Nat2Z.inj_succ, (seqZ_cons c) by lia. simpl.
    replace (Z.succ c) with (c + 1) by lia. replace (Z.pred (Z.succ (Z.of_nat n))) with (Z.of_nat n) by lia.
    split; [done|]. split; [lia|]. destruct Hrest as [|[? ?]]; [by left|right; split; [lia|done]].
Qed.

(** The first number a counter at the start of its interval accepts. *)
Lemma run_from_start b xs h :
  Forall (fun x => 0 <= x) xs -> (b = true -> 0 ∉ xs) -> zlen xs <= max_value (sn_new b) - 1023 ->
  accept_all xs (handle_at b (min_value (sn_new b))) = Ok h ->
  exists j, min_value (sn_new b) <= j /\ j <= 1023 /\ xs = seqZ j (zlen xs).
Proof.
  destruct xs as [|x xs]; intros Hxs H0 Hlen Hrun.
  { exists (min_value (sn_new b)). split; [done|]. split; [by destruct b|done]. }
  simpl in Hrun. apply result_bind_ok in Hrun as (h1 & Hx & Hrun).
  inversion Hxs as [|? ? Hx0 Hxs']; subst.
  assert (sn_valid (handle_at b (min_value (sn_new b)))) as Hv by (destruct b; unfold sn_valid; sn_unfold; int_lia).
  apply accepted_range in Hx as (Hr & -> & Hcase); [|done..|set_solver].
  assert (1024 <= u32_max - 1024) as H1024 by int_lia.
  assert (x <= 1023 /\ x < max_value (sn_new b)) as [Hx1 Hx2].
  { destruct Hcase as [->|(Hb & _ & ?)]; destruct b; sn_unfold; int_lia. }
  exists x. split; [lia|]. split; [done|]. rewrite next_number_lt in Hrun by done.
  assert (sn_valid (handle_at b (x + 1))) as Hv1.
  { rewrite <- (next_number_lt b x) by lia. apply next_number_valid. destruct b; sn_unfold; lia. }
  assert (b = true -> x + 1 <> 1) as Hc' by (intros ->; sn_unfold; lia).
  assert (b = true -> 0 ∉ xs) as H0' by (intros Hb ?; apply (H0 Hb); by right).
  destruct (run_split b xs (x + 1) h Hv1 Hxs' H0' Hc' Hrun) as (n & rest & -> & Hn & Hrest).
  unfold zlen in *. rewrite length_cons, length_app, length_seqZ, Nat2Z.id in *.
  destruct Hrest as [->|[Hend _]]; [|exfalso; lia].
  rewrite app_nil_r. simpl. rewrite Nat.add_0_r, Nat2Z.inj_succ, (seqZ_cons x) by lia.
  f_equal. f_equal; lia.
Qed.

Lemma NoDup_run b xs c h :
  sn_valid (handle_at b c) -> Forall (fun x => 0 <= x) xs -> (b = true -> 0 ∉ xs) ->
  zlen xs <= max_value (sn_new b) - 1023 -> accept_all xs (handle_at b c) = Ok h -> NoDup xs.
Proof.
  intros Hv Hxs H0 Hlen Hrun.
  destruct (decide (c = min_value (sn_new b))) as [->|Hc].
  { apply run_from_start in Hrun as (j & _ & _ & ->); [|done..]. apply NoDup_seqZ. }
  apply run_split in Hrun as (n & rest & -> & Hn & Hrest); [|done..|by intros ->].
  apply Forall_app in Hxs as [_ Hrs]. unfold zlen in Hlen. rewrite length_app, length_seqZ, Nat2Z.id in Hlen.
  apply NoDup_app. split; [apply NoDup_seqZ|].
  destruct Hrest as [->|[Hend Hrun]]; [split; [set_solver|constructor]|].
  apply run_from_start in Hrun as (j & Hj & Hj2 & Heq); [|done|set_solver|unfold zlen; lia].
  rewrite Heq. split; [|apply NoDup_seqZ].
  intros x. rewrite !elem_of_seqZ. unfold zlen in *. lia.
Qed.

(** The numbers a sender gives to [n] chunks, one increment per chunk. *)
Fixpoint sent_numbers (n : nat) (h : SequenceNumberHandle) : list Z :=
  match n with
  | O => []
  | S n' => current h :: sent_numbers n' (increment 1 h)
  end.

Lemma increment_valid h : sn_valid h -> sn_valid (increment 1 h) /\ sn_is_legacy (increment 1 h) = sn_is_legacy h.
Proof.
  intros Hv. destruct (increment_spec 1 h Hv) as (_ & ? & ?); [|done].
  unfold sn_valid in Hv. lia.
Qed.

Lemma handle_eq h h' : sn_is_legacy h = sn_is_legacy h' -> sn_current_value h = sn_current_value h' -> h = h'.
Proof. destruct h, h'; simpl; by intros -> ->. Qed.

Lemma bounds_of_mode h h' : sn_is_legacy h = sn_is_legacy h' -> min_value h = min_value h' /\ max_value h = max_value h'.
Proof. unfold min_value, max_value. by intros ->. Qed.

Lemma increment_add n h : sn_valid h -> 0 <= n -> n + 1 <= max_value h - min_value h + 1 ->
  increment n (increment 1 h) = increment (n + 1) h.
Proof.
  intros Hv Hn Hp. destruct (increment_valid h Hv) as [Hv1 Hb1]. destruct (bounds_of_mode _ _ Hb1) as [Hmn Hmx].
  destruct (increment_spec 1 h Hv) as (H1 & _); [lia|].
  destruct (increment_spec n _ Hv1) as (H2 & _ & Hb2); [lia|].
  destruct (increment_spec (n + 1) h Hv) as (H3 & _ & Hb3); [lia|].
  apply handle_eq; [congruence|]. rewrite H2, H3, H1, Hmn, Hmx. f_equal.
  replace (min_value h + _ - min_value h + n)
    with ((sn_current_value h - min_value h + 1) mod (max_value h - min_value h + 1) + n) by lia.
  rewrite Z.add_mod_idemp_l by lia. f_equal. lia.
Qed.

Lemma validate_current h : validate_and_increment (current h) h = Ok (increment 1 h).
Proof. unfold validate_and_increment. by rewrite Z.eqb_refl. Qed.

Lemma increment_0 h : sn_valid h -> increment 0 h = h.
Proof.
  intros Hv. unfold sn_valid in Hv. destruct (increment_spec 0 h Hv) as (H1 & _ & Hb); [lia|].
  apply handle_eq; [done|]. rewrite H1, Z.mod_small; lia.
Qed.

(** A receiver that expects the number its sender uses next accepts every chunk of a message of
    any number of chunks (up to a whole round of the counter), across the wrap-around, and then
    expects the number at which the sender, which advances its counter once per message by the
    number of chunks, has arrived. *)
Theorem sent_numbers_accepted (n : nat) (h : SequenceNumberHandle) :
  sn_valid h -> Z.of_nat n <= max_value h - min_value h + 1 ->
  accept_all (sent_numbers n h) h = Ok (increment (Z.of_nat n) h)
  /\ sn_valid (increment (Z.of_nat n) h)
  /\ forall k x, sent_numbers n h !! k = Some x ->
      x = min_value h + (current h - min_value h + Z.of_nat k) mod (max_value h - min_value h + 1).
Proof.
  intros Hv Hn. split; [|split].
  - revert h Hv Hn. induction n as [|n IH]; intros h Hv Hn; simpl; [by rewrite increment_0|].
    rewrite validate_current. simpl. destruct (increment_valid h Hv) as [Hv1 Hb].
    destruct (bounds_of_mode _ _ Hb) as [Hmn Hmx].
    rewrite IH by (done || rewrite Hmn, Hmx; lia). rewrite increment_add by (done || lia).
    do 2 f_equal. lia.
  - by apply increment_spec; [|lia].
  - intros k x Hk. assert (k < n)%nat as Hkn.
    { apply lookup_lt_Some in Hk. assert (length (sent_numbers n h) = n) as Hl; [|lia].
      clear. revert h. induction n; intros h; simpl; [done|]. by rewrite IHn. }
    revert h k Hv Hn Hk Hkn. induction n as [|n IH]; intros h k Hv Hn Hk Hkn; [done|].
    destruct k as [|k]; simpl in Hk.
    + injection Hk as <-. unfold sn_valid, current in *. rewrite Z.mod_small; lia.
    + destruct (increment_valid h Hv) as [Hv1 Hb]. destruct (bounds_of_mode _ _ Hb) as [Hmn Hmx].
      apply IH in Hk; [|done|rewrite Hmn, Hmx; lia|lia]. rewrite Hk, Hmn, Hmx. f_equal.
      unfold current. destruct (increment_spec 1 h Hv) as (-> & _); [lia|].
      replace (min_value h + _ - min_value h + Z.of_nat k)
        with ((sn_current_value h - min_value h + 1) mod (max_value h - min_value h + 1) + Z.of_nat k) by lia.
      rewrite Z.add_mod_idemp_l by lia. f_equal. lia.
Qed.

(** No number but zero is accepted twice: among the numbers a receiver accepts in a row, up to a
    round of the counter (less the 1023 numbers a legacy peer may skip at its start), no two are
    equal, whatever the peer sends. *)
Theorem no_number_accepted_twice (xs : list Z) (h h' : SequenceNumberHandle) :
  sn_valid h -> Forall (fun x => 0 <= x) xs -> (sn_is_legacy h = true -> 0 ∉ xs) ->
  zlen xs <= max_value h - 1023 -> accept_all xs h = Ok h' -> NoDup xs.
Proof. destruct h as [b c]. intros Hv Hxs H0 Hlen Hrun. by apply (NoDup_run b xs c h'). Qed.

(** A legacy receiver at the start of its counter accepts a chunk numbered zero and then expects
    the same number as before, so the same chunk is accepted again any number of times. *)
Theorem zero_accepted_repeatedly (n : nat) :
  accept_all (repeat 0 n) (sn_new true) = Ok (sn_new true).
Proof. induction n as [|n IH]; [done|]. simpl repeat. cbn [accept_all]. done. Qed.

Lemma sent_numbers_accepted_witness :
  accept_all (sent_numbers 3 (sn_set (u32_max - 1025) (sn_new true))) (sn_set (u32_max - 1025) (sn_new true))
  = Ok (sn_set 2 (sn_new true)).
Proof.
  refine (proj1 (sent_numbers_accepted 3 (sn_set (u32_max - 1025) (sn_new true)) _ _)).
  - split; vm_compute; discriminate.
  - vm_compute. discriminate.
Defined.

Lemma no_number_accepted_twice_witness : NoDup [4294966271; 700; 701].
Proof.
  apply (no_number_accepted_twice _ (sn_set (u32_max - 1024) (sn_new true)) (sn_set 702 (sn_new true))).
  - split; vm_compute; discriminate.
  - repeat constructor; vm_compute; discriminate.
  - intros _. rewrite !not_elem_of_cons. repeat split; try discriminate. apply not_elem_of_nil.
  - vm_compute. discriminate.
  - vm_compute. reflexivity.
Defined.
