(* ===== verification/Wire.v ===== *)
(** * The binary wire format: streams, integers, strings, node identifiers

    The readers and writers of async-opcua-types/src/encoding.rs, and the binary encoding of
    [UAString] (string.rs), [ByteString] (byte_string.rs), [Guid] (guid.rs), [StatusCode]
    (status_code.rs) and [NodeId] (node_id/mod.rs).

    A decoder is generic in the stream it reads from ([S: Read]), so it is modelled as a program
    that asks for a number of bytes and goes on with them ([parser]); a stream is an interpreter of
    such programs.  [run] reads from a slice ([Cursor]); the chunks of a message are another
    interpreter (file Chunker).  An encoder is the list of the buffers it passes to [write_all]. *)

From S2P Require Import Prelude Text Float StatusCode NumericRange Variant.

(** A byte is a [Z] in [0, 255]. *)
Abbreviation bytes := (list Z).

(** ** Decoders *)

Inductive parser (A : Type) : Type :=
| PRet (a : A)
| PFail (e : StatusCode)
| PRead (n : nat) (k : bytes -> parser A).
Arguments PRet {A} a.
Arguments PFail {A} e.
Arguments PRead {A} n k.

Fixpoint parser_bind {A B} (p : parser A) (f : A -> parser B) : parser B :=
  match p with
  | PRet a => f a
  | PFail e => PFail e
  | PRead n k => PRead n (fun bs => parser_bind (k bs) f)
  end.
Notation "'let%' x ':=' m 'in' k" := (parser_bind m (fun x => k))
  (at level 10, x pattern, m at level 100, k at level 200) : opcua_scope.

(** Going on with a result, or failing. *)
Definition lift {A} (m : result A StatusCode) : parser A :=
  match m with Ok a => PRet a | Err e => PFail e end.

(** Reading from a slice; a short read is [UnexpectedEof], which the readers report as
    [BadDecodingError].  Returns the value and the unread bytes. *)
Fixpoint run {A} (p : parser A) (bs : bytes) : result (A * bytes) StatusCode :=
  match p with
  | PRet a => Ok (a, bs)
  | PFail e => Err e
  | PRead n k => if (n <=? length bs)%nat then run (k (take n bs)) (drop n bs) else Err BadDecodingError
  end.

(** ** Little-endian integers *)

Fixpoint le_bytes (n : nat) (z : Z) : bytes :=
  match n with O => [] | S n' => z mod 256 :: le_bytes n' (z / 256) end.
Fixpoint of_le (bs : bytes) : Z :=
  match bs with [] => 0 | b :: bs' => b + 256 * of_le bs' end.

Definition write_u8 (z : Z) : list bytes := [le_bytes 1 z].
Definition write_u16 (z : Z) : list bytes := [le_bytes 2 z].
Definition write_u32 (z : Z) : list bytes := [le_bytes 4 z].
Definition write_i32 (z : Z) : list bytes := [le_bytes 4 z].
Definition write_bytes (value count : Z) : list bytes := repeat [value] (Z.to_nat count).

Definition read_u8 : parser Z := PRead 1 (fun bs => PRet (of_le bs)).
Definition read_u16 : parser Z := PRead 2 (fun bs => PRet (of_le bs)).
Definition read_u32 : parser Z := PRead 4 (fun bs => PRet (of_le bs)).
Definition read_i32 : parser Z :=
  PRead 4 (fun bs => let u := of_le bs in PRet (if u <=? i32_max then u else u - (u32_max + 1))).
Definition read_exact (n : Z) : parser bytes := PRead (Z.to_nat n) PRet.

(** ** UTF-8 ([str::as_bytes], [String::from_utf8]) *)

Definition utf8_char (c : Z) : bytes :=
  if c <? 0x80 then [c]
  else if c <? 0x800 then [0xC0 + c / 64; 0x80 + c mod 64]
  else if c <? 0x10000 then [0xE0 + c / 4096; 0x80 + (c / 64) mod 64; 0x80 + c mod 64]
  else [0xF0 + c / 262144; 0x80 + (c / 4096) mod 64; 0x80 + (c / 64) mod 64; 0x80 + c mod 64].
Fixpoint utf8_encode (s : rstr) : bytes :=
  match s with [] => [] | c :: s' => utf8_char c ++ utf8_encode s' end.

(** A Unicode scalar value. *)
Definition is_scalar (c : Z) : bool :=
  ((0 <=? c) && (c <? 0xD800)) || ((0xE000 <=? c) && (c <? 0x110000)).
Definition continuation (b : Z) : bool := (0x80 <=? b) && (b <? 0xC0).

Fixpoint utf8_decode (bs : bytes) : option rstr :=
  match bs with
  | [] => Some []
  | b0 :: r0 =>
      if b0 <? 0x80 then let* s := utf8_decode r0 in Some (b0 :: s)
      else match r0 with
      | [] => None
      | b1 :: r1 =>
          if negb (continuation b1) then None
          else if b0 <? 0xC2 then None
          else if b0 <? 0xE0 then
            let c := (b0 - 0xC0) * 64 + (b1 - 0x80) in let* s := utf8_decode r1 in Some (c :: s)
          else match r1 with
          | [] => None
          | b2 :: r2 =>
              if negb (continuation b2) then None
              else if b0 <? 0xF0 then
                let c := (b0 - 0xE0) * 4096 + (b1 - 0x80) * 64 + (b2 - 0x80) in
                if (0x800 <=? c) && is_scalar c then let* s := utf8_decode r2 in Some (c :: s) else None
              else match r2 with
              | [] => None
              | b3 :: r3 =>
                  if negb (continuation b3) then None
                  else
                    let c := (b0 - 0xF0) * 262144 + (b1 - 0x80) * 4096 + (b2 - 0x80) * 64 + (b3 - 0x80) in
                    if (0x10000 <=? c) && is_scalar c then let* s := utf8_decode r3 in Some (c :: s) else None
              end
          end
      end
  end.

(** ** Decoding options *)

(** The limits of [DecodingOptions] the modelled decoders read. *)
Record DecodingOptions := {
  max_message_size : Z;
  max_chunk_count : Z;
  max_string_length : Z;
  max_byte_string_length : Z;
  max_array_length : Z;
  client_offset : Z
}.

Definition MAX_ARRAY_LENGTH : Z := 1000.
Definition MAX_STRING_LENGTH : Z := 65535.
Definition MAX_BYTE_STRING_LENGTH : Z := 65535.
Definition MAX_CHUNK_COUNT : Z := 5.
Definition MAX_MESSAGE_SIZE : Z := 65535 * MAX_CHUNK_COUNT.

Definition default_options : DecodingOptions :=
  {| max_message_size := MAX_MESSAGE_SIZE; max_chunk_count := MAX_CHUNK_COUNT;
     max_string_length := MAX_STRING_LENGTH; max_byte_string_length := MAX_BYTE_STRING_LENGTH;
     max_array_length := MAX_ARRAY_LENGTH; client_offset := 0 |}.

(** ** The traits [BinaryEncodable] and [BinaryDecodable], and what they promise *)

Class BinaryEncodable (A : Type) := {
  byte_len : A -> Z;
  encode : A -> list bytes
}.
Class BinaryDecodable (A : Type) := { decode : DecodingOptions -> parser A }.

(** For values that are well formed for the receiver's options: the announced length is the length
    written, and decoding what was written gives the value back and leaves what follows it. *)
Class BinaryLaws (A : Type) `{BinaryEncodable A, BinaryDecodable A} := {
  wf : DecodingOptions -> A -> Prop;
  byte_len_encode o a : wf o a -> zlen (concat (encode a)) = byte_len a;
  decode_encode o a rest : wf o a -> run (decode o) (concat (encode a) ++ rest) = Ok (a, rest)
}.

(** ** Strings *)

Definition ua_string_encode (s : UAString) : list bytes :=
  match s with
  | Some t => write_i32 (utf8_len t) ++ [utf8_encode t]
  | None => write_i32 (-1)
  end.
Definition ua_string_decode (o : DecodingOptions) : parser UAString :=
  let% len := read_i32 in
  if len =? -1 then PRet None
  else if len <? -1 then PFail BadDecodingError
  else if max_string_length o <? len then PFail BadDecodingError
  else
    let% buf := read_exact len in
    match utf8_decode buf with Some t => PRet (Some t) | None => PFail BadDecodingError end.

Definition byte_string_byte_len (b : ByteString) : Z := 4 + match b with Some v => zlen v | None => 0 end.
Definition byte_string_encode (b : ByteString) : list bytes :=
  match b with
  | Some v => write_i32 (zlen v) ++ [v]
  | None => write_i32 (-1)
  end.
Definition byte_string_decode (o : DecodingOptions) : parser ByteString :=
  let% len := read_i32 in
  if len =? -1 then PRet None
  else if len <? -1 then PFail BadDecodingError
  else if max_byte_string_length o <? len then PFail BadDecodingError
  else let% buf := read_exact len in PRet (Some buf).

(** ** Status codes *)

Definition status_encode (s : StatusCode) : list bytes := write_u32 s.
Definition status_decode : parser StatusCode := read_u32.

(** ** Node identifiers *)

Definition node_id_byte_len (n : NodeId) : Z :=
  match identifier n with
  | IdNumeric value =>
      if (namespace n =? 0) && (value <=? 255) then 2
      else if (namespace n <=? 255) && (value <=? 65535) then 4
      else 7
  | IdString value => 3 + ua_string_encoded_len value
  | IdGuid _ => 3 + 16
  | IdByteString value => 3 + byte_string_byte_len value
  end.

Definition node_id_encode (n : NodeId) : list bytes :=
  match identifier n with
  | IdNumeric value =>
      if (namespace n =? 0) && (value <=? 255) then write_u8 0 ++ write_u8 value
      else if (namespace n <=? 255) && (value <=? 65535) then
        write_u8 1 ++ write_u8 (namespace n) ++ write_u16 value
      else write_u8 2 ++ write_u16 (namespace n) ++ write_u32 value
  | IdString value => write_u8 3 ++ write_u16 (namespace n) ++ ua_string_encode value
  | IdGuid value => write_u8 4 ++ write_u16 (namespace n) ++ [value]
  | IdByteString value => write_u8 5 ++ write_u16 (namespace n) ++ byte_string_encode value
  end.

Definition guid_decode : parser bytes := read_exact 16.

Definition node_id_decode (o : DecodingOptions) : parser NodeId :=
  let% kind := read_u8 in
  if kind =? 0 then
    let% value := read_u8 in PRet {| namespace := 0; identifier := IdNumeric value |}
  else if kind =? 1 then
    let% ns := read_u8 in let% value := read_u16 in
    PRet {| namespace := ns; identifier := IdNumeric value |}
  else if kind =? 2 then
    let% ns := read_u16 in let% value := read_u32 in
    PRet {| namespace := ns; identifier := IdNumeric value |}
  else if kind =? 3 then
    let% ns := read_u16 in let% value := ua_string_decode o in
    PRet {| namespace := ns; identifier := IdString value |}
  else if kind =? 4 then
    let% ns := read_u16 in let% value := guid_decode in
    PRet {| namespace := ns; identifier := IdGuid value |}
  else if kind =? 5 then
    let% ns := read_u16 in let% value := byte_string_decode o in
    PRet {| namespace := ns; identifier := IdByteString value |}
  else PFail BadDecodingError.

#[export] Instance NodeId_encodable : BinaryEncodable NodeId :=
  { byte_len := node_id_byte_len; encode := node_id_encode }.
#[export] Instance NodeId_decodable : BinaryDecodable NodeId := { decode := node_id_decode }.

(** ** Lemmas *)

Lemma run_bind {A B} (p : parser A) (f : A -> parser B) bs :
  run (parser_bind p f) bs = let? (a, bs') := run p bs in run (f a) bs'.
Proof.
  revert bs. induction p as [a|e|n k IH]; intros bs; simpl; [done..|].
  destruct (n <=? length bs)%nat; simpl; [apply IH|done].
Qed.

Lemma run_read {A} n (k : bytes -> parser A) buf rest :
  length buf = n -> run (PRead n k) (buf ++ rest) = run (k buf) rest.
Proof.
  intros <-. simpl. rewrite length_app, (proj2 (Nat.leb_le _ _)) by lia.
  by rewrite take_app_length, drop_app_length.
Qed.

Lemma length_le_bytes n z : length (le_bytes n z) = n.
Proof. revert z. induction n as [|n IH]; intros z; simpl; [done|]. by rewrite IH. Qed.

Lemma of_le_le_bytes n z : of_le (le_bytes n z) = z mod 256 ^ Z.of_nat n.
Proof.
  revert z. induction n as [|n IH]; intros z; simpl le_bytes; cbn [of_le]; [by rewrite Z.mod_1_r|].
  rewrite IH, Nat2Z.inj_succ, Z.pow_succ_r by lia.
  rewrite Z.rem_mul_r by lia. lia.
Qed.

Definition is_byte (b : Z) : Prop := 0 <= b <= 255.

Lemma le_bytes_bytes n z : Forall is_byte (le_bytes n z).
Proof.
  revert z. induction n as [|n IH]; intros z; simpl; constructor; [|apply IH].
  unfold is_byte. pose proof (Z.mod_pos_bound z 256). lia.
Qed.

Lemma of_le_bound bs : Forall is_byte bs -> 0 <= of_le bs < 256 ^ zlen bs.
Proof.
  unfold zlen. induction 1 as [|b bs Hb Hbs IH]; simpl of_le; [simpl; lia|].
  cbn [length]. rewrite Nat2Z.inj_succ, Z.pow_succ_r by lia. unfold is_byte in Hb. lia.
Qed.

Section primitives.
Context {A : Type}.

Lemma run_u8 (k : Z -> parser A) z rest : 0 <= z <= u8_max ->
  run (parser_bind read_u8 k) (le_bytes 1 z ++ rest) = run (k z) rest.
Proof.
  intros Hz. cbn [parser_bind read_u8]. rewrite run_read by apply length_le_bytes. cbn [parser_bind].
  rewrite of_le_le_bytes, Z.mod_small; [done|]. int_lia.
Qed.
Lemma run_u16 (k : Z -> parser A) z rest : 0 <= z <= u16_max ->
  run (parser_bind read_u16 k) (le_bytes 2 z ++ rest) = run (k z) rest.
Proof.
  intros Hz. cbn [parser_bind read_u16]. rewrite run_read by apply length_le_bytes. cbn [parser_bind].
  rewrite of_le_le_bytes, Z.mod_small; [done|]. int_lia.
Qed.
Lemma run_u32 (k : Z -> parser A) z rest : is_u32 z ->
  run (parser_bind read_u32 k) (le_bytes 4 z ++ rest) = run (k z) rest.
Proof.
  intros Hz. cbn [parser_bind read_u32]. rewrite run_read by apply length_le_bytes. cbn [parser_bind].
  rewrite of_le_le_bytes, Z.mod_small; [done|]. int_lia.
Qed.
Lemma run_i32 (k : Z -> parser A) z rest : - (i32_max + 1) <= z <= i32_max ->
  run (parser_bind read_i32 k) (le_bytes 4 z ++ rest) = run (k z) rest.
Proof.
  intros Hz. cbn [parser_bind read_i32]. rewrite run_read by apply length_le_bytes. cbn [parser_bind].
  rewrite of_le_le_bytes. f_equal. f_equal. change (256 ^ Z.of_nat 4) with (u32_max + 1).
  unfold i32_max, u32_max in *. destruct (Z.ltb_spec z 0).
  - rewrite <- (Z.mod_add z 1) by lia. rewrite Z.mod_small by lia.
    destruct (Z.leb_spec (z + 1 * (4294967295 + 1)) 2147483647); lia.
  - rewrite Z.mod_small by lia. destruct (Z.leb_spec z 2147483647); lia.
Qed.
Lemma run_exact (k : bytes -> parser A) n buf rest : zlen buf = n ->
  run (parser_bind (read_exact n) k) (buf ++ rest) = run (k buf) rest.
Proof.
  intros Hn. unfold read_exact. cbn [parser_bind]. rewrite run_read; [done|]. unfold zlen in Hn. lia.
Qed.
End primitives.

(** *** UTF-8 *)

Lemma zlen_le_bytes n z : zlen (le_bytes n z) = Z.of_nat n.
Proof. unfold zlen. by rewrite length_le_bytes. Qed.

Lemma zlen_utf8_encode s : zlen (utf8_encode s) = utf8_len s.
Proof.
  induction s as [|c s IH]; [done|]. simpl. rewrite zlen_app, IH. f_equal.
  unfold utf8_char, utf8_len_char. repeat case_match; done.
Qed.

(** Decides a comparison of the goal. *)
Ltac decide_test :=
  match goal with
  | |- context [?a <? ?b] =>
      first [ replace (a <? b) with true by (symmetry; apply Z.ltb_lt; lia)
            | replace (a <? b) with false by (symmetry; apply Z.ltb_ge; lia) ]
  | |- context [?a <=? ?b] =>
      first [ replace (a <=? b) with true by (symmetry; apply Z.leb_le; lia)
            | replace (a <=? b) with false by (symmetry; apply Z.leb_gt; lia) ]
  end.

Lemma scalar_range c : is_scalar c = true -> (0 <= c < 0xD800) \/ (0xE000 <= c < 0x110000).
Proof. unfold is_scalar. intros [H|H]%orb_true_iff; bool_to_prop; lia. Qed.

Lemma utf8_decode_char c rest : is_scalar c = true ->
  utf8_decode (utf8_char c ++ rest) = let* s := utf8_decode rest in Some (c :: s).
Proof.
  intros Hc. pose proof (scalar_range c Hc) as Hr. unfold utf8_char.
  pose proof (Z.div_mod c 64 ltac:(lia)). pose proof (Z.mod_pos_bound c 64 ltac:(lia)).
  pose proof (Z.div_mod (c / 64) 64 ltac:(lia)). pose proof (Z.mod_pos_bound (c / 64) 64 ltac:(lia)).
  assert (c / 4096 = c / 64 / 64) as E1 by (rewrite Z.div_div by lia; done).
  assert (c / 262144 = c / 64 / 64 / 64) as E2 by (rewrite !Z.div_div by lia; done).
  pose proof (Z.div_mod (c / 64 / 64) 64 ltac:(lia)). pose proof (Z.mod_pos_bound (c / 64 / 64) 64 ltac:(lia)).
  destruct (Z.ltb_spec c 0x80); [|destruct (Z.ltb_spec c 0x800); [|destruct (Z.ltb_spec c 0x10000)]].
  - simpl. by decide_test.
  - simpl. unfold continuation. repeat decide_test. simpl.
    replace ((192 + c / 64 - 192) * 64 + (128 + c mod 64 - 128)) with c by lia. done.
  - rewrite E1. simpl. unfold continuation. repeat decide_test. simpl.
    replace ((224 + c / 64 / 64 - 224) * 4096 + (128 + (c / 64) mod 64 - 128) * 64 + (128 + c mod 64 - 128))
      with c by lia. rewrite Hc. repeat decide_test. done.
  - rewrite E1, E2. simpl. unfold continuation. repeat decide_test. simpl.
    replace ((240 + c / 64 / 64 / 64 - 240) * 262144 + (128 + (c / 64 / 64) mod 64 - 128) * 4096
             + (128 + (c / 64) mod 64 - 128) * 64 + (128 + c mod 64 - 128)) with c by lia.
    rewrite Hc. repeat decide_test. done.
Qed.

Lemma utf8_decode_encode s : Forall (fun c => is_scalar c = true) s -> utf8_decode (utf8_encode s) = Some s.
Proof. induction 1 as [|c s Hc Hs IH]; [done|]. cbn [utf8_encode]. by rewrite utf8_decode_char, IH. Qed.

(** *** Strings *)

(** Strings and byte strings a receiver with these options decodes. *)
Definition string_ok (o : DecodingOptions) (s : UAString) : Prop :=
  match s with
  | Some t => Forall (fun c => is_scalar c = true) t /\ utf8_len t <= Z.min (max_string_length o) i32_max
  | None => True
  end.
Definition byte_string_ok (o : DecodingOptions) (b : ByteString) : Prop :=
  match b with Some v => zlen v <= Z.min (max_byte_string_length o) i32_max | None => True end.

Lemma ua_string_len s : zlen (concat (ua_string_encode s)) = ua_string_encoded_len s.
Proof.
  destruct s; cbn [ua_string_encode write_i32 concat app ua_string_encoded_len];
    rewrite ?app_nil_r, ?zlen_app, zlen_le_bytes; [|done]. by rewrite zlen_utf8_encode.
Qed.
Lemma byte_string_len b : zlen (concat (byte_string_encode b)) = byte_string_byte_len b.
Proof.
  destruct b; cbn [byte_string_encode write_i32 concat app byte_string_byte_len];
    by rewrite ?app_nil_r, ?zlen_app, zlen_le_bytes.
Qed.

Lemma run_ua_string {A} o s (k : UAString -> parser A) rest : string_ok o s ->
  run (parser_bind (ua_string_decode o) k) (concat (ua_string_encode s) ++ rest) = run (k s) rest.
Proof.
  intros Hs. rewrite run_bind. unfold ua_string_decode. destruct s as [t|]; cbn [ua_string_encode write_i32 concat app]; rewrite ?app_nil_r, <- ?app_assoc.
  - destruct Hs as [Ht Hl]. pose proof (zlen_utf8_encode t) as Hz. pose proof (zlen_nonneg (utf8_encode t)).
    rewrite run_i32 by int_lia.
    destruct (Z.eqb_spec (utf8_len t) (-1)); [lia|]. repeat decide_test.
    rewrite run_exact by done. by rewrite utf8_decode_encode.
  - by rewrite run_i32 by int_lia.
Qed.
Lemma run_byte_string {A} o b (k : ByteString -> parser A) rest : byte_string_ok o b ->
  run (parser_bind (byte_string_decode o) k) (concat (byte_string_encode b) ++ rest) = run (k b) rest.
Proof.
  intros Hb. rewrite run_bind. unfold byte_string_decode. destruct b as [v|]; cbn [byte_string_encode write_i32 concat app]; rewrite ?app_nil_r, <- ?app_assoc.
  - simpl in Hb. pose proof (zlen_nonneg v). rewrite run_i32 by int_lia.
    destruct (Z.eqb_spec (zlen v) (-1)); [lia|]. repeat decide_test. by rewrite run_exact.
  - by rewrite run_i32 by int_lia.
Qed.

(** *** Node identifiers *)

Definition node_id_ok (o : DecodingOptions) (n : NodeId) : Prop :=
  0 <= namespace n <= u16_max /\
  match identifier n with
  | IdNumeric value => is_u32 value
  | IdString s => string_ok o s
  | IdGuid g => zlen g = 16
  | IdByteString b => byte_string_ok o b
  end.

Lemma node_id_len n : match identifier n with IdGuid g => zlen g = 16 | _ => True end ->
  zlen (concat (node_id_encode n)) = node_id_byte_len n.
Proof.
  unfold node_id_encode, node_id_byte_len. destruct n as [ns [v|s|g|b]]; cbn [identifier namespace]; intros Hg; unfold write_u8, write_u16, write_u32; cbn [concat app].
  - repeat case_match; done.
  - by rewrite !zlen_app, !zlen_le_bytes, ua_string_len, Z.add_assoc.
  - by rewrite app_nil_r, !zlen_app, !zlen_le_bytes, Hg.
  - by rewrite !zlen_app, !zlen_le_bytes, byte_string_len, Z.add_assoc.
Qed.

Lemma node_id_round_trip o n rest : node_id_ok o n ->
  run (node_id_decode o) (concat (node_id_encode n) ++ rest) = Ok (n, rest).
Proof.
  intros [Hns Hid]. unfold node_id_encode, node_id_decode.
  destruct n as [ns [v|s|g|b]]; cbn [identifier namespace] in *.
  - destruct ((ns =? 0) && (v <=? 255)) eqn:H1; [|destruct ((ns <=? 255) && (v <=? 65535)) eqn:H2].
    + bool_to_prop. subst. unfold write_u8. cbn [concat app]. rewrite app_nil_r, <- app_assoc.
      rewrite run_u8 by int_lia. cbn [Z.eqb Pos.eqb]. rewrite run_u8 by int_lia. done.
    + bool_to_prop. unfold write_u8, write_u16. cbn [concat app]. rewrite app_nil_r, <- !app_assoc.
      rewrite run_u8 by int_lia. cbn [Z.eqb Pos.eqb]. rewrite run_u8 by int_lia. rewrite run_u16 by int_lia. done.
    + unfold write_u8, write_u16, write_u32. cbn [concat app]. rewrite app_nil_r, <- !app_assoc.
      rewrite run_u8 by int_lia. cbn [Z.eqb Pos.eqb]. rewrite run_u16 by int_lia. rewrite run_u32 by int_lia. done.
  - unfold write_u8, write_u16. cbn [concat app]. rewrite <- !app_assoc.
    rewrite run_u8 by int_lia. cbn [Z.eqb Pos.eqb]. rewrite run_u16 by int_lia. by rewrite run_ua_string.
  - unfold write_u8, write_u16. cbn [concat app]. rewrite app_nil_r, <- !app_assoc.
    rewrite run_u8 by int_lia. cbn [Z.eqb Pos.eqb]. rewrite run_u16 by int_lia. unfold guid_decode. by rewrite run_exact.
  - unfold write_u8, write_u16. cbn [concat app]. rewrite <- !app_assoc.
    rewrite run_u8 by int_lia. cbn [Z.eqb Pos.eqb]. rewrite run_u16 by int_lia. by rewrite run_byte_string.
Qed.

#[export] Instance NodeId_laws : BinaryLaws NodeId.
Proof.
  refine {| wf := node_id_ok |}.
  - intros o n [_ Hn]. apply node_id_len. by destruct (identifier n).
  - intros. by apply node_id_round_trip.
Defined.
