(* ===== verification/BinaryTypes.v ===== *)
(** * The binary encoding of the built-in types

    Booleans, integers, floating-point numbers (basic_types.rs), [DateTime] (date_time.rs), [Guid],
    [QualifiedName], [LocalizedText], [ExpandedNodeId], [DiagnosticInfo] and optional arrays
    (encoding.rs), all under async-opcua-types/src, with their round trips.

    The depth gauge of a decoder is the number of locks it can still take: a lock that is refused is
    depth zero.  All NaN are one value, so the payload of a NaN is not modelled. *)

From S2P Require Import Prelude Text Float StatusCode NumericRange Variant Wire.

(** ** Reading what was written *)

(** The decoder reads exactly these bytes, and returns the value. *)
Definition reads {A} (p : parser A) (bs : bytes) (a : A) : Prop := forall rest, run p (bs ++ rest) = Ok (a, rest).

Lemma reads_ret {A} (a : A) : reads (PRet a) [] a.
Proof. done. Qed.
Lemma reads_bind {A B} (p : parser A) (f : A -> parser B) bs1 bs2 a b :
  reads p bs1 a -> reads (f a) bs2 b -> reads (parser_bind p f) (bs1 ++ bs2) b.
Proof. intros H1 H2 rest. rewrite run_bind, <- app_assoc, H1. apply H2. Qed.
Lemma reads_map {A B} (p : parser A) (f : A -> B) bs a :
  reads p bs a -> reads (parser_bind p (fun x => PRet (f x))) bs (f a).
Proof. intros H rest. by rewrite run_bind, H. Qed.
Lemma reads_eq {A} (p : parser A) bs bs' a : reads p bs a -> bs = bs' -> reads p bs' a.
Proof. by intros H <-. Qed.

(** Reading an unsigned or signed little-endian integer of [n] bytes. *)
Definition read_uint (n : nat) : parser Z := PRead n (fun bs => PRet (of_le bs)).
Definition signed (n : nat) (u : Z) : Z := if u <? 2 ^ (8 * Z.of_nat n - 1) then u else u - 256 ^ Z.of_nat n.
Definition read_int (n : nat) : parser Z := PRead n (fun bs => PRet (signed n (of_le bs))).
Definition is_uint (n : nat) (z : Z) : Prop := 0 <= z < 256 ^ Z.of_nat n.
Definition is_int (n : nat) (z : Z) : Prop := - 2 ^ (8 * Z.of_nat n - 1) <= z < 2 ^ (8 * Z.of_nat n - 1).

Lemma reads_uint n z : is_uint n z -> reads (read_uint n) (le_bytes n z) z.
Proof.
  intros Hz rest. unfold read_uint. rewrite run_read by apply length_le_bytes. cbn [run].
  by rewrite of_le_le_bytes, Z.mod_small.
Qed.
Lemma pow256 n : 256 ^ Z.of_nat n = 2 * 2 ^ (8 * Z.of_nat n - 1) \/ n = O.
Proof.
  destruct n as [|n]; [by right|left]. change 256 with (2 ^ 8). rewrite <- Z.pow_mul_r by lia.
  rewrite <- Z.pow_succ_r by lia. f_equal. lia.
Qed.
Lemma reads_int n z : is_int n z -> reads (read_int n) (le_bytes n z) z.
Proof.
  intros Hz rest. unfold read_int. rewrite run_read by apply length_le_bytes. cbn [run].
  rewrite of_le_le_bytes. do 3 f_equal. unfold is_int, signed in *.
  destruct (pow256 n) as [Hp| ->]; [|simpl in *; lia].
  rewrite Hp. set (h := 2 ^ (8 * Z.of_nat n - 1)) in *. destruct (Z.ltb_spec z 0).
  - rewrite <- (Z.mod_add z 1) by lia. rewrite Z.mod_small by lia. destruct (Z.ltb_spec (z + 1 * (2 * h)) h); lia.
  - rewrite Z.mod_small by lia. destruct (Z.ltb_spec z h); lia.
Qed.

(** ** Booleans, integers *)

Definition bool_encode (b : bool) : list bytes := write_u8 (if b then 1 else 0).
Definition bool_decode : parser bool := let% b := read_u8 in PRet (negb (b =? 0)).
Definition read_i8 : parser Z := read_int 1.
Definition read_i16 : parser Z := read_int 2.
Definition read_i64 : parser Z := read_int 8.
Definition read_u64 : parser Z := read_uint 8.
Definition write_i8 (z : Z) : list bytes := [le_bytes 1 z].
Definition write_i16 (z : Z) : list bytes := [le_bytes 2 z].
Definition write_i64 (z : Z) : list bytes := [le_bytes 8 z].
Definition write_u64 (z : Z) : list bytes := [le_bytes 8 z].

Lemma reads_bool b : reads bool_decode (concat (bool_encode b)) b.
Proof. by destruct b. Qed.
Lemma reads_u8 z : is_uint 1 z -> reads read_u8 (le_bytes 1 z) z.
Proof. apply reads_uint. Qed.
Lemma reads_u16 z : is_uint 2 z -> reads read_u16 (le_bytes 2 z) z.
Proof. apply reads_uint. Qed.
Lemma reads_u32 z : is_u32 z -> reads read_u32 (le_bytes 4 z) z.
Proof. intros Hz. apply (reads_uint 4). unfold is_uint. change (256 ^ Z.of_nat 4) with (u32_max + 1). unfold is_u32 in Hz. lia. Qed.
Lemma reads_i32 z : is_int 4 z -> reads read_i32 (le_bytes 4 z) z.
Proof.
  intros Hz rest. pose proof (run_i32 (PRet (A := Z)) z rest) as H. rewrite run_bind in H.
  unfold is_int in Hz. change (8 * Z.of_nat 4 - 1) with 31 in Hz. change (2 ^ 31) with (i32_max + 1) in Hz.
  specialize (H ltac:(lia)). destruct (run read_i32 _) as [[]|]; [|done]. exact H.
Qed.
Lemma reads_string o s : string_ok o s -> reads (ua_string_decode o) (concat (ua_string_encode s)) s.
Proof.
  intros Hs rest. pose proof (run_ua_string o s PRet rest Hs) as H. rewrite run_bind in H.
  destruct (run _ _) as [[]|]; [|done]. exact H.
Qed.
Lemma reads_byte_string o b : byte_string_ok o b -> reads (byte_string_decode o) (concat (byte_string_encode b)) b.
Proof.
  intros Hs rest. pose proof (run_byte_string o b PRet rest Hs) as H. rewrite run_bind in H.
  destruct (run _ _) as [[]|]; [|done]. exact H.
Qed.
Lemma reads_exact n buf : zlen buf = n -> reads (read_exact n) buf buf.
Proof. intros Hn rest. unfold read_exact. rewrite run_read; [done|]. unfold zlen in Hn. lia. Qed.
Lemma reads_node_id o n : node_id_ok o n -> reads (node_id_decode o) (concat (node_id_encode n)) n.
Proof. intros Hn rest. by apply node_id_round_trip. Qed.
Create HintDb reads.
#[export] Hint Resolve reads_ret reads_bool reads_u8 reads_u16 reads_u32 reads_i32 reads_string reads_byte_string
  reads_exact reads_node_id : reads.

(** ** Floating-point numbers: the bits of IEEE 754, [mw] of the significand and [ew] of the exponent *)

Definition float_emin (mw ew : Z) : Z := 3 - 2 ^ (ew - 1) - (mw + 1).
Definition float_bits (mw ew : Z) (f : spec_float) : Z :=
  let sign (s : bool) := if s then 2 ^ (mw + ew) else 0 in
  match f with
  | S754_zero s => sign s
  | S754_infinity s => sign s + (2 ^ ew - 1) * 2 ^ mw
  | S754_nan => (2 ^ ew - 1) * 2 ^ mw + 2 ^ (mw - 1)
  | S754_finite s m e =>
      sign s + (if Zpos m <? 2 ^ mw then Zpos m
                else (e - float_emin mw ew + 1) * 2 ^ mw + (Zpos m - 2 ^ mw))
  end.
Definition float_of_bits (mw ew z : Z) : spec_float :=
  let s := 2 ^ (mw + ew) <=? z in
  let m := z mod 2 ^ mw in
  let e := (z / 2 ^ mw) mod 2 ^ ew in
  if e =? 2 ^ ew - 1 then if m =? 0 then S754_infinity s else S754_nan
  else if e =? 0 then match m with Zpos p => S754_finite s p (float_emin mw ew) | _ => S754_zero s end
  else match m + 2 ^ mw with Zpos p => S754_finite s p (e - 1 + float_emin mw ew) | _ => S754_nan end.
(** The numbers of the format: subnormal, or with a full significand. *)
Definition float_ok (mw ew : Z) (f : spec_float) : Prop :=
  match f with
  | S754_finite _ m e =>
      (Zpos m < 2 ^ mw /\ e = float_emin mw ew)
      \/ (2 ^ mw <= Zpos m < 2 * 2 ^ mw /\ float_emin mw ew <= e <= float_emin mw ew + 2 ^ ew - 3)
  | _ => True
  end.

Lemma float_bits_parts mw ew (s : bool) e m : 0 < mw -> 1 < ew -> 0 <= m < 2 ^ mw -> 0 <= e < 2 ^ ew ->
  let z := (if s then 2 ^ (mw + ew) else 0) + (e * 2 ^ mw + m) in
  0 <= z < 2 * 2 ^ (mw + ew) /\ (2 ^ (mw + ew) <=? z) = s /\ z mod 2 ^ mw = m /\ (z / 2 ^ mw) mod 2 ^ ew = e.
Proof.
  intros Hmw Hew Hm He z. pose proof (Z.pow_pos_nonneg 2 mw ltac:(lia) ltac:(lia)) as Hp.
  pose proof (Z.pow_pos_nonneg 2 ew ltac:(lia) ltac:(lia)) as Hq.
  assert (2 ^ (mw + ew) = 2 ^ ew * 2 ^ mw) as Hpow by (rewrite Z.pow_add_r by lia; lia).
  set (k := if s then 2 ^ ew else 0). assert (z = (k + e) * 2 ^ mw + m) as Hz by (unfold z, k; destruct s; lia).
  assert (0 <= e * 2 ^ mw + m < 2 ^ (mw + ew)) as Hr by (rewrite Hpow; nia).
  split; [unfold z; destruct s; lia|]. split; [unfold z; destruct s; [apply Z.leb_le|apply Z.leb_gt]; lia|].
  rewrite Hz. split.
  - rewrite Z.add_comm, Z.mod_add by lia. by rewrite Z.mod_small.
  - rewrite Z.add_comm, Z.div_add, Z.div_small by lia. unfold k. destruct s.
    + replace (0 + (2 ^ ew + e)) with (e + 1 * 2 ^ ew) by lia. by rewrite Z.mod_add, Z.mod_small by lia.
    + by rewrite Z.add_0_l, Z.add_0_l, Z.mod_small by lia.
Qed.

Lemma float_of_bits_bits mw ew f : 0 < mw -> 1 < ew -> float_ok mw ew f ->
  float_of_bits mw ew (float_bits mw ew f) = f /\ 0 <= float_bits mw ew f < 2 * 2 ^ (mw + ew).
Proof.
  intros Hmw Hew Hf. pose proof (Z.pow_pos_nonneg 2 mw ltac:(lia) ltac:(lia)) as Hp.
  assert (4 <= 2 ^ ew) as Hq by (change 4 with (2 ^ 2); apply Z.pow_le_mono_r; lia).
  assert (2 ^ mw = 2 * 2 ^ (mw - 1) /\ 0 < 2 ^ (mw - 1)) as [Hhalf Hhp].
  { rewrite <- Z.pow_succ_r by lia. split; [f_equal; lia|apply Z.pow_pos_nonneg; lia]. }
  unfold float_of_bits.
  assert (forall (s : bool) e m, 0 <= m < 2 ^ mw -> 0 <= e < 2 ^ ew ->
    float_bits mw ew f = (if s then 2 ^ (mw + ew) else 0) + (e * 2 ^ mw + m) ->
    (if e =? 2 ^ ew - 1 then if m =? 0 then S754_infinity s else S754_nan
     else if e =? 0 then match m with Zpos p => S754_finite s p (float_emin mw ew) | _ => S754_zero s end
     else match m + 2 ^ mw with Zpos p => S754_finite s p (e - 1 + float_emin mw ew) | _ => S754_nan end) = f ->
    float_of_bits mw ew (float_bits mw ew f) = f /\ 0 <= float_bits mw ew f < 2 * 2 ^ (mw + ew)) as Hgo.
  { intros s e m Hm He Hb Hres. destruct (float_bits_parts mw ew s e m Hmw Hew Hm He) as (Hr & H1 & H2 & H3).
    rewrite <- Hb in *. split; [|done]. unfold float_of_bits. by rewrite H1, H2, H3. }
  destruct f as [s|s| |s m e]; cbn [float_bits] in *.
  - apply (Hgo s 0 0); [lia..|by rewrite Z.add_0_r|]. destruct (Z.eqb_spec 0 (2 ^ ew - 1)); [lia|done].
  - apply (Hgo s (2 ^ ew - 1) 0); [lia..|lia|]. by rewrite Z.eqb_refl.
  - apply (Hgo false (2 ^ ew - 1) (2 ^ (mw - 1))); [lia..|lia|]. rewrite Z.eqb_refl.
    by destruct (Z.eqb_spec (2 ^ (mw - 1)) 0); [lia|].
  - destruct Hf as [[Hm ->]|[Hm He]].
    + apply (Hgo s 0 (Zpos m)); [lia..|by destruct (Z.ltb_spec (Zpos m) (2 ^ mw)); lia|].
      destruct (Z.eqb_spec 0 (2 ^ ew - 1)); [lia|done].
    + apply (Hgo s (e - float_emin mw ew + 1) (Zpos m - 2 ^ mw)); [lia..| |].
      * destruct (Z.ltb_spec (Zpos m) (2 ^ mw)); lia.
      * destruct (Z.eqb_spec (e - float_emin mw ew + 1) (2 ^ ew - 1)); [lia|].
        destruct (Z.eqb_spec (e - float_emin mw ew + 1) 0); [lia|]. rewrite Z.sub_add.
        f_equal. lia.
Qed.

Definition f32_ok : f32 -> Prop := float_ok 23 8.
Definition f64_ok : f64 -> Prop := float_ok 52 11.
Definition write_f32 (f : f32) : list bytes := [le_bytes 4 (float_bits 23 8 f)].
Definition write_f64 (f : f64) : list bytes := [le_bytes 8 (float_bits 52 11 f)].
Definition read_f32 : parser f32 := let% z := read_uint 4 in PRet (float_of_bits 23 8 z).
Definition read_f64 : parser f64 := let% z := read_uint 8 in PRet (float_of_bits 52 11 z).

Lemma reads_f32 f : f32_ok f -> reads read_f32 (le_bytes 4 (float_bits 23 8 f)) f.
Proof.
  intros Hf. destruct (float_of_bits_bits 23 8 f ltac:(lia) ltac:(lia) Hf) as [Hb Hr].
  eapply reads_eq; [|done]. rewrite <- Hb at 2. apply (reads_map _ (float_of_bits 23 8)), reads_uint.
  unfold is_uint. by change (256 ^ Z.of_nat 4) with (2 * 2 ^ (23 + 8)).
Qed.
Lemma reads_f64 f : f64_ok f -> reads read_f64 (le_bytes 8 (float_bits 52 11 f)) f.
Proof.
  intros Hf. destruct (float_of_bits_bits 52 11 f ltac:(lia) ltac:(lia) Hf) as [Hb Hr].
  eapply reads_eq; [|done]. rewrite <- Hb at 2. apply (reads_map _ (float_of_bits 52 11)), reads_uint.
  unfold is_uint. by change (256 ^ Z.of_nat 8) with (2 * 2 ^ (52 + 11)).
Qed.
#[export] Hint Resolve reads_f32 reads_f64 : reads.
Example one_half_bits : float_bits 52 11 (f64_make 1 (-1)) = 0x3FE0000000000000.
Proof. vm_compute. reflexivity. Qed.
Example float_of_bits_pi : float_bits 23 8 (float_of_bits 23 8 0x40490FDB) = 0x40490FDB.
Proof. vm_compute. reflexivity. Qed.

(** ** Dates *)

Definition NANOS_PER_SECOND : Z := 1000000000.
Definition NANOS_PER_TICK : Z := 100.
Definition TICKS_PER_SECOND : Z := NANOS_PER_SECOND / NANOS_PER_TICK.
(** 1601-01-01 00:00:00 and 9999-12-31 23:59:59, in nanoseconds since the Unix epoch. *)
Definition epoch_chrono : Z := -11644473600 * NANOS_PER_SECOND.
Definition endtimes_chrono : Z := 253402300799 * NANOS_PER_SECOND.

(** [From<DateTimeUtc>]: rounded down to a tick of its second. *)
Definition datetime_of_chrono (ns : Z) : DateTime :=
  let nanos := ns mod NANOS_PER_SECOND in ns - nanos + nanos / NANOS_PER_TICK * NANOS_PER_TICK.
Definition datetime_null : DateTime := datetime_of_chrono epoch_chrono.
Definition endtimes : DateTime := datetime_of_chrono endtimes_chrono.
(** [From<i64>]. *)
Definition datetime_of_ticks (value : Z) : DateTime :=
  if value =? i64_max then endtimes
  else
    let secs := Z.quot value TICKS_PER_SECOND in
    let nanos := (value - secs * TICKS_PER_SECOND) * NANOS_PER_TICK in
    datetime_of_chrono (epoch_chrono + (secs * NANOS_PER_SECOND + nanos)).
(** The sum and the product are those of [i64]: they wrap (a debug build panics). *)
Definition wrap_i64 (z : Z) : Z := signed 8 (z mod 256 ^ 8).
Definition duration_to_ticks (duration : Z) : Z :=
  let seconds := Z.quot duration NANOS_PER_SECOND in
  let nanos := duration - seconds * NANOS_PER_SECOND in
  wrap_i64 (wrap_i64 (seconds * TICKS_PER_SECOND) + Z.quot nanos NANOS_PER_TICK).
Definition ticks (t : DateTime) : Z := duration_to_ticks (t - epoch_chrono).
Definition endtimes_ticks : Z := duration_to_ticks (endtimes_chrono - epoch_chrono).
Definition checked_ticks (t : DateTime) : Z :=
  let nanos := ticks t in
  if nanos <? 0 then 0 else if endtimes_ticks <? nanos then i64_max else nanos.
Definition datetime_encode (t : DateTime) : list bytes := write_i64 (checked_ticks t).
Definition datetime_decode (o : DecodingOptions) : parser DateTime :=
  let% v := read_i64 in PRet (datetime_of_chrono (datetime_of_ticks v - client_offset o)).

(** The dates the encoding can hold: whole ticks from 1601 to 9999, and a receiver that does not
    shift them. *)
Definition datetime_ok (o : DecodingOptions) (t : DateTime) : Prop :=
  client_offset o = 0 /\ t mod NANOS_PER_TICK = 0 /\ epoch_chrono <= t <= endtimes_chrono.

(** Linear arithmetic with quotients and remainders. *)
Ltac euclid := Z.to_euclidean_division_equations; lia.

Lemma datetime_of_chrono_id ns : ns mod NANOS_PER_TICK = 0 -> datetime_of_chrono ns = ns.
Proof. unfold datetime_of_chrono, NANOS_PER_SECOND, NANOS_PER_TICK. intros. euclid. Qed.
Lemma wrap_i64_id z : is_int 8 z -> wrap_i64 z = z.
Proof.
  unfold wrap_i64, signed, is_int. change (2 ^ (8 * Z.of_nat 8 - 1)) with (i64_max + 1).
  change (256 ^ 8) with (2 * (i64_max + 1)). change (256 ^ Z.of_nat 8) with (2 * (i64_max + 1)).
  assert (i64_max = 9223372036854775807) as -> by done. intros Hz. destruct (Z.ltb_spec (z mod (2 * (9223372036854775807 + 1))) (9223372036854775807 + 1)); euclid.
Qed.
(** Within [i64], the ticks are the whole ticks since 1601. *)
Lemma ticks_spec t n : t = epoch_chrono + n * NANOS_PER_TICK -> 0 <= n <= i64_max -> ticks t = n.
Proof.
  intros -> Hn. unfold ticks, duration_to_ticks.
  replace (epoch_chrono + n * NANOS_PER_TICK - epoch_chrono) with (n * NANOS_PER_TICK) by lia.
  change TICKS_PER_SECOND with 10000000. unfold NANOS_PER_TICK, NANOS_PER_SECOND.
  assert (i64_max = 9223372036854775807) as Hm by done. rewrite Hm in Hn.
  rewrite (wrap_i64_id (_ * _)) by (unfold is_int; change (2 ^ (8 * Z.of_nat 8 - 1)) with 9223372036854775808; euclid).
  rewrite wrap_i64_id by (unfold is_int; change (2 ^ (8 * Z.of_nat 8 - 1)) with 9223372036854775808; euclid).
  euclid.
Qed.
Lemma datetime_of_ticks_spec n : 0 <= n < i64_max -> datetime_of_ticks n = epoch_chrono + n * NANOS_PER_TICK.
Proof.
  intros Hn. unfold datetime_of_ticks. destruct (Z.eqb_spec n i64_max); [lia|].
  replace (epoch_chrono + _) with (epoch_chrono + n * NANOS_PER_TICK)
    by (change TICKS_PER_SECOND with 10000000; unfold NANOS_PER_SECOND, NANOS_PER_TICK; euclid).
  apply datetime_of_chrono_id. unfold epoch_chrono, NANOS_PER_TICK, NANOS_PER_SECOND. euclid.
Qed.
Lemma endtimes_ticks_eq : endtimes_ticks = 2650467743990000000.
Proof. vm_compute. reflexivity. Qed.
Lemma checked_ticks_spec t : t mod NANOS_PER_TICK = 0 -> epoch_chrono <= t <= endtimes_chrono ->
  t = epoch_chrono + checked_ticks t * NANOS_PER_TICK /\ 0 <= checked_ticks t <= endtimes_ticks.
Proof.
  intros Ht Hr. set (n := (t - epoch_chrono) / NANOS_PER_TICK).
  assert (t = epoch_chrono + n * NANOS_PER_TICK) as Hn
    by (unfold n, epoch_chrono, NANOS_PER_TICK, NANOS_PER_SECOND in *; euclid).
  assert (0 <= n <= 2650467743990000000) as Hb
    by (unfold n, epoch_chrono, endtimes_chrono, NANOS_PER_TICK, NANOS_PER_SECOND in *; euclid).
  unfold checked_ticks. rewrite (ticks_spec t n Hn), endtimes_ticks_eq by (unfold i64_max; lia).
  repeat decide_test. done.
Qed.
Lemma reads_datetime o t : datetime_ok o t -> reads (datetime_decode o) (concat (datetime_encode t)) t.
Proof.
  intros (Ho & Ht & Hr). destruct (checked_ticks_spec t Ht Hr) as [Heq Hb]. rewrite endtimes_ticks_eq in Hb.
  unfold datetime_decode, datetime_encode, write_i64. cbn [concat]. rewrite app_nil_r.
  eapply reads_eq; [|done].
  replace t with (datetime_of_chrono (datetime_of_ticks (checked_ticks t) - client_offset o)) at 2.
  - apply (reads_map _ (fun v => datetime_of_chrono (datetime_of_ticks v - client_offset o))), reads_int. unfold is_int. change (2 ^ (8 * Z.of_nat 8 - 1)) with 9223372036854775808. lia.
  - rewrite Ho, Z.sub_0_r, datetime_of_ticks_spec, <- Heq by (unfold i64_max; lia). by apply datetime_of_chrono_id.
Qed.
#[export] Hint Resolve reads_datetime : reads.
(** Past the year 30828 the ticks no longer fit [i64], and the clamp comes after they wrapped: a date
    of the year 60055 is encoded as the first second of 1601. *)
Example far_date_wraps :
  let t := epoch_chrono + (2 ^ 64 + TICKS_PER_SECOND) * NANOS_PER_TICK in
  endtimes_chrono < t /\ checked_ticks t = TICKS_PER_SECOND.
Proof. split; vm_compute; reflexivity. Qed.

(** ** Optional fields

    A field that is written, and read, when its flag is set. *)

Lemma reads_field {A} (p : parser A) (b : bool) (e : list bytes) (d a : A) :
  (b = true -> reads p (concat e) a) -> (b = false -> a = d) ->
  reads (if b then p else PRet d) (concat (if b then e else [])) a.
Proof. destruct b; intros H1 H2; [by apply H1|]. rewrite H2; done. Qed.
Definition read_opt {A} (b : bool) (p : parser A) : parser (option A) :=
  if b then let% a := p in PRet (Some a) else PRet None.
Definition write_opt {A} (e : A -> list bytes) (a : option A) : list bytes :=
  match a with Some x => e x | None => [] end.
Definition opt_ok {A} (P : A -> Prop) (a : option A) : Prop := match a with Some x => P x | None => True end.
Lemma reads_opt {A} (p : parser A) (e : A -> list bytes) (a : option A) :
  opt_ok (fun x => reads p (concat (e x)) x) a -> reads (read_opt (is_some a) p) (concat (write_opt e a)) a.
Proof. destruct a as [x|]; intros H; [|apply reads_ret]. by apply (reads_map p Some). Qed.
Lemma opt_ok_impl {A} (P Q : A -> Prop) a : (forall x, P x -> Q x) -> opt_ok P a -> opt_ok Q a.
Proof. destruct a; simpl; auto. Qed.
Definition opt_len {A} (l : A -> Z) (a : option A) : Z := match a with Some x => l x | None => 0 end.
Lemma zlen_write_opt {A} (e : A -> list bytes) (l : A -> Z) a :
  opt_ok (fun x => zlen (concat (e x)) = l x) a -> zlen (concat (write_opt e a)) = opt_len l a.
Proof. destruct a; done. Qed.

(** ** Guids, qualified names, localized texts *)

Definition guid_encode (g : list Z) : list bytes := [g].
Lemma reads_guid g : zlen g = 16 -> reads guid_decode (concat (guid_encode g)) g.
Proof. intros Hg. cbn [guid_encode concat]. rewrite app_nil_r. by apply reads_exact. Qed.

Definition qualified_name_byte_len (q : QualifiedName) : Z := 2 + ua_string_encoded_len (qname q).
Definition qualified_name_encode (q : QualifiedName) : list bytes :=
  write_u16 (namespace_index q) ++ ua_string_encode (qname q).
Definition qualified_name_decode (o : DecodingOptions) : parser QualifiedName :=
  let% ns := read_u16 in let% name := ua_string_decode o in PRet {| namespace_index := ns; qname := name |}.
Definition qualified_name_ok (o : DecodingOptions) (q : QualifiedName) : Prop :=
  is_uint 2 (namespace_index q) /\ string_ok o (qname q).
Lemma reads_qualified_name o q : qualified_name_ok o q -> reads (qualified_name_decode o) (concat (qualified_name_encode q)) q.
Proof.
  destruct q as [ns name]. intros [Hns Hs]. unfold qualified_name_encode, write_u16. cbn [concat app namespace_index qname].
  eapply reads_bind; [by apply reads_u16|].
  apply (reads_map (ua_string_decode o) (fun name => {| namespace_index := ns; qname := name |})). auto with reads.
Qed.

Definition str_is_empty (s : UAString) : bool := match s with Some (_ :: _) => false | _ => true end.
Definition localized_text_byte_len (t : LocalizedText) : Z :=
  1 + (if negb (str_is_empty (locale t)) then ua_string_encoded_len (locale t) else 0)
    + (if negb (str_is_empty (text t)) then ua_string_encoded_len (text t) else 0).
Definition localized_text_encode (t : LocalizedText) : list bytes :=
  let encoding_mask :=
    Z.lor (if negb (str_is_empty (locale t)) then 0x1 else 0) (if negb (str_is_empty (text t)) then 0x2 else 0) in
  write_u8 encoding_mask
  ++ (if negb (str_is_empty (locale t)) then ua_string_encode (locale t) else [])
  ++ (if negb (str_is_empty (text t)) then ua_string_encode (text t) else []).
Definition localized_text_decode (o : DecodingOptions) : parser LocalizedText :=
  let% encoding_mask := read_u8 in
  let% l := (if negb (Z.land encoding_mask 0x1 =? 0) then ua_string_decode o else PRet None) in
  let% t := (if negb (Z.land encoding_mask 0x2 =? 0) then ua_string_decode o else PRet None) in
  PRet {| locale := l; text := t |}.
(** An empty string is written like a null one, and comes back null. *)
Definition localized_text_ok (o : DecodingOptions) (t : LocalizedText) : Prop :=
  string_ok o (locale t) /\ string_ok o (text t) /\ locale t <> Some [] /\ text t <> Some [].

Lemma str_is_empty_null s : str_is_empty s = true -> s <> Some [] -> s = None.
Proof. destruct s as [[|]|]; done. Qed.
Lemma reads_localized_text o t : localized_text_ok o t -> reads (localized_text_decode o) (concat (localized_text_encode t)) t.
Proof.
  destruct t as [l t]. unfold localized_text_ok, localized_text_encode, localized_text_decode. cbn [locale text].
  intros (Hl & Ht & Hne1 & Hne2). unfold write_u8. rewrite !concat_app. cbn [concat]. rewrite app_nil_r.
  eapply reads_bind with (a := Z.lor _ _); [apply reads_u8; by destruct (str_is_empty l), (str_is_empty t)|].
  assert (forall b1 b2 : bool,
    (negb (Z.land (Z.lor (if b1 then 1 else 0) (if b2 then 2 else 0)) 1 =? 0) = b1)
    /\ (negb (Z.land (Z.lor (if b1 then 1 else 0) (if b2 then 2 else 0)) 2 =? 0) = b2)) as Hmask by by intros [] [].
  destruct (Hmask (negb (str_is_empty l)) (negb (str_is_empty t))) as [-> ->].
  eapply reads_bind; [apply reads_field; intros Hb; bool_to_prop; [auto with reads|by apply str_is_empty_null]|].
  eapply reads_eq; [apply (reads_map _ (fun t => {| locale := l; text := t |})), reads_field; intros Hb; bool_to_prop;
    [apply reads_string; exact Ht|by apply str_is_empty_null]|done].
Qed.
#[export] Hint Resolve reads_guid reads_qualified_name reads_localized_text : reads.

(** ** Expanded node identifiers *)

Definition expanded_node_id_byte_len (n : ExpandedNodeId) : Z :=
  node_id_byte_len (node_id n)
  + (match namespace_uri n with Some _ => ua_string_encoded_len (namespace_uri n) | None => 0 end)
  + (if negb (server_index n =? 0) then 4 else 0).
Definition expanded_node_id_encode (n : ExpandedNodeId) : list bytes :=
  let data_encoding :=
    Z.lor (if is_some (namespace_uri n) then 0x80 else 0) (if negb (server_index n =? 0) then 0x40 else 0) in
  let ns := namespace (node_id n) in
  match identifier (node_id n) with
  | IdNumeric value =>
      if (ns =? 0) && (value <=? 255) then write_u8 data_encoding ++ write_u8 value
      else if (ns <=? 255) && (value <=? 65535) then
        write_u8 (Z.lor data_encoding 0x1) ++ write_u8 ns ++ write_u16 value
      else write_u8 (Z.lor data_encoding 0x2) ++ write_u16 ns ++ write_u32 value
  | IdString value => write_u8 (Z.lor data_encoding 0x3) ++ write_u16 ns ++ ua_string_encode value
  | IdGuid value => write_u8 (Z.lor data_encoding 0x4) ++ write_u16 ns ++ guid_encode value
  | IdByteString value => write_u8 (Z.lor data_encoding 0x5) ++ write_u16 ns ++ byte_string_encode value
  end
  ++ (if is_some (namespace_uri n) then ua_string_encode (namespace_uri n) else [])
  ++ (if negb (server_index n =? 0) then write_u32 (server_index n) else []).

Definition expanded_identifier_decode (o : DecodingOptions) (kind : Z) : parser NodeId :=
  if kind =? 0 then let% value := read_u8 in PRet {| namespace := 0; identifier := IdNumeric value |}
  else if kind =? 1 then
    let% ns := read_u8 in let% value := read_u16 in PRet {| namespace := ns; identifier := IdNumeric value |}
  else if kind =? 2 then
    let% ns := read_u16 in let% value := read_u32 in PRet {| namespace := ns; identifier := IdNumeric value |}
  else if kind =? 3 then
    let% ns := read_u16 in let% value := ua_string_decode o in PRet {| namespace := ns; identifier := IdString value |}
  else if kind =? 4 then
    let% ns := read_u16 in let% value := guid_decode in PRet {| namespace := ns; identifier := IdGuid value |}
  else if kind =? 5 then
    let% ns := read_u16 in
    let% value := byte_string_decode o in PRet {| namespace := ns; identifier := IdByteString value |}
  else PFail BadEncodingError.
Definition expanded_node_id_decode (o : DecodingOptions) : parser ExpandedNodeId :=
  let% data_encoding := read_u8 in
  let% n := expanded_identifier_decode o (Z.land data_encoding 0x0f) in
  let% uri := (if negb (Z.land data_encoding 0x80 =? 0) then ua_string_decode o else PRet None) in
  let% server := (if negb (Z.land data_encoding 0x40 =? 0) then read_u32 else PRet 0) in
  PRet {| node_id := n; namespace_uri := uri; server_index := server |}.

Definition expanded_node_id_ok (o : DecodingOptions) (n : ExpandedNodeId) : Prop :=
  node_id_ok o (node_id n) /\ string_ok o (namespace_uri n) /\ is_u32 (server_index n).

(** The identifier is laid out as in a [NodeId], after a type byte that also carries the flags. *)
Definition node_id_kind (n : NodeId) : Z :=
  match identifier n with
  | IdNumeric value =>
      if (namespace n =? 0) && (value <=? 255) then 0
      else if (namespace n <=? 255) && (value <=? 65535) then 1 else 2
  | IdString _ => 3
  | IdGuid _ => 4
  | IdByteString _ => 5
  end.
Lemma node_id_encode_kind n : exists body, concat (node_id_encode n) = le_bytes 1 (node_id_kind n) ++ body
  /\ forall m, node_id m = n ->
       concat (expanded_node_id_encode m)
       = le_bytes 1 (Z.lor (Z.lor (if is_some (namespace_uri m) then 0x80 else 0)
                                  (if negb (server_index m =? 0) then 0x40 else 0)) (node_id_kind n))
         ++ body ++ concat (if is_some (namespace_uri m) then ua_string_encode (namespace_uri m) else [])
         ++ concat (if negb (server_index m =? 0) then write_u32 (server_index m) else []).
Proof.
  eexists (drop 1 (concat (node_id_encode n))).
  assert (forall z l, concat (write_u8 z ++ l) = le_bytes 1 z ++ concat l) as Hc by done.
  assert (forall z (l : bytes), drop 1 (le_bytes 1 z ++ l) = l) as Hd by done.
  unfold node_id_kind, node_id_encode, expanded_node_id_encode. split.
  - destruct (identifier n); repeat case_match; by rewrite Hc, Hd.
  - intros m ->. destruct (identifier n); repeat case_match; rewrite !concat_app, Z.lor_0_r || rewrite !concat_app;
      rewrite <- !app_assoc; done.
Qed.
Lemma reads_expanded_identifier o n body : node_id_ok o n ->
  concat (node_id_encode n) = le_bytes 1 (node_id_kind n) ++ body ->
  reads (expanded_identifier_decode o (node_id_kind n)) body n.
Proof.
  intros Hn Heq rest. pose proof (node_id_round_trip o n rest Hn) as Hr. rewrite Heq, <- app_assoc in Hr.
  unfold node_id_decode in Hr. rewrite run_u8 in Hr by (unfold node_id_kind; repeat case_match; int_lia).
  unfold expanded_identifier_decode, node_id_kind in *. by repeat case_match.
Qed.
Lemma expanded_mask (b1 b2 : bool) k : 0 <= k <= 5 ->
  let m := Z.lor (Z.lor (if b1 then 0x80 else 0) (if b2 then 0x40 else 0)) k in
  is_uint 1 m /\ Z.land m 0x0f = k /\ negb (Z.land m 0x80 =? 0) = b1 /\ negb (Z.land m 0x40 =? 0) = b2.
Proof.
  intros Hk. assert (k = 0 \/ k = 1 \/ k = 2 \/ k = 3 \/ k = 4 \/ k = 5) as Hc by lia.
  destruct b1, b2; repeat (destruct Hc as [->|Hc]); subst; done.
Qed.
Lemma reads_expanded_node_id o n : expanded_node_id_ok o n ->
  reads (expanded_node_id_decode o) (concat (expanded_node_id_encode n)) n.
Proof.
  intros (Hn & Hu & Hs). destruct (node_id_encode_kind (node_id n)) as (body & Hb & Henc). rewrite (Henc n eq_refl).
  destruct (expanded_mask (is_some (namespace_uri n)) (negb (server_index n =? 0)) (node_id_kind (node_id n)))
    as (Hm & H1 & H2 & H3); [unfold node_id_kind; repeat case_match; lia|].
  unfold expanded_node_id_decode. eapply reads_bind; [by apply reads_u8|]. rewrite H1, H2, H3.
  eapply reads_bind; [by apply reads_expanded_identifier|]. destruct n as [id uri server]. cbn [node_id namespace_uri server_index] in *.
  eapply reads_bind; [apply reads_field; [auto with reads|by destruct uri]|].
  apply (reads_map _ (fun server => {| node_id := id; namespace_uri := uri; server_index := server |})).
  apply reads_field; [intros _; by apply reads_u32|]. destruct (Z.eqb_spec server 0); done.
Qed.

(** ** Diagnostic information *)

Definition HAS_SYMBOLIC_ID : Z := 0x01.
Definition HAS_NAMESPACE : Z := 0x02.
Definition HAS_LOCALIZED_TEXT : Z := 0x04.
Definition HAS_LOCALE : Z := 0x08.
Definition HAS_ADDITIONAL_INFO : Z := 0x10.
Definition HAS_INNER_STATUS_CODE : Z := 0x20.
Definition HAS_INNER_DIAGNOSTIC_INFO : Z := 0x40.

(** The union of the flags that are set. *)
Definition flags (l : list (bool * Z)) : Z := fold_left (fun (m : Z) (f : bool * Z) => if f.1 then Z.lor m f.2 else m) l 0.
(** [contains]. *)
Definition has_flag (m f : Z) : bool := Z.land m f =? f.

Definition diag_encoding_mask (d : DiagnosticInfo) : Z :=
  match d with
  | DiagInfo sid ns loc txt add st inner =>
      flags [(is_some sid, HAS_SYMBOLIC_ID); (is_some ns, HAS_NAMESPACE); (is_some loc, HAS_LOCALE);
             (is_some txt, HAS_LOCALIZED_TEXT); (is_some add, HAS_ADDITIONAL_INFO);
             (is_some st, HAS_INNER_STATUS_CODE); (is_some inner, HAS_INNER_DIAGNOSTIC_INFO)]
  end.
Fixpoint diag_byte_len (d : DiagnosticInfo) : Z :=
  match d with
  | DiagInfo sid ns loc txt add st inner =>
      1 + opt_len (fun _ => 4) sid + opt_len (fun _ => 4) ns + opt_len (fun _ => 4) loc + opt_len (fun _ => 4) txt
      + opt_len ua_string_encoded_len add + opt_len (fun _ => 4) st
      + match inner with Some i => diag_byte_len i | None => 0 end
  end.
Fixpoint diag_encode (d : DiagnosticInfo) : list bytes :=
  match d with
  | DiagInfo sid ns loc txt add st inner =>
      write_u8 (diag_encoding_mask d)
      ++ write_opt write_i32 sid ++ write_opt write_i32 ns ++ write_opt write_i32 loc ++ write_opt write_i32 txt
      ++ write_opt ua_string_encode add ++ write_opt status_encode st
      ++ match inner with Some i => diag_encode i | None => [] end
  end.
Fixpoint diag_decode (o : DecodingOptions) (depth : nat) : parser DiagnosticInfo :=
  match depth with
  | O => PFail BadDecodingError
  | S d =>
      let% m := read_u8 in
      let% sid := read_opt (has_flag m HAS_SYMBOLIC_ID) read_i32 in
      let% ns := read_opt (has_flag m HAS_NAMESPACE) read_i32 in
      let% loc := read_opt (has_flag m HAS_LOCALE) read_i32 in
      let% txt := read_opt (has_flag m HAS_LOCALIZED_TEXT) read_i32 in
      let% add := read_opt (has_flag m HAS_ADDITIONAL_INFO) (ua_string_decode o) in
      let% st := read_opt (has_flag m HAS_INNER_STATUS_CODE) status_decode in
      let% inner := read_opt (has_flag m HAS_INNER_DIAGNOSTIC_INFO) (diag_decode o d) in
      PRet (DiagInfo sid ns loc txt add st inner)
  end.

(** Fields in range, and at most [depth] nested levels. *)
Fixpoint diag_ok (o : DecodingOptions) (depth : nat) (d : DiagnosticInfo) : Prop :=
  match depth, d with
  | O, _ => False
  | S depth', DiagInfo sid ns loc txt add st inner =>
      opt_ok (is_int 4) sid /\ opt_ok (is_int 4) ns /\ opt_ok (is_int 4) loc /\ opt_ok (is_int 4) txt
      /\ opt_ok (string_ok o) add /\ opt_ok is_u32 st /\ opt_ok (diag_ok o depth') inner
  end.

Lemma diag_mask_flags (b1 b2 b3 b4 b5 b6 b7 : bool) :
  let m := flags [(b1, HAS_SYMBOLIC_ID); (b2, HAS_NAMESPACE); (b3, HAS_LOCALE); (b4, HAS_LOCALIZED_TEXT);
                  (b5, HAS_ADDITIONAL_INFO); (b6, HAS_INNER_STATUS_CODE); (b7, HAS_INNER_DIAGNOSTIC_INFO)] in
  is_uint 1 m /\ has_flag m HAS_SYMBOLIC_ID = b1 /\ has_flag m HAS_NAMESPACE = b2 /\ has_flag m HAS_LOCALE = b3
  /\ has_flag m HAS_LOCALIZED_TEXT = b4 /\ has_flag m HAS_ADDITIONAL_INFO = b5
  /\ has_flag m HAS_INNER_STATUS_CODE = b6 /\ has_flag m HAS_INNER_DIAGNOSTIC_INFO = b7.
Proof. destruct b1, b2, b3, b4, b5, b6, b7; done. Qed.
Lemma reads_opt_i32 z : opt_ok (is_int 4) z -> reads (read_opt (is_some z) read_i32) (concat (write_opt write_i32 z)) z.
Proof.
  intros Hz. apply reads_opt. eapply opt_ok_impl; [|exact Hz]. intros x Hx. cbn [write_i32 concat]. rewrite app_nil_r.
  by apply reads_i32.
Qed.
Lemma reads_status s : is_u32 s -> reads status_decode (concat (status_encode s)) s.
Proof. intros Hs. cbn [status_encode write_u32 concat]. rewrite app_nil_r. by apply reads_u32. Qed.
Lemma diag_decode_encode o depth d : diag_ok o depth d -> reads (diag_decode o depth) (concat (diag_encode d)) d.
Proof.
  revert d. induction depth as [|depth IH]; intros [sid ns loc txt add st inner] Hd; [done|].
  cbn [diag_ok] in Hd. destruct Hd as (H1 & H2 & H3 & H4 & H5 & H6 & H7). cbn [diag_encode diag_decode diag_encoding_mask].
  destruct (diag_mask_flags (is_some sid) (is_some ns) (is_some loc) (is_some txt) (is_some add) (is_some st) (is_some inner))
    as (Hm & E1 & E2 & E3 & E4 & E5 & E6 & E7). rewrite !concat_app.
  eapply reads_bind; [unfold write_u8; cbn [concat]; rewrite app_nil_r; by apply reads_u8|]. rewrite E1, E2, E3, E4, E5, E6, E7.
  do 4 (eapply reads_bind; [by apply reads_opt_i32|]).
  eapply reads_bind; [apply reads_opt; eapply opt_ok_impl; [|exact H5]; auto with reads|].
  eapply reads_bind; [apply reads_opt; eapply opt_ok_impl; [|exact H6]; apply reads_status|].
  apply (reads_map _ (DiagInfo sid ns loc txt add st)).
  apply (reads_opt (diag_decode o depth) diag_encode inner). eapply opt_ok_impl; [apply IH|done].
Qed.
Lemma diag_len o depth d : diag_ok o depth d -> zlen (concat (diag_encode d)) = diag_byte_len d.
Proof.
  revert d. induction depth as [|depth IH]; intros [sid ns loc txt add st inner] Hd; [done|].
  cbn [diag_ok] in Hd. destruct Hd as (_ & _ & _ & _ & _ & _ & H7). cbn [diag_encode diag_byte_len].
  rewrite !concat_app, !zlen_app.
  assert (forall z, zlen (concat (write_opt write_i32 z)) = opt_len (fun _ => 4) z) as Hi by by intros [].
  rewrite !Hi, (zlen_write_opt _ ua_string_encoded_len) by (destruct add; [apply ua_string_len|done]).
  assert (zlen (concat (match inner with Some i => diag_encode i | None => [] end))
          = match inner with Some i => diag_byte_len i | None => 0 end) as -> by (destruct inner; [by apply IH|done]).
  change (zlen (concat (write_u8 _))) with 1. lia.
Qed.
#[export] Hint Resolve reads_expanded_node_id reads_status diag_decode_encode : reads.

(** ** Arrays *)

Fixpoint read_n {A} (n : nat) (p : parser A) : parser (list A) :=
  match n with
  | O => PRet []
  | S n' => let% x := p in let% l := read_n n' p in PRet (x :: l)
  end.
(** [Option<Vec<T>>]. *)
Definition option_vec_encode {A} (e : A -> list bytes) (l : option (list A)) : list bytes :=
  match l with
  | Some values => write_i32 (zlen values) ++ concat (map e values)
  | None => write_i32 (-1)
  end.
Definition option_vec_decode {A} (o : DecodingOptions) (p : parser A) : parser (option (list A)) :=
  let% len := read_i32 in
  if len =? -1 then PRet None
  else if len <? -1 then PFail BadDecodingError
  else if max_array_length o <? len then PFail BadDecodingError
  else let% values := read_n (Z.to_nat len) p in PRet (Some values).
Definition array_len_ok (o : DecodingOptions) {A} (l : list A) : Prop := zlen l <= Z.min (max_array_length o) i32_max.

Lemma reads_n {A} (p : parser A) l bss : Forall2 (fun x bs => reads p (concat bs) x) l bss ->
  reads (read_n (length l) p) (concat (concat bss)) l.
Proof.
  induction 1 as [|x bs l bss Hx Hl IH]; [apply reads_ret|]. cbn [length read_n concat]. rewrite concat_app.
  eapply reads_bind; [exact Hx|]. by apply (reads_map _ (cons x)).
Qed.
Lemma Forall2_map_reads {A} (p : parser A) (e : A -> list bytes) l :
  Forall (fun x => reads p (concat (e x)) x) l -> Forall2 (fun x bs => reads p (concat bs) x) l (map e l).
Proof. induction 1; simpl; by constructor. Qed.
Lemma is_int4 z : - (i32_max + 1) <= z <= i32_max -> is_int 4 z.
Proof. unfold is_int. change (2 ^ (8 * Z.of_nat 4 - 1)) with (i32_max + 1). lia. Qed.
Lemma reads_option_vec {A} o (p : parser A) (e : A -> list bytes) l : opt_ok (array_len_ok o) l ->
  opt_ok (Forall (fun x => reads p (concat (e x)) x)) l ->
  reads (option_vec_decode o p) (concat (option_vec_encode e l)) l.
Proof.
  unfold option_vec_decode, option_vec_encode, write_i32, array_len_ok. destruct l as [l|]; cbn [opt_ok]; intros Hlen Hl.
  - pose proof (zlen_nonneg l). cbn [concat app]. eapply reads_bind; [apply reads_i32, is_int4; int_lia|].
    destruct (Z.eqb_spec (zlen l) (-1)); [lia|]. repeat decide_test. apply (reads_map _ Some).
    unfold zlen. rewrite Nat2Z.id. by apply reads_n, Forall2_map_reads.
  - eapply reads_eq; [eapply reads_bind; [by apply (reads_i32 (-1)), is_int4|apply reads_ret]|done].
Qed.

(** ** What a decoder can return

    Every value [p] returns, from any stream, satisfies [P]. *)

Fixpoint yields {A} (P : A -> Prop) (p : parser A) : Prop :=
  match p with
  | PRet a => P a
  | PFail _ => True
  | PRead n k => forall bs, length bs = n -> yields P (k bs)
  end.

Lemma yields_run {A} (P : A -> Prop) p bs a rest : yields P p -> run p bs = Ok (a, rest) -> P a.
Proof.
  revert bs. induction p as [b|e|n k IH]; intros bs Hp; cbn [run yields] in *; [by intros [= <- _]|done|].
  destruct (Nat.leb_spec n (length bs)); [|done]. apply IH, Hp. rewrite length_take. lia.
Qed.
Lemma yields_bind {A B} (P : A -> Prop) (Q : B -> Prop) (p : parser A) f :
  yields P p -> (forall a, P a -> yields Q (f a)) -> yields Q (parser_bind p f).
Proof. intros Hp Hf. induction p as [b|e|n k IH]; cbn [parser_bind yields] in *; auto. Qed.
Lemma yields_mono {A} (P Q : A -> Prop) p : yields P p -> (forall a, P a -> Q a) -> yields Q p.
Proof. intros Hp HPQ. induction p as [b|e|n k IH]; cbn [yields] in *; auto. Qed.
Lemma yields_any {A} (p : parser A) : yields (fun _ => True) p.
Proof. induction p as [b|e|n k IH]; cbn [yields]; auto. Qed.
Lemma yields_then {A B} (Q : B -> Prop) (p : parser A) f : (forall a, yields Q (f a)) -> yields Q (parser_bind p f).
Proof. intros Hf. eapply yields_bind; [apply yields_any|auto]. Qed.
Lemma yields_opt {A} (P : A -> Prop) b (p : parser A) : yields P p -> yields (opt_ok P) (read_opt b p).
Proof. destruct b; [|done]. intros Hp. by apply (yields_bind P). Qed.
Lemma yields_n {A} (P : A -> Prop) n (p : parser A) : yields P p ->
  yields (fun l => Forall P l /\ length l = n) (read_n n p).
Proof.
  intros Hp. induction n as [|n IH]; cbn [read_n]; [done|]. eapply yields_bind; [exact Hp|]. intros x Hx.
  eapply yields_bind; [exact IH|]. intros l [Hl Hn]. cbn. split; [by constructor|lia].
Qed.

Lemma utf8_decode_len bs s : utf8_decode bs = Some s -> utf8_len s = zlen bs.
Proof.
  remember (length bs) as n eqn:Hn. assert (length bs <= n)%nat as Hle by lia. clear Hn. revert bs s Hle.
  induction n as [|n IH]; intros bs s Hle; [by destruct bs; [intros [= <-]|simpl in Hle; lia]|].
  assert (forall c k r, (length r <= n)%nat -> utf8_len_char c = k ->
    (let* s := utf8_decode r in Some (c :: s)) = Some s -> utf8_len s = k + zlen r) as Hgo.
  { intros c k r Hr Hc. destruct (utf8_decode r) as [s'|] eqn:Hs; [|done]. intros [= <-]. cbn [utf8_len foldr].
    change (foldr _ 0 s') with (utf8_len s'). rewrite (IH r s' Hr Hs). lia. }
  assert (forall c, c < 0x80 -> utf8_len_char c = 1) as L1 by (intros c Hc; unfold utf8_len_char; by decide_test).
  assert (forall c, 0x80 <= c < 0x800 -> utf8_len_char c = 2) as L2 by (intros c Hc; unfold utf8_len_char; by repeat decide_test).
  assert (forall c, 0x800 <= c < 0x10000 -> utf8_len_char c = 3) as L3 by (intros c Hc; unfold utf8_len_char; by repeat decide_test).
  assert (forall c, 0x10000 <= c -> utf8_len_char c = 4) as L4 by (intros c Hc; unfold utf8_len_char; by repeat decide_test).
  destruct bs as [|b0 r0]; [by intros [= <-]|]. cbn [utf8_decode length] in *.
  destruct (Z.ltb_spec b0 0x80); [intros Hs; rewrite zlen_cons; rewrite (Hgo b0 1 r0); [lia|lia|by apply L1|exact Hs]|].
  destruct r0 as [|b1 r1]; [done|]. destruct (continuation b1) eqn:Hc1; [|done]. cbn [negb].
  destruct (Z.ltb_spec b0 0xC2); [done|]. unfold continuation in Hc1. bool_to_prop. cbn [length] in *. rewrite !zlen_cons.
  destruct (Z.ltb_spec b0 0xE0).
  { intros Hs. apply (Hgo _ 2) in Hs; [lia|lia|apply L2; lia]. }
  destruct r1 as [|b2 r2]; [done|]. destruct (continuation b2) eqn:Hc2; [|done]. cbn [negb].
  unfold continuation in Hc2. bool_to_prop. cbn [length] in *. rewrite !zlen_cons.
  destruct (Z.ltb_spec b0 0xF0).
  { destruct (_ && _) eqn:Hc; [|done]. bool_to_prop. intros Hs. apply (Hgo _ 3) in Hs; [lia|lia|apply L3; lia]. }
  destruct r2 as [|b3 r3]; [done|]. destruct (continuation b3) eqn:Hc3; [|done]. cbn [negb].
  unfold continuation in Hc3. bool_to_prop. cbn [length] in *. rewrite !zlen_cons.
  destruct (_ && _) eqn:Hc; [|done]. bool_to_prop. intros Hs. apply (Hgo _ 4) in Hs; [lia|lia|apply L4; lia].
Qed.

(** A decoded string, or byte string, is within the limit. *)
Lemma yields_string o : yields (opt_ok (fun s => utf8_len s <= max_string_length o)) (ua_string_decode o).
Proof.
  apply yields_then. intros len. destruct (Z.eqb_spec len (-1)); [done|]. destruct (Z.ltb_spec len (-1)); [done|].
  destruct (Z.ltb_spec (max_string_length o) len); [done|]. unfold read_exact. cbn [parser_bind yields]. intros bs Hbs.
  destruct (utf8_decode bs) as [s|] eqn:Hs; [|done]. cbn. rewrite (utf8_decode_len bs s Hs). unfold zlen. lia.
Qed.
Lemma yields_byte_string o : yields (opt_ok (fun b => zlen b <= max_byte_string_length o)) (byte_string_decode o).
Proof.
  apply yields_then. intros len. destruct (Z.eqb_spec len (-1)); [done|]. destruct (Z.ltb_spec len (-1)); [done|].
  destruct (Z.ltb_spec (max_byte_string_length o) len); [done|]. unfold read_exact. cbn [parser_bind yields]. intros bs Hbs.
  cbn. unfold zlen. lia.
Qed.
Lemma yields_option_vec {A} o (p : parser A) : yields (opt_ok (fun l => zlen l <= max_array_length o)) (option_vec_decode o p).
Proof.
  apply yields_then. intros len. destruct (Z.eqb_spec len (-1)); [done|]. destruct (Z.ltb_spec len (-1)); [done|].
  destruct (Z.ltb_spec (max_array_length o) len); [done|].
  eapply yields_bind; [apply yields_n, yields_any|]. intros l [_ Hl]. cbn. unfold zlen. lia.
Qed.
(** The nesting of a decoded diagnostic is within the gauge. *)
Fixpoint diag_depth (d : DiagnosticInfo) : nat :=
  match d with DiagInfo _ _ _ _ _ _ inner => S (match inner with Some i => diag_depth i | None => O end) end.
Lemma yields_diag o depth : yields (fun d => (diag_depth d <= depth)%nat) (diag_decode o depth).
Proof.
  induction depth as [|depth IH]; cbn [diag_decode]; [done|]. do 7 (apply yields_then; intros ?).
  eapply yields_bind; [by apply yields_opt|]. intros inner Hi. cbn. destruct inner as [i|]; cbn in Hi; lia.
Qed.
Create HintDb yields.
#[export] Hint Resolve yields_any yields_string yields_byte_string yields_option_vec yields_diag : yields.
