(* ===== verification/BinaryVariant.v ===== *)
(** * The binary encoding of variants, data values and extension objects

    The [BinaryEncodable] and [BinaryDecodable] implementations of async-opcua-types/src/variant/mod.rs,
    data_value.rs and extension_object.rs, with the type loaders of type_loader/mod.rs and
    type_loader/fallback.rs.

    A nested value is decoded under a lock of the depth gauge; the gauge is modelled as the number of
    locks that are left ([depth]), and the recursion of the decoder is on it.  A refused lock gives
    its count back at once, so nothing else of the gauge can be seen.

    The body of an extension object is a trait object: the class [Context] holds its methods, with
    the namespaces and the type loaders of the context it is decoded in. *)

From S2P Require Import Prelude Text Float StatusCode NumericRange Variant Wire BinaryTypes.

(** ** Encoders that can fail *)

Abbreviation writes := (result (list bytes) StatusCode).

Fixpoint writes_all {A} (e : A -> writes) (l : list A) : writes :=
  match l with
  | [] => Ok []
  | x :: l' => let? b := e x in let? bs := writes_all e l' in Ok (b ++ bs)
  end.

(** ** Trait objects and type loaders *)

(** [TypeLoader::load_from_binary]: nothing for a type it does not know. *)
Abbreviation BinaryLoader dyn := (DecodingOptions -> nat -> NodeId -> option Z -> option (parser dyn)).

Class Context {D : DynEncodable} := {
  binary_type_id : dyn -> ExpandedNodeId;
  byte_len_dyn : dyn -> Z;
  encode_binary : dyn -> writes;
  (** [override_encoding() == Some(XML)]. *)
  override_xml : dyn -> bool;
  (** [XmlBody::new] with the tag [XmlElement]. *)
  xml_body : bytes -> NodeId -> dyn;
  namespaces : rstr -> option Z;
  loaders : list (BinaryLoader dyn)
}.

Definition try_resolve (get_index : rstr -> option Z) (n : ExpandedNodeId) : option NodeId :=
  if negb (server_index n =? 0) then None
  else match namespace_uri n with
       | Some uri => let* idx := get_index uri in Some {| namespace := idx; identifier := identifier (node_id n) |}
       | None => Some (node_id n)
       end.
Definition node_id_null : NodeId := {| namespace := 0; identifier := IdNumeric 0 |}.
Definition expanded_null : ExpandedNodeId := {| node_id := node_id_null; namespace_uri := None; server_index := 0 |}.

(** ** The encoding mask of a variant (type_id.rs) *)

Definition ARRAY_DIMENSIONS_BIT : Z := 64.
Definition ARRAY_VALUES_BIT : Z := 128.
Definition ARRAY_MASK : Z := Z.lor ARRAY_DIMENSIONS_BIT ARRAY_VALUES_BIT.

Definition scalar_encoding_mask (t : VariantScalarTypeId) : Z :=
  match t with
  | TBoolean => 1 | TSByte => 2 | TByte => 3 | TInt16 => 4 | TUInt16 => 5 | TInt32 => 6 | TUInt32 => 7
  | TInt64 => 8 | TUInt64 => 9 | TFloat => 10 | TDouble => 11 | TString => 12 | TDateTime => 13 | TGuid => 14
  | TByteString => 15 | TXmlElement => 16 | TNodeId => 17 | TExpandedNodeId => 18 | TStatusCode => 19
  | TQualifiedName => 20 | TLocalizedText => 21 | TExtensionObject => 22 | TDataValue => 23 | TVariant => 24
  | TDiagnosticInfo => 25
  end.
Definition scalar_types : list VariantScalarTypeId :=
  [TBoolean; TSByte; TByte; TInt16; TUInt16; TInt32; TUInt32; TInt64; TUInt64; TFloat; TDouble; TString; TDateTime;
   TGuid; TByteString; TXmlElement; TNodeId; TExpandedNodeId; TStatusCode; TQualifiedName; TLocalizedText;
   TExtensionObject; TDataValue; TVariant; TDiagnosticInfo].
(** [encoding_mask & !ARRAY_MASK] of a byte. *)
Definition element_mask (m : Z) : Z := Z.land m 63.
Definition from_encoding_mask (m : Z) : option VariantScalarTypeId :=
  find (fun t => scalar_encoding_mask t =? element_mask m) scalar_types.

Section binary_variant.
Context {D : DynEncodable} {C : Context}.

Definition encoding_mask (v : Variant) : Z :=
  match type_id v with
  | TyEmpty => 0
  | TyScalar t => scalar_encoding_mask t
  | TyArray t dims =>
      let m := Z.lor (scalar_encoding_mask t) ARRAY_VALUES_BIT in
      if is_some dims then Z.lor m ARRAY_DIMENSIONS_BIT else m
  end.

(** ** Extension objects *)

Definition ext_binary_type_id (body : option dyn) : ExpandedNodeId :=
  match body with Some b => binary_type_id b | None => expanded_null end.
Definition ext_byte_len (body : option dyn) : Z :=
  match try_resolve namespaces (ext_binary_type_id body) with Some n => node_id_byte_len n | None => 2 end
  + match body with Some b => 5 + byte_len_dyn b | None => 1 end.
Definition ext_encode (body : option dyn) : writes :=
  match try_resolve namespaces (ext_binary_type_id body) with
  | None => Err BadEncodingError
  | Some id =>
      match body with
      | Some b =>
          let? bs := encode_binary b in
          Ok (node_id_encode id ++ write_u8 (if override_xml b then 0x2 else 0x1) ++ write_i32 (byte_len_dyn b) ++ bs)
      | None => Ok (node_id_encode id ++ write_u8 0)
      end
  end.

Definition validate_body_size (size max_size : Z) : result (option Z) StatusCode :=
  if size <=? 0 then Ok None else if max_size <? size then Err BadDecodingError else Ok (Some size).

(** [Context::load_from_binary]: the first loader that knows the type. *)
Fixpoint load_from_binary (ls : list (BinaryLoader dyn)) (o : DecodingOptions) (depth : nat) (id : NodeId)
    (length : option Z) : parser dyn :=
  match ls with
  | [] => PFail BadDecodingError
  | l :: ls' => match l o depth id length with Some p => p | None => load_from_binary ls' o depth id length end
  end.

(** [ExtensionObject::decode] of a build without the feature [xml]: with that feature, an encoding type of
    2 is read as a string and parsed as XML, which is not modelled. *)
Definition ext_decode (o : DecodingOptions) (depth : nat) : parser (option dyn) :=
  match depth with
  | O => PFail BadDecodingError
  | S d =>
      let% id := node_id_decode o in
      let% encoding_type := read_u8 in
      if encoding_type =? 0x0 then PRet None
      else if encoding_type =? 0x1 then
        let% size := read_i32 in
        let% valid := lift (validate_body_size size (max_message_size o)) in
        match valid with
        | Some size => let% b := load_from_binary loaders o d id (Some size) in PRet (Some b)
        | None => PRet None
        end
      else if encoding_type =? 0x2 then
        let% size := read_i32 in
        let% valid := lift (validate_body_size size (max_message_size o)) in
        match valid with
        | Some size => let% buf := read_exact size in PRet (Some (xml_body buf id))
        | None => PRet None
        end
      else PFail BadDecodingError
  end.

(** ** Data values *)

Definition HAS_VALUE : Z := 0x1.
Definition HAS_STATUS : Z := 0x2.
Definition HAS_SOURCE_TIMESTAMP : Z := 0x4.
Definition HAS_SERVER_TIMESTAMP : Z := 0x8.
Definition HAS_SOURCE_PICOSECONDS : Z := 0x10.
Definition HAS_SERVER_PICOSECONDS : Z := 0x20.

(** The picoseconds of an absent timestamp do not exist. *)
Definition picos {V} (timestamp : option V) (p : option Z) : option Z :=
  match timestamp with Some _ => p | None => None end.

Definition dv_encoding_mask (d : DataValueOf Variant) : Z :=
  flags [(is_some (dv_value d), HAS_VALUE); (is_some (dv_status d), HAS_STATUS);
         (is_some (source_timestamp d), HAS_SOURCE_TIMESTAMP);
         (is_some (picos (source_timestamp d) (source_picoseconds d)), HAS_SOURCE_PICOSECONDS);
         (is_some (server_timestamp d), HAS_SERVER_TIMESTAMP);
         (is_some (picos (server_timestamp d) (server_picoseconds d)), HAS_SERVER_PICOSECONDS)].

Definition dv_byte_len (len : Variant -> Z) (d : DataValueOf Variant) : Z :=
  1 + opt_len len (dv_value d) + opt_len (fun _ : Z => 4) (dv_status d)
  + match source_timestamp d with Some _ => 8 + opt_len (fun _ : Z => 2) (source_picoseconds d) | None => 0 end
  + match server_timestamp d with Some _ => 8 + opt_len (fun _ : Z => 2) (server_picoseconds d) | None => 0 end.

Definition dv_encode (enc : Variant -> writes) (d : DataValueOf Variant) : writes :=
  let? v := match dv_value d with Some v => enc v | None => Ok [] end in
  Ok (write_u8 (dv_encoding_mask d) ++ v ++ write_opt status_encode (dv_status d)
      ++ match source_timestamp d with
         | Some t => datetime_encode t ++ write_opt write_u16 (source_picoseconds d) | None => [] end
      ++ match server_timestamp d with
         | Some t => datetime_encode t ++ write_opt write_u16 (server_picoseconds d) | None => [] end).

(** [Context::with_zero_offset]. *)
Definition with_zero_offset (o : DecodingOptions) : DecodingOptions :=
  {| max_message_size := max_message_size o; max_chunk_count := max_chunk_count o;
     max_string_length := max_string_length o; max_byte_string_length := max_byte_string_length o;
     max_array_length := max_array_length o; client_offset := 0 |}.
Definition read_picos : parser Z := let% p := read_u16 in PRet (Z.min p 9999).

(** [nested] decodes a variant under a lock that was just taken; nothing when it is refused. *)
Definition dv_decode (o : DecodingOptions) (nested : option (parser Variant)) : parser (DataValueOf Variant) :=
  match nested with
  | None => PFail BadDecodingError
  | Some variant =>
      let% m := read_u8 in
      let% v := read_opt (has_flag m HAS_VALUE) variant in
      let% st := read_opt (has_flag m HAS_STATUS) read_u32 in
      let% src := read_opt (has_flag m HAS_SOURCE_TIMESTAMP) (datetime_decode (with_zero_offset o)) in
      let% src_picos := read_opt (has_flag m HAS_SOURCE_PICOSECONDS) read_picos in
      let% srv := read_opt (has_flag m HAS_SERVER_TIMESTAMP) (datetime_decode o) in
      let% srv_picos := read_opt (has_flag m HAS_SERVER_PICOSECONDS) read_picos in
      PRet (mkDataValue v st src (picos src src_picos) srv (picos srv srv_picos))
  end.

(** ** Variants *)

Definition fixed_scalar_value_byte_len (t : VariantScalarTypeId) : option Z :=
  match t with
  | TBoolean | TSByte | TByte => Some 1
  | TInt16 | TUInt16 => Some 2
  | TInt32 | TUInt32 | TFloat | TStatusCode => Some 4
  | TInt64 | TUInt64 | TDouble | TDateTime => Some 8
  | TGuid => Some 16
  | _ => None
  end.

(** The elements of an array are never arrays: [byte_len_variant_value] and [encode_variant_value]
    are [value_byte_len] and [encode_value] of anything else. *)
Fixpoint value_byte_len (v : Variant) : Z :=
  match v with
  | VEmpty => 0
  | VBoolean _ | VSByte _ | VByte _ => 1
  | VInt16 _ | VUInt16 _ => 2
  | VInt32 _ | VUInt32 _ | VFloat _ | VStatusCode _ => 4
  | VInt64 _ | VUInt64 _ | VDouble _ | VDateTime _ => 8
  | VString s | VXmlElement s => ua_string_encoded_len s
  | VGuid _ => 16
  | VByteString b => byte_string_byte_len b
  | VNodeId n => node_id_byte_len n
  | VExpandedNodeId n => expanded_node_id_byte_len n
  | VQualifiedName q => qualified_name_byte_len q
  | VLocalizedText t => localized_text_byte_len t
  | VExtensionObject b => ext_byte_len b
  | VDataValue d => dv_byte_len (fun v => 1 + value_byte_len v) d
  | VVariant v => 1 + value_byte_len v
  | VDiagnosticInfo d => diag_byte_len d
  | VArray a =>
      4 + match fixed_scalar_value_byte_len (value_type a) with
          | Some value_len => zlen (values a) * value_len
          | None => fold_right Z.add 0
                      (map (fun v => match v with VArray _ => 0 | _ => value_byte_len v end) (values a))
          end
      + match dimensions a with Some dims => 4 + zlen dims * 4 | None => 0 end
  end.
Definition variant_byte_len (v : Variant) : Z := 1 + value_byte_len v.

Fixpoint encode_value (v : Variant) : writes :=
  let encode v := let? bs := encode_value v in Ok (write_u8 (encoding_mask v) ++ bs) in
  match v with
  | VEmpty => Ok []
  | VBoolean b => Ok (bool_encode b)
  | VSByte z => Ok (write_i8 z)
  | VByte z => Ok (write_u8 z)
  | VInt16 z => Ok (write_i16 z)
  | VUInt16 z => Ok (write_u16 z)
  | VInt32 z => Ok (write_i32 z)
  | VUInt32 z => Ok (write_u32 z)
  | VInt64 z => Ok (write_i64 z)
  | VUInt64 z => Ok (write_u64 z)
  | VFloat f => Ok (write_f32 f)
  | VDouble f => Ok (write_f64 f)
  | VString s | VXmlElement s => Ok (ua_string_encode s)
  | VDateTime t => Ok (datetime_encode t)
  | VGuid g => Ok (guid_encode g)
  | VByteString b => Ok (byte_string_encode b)
  | VNodeId n => Ok (node_id_encode n)
  | VExpandedNodeId n => Ok (expanded_node_id_encode n)
  | VStatusCode s => Ok (status_encode s)
  | VQualifiedName q => Ok (qualified_name_encode q)
  | VLocalizedText t => Ok (localized_text_encode t)
  | VExtensionObject b => ext_encode b
  | VDataValue d => dv_encode encode d
  | VVariant v => encode v
  | VDiagnosticInfo d => Ok (diag_encode d)
  | VArray a =>
      let? bs := writes_all (fun v => match v with VArray _ => Err BadEncodingError | _ => encode_value v end) (values a) in
      Ok (write_i32 (zlen (values a)) ++ bs
          ++ match dimensions a with
             | Some dims => write_i32 (zlen dims) ++ concat (map write_i32 dims)
             | None => []
             end)
  end.
Definition variant_encode (v : Variant) : writes :=
  let? bs := encode_value v in Ok (write_u8 (encoding_mask v) ++ bs).

(** [decode_variant_value]: any mask that is no type is an empty variant, and reads nothing. *)
Definition decode_variant_value (o : DecodingOptions) (depth : nat) (nested : option (parser Variant)) (m : Z) : parser Variant :=
  if m =? 0 then PRet VEmpty
  else match find (fun t => scalar_encoding_mask t =? m) scalar_types with
  | None => PRet VEmpty
  | Some TBoolean => let% b := bool_decode in PRet (VBoolean b)
  | Some TSByte => let% z := read_i8 in PRet (VSByte z)
  | Some TByte => let% z := read_u8 in PRet (VByte z)
  | Some TInt16 => let% z := read_i16 in PRet (VInt16 z)
  | Some TUInt16 => let% z := read_u16 in PRet (VUInt16 z)
  | Some TInt32 => let% z := read_i32 in PRet (VInt32 z)
  | Some TUInt32 => let% z := read_u32 in PRet (VUInt32 z)
  | Some TInt64 => let% z := read_i64 in PRet (VInt64 z)
  | Some TUInt64 => let% z := read_u64 in PRet (VUInt64 z)
  | Some TFloat => let% f := read_f32 in PRet (VFloat f)
  | Some TDouble => let% f := read_f64 in PRet (VDouble f)
  | Some TString => let% s := ua_string_decode o in PRet (VString s)
  | Some TDateTime => let% t := datetime_decode o in PRet (VDateTime t)
  | Some TGuid => let% g := guid_decode in PRet (VGuid g)
  | Some TByteString => let% b := byte_string_decode o in PRet (VByteString b)
  | Some TXmlElement => let% s := ua_string_decode o in PRet (VXmlElement s)
  | Some TNodeId => let% n := node_id_decode o in PRet (VNodeId n)
  | Some TExpandedNodeId => let% n := expanded_node_id_decode o in PRet (VExpandedNodeId n)
  | Some TStatusCode => let% s := status_decode in PRet (VStatusCode s)
  | Some TQualifiedName => let% q := qualified_name_decode o in PRet (VQualifiedName q)
  | Some TLocalizedText => let% t := localized_text_decode o in PRet (VLocalizedText t)
  | Some TExtensionObject => let% b := ext_decode o depth in PRet (VExtensionObject b)
  | Some TVariant =>
      match nested with
      | Some variant => let% v := variant in PRet (VVariant v)
      | None => PFail BadDecodingError
      end
  | Some TDataValue => let% d := dv_decode o nested in PRet (VDataValue d)
  | Some TDiagnosticInfo => let% d := diag_decode o depth in PRet (VDiagnosticInfo d)
  end.

(** [u32::checked_mul] over the dimensions. *)
Fixpoint dimensions_length (acc : Z) (dims : list Z) : option Z :=
  match dims with
  | [] => Some acc
  | d :: dims' => if u32_max <? acc * d then None else dimensions_length (acc * d) dims'
  end.
Definition array_result (r : result (ArrayOf Variant) ArrayError) : parser Variant :=
  match r with Ok a => PRet (VArray a) | Err _ => PFail BadDecodingError end.
Definition element_type (m : Z) : parser VariantScalarTypeId :=
  match from_encoding_mask m with Some t => PRet t | None => PFail BadDecodingError end.

Definition decode_dimensions (o : DecodingOptions) (t : VariantScalarTypeId) (vs : list Variant) : parser Variant :=
  let% dims := option_vec_decode o read_u32 in
  match dims with
  | None => PFail BadDecodingError
  | Some dims =>
      if existsb (fun d => d =? 0) dims then PFail BadDecodingError
      else match dimensions_length 1 dims with
      | None => PFail BadDecodingError
      | Some n =>
          if negb (n =? zlen vs mod (u32_max + 1)) then PFail BadDecodingError
          else array_result (array_new_multi t vs dims)
      end
  end.

Definition variant_decode_body (o : DecodingOptions) (depth : nat) (nested : option (parser Variant)) : parser Variant :=
  let% m := read_u8 in
  let element := if (26 <=? element_mask m) && (element_mask m <=? 31) then 15 else element_mask m in
  let has_dimensions := negb (Z.land m ARRAY_DIMENSIONS_BIT =? 0) in
  if negb (Z.land m ARRAY_VALUES_BIT =? 0) then
    let% array_length := read_i32 in
    if array_length <? -1 then PFail BadDecodingError
    else if array_length <=? 0 then
      let% t := element_type element in array_result (array_new_multi t [] [])
    else if max_array_length o <? array_length then PFail BadEncodingLimitsExceeded
    else
      let% vs := read_n (Z.to_nat array_length) (decode_variant_value o depth nested element) in
      let% t := element_type element in
      if has_dimensions then decode_dimensions o t vs else array_result (array_new t vs)
  else if has_dimensions then PFail BadDecodingError
  else decode_variant_value o depth nested element.

Fixpoint variant_decode (o : DecodingOptions) (depth : nat) : parser Variant :=
  variant_decode_body o depth (match depth with O => None | S d => Some (variant_decode o d) end).

Definition data_value_encode : DataValueOf Variant -> writes := dv_encode variant_encode.
Definition data_value_byte_len : DataValueOf Variant -> Z := dv_byte_len variant_byte_len.
Definition data_value_decode (o : DecodingOptions) (depth : nat) : parser (DataValueOf Variant) :=
  dv_decode o (match depth with O => None | S d => Some (variant_decode o d) end).

End binary_variant.

(** [DecodingOptions::default]'s gauge. *)
Definition MAX_DECODING_DEPTH : nat := 10.

(** ** The fallback type loader *)

(** Bodies of types the program does not know, kept as they were received. *)
Inductive raw_body : Type :=
| ByteStringBody (raw : bytes) (encoding_id : NodeId)
| JsonBody (raw : bytes) (encoding_id : NodeId)
| XmlBody (raw : bytes) (encoding_id : NodeId) (tag_name : rstr).
#[export] Instance raw_body_eq_dec : EqDecision raw_body.
Proof. solve_decision. Defined.

Definition fallback_load_from_binary : BinaryLoader raw_body :=
  fun o _ id length =>
    let* n := length in
    Some (if max_message_size o <? n then PFail BadDecodingError
          else let% buf := read_exact n in PRet (ByteStringBody buf id)).
Definition raw_encoding_id (b : raw_body) : NodeId :=
  match b with ByteStringBody _ id | JsonBody _ id | XmlBody _ id _ => id end.
Definition raw_byte_len (b : raw_body) : Z :=
  match b with ByteStringBody raw _ | XmlBody raw _ _ => zlen raw | JsonBody _ _ => 0 end.
Definition raw_encode (b : raw_body) : writes :=
  match b with ByteStringBody raw _ | XmlBody raw _ _ => Ok [raw] | JsonBody _ _ => Err BadEncodingError end.

#[export] Instance raw_dyn : DynEncodable :=
  {| dyn := raw_body; dyn_eqb a b := bool_decide (a = b);
     dyn_data_type b := match identifier (raw_encoding_id b) with IdNumeric n => Some n | _ => None end |}.
#[export] Instance raw_context : Context :=
  {| binary_type_id b := {| node_id := raw_encoding_id b; namespace_uri := None; server_index := 0 |};
     byte_len_dyn := raw_byte_len;
     encode_binary := raw_encode;
     override_xml b := match b with XmlBody _ _ _ => true | _ => false end;
     xml_body raw id := XmlBody raw id (str "XmlElement");
     namespaces _ := None;
     loaders := [fallback_load_from_binary] |}.
