(* ===== verification/BinaryVariantFacts.v ===== *)
(** * Properties of the binary encoding of variants

    What a variant's encoder writes is decoded back, under the gauge and the limits of the receiver,
    and has the announced length; decoded variants are well typed and within the array limit; the
    encoding of an empty array does not survive being decoded and written again.

    The bodies of extension objects are behind the interface [ContextLaws], which the fallback type
    loader implements. *)

From S2P Require Import Prelude Text Float StatusCode NumericRange Variant RangeFacts Wire BinaryTypes BinaryVariant.

(** ** The interface *)

(** A body that can be sent: its type has an identifier, it is encoded to the announced number of
    bytes, and the receiver's loaders read it back from them. *)
Class ContextLaws {D : DynEncodable} (C : Context) := {
  dyn_ok : DecodingOptions -> nat -> dyn -> Prop;
  dyn_encoded o depth b : dyn_ok o depth b ->
    exists id bs, try_resolve namespaces (binary_type_id b) = Some id /\ node_id_ok o id
      /\ encode_binary b = Ok bs /\ zlen (concat bs) = byte_len_dyn b
      /\ 0 < byte_len_dyn b <= Z.min (max_message_size o) i32_max
      /\ if override_xml b then xml_body (concat bs) id = b
         else reads (load_from_binary loaders o depth id (Some (byte_len_dyn b))) (concat bs) b
}.

(** The raw bodies satisfy it. *)
#[export] Instance raw_laws : ContextLaws raw_context.
Proof.
  refine {| dyn_ok := fun o _ b =>
    node_id_ok o (raw_encoding_id b) /\ 0 < raw_byte_len b <= Z.min (max_message_size o) i32_max
    /\ match b with JsonBody _ _ => False | XmlBody _ _ tag => tag = str "XmlElement" | _ => True end |}.
  intros o depth b (Hid & Hlen & Hb). destruct b as [raw id|raw id|raw id tag]; [|done|].
  - exists id, [raw]. cbn in *. rewrite app_nil_r. do 5 (split; [done|]). decide_test.
    intros rest. rewrite run_read; [done|]. unfold zlen. lia.
  - exists id, [raw]. cbn in *. rewrite app_nil_r. do 5 (split; [done|]). by subst.
Defined.

Section facts.
Context {D : DynEncodable} {C : Context} {L : ContextLaws C}.

(** ** The variants a receiver decodes *)

Definition dv_ok (o : DecodingOptions) (depth : nat) (nested : Variant -> Prop) (d : DataValueOf Variant) : Prop :=
  depth <> O /\ opt_ok nested (dv_value d) /\ opt_ok is_u32 (dv_status d)
  /\ opt_ok (datetime_ok (with_zero_offset o)) (source_timestamp d) /\ opt_ok (datetime_ok o) (server_timestamp d)
  /\ opt_ok (fun p => 0 <= p <= 9999) (source_picoseconds d) /\ opt_ok (fun p => 0 <= p <= 9999) (server_picoseconds d)
  /\ picos (source_timestamp d) (source_picoseconds d) = source_picoseconds d
  /\ picos (server_timestamp d) (server_picoseconds d) = server_picoseconds d.

Definition scalar_ok (o : DecodingOptions) (depth : nat) (nested : Variant -> Prop) (v : Variant) : Prop :=
  match v with
  | VEmpty | VBoolean _ => True
  | VSByte z => is_int 1 z
  | VByte z => is_uint 1 z
  | VInt16 z => is_int 2 z
  | VUInt16 z => is_uint 2 z
  | VInt32 z => is_int 4 z
  | VUInt32 z => is_u32 z
  | VInt64 z => is_int 8 z
  | VUInt64 z => is_uint 8 z
  | VFloat f => f32_ok f
  | VDouble f => f64_ok f
  | VString s | VXmlElement s => string_ok o s
  | VDateTime t => datetime_ok o t
  | VGuid g => zlen g = 16
  | VByteString b => byte_string_ok o b
  | VNodeId n => node_id_ok o n
  | VExpandedNodeId n => expanded_node_id_ok o n
  | VStatusCode s => is_u32 s
  | VQualifiedName q => qualified_name_ok o q
  | VLocalizedText t => localized_text_ok o t
  | VExtensionObject b => match depth with O => False | S d => opt_ok (dyn_ok o d) b end
  | VVariant v => nested v
  | VDataValue d => dv_ok o depth nested d
  | VDiagnosticInfo d => diag_ok o depth d
  | VArray _ => False
  end.

(** Arrays that are not empty, whose elements have the array's type, with dimensions that are
    positive and whose product is the length. *)
Definition array_ok (o : DecodingOptions) (depth : nat) (nested : Variant -> Prop) (a : ArrayOf Variant) : Prop :=
  0 < zlen (values a) /\ array_len_ok o (values a)
  /\ values_are_of_type (values a) (value_type a) = true
  /\ Forall (scalar_ok o depth nested) (values a)
  /\ opt_ok (fun dims => array_len_ok o dims /\ dims <> [] /\ Forall (fun d => 0 < d) dims
                         /\ fold_left Z.mul dims 1 = zlen (values a)) (dimensions a).

Fixpoint variant_ok (o : DecodingOptions) (depth : nat) (v : Variant) : Prop :=
  let nested := match depth with O => fun _ => False | S d => variant_ok o d end in
  match v with
  | VArray a => array_ok o depth nested a
  | _ => scalar_ok o depth nested v
  end.

(** ** Round trip *)

(** [v] is encoded, to the announced length, and [p] reads it back. *)
Definition encodes {A} (w : writes) (len : Z) (p : parser A) (a : A) : Prop :=
  exists bs, w = Ok bs /\ zlen (concat bs) = len /\ reads p (concat bs) a.

Lemma encodes_map {A B} (w : writes) len (p : parser A) (f : A -> B) a :
  encodes w len p a -> encodes w len (let% x := p in PRet (f x)) (f a).
Proof. intros (bs & -> & Hl & Hr). exists bs. repeat split; [done|]. by apply reads_map. Qed.
Lemma encodes_ok {A} (bs : list bytes) len (p : parser A) a :
  zlen (concat bs) = len -> reads p (concat bs) a -> encodes (Ok bs) len p a.
Proof. intros Hl Hr. by exists bs. Qed.
Lemma zlen_one (n : nat) z : zlen (concat [le_bytes n z]) = Z.of_nat n.
Proof. cbn [concat]. by rewrite app_nil_r, zlen_le_bytes. Qed.
Lemma reads_one {A} (p : parser A) bs a : reads p bs a -> reads p (concat [bs]) a.
Proof. cbn [concat]. by rewrite app_nil_r. Qed.

Lemma ext_encodes o depth b : opt_ok (dyn_ok o depth) b -> encodes (ext_encode b) (ext_byte_len b) (ext_decode o (S depth)) b.
Proof.
  unfold ext_encode, ext_byte_len, ext_decode. destruct b as [b|]; cbn [opt_ok ext_binary_type_id]; intros Hb.
  - destruct (dyn_encoded o depth b Hb) as (id & bs & Hid & Hidok & Henc & Hlen & Hpos & Hbody).
    rewrite Hid, Henc. cbn [result_bind]. apply encodes_ok; rewrite !concat_app.
    + rewrite !zlen_app, node_id_len, Hlen by (destruct Hidok as [_ Hi]; by destruct (identifier id)).
      unfold write_u8, write_i32. rewrite !zlen_one. lia.
    + eapply reads_bind; [by apply reads_node_id|].
      eapply reads_bind with (a := if override_xml b then 2 else 1);
        [apply reads_one, reads_u8; by destruct (override_xml b)|].
      destruct (override_xml b) eqn:Hxml; cbn [Z.eqb Pos.eqb];
        (eapply reads_bind; [apply reads_one, reads_i32, is_int4; int_lia|]);
        unfold validate_body_size; repeat decide_test; cbn [lift parser_bind].
      * subst b. apply (reads_map _ (fun buf => Some (xml_body buf id))). by apply reads_exact.
      * by apply (reads_map _ Some).
  - exists (node_id_encode node_id_null ++ write_u8 0). done.
Qed.

Lemma dv_mask_flags (b1 b2 b3 b4 b5 b6 : bool) :
  let m := flags [(b1, HAS_VALUE); (b2, HAS_STATUS); (b3, HAS_SOURCE_TIMESTAMP); (b4, HAS_SOURCE_PICOSECONDS);
                  (b5, HAS_SERVER_TIMESTAMP); (b6, HAS_SERVER_PICOSECONDS)] in
  is_uint 1 m /\ has_flag m HAS_VALUE = b1 /\ has_flag m HAS_STATUS = b2 /\ has_flag m HAS_SOURCE_TIMESTAMP = b3
  /\ has_flag m HAS_SOURCE_PICOSECONDS = b4 /\ has_flag m HAS_SERVER_TIMESTAMP = b5 /\ has_flag m HAS_SERVER_PICOSECONDS = b6.
Proof. destruct b1, b2, b3, b4, b5, b6; done. Qed.

Lemma reads_picos p : opt_ok (fun p => 0 <= p <= 9999) p ->
  reads (read_opt (is_some p) read_picos) (concat (write_opt write_u16 p)) p.
Proof.
  intros Hp. apply reads_opt. eapply opt_ok_impl; [|exact Hp]. intros x Hx. cbn beta in Hx. apply reads_one.
  replace x with (Z.min x 9999) at 2 by lia. apply (reads_map read_u16 (fun p => Z.min p 9999)), reads_u16.
  unfold is_uint. change (256 ^ Z.of_nat 2) with 65536. lia.
Qed.

(** A timestamp with its picoseconds. *)
Lemma concat_stamp t p : picos t p = p ->
  concat (match t with Some t => datetime_encode t ++ write_opt write_u16 p | None => [] end)
  = concat (write_opt datetime_encode t) ++ concat (write_opt write_u16 p)
  /\ zlen (concat (match t with Some t => datetime_encode t ++ write_opt write_u16 p | None => [] end))
     = match t with Some _ => 8 + opt_len (fun _ : Z => 2) p | None => 0 end.
Proof.
  destruct t as [t|]; cbn [picos write_opt]; [intros _|intros <-; done]. rewrite concat_app. split; [done|].
  rewrite zlen_app. change (zlen (concat (datetime_encode t))) with 8. by destruct p.
Qed.

Lemma dv_encodes o depth nested_ok enc len nested d :
  (forall v, nested_ok v -> encodes (enc v) (len v) nested v) -> dv_ok o depth nested_ok d ->
  encodes (dv_encode enc d) (dv_byte_len len d) (dv_decode o (Some nested)) d.
Proof.
  intros Hnested (_ & Hv & Hst & Hsrc & Hsrv & Hsp & Hvp & Hpn1 & Hpn2).
  assert (exists vbs, match dv_value d with Some v => enc v | None => Ok [] end = Ok vbs
    /\ zlen (concat vbs) = opt_len len (dv_value d)
    /\ reads (read_opt (is_some (dv_value d)) nested) (concat vbs) (dv_value d)) as (vbs & He & Hl & Hr).
  { destruct (dv_value d) as [v|]; [|by exists []]. destruct (Hnested v Hv) as (bs & He & Hl & Hr).
    exists bs. repeat split; [done..|]. by apply (reads_map _ Some). }
  unfold dv_encode, dv_byte_len. rewrite He. cbn [result_bind]. apply encodes_ok; rewrite !concat_app.
  - rewrite !zlen_app, Hl, (proj2 (concat_stamp _ _ Hpn1)), (proj2 (concat_stamp _ _ Hpn2)).
    change (zlen (concat (write_u8 _))) with 1. rewrite (zlen_write_opt _ (fun _ => 4)) by (by destruct (dv_status d)). lia.
  - rewrite (proj1 (concat_stamp _ _ Hpn1)), (proj1 (concat_stamp _ _ Hpn2)), <- !app_assoc. unfold dv_encoding_mask. rewrite Hpn1, Hpn2.
    destruct (dv_mask_flags (is_some (dv_value d)) (is_some (dv_status d)) (is_some (source_timestamp d))
      (is_some (source_picoseconds d)) (is_some (server_timestamp d)) (is_some (server_picoseconds d)))
      as (Hm & E1 & E2 & E3 & E4 & E5 & E6).
    unfold dv_decode. eapply reads_bind; [apply reads_one; by apply reads_u8|]. rewrite E1, E2, E3, E4, E5, E6.
    eapply reads_bind; [exact Hr|].
    eapply reads_bind; [apply (reads_opt read_u32 status_encode); eapply opt_ok_impl; [apply reads_status|done]|].
    eapply reads_bind; [apply reads_opt; eapply opt_ok_impl; [apply reads_datetime|done]|].
    eapply reads_bind; [by apply reads_picos|].
    eapply reads_bind; [apply reads_opt; eapply opt_ok_impl; [apply reads_datetime|done]|].
    eapply reads_eq; [eapply reads_bind; [by apply reads_picos|]|apply app_nil_r]. rewrite Hpn1, Hpn2. by destruct d.
Qed.

(** *** Announced lengths *)

Lemma qualified_name_len q : zlen (concat (qualified_name_encode q)) = qualified_name_byte_len q.
Proof.
  unfold qualified_name_encode, qualified_name_byte_len. rewrite concat_app, zlen_app, ua_string_len.
  unfold write_u16. by rewrite zlen_one.
Qed.
Lemma localized_text_len t : zlen (concat (localized_text_encode t)) = localized_text_byte_len t.
Proof.
  unfold localized_text_encode, localized_text_byte_len. rewrite !concat_app, !zlen_app.
  change (zlen (concat (write_u8 _))) with 1. repeat case_match; rewrite ?ua_string_len; change (zlen (concat [])) with 0; lia.
Qed.
Lemma expanded_node_id_len o n : expanded_node_id_ok o n ->
  zlen (concat (expanded_node_id_encode n)) = expanded_node_id_byte_len n.
Proof.
  intros ([_ Hi] & _). destruct (node_id_encode_kind (node_id n)) as (body & Hb & Henc).
  rewrite (Henc n eq_refl), !zlen_app, zlen_le_bytes.
  assert (zlen (concat (node_id_encode (node_id n))) = node_id_byte_len (node_id n)) as Hl
    by (apply node_id_len; by destruct (identifier (node_id n))).
  rewrite Hb, zlen_app, zlen_le_bytes in Hl. unfold expanded_node_id_byte_len. rewrite <- Hl.
  assert (zlen (concat (if is_some (namespace_uri n) then ua_string_encode (namespace_uri n) else []))
          = match namespace_uri n with Some _ => ua_string_encoded_len (namespace_uri n) | None => 0 end) as ->
    by (destruct (namespace_uri n); [apply ua_string_len|done]).
  assert (zlen (concat (if negb (server_index n =? 0) then write_u32 (server_index n) else []))
          = if negb (server_index n =? 0) then 4 else 0) as -> by by destruct (server_index n =? 0).
  lia.
Qed.

(** *** Values *)

Section values.
Context (o : DecodingOptions) (depth : nat) (nested_ok : Variant -> Prop) (nested : option (parser Variant)).
Hypothesis Hnested : forall v, nested_ok v ->
  exists p, nested = Some p /\ encodes (variant_encode v) (variant_byte_len v) p v.
Hypothesis Hlock : depth <> O -> exists p, nested = Some p.

Lemma dv_value_encodes d : dv_ok o depth nested_ok d ->
  encodes (dv_encode variant_encode d) (dv_byte_len variant_byte_len d) (dv_decode o nested) d.
Proof.
  intros Hd. destruct (Hlock (proj1 Hd)) as [p Hp]. rewrite Hp. eapply dv_encodes; [|exact Hd].
  intros v Hv. destruct (Hnested v Hv) as (q & Hq & He). rewrite Hp in Hq. by injection Hq as <-.
Qed.

Lemma value_encodes v : scalar_ok o depth nested_ok v ->
  encodes (encode_value v) (value_byte_len v) (decode_variant_value o depth nested (encoding_mask v)) v.
Proof.
  destruct v; cbn [scalar_ok]; intros Hv; try done;
    match goal with
    | |- encodes _ _ _ VEmpty => apply (encodes_ok []); [done|apply reads_ret]
    | |- encodes _ _ _ (VVariant _) =>
        destruct (Hnested _ Hv) as (p & Hp & He); rewrite Hp; exact (encodes_map _ _ p VVariant _ He)
    | |- encodes _ _ _ (VExtensionObject _) =>
        destruct depth as [|d]; [done|]; by apply (encodes_map _ _ (ext_decode o (S d)) VExtensionObject), ext_encodes
    | |- encodes _ _ _ (VDataValue _) =>
        exact (encodes_map _ _ (dv_decode o nested) VDataValue _ (dv_value_encodes _ Hv))
    | |- encodes _ _ _ (?c ?x) => apply (encodes_map _ _ _ c x), encodes_ok
    end;
    first [ apply zlen_one | apply ua_string_len | apply byte_string_len | apply qualified_name_len
          | apply localized_text_len | by eapply expanded_node_id_len | by eapply diag_len
          | solve [eauto with reads]
          | apply reads_one; solve [by apply (reads_bool b) | by apply reads_int | by apply reads_uint | eauto with reads]
          | idtac ].
  - cbn [guid_encode concat]. by rewrite app_nil_r.
  - apply node_id_len. destruct Hv as [_ Hi]. by destruct (identifier n).
Qed.

(** *** Arrays *)

Lemma scalar_not_array v : scalar_ok o depth nested_ok v -> match v with VArray _ => False | _ => True end.
Proof. by destruct v. Qed.
Lemma encoding_mask_scalar v t : type_id v = TyScalar t -> encoding_mask v = scalar_encoding_mask t.
Proof. unfold encoding_mask. by intros ->. Qed.

Lemma elements_encode t vs : Forall (scalar_ok o depth nested_ok) vs -> values_are_of_type vs t = true ->
  exists bss, writes_all (fun v => match v with VArray _ => Err BadEncodingError | _ => encode_value v end) vs = Ok bss
    /\ zlen (concat bss) = fold_right Z.add 0 (map (fun v => match v with VArray _ => 0 | _ => value_byte_len v end) vs)
    /\ reads (read_n (length vs) (decode_variant_value o depth nested (scalar_encoding_mask t))) (concat bss) vs.
Proof.
  intros Hvs. rewrite values_are_of_type_spec. induction Hvs as [|v vs Hv Hvs IH]; intros Ht.
  - exists []. repeat split.
  - inversion_clear Ht as [|? ? Hty Htys]. destruct (IH Htys) as (bss & He & Hl & Hr).
    destruct (value_encodes v Hv) as (bs & Hev & Hlv & Hrv). rewrite (encoding_mask_scalar v t Hty) in Hrv.
    cbn [writes_all map fold_right length read_n]. rewrite He.
    assert (match v with VArray _ => Err BadEncodingError | _ => encode_value v end = Ok bs) as -> by by destruct v.
    assert (match v with VArray _ => 0 | _ => value_byte_len v end = value_byte_len v) as -> by by destruct v.
    exists (bs ++ bss). split; [done|]. rewrite concat_app, zlen_app, Hl, Hlv. split; [done|].
    eapply reads_bind; [exact Hrv|]. by apply (reads_map _ (cons v)).
Qed.
End values.

(** The elements of a fixed-length type have that length. *)
Lemma fixed_len v t n : type_id v = TyScalar t -> fixed_scalar_value_byte_len t = Some n -> value_byte_len v = n.
Proof. destruct v; intros [= <-]; intros [= <-]; done. Qed.
Lemma elements_len vs t : values_are_of_type vs t = true ->
  fold_right Z.add 0 (map (fun v => match v with VArray _ => 0 | _ => value_byte_len v end) vs)
  = match fixed_scalar_value_byte_len t with
    | Some n => zlen vs * n
    | None => fold_right Z.add 0 (map (fun v => match v with VArray _ => 0 | _ => value_byte_len v end) vs)
    end.
Proof.
  destruct (fixed_scalar_value_byte_len t) as [n|] eqn:Hn; [|done]. rewrite values_are_of_type_spec.
  induction 1 as [|v vs Hv Hvs IH]; [done|]. cbn [map fold_right]. rewrite IH, zlen_cons.
  assert (match v with VArray _ => 0 | _ => value_byte_len v end = value_byte_len v) as -> by by destruct v.
  rewrite (fixed_len v t n Hv Hn). lia.
Qed.

(** The mask of an array says its element type, and whether dimensions follow. *)
Lemma array_mask t (dims : option (list Z)) :
  let m := encoding_mask (VArray (mkArray t [] dims)) in
  is_uint 1 m /\ element_mask m = scalar_encoding_mask t /\ negb (Z.land m ARRAY_VALUES_BIT =? 0) = true
  /\ negb (Z.land m ARRAY_DIMENSIONS_BIT =? 0) = is_some dims.
Proof. destruct t, dims; done. Qed.
Lemma scalar_mask t : let m := scalar_encoding_mask t in
  is_uint 1 m /\ element_mask m = m /\ negb (Z.land m ARRAY_VALUES_BIT =? 0) = false
  /\ negb (Z.land m ARRAY_DIMENSIONS_BIT =? 0) = false /\ (26 <=? m) && (m <=? 31) = false
  /\ from_encoding_mask m = Some t.
Proof. by destruct t. Qed.

(** *** Dimensions *)

Lemma product_bound dims acc : Forall (fun d => 0 < d) dims -> 0 < acc -> acc <= fold_left Z.mul dims acc.
Proof.
  revert acc. induction dims as [|d dims IH]; intros acc Hd Hacc; [done|]. inversion_clear Hd. cbn [fold_left].
  etrans; [|apply IH; [done|nia]]. nia.
Qed.
Lemma dimensions_length_product dims acc : Forall (fun d => 0 < d) dims -> 0 < acc ->
  fold_left Z.mul dims acc <= u32_max -> dimensions_length acc dims = Some (fold_left Z.mul dims acc).
Proof.
  revert acc. induction dims as [|d dims IH]; intros acc Hd Hacc Hmax; [done|]. inversion_clear Hd.
  cbn [fold_left dimensions_length] in *. pose proof (product_bound dims (acc * d) ltac:(done) ltac:(nia)).
  decide_test. apply IH; [done|nia|done].
Qed.
Lemma wrapping_product dims acc : Forall (fun d => 0 < d) dims -> 0 < acc -> fold_left Z.mul dims acc <= usize_max ->
  fold_left (fun a b => (a * b) mod (usize_max + 1)) dims acc = fold_left Z.mul dims acc.
Proof.
  revert acc. induction dims as [|d dims IH]; intros acc Hd Hacc Hmax; [done|]. inversion_clear Hd. cbn [fold_left] in *.
  pose proof (product_bound dims (acc * d) ltac:(done) ltac:(nia)). rewrite Z.mod_small by lia. apply IH; [done|nia|done].
Qed.
Lemma dimension_bounds dims : Forall (fun d => 0 < d) dims -> Forall (fun d => d <= fold_left Z.mul dims 1) dims.
Proof.
  intros H. assert (forall acc, 0 < acc -> Forall (fun d => d <= fold_left Z.mul dims acc) dims) as Hgo; [|apply Hgo; lia].
  induction H as [|d dims Hd Hdims IH]; intros acc Hacc; constructor.
  - cbn [fold_left]. etrans; [|apply product_bound; [done|nia]]. nia.
  - cbn [fold_left]. apply IH. nia.
Qed.

Lemma validate_dimensions_ok dims n : dims <> [] -> Forall (fun d => 0 < d) dims -> n <= usize_max ->
  fold_left Z.mul dims 1 = n -> validate_dimensions n dims = true.
Proof.
  intros Hne Hpos Hn Hp. destruct dims as [|d dims]; [done|]. inversion_clear Hpos. cbn [fold_left] in Hp.
  rewrite Z.mul_1_l in Hp. unfold validate_dimensions. rewrite wrapping_product by (done || lia). by rewrite Hp, Z.eqb_refl.
Qed.

Lemma dimensions_read o t vs dims : values_are_of_type vs t = true -> zlen vs <= i32_max ->
  array_len_ok o dims /\ dims <> [] /\ Forall (fun d => 0 < d) dims /\ fold_left Z.mul dims 1 = zlen vs ->
  reads (decode_dimensions o t vs) (concat (write_i32 (zlen dims) ++ concat (map write_i32 dims)))
        (VArray (mkArray t vs (Some dims))).
Proof.
  intros Ht Hlen (Hdl & Hne & Hpos & Hprod). unfold decode_dimensions. pose proof (zlen_nonneg vs).
  eapply reads_eq; [eapply reads_bind; [apply (reads_option_vec o read_u32 write_i32 (Some dims)); [done|]|]|apply app_nil_r].
  - cbn [opt_ok]. pose proof (dimension_bounds dims Hpos) as Hb. rewrite Forall_forall in Hb, Hpos |- *.
    intros d Hd. apply reads_one, reads_u32. specialize (Hb d Hd). specialize (Hpos d Hd). int_lia.
  - cbn beta iota.
    assert (existsb (fun d => d =? 0) dims = false) as ->.
    { apply not_true_iff_false. rewrite existsb_exists. intros (d & Hd & Hz). rewrite Forall_forall in Hpos.
      apply list_elem_of_In in Hd. specialize (Hpos d Hd). bool_to_prop. lia. }
    rewrite dimensions_length_product by (done || int_lia). rewrite Hprod, Z.mod_small by int_lia.
    rewrite Z.eqb_refl. cbn [negb]. unfold array_new_multi. rewrite validate_dimensions_ok by (done || int_lia).
    unfold validate_array_type_to_values. rewrite Ht. apply reads_ret.
Qed.

(** *** Variants *)

Definition nested_of (o : DecodingOptions) (depth : nat) : option (parser Variant) :=
  match depth with O => None | S d => Some (variant_decode o d) end.
Definition nested_ok_of (o : DecodingOptions) (depth : nat) : Variant -> Prop :=
  match depth with O => fun _ => False | S d => variant_ok o d end.
Lemma variant_decode_eq o depth : variant_decode o depth = variant_decode_body o depth (nested_of o depth).
Proof. by destruct depth. Qed.

Definition variant_encodes o depth v : Prop :=
  encodes (variant_encode v) (variant_byte_len v) (variant_decode o depth) v.

Section level.
Context (o : DecodingOptions) (depth : nat).
Hypothesis IH : forall v, nested_ok_of o depth v ->
  exists p, nested_of o depth = Some p /\ encodes (variant_encode v) (variant_byte_len v) p v.

Lemma lock_available : depth <> O -> exists p, nested_of o depth = Some p.
Proof. destruct depth as [|d]; [done|]. intros _. by exists (variant_decode o d). Qed.

Lemma array_encodes a : array_ok o depth (nested_ok_of o depth) a -> variant_encodes o depth (VArray a).
Proof.
  destruct a as [t vs dims]. intros (Hpos & Hlen & Ht & Hvs & Hdims). cbn [values value_type dimensions] in *.
  unfold array_len_ok in Hlen.
  destruct (elements_encode o depth _ (nested_of o depth) IH lock_available t vs Hvs Ht) as (bss & He & Hl & Hr).
  destruct (array_mask t dims) as (Hm & Hel & Hva & Hdi). destruct (scalar_mask t) as (_ & _ & _ & _ & Hres & Hfrom).
  unfold variant_encodes, variant_encode. cbn [encode_value values]. rewrite He. cbn [result_bind].
  apply encodes_ok; rewrite !concat_app.
  - unfold variant_byte_len. cbn [value_byte_len values value_type dimensions]. rewrite <- (elements_len vs t Ht), <- Hl, !zlen_app.
    unfold write_u8, write_i32. rewrite !zlen_one. destruct dims as [dims|]; [|change (zlen (concat [])) with 0; lia].
    rewrite concat_app, zlen_app, zlen_one.
    assert (zlen (concat (concat (map (fun z : Z => [le_bytes 4 z]) dims))) = 4 * zlen dims) as ->; [|lia].
    clear. induction dims as [|d dims IHd]; [done|]. cbn [map concat app]. rewrite zlen_app, IHd, zlen_le_bytes, zlen_cons. lia.
  - rewrite variant_decode_eq. unfold variant_decode_body. change (encoding_mask _) with (encoding_mask (VArray (mkArray t [] dims))).
    eapply reads_bind; [by apply reads_one, reads_u8|]. rewrite Hva, Hel, Hdi, Hres. cbn iota.
    eapply reads_bind; [apply reads_one, reads_i32, is_int4; int_lia|]. repeat decide_test.
    unfold zlen at 1. rewrite Nat2Z.id. eapply reads_bind; [exact Hr|].
    unfold element_type. rewrite Hfrom. cbn [parser_bind]. destruct dims as [dims|]; cbn [is_some].
    + apply dimensions_read; [done|lia|done].
    + unfold array_new, validate_array_type_to_values. rewrite Ht. apply reads_ret.
Qed.

Lemma level_encodes v : variant_ok o depth v -> variant_encodes o depth v.
Proof.
  intros Hv. assert ((exists a, v = VArray a) \/ scalar_ok o depth (nested_ok_of o depth) v) as [[a ->]|Hs];
    [by destruct depth, v; eauto| |].
  - apply array_encodes. by destruct depth.
  - destruct (value_encodes o depth _ (nested_of o depth) IH lock_available v Hs) as (bs & He & Hl & Hr).
    unfold variant_encodes, variant_encode, variant_byte_len. rewrite He. cbn [result_bind]. apply encodes_ok; rewrite concat_app.
    + rewrite zlen_app, Hl. unfold write_u8. by rewrite zlen_one.
    + rewrite variant_decode_eq. unfold variant_decode_body. destruct (type_id v) as [|t|t dims] eqn:Hty; [| |by destruct v].
      * unfold encoding_mask in *. rewrite Hty in *. by eapply reads_bind; [apply reads_one, reads_u8|].
      * rewrite (encoding_mask_scalar v t Hty) in *. destruct (scalar_mask t) as (Hm & Hel & Hva & Hdi & Hres & _).
        eapply reads_bind; [by apply reads_one, reads_u8|]. by rewrite Hel, Hva, Hdi, Hres.
Qed.
End level.

Lemma all_encode o depth v : variant_ok o depth v -> variant_encodes o depth v.
Proof.
  revert v. induction depth as [|depth IH]; intros v Hv; apply level_encodes; try done.
  intros w Hw. exists (variant_decode o depth). split; [done|]. by apply IH.
Qed.
End facts.

(** ** What is decoded *)

Section decoded.
Context {D : DynEncodable} {C : Context}.

Definition scalar_decoded (o : DecodingOptions) (depth : nat) (nested : Variant -> Prop) (v : Variant) : Prop :=
  match v with
  | VString s | VXmlElement s => opt_ok (fun s => utf8_len s <= max_string_length o) s
  | VByteString b => opt_ok (fun b => zlen b <= max_byte_string_length o) b
  | VVariant v => nested v
  | VDataValue d =>
      opt_ok nested (dv_value d) /\ depth <> O
      /\ picos (source_timestamp d) (source_picoseconds d) = source_picoseconds d
      /\ picos (server_timestamp d) (server_picoseconds d) = server_picoseconds d
      /\ opt_ok (fun p => p <= 9999) (source_picoseconds d) /\ opt_ok (fun p => p <= 9999) (server_picoseconds d)
  | VDiagnosticInfo d => (diag_depth d <= depth)%nat
  | VArray _ => False
  | _ => True
  end.
Definition array_decoded (o : DecodingOptions) (depth : nat) (nested : Variant -> Prop) (a : ArrayOf Variant) : Prop :=
  values_are_of_type (values a) (value_type a) = true /\ is_valid_dimensions a = true
  /\ zlen (values a) <= Z.max 0 (max_array_length o) /\ Forall (scalar_decoded o depth nested) (values a).
(** At every level: arrays of one type, with dimensions that agree with their length, within the
    receiver's limits; and no more than [depth] levels. *)
Fixpoint decoded_ok (o : DecodingOptions) (depth : nat) (v : Variant) : Prop :=
  let nested := match depth with O => fun _ => False | S d => decoded_ok o d end in
  match v with VArray a => array_decoded o depth nested a | _ => scalar_decoded o depth nested v end.

Lemma picos_idem {V} (t : option V) p : picos t (picos t p) = picos t p.
Proof. by destruct t. Qed.
Lemma picos_opt_ok {V} (P : Z -> Prop) (t : option V) p : opt_ok P p -> opt_ok P (picos t p).
Proof. by destruct t. Qed.
Lemma yields_picos : yields (fun p => p <= 9999) read_picos.
Proof. apply yields_then. intros p. cbn. lia. Qed.

Section nested.
Context (o : DecodingOptions) (depth : nat) (nested_ok : Variant -> Prop) (nested : option (parser Variant)).
Hypothesis Hnested : forall p, nested = Some p -> depth <> O /\ yields nested_ok p.

Lemma value_yields m : yields (scalar_decoded o depth nested_ok) (decode_variant_value o depth nested m).
Proof.
  unfold decode_variant_value. destruct (m =? 0); [done|]. destruct (find _ _) as [[]|]; try done;
    try (by apply yields_then);
    try (eapply yields_bind; [apply yields_string|]; intros s Hs; exact Hs);
    try (eapply yields_bind; [apply yields_byte_string|]; intros s Hs; exact Hs);
    try (eapply yields_bind; [apply yields_diag|]; intros s Hs; exact Hs).
  - eapply yields_bind; [|intros d Hd; exact Hd]. unfold dv_decode. destruct nested as [p|]; [|done].
    destruct (Hnested p eq_refl) as [Hdepth Hp]. apply yields_then. intros f.
    eapply yields_bind; [by apply yields_opt, Hp|]. intros v Hv. do 2 (apply yields_then; intros ?).
    eapply yields_bind; [apply yields_opt, yields_picos|]. intros sp Hsp. apply yields_then; intros ?.
    eapply yields_bind; [apply yields_opt, yields_picos|]. intros vp Hvp. cbn [yields scalar_decoded dv_value source_timestamp
      source_picoseconds server_timestamp server_picoseconds].
    rewrite !picos_idem. repeat split; auto using picos_opt_ok.
  - destruct nested as [p|]; [|done]. destruct (Hnested p eq_refl) as [_ Hp]. by eapply yields_bind; [exact Hp|].
Qed.

Lemma array_result_yields r : (forall a, r = Ok a -> array_decoded o depth nested_ok a) ->
  yields (fun v => exists a, v = VArray a /\ array_decoded o depth nested_ok a) (array_result r).
Proof. destruct r as [a|e]; cbn; eauto. Qed.
Lemma array_new_multi_ok t vs dims a : array_new_multi t vs dims = Ok a ->
  a = mkArray t vs (Some dims) /\ values_are_of_type vs t = true /\ is_valid_dimensions a = true.
Proof.
  unfold array_new_multi, validate_array_type_to_values. destruct (validate_dimensions _ _) eqn:Hd; [|done]. cbn [negb].
  destruct (values_are_of_type vs t) eqn:Ht; [|done]. by intros [= <-].
Qed.

Lemma body_yields :
  yields (fun v => scalar_decoded o depth nested_ok v \/ exists a, v = VArray a /\ array_decoded o depth nested_ok a)
    (variant_decode_body o depth nested).
Proof.
  unfold variant_decode_body. apply yields_then. intros m. destruct (negb _).
  - set (el := if _ : bool then 15 else _).
    enough (yields (fun v => exists a, v = VArray a /\ array_decoded o depth nested_ok a)
      (let% n := read_i32 in if n <? -1 then PFail BadDecodingError
       else if n <=? 0 then let% t := element_type el in array_result (array_new_multi t [] [])
       else if max_array_length o <? n then PFail BadEncodingLimitsExceeded
       else let% vs := read_n (Z.to_nat n) (decode_variant_value o depth nested el) in
            let% t := element_type el in
            if negb (Z.land m ARRAY_DIMENSIONS_BIT =? 0) then decode_dimensions o t vs else array_result (array_new t vs))) as Hok.
    { eapply yields_mono; [exact Hok|]. intros v Hv. by right. }
    apply yields_then. intros n. destruct (Z.ltb_spec n (-1)); [done|]. destruct (Z.leb_spec n 0).
    + apply yields_then. intros t. apply array_result_yields. intros a Ha.
      destruct (array_new_multi_ok _ _ _ _ Ha) as (-> & Ht & Hd). split; [done|]. split; [done|]. split; [change (zlen _) with 0; lia|constructor].
    + destruct (Z.ltb_spec (max_array_length o) n); [done|].
      eapply yields_bind; [apply yields_n, value_yields|]. intros vs [Hvs Hlen]. apply yields_then. intros t.
      assert (zlen vs <= Z.max 0 (max_array_length o)) by (unfold zlen; lia). destruct (negb _).
      * unfold decode_dimensions. apply yields_then. intros [dims|]; [|done]. destruct (existsb _ _); [done|].
        destruct (dimensions_length _ _); [|done]. destruct (negb _); [done|]. apply array_result_yields. intros a Ha.
        destruct (array_new_multi_ok _ _ _ _ Ha) as (-> & Ht & Hd). done.
      * apply array_result_yields. unfold array_new, validate_array_type_to_values.
        destruct (values_are_of_type vs t) eqn:Ht; [|done]. intros a [= <-]. done.
  - destruct (negb _); [done|]. eapply yields_mono; [apply value_yields|]. intros v Hv. by left.
Qed.
End nested.

Lemma variant_yields o depth : yields (decoded_ok o depth) (variant_decode o depth).
Proof.
  induction depth as [|depth IH]; cbn [variant_decode]; (eapply yields_mono; [apply body_yields; intros p Hp|]).
  - done.
  - intros v [Hv|(a & -> & Ha)]; [destruct v; done|done].
  - injection Hp as <-. split; [done|exact IH].
  - intros v [Hv|(a & -> & Ha)]; [destruct v; done|done].
Qed.
End decoded.

(** ** Properties *)

Section properties.
Context {D : DynEncodable} {C : Context} {L : ContextLaws C}.

(** C11: the binary encoding of a variant that satisfies [variant_ok] is exactly as long as announced,
    and decoding it, whatever follows it, gives the variant back and leaves what follows; variants
    nested through variants, data values, diagnostics and extension objects included, up to the depth of
    the gauge.  [variant_ok] asks, at every level, that numbers fit their types and strings, byte strings
    and arrays the receiver's limits; that an array has at least one element, elements of its own type
    and, if any, positive dimensions that multiply to their number (an array without elements does not
    come back the same, see [empty_array_reencoded]); that times are on a tick between 1601 and 9999
    and read without a clock offset; that picoseconds are at most 9999 and come with their timestamp;
    that a localized text has no empty part in place of a null one; that a floating-point number is one
    of its format; and that the body of an extension object is one the receiver's loaders recover (laws
    in [ContextLaws]), not empty and within the limit on messages. *)
Theorem variant_round_trip o depth v (Hv : variant_ok o depth v) :
  exists bs, variant_encode v = Ok bs /\ zlen (concat bs) = variant_byte_len v
    /\ forall rest, run (variant_decode o depth) (concat bs ++ rest) = Ok (v, rest).
Proof. exact (all_encode o depth v Hv). Qed.

(** C12: a variant decoded from any bytes at all is well typed at every level: the elements of an
    array have its type and its dimensions agree with their number, no string, byte string or array exceeds
    the receiver's limits, picoseconds are at most 9999 and only with their timestamp, and nesting
    stops at the depth of the gauge. *)
Theorem decoded_variant_safe o depth bs v rest (Hrun : run (variant_decode o depth) bs = Ok (v, rest)) :
  decoded_ok o depth v.
Proof. exact (yields_run _ _ _ _ _ (variant_yields o depth) Hrun). Qed.

Lemma decoded_well_typed o depth v : decoded_ok o depth v -> well_typed v.
Proof. destruct depth, v; cbn; try done; by intros [Ht _]. Qed.

(** Reading any index range of a variant that came from the network never panics, and what it
    returns has the scalar type of the variant received. *)
Theorem received_range_safe o depth bs v rest r (Hrun : run (variant_decode o depth) bs = Ok (v, rest)) :
  exists res, range_of v r = Ret res
    /\ forall v', res = Ok v' -> well_typed v' /\ scalar_type_id v' = scalar_type_id v.
Proof.
  apply range_of_typed. eapply decoded_well_typed. exact (yields_run _ _ _ _ _ (variant_yields o depth) Hrun).
Qed.

(** An array without elements is decoded as one with an empty list of dimensions; that list is
    written when the array is encoded again, and the next decoder does not read it: four bytes too
    many are left, and everything after the variant is misread. *)
Theorem empty_array_reencoded t o depth rest :
  let sent := VArray (mkArray t [] None) in
  let received := VArray (mkArray t [] (Some [])) in
  (exists bs, variant_encode sent = Ok bs /\ run (variant_decode o depth) (concat bs ++ rest) = Ok (received, rest))
  /\ exists bs, variant_encode received = Ok bs
       /\ run (variant_decode o depth) (concat bs ++ rest) = Ok (received, [0; 0; 0; 0] ++ rest).
Proof.
  intros sent received. rewrite !variant_decode_eq. split; eexists (_ :: _); (split; [reflexivity|]);
    destruct t; reflexivity.
Qed.

(** With [max_message_size] zero, which means no limit, no body of an extension object is accepted. *)
Lemma no_limit_rejects_bodies size : 0 < size -> validate_body_size size 0 = Err BadDecodingError.
Proof. intros Hs. unfold validate_body_size. by repeat decide_test. Qed.
(** A refused lock: at depth zero nothing nested is decoded. *)
Lemma depth_exhausted o bs : run (variant_decode o 0) (24 :: bs) = Err BadDecodingError.
Proof. done. Qed.
End properties.

(** *** Concrete inputs *)

Definition sample_body : raw_body := ByteStringBody [1; 2; 3] {| namespace := 2; identifier := IdNumeric 300 |}.
Definition sample_variant : Variant :=
  VDataValue (mkDataValue (Some (VArray (mkArray TVariant
    [VVariant (VExtensionObject (Some sample_body : option dyn)); VVariant (VString (Some (str "abc")));
     VVariant (VDouble (f64_make 3 (-1))); VVariant VEmpty] (Some [2; 2]))))
    (Some Good) (Some 0) (Some 5) None None).

Lemma variant_round_trip_witness :
  variant_ok default_options 4 sample_variant
  /\ exists bs, variant_encode sample_variant = Ok bs /\ zlen (concat bs) = variant_byte_len sample_variant
    /\ forall rest, run (variant_decode default_options 4) (concat bs ++ rest) = Ok (sample_variant, rest).
Proof.
  assert (variant_ok default_options 4 sample_variant) as Hok.
  { assert (f64_ok (f64_make 3 (-1))) by by right; vm_compute.
    repeat (assumption || split || constructor); try done; by vm_compute. }
  split; [exact Hok|exact (variant_round_trip default_options 4 sample_variant Hok)].
Defined.

Lemma decoded_variant_safe_witness :
  run (variant_decode default_options 1) [0x86; 2; 0; 0; 0; 7; 0; 0; 0; 8; 0; 0; 0; 9]
    = Ok (VArray (mkArray TInt32 [VInt32 7; VInt32 8] None), [9])
  /\ decoded_ok default_options 1 (VArray (mkArray TInt32 [VInt32 7; VInt32 8] None)).
Proof.
  assert (run (variant_decode default_options 1) [0x86; 2; 0; 0; 0; 7; 0; 0; 0; 8; 0; 0; 0; 9]
    = Ok (VArray (mkArray TInt32 [VInt32 7; VInt32 8] None), [9])) as Hrun by (vm_compute; reflexivity).
  split; [exact Hrun|exact (decoded_variant_safe default_options 1 _ _ _ Hrun)].
Defined.
Lemma received_range_safe_witness :
  exists v, run (variant_decode default_options 1) [0x86; 2; 0; 0; 0; 7; 0; 0; 0; 8; 0; 0; 0; 9] = Ok (v, [9])
  /\ exists res, range_of v (NRRange 0 1) = Ret res
    /\ forall v', res = Ok v' -> well_typed v' /\ scalar_type_id v' = scalar_type_id v.
Proof.
  exists (VArray (mkArray TInt32 [VInt32 7; VInt32 8] None)).
  assert (run (variant_decode default_options 1) [0x86; 2; 0; 0; 0; 7; 0; 0; 0; 8; 0; 0; 0; 9]
    = Ok (VArray (mkArray TInt32 [VInt32 7; VInt32 8] None), [9])) as Hrun by (vm_compute; reflexivity).
  split; [exact Hrun|exact (received_range_safe default_options 1 _ _ _ (NRRange 0 1) Hrun)].
Defined.
