(* ===== verification/Crypto.v ===== *)
(** * Security policies

    [SecurityPolicy] of async-opcua-crypto/src/security_policy.rs with the policy constants of
    policy/mod.rs and policy/aes.rs, and the symmetric operations of hash.rs and aes/aeskey.rs.  The
    cryptographic libraries (HMAC, AES) are the parameter class [CryptoLib]; [SymmetricLaws] states
    what the secure channel relies on. *)

From S2P Require Import Prelude Text StatusCode Wire.

(** Cargo features of the crate. *)
Class Features := { legacy_crypto : bool; ecc : bool }.

Inductive DigestAlg : Set := Sha1 | Sha256 | Sha384.

(** The HMAC and AES implementations the crate links.  [aes_ctr] fails when the key, vector or
    output has the wrong length. *)
Class CryptoLib := {
  hmac : DigestAlg -> bytes -> bytes -> bytes;
  aes_cbc_encrypt : bytes -> bytes -> bytes -> bytes;
  aes_cbc_decrypt : bytes -> bytes -> bytes -> bytes;
  aes_ctr : bytes -> bytes -> bytes -> Z -> option bytes
}.

Inductive SecurityPolicy : Set :=
| PolicyUnknown | PolicyNone | Aes128Sha256RsaOaep | Basic256Sha256 | Aes256Sha256RsaPss
| PubSubAes128Ctr | PubSubAes256Ctr | Basic128Rsa15 | Basic256 | EccNistP256 | EccNistP384.
#[export] Instance SecurityPolicy_eq_dec : EqDecision SecurityPolicy.
Proof. solve_decision. Defined.

Inductive SymmetricEncryption : Set := Aes128Cbc | Aes256Cbc | Aes128Ctr | Aes256Ctr.
Inductive AsymmetricSignature : Set := DsigRsaSha1 | DsigRsaSha256 | DsigRsaPssSha256.
Inductive AsymmetricEncryption : Set := Pkcs1v15 | OaepSha1 | OaepSha256.

(** The associated constants and types of the trait [AesSecurityPolicy]. *)
Record AesSecurityPolicy := {
  SECURITY_POLICY_URI : rstr;
  NONCE_LENGTH : Z;
  DERIVED_SIGNATURE_KEY_LENGTH : Z;
  ASYMMETRIC_KEY_LENGTH : Z * Z;
  symmetric_signature : DigestAlg;
  asymmetric_signature : AsymmetricSignature;
  symmetric_encryption : SymmetricEncryption;
  asymmetric_encryption : AsymmetricEncryption
}.

Definition digest_size (a : DigestAlg) : Z := match a with Sha1 => 20 | Sha256 => 32 | Sha384 => 48 end.
Definition key_length (e : SymmetricEncryption) : Z :=
  match e with Aes128Cbc | Aes128Ctr => 16 | Aes256Cbc | Aes256Ctr => 32 end.
Definition block_size (e : SymmetricEncryption) : Z := 16.
Definition get_plaintext_block_size (e : AsymmetricEncryption) (key_size : Z) : Z :=
  wrap_usize (key_size - match e with Pkcs1v15 => 11 | OaepSha1 => 42 | OaepSha256 => 66 end).

Definition aes128_sha256_rsa_oaep : AesSecurityPolicy :=
  {| SECURITY_POLICY_URI := str "http://opcfoundation.org/UA/SecurityPolicy#Aes128_Sha256_RsaOaep";
     NONCE_LENGTH := 32; DERIVED_SIGNATURE_KEY_LENGTH := 32; ASYMMETRIC_KEY_LENGTH := (2048, 4096);
     symmetric_signature := Sha256; asymmetric_signature := DsigRsaSha256;
     symmetric_encryption := Aes128Cbc; asymmetric_encryption := OaepSha1 |}.
Definition aes256_sha256_rsa_pss : AesSecurityPolicy :=
  {| SECURITY_POLICY_URI := str "http://opcfoundation.org/UA/SecurityPolicy#Aes256_Sha256_RsaPss";
     NONCE_LENGTH := 32; DERIVED_SIGNATURE_KEY_LENGTH := 32; ASYMMETRIC_KEY_LENGTH := (2048, 4096);
     symmetric_signature := Sha256; asymmetric_signature := DsigRsaPssSha256;
     symmetric_encryption := Aes256Cbc; asymmetric_encryption := OaepSha256 |}.
Definition pubsub_aes128_ctr : AesSecurityPolicy :=
  {| SECURITY_POLICY_URI := str "http://opcfoundation.org/UA/SecurityPolicy#PubSub-Aes128-CTR";
     NONCE_LENGTH := 32; DERIVED_SIGNATURE_KEY_LENGTH := 32; ASYMMETRIC_KEY_LENGTH := (2048, 4096);
     symmetric_signature := Sha256; asymmetric_signature := DsigRsaSha256;
     symmetric_encryption := Aes128Ctr; asymmetric_encryption := OaepSha1 |}.
Definition pubsub_aes256_ctr : AesSecurityPolicy :=
  {| SECURITY_POLICY_URI := str "http://opcfoundation.org/UA/SecurityPolicy#PubSub-Aes256-CTR";
     NONCE_LENGTH := 32; DERIVED_SIGNATURE_KEY_LENGTH := 32; ASYMMETRIC_KEY_LENGTH := (2048, 4096);
     symmetric_signature := Sha256; asymmetric_signature := DsigRsaSha256;
     symmetric_encryption := Aes256Ctr; asymmetric_encryption := OaepSha1 |}.
Definition basic256_sha256 : AesSecurityPolicy :=
  {| SECURITY_POLICY_URI := str "http://opcfoundation.org/UA/SecurityPolicy#Basic256Sha256";
     NONCE_LENGTH := 32; DERIVED_SIGNATURE_KEY_LENGTH := 32; ASYMMETRIC_KEY_LENGTH := (2048, 4096);
     symmetric_signature := Sha256; asymmetric_signature := DsigRsaSha256;
     symmetric_encryption := Aes256Cbc; asymmetric_encryption := OaepSha1 |}.
Definition ecc_nist_p256_symmetric : AesSecurityPolicy :=
  {| SECURITY_POLICY_URI := str "http://opcfoundation.org/UA/SecurityPolicy#ECC_nistP256";
     NONCE_LENGTH := 64; DERIVED_SIGNATURE_KEY_LENGTH := 32; ASYMMETRIC_KEY_LENGTH := (256, 256);
     symmetric_signature := Sha256; asymmetric_signature := DsigRsaSha256;
     symmetric_encryption := Aes128Cbc; asymmetric_encryption := OaepSha1 |}.
Definition ecc_nist_p384_symmetric : AesSecurityPolicy :=
  {| SECURITY_POLICY_URI := str "http://opcfoundation.org/UA/SecurityPolicy#ECC_nistP384";
     NONCE_LENGTH := 96; DERIVED_SIGNATURE_KEY_LENGTH := 48; ASYMMETRIC_KEY_LENGTH := (384, 384);
     symmetric_signature := Sha384; asymmetric_signature := DsigRsaPssSha256;
     symmetric_encryption := Aes256Cbc; asymmetric_encryption := OaepSha256 |}.
Definition basic128_rsa15 : AesSecurityPolicy :=
  {| SECURITY_POLICY_URI := str "http://opcfoundation.org/UA/SecurityPolicy#Basic128Rsa15";
     NONCE_LENGTH := 16; DERIVED_SIGNATURE_KEY_LENGTH := 16; ASYMMETRIC_KEY_LENGTH := (1024, 2048);
     symmetric_signature := Sha1; asymmetric_signature := DsigRsaSha1;
     symmetric_encryption := Aes128Cbc; asymmetric_encryption := Pkcs1v15 |}.
Definition basic256 : AesSecurityPolicy :=
  {| SECURITY_POLICY_URI := str "http://opcfoundation.org/UA/SecurityPolicy#Basic256";
     NONCE_LENGTH := 32; DERIVED_SIGNATURE_KEY_LENGTH := 24; ASYMMETRIC_KEY_LENGTH := (1024, 2048);
     symmetric_signature := Sha1; asymmetric_signature := DsigRsaSha1;
     symmetric_encryption := Aes256Cbc; asymmetric_encryption := OaepSha1 |}.

Definition SECURITY_POLICY_NONE_URI : rstr := str "http://opcfoundation.org/UA/SecurityPolicy#None".
Definition SECURITY_POLICY_BASIC_128_RSA_15_URI : rstr := str "http://opcfoundation.org/UA/SecurityPolicy#Basic128Rsa15".
Definition SECURITY_POLICY_BASIC_256_URI : rstr := str "http://opcfoundation.org/UA/SecurityPolicy#Basic256".
Definition SECURITY_POLICY_ECC_NIST_P256_URI : rstr := str "http://opcfoundation.org/UA/SecurityPolicy#ECC_nistP256".
Definition SECURITY_POLICY_ECC_NIST_P384_URI : rstr := str "http://opcfoundation.org/UA/SecurityPolicy#ECC_nistP384".

(** The implementations of the trait [SecurityPolicyImpl]. *)
Inductive PolicyImpl := NonePolicy | AesPolicy (p : AesSecurityPolicy).

(** [PaddingInfo]. *)
Record PaddingInfo := { padding_block_size : Z; padding_minimum : Z }.
Definition minimum_padding (size : Z) : Z := if size <=? 256 then 1 else 2.

Section policy.
Context {FT : Features}.

(** The macro [call_with_policy!]. *)
Definition call_with_policy {A} (p : SecurityPolicy) (k : PolicyImpl -> A) : outcome A :=
  match p with
  | PolicyNone => Ret (k NonePolicy)
  | Aes128Sha256RsaOaep => Ret (k (AesPolicy aes128_sha256_rsa_oaep))
  | Basic256Sha256 => Ret (k (AesPolicy basic256_sha256))
  | Aes256Sha256RsaPss => Ret (k (AesPolicy aes256_sha256_rsa_pss))
  | PubSubAes128Ctr => Ret (k (AesPolicy pubsub_aes128_ctr))
  | PubSubAes256Ctr => Ret (k (AesPolicy pubsub_aes256_ctr))
  | Basic128Rsa15 => if legacy_crypto then Ret (k (AesPolicy basic128_rsa15)) else Panic
  | Basic256 => if legacy_crypto then Ret (k (AesPolicy basic256)) else Panic
  | EccNistP256 | EccNistP384 | PolicyUnknown => Panic
  end.

Definition to_uri (p : SecurityPolicy) : outcome rstr :=
  match p with
  | Basic128Rsa15 => Ret SECURITY_POLICY_BASIC_128_RSA_15_URI
  | Basic256 => Ret SECURITY_POLICY_BASIC_256_URI
  | EccNistP256 => Ret SECURITY_POLICY_ECC_NIST_P256_URI
  | EccNistP384 => Ret SECURITY_POLICY_ECC_NIST_P384_URI
  | _ => call_with_policy p (fun i =>
           match i with NonePolicy => SECURITY_POLICY_NONE_URI | AesPolicy c => SECURITY_POLICY_URI c end)
  end.

Definition is_supported (p : SecurityPolicy) : bool :=
  match p with
  | PolicyNone | Basic256Sha256 | Aes128Sha256RsaOaep | Aes256Sha256RsaPss
  | PubSubAes128Ctr | PubSubAes256Ctr => true
  | Basic128Rsa15 | Basic256 => legacy_crypto
  | EccNistP256 | EccNistP384 => ecc
  | PolicyUnknown => false
  end.
Definition is_deprecated (p : SecurityPolicy) : bool :=
  match p with Basic128Rsa15 | Basic256 => true | _ => false end.
Definition is_ecc (p : SecurityPolicy) : bool :=
  match p with EccNistP256 | EccNistP384 => true | _ => false end.

Definition plain_block_size (p : SecurityPolicy) : outcome Z :=
  match p with
  | EccNistP256 | EccNistP384 => Ret 16
  | _ => call_with_policy p (fun i =>
           match i with NonePolicy => 1 | AesPolicy c => block_size (symmetric_encryption c) end)
  end.
Definition symmetric_signature_size (p : SecurityPolicy) : outcome Z :=
  match p with
  | EccNistP256 => Ret 32
  | EccNistP384 => Ret 48
  | _ => call_with_policy p (fun i =>
           match i with NonePolicy => 0 | AesPolicy c => digest_size (symmetric_signature c) end)
  end.
Definition asymmetric_signature_size (p : SecurityPolicy) (key_size : Z) : Z :=
  match p with EccNistP256 => 64 | EccNistP384 => 96 | _ => key_size end.
Definition is_valid_keylength (p : SecurityPolicy) (keylength : Z) : outcome bool :=
  match p with
  | EccNistP256 => Ret (keylength =? 256)
  | EccNistP384 => Ret (keylength =? 384)
  | _ => call_with_policy p (fun i =>
           match i with
           | NonePolicy => true
           | AesPolicy c =>
               let '(min, max) := ASYMMETRIC_KEY_LENGTH c in (min <=? keylength) && (keylength <=? max)
           end)
  end.
Definition secure_channel_nonce_length (p : SecurityPolicy) : outcome Z :=
  match p with
  | PolicyUnknown => Ret 32
  | EccNistP256 => Ret 64
  | EccNistP384 => Ret 96
  | _ => call_with_policy p (fun i => match i with NonePolicy => 32 | AesPolicy c => NONCE_LENGTH c end)
  end.
Definition legacy_sequence_numbers (p : SecurityPolicy) : outcome bool :=
  match p with
  | EccNistP256 | EccNistP384 => Ret false
  | _ => call_with_policy p (fun _ => true)
  end.
Definition encrypting_key_length (p : SecurityPolicy) : outcome Z :=
  match p with
  | EccNistP256 => Ret 16
  | EccNistP384 => Ret 32
  | _ => call_with_policy p (fun i =>
           match i with NonePolicy => 0 | AesPolicy c => key_length (symmetric_encryption c) end)
  end.

Definition symmetric_padding_info (p : SecurityPolicy) : outcome PaddingInfo :=
  match p with
  | EccNistP256 | EccNistP384 => Ret {| padding_block_size := 16; padding_minimum := 1 |}
  | _ => call_with_policy p (fun i =>
           match i with
           | NonePolicy => {| padding_block_size := 0; padding_minimum := 0 |}
           | AesPolicy c =>
               {| padding_block_size := block_size (symmetric_encryption c);
                  padding_minimum := minimum_padding (digest_size (symmetric_signature c)) |}
           end)
  end.
(** [key_size]: [key.size()]. *)
Definition calculate_cipher_text_size (p : SecurityPolicy) (plain_text_size key_size : Z) : outcome Z :=
  match p with
  | EccNistP256 | EccNistP384 => Ret 0
  | _ =>
      let! m := call_with_policy p (fun i =>
        match i with
        | NonePolicy => Panic
        | AesPolicy c =>
            let block := get_plaintext_block_size (asymmetric_encryption c) key_size in
            if block =? 0 then Panic
            else Ret ((if plain_text_size mod block =? 0 then plain_text_size / block
                       else plain_text_size / block + 1) * key_size)
        end) in m
  end.
Definition asymmetric_padding_info (p : SecurityPolicy) (remote_key_size : Z) : outcome PaddingInfo :=
  match p with
  | EccNistP256 | EccNistP384 => Ret {| padding_block_size := 0; padding_minimum := 0 |}
  | _ => call_with_policy p (fun i =>
           match i with
           | NonePolicy => {| padding_block_size := 0; padding_minimum := 0 |}
           | AesPolicy c =>
               {| padding_block_size := get_plaintext_block_size (asymmetric_encryption c) remote_key_size;
                  padding_minimum := minimum_padding remote_key_size |}
           end)
  end.

Definition from_uri (uri : rstr) : SecurityPolicy :=
  if bool_decide (uri = SECURITY_POLICY_NONE_URI) then PolicyNone
  else if bool_decide (uri = SECURITY_POLICY_BASIC_128_RSA_15_URI) then Basic128Rsa15
  else if bool_decide (uri = SECURITY_POLICY_BASIC_256_URI) then Basic256
  else if bool_decide (uri = SECURITY_POLICY_ECC_NIST_P256_URI) then EccNistP256
  else if bool_decide (uri = SECURITY_POLICY_ECC_NIST_P384_URI) then EccNistP384
  else if bool_decide (uri = SECURITY_POLICY_URI basic256_sha256) then Basic256Sha256
  else if bool_decide (uri = SECURITY_POLICY_URI aes128_sha256_rsa_oaep) then Aes128Sha256RsaOaep
  else if bool_decide (uri = SECURITY_POLICY_URI aes256_sha256_rsa_pss) then Aes256Sha256RsaPss
  else if bool_decide (uri = SECURITY_POLICY_URI pubsub_aes128_ctr) then PubSubAes128Ctr
  else if bool_decide (uri = SECURITY_POLICY_URI pubsub_aes256_ctr) then PubSubAes256Ctr
  else PolicyUnknown.
End policy.

(** ** Symmetric signing and encryption *)

(** The keys derived for one direction of a channel. *)
Record AesDerivedKeys := { signing_key : bytes; encryption_key : bytes; initialization_vector : bytes }.

Section symmetric.
Context {FT : Features} {CL : CryptoLib}.

(** [hmac_sha1], [hmac_sha256], [hmac_sha384]: the signature written to a buffer of the given length. *)
Definition hmac_sign (a : DigestAlg) (key data : bytes) (signature_len : Z) : result bytes StatusCode :=
  if signature_len =? digest_size a then Ok (hmac a key data) else Err BadInvalidArgument.
Definition verify_hmac (a : DigestAlg) (key data signature : bytes) : bool :=
  (zlen signature =? digest_size a) && bool_decide (hmac a key data = signature).

(** [validate_args] of the encryption algorithms, for a destination of [dst_len] bytes. *)
Definition validate_args (e : SymmetricEncryption) (src iv : bytes) (dst_len : Z) : result unit StatusCode :=
  match e with
  | Aes128Cbc | Aes256Cbc =>
      if dst_len <? zlen src + block_size e then Err BadUnexpectedError
      else if negb (zlen iv =? block_size e) then Err BadUnexpectedError
      else if negb (zlen src mod block_size e =? 0) then Err BadUnexpectedError
      else Ok tt
  | Aes128Ctr | Aes256Ctr =>
      if negb (zlen iv =? 16) then Err BadUnexpectedError
      else if dst_len <? zlen src then Err BadUnexpectedError
      else Ok tt
  end.

(** The functions of [AesKey]: a key of the wrong length panics in [from_slice]. *)
Definition run_cipher (encrypting : bool) (e : SymmetricEncryption) (key iv src : bytes) (dst_len : Z)
    : outcome (result bytes StatusCode) :=
  match e with
  | Aes128Cbc | Aes256Cbc =>
      if zlen key =? key_length e
      then Ret (Ok (if encrypting then aes_cbc_encrypt key iv src else aes_cbc_decrypt key iv src))
      else Panic
  | Aes128Ctr | Aes256Ctr => Ret (ok_or (aes_ctr key iv src dst_len) BadUnexpectedError)
  end.

(** [symmetric_encrypt] and [symmetric_decrypt] of [AesPolicy]: the bytes written to [dst]. *)
Definition aes_crypt (encrypting : bool) (c : AesSecurityPolicy) (keys : AesDerivedKeys) (src : bytes)
    (dst_len : Z) : outcome (result bytes StatusCode) :=
  let e := symmetric_encryption c in
  let^ _ := Ret (validate_args e src (initialization_vector keys) dst_len) in
  run_cipher encrypting e (encryption_key keys) (initialization_vector keys) src dst_len.

(** The dispatch on the policy shared by the four symmetric operations. *)
Definition call_with_symmetric {A} (p : SecurityPolicy)
    (k : PolicyImpl -> outcome (result A StatusCode)) : outcome (result A StatusCode) :=
  match p with
  | EccNistP256 => if ecc then k (AesPolicy ecc_nist_p256_symmetric) else Ret (Err BadNotImplemented)
  | EccNistP384 => if ecc then k (AesPolicy ecc_nist_p384_symmetric) else Ret (Err BadNotImplemented)
  | _ => let! m := call_with_policy p k in m
  end.

Definition BadInternalError : StatusCode := 0x80020000.

Definition symmetric_sign (p : SecurityPolicy) (keys : AesDerivedKeys) (data : bytes) (signature_len : Z)
    : outcome (result bytes StatusCode) :=
  call_with_symmetric p (fun i => Ret
    match i with
    | NonePolicy => Err BadInternalError
    | AesPolicy c => hmac_sign (symmetric_signature c) (signing_key keys) data signature_len
    end).
Definition symmetric_verify_signature (p : SecurityPolicy) (keys : AesDerivedKeys) (data signature : bytes)
    : outcome (result unit StatusCode) :=
  call_with_symmetric p (fun i => Ret
    match i with
    | NonePolicy => Err BadInternalError
    | AesPolicy c =>
        if verify_hmac (symmetric_signature c) (signing_key keys) data signature then Ok tt
        else Err BadSecurityChecksFailed
    end).
Definition symmetric_encrypt (p : SecurityPolicy) (keys : AesDerivedKeys) (src : bytes) (dst_len : Z)
    : outcome (result bytes StatusCode) :=
  call_with_symmetric p (fun i =>
    match i with NonePolicy => Ret (Err BadInternalError) | AesPolicy c => aes_crypt true c keys src dst_len end).
Definition symmetric_decrypt (p : SecurityPolicy) (keys : AesDerivedKeys) (src : bytes) (dst_len : Z)
    : outcome (result bytes StatusCode) :=
  call_with_symmetric p (fun i =>
    match i with NonePolicy => Ret (Err BadInternalError) | AesPolicy c => aes_crypt false c keys src dst_len end).
End symmetric.

(** What the channel relies on: HMAC has the size of its digest, and CBC decryption undoes encryption
    on whole blocks, keeping the length. *)
Class SymmetricLaws (CL : CryptoLib) : Prop := {
  hmac_size a key data : zlen (hmac a key data) = digest_size a;
  cbc_size key iv src : zlen (aes_cbc_encrypt key iv src) = zlen src;
  cbc_inverse key iv src :
    zlen src mod 16 = 0 -> zlen iv = 16 -> aes_cbc_decrypt key iv (aes_cbc_encrypt key iv src) = src
}.

(** ** Lemmas *)

(** The policies of an encrypting secure channel. *)
Definition channel_policy (p : SecurityPolicy) : bool :=
  match p with
  | Aes128Sha256RsaOaep | Basic256Sha256 | Aes256Sha256RsaPss | Basic128Rsa15 | Basic256
  | EccNistP256 | EccNistP384 => true
  | _ => false
  end.

(** The symmetric algorithms of a channel policy. *)
Definition symmetric_policy (p : SecurityPolicy) : AesSecurityPolicy :=
  match p with
  | Aes128Sha256RsaOaep => aes128_sha256_rsa_oaep
  | Basic256Sha256 => basic256_sha256
  | Aes256Sha256RsaPss => aes256_sha256_rsa_pss
  | PubSubAes128Ctr => pubsub_aes128_ctr
  | PubSubAes256Ctr => pubsub_aes256_ctr
  | Basic128Rsa15 => basic128_rsa15
  | EccNistP256 => ecc_nist_p256_symmetric
  | EccNistP384 => ecc_nist_p384_symmetric
  | _ => basic256
  end.

Section lemmas.
Context {FT : Features} {CL : CryptoLib}.

Lemma policy_dispatch {A} p (k : PolicyImpl -> outcome (result A StatusCode)) :
  channel_policy p = true -> is_supported p = true ->
  call_with_symmetric p k = k (AesPolicy (symmetric_policy p)).
Proof. destruct p; simpl; try done; unfold call_with_symmetric; simpl; intros _ ->; done. Qed.

(** The sizes the framing of chunks uses are those of the algorithms the channel runs. *)
Lemma policy_sizes p : channel_policy p = true -> is_supported p = true ->
  symmetric_signature_size p = Ret (digest_size (symmetric_signature (symmetric_policy p)))
  /\ symmetric_padding_info p = Ret {| padding_block_size := 16; padding_minimum := 1 |}
  /\ (exists n, encrypting_key_length p = Ret n /\ n <= 256)
  /\ (symmetric_encryption (symmetric_policy p) = Aes128Cbc \/ symmetric_encryption (symmetric_policy p) = Aes256Cbc).
Proof.
  destruct p; simpl; try done; intros _ H; rewrite ?H;
    (split; [done|split; [done|split; [by eexists|by auto]]]).
Qed.

Lemma from_uri_to_uri p uri : to_uri p = Ret uri -> from_uri uri = p.
Proof. destruct p; simpl; repeat case_match; intros [= <-]; vm_compute; done. Qed.
End lemmas.
