(* ===== verification/Chunk.v ===== *)
(** * Message chunks

    Chunk headers of async-opcua-core/src/comms/message_chunk.rs, the security and sequence headers
    of security_header.rs, and [ChunkInfo] of message_chunk_info.rs. *)

From S2P Require Import Prelude Text StatusCode NumericRange Variant Wire Crypto.

(** ** Headers *)

Inductive MessageChunkType : Set := CtMessage | CtOpenSecureChannel | CtCloseSecureChannel.
Inductive MessageIsFinalType : Set := Intermediate | Final | FinalError.
#[export] Instance MessageChunkType_eq_dec : EqDecision MessageChunkType.
Proof. solve_decision. Defined.
#[export] Instance MessageIsFinalType_eq_dec : EqDecision MessageIsFinalType.
Proof. solve_decision. Defined.

Record MessageChunkHeader := {
  message_type : MessageChunkType;
  is_final : MessageIsFinalType;
  message_size : Z;
  header_channel_id : Z
}.

Definition MESSAGE_CHUNK_HEADER_SIZE : Z := 3 + 1 + 4 + 4.
Definition MESSAGE_SIZE_OFFSET : Z := 3 + 1.
Definition MIN_CHUNK_SIZE : Z := 8192.

Definition CHUNK_MESSAGE : bytes := str "MSG".
Definition OPEN_SECURE_CHANNEL_MESSAGE : bytes := str "OPN".
Definition CLOSE_SECURE_CHANNEL_MESSAGE : bytes := str "CLO".
Definition CHUNK_FINAL : Z := 70.
Definition CHUNK_INTERMEDIATE : Z := 67.
Definition CHUNK_FINAL_ERROR : Z := 65.

Definition is_open_secure_channel (t : MessageChunkType) : bool := bool_decide (t = CtOpenSecureChannel).

Definition message_type_code (t : MessageChunkType) : bytes :=
  match t with
  | CtMessage => CHUNK_MESSAGE
  | CtOpenSecureChannel => OPEN_SECURE_CHANNEL_MESSAGE
  | CtCloseSecureChannel => CLOSE_SECURE_CHANNEL_MESSAGE
  end.
Definition is_final_code (f : MessageIsFinalType) : Z :=
  match f with Intermediate => CHUNK_INTERMEDIATE | Final => CHUNK_FINAL | FinalError => CHUNK_FINAL_ERROR end.

Definition message_type_of_code (code : bytes) : result MessageChunkType StatusCode :=
  if bool_decide (code = CHUNK_MESSAGE) then Ok CtMessage
  else if bool_decide (code = OPEN_SECURE_CHANNEL_MESSAGE) then Ok CtOpenSecureChannel
  else if bool_decide (code = CLOSE_SECURE_CHANNEL_MESSAGE) then Ok CtCloseSecureChannel
  else Err BadDecodingError.
Definition is_final_of_code (code : Z) : result MessageIsFinalType StatusCode :=
  if code =? CHUNK_FINAL then Ok Final
  else if code =? CHUNK_INTERMEDIATE then Ok Intermediate
  else if code =? CHUNK_FINAL_ERROR then Ok FinalError
  else Err BadDecodingError.

Definition chunk_header_encode (h : MessageChunkHeader) : list bytes :=
  [message_type_code (message_type h)] ++ write_u8 (is_final_code (is_final h))
  ++ write_u32 (message_size h) ++ write_u32 (header_channel_id h).

Definition chunk_header_decode : parser MessageChunkHeader :=
  let% message_type_code := read_exact 3 in
  let% mt := lift (message_type_of_code message_type_code) in
  let% chunk_type_code := read_u8 in
  let% fin := lift (is_final_of_code chunk_type_code) in
  let% size := read_u32 in
  let% id := read_u32 in
  PRet {| message_type := mt; is_final := fin; message_size := size; header_channel_id := id |}.

#[export] Instance MessageChunkHeader_encodable : BinaryEncodable MessageChunkHeader :=
  { byte_len _ := MESSAGE_CHUNK_HEADER_SIZE; encode := chunk_header_encode }.
#[export] Instance MessageChunkHeader_decodable : BinaryDecodable MessageChunkHeader :=
  { decode _ := chunk_header_decode }.

Record AsymmetricSecurityHeader := {
  security_policy_uri : UAString;
  sender_certificate : ByteString;
  receiver_certificate_thumbprint : ByteString
}.
Inductive SecurityHeader :=
| Asymmetric (h : AsymmetricSecurityHeader)
| Symmetric (token_id : Z).
Record SequenceHeader := { sequence_number : Z; request_id : Z }.

Definition SECURITY_POLICY_URI_MAX_LEN : Z := 255.
Definition MAX_CERTIFICATE_LENGTH : Z := 32767.
Definition THUMBPRINT_SIZE : Z := 20.

Definition decode_security_policy_uri (o : DecodingOptions) : parser UAString :=
  let% len := read_i32 in
  if len =? -1 then PRet None
  else if len <? -1 then PFail BadDecodingError
  else if SECURITY_POLICY_URI_MAX_LEN <? len then PFail BadEncodingLimitsExceeded
  else if max_string_length o <? len then PFail BadDecodingError
  else
    let% buf := read_exact len in
    match utf8_decode buf with Some t => PRet (Some t) | None => PFail BadDecodingError end.

Definition asymmetric_header_byte_len (h : AsymmetricSecurityHeader) : Z :=
  ua_string_encoded_len (security_policy_uri h) + byte_string_byte_len (sender_certificate h)
  + byte_string_byte_len (receiver_certificate_thumbprint h).
Definition asymmetric_header_encode (h : AsymmetricSecurityHeader) : list bytes :=
  ua_string_encode (security_policy_uri h) ++ byte_string_encode (sender_certificate h)
  ++ byte_string_encode (receiver_certificate_thumbprint h).
Definition asymmetric_header_decode (o : DecodingOptions) : parser AsymmetricSecurityHeader :=
  let% uri := decode_security_policy_uri o in
  let% cert := byte_string_decode o in
  let% thumbprint := byte_string_decode o in
  if match cert with Some v => MAX_CERTIFICATE_LENGTH <=? zlen v | None => false end
  then PFail BadEncodingLimitsExceeded
  else
    let thumbprint_len := match thumbprint with Some v => zlen v | None => 0 end in
    if (0 <? thumbprint_len) && negb (thumbprint_len =? THUMBPRINT_SIZE) then PFail BadDecodingError
    else PRet {| security_policy_uri := uri; sender_certificate := cert;
                 receiver_certificate_thumbprint := thumbprint |}.

Definition security_header_byte_len (h : SecurityHeader) : Z :=
  match h with Asymmetric h => asymmetric_header_byte_len h | Symmetric _ => 4 end.
Definition security_header_encode (h : SecurityHeader) : list bytes :=
  match h with Asymmetric h => asymmetric_header_encode h | Symmetric token_id => write_u32 token_id end.

Definition sequence_header_encode (h : SequenceHeader) : list bytes :=
  write_u32 (sequence_number h) ++ write_u32 (request_id h).
Definition sequence_header_decode : parser SequenceHeader :=
  let% n := read_u32 in
  let% id := read_u32 in
  PRet {| sequence_number := n; request_id := id |}.
#[export] Instance SequenceHeader_encodable : BinaryEncodable SequenceHeader :=
  { byte_len _ := 8; encode := sequence_header_encode }.
#[export] Instance SequenceHeader_decodable : BinaryDecodable SequenceHeader :=
  { decode _ := sequence_header_decode }.

(** A [MessageChunk] is its bytes; the memoized [cached_chunk_info] is recomputed. *)
Abbreviation MessageChunk := bytes.

(** [slice.get(a..b)]. *)
Definition slice (l : bytes) (a b : Z) : option bytes :=
  if (0 <=? a) && (a <=? b) && (b <=? zlen l) then Some (take (Z.to_nat (b - a)) (drop (Z.to_nat a) l)) else None.

Section headers.
Context {FT : Features}.

(** [decode_with_known_policy] on the bytes after the chunk header: the header and the unread bytes. *)
Definition decode_with_known_policy (o : DecodingOptions) (is_open : bool) (known : option SecurityPolicy)
    (bs : bytes) : outcome (result (SecurityHeader * bytes) StatusCode) :=
  if is_open then
    let^ (h, rest) := Ret (run (asymmetric_header_decode o) bs) in
    let uri := ua_as_ref (security_policy_uri h) in
    let! policy :=
      (match known with
       | Some k =>
           if bool_decide (uri = []) then Ret PolicyNone
           else let! known_uri := to_uri k in Ret (if bool_decide (uri = known_uri) then k else PolicyUnknown)
       | None => Ret (if bool_decide (uri = []) then PolicyNone else from_uri uri)
       end) in
    if bool_decide (policy = PolicyUnknown) then Ret (Err BadSecurityPolicyRejected)
    else Ret (Ok (Asymmetric h, rest))
  else
    let^ (token_id, rest) := Ret (run read_u32 bs) in
    Ret (Ok (Symmetric token_id, rest)).
End headers.

(** ** Lemmas *)

Definition is_header (h : MessageChunkHeader) : Prop := is_u32 (message_size h) /\ is_u32 (header_channel_id h).
Definition is_sequence_header (h : SequenceHeader) : Prop := is_u32 (sequence_number h) /\ is_u32 (request_id h).

Lemma chunk_header_len h : zlen (concat (chunk_header_encode h)) = MESSAGE_CHUNK_HEADER_SIZE.
Proof. destruct h as [[] [] ? ?]; done. Qed.

Lemma run_chunk_header {A} h (k : MessageChunkHeader -> parser A) rest : is_header h ->
  run (parser_bind chunk_header_decode k) (concat (chunk_header_encode h) ++ rest) = run (k h) rest.
Proof.
  intros [Hs Hc]. rewrite run_bind. unfold chunk_header_encode, write_u8, write_u32, chunk_header_decode.
  cbn [concat app]. rewrite app_nil_r, <- !app_assoc. destruct h as [mt fin size id].
  cbn [message_type is_final message_size header_channel_id] in *.
  rewrite run_exact by (by destruct mt).
  replace (message_type_of_code (message_type_code mt)) with (@Ok _ StatusCode mt) by (by destruct mt).
  cbn [lift parser_bind]. rewrite run_u8 by (by destruct fin).
  replace (is_final_of_code (is_final_code fin)) with (@Ok _ StatusCode fin) by (by destruct fin).
  cbn [lift parser_bind]. by rewrite !run_u32.
Qed.

Lemma sequence_header_len h : zlen (concat (sequence_header_encode h)) = 8.
Proof. done. Qed.
Lemma run_sequence_header {A} h (k : SequenceHeader -> parser A) rest : is_sequence_header h ->
  run (parser_bind sequence_header_decode k) (concat (sequence_header_encode h) ++ rest) = run (k h) rest.
Proof.
  intros [Hs Hc]. rewrite run_bind. unfold sequence_header_encode, write_u32, sequence_header_decode.
  cbn [concat app]. rewrite app_nil_r, <- !app_assoc. rewrite !run_u32 by done. by destruct h.
Qed.
