(* ===== verification/SecureChannel.v ===== *)
(** * Secure channels: framing of chunks

    [SecureChannel] of async-opcua-core/src/comms/secure_channel (mod.rs, state.rs): security
    headers, the sizes of signature and padding (framing.rs), padding and its check, symmetric
    signing and encryption (crypto.rs); and the parts of message_chunk.rs and message_chunk_info.rs
    that depend on the channel.  Certificates and key pairs are the parameter class [Pki].

    A function that writes to a buffer of the caller returns the bytes written, and takes the
    buffer's length. *)

From S2P Require Import Prelude Text StatusCode NumericRange Variant Wire Crypto Chunk.

(** The X.509 library and key pairs: DER form, public key, SHA-1 digest, sizes in bytes. *)
Class Pki := {
  X509 : Type;
  PublicKey : Type;
  PrivateKey : Type;
  to_der : X509 -> bytes;
  from_der : bytes -> option X509;
  public_key : X509 -> option PublicKey;
  sha1_digest : X509 -> bytes;
  public_key_size : PublicKey -> Z;
  private_key_size : PrivateKey -> Z
}.

Inductive MessageSecurityMode : Set := ModeInvalid | ModeNone | ModeSign | ModeSignAndEncrypt.
#[export] Instance MessageSecurityMode_eq_dec : EqDecision MessageSecurityMode.
Proof. solve_decision. Defined.
Inductive Role : Set := RoleUnknown | RoleClient | RoleServer.
#[export] Instance Role_eq_dec : EqDecision Role.
Proof. solve_decision. Defined.

(** [RemoteKeys]. *)
Record RemoteKeys := { keys : AesDerivedKeys; expires_at : Z }.

(** The fields of [SecureChannel] that framing uses; [decoding_options] are those of its encoding
    context. *)
Record SecureChannel `{Pki} := {
  role : Role;
  allow_deprecated : bool;
  security_policy : SecurityPolicy;
  security_policy_valid : bool;
  security_mode : MessageSecurityMode;
  secure_channel_id : Z;
  token_id : Z;
  cert : option X509;
  private_key : option PrivateKey;
  remote_cert : option X509;
  local_keys : option AesDerivedKeys;
  first_request_signature : bytes;
  apply_channel_thumbprint : bool;
  remote_keys : gmap Z RemoteKeys;
  peer_max_response_body_size : option Z;
  decoding_options : DecodingOptions
}.

Record ChunkInfo := {
  message_header : MessageChunkHeader;
  security_header : SecurityHeader;
  sequence_header : SequenceHeader;
  security_header_offset : Z;
  sequence_header_offset : Z;
  body_offset : Z;
  body_length : Z
}.

Section channel.
Context {FT : Features} {CL : CryptoLib} {PK : Pki}.

(** ** State *)

Definition is_client_role (sc : SecureChannel) : bool := bool_decide (role sc = RoleClient).
Definition known_policy (sc : SecureChannel) : option SecurityPolicy :=
  if security_policy_valid sc then Some (security_policy sc) else None.
(** The policies [set_security_policy] marks as valid. *)
Definition is_valid_channel_policy (p : SecurityPolicy) : bool :=
  match p with
  | Basic128Rsa15 | Basic256 | Basic256Sha256 | Aes128Sha256RsaOaep | Aes256Sha256RsaPss
  | EccNistP256 | EccNistP384 => true
  | _ => false
  end.
Definition set_security_policy (p : SecurityPolicy) (sc : SecureChannel) : SecureChannel :=
  {| role := role sc; allow_deprecated := allow_deprecated sc; security_policy := p; security_policy_valid := is_valid_channel_policy p;
     security_mode := security_mode sc; secure_channel_id := secure_channel_id sc; token_id := token_id sc;
     cert := cert sc; private_key := private_key sc; remote_cert := remote_cert sc;
     local_keys := local_keys sc; first_request_signature := first_request_signature sc;
     apply_channel_thumbprint := apply_channel_thumbprint sc;
     remote_keys := remote_keys sc; peer_max_response_body_size := peer_max_response_body_size sc;
     decoding_options := decoding_options sc |}.
Definition get_local_keys (sc : SecureChannel) : result AesDerivedKeys StatusCode :=
  ok_or (local_keys sc) BadSecurityChecksFailed.
Definition get_remote_keys (token : Z) (sc : SecureChannel) : option AesDerivedKeys :=
  keys <$> remote_keys sc !! token.
Definition expect_supported_security_policy (sc : SecureChannel) : result unit StatusCode :=
  if security_policy_valid sc then Ok tt else Err BadSecurityPolicyRejected.
Definition is_secure_connection (sc : SecureChannel) : bool :=
  negb (bool_decide (security_policy sc = PolicyNone))
  && match security_mode sc with ModeSign | ModeSignAndEncrypt => true | _ => false end.

(** ** Security headers *)

Definition asymmetric_header_none : AsymmetricSecurityHeader :=
  {| security_policy_uri := Some SECURITY_POLICY_NONE_URI; sender_certificate := None;
     receiver_certificate_thumbprint := None |}.
Definition asymmetric_header_new (p : SecurityPolicy) (sender : X509) (thumbprint : ByteString)
    : outcome AsymmetricSecurityHeader :=
  let! uri := to_uri p in
  Ret {| security_policy_uri := Some uri; sender_certificate := Some (to_der sender);
         receiver_certificate_thumbprint := thumbprint |}.

Definition make_security_header (sc : SecureChannel) (t : MessageChunkType) : outcome SecurityHeader :=
  match t with
  | CtOpenSecureChannel =>
      if bool_decide (security_policy sc = PolicyNone) then Ret (Asymmetric asymmetric_header_none)
      else
        let thumbprint := match remote_cert sc with Some c => Some (sha1_digest c) | None => None end in
        let! c := unwrap (cert sc) in
        let! h := asymmetric_header_new (security_policy sc) c thumbprint in
        Ret (Asymmetric h)
  | _ => Ret (Symmetric (token_id sc))
  end.

(** [X509::from_byte_string]. *)
Definition x509_from_byte_string (b : ByteString) : result X509 StatusCode :=
  match b with
  | None | Some [] => Err BadCertificateInvalid
  | Some v => ok_or (from_der v) BadCertificateInvalid
  end.

Definition signature_size (sc : SecureChannel) (h : SecurityHeader) : outcome Z :=
  match h with
  | Asymmetric h =>
      if is_ecc (security_policy sc) then
        Ret match private_key sc with Some k => private_key_size k | None => 0 end
      else match sender_certificate h with
           | None => Ret 0
           | Some _ =>
               Ret match result_ok (x509_from_byte_string (sender_certificate h)) with
                   | Some c => match public_key c with Some k => public_key_size k | None => 0 end
                   | None => 0
                   end
           end
  | Symmetric _ => symmetric_signature_size (security_policy sc)
  end.

(** The plain text block size and the minimum padding. *)
Definition get_padding_block_sizes (sc : SecureChannel) (h : SecurityHeader) (t : MessageChunkType)
    : outcome (result (Z * Z) StatusCode) :=
  if bool_decide (security_policy sc = PolicyNone)
     || (negb (bool_decide (security_mode sc = ModeSignAndEncrypt)) && negb (is_open_secure_channel t))
  then Ret (Ok (0, 0))
  else match h with
       | Asymmetric h =>
           match sender_certificate h with
           | None => let! n := plain_block_size (security_policy sc) in Ret (Ok (n, 1))
           | Some _ =>
               let^ x509 := Ret (ok_or (remote_cert sc) BadCertificateInvalid) in
               let^ pk := Ret (ok_or (public_key x509) BadCertificateInvalid) in
               let! p := asymmetric_padding_info (security_policy sc) (public_key_size pk) in
               Ret (Ok (padding_block_size p, padding_minimum p))
           end
       | Symmetric _ =>
           let! p := symmetric_padding_info (security_policy sc) in
           Ret (Ok (padding_block_size p, padding_minimum p))
       end.

(** ** Chunks *)

(** [ChunkInfo::new] (and [chunk_info], which memoizes it). *)
Definition chunk_info (sc : SecureChannel) (chunk : MessageChunk) : outcome (result ChunkInfo StatusCode) :=
  let^ (header, rest) := Ret (run chunk_header_decode chunk) in
  let security_header_offset := zlen chunk - zlen rest in
  let^ (sec, rest) :=
    decode_with_known_policy (decoding_options sc) (is_open_secure_channel (message_type header))
      (known_policy sc) rest in
  let sequence_header_offset := zlen chunk - zlen rest in
  let^ (seq, rest) := Ret (run sequence_header_decode rest) in
  let body_offset := zlen chunk - zlen rest in
  Ret (Ok {| message_header := header; security_header := sec; sequence_header := seq;
             security_header_offset := security_header_offset;
             sequence_header_offset := sequence_header_offset;
             body_offset := body_offset; body_length := zlen chunk - body_offset |}).

(** [MessageChunk::new]. *)
Definition chunk_new (seq request : Z) (t : MessageChunkType) (fin : MessageIsFinalType) (sc : SecureChannel)
    (data : bytes) : outcome MessageChunk :=
  let! sec := make_security_header sc t in
  let seq := {| sequence_number := seq; request_id := request |} in
  let size := MESSAGE_CHUNK_HEADER_SIZE + security_header_byte_len sec + byte_len seq + zlen data in
  let header := {| message_type := t; is_final := fin; message_size := size;
                   header_channel_id := secure_channel_id sc |} in
  Ret (concat (encode header ++ security_header_encode sec ++ encode seq ++ [data])).

Definition body_size_from_message_size (t : MessageChunkType) (sc : SecureChannel) (max_chunk_size : Z)
    : outcome (result Z StatusCode) :=
  if max_chunk_size <? MIN_CHUNK_SIZE then Ret (Err BadTcpInternalError)
  else
    let! sec := make_security_header sc t in
    let header_size := MESSAGE_CHUNK_HEADER_SIZE + security_header_byte_len sec
                       + byte_len {| sequence_number := 0; request_id := 0 |} in
    let! signature_size := signature_size sc sec in
    let^ (plain_text_block_size, minimum_padding) := get_padding_block_sizes sc sec t in
    let aligned_max_chunk_size :=
      if 0 <? plain_text_block_size then max_chunk_size - max_chunk_size mod plain_text_block_size
      else max_chunk_size in
    let^ overhead := Ret (ok_or (let* o := checked_add header_size signature_size in
                                 checked_add o minimum_padding) BadTcpInternalError) in
    match checked_sub aligned_max_chunk_size overhead with
    | Some body_size => if 0 <? body_size then Ret (Ok body_size) else Ret (Err BadTcpInternalError)
    | None => Ret (Err BadTcpInternalError)
    end.

(** [encrypted_data_offset] of a chunk. *)
Definition encrypted_data_offset (o : DecodingOptions) (chunk : MessageChunk) : outcome (result Z StatusCode) :=
  let^ (header, rest) := Ret (run chunk_header_decode chunk) in
  let^ (_, rest) := decode_with_known_policy o (is_open_secure_channel (message_type header)) None rest in
  Ret (Ok (zlen chunk - zlen rest)).
Definition chunk_is_open_secure_channel (chunk : MessageChunk) : bool :=
  match run chunk_header_decode chunk with
  | Ok (header, _) => is_open_secure_channel (message_type header)
  | Err _ => false
  end.

(** ** Padding *)

(** The padding to add and the minimum padding. *)
Definition padding_size (sc : SecureChannel) (h : SecurityHeader) (body_size signature_size : Z)
    (t : MessageChunkType) : outcome (result (Z * Z) StatusCode) :=
  let^ (plain_text_block_size, minimum_padding) := get_padding_block_sizes sc h t in
  if plain_text_block_size =? 0 then Ret (Ok (0, 0))
  else
    let encrypt_size := 8 + body_size + signature_size + minimum_padding in
    let padding :=
      if negb (encrypt_size mod plain_text_block_size =? 0)
      then plain_text_block_size - encrypt_size mod plain_text_block_size else 0 in
    Ret (Ok (minimum_padding + padding, minimum_padding)).

(** Rewrites the size field of a chunk. *)
Definition update_message_size (data : bytes) (size : Z) : outcome (result bytes StatusCode) :=
  if zlen data <? MESSAGE_SIZE_OFFSET then Panic
  else if zlen data <? MESSAGE_SIZE_OFFSET + 4 then Ret (Err BadEncodingError)
  else Ret (Ok (take 4 data ++ le_bytes 4 size ++ drop 8 data)).

(** The padding bytes written after the body. *)
Definition padding_bytes (padding_size minimum_padding : Z) : bytes :=
  if 0 <? padding_size then
    if minimum_padding =? 1 then
      concat (write_bytes (Z.land (padding_size - 1) 0xff) padding_size)
    else if minimum_padding =? 2 then
      concat (write_bytes (Z.land (padding_size - 2) 0xff) (padding_size - 1)
              ++ write_u8 (Z.shiftr (padding_size - 2) 8))
    else []
  else [].

Definition add_space_for_padding_and_signature (sc : SecureChannel) (chunk : MessageChunk)
    : outcome (result bytes StatusCode) :=
  let^ info := chunk_info sc chunk in
  let! signature_size := signature_size sc (security_header info) in
  let^ (padding_size, minimum_padding) :=
    padding_size sc (security_header info) (body_length info) signature_size (message_type (message_header info)) in
  let message_size := zlen chunk + padding_size + signature_size in
  let data := chunk ++ padding_bytes padding_size minimum_padding ++ concat (write_bytes 0 signature_size) in
  update_message_size data message_size.

Definition security_byte (src : bytes) (index : Z) : result Z StatusCode :=
  ok_or (zlookup src index) BadSecurityChecksFailed.
Definition check_padding_bytes (padding : bytes) (expected : Z) : result unit StatusCode :=
  if forallb (fun b => b =? expected) padding then Ok tt else Err BadSecurityChecksFailed.

(** The range of the padding that ends at [padding_end]. *)
Definition verify_padding (src : bytes) (key_size padding_end : Z) : result (Z * Z) StatusCode :=
  if 256 <? key_size then
    if padding_end <? 2 then Err BadSecurityChecksFailed
    else
      let? padding_byte := security_byte src (padding_end - 2) in
      let? extra_padding_byte := security_byte src (padding_end - 1) in
      let padding_size := Z.shiftl extra_padding_byte 8 + padding_byte in
      let? start := ok_or (checked_sub padding_end (padding_size + 2)) BadSecurityChecksFailed in
      let? padding := ok_or (slice src start (padding_end - 1)) BadSecurityChecksFailed in
      let? _ := check_padding_bytes padding padding_byte in
      let? last := security_byte src (padding_end - 1) in
      if negb (last =? extra_padding_byte) then Err BadSecurityChecksFailed
      else Ok (start, padding_end)
  else
    if padding_end =? 0 then Err BadSecurityChecksFailed
    else
      let? padding_byte := security_byte src (padding_end - 1) in
      let? start := ok_or (checked_sub padding_end (padding_byte + 1)) BadSecurityChecksFailed in
      let? padding := ok_or (slice src start padding_end) BadSecurityChecksFailed in
      let? _ := check_padding_bytes padding padding_byte in
      Ok (start, padding_end).

(** ** Symmetric signing and encryption *)

(** Signs [buf[..signed_end]] and writes the signature after it; returns the buffer and the end of
    the signature. *)
Definition symmetric_sign_in_place (sc : SecureChannel) (buf : bytes) (signed_end : Z)
    : outcome (result (bytes * Z) StatusCode) :=
  let! signature_size := symmetric_signature_size (security_policy sc) in
  if zlen buf <? signed_end then Ret (Err BadSecurityChecksFailed)
  else
    let l := take (Z.to_nat signed_end) buf in
    let r := drop (Z.to_nat signed_end) buf in
    if zlen r <? signature_size then Ret (Err BadSecurityChecksFailed)
    else
      let^ ks := Ret (get_local_keys sc) in
      let^ signature := symmetric_sign (security_policy sc) ks l signature_size in
      Ret (Ok (l ++ signature ++ drop (Z.to_nat signature_size) r, signed_end + signature_size)).

Definition symmetric_sign_and_encrypt (sc : SecureChannel) (src : bytes) (signed_end : Z)
    (encrypted_range : Z * Z) (dst_len : Z) : outcome (result bytes StatusCode) :=
  let '(start, stop) := encrypted_range in
  match security_mode sc with
  | ModeNone => if dst_len =? zlen src then Ret (Ok src) else Panic
  | ModeSign =>
      let^ _ := Ret (expect_supported_security_policy sc) in
      let^ (src, size) := symmetric_sign_in_place sc src signed_end in
      if dst_len <? size then Ret (Err BadSecurityChecksFailed)
      else Ret (ok_or (slice src 0 size) BadSecurityChecksFailed)
  | ModeSignAndEncrypt =>
      let^ _ := Ret (expect_supported_security_policy sc) in
      let^ (src, _) := symmetric_sign_in_place sc src signed_end in
      let^ ks := Ret (get_local_keys sc) in
      let^ plain := Ret (ok_or (slice src start stop) BadSecurityChecksFailed) in
      if dst_len <? start then Ret (Err BadSecurityChecksFailed)
      else
        let^ encrypted := symmetric_encrypt (security_policy sc) ks plain (dst_len - start) in
        let^ header := Ret (ok_or (slice src 0 start) BadSecurityChecksFailed) in
        Ret (Ok (header ++ encrypted))
  | ModeInvalid => Ret (Err BadSecurityModeRejected)
  end.

(** Returns the destination buffer (of [dst_len] bytes) and the end of the decrypted data. *)
Definition symmetric_decrypt_and_verify (sc : SecureChannel) (src : bytes) (signed_end : Z)
    (encrypted_range : Z * Z) (token : Z) (dst_len : Z) : outcome (result (bytes * Z) StatusCode) :=
  let '(start, stop) := encrypted_range in
  match security_mode sc with
  | ModeNone => if dst_len =? zlen src then Ret (Ok (src, zlen src)) else Panic
  | ModeSign =>
      let^ _ := Ret (expect_supported_security_policy sc) in
      if negb (dst_len =? zlen src) then Panic
      else
        let dst := src in
        let^ ks := Ret (ok_or (get_remote_keys token sc) BadSecureChannelClosed) in
        let^ data := Ret (ok_or (slice dst 0 signed_end) BadSecurityChecksFailed) in
        let^ signature := Ret (ok_or (slice dst signed_end (zlen src)) BadSecurityChecksFailed) in
        let^ _ := symmetric_verify_signature (security_policy sc) ks data signature in
        Ret (Ok (dst, signed_end))
  | ModeSignAndEncrypt =>
      let^ _ := Ret (expect_supported_security_policy sc) in
      let ciphertext_size := stop - start in
      if dst_len <? start then Ret (Err BadSecurityChecksFailed)
      else
        let^ header := Ret (ok_or (slice src 0 start) BadSecurityChecksFailed) in
        let^ ks := Ret (ok_or (get_remote_keys token sc) BadSecureChannelClosed) in
        let^ cipher := Ret (ok_or (slice src start stop) BadSecurityChecksFailed) in
        let^ decrypted := symmetric_decrypt (security_policy sc) ks cipher (ciphertext_size + 16) in
        let decrypted_end := start + zlen decrypted in
        if dst_len <? decrypted_end then Ret (Err BadSecurityChecksFailed)
        else
          let dst := header ++ decrypted ++ repeat 0 (Z.to_nat (dst_len - decrypted_end)) in
          let! signature_size := symmetric_signature_size (security_policy sc) in
          let^ signature_start := Ret (ok_or (checked_sub decrypted_end signature_size) BadSecurityChecksFailed) in
          let^ data := Ret (ok_or (slice dst 0 signed_end) BadSecurityChecksFailed) in
          let^ signature := Ret (ok_or (slice dst signature_start decrypted_end) BadSecurityChecksFailed) in
          let^ _ := symmetric_verify_signature (security_policy sc) ks data signature in
          let! key_size := encrypting_key_length (security_policy sc) in
          let^ (padding_start, _) := Ret (verify_padding dst key_size signature_start) in
          Ret (Ok (dst, padding_start))
  | ModeInvalid => Ret (Err BadSecurityModeRejected)
  end.

(** ** Receiving *)

Definition secure_message_ranges (message_size encrypted_data_offset signature_size : Z)
    : result (Z * (Z * Z)) StatusCode :=
  if message_size <? encrypted_data_offset then Err BadSecurityChecksFailed
  else
    let? signed_end := ok_or (checked_sub message_size signature_size) BadSecurityChecksFailed in
    Ok (signed_end, (encrypted_data_offset, message_size)).

Definition decode_message_header (sc : SecureChannel) (src : bytes)
    : outcome (result (MessageChunkHeader * SecurityHeader * Z) StatusCode) :=
  let^ (header, rest) := Ret (run chunk_header_decode src) in
  let^ (sec, rest) :=
    decode_with_known_policy (decoding_options sc) (is_open_secure_channel (message_type header))
      (known_policy sc) rest in
  if negb (message_size header =? zlen src) then Ret (Err BadUnexpectedError)
  else Ret (Ok (header, sec, zlen src - zlen rest)).

Definition decrypt_chunk (sc : SecureChannel) (src : bytes) (h : SecurityHeader) (signed_end : Z)
    (encrypted_range : Z * Z) : outcome (result MessageChunk StatusCode) :=
  match h with
  | Asymmetric _ => Ret (Err BadUnexpectedError)
  | Symmetric token =>
      let^ (dst, decrypted_size) :=
        symmetric_decrypt_and_verify sc src signed_end encrypted_range token (snd encrypted_range) in
      let^ dst := update_message_size dst decrypted_size in
      Ret (Ok (take (Z.to_nat decrypted_size) dst))
  end.
End channel.
