(* ===== verification/AsymmetricSecurity.v ===== *)
(** * Secure channels: asymmetric security and the protection of whole chunks

    Signing and encrypting of OpenSecureChannel chunks (secure_channel/crypto.rs and mod.rs, the
    asymmetric operations of security_policy.rs, policy/aes.rs and aes/rsa_private_key.rs), and the
    functions that secure a chunk to be sent and check a received one (framing.rs): [apply_security],
    [verify_and_remove_security] and its variant for the server.  RSA and ECDSA are the parameter
    class [AsymmetricLib]; [rng] holds the random numbers a call draws.  The asynchronous variants
    run the same code on a worker thread. *)

From S2P Require Import Prelude Text StatusCode NumericRange Variant Wire Crypto Chunk SecureChannel.

(** RSA and ECDSA.  [None]: the library reports an error. *)
Class AsymmetricLib {PK : Pki} := {
  private_is_ecc : PrivateKey -> bool;
  public_is_ecc : PublicKey -> bool;
  rsa_sign : AsymmetricSignature -> PrivateKey -> Z -> bytes -> option bytes;
  rsa_verify : AsymmetricSignature -> PublicKey -> bytes -> bytes -> option bool;
  rsa_encrypt : AsymmetricEncryption -> PublicKey -> Z -> bytes -> option bytes;
  rsa_decrypt : AsymmetricEncryption -> PrivateKey -> bytes -> option bytes;
  ecdsa_sign : PrivateKey -> bytes -> result bytes StatusCode;
  ecdsa_verify : PublicKey -> bytes -> bytes -> result unit StatusCode
}.

Section asymmetric.
Context {FT : Features} {CL : CryptoLib} {PK : Pki} {AL : AsymmetricLib}.

(** ** The asymmetric operations of a policy *)

(** The signature of [data]; [signature_len] is the length of the buffer it is written to. *)
Definition asymmetric_sign (p : SecurityPolicy) (key : PrivateKey) (seed : Z) (data : bytes)
    (signature_len : Z) : outcome (result bytes StatusCode) :=
  if is_ecc p then
    if negb ecc then Ret (Err BadNotImplemented)
    else if negb (private_is_ecc key) then Ret (Err BadSecurityChecksFailed)
    else
      let^ signed := Ret (ecdsa_sign key data) in
      if signature_len <? zlen signed then Ret (Err BadSecurityChecksFailed) else Ret (Ok signed)
  else
    let! m := call_with_policy p (fun i =>
      match i with
      | NonePolicy => Ret (Err BadInternalError)
      | AesPolicy c =>
          if private_is_ecc key then Ret (Err BadSecurityChecksFailed)
          else match rsa_sign (Crypto.asymmetric_signature c) key seed data with
               | None => Ret (Err BadUnexpectedError)
               | Some signed => if zlen signed =? signature_len then Ret (Ok signed) else Panic
               end
      end) in m.

Definition asymmetric_verify_signature (p : SecurityPolicy) (key : PublicKey) (data signature : bytes)
    : outcome (result unit StatusCode) :=
  if is_ecc p then
    if negb ecc then Ret (Err BadNotImplemented)
    else if negb (public_is_ecc key) then Ret (Err BadSecurityChecksFailed)
    else match ecdsa_verify key data signature with
         | Ok _ => Ret (Ok tt)
         | Err _ => Ret (Err BadSecurityChecksFailed)
         end
  else
    call_with_policy p (fun i =>
      match i with
      | NonePolicy => Err BadInternalError
      | AesPolicy c =>
          if public_is_ecc key then Err BadSecurityChecksFailed
          else match rsa_verify (Crypto.asymmetric_signature c) key data signature with
               | None => Err BadUnexpectedError
               | Some true => Ok tt
               | Some false => Err BadSecurityChecksFailed
               end
      end).

(** The loop of [public_encrypt] over the plain text blocks of [src]; [dst_len] bytes are left in the
    destination, [i] blocks are done. *)
Fixpoint public_encrypt_loop (fuel : nat) (e : AsymmetricEncryption) (key : PublicKey) (rng : nat -> Z) (i : nat)
    (src : bytes) (dst_len : Z) : outcome (option bytes) :=
  match src with
  | [] => Ret (Some [])
  | _ =>
      match fuel with
      | O => OutOfFuel
      | S fuel' =>
          let plain_text_block_size := get_plaintext_block_size e (public_key_size key) in
          let bytes_to_encrypt := Z.min (zlen src) plain_text_block_size in
          let block := take (Z.to_nat bytes_to_encrypt) src in
          match rsa_encrypt e key (rng i) block with
          | None => Ret None
          | Some encrypted =>
              if negb (zlen encrypted =? public_key_size key) then Ret None
              else if dst_len <? public_key_size key then Ret None
              else
                let! rest := public_encrypt_loop fuel' e key rng (S i) (drop (Z.to_nat bytes_to_encrypt) src)
                               (dst_len - public_key_size key) in
                Ret (let* r := rest in Some (encrypted ++ r))
          end
      end
  end.
Definition public_encrypt (e : AsymmetricEncryption) (key : PublicKey) (rng : nat -> Z) (src : bytes) (dst_len : Z)
    : outcome (option bytes) :=
  if public_is_ecc key then Ret None else public_encrypt_loop (length src) e key rng 0 src dst_len.

(** The loop of [private_decrypt] over the cipher text blocks. *)
Fixpoint private_decrypt_loop (fuel : nat) (e : AsymmetricEncryption) (key : PrivateKey) (src : bytes) (dst_len : Z)
    : outcome (option bytes) :=
  match src with
  | [] => Ret (Some [])
  | _ =>
      match fuel with
      | O => OutOfFuel
      | S fuel' =>
          let block_size := private_key_size key in
          if dst_len <? block_size then Ret None
          else match rsa_decrypt e key (take (Z.to_nat block_size) src) with
               | None => Ret None
               | Some plain =>
                   let! rest := private_decrypt_loop fuel' e key (drop (Z.to_nat block_size) src)
                                  (dst_len - zlen plain) in
                   Ret (let* r := rest in Some (plain ++ r))
               end
      end
  end.
Definition private_decrypt (e : AsymmetricEncryption) (key : PrivateKey) (src : bytes) (dst_len : Z)
    : outcome (option bytes) :=
  if private_is_ecc key then Ret None
  else if (private_key_size key =? 0) || negb (zlen src mod private_key_size key =? 0) then Ret None
  else private_decrypt_loop (length src) e key src dst_len.

Definition asymmetric_encrypt (p : SecurityPolicy) (key : PublicKey) (rng : nat -> Z) (src : bytes) (dst_len : Z)
    : outcome (result bytes StatusCode) :=
  if is_ecc p then Ret (Err BadNotImplemented)
  else
    let! m := call_with_policy p (fun i =>
      match i with
      | NonePolicy => Ret (Err BadInternalError)
      | AesPolicy c =>
          let! r := public_encrypt (asymmetric_encryption c) key rng src dst_len in
          Ret (ok_or r BadUnexpectedError)
      end) in m.
Definition asymmetric_decrypt (p : SecurityPolicy) (key : PrivateKey) (src : bytes) (dst_len : Z)
    : outcome (result bytes StatusCode) :=
  if is_ecc p then Ret (Err BadNotImplemented)
  else
    let! m := call_with_policy p (fun i =>
      match i with
      | NonePolicy => Ret (Err BadInternalError)
      | AesPolicy c =>
          let! r := private_decrypt (asymmetric_encryption c) key src dst_len in
          Ret (ok_or r BadSecurityChecksFailed)
      end) in m.

(** ** Sending an OpenSecureChannel chunk *)

(** The secured chunk and, for an ECC client, the signature to remember. *)
Definition asymmetric_sign_and_encrypt_owned (p : SecurityPolicy) (signing_key : PrivateKey)
    (encryption_key : option PublicKey) (is_client apply_thumbprint : bool) (first_signature : bytes)
    (rng : nat -> Z) (src : bytes) (encrypted_range : Z * Z)
    : outcome (result (bytes * option bytes) StatusCode) :=
  let '(start, stop) := encrypted_range in
  let signing_key_size := private_key_size signing_key in
  let^ signed_end := Ret (ok_or (checked_sub stop signing_key_size) BadSecurityChecksFailed) in
  let^ plain_text_size := Ret (ok_or (checked_sub stop start) BadSecurityChecksFailed) in
  let! cipher_text_size :=
    (match encryption_key with
     | Some k => calculate_cipher_text_size p plain_text_size (public_key_size k)
     | None => Ret plain_text_size
     end) in
  let^ output_size := Ret (ok_or (checked_add start cipher_text_size) BadSecurityChecksFailed) in
  let^ src := update_message_size src output_size in
  let^ header := Ret (ok_or (slice src 0 start) BadSecurityChecksFailed) in
  let^ l := Ret (ok_or (let* _ := slice src 0 stop in slice src 0 signed_end) BadSecurityChecksFailed) in
  let to_sign := if is_ecc p && ecc && negb is_client && apply_thumbprint then l ++ first_signature else l in
  let! signed :=
    (if is_ecc p && negb ecc then Ret (Ok []) else asymmetric_sign p signing_key (rng O) to_sign signing_key_size) in
  let^ signature := Ret signed in
  let to_store := if is_ecc p && ecc && is_client
                  then Some (signature ++ drop (length signature) (drop (Z.to_nat signed_end) (take (Z.to_nat stop) src)))
                  else None in
  let src := l ++ signature ++ drop (Z.to_nat signed_end + length signature) src in
  let^ plain := Ret (ok_or (slice src start stop) BadSecurityChecksFailed) in
  if is_ecc p then
    if output_size <? stop then Ret (Err BadSecurityChecksFailed)
    else Ret (Ok (header ++ plain ++ repeat 0 (Z.to_nat (output_size - stop)), to_store))
  else
    let^ key := Ret (ok_or encryption_key BadSecurityChecksFailed) in
    let^ encrypted := asymmetric_encrypt p key (fun i => rng (S i)) plain (output_size - start) in
    if negb (zlen encrypted =? cipher_text_size) then Ret (Err BadSecurityChecksFailed)
    else Ret (Ok (header ++ encrypted, to_store)).

Definition set_first_request_signature (s : bytes) (sc : SecureChannel) : SecureChannel :=
  {| role := role sc; allow_deprecated := allow_deprecated sc; security_policy := security_policy sc;
     security_policy_valid := security_policy_valid sc;
     security_mode := security_mode sc; secure_channel_id := secure_channel_id sc; token_id := token_id sc;
     cert := cert sc; private_key := private_key sc; remote_cert := remote_cert sc;
     local_keys := local_keys sc; first_request_signature := s;
     apply_channel_thumbprint := apply_channel_thumbprint sc;
     remote_keys := remote_keys sc; peer_max_response_body_size := peer_max_response_body_size sc;
     decoding_options := decoding_options sc |}.

Definition asymmetric_sign_and_encrypt (sc : SecureChannel) (rng : nat -> Z) (src : bytes) (encrypted_range : Z * Z)
    (dst_len : Z) : outcome (result (bytes * SecureChannel) StatusCode) :=
  let^ signing_key := Ret (ok_or (private_key sc) BadSecurityChecksFailed) in
  let^ encryption_key :=
    Ret (if is_ecc (security_policy sc) then Ok None
         else
           let? c := ok_or (remote_cert sc) BadSecurityChecksFailed in
           let? k := ok_or (public_key c) BadCertificateInvalid in
           Ok (Some k)) in
  let^ (secured, to_store) :=
    asymmetric_sign_and_encrypt_owned (security_policy sc) signing_key encryption_key (is_client_role sc)
      (ecc && apply_channel_thumbprint sc) (if ecc then first_request_signature sc else []) rng src encrypted_range in
  if dst_len <? zlen secured then Ret (Err BadSecurityChecksFailed)
  else Ret (Ok (secured, match to_store with
                         | Some s => if ecc && is_client_role sc then set_first_request_signature s sc else sc
                         | None => sc
                         end)).

(** [apply_security]: the bytes written to a destination of [dst_len] bytes, and the channel. *)
Definition apply_security (sc : SecureChannel) (rng : nat -> Z) (chunk : MessageChunk) (dst_len : Z)
    : outcome (result (bytes * SecureChannel) StatusCode) :=
  if negb (bool_decide (security_policy sc = PolicyNone))
     && match security_mode sc with ModeSign | ModeSignAndEncrypt => true | _ => false end
  then
    let^ offset := encrypted_data_offset (decoding_options sc) chunk in
    let^ data := add_space_for_padding_and_signature sc chunk in
    let encrypted_range := (offset, zlen data) in
    if chunk_is_open_secure_channel chunk
    then asymmetric_sign_and_encrypt sc rng data encrypted_range dst_len
    else
      let! signature_size := symmetric_signature_size (security_policy sc) in
      let^ secured :=
        symmetric_sign_and_encrypt sc data (zlen data - signature_size) encrypted_range dst_len in
      if dst_len <? zlen secured then Ret (Err BadSecurityChecksFailed) else Ret (Ok (secured, sc))
  else if dst_len <? zlen chunk then Ret (Err BadEncodingLimitsExceeded)
  else Ret (Ok (chunk, sc)).

(** ** Receiving an OpenSecureChannel chunk *)

Definition asymmetric_decrypt_and_verify_owned (p : SecurityPolicy) (our_private_key : PrivateKey)
    (our_cert : X509) (verification_key : PublicKey) (receiver_thumbprint : ByteString)
    (is_client apply_thumbprint : bool) (first_signature : bytes) (src : bytes) (encrypted_range : Z * Z)
    : outcome (result bytes StatusCode) :=
  let '(start, stop) := encrypted_range in
  if negb (is_supported p) then Ret (Err BadSecurityPolicyRejected)
  else if negb (bool_decide (sha1_digest our_cert = default [] receiver_thumbprint))
  then Ret (Err BadNoValidCertificates)
  else if stop <? start then Ret (Err BadSecurityChecksFailed)
  else
    let^ header := Ret (ok_or (slice src 0 start) BadSecurityChecksFailed) in
    let encrypted_size := stop - start in
    let^ decrypted :=
      (let^ encrypted := Ret (ok_or (slice src start stop) BadSecurityChecksFailed) in
       if is_ecc p then Ret (Ok encrypted)
       else
         let^ d := asymmetric_decrypt p our_private_key encrypted encrypted_size in
         if stop <? start + zlen d then Ret (Err BadSecurityChecksFailed) else Ret (Ok d)) in
    let decrypted_end := start + zlen decrypted in
    let dst := header ++ decrypted ++ repeat 0 (Z.to_nat (stop - decrypted_end)) in
    let key_signature_size := asymmetric_signature_size p (public_key_size verification_key) in
    let^ signature_start := Ret (ok_or (checked_sub decrypted_end key_signature_size) BadSecurityChecksFailed) in
    let key_size := match public_key our_cert with
                    | Some k => public_key_size k | None => public_key_size verification_key end in
    let^ signed_data := Ret (ok_or (slice dst 0 signature_start) BadSecurityChecksFailed) in
    let^ signature := Ret (ok_or (slice dst signature_start decrypted_end) BadSecurityChecksFailed) in
    let^ _ :=
      (if is_ecc p && negb ecc then Ret (Ok tt)
       else asymmetric_verify_signature p verification_key
              (if is_ecc p && is_client && apply_thumbprint then signed_data ++ first_signature else signed_data)
              signature) in
    let^ size := Ret (if is_ecc p then Ok signature_start
                      else let? (padding_start, _) := verify_padding dst key_size signature_start in Ok padding_start) in
    Ret (Ok (take (Z.to_nat size) dst)).

(** [decrypt_open_secure_channel] (prepare, decrypt, finish): the chunk, its policy, the channel. *)
Definition decrypt_open_secure_channel (sc : SecureChannel) (src : bytes) (h : SecurityHeader)
    (encrypted_range : Z * Z) : outcome (result (MessageChunk * SecurityPolicy * SecureChannel) StatusCode) :=
  match h with
  | Symmetric _ => Ret (Err BadUnexpectedError)
  | Asymmetric h =>
      let p := from_uri (ua_as_ref (security_policy_uri h)) in
      if bool_decide (p = PolicyUnknown) then Ret (Err BadSecurityPolicyRejected)
      else if bool_decide (p = PolicyNone) then Ret (Ok (src, p, sc))
      else if negb (is_supported p) then Ret (Err BadSecurityPolicyRejected)
      else if is_deprecated p && negb (allow_deprecated sc) then Ret (Err BadSecurityPolicyRejected)
      else
        let^ sender := Ret (match sender_certificate h with
                            | None => Err BadCertificateInvalid
                            | Some _ => x509_from_byte_string (sender_certificate h)
                            end) in
        let^ verification_key := Ret (ok_or (public_key sender) BadCertificateInvalid) in
        let^ our_cert := Ret (ok_or (cert sc) BadCertificateInvalid) in
        let^ our_private_key := Ret (ok_or (private_key sc) BadSecurityChecksFailed) in
        let to_store : option (result bytes StatusCode) :=
          if ecc && is_ecc p && negb (is_client_role sc) then
            Some (let? s := ok_or (checked_sub (snd encrypted_range)
                                     (asymmetric_signature_size p (public_key_size verification_key)))
                              BadSecurityChecksFailed in
                  ok_or (slice src s (snd encrypted_range)) BadSecurityChecksFailed)
          else None in
        let^ decrypted :=
          asymmetric_decrypt_and_verify_owned p our_private_key our_cert verification_key
            (receiver_certificate_thumbprint h) (is_client_role sc) (ecc && apply_channel_thumbprint sc)
            (if ecc then first_request_signature sc else []) src encrypted_range in
        let^ sc := Ret (match to_store with
                        | Some (Ok s) => Ok (set_first_request_signature s sc)
                        | Some (Err e) => Err e
                        | None => Ok sc
                        end) in
        let^ data := update_message_size decrypted (zlen decrypted) in
        Ret (Ok (data, p, sc))
  end.

(** [verify_and_remove_security]: the chunk without padding and signature. *)
Definition verify_and_remove_security (sc : SecureChannel) (src : bytes)
    : outcome (result (MessageChunk * SecureChannel) StatusCode) :=
  let^ (header, h, offset) := decode_message_header sc src in
  let message_size := message_size header in
  if is_open_secure_channel (message_type header) then
    let^ (_, encrypted_range) := Ret (secure_message_ranges message_size offset 0) in
    let^ (chunk, _, sc) := decrypt_open_secure_channel sc src h encrypted_range in
    Ret (Ok (chunk, sc))
  else if is_secure_connection sc then
    let! signature_size := symmetric_signature_size (security_policy sc) in
    let^ (signed_end, encrypted_range) := Ret (secure_message_ranges message_size offset signature_size) in
    let^ chunk := decrypt_chunk sc src h signed_end encrypted_range in
    Ret (Ok (chunk, sc))
  else Ret (Ok (src, sc)).

(** On the server an OpenSecureChannel request also sets the policy of the channel. *)
Definition verify_and_remove_security_server (sc : SecureChannel) (src : bytes)
    : outcome (result (MessageChunk * SecureChannel) StatusCode) :=
  let^ (header, h, offset) := decode_message_header sc src in
  let message_size := message_size header in
  if is_open_secure_channel (message_type header) then
    let^ (_, encrypted_range) := Ret (secure_message_ranges message_size offset 0) in
    let^ (chunk, p, sc) := decrypt_open_secure_channel sc src h encrypted_range in
    Ret (Ok (chunk, set_security_policy p sc))
  else if is_secure_connection sc then
    let! signature_size := symmetric_signature_size (security_policy sc) in
    let^ (signed_end, encrypted_range) := Ret (secure_message_ranges message_size offset signature_size) in
    let^ chunk := decrypt_chunk sc src h signed_end encrypted_range in
    Ret (Ok (chunk, sc))
  else Ret (Ok (src, sc)).
End asymmetric.
