(* ===== verification/ConcreteChannel.v ===== *)
(** * A concrete channel

    Instances of the interfaces of the secure channel (a checksum for HMAC, a byte-wise cipher for
    AES, names for certificates and keys), and a pair of channels that share keys. *)

From S2P Require Import Prelude Text StatusCode NumericRange Variant Wire Crypto Chunk SecureChannel AsymmetricSecurity.

#[global] Instance all_features : Features := {| legacy_crypto := true; ecc := true |}.

Definition checksum (a : DigestAlg) (key data : bytes) : bytes :=
  repeat (foldr Z.add 0 (key ++ data) mod 256) (Z.to_nat (digest_size a)).
Definition mask (key iv src : bytes) : bytes := map (fun b => Z.lxor b 90) src.
#[global] Instance toy_crypto : CryptoLib :=
  {| hmac := checksum; aes_cbc_encrypt := mask; aes_cbc_decrypt := mask; aes_ctr _ _ src _ := Some src |}.

#[global] Instance toy_laws : SymmetricLaws toy_crypto.
Proof.
  split.
  - intros [] key data; done.
  - intros. unfold zlen, aes_cbc_encrypt, toy_crypto, mask. by rewrite length_map.
  - intros key iv src _ _. unfold aes_cbc_encrypt, aes_cbc_decrypt, toy_crypto, mask. rewrite map_map.
    rewrite <- (map_id src) at 2. apply map_ext. intros b. by rewrite Z.lxor_assoc, Z.lxor_nilpotent, Z.lxor_0_r.
Qed.

(** Certificates and keys are numbers; a certificate is its own key, of 256 bytes. *)
#[global] Instance toy_pki : Pki :=
  {| X509 := Z; PublicKey := Z; PrivateKey := Z; to_der c := [c]; from_der b := head b; public_key c := Some c;
     sha1_digest c := repeat c 20; public_key_size _ := 256; private_key_size _ := 256 |}.

(** RSA blocks: the plain text, its length and a filling. *)
#[global] Instance toy_asymmetric : AsymmetricLib :=
  {| private_is_ecc _ := false; public_is_ecc _ := false;
     rsa_sign _ key _ data := Some (repeat (foldr Z.add key data mod 256) 256);
     rsa_verify _ key data s := Some (bool_decide (s = repeat (foldr Z.add key data mod 256) 256));
     rsa_encrypt _ _ _ block := Some (zlen block :: block ++ repeat 0 (255 - length block));
     rsa_decrypt _ _ block := Some (take (Z.to_nat (default 0 (head block))) (tail block));
     ecdsa_sign key data := Ok (repeat 0 64);
     ecdsa_verify _ _ _ := Ok tt |}.

Definition toy_keys : AesDerivedKeys :=
  {| signing_key := repeat 1 32; encryption_key := repeat 2 32; initialization_vector := repeat 3 16 |}.

Definition channel_of (r : Role) (p : SecurityPolicy) (m : MessageSecurityMode) : SecureChannel :=
  {| role := r; allow_deprecated := false; security_policy := p; security_policy_valid := is_valid_channel_policy p;
     security_mode := m; secure_channel_id := 7; token_id := 3; cert := Some 1; private_key := Some 1;
     remote_cert := Some 1; local_keys := Some toy_keys; first_request_signature := [];
     apply_channel_thumbprint := false; remote_keys := {[3 := {| keys := toy_keys; expires_at := 0 |}]};
     peer_max_response_body_size := None; decoding_options := default_options |}.
Definition client_channel : SecureChannel := channel_of RoleClient Basic256Sha256 ModeSignAndEncrypt.
Definition server_channel : SecureChannel := channel_of RoleServer Basic256Sha256 ModeSignAndEncrypt.
