(* ===== verification/SecureChannelFacts.v ===== *)
(** * Secure channels: proofs

    Padding and its check are inverse; chunks that fit the computed body size fit the negotiated
    chunk size, and no larger body does; a chunk secured with the keys of one side is recovered
    unchanged by the other side. *)

From S2P Require Import Prelude Text StatusCode NumericRange Variant Wire Crypto Chunk SecureChannel AsymmetricSecurity.
From S2P Require Import ConcreteChannel.

(** ** Slices *)

Lemma zlen_repeat {A} (x : A) n : zlen (repeat x n) = Z.of_nat n.
Proof. unfold zlen. by rewrite repeat_length. Qed.

Lemma concat_write_bytes v n : concat (write_bytes v n) = repeat v (Z.to_nat n).
Proof. unfold write_bytes. induction (Z.to_nat n) as [|k IH]; simpl; [done|]. by rewrite IH. Qed.

Lemma slice_spec l a b : 0 <= a -> a <= b -> b <= zlen l ->
  slice l a b = Some (take (Z.to_nat (b - a)) (drop (Z.to_nat a) l)).
Proof. intros. unfold slice. repeat decide_test. done. Qed.

Lemma slice_middle (p m q : bytes) a b : a = zlen p -> b = zlen p + zlen m -> slice (p ++ m ++ q) a b = Some m.
Proof.
  intros -> ->. rewrite slice_spec; [|unfold zlen; rewrite ?length_app; lia..].
  replace (Z.to_nat (zlen p)) with (length p) by (unfold zlen; lia).
  replace (Z.to_nat (zlen p + zlen m - zlen p)) with (length m) by (unfold zlen; lia).
  by rewrite drop_app_length, take_app_length.
Qed.
Lemma slice_prefix (m q : bytes) b : b = zlen m -> slice (m ++ q) 0 b = Some m.
Proof. intros ->. by apply (slice_middle [] m q). Qed.
Lemma slice_whole (m : bytes) b : b = zlen m -> slice m 0 b = Some m.
Proof. intros. rewrite <- (app_nil_r m) at 1. by apply slice_prefix. Qed.
Lemma slice_suffix (p m : bytes) a b : a = zlen p -> b = zlen p + zlen m -> slice (p ++ m) a b = Some m.
Proof. intros. rewrite <- (app_nil_r m) at 1. by apply slice_middle. Qed.

Lemma zlookup_middle {A} (p q : list A) x i : i = zlen p -> zlookup (p ++ x :: q) i = Some x.
Proof.
  intros ->. unfold zlookup. pose proof (zlen_nonneg p). decide_test.
  replace (Z.to_nat (zlen p)) with (length p) by (unfold zlen; lia). by rewrite list_lookup_middle.
Qed.

(** ** Padding *)

(** A padding that a receiver with this key size recognises. *)
Definition padding_ok (n minimum key_size : Z) : Prop :=
  (minimum = 1 /\ key_size <= 256 /\ 1 <= n <= 256) \/ (minimum = 2 /\ 256 < key_size /\ 2 <= n <= 65537).

Lemma zlen_padding_bytes n minimum key_size : padding_ok n minimum key_size -> zlen (padding_bytes n minimum) = n.
Proof.
  intros [(-> & _ & Hn)|(-> & _ & Hn)]; unfold padding_bytes; decide_test; cbn [Z.eqb Pos.eqb].
  - rewrite concat_write_bytes, zlen_repeat. lia.
  - rewrite concat_app, zlen_app, concat_write_bytes, zlen_repeat. unfold write_u8. simpl.
    unfold zlen. simpl. lia.
Qed.

Lemma check_padding_repeat v n : check_padding_bytes (repeat v n) v = Ok tt.
Proof.
  unfold check_padding_bytes. replace (forallb _ _) with true; [done|]. symmetry.
  apply forallb_forall. intros b Hb%repeat_spec. subst. apply Z.eqb_refl.
Qed.

Lemma repeat_snoc {A} (x : A) n : repeat x (S n) = repeat x n ++ [x].
Proof. induction n as [|n IH]; [done|]. change (repeat x (S (S n))) with (x :: repeat x (S n)). by rewrite IH at 1. Qed.

Lemma verify_padding_written (p q : bytes) n minimum key_size stop :
  padding_ok n minimum key_size -> stop = zlen p + n ->
  verify_padding (p ++ padding_bytes n minimum ++ q) key_size stop = Ok (zlen p, stop).
Proof.
  intros Hok ->. pose proof (zlen_nonneg p) as Hp.
  destruct Hok as [(-> & Hk & Hn)|(-> & Hk & Hn)]; unfold verify_padding, padding_bytes;
    repeat decide_test; cbn [Z.eqb Pos.eqb].
  - destruct (Z.eqb_spec (zlen p + n) 0); [lia|]. rewrite concat_write_bytes.
    assert (Z.land (n - 1) 255 = n - 1) as ->.
    { change 255 with (Z.ones 8). rewrite Z.land_ones by lia. apply Z.mod_small. lia. }
    unfold security_byte.
    assert (zlookup (p ++ repeat (n - 1) (Z.to_nat n) ++ q) (zlen p + n - 1) = Some (n - 1)) as ->.
    { destruct (Z.to_nat n) as [|k] eqn:Hnk; [lia|]. rewrite repeat_snoc, <- app_assoc. simpl ([_] ++ q).
      by rewrite app_assoc, zlookup_middle by (rewrite zlen_app, zlen_repeat; lia). }
    simpl.
    unfold checked_sub. decide_test. simpl.
    replace (zlen p + n - (n - 1 + 1)) with (zlen p) by lia.
    rewrite slice_middle by (rewrite ?zlen_repeat; lia). simpl ok_or. cbn [result_bind].
    by rewrite check_padding_repeat.
  - rewrite concat_app, concat_write_bytes. unfold write_u8. simpl concat.
    set (lo := Z.land (n - 2) 255). set (hi := Z.shiftr (n - 2) 8).
    assert (hi = (n - 2) / 256) as Hhi by (unfold hi; rewrite Z.shiftr_div_pow2 by lia; done).
    assert (lo = (n - 2) mod 256) as Hlo by (unfold lo; change 255 with (Z.ones 8); rewrite Z.land_ones by lia; done).
    pose proof (Z.div_mod (n - 2) 256 ltac:(lia)) as Hdm.
    pose proof (Z.mod_pos_bound (n - 2) 256 ltac:(lia)) as Hmod.
    assert (hi mod 256 = hi) as Hh by (rewrite Hhi; apply Z.mod_small; lia).
    rewrite Hh. unfold security_byte.
    assert (zlookup (p ++ (repeat lo (Z.to_nat (n - 1)) ++ [hi]) ++ q) (zlen p + n - 2) = Some lo) as ->.
    { destruct (Z.to_nat (n - 1)) as [|k] eqn:Hk'; [lia|]. rewrite repeat_snoc, <- !app_assoc. simpl ([_] ++ _).
      rewrite app_assoc, zlookup_middle by (rewrite zlen_app, zlen_repeat; lia). done. }
    assert (zlookup (p ++ (repeat lo (Z.to_nat (n - 1)) ++ [hi]) ++ q) (zlen p + n - 1) = Some hi) as ->.
    { rewrite <- !app_assoc. simpl ([_] ++ _).
      rewrite app_assoc, zlookup_middle by (rewrite zlen_app, zlen_repeat; lia). done. }
    simpl. rewrite Z.shiftl_mul_pow2 by lia. change (2 ^ 8) with 256.
    unfold checked_sub. decide_test. simpl.
    replace (zlen p + n - (hi * 256 + lo + 2)) with (zlen p) by lia.
    rewrite <- app_assoc, slice_middle by (rewrite ?zlen_repeat; lia). simpl ok_or. cbn [result_bind].
    rewrite check_padding_repeat. cbn [result_bind]. by rewrite Z.eqb_refl.
Qed.

(** ** Chunks with a symmetric header *)

Definition with_size (n : Z) (h : MessageChunkHeader) : MessageChunkHeader :=
  {| message_type := message_type h; is_final := is_final h; message_size := n;
     header_channel_id := header_channel_id h |}.

(** The sequence header and the body, which an encrypting channel encrypts. *)
Definition content (seq : SequenceHeader) (body : bytes) : bytes := concat (sequence_header_encode seq) ++ body.
Definition symmetric_chunk (h : MessageChunkHeader) (token : Z) (seq : SequenceHeader) (body : bytes)
    : MessageChunk :=
  concat (chunk_header_encode h) ++ le_bytes 4 token ++ content seq body.

Lemma zlen_content seq body : zlen (content seq body) = 8 + zlen body.
Proof. unfold content. by rewrite zlen_app, sequence_header_len. Qed.
Lemma zlen_symmetric_chunk h token seq body : zlen (symmetric_chunk h token seq body) = 24 + zlen body.
Proof.
  unfold symmetric_chunk. rewrite !zlen_app, chunk_header_len, zlen_le_bytes, zlen_content.
  unfold MESSAGE_CHUNK_HEADER_SIZE. lia.
Qed.

Lemma run_bind_ret {A} (p : parser A) bs : run p bs = run (parser_bind p PRet) bs.
Proof. rewrite run_bind. by destruct (run p bs) as [[]|]. Qed.

Lemma run_header h rest : is_header h -> run chunk_header_decode (concat (chunk_header_encode h) ++ rest) = Ok (h, rest).
Proof. intros. by rewrite run_bind_ret, run_chunk_header. Qed.
Lemma run_token token rest : is_u32 token -> run read_u32 (le_bytes 4 token ++ rest) = Ok (token, rest).
Proof. intros. by rewrite run_bind_ret, run_u32. Qed.
Lemma run_sequence seq body : is_sequence_header seq ->
  run sequence_header_decode (content seq body) = Ok (seq, body).
Proof. intros. unfold content. by rewrite run_bind_ret, run_sequence_header. Qed.

Lemma update_message_size_header h n rest :
  update_message_size (concat (chunk_header_encode h) ++ rest) n
  = Ret (Ok (concat (chunk_header_encode (with_size n h)) ++ rest)).
Proof.
  unfold update_message_size. rewrite zlen_app, chunk_header_len. pose proof (zlen_nonneg rest).
  unfold MESSAGE_CHUNK_HEADER_SIZE, MESSAGE_SIZE_OFFSET. repeat decide_test. do 2 f_equal.
  destruct h as [t f size id]. unfold chunk_header_encode, with_size, write_u8, write_u32.
  cbn [message_type is_final message_size header_channel_id concat app]. rewrite app_nil_r, <- !app_assoc.
  assert (length (message_type_code t) = 3%nat) as Ht by (by destruct t).
  set (c := message_type_code t) in *. set (e := le_bytes 1 _). set (s := le_bytes 4 size).
  assert (length e = 1%nat /\ length s = 4%nat) as [He Hl] by (split; apply length_le_bytes).
  assert (take 4 (c ++ e ++ s ++ le_bytes 4 id ++ rest) = c ++ e) as ->.
  { rewrite (app_assoc c). apply take_app_length'. rewrite length_app. lia. }
  assert (drop 8 (c ++ e ++ s ++ le_bytes 4 id ++ rest) = le_bytes 4 id ++ rest) as ->.
  { rewrite (app_assoc c), (app_assoc (c ++ e)). apply drop_app_length'. rewrite !length_app. lia. }
  by rewrite <- app_assoc.
Qed.

Section facts.
Context {FT : Features} {CL : CryptoLib} {PK : Pki} {AL : AsymmetricLib}.

Lemma decode_symmetric_header o is_open known token rest : is_open = false -> is_u32 token ->
  decode_with_known_policy o is_open known (le_bytes 4 token ++ rest) = Ret (Ok (Symmetric token, rest)).
Proof. intros -> Ht. unfold decode_with_known_policy. by rewrite run_token. Qed.

(** The chunks of this file: not OpenSecureChannel, with a header that fits their fields. *)
Definition chunk_ok (h : MessageChunkHeader) (token : Z) (seq : SequenceHeader) : Prop :=
  is_open_secure_channel (message_type h) = false /\ is_header h /\ is_u32 token /\ is_sequence_header seq.

Lemma chunk_info_symmetric sc h token seq body : chunk_ok h token seq ->
  chunk_info sc (symmetric_chunk h token seq body)
  = Ret (Ok {| message_header := h; security_header := Symmetric token; sequence_header := seq;
               security_header_offset := 12; sequence_header_offset := 16; body_offset := 24;
               body_length := zlen body |}).
Proof.
  intros (Ho & Hh & Ht & Hs). unfold chunk_info. rewrite zlen_symmetric_chunk. unfold symmetric_chunk at 1.
  rewrite run_header by done. cbn [comp_bind]. rewrite decode_symmetric_header by done.
  cbn [comp_bind]. rewrite run_sequence by done. cbn [comp_bind].
  rewrite zlen_app, zlen_le_bytes, zlen_content. do 3 f_equal; lia.
Qed.

Lemma encrypted_data_offset_symmetric o h token seq body : chunk_ok h token seq ->
  encrypted_data_offset o (symmetric_chunk h token seq body) = Ret (Ok 16).
Proof.
  intros (Ho & Hh & Ht & Hs). unfold encrypted_data_offset. rewrite zlen_symmetric_chunk. unfold symmetric_chunk at 1.
  rewrite run_header by done. cbn [comp_bind]. rewrite decode_symmetric_header by done.
  cbn [comp_bind]. rewrite zlen_content. do 2 f_equal. lia.
Qed.

Lemma symmetric_chunk_not_open h token seq body : chunk_ok h token seq ->
  chunk_is_open_secure_channel (symmetric_chunk h token seq body) = false.
Proof.
  intros (Ho & Hh & Ht & Hs). unfold chunk_is_open_secure_channel, symmetric_chunk. by rewrite run_header.
Qed.

Lemma chunk_new_symmetric n request t fin sc data : is_open_secure_channel t = false ->
  chunk_new n request t fin sc data
  = Ret (symmetric_chunk {| message_type := t; is_final := fin; message_size := 24 + zlen data;
                            header_channel_id := secure_channel_id sc |}
           (token_id sc) {| sequence_number := n; request_id := request |} data).
Proof.
  intros Ht. unfold chunk_new, make_security_header. destruct t; [|done|];
    cbn [outcome_bind security_header_byte_len security_header_encode byte_len SequenceHeader_encodable encode
      MessageChunkHeader_encodable]; do 2 f_equal; unfold symmetric_chunk, content;
    rewrite !concat_app; cbn [write_u32 concat]; by rewrite !app_nil_r.
Qed.

(** ** Securing a chunk with symmetric keys *)

(** A channel whose handshake is complete: an encrypting policy, signing or signing and encrypting. *)
Definition established (sc : SecureChannel) : Prop :=
  channel_policy (security_policy sc) = true /\ is_supported (security_policy sc) = true
  /\ security_policy_valid sc = true
  /\ (security_mode sc = ModeSign \/ security_mode sc = ModeSignAndEncrypt).

Definition signature_len (sc : SecureChannel) : Z :=
  digest_size (symmetric_signature (symmetric_policy (security_policy sc))).
Definition encrypts (sc : SecureChannel) : bool := bool_decide (security_mode sc = ModeSignAndEncrypt).

(** The padding of a body of [n] bytes. *)
Definition padding_for (sc : SecureChannel) (n : Z) : Z :=
  if encrypts sc then
    let m := (8 + n + signature_len sc + 1) mod 16 in if m =? 0 then 1 else 1 + (16 - m)
  else 0.
(** The length of a secured chunk with a body of [n] bytes. *)
Definition secured_len (sc : SecureChannel) (n : Z) : Z := 24 + n + padding_for sc n + signature_len sc.

Lemma signature_len_range sc : 20 <= signature_len sc <= 48.
Proof. unfold signature_len. destruct (symmetric_signature _); simpl; lia. Qed.

Lemma padding_for_range sc n : 0 <= padding_for sc n <= 16
  /\ (encrypts sc = true -> 1 <= padding_for sc n /\ (8 + n + padding_for sc n + signature_len sc) mod 16 = 0).
Proof.
  unfold padding_for. destruct (encrypts sc); [|split; [lia|done]].
  set (m := 8 + n + signature_len sc + 1). pose proof (Z.mod_pos_bound m 16 ltac:(lia)).
  pose proof (Z.div_mod m 16 ltac:(lia)).
  destruct (Z.eqb_spec (m mod 16) 0) as [Hm|Hm]; (split; [lia|]); intros _; (split; [lia|]).
  - replace (8 + n + 1 + signature_len sc) with m by (unfold m; lia). done.
  - replace (8 + n + (1 + (16 - m mod 16)) + signature_len sc) with ((m / 16 + 1) * 16) by (unfold m in *; lia).
    apply Z.mod_mul. lia.
Qed.

(** The padded chunk, before signing. *)
Lemma add_space_symmetric sc h token seq body : established sc -> chunk_ok h token seq ->
  add_space_for_padding_and_signature sc (symmetric_chunk h token seq body)
  = Ret (Ok (concat (chunk_header_encode (with_size (secured_len sc (zlen body)) h)) ++ le_bytes 4 token
             ++ content seq body ++ padding_bytes (padding_for sc (zlen body)) 1
             ++ repeat 0 (Z.to_nat (signature_len sc)))).
Proof.
  intros (Hp & Hsup & _ & Hmode) Hc. pose proof (policy_sizes _ Hp Hsup) as (Hsig & Hpad & _).
  unfold add_space_for_padding_and_signature. rewrite chunk_info_symmetric by done.
  cbn [comp_bind security_header body_length message_header signature_size]. rewrite Hsig. cbn [outcome_bind].
  assert (exists minp, (minp = 1 \/ padding_for sc (zlen body) = 0) /\
    padding_size sc (Symmetric token) (zlen body) (signature_len sc) (message_type h)
    = Ret (Ok (padding_for sc (zlen body), minp))) as (minp & Hminp & Hps).
  { unfold padding_size, get_padding_block_sizes, padding_for, encrypts. destruct Hc as (-> & _).
    assert (security_policy sc <> PolicyNone) as Hnone by (intros E; by rewrite E in Hp).
    rewrite (bool_decide_eq_false_2 _ Hnone), Hpad.
    destruct Hmode as [-> | ->].
    - exists 0. split; [by right|]. done.
    - exists 1. split; [by left|]. cbn [orb negb andb bool_decide decide decide_rel outcome_bind padding_block_size
        padding_minimum comp_bind Z.eqb]. rewrite bool_decide_eq_true_2 by done. simpl.
      destruct (Z.eqb_spec ((8 + zlen body + signature_len sc + 1) mod 16) 0); done. }
  change (digest_size _) with (signature_len sc). rewrite Hps. cbn [comp_bind].
  assert (padding_bytes (padding_for sc (zlen body)) minp = padding_bytes (padding_for sc (zlen body)) 1) as ->.
  { destruct Hminp as [-> | ->]; done. }
  rewrite zlen_symmetric_chunk, concat_write_bytes. unfold symmetric_chunk. rewrite <- !app_assoc.
  rewrite update_message_size_header. by unfold secured_len.
Qed.

Definition keys_ok (sc : SecureChannel) (ks : AesDerivedKeys) : Prop :=
  zlen (encryption_key ks) = key_length (symmetric_encryption (symmetric_policy (security_policy sc)))
  /\ zlen (initialization_vector ks) = 16.

(** The parts of a secured chunk: clear header, signed and encrypted content, signature. *)
Definition clear_part (sc : SecureChannel) (h : MessageChunkHeader) (token : Z) (body : bytes) : bytes :=
  concat (chunk_header_encode (with_size (secured_len sc (zlen body)) h)) ++ le_bytes 4 token.
Definition signed_part (sc : SecureChannel) (seq : SequenceHeader) (body : bytes) : bytes :=
  content seq body ++ padding_bytes (padding_for sc (zlen body)) 1.
Definition signature_of (sc : SecureChannel) (ks : AesDerivedKeys) (data : bytes) : bytes :=
  hmac (symmetric_signature (symmetric_policy (security_policy sc))) (signing_key ks) data.
Definition secured_chunk (sc : SecureChannel) (ks : AesDerivedKeys) (h : MessageChunkHeader) (token : Z)
    (seq : SequenceHeader) (body : bytes) : bytes :=
  let clear := clear_part sc h token body in
  let inner := signed_part sc seq body in
  let protected := inner ++ signature_of sc ks (clear ++ inner) in
  clear ++ (if encrypts sc then aes_cbc_encrypt (encryption_key ks) (initialization_vector ks) protected
            else protected).

Lemma zlen_clear_part sc h token body : zlen (clear_part sc h token body) = 16.
Proof. unfold clear_part. by rewrite zlen_app, chunk_header_len, zlen_le_bytes. Qed.

Lemma padding_for_ok sc n k : k <= 256 -> encrypts sc = true -> padding_ok (padding_for sc n) 1 k.
Proof. intros Hk He. pose proof (padding_for_range sc n) as (? & H). specialize (H He). left. lia. Qed.

Lemma zlen_signed_part sc seq body : zlen (signed_part sc seq body) = 8 + zlen body + padding_for sc (zlen body).
Proof.
  unfold signed_part. rewrite zlen_app, zlen_content. f_equal. destruct (encrypts sc) eqn:E.
  - eapply zlen_padding_bytes, (padding_for_ok sc _ 0); [lia|done].
  - unfold padding_for. by rewrite E.
Qed.

Context {LAWS : SymmetricLaws CL}.

Lemma zlen_signature sc ks data : zlen (signature_of sc ks data) = signature_len sc.
Proof. apply hmac_size. Qed.

Lemma zlen_secured_chunk sc ks h token seq body :
  zlen (secured_chunk sc ks h token seq body) = secured_len sc (zlen body).
Proof.
  unfold secured_chunk. rewrite zlen_app, zlen_clear_part.
  destruct (encrypts sc); rewrite ?cbc_size, zlen_app, zlen_signed_part, zlen_signature; unfold secured_len; lia.
Qed.

Lemma symmetric_sign_policy sc ks data : established sc ->
  symmetric_sign (security_policy sc) ks data (signature_len sc) = Ret (Ok (signature_of sc ks data)).
Proof.
  intros (Hp & Hsup & _). unfold symmetric_sign. rewrite policy_dispatch by done.
  unfold hmac_sign, signature_len. by rewrite Z.eqb_refl.
Qed.
Lemma symmetric_verify_policy sc ks data : established sc ->
  symmetric_verify_signature (security_policy sc) ks data (signature_of sc ks data) = Ret (Ok tt).
Proof.
  intros (Hp & Hsup & _). unfold symmetric_verify_signature. rewrite policy_dispatch by done.
  unfold verify_hmac. rewrite zlen_signature. unfold signature_len. rewrite Z.eqb_refl. cbn [andb].
  unfold signature_of. by rewrite bool_decide_eq_true_2.
Qed.

Lemma symmetric_crypt_policy sc ks src dst_len : established sc -> keys_ok sc ks ->
  zlen src + 16 <= dst_len -> zlen src mod 16 = 0 ->
  symmetric_encrypt (security_policy sc) ks src dst_len
    = Ret (Ok (aes_cbc_encrypt (encryption_key ks) (initialization_vector ks) src))
  /\ symmetric_decrypt (security_policy sc) ks src dst_len
    = Ret (Ok (aes_cbc_decrypt (encryption_key ks) (initialization_vector ks) src)).
Proof.
  intros (Hp & Hsup & _) (Hkey & Hiv) Hdst Hmod. pose proof (policy_sizes _ Hp Hsup) as (_ & _ & _ & He).
  unfold symmetric_encrypt, symmetric_decrypt. rewrite !policy_dispatch by done. unfold aes_crypt.
  assert (validate_args (symmetric_encryption (symmetric_policy (security_policy sc))) src
            (initialization_vector ks) dst_len = Ok tt) as ->.
  { unfold validate_args, block_size. destruct He as [-> | ->];
      (decide_test; rewrite Hiv, Hmod; done). }
  cbn [comp_bind]. unfold run_cipher. rewrite Hkey. destruct He as [-> | ->]; done.
Qed.

Lemma sign_in_place_spec sc ks l : established sc -> local_keys sc = Some ks ->
  symmetric_sign_in_place sc (l ++ repeat 0 (Z.to_nat (signature_len sc))) (zlen l)
  = Ret (Ok (l ++ signature_of sc ks l, zlen l + signature_len sc)).
Proof.
  intros He Hk. pose proof He as (Hp & Hsup & _). pose proof (policy_sizes _ Hp Hsup) as (Hsig & _).
  pose proof (signature_len_range sc). unfold symmetric_sign_in_place. rewrite Hsig. cbn [outcome_bind].
  change (digest_size _) with (signature_len sc). rewrite zlen_app, zlen_repeat. decide_test.
  replace (Z.to_nat (zlen l)) with (length l) by (unfold zlen; lia).
  rewrite take_app_length, drop_app_length, zlen_repeat. decide_test.
  unfold get_local_keys. rewrite Hk. cbn [ok_or comp_bind]. rewrite symmetric_sign_policy by done. cbn [comp_bind].
  rewrite skipn_all2, app_nil_r by (rewrite repeat_length; lia). done.
Qed.

Lemma secured_len_min sc n : 0 <= n -> 24 + signature_len sc <= secured_len sc n.
Proof. pose proof (signature_len_range sc). pose proof (padding_for_range sc n). unfold secured_len. lia. Qed.

Lemma secured_len_blocks sc n : encrypts sc = true -> (secured_len sc n - 16) mod 16 = 0.
Proof.
  intros E. destruct (padding_for_range sc n) as [_ Hr]. destruct (Hr E) as [_ <-]. unfold secured_len. f_equal. lia.
Qed.

Lemma apply_security_symmetric sc ks rng h token seq body dst_len :
  established sc -> local_keys sc = Some ks -> keys_ok sc ks -> chunk_ok h token seq ->
  secured_len sc (zlen body) + 16 <= dst_len ->
  apply_security sc rng (symmetric_chunk h token seq body) dst_len
  = Ret (Ok (secured_chunk sc ks h token seq body, sc)).
Proof.
  intros He Hk Hkeys Hc Hdst. pose proof He as (Hp & Hsup & Hvalid & Hmode).
  pose proof (policy_sizes _ Hp Hsup) as (Hsig & _). pose proof (signature_len_range sc) as Hsl.
  pose proof (secured_len_min sc (zlen body) (zlen_nonneg body)) as Hmin.
  assert (security_policy sc <> PolicyNone) as Hnone by (intros E; by rewrite E in Hp).
  unfold apply_security. rewrite (bool_decide_eq_false_2 _ Hnone).
  replace (match security_mode sc with ModeSign | ModeSignAndEncrypt => true | _ => false end) with true
    by (by destruct Hmode as [-> | ->]). cbn [negb andb].
  rewrite encrypted_data_offset_symmetric by done. cbn [comp_bind]. rewrite add_space_symmetric by done.
  cbn [comp_bind]. rewrite symmetric_chunk_not_open by done. rewrite Hsig. cbn [outcome_bind].
  change (digest_size _) with (signature_len sc).
  set (clear := clear_part sc h token body). set (inner := signed_part sc seq body).
  replace (concat (chunk_header_encode _) ++ _) with ((clear ++ inner) ++ repeat 0 (Z.to_nat (signature_len sc)))
    by (unfold clear, inner, clear_part, signed_part; by rewrite <- !app_assoc).
  assert (zlen (clear ++ inner) + signature_len sc = secured_len sc (zlen body)) as Hlen.
  { unfold clear, inner, secured_len. rewrite zlen_app, zlen_clear_part, zlen_signed_part. lia. }
  set (l := clear ++ inner) in *. rewrite zlen_app, zlen_repeat, Z2Nat.id by lia.
  replace (zlen l + signature_len sc - signature_len sc) with (zlen l) by lia.
  unfold symmetric_sign_and_encrypt, secured_chunk, encrypts, expect_supported_security_policy. rewrite Hvalid. cbn [comp_bind].
  fold clear inner l. pose proof (zlen_signature sc ks l) as Hmac.
  destruct Hmode as [Hm|Hm]; rewrite Hm; cbn [comp_bind]; rewrite (sign_in_place_spec sc ks) by done; cbn [comp_bind].
  - decide_test. rewrite bool_decide_eq_false_2 by done.
    rewrite slice_whole by (by rewrite zlen_app, Hmac). cbn [ok_or comp_bind].
    rewrite zlen_app, Hmac, Hlen. decide_test. unfold l. by rewrite <- app_assoc.
  - rewrite bool_decide_eq_true_2 by done. unfold get_local_keys. rewrite Hk. cbn [ok_or comp_bind].
    unfold l at 1. rewrite <- app_assoc.
    rewrite slice_suffix by (rewrite ?zlen_app, ?Hmac; unfold clear, inner in *;
                             rewrite ?zlen_clear_part, ?zlen_signed_part; unfold secured_len in Hlen; lia).
    cbn [ok_or comp_bind]. decide_test.
    assert (zlen (inner ++ signature_of sc ks l) = secured_len sc (zlen body) - 16) as Hz.
    { unfold inner, secured_len. rewrite zlen_app, zlen_signed_part, Hmac. lia. }
    assert (encrypts sc = true) as Henc by (unfold encrypts; by rewrite Hm).
    edestruct (symmetric_crypt_policy sc ks (inner ++ signature_of sc ks l) (dst_len - 16)) as [-> _];
      [done|done|lia|rewrite Hz; by apply secured_len_blocks|].
    cbn [comp_bind]. unfold l. rewrite <- app_assoc, slice_prefix by (unfold clear; by rewrite zlen_clear_part).
    cbn [ok_or comp_bind]. rewrite zlen_app, cbc_size. fold l. rewrite Hz. unfold clear. rewrite zlen_clear_part.
    by decide_test.
Qed.

(** ** Receiving a secured chunk *)

(** The receiver uses the sender's policy and mode, and holds the keys of the token. *)
Definition matching (sc rc : SecureChannel) (token : Z) (ks : AesDerivedKeys) : Prop :=
  security_policy rc = security_policy sc /\ security_mode rc = security_mode sc
  /\ get_remote_keys token rc = Some ks.

Lemma matching_len sc rc token ks n : matching sc rc token ks ->
  signature_len rc = signature_len sc /\ encrypts rc = encrypts sc /\ padding_for rc n = padding_for sc n.
Proof.
  intros (Hp & Hm & _). unfold padding_for, encrypts, signature_len. by rewrite Hp, Hm.
Qed.

Lemma symmetric_verify_matching sc rc token ks data : established rc -> matching sc rc token ks ->
  symmetric_verify_signature (security_policy rc) ks data (signature_of sc ks data) = Ret (Ok tt).
Proof.
  intros He (Hp & _). rewrite <- (symmetric_verify_policy rc ks data He). unfold signature_of. by rewrite Hp.
Qed.

(** The receiver finds the clear header, the content and the padding, and nothing else. *)
Lemma decrypt_and_verify_spec sc rc ks h token seq body :
  established rc -> matching sc rc token ks -> keys_ok sc ks ->
  let len := secured_len sc (zlen body) in
  exists rest,
    symmetric_decrypt_and_verify rc (secured_chunk sc ks h token seq body) (len - signature_len sc) (16, len) token len
    = Ret (Ok (clear_part sc h token body ++ content seq body ++ rest, 24 + zlen body)).
Proof.
  intros He Hm Hkeys len. pose proof He as (Hp & Hsup & Hvalid & Hmode).
  destruct (matching_len sc rc token ks 0 Hm) as (Hsl & Henc & _). pose proof Hm as (Hpol & Hmd & Hks).
  pose proof (policy_sizes _ Hp Hsup) as (Hsig & _ & (klen & Hklen & Hk256) & _).
  pose proof (signature_len_range sc) as Hr. pose proof (secured_len_min sc (zlen body) (zlen_nonneg body)) as Hmin.
  pose proof (zlen_secured_chunk sc ks h token seq body) as Hlen. fold len in Hmin, Hlen.
  unfold symmetric_decrypt_and_verify, secured_chunk, expect_supported_security_policy in *. rewrite Hvalid, Hks.
  set (clear := clear_part sc h token body) in *. set (inner := signed_part sc seq body) in *.
  set (mac := signature_of sc ks (clear ++ inner)) in *.
  assert (zlen clear = 16) as Hc by apply zlen_clear_part. assert (zlen mac = signature_len sc) as Hmac by apply zlen_signature.
  assert (zlen (clear ++ inner) = len - signature_len sc) as Hci.
  { unfold inner, len, secured_len. rewrite zlen_app, Hc, zlen_signed_part. lia. }
  assert (Hverify : symmetric_verify_signature (security_policy rc) ks (clear ++ inner) mac = Ret (Ok tt))
    by by apply (symmetric_verify_matching sc rc token ks).
  assert (security_mode rc = ModeSign /\ encrypts sc = false
          \/ security_mode rc = ModeSignAndEncrypt /\ encrypts sc = true) as Hcase.
  { unfold encrypts. rewrite <- Hmd. destruct Hmode as [-> | ->]; [left|right]; done. }
  destruct Hcase as [[Hmo Henc']|[Hmo Henc']]; rewrite Hmo; rewrite Henc' in *; cbn [comp_bind].
  - exists mac. rewrite Hlen. fold len. rewrite Z.eqb_refl. cbn [negb].
    rewrite (app_assoc clear). cbn [ok_or comp_bind].
    rewrite slice_prefix by lia. rewrite slice_suffix by (rewrite ?Hmac; lia). cbn [ok_or comp_bind].
    rewrite Hverify. cbn [comp_bind]. do 3 f_equal.
    + unfold inner, signed_part, padding_for. rewrite Henc', app_nil_r. by rewrite <- app_assoc.
    + unfold len, secured_len, padding_for. rewrite Henc'. lia.
  - exists (padding_bytes (padding_for sc (zlen body)) 1 ++ mac ++ []).
    set (cipher := aes_cbc_encrypt _ _ _) in *. rewrite zlen_app, Hc in Hlen. decide_test.
    rewrite slice_prefix by lia. cbn [ok_or comp_bind]. rewrite slice_suffix by lia. cbn [ok_or comp_bind].
    assert (zlen (inner ++ mac) = len - 16) as Him by (rewrite zlen_app in *; lia).
    destruct (symmetric_crypt_policy rc ks cipher (len - 16 + 16)) as [_ ->];
      [done|unfold keys_ok in *; by rewrite Hpol|lia|replace (zlen cipher) with (len - 16) by lia; by apply secured_len_blocks|].
    unfold cipher. rewrite cbc_inverse; [|rewrite Him; by apply secured_len_blocks|apply Hkeys]. cbn [comp_bind].
    rewrite Him. replace (16 + (len - 16)) with len by lia. rewrite Z.ltb_irrefl, Z.sub_diag. change (repeat 0 (Z.to_nat 0)) with (@nil Z).
    rewrite Hsig. cbn [outcome_bind]. change (digest_size _) with (signature_len rc). rewrite Hsl.
    unfold checked_sub. decide_test. cbn [ok_or comp_bind]. rewrite app_nil_r, (app_assoc clear).
    rewrite slice_prefix by lia. rewrite slice_suffix by (rewrite ?Hmac; lia). cbn [ok_or comp_bind].
    rewrite Hverify. cbn [comp_bind]. rewrite Hklen. cbn [outcome_bind].
    unfold inner, signed_part. rewrite <- !app_assoc, (app_assoc clear).
    rewrite (verify_padding_written (clear ++ content seq body) mac _ 1);
      [|by apply padding_for_ok|rewrite zlen_app, Hc, zlen_content; unfold len, secured_len; lia].
    cbn [comp_bind]. rewrite zlen_app, Hc, zlen_content, app_nil_r, <- !app_assoc. do 3 f_equal. lia.
Qed.

Lemma with_size_with_size m n h : with_size m (with_size n h) = with_size m h.
Proof. done. Qed.
Lemma with_own_size h : with_size (message_size h) h = h.
Proof. by destruct h. Qed.

Lemma verify_and_remove_security_symmetric sc rc ks h token seq body :
  established rc -> matching sc rc token ks -> keys_ok sc ks -> chunk_ok h token seq ->
  message_size h = 24 + zlen body -> secured_len sc (zlen body) <= u32_max ->
  verify_and_remove_security rc (secured_chunk sc ks h token seq body)
  = Ret (Ok (symmetric_chunk h token seq body, rc)).
Proof.
  intros He Hm Hkeys Hc Hsize Hu. pose proof He as (Hp & Hsup & Hvalid & Hmode). pose proof Hc as (Ho & Hh & Ht & Hs).
  pose proof (policy_sizes _ Hp Hsup) as (Hsig & _). destruct (matching_len sc rc token ks 0 Hm) as (Hsl & _).
  pose proof (secured_len_min sc (zlen body) (zlen_nonneg body)) as Hmin. pose proof (signature_len_range sc) as Hr.
  assert (security_policy rc <> PolicyNone) as Hnone by (intros E; by rewrite E in Hp).
  set (len := secured_len sc (zlen body)) in *.
  assert (decode_message_header rc (secured_chunk sc ks h token seq body)
          = Ret (Ok (with_size len h, Symmetric token, 16))) as Hdec.
  { unfold decode_message_header. rewrite zlen_secured_chunk. unfold secured_chunk at 1, clear_part at 1.
    rewrite <- app_assoc, run_header by (destruct Hh; split; simpl; [int_lia|done]). cbn [comp_bind].
    rewrite decode_symmetric_header by done. cbn [comp_bind with_size message_size]. fold len. rewrite Z.eqb_refl.
    cbn [negb]. do 3 f_equal.
    pose proof (zlen_secured_chunk sc ks h token seq body) as Hl. unfold secured_chunk in Hl at 1.
    rewrite zlen_app, zlen_clear_part in Hl. fold len in Hl. lia. }
  unfold verify_and_remove_security. rewrite Hdec. cbn [comp_bind with_size message_type message_size]. rewrite Ho.
  unfold is_secure_connection. rewrite (bool_decide_eq_false_2 _ Hnone).
  replace (match security_mode rc with ModeSign | ModeSignAndEncrypt => true | _ => false end) with true
    by (by destruct Hmode as [-> | ->]). cbn [negb andb].
  rewrite Hsig. cbn [outcome_bind]. change (digest_size _) with (signature_len rc). rewrite Hsl.
  unfold secure_message_ranges. decide_test. unfold checked_sub. decide_test. cbn [ok_or result_bind comp_bind].
  unfold decrypt_chunk. cbn [snd].
  destruct (decrypt_and_verify_spec sc rc ks h token seq body He Hm Hkeys) as (rest & Hdv).
  fold len in Hdv. rewrite Hdv. cbn [comp_bind]. unfold clear_part. rewrite <- !app_assoc, update_message_size_header, with_size_with_size.
  replace (with_size (24 + zlen body) h) with h by (rewrite <- Hsize; by rewrite with_own_size).
  cbn [comp_bind]. do 3 f_equal.
  rewrite (app_assoc (le_bytes 4 token)), app_assoc. fold (symmetric_chunk h token seq body).
  apply take_app_length'. pose proof (zlen_symmetric_chunk h token seq body) as Hz. unfold zlen in *. lia.
Qed.

Lemma symmetric_round_trip sc rc ks rng n request t fin data dst_len :
  established sc -> security_policy_valid rc = true ->
  local_keys sc = Some ks -> keys_ok sc ks -> matching sc rc (token_id sc) ks ->
  is_open_secure_channel t = false ->
  is_u32 n -> is_u32 request -> is_u32 (token_id sc) -> is_u32 (secure_channel_id sc) ->
  secured_len sc (zlen data) <= u32_max -> secured_len sc (zlen data) + 16 <= dst_len ->
  exists chunk secured,
    chunk_new n request t fin sc data = Ret chunk
    /\ apply_security sc rng chunk dst_len = Ret (Ok (secured, sc))
    /\ verify_and_remove_security rc secured = Ret (Ok (chunk, rc)).
Proof.
  intros He Hv Hk Hkeys Hm Ht Hn Hreq Htok Hid Hu Hdst. rewrite chunk_new_symmetric by done.
  pose proof (secured_len_min sc (zlen data) (zlen_nonneg data)). pose proof (zlen_nonneg data).
  pose proof (padding_for_range sc (zlen data)) as [? _]. pose proof (signature_len_range sc).
  match goal with |- context [symmetric_chunk ?h ?tok ?seq _] =>
    exists (symmetric_chunk h tok seq data), (secured_chunk sc ks h tok seq data); assert (chunk_ok h tok seq) end.
  { repeat split; simpl; try done; unfold secured_len in *; int_lia. }
  split; [done|]. split; [by apply apply_security_symmetric|].
  apply verify_and_remove_security_symmetric; try done.
  destruct He as (Hp & Hs & _ & Hmode). destruct Hm as (Hpol & Hmd & _). unfold established. by rewrite Hpol, Hmd.
Qed.

(** C4: a chunk that one side of an established channel secures is accepted by the other side, which
    holds the keys of the token, and comes out byte for byte as it was before: header, size, sequence
    header and body. *)
Theorem symmetric_security_round_trip sc rc ks rng n request t fin data dst_len :
  established sc -> security_policy_valid rc = true ->
  local_keys sc = Some ks -> keys_ok sc ks -> matching sc rc (token_id sc) ks ->
  is_open_secure_channel t = false ->
  is_u32 n -> is_u32 request -> is_u32 (token_id sc) -> is_u32 (secure_channel_id sc) ->
  secured_len sc (zlen data) <= u32_max -> secured_len sc (zlen data) + 16 <= dst_len ->
  exists chunk secured,
    chunk_new n request t fin sc data = Ret chunk
    /\ apply_security sc rng chunk dst_len = Ret (Ok (secured, sc))
    /\ verify_and_remove_security rc secured = Ret (Ok (chunk, rc)).
Proof. exact (symmetric_round_trip sc rc ks rng n request t fin data dst_len). Qed.

Lemma checked_add_ok a b : a + b <= usize_max -> checked_add a b = Some (a + b).
Proof. intros. by apply checked_add_Some. Qed.

Lemma body_size_symmetric sc t max : established sc -> is_open_secure_channel t = false ->
  MIN_CHUNK_SIZE <= max -> max <= usize_max ->
  body_size_from_message_size t sc max
  = Ret (Ok (if encrypts sc then max - max mod 16 - (25 + signature_len sc) else max - (24 + signature_len sc))).
Proof.
  intros He Ht Hmin Hmax. pose proof He as (Hp & Hsup & _ & Hmode).
  pose proof (policy_sizes _ Hp Hsup) as (Hsig & Hpad & _). pose proof (signature_len_range sc).
  assert (security_policy sc <> PolicyNone) as Hnone by (intros E; by rewrite E in Hp).
  unfold MIN_CHUNK_SIZE in *. unfold body_size_from_message_size, MIN_CHUNK_SIZE. decide_test.
  assert (make_security_header sc t = Ret (Symmetric (token_id sc))) as -> by (by destruct t).
  cbn [outcome_bind signature_size]. rewrite Hsig. cbn [outcome_bind]. change (digest_size _) with (signature_len sc).
  unfold get_padding_block_sizes, encrypts. rewrite (bool_decide_eq_false_2 _ Hnone), Ht, Hpad.
  pose proof (Z.mod_pos_bound max 16 ltac:(lia)).
  change (MESSAGE_CHUNK_HEADER_SIZE + _ + _) with 24.
  destruct Hmode as [-> | ->].
  - rewrite bool_decide_eq_false_2 by done. cbn [negb andb orb comp_bind]. rewrite Z.ltb_irrefl.
    rewrite checked_add_ok by int_lia. cbn [option_bind]. rewrite checked_add_ok by int_lia. cbn [ok_or comp_bind].
    unfold checked_sub. repeat decide_test. do 2 f_equal. lia.
  - rewrite bool_decide_eq_true_2 by done. cbn [negb andb orb comp_bind outcome_bind padding_block_size padding_minimum].
    rewrite checked_add_ok by int_lia. cbn [option_bind]. rewrite checked_add_ok by int_lia. cbn [ok_or comp_bind Z.ltb Z.compare].
    unfold checked_sub. repeat decide_test. do 2 f_equal. lia.
Qed.

Lemma secured_len_fits sc max m :
  (m <= (if encrypts sc then max - max mod 16 - (25 + signature_len sc) else max - (24 + signature_len sc)))
  <-> secured_len sc m <= max.
Proof.
  pose proof (padding_for_range sc m) as [Hr Hb]. pose proof (Z.div_mod max 16 ltac:(lia)) as Hd.
  pose proof (Z.mod_pos_bound max 16 ltac:(lia)). unfold secured_len in *. destruct (encrypts sc) eqn:E.
  - destruct (Hb eq_refl) as [H1 H2]. pose proof (Z.div_mod (8 + m + padding_for sc m + signature_len sc) 16 ltac:(lia)).
    split; intros; lia.
  - unfold padding_for. rewrite E. lia.
Qed.

(** The body size computed for the negotiated chunk size is exact: for every channel with
    symmetric security there is one, it is positive, and the secured form of a chunk stays within the
    negotiated size exactly when its body is not longer. *)
Theorem body_size_maximal sc ks rng t max dst_len n request fin data :
  established sc -> local_keys sc = Some ks -> keys_ok sc ks -> is_open_secure_channel t = false ->
  MIN_CHUNK_SIZE <= max -> max <= usize_max ->
  is_u32 n -> is_u32 request -> is_u32 (token_id sc) -> is_u32 (secure_channel_id sc) ->
  secured_len sc (zlen data) <= u32_max -> secured_len sc (zlen data) + 16 <= dst_len ->
  exists body_size chunk secured,
    body_size_from_message_size t sc max = Ret (Ok body_size) /\ 0 < body_size
    /\ chunk_new n request t fin sc data = Ret chunk
    /\ apply_security sc rng chunk dst_len = Ret (Ok (secured, sc))
    /\ (zlen data <= body_size <-> zlen secured <= max).
Proof.
  intros He Hk Hkeys Ht Hmin Hmax Hn Hreq Htok Hid Hu Hdst. rewrite body_size_symmetric, chunk_new_symmetric by done.
  pose proof (secured_len_min sc (zlen data) (zlen_nonneg data)). pose proof (zlen_nonneg data).
  pose proof (padding_for_range sc (zlen data)) as [? _]. pose proof (signature_len_range sc).
  pose proof (Z.mod_pos_bound max 16 ltac:(lia)). unfold MIN_CHUNK_SIZE in *.
  match goal with |- context [symmetric_chunk ?h ?tok ?seq _] => assert (chunk_ok h tok seq) end.
  { repeat split; simpl; try done; unfold secured_len in *; int_lia. }
  do 3 eexists. split; [done|]. split; [destruct (encrypts sc); lia|]. split; [done|].
  split; [by apply apply_security_symmetric|]. rewrite zlen_secured_chunk. apply secured_len_fits.
Qed.

(** ** What a secured connection accepts *)

Lemma slice_Some (l : bytes) a b m : slice l a b = Some m ->
  0 <= a /\ a <= b /\ b <= zlen l /\ m = take (Z.to_nat (b - a)) (drop (Z.to_nat a) l).
Proof. unfold slice. destruct (_ && _) eqn:E; [|done]. intros [= <-]. bool_to_prop. done. Qed.

Lemma verify_padding_range src k stop a b : verify_padding src k stop = Ok (a, b) -> 0 <= a /\ a <= stop.
Proof.
  unfold verify_padding. intros H. destruct (256 <? k).
  - destruct (stop <? 2); [done|]. apply result_bind_ok in H as (pb & _ & H).
    apply result_bind_ok in H as (eb & _ & H). apply result_bind_ok in H as (st & _ & H).
    apply result_bind_ok in H as (q & Hq & H). apply ok_or_ok, slice_Some in Hq.
    apply result_bind_ok in H as (? & _ & H). apply result_bind_ok in H as (? & _ & H).
    destruct (negb _); [done|]. injection H as <- <-. lia.
  - destruct (stop =? 0); [done|]. apply result_bind_ok in H as (pb & _ & H).
    apply result_bind_ok in H as (st & _ & H). apply result_bind_ok in H as (q & Hq & H).
    apply ok_or_ok, slice_Some in Hq. apply result_bind_ok in H as (? & _ & H). injection H as <- <-. lia.
Qed.

(** The two chunks agree except in the size field, and the first is not longer. *)
Definition covered_by (chunk signed : bytes) : Prop :=
  zlen chunk <= zlen signed /\ take 4 chunk `prefix_of` signed /\ drop 8 chunk `prefix_of` drop 8 signed.

Lemma update_message_size_Ok data n data' : update_message_size data n = Ret (Ok data') ->
  data' = take 4 data ++ le_bytes 4 n ++ drop 8 data /\ 8 <= zlen data.
Proof.
  unfold update_message_size, MESSAGE_SIZE_OFFSET. repeat case_match; try done. intros [= <-]. bool_to_prop. split; [done|lia].
Qed.

Lemma resized_covered (data : bytes) m n s data' : 0 <= n -> n <= m -> m <= zlen data ->
  update_message_size data s = Ret (Ok data') ->
  covered_by (take (Z.to_nat n) data') (take (Z.to_nat m) data).
Proof.
  intros Hn0 Hnm Hm (-> & H8)%update_message_size_Ok. unfold zlen in *.
  assert (length (take 4 data) = 4%nat) as Ht4 by (rewrite length_take; lia).
  pose proof (length_le_bytes 4 s) as Hle. unfold covered_by, zlen.
  rewrite !length_take, !length_app, Ht4, Hle, length_drop. split; [lia|]. split.
  - rewrite take_take, take_app_le by lia. rewrite take_take.
    replace (Nat.min (Nat.min 4 (Z.to_nat n)) 4) with (Nat.min (Nat.min 4 (Z.to_nat n)) (Z.to_nat m)) by lia.
    rewrite <- take_take. apply prefix_take.
  - destruct (decide (Z.to_nat n < 8)%nat).
    { rewrite drop_ge by (rewrite length_take; lia). apply prefix_nil. }
    rewrite (app_assoc (take 4 data)).
    rewrite take_app_ge by (rewrite length_app; lia). rewrite length_app, Ht4, Hle.
    rewrite drop_app_length' by (rewrite length_app; lia).
    rewrite skipn_firstn_comm.
    replace (Z.to_nat n - (4 + 4))%nat with (Nat.min (Z.to_nat n - 8) (Z.to_nat m - 8)) by lia.
    rewrite <- take_take. apply prefix_take.
Qed.

(** What a receiver has in the clear: the received bytes themselves on a signing channel; the headers
    (12 bytes and the 4 of the token) and what the rest decrypts to on an encrypting one. *)
Definition received_clear (sc : SecureChannel) (ks : AesDerivedKeys) (src clear : bytes) : Prop :=
  match security_mode sc with
  | ModeSignAndEncrypt =>
      exists plain, symmetric_decrypt (security_policy sc) ks (drop 16 src) (zlen (drop 16 src) + 16) = Ret (Ok plain)
        /\ clear = take 16 src ++ plain
  | _ => clear = src
  end.

(** The bytes under the signature: those of the received length without the signature, where a shorter
    decryption leaves the zeros of the receiving buffer. *)
Definition signed_bytes (sc : SecureChannel) (src clear : bytes) : bytes :=
  take (Z.to_nat (zlen src - signature_len sc)) (clear ++ repeat 0 (Z.to_nat (zlen src - zlen clear))).

Lemma verified_is_hmac sc ks data mac :
  symmetric_verify_signature (security_policy sc) ks data mac = Ret (Ok tt) ->
  mac = signature_of sc ks data /\ zlen mac = signature_len sc.
Proof.
  unfold signature_of, signature_len. intros H.
  assert (verify_hmac (symmetric_signature (symmetric_policy (security_policy sc))) (signing_key ks) data mac = true) as Hv.
  { unfold symmetric_verify_signature, call_with_symmetric, call_with_policy in H.
    destruct (security_policy sc); cbn [outcome_bind symmetric_policy] in *; repeat case_match; done. }
  unfold verify_hmac in Hv. bool_to_prop. done.
Qed.

Lemma take_drop_slice (l : bytes) a b m : slice l a b = Some m -> b = zlen l ->
  l = take (Z.to_nat a) l ++ m /\ zlen m = b - a.
Proof.
  intros (? & ? & ? & ->)%slice_Some ->. unfold zlen in *.
  rewrite (take_ge (drop _ _)) by (rewrite length_drop; lia). rewrite take_drop, length_drop. split; [done|lia].
Qed.

Lemma signed_decrypted sc src n dst size :
  security_mode sc = ModeSign -> 0 <= n -> forall token range,
  symmetric_decrypt_and_verify sc src (zlen src - n) range token (zlen src) = Ret (Ok (dst, size)) ->
  exists ks, get_remote_keys token sc = Some ks /\ dst = src /\ size = zlen src - signature_len sc
    /\ 0 <= size /\ n = signature_len sc
    /\ src = take (Z.to_nat size) src ++ signature_of sc ks (take (Z.to_nat size) src).
Proof.
  intros Hmode Hn0 token [start stop] H. unfold symmetric_decrypt_and_verify in H. rewrite Hmode, Z.eqb_refl in H. cbn [negb] in H.
  apply comp_bind_ok in H as (? & _ & H).
  apply comp_bind_ok in H as (ks & Hks & H). apply comp_bind_ok in H as (signed & Hsg & H).
  apply comp_bind_ok in H as (sg & Hsgn & H). apply comp_bind_ok in H as ([] & Hver & H). injection H as <- <-.
  injection Hks as Hks. injection Hsg as Hsg. injection Hsgn as Hsgn. apply ok_or_ok in Hks, Hsg, Hsgn.
  apply slice_Some in Hsg as (_ & Hse0 & Hle & ->). rewrite Z.sub_0_r, drop_0 in *.
  apply verified_is_hmac in Hver as [-> Hlen]. apply take_drop_slice in Hsgn as [Hsrc Hsgn]; [|done].
  assert (n = signature_len sc) as -> by lia. by eexists.
Qed.

Lemma encrypted_decrypted sc src n dst size : forall token,
  security_mode sc = ModeSignAndEncrypt -> symmetric_signature_size (security_policy sc) = Ret n -> 0 <= n ->
  symmetric_decrypt_and_verify sc src (zlen src - n) (16, zlen src) token (zlen src) = Ret (Ok (dst, size)) ->
  exists ks clear body, get_remote_keys token sc = Some ks /\ received_clear sc ks src clear
    /\ dst = clear ++ repeat 0 (Z.to_nat (zlen src - zlen clear)) /\ zlen clear <= zlen src
    /\ 0 <= size <= zlen body /\ n = signature_len sc /\ zlen body + n = zlen clear
    /\ clear = body ++ signature_of sc ks (signed_bytes sc src clear).
Proof.
  intros token Hmode Hsig Hn0 H. unfold symmetric_decrypt_and_verify in H. rewrite Hmode in H.
  apply comp_bind_ok in H as (? & _ & H). destruct (zlen src <? 16) eqn:Hlt; [done|].
  apply comp_bind_ok in H as (header & Hh & H). injection Hh as Hh.
  apply ok_or_ok, slice_Some in Hh as (_ & _ & Hhl & Hh). rewrite Z.sub_0_r, drop_0 in Hh. subst header.
  apply comp_bind_ok in H as (ks & Hks & H). apply comp_bind_ok in H as (cipher & Hc & H).
  apply comp_bind_ok in H as (plain & Hplain & H). injection Hc as Hc. apply ok_or_ok in Hc.
  apply take_drop_slice in Hc as [Hsrc Hcl]; [|done]. rewrite <- Hcl in Hplain.
  assert (cipher = drop 16 src) as ->.
  { rewrite Hsrc at 1. rewrite drop_app_length'; [done|]. rewrite length_take. unfold zlen in *. lia. }
  destruct (zlen src <? 16 + zlen plain) eqn:Hend; [done|]. bool_to_prop.
  set (clear := take 16 src ++ plain). change (Z.to_nat 16) with 16%nat in H.
  assert (zlen clear = 16 + zlen plain) as Hcz by (unfold clear, zlen in *; rewrite length_app, length_take; lia).
  rewrite app_assoc in H. fold clear in H. rewrite <- Hcz in H, Hend. rewrite Hsig in H. cbn [outcome_bind] in H.
  apply comp_bind_ok in H as (sstart & Hss & H). apply comp_bind_ok in H as (signed & Hsg & H).
  apply comp_bind_ok in H as (sg & Hsgn & H). apply comp_bind_ok in H as ([] & Hver & H).
  apply outcome_bind_ret in H as (key & _ & H). apply comp_bind_ok in H as ([ps pe] & Hpad & H). injection H as <- <-.
  injection Hks as Hks. injection Hsg as Hsg. injection Hss as Hss. injection Hpad as Hpad. injection Hsgn as Hsgn.
  apply ok_or_ok in Hks, Hsg, Hss, Hsgn. apply checked_sub_Some in Hss as [-> Hss].
  apply verify_padding_range in Hpad. apply slice_Some in Hsg as (_ & Hse0 & Hle & ->).
  rewrite Z.sub_0_r, drop_0 in *. apply verified_is_hmac in Hver as [-> Hlen].
  apply slice_Some in Hsgn as (_ & _ & _ & Hsgn).
  assert (n = signature_len sc) as ->.
  { rewrite <- Hlen, Hsgn. unfold zlen in *. rewrite length_take, length_drop, length_app. lia. }
  exists ks, clear, (take (Z.to_nat (zlen clear - signature_len sc)) clear).
  split; [done|]. split; [unfold received_clear; rewrite Hmode; by exists plain|]. split; [done|]. split; [lia|].
  split; [unfold zlen in *; rewrite length_take; lia|]. split; [done|].
  split; [unfold zlen in *; rewrite length_take; lia|]. unfold signed_bytes. rewrite Hsgn. rewrite drop_app_le by (unfold zlen in *; lia).
  rewrite take_app_le by (rewrite length_drop; unfold zlen in *; lia).
  rewrite (take_ge (drop _ _)) by (rewrite length_drop; unfold zlen in *; lia). by rewrite take_drop.
Qed.

Lemma decrypt_covered sc src n token dst size data :
  is_secure_connection sc = true -> symmetric_signature_size (security_policy sc) = Ret n -> 0 <= n ->
  symmetric_decrypt_and_verify sc src (zlen src - n) (16, zlen src) token (zlen src) = Ret (Ok (dst, size)) ->
  update_message_size dst size = Ret (Ok data) ->
  exists ks clear body,
    get_remote_keys token sc = Some ks /\ received_clear sc ks src clear
    /\ clear = body ++ signature_of sc ks (signed_bytes sc src clear)
    /\ (zlen clear = zlen src -> signed_bytes sc src clear = body)
    /\ covered_by (take (Z.to_nat size) data) body.
Proof.
  intros Hsec Hsig Hn0 H Hup. unfold is_secure_connection in Hsec. bool_to_prop.
  destruct (security_mode sc) eqn:Hmode; try done.
  - apply signed_decrypted in H as (ks & Hks & -> & -> & Hsz & -> & Hsrc); [|done..].
    exists ks, src, (take (Z.to_nat (zlen src - signature_len sc)) src). split; [done|].
    split; [unfold received_clear; by rewrite Hmode|].
    assert (signed_bytes sc src src = take (Z.to_nat (zlen src - signature_len sc)) src) as ->.
    { unfold signed_bytes. rewrite Z.sub_diag. simpl. by rewrite app_nil_r. }
    split; [done|]. split; [done|]. eapply resized_covered; [| | |done]; lia.
  - apply encrypted_decrypted in H as (ks & clear & body & Hks & Hrc & -> & Hle & Hsz & -> & Hb & Hcl); [|done..].
    assert (take (Z.to_nat (zlen body)) clear = body) as Ht.
    { rewrite Hcl at 1. unfold zlen. by rewrite Nat2Z.id, take_app_length. }
    exists ks, clear, body. do 3 (split; [done|]). split.
    + intros Heq. unfold signed_bytes. rewrite Heq, Z.sub_diag. simpl. rewrite app_nil_r.
      by replace (zlen src - signature_len sc) with (zlen body) by lia.
    + rewrite <- Ht. rewrite <- (take_app_le clear (repeat 0 (Z.to_nat (zlen src - zlen clear)))) by (unfold zlen in *; lia).
      eapply resized_covered; [| | |done]; try lia. rewrite zlen_app. pose proof (zlen_nonneg (repeat 0 (Z.to_nat (zlen src - zlen clear)))). lia.
Qed.

Lemma run_read_inv {A} n (f : bytes -> A) bs a rest :
  run (PRead n (fun bs => PRet (f bs))) bs = Ok (a, rest) -> rest = drop n bs /\ (n <= length bs)%nat.
Proof. cbn [run]. destruct (Nat.leb_spec n (length bs)); [|done]. by intros [= <- <-]. Qed.
Lemma run_lift_inv {A} (m : result A StatusCode) bs a rest : run (lift m) bs = Ok (a, rest) -> rest = bs.
Proof. destruct m; simpl; [by intros [= _ <-]|done]. Qed.

Lemma run_header_inv src h rest : run chunk_header_decode src = Ok (h, rest) -> rest = drop 12 src /\ (12 <= length src)%nat.
Proof.
  unfold chunk_header_decode. intros H.
  rewrite run_bind in H. apply result_bind_ok in H as ([code r1] & [-> H1]%(run_read_inv 3 id) & H).
  rewrite run_bind in H. apply result_bind_ok in H as ([t r2] & ->%run_lift_inv & H).
  rewrite run_bind in H. apply result_bind_ok in H as ([f r3] & [-> H3]%run_read_inv & H).
  rewrite run_bind in H. apply result_bind_ok in H as ([fin r4] & ->%run_lift_inv & H).
  rewrite run_bind in H. apply result_bind_ok in H as ([size r5] & [-> H5]%run_read_inv & H).
  rewrite run_bind in H. apply result_bind_ok in H as ([id r6] & [-> H6]%run_read_inv & H).
  injection H as _ <-. rewrite !length_drop in *. rewrite !drop_drop. split; [done|lia].
Qed.

Lemma run_u32_inv bs z rest : run read_u32 bs = Ok (z, rest) -> rest = drop 4 bs /\ (4 <= length bs)%nat.
Proof. apply run_read_inv. Qed.

Lemma signature_size_nonneg p n : symmetric_signature_size p = Ret n -> 0 <= n.
Proof. destruct p; simpl; repeat case_match; intros [= <-]; simpl; lia. Qed.

(** C37: on a signing or encrypting connection a chunk is accepted (OpenSecureChannel apart, which has
    its own keys) only when the received bytes themselves end in the HMAC of what precedes it, under the
    signing key of the token they name.  With the received bytes in the clear, which are the bytes as
    they came on a signing channel and the headers with the decryption of the rest on an encrypting
    one, they are a body and the HMAC of the signed bytes; the accepted chunk is a beginning of that
    body with only the size field rewritten.  The signed bytes are that body: always on a signing
    channel, and on an encrypting one when the decryption gives as many bytes as it was given, as that
    of whole blocks does (a shorter one would leave zeros of the receiving buffer under the signature). *)
Theorem accepted_chunk_is_signed sc sc' src chunk header rest :
  is_secure_connection sc = true ->
  run chunk_header_decode src = Ok (header, rest) -> is_open_secure_channel (message_type header) = false ->
  verify_and_remove_security sc src = Ret (Ok (chunk, sc')) ->
  sc' = sc /\ exists token rest' ks clear body,
    run read_u32 rest = Ok (token, rest')
    /\ get_remote_keys token sc = Some ks
    /\ received_clear sc ks src clear
    /\ clear = body ++ hmac (symmetric_signature (symmetric_policy (security_policy sc))) (signing_key ks)
                         (signed_bytes sc src clear)
    /\ (zlen clear = zlen src -> signed_bytes sc src clear = body)
    /\ covered_by chunk body.
Proof.
  intros Hsec Hrun Ho H. pose proof (run_header_inv _ _ _ Hrun) as [-> Hlen].
  unfold verify_and_remove_security, decode_message_header in H. rewrite Hrun in H. cbn [comp_bind] in H.
  apply comp_bind_ok in H as ([[hd sec] offset] & Hdec & H).
  apply comp_bind_ok in Hdec as ([sec' rest'] & Hsh & Hdec). rewrite Ho in Hsh.
  unfold decode_with_known_policy in Hsh. apply comp_bind_ok in Hsh as ([token r] & Htok & Hsh).
  injection Htok as Htok. injection Hsh as <- <-. pose proof (run_u32_inv _ _ _ Htok) as [-> Hlen4].
  destruct (negb _) eqn:Hsz; [done|]. injection Hdec as <- <- <-. bool_to_prop.
  rewrite Ho, Hsec in H. apply outcome_bind_ret in H as (n & Hn & H).
  destruct (secure_message_ranges _ _ _) as [[signed_end [start stop]]|] eqn:Hranges; [|done].
  unfold secure_message_ranges in Hranges. destruct (message_size header <? _) eqn:Hlt; [done|].
  apply result_bind_ok in Hranges as (se & Hse & Hranges). apply ok_or_ok, checked_sub_Some in Hse as [-> Hle].
  injection Hranges as <- <- <-. apply comp_bind_ok in H as (c & Hc & H). injection H as <- <-. split; [done|].
  unfold decrypt_chunk in Hc. cbn [snd] in Hc. apply comp_bind_ok in Hc as ([dst size] & Hdv & Hc).
  apply comp_bind_ok in Hc as (data & Hup & Hc). injection Hc as <-. rewrite Hsz in Hdv.
  replace (zlen src - zlen (drop 4 (drop 12 src))) with 16 in Hdv
    by (rewrite length_drop in Hlen4; unfold zlen; rewrite !length_drop; lia).
  eapply decrypt_covered in Hdv as (ks & clear & body & Hdv); [|done|done|by eapply signature_size_nonneg|done].
  by exists token, (drop 4 (drop 12 src)), ks, clear, body.
Qed.
End facts.

Lemma client_established : established client_channel.
Proof. repeat split; try done. by right. Qed.
Lemma client_keys_ok : keys_ok client_channel toy_keys.
Proof. split; done. Qed.

Lemma symmetric_security_round_trip_witness :
  exists chunk secured,
    chunk_new 51 1001 CtMessage Final client_channel [1; 2; 3] = Ret chunk
    /\ apply_security client_channel (fun _ => 0) chunk 9216 = Ret (Ok (secured, client_channel))
    /\ verify_and_remove_security server_channel secured = Ret (Ok (chunk, server_channel)).
Proof.
  apply (symmetric_security_round_trip client_channel server_channel toy_keys); try done;
    [apply client_established|vm_compute; discriminate..].
Defined.

Lemma body_size_maximal_witness :
  exists body_size chunk secured,
    body_size_from_message_size CtMessage client_channel 8192 = Ret (Ok body_size) /\ 0 < body_size
    /\ chunk_new 51 1001 CtMessage Final client_channel [1; 2; 3] = Ret chunk
    /\ apply_security client_channel (fun _ => 0) chunk 9216 = Ret (Ok (secured, client_channel))
    /\ (zlen [1; 2; 3] <= body_size <-> zlen secured <= 8192).
Proof.
  apply (body_size_maximal client_channel toy_keys (fun _ => 0) CtMessage 8192 9216 51 1001 Final [1; 2; 3]); try done;
    [apply client_established|vm_compute; discriminate..].
Defined.

Definition sample_header : MessageChunkHeader :=
  {| message_type := CtMessage; is_final := Final; message_size := 27; header_channel_id := 7 |}.
Definition sample_sequence : SequenceHeader := {| sequence_number := 51; request_id := 1001 |}.
Definition sample_chunk : bytes := symmetric_chunk sample_header 3 sample_sequence [1; 2; 3].
Definition sample_secured : bytes :=
  secured_chunk client_channel toy_keys sample_header 3 sample_sequence [1; 2; 3].

Lemma accepted_chunk_is_signed_witness :
  exists token rest' ks clear body,
    run read_u32 (drop 12 sample_secured) = Ok (token, rest')
    /\ get_remote_keys token server_channel = Some ks
    /\ received_clear server_channel ks sample_secured clear
    /\ clear = body ++ hmac (symmetric_signature (symmetric_policy (security_policy server_channel))) (signing_key ks)
                         (signed_bytes server_channel sample_secured clear)
    /\ (zlen clear = zlen sample_secured -> signed_bytes server_channel sample_secured clear = body)
    /\ covered_by sample_chunk body.
Proof.
  refine (proj2 (accepted_chunk_is_signed server_channel server_channel sample_secured sample_chunk
                   (with_size 64 sample_header) (drop 12 sample_secured) eq_refl _ eq_refl _));
    vm_compute; reflexivity.
Defined.
