(* ===== verification/Chunker.v ===== *)
(** * Messages to chunks and chunks to messages

    async-opcua-core/src/comms/chunker.rs: [ChunkingStream], the writer that cuts an encoded message
    into chunks while it is written, [ReceiveStream], the reader that goes through the bodies of the
    received chunks, and the functions of [Chunker].

    A message type is the class [Message], the trait of messages/mod.rs with what it inherits.  The
    chunks of a failed encoding are dropped, as the caller's scratch buffer is. *)

From S2P Require Import Prelude Text StatusCode NumericRange Variant Wire Crypto Chunk SecureChannel.
From S2P Require Import SequenceNumber.

(** Encoding writes buffers one after the other and ends with a result.  [valid_object_id]:
    [ObjectId::try_from] succeeds (the generated table of identifiers). *)
Class Message (M : Type) := {
  type_id : M -> NodeId;
  request_handle : M -> Z;
  msg_type : M -> MessageChunkType;
  msg_byte_len : M -> Z;
  msg_encode : M -> list bytes * result unit StatusCode;
  valid_object_id : Z -> bool;
  decode_by_object_id : DecodingOptions -> Z -> parser M
}.

(** The chunks a [SecureChannel] sends and receives. *)
Section chunker.
Context {FT : Features} {CL : CryptoLib} {PK : Pki}.

(** ** Writing *)

Record ChunkingStream := {
  cs_storage : bytes;
  cs_out : list MessageChunk;
  cs_expected_chunk_count : Z;
  cs_chunks_emitted : Z;
  cs_max_body_per_chunk : Z;
  cs_header_size : Z;
  cs_current_body_target : Z;
  cs_body_written : Z;
  cs_chunk_started : bool;
  cs_is_closed : bool;
  cs_sequence_number : SequenceNumberHandle;
  cs_request_id : Z;
  cs_message_size : Z;
  cs_message_type : MessageChunkType
}.

(** [usize::div_ceil]. *)
Definition div_ceil (a b : Z) : Z := if a mod b =? 0 then a / b else a / b + 1.

Definition cs_new (t : MessageChunkType) (sc : SecureChannel) (max_chunk_size message_size request : Z)
    (seq : SequenceNumberHandle) (out : list MessageChunk) : outcome (result ChunkingStream StatusCode) :=
  let^ (expected_chunk_count, max_body_per_chunk) :=
    (if 0 <? max_chunk_size then
       let^ max_body_per_chunk := body_size_from_message_size t sc max_chunk_size in
       Ret (Ok (Z.max (div_ceil message_size max_body_per_chunk) 1, max_body_per_chunk))
     else Ret (Ok (1, 0))) in
  let! sec := make_security_header sc t in
  let header_size := MESSAGE_CHUNK_HEADER_SIZE + security_header_byte_len sec
                     + byte_len {| sequence_number := 0; Chunk.request_id := 0 |} in
  Ret (Ok {| cs_storage := []; cs_out := out; cs_expected_chunk_count := expected_chunk_count;
             cs_chunks_emitted := 0; cs_max_body_per_chunk := max_body_per_chunk;
             cs_header_size := header_size; cs_current_body_target := 0; cs_body_written := 0;
             cs_chunk_started := false; cs_is_closed := false; cs_sequence_number := seq;
             cs_request_id := request; cs_message_size := message_size; cs_message_type := t |}).

Definition start_chunk (sc : SecureChannel) (s : ChunkingStream) : outcome ChunkingStream :=
  let is_last := cs_chunks_emitted s =? cs_expected_chunk_count s - 1 in
  let target :=
    if cs_max_body_per_chunk s =? 0 then cs_message_size s
    else if is_last then cs_message_size s - cs_chunks_emitted s * cs_max_body_per_chunk s
    else cs_max_body_per_chunk s in
  let header := {| message_type := cs_message_type s; is_final := if is_last then Final else Intermediate;
                   message_size := cs_header_size s + target; header_channel_id := secure_channel_id sc |} in
  let! sec := make_security_header sc (cs_message_type s) in
  let seq := {| sequence_number := current (cs_sequence_number s); Chunk.request_id := cs_request_id s |} in
  Ret {| cs_storage := cs_storage s ++ concat (encode header ++ security_header_encode sec ++ encode seq);
         cs_out := cs_out s; cs_expected_chunk_count := cs_expected_chunk_count s;
         cs_chunks_emitted := cs_chunks_emitted s; cs_max_body_per_chunk := cs_max_body_per_chunk s;
         cs_header_size := cs_header_size s; cs_current_body_target := target; cs_body_written := 0;
         cs_chunk_started := true; cs_is_closed := cs_is_closed s;
         cs_sequence_number := increment 1 (cs_sequence_number s); cs_request_id := cs_request_id s;
         cs_message_size := cs_message_size s; cs_message_type := cs_message_type s |}.

(** [split_to] panics beyond the end of the storage. *)
Definition emit_chunk (s : ChunkingStream) : outcome ChunkingStream :=
  let chunk_len := cs_header_size s + cs_current_body_target s in
  if zlen (cs_storage s) <? chunk_len then Panic
  else
    Ret {| cs_storage := drop (Z.to_nat chunk_len) (cs_storage s);
           cs_out := cs_out s ++ [take (Z.to_nat chunk_len) (cs_storage s)];
           cs_expected_chunk_count := cs_expected_chunk_count s;
           cs_chunks_emitted := cs_chunks_emitted s + 1; cs_max_body_per_chunk := cs_max_body_per_chunk s;
           cs_header_size := cs_header_size s; cs_current_body_target := cs_current_body_target s;
           cs_body_written := cs_body_written s; cs_chunk_started := false;
           cs_is_closed := if cs_chunks_emitted s + 1 =? cs_expected_chunk_count s then true else cs_is_closed s;
           cs_sequence_number := cs_sequence_number s; cs_request_id := cs_request_id s;
           cs_message_size := cs_message_size s; cs_message_type := cs_message_type s |}.

Definition append_body (data : bytes) (s : ChunkingStream) : ChunkingStream :=
  {| cs_storage := cs_storage s ++ data; cs_out := cs_out s; cs_expected_chunk_count := cs_expected_chunk_count s;
     cs_chunks_emitted := cs_chunks_emitted s; cs_max_body_per_chunk := cs_max_body_per_chunk s;
     cs_header_size := cs_header_size s; cs_current_body_target := cs_current_body_target s;
     cs_body_written := cs_body_written s + zlen data; cs_chunk_started := cs_chunk_started s;
     cs_is_closed := cs_is_closed s; cs_sequence_number := cs_sequence_number s;
     cs_request_id := cs_request_id s; cs_message_size := cs_message_size s; cs_message_type := cs_message_type s |}.

(** [Write::write]: the stream and the number of bytes taken. *)
Definition cs_write (sc : SecureChannel) (buf : bytes) (s : ChunkingStream) : outcome (ChunkingStream * Z) :=
  if cs_is_closed s then Ret (s, 0)
  else
    let! s := (if cs_chunk_started s then Ret s else start_chunk sc s) in
    let to_read := Z.min (zlen buf) (cs_current_body_target s - cs_body_written s) in
    let s := append_body (take (Z.to_nat to_read) buf) s in
    let! s := (if cs_body_written s =? cs_current_body_target s then emit_chunk s else Ret s) in
    Ret (s, to_read).

(** [Write::write_all]: [write] until the buffer is empty; a write of nothing is an error.  Every
    write takes a byte, so the length of the buffer is enough fuel. *)
Fixpoint write_all_loop (fuel : nat) (sc : SecureChannel) (buf : bytes) (s : ChunkingStream)
    : outcome (result ChunkingStream StatusCode) :=
  match buf with
  | [] => Ret (Ok s)
  | _ =>
      match fuel with
      | O => OutOfFuel
      | S fuel' =>
          let! (s, n) := cs_write sc buf s in
          if n =? 0 then Ret (Err BadEncodingError) else write_all_loop fuel' sc (drop (Z.to_nat n) buf) s
      end
  end.
Definition write_all (sc : SecureChannel) (buf : bytes) (s : ChunkingStream)
    : outcome (result ChunkingStream StatusCode) := write_all_loop (length buf) sc buf s.

Fixpoint write_buffers (sc : SecureChannel) (bufs : list bytes) (s : ChunkingStream)
    : outcome (result ChunkingStream StatusCode) :=
  match bufs with
  | [] => Ret (Ok s)
  | buf :: bufs' => let^ s := write_all sc buf s in write_buffers sc bufs' s
  end.

(** [Write::flush]; its [io::Error] becomes a decoding error in the caller. *)
Definition cs_flush (sc : SecureChannel) (s : ChunkingStream) : outcome (result ChunkingStream StatusCode) :=
  if cs_is_closed s then Ret (Ok s)
  else
    let! s := (if cs_chunk_started s then Ret s else start_chunk sc s) in
    if cs_body_written s <? cs_current_body_target s then Ret (Err BadDecodingError)
    else let! s := emit_chunk s in Ret (Ok s).

Definition cs_finish (s : ChunkingStream) : result Z StatusCode :=
  if negb (cs_is_closed s) then Err BadEncodingError else Ok (cs_chunks_emitted s).

Context {M : Type} {MSG : Message M}.

(** [encode_into]: the chunks appended to [out], and their number. *)
Definition encode_into (seq : SequenceNumberHandle) (request max_message_size max_chunk_size : Z)
    (sc : SecureChannel) (m : M) (out : list MessageChunk) : outcome (result (list MessageChunk * Z) StatusCode) :=
  if bool_decide (security_policy sc = PolicyUnknown) then Ret (Err BadSecurityPolicyRejected)
  else
    let message_size := msg_byte_len m in
    if (0 <? max_message_size) && (max_message_size <? message_size) then
      Ret (Err (if is_client_role sc then BadRequestTooLarge else BadResponseTooLarge))
    else
      let node_id := type_id m in
      let message_size := message_size + node_id_byte_len node_id in
      let^ s := cs_new (msg_type m) sc max_chunk_size message_size request seq out in
      let^ s := write_buffers sc (node_id_encode node_id) s in
      let^ s := write_buffers sc (fst (msg_encode m)) s in
      let^ _ := Ret (snd (msg_encode m)) in
      let^ s := cs_flush sc s in
      let^ n := Ret (cs_finish s) in
      Ret (Ok (cs_out s, n)).

(** ** Reading *)

(** [ReceiveStream]: the unread bytes of the current chunk, the chunks to come, and the index of the
    current one. *)
Record ReceiveStream := { rs_buffer : bytes; rs_items : list MessageChunk; rs_num_items : Z; rs_index : Z }.

(** The body of a chunk, which has to be marked as expected. *)
Definition chunk_body (sc : SecureChannel) (last : bool) (chunk : MessageChunk) : outcome (result bytes StatusCode) :=
  let^ info := chunk_info sc chunk in
  if negb (bool_decide (is_final (message_header info) = if last then Final else Intermediate))
  then Ret (Err BadDecodingError)
  else Ret (ok_or (slice chunk (body_offset info) (body_offset info + body_length info)) BadDecodingError).

Definition rs_new (sc : SecureChannel) (chunks : list MessageChunk) : outcome (result ReceiveStream StatusCode) :=
  match chunks with
  | [] => Ret (Err BadUnexpectedError)
  | c :: items =>
      let^ body := chunk_body sc (zlen chunks =? 1) c in
      Ret (Ok {| rs_buffer := body; rs_items := items; rs_num_items := zlen chunks; rs_index := 0 |})
  end.

(** Any failure of a read is a decoding error for the reader. *)
Definition decoding_error {A} (m : outcome (result A StatusCode)) : outcome (result A StatusCode) :=
  match m with Ret (Err _) => Ret (Err BadDecodingError) | _ => m end.

(** [read_exact] of [n] bytes: [read] goes to the next chunk when the current one is exhausted, and
    a read of nothing is the end of the stream. *)
Fixpoint rs_read_exact (sc : SecureChannel) (num_items : Z) (items : list MessageChunk) (buffer : bytes)
    (index : Z) (n : nat) : outcome (result (bytes * ReceiveStream) StatusCode) :=
  if (n <=? length buffer)%nat then
    Ret (Ok (take n buffer, {| rs_buffer := drop n buffer; rs_items := items; rs_num_items := num_items;
                               rs_index := index |}))
  else match items with
       | [] => Ret (Err BadDecodingError)
       | c :: items' =>
           let^ body := decoding_error (chunk_body sc (index + 1 =? num_items - 1) c) in
           if bool_decide (body = []) then Ret (Err BadDecodingError)
           else
             let^ (bs, s) := rs_read_exact sc num_items items' body (index + 1) (n - length buffer) in
             Ret (Ok (buffer ++ bs, s))
       end.

(** Running a decoder on the stream. *)
Fixpoint run_chunks {A} (sc : SecureChannel) (p : parser A) (s : ReceiveStream)
    : outcome (result (A * ReceiveStream) StatusCode) :=
  match p with
  | PRet a => Ret (Ok (a, s))
  | PFail e => Ret (Err e)
  | PRead n k =>
      let^ (bs, s) := rs_read_exact sc (rs_num_items s) (rs_items s) (rs_buffer s) (rs_index s) n in
      run_chunks sc (k bs) s
  end.

(** [validate_chunks]. *)
Fixpoint validate_chunks_loop (sc : SecureChannel) (expected_request_id : option Z) (chunks : list MessageChunk)
    : outcome (result unit StatusCode) :=
  match chunks with
  | [] => Ret (Ok tt)
  | chunk :: chunks' =>
      let^ info := chunk_info sc chunk in
      if negb (secure_channel_id sc =? 0)
         && negb (header_channel_id (message_header info) =? secure_channel_id sc)
      then Ret (Err BadSecureChannelIdInvalid)
      else
        let id := Chunk.request_id (sequence_header info) in
        match expected_request_id with
        | None => validate_chunks_loop sc (Some id) chunks'
        | Some expected =>
            if negb (id =? expected) then Ret (Err BadSequenceNumberInvalid)
            else validate_chunks_loop sc (Some expected) chunks'
        end
  end.
Definition validate_chunks (sc : SecureChannel) (chunks : list MessageChunk) : outcome (result unit StatusCode) :=
  match chunks with
  | [] => Ret (Err BadUnexpectedError)
  | chunk :: _ => let^ _ := chunk_info sc chunk in validate_chunks_loop sc None chunks
  end.

Fixpoint check_final_flags (sc : SecureChannel) (chunks : list MessageChunk) : outcome (result unit StatusCode) :=
  match chunks with
  | [] => Ret (Ok tt)
  | chunk :: chunks' =>
      let^ info := chunk_info sc chunk in
      let last := match chunks' with [] => true | _ => false end in
      if negb (bool_decide (is_final (message_header info) = if last then Final else Intermediate))
      then Ret (Err BadDecodingError)
      else check_final_flags sc chunks'
  end.

(** [as_object_id]. *)
Definition as_object_id (n : NodeId) : option Z :=
  match identifier n with
  | IdNumeric id => if (namespace n =? 0) && valid_object_id id then Some id else None
  | _ => None
  end.
Definition object_id_from_node_id (n : NodeId) (expected : option NodeId) : result Z StatusCode :=
  match expected with
  | Some id => if bool_decide (n = id) then ok_or (as_object_id n) BadDecodingError else Err BadDecodingError
  | None => ok_or (as_object_id n) BadDecodingError
  end.

Definition chunker_decode (chunks : list MessageChunk) (sc : SecureChannel) (expected_node_id : option NodeId)
    : outcome (result M StatusCode) :=
  let^ _ := check_final_flags sc chunks in
  let^ s := rs_new sc chunks in
  let^ (node_id, s) := run_chunks sc (node_id_decode (decoding_options sc)) s in
  let^ object_id := Ret (object_id_from_node_id node_id expected_node_id) in
  let^ (m, _) := run_chunks sc (decode_by_object_id (decoding_options sc) object_id) s in
  Ret (Ok m).
End chunker.

(** What the chunker relies on: a well-formed message announces the length it writes, and its
    decoder reads what it wrote. *)
Class MessageLaws (M : Type) `{Message M} := {
  msg_ok : DecodingOptions -> M -> Prop;
  msg_encode_ok o m : msg_ok o m -> snd (msg_encode m) = Ok tt /\ zlen (concat (fst (msg_encode m))) = msg_byte_len m;
  msg_type_id_ok o m : msg_ok o m ->
    exists id, type_id m = {| namespace := 0; identifier := IdNumeric id |} /\ is_u32 id /\ valid_object_id id = true
    /\ run (decode_by_object_id o id) (concat (fst (msg_encode m))) = Ok (m, [])
}.
