(* ===== verification/ChunkerFacts.v ===== *)
(** * Messages to chunks and chunks to messages: proofs

    The writer cuts an encoding into full bodies with their headers; the reader reads the
    concatenation of the bodies; so a message that is cut into chunks is decoded from them. *)

From S2P Require Import Prelude Text StatusCode NumericRange Variant Wire Crypto Chunk SecureChannel AsymmetricSecurity.
From S2P Require Import SequenceNumber ConcreteChannel SecureChannelFacts Chunker.

(** ** Writing *)

(** The length of an asymmetric header is the announced one. *)
Lemma security_header_len h : zlen (concat (security_header_encode h)) = security_header_byte_len h.
Proof.
  destruct h as [h|token]; cbn [security_header_encode security_header_byte_len].
  - unfold asymmetric_header_encode, asymmetric_header_byte_len.
    rewrite !concat_app, !zlen_app, ua_string_len, !byte_string_len. lia.
  - unfold write_u32. cbn [concat]. by rewrite app_nil_r, zlen_le_bytes.
Qed.

Lemma div_ceil_bounds a b : 0 < a -> 0 < b -> (div_ceil a b - 1) * b < a <= div_ceil a b * b /\ 0 < div_ceil a b.
Proof.
  intros Ha Hb. unfold div_ceil. pose proof (Z.div_mod a b ltac:(lia)). pose proof (Z.mod_pos_bound a b Hb).
  destruct (Z.eqb_spec (a mod b) 0); nia.
Qed.

Section facts.
Context {FT : Features} {CL : CryptoLib} {PK : Pki} {AL : AsymmetricLib}.

(** The bodies as chunks with consecutive numbers, the last one final. *)
Fixpoint framed (seq : SequenceNumberHandle) (request : Z) (t : MessageChunkType) (sc : SecureChannel)
    (bodies : list bytes) : outcome (list MessageChunk) :=
  match bodies with
  | [] => Ret []
  | b :: bodies' =>
      let fin := match bodies' with [] => Final | _ => Intermediate end in
      let! c := chunk_new (current seq) request t fin sc b in
      let! cs := framed (increment 1 seq) request t sc bodies' in
      Ret (c :: cs)
  end.

(** Full bodies and a last one that is not empty. *)
Definition pieces (limit : Z) (bodies : list bytes) : Prop :=
  exists init last, bodies = init ++ [last] /\ Forall (fun b => zlen b = limit) init /\ 0 < zlen last <= limit.

Lemma zlen_full limit bodies : Forall (fun b : bytes => zlen b = limit) bodies ->
  zlen (concat bodies) = zlen bodies * limit.
Proof.
  induction 1 as [|b bodies Hb _ IH]; [done|]. cbn [concat]. rewrite zlen_app, zlen_cons, IH, Hb. lia.
Qed.

Section writing.
Context (sc : SecureChannel) (t : MessageChunkType) (sec : SecurityHeader) (request : Z)
  (seq0 : SequenceNumberHandle) (out0 : list MessageChunk) (total limit max_body : Z)
  (Hsec : make_security_header sc t = Ret sec) (Htotal : 0 < total) (Hlimit : 0 < limit)
  (Hmax : (max_body = 0 /\ limit = total) \/ (0 < max_body /\ limit = max_body)).

Let header_size := MESSAGE_CHUNK_HEADER_SIZE + security_header_byte_len sec + 8.
Let count := div_ceil total limit.

Definition number (k : nat) : SequenceNumberHandle := Nat.iter k (increment 1) seq0.
Definition target (k : nat) : Z := if Z.of_nat k =? count - 1 then total - Z.of_nat k * limit else limit.
Definition flag (k : nat) : MessageIsFinalType := if Z.of_nat k =? count - 1 then Final else Intermediate.
Definition chunk_head (k : nat) (size : Z) : bytes :=
  concat (encode {| message_type := t; is_final := flag k; message_size := header_size + size;
                    header_channel_id := secure_channel_id sc |}
          ++ security_header_encode sec
          ++ encode {| sequence_number := current (number k); Chunk.request_id := request |}).
Definition chunk_at (k : nat) (body : bytes) : MessageChunk := chunk_head k (zlen body) ++ body.

Lemma zlen_chunk_head k size : zlen (chunk_head k size) = header_size.
Proof.
  unfold chunk_head, header_size. cbn [encode MessageChunkHeader_encodable SequenceHeader_encodable].
  rewrite !concat_app, !zlen_app, chunk_header_len, sequence_header_len, security_header_len. lia.
Qed.

Lemma target_pos k : Z.of_nat k < count -> 0 < target k <= limit.
Proof.
  intros Hk. destruct (div_ceil_bounds total limit Htotal Hlimit) as [Hb Hc]. fold count in Hb, Hc.
  unfold target. destruct (Z.eqb_spec (Z.of_nat k) (count - 1)); nia.
Qed.

(** The stream after [bodies] have been emitted. *)
Definition stream (bodies : list bytes) (storage : bytes) (tgt written : Z) (started closed : bool) (n : nat)
    : ChunkingStream :=
  {| cs_storage := storage; cs_out := out0 ++ imap chunk_at bodies; cs_expected_chunk_count := count;
     cs_chunks_emitted := zlen bodies; cs_max_body_per_chunk := max_body; cs_header_size := header_size;
     cs_current_body_target := tgt; cs_body_written := written; cs_chunk_started := started;
     cs_is_closed := closed; cs_sequence_number := number n; cs_request_id := request;
     cs_message_size := total; cs_message_type := t |}.

Definition within (bodies : list bytes) (cur : bytes) : ChunkingStream :=
  stream bodies (chunk_head (length bodies) (target (length bodies)) ++ cur) (target (length bodies)) (zlen cur)
    true false (S (length bodies)).

(** The states of the stream after the bytes [w]. *)
Inductive stream_at (w : bytes) : ChunkingStream -> Prop :=
| at_between bodies tgt written : w = concat bodies -> Forall (fun b => zlen b = limit) bodies ->
    zlen bodies < count -> stream_at w (stream bodies [] tgt written false false (length bodies))
| at_within bodies cur : w = concat bodies ++ cur -> Forall (fun b => zlen b = limit) bodies ->
    zlen bodies < count -> zlen cur < target (length bodies) -> stream_at w (within bodies cur)
| at_end bodies tgt written : w = concat bodies -> pieces limit bodies -> zlen bodies = count ->
    zlen w = total -> stream_at w (stream bodies [] tgt written false true (length bodies)).

Lemma start_chunk_between bodies tgt written : zlen bodies < count ->
  start_chunk sc (stream bodies [] tgt written false false (length bodies)) = Ret (within bodies []).
Proof.
  intros Hk. unfold start_chunk, stream.
  cbn [cs_chunks_emitted cs_expected_chunk_count cs_max_body_per_chunk cs_message_size cs_message_type cs_header_size
    cs_sequence_number cs_request_id cs_storage cs_out cs_is_closed].
  rewrite Hsec. cbn [outcome_bind app]. unfold within, stream. rewrite app_nil_r.
  assert ((if max_body =? 0 then total
           else if zlen bodies =? count - 1 then total - zlen bodies * max_body else max_body)
          = target (length bodies)) as ->.
  { unfold target. change (Z.of_nat (length bodies)) with (zlen bodies).
    destruct Hmax as [[-> Hl]|[Hm Hl]].
    - simpl. assert (count = 1) as Hc.
      { unfold count, div_ceil. rewrite Hl, Z.mod_same, Z.div_same by lia. done. }
      pose proof (zlen_nonneg bodies). rewrite Hc in *. replace (zlen bodies) with 0 by lia. simpl. lia.
    - destruct (Z.eqb_spec max_body 0); [lia|]. by rewrite Hl. }
  done.
Qed.

Lemma imap_chunk bodies b : imap chunk_at (bodies ++ [b]) = imap chunk_at bodies ++ [chunk_at (length bodies) b].
Proof. rewrite imap_app. simpl. by rewrite Nat.add_0_r. Qed.

(** A chunk whose body is complete is appended to the output. *)
Lemma emit_chunk_full bodies cur : Forall (fun b => zlen b = limit) bodies -> zlen bodies < count ->
  zlen cur = target (length bodies) ->
  exists s, emit_chunk (within bodies cur) = Ret s /\ stream_at (concat bodies ++ cur) s.
Proof.
  intros Hfull Hk Hcur. destruct (target_pos _ Hk) as [Hpos Hle]. set (k := length bodies) in *.
  assert (zlen (chunk_head k (target k) ++ cur) = header_size + target k) as Hlen
    by (rewrite zlen_app, zlen_chunk_head, Hcur; done).
  assert (emit_chunk (within bodies cur)
          = Ret (stream (bodies ++ [cur]) [] (target k) (zlen cur) false
                   (if zlen bodies + 1 =? count then true else false) (S k))) as ->.
  { unfold emit_chunk, within, stream. fold k.
    cbn [cs_storage cs_header_size cs_current_body_target cs_out cs_chunks_emitted cs_expected_chunk_count cs_is_closed
      cs_body_written cs_sequence_number cs_request_id cs_message_size cs_message_type cs_max_body_per_chunk].
    rewrite Hlen, Z.ltb_irrefl. do 2 f_equal.
    - rewrite drop_ge; [done|]. unfold zlen in Hlen. lia.
    - rewrite imap_chunk, app_assoc. f_equal. rewrite take_ge by (unfold zlen in Hlen; lia).
      unfold chunk_at. fold k. by rewrite Hcur.
    - by rewrite zlen_app. }
  eexists. split; [done|]. replace (S k) with (length (bodies ++ [cur])) by (rewrite length_app; simpl; lia).
  assert (concat bodies ++ cur = concat (bodies ++ [cur])) as Hw by (by rewrite concat_app; simpl; rewrite app_nil_r).
  assert (zlen (bodies ++ [cur]) = zlen bodies + 1) as Hz by (by rewrite zlen_app).
  destruct (Z.eqb_spec (zlen bodies + 1) count) as [Hlast|Hmore].
  - apply at_end; [done| |lia|].
    + exists bodies, cur. split; [done|]. split; [done|]. lia.
    + rewrite zlen_app, (zlen_full limit) by done. rewrite Hcur. unfold target.
      change (Z.of_nat k) with (zlen bodies). destruct (Z.eqb_spec (zlen bodies) (count - 1)); lia.
  - apply at_between; [done| |lia]. apply Forall_app. split; [done|]. apply Forall_singleton.
    rewrite Hcur. unfold target. change (Z.of_nat k) with (zlen bodies).
    destruct (Z.eqb_spec (zlen bodies) (count - 1)); lia.
Qed.

(** A write to an open chunk: what fits is taken, and a full chunk is emitted. *)
Definition room (bodies : list bytes) (cur buf : bytes) : Z := Z.min (zlen buf) (target (length bodies) - zlen cur).

Lemma cs_write_within buf bodies cur : zlen cur < target (length bodies) ->
  cs_write sc buf (within bodies cur) =
  let n := room bodies cur buf in
  let! s := (if zlen cur + n =? target (length bodies)
             then emit_chunk (within bodies (cur ++ take (Z.to_nat n) buf))
             else Ret (within bodies (cur ++ take (Z.to_nat n) buf))) in
  Ret (s, n).
Proof.
  intros Hcur. assert (zlen (take (Z.to_nat (room bodies cur buf)) buf) = room bodies cur buf) as Hroom
    by (unfold room, zlen in *; rewrite length_take; lia).
  cbn zeta. rewrite <- Hroom at 1. unfold cs_write, within, stream, append_body.
  cbn [cs_storage cs_header_size cs_current_body_target cs_out cs_chunks_emitted cs_expected_chunk_count cs_is_closed
    cs_body_written cs_sequence_number cs_request_id cs_message_size cs_message_type cs_max_body_per_chunk
    cs_chunk_started outcome_bind]. by rewrite <- app_assoc, !zlen_app.
Qed.

(** A stream with bytes to come has an open chunk, or opens one with the next write. *)
Lemma stream_open w s buf : stream_at w s -> zlen w < total ->
  exists bodies cur, w = concat bodies ++ cur /\ Forall (fun b => zlen b = limit) bodies
    /\ zlen bodies < count /\ zlen cur < target (length bodies)
    /\ cs_write sc buf s = cs_write sc buf (within bodies cur).
Proof.
  intros [bodies tgt written Hw Hfull Hk|bodies cur Hw Hfull Hk Hcur|bodies tgt written Hw Hp Hk Hend] Htot; [| |lia].
  - destruct (target_pos (length bodies) Hk) as [Hpos _]. exists bodies, []. rewrite app_nil_r. split_and!; try done.
    unfold cs_write at 1. cbn [stream cs_is_closed cs_chunk_started]. by rewrite start_chunk_between.
  - by exists bodies, cur.
Qed.

(** One [write]: some bytes of a non-empty buffer are taken. *)
Lemma cs_write_spec w s buf : stream_at w s -> buf <> [] -> zlen w + zlen buf <= total ->
  exists n s', cs_write sc buf s = Ret (s', Z.of_nat n) /\ (0 < n <= length buf)%nat
    /\ stream_at (w ++ take n buf) s'.
Proof.
  intros Hs Hbuf Htot.
  assert (0 < zlen buf) by (destruct buf; [done|]; rewrite zlen_cons; pose proof (zlen_nonneg buf); lia).
  destruct (stream_open w s buf Hs) as (bodies & cur & -> & Hfull & Hk & Hcur & ->); [lia|].
  rewrite cs_write_within by done. cbn zeta.
  assert (zlen (take (Z.to_nat (room bodies cur buf)) buf) = room bodies cur buf) as Hroom
    by (unfold room, zlen in *; rewrite length_take; lia).
  assert (0 < room bodies cur buf <= zlen buf) as Hpos by (unfold room; lia).
  set (n := room bodies cur buf) in *. exists (Z.to_nat n).
  rewrite Z2Nat.id by lia. destruct (Z.eqb_spec (zlen cur + n) (target (length bodies))) as [Hdone|Hpart].
  - destruct (emit_chunk_full bodies (cur ++ take (Z.to_nat n) buf)) as (s' & -> & Hs'); [done..|by rewrite zlen_app, Hroom|].
    exists s'. split; [done|]. split; [unfold zlen in *; lia|]. by rewrite <- app_assoc.
  - eexists. split; [done|]. split; [unfold zlen in *; lia|]. apply at_within; try done.
    + by rewrite app_assoc.
    + rewrite zlen_app, Hroom. unfold n, room in *. lia.
Qed.

Lemma write_all_spec buf : forall fuel w s, stream_at w s -> zlen w + zlen buf <= total ->
  (length buf <= fuel)%nat -> exists s', write_all_loop fuel sc buf s = Ret (Ok s') /\ stream_at (w ++ buf) s'.
Proof.
  induction buf as [buf IH] using (induction_ltof1 _ (@length Z)); unfold ltof in IH.
  intros fuel w s Hs Htot Hfuel. destruct buf as [|b buf'] eqn:Hbuf.
  - exists s. rewrite app_nil_r. by destruct fuel.
  - rewrite <- Hbuf in *. destruct fuel as [|fuel]; [subst; simpl in Hfuel; lia|].
    destruct (cs_write_spec w s buf) as (n & s1 & Hw & Hn & Hs1); [done|by subst|done|].
    assert (write_all_loop (S fuel) sc buf s = write_all_loop fuel sc (drop n buf) s1) as ->.
    { rewrite Hbuf at 1. cbn [write_all_loop]. rewrite <- Hbuf, Hw. cbn [outcome_bind].
      destruct (Z.eqb_spec (Z.of_nat n) 0); [lia|]. by rewrite Nat2Z.id. }
    destruct (IH (drop n buf)) with (fuel := fuel) (w := w ++ take n buf) (s := s1) as (s' & -> & Hs');
      [rewrite length_drop; lia|done| |rewrite length_drop; lia|].
    + unfold zlen in *. rewrite length_app, length_take, length_drop. lia.
    + exists s'. split; [done|]. by rewrite <- app_assoc, take_drop in Hs'.
Qed.

Lemma write_buffers_spec bufs : forall w s, stream_at w s -> zlen w + zlen (concat bufs) <= total ->
  exists s', write_buffers sc bufs s = Ret (Ok s') /\ stream_at (w ++ concat bufs) s'.
Proof.
  induction bufs as [|buf bufs IH]; intros w s Hs Htot; cbn [concat write_buffers] in *.
  - exists s. by rewrite app_nil_r.
  - rewrite zlen_app in Htot. pose proof (zlen_nonneg (concat bufs)).
    destruct (write_all_spec buf (length buf) w s) as (s1 & Hw & Hs1); [done|lia|done|].
    unfold write_all. rewrite Hw. cbn [comp_bind].
    destruct (IH (w ++ buf) s1) as (s' & -> & Hs'); [done|rewrite zlen_app; lia|].
    exists s'. by rewrite app_assoc.
Qed.

(** After the announced bytes the stream is closed: [flush] does nothing. *)
Lemma stream_complete w s : stream_at w s -> zlen w = total ->
  cs_flush sc s = Ret (Ok s) /\ exists bodies, w = concat bodies /\ pieces limit bodies
    /\ cs_out s = out0 ++ imap chunk_at bodies /\ cs_finish s = Ok (zlen bodies)
    /\ zlen bodies = count.
Proof.
  destruct (div_ceil_bounds total limit Htotal Hlimit) as [Hb Hc]. fold count in Hb, Hc.
  intros [bodies tgt written -> Hfull Hk|bodies cur -> Hfull Hk Hcur|bodies tgt written -> Hp Hk Hend] Hw.
  - rewrite (zlen_full limit) in Hw by done. nia.
  - rewrite zlen_app, (zlen_full limit) in Hw by done. pose proof (zlen_nonneg cur). unfold target in Hcur.
    change (Z.of_nat (length bodies)) with (zlen bodies) in Hcur.
    destruct (Z.eqb_spec (zlen bodies) (count - 1)); nia.
  - split; [done|]. by exists bodies.
Qed.

(** The reference: the bodies are framed with consecutive numbers. *)
Lemma framed_imap bodies : forall k, zlen bodies + Z.of_nat k = count ->
  framed (number k) request t sc bodies = Ret (imap (fun i b => chunk_at (k + i) b) bodies).
Proof.
  induction bodies as [|b bodies IH]; intros k Hk; [done|]. rewrite zlen_cons in Hk. pose proof (zlen_nonneg bodies).
  assert (match bodies with [] => Final | _ => Intermediate end = flag k) as Hflag.
  { unfold flag. destruct bodies as [|b' bodies]; rewrite ?zlen_cons in *.
    - destruct (Z.eqb_spec (Z.of_nat k) (count - 1)); [done|]. unfold zlen in *. simpl in *. lia.
    - pose proof (zlen_nonneg bodies). destruct (Z.eqb_spec (Z.of_nat k) (count - 1)); [lia|done]. }
  cbn [framed imap]. unfold chunk_new. rewrite Hsec. cbn [outcome_bind]. rewrite Hflag.
  change (increment 1 (number k)) with (number (S k)). rewrite IH by lia. cbn [outcome_bind]. do 2 f_equal.
  - unfold chunk_at, chunk_head. rewrite Nat.add_0_r, !concat_app. cbn [concat]. by rewrite app_nil_r, !app_assoc.
  - apply imap_ext. intros i x _. unfold compose. f_equal. lia.
Qed.
End writing.

Lemma body_size_pos t sc max n : body_size_from_message_size t sc max = Ret (Ok n) -> 0 < n.
Proof.
  unfold body_size_from_message_size. destruct (max <? MIN_CHUNK_SIZE); [done|]. intros H.
  apply outcome_bind_ret in H as (? & _ & H). apply outcome_bind_ret in H as (? & _ & H).
  apply comp_bind_ok in H as ([? ?] & _ & H). apply comp_bind_ok in H as (? & _ & H).
  destruct (checked_sub _ _) as [body|]; [|done]. destruct (Z.ltb_spec 0 body); [|done]. by injection H as <-.
Qed.

(** The largest body: what fits the chunk size, or the whole message when there is no limit. *)
Definition body_limit (sc : SecureChannel) (t : MessageChunkType) (max_chunk_size total limit : Z) : Prop :=
  if 0 <? max_chunk_size then body_size_from_message_size t sc max_chunk_size = Ret (Ok limit) else limit = total.

Lemma cs_new_spec sc t sec max_chunk total limit request seq out :
  make_security_header sc t = Ret sec -> 0 < total -> body_limit sc t max_chunk total limit ->
  exists max_body, ((max_body = 0 /\ limit = total) \/ (0 < max_body /\ limit = max_body)) /\ 0 < limit
    /\ cs_new t sc max_chunk total request seq out
       = Ret (Ok (stream sc t sec request seq out total limit max_body [] [] 0 0 false false 0)).
Proof.
  intros Hsec Htotal Hlimit. unfold body_limit in Hlimit. unfold cs_new. rewrite Hsec.
  destruct (0 <? max_chunk) eqn:Hm.
  - pose proof (body_size_pos _ _ _ _ Hlimit) as Hpos. exists limit. split; [by right|]. split; [done|].
    rewrite Hlimit. cbn [comp_bind outcome_bind]. destruct (div_ceil_bounds total limit Htotal Hpos) as [_ Hc].
    rewrite Z.max_l by lia. unfold stream. by rewrite app_nil_r.
  - exists 0. subst limit. split; [by left|]. split; [done|]. cbn [comp_bind outcome_bind]. unfold stream.
    rewrite app_nil_r. unfold div_ceil. by rewrite Z.mod_same, Z.div_same by lia.
Qed.

Lemma framed_length sc t request bodies : forall seq chunks, framed seq request t sc bodies = Ret chunks ->
  zlen chunks = zlen bodies.
Proof.
  induction bodies as [|b bodies IH]; intros seq chunks Hf; [by injection Hf as <-|]. cbn [framed] in Hf.
  apply outcome_bind_ret in Hf as (c & _ & Hf). apply outcome_bind_ret in Hf as (cs & Hcs & Hf). injection Hf as <-.
  by rewrite !zlen_cons, (IH _ _ Hcs).
Qed.

Lemma pieces_count limit bodies : pieces limit bodies -> zlen bodies = div_ceil (zlen (concat bodies)) limit.
Proof.
  intros (init & last & -> & Hinit & Hlast). rewrite concat_app. cbn [concat]. rewrite app_nil_r, !zlen_app.
  rewrite (zlen_full limit) by done. change (zlen [last]) with 1. pose proof (zlen_nonneg init).
  destruct (div_ceil_bounds (zlen init * limit + zlen last) limit) as [Hb Hc]; [nia|lia|]. nia.
Qed.

Context {M : Type} `{MessageLaws M}.

Lemma message_lengths o (m : M) : msg_ok o m ->
  zlen (concat (node_id_encode (type_id m))) = node_id_byte_len (type_id m) /\ 0 < node_id_byte_len (type_id m).
Proof.
  intros (id & Hid & ? & _)%msg_type_id_ok. rewrite Hid. split; [by apply node_id_len|].
  unfold node_id_byte_len. simpl. repeat case_match; lia.
Qed.

Lemma encode_into_spec o (m : M) sc sec seq request max_message max_chunk limit out :
  msg_ok o m -> security_policy sc <> PolicyUnknown -> max_message <= 0 \/ msg_byte_len m <= max_message ->
  make_security_header sc (msg_type m) = Ret sec ->
  body_limit sc (msg_type m) max_chunk (msg_byte_len m + node_id_byte_len (type_id m)) limit ->
  exists bodies chunks,
    concat bodies = concat (node_id_encode (type_id m)) ++ concat (fst (msg_encode m))
    /\ pieces limit bodies
    /\ framed seq request (msg_type m) sc bodies = Ret chunks
    /\ encode_into seq request max_message max_chunk sc m out = Ret (Ok (out ++ chunks, zlen chunks)).
Proof.
  intros Hm Hp Hmax Hsec Hlimit. destruct (msg_encode_ok _ _ Hm) as [Hres Hlen].
  destruct (message_lengths o m Hm) as [Hid Hpos].
  set (total := msg_byte_len m + node_id_byte_len (type_id m)) in *.
  pose proof (zlen_nonneg (concat (fst (msg_encode m)))) as Hnn.
  assert (0 < total) as Htotal by (unfold total; lia).
  destruct (cs_new_spec sc (msg_type m) sec max_chunk total limit request seq out) as (max_body & Hmb & Hl & Hnew); [done..|].
  destruct (div_ceil_bounds total limit Htotal Hl) as [_ Hcount].
  unfold encode_into. rewrite bool_decide_eq_false_2 by done.
  assert ((0 <? max_message) && (max_message <? msg_byte_len m) = false) as ->.
  { destruct Hmax; [destruct (Z.ltb_spec 0 max_message); [lia|done]|].
    apply andb_false_iff. right. by apply Z.ltb_ge. }
  cbn zeta. fold total. rewrite Hnew. cbn [comp_bind].
  destruct (write_buffers_spec sc (msg_type m) sec request seq out total limit max_body Hsec Htotal Hl Hmb
              (node_id_encode (type_id m)) [] (stream sc (msg_type m) sec request seq out total limit max_body [] [] 0 0 false false 0))
    as (s1 & -> & Hs1); [by apply at_between|rewrite Hid; change (zlen (@nil Z)) with 0; lia|]. cbn [comp_bind].
  destruct (write_buffers_spec sc (msg_type m) sec request seq out total limit max_body Hsec Htotal Hl Hmb
              (fst (msg_encode m)) (concat (node_id_encode (type_id m))) s1) as (s2 & -> & Hs2);
    [done|rewrite Hid; lia|].
  destruct (stream_complete sc (msg_type m) sec request seq out total limit max_body Htotal Hl _ _ Hs2)
    as (Hflush & bodies & Hw & Hpc & Hout & Hfin & Hk); [rewrite zlen_app; unfold total; lia|].
  cbn [comp_bind]. rewrite Hres. cbn [comp_bind]. rewrite Hflush. cbn [comp_bind]. rewrite Hfin. cbn [comp_bind].
  exists bodies. eexists. split; [done|]. split; [done|].
  split; [apply (framed_imap sc (msg_type m) sec request seq total limit Hsec bodies 0); lia|].
  rewrite Hout. unfold zlen. by rewrite length_imap.
Qed.

(** C13: encoding a message into chunks is cutting its bytes (type id and body) into full bodies and
    a last one that is not empty, and framing each with its headers: consecutive sequence numbers,
    only the last chunk final.  The number of chunks is the least that holds the bytes. *)
Theorem encode_into_cuts o (m : M) sc sec seq request max_message max_chunk limit out :
  msg_ok o m -> security_policy sc <> PolicyUnknown -> max_message <= 0 \/ msg_byte_len m <= max_message ->
  make_security_header sc (msg_type m) = Ret sec ->
  body_limit sc (msg_type m) max_chunk (msg_byte_len m + node_id_byte_len (type_id m)) limit ->
  exists bodies chunks,
    concat bodies = concat (node_id_encode (type_id m)) ++ concat (fst (msg_encode m))
    /\ pieces limit bodies
    /\ framed seq request (msg_type m) sc bodies = Ret chunks
    /\ encode_into seq request max_message max_chunk sc m out = Ret (Ok (out ++ chunks, zlen chunks))
    /\ zlen chunks = div_ceil (msg_byte_len m + node_id_byte_len (type_id m)) limit.
Proof.
  intros Hm Hp Hmax Hsec Hlimit.
  destruct (encode_into_spec _ _ _ _ seq request _ _ _ out Hm Hp Hmax Hsec Hlimit)
    as (bodies & chunks & Hbytes & Hpc & Hf & He).
  exists bodies, chunks. split_and!; [done..|]. rewrite (framed_length _ _ _ _ _ _ Hf).
  apply pieces_count in Hpc. rewrite Hbytes, zlen_app in Hpc.
  destruct (message_lengths o m Hm) as [Hid _]. destruct (msg_encode_ok _ _ Hm) as [_ Hlen].
  rewrite Hid, Hlen, Z.add_comm in Hpc. done.
Qed.

(** ** Reading *)

(** The chunks carry these bodies, none of them empty, only the last one marked as final. *)
Fixpoint carries (sc : SecureChannel) (chunks : list MessageChunk) (bodies : list bytes) : Prop :=
  match chunks, bodies with
  | [], [] => True
  | c :: chunks', b :: bodies' =>
      chunk_body sc (match chunks' with [] => true | _ => false end) c = Ret (Ok b) /\ b <> []
      /\ carries sc chunks' bodies'
  | _, _ => False
  end.

(** The bytes a stream has still to deliver. *)
Definition unread (sc : SecureChannel) (s : ReceiveStream) (bs : bytes) : Prop :=
  exists bodies, carries sc (rs_items s) bodies /\ rs_index s + zlen (rs_items s) = rs_num_items s - 1
                 /\ bs = rs_buffer s ++ concat bodies.

Lemma rs_read_exact_spec sc num items : forall buffer index n bodies,
  carries sc items bodies -> index + zlen items = num - 1 ->
  match rs_read_exact sc num items buffer index n with
  | Ret (Ok (bs, s)) => (n <= length (buffer ++ concat bodies))%nat /\ bs = take n (buffer ++ concat bodies)
                        /\ rs_num_items s = num /\ unread sc s (drop n (buffer ++ concat bodies))
  | Ret (Err e) => e = BadDecodingError /\ (length (buffer ++ concat bodies) < n)%nat
  | _ => False
  end.
Proof.
  induction items as [|c items IH]; intros buffer index n bodies Hc Hi.
  - destruct bodies; [|done]. cbn [rs_read_exact concat]. rewrite app_nil_r.
    destruct (Nat.leb_spec n (length buffer)); [|done]. split_and!; try done.
    exists []. cbn [rs_items rs_index rs_num_items rs_buffer concat]. by rewrite app_nil_r.
  - destruct bodies as [|b bodies]; [done|]. destruct Hc as (Hb & Hne & Hc). cbn [rs_read_exact].
    destruct (Nat.leb_spec n (length buffer)).
    + split; [rewrite length_app; lia|]. rewrite take_app_le by done. split_and!; try done.
      exists (b :: bodies). rewrite drop_app_le by done. by split_and!.
    + rewrite zlen_cons in Hi.
      assert ((index + 1 =? num - 1) = match items with [] => true | _ => false end) as ->.
      { destruct items as [|i items]; rewrite ?zlen_cons in *.
        - apply Z.eqb_eq. change (zlen (@nil MessageChunk)) with 0 in Hi. lia.
        - apply Z.eqb_neq. pose proof (zlen_nonneg items). lia. }
      rewrite Hb. cbn [decoding_error comp_bind]. rewrite bool_decide_eq_false_2 by done.
      specialize (IH b (index + 1) (n - length buffer)%nat bodies Hc ltac:(lia)). cbn [concat].
      destruct (rs_read_exact _ _ _ _ _ _) as [[[bs s]|e]| |]; cbn [comp_bind]; try done.
      * destruct IH as (Hle & -> & Hs & Hu). rewrite length_app. split; [lia|].
        by rewrite (take_app_ge buffer), (drop_app_ge buffer) by lia.
      * destruct IH as [-> Hlt]. split; [done|]. rewrite length_app. lia.
Qed.

(** Decoding from the chunks is decoding from the bytes they carry. *)
Lemma run_chunks_spec {A} sc (p : parser A) : forall s bs, unread sc s bs ->
  match run p bs with
  | Ok (a, rest) => exists s', run_chunks sc p s = Ret (Ok (a, s')) /\ unread sc s' rest
  | Err e => run_chunks sc p s = Ret (Err e)
  end.
Proof.
  induction p as [a|e|n k IH]; intros s bs Hs; cbn [run run_chunks]; [by exists s|done|].
  destruct Hs as (bodies & Hc & Hi & ->).
  pose proof (rs_read_exact_spec sc _ _ (rs_buffer s) _ n bodies Hc Hi) as Hr.
  destruct (rs_read_exact _ _ _ _ _ _) as [[[bs' s']|e]| |]; cbn [comp_bind]; try done.
  - destruct Hr as (Hn & -> & _ & Hu). destruct (Nat.leb_spec n (length (rs_buffer s ++ concat bodies))); [|lia].
    by apply IH.
  - destruct Hr as [-> Hlt]. by destruct (Nat.leb_spec n (length (rs_buffer s ++ concat bodies))); [lia|].
Qed.

Lemma rs_new_spec sc chunks bodies : carries sc chunks bodies -> chunks <> [] ->
  exists s, rs_new sc chunks = Ret (Ok s) /\ unread sc s (concat bodies).
Proof.
  destruct chunks as [|c chunks], bodies as [|b bodies]; try done. intros (Hb & Hne & Hc) _. unfold rs_new.
  assert ((zlen (c :: chunks) =? 1) = match chunks with [] => true | _ => false end) as ->.
  { rewrite zlen_cons. destruct chunks as [|i items]; [done|]. rewrite zlen_cons. apply Z.eqb_neq.
    pose proof (zlen_nonneg items). lia. }
  rewrite Hb. eexists. split; [done|]. exists bodies. split; [done|]. split; [|done]. simpl. rewrite zlen_cons. lia.
Qed.

Lemma check_final_flags_spec sc chunks : forall bodies, carries sc chunks bodies ->
  check_final_flags sc chunks = Ret (Ok tt).
Proof.
  induction chunks as [|c chunks IH]; intros [|b bodies]; try done. intros (Hb & _ & Hc). cbn [check_final_flags].
  unfold chunk_body in Hb. apply comp_bind_ok in Hb as (info & -> & Hb). cbn [comp_bind].
  destruct (negb (bool_decide (is_final (message_header info) =
      if match chunks with [] => true | _ => false end then Final else Intermediate))) eqn:Hf; [done|].
  by eapply IH.
Qed.

(** A message with a known type id is decoded from chunks that carry its bytes. *)
Lemma chunker_decode_spec sc chunks bodies (m : M) :
  carries sc chunks bodies -> chunks <> [] -> msg_ok (decoding_options sc) m ->
  concat bodies = concat (node_id_encode (type_id m)) ++ concat (fst (msg_encode m)) ->
  chunker_decode chunks sc None = Ret (Ok m).
Proof.
  intros Hc Hne Hm Hbytes. destruct (msg_type_id_ok _ _ Hm) as (id & Hid & Hu32 & Hvalid & Hrun).
  unfold chunker_decode. rewrite (check_final_flags_spec _ _ _ Hc). cbn [comp_bind].
  destruct (rs_new_spec _ _ _ Hc Hne) as (s & -> & Hs). cbn [comp_bind]. rewrite Hbytes in Hs.
  pose proof (run_chunks_spec sc (node_id_decode (decoding_options sc)) _ _ Hs) as Hn.
  rewrite node_id_round_trip in Hn by (rewrite Hid; done).
  destruct Hn as (s1 & -> & Hs1). cbn [comp_bind]. unfold object_id_from_node_id, as_object_id. rewrite Hid.
  cbn [identifier namespace Z.eqb andb]. rewrite Hvalid. cbn [ok_or comp_bind].
  pose proof (run_chunks_spec sc (decode_by_object_id (decoding_options sc) id) _ _ Hs1) as Hd.
  rewrite Hrun in Hd. by destruct Hd as (s2 & -> & _).
Qed.

(** ** Round trip *)

Lemma current_u32 h : sn_valid h -> is_u32 (current h).
Proof. unfold sn_valid, min_value, max_value, current. destruct (sn_is_legacy h); int_lia. Qed.

(** What the receiver sees of framed bodies (not OpenSecureChannel). *)
Lemma framed_carries sc sc' t request : is_open_secure_channel t = false -> is_u32 request ->
  is_u32 (secure_channel_id sc) -> is_u32 (token_id sc) ->
  secure_channel_id sc' = 0 \/ secure_channel_id sc' = secure_channel_id sc ->
  forall bodies seq chunks, sn_valid seq -> framed seq request t sc bodies = Ret chunks ->
  Forall (fun b => b <> [] /\ 24 + zlen b <= u32_max) bodies ->
  carries sc' chunks bodies
  /\ validate_chunks_loop sc' None chunks = Ret (Ok tt) /\ validate_chunks_loop sc' (Some request) chunks = Ret (Ok tt).
Proof.
  intros Ht Hr Hid Htoken Hsame bodies. induction bodies as [|b bodies IH]; intros seq chunks Hv Hf Hb.
  - by injection Hf as <-.
  - apply Forall_cons in Hb as [[Hne Hsize] Hb]. cbn [framed] in Hf. rewrite chunk_new_symmetric in Hf by done.
    cbn [outcome_bind] in Hf. apply outcome_bind_ret in Hf as (cs & Hcs & Hf). injection Hf as <-.
    destruct (increment_valid seq Hv) as [Hv' _].
    destruct (IH _ _ Hv' Hcs Hb) as (Hc & _ & Hl). pose proof (zlen_nonneg b).
    assert (match cs with [] => true | _ => false end = match bodies with [] => true | _ => false end) as Hlast
      by (by destruct cs, bodies).
    set (h := {| message_type := t; is_final := _; message_size := _; header_channel_id := _ |}).
    set (q := {| sequence_number := _; request_id := _ |}).
    assert (chunk_ok h (token_id sc) q) as Hok.
    { split; [done|]. split; [split; [unfold h, is_u32; cbn [message_size]; lia|done]|]. split; [done|].
      split; [by apply current_u32|done]. }
    split.
    + cbn [carries]. split_and!; [|done|done]. unfold chunk_body. rewrite chunk_info_symmetric by done.
      cbn [comp_bind message_header body_offset body_length]. rewrite Hlast.
      rewrite bool_decide_eq_true_2 by (by destruct bodies). cbn [negb]. do 2 f_equal. unfold symmetric_chunk, content.
      rewrite !app_assoc, slice_suffix; [done|..];
        by rewrite !zlen_app, chunk_header_len, zlen_le_bytes, sequence_header_len.
    + cbn [validate_chunks_loop]. rewrite chunk_info_symmetric by done. cbn [comp_bind message_header sequence_header].
      assert (negb (secure_channel_id sc' =? 0) && negb (header_channel_id h =? secure_channel_id sc') = false) as ->.
      { destruct Hsame as [-> | ->]; [done|]. simpl. by rewrite Z.eqb_refl, andb_false_r. }
      cbn [Chunk.request_id q]. by rewrite Z.eqb_refl.
Qed.

(** C7: the chunks of a message pass the checks of the receiver and decode to the message, whatever
    the chunk size.  Service messages and close messages; both sides agree on the channel. *)
Theorem chunker_round_trip (m : M) sc sc' seq request max_message max_chunk limit :
  msg_ok (decoding_options sc') m -> is_open_secure_channel (msg_type m) = false ->
  security_policy sc <> PolicyUnknown -> max_message <= 0 \/ msg_byte_len m <= max_message ->
  body_limit sc (msg_type m) max_chunk (msg_byte_len m + node_id_byte_len (type_id m)) limit ->
  24 + limit <= u32_max -> sn_valid seq -> is_u32 request ->
  is_u32 (secure_channel_id sc) -> is_u32 (token_id sc) ->
  secure_channel_id sc' = 0 \/ secure_channel_id sc' = secure_channel_id sc ->
  exists chunks,
    encode_into seq request max_message max_chunk sc m [] = Ret (Ok (chunks, zlen chunks))
    /\ validate_chunks sc' chunks = Ret (Ok tt)
    /\ chunker_decode chunks sc' None = Ret (Ok m).
Proof.
  intros Hm Ho Hp Hmax Hlimit Hsize Hv Hr Hid Htoken Hsame.
  assert (make_security_header sc (msg_type m) = Ret (Symmetric (token_id sc))) as Hsec by (by destruct (msg_type m)).
  destruct (encode_into_spec _ _ _ _ seq request _ _ _ [] Hm Hp Hmax Hsec Hlimit)
    as (bodies & chunks & Hbytes & (init & last & Hpc & Hinit & Hlast) & Hf & He).
  assert (0 < limit) as Hpos by lia.
  assert (Forall (fun b => b <> [] /\ 24 + zlen b <= u32_max) bodies) as Hb.
  { rewrite Hpc. apply Forall_app. split.
    - eapply Forall_impl; [exact Hinit|]. intros b Hb. split; [intros ->; change (0 = limit) in Hb; lia|by rewrite Hb].
    - apply Forall_singleton. split; [intros ->; change (0 < 0 <= limit) in Hlast; lia|lia]. }
  destruct (framed_carries sc sc' _ request Ho Hr Hid Htoken Hsame _ _ _ Hv Hf Hb) as (Hc & Hval & _).
  assert (chunks <> []) as Hne.
  { intros ->. destruct bodies; [by destruct init|done]. }
  exists chunks. split; [exact He|]. split; [|by eapply chunker_decode_spec].
  unfold validate_chunks. destruct chunks as [|c chunks]; [done|]. destruct bodies as [|b bodies]; [done|].
  destruct Hc as (Hb0 & _). unfold chunk_body in Hb0. apply comp_bind_ok in Hb0 as (info & -> & _). exact Hval.
Qed.
End facts.

(** ** A concrete message *)

(** A payload with its length, under the type id of a read request. *)
Record Note := { note_handle : Z; note_payload : bytes }.
#[export] Instance Note_message : Message Note :=
  {| type_id _ := {| namespace := 0; identifier := IdNumeric 631 |}; request_handle := note_handle;
     msg_type _ := CtMessage; msg_byte_len n := 8 + zlen (note_payload n);
     msg_encode n := (write_u32 (note_handle n) ++ write_u32 (zlen (note_payload n)) ++ [note_payload n], Ok tt);
     valid_object_id id := id =? 631;
     decode_by_object_id _ _ :=
       let% h := read_u32 in let% n := read_u32 in let% p := read_exact n in
       PRet {| note_handle := h; note_payload := p |} |}.
#[export] Instance Note_laws : MessageLaws Note.
Proof.
  refine {| msg_ok _ n := is_u32 (note_handle n) /\ is_u32 (zlen (note_payload n)) |}.
  - intros o n _. split; [done|]. simpl. rewrite app_nil_r, !zlen_cons. lia.
  - intros o n [Hh Hp]. exists 631. split_and!; try done. unfold msg_encode, Note_message, write_u32, decode_by_object_id.
    cbn [fst concat app]. rewrite !run_u32 by done. rewrite run_exact by done. by destruct n.
Defined.

Definition sample_note : Note := {| note_handle := 17; note_payload := repeat 7 (Z.to_nat 9000) |}.

Lemma encode_into_cuts_witness :
  exists bodies chunks,
    concat bodies = concat (node_id_encode (type_id sample_note)) ++ concat (fst (msg_encode sample_note))
    /\ pieces 8135 bodies
    /\ framed (sn_new_at true 51) 1001 (msg_type sample_note) client_channel bodies = Ret chunks
    /\ encode_into (sn_new_at true 51) 1001 0 8192 client_channel sample_note [] = Ret (Ok ([] ++ chunks, zlen chunks))
    /\ zlen chunks = 2.
Proof.
  replace 2 with (div_ceil (msg_byte_len sample_note + node_id_byte_len (type_id sample_note)) 8135)
    by (vm_compute; reflexivity).
  apply (encode_into_cuts default_options sample_note client_channel (Symmetric 3) (sn_new_at true 51) 1001 0 8192 8135 []).
  - split; vm_compute; intuition discriminate.
  - discriminate.
  - by left.
  - reflexivity.
  - vm_compute. reflexivity.
Defined.

Lemma chunker_round_trip_witness :
  exists chunks,
    encode_into (sn_new_at true 51) 1001 0 8192 client_channel sample_note [] = Ret (Ok (chunks, zlen chunks))
    /\ validate_chunks server_channel chunks = Ret (Ok tt)
    /\ chunker_decode chunks server_channel None = Ret (Ok sample_note).
Proof.
  apply (chunker_round_trip sample_note client_channel server_channel (sn_new_at true 51) 1001 0 8192 8135);
    first [by left|by right|reflexivity|vm_compute; intuition discriminate].
Defined.
