(* ===== verification/TcpTypes.v ===== *)
(** * Connection messages

    async-opcua-core/src/comms/tcp_types.rs: the header of every frame and the messages of the
    connection protocol (Hello, Acknowledge, Error, ReverseHello) with their encodings.  The list of
    the server's endpoints and the comparison of URLs (url.rs) is a parameter of
    [is_endpoint_url_valid]. *)

From S2P Require Import Prelude Text StatusCode NumericRange Variant Wire Crypto Chunk.

Definition HELLO_MESSAGE : bytes := str "HEL".
Definition ACKNOWLEDGE_MESSAGE : bytes := str "ACK".
Definition ERROR_MESSAGE : bytes := str "ERR".
Definition REVERSE_HELLO_MESSAGE : bytes := str "RHE".
Definition ECC_MIN_BUFFER_SIZE : Z := 1024.
Definition MESSAGE_HEADER_LEN : Z := 8.
Definition MAX_URL_LEN : Z := 4096.

Definition minimum_buffer_size_for_security_policy (p : SecurityPolicy) : Z :=
  if is_ecc p then ECC_MIN_BUFFER_SIZE else MIN_CHUNK_SIZE.
Definition buffers_meet_minimum (receive send minimum : Z) : bool := (minimum <=? receive) && (minimum <=? send).

Inductive MessageType : Set := MtInvalid | MtHello | MtAcknowledge | MtChunk | MtError | MtReverseHello.
#[export] Instance MessageType_eq_dec : EqDecision MessageType.
Proof. solve_decision. Defined.

Record MessageHeader := { mh_type : MessageType; mh_size : Z }.
#[export] Instance MessageHeader_eq_dec : EqDecision MessageHeader.
Proof. solve_decision. Defined.

(** [MessageHeader::message_type]. *)
Definition message_type_of_prefix (t : bytes) : MessageType :=
  if negb (zlen t =? 4) then MtInvalid
  else
    let code := take 3 t in
    let message_type :=
      if bool_decide (code = HELLO_MESSAGE) then MtHello
      else if bool_decide (code = ACKNOWLEDGE_MESSAGE) then MtAcknowledge
      else if bool_decide (code = ERROR_MESSAGE) then MtError
      else if bool_decide (code = REVERSE_HELLO_MESSAGE) then MtReverseHello
      else if bool_decide (code = CHUNK_MESSAGE) || bool_decide (code = OPEN_SECURE_CHANNEL_MESSAGE)
              || bool_decide (code = CLOSE_SECURE_CHANNEL_MESSAGE) then MtChunk
      else MtInvalid in
    match zlookup t 3 with
    | Some b =>
        if b =? CHUNK_FINAL then message_type
        else if (b =? CHUNK_INTERMEDIATE) || (b =? CHUNK_FINAL_ERROR) then
          if bool_decide (message_type = MtChunk) then message_type else MtInvalid
        else MtInvalid
    | None => MtInvalid
    end.

Definition message_header_encode (h : MessageHeader) : result (list bytes) StatusCode :=
  let? code :=
    match mh_type h with
    | MtHello => Ok HELLO_MESSAGE
    | MtAcknowledge => Ok ACKNOWLEDGE_MESSAGE
    | MtError => Ok ERROR_MESSAGE
    | MtReverseHello => Ok REVERSE_HELLO_MESSAGE
    | MtChunk | MtInvalid => Err BadEncodingError
    end in
  Ok ([code] ++ write_u8 CHUNK_FINAL ++ write_u32 (mh_size h)).
Definition message_header_decode (o : DecodingOptions) : parser MessageHeader :=
  let% code := read_exact 4 in
  let% size := read_u32 in
  if (0 <? max_message_size o) && (max_message_size o <? size) then PFail BadTcpMessageTooLarge
  else PRet {| mh_type := message_type_of_prefix code; mh_size := size |}.

(** ** Hello and Acknowledge *)

Record HelloMessage := {
  hello_header : MessageHeader;
  hello_protocol_version : Z;
  hello_receive_buffer_size : Z;
  hello_send_buffer_size : Z;
  hello_max_message_size : Z;
  hello_max_chunk_count : Z;
  hello_endpoint_url : UAString
}.
Record AcknowledgeMessage := {
  ack_header : MessageHeader;
  ack_protocol_version : Z;
  ack_receive_buffer_size : Z;
  ack_send_buffer_size : Z;
  ack_max_message_size : Z;
  ack_max_chunk_count : Z
}.

Definition hello_byte_len (m : HelloMessage) : Z :=
  MESSAGE_HEADER_LEN + 20 + ua_string_encoded_len (hello_endpoint_url m).
Definition hello_encode (m : HelloMessage) : result (list bytes) StatusCode :=
  let? h := message_header_encode (hello_header m) in
  Ok (h ++ write_u32 (hello_protocol_version m) ++ write_u32 (hello_receive_buffer_size m)
      ++ write_u32 (hello_send_buffer_size m) ++ write_u32 (hello_max_message_size m)
      ++ write_u32 (hello_max_chunk_count m) ++ ua_string_encode (hello_endpoint_url m)).
Definition hello_decode (o : DecodingOptions) : parser HelloMessage :=
  let% h := message_header_decode o in
  let% version := read_u32 in
  let% receive := read_u32 in
  let% send := read_u32 in
  let% size := read_u32 in
  let% count := read_u32 in
  let% url := ua_string_decode o in
  PRet {| hello_header := h; hello_protocol_version := version; hello_receive_buffer_size := receive;
          hello_send_buffer_size := send; hello_max_message_size := size; hello_max_chunk_count := count;
          hello_endpoint_url := url |}.
(** [as u32] of the arguments keeps 32 bits. *)
Definition hello_new (endpoint_url : rstr) (send receive max_message max_chunk : Z) : HelloMessage :=
  let with_size size :=
    {| hello_header := {| mh_type := MtHello; mh_size := size |}; hello_protocol_version := 0;
       hello_receive_buffer_size := wrap32 receive; hello_send_buffer_size := wrap32 send;
       hello_max_message_size := wrap32 max_message; hello_max_chunk_count := wrap32 max_chunk;
       hello_endpoint_url := Some endpoint_url |} in
  with_size (wrap32 (hello_byte_len (with_size 0))).

Definition is_endpoint_valid_length (m : HelloMessage) : bool :=
  match hello_endpoint_url m with Some url => utf8_len url <=? MAX_URL_LEN | None => false end.
(** [matches]: the URL of an endpoint and the one of the client agree except for the host. *)
Definition matches_endpoint (matches : rstr -> rstr -> bool) (endpoint_urls : list UAString) (m : HelloMessage) : bool :=
  existsb (fun e => matches (ua_as_ref e) (ua_as_ref (hello_endpoint_url m))) endpoint_urls.
Definition is_endpoint_url_valid (matches : rstr -> rstr -> bool) (endpoint_urls : list UAString) (m : HelloMessage)
    : bool :=
  if is_endpoint_valid_length m then matches_endpoint matches endpoint_urls m else false.
Definition hello_is_valid_buffer_sizes_for (p : SecurityPolicy) (m : HelloMessage) : bool :=
  buffers_meet_minimum (hello_receive_buffer_size m) (hello_send_buffer_size m)
    (minimum_buffer_size_for_security_policy p).
Definition hello_is_valid_buffer_sizes (m : HelloMessage) : bool := hello_is_valid_buffer_sizes_for PolicyNone m.

Definition ack_byte_len (m : AcknowledgeMessage) : Z := MESSAGE_HEADER_LEN + 20.
Definition ack_encode (m : AcknowledgeMessage) : result (list bytes) StatusCode :=
  let? h := message_header_encode (ack_header m) in
  Ok (h ++ write_u32 (ack_protocol_version m) ++ write_u32 (ack_receive_buffer_size m)
      ++ write_u32 (ack_send_buffer_size m) ++ write_u32 (ack_max_message_size m)
      ++ write_u32 (ack_max_chunk_count m)).
Definition ack_decode (o : DecodingOptions) : parser AcknowledgeMessage :=
  let% h := message_header_decode o in
  let% version := read_u32 in
  let% receive := read_u32 in
  let% send := read_u32 in
  let% size := read_u32 in
  let% count := read_u32 in
  PRet {| ack_header := h; ack_protocol_version := version; ack_receive_buffer_size := receive;
          ack_send_buffer_size := send; ack_max_message_size := size; ack_max_chunk_count := count |}.
Definition ack_new (version receive send max_message max_chunk : Z) : AcknowledgeMessage :=
  {| ack_header := {| mh_type := MtAcknowledge; mh_size := 28 |}; ack_protocol_version := version;
     ack_receive_buffer_size := receive; ack_send_buffer_size := send; ack_max_message_size := max_message;
     ack_max_chunk_count := max_chunk |}.
Definition ack_is_valid_buffer_sizes_for (p : SecurityPolicy) (m : AcknowledgeMessage) : bool :=
  buffers_meet_minimum (ack_receive_buffer_size m) (ack_send_buffer_size m)
    (minimum_buffer_size_for_security_policy p).

(** ** Error and ReverseHello *)

Record ErrorMessage := { em_header : MessageHeader; em_error : StatusCode; em_reason : UAString }.
Record ReverseHelloMessage := { rhe_header : MessageHeader; rhe_server_uri : UAString; rhe_endpoint_url : UAString }.

Definition error_byte_len (m : ErrorMessage) : Z := MESSAGE_HEADER_LEN + 4 + ua_string_encoded_len (em_reason m).
Definition error_encode (m : ErrorMessage) : result (list bytes) StatusCode :=
  let? h := message_header_encode (em_header m) in
  Ok (h ++ status_encode (em_error m) ++ ua_string_encode (em_reason m)).
Definition error_decode (o : DecodingOptions) : parser ErrorMessage :=
  let% h := message_header_decode o in
  let% error := status_decode in
  let% reason := ua_string_decode o in
  PRet {| em_header := h; em_error := error; em_reason := reason |}.
Definition error_new (status : StatusCode) (reason : rstr) : ErrorMessage :=
  let with_size size :=
    {| em_header := {| mh_type := MtError; mh_size := size |}; em_error := status; em_reason := Some reason |} in
  with_size (wrap32 (error_byte_len (with_size 0))).

Definition rhe_byte_len (m : ReverseHelloMessage) : Z :=
  MESSAGE_HEADER_LEN + ua_string_encoded_len (rhe_server_uri m) + ua_string_encoded_len (rhe_endpoint_url m).
Definition rhe_encode (m : ReverseHelloMessage) : result (list bytes) StatusCode :=
  let? h := message_header_encode (rhe_header m) in
  Ok (h ++ ua_string_encode (rhe_server_uri m) ++ ua_string_encode (rhe_endpoint_url m)).
Definition rhe_decode (o : DecodingOptions) : parser ReverseHelloMessage :=
  let% h := message_header_decode o in
  let% uri := ua_string_decode o in
  let% url := ua_string_decode o in
  PRet {| rhe_header := h; rhe_server_uri := uri; rhe_endpoint_url := url |}.
Definition rhe_new (server_uri endpoint_url : rstr) : ReverseHelloMessage :=
  let with_size size :=
    {| rhe_header := {| mh_type := MtReverseHello; mh_size := size |}; rhe_server_uri := Some server_uri;
       rhe_endpoint_url := Some endpoint_url |} in
  with_size (wrap32 (rhe_byte_len (with_size 0))).
