(* ===== verification/TcpCodec.v ===== *)
(** * The frame codec

    async-opcua-core/src/comms/tcp_codec.rs: [TcpCodec], which cuts a byte stream into connection
    messages and chunks, with [decode_zero_copy] of message_chunk.rs; and [FramedRead], the reader of
    the networking library that feeds it.  Theorem: the frames read do not depend on how the network
    splits the stream, and are the messages that were encoded. *)

From S2P Require Import Prelude Text StatusCode NumericRange Variant Wire Crypto Chunk TcpTypes.

Inductive TcpMessage :=
| THello (m : HelloMessage)
| TAcknowledge (m : AcknowledgeMessage)
| TError (m : ErrorMessage)
| TChunk (c : MessageChunk)
| TReverseHello (m : ReverseHelloMessage).

(** An [io::Error]; [Some s] when it wraps an error with the status [s]. *)
Abbreviation IoError := (option StatusCode).

(** [decode_zero_copy]: the chunk at the start of [src], and what follows it. *)
Definition decode_zero_copy (o : DecodingOptions) (src : bytes) : result (MessageChunk * bytes) StatusCode :=
  if zlen src <? MESSAGE_SIZE_OFFSET + 4 then Err BadDecodingError
  else
    let? size_bytes := ok_or (slice src MESSAGE_SIZE_OFFSET (MESSAGE_SIZE_OFFSET + 4)) BadDecodingError in
    let size := of_le size_bytes in
    if (0 <? max_message_size o) && (max_message_size o <? size) then Err BadTcpMessageTooLarge
    else if size <? MESSAGE_CHUNK_HEADER_SIZE then Err BadDecodingError
    else if zlen src <? size then Err BadDecodingError
    else Ok (take (Z.to_nat size) src, drop (Z.to_nat size) src).

Definition decode_message (o : DecodingOptions) (header : MessageHeader) (frame : bytes)
    : result TcpMessage StatusCode :=
  match mh_type header with
  | MtAcknowledge => let? (m, _) := run (ack_decode o) frame in Ok (TAcknowledge m)
  | MtHello => let? (m, _) := run (hello_decode o) frame in Ok (THello m)
  | MtError => let? (m, _) := run (error_decode o) frame in Ok (TError m)
  | MtChunk => let? (c, _) := decode_zero_copy o frame in Ok (TChunk c)
  | MtReverseHello => let? (m, _) := run (rhe_decode o) frame in Ok (TReverseHello m)
  | MtInvalid => Err BadCommunicationError
  end.

(** A limit of zero means no limit, but a frame is limited all the same. *)
Definition validate_declared_message_size (o : DecodingOptions) (size : Z) : result unit StatusCode :=
  let max := if max_message_size o =? 0 then MAX_MESSAGE_SIZE else max_message_size o in
  if size <? MESSAGE_HEADER_LEN then Err BadTcpMessageTooLarge
  else if max <? size then Err BadTcpMessageTooLarge
  else Ok tt.

(** [TcpCodec::decode]: a message and the rest of the buffer, or [None] when more bytes are needed. *)
Definition codec_decode (o : DecodingOptions) (buf : bytes) : result (option (TcpMessage * bytes)) StatusCode :=
  if MESSAGE_HEADER_LEN <=? zlen buf then
    let? (header, _) := run (message_header_decode o) (take (Z.to_nat MESSAGE_HEADER_LEN) buf) in
    let size := mh_size header in
    let? _ := validate_declared_message_size o size in
    if size <=? zlen buf then
      let? m := decode_message o header (take (Z.to_nat size) buf) in
      Ok (Some (m, drop (Z.to_nat size) buf))
    else Ok None
  else Ok None.

(** [TcpCodec::encode]: the bytes appended to the output. *)
Definition message_byte_len (m : TcpMessage) : Z :=
  match m with
  | THello m => hello_byte_len m
  | TAcknowledge m => ack_byte_len m
  | TError m => error_byte_len m
  | TChunk c => zlen c
  | TReverseHello m => rhe_byte_len m
  end.
Definition message_encode (m : TcpMessage) : result (list bytes) StatusCode :=
  match m with
  | THello m => hello_encode m
  | TAcknowledge m => ack_encode m
  | TError m => error_encode m
  | TChunk c => Ok [c]
  | TReverseHello m => rhe_encode m
  end.
Definition codec_encode (o : DecodingOptions) (m : TcpMessage) : result bytes IoError :=
  if (0 <? max_message_size o) && (max_message_size o <? message_byte_len m) then Err None
  else match message_encode m with Ok bufs => Ok (concat bufs) | Err _ => Err None end.

(** ** The reader *)

(** Decoding until the buffer holds no complete frame; every frame has a header, so the length of
    the buffer is enough fuel. *)
Fixpoint read_frames (fuel : nat) (o : DecodingOptions) (buf : bytes) : list TcpMessage * result bytes StatusCode :=
  match fuel with
  | O => ([], Ok buf)
  | S fuel' =>
      match codec_decode o buf with
      | Err e => ([], Err e)
      | Ok None => ([], Ok buf)
      | Ok (Some (m, rest)) => let '(ms, r) := read_frames fuel' o rest in (m :: ms, r)
      end
  end.
(** [FramedRead]: new bytes arrive at a reader with the given buffer, or that has failed. *)
Definition feed (o : DecodingOptions) (s : result bytes StatusCode) (data : bytes)
    : list TcpMessage * result bytes StatusCode :=
  match s with
  | Ok buf => read_frames (S (length (buf ++ data))) o (buf ++ data)
  | Err e => ([], Err e)
  end.
Fixpoint feed_all (o : DecodingOptions) (s : result bytes StatusCode) (pieces : list bytes)
    : list TcpMessage * result bytes StatusCode :=
  match pieces with
  | [] => ([], s)
  | data :: pieces' =>
      let '(ms, s) := feed o s data in
      let '(ms', s) := feed_all o s pieces' in
      (ms ++ ms', s)
  end.

(** ** Independence of the splitting *)

Lemma decode_header_take (buf : bytes) : 8 <= zlen buf ->
  forall more, take (Z.to_nat MESSAGE_HEADER_LEN) (buf ++ more) = take (Z.to_nat MESSAGE_HEADER_LEN) buf.
Proof. intros Hlen more. apply take_app_le. unfold zlen, MESSAGE_HEADER_LEN in *. lia. Qed.

Lemma codec_decode_app o buf more :
  match codec_decode o buf with
  | Ok (Some (m, rest)) => codec_decode o (buf ++ more) = Ok (Some (m, rest ++ more))
                           /\ (length rest < length buf)%nat
  | Ok None => True
  | Err e => codec_decode o (buf ++ more) = Err e
  end.
Proof.
  unfold codec_decode. destruct (Z.leb_spec MESSAGE_HEADER_LEN (zlen buf)) as [Hlen|]; [|done].
  assert ((MESSAGE_HEADER_LEN <=? zlen (buf ++ more)) = true) as ->
    by (apply Z.leb_le; rewrite zlen_app; pose proof (zlen_nonneg more); lia).
  rewrite decode_header_take by done.
  destruct (run _ _) as [[h r]|e]; cbn [result_bind]; [|done].
  destruct (validate_declared_message_size o (mh_size h)) as [[]|e] eqn:Hv; cbn [result_bind]; [|done].
  unfold validate_declared_message_size in Hv.
  destruct (Z.ltb_spec (mh_size h) MESSAGE_HEADER_LEN) as [|Hsize]; [done|]. clear Hv.
  destruct (Z.leb_spec (mh_size h) (zlen buf)) as [Hle|]; [|done].
  assert ((mh_size h <=? zlen (buf ++ more)) = true) as ->
    by (apply Z.leb_le; rewrite zlen_app; pose proof (zlen_nonneg more); lia).
  unfold zlen, MESSAGE_HEADER_LEN in *. rewrite take_app_le, drop_app_le by lia.
  destruct (decode_message _ _ _); cbn [result_bind]; [|done]. split; [done|]. rewrite length_drop. lia.
Qed.

(** More fuel than bytes changes nothing. *)
Lemma read_frames_fuel o : forall fuel fuel' buf, (length buf < fuel)%nat -> (length buf < fuel')%nat ->
  read_frames fuel o buf = read_frames fuel' o buf.
Proof.
  induction fuel as [|fuel IH]; intros [|fuel'] buf Hf Hf'; try lia. cbn [read_frames].
  pose proof (codec_decode_app o buf []) as Hdec.
  destruct (codec_decode o buf) as [[[m rest]|]|e]; [|done..]. destruct Hdec as [_ Hlt].
  by rewrite (IH fuel') by lia.
Qed.

Lemma feed_app o : forall fuel buf data, (length buf < fuel)%nat ->
  let '(ms, s) := read_frames fuel o buf in
  feed o (Ok buf) data = (let '(ms', s') := feed o s data in (ms ++ ms', s')).
Proof.
  induction fuel as [|fuel IH]; intros buf data Hf; [lia|]. cbn [read_frames].
  pose proof (codec_decode_app o buf data) as Hdec.
  destruct (codec_decode o buf) as [[[m rest]|]|e] eqn:Hb.
  - destruct Hdec as [Hdec Hlt]. specialize (IH rest data ltac:(lia)).
    destruct (read_frames fuel o rest) as [ms s]. unfold feed at 1. cbn [read_frames]. rewrite Hdec.
    unfold feed at 1 in IH. rewrite (read_frames_fuel o _ (S (length (rest ++ data)))).
    + rewrite IH. by destruct (feed o s data).
    + rewrite !length_app. lia.
    + rewrite !length_app. lia.
  - by destruct (feed o (Ok buf) data).
  - unfold feed. cbn [read_frames]. by rewrite Hdec.
Qed.

Lemma read_frames_done o : forall fuel buf ms rest, (length buf < fuel)%nat ->
  read_frames fuel o buf = (ms, Ok rest) -> codec_decode o rest = Ok None.
Proof.
  induction fuel as [|fuel IH]; intros buf ms rest Hf; [lia|]. cbn [read_frames].
  pose proof (codec_decode_app o buf []) as Hdec.
  destruct (codec_decode o buf) as [[[m rest']|]|e] eqn:Hb; [| |done].
  - destruct Hdec as [_ Hlt]. destruct (read_frames fuel o rest') as [ms' s'] eqn:Hr. intros [= _ ->].
    eapply IH; [|exact Hr]. lia.
  - by intros [= _ <-].
Qed.

Lemma feed_feed o s data data' :
  (let '(ms, s1) := feed o s data in let '(ms', s2) := feed o s1 data' in (ms ++ ms', s2)) = feed o s (data ++ data').
Proof.
  destruct s as [buf|e]; [|done].
  pose proof (feed_app o (S (length (buf ++ data))) (buf ++ data) data' ltac:(lia)) as Happ.
  change (feed o (Ok buf) data) with (read_frames (S (length (buf ++ data))) o (buf ++ data)).
  destruct (read_frames _ o (buf ++ data)) as [ms s1]. rewrite <- Happ. unfold feed. by rewrite app_assoc.
Qed.
Lemma feed_done o s data ms rest : feed o s data = (ms, Ok rest) -> codec_decode o rest = Ok None.
Proof. destruct s as [buf|e]; [|done]. apply read_frames_done. lia. Qed.

Lemma feed_all_concat o pieces : forall s, (forall buf, s = Ok buf -> codec_decode o buf = Ok None) ->
  feed_all o s pieces = feed o s (concat pieces).
Proof.
  induction pieces as [|data pieces IH]; intros s Hs; cbn [feed_all concat].
  - destruct s as [buf|e]; [|done]. unfold feed. rewrite app_nil_r. cbn [read_frames]. by rewrite (Hs buf).
  - rewrite <- feed_feed. destruct (feed o s data) as [ms s1] eqn:Hf. rewrite IH; [done|].
    intros buf ->. by eapply feed_done.
Qed.

(** ** Encoding and decoding *)

Definition is_message_header (o : DecodingOptions) (h : MessageHeader) : Prop :=
  is_u32 (mh_size h) /\ mh_size h <= (if max_message_size o =? 0 then MAX_MESSAGE_SIZE else max_message_size o).

(** Messages the codec can carry: the header names the type and the length, the fields fit. *)
Definition frame_ok (o : DecodingOptions) (m : TcpMessage) : Prop :=
  match m with
  | THello m => mh_type (hello_header m) = MtHello /\ mh_size (hello_header m) = hello_byte_len m
      /\ is_message_header o (hello_header m) /\ is_u32 (hello_protocol_version m)
      /\ is_u32 (hello_receive_buffer_size m) /\ is_u32 (hello_send_buffer_size m)
      /\ is_u32 (hello_max_message_size m) /\ is_u32 (hello_max_chunk_count m) /\ string_ok o (hello_endpoint_url m)
  | TAcknowledge m => mh_type (ack_header m) = MtAcknowledge /\ mh_size (ack_header m) = ack_byte_len m
      /\ is_message_header o (ack_header m) /\ is_u32 (ack_protocol_version m)
      /\ is_u32 (ack_receive_buffer_size m) /\ is_u32 (ack_send_buffer_size m)
      /\ is_u32 (ack_max_message_size m) /\ is_u32 (ack_max_chunk_count m)
  | TError m => mh_type (em_header m) = MtError /\ mh_size (em_header m) = error_byte_len m
      /\ is_message_header o (em_header m) /\ is_u32 (em_error m) /\ string_ok o (em_reason m)
  | TChunk c => exists h body, c = concat (chunk_header_encode h) ++ body /\ message_size h = zlen c
      /\ is_message_header o {| mh_type := MtChunk; mh_size := zlen c |}
  | TReverseHello m => mh_type (rhe_header m) = MtReverseHello /\ mh_size (rhe_header m) = rhe_byte_len m
      /\ is_message_header o (rhe_header m) /\ string_ok o (rhe_server_uri m) /\ string_ok o (rhe_endpoint_url m)
  end.

Lemma run_message_header {A} o h bufs (k : MessageHeader -> parser A) rest :
  message_header_encode h = Ok bufs -> is_message_header o h ->
  run (parser_bind (message_header_decode o) k) (concat bufs ++ rest) = run (k h) rest.
Proof.
  intros He [Hu Hmax]. unfold message_header_encode in He.
  apply result_bind_ok in He as (code & Hcode & He).
  assert (message_type_of_prefix (code ++ [CHUNK_FINAL]) = mh_type h /\ zlen code = 3) as [Ht Hlen]
    by (destruct (mh_type h); simplify_eq; done).
  assert (concat bufs = (code ++ [CHUNK_FINAL]) ++ le_bytes 4 (mh_size h)) as ->
    by (injection He as <-; simpl; by rewrite <- app_assoc).
  unfold message_header_decode. rewrite run_bind, <- app_assoc, run_exact by (rewrite zlen_app, Hlen; done).
  rewrite run_u32 by done.
  destruct (Z.ltb_spec 0 (max_message_size o)) as [Hm|]; cbn [andb].
  - destruct (Z.eqb_spec (max_message_size o) 0); [lia|].
    destruct (Z.ltb_spec (max_message_size o) (mh_size h)); [lia|].
    cbn [run result_bind]. rewrite Ht. by destruct h.
  - cbn [run result_bind]. rewrite Ht. by destruct h.
Qed.

(** The header at the start of an encoded message. *)
Definition announced (m : TcpMessage) : MessageHeader :=
  match m with
  | THello m => hello_header m
  | TAcknowledge m => ack_header m
  | TError m => em_header m
  | TChunk c => {| mh_type := MtChunk; mh_size := zlen c |}
  | TReverseHello m => rhe_header m
  end.

Lemma message_header_len h bufs : message_header_encode h = Ok bufs -> zlen (concat bufs) = MESSAGE_HEADER_LEN.
Proof.
  unfold message_header_encode. intros (code & Hcode & [= <-])%result_bind_ok.
  destruct (mh_type h); simplify_eq; done.
Qed.

Lemma encode_frame o m : frame_ok o m -> exists bufs, message_encode m = Ok bufs
  /\ zlen (concat bufs) = mh_size (announced m) /\ mh_size (announced m) = message_byte_len m.
Proof.
  assert (forall h, mh_type h <> MtChunk -> mh_type h <> MtInvalid ->
            exists bufs, message_header_encode h = Ok bufs /\ zlen (concat bufs) = 8) as Hheader.
  { intros h H1 H2. unfold message_header_encode. destruct (mh_type h); try done; by eexists. }
  destruct m as [m|m|m|c|m]; cbn [frame_ok message_encode announced message_byte_len].
  - intros (Ht & Hs & _). destruct (Hheader (hello_header m)) as (h & Hh & Hl); [by rewrite Ht..|].
    unfold hello_encode. rewrite Hh. eexists. split; [done|]. split; [|done]. rewrite Hs. unfold hello_byte_len.
    rewrite !concat_app, !zlen_app, Hl, ua_string_len. unfold write_u32. cbn [concat].
    rewrite !app_nil_r, !zlen_le_bytes. unfold MESSAGE_HEADER_LEN. lia.
  - intros (Ht & Hs & _). destruct (Hheader (ack_header m)) as (h & Hh & Hl); [by rewrite Ht..|].
    unfold ack_encode. rewrite Hh. eexists. split; [done|]. split; [|done]. rewrite Hs. unfold ack_byte_len.
    rewrite !concat_app, !zlen_app, Hl. unfold write_u32. cbn [concat].
    rewrite !app_nil_r, !zlen_le_bytes. done.
  - intros (Ht & Hs & _). destruct (Hheader (em_header m)) as (h & Hh & Hl); [by rewrite Ht..|].
    unfold error_encode. rewrite Hh. eexists. split; [done|]. split; [|done]. rewrite Hs. unfold error_byte_len.
    rewrite !concat_app, !zlen_app, Hl, ua_string_len. unfold status_encode, write_u32. cbn [concat].
    rewrite !app_nil_r, !zlen_le_bytes. unfold MESSAGE_HEADER_LEN. lia.
  - intros _. eexists. split; [done|]. cbn [concat]. by rewrite app_nil_r.
  - intros (Ht & Hs & _). destruct (Hheader (rhe_header m)) as (h & Hh & Hl); [by rewrite Ht..|].
    unfold rhe_encode. rewrite Hh. eexists. split; [done|]. split; [|done]. rewrite Hs. unfold rhe_byte_len.
    rewrite !concat_app, !zlen_app, Hl, !ua_string_len. unfold MESSAGE_HEADER_LEN. lia.
Qed.

Lemma frame_announced o m : frame_ok o m -> is_message_header o (announced m).
Proof. destruct m; cbn [frame_ok announced]; [by intros (? & ? & ? & ?)..|by intros (h & b & _ & _ & ?)|by intros (? & ? & ? & ?)]. Qed.

(** The encoding starts with its header. *)
Lemma encode_header o m bufs : frame_ok o m -> message_encode m = Ok bufs ->
  exists header rest, concat bufs = header ++ rest /\ zlen header = 8
    /\ run (message_header_decode o) header = Ok (announced m, []).
Proof.
  intros Hok Hm. pose proof (frame_announced _ _ Hok) as Ha.
  assert (forall h bufs' rest, message_header_encode h = Ok bufs' -> announced m = h -> concat bufs = concat bufs' ++ rest ->
    exists header rest, concat bufs = header ++ rest /\ zlen header = 8
      /\ run (message_header_decode o) header = Ok (announced m, [])) as Hconn.
  { intros h bufs' rest Hb Hh Hc. exists (concat bufs'), rest. split; [done|].
    split; [by apply message_header_len in Hb|]. rewrite Hh in *.
    pose proof (run_message_header o h bufs' PRet [] Hb Ha) as Hr. rewrite app_nil_r, run_bind in Hr.
    destruct (run _ _) as [[h' r']|]; [|done]. exact Hr. }
  destruct m as [m|m|m|c|m]; cbn [message_encode] in Hm.
  - unfold hello_encode in Hm. apply result_bind_ok in Hm as (b & Hb & Hm). apply Ok_inj in Hm as <-.
    eapply Hconn; [done..|]. by rewrite concat_app.
  - unfold ack_encode in Hm. apply result_bind_ok in Hm as (b & Hb & Hm). apply Ok_inj in Hm as <-.
    eapply Hconn; [done..|]. by rewrite concat_app.
  - unfold error_encode in Hm. apply result_bind_ok in Hm as (b & Hb & Hm). apply Ok_inj in Hm as <-.
    eapply Hconn; [done..|]. by rewrite concat_app.
  - apply Ok_inj in Hm as <-. destruct Hok as (h & body & -> & Hsize & [Hu Hmax]). clear Hconn.
    cbn [concat announced]. rewrite app_nil_r. set (c := concat (chunk_header_encode h) ++ body) in *.
    exists ((message_type_code (message_type h) ++ [is_final_code (is_final h)]) ++ le_bytes 4 (message_size h)),
      (le_bytes 4 (header_channel_id h) ++ body).
    split; [unfold c; destruct h as [[] [] ? ?]; done|]. split; [by destruct h as [[] [] ? ?]|].
    unfold message_header_decode. rewrite run_exact by (by destruct h as [[] [] ? ?]).
    rewrite <- (app_nil_r (le_bytes 4 (message_size h))), run_u32 by (by rewrite Hsize).
    replace (message_type_of_prefix _) with MtChunk by (by destruct h as [[] [] ? ?]). rewrite Hsize.
    destruct (Z.ltb_spec 0 (max_message_size o)); cbn [andb]; [|done].
    destruct (Z.ltb_spec (max_message_size o) (zlen c)); [|done]. cbn [mh_size] in Hmax.
    destruct (Z.eqb_spec (max_message_size o) 0); lia.
  - unfold rhe_encode in Hm. apply result_bind_ok in Hm as (b & Hb & Hm). apply Ok_inj in Hm as <-.
    eapply Hconn; [done..|]. by rewrite concat_app.
Qed.

Lemma decode_encoded o m bufs : frame_ok o m -> message_encode m = Ok bufs ->
  decode_message o (announced m) (concat bufs) = Ok m.
Proof.
  intros Hok Hm. pose proof (frame_announced _ _ Hok) as Ha. unfold decode_message.
  destruct m as [m|m|m|c|m]; cbn [message_encode announced frame_ok] in *.
  - destruct Hok as (Ht & _ & _ & Hv & Hr & Hs & Hmm & Hmc & Hurl). rewrite Ht. unfold hello_encode in Hm.
    apply result_bind_ok in Hm as (b & Hb & Hm). apply Ok_inj in Hm as <-. unfold hello_decode.
    rewrite concat_app, (run_message_header _ _ _ _ _ Hb Ha). unfold write_u32. cbn [concat app].
    rewrite !run_u32 by done. rewrite <- (app_nil_r (concat _)), run_ua_string by done. by destruct m.
  - destruct Hok as (Ht & _ & _ & Hv & Hr & Hs & Hmm & Hmc). rewrite Ht. unfold ack_encode in Hm.
    apply result_bind_ok in Hm as (b & Hb & Hm). apply Ok_inj in Hm as <-. unfold ack_decode.
    rewrite concat_app, (run_message_header _ _ _ _ _ Hb Ha). unfold write_u32. cbn [concat app].
    rewrite !run_u32 by done. by destruct m.
  - destruct Hok as (Ht & _ & _ & He & Hr). rewrite Ht. unfold error_encode in Hm.
    apply result_bind_ok in Hm as (b & Hb & Hm). apply Ok_inj in Hm as <-. unfold error_decode, status_decode.
    rewrite concat_app, (run_message_header _ _ _ _ _ Hb Ha). unfold status_encode, write_u32. cbn [concat app].
    rewrite !run_u32 by done. rewrite <- (app_nil_r (concat _)), run_ua_string by done. by destruct m.
  - apply Ok_inj in Hm as <-. cbn [mh_type concat]. rewrite app_nil_r.
    destruct Hok as (h & body & Hc & Hsize & [Hu Hmax]). cbn [mh_size] in *.
    assert (12 <= zlen c) as H12.
    { rewrite Hc, zlen_app, chunk_header_len. pose proof (zlen_nonneg body). unfold MESSAGE_CHUNK_HEADER_SIZE. lia. }
    assert (slice c 4 8 = Some (le_bytes 4 (zlen c))) as Hslice.
    { rewrite <- Hsize, Hc. unfold slice. rewrite zlen_app, chunk_header_len. pose proof (zlen_nonneg body).
      unfold MESSAGE_CHUNK_HEADER_SIZE. repeat decide_test. f_equal. by destruct h as [[] [] ? ?]. }
    unfold decode_zero_copy, MESSAGE_SIZE_OFFSET, MESSAGE_CHUNK_HEADER_SIZE. repeat decide_test.
    change (slice c (3 + 1) (3 + 1 + 4)) with (slice c 4 8). rewrite Hslice. cbn [ok_or result_bind].
    rewrite of_le_le_bytes, Z.mod_small by int_lia. rewrite Z.ltb_irrefl.
    destruct (Z.ltb_spec 0 (max_message_size o)); cbn [andb].
    + destruct (Z.ltb_spec (max_message_size o) (zlen c)); [destruct (Z.eqb_spec (max_message_size o) 0); lia|].
      decide_test. cbn [result_bind]. rewrite take_ge by (unfold zlen; lia). done.
    + decide_test. cbn [result_bind]. rewrite take_ge by (unfold zlen; lia). done.
  - destruct Hok as (Ht & _ & _ & Hu & He). rewrite Ht. unfold rhe_encode in Hm.
    apply result_bind_ok in Hm as (b & Hb & Hm). apply Ok_inj in Hm as <-. unfold rhe_decode.
    rewrite concat_app, (run_message_header _ _ _ _ _ Hb Ha). rewrite concat_app.
    rewrite run_ua_string by done. rewrite <- (app_nil_r (concat _)), run_ua_string by done. by destruct m.
Qed.

Lemma codec_decode_encoded o m bufs rest : frame_ok o m -> message_encode m = Ok bufs ->
  codec_decode o (concat bufs ++ rest) = Ok (Some (m, rest)).
Proof.
  intros Hok Hm. destruct (encode_frame _ _ Hok) as (bufs' & Hm' & Hlen & _). rewrite Hm in Hm'.
  apply Ok_inj in Hm' as <-. destruct (encode_header _ _ _ Hok Hm) as (header & tail & Hc & H8 & Hrun).
  destruct (frame_announced _ _ Hok) as [Hu Hmax].
  assert (8 <= zlen (concat bufs)) as Hge by (rewrite Hc, zlen_app; pose proof (zlen_nonneg tail); lia).
  unfold codec_decode. unfold MESSAGE_HEADER_LEN in *. rewrite zlen_app. pose proof (zlen_nonneg rest). decide_test.
  assert (take (Z.to_nat 8) (concat bufs ++ rest) = header) as ->.
  { rewrite Hc, <- app_assoc. apply take_app_length'. unfold zlen in H8. lia. }
  rewrite Hrun. cbn [result_bind]. unfold validate_declared_message_size, MESSAGE_HEADER_LEN.
  destruct (max_message_size o =? 0); repeat decide_test; cbn [result_bind];
    (rewrite take_app_length', drop_app_length' by (unfold zlen in Hlen; lia));
    by rewrite (decode_encoded _ _ _ Hok Hm).
Qed.

(** The frames of a list of messages. *)
Definition encodes (m : TcpMessage) (frame : bytes) : Prop :=
  exists bufs, message_encode m = Ok bufs /\ frame = concat bufs.

Lemma feed_encoded o ms frames : Forall2 encodes ms frames -> Forall (frame_ok o) ms ->
  feed o (Ok []) (concat frames) = (ms, Ok []).
Proof.
  intros Henc. unfold feed. rewrite app_nil_l.
  enough (forall fuel, (length (concat frames) < fuel)%nat -> Forall (frame_ok o) ms ->
            read_frames fuel o (concat frames) = (ms, Ok [])) as Hread by (apply Hread; lia).
  induction Henc as [|m frame ms frames (bufs & Hm & ->) _ IH]; intros [|fuel] Hf Hall; try (simpl in Hf; lia).
  { done. }
  apply Forall_cons in Hall as [Hok Hall]. cbn [concat read_frames].
  rewrite (codec_decode_encoded _ _ _ _ Hok Hm). rewrite IH; [done| |done].
  destruct (encode_frame _ _ Hok) as (bufs' & Hm' & Hlen & _). rewrite Hm in Hm'. apply Ok_inj in Hm' as <-.
  destruct (encode_header _ _ _ Hok Hm) as (header & tail & Hc & H8 & _).
  cbn [concat] in Hf. rewrite length_app, Hc, length_app in Hf. unfold zlen in H8. lia.
Qed.

(** C8: however the network splits the stream of encoded messages, the reader yields exactly these
    messages, in order, and keeps nothing back. *)
Theorem frames_recovered o ms frames pieces :
  Forall2 encodes ms frames -> Forall (frame_ok o) ms -> concat pieces = concat frames ->
  feed_all o (Ok []) pieces = (ms, Ok []).
Proof.
  intros Henc Hok Hsplit. rewrite feed_all_concat by (by intros buf [= <-]). rewrite Hsplit. by apply feed_encoded.
Qed.

Lemma frames_recovered_witness :
  let ack := TAcknowledge (ack_new 0 65535 65535 0 0) in
  let error := TError (error_new BadUnexpectedError (str "no")) in
  exists f1 f2, encodes ack f1 /\ encodes error f2 /\
  feed_all default_options (Ok []) [take 3 (f1 ++ f2); take 30 (drop 3 (f1 ++ f2)); drop 33 (f1 ++ f2)]
  = ([ack; error], Ok []).
Proof.
  eexists _, _. split; [by eexists|]. split; [by eexists|].
  apply (frames_recovered default_options [TAcknowledge (ack_new 0 65535 65535 0 0);
           TError (error_new BadUnexpectedError (str "no"))] _ _ ltac:(repeat constructor; by eexists)).
  - repeat constructor; vm_compute; try done; try (intros; discriminate).
  - vm_compute. reflexivity.
Defined.
