(* ===== verification/SendBuffer.v ===== *)
(** * The send buffer

    async-opcua-core/src/comms/buffer.rs: [SendBuffer], the queue of outgoing chunks and connection
    messages, secured one by one into a byte buffer that is written to the socket in pieces.

    [encode_next_chunk] and its asynchronous variant run the same code; [rng] holds the random
    numbers of the call.  The content of the buffer after a failed encoding is never sent and is
    left unchanged here.  A write to the socket takes some of the bytes offered: their number is an
    argument of [read_into]. *)

From S2P Require Import Prelude Text StatusCode NumericRange Variant Wire Crypto Chunk SecureChannel AsymmetricSecurity.
From S2P Require Import SequenceNumber Chunker TcpTypes.

(** [Error] of async-opcua-types/src/encoding.rs, without its text. *)
Record Error := { err_status : StatusCode; err_request_id : option Z; err_request_handle : option Z }.
Definition error_of (s : StatusCode) : Error := {| err_status := s; err_request_id := None; err_request_handle := None |}.
Definition with_context (id handle : option Z) (e : Error) : Error :=
  {| err_status := err_status e; err_request_id := id; err_request_handle := handle |}.
Definition with_request_id (id : Z) (e : Error) : Error :=
  {| err_status := err_status e; err_request_id := Some id; err_request_handle := err_request_handle e |}.
Definition full_context (e : Error) : option (Z * Z) :=
  match err_request_id e, err_request_handle e with Some id, Some handle => Some (id, handle) | _, _ => None end.

Definition BadInvalidState : StatusCode := 0x80AF0000.

Section buffer.
Context {FT : Features} {CL : CryptoLib} {PK : Pki} {AL : AsymmetricLib}.

Inductive SendBufferState := Reading (stop : Z) | Writing.
Inductive PendingPayload :=
| PayloadChunk (c : MessageChunk)
| PayloadAck (m : AcknowledgeMessage)
| PayloadError (m : ErrorMessage).

(** [sb_buffer], [sb_position]: the [Cursor]. *)
Record SendBuffer := {
  sb_buffer : bytes;
  sb_position : Z;
  sb_chunks : list PendingPayload;
  sb_last_request_id : Z;
  sb_sequence_numbers : SequenceNumberHandle;
  sb_max_message_size : Z;
  sb_max_chunk_count : Z;
  sb_send_buffer_size : Z;
  sb_state : SendBufferState
}.

Definition sb_new (buffer_size max_message_size max_chunk_count : Z) (legacy : bool) : SendBuffer :=
  {| sb_buffer := repeat 0 (Z.to_nat (buffer_size + 1024)); sb_position := 0; sb_chunks := [];
     sb_last_request_id := 1000; sb_sequence_numbers := sn_new legacy; sb_max_message_size := max_message_size;
     sb_max_chunk_count := max_chunk_count; sb_send_buffer_size := buffer_size; sb_state := Writing |}.

(** The buffer part of the state, the queue, and the counter. *)
Definition set_buffer (buffer : bytes) (position : Z) (state : SendBufferState) (b : SendBuffer) : SendBuffer :=
  {| sb_buffer := buffer; sb_position := position; sb_chunks := sb_chunks b;
     sb_last_request_id := sb_last_request_id b; sb_sequence_numbers := sb_sequence_numbers b;
     sb_max_message_size := sb_max_message_size b; sb_max_chunk_count := sb_max_chunk_count b;
     sb_send_buffer_size := sb_send_buffer_size b; sb_state := state |}.
Definition set_chunks (chunks : list PendingPayload) (b : SendBuffer) : SendBuffer :=
  {| sb_buffer := sb_buffer b; sb_position := sb_position b; sb_chunks := chunks;
     sb_last_request_id := sb_last_request_id b; sb_sequence_numbers := sb_sequence_numbers b;
     sb_max_message_size := sb_max_message_size b; sb_max_chunk_count := sb_max_chunk_count b;
     sb_send_buffer_size := sb_send_buffer_size b; sb_state := sb_state b |}.
Definition set_sequence_numbers (h : SequenceNumberHandle) (b : SendBuffer) : SendBuffer :=
  {| sb_buffer := sb_buffer b; sb_position := sb_position b; sb_chunks := sb_chunks b;
     sb_last_request_id := sb_last_request_id b; sb_sequence_numbers := h;
     sb_max_message_size := sb_max_message_size b; sb_max_chunk_count := sb_max_chunk_count b;
     sb_send_buffer_size := sb_send_buffer_size b; sb_state := sb_state b |}.

(** Writing to the [Cursor]: the vector grows when needed. *)
Definition cursor_write (data : bytes) (position : Z) (buffer : bytes) : bytes :=
  let position := Z.to_nat position in
  take position buffer ++ repeat 0 (position - length buffer) ++ data ++ drop (position + length data) buffer.

(** ** Sending *)

(** [encode_next_chunk]: the buffer and channel after the call, and its result. *)
Definition encode_next_chunk (sc : SecureChannel) (rng : nat -> Z) (b : SendBuffer)
    : outcome (SendBuffer * SecureChannel * result unit StatusCode) :=
  match sb_state b with
  | Reading _ => Ret (b, sc, Err BadInvalidState)
  | Writing =>
      match sb_chunks b with
      | [] => Ret (b, sc, Ok tt)
      | next_chunk :: chunks =>
          let b := set_chunks chunks b in
          let ready buffer sc size := (set_buffer buffer 0 (Reading size) b, sc, Ok tt) in
          let connection_message encoded :=
            match encoded with
            | Ok bufs =>
                let buffer := cursor_write (concat bufs) (sb_position b) (sb_buffer b) in
                Ret (ready buffer sc (sb_position b + zlen (concat bufs)))
            | Err e => Ret (b, sc, Err e)
            end in
          match next_chunk with
          | PayloadChunk c =>
              let! r := apply_security sc rng c (zlen (sb_buffer b)) in
              match r with
              | Ok (secured, sc') => Ret (ready (cursor_write secured 0 (sb_buffer b)) sc' (zlen secured))
              | Err e => Ret (b, sc, Err e)
              end
          | PayloadAck m => connection_message (ack_encode m)
          | PayloadError m => connection_message (error_encode m)
          end
      end
  end.

(** [read_into_async], when the socket takes [accepted] bytes: the bytes sent.  A socket that takes
    more than it is offered is against the contract of [AsyncWrite]. *)
Definition read_into (accepted : nat) (b : SendBuffer) : SendBuffer * result bytes StatusCode :=
  let '(stop, b) :=
    match sb_state b with
    | Writing => (sb_position b, set_buffer (sb_buffer b) 0 (Reading (sb_position b)) b)
    | Reading stop => (stop, b)
    end in
  match slice (sb_buffer b) (sb_position b) stop with
  | None => (b, Err BadCommunicationError)
  | Some offered =>
      let sent := take accepted offered in
      let position := sb_position b + zlen sent in
      if stop =? position then (set_buffer (sb_buffer b) 0 Writing b, Ok sent)
      else (set_buffer (sb_buffer b) position (Reading stop) b, Ok sent)
  end.

Definition can_read (b : SendBuffer) : bool :=
  match sb_state b with Reading _ => true | Writing => negb (sb_position b =? 0) end.
Definition should_encode_chunks (b : SendBuffer) : bool :=
  negb (bool_decide (sb_chunks b = [])) && negb (can_read b).

(** ** Queueing *)

Definition set_sequence_number_legacy (legacy : bool) (b : SendBuffer) : SendBuffer :=
  set_sequence_numbers (set_is_legacy legacy (sb_sequence_numbers b)) b.
Definition configure_sequence_numbers (legacy : bool) (b : SendBuffer) : SendBuffer :=
  let h := set_is_legacy legacy (sb_sequence_numbers b) in set_sequence_numbers (sn_set (min_value h) h) b.

Definition write_error (m : ErrorMessage) (b : SendBuffer) : SendBuffer := set_chunks [PayloadError m] b.
Definition write_ack (m : AcknowledgeMessage) (b : SendBuffer) : SendBuffer :=
  set_chunks (sb_chunks b ++ [PayloadAck m]) b.
Definition push_encoded_chunks (chunks : list MessageChunk) (chunk_count : Z) (b : SendBuffer) : SendBuffer :=
  let b := set_sequence_numbers (increment chunk_count (sb_sequence_numbers b)) b in
  set_chunks (sb_chunks b ++ map PayloadChunk chunks) b.

(** [ObjectId::ServiceFault_Encoding_DefaultBinary]. *)
Definition service_fault_id : NodeId := {| namespace := 0; identifier := IdNumeric 397 |}.

(** [write]. *)
Definition write {M} `{Message M} (request : Z) (m : M) (sc : SecureChannel) (b : SendBuffer)
    : outcome (SendBuffer * result Z Error) :=
  let too_large :=
    if negb (is_client_role sc) && negb (bool_decide (type_id m = service_fault_id)) then
      match peer_max_response_body_size sc with Some max => max <? msg_byte_len m | None => false end
    else false in
  if too_large then
    let handle := if 0 <? request_handle m then Some (request_handle m) else None in
    Ret (b, Err (with_context (Some request) handle (error_of BadResponseTooLarge)))
  else
    let! encoded := encode_into (sb_sequence_numbers b) request (sb_max_message_size b) (sb_send_buffer_size b) sc m [] in
    let context e := with_context (Some request) (Some (request_handle m)) (error_of e) in
    match encoded with
    | Err e => Ret (b, Err (context e))
    | Ok (chunks, chunk_count) =>
        if (0 <? sb_max_chunk_count b) && (sb_max_chunk_count b <? chunk_count) then
          Ret (b, Err (context BadCommunicationError))
        else
          let b := set_sequence_numbers (increment (wrap32 chunk_count) (sb_sequence_numbers b)) b in
          Ret (set_chunks (sb_chunks b ++ map PayloadChunk chunks) b, Ok request)
    end.

(** [MessageWithChunkType]. *)
Record MessageWithChunkType (M : Type) := { wrapped : M; forced_type : MessageChunkType }.
Arguments wrapped {M} _.
Arguments forced_type {M} _.
#[export] Instance MessageWithChunkType_message {M} `{Message M} : Message (MessageWithChunkType M) :=
  {| type_id m := type_id (wrapped m); request_handle m := request_handle (wrapped m); msg_type := forced_type;
     msg_byte_len m := msg_byte_len (wrapped m); msg_encode m := msg_encode (wrapped m);
     valid_object_id := valid_object_id (M := M);
     decode_by_object_id o id :=
       let% m := decode_by_object_id o id in PRet {| wrapped := m; forced_type := CtMessage |} |}.
Definition write_with_message_type {M} `{Message M} (request : Z) (m : M) (sc : SecureChannel)
    (t : MessageChunkType) (b : SendBuffer) : outcome (SendBuffer * result Z Error) :=
  write request {| wrapped := m; forced_type := t |} sc b.

Definition next_request_id (b : SendBuffer) : SendBuffer * Z :=
  let id := wrap32 (sb_last_request_id b + 1) in
  ({| sb_buffer := sb_buffer b; sb_position := sb_position b; sb_chunks := sb_chunks b;
      sb_last_request_id := id; sb_sequence_numbers := sb_sequence_numbers b;
      sb_max_message_size := sb_max_message_size b; sb_max_chunk_count := sb_max_chunk_count b;
      sb_send_buffer_size := sb_send_buffer_size b; sb_state := sb_state b |}, id).

(** [revise].  [shrink_to] gives back capacity only: the buffer keeps its length. *)
Definition revise (send_buffer_size max_message_size max_chunk_count : Z) (b : SendBuffer) : SendBuffer :=
  {| sb_buffer := sb_buffer b; sb_position := sb_position b; sb_chunks := sb_chunks b;
     sb_last_request_id := sb_last_request_id b; sb_sequence_numbers := sb_sequence_numbers b;
     sb_max_message_size :=
       if (max_message_size <? sb_max_message_size b) && (0 <? max_message_size) then max_message_size
       else sb_max_message_size b;
     sb_max_chunk_count :=
       if (max_chunk_count <? sb_max_chunk_count b) && (0 <? max_chunk_count) then max_chunk_count
       else sb_max_chunk_count b;
     sb_send_buffer_size := Z.min (sb_send_buffer_size b) send_buffer_size;
     sb_state := sb_state b |}.
End buffer.
