(* ===== verification/SendBufferFacts.v ===== *)
(** * The send buffer: proofs

    The buffer implements a queue: whatever the sizes of the writes the socket accepts and however
    they interleave with queueing and encoding, the bytes sent are the encodings of the queued
    payloads in their order. *)

From S2P Require Import Prelude Text StatusCode NumericRange Variant Wire Crypto Chunk SecureChannel AsymmetricSecurity.
From S2P Require Import SequenceNumber ConcreteChannel SecureChannelFacts Chunker ChunkerFacts TcpTypes SendBuffer.

Section facts.
Context {FT : Features} {CL : CryptoLib} {PK : Pki} {AL : AsymmetricLib}.

(** The bytes encoded and not yet sent. *)
Definition in_flight (b : SendBuffer) : bytes :=
  match sb_state b with
  | Writing => []
  | Reading stop => default [] (slice (sb_buffer b) (sb_position b) stop)
  end.

(** While a payload is being sent the position is within its bytes; otherwise it is zero. *)
Definition buffer_ok (b : SendBuffer) : Prop :=
  match sb_state b with
  | Writing => sb_position b = 0
  | Reading stop => 0 <= sb_position b <= stop /\ stop <= zlen (sb_buffer b)
  end.

(** What a payload becomes on the wire. *)
Definition payload_bytes (sc : SecureChannel) (rng : nat -> Z) (dst_len : Z) (p : PendingPayload)
    : outcome (result (bytes * SecureChannel) StatusCode) :=
  match p with
  | PayloadChunk c => apply_security sc rng c dst_len
  | PayloadAck m => Ret (let? bufs := ack_encode m in Ok (concat bufs, sc))
  | PayloadError m => Ret (let? bufs := error_encode m in Ok (concat bufs, sc))
  end.

Lemma slice_cursor_write data buffer : slice (cursor_write data 0 buffer) 0 (zlen data) = Some data.
Proof. unfold cursor_write. simpl. apply slice_prefix. done. Qed.
Lemma cursor_write_len data buffer : zlen data <= zlen (cursor_write data 0 buffer).
Proof.
  unfold cursor_write. simpl. rewrite zlen_app. pose proof (zlen_nonneg (drop (length data) buffer)). lia.
Qed.

(** Encoding moves the first payload to the wire side of the buffer. *)
Lemma encode_next_spec sc rng b b' sc' : buffer_ok b -> encode_next_chunk sc rng b = Ret (b', sc', Ok tt) ->
  buffer_ok b' /\ in_flight b = [] /\
  ((sb_chunks b = [] /\ b' = b /\ sc' = sc) \/
   exists p w, sb_chunks b = p :: sb_chunks b' /\ in_flight b' = w
     /\ payload_bytes sc rng (zlen (sb_buffer b)) p = Ret (Ok (w, sc'))
     /\ sb_sequence_numbers b' = sb_sequence_numbers b /\ zlen (sb_buffer b) <= zlen (sb_buffer b')).
Proof.
  unfold encode_next_chunk, in_flight, buffer_ok. intros Hok H. destruct (sb_state b) as [stop|] eqn:Hs; [done|].
  destruct (sb_chunks b) as [|p chunks] eqn:Hc.
  { injection H as <- <-. rewrite Hs. auto 6. }
  assert (forall w, sb_position b = 0 -> zlen (sb_buffer b) <= zlen (cursor_write w 0 (sb_buffer b))) as Hgrow.
  { intros w _. unfold cursor_write. simpl. unfold zlen. rewrite length_app, length_drop. lia. }
  destruct p as [c|m|m]; cbn [payload_bytes].
  - apply outcome_bind_ret in H as ([[w sc1]|e] & Hw & H); [|done]. injection H as <- <-.
    cbn [sb_state sb_position sb_buffer sb_chunks set_buffer set_chunks sb_sequence_numbers].
    rewrite slice_cursor_write. pose proof (cursor_write_len w (sb_buffer b)). pose proof (zlen_nonneg w).
    split; [lia|]. split; [done|]. right. exists (PayloadChunk c), w. split_and!; auto using Hgrow, cursor_write_len.
  - destruct (ack_encode m) as [bufs|e] eqn:Ha; [|done]. injection H as <- <-.
    cbn [sb_state sb_position sb_buffer sb_chunks set_buffer set_chunks sb_sequence_numbers]. rewrite Hok, Z.add_0_l.
    rewrite slice_cursor_write. pose proof (cursor_write_len (concat bufs) (sb_buffer b)). pose proof (zlen_nonneg (concat bufs)).
    split; [lia|]. split; [done|]. right. exists (PayloadAck m), (concat bufs). cbn [payload_bytes]. rewrite Ha. split_and!; auto.
  - destruct (error_encode m) as [bufs|e] eqn:Ha; [|done]. injection H as <- <-.
    cbn [sb_state sb_position sb_buffer sb_chunks set_buffer set_chunks sb_sequence_numbers]. rewrite Hok, Z.add_0_l.
    rewrite slice_cursor_write. pose proof (cursor_write_len (concat bufs) (sb_buffer b)). pose proof (zlen_nonneg (concat bufs)).
    split; [lia|]. split; [done|]. right. exists (PayloadError m), (concat bufs). cbn [payload_bytes]. rewrite Ha. split_and!; auto.
Qed.

(** A write to the socket sends a prefix of what is in flight, and never fails. *)
Lemma read_into_spec n b : buffer_ok b -> exists b' sent, read_into n b = (b', Ok sent)
  /\ buffer_ok b' /\ sent = take n (in_flight b) /\ in_flight b' = drop n (in_flight b)
  /\ sb_chunks b' = sb_chunks b /\ sb_sequence_numbers b' = sb_sequence_numbers b /\ sb_buffer b' = sb_buffer b
  /\ ((length (in_flight b) <= n)%nat -> sb_state b' = Writing).
Proof.
  unfold read_into, in_flight, buffer_ok. destruct (sb_state b) as [stop|] eqn:Hs.
  - intros [Hp Hl]. rewrite slice_spec by lia. set (offered := take (Z.to_nat _) _).
    assert (zlen offered = stop - sb_position b) as Ho
      by (unfold offered, zlen in *; rewrite length_take, length_drop; lia).
    assert (zlen (take n offered) <= stop - sb_position b) as Ht by (unfold zlen in *; rewrite length_take; lia).
    pose proof (zlen_nonneg (take n offered)). cbn [default id].
    destruct (Z.eqb_spec stop (sb_position b + zlen (take n offered))) as [Hend|Hmore];
      (eexists _, _; split; [done|]); cbn [set_buffer sb_state sb_position sb_buffer sb_chunks sb_sequence_numbers].
    + split; [done|]. split; [done|]. split; [|done]. symmetry. apply drop_ge. clearbody offered. unfold zlen in *. rewrite length_take in Hend. lia.
    + split; [lia|]. split; [done|].
      assert (zlen (take n offered) = Z.of_nat n /\ Z.of_nat n < zlen offered) as [Hn Hlt]
        by (clearbody offered; unfold zlen in *; rewrite length_take in *; lia).
      split; [|split; [done|]; split; [done|]; split; [done|]; clearbody offered; unfold zlen in Hlt; simpl; lia].
      rewrite Hn in *. rewrite slice_spec by lia. cbn [default id]. unfold offered.
      rewrite skipn_firstn_comm, drop_drop. f_equal; [lia|]. f_equal. lia.
  - intros Hp. cbn [sb_position set_buffer sb_buffer]. rewrite Hp.
    rewrite slice_spec by (pose proof (zlen_nonneg (sb_buffer b)); lia).
    replace (take (Z.to_nat (0 - 0)) (drop (Z.to_nat 0) (sb_buffer b))) with (@nil Z) by done.
    rewrite take_nil, drop_nil. cbn [zlen length Z.of_nat Z.add Z.eqb].
    eexists _, _. split; [done|]. done.
Qed.

(** The limits do not change. *)
Lemma encode_next_limits sc rng b b' sc' r : encode_next_chunk sc rng b = Ret (b', sc', r) ->
  sb_send_buffer_size b' = sb_send_buffer_size b /\ sb_max_message_size b' = sb_max_message_size b
  /\ sb_max_chunk_count b' = sb_max_chunk_count b.
Proof.
  unfold encode_next_chunk. intros H. destruct (sb_state b); [by injection H as <- _ _|].
  destruct (sb_chunks b) as [|[c|m|m] chunks]; [by injection H as <- _ _|..].
  - by apply outcome_bind_ret in H as ([[w sc1]|e] & _ & H); injection H as <- _ _.
  - by destruct (ack_encode m); injection H as <- _ _.
  - by destruct (error_encode m); injection H as <- _ _.
Qed.
Lemma read_into_limits n b b' r : read_into n b = (b', r) ->
  sb_send_buffer_size b' = sb_send_buffer_size b /\ sb_max_message_size b' = sb_max_message_size b
  /\ sb_max_chunk_count b' = sb_max_chunk_count b.
Proof.
  unfold read_into. intros H. destruct (sb_state b), (slice _ _ _); repeat case_match; by injection H as <- _.
Qed.

(** ** Queueing *)

Context {M : Type} `{MSG : Message M}.

(** A successful write appends the chunks of the message, and advances the counter by their number. *)
Lemma write_spec request (m : M) sc b b' : write request m sc b = Ret (b', Ok request) ->
  exists chunks n,
    encode_into (sb_sequence_numbers b) request (sb_max_message_size b) (sb_send_buffer_size b) sc m [] = Ret (Ok (chunks, n))
    /\ (sb_max_chunk_count b <= 0 \/ n <= sb_max_chunk_count b)
    /\ b' = set_chunks (sb_chunks b ++ map PayloadChunk chunks)
              (set_sequence_numbers (increment (wrap32 n) (sb_sequence_numbers b)) b).
Proof.
  unfold write. intros H. match type of H with (if ?c then _ else _) = _ => destruct c end; [done|].
  apply outcome_bind_ret in H as ([[chunks n]|e] & He & H); [|done].
  destruct (_ && _) eqn:Hlim; [done|]. injection H as <-. exists chunks, n. split; [done|]. split; [|done].
  apply andb_false_iff in Hlim as [H|H]; apply Z.ltb_ge in H; lia.
Qed.

(** ** Runs *)

(** A payload with what it became on the wire, and the channel that secured it. *)
Record sealed := { s_channel : SecureChannel; s_payload : PendingPayload; s_frame : bytes }.
Definition sealed_ok (s : sealed) : Prop :=
  exists rng dst_len sc', payload_bytes (s_channel s) rng dst_len (s_payload s) = Ret (Ok (s_frame s, sc')).

(** A buffer with its channel and the bytes the socket has taken, and the history: the messages
    written, the payloads queued and not discarded, the encodings made. *)
Record link := {
  l_buffer : SendBuffer;
  l_channel : SecureChannel;
  l_sent : bytes;
  l_messages : list (Z * M);
  l_queued : list PendingPayload;
  l_sealed : list sealed
}.
Definition link_new (b : SendBuffer) (sc : SecureChannel) : link :=
  {| l_buffer := b; l_channel := sc; l_sent := []; l_messages := []; l_queued := []; l_sealed := [] |}.

(** What a step adds to the queue and to the wire. *)
Definition added (b b' : SendBuffer) : list PendingPayload := drop (length (sb_chunks b)) (sb_chunks b').
Definition taken (sc : SecureChannel) (b b' : SendBuffer) : list sealed :=
  match sb_chunks b with
  | [] => []
  | p :: _ => [{| s_channel := sc; s_payload := p; s_frame := in_flight b' |}]
  end.

(** Messages are written, payloads encoded, bytes sent. *)
Inductive traffic_step (l : link) : link -> Prop :=
| step_write request m b' :
    write request m (l_channel l) (l_buffer l) = Ret (b', Ok request) ->
    traffic_step l {| l_buffer := b'; l_channel := l_channel l; l_sent := l_sent l;
                      l_messages := l_messages l ++ [(request, m)];
                      l_queued := l_queued l ++ added (l_buffer l) b'; l_sealed := l_sealed l |}
| step_encode rng b' sc' :
    encode_next_chunk (l_channel l) rng (l_buffer l) = Ret (b', sc', Ok tt) ->
    traffic_step l {| l_buffer := b'; l_channel := sc'; l_sent := l_sent l; l_messages := l_messages l;
                      l_queued := l_queued l; l_sealed := l_sealed l ++ taken (l_channel l) (l_buffer l) b' |}
| step_send n b' sent :
    read_into n (l_buffer l) = (b', Ok sent) ->
    traffic_step l {| l_buffer := b'; l_channel := l_channel l; l_sent := l_sent l ++ sent;
                      l_messages := l_messages l; l_queued := l_queued l; l_sealed := l_sealed l |}.

(** The connection messages and chunks encoded elsewhere too.  An error message discards the queue. *)
Inductive link_step (l : link) : link -> Prop :=
| step_traffic l' : traffic_step l l' -> link_step l l'
| step_push chunks n :
    link_step l {| l_buffer := push_encoded_chunks chunks n (l_buffer l); l_channel := l_channel l;
                   l_sent := l_sent l; l_messages := l_messages l;
                   l_queued := l_queued l ++ map PayloadChunk chunks; l_sealed := l_sealed l |}
| step_ack m :
    link_step l {| l_buffer := write_ack m (l_buffer l); l_channel := l_channel l; l_sent := l_sent l;
                   l_messages := l_messages l; l_queued := l_queued l ++ [PayloadAck m]; l_sealed := l_sealed l |}
| step_error m :
    link_step l {| l_buffer := write_error m (l_buffer l); l_channel := l_channel l; l_sent := l_sent l;
                   l_messages := l_messages l;
                   l_queued := map s_payload (l_sealed l) ++ [PayloadError m]; l_sealed := l_sealed l |}.

Definition link_ok (l : link) : Prop :=
  buffer_ok (l_buffer l)
  /\ l_sent l ++ in_flight (l_buffer l) = concat (map s_frame (l_sealed l))
  /\ l_queued l = map s_payload (l_sealed l) ++ sb_chunks (l_buffer l)
  /\ Forall sealed_ok (l_sealed l).

Lemma traffic_ok l l' : link_ok l -> traffic_step l l' -> link_ok l'.
Proof.
  intros (Hb & Hs & Hq & Hf) [request m b' Hw|rng b' sc' He|n b' sent Hr]; unfold link_ok; cbn [l_buffer l_sent l_queued l_sealed].
  - apply write_spec in Hw as (chunks & n & _ & _ & ->). unfold added. cbn [set_chunks sb_chunks].
    rewrite drop_app_length, Hq, app_assoc. done.
  - destruct (encode_next_spec _ _ _ _ _ Hb He) as (Hb' & Hi & [(Hc & -> & ->)|(p & w & Hc & Hw & Hp & _)]); unfold taken.
    + rewrite Hc, app_nil_r. by rewrite <- Hc.
    + rewrite Hi, app_nil_r in Hs. rewrite Hc, !map_app, concat_app, Hs, Hq, Hc. cbn [map s_frame s_payload concat].
      rewrite app_nil_r, <- app_assoc. split_and!; [done..|]. apply Forall_app_2; [done|]. apply Forall_singleton.
      unfold sealed_ok. cbn [s_channel s_payload s_frame]. rewrite Hw. eauto.
  - destruct (read_into_spec n _ Hb) as (b1 & sent1 & Hr1 & Hb1 & -> & Hi & Hc & _). rewrite Hr in Hr1.
    injection Hr1 as -> ->. rewrite Hi, Hc, <- app_assoc, take_drop. done.
Qed.

Lemma link_step_ok l l' : link_ok l -> link_step l l' -> link_ok l'.
Proof.
  intros Hl [l1 Ht|chunks n|m|m]; [by eapply traffic_ok|..]; destruct Hl as (Hb & Hs & Hq & Hf); unfold link_ok;
    cbn [l_buffer l_sent l_queued l_sealed]; (split; [exact Hb|]); (split; [exact Hs|]); (split; [|exact Hf]).
  - cbn [push_encoded_chunks set_chunks sb_chunks set_sequence_numbers]. by rewrite Hq, app_assoc.
  - cbn [write_ack set_chunks sb_chunks]. by rewrite Hq, app_assoc.
  - done.
Qed.

Lemma link_new_ok size max_message max_chunks legacy sc : link_ok (link_new (sb_new size max_message max_chunks legacy) sc).
Proof. split_and!; [done..|constructor]. Qed.

(** C9: the send buffer is a queue.  Whatever the order of the calls and however few bytes the socket
    takes at a time, the bytes sent and those being sent are the encodings of the queued payloads, in
    their order, each once; what is queued and not encoded is the rest; and a write to the socket
    never fails for the buffer's own reasons. *)
Theorem send_buffer_fifo size max_message max_chunks legacy sc l :
  rtc link_step (link_new (sb_new size max_message max_chunks legacy) sc) l ->
  l_sent l ++ in_flight (l_buffer l) = concat (map s_frame (l_sealed l))
  /\ l_queued l = map s_payload (l_sealed l) ++ sb_chunks (l_buffer l)
  /\ Forall sealed_ok (l_sealed l)
  /\ forall n, exists b', read_into n (l_buffer l) = (b', Ok (take n (in_flight (l_buffer l)))).
Proof.
  intros Hrun. assert (link_ok l) as (Hb & Hs & Hq & Hf).
  { remember (link_new _ _) as l0 eqn:H0. assert (link_ok l0) as Hok by (rewrite H0; apply link_new_ok).
    clear H0. induction Hrun; [done|]. eauto using link_step_ok. }
  split_and!; [done..|]. intros n. destruct (read_into_spec n _ Hb) as (b' & sent & -> & _ & -> & _). by exists b'.
Qed.
End facts.

(** ** A run *)

Definition sample_ack : AcknowledgeMessage := ack_new 0 65535 65535 0 0.
Definition fresh : SendBuffer := sb_new 8192 0 0 true.
(** An acknowledgement and a message are queued, the first is encoded, the socket takes five bytes. *)
Definition sample_note_small : Note := {| note_handle := 5; note_payload := [1; 2; 3] |}.
Definition run_buffer : SendBuffer :=
  match write 1 sample_note_small client_channel (write_ack sample_ack fresh) with Ret (b, _) => b | _ => fresh end.
Definition run_encoded : SendBuffer :=
  match encode_next_chunk client_channel (fun _ => 0) run_buffer with Ret (b, _, _) => b | _ => fresh end.
Definition run_end : link :=
  {| l_buffer := fst (read_into 5 run_encoded); l_channel := client_channel; l_sent := [65; 67; 75; 70; 28];
     l_messages := [(1, sample_note_small)]; l_queued := PayloadAck sample_ack :: added (write_ack sample_ack fresh) run_buffer;
     l_sealed := [{| s_channel := client_channel; s_payload := PayloadAck sample_ack; s_frame := in_flight run_encoded |}] |}.

Lemma send_buffer_fifo_witness :
  l_sent run_end ++ in_flight (l_buffer run_end) = concat (map s_frame (l_sealed run_end))
  /\ l_queued run_end = map s_payload (l_sealed run_end) ++ sb_chunks (l_buffer run_end)
  /\ Forall sealed_ok (l_sealed run_end)
  /\ forall n, exists b', read_into n (l_buffer run_end) = (b', Ok (take n (in_flight (l_buffer run_end)))).
Proof.
  apply (send_buffer_fifo 8192 0 0 true client_channel run_end).
  eapply rtc_l; [apply (step_ack _ sample_ack)|].
  eapply rtc_l; [apply step_traffic, (step_write _ 1 sample_note_small run_buffer); vm_compute; reflexivity|].
  eapply rtc_l; [apply step_traffic, (step_encode _ (fun _ => 0) run_encoded client_channel); vm_compute; reflexivity|].
  eapply rtc_l; [apply step_traffic, (step_send _ 5 (fst (read_into 5 run_encoded)) [65; 67; 75; 70; 28]); vm_compute; reflexivity|].
  apply rtc_refl.
Defined.
