(* ===== verification/ServerTransport.v ===== *)
(** * The server's transport

    async-opcua-server/src/transport/tcp.rs: the Hello/Acknowledge handshake, and [Transport], which
    turns received frames into requests, queues responses, and is driven by [poll].

    The endpoints of the server and the match of their URLs are parameters of the handshake, and so
    is the request handle that a generated decoder attaches to its error.  What the socket does
    during a call of [poll] is an argument.  Metrics and tracing are left out; [client_protocol_version]
    is never written after construction. *)

From S2P Require Import Prelude Text StatusCode NumericRange Variant Wire Crypto Chunk SecureChannel AsymmetricSecurity.
From S2P Require Import SequenceNumber Chunker TcpTypes TcpCodec SendBuffer.

Definition BadProtocolVersionUnsupported : StatusCode := 0x80BE0000.
Definition BadTcpEndpointUrlInvalid : StatusCode := 0x80830000.
Definition BadConnectionClosed : StatusCode := 0x80AE0000.

(** ** The handshake *)

(** The limits of [TransportConfig]. *)
Record TransportConfig := {
  tc_send_buffer_size : Z;
  tc_receive_buffer_size : Z;
  tc_max_message_size : Z;
  tc_max_chunk_count : Z
}.

Definition min_zero_infinite (server client : Z) : Z :=
  if client =? 0 then server else if server =? 0 then client else Z.min client server.

Definition effective_max_chunk_count (max_chunk_count max_message_size : Z) : Z :=
  if 0 <? max_chunk_count then max_chunk_count
  else if 0 <? max_message_size then Z.max (max_message_size / MIN_CHUNK_SIZE) 1
  else 1.

Section transport.
Context {FT : Features} {CL : CryptoLib} {PK : Pki} {AL : AsymmetricLib}.

Section handshake.
Context (endpoints : UAString -> option (list UAString)) (url_matches : rstr -> rstr -> bool).
Context (config : TransportConfig) (options : DecodingOptions).

Definition server_protocol_version : Z := 0.
Definition acknowledge_for (buffer : SendBuffer) (hello : HelloMessage) : AcknowledgeMessage :=
  ack_new server_protocol_version
    (Z.min (wrap32 (tc_receive_buffer_size config)) (hello_send_buffer_size hello))
    (Z.min (wrap32 (sb_send_buffer_size buffer)) (hello_receive_buffer_size hello))
    (min_zero_infinite (wrap32 (max_message_size options)) (hello_max_message_size hello))
    (min_zero_infinite (wrap32 (max_chunk_count options)) (hello_max_chunk_count hello)).

(** [connect_inner], given the first frame: the send buffer and the bytes of the acknowledgement, or
    the status of the error message. *)
Definition connect_inner (incoming : option (result TcpMessage StatusCode)) : result (SendBuffer * bytes) StatusCode :=
  let? hello :=
    match incoming with
    | Some (Ok (THello hello)) => Ok hello
    | Some (Ok _) => Err BadCommunicationError
    | Some (Err _) => Err BadCommunicationError
    | None => Err BadCommunicationError
    end in
  let buffer := sb_new (tc_send_buffer_size config) (tc_max_message_size config) (tc_max_chunk_count config) true in
  if negb (match endpoints (hello_endpoint_url hello) with
           | Some e => is_endpoint_url_valid url_matches e hello
           | None => false
           end)
  then Err BadTcpEndpointUrlInvalid
  else if negb (hello_is_valid_buffer_sizes hello) then Err BadCommunicationError
  else if server_protocol_version <? hello_protocol_version hello then Err BadProtocolVersionUnsupported
  else
    let acknowledge := acknowledge_for buffer hello in
    let buffer := revise (ack_send_buffer_size acknowledge) (ack_max_message_size acknowledge)
                         (ack_max_chunk_count acknowledge) buffer in
    let? buf := ack_encode acknowledge in
    Ok (buffer, concat buf).
End handshake.

(** ** The transport *)

Inductive TransportState := Running | Closing.

(** Requests of type [Req] are received and responses of type [Rsp] sent.  [service_fault]: the
    response with the given request handle and result. *)
Context {Req Rsp : Type} {REQ : Message Req} {RSP : Message Rsp} (service_fault : Z -> StatusCode -> Rsp).
Context (error_handle : list MessageChunk -> SecureChannel -> option Z).

Record Transport := {
  tr_send_buffer : SendBuffer;
  tr_state : TransportState;
  tr_pending_chunks : list MessageChunk;
  tr_outgoing_sequence_numbers_configured : bool;
  tr_sequence_numbers : SequenceNumberHandle;
  tr_pending_responses : list (Rsp * Z)
}.
Record Request := { rq_message : Req; rq_chunk_info : ChunkInfo; rq_id : Z }.
Inductive TransportPollResult :=
| OutgoingMessageSent
| IncomingChunk
| IncomingMessages (l : list Request)
| PollError (e : StatusCode)
| RecoverableError (e : StatusCode) (request_id request_handle : Z)
| Closed.

Definition transport_new (send_buffer : SendBuffer) : Transport :=
  {| tr_send_buffer := send_buffer; tr_state := Running; tr_pending_chunks := [];
     tr_outgoing_sequence_numbers_configured := false; tr_sequence_numbers := sn_new true;
     tr_pending_responses := [] |}.

Definition set_send_buffer (b : SendBuffer) (t : Transport) : Transport :=
  {| tr_send_buffer := b; tr_state := tr_state t; tr_pending_chunks := tr_pending_chunks t;
     tr_outgoing_sequence_numbers_configured := tr_outgoing_sequence_numbers_configured t;
     tr_sequence_numbers := tr_sequence_numbers t; tr_pending_responses := tr_pending_responses t |}.
Definition set_received (chunks : list MessageChunk) (numbers : SequenceNumberHandle) (t : Transport) : Transport :=
  {| tr_send_buffer := tr_send_buffer t; tr_state := tr_state t; tr_pending_chunks := chunks;
     tr_outgoing_sequence_numbers_configured := tr_outgoing_sequence_numbers_configured t;
     tr_sequence_numbers := numbers; tr_pending_responses := tr_pending_responses t |}.
Definition clear_pending_chunks (t : Transport) : Transport := set_received [] (tr_sequence_numbers t) t.
Definition set_pending_responses (l : list (Rsp * Z)) (t : Transport) : Transport :=
  {| tr_send_buffer := tr_send_buffer t; tr_state := tr_state t; tr_pending_chunks := tr_pending_chunks t;
     tr_outgoing_sequence_numbers_configured := tr_outgoing_sequence_numbers_configured t;
     tr_sequence_numbers := tr_sequence_numbers t; tr_pending_responses := l |}.
Definition set_closing (t : Transport) : Transport :=
  {| tr_send_buffer := tr_send_buffer t; tr_state := Closing; tr_pending_chunks := tr_pending_chunks t;
     tr_outgoing_sequence_numbers_configured := tr_outgoing_sequence_numbers_configured t;
     tr_sequence_numbers := tr_sequence_numbers t; tr_pending_responses := tr_pending_responses t |}.
Definition is_closing (t : Transport) : bool := match tr_state t with Closing => true | Running => false end.
Definition enqueue_error (m : ErrorMessage) (t : Transport) : Transport :=
  set_send_buffer (write_error m (tr_send_buffer t)) t.
Definition enqueue_response (m : Rsp) (request : Z) (t : Transport) : Transport :=
  set_pending_responses (tr_pending_responses t ++ [(m, request)]) t.

(** ** Sending *)

Definition configure_outgoing (legacy : bool) (t : Transport) : Transport :=
  {| tr_send_buffer := configure_sequence_numbers legacy (tr_send_buffer t);
     tr_state := tr_state t; tr_pending_chunks := tr_pending_chunks t;
     tr_outgoing_sequence_numbers_configured := true; tr_sequence_numbers := tr_sequence_numbers t;
     tr_pending_responses := tr_pending_responses t |}.

(** [enqueue_message_for_send_with_message_type_inner]: a response that cannot be encoded is replaced
    by a fault. *)
Definition enqueue_message_for_send (sc : SecureChannel) (message : Rsp) (request : Z)
    (message_type : option MessageChunkType) (t : Transport) : outcome (Transport * result unit StatusCode) :=
  let wire_message_type := match message_type with Some mt => mt | None => msg_type message end in
  let! t :=
    (if negb (tr_outgoing_sequence_numbers_configured t) && is_open_secure_channel wire_message_type then
       let! legacy := legacy_sequence_numbers (security_policy sc) in Ret (configure_outgoing legacy t)
     else Ret t) in
  let write_it id m b :=
    match message_type with
    | Some mt => write_with_message_type id m sc mt b
    | None => write id m sc b
    end in
  let! (b, r) := write_it request message (tr_send_buffer t) in
  let t := set_send_buffer b t in
  match r with
  | Ok _ => Ret (t, Ok tt)
  | Err e =>
      match full_context e with
      | Some (request, handle) =>
          let! (b, r) := write_it request (service_fault handle (err_status e)) (tr_send_buffer t) in
          Ret (set_send_buffer b t, match r with Ok _ => Ok tt | Err e => Err (err_status e) end)
      | None => Ret (t, Err (err_status e))
      end
  end.

(** The responses queued by the event loop, until one of them fails. *)
Fixpoint enqueue_all (sc : SecureChannel) (responses : list (Rsp * Z)) (t : Transport)
    : outcome (Transport * result unit StatusCode) :=
  match responses with
  | [] => Ret (t, Ok tt)
  | (message, request) :: responses' =>
      let! (t, r) := enqueue_message_for_send sc message request None t in
      match r with Ok _ => enqueue_all sc responses' t | Err e => Ret (t, Err e) end
  end.

(** ** Receiving *)

(** [process_message]: the transport and channel after the call, and its result. *)
Definition process_message (message : TcpMessage) (sc : SecureChannel) (t : Transport)
    : outcome (Transport * SecureChannel * result (option Request) Error) :=
  match message with
  | TChunk data =>
      match run chunk_header_decode data with
      | Err e => Ret (t, sc, Err (error_of e))
      | Ok (header, _) =>
          let! verified := verify_and_remove_security_server sc data in
          match verified with
          | Err e => Ret (t, sc, Err (error_of e))
          | Ok (chunk, sc) =>
              if bool_decide (is_final header = FinalError) then Ret (clear_pending_chunks t, sc, Ok None)
              else
                let max_chunks := effective_max_chunk_count (sb_max_chunk_count (tr_send_buffer t))
                                    (sb_max_message_size (tr_send_buffer t)) in
                if max_chunks <=? zlen (tr_pending_chunks t) then Ret (t, sc, Err (error_of BadDecodingError))
                else
                  let! info := chunk_info sc chunk in
                  match info with
                  | Err e => Ret (t, sc, Err (error_of e))
                  | Ok info =>
                      match validate_and_increment (sequence_number (sequence_header info)) (tr_sequence_numbers t) with
                      | Err e => Ret (t, sc, Err (error_of e))
                      | Ok numbers =>
                          let pending := tr_pending_chunks t ++ [chunk] in
                          let t := set_received pending numbers t in
                          if bool_decide (is_final header = Intermediate) then Ret (t, sc, Ok None)
                          else
                            let! first_info := chunk_info sc (default [] (head pending)) in
                            match first_info with
                            | Err e => Ret (t, sc, Err (error_of e))
                            | Ok info =>
                                let! valid := validate_chunks sc pending in
                                match valid with
                                | Err e => Ret (t, sc, Err (error_of e))
                                | Ok _ =>
                                    let id := Chunk.request_id (sequence_header info) in
                                    let! decoded := chunker_decode pending sc None in
                                    match decoded with
                                    | Err e =>
                                        Ret (t, sc, Err (with_request_id id
                                               {| err_status := e; err_request_id := None;
                                                  err_request_handle := error_handle pending sc |}))
                                    | Ok message =>
                                        Ret (t, sc, Ok (Some {| rq_message := message; rq_chunk_info := info; rq_id := id |}))
                                    end
                                end
                            end
                      end
                  end
          end
      end
  | _ => Ret (t, sc, Err (error_of BadUnexpectedError))
  end.

(** A frame, a failure of the reader, or the end of the stream. *)
Abbreviation Incoming := (option (result TcpMessage StatusCode)).

Definition handle_incoming_message (incoming : Incoming) (sc : SecureChannel) (t : Transport)
    : outcome (Transport * SecureChannel * TransportPollResult) :=
  match incoming with
  | None => Ret (t, sc, Closed)
  | Some (Err _) => Ret (t, sc, PollError BadConnectionClosed)
  | Some (Ok message) =>
      let! (t, sc, r) := process_message message sc t in
      match r with
      | Ok None => Ret (t, sc, IncomingChunk)
      | Ok (Some request) => Ret (clear_pending_chunks t, sc, IncomingMessages [request])
      | Err e =>
          Ret (clear_pending_chunks t, sc,
               match full_context e with
               | Some (id, handle) => RecoverableError (err_status e) id handle
               | None => PollError (err_status e)
               end)
      end
  end.

(** ** Polling *)

(** The frames that are ready after a complete message; the requests received so far are [messages]. *)
Fixpoint drain (ready : list Incoming) (messages : list Request) (sc : SecureChannel) (t : Transport)
    : outcome (Transport * SecureChannel * TransportPollResult) :=
  match ready with
  | [] | None :: _ => Ret (t, sc, IncomingMessages messages)
  | Some incoming :: ready' =>
      let! (t, sc, r) := handle_incoming_message (Some incoming) sc t in
      match r with
      | IncomingMessages more => drain ready' (messages ++ more) sc t
      | IncomingChunk | OutgoingMessageSent => drain ready' messages sc t
      | PollError e => Ret (t, sc, PollError e)
      | RecoverableError e id handle => Ret (t, sc, RecoverableError e id handle)
      | Closed => Ret (t, sc, Closed)
      end
  end.

(** What the socket makes of the bytes offered, when it is the first to be ready: it takes some, or
    fails. *)
Inductive WriteEvent := Accepts (n : nat) | WriteFails.

(** [poll_inner].  [writing] counts only when there are bytes to write. *)
Definition poll (rng : nat -> Z) (writing : option WriteEvent) (incoming : Incoming) (ready : list Incoming)
    (sc : SecureChannel) (t : Transport) : outcome (Transport * SecureChannel * TransportPollResult) :=
  let! (t, r) := enqueue_all sc (tr_pending_responses t) (set_pending_responses [] t) in
  match r with
  | Err e => Ret (t, sc, PollError e)
  | Ok _ =>
      let! (b, sc, r) :=
        (if should_encode_chunks (tr_send_buffer t) then encode_next_chunk sc rng (tr_send_buffer t)
         else Ret (tr_send_buffer t, sc, Ok tt)) in
      let t := set_send_buffer b t in
      match r with
      | Err e => Ret (t, sc, PollError e)
      | Ok _ =>
          let! (t, sc, first_result) :=
            (if can_read (tr_send_buffer t) then
               match writing with
               | Some (Accepts n) =>
                   let '(b, r) := read_into n (tr_send_buffer t) in
                   Ret (set_send_buffer b t, sc, match r with Ok _ => OutgoingMessageSent | Err _ => Closed end)
               | Some WriteFails => Ret (t, sc, Closed)
               | None => handle_incoming_message incoming sc t
               end
             else if is_closing t then Ret (t, sc, Closed)
             else handle_incoming_message incoming sc t) in
          match first_result with
          | IncomingMessages messages => drain ready messages sc t
          | _ => Ret (t, sc, first_result)
          end
      end
  end.
End transport.
