(* ===== verification/ServerTransportFacts.v ===== *)
(** * The server's transport: proofs

    Messages written to a send buffer on one side of an established channel come out of the
    transport on the other side, whatever the timing of the two ends and the network; what the
    handshake agrees on; where requests are lost. *)

From S2P Require Import Prelude Text StatusCode NumericRange Variant Wire Crypto Chunk SecureChannel AsymmetricSecurity.
From S2P Require Import SequenceNumber ConcreteChannel SecureChannelFacts Chunker ChunkerFacts TcpTypes TcpCodec SendBuffer.
From S2P Require Import SendBufferFacts ServerTransport.

(** Incrementing one by one is incrementing at once, up to a round of the counter. *)
Lemma iter_increment n : forall h, sn_valid h -> Z.of_nat n <= max_value h - min_value h + 1 ->
  Nat.iter n (increment 1) h = increment (Z.of_nat n) h.
Proof.
  induction n as [|n IH]; intros h Hv Hn; [by rewrite increment_0|].
  rewrite Nat.iter_succ_r. destruct (increment_valid h Hv) as [Hv1 Hb]. destruct (bounds_of_mode _ _ Hb) as [Hmn Hmx].
  rewrite IH by (done || rewrite Hmn, Hmx; lia). rewrite increment_add by (done || lia). f_equal. lia.
Qed.

Lemma increment_differs h : sn_valid h -> current (increment 1 h) <> current h.
Proof.
  destruct h as [b c]. intros Hv. unfold sn_valid in Hv.
  assert (0 <= c <= max_value (sn_new b)) as Hr by (destruct b; sn_unfold; int_lia).
  rewrite (increment_one b c Hr). unfold current, next_number. cbn [sn_current_value].
  destruct (Z.eqb_spec c (max_value (sn_new b))) as [->|]; [|lia]. destruct b; sn_unfold; int_lia.
Qed.

Lemma effective_pos count size : 0 < effective_max_chunk_count count size.
Proof. unfold effective_max_chunk_count. destruct (Z.ltb_spec 0 count), (Z.ltb_spec 0 size); lia. Qed.

Section facts.
Context {FT : Features} {CL : CryptoLib} {PK : Pki} {AL : AsymmetricLib} {LAWS : SymmetricLaws CL}.
Context {M Rsp : Type} `{MLAWS : MessageLaws M} (error_handle : list MessageChunk -> SecureChannel -> option Z).

(** The two ends of an established channel: [sc] sends with the keys [ks], [rc] receives. *)
Record connected (sc rc : SecureChannel) (ks : AesDerivedKeys) : Prop := {
  con_established : established sc;
  con_valid : security_policy_valid rc = true;
  con_keys : local_keys sc = Some ks;
  con_keys_ok : keys_ok sc ks;
  con_matching : matching sc rc (token_id sc) ks;
  con_token : is_u32 (token_id sc);
  con_id : is_u32 (secure_channel_id sc);
  con_same : secure_channel_id rc = 0 \/ secure_channel_id rc = secure_channel_id sc
}.

Section channel.
Context (sc rc : SecureChannel) (ks : AesDerivedKeys) (CON : connected sc rc ks).
Context (size : Z) (Hsize : size <= u32_max).

Lemma connected_established : established rc.
Proof.
  destruct CON as [(Hp & Hs & _ & Hm) Hv _ _ (Hpol & Hmd & _) _ _ _]. unfold established. by rewrite Hpol, Hmd.
Qed.

(** A chunk of the channel that is at most [size] bytes long when secured, and its secured form. *)
Definition channel_chunk (h : MessageChunkHeader) (q : SequenceHeader) (body : bytes) : Prop :=
  chunk_ok h (token_id sc) q /\ message_size h = 24 + zlen body /\ secured_len sc (zlen body) <= size.
Definition sealed_as (c w : bytes) : Prop :=
  exists h q body, channel_chunk h q body /\ c = symmetric_chunk h (token_id sc) q body
    /\ w = secured_chunk sc ks h (token_id sc) q body.

Lemma secured_header h q body : channel_chunk h q body ->
  exists rest, run chunk_header_decode (secured_chunk sc ks h (token_id sc) q body)
               = Ok (with_size (secured_len sc (zlen body)) h, rest).
Proof.
  intros ((_ & [_ Hid] & _) & Hsz & Hu). unfold secured_chunk, clear_part. rewrite <- !app_assoc.
  eexists. apply run_header. split; [|done]. cbn [with_size message_size].
  pose proof (secured_len_min sc (zlen body) (zlen_nonneg body)). pose proof (signature_len_range sc).
  unfold is_u32; lia.
Qed.

(** A chunk determines its secured form. *)
Lemma sealed_unique h q body h' q' body' : channel_chunk h q body -> channel_chunk h' q' body' ->
  symmetric_chunk h (token_id sc) q body = symmetric_chunk h' (token_id sc) q' body' ->
  secured_chunk sc ks h' (token_id sc) q' body' = secured_chunk sc ks h (token_id sc) q body.
Proof.
  intros ((Ho & Hh & Htok & Hq) & _ & Hu) ((Ho' & Hh' & _ & Hq') & _ & Hu') Heq.
  assert (zlen body = zlen body') as Hlen.
  { apply (f_equal zlen) in Heq. rewrite !zlen_symmetric_chunk in Heq. lia. }
  pose proof (fun dst Hd => apply_security_symmetric sc ks (fun _ => 0) h (token_id sc) q body dst
                (con_established _ _ _ CON) (con_keys _ _ _ CON) (con_keys_ok _ _ _ CON)
                (conj Ho (conj Hh (conj Htok Hq))) Hd) as H1.
  pose proof (fun dst Hd => apply_security_symmetric sc ks (fun _ => 0) h' (token_id sc) q' body' dst
                (con_established _ _ _ CON) (con_keys _ _ _ CON) (con_keys_ok _ _ _ CON)
                (conj Ho' (conj Hh' (conj Htok Hq'))) Hd) as H2.
  specialize (H1 (secured_len sc (zlen body) + 16) ltac:(lia)).
  specialize (H2 (secured_len sc (zlen body) + 16) ltac:(rewrite Hlen; lia)).
  rewrite Heq, H2 in H1. by injection H1.
Qed.

(** The server's variant of the check does the same for symmetric chunks. *)
Lemma verify_server_sealed h q body : channel_chunk h q body ->
  verify_and_remove_security_server rc (secured_chunk sc ks h (token_id sc) q body)
  = Ret (Ok (symmetric_chunk h (token_id sc) q body, rc)).
Proof.
  intros Hc. destruct (secured_header h q body Hc) as (rest & Hh). destruct Hc as (Hc & Hsz & Hu).
  pose proof (verify_and_remove_security_symmetric sc rc ks h (token_id sc) q body connected_established
                (con_matching _ _ _ CON) (con_keys_ok _ _ _ CON) Hc Hsz ltac:(lia)) as Hv.
  revert Hv. unfold verify_and_remove_security, verify_and_remove_security_server, decode_message_header. rewrite Hh.
  cbn [comp_bind]. destruct (decode_with_known_policy _ _ _ _) as [[[sec r]|]| |]; cbn [comp_bind]; try done.
  destruct (negb _); cbn [comp_bind with_size message_type]; [done|].
  destruct Hc as (-> & _). done.
Qed.

Lemma set_received_numbers (chunks : list MessageChunk) n (t : Transport (Rsp := Rsp)) :
  tr_sequence_numbers (set_received chunks n t) = n.
Proof. done. Qed.

(** A chunk with the expected number is accepted; the last one of a message that is valid and
    decodes completes a request. *)
Lemma process_chunk h q body (t : Transport (Rsp := Rsp)) : channel_chunk h q body ->
  zlen (tr_pending_chunks t) < effective_max_chunk_count (sb_max_chunk_count (tr_send_buffer t))
                                 (sb_max_message_size (tr_send_buffer t)) ->
  sequence_number q = current (tr_sequence_numbers t) ->
  let c := symmetric_chunk h (token_id sc) q body in
  let w := secured_chunk sc ks h (token_id sc) q body in
  let pending := tr_pending_chunks t ++ [c] in
  let t1 := set_received pending (increment 1 (tr_sequence_numbers t)) t in
  (is_final h = Intermediate -> process_message (Req := M) error_handle (TChunk w) rc t = Ret (t1, rc, Ok None))
  /\ forall info m, is_final h = Final -> chunk_info rc (default [] (head pending)) = Ret (Ok info) ->
      validate_chunks rc pending = Ret (Ok tt) -> chunker_decode pending rc None = Ret (Ok m) ->
      process_message error_handle (TChunk w) rc t
      = Ret (t1, rc, Ok (Some {| rq_message := m; rq_chunk_info := info; rq_id := Chunk.request_id (sequence_header info) |})).
Proof.
  intros Hc Hmax Hseq c w pending t1. destruct (secured_header h q body Hc) as (rest & Hh). fold w in Hh.
  pose proof (verify_server_sealed h q body Hc) as Hv. fold w c in Hv.
  assert (is_final h <> FinalError ->
    process_message (Req := M) error_handle (TChunk w) rc t
    = if bool_decide (is_final h = Intermediate) then Ret (t1, rc, Ok None)
      else process_message (Req := M) error_handle (TChunk w) rc t) as Hstart.
  { intros Hf. case_bool_decide as Hi; [|done]. unfold process_message. rewrite Hh. cbn [with_size is_final]. rewrite Hv.
    cbn [outcome_bind]. rewrite bool_decide_eq_false_2 by done.
    destruct (Z.leb_spec (effective_max_chunk_count (sb_max_chunk_count (tr_send_buffer t))
                            (sb_max_message_size (tr_send_buffer t))) (zlen (tr_pending_chunks t))); [lia|].
    destruct Hc as (Hc & _ & _). unfold c at 1. rewrite chunk_info_symmetric by done. cbn [outcome_bind sequence_header].
    rewrite Hseq, validate_current. by rewrite bool_decide_eq_true_2. }
  split.
  - intros Hi. rewrite Hstart, bool_decide_eq_true_2; [done|done|by rewrite Hi].
  - intros info m Hf Hinfo Hval Hdec. clear Hstart. unfold process_message. rewrite Hh. cbn [with_size is_final].
    rewrite Hf, Hv. cbn [outcome_bind]. rewrite bool_decide_eq_false_2 by done.
    destruct (Z.leb_spec (effective_max_chunk_count (sb_max_chunk_count (tr_send_buffer t))
                            (sb_max_message_size (tr_send_buffer t))) (zlen (tr_pending_chunks t))); [lia|].
    destruct Hc as (Hc & _ & _). unfold c at 1. rewrite chunk_info_symmetric by done. cbn [outcome_bind sequence_header].
    rewrite Hseq, validate_current. rewrite bool_decide_eq_false_2 by done. fold pending. rewrite Hinfo.
    cbn [outcome_bind]. rewrite Hval. cbn [outcome_bind]. rewrite Hdec. cbn [outcome_bind]. done.
Qed.
(** ** A message's chunks *)

Lemma framed_cons seq request mt b bodies cs : is_open_secure_channel mt = false -> is_u32 request -> sn_valid seq ->
  secured_len sc (zlen b) <= size ->
  framed seq request mt sc (b :: bodies) = Ret cs ->
  exists h cs', let q := {| sequence_number := current seq; Chunk.request_id := request |} in
    cs = symmetric_chunk h (token_id sc) q b :: cs'
    /\ framed (increment 1 seq) request mt sc bodies = Ret cs'
    /\ is_final h = match bodies with [] => Final | _ => Intermediate end /\ channel_chunk h q b.
Proof.
  intros Ht Hr Hv Hl Hf. cbn [framed] in Hf. rewrite chunk_new_symmetric in Hf by done. cbn [outcome_bind] in Hf.
  apply outcome_bind_ret in Hf as (cs' & Hcs & Hf). injection Hf as <-. eexists _, cs'. cbn zeta. split; [done|].
  split; [done|]. split; [done|]. split; [|done]. pose proof (zlen_nonneg b).
  pose proof (padding_for_range sc (zlen b)). pose proof (signature_len_range sc). destruct CON.
  split; [done|]. split; [split; [unfold is_u32, secured_len in *; cbn [message_size]; lia|done]|]. split; [done|].
  split; [by apply current_u32|done].
Qed.

Definition incoming_chunks (ws : list bytes) : list (option (result TcpMessage StatusCode)) :=
  map (fun w => Some (Ok (TChunk w))) ws.

(** The last chunks of a message are received after its first ones, [pre]. *)
Lemma drain_group request mt (m : M) bodies : is_open_secure_channel mt = false -> is_u32 request ->
  forall seq pre cs ws more got (t : Transport (Rsp := Rsp)), bodies <> [] -> sn_valid seq ->
  Forall (fun b : bytes => secured_len sc (zlen b) <= size) bodies ->
  framed seq request mt sc bodies = Ret cs -> Forall2 sealed_as cs ws ->
  tr_pending_chunks t = pre -> tr_sequence_numbers t = seq ->
  zlen pre + zlen cs <= effective_max_chunk_count (sb_max_chunk_count (tr_send_buffer t))
                          (sb_max_message_size (tr_send_buffer t)) ->
  (exists info, chunk_info rc (default [] (head (pre ++ cs))) = Ret (Ok info)
                /\ Chunk.request_id (sequence_header info) = request) ->
  validate_chunks rc (pre ++ cs) = Ret (Ok tt) -> chunker_decode (pre ++ cs) rc None = Ret (Ok m) ->
  exists r, rq_id r = request /\ rq_message r = m
    /\ drain error_handle (incoming_chunks ws ++ more) got rc t
       = drain error_handle more (got ++ [r]) rc
           (set_received [] (Nat.iter (length bodies) (increment 1) seq) t).
Proof.
  intros Ht Hr. induction bodies as [|b bodies IH]; [done|].
  intros seq pre cs ws more got t _ Hv Hb Hf Hs Hpre Hseq Hmax Hinfo Hval Hdec.
  apply Forall_cons in Hb as [Hb1 Hb].
  destruct (framed_cons seq request mt b bodies cs Ht Hr Hv Hb1 Hf) as (h & cs' & -> & Hf' & Hfin & Hc).
  apply Forall2_cons_inv_l in Hs as (w & ws' & Hw & Hs & ->).
  assert (w = secured_chunk sc ks h (token_id sc) {| sequence_number := current seq; Chunk.request_id := request |} b) as ->.
  { destruct Hw as (h' & q' & b' & Hc' & Heq & ->). by apply sealed_unique. }
  rewrite zlen_cons in Hmax. pose proof (zlen_nonneg cs').
  destruct (process_chunk h _ b t Hc) as [Hint Hlast]; [rewrite Hpre; lia|by rewrite Hseq|].
  rewrite Hpre, Hseq in Hint, Hlast. cbn [incoming_chunks map app drain handle_incoming_message].
  destruct bodies as [|b2 bodies].
  - injection Hf' as <-. apply Forall2_nil_inv_l in Hs as ->. destruct Hinfo as (info & Hi & Hid).
    rewrite (Hlast info m Hfin Hi Hval Hdec). cbn [outcome_bind]. eexists. split; [|split; [|done]]; done.
  - rewrite (Hint Hfin). cbn [outcome_bind].
    change (length (b :: b2 :: bodies)) with (S (length (b2 :: bodies))). rewrite Nat.iter_succ_r.
    set (c := symmetric_chunk h (token_id sc) _ b) in *.
    destruct (IH (increment 1 seq) (pre ++ [c]) cs' ws' more got (set_received (pre ++ [c]) (increment 1 seq) t))
      as (r & Hid & Hm & Hd); try done; try (by rewrite <- app_assoc).
    + by apply increment_valid.
    + rewrite zlen_app, zlen_cons. change (zlen (@nil bytes)) with 0. cbn [set_received tr_send_buffer]. lia.
    + exists r. split; [done|]. split; [done|]. exact Hd.
Qed.
(** ** From messages to chunks *)

(** Messages the receiver can decode, with their request ids. *)
Definition transmissible (x : Z * M) : Prop :=
  is_u32 (fst x) /\ msg_ok (decoding_options rc) (snd x) /\ is_open_secure_channel (msg_type (snd x)) = false.

Context (max_message max_chunks : Z) (Hmin : MIN_CHUNK_SIZE <= size) (Hchunks : max_chunks <= u32_max - 1024).

(** The chunks of the messages written, and the counter after them. *)
Inductive produced (h0 : SequenceNumberHandle) : list (Z * M) -> list MessageChunk -> SequenceNumberHandle -> Prop :=
| produced_nil : produced h0 [] [] h0
| produced_snoc ms cs h request m cs' n : produced h0 ms cs h ->
    encode_into h request max_message size sc m [] = Ret (Ok (cs', n)) -> n <= max_chunks ->
    produced h0 (ms ++ [(request, m)]) (cs ++ cs') (increment (wrap32 n) h).

(** What one message becomes: framed bodies that fit, and that the receiver accepts. *)
Lemma encode_received h request (m : M) cs n : sn_valid h -> transmissible (request, m) ->
  encode_into h request max_message size sc m [] = Ret (Ok (cs, n)) ->
  exists bodies, bodies <> [] /\ Forall (fun b : bytes => secured_len sc (zlen b) <= size) bodies
    /\ framed h request (msg_type m) sc bodies = Ret cs /\ n = zlen bodies /\ zlen cs = zlen bodies
    /\ (exists info, chunk_info rc (default [] (head cs)) = Ret (Ok info)
                     /\ Chunk.request_id (sequence_header info) = request)
    /\ validate_chunks rc cs = Ret (Ok tt) /\ chunker_decode cs rc None = Ret (Ok m).
Proof.
  intros Hv (Hr & Hm & Ho) He. cbn [fst snd] in *.
  pose proof (con_established _ _ _ CON) as Hest. pose proof Hest as (Hp & _).
  assert (security_policy sc <> PolicyUnknown) as Hpol by (intros E; by rewrite E in Hp).
  assert (max_message <= 0 \/ msg_byte_len m <= max_message) as Hmax.
  { unfold encode_into in He. rewrite bool_decide_eq_false_2 in He by done.
    destruct (Z.ltb_spec 0 max_message); [|lia]. destruct (Z.ltb_spec max_message (msg_byte_len m)); [done|lia]. }
  assert (make_security_header sc (msg_type m) = Ret (Symmetric (token_id sc))) as Hsec by (by destruct (msg_type m)).
  set (limit := if encrypts sc then size - size mod 16 - (25 + signature_len sc) else size - (24 + signature_len sc)).
  assert (body_limit sc (msg_type m) size (msg_byte_len m + node_id_byte_len (type_id m)) limit) as Hlimit.
  { unfold body_limit, MIN_CHUNK_SIZE in *. decide_test. by apply body_size_symmetric; [..|int_lia]. }
  destruct (encode_into_spec _ _ _ _ h request _ _ _ [] Hm Hpol Hmax Hsec Hlimit)
    as (bodies & chunks & Hbytes & (init & last & Hpc & Hinit & Hlast) & Hf & Henc).
  rewrite He in Henc. injection Henc as -> ->. pose proof (framed_length _ _ _ _ _ _ Hf) as Hlen.
  assert (Forall (fun b : bytes => b <> [] /\ secured_len sc (zlen b) <= size) bodies) as Hb.
  { assert (forall b : bytes, 0 < zlen b <= limit -> b <> [] /\ secured_len sc (zlen b) <= size) as Hone.
    { intros b Hb. split; [intros ->; change (0 < 0 <= limit) in Hb; lia|]. apply secured_len_fits. apply Hb. }
    rewrite Hpc. apply Forall_app_2; [|apply Forall_singleton; by apply Hone].
    eapply Forall_impl; [exact Hinit|]. intros b Hbl. apply Hone. cbn beta in Hbl. lia. }
  assert (bodies <> []) as Hne by (rewrite Hpc; by destruct init).
  assert (Forall (fun b : bytes => b <> [] /\ 24 + zlen b <= u32_max) bodies) as Hb'.
  { eapply Forall_impl; [exact Hb|]. intros b [Hb1 Hb2]. split; [done|]. unfold secured_len in Hb2.
    pose proof (padding_for_range sc (zlen b)). pose proof (signature_len_range sc). lia. }
  destruct (framed_carries sc rc _ request Ho Hr (con_id _ _ _ CON) (con_token _ _ _ CON) (con_same _ _ _ CON) _ _ _ Hv Hf Hb')
    as (Hc & Hval & _).
  destruct bodies as [|b bodies]; [done|]. assert (Hb0 := Hb). apply Forall_cons in Hb0 as [[_ Hb0] _].
  destruct (framed_cons h request (msg_type m) b bodies chunks Ho Hr Hv Hb0 Hf) as (hd & cs' & -> & _ & _ & (Hok & _ & _)).
  exists (b :: bodies). split; [done|]. split; [eapply Forall_impl; [exact Hb|]; by intros ? [_ ?]|].
  split; [done|]. split; [done|]. split; [done|].
  assert (exists info, chunk_info rc (symmetric_chunk hd (token_id sc)
            {| sequence_number := current h; Chunk.request_id := request |} b) = Ret (Ok info)
            /\ Chunk.request_id (sequence_header info) = request) as Hinfo.
  { rewrite chunk_info_symmetric by done. by eexists. }
  split; [exact Hinfo|]. split; [|by eapply chunker_decode_spec].
  unfold validate_chunks. by destruct Hinfo as (info & -> & _).
Qed.

Lemma framed_sealed request mt bodies : is_open_secure_channel mt = false -> is_u32 request ->
  forall h cs, sn_valid h -> Forall (fun b : bytes => secured_len sc (zlen b) <= size) bodies ->
  framed h request mt sc bodies = Ret cs -> Forall (fun c => exists w, sealed_as c w) cs.
Proof.
  intros Ht Hr. induction bodies as [|b bodies IH]; intros h cs Hv Hb Hf; [by injection Hf as <-|].
  apply Forall_cons in Hb as [Hb1 Hb].
  destruct (framed_cons h request mt b bodies cs Ht Hr Hv Hb1 Hf) as (hd & cs' & -> & Hf' & _ & Hc).
  apply Forall_cons. split; [by eexists _, _, _, _|]. eapply IH; [|done|exact Hf']. by apply increment_valid.
Qed.

Lemma wrap_increment bodies h n : sn_valid h -> n = zlen bodies -> n <= max_chunks ->
  increment (wrap32 n) h = Nat.iter (length (A := bytes) bodies) (increment 1) h.
Proof.
  intros Hv -> Hn. pose proof (zlen_nonneg bodies). rewrite wrap32_small by int_lia.
  symmetry. apply iter_increment; [done|]. unfold max_value, min_value, zlen in *. destruct (sn_is_legacy h); int_lia.
Qed.
Lemma iter_valid n h : sn_valid h -> sn_valid (Nat.iter n (increment 1) h).
Proof. intros Hv. induction n; [done|]. by apply increment_valid. Qed.

Lemma produced_sealed h0 ms cs h : sn_valid h0 -> produced h0 ms cs h -> Forall transmissible ms ->
  sn_valid h /\ Forall (fun c => exists w, sealed_as c w) cs.
Proof.
  intros Hv0. induction 1 as [|ms cs h request m cs' n Hp IH He Hn]; intros Hall; [done|].
  apply Forall_app in Hall as [Hall Hm]. rewrite Forall_singleton in Hm. destruct (IH Hall) as (Hv & Hcs).
  destruct (encode_received h request m cs' n Hv Hm He) as (bodies & _ & Hb & Hf & Hn' & _).
  destruct Hm as (Hr & _ & Ho). cbn [fst snd] in *. rewrite (wrap_increment bodies h n Hv Hn' Hn).
  split; [by apply iter_valid|]. apply Forall_app_2; [done|by eapply framed_sealed].
Qed.

(** Received in order, the chunks yield the messages, and leave the receiver's counter where the
    sender's is. *)
Lemma produced_received h0 ms cs h : sn_valid h0 -> produced h0 ms cs h -> Forall transmissible ms ->
  forall ws more (t : Transport (Rsp := Rsp)), Forall2 sealed_as cs ws -> tr_pending_chunks t = [] ->
    tr_sequence_numbers t = h0 ->
    max_chunks <= effective_max_chunk_count (sb_max_chunk_count (tr_send_buffer t)) (sb_max_message_size (tr_send_buffer t)) ->
    exists reqs, map (fun r => (rq_id r, rq_message r)) reqs = ms
      /\ drain error_handle (incoming_chunks ws ++ more) [] rc t
         = drain error_handle more reqs rc (set_received [] h t).
Proof.
  intros Hv0. induction 1 as [|ms cs h request m cs' n Hp IH He Hn]; intros Hall ws more t Hw Hpend Hnum Hmax.
  - apply Forall2_nil_inv_l in Hw as ->.
    exists []. split; [done|]. f_equal. rewrite <- Hpend, <- Hnum. by destruct t.
  - apply Forall_app in Hall as [Hall Hm]. rewrite Forall_singleton in Hm. specialize (IH Hall) as Hrec.
    destruct (produced_sealed _ _ _ _ Hv0 Hp Hall) as [Hv _].
    destruct (encode_received h request m cs' n Hv Hm He) as (bodies & Hne & Hb & Hf & Hn' & Hlen & Hinfo & Hval & Hdec).
    destruct Hm as (Hr & _ & Ho). cbn [fst snd] in *. rewrite (wrap_increment bodies h n Hv Hn' Hn).
    apply Forall2_app_inv_l in Hw as (ws1 & ws2 & Hw1 & Hw2 & ->).
    destruct (Hrec ws1 (incoming_chunks ws2 ++ more) t Hw1 Hpend Hnum Hmax) as (reqs & Hreqs & Hd).
    destruct (drain_group request (msg_type m) m bodies Ho Hr h [] cs' ws2 more reqs (set_received [] h t))
      as (r & Hid & Hmsg & Hd2); try done.
    { change (zlen (@nil MessageChunk)) with 0. cbn [set_received tr_send_buffer]. lia. }
    exists (reqs ++ [r]). rewrite map_app, Hreqs. cbn [map]. rewrite Hid, Hmsg. split; [done|].
    unfold incoming_chunks in *. rewrite map_app, <- app_assoc, Hd, Hd2. done.
Qed.
(** ** The sending side *)

(** An idle buffer with the limits of the connection, large enough for a secured chunk. *)
Record sender_ready (b : SendBuffer) : Prop := {
  sr_idle : sb_state b = Writing /\ sb_position b = 0 /\ sb_chunks b = [];
  sr_valid : sn_valid (sb_sequence_numbers b);
  sr_room : size + 16 <= zlen (sb_buffer b);
  sr_limits : sb_send_buffer_size b = size /\ sb_max_message_size b = max_message /\ sb_max_chunk_count b = max_chunks
}.
Context (Hlim : 0 < max_chunks) (b0 : SendBuffer) (Hb0 : sender_ready b0).

Definition sending (l : link (M := M)) : Prop :=
  link_ok l /\ l_channel l = sc
  /\ sb_send_buffer_size (l_buffer l) = size /\ sb_max_message_size (l_buffer l) = max_message
  /\ sb_max_chunk_count (l_buffer l) = max_chunks /\ size + 16 <= zlen (sb_buffer (l_buffer l))
  /\ (exists cs, produced (sb_sequence_numbers b0) (l_messages l) cs (sb_sequence_numbers (l_buffer l))
                 /\ l_queued l = map PayloadChunk cs)
  /\ Forall (fun s => exists c, s_payload s = PayloadChunk c /\ sealed_as c (s_frame s)) (l_sealed l).

Lemma sending_new : sending (link_new b0 sc).
Proof.
  destruct Hb0 as [(Hs & Hp & Hc) Hv Hroom (H1 & H2 & H3)]. unfold sending, link_ok, buffer_ok, in_flight.
  cbn [link_new l_buffer l_sent l_sealed l_queued l_messages l_channel]. rewrite Hs, Hc. split_and!; try done; try constructor.
  exists []. split; [constructor|done].
Qed.

Lemma apply_security_sealed rng c w dst : sealed_as c w -> size + 16 <= dst ->
  apply_security sc rng c dst = Ret (Ok (w, sc)).
Proof.
  intros (h & q & body & (Hc & _ & Hl) & -> & ->) Hd. destruct CON.
  by apply apply_security_symmetric; [..|lia].
Qed.

Lemma queued_suffix {A} (f : A -> PendingPayload) (a b : list PendingPayload) (cs : list A) p :
  a ++ p :: b = map f cs -> exists c, p = f c /\ c ∈ cs.
Proof.
  intros Heq. assert (p ∈ map f cs) as Hin by (rewrite <- Heq; set_solver).
  apply list_elem_of_fmap in Hin as (c & -> & Hc). by exists c.
Qed.

Lemma sending_step l l' : Forall transmissible (l_messages l') -> sending l -> traffic_step l l' -> sending l'.
Proof.
  intros Hall (Hok & Hch & H1 & H2 & H3 & Hroom & (cs & Hprod & Hq) & Hsealed) Hstep.
  assert (Hok' := traffic_ok _ _ Hok Hstep).
  destruct Hstep as [request m b' Hw|rng b' sc' He|n b' sent Hr]; unfold sending in *; cbn [l_buffer l_channel l_messages l_queued l_sealed] in *.
  - apply write_spec in Hw as (chunks & n & He & Hn & ->). unfold added in *.
    cbn [set_chunks set_sequence_numbers sb_chunks sb_send_buffer_size sb_max_message_size sb_max_chunk_count sb_buffer sb_sequence_numbers] in *.
    split_and!; try done. exists (cs ++ chunks). rewrite drop_app_length, Hq, map_app. split; [|done].
    rewrite H1, H2, Hch in He. apply produced_snoc; [done|done|lia].
  - destruct Hok as (Hb & Hs & Hqueue & Hf).
    destruct (encode_next_spec _ _ _ _ _ Hb He) as (_ & _ & [(Hc & -> & ->)|(p & w & Hc & Hw & Hp & Hnum & Hgrow)]); unfold taken in *.
    { rewrite Hc, app_nil_r. split_and!; try done. by exists cs. }
    assert (sb_send_buffer_size b' = sb_send_buffer_size (l_buffer l) /\ sb_max_message_size b' = sb_max_message_size (l_buffer l)
            /\ sb_max_chunk_count b' = sb_max_chunk_count (l_buffer l)) as (E1 & E2 & E3) by by eapply encode_next_limits.
    rewrite Hqueue, Hc in Hq. destruct (queued_suffix _ _ _ _ _ Hq) as (c & -> & Hin).
    assert (Forall (fun c => exists w, sealed_as c w) cs) as Hcs.
    { apply (produced_sealed _ _ _ _ (sr_valid _ Hb0) Hprod). exact Hall. }
    rewrite Forall_forall in Hcs. destruct (Hcs c Hin) as (w' & Hw'). cbn [payload_bytes] in Hp. rewrite Hch in Hp.
    rewrite (apply_security_sealed _ _ _ _ Hw' Hroom) in Hp. injection Hp as <- <-.
    split_and!; try done; try congruence; try lia.
    + exists cs. rewrite Hnum. split; [done|]. by rewrite Hqueue, Hc, Hq.
    + apply Forall_app_2; [done|]. rewrite Hc. apply Forall_singleton. exists c. rewrite Hw. done.
  - destruct Hok as (Hb & _). destruct (read_into_spec n _ Hb) as (b1 & sent1 & Hr1 & _ & _ & _ & _ & Hnum & Hbuf & _).
    rewrite Hr in Hr1. injection Hr1 as <- <-. destruct (read_into_limits _ _ _ _ Hr) as (E1 & E2 & E3).
    rewrite Hbuf, Hnum, E1, E2, E3. split_and!; try done. by exists cs.
Qed.

(** The messages of a step are those of its start and maybe one more. *)
Lemma traffic_messages (l l' : link (M := M)) : traffic_step l l' -> l_messages l `prefix_of` l_messages l'.
Proof. intros [request m b' Hw| |]; cbn [l_messages]; [by eexists|done..]. Qed.

Lemma sending_run l : rtc traffic_step (link_new b0 sc) l -> Forall transmissible (l_messages l) -> sending l.
Proof.
  revert l. apply (rtc_ind_r (fun l => Forall transmissible (l_messages l) -> sending l)); [intros _; apply sending_new|].
  intros l l' Hrun Hstep IH Hall.
  eapply sending_step; [done|apply IH|done]. destruct (traffic_messages _ _ Hstep) as (k & Hk).
  rewrite Hk in Hall. by apply Forall_app in Hall as [Hall _].
Qed.
(** Everything queued can be sent. *)
Lemma sending_sealed l : sending l -> Forall transmissible (l_messages l) ->
  Forall (fun p => exists c w, p = PayloadChunk c /\ sealed_as c w) (sb_chunks (l_buffer l)).
Proof.
  intros ((_ & _ & Hqueue & _) & _ & _ & _ & _ & _ & (cs & Hprod & Hq) & _) Hall.
  destruct (produced_sealed _ _ _ _ (sr_valid _ Hb0) Hprod Hall) as (_ & Hcs).
  assert (Forall (fun p => exists c w, p = PayloadChunk c /\ sealed_as c w) (l_queued l)) as Hl.
  { rewrite Hq. apply Forall_map. eapply Forall_impl; [exact Hcs|]. intros c (w & Hw). by exists c, w. }
  rewrite Hqueue in Hl. by apply Forall_app in Hl as [_ Hl].
Qed.

Lemma send_in_flight (l : link (M := M)) : link_ok l -> exists l', traffic_step l l'
  /\ in_flight (l_buffer l') = [] /\ sb_chunks (l_buffer l') = sb_chunks (l_buffer l) /\ l_messages l' = l_messages l
  /\ l_channel l' = l_channel l /\ sb_buffer (l_buffer l') = sb_buffer (l_buffer l) /\ sb_state (l_buffer l') = Writing.
Proof.
  intros (Hb & _). set (n := length (in_flight (l_buffer l))).
  destruct (read_into_spec n (l_buffer l) Hb) as (b' & sent & Hr & _ & _ & Hi & Hc & _ & Hbuf & Hst).
  specialize (Hst (le_n _)). unfold n in Hi. rewrite drop_all in Hi.
  exists {| l_buffer := b'; l_channel := l_channel l; l_sent := l_sent l ++ sent;
            l_messages := l_messages l; l_queued := l_queued l; l_sealed := l_sealed l |}.
  split; [by eapply (step_send _ n)|]. cbn [l_buffer l_messages l_channel]. done.
Qed.

Lemma sending_completes : forall n l, (length (sb_chunks (l_buffer l)) <= n)%nat -> sending l ->
  Forall transmissible (l_messages l) ->
  exists l', rtc traffic_step l l' /\ l_messages l' = l_messages l
    /\ in_flight (l_buffer l') = [] /\ sb_chunks (l_buffer l') = [].
Proof.
  induction n as [|n IH]; intros l Hn Hl Hall;
    destruct (send_in_flight l (proj1 Hl)) as (l1 & Hs1 & Hi & Hc & Hm & Hch & Hbuf & Hst).
  - exists l1. split; [by apply rtc_once|]. rewrite Hc. split_and!; try done. by destruct (sb_chunks _); [|simpl in Hn; lia].
  - assert (sending l1) as Hl1 by (eapply sending_step; [by rewrite Hm|done|done]).
    destruct (sb_chunks (l_buffer l1)) as [|p chunks] eqn:Hcs.
    { exists l1. split; [by apply rtc_once|]. done. }
    assert (Hf := sending_sealed l1 Hl1 ltac:(by rewrite Hm)). rewrite Hcs in Hf.
    apply Forall_cons in Hf as [(c & w & -> & Hw) _].
    assert (exists b2, encode_next_chunk sc (fun _ => 0) (l_buffer l1) = Ret (b2, sc, Ok tt) /\ sb_chunks b2 = chunks)
      as (b2 & He & Hb2).
    { unfold encode_next_chunk. rewrite Hst, Hcs. pose proof Hl1 as (_ & _ & _ & _ & _ & Hroom & _).
      cbn [set_chunks sb_buffer]. rewrite (apply_security_sealed _ _ _ _ Hw Hroom). cbn [outcome_bind]. by eexists. }
    pose proof Hl1 as (_ & Hsc & _). rewrite <- Hsc in He. pose proof (step_encode l1 _ _ _ He) as Hs2.
    set (l2 := {| l_buffer := b2 |}) in Hs2.
    assert (sending l2) as Hl2 by (eapply sending_step; [|done|exact Hs2]; by rewrite <- Hm in Hall).
    destruct (IH l2) as (l' & Hrun & Hmsg & Hend); [cbn [l2 l_buffer]; rewrite Hb2; rewrite <- Hc in Hn; simpl in Hn; lia|done|
      cbn [l2 l_messages]; by rewrite Hm|].
    exists l'. split; [by eapply rtc_l; [done|]; eapply rtc_l|]. cbn [l2 l_messages] in Hmsg. by rewrite Hmsg.
Qed.
End channel.

(** ** Delivery *)

(** The limits of a sender. *)
Definition sender_limits (b : SendBuffer) : Prop :=
  MIN_CHUNK_SIZE <= sb_send_buffer_size b <= u32_max /\ 0 < sb_max_chunk_count b <= u32_max - 1024.
(** The sender [b] and the receiver [t], reading with the options [o], agree on the limits of the
    connection and on the next sequence number. *)
Record agreed (o : DecodingOptions) (b : SendBuffer) (t : Transport (Rsp := Rsp)) : Prop := {
  ag_limits : sender_limits b;
  ag_max : sb_send_buffer_size b <= (if max_message_size o =? 0 then MAX_MESSAGE_SIZE else max_message_size o);
  ag_effective : sb_max_chunk_count b <= effective_max_chunk_count (sb_max_chunk_count (tr_send_buffer t))
                                           (sb_max_message_size (tr_send_buffer t));
  ag_pending : tr_pending_chunks t = [];
  ag_numbers : tr_sequence_numbers t = sb_sequence_numbers b
}.
Definition ready_to_send (b : SendBuffer) : Prop :=
  sender_ready (sb_send_buffer_size b) (sb_max_message_size b) (sb_max_chunk_count b) b.

Lemma sealed_frame sc ks size o c w : size <= u32_max ->
  size <= (if max_message_size o =? 0 then MAX_MESSAGE_SIZE else max_message_size o) ->
  sealed_as sc ks size c w -> encodes (TChunk w) w /\ frame_ok o (TChunk w).
Proof.
  intros Hu Hmax (h & q & body & (_ & _ & Hl) & _ & ->). pose proof (zlen_secured_chunk sc ks h (token_id sc) q body) as Hz.
  pose proof (secured_len_min sc (zlen body) (zlen_nonneg body)). pose proof (signature_len_range sc).
  split; [eexists; split; [done|]; cbn [concat]; by rewrite app_nil_r|].
  eexists (with_size (secured_len sc (zlen body)) h), _. split; [unfold secured_chunk, clear_part; by rewrite <- !app_assoc|].
  split; [by rewrite Hz|]. unfold is_message_header. cbn [mh_size]. rewrite Hz. unfold is_u32. lia.
Qed.

(** C1: requests written to a send buffer on one side of an established channel come out of the
    transport on the other side: all of them, each once, with their ids, in the order they were
    written, and nothing else. Writing, encoding and sending interleave in any way, the socket takes
    any part of the bytes offered, and the network delivers them in any pieces. The ends agree on
    limits and sequence numbers, the messages are ones the receiver can decode, and everything
    written has been sent. *)
Theorem requests_delivered sc rc ks o b t (l : link (M := M)) pieces :
  connected sc rc ks -> ready_to_send b -> agreed o b t ->
  rtc traffic_step (link_new b sc) l -> Forall (transmissible rc) (l_messages l) ->
  in_flight (l_buffer l) = [] -> sb_chunks (l_buffer l) = [] -> concat pieces = l_sent l ->
  exists frames reqs, feed_all o (Ok []) pieces = (frames, Ok [])
    /\ map (fun r => (rq_id r, rq_message r)) reqs = l_messages l
    /\ drain error_handle (map (fun m => Some (Ok m)) frames) [] rc t
       = Ret (set_received [] (sb_sequence_numbers (l_buffer l)) t, rc, IncomingMessages reqs).
Proof.
  intros Hcon Hb [[[Hmin Hu] Hchunks] Hmax Heff Hpend Hnum] Hrun Hall Hi Hc Hpieces.
  destruct (sending_run sc rc ks Hcon _ Hu _ _ Hmin (proj2 Hchunks) (proj1 Hchunks) b Hb l Hrun Hall)
    as ((_ & Hs & Hqueue & _) & _ & _ & _ & _ & _ & (cs & Hprod & Hq) & Hsealed).
  rewrite Hi, app_nil_r in Hs. rewrite Hc, app_nil_r in Hqueue. rewrite Hqueue in Hq.
  pose proof (produced_received sc rc ks Hcon _ Hu _ _ Hmin (proj2 Hchunks) _ _ _ _ (sr_valid _ _ _ _ Hb) Hprod Hall)
    as Hrec.
  assert (Forall2 (sealed_as sc ks (sb_send_buffer_size b)) cs (map s_frame (l_sealed l))) as Hf2.
  { clear - Hq Hsealed. revert cs Hq. induction (l_sealed l) as [|s ss IH]; intros [|c cs] Hq; try done.
    apply Forall_cons in Hsealed as [(c' & Hc' & Hw) Hss]. injection Hq as Hh Hq. rewrite Hh in Hc'. injection Hc' as <-.
    constructor; [done|]. by apply IH. }
  destruct (Hrec _ [] t Hf2 Hpend Hnum Heff) as (reqs & Hreqs & Hd).
  exists (map TChunk (map s_frame (l_sealed l))), reqs. split_and!; [|done|].
  - rewrite feed_all_concat by (by intros buf [= <-]). rewrite Hpieces, Hs.
    assert (Forall (fun w => encodes (TChunk w) w /\ frame_ok o (TChunk w)) (map s_frame (l_sealed l))) as Hw.
    { apply Forall_forall. intros w Hw. apply list_elem_of_lookup in Hw as (i & Hw).
      destruct (Forall2_lookup_r _ _ _ _ _ Hf2 Hw) as (c & _ & Hcw). by eapply sealed_frame. }
    apply feed_encoded; [apply Forall2_fmap_l, Forall_Forall2_diag|apply Forall_fmap];
      (eapply Forall_impl; [exact Hw|]); by intros w [? ?].
  - rewrite app_nil_r in Hd. unfold incoming_chunks in Hd. rewrite map_map. exact Hd.
Qed.

(** ** Where requests are lost *)

Lemma drain_app (frames ready : list (option (result TcpMessage StatusCode))) : forall got sc (t : Transport (Rsp := Rsp)) t1 sc1 reqs,
  None ∉ frames -> drain (Req := M) error_handle frames got sc t = Ret (t1, sc1, IncomingMessages reqs) ->
  drain error_handle (frames ++ ready) got sc t = drain error_handle ready reqs sc1 t1.
Proof.
  induction frames as [|[incoming|] frames IH]; intros got sc t t1 sc1 reqs Hnone Hd; [by injection Hd as -> -> ->| |set_solver].
  cbn [drain app] in *. apply outcome_bind_ret in Hd as ([[t' sc'] r] & -> & Hd). cbn [outcome_bind].
  assert (None ∉ frames) as Hnone' by set_solver. by destruct r; try done; apply (IH _ _ _ _ _ _ Hnone' Hd).
Qed.

(** Requests that were received and decoded are lost when a later frame that is already there
    fails: the call of [poll] that holds them returns only the error, though the connection goes on
    after a recoverable one. *)
Theorem drained_requests_lost frames incoming ready sc (t t1 t2 : Transport (Rsp := Rsp)) sc1 sc2 reqs e id handle :
  None ∉ frames -> drain (Req := M) error_handle frames [] sc t = Ret (t1, sc1, IncomingMessages reqs) ->
  handle_incoming_message (Req := M) error_handle (Some incoming) sc1 t1 = Ret (t2, sc2, RecoverableError e id handle) ->
  drain (Req := M) error_handle (frames ++ Some incoming :: ready) [] sc t = Ret (t2, sc2, RecoverableError e id handle).
Proof.
  intros Hnone Hd Hr. rewrite (drain_app _ _ _ _ _ _ _ _ Hnone Hd). cbn [drain]. rewrite Hr. done.
Qed.

(** An abort chunk takes a sequence number, but the receiver's counter does not advance with it:
    the next chunk of a conforming sender, on an established channel, is refused, and the connection
    is lost. *)
Theorem abort_desynchronizes sc rc ks size h q body h' q' body' (t : Transport (Rsp := Rsp)) :
  connected sc rc ks -> size <= u32_max ->
  channel_chunk sc size h q body -> is_final h = FinalError -> sequence_number q = current (tr_sequence_numbers t) ->
  channel_chunk sc size h' q' body' -> is_final h' <> FinalError ->
  sequence_number q' = current (increment 1 (tr_sequence_numbers t)) ->
  sn_valid (tr_sequence_numbers t) -> current (tr_sequence_numbers t) <> min_value (tr_sequence_numbers t) ->
  let abort := secured_chunk sc ks h (token_id sc) q body in
  let next := secured_chunk sc ks h' (token_id sc) q' body' in
  process_message (Req := M) error_handle (TChunk abort) rc t = Ret (clear_pending_chunks t, rc, Ok None)
  /\ process_message (Req := M) error_handle (TChunk next) rc (clear_pending_chunks t)
     = Ret (clear_pending_chunks t, rc, Err (error_of BadSequenceNumberInvalid)).
Proof.
  intros Hcon Hsize Hc Hf Hq Hc' Hf' Hq' Hv Hstart abort next. pose proof (secured_header sc ks size Hsize h q body Hc) as (r & Hh).
  pose proof (secured_header sc ks size Hsize h' q' body' Hc') as (r' & Hh').
  pose proof (verify_server_sealed sc rc ks Hcon size Hsize h q body Hc) as Hver.
  pose proof (verify_server_sealed sc rc ks Hcon size Hsize h' q' body' Hc') as Hver'.
  unfold abort, next, process_message. split.
  - rewrite Hh, Hver. cbn [outcome_bind with_size is_final]. rewrite Hf. done.
  - rewrite Hh', Hver'. cbn [outcome_bind with_size is_final]. rewrite bool_decide_eq_false_2 by done.
    cbn [clear_pending_chunks set_received tr_pending_chunks tr_send_buffer tr_sequence_numbers].
    change (zlen (@nil MessageChunk)) with 0. pose proof (effective_pos (sb_max_chunk_count (tr_send_buffer t))
      (sb_max_message_size (tr_send_buffer t))). destruct (Z.leb_spec (effective_max_chunk_count (sb_max_chunk_count (tr_send_buffer t))
      (sb_max_message_size (tr_send_buffer t))) 0); [lia|]. destruct Hc' as (Hok & _ & _).
    rewrite chunk_info_symmetric by done. cbn [outcome_bind sequence_header]. rewrite Hq'.
    rewrite validate_spec; [|done|]; [|by apply current_u32, increment_valid].
    pose proof (increment_differs _ Hv) as Hne. rewrite bool_decide_eq_false_2 by done.
    assert ((current (tr_sequence_numbers t) =? min_value (tr_sequence_numbers t)) = false) as -> by by apply Z.eqb_neq.
    by rewrite andb_false_r.
Qed.

(** Whatever has happened so far, sending can be completed without writing anything more: no
    chunk of an accepted message gets stuck. *)
Theorem sending_can_complete sc rc ks b (l : link (M := M)) :
  connected sc rc ks -> ready_to_send b -> sender_limits b ->
  rtc traffic_step (link_new b sc) l -> Forall (transmissible rc) (l_messages l) ->
  exists l', rtc traffic_step l l' /\ l_messages l' = l_messages l
    /\ in_flight (l_buffer l') = [] /\ sb_chunks (l_buffer l') = [].
Proof.
  intros Hcon Hb [[Hmin Hu] Hchunks] Hrun Hall.
  pose proof (sending_run sc rc ks Hcon _ Hu _ _ Hmin (proj2 Hchunks) (proj1 Hchunks) b Hb l Hrun Hall) as Hl.
  exact (sending_completes sc rc ks Hcon _ Hu _ _ Hmin (proj2 Hchunks) (proj1 Hchunks) b Hb _ l (le_n _) Hl Hall).
Qed.
End facts.

(** ** The handshake *)

Lemma min_zero_infinite_spec server client : 0 <= server -> 0 <= client ->
  0 <= min_zero_infinite server client /\ (0 < client -> 0 < min_zero_infinite server client <= client)
  /\ (0 < server -> 0 < min_zero_infinite server client <= server).
Proof. intros Hs Hc. unfold min_zero_infinite. destruct (Z.eqb_spec client 0), (Z.eqb_spec server 0); lia. Qed.

(** The limit in force for what the server sends, of its own limit and that of the client, where 0 is
    no limit: a server with a limit keeps to both; one without keeps none at all. *)
Definition limit_in_force (own client l : Z) : Prop :=
  (0 < own -> 0 < l <= own /\ (0 < client -> l <= client)) /\ (own = 0 -> l = 0).

(** A limit after [revise], where the agreed one is the client's or lower. *)
Lemma revised_limit own client agreed : 0 <= own -> 0 <= agreed -> (0 < client -> 0 < agreed <= client) ->
  limit_in_force own client (if (agreed <? own) && (0 <? agreed) then agreed else own).
Proof.
  intros Ho Ha Hc. unfold limit_in_force. destruct (Z.ltb_spec agreed own), (Z.ltb_spec 0 agreed); cbn [andb]; lia.
Qed.

(** The fields of a hello as the codec delivers them. *)
Definition hello_fields (m : HelloMessage) : Prop :=
  is_u32 (hello_receive_buffer_size m) /\ is_u32 (hello_send_buffer_size m) /\ is_u32 (hello_max_message_size m)
  /\ is_u32 (hello_max_chunk_count m).
Definition config_ok (c : TransportConfig) : Prop :=
  MIN_CHUNK_SIZE <= tc_send_buffer_size c <= u32_max /\ MIN_CHUNK_SIZE <= tc_receive_buffer_size c <= u32_max
  /\ 0 <= tc_max_message_size c /\ 0 <= tc_max_chunk_count c.

(** C10: for a server whose own buffers have at least the minimum chunk size (and fit 32 bits), a
    handshake succeeds only for a hello of a supported version, for one of the server's endpoints, with
    buffers of the minimum size.  Then the client can decode the acknowledgement, and chunks the server
    will send are no longer than its own send buffer or the client's receive buffer.  The size and the
    number of chunks of its messages are within the limits of both sides when the server has a limit of
    its own (0: none); a server without one will keep none, whatever the client asked for. *)
Theorem handshake_limits endpoints matches config options incoming b buf :
  connect_inner endpoints matches config options incoming = Ok (b, buf) -> config_ok config ->
  0 <= max_message_size options -> 0 <= max_chunk_count options ->
  (forall hello, incoming = Some (Ok (THello hello)) -> hello_fields hello) ->
  exists hello ack, incoming = Some (Ok (THello hello)) /\ hello_protocol_version hello <= server_protocol_version
    /\ (exists urls, endpoints (hello_endpoint_url hello) = Some urls /\ is_endpoint_url_valid matches urls hello = true)
    /\ (forall rest, codec_decode default_options (buf ++ rest) = Ok (Some (TAcknowledge ack, rest)))
    /\ MIN_CHUNK_SIZE <= ack_receive_buffer_size ack <= Z.min (tc_receive_buffer_size config) (hello_send_buffer_size hello)
    /\ sb_send_buffer_size b = ack_send_buffer_size ack
    /\ MIN_CHUNK_SIZE <= sb_send_buffer_size b <= Z.min (tc_send_buffer_size config) (hello_receive_buffer_size hello)
    /\ limit_in_force (tc_max_message_size config) (hello_max_message_size hello) (sb_max_message_size b)
    /\ limit_in_force (tc_max_chunk_count config) (hello_max_chunk_count hello) (sb_max_chunk_count b).
Proof.
  intros Hc (Hsend & Hrecv & Hmm & Hmc) Ho1 Ho2 Hfields. unfold connect_inner in Hc.
  destruct incoming as [[[hello| | | |]|]|]; try done. destruct (Hfields hello eq_refl) as (Hr & Hs & Hm & Hk).
  cbn [result_bind] in Hc.
  destruct (endpoints (hello_endpoint_url hello)) as [urls|] eqn:Hurls; [|done]. cbn [negb] in Hc.
  destruct (is_endpoint_url_valid matches urls hello) eqn:Hurl; [|done]. cbn [negb] in Hc.
  destruct (hello_is_valid_buffer_sizes hello) eqn:Hsizes; [|done]. cbn [negb] in Hc.
  destruct (Z.ltb_spec server_protocol_version (hello_protocol_version hello)) as [|Hversion]; [done|].
  set (b0 := sb_new _ _ _ _) in Hc. set (ack := acknowledge_for config options b0 hello) in Hc.
  apply result_bind_ok in Hc as (bufs & Hbufs & Hc). apply Ok_inj in Hc. injection Hc as <- <-.
  unfold hello_is_valid_buffer_sizes, hello_is_valid_buffer_sizes_for, buffers_meet_minimum in Hsizes.
  change (minimum_buffer_size_for_security_policy PolicyNone) with MIN_CHUNK_SIZE in Hsizes.
  apply andb_true_iff in Hsizes as [Hs1 Hs2]. apply Z.leb_le in Hs1, Hs2. unfold MIN_CHUNK_SIZE in *.
  unfold is_u32 in *.
  pose proof (wrap32_range (max_message_size options)) as Hw1. pose proof (wrap32_range (max_chunk_count options)) as Hw2.
  unfold is_u32 in Hw1, Hw2.
  destruct (min_zero_infinite_spec (wrap32 (max_message_size options)) (hello_max_message_size hello)) as (A1 & A2 & A3); [lia..|].
  destruct (min_zero_infinite_spec (wrap32 (max_chunk_count options)) (hello_max_chunk_count hello)) as (B1 & B2 & B3); [lia..|].
  pose proof (revised_limit (tc_max_message_size config) _ (ack_max_message_size ack) Hmm A1 A2) as C.
  pose proof (revised_limit (tc_max_chunk_count config) _ (ack_max_chunk_count ack) Hmc B1 B2) as D.
  assert (ack_receive_buffer_size ack = Z.min (tc_receive_buffer_size config) (hello_send_buffer_size hello)) as E1
    by (cbn [ack acknowledge_for ack_new ack_receive_buffer_size]; by rewrite wrap32_small by (unfold is_u32; lia)).
  assert (ack_send_buffer_size ack = Z.min (tc_send_buffer_size config) (hello_receive_buffer_size hello)) as E2
    by (cbn [ack acknowledge_for ack_new ack_send_buffer_size b0 sb_new sb_send_buffer_size];
        by rewrite wrap32_small by (unfold is_u32; lia)).
  cbn [ack acknowledge_for ack_new ack_max_message_size ack_max_chunk_count] in C, D.
  exists hello, ack. split; [done|]. split; [done|]. split; [by exists urls|]. split.
  { intros rest. apply codec_decode_encoded; [|done]. cbn [frame_ok]. rewrite E1, E2.
    assert (is_u32 (ack_max_message_size ack) /\ is_u32 (ack_max_chunk_count ack)) as [F1 F2].
    { unfold is_u32. cbn [ack acknowledge_for ack_new ack_max_message_size ack_max_chunk_count].
      unfold min_zero_infinite. repeat case_match; lia. }
    split_and!; try done; unfold is_u32; lia. }
  cbn [revise sb_send_buffer_size sb_max_message_size sb_max_chunk_count b0 sb_new].
  change (Z.min (wrap32 (tc_send_buffer_size config)) (hello_receive_buffer_size hello)) with (ack_send_buffer_size ack).
  rewrite E1, E2, Z.min_assoc, Z.min_id. split_and!; try lia; done.
Qed.

Definition sample_hello : HelloMessage := hello_new (str "opc.tcp://a") 65535 65535 0 3.
Lemma handshake_limits_witness :
  let config := {| tc_send_buffer_size := 65535; tc_receive_buffer_size := 65535; tc_max_message_size := 327675;
                   tc_max_chunk_count := 5 |} in
  let endpoints _ := Some [Some (str "opc.tcp://b")] in
  exists b buf, connect_inner endpoints (fun _ _ => true) config default_options (Some (Ok (THello sample_hello))) = Ok (b, buf)
    /\ exists hello ack, Some (@Ok TcpMessage StatusCode (THello sample_hello)) = Some (Ok (THello hello))
    /\ hello_protocol_version hello <= server_protocol_version
    /\ (exists urls, endpoints (hello_endpoint_url hello) = Some urls /\ is_endpoint_url_valid (fun _ _ => true) urls hello = true)
    /\ (forall rest, codec_decode default_options (buf ++ rest) = Ok (Some (TAcknowledge ack, rest)))
    /\ MIN_CHUNK_SIZE <= ack_receive_buffer_size ack <= Z.min (tc_receive_buffer_size config) (hello_send_buffer_size hello)
    /\ sb_send_buffer_size b = ack_send_buffer_size ack
    /\ MIN_CHUNK_SIZE <= sb_send_buffer_size b <= Z.min (tc_send_buffer_size config) (hello_receive_buffer_size hello)
    /\ limit_in_force (tc_max_message_size config) (hello_max_message_size hello) (sb_max_message_size b)
    /\ limit_in_force (tc_max_chunk_count config) (hello_max_chunk_count hello) (sb_max_chunk_count b).
Proof.
  intros config endpoints. eexists _, _. split; [unfold connect_inner; reflexivity|].
  apply (handshake_limits endpoints (fun _ _ => true) config default_options (Some (Ok (THello sample_hello))));
    [reflexivity|vm_compute; intuition discriminate|discriminate|discriminate|].
  intros hello [= <-]. vm_compute. intuition discriminate.
Defined.

(** ** A connection *)

Lemma client_server_connected : connected client_channel server_channel toy_keys.
Proof.
  split; [apply client_established|done|done|apply client_keys_ok|done|done|done|by right].
Qed.

Definition client_buffer : SendBuffer := sb_new 8192 0 5 true.
Definition server_transport : Transport (Rsp := Note) := transport_new (sb_new 8192 327675 5 true).
Lemma client_ready : ready_to_send client_buffer.
Proof. split; [done|apply sn_new_valid|done|done]. Qed.
Lemma client_server_agreed : agreed default_options client_buffer server_transport.
Proof. split; done. Qed.

(** Two requests are written, the second while the first is being sent. *)
Definition first_note : Note := {| note_handle := 5; note_payload := [1; 2; 3] |}.
Definition second_note : Note := {| note_handle := 6; note_payload := repeat 7 20 |}.
Definition buffer_of (r : outcome (SendBuffer * result Z Error)) : SendBuffer :=
  match r with Ret (b, _) => b | _ => client_buffer end.
Definition encoded_buffer (b : SendBuffer) : SendBuffer :=
  match encode_next_chunk client_channel (fun _ => 0) b with Ret (b, _, _) => b | _ => client_buffer end.
Definition sent_by (n : nat) (b : SendBuffer) : bytes := match read_into n b with (_, Ok sent) => sent | _ => [] end.
Definition b1 : SendBuffer := buffer_of (write 1 first_note client_channel client_buffer).
Definition b2 : SendBuffer := encoded_buffer b1.
Definition b3 : SendBuffer := fst (read_into 30 b2).
Definition b4 : SendBuffer := buffer_of (write 2 second_note client_channel b3).
Definition b5 : SendBuffer := fst (read_into 1000 b4).
Definition b6 : SendBuffer := encoded_buffer b5.
Definition b7 : SendBuffer := fst (read_into 1000 b6).
Definition finished : link :=
  {| l_buffer := b7; l_channel := client_channel; l_sent := (([] ++ sent_by 30 b2) ++ sent_by 1000 b4) ++ sent_by 1000 b6;
     l_messages := [(1, first_note); (2, second_note)];
     l_queued := ([] ++ added client_buffer b1) ++ added b3 b4;
     l_sealed := ([] ++ taken client_channel b1 b2) ++ taken client_channel b5 b6 |}.

Lemma finished_reached : rtc traffic_step (link_new client_buffer client_channel) finished.
Proof.
  eapply rtc_l; [apply (step_write _ 1 first_note b1); vm_compute; reflexivity|].
  eapply rtc_l; [apply (step_encode _ (fun _ => 0) b2 client_channel); vm_compute; reflexivity|].
  eapply rtc_l; [apply (step_send _ 30 b3 (sent_by 30 b2)); vm_compute; reflexivity|].
  eapply rtc_l; [apply (step_write _ 2 second_note b4); vm_compute; reflexivity|].
  eapply rtc_l; [apply (step_send _ 1000 b5 (sent_by 1000 b4)); vm_compute; reflexivity|].
  eapply rtc_l; [apply (step_encode _ (fun _ => 0) b6 client_channel); vm_compute; reflexivity|].
  eapply rtc_l; [apply (step_send _ 1000 b7 (sent_by 1000 b6)); vm_compute; reflexivity|].
  apply rtc_refl.
Qed.
Lemma finished_transmissible : Forall (transmissible server_channel) (l_messages finished).
Proof. repeat constructor; vm_compute; intuition discriminate. Qed.

Lemma requests_delivered_witness :
  exists frames reqs,
    feed_all default_options (Ok []) [take 50 (l_sent finished); drop 50 (l_sent finished)] = (frames, Ok [])
    /\ map (fun r => (rq_id r, rq_message r)) reqs = [(1, first_note); (2, second_note)]
    /\ drain (fun _ _ => None) (map (fun m => Some (Ok m)) frames) [] server_channel server_transport
       = Ret (set_received [] (sb_sequence_numbers b7) server_transport, server_channel, IncomingMessages reqs).
Proof.
  apply (requests_delivered (fun _ _ => None) client_channel server_channel toy_keys default_options client_buffer
           server_transport finished [take 50 (l_sent finished); drop 50 (l_sent finished)]
           client_server_connected client_ready client_server_agreed finished_reached finished_transmissible);
    vm_compute; reflexivity.
Defined.

Lemma sending_can_complete_witness :
  exists l', rtc traffic_step (link_new client_buffer client_channel) l' /\ l_messages l' = @nil (Z * Note)
    /\ in_flight (l_buffer l') = [] /\ sb_chunks (l_buffer l') = [].
Proof.
  apply (sending_can_complete client_channel server_channel toy_keys client_buffer
           (link_new client_buffer client_channel) client_server_connected client_ready);
    [done|apply rtc_refl|constructor].
Defined.

(** A request and then one whose payload is cut short, in the same read. *)
Definition cut_body : bytes := concat (node_id_encode (type_id first_note)) ++ [6; 0; 0; 0].
Definition cut_header : MessageChunkHeader :=
  {| message_type := CtMessage; is_final := Final; message_size := 24 + zlen cut_body; header_channel_id := 7 |}.
Definition cut_frame : bytes :=
  secured_chunk client_channel toy_keys cut_header 3 {| sequence_number := 2; Chunk.request_id := 2 |} cut_body.
Definition first_frame : bytes := in_flight b2.

Lemma drained_requests_lost_witness :
  exists t2, drain (Req := Note) (fun _ _ => Some 6) ([Some (Ok (TChunk first_frame))] ++ [Some (Ok (TChunk cut_frame))]) []
               server_channel server_transport
             = Ret (t2, server_channel, RecoverableError BadDecodingError 2 6).
Proof.
  eexists. eapply (drained_requests_lost (fun _ _ => Some 6) [Some (Ok (TChunk first_frame))] (Ok (TChunk cut_frame)) []
    server_channel server_transport); [set_solver|vm_compute; reflexivity..].
Defined.

Definition abort_header : MessageChunkHeader :=
  {| message_type := CtMessage; is_final := FinalError; message_size := 24 + zlen [0; 0; 5; 128; 255; 255; 255; 255];
     header_channel_id := 7 |}.
Definition later_transport : Transport (Rsp := Note) := set_received [] (sn_new_at true 51) server_transport.

Lemma abort_desynchronizes_witness :
  let q n := {| sequence_number := n; Chunk.request_id := 9 |} in
  let abort := secured_chunk client_channel toy_keys abort_header 3 (q 51) [0; 0; 5; 128; 255; 255; 255; 255] in
  let next := secured_chunk client_channel toy_keys cut_header 3 (q 52) cut_body in
  process_message (Req := Note) (fun _ _ => None) (TChunk abort) server_channel later_transport
    = Ret (clear_pending_chunks later_transport, server_channel, Ok None)
  /\ process_message (Req := Note) (fun _ _ => None) (TChunk next) server_channel (clear_pending_chunks later_transport)
     = Ret (clear_pending_chunks later_transport, server_channel, Err (error_of BadSequenceNumberInvalid)).
Proof.
  intros q abort next.
  apply (abort_desynchronizes (fun _ _ => None) client_channel server_channel toy_keys 8192 abort_header (q 51)
           [0; 0; 5; 128; 255; 255; 255; 255] cut_header (q 52) cut_body later_transport client_server_connected);
    first [reflexivity|discriminate|vm_compute; intuition discriminate].
Defined.
