(* ===== verification/DataChangeFilter.v ===== *)
(** * Data change filters

    Models [async-opcua-server/src/subscriptions/monitored_item/filters.rs]: parsing of a
    [DataChangeFilter], deadbands, and the decision whether a new data value differs from the last
    reported one. *)

From S2P Require Import Prelude Text Float StatusCode NumericRange Variant.

Inductive DataChangeTrigger : Set := Status | StatusValue | StatusValueTimestamp.

(** The request structure of the filter. *)
Record DataChangeFilter := {
  df_trigger : DataChangeTrigger;
  df_deadband_type : Z;
  df_deadband_value : f64
}.

Record PercentDeadband := { pd_low : f64; pd_range : f64; pd_trigger : f64 }.

Inductive Deadband : Type :=
| DeadbandNone
| Absolute (deadband : f64)
| Percent (p : PercentDeadband).

Record ParsedDataChangeFilter := { trigger : DataChangeTrigger; deadband : Deadband }.

Inductive DeadbandType : Set := DTNone | DTAbsolute | DTPercent.

Definition percent_update_eu_range (p : PercentDeadband) (low high : f64) : PercentDeadband :=
  {| pd_low := low; pd_range := f64_sub high low; pd_trigger := pd_trigger p |}.

Definition deadband_update_eu_range (d : Deadband) (low high : f64) : Deadband :=
  match d with Percent p => Percent (percent_update_eu_range p low high) | _ => d end.

Definition update_eu_range (f : ParsedDataChangeFilter) (low high : f64) : ParsedDataChangeFilter :=
  {| trigger := trigger f; deadband := deadband_update_eu_range (deadband f) low high |}.

(** [u32 -> i32 -> DeadbandType]: both conversions fail with the same status. *)
Definition deadband_type_of_u32 (t : Z) : result DeadbandType StatusCode :=
  if i32_max <? t then Err BadDeadbandFilterInvalid
  else if t =? 0 then Ok DTNone
  else if t =? 1 then Ok DTAbsolute
  else if t =? 2 then Ok DTPercent
  else Err BadDeadbandFilterInvalid.

Definition parse (filter : DataChangeFilter) (eu_range : option (f64 * f64))
    : result ParsedDataChangeFilter StatusCode :=
  let? ty := deadband_type_of_u32 (df_deadband_type filter) in
  let v := df_deadband_value filter in
  let? d :=
    match ty with
    | DTNone => Ok DeadbandNone
    | DTAbsolute => if f64_lt v f64_zero then Err BadDeadbandFilterInvalid else Ok (Absolute v)
    | DTPercent =>
        if f64_lt v f64_zero || f64_gt v (f64_of_Z 100) then Err BadDeadbandFilterInvalid
        else
          match eu_range with
          | None => Err BadDeadbandFilterInvalid
          | Some (low, high) =>
              if f64_ge low high then Err BadDeadbandFilterInvalid
              else Ok (Percent {| pd_low := low; pd_range := f64_sub high low;
                                  pd_trigger := f64_div v (f64_of_Z 100) |})
          end
    end in
  Ok {| trigger := df_trigger filter; deadband := d |}.

Section changes.
Context {D : DynEncodable}.

(** The comparison of two values that are not both arrays. *)
Definition scalar_changed (d : Deadband) (v1 v2 : Variant) : bool :=
  match d with
  | DeadbandNone => negb (variant_eqb v1 v2)
  | Absolute deadband =>
      match as_f64 v1, as_f64 v2 with
      | Some x1, Some x2 => f64_gt (f64_abs (f64_sub x1 x2)) deadband
      | _, _ => true
      end
  | Percent p =>
      match as_f64 v1, as_f64 v2 with
      | Some x1, Some x2 =>
          let v1_pct := f64_div (f64_sub x1 (pd_low p)) (pd_range p) in
          let v2_pct := f64_div (f64_sub x2 (pd_low p)) (pd_range p) in
          f64_gt (f64_abs (f64_sub v1_pct v2_pct)) (pd_trigger p)
      | _, _ => true
      end
  end.

Fixpoint is_changed_value (d : Deadband) (v1 v2 : Variant) {struct v1} : bool :=
  match v1, v2 with
  | VArray a1, VArray a2 =>
      if negb (Nat.eqb (length (values a1)) (length (values a2))) then true
      else
        (fix any (l1 l2 : list Variant) : bool :=
           match l1, l2 with
           | x1 :: l1', x2 :: l2' => is_changed_value d x1 x2 || any l1' l2'
           | _, _ => false
           end) (values a1) (values a2)
  | _, _ => scalar_changed d v1 v2
  end.

Definition is_changed_option (d : Deadband) (v1 v2 : option Variant) : bool :=
  match v1, v2 with
  | Some _, None | None, Some _ => true
  | None, None => false
  | Some v1, Some v2 => is_changed_value d v1 v2
  end.

Definition option_neqb {A} `{EqDecision A} (x y : option A) : bool := negb (bool_decide (x = y)).

Definition is_changed (f : ParsedDataChangeFilter) (new old : DataValue) : bool :=
  match trigger f with
  | Status => option_neqb (dv_status new) (dv_status old)
  | StatusValue =>
      option_neqb (dv_status new) (dv_status old)
      || is_changed_option (deadband f) (dv_value new) (dv_value old)
  | StatusValueTimestamp =>
      option_neqb (dv_status new) (dv_status old)
      || option_neqb (source_timestamp new) (source_timestamp old)
      || option_neqb (source_picoseconds new) (source_picoseconds old)
      || is_changed_option (deadband f) (dv_value new) (dv_value old)
  end.

End changes.

(** ** Properties *)

Lemma f64_ge_lt a b : is_nan a = false -> is_nan b = false -> f64_ge a b = false -> f64_lt a b = true.
Proof.
  unfold f64_ge, f64_lt, SFleb, SFltb. intros Ha Hb.
  destruct (SFcompare a b) as [c|] eqn:Hc; [|apply SFcompare_None in Hc as [?|?]; congruence].
  assert (SFcompare b a = Some (CompOpp c)) as ->; [|by destruct c].
  revert Hc. destruct a as [[]|[]| |[] ma ea], b as [[]|[]| |[] mb eb]; simpl in *;
    try congruence; try (by intros [= <-]);
    rewrite (Z.compare_antisym ea eb); destruct (ea ?= eb)%Z; simpl; try (by intros [= <-]);
    intros [= <-]; f_equal; rewrite ?CompOpp_involutive;
    change (Pos.compare_cont Eq ?x ?y) with (Pos.compare x y); rewrite ?(Pos.compare_antisym ma mb);
    by rewrite ?CompOpp_involutive.
Qed.

(** A parsed filter is valid: an absolute deadband is not negative, a percent deadband lies
    between 0 and 100, is divided by 100, and comes with an engineering-unit range whose low bound
    is not above or equal to its high bound; and no deadband type but 0, 1 and 2 parses. *)
Theorem parse_valid (filter : DataChangeFilter) (eu_range : option (f64 * f64)) (f : ParsedDataChangeFilter) :
  parse filter eu_range = Ok f ->
  trigger f = df_trigger filter
  /\ match deadband f with
     | DeadbandNone => df_deadband_type filter = 0
     | Absolute d => df_deadband_type filter = 1 /\ d = df_deadband_value filter /\ f64_lt d f64_zero = false
     | Percent p =>
         df_deadband_type filter = 2
         /\ f64_lt (df_deadband_value filter) f64_zero = false
         /\ f64_gt (df_deadband_value filter) (f64_of_Z 100) = false
         /\ pd_trigger p = f64_div (df_deadband_value filter) (f64_of_Z 100)
         /\ exists high, eu_range = Some (pd_low p, high) /\ f64_ge (pd_low p) high = false
            /\ pd_range p = f64_sub high (pd_low p)
            /\ (is_nan (pd_low p) = false -> is_nan high = false -> f64_lt (pd_low p) high = true)
     end.
Proof.
  unfold parse. intros (ty & Hty & (d & Hd & [= <-])%result_bind_ok)%result_bind_ok.
  split; [done|]. simpl. unfold deadband_type_of_u32 in Hty.
  destruct (i32_max <? _); [done|].
  destruct (Z.eqb_spec (df_deadband_type filter) 0) as [H0|]; [by simplify_eq|].
  destruct (Z.eqb_spec (df_deadband_type filter) 1) as [H1|].
  { simplify_eq. destruct (f64_lt _ _) eqn:Hlt; simplify_eq. done. }
  destruct (Z.eqb_spec (df_deadband_type filter) 2) as [H2|]; [|done]. simplify_eq.
  destruct (f64_lt _ _) eqn:Hlt; [done|]. destruct (f64_gt _ _) eqn:Hgt; [done|]. simpl in Hd.
  destruct eu_range as [[low high]|]; [|done]. destruct (f64_ge low high) eqn:Hge; [done|].
  injection Hd as <-. simpl. repeat split; try done. exists high. repeat split; try done.
  intros ? ?. by apply f64_ge_lt.
Qed.

Lemma parse_valid_witness :
  let filter := {| df_trigger := StatusValue; df_deadband_type := 2; df_deadband_value := f64_of_Z 10 |} in
  let eu := (f64_zero, f64_of_Z 50) in
  let f := {| trigger := StatusValue;
              deadband := Percent {| pd_low := f64_zero; pd_range := f64_of_Z 50;
                                     pd_trigger := f64_div (f64_of_Z 10) (f64_of_Z 100) |} |} in
  parse filter (Some eu) = Ok f /\ f64_gt (f64_of_Z 10) (f64_of_Z 100) = false.
Proof.
  cbv zeta. split; [vm_compute; reflexivity|].
  eassert (H : parse {| df_trigger := StatusValue; df_deadband_type := 2; df_deadband_value := f64_of_Z 10 |}
            (Some (f64_zero, f64_of_Z 50)) = Ok _) by (vm_compute; reflexivity).
  destruct (parse_valid _ _ _ H) as (_ & _ & _ & Hgt & _). exact Hgt.
Defined.

Section array_changes.
Context {D : DynEncodable}.

(** Two arrays differ for a filter exactly when their lengths differ or two elements at the same
    position differ; the dimensions of the arrays do not matter. *)
Theorem array_is_changed_spec (d : Deadband) (a1 a2 : Array) :
  is_changed_value d (VArray a1) (VArray a2) = true <->
  length (values a1) <> length (values a2)
  \/ exists i x1 x2, values a1 !! i = Some x1 /\ values a2 !! i = Some x2 /\ is_changed_value d x1 x2 = true.
Proof.
  simpl. destruct (Nat.eqb_spec (length (values a1)) (length (values a2))) as [Hlen|Hlen]; simpl.
  2: { split; [by left|done]. }
  transitivity (exists i x1 x2, values a1 !! i = Some x1 /\ values a2 !! i = Some x2
                /\ is_changed_value d x1 x2 = true); [|split; [by right|by intros [?|?]]].
  clear Hlen. generalize (values a2) as l2. generalize (values a1) as l1. clear.
  induction l1 as [|x1 l1 IH]; intros [|x2 l2].
  - split; [done|]. by intros (i & ? & ? & ? & _).
  - split; [done|]. by intros (i & ? & ? & ? & _).
  - split; [done|]. by intros (i & ? & ? & _ & ? & _).
  - rewrite orb_true_iff, IH. split.
    + intros [H|(i & y1 & y2 & H)]; [by exists 0%nat, x1, x2|by exists (S i), y1, y2].
    + intros ([|i] & y1 & y2 & H1 & H2 & H); simpl in *; [left; congruence|right; by exists i, y1, y2].
Qed.

End array_changes.
