(* ===== verification/MonitoredItem.v ===== *)
(** * Monitored items

    Models [async-opcua-server/src/subscriptions/monitored_item.rs] (with its [triggering.rs]) in
    the default build (events, standard subscriptions and history aggregates enabled): requests,
    sanitised parameters, filters, sampling, and the notification queue.

    Interfaces of other parts: [Chrono] (the calendar library), [EventModel] (the event filters of
    [services/subscription/filter]) and [AggregateEngine] (the Part-13 engine of [aggregates/]).
    A [DateTime] is a number of nanoseconds, a multiple of 100. *)

From S2P Require Import Prelude Text Float StatusCode NumericRange Variant Limits DataChangeFilter.

(** ** Interfaces *)

(** chrono's date arithmetic: additions that leave the calendar's range fail. *)
Class Chrono := {
  checked_add_signed : Z -> Z -> option Z;
  checked_add_signed_spec : forall t d r, checked_add_signed t d = Some r -> r = t + d;
  (** [TimeDelta::MAX]. *)
  time_delta_max : Z
}.

Record EventFieldList `{DynEncodable} := { ef_client_handle : Z; ef_event_fields : option (list Variant) }.

(** The event filters of a server and their evaluation under its type tree. *)
Class EventModel `{DynEncodable} := {
  event : Type;
  EventFilter : Type;
  ParsedEventFilter : Type;
  where_clause_result : Type;
  (** The select-clause results and the where-clause result of parsing a filter, and the filter. *)
  parse_event_filter : EventFilter ->
    option (list StatusCode) * where_clause_result * result ParsedEventFilter StatusCode;
  evaluate : ParsedEventFilter -> event -> Z -> option EventFieldList;
  (** [BaseEventType::new(EventQueueOverflowEventType, random bytes, .., now)]. *)
  overflow_event_at : list Z -> DateTime -> event
}.

Record AggregateInput `{DynEncodable} (config : Type) := {
  ai_values : list DataValue;
  ai_prior : option DataValue;
  ai_next : option DataValue;
  ai_interval_start : DateTime;
  ai_interval_end : DateTime;
  ai_config : config;
  ai_stepped : bool
}.

Class AggregateEngine `{DynEncodable} := {
  AggregateConfiguration : Type;
  dispatch_aggregate : NodeId -> AggregateInput AggregateConfiguration -> DataValue
}.

(** ** Requests and filters *)

Inductive DataEncoding : Type := DEBinary | DEXML | DEJSON | DEOther (name : QualifiedName).

Definition from_browse_name (name : QualifiedName) : result DataEncoding StatusCode :=
  let s := ua_as_ref (qname name) in
  if bool_decide (s = str "Default Binary") || bool_decide (s = []) then Ok DEBinary
  else if bool_decide (s = str "Default XML") then Ok DEXML
  else if bool_decide (s = str "Default JSON") then Ok DEJSON
  else if negb (namespace_index name =? 0) then Ok (DEOther name)
  else Err BadDataEncodingInvalid.

(** An [AttributeId] is its number, from 1 to 27. *)
Definition attribute_from_u32 (a : Z) : option Z := if (1 <=? a) && (a <=? 27) then Some a else None.

Record ReadValueId := {
  rv_node_id : NodeId; rv_attribute_id : Z; rv_index_range : NumericRange; rv_data_encoding : QualifiedName
}.
Record ParsedReadValueId := {
  pr_node_id : NodeId; pr_attribute_id : Z; pr_index_range : NumericRange; pr_data_encoding : DataEncoding
}.
Definition null_node_id : NodeId := {| namespace := 0; identifier := IdNumeric 0 |}.
Definition parse_read_value_id (val : ReadValueId) : result ParsedReadValueId StatusCode :=
  let? attribute_id := ok_or (attribute_from_u32 (rv_attribute_id val)) BadAttributeIdInvalid in
  let? encoding := from_browse_name (rv_data_encoding val) in
  Ok {| pr_node_id := rv_node_id val; pr_attribute_id := attribute_id;
        pr_index_range := rv_index_range val; pr_data_encoding := encoding |}.
Definition null_read_value_id : ParsedReadValueId :=
  {| pr_node_id := null_node_id; pr_attribute_id := 1; pr_index_range := NRNone; pr_data_encoding := DEBinary |}.

(** [Invalid] carries an unknown wire value. *)
Inductive MonitoringMode : Type := Disabled | Sampling | Reporting | InvalidMode (raw : Z).
Inductive TimestampsToReturn : Set := Source | Server | Both | Neither | InvalidTimestamps.
#[export] Instance MonitoringMode_eq_dec : EqDecision MonitoringMode.
Proof. solve_decision. Defined.

(** [TimeDelta]: nanoseconds. *)
Inductive SamplingInterval : Type := SISubscription | SIZero | SINonZero (interval : Z).

(** The built-in aggregate functions (namespace 0). *)
Definition SUPPORTED_AGGREGATE_IDS : list Z :=
  [2341; 2342; 2343; 2344; 2346; 2347; 2348; 2349; 2350; 2351; 11285; 11286; 11287; 11288; 11292;
   11304; 11305; 11306; 2352; 2355; 2359; 2360; 2361; 2362; 2363; 2364; 11307; 11308; 11505; 11506;
   11507; 11426; 11427; 11428; 11429].
Definition supported_aggregates : list NodeId :=
  map (fun id => {| namespace := 0; identifier := IdNumeric id |}) SUPPORTED_AGGREGATE_IDS.

(** [sanitize_sampling_interval], [sanitize_queue_size]. *)
Definition sanitize_sampling_interval (info : SubscriptionLimits) (requested : f64) : f64 :=
  if f64_lt requested f64_zero || negb (is_finite requested) then f64_of_Z (-1)
  else if f64_eq requested f64_zero || f64_lt requested (min_sampling_interval_ms info)
       then min_sampling_interval_ms info
       else requested.
Definition sanitize_queue_size (info : SubscriptionLimits) (requested : Z) : Z :=
  if (requested =? 0) || (requested =? 1) then 1
  else if max_monitored_item_queue_size info <? requested then max_monitored_item_queue_size info
  else requested.

Section monitored_item.
Context {D : DynEncodable} {C : Chrono} {E : EventModel} {A : AggregateEngine}.

Record AggregateFilter := {
  af_start_time : DateTime;
  af_aggregate_type : NodeId;
  af_processing_interval : f64;
  af_configuration : AggregateConfiguration
}.
Record ParsedAggregateFilter := {
  aggregate_type : NodeId; processing_interval : f64; agg_config : AggregateConfiguration
}.

(** The filter of a request: an extension object of one of the filter types, of another type, or null. *)
Inductive MonitoringFilter : Type :=
| MFNull | MFDataChange (f : DataChangeFilter) | MFEvent (f : EventFilter)
| MFAggregate (f : AggregateFilter) | MFOther.

(** The filter result of a response. *)
Inductive FilterResult : Type :=
| EventFilterResult (select_clause_results : option (list StatusCode))
    (select_clause_diagnostic_infos : option (list DiagnosticInfo)) (where_clause : where_clause_result)
| AggregateFilterResult (revised_start_time : DateTime) (revised_processing_interval : f64)
    (revised_configuration : AggregateConfiguration).

Inductive FilterType : Type :=
| FTNone | FTDataChange (f : ParsedDataChangeFilter) | FTEvent (f : ParsedEventFilter)
| FTAggregate (f : ParsedAggregateFilter).

Definition parse_aggregate_filter (filter : AggregateFilter)
    : FilterResult * result ParsedAggregateFilter StatusCode :=
  let res := AggregateFilterResult (af_start_time filter) (af_processing_interval filter)
                                   (af_configuration filter) in
  if negb (existsb (fun id => bool_decide (id = af_aggregate_type filter)) supported_aggregates)
  then (res, Err BadAggregateNotSupported)
  else if negb (is_finite (af_processing_interval filter)) || f64_le (af_processing_interval filter) f64_zero
  then (res, Err BadAggregateInvalidInputs)
  else (res, Ok {| aggregate_type := af_aggregate_type filter;
                   processing_interval := af_processing_interval filter;
                   agg_config := af_configuration filter |}).

Definition default_diagnostic_info : DiagnosticInfo := DiagInfo None None None None None None None.

Definition result_map {X Y Err} (f : X -> Y) (r : result X Err) : result Y Err :=
  match r with Ok x => Ok (f x) | Prelude.Err e => Prelude.Err e end.

(** [from_filter]; [diagnostics]: some diagnostic bit is set. *)
Definition from_filter (filter : MonitoringFilter) (eu_range : option (f64 * f64)) (diagnostics : bool)
    : option FilterResult * result FilterType StatusCode :=
  match filter with
  | MFNull => (None, Ok FTNone)
  | MFDataChange v => (None, result_map FTDataChange (parse v eu_range))
  | MFEvent v =>
      let '(select_clause_results, where_clause, filter_res) := parse_event_filter v in
      let infos :=
        if diagnostics
        then (fun l => repeat default_diagnostic_info (length l)) <$> select_clause_results
        else None in
      (Some (EventFilterResult select_clause_results infos where_clause), result_map FTEvent filter_res)
  | MFAggregate v =>
      let '(res, filter_res) := parse_aggregate_filter v in
      (Some res, result_map FTAggregate filter_res)
  | MFOther => (None, Err BadFilterNotAllowed)
  end.

Record MonitoringParameters := {
  rp_client_handle : Z;
  rp_sampling_interval : f64;
  rp_filter : MonitoringFilter;
  rp_queue_size : Z;
  rp_discard_oldest : bool
}.
Record MonitoredItemCreateRequest := {
  cr_item_to_monitor : ReadValueId;
  cr_monitoring_mode : MonitoringMode;
  cr_requested_parameters : MonitoringParameters
}.
Record MonitoredItemModifyRequest := {
  mr_monitored_item_id : Z;
  mr_requested_parameters : MonitoringParameters
}.

Record CreateMonitoredItem := mkCreateMonitoredItem {
  cm_id : Z;
  cm_subscription_id : Z;
  cm_item_to_monitor : ParsedReadValueId;
  cm_monitoring_mode : MonitoringMode;
  cm_client_handle : Z;
  cm_discard_oldest : bool;
  cm_queue_size : Z;
  cm_sampling_interval : f64;
  cm_initial_value : option DataValue;
  cm_status_code : StatusCode;
  cm_filter : FilterType;
  cm_filter_res : option FilterResult;
  cm_timestamps_to_return : TimestampsToReturn;
  cm_eu_range : option (f64 * f64)
}.

(** [CreateMonitoredItem::new]: the status stays [BadNodeIdUnknown] until a node manager sets it. *)
Definition create_monitored_item (req : MonitoredItemCreateRequest) (id sub_id : Z) (info : SubscriptionLimits)
    (timestamps_to_return : TimestampsToReturn) (diagnostics : bool) (eu_range : option (f64 * f64))
    : CreateMonitoredItem :=
  let params := cr_requested_parameters req in
  let '(filter_res, filter) := from_filter (rp_filter params) eu_range diagnostics in
  let '(filter, status) :=
    match filter with Ok s => (s, BadNodeIdUnknown) | Err e => (FTNone, e) end in
  let '(item_to_monitor, status) :=
    match parse_read_value_id (cr_item_to_monitor req) with
    | Ok r => (r, status)
    | Err e => (null_read_value_id, e)
    end in
  {| cm_id := id; cm_subscription_id := sub_id; cm_item_to_monitor := item_to_monitor;
     cm_monitoring_mode := cr_monitoring_mode req; cm_client_handle := rp_client_handle params;
     cm_discard_oldest := rp_discard_oldest params;
     cm_queue_size := sanitize_queue_size info (rp_queue_size params);
     cm_sampling_interval := sanitize_sampling_interval info (rp_sampling_interval params);
     cm_initial_value := None; cm_status_code := status; cm_filter := filter; cm_filter_res := filter_res;
     cm_timestamps_to_return := timestamps_to_return; cm_eu_range := eu_range |}.

(** [revise_queue_size], [revise_sampling_interval]: the revised parameter. *)
Definition revise_queue_size (current queue_size : Z) : Z :=
  if ((queue_size <? current) && (0 <? queue_size)) || (current =? 0) then queue_size else current.
Definition revise_sampling_interval (current sampling_interval : f64) : f64 :=
  if (f64_lt sampling_interval current && f64_gt sampling_interval f64_zero) || f64_eq current f64_zero
  then sampling_interval else current.

(** ** The item *)

Record MonitoredItemNotification := { mn_client_handle : Z; mn_value : DataValue }.

Inductive Notification : Type :=
| NData (n : MonitoredItemNotification)
| NEvent (e : EventFieldList).

Record MonitoredItem := mkMonitoredItem {
  mi_id : Z;
  mi_item_to_monitor : ParsedReadValueId;
  mi_monitoring_mode : MonitoringMode;
  mi_triggered_items : gset Z;
  mi_client_handle : Z;
  mi_sampling_interval : SamplingInterval;
  mi_filter : FilterType;
  mi_discard_oldest : bool;
  mi_queue_size : Z;
  mi_notification_queue : list Notification;
  mi_overflow_event : option EventFieldList;
  mi_timestamps_to_return : TimestampsToReturn;
  mi_last_data_value : option DataValue;
  (** [sample_skipped_data_value]. *)
  mi_skipped : option DataValue;
  (** [sample_skipped_before_semantics_changed]. *)
  mi_skipped_before_semantics_changed : bool;
  mi_any_new_notification : bool;
  mi_eu_range : option (f64 * f64);
  mi_semantics_changed : bool;
  mi_aggregate_buffer : list DataValue;
  mi_aggregate_next_deadline : option DateTime
}.

Definition mi_set_monitoring_mode (v : MonitoringMode) (i : MonitoredItem) : MonitoredItem :=
  mkMonitoredItem (mi_id i) (mi_item_to_monitor i) v (mi_triggered_items i) (mi_client_handle i)
    (mi_sampling_interval i) (mi_filter i) (mi_discard_oldest i) (mi_queue_size i)
    (mi_notification_queue i) (mi_overflow_event i) (mi_timestamps_to_return i)
    (mi_last_data_value i) (mi_skipped i) (mi_skipped_before_semantics_changed i)
    (mi_any_new_notification i) (mi_eu_range i) (mi_semantics_changed i) (mi_aggregate_buffer i)
    (mi_aggregate_next_deadline i).
Definition mi_set_triggered_items (v : gset Z) (i : MonitoredItem) : MonitoredItem :=
  mkMonitoredItem (mi_id i) (mi_item_to_monitor i) (mi_monitoring_mode i) v (mi_client_handle i)
    (mi_sampling_interval i) (mi_filter i) (mi_discard_oldest i) (mi_queue_size i)
    (mi_notification_queue i) (mi_overflow_event i) (mi_timestamps_to_return i)
    (mi_last_data_value i) (mi_skipped i) (mi_skipped_before_semantics_changed i)
    (mi_any_new_notification i) (mi_eu_range i) (mi_semantics_changed i) (mi_aggregate_buffer i)
    (mi_aggregate_next_deadline i).
Definition mi_set_filter (v : FilterType) (i : MonitoredItem) : MonitoredItem :=
  mkMonitoredItem (mi_id i) (mi_item_to_monitor i) (mi_monitoring_mode i) (mi_triggered_items i)
    (mi_client_handle i) (mi_sampling_interval i) v (mi_discard_oldest i) (mi_queue_size i)
    (mi_notification_queue i) (mi_overflow_event i) (mi_timestamps_to_return i)
    (mi_last_data_value i) (mi_skipped i) (mi_skipped_before_semantics_changed i)
    (mi_any_new_notification i) (mi_eu_range i) (mi_semantics_changed i) (mi_aggregate_buffer i)
    (mi_aggregate_next_deadline i).
Definition mi_set_notification_queue (v : list Notification) (i : MonitoredItem) : MonitoredItem :=
  mkMonitoredItem (mi_id i) (mi_item_to_monitor i) (mi_monitoring_mode i) (mi_triggered_items i)
    (mi_client_handle i) (mi_sampling_interval i) (mi_filter i) (mi_discard_oldest i)
    (mi_queue_size i) v (mi_overflow_event i) (mi_timestamps_to_return i) (mi_last_data_value i)
    (mi_skipped i) (mi_skipped_before_semantics_changed i) (mi_any_new_notification i)
    (mi_eu_range i) (mi_semantics_changed i) (mi_aggregate_buffer i) (mi_aggregate_next_deadline
    i).
Definition mi_set_overflow_event (v : option EventFieldList) (i : MonitoredItem) : MonitoredItem :=
  mkMonitoredItem (mi_id i) (mi_item_to_monitor i) (mi_monitoring_mode i) (mi_triggered_items i)
    (mi_client_handle i) (mi_sampling_interval i) (mi_filter i) (mi_discard_oldest i)
    (mi_queue_size i) (mi_notification_queue i) v (mi_timestamps_to_return i)
    (mi_last_data_value i) (mi_skipped i) (mi_skipped_before_semantics_changed i)
    (mi_any_new_notification i) (mi_eu_range i) (mi_semantics_changed i) (mi_aggregate_buffer i)
    (mi_aggregate_next_deadline i).
Definition mi_set_timestamps_to_return (v : TimestampsToReturn) (i : MonitoredItem) : MonitoredItem :=
  mkMonitoredItem (mi_id i) (mi_item_to_monitor i) (mi_monitoring_mode i) (mi_triggered_items i)
    (mi_client_handle i) (mi_sampling_interval i) (mi_filter i) (mi_discard_oldest i)
    (mi_queue_size i) (mi_notification_queue i) (mi_overflow_event i) v (mi_last_data_value i)
    (mi_skipped i) (mi_skipped_before_semantics_changed i) (mi_any_new_notification i)
    (mi_eu_range i) (mi_semantics_changed i) (mi_aggregate_buffer i) (mi_aggregate_next_deadline
    i).
Definition mi_set_last_data_value (v : option DataValue) (i : MonitoredItem) : MonitoredItem :=
  mkMonitoredItem (mi_id i) (mi_item_to_monitor i) (mi_monitoring_mode i) (mi_triggered_items i)
    (mi_client_handle i) (mi_sampling_interval i) (mi_filter i) (mi_discard_oldest i)
    (mi_queue_size i) (mi_notification_queue i) (mi_overflow_event i) (mi_timestamps_to_return
    i) v (mi_skipped i) (mi_skipped_before_semantics_changed i) (mi_any_new_notification i)
    (mi_eu_range i) (mi_semantics_changed i) (mi_aggregate_buffer i) (mi_aggregate_next_deadline
    i).
Definition mi_set_skipped (v : option DataValue) (i : MonitoredItem) : MonitoredItem :=
  mkMonitoredItem (mi_id i) (mi_item_to_monitor i) (mi_monitoring_mode i) (mi_triggered_items i)
    (mi_client_handle i) (mi_sampling_interval i) (mi_filter i) (mi_discard_oldest i)
    (mi_queue_size i) (mi_notification_queue i) (mi_overflow_event i) (mi_timestamps_to_return
    i) (mi_last_data_value i) v (mi_skipped_before_semantics_changed i) (mi_any_new_notification
    i) (mi_eu_range i) (mi_semantics_changed i) (mi_aggregate_buffer i)
    (mi_aggregate_next_deadline i).
Definition mi_set_skipped_before_semantics_changed (v : bool) (i : MonitoredItem) : MonitoredItem :=
  mkMonitoredItem (mi_id i) (mi_item_to_monitor i) (mi_monitoring_mode i) (mi_triggered_items i)
    (mi_client_handle i) (mi_sampling_interval i) (mi_filter i) (mi_discard_oldest i)
    (mi_queue_size i) (mi_notification_queue i) (mi_overflow_event i) (mi_timestamps_to_return
    i) (mi_last_data_value i) (mi_skipped i) v (mi_any_new_notification i) (mi_eu_range i)
    (mi_semantics_changed i) (mi_aggregate_buffer i) (mi_aggregate_next_deadline i).
Definition mi_set_any_new_notification (v : bool) (i : MonitoredItem) : MonitoredItem :=
  mkMonitoredItem (mi_id i) (mi_item_to_monitor i) (mi_monitoring_mode i) (mi_triggered_items i)
    (mi_client_handle i) (mi_sampling_interval i) (mi_filter i) (mi_discard_oldest i)
    (mi_queue_size i) (mi_notification_queue i) (mi_overflow_event i) (mi_timestamps_to_return
    i) (mi_last_data_value i) (mi_skipped i) (mi_skipped_before_semantics_changed i) v
    (mi_eu_range i) (mi_semantics_changed i) (mi_aggregate_buffer i) (mi_aggregate_next_deadline
    i).
Definition mi_set_eu_range (v : option (f64 * f64)) (i : MonitoredItem) : MonitoredItem :=
  mkMonitoredItem (mi_id i) (mi_item_to_monitor i) (mi_monitoring_mode i) (mi_triggered_items i)
    (mi_client_handle i) (mi_sampling_interval i) (mi_filter i) (mi_discard_oldest i)
    (mi_queue_size i) (mi_notification_queue i) (mi_overflow_event i) (mi_timestamps_to_return
    i) (mi_last_data_value i) (mi_skipped i) (mi_skipped_before_semantics_changed i)
    (mi_any_new_notification i) v (mi_semantics_changed i) (mi_aggregate_buffer i)
    (mi_aggregate_next_deadline i).
Definition mi_set_semantics_changed (v : bool) (i : MonitoredItem) : MonitoredItem :=
  mkMonitoredItem (mi_id i) (mi_item_to_monitor i) (mi_monitoring_mode i) (mi_triggered_items i)
    (mi_client_handle i) (mi_sampling_interval i) (mi_filter i) (mi_discard_oldest i)
    (mi_queue_size i) (mi_notification_queue i) (mi_overflow_event i) (mi_timestamps_to_return
    i) (mi_last_data_value i) (mi_skipped i) (mi_skipped_before_semantics_changed i)
    (mi_any_new_notification i) (mi_eu_range i) v (mi_aggregate_buffer i)
    (mi_aggregate_next_deadline i).
Definition mi_set_aggregate_buffer (v : list DataValue) (i : MonitoredItem) : MonitoredItem :=
  mkMonitoredItem (mi_id i) (mi_item_to_monitor i) (mi_monitoring_mode i) (mi_triggered_items i)
    (mi_client_handle i) (mi_sampling_interval i) (mi_filter i) (mi_discard_oldest i)
    (mi_queue_size i) (mi_notification_queue i) (mi_overflow_event i) (mi_timestamps_to_return
    i) (mi_last_data_value i) (mi_skipped i) (mi_skipped_before_semantics_changed i)
    (mi_any_new_notification i) (mi_eu_range i) (mi_semantics_changed i) v
    (mi_aggregate_next_deadline i).
Definition mi_set_aggregate_next_deadline (v : option DateTime) (i : MonitoredItem) : MonitoredItem :=
  mkMonitoredItem (mi_id i) (mi_item_to_monitor i) (mi_monitoring_mode i) (mi_triggered_items i)
    (mi_client_handle i) (mi_sampling_interval i) (mi_filter i) (mi_discard_oldest i)
    (mi_queue_size i) (mi_notification_queue i) (mi_overflow_event i) (mi_timestamps_to_return
    i) (mi_last_data_value i) (mi_skipped i) (mi_skipped_before_semantics_changed i)
    (mi_any_new_notification i) (mi_eu_range i) (mi_semantics_changed i) (mi_aggregate_buffer i)
    v.

(** [DateTime::from(DateTimeUtc)]: rounded down to 100 ns. *)
Definition datetime_from (t : Z) : DateTime := t / 100 * 100.

Definition add_millis (time : DateTime) (millis : f64) : DateTime :=
  match checked_add_signed time (f64_as_i64 (f64_mul millis (f64_of_Z 1000)) * 1000) with
  | Some t => datetime_from t
  | None => time
  end.

Definition parse_sampling_interval (int : f64) : SamplingInterval :=
  if f64_lt int f64_zero then SISubscription
  else if f64_eq int f64_zero then SIZero
  else if negb (is_finite int) then SINonZero time_delta_max
  else
    let raw := f64_mul int (f64_of_Z 1000) in
    SINonZero (if f64_gt raw (f64_of_Z i64_max) then time_delta_max else f64_as_i64 raw * 1000).

Definition sampling_interval_as_time_delta (i : MonitoredItem) : Z :=
  match mi_sampling_interval i with SISubscription => 0 | SIZero => 0 | SINonZero d => d end.

(** *** The notification queue *)

Definition notification_semantics_changed (n : Notification) : bool :=
  match n with
  | NData n => semantics_changed (dv_status_or_good (mn_value n))
  | NEvent _ => false
  end.
Definition set_notification_status (f : StatusCode -> StatusCode) (n : MonitoredItemNotification)
    : MonitoredItemNotification :=
  {| mn_client_handle := mn_client_handle n;
     mn_value := dv_set_status (mn_value n) (f (dv_status_or_good (mn_value n))) |}.
Definition set_notification_semantics_changed (n : Notification) : Notification * bool :=
  match n with
  | NData n => (NData (set_notification_status (fun s => set_semantics_changed s true) n), true)
  | NEvent e => (NEvent e, false)
  end.
Definition set_notification_overflow (n : Notification) : Notification :=
  match n with
  | NData n => NData (set_notification_status (fun s => set_overflow s true) n)
  | NEvent e => NEvent e
  end.

(** The first data change of the queue takes the bit; [false]: there is none. *)
Fixpoint carry_to_first (q : list Notification) : list Notification * bool :=
  match q with
  | [] => ([], false)
  | n :: q' =>
      let '(n', set) := set_notification_semantics_changed n in
      if set then (n' :: q', true)
      else let '(q'', found) := carry_to_first q' in (n' :: q'', found)
  end.
Definition carry_semantics_changed (i : MonitoredItem) : MonitoredItem :=
  let '(q, found) := carry_to_first (mi_notification_queue i) in
  let i := mi_set_notification_queue q i in
  if found then i else mi_set_semantics_changed true i.

(** [front_mut]. *)
Definition map_front {T} (f : T -> T) (l : list T) : list T :=
  match l with [] => [] | x :: l' => f x :: l' end.
Definition is_some_and {T} (o : option T) (f : T -> bool) : bool :=
  match o with Some x => f x | None => false end.

Definition enqueue_notification (notification : Notification) (i : MonitoredItem) : MonitoredItem :=
  let i := mi_set_any_new_notification true i in
  let overflow := zlen (mi_notification_queue i) =? mi_queue_size i in
  if negb overflow then mi_set_notification_queue (mi_notification_queue i ++ [notification]) i
  else
    let set_bit := 1 <? mi_queue_size i in
    if mi_discard_oldest i then
      let '(q, dropped) := pop_front (mi_notification_queue i) in
      let discarded := is_some_and dropped notification_semantics_changed in
      let q := q ++ [notification] in
      let q := if set_bit then map_front set_notification_overflow q else q in
      let i := mi_set_notification_queue q i in
      if discarded then carry_semantics_changed i else i
    else
      let '(q, dropped) := pop_back (mi_notification_queue i) in
      let discarded := is_some_and dropped notification_semantics_changed in
      let notification := if set_bit then set_notification_overflow notification else notification in
      let '(notification, i) :=
        if discarded then
          let '(n, set) := set_notification_semantics_changed notification in
          (n, if set then i else mi_set_semantics_changed true i)
        else (notification, i) in
      mi_set_notification_queue (q ++ [notification]) i.

Definition pop_notification (i : MonitoredItem) : option Notification * MonitoredItem :=
  match mi_overflow_event i with
  | Some e =>
      if mi_discard_oldest i then (Some (NEvent e), mi_set_overflow_event None i)
      else
        match pop_front (mi_notification_queue i) with
        | (q, Some n) => (Some n, mi_set_notification_queue q i)
        | (_, None) => (Some (NEvent e), mi_set_overflow_event None i)
        end
  | None =>
      match pop_front (mi_notification_queue i) with
      | (q, Some n) => (Some n, mi_set_notification_queue q i)
      | (_, None) => (None, i)
      end
  end.

Definition has_notifications (i : MonitoredItem) : bool :=
  match mi_notification_queue i, mi_overflow_event i with [], None => false | _, _ => true end.

Definition add_current_value_to_queue (i : MonitoredItem) : MonitoredItem :=
  let already :=
    match head (mi_notification_queue i), mi_last_data_value i with
    | Some (NData it), Some last => data_value_eqb (mn_value it) last
    | _, _ => false
    end in
  if already then i
  else
    match mi_last_data_value i with
    | None => i
    | Some value =>
        enqueue_notification (NData {| mn_client_handle := mi_client_handle i; mn_value := value |}) i
    end.

(** *** Data changes *)

Definition filter_by_sampling_interval (i : MonitoredItem) (old new : DataValue) (from_subscription_tick : bool)
    : bool :=
  match source_timestamp old, source_timestamp new with
  | Some old, Some new =>
      let elapsed := new - old in
      match mi_sampling_interval i with
      | SISubscription => from_subscription_tick
      | SIZero => true
      | SINonZero interval => interval <=? elapsed
      end
  | _, _ => true
  end.

Definition apply_timestamps (t : TimestampsToReturn) (v : DataValue) : DataValue :=
  match t with
  | Neither | InvalidTimestamps => mkDataValue (dv_value v) (dv_status v) None None None None
  | Server => mkDataValue (dv_value v) (dv_status v) None None (server_timestamp v) (server_picoseconds v)
  | Source => mkDataValue (dv_value v) (dv_status v) (source_timestamp v) (source_picoseconds v) None None
  | Both => v
  end.

(** The index range of the item applied to the value. *)
Definition apply_index_range (i : MonitoredItem) (value : DataValue) : outcome DataValue :=
  match pr_index_range (mi_item_to_monitor i) with
  | NRNone => Ret value
  | range =>
      match dv_value value with
      | None => Ret value
      | Some v =>
          let! r := range_of v range in
          Ret (match r with
               | Ok r => dv_set_value value (Some r)
               | Err e => dv_set_value (dv_set_status value e) (Some VEmpty)
               end)
      end
  end.

(** The change filter and the sampling filter against the last value. *)
Definition matches_filters (i : MonitoredItem) (value : DataValue) (from_subscription_tick : bool) : bool * bool :=
  match mi_last_data_value i, mi_filter i with
  | Some last, FTDataChange f =>
      (is_changed f value last, filter_by_sampling_interval i last value from_subscription_tick)
  | Some last, FTNone =>
      (negb (variant_option_eqb (dv_value value) (dv_value last)),
       filter_by_sampling_interval i last value from_subscription_tick)
  | None, _ => (true, true)
  | Some _, _ => (false, false)
  end.

(** A value outside the sampling interval waits for the next sample. *)
Definition skip_value (i : MonitoredItem) (value : DataValue) (now : DateTime) : MonitoredItem :=
  let base := default now (last ← mi_last_data_value i; source_timestamp last) in
  let ts := datetime_from <$> checked_add_signed base (sampling_interval_as_time_delta i) in
  mi_set_skipped_before_semantics_changed false
    (mi_set_skipped (Some (dv_set_source_timestamp value ts)) i).

(** A value that is reported. *)
Definition report_value (i : MonitoredItem) (value : DataValue) : MonitoredItem :=
  let i := mi_set_last_data_value (Some value) i in
  let value := apply_timestamps (mi_timestamps_to_return i) value in
  let '(value, i) :=
    if mi_semantics_changed i
    then (dv_set_status value (set_semantics_changed (dv_status_or_good value) true),
          mi_set_semantics_changed false i)
    else (value, i) in
  enqueue_notification (NData {| mn_client_handle := mi_client_handle i; mn_value := value |}) i.

(** [notify_data_value] after the handling of a skipped value. *)
Definition notify_sample (i : MonitoredItem) (value : DataValue) (now : DateTime)
    (from_subscription_tick extra_enqueued : bool) : outcome (MonitoredItem * bool) :=
  let! value := apply_index_range i value in
  match mi_filter i with
  | FTAggregate _ => Ret (mi_set_aggregate_buffer (mi_aggregate_buffer i ++ [value]) i, true)
  | _ =>
      let '(matches_filter, matches_sampling_interval) := matches_filters i value from_subscription_tick in
      if negb matches_filter then Ret (i, extra_enqueued)
      else if negb matches_sampling_interval then Ret (skip_value i value now, true)
      else Ret (report_value i value, true)
  end.

(** The skipped value may be used if it is in the past and not later than the new value. *)
Definition skipped_is_due (skipped value : DataValue) (now : DateTime) : bool :=
  is_some_and (source_timestamp skipped)
    (fun v => (v <=? now) && match source_timestamp value with Some v2 => v <=? v2 | None => true end).

(** [notify_data_value]; the recursive call on the skipped value finds none itself, and the item is
    not disabled, so it is [notify_sample]. *)
Definition notify_data_value (i : MonitoredItem) (value : DataValue) (now : DateTime)
    (from_subscription_tick : bool) : outcome (MonitoredItem * bool) :=
  if bool_decide (mi_monitoring_mode i = Disabled) then Ret (i, false)
  else
    let! (i, extra_enqueued) :=
      match mi_skipped i with
      | None => Ret (i, false)
      | Some skipped =>
          let before := mi_skipped_before_semantics_changed i in
          let i := mi_set_skipped_before_semantics_changed false (mi_set_skipped None i) in
          if skipped_is_due skipped value now then
            if before then
              let saved := mi_semantics_changed i in
              let! (i, extra) := notify_sample (mi_set_semantics_changed false i) skipped now false false in
              Ret (mi_set_semantics_changed (mi_semantics_changed i || saved) i, extra)
            else notify_sample i skipped now false false
          else Ret (i, false)
      end in
    notify_sample i value now from_subscription_tick extra_enqueued.

Definition maybe_enqueue_skipped_value (i : MonitoredItem) (now : DateTime) : outcome (MonitoredItem * bool) :=
  let before := mi_skipped_before_semantics_changed i in
  let skipped := mi_skipped i in
  let i := mi_set_skipped_before_semantics_changed false (mi_set_skipped None i) in
  match skipped with
  | None => Ret (i, false)
  | Some value =>
      if is_some_and (source_timestamp value) (fun v => v <=? now) then
        if before then
          let saved := mi_semantics_changed i in
          let! (i, _) := notify_data_value (mi_set_semantics_changed false i) value now true in
          Ret (mi_set_semantics_changed (mi_semantics_changed i || saved) i, true)
        else
          let! (i, _) := notify_data_value i value now true in
          Ret (i, true)
      else
        Ret (mi_set_skipped_before_semantics_changed before (mi_set_skipped (Some value) i), false)
  end.

Definition notify_eu_range_changed (i : MonitoredItem) (low high : f64) : MonitoredItem :=
  let i := mi_set_eu_range (Some (low, high)) i in
  let i := match mi_filter i with
           | FTDataChange f => mi_set_filter (FTDataChange (update_eu_range f low high)) i
           | _ => i
           end in
  match mi_filter i with
  | FTEvent _ | FTAggregate _ => i
  | _ =>
      let i := match mi_skipped i with
               | Some _ => mi_set_skipped_before_semantics_changed true i
               | None => i
               end in
      mi_set_semantics_changed true i
  end.

(** *** Events *)

(** [notify_event]; the random bytes and the time of a possible overflow event are arguments. *)
Definition notify_event (i : MonitoredItem) (e : event) (random : list Z) (now : DateTime) : MonitoredItem * bool :=
  if bool_decide (mi_monitoring_mode i = Disabled) then (i, false)
  else
    match mi_filter i with
    | FTEvent filter =>
        match evaluate filter e (mi_client_handle i) with
        | None => (i, false)
        | Some notif =>
            let overflow_event :=
              if (mi_queue_size i <=? zlen (mi_notification_queue i)) && (1 <? mi_queue_size i)
                 && match mi_overflow_event i with None => true | Some _ => false end
              then evaluate filter (overflow_event_at random now) (mi_client_handle i)
              else None in
            let i := match overflow_event with
                     | Some ev => mi_set_any_new_notification true (mi_set_overflow_event (Some ev) i)
                     | None => i
                     end in
            (enqueue_notification (NEvent notif) i, true)
        end
    | _ => (i, false)
    end.

(** *** Aggregates *)

(** The samples before, inside, and the first one after an interval. *)
Definition classify_sample (interval_start interval_end : DateTime)
    (acc : option DataValue * list DataValue * option DataValue) (dv : DataValue) :=
  let '(prior, values_in, next) := acc in
  let ts := default interval_start (source_timestamp dv) in
  if ts <? interval_start then (Some dv, values_in, next)
  else if ts <=? interval_end then (prior, values_in ++ [dv], next)
  else match next with None => (prior, values_in, Some dv) | Some _ => acc end.

Definition aggregate_interval (agg : ParsedAggregateFilter) (buffer : list DataValue) (deadline : DateTime)
    : DataValue :=
  let interval_start := add_millis deadline (SFopp (processing_interval agg)) in
  let interval_end := deadline in
  let '(prior, values_in, next) :=
    fold_left (classify_sample interval_start interval_end) buffer (None, [], None) in
  let value := dispatch_aggregate (aggregate_type agg)
    {| ai_values := values_in; ai_prior := prior; ai_next := next;
       ai_interval_start := interval_start; ai_interval_end := interval_end;
       ai_config := agg_config agg; ai_stepped := false |} in
  mkDataValue (dv_value value) (dv_status value) (Some interval_end) (source_picoseconds value)
              (Some interval_end) (server_picoseconds value).

(** The loop over elapsed intervals, one unit of fuel per iteration: the values produced and the next
    deadline; [None]: the loop has not ended within the fuel. *)
Fixpoint flush_loop (fuel : nat) (agg : ParsedAggregateFilter) (buffer : list DataValue)
    (deadline now : DateTime) : option (list DataValue * DateTime) :=
  match fuel with
  | O => None
  | S fuel' =>
      if deadline <=? now then
        let value := aggregate_interval agg buffer deadline in
        let* (produced, deadline') :=
          flush_loop fuel' agg buffer (add_millis deadline (processing_interval agg)) now in
        Some (value :: produced, deadline')
      else Some ([], deadline)
  end.

(** [rposition]. *)
Fixpoint rposition {T} (f : T -> bool) (l : list T) : option nat :=
  match l with
  | [] => None
  | x :: l' =>
      match rposition f l' with
      | Some n => Some (S n)
      | None => if f x then Some O else None
      end
  end.

Definition maybe_flush_aggregate (fuel : nat) (i : MonitoredItem) (now : DateTime)
    : option (MonitoredItem * bool) :=
  match mi_filter i, mi_aggregate_next_deadline i with
  | FTAggregate agg, Some deadline =>
      let* (produced, deadline') := flush_loop fuel agg (mi_aggregate_buffer i) deadline now in
      match produced with
      | [] => Some (i, false)
      | _ =>
          let i := mi_set_aggregate_next_deadline (Some deadline') i in
          let next_start := add_millis deadline' (SFopp (processing_interval agg)) in
          let cut := default O (rposition (fun dv => is_some_and (source_timestamp dv) (fun ts => ts <? next_start))
                                          (mi_aggregate_buffer i)) in
          let i := mi_set_aggregate_buffer (drop cut (mi_aggregate_buffer i)) i in
          Some (fold_left (fun i value =>
                  enqueue_notification
                    (NData {| mn_client_handle := mi_client_handle i;
                              mn_value := apply_timestamps (mi_timestamps_to_return i) value |}) i)
                  produced i, true)
      end
  | _, _ => Some (i, false)
  end.

(** *** Creation and modification *)

Definition initial_data_value (now : DateTime) : DataValue :=
  mkDataValue (Some VEmpty) (Some BadWaitingForInitialData) (Some now) None (Some now) None.

(** [MonitoredItem::new] at time [now]. *)
Definition new_monitored_item (request : CreateMonitoredItem) (now : DateTime) : outcome MonitoredItem :=
  let v :=
    {| mi_id := cm_id request; mi_item_to_monitor := cm_item_to_monitor request;
       mi_monitoring_mode := cm_monitoring_mode request; mi_triggered_items := ∅;
       mi_client_handle := cm_client_handle request;
       mi_sampling_interval := parse_sampling_interval (cm_sampling_interval request);
       mi_filter := cm_filter request; mi_discard_oldest := cm_discard_oldest request;
       mi_queue_size := cm_queue_size request; mi_notification_queue := []; mi_overflow_event := None;
       mi_timestamps_to_return := cm_timestamps_to_return request; mi_last_data_value := None;
       mi_skipped := None; mi_skipped_before_semantics_changed := false;
       mi_any_new_notification := false; mi_eu_range := cm_eu_range request; mi_semantics_changed := false;
       mi_aggregate_buffer := []; mi_aggregate_next_deadline := None |} in
  match mi_filter v with
  | FTAggregate agg =>
      Ret (mi_set_aggregate_next_deadline (Some (add_millis now (processing_interval agg))) v)
  | _ =>
      let value := default (initial_data_value now) (cm_initial_value request) in
      let! (v, _) := notify_data_value v value now true in
      Ret v
  end.

(** The queue of a modified item, shrunk to its new size. *)
Fixpoint discard_n (n : nat) (discard_oldest : bool) (q : list Notification) : list Notification :=
  match n with
  | O => q
  | S n' => discard_n n' discard_oldest (if discard_oldest then (pop_front q).1 else (pop_back q).1)
  end.

(** [modify] at time [now]. *)
Definition modify (info : SubscriptionLimits) (timestamps_to_return : TimestampsToReturn)
    (request : MonitoredItemModifyRequest) (eu_range : option (f64 * f64)) (diagnostics : bool)
    (now : DateTime) (i : MonitoredItem) : MonitoredItem * (option FilterResult * StatusCode) :=
  let params := mr_requested_parameters request in
  let i := mi_set_timestamps_to_return timestamps_to_return i in
  let eu_range := match eu_range with Some r => Some r | None => mi_eu_range i end in
  let '(filter_res, filter) := from_filter (rp_filter params) eu_range diagnostics in
  match filter with
  | Err e => (i, (filter_res, e))
  | Ok f =>
      let deadline := match f with
                      | FTAggregate agg => Some (add_millis now (processing_interval agg))
                      | _ => None
                      end in
      let i := mi_set_aggregate_next_deadline deadline
                 (mi_set_aggregate_buffer [] (mi_set_eu_range eu_range (mi_set_filter f i))) in
      let queue_size := sanitize_queue_size info (rp_queue_size params) in
      let q := mi_notification_queue i in
      let q := if queue_size <? zlen q
               then discard_n (Z.to_nat (zlen q - queue_size)) (rp_discard_oldest params) q
               else q in
      (mkMonitoredItem (mi_id i) (mi_item_to_monitor i) (mi_monitoring_mode i) (mi_triggered_items i)
         (rp_client_handle params)
         (parse_sampling_interval (sanitize_sampling_interval info (rp_sampling_interval params)))
         (mi_filter i) (rp_discard_oldest params) queue_size q (mi_overflow_event i)
         (mi_timestamps_to_return i) (mi_last_data_value i) (mi_skipped i)
         (mi_skipped_before_semantics_changed i) (mi_any_new_notification i) (mi_eu_range i)
         (mi_semantics_changed i) (mi_aggregate_buffer i) (mi_aggregate_next_deadline i),
       (filter_res, Good))
  end.

(** *** Triggering and accessors *)

Definition set_triggering (items_to_add items_to_remove : list Z) (i : MonitoredItem) : MonitoredItem :=
  let s := fold_left (fun s x => s ∖ {[x]}) items_to_remove (mi_triggered_items i) in
  mi_set_triggered_items (fold_left (fun s x => {[x]} ∪ s) items_to_add s) i.
Definition remove_dead_trigger (id : Z) (i : MonitoredItem) : MonitoredItem :=
  mi_set_triggered_items (mi_triggered_items i ∖ {[id]}) i.
Definition has_new_notifications (i : MonitoredItem) : bool * MonitoredItem :=
  (mi_any_new_notification i, mi_set_any_new_notification false i).
Definition has_last_value (i : MonitoredItem) : bool :=
  match mi_last_data_value i with Some _ => true | None => false end.
Definition is_reporting (i : MonitoredItem) : bool :=
  match mi_monitoring_mode i with Reporting => true | _ => false end.
Definition is_sampling (i : MonitoredItem) : bool :=
  match mi_monitoring_mode i with Reporting | Sampling => true | _ => false end.
Definition is_event_item (i : MonitoredItem) : bool :=
  match mi_filter i with FTEvent _ => true | _ => false end.

End monitored_item.
