(* ===== verification/Concrete.v ===== *)
(** * A concrete environment

    One instance of each interface ([DynEncodable], [Chrono], [EventModel], [AggregateEngine]), used
    to evaluate the definitions and to show that the hypotheses of the theorems can be met. *)

From S2P Require Import Prelude Text Float StatusCode NumericRange Variant Limits DataChangeFilter MonitoredItem.

#[global] Instance unit_dyn : DynEncodable :=
  {| dyn := unit; dyn_eqb _ _ := true; dyn_data_type _ := None |}.

(** A calendar of about 262000 years around the epoch, in nanoseconds. *)
Definition calendar_add (t d : Z) : option Z :=
  if (-8334601228800000000000 <=? t + d) && (t + d <=? 8210266876799999999999) then Some (t + d) else None.
Lemma calendar_add_spec t d r : calendar_add t d = Some r -> r = t + d.
Proof. unfold calendar_add. case_match; congruence. Qed.
#[global] Instance calendar : Chrono :=
  {| checked_add_signed := calendar_add; checked_add_signed_spec := calendar_add_spec;
     time_delta_max := 9223372036854775807000000 |}.

(** Events are lists of fields, and every filter selects all fields. *)
#[global] Instance all_fields : EventModel :=
  {| event := list Variant; EventFilter := unit; ParsedEventFilter := unit; where_clause_result := unit;
     parse_event_filter _ := (None, tt, Ok tt);
     evaluate _ e h := Some {| ef_client_handle := h; ef_event_fields := Some e |};
     overflow_event_at _ _ := [VString (Some (str "overflow"))] |}.

(** The aggregate is the first sample of the interval. *)
#[global] Instance first_sample : AggregateEngine :=
  {| AggregateConfiguration := unit;
     dispatch_aggregate _ input :=
       default (mkDataValue None None None None None None) (head (ai_values _ input)) |}.

(** A data value with a number, and its source time in nanoseconds. *)
Definition sample (x : Z) (t : DateTime) : DataValue :=
  mkDataValue (Some (VInt32 x)) (Some Good) (Some t) None (Some t) None.

Definition request (queue_size : Z) (interval : f64) (discard_oldest : bool) (filter : FilterType)
    : CreateMonitoredItem :=
  {| cm_id := 1; cm_subscription_id := 1;
     cm_item_to_monitor := {| pr_node_id := {| namespace := 1; identifier := IdNumeric 7 |};
                              pr_attribute_id := 13; pr_index_range := NRNone; pr_data_encoding := DEBinary |};
     cm_monitoring_mode := Reporting; cm_client_handle := 5; cm_discard_oldest := discard_oldest;
     cm_queue_size := queue_size; cm_sampling_interval := interval; cm_initial_value := None;
     cm_status_code := Good; cm_filter := filter; cm_filter_res := None; cm_timestamps_to_return := Both;
     cm_eu_range := None |}.

(** An item with its initial value in the queue, created at time 0. *)
Definition item_of (r : CreateMonitoredItem) : MonitoredItem :=
  match new_monitored_item r 0 with
  | Ret i => i
  | _ => mkMonitoredItem 0 null_read_value_id Disabled ∅ 0 SIZero FTNone false 1 [] None Both None None
               false false None false [] None
  end.
Definition fresh_item (queue_size : Z) (discard_oldest : bool) : MonitoredItem :=
  item_of (request queue_size f64_zero discard_oldest FTNone).
Definition data_notification (x : Z) (t : DateTime) : Notification :=
  NData {| mn_client_handle := 5; mn_value := sample x t |}.
