(* ===== verification/MonitoredItemFacts.v ===== *)
(** * Facts about monitored items

    The queue of [MonitoredItem.v]: its bound as an invariant of every operation, what an enqueue
    keeps and drops, the order of delivery, the fate of the SemanticsChanged bit; the sampling
    interval; the termination of the aggregate loop. *)

From S2P Require Import Prelude Text Float StatusCode NumericRange Variant Limits DataChangeFilter MonitoredItem Concrete.

Section facts.
Context {D : DynEncodable} {C : Chrono} {E : EventModel} {A : AggregateEngine}.

(** ** The bound of the queue *)

Definition queue_ok (i : MonitoredItem) : Prop :=
  1 <= mi_queue_size i /\ zlen (mi_notification_queue i) <= mi_queue_size i.

(** The parameters of a queue an operation leaves alone. *)
Definition same_queue (i i' : MonitoredItem) : Prop :=
  mi_queue_size i' = mi_queue_size i /\ mi_notification_queue i' = mi_notification_queue i.

Lemma same_queue_ok i i' : same_queue i i' -> queue_ok i -> queue_ok i'.
Proof. unfold same_queue, queue_ok. intros [-> ->]. done. Qed.

Lemma zlen_nil {T} : zlen (@nil T) = 0.
Proof. done. Qed.
Lemma zlen_removelast {T} (l : list T) : l <> [] -> zlen (removelast l) = zlen l - 1.
Proof. intros. unfold zlen. rewrite length_removelast. destruct l; [done|]. simpl. lia. Qed.
Lemma zlen_map_front {T} (f : T -> T) l : zlen (map_front f l) = zlen l.
Proof. by destruct l. Qed.
Lemma length_carry_to_first q : length (carry_to_first q).1 = length q.
Proof.
  induction q as [|n q IH]; [done|]. simpl.
  destruct n; simpl; [done|]. destruct (carry_to_first q); simpl in *. congruence.
Qed.
Lemma carry_queue i : mi_notification_queue (carry_semantics_changed i) = (carry_to_first (mi_notification_queue i)).1.
Proof. unfold carry_semantics_changed. destruct (carry_to_first _) as [q []]; done. Qed.
Lemma carry_queue_size i : mi_queue_size (carry_semantics_changed i) = mi_queue_size i.
Proof. unfold carry_semantics_changed. destruct (carry_to_first _) as [q []]; done. Qed.

Lemma enqueue_queue_size n i : mi_queue_size (enqueue_notification n i) = mi_queue_size i.
Proof.
  unfold enqueue_notification, set_notification_semantics_changed. simpl. repeat case_match; simplify_eq/=; rewrite ?carry_queue_size; done.
Qed.

Lemma enqueue_queue_length n i : queue_ok i ->
  zlen (mi_notification_queue (enqueue_notification n i))
  = Z.min (zlen (mi_notification_queue i) + 1) (mi_queue_size i).
Proof.
  intros [H1 H2]. unfold enqueue_notification. simpl.
  destruct (Z.eqb_spec (zlen (mi_notification_queue i)) (mi_queue_size i)) as [He|He]; simpl.
  2:{ rewrite zlen_app, zlen_cons, zlen_nil. lia. }
  assert (mi_notification_queue i <> []) as Hne.
  { intros Hq. rewrite Hq, zlen_nil in He. lia. }
  destruct (mi_discard_oldest i).
  - set (q := if 1 <? mi_queue_size i then _ else _).
    assert (zlen q = zlen (mi_notification_queue i)) as Hq.
    { subst q. destruct (1 <? _); rewrite ?zlen_map_front, zlen_app, zlen_cons, zlen_nil;
        destruct (mi_notification_queue i); try done; rewrite zlen_cons; simpl; lia. }
    destruct (is_some_and _ _); [|simpl; lia].
    rewrite carry_queue. unfold zlen in *. rewrite length_carry_to_first. simpl. lia.
  - destruct (is_some_and _ _); [destruct (set_notification_semantics_changed _)|]; simpl;
      rewrite zlen_app, zlen_removelast, zlen_cons, zlen_nil by done; lia.
Qed.

Lemma enqueue_queue_ok n i : queue_ok i -> queue_ok (enqueue_notification n i).
Proof.
  intros H. pose proof (enqueue_queue_length n i H). pose proof (enqueue_queue_size n i).
  unfold queue_ok in *. lia.
Qed.

Lemma same_queue_refl i : same_queue i i.
Proof. done. Qed.

Lemma report_value_ok i v : queue_ok i -> queue_ok (report_value i v).
Proof.
  intros H. unfold report_value. destruct (mi_semantics_changed _); by apply enqueue_queue_ok.
Qed.

Lemma notify_sample_ok i v now tick extra i' b :
  queue_ok i -> notify_sample i v now tick extra = Ret (i', b) -> queue_ok i'.
Proof.
  intros H. unfold notify_sample. intros (w & _ & Hk)%outcome_bind_ret.
  assert (forall mf ms, (if negb mf then Ret (i, extra)
      else if negb ms then Ret (skip_value i w now, true) else Ret (report_value i w, true)) = Ret (i', b) ->
      queue_ok i') as Hgen.
  { intros [] []; simpl; intros [= <- <-]; [by apply report_value_ok|done..]. }
  destruct (matches_filters i w tick) as [mf ms].
  destruct (mi_filter i); try (by apply (Hgen mf ms)). by injection Hk as <- <-.
Qed.

Lemma notify_data_value_ok i v now tick i' b :
  queue_ok i -> notify_data_value i v now tick = Ret (i', b) -> queue_ok i'.
Proof.
  intros H. unfold notify_data_value. destruct (bool_decide _); [by intros [= <- <-]|].
  intros ([i1 extra] & Hpre & Hs)%outcome_bind_ret. eapply notify_sample_ok; [|exact Hs].
  destruct (mi_skipped i) as [s|]; [|by injection Hpre as <- _].
  destruct (skipped_is_due s v now); [|by injection Hpre as <- _].
  destruct (mi_skipped_before_semantics_changed i).
  - apply outcome_bind_ret in Hpre as ([i2 e2] & Hn & [= <- _]).
    eapply notify_sample_ok in Hn; [exact Hn|done].
  - eapply notify_sample_ok in Hpre; [exact Hpre|done].
Qed.

Lemma maybe_enqueue_skipped_value_ok i now i' b :
  queue_ok i -> maybe_enqueue_skipped_value i now = Ret (i', b) -> queue_ok i'.
Proof.
  intros H. unfold maybe_enqueue_skipped_value. destruct (mi_skipped i) as [v|]; [|by intros [= <- _]].
  destruct (is_some_and _ _); [|by intros [= <- _]].
  destruct (mi_skipped_before_semantics_changed i).
  - intros ([i2 e2] & Hn & [= <- _])%outcome_bind_ret. eapply notify_data_value_ok in Hn; [exact Hn|done].
  - intros ([i2 e2] & Hn & [= <- _])%outcome_bind_ret. eapply notify_data_value_ok in Hn; [exact Hn|done].
Qed.

Lemma notify_event_ok i e random now : queue_ok i -> queue_ok (notify_event i e random now).1.
Proof.
  intros H. unfold notify_event. destruct (bool_decide _); [done|].
  destruct (mi_filter i); try done. destruct (evaluate f e _); [|done]. simpl.
  apply enqueue_queue_ok. by case_match.
Qed.

Lemma flush_ok fuel i now i' b : queue_ok i -> maybe_flush_aggregate fuel i now = Some (i', b) -> queue_ok i'.
Proof.
  intros H. unfold maybe_flush_aggregate.
  destruct (mi_filter i); try (by intros [= <- _]).
  destruct (mi_aggregate_next_deadline i); [|by intros [= <- _]].
  destruct (flush_loop _ _ _ _ _) as [[produced dl]|]; simpl; [|done].
  set (start := mi_set_aggregate_buffer _ _). assert (queue_ok start) as Hstart by done. clearbody start.
  assert (queue_ok (fold_left (fun i value => enqueue_notification
      (NData {| mn_client_handle := mi_client_handle i;
                mn_value := apply_timestamps (mi_timestamps_to_return i) value |}) i) produced start)) as Hfold.
  { revert start Hstart. induction produced as [|p ps IH]; intros start Hstart; [done|].
    simpl. by apply IH, enqueue_queue_ok. }
  destruct produced; intros [= <- _]; done.
Qed.

Lemma pop_notification_ok i : queue_ok i -> queue_ok (pop_notification i).2.
Proof.
  unfold queue_ok, pop_notification, pop_front. intros [H1 H2].
  destruct (mi_overflow_event i), (mi_discard_oldest i), (mi_notification_queue i) as [|n q] eqn:Hq; simpl;
    rewrite ?Hq; unfold zlen in *; simpl length in *; split; lia.
Qed.

Lemma add_current_value_ok i : queue_ok i -> queue_ok (add_current_value_to_queue i).
Proof.
  intros H. unfold add_current_value_to_queue. case_match; [done|].
  destruct (mi_last_data_value i); [by apply enqueue_queue_ok|done].
Qed.

Lemma eu_range_ok i low high : queue_ok i -> queue_ok (notify_eu_range_changed i low high).
Proof. intros H. unfold notify_eu_range_changed. repeat case_match; done. Qed.

Lemma zlen_pop b (q : list Notification) : q <> [] ->
  zlen (if b : bool then (pop_front q).1 else (pop_back q).1) = zlen q - 1.
Proof.
  intros Hq. destruct b; simpl; [|by apply zlen_removelast]. destruct q; [done|]. rewrite zlen_cons. simpl. lia.
Qed.

Lemma zlen_discard_n n b q : Z.of_nat n <= zlen q -> zlen (discard_n n b q) = zlen q - Z.of_nat n.
Proof.
  revert q. induction n as [|n IH]; intros q H; [simpl; lia|]. simpl.
  assert (q <> []) as Hq by (intros ->; rewrite zlen_nil in H; lia).
  pose proof (zlen_pop b q Hq) as Hp. simpl in Hp.
  rewrite IH; [rewrite Hp; lia|rewrite Hp; lia].
Qed.

Lemma sanitize_queue_size_pos info n : 1 <= max_monitored_item_queue_size info -> 0 <= n ->
  1 <= sanitize_queue_size info n <= Z.max 1 (max_monitored_item_queue_size info).
Proof.
  intros. unfold sanitize_queue_size.
  destruct (Z.eqb_spec n 0), (Z.eqb_spec n 1), (Z.ltb_spec (max_monitored_item_queue_size info) n); simpl; lia.
Qed.

Lemma modify_ok info ttr request eu diag now i :
  1 <= max_monitored_item_queue_size info -> 0 <= rp_queue_size (mr_requested_parameters request) ->
  queue_ok i -> queue_ok (modify info ttr request eu diag now i).1.
Proof.
  intros Hinfo Hreq H. unfold modify.
  destruct (from_filter _ _ _) as [res [f|e]]; [|done]. unfold queue_ok in *. simpl.
  pose proof (sanitize_queue_size_pos info _ Hinfo Hreq) as Hs.
  set (s := sanitize_queue_size _ _) in *. split; [lia|].
  destruct (Z.ltb_spec s (zlen (mi_notification_queue i))); [|lia].
  rewrite zlen_discard_n; lia.
Qed.

(** ** The life of an item *)

(** The requests the server accepts: a positive queue size. *)
Definition limits_ok (info : SubscriptionLimits) : Prop := 1 <= max_monitored_item_queue_size info.

(** One operation on an item other than its modification. *)
Inductive item_operation : MonitoredItem -> MonitoredItem -> Prop :=
| op_value i v now tick i' b : notify_data_value i v now tick = Ret (i', b) -> item_operation i i'
| op_skipped i now i' b : maybe_enqueue_skipped_value i now = Ret (i', b) -> item_operation i i'
| op_event i e random now : item_operation i (notify_event i e random now).1
| op_flush fuel i now i' b : maybe_flush_aggregate fuel i now = Some (i', b) -> item_operation i i'
| op_current i : item_operation i (add_current_value_to_queue i)
| op_pop i : item_operation i (pop_notification i).2
| op_eu_range i low high : item_operation i (notify_eu_range_changed i low high)
| op_mode i m : item_operation i (mi_set_monitoring_mode m i)
| op_triggering i add remove : item_operation i (set_triggering add remove i)
| op_dead_trigger i id : item_operation i (remove_dead_trigger id i)
| op_has_new i : item_operation i (has_new_notifications i).2.

(** One step of the life of an item, under the server's limits. *)
Inductive item_step (info : SubscriptionLimits) : MonitoredItem -> MonitoredItem -> Prop :=
| step_operation i i' : item_operation i i' -> item_step info i i'
| step_modify ttr request eu diag now i :
    0 <= rp_queue_size (mr_requested_parameters request) ->
    item_step info i (modify info ttr request eu diag now i).1.

Inductive item_reachable (info : SubscriptionLimits) : MonitoredItem -> Prop :=
| reach_new req now i : 1 <= cm_queue_size req -> new_monitored_item req now = Ret i -> item_reachable info i
| reach_step i i' : item_reachable info i -> item_step info i i' -> item_reachable info i'.

Lemma new_monitored_item_ok req now i : 1 <= cm_queue_size req -> new_monitored_item req now = Ret i -> queue_ok i.
Proof.
  intros Hq. unfold new_monitored_item. cbv zeta. simpl mi_filter.
  destruct (cm_filter req); try (intros ([v b] & Hn & [= <-])%outcome_bind_ret;
    eapply notify_data_value_ok; [|exact Hn]; split; simpl; rewrite ?zlen_nil; lia).
  intros [= <-]. split; simpl; rewrite ?zlen_nil; lia.
Qed.

(** Whatever the sequence of operations on a monitored item, its notification queue never holds
    more than [queue_size] entries, and [queue_size] stays at least 1. *)
Theorem item_queue_bounded (info : SubscriptionLimits) (i : MonitoredItem) :
  limits_ok info -> item_reachable info i -> 1 <= mi_queue_size i /\ zlen (mi_notification_queue i) <= mi_queue_size i.
Proof.
  intros Hinfo. induction 1 as [req now i Hq Hn|i i' _ IH Hstep]; [by eapply new_monitored_item_ok|].
  fold (queue_ok i) in IH. fold (queue_ok i').
  destruct Hstep as [i i' []|]; eauto using notify_data_value_ok, maybe_enqueue_skipped_value_ok, notify_event_ok,
    flush_ok, pop_notification_ok, add_current_value_ok, eu_range_ok, modify_ok.
Qed.


(** ** What an enqueue keeps *)

Lemma get_set_bool_true s o o' : 0 <= o < 32 -> 0 <= o' < 32 ->
  get_bool (set_bool s true o) o' = if decide (o' = o) then true else get_bool s o'.
Proof.
  intros Ho Ho'. rewrite !get_bool_testbit by lia. unfold set_bool. simpl Z.b2z.
  rewrite Z.lor_spec, Z.land_spec, not32_spec by lia.
  change 1 with (Z.ones 1). rewrite !ones_shift_testbit by lia.
  destruct (Z.ltb_spec o' 32); [|lia].
  case_decide as Heq; [subst; rewrite Z.leb_refl; destruct (Z.ltb_spec o (o + 1)); [|lia]; by rewrite orb_true_r|].
  destruct (Z.leb_spec o o'), (Z.ltb_spec o' (o + 1)); simpl; try lia; by rewrite andb_true_r, orb_false_r.
Qed.

Lemma status_after_set d s : dv_status_or_good (dv_set_status d s) = s.
Proof. done. Qed.

(** A notification without its status. *)
Definition erase (n : Notification) : Notification :=
  match n with
  | NData m => NData {| mn_client_handle := mn_client_handle m;
                        mn_value := mkDataValue (dv_value (mn_value m)) None (source_timestamp (mn_value m))
                          (source_picoseconds (mn_value m)) (server_timestamp (mn_value m))
                          (server_picoseconds (mn_value m)) |}
  | NEvent e => NEvent e
  end.

Definition overflow_marked (n : Notification) : bool :=
  match n with NData m => overflow (dv_status_or_good (mn_value m)) | NEvent _ => true end.

Lemma erase_overflow n : erase (set_notification_overflow n) = erase n.
Proof. by destruct n. Qed.
Lemma erase_semantics n : erase (set_notification_semantics_changed n).1 = erase n.
Proof. by destruct n. Qed.
Lemma overflow_marked_set n : overflow_marked (set_notification_overflow n) = true.
Proof.
  destruct n; [|done]. simpl. rewrite status_after_set. unfold overflow, set_overflow.
  rewrite get_set_bool_true by lia. by rewrite decide_True.
Qed.
Lemma overflow_marked_semantics n : overflow_marked (set_notification_semantics_changed n).1 = overflow_marked n.
Proof.
  destruct n; [|done]. simpl. rewrite status_after_set. unfold overflow, set_semantics_changed.
  rewrite get_set_bool_true by lia. by rewrite decide_False by lia.
Qed.

Lemma erase_carry q : map erase (carry_to_first q).1 = map erase q.
Proof.
  induction q as [|[n|e] q IH]; [done..|]. simpl. destruct (carry_to_first q); simpl in *. by rewrite IH.
Qed.
Lemma overflow_carry_head q : option_map overflow_marked (head (carry_to_first q).1) = option_map overflow_marked (head q).
Proof.
  destruct q as [|[n|e] q]; [done| |by simpl; destruct (carry_to_first q)]. simpl. f_equal.
  exact (overflow_marked_semantics (NData n)).
Qed.
Lemma map_removelast {X Y} (f : X -> Y) l : map f (removelast l) = removelast (map f l).
Proof.
  induction l as [|x [|y l] IH]; [done..|]. change (f x :: map f (removelast (y :: l))
    = f x :: removelast (map f (y :: l))). by rewrite IH.
Qed.

(** An enqueue on a queue with room appends the notification. On a full queue it drops exactly
    the oldest entry (DiscardOldest) or the newest one, appends the new one, changes nothing else but
    status bits, and, when the queue is longer than one, marks the entry next to the gap (the
    oldest one, or the new one) with the Overflow bit. *)
Theorem enqueue_spec (n : Notification) (i : MonitoredItem) :
  queue_ok i ->
  let q := mi_notification_queue i in
  let q' := mi_notification_queue (enqueue_notification n i) in
  (zlen q < mi_queue_size i -> q' = q ++ [n])
  /\ (zlen q = mi_queue_size i ->
      map erase q' = (if mi_discard_oldest i then tail (map erase q) else removelast (map erase q)) ++ [erase n]
      /\ (1 < mi_queue_size i ->
          option_map overflow_marked (if mi_discard_oldest i then head q' else last q') = Some true))
  /\ mi_any_new_notification (enqueue_notification n i) = true.
Proof.
  intros [H1 H2]. cbv zeta. unfold enqueue_notification. simpl.
  destruct (Z.eqb_spec (zlen (mi_notification_queue i)) (mi_queue_size i)) as [He|He]; simpl;
    [|repeat split; [done|lia..]].
  destruct (mi_discard_oldest i); simpl.
  - set (q1 := if 1 <? mi_queue_size i then _ else _).
    set (i2 := if is_some_and _ _ then _ else _).
    assert (mi_notification_queue i2 = q1 \/ mi_notification_queue i2 = (carry_to_first q1).1) as Hq2.
    { subst i2. destruct (is_some_and _ _); [right|by left]. by rewrite carry_queue. }
    assert (map erase q1 = tail (map erase (mi_notification_queue i)) ++ [erase n]) as Hq1.
    { subst q1. destruct (1 <? _); destruct (mi_notification_queue i) as [|x [|y l]]; simpl;
        rewrite ?erase_overflow, ?map_app; done. }
    split; [lia|]. split; [|subst i2; destruct (is_some_and _ _); [|done];
      unfold carry_semantics_changed; destruct (carry_to_first _) as [? []]; done].
    intros _. split; [destruct Hq2 as [->| ->]; rewrite ?erase_carry; done|].
    intros Hsz. assert (option_map overflow_marked (head q1) = Some true) as Hh.
    { subst q1. destruct (Z.ltb_spec 1 (mi_queue_size i)); [|lia].
      destruct (mi_notification_queue i) as [|x [|y l]]; simpl; by rewrite overflow_marked_set. }
    destruct Hq2 as [->| ->]; [done|by rewrite overflow_carry_head].
  - set (n1 := if 1 <? mi_queue_size i then _ else _).
    assert (erase n1 = erase n) as Hn1 by (subst n1; case_match; [apply erase_overflow|done]).
    assert (1 < mi_queue_size i -> overflow_marked n1 = true) as Ho.
    { intros. subst n1. destruct (Z.ltb_spec 1 (mi_queue_size i)); [|lia]. apply overflow_marked_set. }
    destruct (is_some_and _ _); simpl.
    + destruct (set_notification_semantics_changed n1) as [n2 b] eqn:Hn2.
      assert (n2 = (set_notification_semantics_changed n1).1) as -> by (by rewrite Hn2).
      simpl. split; [lia|]. split; [|by destruct b].
      intros _. rewrite map_app, map_removelast. simpl. rewrite erase_semantics, Hn1. split; [done|].
      intros Hsz. rewrite last_snoc. simpl. rewrite overflow_marked_semantics. f_equal. auto.
    + split; [lia|]. split; [|done]. intros _. rewrite map_app, map_removelast. simpl. rewrite Hn1.
      split; [done|]. intros Hsz. rewrite last_snoc. simpl. f_equal. auto.
Qed.

(** ** The SemanticsChanged bit *)

(** A change of the engineering-unit range is still to be told to the client: the item has the
    one-shot flag, or a queued notification carries the bit. *)
Definition semantics_pending (i : MonitoredItem) : bool :=
  mi_semantics_changed i || existsb notification_semantics_changed (mi_notification_queue i).

Lemma semantics_set_semantics n : (set_notification_semantics_changed n).2 = true ->
  notification_semantics_changed (set_notification_semantics_changed n).1 = true.
Proof.
  destruct n; [|done]. intros _. simpl. rewrite status_after_set. unfold semantics_changed, set_semantics_changed.
  rewrite get_set_bool_true by lia. by rewrite decide_True.
Qed.
Lemma semantics_set_overflow n :
  notification_semantics_changed (set_notification_overflow n) = notification_semantics_changed n.
Proof.
  destruct n; [|done]. simpl. rewrite status_after_set. unfold semantics_changed, set_overflow.
  rewrite get_set_bool_true by lia. by rewrite decide_False by lia.
Qed.
Lemma semantics_set_keep n : notification_semantics_changed n = true ->
  notification_semantics_changed (set_notification_semantics_changed n).1 = true.
Proof. destruct n; [|done]. intros _. by apply semantics_set_semantics. Qed.
Lemma set_semantics_false n : (set_notification_semantics_changed n).2 = false ->
  notification_semantics_changed n = false.
Proof. by destruct n. Qed.

Lemma carry_to_first_found q : (carry_to_first q).2 = true ->
  existsb notification_semantics_changed (carry_to_first q).1 = true.
Proof.
  induction q as [|n q IH]; [done|]. simpl.
  destruct (set_notification_semantics_changed n) as [n' b] eqn:Hn. destruct b; simpl.
  - intros _. pose proof (semantics_set_semantics n) as Hs. rewrite Hn in Hs. simpl in Hs. by rewrite Hs.
  - destruct (carry_to_first q); simpl in *. intros H. rewrite IH by done. apply orb_true_r.
Qed.

Lemma carry_pending i : semantics_pending (carry_semantics_changed i) = true.
Proof.
  unfold carry_semantics_changed, semantics_pending.
  destruct (carry_to_first (mi_notification_queue i)) as [q found] eqn:Hq.
  pose proof (carry_to_first_found (mi_notification_queue i)) as Hf. rewrite Hq in Hf. simpl in Hf.
  destruct found; simpl; [|done]. rewrite Hf by done. apply orb_true_r.
Qed.

Lemma existsb_map_front q :
  existsb notification_semantics_changed (map_front set_notification_overflow q)
  = existsb notification_semantics_changed q.
Proof. destruct q; simpl; [done|]. by rewrite semantics_set_overflow. Qed.

Lemma existsb_removelast (f : Notification -> bool) q :
  existsb f q = existsb f (removelast q) || is_some_and (last q) f.
Proof.
  destruct (decide (q = [])) as [->|Hq]; [done|].
  rewrite (app_removelast_last (NEvent {| ef_client_handle := 0; ef_event_fields := None |}) Hq) at 1.
  rewrite existsb_app. simpl. rewrite orb_false_r. f_equal.
  destruct (last q) as [x|] eqn:Hl; [|by apply last_None in Hl]. simpl. f_equal.
  apply last_Some in Hl as [l ->]. by rewrite List.last_last.
Qed.

Lemma enqueue_keeps_pending n i :
  semantics_pending i || notification_semantics_changed n = true ->
  semantics_pending (enqueue_notification n i) = true.
Proof.
  intros H. unfold enqueue_notification. simpl.
  destruct (zlen (mi_notification_queue i) =? mi_queue_size i); simpl.
  2:{ unfold semantics_pending in *. simpl. rewrite existsb_app. simpl. rewrite orb_false_r.
      by rewrite orb_assoc. }
  destruct (mi_discard_oldest i); simpl.
  - set (q1 := if 1 <? mi_queue_size i then _ else _).
    assert (existsb notification_semantics_changed q1
            = existsb notification_semantics_changed (tail (mi_notification_queue i) ++ [n])) as Hq1.
    { subst q1. destruct (1 <? _); [apply existsb_map_front|done]. }
    destruct (is_some_and _ _) eqn:Hd; [apply carry_pending|].
    unfold semantics_pending in *. simpl. rewrite Hq1, existsb_app. simpl. rewrite orb_false_r.
    destruct (mi_notification_queue i); simpl in *; [by rewrite orb_false_r in H|]. rewrite Hd in H. simpl in H. by rewrite orb_assoc.
  - set (n1 := if 1 <? mi_queue_size i then _ else _).
    assert (notification_semantics_changed n1 = notification_semantics_changed n) as Hn1.
    { subst n1. destruct (1 <? _); [apply semantics_set_overflow|done]. }
    destruct (is_some_and _ _) eqn:Hd.
    + destruct (set_notification_semantics_changed n1) as [n2 b] eqn:Hn2. unfold semantics_pending. simpl.
      rewrite existsb_app. simpl. pose proof (semantics_set_semantics n1) as Hs. rewrite Hn2 in Hs. simpl in Hs.
      destruct b; simpl; [|done]. rewrite Hs by done. simpl. by rewrite !orb_true_r.
    + unfold semantics_pending in *. simpl. rewrite existsb_app. simpl. rewrite Hn1, orb_false_r.
      rewrite existsb_removelast, Hd, orb_false_r in H. by rewrite orb_assoc.
Qed.

Lemma report_keeps_pending i v : semantics_pending i = true -> semantics_pending (report_value i v) = true.
Proof.
  intros H. unfold report_value. simpl. destruct (mi_semantics_changed i) eqn:Hs;
    apply enqueue_keeps_pending; simpl.
  - rewrite status_after_set. unfold semantics_changed, set_semantics_changed.
    rewrite get_set_bool_true by lia. rewrite decide_True by done. apply orb_true_r.
  - change (semantics_pending (mi_set_last_data_value (Some v) i)) with (semantics_pending i). by rewrite H.
Qed.

Lemma notify_sample_keeps i v now tick extra i' b : semantics_pending i = true ->
  notify_sample i v now tick extra = Ret (i', b) -> semantics_pending i' = true.
Proof.
  intros H. unfold notify_sample. intros (w & _ & Hk)%outcome_bind_ret.
  assert (forall mf ms, (if negb mf then Ret (i, extra)
      else if negb ms then Ret (skip_value i w now, true) else Ret (report_value i w, true)) = Ret (i', b) ->
      semantics_pending i' = true) as Hgen.
  { intros [] []; simpl; intros [= <- <-]; [by apply report_keeps_pending|done..]. }
  destruct (matches_filters i w tick) as [mf ms].
  destruct (mi_filter i); try (by apply (Hgen mf ms)). by injection Hk as <- <-.
Qed.

(** The flag saved around the report of a value sampled before the change is not lost. *)
Lemma restored_pending i0 i saved :
  saved = mi_semantics_changed i0 ->
  (semantics_pending (mi_set_semantics_changed false i0) = true -> semantics_pending i = true) ->
  semantics_pending i0 = true ->
  semantics_pending (mi_set_semantics_changed (mi_semantics_changed i || saved) i) = true.
Proof.
  unfold semantics_pending. intros -> Hi H. simpl in *. destruct (mi_semantics_changed i0); simpl in *.
  - by rewrite orb_true_r.
  - rewrite orb_false_r. auto.
Qed.

Lemma notify_data_value_keeps i v now tick i' b : semantics_pending i = true ->
  notify_data_value i v now tick = Ret (i', b) -> semantics_pending i' = true.
Proof.
  intros H. unfold notify_data_value. destruct (bool_decide _); [by intros [= <- <-]|].
  intros ([i1 extra] & Hpre & Hs)%outcome_bind_ret. eapply notify_sample_keeps; [|exact Hs].
  destruct (mi_skipped i) as [s|]; [|by injection Hpre as <- _].
  destruct (skipped_is_due s v now); [|by injection Hpre as <- _].
  destruct (mi_skipped_before_semantics_changed i).
  - apply outcome_bind_ret in Hpre as ([i2 e2] & Hn & [= <- _]).
    set (i0 := mi_set_skipped_before_semantics_changed false (mi_set_skipped None i)) in *.
    apply (restored_pending i0); [done| |done]. intros Hp. by eapply notify_sample_keeps.
  - eapply notify_sample_keeps; [|exact Hpre]. done.
Qed.

Lemma skipped_value_keeps i now i' b : semantics_pending i = true ->
  maybe_enqueue_skipped_value i now = Ret (i', b) -> semantics_pending i' = true.
Proof.
  intros H. unfold maybe_enqueue_skipped_value. destruct (mi_skipped i) as [v|]; [|by intros [= <- _]].
  destruct (is_some_and _ _); [|by intros [= <- _]].
  destruct (mi_skipped_before_semantics_changed i); intros ([i2 e2] & Hn & [= <- _])%outcome_bind_ret.
  - set (i0 := mi_set_skipped_before_semantics_changed false (mi_set_skipped None i)) in *.
    apply (restored_pending i0); [done| |done]. intros Hp. by eapply notify_data_value_keeps.
  - eapply notify_data_value_keeps; [|exact Hn]. done.
Qed.

Lemma flush_keeps fuel i now i' b : semantics_pending i = true ->
  maybe_flush_aggregate fuel i now = Some (i', b) -> semantics_pending i' = true.
Proof.
  intros H. unfold maybe_flush_aggregate.
  destruct (mi_filter i); try (by intros [= <- _]).
  destruct (mi_aggregate_next_deadline i); [|by intros [= <- _]].
  destruct (flush_loop _ _ _ _ _) as [[produced dl]|]; simpl; [|done].
  set (start := mi_set_aggregate_buffer _ _). assert (semantics_pending start = true) as Hstart by done.
  clearbody start.
  assert (semantics_pending (fold_left (fun i value => enqueue_notification
      (NData {| mn_client_handle := mi_client_handle i;
                mn_value := apply_timestamps (mi_timestamps_to_return i) value |}) i) produced start) = true) as Hfold.
  { revert start Hstart. induction produced as [|p ps IH]; intros start Hstart; [done|].
    simpl. apply IH, enqueue_keeps_pending. by rewrite Hstart. }
  destruct produced; intros [= <- _]; done.
Qed.

Lemma notify_event_keeps i e random now :
  semantics_pending i = true -> semantics_pending (notify_event i e random now).1 = true.
Proof.
  intros H. unfold notify_event. destruct (bool_decide _); [done|].
  destruct (mi_filter i); try done. destruct (evaluate f e _); [|done]. simpl.
  apply enqueue_keeps_pending. apply orb_true_iff. left. by case_match.
Qed.

Lemma add_current_keeps i : semantics_pending i = true -> semantics_pending (add_current_value_to_queue i) = true.
Proof.
  intros H. unfold add_current_value_to_queue. case_match; [done|].
  destruct (mi_last_data_value i); [apply enqueue_keeps_pending; by rewrite H|done].
Qed.

Lemma eu_range_keeps i low high :
  semantics_pending i = true -> semantics_pending (notify_eu_range_changed i low high) = true.
Proof. intros H. unfold notify_eu_range_changed, semantics_pending. repeat case_match; done. Qed.

Lemma pop_keeps i n i' : semantics_pending i = true -> pop_notification i = (n, i') ->
  semantics_pending i' = true \/ exists m, n = Some m /\ notification_semantics_changed m = true.
Proof.
  unfold semantics_pending, pop_notification, pop_front. intros H.
  destruct (mi_overflow_event i), (mi_discard_oldest i), (mi_notification_queue i) as [|m q] eqn:Hq; simpl;
    intros [= <- <-]; simpl; rewrite ?Hq; auto;
    simpl in H; destruct (notification_semantics_changed m) eqn:Hm; eauto.
Qed.

(** Once an engineering-unit range change is pending (as the one-shot flag of the item or as the
    SemanticsChanged bit of a queued notification) it stays pending through every operation but a
    modification of the item, queue overflows included, until the client takes a notification that
    carries the bit. *)
Theorem semantics_changed_not_lost (i i' : MonitoredItem) :
  item_operation i i' -> semantics_pending i = true ->
  semantics_pending i' = true
  \/ exists n, pop_notification i = (Some n, i') /\ notification_semantics_changed n = true.
Proof.
  intros Hstep H. destruct Hstep; try (by left; done);
    eauto using notify_data_value_keeps, skipped_value_keeps, notify_event_keeps, flush_keeps,
      add_current_keeps, eu_range_keeps.
  destruct (pop_notification i) as [n i'] eqn:Hp. simpl.
  destruct (pop_keeps i n i' H Hp) as [|(m & -> & Hm)]; [by left|right; eauto].
Qed.

(** ** Delivery *)

(** The notifications taken by repeated [pop_notification]s. *)
Fixpoint drain (fuel : nat) (i : MonitoredItem) : list Notification * MonitoredItem :=
  match fuel with
  | O => ([], i)
  | S fuel' =>
      match pop_notification i with
      | (Some n, i') => let '(ns, i'') := drain fuel' i' in (n :: ns, i'')
      | (None, i') => ([], i')
      end
  end.

Definition overflow_indicator (i : MonitoredItem) : list Notification :=
  match mi_overflow_event i with Some e => [NEvent e] | None => [] end.

Lemma drain_all (i : MonitoredItem) (fuel : nat) :
  (length (mi_notification_queue i) + 2 <= fuel)%nat ->
  (drain fuel i).1 = (if mi_discard_oldest i then overflow_indicator i ++ mi_notification_queue i
                      else mi_notification_queue i ++ overflow_indicator i)
  /\ has_notifications (drain fuel i).2 = false.
Proof.
  assert (forall q i fuel, mi_notification_queue i = q -> (length q + 1 <= fuel)%nat ->
            mi_overflow_event i = None ->
            (drain fuel i).1 = q /\ has_notifications (drain fuel i).2 = false) as Hnone.
  { clear i fuel. induction q as [|n q IH]; intros i [|fuel] Hq Hf Ho; simpl in *; try lia;
      unfold pop_notification; rewrite Ho, Hq; simpl.
    - unfold has_notifications. by rewrite Hq, Ho.
    - destruct (IH (mi_set_notification_queue q i) fuel) as [H1 H2]; [done|lia|done|].
      destruct (drain _ _) as [ns i']. simpl in *. by subst. }
  assert (forall q i fuel e, mi_notification_queue i = q -> (length q + 2 <= fuel)%nat ->
            mi_overflow_event i = Some e -> mi_discard_oldest i = false ->
            (drain fuel i).1 = q ++ [NEvent e] /\ has_notifications (drain fuel i).2 = false) as Hlast.
  { clear i fuel. induction q as [|n q IH]; intros i [|fuel] e Hq Hf Ho Hd; simpl in *; try lia;
      unfold pop_notification; rewrite Ho, Hd, Hq; simpl.
    - destruct (Hnone [] (mi_set_overflow_event None i) fuel) as [H1 H2]; [done|simpl; lia|done|].
      destruct (drain _ _) as [ns i']. simpl in *. by subst.
    - destruct (IH (mi_set_notification_queue q i) fuel e) as [H1 H2]; [done|lia|done..|].
      destruct (drain _ _) as [ns i']. simpl in *. by subst. }
  intros Hf. unfold overflow_indicator. destruct (mi_overflow_event i) as [e|] eqn:Ho.
  - destruct (mi_discard_oldest i) eqn:Hd; [|by apply Hlast].
    destruct fuel as [|fuel]; [lia|]. simpl. unfold pop_notification. rewrite Ho, Hd.
    destruct (Hnone (mi_notification_queue i) (mi_set_overflow_event None i) fuel) as [H1 H2]; [done|lia|done|].
    destruct (drain _ _) as [ns i']. simpl in *. by subst.
  - rewrite app_nil_r. simpl. destruct (Hnone (mi_notification_queue i) i fuel) as [H1 H2]; [done|lia|done|].
    by destruct (mi_discard_oldest i).
Qed.

(** Draining an item delivers every queued notification in the order of arrival, with the event
    overflow indicator before them all (DiscardOldest) or after them all, and leaves it empty. *)
Theorem drain_order (i : MonitoredItem) (fuel : nat) :
  (length (mi_notification_queue i) + 2 <= fuel)%nat ->
  (drain fuel i).1 = (if mi_discard_oldest i then overflow_indicator i ++ mi_notification_queue i
                      else mi_notification_queue i ++ overflow_indicator i)
  /\ has_notifications (drain fuel i).2 = false.
Proof. apply drain_all. Qed.

(** ** Sampling *)

Lemma apply_index_range_timestamp i v w : apply_index_range i v = Ret w -> source_timestamp w = source_timestamp v.
Proof.
  unfold apply_index_range. destruct (pr_index_range _); [by intros [= <-]|..];
    (destruct (dv_value v); [|by intros [= <-]]; intros ([] & _ & [= <-])%outcome_bind_ret; done).
Qed.

Lemma enqueue_last_value n i : mi_last_data_value (enqueue_notification n i) = mi_last_data_value i
  /\ mi_sampling_interval (enqueue_notification n i) = mi_sampling_interval i.
Proof.
  unfold enqueue_notification, carry_semantics_changed. simpl.
  repeat case_match; simplify_eq/=; done.
Qed.

Lemma report_last_value i v : mi_last_data_value (report_value i v) = Some v
  /\ mi_sampling_interval (report_value i v) = mi_sampling_interval i.
Proof.
  unfold report_value. simpl. destruct (mi_semantics_changed i);
    match goal with |- context [enqueue_notification ?n ?i] => destruct (enqueue_last_value n i) as [-> ->] end; done.
Qed.

(** Successive reported values: the same, one without a source time, or one a sampling interval later. *)
Definition sampled_after (d : Z) (old new : DataValue) : Prop :=
  new = old \/ source_timestamp new = None
  \/ exists t0 t1, source_timestamp old = Some t0 /\ source_timestamp new = Some t1 /\ t0 + d <= t1.

Lemma notify_sample_sampled i v now tick extra i' b last d :
  mi_sampling_interval i = SINonZero d -> mi_last_data_value i = Some last -> is_Some (source_timestamp last) ->
  notify_sample i v now tick extra = Ret (i', b) ->
  mi_sampling_interval i' = SINonZero d
  /\ exists last', mi_last_data_value i' = Some last' /\ sampled_after d last last'
     /\ (last' = last \/ source_timestamp last' = source_timestamp v).
Proof.
  intros Hd Hlast [t0 Ht0]. unfold notify_sample. intros (w & Hw & Hk)%outcome_bind_ret.
  apply apply_index_range_timestamp in Hw.
  assert ((i', b) = (i, extra) \/ (exists b', (i', b) = (skip_value i w now, b'))
          \/ (exists b', (i', b) = (mi_set_aggregate_buffer (mi_aggregate_buffer i ++ [w]) i, b'))
          \/ (i', b) = (report_value i w, true) /\ filter_by_sampling_interval i last w tick = true) as Hcases.
  { unfold matches_filters in Hk. rewrite Hlast in Hk.
    destruct (mi_filter i); repeat case_match; simplify_eq/=; eauto 8; bool_to_prop; simplify_eq; eauto 8. }
  destruct Hcases as [[= -> ->]|[[b' [= -> ->]]|[[b' [= -> ->]]|[[= -> ->] Hf]]]].
  - split; [done|]. exists last. repeat split; [done|by left..].
  - split; [done|]. exists last. repeat split; [done|by left..].
  - split; [done|]. exists last. repeat split; [done|by left..].
  - destruct (report_last_value i w) as [-> ->]. split; [done|]. exists w. split; [done|]. split; [|by right].
    unfold filter_by_sampling_interval in Hf. rewrite Ht0, Hd in Hf.
    destruct (source_timestamp w) as [t1|] eqn:Ht1; [|right; by left].
    right; right. exists t0, t1. bool_to_prop. repeat split; try done. lia.
Qed.

(** An item with a non-zero sampling interval never reports two source timestamps closer than
    the interval: after a notification, the last reported value is the old one, has no source
    timestamp, or is at least one interval later, also when a delayed sample is reported first. *)
Theorem sampling_interval_respected (i i' : MonitoredItem) (v last : DataValue) (now : DateTime)
    (tick b : bool) (d : Z) :
  0 <= d -> mi_sampling_interval i = SINonZero d ->
  mi_last_data_value i = Some last -> is_Some (source_timestamp last) ->
  notify_data_value i v now tick = Ret (i', b) ->
  exists last', mi_last_data_value i' = Some last' /\ sampled_after d last last'.
Proof.
  intros Hd0 Hd Hlast Hts. unfold notify_data_value.
  destruct (bool_decide _); [intros [= <- <-]; exists last; split; [done|by left]|].
  intros ([i1 extra] & Hpre & Hs)%outcome_bind_ret.
  assert (mi_sampling_interval i1 = SINonZero d
          /\ exists l1, mi_last_data_value i1 = Some l1 /\ sampled_after d last l1
             /\ is_Some (source_timestamp l1)) as (Hd1 & l1 & Hl1 & Hs1 & Hts1).
  { destruct (mi_skipped i) as [s|].
    2:{ injection Hpre as <- _. split; [done|]. exists last. repeat split; [done|by left|done]. }
    set (i0 := mi_set_skipped_before_semantics_changed false (mi_set_skipped None i)) in *.
    destruct (skipped_is_due s v now) eqn:Hdue.
    2:{ injection Hpre as <- _. split; [done|]. exists last. repeat split; [done|by left|done]. }
    assert (is_Some (source_timestamp s)) as Hss.
    { unfold skipped_is_due in Hdue. by destruct (source_timestamp s). }
    assert (forall i2 e2 k, (k = i0 \/ k = mi_set_semantics_changed false i0) ->
       notify_sample k s now false false = Ret (i2, e2) ->
       mi_sampling_interval i2 = SINonZero d
       /\ exists l1, mi_last_data_value i2 = Some l1 /\ sampled_after d last l1
          /\ is_Some (source_timestamp l1)) as Hin.
    { intros i2 e2 k Hk Hn. assert (mi_sampling_interval k = SINonZero d) by (destruct Hk; by subst).
      assert (mi_last_data_value k = Some last) by (destruct Hk; by subst).
      destruct (notify_sample_sampled k s now false false i2 e2 last d) as (? & l & ? & ? & Hor); [done..|].
      split; [done|]. exists l. repeat split; [done..|]. destruct Hor as [->| ->]; done. }
    destruct (mi_skipped_before_semantics_changed i).
    - apply outcome_bind_ret in Hpre as ([i2 e2] & Hn & [= <- _]). eapply Hin in Hn; [|by right]. done.
    - eapply Hin in Hpre; [|by left]. done. }
  destruct (notify_sample_sampled i1 v now tick extra i' b l1 d) as (_ & l2 & Hl2 & Hs2 & _); [done..|].
  exists l2. split; [done|]. unfold sampled_after in *.
  destruct Hs2 as [->|[?|(t1 & t2 & Ht1 & Ht2 & Hle)]]; [done|by right; left|].
  destruct Hs1 as [->|[Hn|(t0 & t1' & Ht0 & Ht1' & Hle')]]; [by right; right; exists t1, t2|congruence|].
  right; right. exists t0, t2. repeat split; [done..|]. simplify_eq. lia.
Qed.

(** ** Aggregates *)

(** The length of a processing interval, in nanoseconds, after the conversion to microseconds. *)
Definition interval_ns (millis : f64) : Z := f64_as_i64 (f64_mul millis (f64_of_Z 1000)) * 1000.

Lemma datetime_from_id t : (100 | t) -> datetime_from t = t.
Proof. intros [k ->]. unfold datetime_from. by rewrite Z.div_mul. Qed.

Lemma add_millis_next t millis : (100 | t) ->
  checked_add_signed t (interval_ns millis) = Some (t + interval_ns millis) ->
  add_millis t millis = t + interval_ns millis.
Proof.
  intros Ht Hc. unfold add_millis. unfold interval_ns in *. rewrite Hc. apply datetime_from_id.
  apply Z.divide_add_r; [done|]. exists (f64_as_i64 (f64_mul millis (f64_of_Z 1000)) * 10). lia.
Qed.

(** The loop over elapsed processing intervals ends when an interval lasts at least a microsecond
    and the calendar reaches one interval beyond [now]: it produces one value for each interval
    that has ended, and the next deadline is the first interval end after [now]. *)
Theorem flush_terminates (agg : ParsedAggregateFilter) (buffer : list DataValue) (deadline now : DateTime)
    (fuel : nat) :
  let s := interval_ns (processing_interval agg) in
  (100 | deadline) -> 1000 <= s ->
  (forall t, t <= now -> checked_add_signed t s = Some (t + s)) ->
  (Z.to_nat ((now - deadline) / s + 1) < fuel)%nat ->
  exists produced next, flush_loop fuel agg buffer deadline now = Some (produced, next)
  /\ now < next /\ next = deadline + zlen produced * s
  /\ (deadline <= now -> next <= now + s)
  /\ forall k v, produced !! k = Some v -> source_timestamp v = Some (deadline + Z.of_nat k * s).
Proof.
  cbv zeta. intros Hdl Hs Hcal. set (s := interval_ns (processing_interval agg)) in *.
  revert deadline Hdl. induction fuel as [|fuel IH]; intros deadline Hdl Hf; [lia|]. simpl.
  destruct (Z.leb_spec deadline now) as [Hle|Hgt].
  - rewrite add_millis_next by auto. fold s.
    destruct (IH (deadline + s)) as (produced & next & Hl & Hn & Hnext & Hb & Hts).
    + apply Z.divide_add_r; [done|]. exists (f64_as_i64 (f64_mul (processing_interval agg) (f64_of_Z 1000)) * 10).
      unfold s, interval_ns. lia.
    + replace (now - (deadline + s)) with (now - deadline + (-1) * s) by lia.
      rewrite Z.div_add by lia. assert (0 <= (now - deadline) / s) by (apply Z.div_pos; lia). lia.
    + rewrite Hl. simpl. eexists _, _. split; [done|]. split; [done|].
      assert (zlen (aggregate_interval agg buffer deadline :: produced) = zlen produced + 1) as Hlen.
      { unfold zlen. simpl. lia. }
      rewrite Hlen. split; [lia|]. split.
      * intros _. destruct (Z.leb_spec (deadline + s) now); [by apply Hb|].
        destruct produced as [|p ps]; [change (zlen []) with 0 in Hnext; lia|].
        destruct fuel; simpl in Hl; [done|]. destruct (Z.leb_spec (deadline + s) now); [lia|done].
      * intros [|k] v; simpl.
        -- intros [= <-]. unfold aggregate_interval. destruct (fold_left _ _ _) as [[? ?] ?]. simpl. f_equal. lia.
        -- intros Hk. rewrite (Hts k v Hk). f_equal. lia.
  - exists [], deadline. split; [done|]. change (zlen []) with 0. repeat split; try lia. by intros [|].
Qed.

(** A processing interval that does not advance the deadline (shorter than a microsecond, which
    the filter check accepts, or so long that the calendar overflows) makes the loop run forever. *)
Theorem flush_diverges (agg : ParsedAggregateFilter) (i : MonitoredItem) (deadline now : DateTime) :
  mi_filter i = FTAggregate agg -> mi_aggregate_next_deadline i = Some deadline -> deadline <= now ->
  add_millis deadline (processing_interval agg) = deadline ->
  forall fuel, maybe_flush_aggregate fuel i now = None.
Proof.
  intros Hf Hd Hle Hadd fuel. unfold maybe_flush_aggregate. rewrite Hf, Hd.
  assert (flush_loop fuel agg (mi_aggregate_buffer i) deadline now = None) as ->; [|done].
  induction fuel as [|fuel IH]; [done|]. simpl. destruct (Z.leb_spec deadline now); [|lia].
  by rewrite Hadd, IH.
Qed.

End facts.

(** ** Witnesses *)

Lemma item_queue_bounded_witness :
  item_reachable default_limits (fresh_item 2 true)
  /\ zlen (mi_notification_queue (fresh_item 2 true)) <= 2.
Proof.
  assert (item_reachable default_limits (fresh_item 2 true)) as H.
  { apply (reach_new _ (request 2 f64_zero true FTNone) 0); vm_compute; [discriminate|reflexivity]. }
  split; [exact H|].
  exact (proj2 (item_queue_bounded default_limits (fresh_item 2 true) ltac:(vm_compute; discriminate) H)).
Defined.

Lemma enqueue_spec_witness :
  let i := enqueue_notification (data_notification 1 0) (fresh_item 2 true) in
  map erase (mi_notification_queue (enqueue_notification (data_notification 2 0) i))
  = map erase [data_notification 1 0; data_notification 2 0].
Proof.
  cbv zeta.
  destruct (enqueue_spec (data_notification 2 0) (enqueue_notification (data_notification 1 0) (fresh_item 2 true)))
    as (_ & Hfull & _).
  - split; vm_compute; discriminate.
  - destruct Hfull as [-> _]; [vm_compute; reflexivity|]. vm_compute. reflexivity.
Defined.

Lemma semantics_changed_not_lost_witness :
  let i := notify_eu_range_changed (fresh_item 1 true) f64_zero (f64_of_Z 10) in
  semantics_pending i = true
  /\ (semantics_pending (pop_notification i).2 = true
      \/ exists n, pop_notification i = (Some n, (pop_notification i).2) /\ notification_semantics_changed n = true).
Proof.
  cbv zeta. split; [vm_compute; reflexivity|].
  apply semantics_changed_not_lost; [apply op_pop|vm_compute; reflexivity].
Defined.

Lemma drain_order_witness :
  (drain 3 (fresh_item 2 false)).1 = mi_notification_queue (fresh_item 2 false).
Proof.
  destruct (drain_order (fresh_item 2 false) 3) as [H _]; [vm_compute; lia|].
  rewrite H. vm_compute. reflexivity.
Defined.

Definition slow_item : MonitoredItem :=
  report_value (item_of (request 2 (f64_of_Z 100) true FTNone)) (sample 1 1000).

Lemma sampling_interval_respected_witness :
  exists i' last', notify_data_value slow_item (sample 2 200001000) 300000000 false = Ret (i', true)
  /\ mi_last_data_value i' = Some last' /\ sampled_after 100000000 (sample 1 1000) last'.
Proof.
  eassert (H : notify_data_value slow_item (sample 2 200001000) 300000000 false = Ret (_, true))
    by (vm_compute; reflexivity).
  destruct (sampling_interval_respected slow_item _ _ (sample 1 1000) _ _ _ 100000000 ltac:(lia)
    ltac:(vm_compute; reflexivity) ltac:(vm_compute; reflexivity) ltac:(vm_compute; eauto) H) as (l & H1 & H2).
  eexists _, l. split; [exact H|]. split; [exact H1|exact H2].
Defined.

(** An aggregate filter with an interval of [m * 2^e] milliseconds. *)
Definition average_every (m e : Z) : ParsedAggregateFilter :=
  {| aggregate_type := {| namespace := 0; identifier := IdNumeric 2342 |};
     processing_interval := f64_make m e; agg_config := tt |}.

(** A calendar without an end, for a bound that holds at all times. *)
Definition unbounded_calendar : Chrono :=
  {| checked_add_signed t d := Some (t + d);
     checked_add_signed_spec t d r H := eq_sym (f_equal (default 0) H);
     time_delta_max := 9223372036854775807000000 |}.

Lemma flush_terminates_witness :
  exists produced next,
    flush_loop (C := unbounded_calendar) 5 (average_every 1 0) [sample 3 500000] 1000000 2500000 = Some (produced, next)
    /\ 2500000 < next.
Proof.
  destruct (flush_terminates (C := unbounded_calendar) (average_every 1 0) [sample 3 500000] 1000000 2500000 5)
    as (p & n & H & Hn & _).
  - exists 10000. reflexivity.
  - vm_compute. discriminate.
  - intros t _. reflexivity.
  - vm_compute. lia.
  - exists p, n. split; [exact H|exact Hn].
Defined.

(** A filter of half a microsecond, which the server accepts, on an item created at time 0. *)
Definition stuck_item : MonitoredItem := item_of (request 2 f64_zero true (FTAggregate (average_every 1 (-11)))).

Lemma flush_diverges_witness :
  (parse_aggregate_filter {| af_start_time := 0; af_aggregate_type := aggregate_type (average_every 1 (-11));
     af_processing_interval := f64_make 1 (-11); af_configuration := tt |}).2 = Ok (average_every 1 (-11))
  /\ mi_aggregate_next_deadline stuck_item = Some 0
  /\ forall fuel, maybe_flush_aggregate fuel stuck_item 0 = None.
Proof.
  split; [vm_compute; reflexivity|]. split; [vm_compute; reflexivity|].
  apply (flush_diverges (average_every 1 (-11)) stuck_item 0 0);
    [vm_compute; reflexivity|vm_compute; reflexivity|lia|vm_compute; reflexivity].
Defined.

(** A modification that shrinks the queue drops a notification that carries the SemanticsChanged
    bit, and the bit with it. *)
Definition shrink_request : MonitoredItemModifyRequest :=
  {| mr_monitored_item_id := 1;
     mr_requested_parameters := {| rp_client_handle := 5; rp_sampling_interval := f64_zero; rp_filter := MFNull;
                                   rp_queue_size := 1; rp_discard_oldest := true |} |}.
Definition marked_item : MonitoredItem :=
  enqueue_notification (data_notification 3 0)
    (report_value (notify_eu_range_changed (pop_notification (fresh_item 2 true)).2 f64_zero (f64_of_Z 10)) (sample 2 0)).

(** A modification of an item can lose a pending SemanticsChanged bit: it discards queued
    notifications without handing the bit on, unlike the discard of an overflowing queue. *)
Theorem modify_loses_semantics_changed :
  semantics_pending marked_item = true
  /\ semantics_pending (modify default_limits Both shrink_request None false 0 marked_item).1 = false.
Proof. split; vm_compute; reflexivity. Qed.
