(* ===== verification/Subscription.v ===== *)
(** * Subscriptions

    Models [async-opcua-server/src/subscriptions/subscription.rs] and the constructors of
    [async-opcua-types/src/notification_message.rs]: the publishing state machine of a subscription,
    its counters, the scan of its monitored items and its queue of notification messages.

    The map of items and the set of notified items are hash tables in the code; the order in which
    they are visited is the parameter [HashOrder].  The pools of reusable vectors only keep
    allocations and are left out.  Times ([Instant], [Duration], [DateTimeUtc]) are nanoseconds. *)

From S2P Require Import Prelude Text Float StatusCode NumericRange Variant Limits DataChangeFilter MonitoredItem.

(** ** Iteration over hash tables *)

(** The order in which the keys of a hash table are visited: some permutation of them. *)
Class HashOrder := {
  hash_order : gset Z -> list Z;
  hash_order_perm : forall s, hash_order s ≡ₚ elements s
}.

(** The order of a [BTreeSet]. *)
Definition btree_order (s : gset Z) : list Z := merge_sort Z.le (elements s).

(** ** States *)

Inductive SubscriptionState : Set := Closed | Creating | Normal | Late | KeepAlive.
#[export] Instance SubscriptionState_eq_dec : EqDecision SubscriptionState.
Proof. solve_decision. Defined.

Inductive TickReason : Set := ReceivePublishRequest | NotificationAvailable | TickTimerFired.
#[export] Instance TickReason_eq_dec : EqDecision TickReason.
Proof. solve_decision. Defined.

Record SubscriptionStateParams := {
  notifications_available : bool;
  more_notifications : bool;
  publishing_req_queued : bool
}.

Inductive UpdateStateAction : Set :=
| ActionNone | ReturnKeepAlive | ReturnNotifications | SubscriptionCreated | SubscriptionExpired.

Inductive TickResult : Set := Expired | Enqueued | TickNone.

(** The rows of the state table of OPC UA Part 4, 5.13.1.2. *)
Inductive HandledState : Set :=
| None0 | Create3 | Normal4 | Normal5 | IntervalElapsed6 | IntervalElapsed7 | IntervalElapsed8
| IntervalElapsed9 | Late10 | Late11 | Late12 | KeepAlive13 | KeepAlive14 | KeepAlive15 | KeepAlive16
| KeepAlive17 | Closed27.

(** [IMMEDIATE_NOTIFICATION_WAKE_MIN_INTERVAL]: one second. *)
Definition IMMEDIATE_NOTIFICATION_WAKE_MIN_INTERVAL : Z := 1000000000.

Section subscription.
Context {D : DynEncodable} {C : Chrono} {E : EventModel} {A : AggregateEngine} {H : HashOrder}.

(** ** Notification messages *)

Inductive NotificationData : Type :=
| DataChangeNotification (monitored_items : list MonitoredItemNotification)
| EventNotificationList (events : list EventFieldList)
| StatusChangeNotification (status : StatusCode).

Record NotificationMessage := {
  nm_sequence_number : Z;
  nm_publish_time : DateTime;
  nm_notification_data : option (list NotificationData)
}.

Definition is_nil {T} (l : list T) : bool := match l with [] => true | _ => false end.

(** [NotificationMessage::data_change] panics without any notification. *)
Definition data_change (sequence_number : Z) (publish_time : DateTime)
    (data : list MonitoredItemNotification) (events : list EventFieldList) : outcome NotificationMessage :=
  if is_nil data && is_nil events then Panic
  else
    Ret {| nm_sequence_number := sequence_number; nm_publish_time := publish_time;
           nm_notification_data :=
             Some ((if is_nil data then [] else [DataChangeNotification data])
                   ++ (if is_nil events then [] else [EventNotificationList events])) |}.
Definition status_change (sequence_number : Z) (publish_time : DateTime) (status : StatusCode) : NotificationMessage :=
  {| nm_sequence_number := sequence_number; nm_publish_time := publish_time;
     nm_notification_data := Some [StatusChangeNotification status] |}.
Definition keep_alive (sequence_number : Z) (publish_time : DateTime) : NotificationMessage :=
  {| nm_sequence_number := sequence_number; nm_publish_time := publish_time; nm_notification_data := None |}.

(** ** The subscription *)

Record Subscription := mkSubscription {
  sub_id : Z;
  sub_publishing_interval : Z;
  sub_max_lifetime_counter : Z;
  sub_max_keep_alive_counter : Z;
  sub_priority : Z;
  sub_monitored_items : gmap Z MonitoredItem;
  (** [notified_monitored_items]. *)
  sub_notified : gset Z;
  sub_state : SubscriptionState;
  sub_lifetime_counter : Z;
  sub_keep_alive_counter : Z;
  sub_first_message_sent : bool;
  sub_publishing_enabled : bool;
  sub_resend_data : bool;
  sub_sequence_number : Handle;
  (** [last_time_publishing_interval_elapsed], in nanoseconds. *)
  sub_last_elapsed : Z;
  sub_notifications : list NotificationMessage;
  sub_max_queued_notifications : Z;
  sub_max_notifications_per_publish : Z;
  sub_discarded_message_count : Z
}.

Definition sub_set_publishing_interval (v : Z) (s : Subscription) : Subscription :=
  mkSubscription (sub_id s) v (sub_max_lifetime_counter s) (sub_max_keep_alive_counter s)
    (sub_priority s) (sub_monitored_items s) (sub_notified s) (sub_state s)
    (sub_lifetime_counter s) (sub_keep_alive_counter s) (sub_first_message_sent s)
    (sub_publishing_enabled s) (sub_resend_data s) (sub_sequence_number s) (sub_last_elapsed s)
    (sub_notifications s) (sub_max_queued_notifications s) (sub_max_notifications_per_publish s)
    (sub_discarded_message_count s).
Definition sub_set_max_lifetime_counter (v : Z) (s : Subscription) : Subscription :=
  mkSubscription (sub_id s) (sub_publishing_interval s) v (sub_max_keep_alive_counter s)
    (sub_priority s) (sub_monitored_items s) (sub_notified s) (sub_state s)
    (sub_lifetime_counter s) (sub_keep_alive_counter s) (sub_first_message_sent s)
    (sub_publishing_enabled s) (sub_resend_data s) (sub_sequence_number s) (sub_last_elapsed s)
    (sub_notifications s) (sub_max_queued_notifications s) (sub_max_notifications_per_publish s)
    (sub_discarded_message_count s).
Definition sub_set_max_keep_alive_counter (v : Z) (s : Subscription) : Subscription :=
  mkSubscription (sub_id s) (sub_publishing_interval s) (sub_max_lifetime_counter s) v
    (sub_priority s) (sub_monitored_items s) (sub_notified s) (sub_state s)
    (sub_lifetime_counter s) (sub_keep_alive_counter s) (sub_first_message_sent s)
    (sub_publishing_enabled s) (sub_resend_data s) (sub_sequence_number s) (sub_last_elapsed s)
    (sub_notifications s) (sub_max_queued_notifications s) (sub_max_notifications_per_publish s)
    (sub_discarded_message_count s).
Definition sub_set_priority (v : Z) (s : Subscription) : Subscription :=
  mkSubscription (sub_id s) (sub_publishing_interval s) (sub_max_lifetime_counter s)
    (sub_max_keep_alive_counter s) v (sub_monitored_items s) (sub_notified s) (sub_state s)
    (sub_lifetime_counter s) (sub_keep_alive_counter s) (sub_first_message_sent s)
    (sub_publishing_enabled s) (sub_resend_data s) (sub_sequence_number s) (sub_last_elapsed s)
    (sub_notifications s) (sub_max_queued_notifications s) (sub_max_notifications_per_publish s)
    (sub_discarded_message_count s).
Definition sub_set_monitored_items (v : gmap Z MonitoredItem) (s : Subscription) : Subscription :=
  mkSubscription (sub_id s) (sub_publishing_interval s) (sub_max_lifetime_counter s)
    (sub_max_keep_alive_counter s) (sub_priority s) v (sub_notified s) (sub_state s)
    (sub_lifetime_counter s) (sub_keep_alive_counter s) (sub_first_message_sent s)
    (sub_publishing_enabled s) (sub_resend_data s) (sub_sequence_number s) (sub_last_elapsed s)
    (sub_notifications s) (sub_max_queued_notifications s) (sub_max_notifications_per_publish s)
    (sub_discarded_message_count s).
Definition sub_set_notified (v : gset Z) (s : Subscription) : Subscription :=
  mkSubscription (sub_id s) (sub_publishing_interval s) (sub_max_lifetime_counter s)
    (sub_max_keep_alive_counter s) (sub_priority s) (sub_monitored_items s) v (sub_state s)
    (sub_lifetime_counter s) (sub_keep_alive_counter s) (sub_first_message_sent s)
    (sub_publishing_enabled s) (sub_resend_data s) (sub_sequence_number s) (sub_last_elapsed s)
    (sub_notifications s) (sub_max_queued_notifications s) (sub_max_notifications_per_publish s)
    (sub_discarded_message_count s).
Definition sub_set_state (v : SubscriptionState) (s : Subscription) : Subscription :=
  mkSubscription (sub_id s) (sub_publishing_interval s) (sub_max_lifetime_counter s)
    (sub_max_keep_alive_counter s) (sub_priority s) (sub_monitored_items s) (sub_notified s) v
    (sub_lifetime_counter s) (sub_keep_alive_counter s) (sub_first_message_sent s)
    (sub_publishing_enabled s) (sub_resend_data s) (sub_sequence_number s) (sub_last_elapsed s)
    (sub_notifications s) (sub_max_queued_notifications s) (sub_max_notifications_per_publish s)
    (sub_discarded_message_count s).
Definition sub_set_lifetime_counter (v : Z) (s : Subscription) : Subscription :=
  mkSubscription (sub_id s) (sub_publishing_interval s) (sub_max_lifetime_counter s)
    (sub_max_keep_alive_counter s) (sub_priority s) (sub_monitored_items s) (sub_notified s)
    (sub_state s) v (sub_keep_alive_counter s) (sub_first_message_sent s)
    (sub_publishing_enabled s) (sub_resend_data s) (sub_sequence_number s) (sub_last_elapsed s)
    (sub_notifications s) (sub_max_queued_notifications s) (sub_max_notifications_per_publish s)
    (sub_discarded_message_count s).
Definition sub_set_keep_alive_counter (v : Z) (s : Subscription) : Subscription :=
  mkSubscription (sub_id s) (sub_publishing_interval s) (sub_max_lifetime_counter s)
    (sub_max_keep_alive_counter s) (sub_priority s) (sub_monitored_items s) (sub_notified s)
    (sub_state s) (sub_lifetime_counter s) v (sub_first_message_sent s) (sub_publishing_enabled
    s) (sub_resend_data s) (sub_sequence_number s) (sub_last_elapsed s) (sub_notifications s)
    (sub_max_queued_notifications s) (sub_max_notifications_per_publish s)
    (sub_discarded_message_count s).
Definition sub_set_first_message_sent (v : bool) (s : Subscription) : Subscription :=
  mkSubscription (sub_id s) (sub_publishing_interval s) (sub_max_lifetime_counter s)
    (sub_max_keep_alive_counter s) (sub_priority s) (sub_monitored_items s) (sub_notified s)
    (sub_state s) (sub_lifetime_counter s) (sub_keep_alive_counter s) v (sub_publishing_enabled
    s) (sub_resend_data s) (sub_sequence_number s) (sub_last_elapsed s) (sub_notifications s)
    (sub_max_queued_notifications s) (sub_max_notifications_per_publish s)
    (sub_discarded_message_count s).
Definition sub_set_publishing_enabled (v : bool) (s : Subscription) : Subscription :=
  mkSubscription (sub_id s) (sub_publishing_interval s) (sub_max_lifetime_counter s)
    (sub_max_keep_alive_counter s) (sub_priority s) (sub_monitored_items s) (sub_notified s)
    (sub_state s) (sub_lifetime_counter s) (sub_keep_alive_counter s) (sub_first_message_sent s)
    v (sub_resend_data s) (sub_sequence_number s) (sub_last_elapsed s) (sub_notifications s)
    (sub_max_queued_notifications s) (sub_max_notifications_per_publish s)
    (sub_discarded_message_count s).
Definition sub_set_resend_data (v : bool) (s : Subscription) : Subscription :=
  mkSubscription (sub_id s) (sub_publishing_interval s) (sub_max_lifetime_counter s)
    (sub_max_keep_alive_counter s) (sub_priority s) (sub_monitored_items s) (sub_notified s)
    (sub_state s) (sub_lifetime_counter s) (sub_keep_alive_counter s) (sub_first_message_sent s)
    (sub_publishing_enabled s) v (sub_sequence_number s) (sub_last_elapsed s) (sub_notifications
    s) (sub_max_queued_notifications s) (sub_max_notifications_per_publish s)
    (sub_discarded_message_count s).
Definition sub_set_sequence_number (v : Handle) (s : Subscription) : Subscription :=
  mkSubscription (sub_id s) (sub_publishing_interval s) (sub_max_lifetime_counter s)
    (sub_max_keep_alive_counter s) (sub_priority s) (sub_monitored_items s) (sub_notified s)
    (sub_state s) (sub_lifetime_counter s) (sub_keep_alive_counter s) (sub_first_message_sent s)
    (sub_publishing_enabled s) (sub_resend_data s) v (sub_last_elapsed s) (sub_notifications s)
    (sub_max_queued_notifications s) (sub_max_notifications_per_publish s)
    (sub_discarded_message_count s).
Definition sub_set_last_elapsed (v : Z) (s : Subscription) : Subscription :=
  mkSubscription (sub_id s) (sub_publishing_interval s) (sub_max_lifetime_counter s)
    (sub_max_keep_alive_counter s) (sub_priority s) (sub_monitored_items s) (sub_notified s)
    (sub_state s) (sub_lifetime_counter s) (sub_keep_alive_counter s) (sub_first_message_sent s)
    (sub_publishing_enabled s) (sub_resend_data s) (sub_sequence_number s) v (sub_notifications
    s) (sub_max_queued_notifications s) (sub_max_notifications_per_publish s)
    (sub_discarded_message_count s).
Definition sub_set_notifications (v : list NotificationMessage) (s : Subscription) : Subscription :=
  mkSubscription (sub_id s) (sub_publishing_interval s) (sub_max_lifetime_counter s)
    (sub_max_keep_alive_counter s) (sub_priority s) (sub_monitored_items s) (sub_notified s)
    (sub_state s) (sub_lifetime_counter s) (sub_keep_alive_counter s) (sub_first_message_sent s)
    (sub_publishing_enabled s) (sub_resend_data s) (sub_sequence_number s) (sub_last_elapsed s)
    v (sub_max_queued_notifications s) (sub_max_notifications_per_publish s)
    (sub_discarded_message_count s).
Definition sub_set_max_notifications_per_publish (v : Z) (s : Subscription) : Subscription :=
  mkSubscription (sub_id s) (sub_publishing_interval s) (sub_max_lifetime_counter s)
    (sub_max_keep_alive_counter s) (sub_priority s) (sub_monitored_items s) (sub_notified s)
    (sub_state s) (sub_lifetime_counter s) (sub_keep_alive_counter s) (sub_first_message_sent s)
    (sub_publishing_enabled s) (sub_resend_data s) (sub_sequence_number s) (sub_last_elapsed s)
    (sub_notifications s) (sub_max_queued_notifications s) v (sub_discarded_message_count s).
Definition sub_set_discarded_message_count (v : Z) (s : Subscription) : Subscription :=
  mkSubscription (sub_id s) (sub_publishing_interval s) (sub_max_lifetime_counter s)
    (sub_max_keep_alive_counter s) (sub_priority s) (sub_monitored_items s) (sub_notified s)
    (sub_state s) (sub_lifetime_counter s) (sub_keep_alive_counter s) (sub_first_message_sent s)
    (sub_publishing_enabled s) (sub_resend_data s) (sub_sequence_number s) (sub_last_elapsed s)
    (sub_notifications s) (sub_max_queued_notifications s) (sub_max_notifications_per_publish s)
    v.

Definition subscription_new (id : Z) (publishing_enabled : bool) (publishing_interval lifetime_counter
    keep_alive_counter priority max_queued_notifications max_notifications_per_publish now : Z) : Subscription :=
  {| sub_id := id; sub_publishing_interval := publishing_interval; sub_max_lifetime_counter := lifetime_counter;
     sub_max_keep_alive_counter := keep_alive_counter; sub_priority := priority; sub_monitored_items := ∅;
     sub_notified := ∅; sub_state := Creating; sub_lifetime_counter := lifetime_counter;
     sub_keep_alive_counter := keep_alive_counter; sub_first_message_sent := false;
     sub_publishing_enabled := publishing_enabled; sub_resend_data := false;
     sub_sequence_number := handle_new 1; sub_last_elapsed := now; sub_notifications := [];
     sub_max_queued_notifications := max_queued_notifications;
     sub_max_notifications_per_publish := max_notifications_per_publish; sub_discarded_message_count := 0 |}.

(** *** Monitored items *)

Definition sub_insert (id : Z) (item : MonitoredItem) (s : Subscription) : Subscription :=
  sub_set_notified ({[id]} ∪ sub_notified s)
    (sub_set_monitored_items (<[id := item]> (sub_monitored_items s)) s).
Definition sub_remove (id : Z) (s : Subscription) : option MonitoredItem * Subscription :=
  (sub_monitored_items s !! id, sub_set_monitored_items (delete id (sub_monitored_items s)) s).
(** [drain]. *)
Definition sub_drain (s : Subscription) : list (Z * MonitoredItem) * Subscription :=
  (omap (fun id => (fun i => (id, i)) <$> sub_monitored_items s !! id) (hash_order (dom (sub_monitored_items s))),
   sub_set_monitored_items ∅ s).

(** An item that has (or may have) something to report. *)
Definition store_item (id : Z) (i : MonitoredItem) (notified : bool) (s : Subscription) : Subscription :=
  let s := sub_set_monitored_items (<[id := i]> (sub_monitored_items s)) s in
  if notified then sub_set_notified ({[id]} ∪ sub_notified s) s else s.

Definition sub_notify_data_value (id : Z) (value : DataValue) (now : DateTime) (s : Subscription)
    : outcome Subscription :=
  match sub_monitored_items s !! id with
  | Some i =>
      let! (i, notified) := notify_data_value i value now false in
      Ret (store_item id i notified s)
  | None => Ret s
  end.

Record MonitoredItemHandle := { subscription_id : Z; monitored_item_id : Z }.

Definition update_monitored_item_value (handle : MonitoredItemHandle) (value : DataValue) (now : DateTime)
    (s : Subscription) : outcome Subscription :=
  if negb (subscription_id handle =? sub_id s) then Ret s
  else sub_notify_data_value (monitored_item_id handle) value now s.

Definition sub_notify_eu_range_changed (id : Z) (low high : f64) (s : Subscription) : Subscription :=
  match sub_monitored_items s !! id with
  | Some i => store_item id (notify_eu_range_changed i low high) false s
  | None => s
  end.

(** The random bytes and the time of an overflow event are arguments, as for the item. *)
Definition sub_notify_event (id : Z) (e : event) (random : list Z) (now : DateTime) (s : Subscription) : Subscription :=
  match sub_monitored_items s !! id with
  | Some i => let '(i, notified) := notify_event i e random now in store_item id i notified s
  | None => s
  end.

(** [refresh_events]; [entropy item n]: what an overflow event of the [n]-th event would draw. *)
Definition refresh_events (entropy : Z -> nat -> list Z * DateTime) (monitored_item : option MonitoredItemHandle)
    (events : list event) (s : Subscription) : Subscription * result unit StatusCode :=
  let notify_one id n e s :=
    let '(random, now) := entropy id n in sub_notify_event id e random now s in
  match monitored_item with
  | Some handle =>
      if negb (subscription_id handle =? sub_id s) then (s, Err BadMonitoredItemIdInvalid)
      else
        match sub_monitored_items s !! monitored_item_id handle with
        | None => (s, Err BadMonitoredItemIdInvalid)
        | Some i =>
            if negb (is_event_item i) then (s, Err BadMonitoredItemIdInvalid)
            else (foldl (fun s ne => notify_one (monitored_item_id handle) ne.1 ne.2 s) s (imap pair events), Ok tt)
        end
  | None =>
      (foldl (fun s ne =>
         foldl (fun s id =>
           match sub_monitored_items s !! id with
           | Some i => if is_event_item i then notify_one id ne.1 ne.2 s else s
           | None => s
           end) s (hash_order (dom (sub_monitored_items s)))) s (imap pair events), Ok tt)
  end.

(** *** Timers and counters *)

(** [Instant - Instant] saturates at zero. *)
Definition test_and_set_publishing_interval_elapsed (now : Z) (s : Subscription) : bool * Subscription :=
  let elapsed := Z.max 0 (now - sub_last_elapsed s) in
  if sub_publishing_interval s <=? elapsed then (true, sub_set_last_elapsed now s) else (false, s).

Definition reset_keep_alive_counter (s : Subscription) : Subscription :=
  sub_set_keep_alive_counter (sub_max_keep_alive_counter s) s.
Definition reset_lifetime_counter (s : Subscription) : Subscription :=
  sub_set_lifetime_counter (sub_max_lifetime_counter s) s.
Definition start_publishing_timer (s : Subscription) : Subscription :=
  sub_set_lifetime_counter (saturating_sub (sub_lifetime_counter s) 1) s.

Definition set_publishing_interval (publishing_interval : Z) (s : Subscription) : Subscription :=
  reset_lifetime_counter (sub_set_publishing_interval publishing_interval s).
Definition next_publish_deadline (s : Subscription) : Z := sub_last_elapsed s + sub_publishing_interval s.

(** *** The state machine *)

(** The guards, in the order of the code. *)
Definition get_state_transition (s : Subscription) (tick_reason : TickReason) (p : SubscriptionStateParams)
    : HandledState :=
  let enabled := sub_publishing_enabled s in
  let available := notifications_available p in
  let more := more_notifications p in
  let queued := publishing_req_queued p in
  let slow := IMMEDIATE_NOTIFICATION_WAKE_MIN_INTERVAL <=? sub_publishing_interval s in
  match sub_state s, tick_reason with
  | Creating, _ => Create3
  | Normal, ReceivePublishRequest =>
      if negb enabled || enabled && negb more then Normal4
      else if enabled && more then Normal5
      else None0
  | Normal, NotificationAvailable =>
      if enabled && queued && slow && (available || more) then IntervalElapsed6
      else if enabled && negb queued && (available || more) then Normal5
      else None0
  | Normal, TickTimerFired =>
      if queued && enabled && available then IntervalElapsed6
      else if queued && negb (sub_first_message_sent s) && (negb enabled || enabled && negb more)
      then IntervalElapsed7
      else if negb queued && (negb (sub_first_message_sent s) || enabled && available) then IntervalElapsed8
      else if sub_first_message_sent s && (negb enabled || enabled && negb more) then IntervalElapsed9
      else if sub_lifetime_counter s <=? 1 then Closed27
      else None0
  | Late, ReceivePublishRequest =>
      if enabled && (available || more) then Late10
      else if negb enabled || enabled && negb available && negb more then Late11
      else None0
  | Late, NotificationAvailable => if enabled && (available || more) then Late10 else None0
  | Late, TickTimerFired =>
      if 1 <? sub_lifetime_counter s then Late12
      else if sub_lifetime_counter s <=? 1 then Closed27
      else None0
  | KeepAlive, NotificationAvailable =>
      if enabled && available && queued && slow then KeepAlive14
      else if enabled && available && negb queued then Late10
      else None0
  | KeepAlive, ReceivePublishRequest => KeepAlive13
  | KeepAlive, TickTimerFired =>
      if enabled && available && queued then KeepAlive14
      else if queued && (sub_keep_alive_counter s =? 1) && (negb enabled || enabled && negb available)
      then KeepAlive15
      else if (1 <? sub_keep_alive_counter s) && (negb enabled || enabled && negb available) then KeepAlive16
      else if negb queued && ((sub_keep_alive_counter s =? 1)
                              || (1 <? sub_keep_alive_counter s) && enabled && available)
      then KeepAlive17
      else if sub_lifetime_counter s <=? 1 then Closed27
      else None0
  | Closed, _ => None0
  end.

Definition handle_state_transition (transition : HandledState) (s : Subscription) : Subscription * UpdateStateAction :=
  match transition with
  | None0 => (s, ActionNone)
  | Create3 => (sub_set_first_message_sent false (sub_set_state Normal s), SubscriptionCreated)
  | Normal4 => (s, ActionNone)
  | Normal5 => (reset_lifetime_counter s, ReturnNotifications)
  | IntervalElapsed6 =>
      (sub_set_first_message_sent true (start_publishing_timer (reset_lifetime_counter s)), ReturnNotifications)
  | IntervalElapsed7 =>
      (sub_set_first_message_sent true (start_publishing_timer (reset_lifetime_counter s)), ReturnKeepAlive)
  | IntervalElapsed8 => (sub_set_state Late (start_publishing_timer s), ActionNone)
  | IntervalElapsed9 =>
      (sub_set_state KeepAlive (reset_keep_alive_counter (start_publishing_timer s)), ActionNone)
  | Late10 =>
      (sub_set_state Normal (sub_set_first_message_sent true (reset_lifetime_counter s)), ReturnNotifications)
  | Late11 =>
      (sub_set_state KeepAlive (sub_set_first_message_sent true (reset_lifetime_counter s)), ReturnKeepAlive)
  | Late12 => (sub_set_state Late (start_publishing_timer s), ActionNone)
  | KeepAlive13 => (s, ActionNone)
  | KeepAlive14 =>
      (sub_set_state Normal (sub_set_first_message_sent true (start_publishing_timer (reset_lifetime_counter s))),
       ReturnNotifications)
  | KeepAlive15 => (reset_keep_alive_counter (start_publishing_timer s), ReturnKeepAlive)
  | KeepAlive16 =>
      let s := start_publishing_timer s in
      (sub_set_keep_alive_counter (sub_keep_alive_counter s - 1) s, ActionNone)
  | KeepAlive17 => (sub_set_state Late (start_publishing_timer s), ActionNone)
  | Closed27 => (sub_set_state Closed s, SubscriptionExpired)
  end.

Definition sub_notifications_available (resend_data : bool) (s : Subscription) : bool :=
  if negb (bool_decide (sub_notified s = ∅)) then true
  else if resend_data
       then existsb (fun kv => has_last_value kv.2) (map_to_list (sub_monitored_items s))
       else false.

(** *** Scanning the items *)

(** The scratch state of a scan: the sequence number generator, the notifications collected for the
    next message, the messages made. *)
Record scan := mkScan {
  sc_sequence_number : Handle;
  sc_notifications : list Notification;
  sc_messages : list NotificationMessage
}.

Definition data_of (ns : list Notification) : list MonitoredItemNotification :=
  omap (fun n => match n with NData d => Some d | NEvent _ => None end) ns.
Definition events_of (ns : list Notification) : list EventFieldList :=
  omap (fun n => match n with NEvent e => Some e | NData _ => None end) ns.

Definition make_notification_message (next_sequence_number : Z) (notifications : list Notification) (now : Z)
    : outcome NotificationMessage :=
  data_change next_sequence_number (datetime_from now) (data_of notifications) (events_of notifications).

(** The collected notifications become a message. *)
Definition flush_scan (now : Z) (sc : scan) : outcome scan :=
  let '(n, h) := handle_next (sc_sequence_number sc) in
  let! msg := make_notification_message n (sc_notifications sc) now in
  Ret (mkScan h [] (sc_messages sc ++ [msg])).

(** One notification taken from an item. *)
Definition push_notification (max_notifications now : Z) (n : Notification) (sc : scan) : outcome scan :=
  let sc := mkScan (sc_sequence_number sc) (sc_notifications sc ++ [n]) (sc_messages sc) in
  if (max_notifications <=? zlen (sc_notifications sc)) && (0 <? max_notifications)
  then flush_scan now sc else Ret sc.

(** [while let Some(notif) = item.pop_notification()]. *)
Fixpoint pop_loop (fuel : nat) (max_notifications now : Z) (i : MonitoredItem) (sc : scan)
    : outcome (MonitoredItem * scan) :=
  match fuel with
  | O => OutOfFuel
  | S fuel' =>
      match pop_notification i with
      | (None, i) => Ret (i, sc)
      | (Some n, i) =>
          let! sc := push_notification max_notifications now n sc in
          pop_loop fuel' max_notifications now i sc
      end
  end.
(** The loop runs once per queued notification, once for an overflow event, and once more. *)
Definition pop_fuel (i : MonitoredItem) : nat := length (mi_notification_queue i) + 2.
Definition pop_all (max_notifications now : Z) (i : MonitoredItem) (sc : scan) : outcome (MonitoredItem * scan) :=
  pop_loop (pop_fuel i) max_notifications now i sc.

(** [tick_monitored_item]; [fuel] bounds the loop over aggregate intervals. *)
Definition tick_monitored_item (fuel : nat) (now : Z) (resend_data : bool) (max_notifications : Z)
    (i : MonitoredItem) (triggers : list (Z * Z)) (sc : scan)
    : outcome (MonitoredItem * list (Z * Z) * scan) :=
  let! (i, _) := maybe_enqueue_skipped_value i (datetime_from now) in
  let! (i, _) := fueled (maybe_flush_aggregate fuel i (datetime_from now)) in
  let '(i, triggers) :=
    if is_sampling i then
      let '(any_new, i) := has_new_notifications i in
      (i, if any_new
          then triggers ++ map (fun id => (mi_id i, id)) (btree_order (mi_triggered_items i))
          else triggers)
    else (i, triggers) in
  if is_reporting i then
    let i := if resend_data then add_current_value_to_queue i else i in
    if has_notifications i then
      let! (i, sc) := pop_all max_notifications now i sc in
      Ret (i, triggers, sc)
    else Ret (i, triggers, sc)
  else Ret (i, triggers, sc).

(** The loop over the items with the given identifiers; a missing one is skipped. *)
Fixpoint tick_items (fuel : nat) (now : Z) (resend_data : bool) (max_notifications : Z) (ids : list Z)
    (items : gmap Z MonitoredItem) (triggers : list (Z * Z)) (sc : scan)
    : outcome (gmap Z MonitoredItem * list (Z * Z) * scan) :=
  match ids with
  | [] => Ret (items, triggers, sc)
  | id :: ids' =>
      match items !! id with
      | None => tick_items fuel now resend_data max_notifications ids' items triggers sc
      | Some i =>
          let! (i, triggers, sc) := tick_monitored_item fuel now resend_data max_notifications i triggers sc in
          tick_items fuel now resend_data max_notifications ids' (<[id := i]> items) triggers sc
      end
  end.

Fixpoint handle_triggers (max_notifications now : Z) (triggers : list (Z * Z)) (items : gmap Z MonitoredItem)
    (sc : scan) : outcome (gmap Z MonitoredItem * scan) :=
  match triggers with
  | [] => Ret (items, sc)
  | (triggering_item, item_id) :: triggers' =>
      match items !! item_id with
      | None =>
          let items := match items !! triggering_item with
                       | Some item => <[triggering_item := remove_dead_trigger item_id item]> items
                       | None => items
                       end in
          handle_triggers max_notifications now triggers' items sc
      | Some item =>
          let! (item, sc) := pop_all max_notifications now item sc in
          handle_triggers max_notifications now triggers' (<[item_id := item]> items) sc
      end
  end.

Definition tick_monitored_items (fuel : nat) (now : Z) (resend_data : bool) (s : Subscription)
    : outcome (Subscription * list NotificationMessage) :=
  let max := sub_max_notifications_per_publish s in
  let sc := mkScan (sub_sequence_number s) [] [] in
  let '(ids, s) :=
    if resend_data then (hash_order (dom (sub_monitored_items s)), s)
    else (hash_order (sub_notified s), sub_set_notified ∅ s) in
  let! (items, triggers, sc) := tick_items fuel now resend_data max ids (sub_monitored_items s) [] sc in
  let! (items, sc) := handle_triggers max now triggers items sc in
  let! sc := (if is_nil (sc_notifications sc) then Ret sc else flush_scan now sc) in
  Ret (sub_set_sequence_number (sc_sequence_number sc) (sub_set_monitored_items items s), sc_messages sc).

(** *** The message queue *)

Definition sub_enqueue_notification (notification : NotificationMessage) (s : Subscription) : Subscription :=
  sub_set_notifications (sub_notifications s ++ [notification]) s.

(** [dropped as u32], added with saturation. *)
Definition enforce_queued_notification_limit (s : Subscription) : Subscription :=
  if (sub_max_queued_notifications s =? 0)
     || (zlen (sub_notifications s) <=? sub_max_queued_notifications s) then s
  else
    let dropped := zlen (sub_notifications s) - sub_max_queued_notifications s in
    sub_set_discarded_message_count (saturating_add32 (sub_discarded_message_count s) (wrap32 dropped))
      (sub_set_notifications (drop (Z.to_nat dropped) (sub_notifications s)) s).

Definition take_notification (s : Subscription) : option NotificationMessage * Subscription :=
  let '(q, m) := pop_front (sub_notifications s) in (m, sub_set_notifications q s).
Definition sub_more_notifications (s : Subscription) : bool := negb (is_nil (sub_notifications s)).
Definition ready_to_remove (s : Subscription) : bool :=
  bool_decide (sub_state s = Closed) && is_nil (sub_notifications s).

(** *** The tick *)

Definition tick_action (fuel : nat) (now : Z) (action : UpdateStateAction) (s : Subscription)
    : outcome (Subscription * TickResult) :=
  match action with
  | ActionNone => Ret (s, TickNone)
  | ReturnKeepAlive =>
      let notification := keep_alive (peek_next (sub_sequence_number s)) (datetime_from now) in
      Ret (enforce_queued_notification_limit (sub_enqueue_notification notification s), Enqueued)
  | ReturnNotifications =>
      let resend_data := sub_resend_data s in
      let s := sub_set_resend_data false s in
      let! (s, messages) := tick_monitored_items fuel now resend_data s in
      let s := foldl (fun s msg => sub_enqueue_notification msg s) s messages in
      Ret (enforce_queued_notification_limit s, Enqueued)
  | SubscriptionCreated => Ret (s, TickNone)
  | SubscriptionExpired =>
      let s := sub_set_monitored_items ∅ s in
      let '(n, h) := handle_next (sub_sequence_number s) in
      let s := sub_set_sequence_number h s in
      let notification := status_change n (datetime_from now) BadTimeout in
      Ret (enforce_queued_notification_limit (sub_enqueue_notification notification s), Expired)
  end.

Definition tick (fuel : nat) (now now_instant : Z) (tick_reason : TickReason) (publishing_req_queued : bool)
    (s : Subscription) : outcome (Subscription * TickResult) :=
  let '(publishing_interval_elapsed, s) :=
    match tick_reason with
    | ReceivePublishRequest | NotificationAvailable => (false, s)
    | TickTimerFired =>
        if bool_decide (sub_state s = Creating) then (true, s)
        else test_and_set_publishing_interval_elapsed now_instant s
    end in
  if bool_decide (tick_reason = TickTimerFired) && negb publishing_interval_elapsed then Ret (s, TickNone)
  else
    let transition := get_state_transition s tick_reason
      {| notifications_available := sub_notifications_available (sub_resend_data s) s;
         more_notifications := sub_more_notifications s;
         publishing_req_queued := publishing_req_queued |} in
    let '(s, action) := handle_state_transition transition s in
    tick_action fuel now action s.

End subscription.
