(* ===== verification/SubscriptionFacts.v ===== *)
(** * Facts about subscriptions

    The messages of a tick of [Subscription.v] (their sequence numbers, their sizes, the limit of the
    queue), the delivery of an item's notifications, the lifetime of a subscription without publish
    requests, and the items a tick forgets. *)

From S2P Require Import Prelude Text Float StatusCode NumericRange Variant Limits DataChangeFilter MonitoredItem.
From S2P Require Import Concrete MonitoredItemFacts Subscription.

Section facts.
Context {D : DynEncodable} {C : Chrono} {E : EventModel} {A : AggregateEngine} {H : HashOrder}.

(** ** Messages *)

Definition msg_data (m : NotificationMessage) : list MonitoredItemNotification :=
  flat_map (fun d => match d with DataChangeNotification l => l | _ => [] end) (default [] (nm_notification_data m)).
Definition msg_events (m : NotificationMessage) : list EventFieldList :=
  flat_map (fun d => match d with EventNotificationList l => l | _ => [] end) (default [] (nm_notification_data m)).
Definition msg_size (m : NotificationMessage) : Z := zlen (msg_data m) + zlen (msg_events m).
Definition has_data (m : NotificationMessage) : bool :=
  match nm_notification_data m with Some _ => true | None => false end.

(** The first [n] numbers of a generator. *)
Definition issued (n : nat) (h : Handle) : list Z := map (fun k => next (handle_after k h)) (seq 0 n).

Lemma issued_S n h : issued (S n) h = issued n h ++ [next (handle_after n h)].
Proof. unfold issued. by rewrite seq_S, map_app. Qed.

Lemma data_events_length ns : zlen (data_of ns) + zlen (events_of ns) = zlen ns.
Proof.
  induction ns as [|[d|e] ns IH]; [done|..]; rewrite zlen_cons, <-IH.
  - change (data_of (NData d :: ns)) with (d :: data_of ns).
    change (events_of (NData d :: ns)) with (events_of ns). rewrite zlen_cons. lia.
  - change (data_of (NEvent e :: ns)) with (data_of ns).
    change (events_of (NEvent e :: ns)) with (e :: events_of ns). rewrite zlen_cons. lia.
Qed.
Lemma data_of_app a b : data_of (a ++ b) = data_of a ++ data_of b.
Proof. apply omap_app. Qed.
Lemma events_of_app a b : events_of (a ++ b) = events_of a ++ events_of b.
Proof. apply omap_app. Qed.

Lemma make_message_ret n ns now : ns <> [] -> exists m, make_notification_message n ns now = Ret m
  /\ nm_sequence_number m = n /\ nm_publish_time m = datetime_from now
  /\ msg_data m = data_of ns /\ msg_events m = events_of ns /\ msg_size m = zlen ns /\ has_data m = true.
Proof.
  intros Hns. unfold make_notification_message, data_change.
  assert (is_nil (data_of ns) && is_nil (events_of ns) = false) as ->.
  { destruct ns as [|[]]; [done|..]; simpl; [done|]. by rewrite andb_false_r. }
  eexists. split; [done|]. split; [done|]. split; [done|].
  rewrite <-data_events_length. unfold msg_size, msg_data, msg_events. simpl.
  destruct (data_of ns), (events_of ns); simpl; rewrite ?app_nil_r; done.
Qed.

(** ** Scans *)

(** All notifications of a scan, in order: those in messages and those collected. *)
Definition scan_data (sc : scan) : list MonitoredItemNotification :=
  flat_map msg_data (sc_messages sc) ++ data_of (sc_notifications sc).
Definition scan_events (sc : scan) : list EventFieldList :=
  flat_map msg_events (sc_messages sc) ++ events_of (sc_notifications sc).

(** A message within the bounds of a publish. *)
Definition msg_ok (max now : Z) (m : NotificationMessage) : Prop :=
  1 <= msg_size m /\ (0 < max -> msg_size m <= max) /\ has_data m = true /\ nm_publish_time m = datetime_from now.

Record scan_ok (max now : Z) (h : Handle) (sc : scan) : Prop := {
  so_numbers : map nm_sequence_number (sc_messages sc) = issued (length (sc_messages sc)) h;
  so_handle : sc_sequence_number sc = handle_after (length (sc_messages sc)) h;
  so_messages : Forall (msg_ok max now) (sc_messages sc);
  so_room : 0 < max -> zlen (sc_notifications sc) < max
}.

(** [sc'] is [sc] with more notifications scanned. *)
Definition scanned (ns : list Notification) (sc sc' : scan) : Prop :=
  scan_data sc' = scan_data sc ++ data_of ns /\ scan_events sc' = scan_events sc ++ events_of ns.

Lemma scanned_nil sc : scanned [] sc sc.
Proof. unfold scanned. simpl. by rewrite !app_nil_r. Qed.
Lemma scanned_trans a b sc1 sc2 sc3 : scanned a sc1 sc2 -> scanned b sc2 sc3 -> scanned (a ++ b) sc1 sc3.
Proof. unfold scanned. intros [-> ->] [-> ->]. by rewrite data_of_app, events_of_app, !app_assoc. Qed.

Lemma scan_start_ok max now h : scan_ok max now h (mkScan h [] []).
Proof. split; simpl; try done. Qed.

Lemma flush_scan_ret max now h sc : scan_ok max now h (mkScan (sc_sequence_number sc) [] (sc_messages sc)) ->
  sc_notifications sc <> [] -> (0 < max -> zlen (sc_notifications sc) <= max) ->
  exists sc', flush_scan now sc = Ret sc' /\ scan_ok max now h sc' /\ scanned [] sc sc'
  /\ sc_notifications sc' = [].
Proof.
  intros [Hn Hh Hm _] Hne Hmax. simpl in *. unfold flush_scan.
  destruct (handle_next (sc_sequence_number sc)) as [n h'] eqn:Hnext.
  destruct (make_message_ret n (sc_notifications sc) now Hne) as (m & -> & Hseq & Ht & Hd & He & Hs & Hhas).
  simpl. assert (n = next (handle_after (length (sc_messages sc)) h)) as Hnn.
  { rewrite <-Hh. unfold handle_next in Hnext. by injection Hnext. }
  assert (h' = handle_after (S (length (sc_messages sc))) h) as Hh'.
  { change (h' = (handle_next (handle_after (length (sc_messages sc)) h)).2). by rewrite <-Hh, Hnext. }
  eexists. split; [done|]. split; [|split; [|done]].
  - split; simpl; rewrite ?length_app, ?map_app, ?Nat.add_1_r; simpl.
    + by rewrite issued_S, Hn, Hseq, Hnn.
    + done.
    + apply Forall_app. split; [done|]. constructor; [|done]. split; [|by auto with lia].
      rewrite Hs. unfold zlen. destruct (sc_notifications sc); [done|]. simpl. lia.
    + done.
  - unfold scanned, scan_data, scan_events. simpl. rewrite !app_nil_r, !flat_map_app. simpl.
    by rewrite Hd, He, !app_nil_r.
Qed.

Lemma push_ret max now h n sc : scan_ok max now h sc ->
  exists sc', push_notification max now n sc = Ret sc' /\ scan_ok max now h sc' /\ scanned [n] sc sc'.
Proof.
  intros Hok. unfold push_notification. simpl.
  set (sc1 := mkScan (sc_sequence_number sc) (sc_notifications sc ++ [n]) (sc_messages sc)).
  assert (scanned [n] sc sc1) as Hs1.
  { unfold scanned, scan_data, scan_events. simpl. by rewrite data_of_app, events_of_app, !app_assoc. }
  destruct Hok as [Hn Hh Hm Hr].
  destruct ((max <=? zlen (sc_notifications sc ++ [n])) && (0 <? max)) eqn:Hfull.
  - bool_to_prop. destruct (flush_scan_ret max now h sc1) as (sc' & Hf & Hok & Hs & _).
    + by split.
    + simpl. by destruct (sc_notifications sc).
    + intros Hpos. simpl. rewrite zlen_app, zlen_cons, zlen_nil. specialize (Hr Hpos). lia.
    + exists sc'. split; [done|]. split; [done|]. change [n] with ([n] ++ []). by eapply scanned_trans.
  - exists sc1. split; [done|]. split; [|done]. split; simpl; try done. intros Hpos.
    apply andb_false_iff in Hfull as [?|?]; bool_to_prop; lia.
Qed.

(** The notifications an item delivers when it is emptied. *)
Definition delivered (i : MonitoredItem) : list Notification := (drain (pop_fuel i) i).1.

Lemma pop_loop_drain fuel max now h i sc : scan_ok max now h sc ->
  has_notifications (drain fuel i).2 = false -> pop_notification (drain fuel i).2 = (None, (drain fuel i).2) ->
  (length (drain fuel i).1 < fuel)%nat ->
  exists sc', pop_loop fuel max now i sc = Ret ((drain fuel i).2, sc')
  /\ scan_ok max now h sc' /\ scanned (drain fuel i).1 sc sc'.
Proof.
  revert i sc. induction fuel as [|fuel IH]; intros i sc Hok Hemp Hpop Hlen; simpl in *; [lia|].
  destruct (pop_notification i) as [[n|] i1] eqn:Hp.
  - destruct (push_ret max now h n sc Hok) as (sc1 & -> & Hok1 & Hs1). simpl.
    specialize (IH i1 sc1 Hok1). destruct (drain fuel i1) as [ns i2]. simpl in *.
    destruct IH as (sc2 & H1 & H2 & H3); [done..|lia|]. exists sc2. repeat split; [done|apply H2..| |];
      destruct (scanned_trans [n] ns sc sc1 sc2) as [? ?]; done.
  - simpl in *. exists sc. split; [done|]. split; [done|]. apply scanned_nil.
Qed.

Lemma pop_empty i : has_notifications i = false -> pop_notification i = (None, i).
Proof.
  unfold has_notifications, pop_notification, pop_front.
  destruct (mi_notification_queue i), (mi_overflow_event i); simpl; done.
Qed.

Lemma drain_spec i :
  (drain (pop_fuel i) i).1 = (if mi_discard_oldest i then overflow_indicator i ++ mi_notification_queue i
                              else mi_notification_queue i ++ overflow_indicator i)
  /\ has_notifications (drain (pop_fuel i) i).2 = false.
Proof. apply drain_all. unfold pop_fuel. lia. Qed.

Lemma pop_all_ret max now h i sc : scan_ok max now h sc ->
  exists sc', pop_all max now i sc = Ret ((drain (pop_fuel i) i).2, sc')
  /\ has_notifications (drain (pop_fuel i) i).2 = false
  /\ scan_ok max now h sc' /\ scanned (delivered i) sc sc'.
Proof.
  intros Hok. destruct (drain_spec i) as [Hd He].
  destruct (pop_loop_drain (pop_fuel i) max now h i sc Hok He (pop_empty _ He)) as (sc' & H1 & H2 & H3).
  - rewrite Hd. unfold pop_fuel, overflow_indicator.
    destruct (mi_discard_oldest i), (mi_overflow_event i); rewrite ?length_app; simpl; lia.
  - by exists sc'.
Qed.

(** Emptying an item into a scan takes all its notifications in the order of delivery, and each of
    them ends up, in that order, in the messages made or among the notifications collected for the
    next one; the loop ends, no message is empty and none exceeds the limit per publish. *)
Theorem pop_all_delivers (max now : Z) (h : Handle) (i : MonitoredItem) (sc : scan) :
  scan_ok max now h sc ->
  exists i' sc', pop_all max now i sc = Ret (i', sc')
  /\ has_notifications i' = false
  /\ scan_ok max now h sc'
  /\ scanned (if mi_discard_oldest i then overflow_indicator i ++ mi_notification_queue i
              else mi_notification_queue i ++ overflow_indicator i) sc sc'.
Proof.
  intros Hok. destruct (pop_all_ret max now h i sc Hok) as (sc' & H1 & H2 & H3 & H4).
  exists (drain (pop_fuel i) i).2, sc'. repeat split; try done; [apply H3..| |]; destruct (drain_spec i) as [<- _];
    apply H4.
Qed.

(** ** Ticks *)

Lemma tick_item_scan fuel now resend max h i trig sc i' trig' sc' : scan_ok max now h sc ->
  tick_monitored_item fuel now resend max i trig sc = Ret (i', trig', sc') -> scan_ok max now h sc'.
Proof.
  intros Hok. unfold tick_monitored_item.
  intros ([i1 b1] & _ & ([i2 b2] & _ & Ht)%outcome_bind_ret)%outcome_bind_ret.
  set (p := if is_sampling i2 then _ else _) in Ht. destruct p as [i3 trig3].
  destruct (is_reporting i3); [|by injection Ht as _ _ <-].
  set (i4 := if resend then _ else _) in Ht. destruct (has_notifications i4); [|by injection Ht as _ _ <-].
  destruct (pop_all_ret max now h i4 sc Hok) as (sc1 & Hp & _ & Hok1 & _). rewrite Hp in Ht. simpl in Ht.
  by injection Ht as _ _ <-.
Qed.

Lemma tick_items_scan fuel now resend max h ids : forall items trig sc items' trig' sc', scan_ok max now h sc ->
  tick_items fuel now resend max ids items trig sc = Ret (items', trig', sc') -> scan_ok max now h sc'.
Proof.
  induction ids as [|id ids IH]; intros items trig sc items' trig' sc' Hok; simpl; [by intros [= _ _ <-]|].
  destruct (items !! id) as [i|]; [|by apply IH].
  intros ([[i1 trig1] sc1] & Hi & Ht)%outcome_bind_ret. eapply IH; [|exact Ht]. by eapply tick_item_scan.
Qed.

Lemma handle_triggers_ret max now h trig : forall items sc, scan_ok max now h sc ->
  exists items' sc', handle_triggers max now trig items sc = Ret (items', sc') /\ scan_ok max now h sc'.
Proof.
  induction trig as [|[t id] trig IH]; intros items sc Hok; simpl; [by exists items, sc|].
  destruct (items !! id) as [i|]; [|by apply IH].
  destruct (pop_all_ret max now h i sc Hok) as (sc1 & -> & _ & Hok1 & _). simpl. by apply IH.
Qed.

Lemma tick_monitored_items_messages fuel now resend s s' msgs :
  tick_monitored_items fuel now resend s = Ret (s', msgs) ->
  map nm_sequence_number msgs = issued (length msgs) (sub_sequence_number s)
  /\ sub_sequence_number s' = handle_after (length msgs) (sub_sequence_number s)
  /\ Forall (msg_ok (sub_max_notifications_per_publish s) now) msgs
  /\ sub_notifications s' = sub_notifications s
  /\ sub_max_queued_notifications s' = sub_max_queued_notifications s
  /\ sub_discarded_message_count s' = sub_discarded_message_count s
  /\ sub_state s' = sub_state s /\ (resend = false -> sub_notified s' = ∅).
Proof.
  unfold tick_monitored_items. set (max := sub_max_notifications_per_publish s).
  set (p := if resend then _ else _). destruct p as [ids s1] eqn:Hp.
  assert (sub_notifications s1 = sub_notifications s
    /\ sub_max_queued_notifications s1 = sub_max_queued_notifications s
    /\ sub_discarded_message_count s1 = sub_discarded_message_count s
    /\ sub_state s1 = sub_state s /\ (resend = false -> sub_notified s1 = ∅)) as Hs1.
  { unfold p in Hp. destruct resend; injection Hp as <- <-; repeat split; try done. }
  intros ([[items trig] sc1] & Hti & ([items2 sc2] & Hht & (sc3 & Hfl & [= <- <-])%outcome_bind_ret)%outcome_bind_ret)%outcome_bind_ret.
  pose proof (scan_start_ok max now (sub_sequence_number s)) as Hok0.
  pose proof (tick_items_scan _ _ _ _ _ _ _ _ _ _ _ _ Hok0 Hti) as Hok1.
  destruct (handle_triggers_ret max now (sub_sequence_number s) trig items sc1 Hok1) as (it & sc & Hht' & Hok2).
  rewrite Hht in Hht'. injection Hht' as <- <-.
  assert (scan_ok max now (sub_sequence_number s) sc3) as [Hn Hh Hm _].
  { destruct (is_nil (sc_notifications sc2)) eqn:Hnil; [by injection Hfl as <-|].
    destruct (flush_scan_ret max now (sub_sequence_number s) sc2) as (sc' & Hf & Hok3 & _).
    - destruct Hok2 as [? ? ? ?]. by split.
    - by intros Hx; rewrite Hx in Hnil.
    - intros Hpos. destruct Hok2 as [_ _ _ Hr]. specialize (Hr Hpos). lia.
    - rewrite Hfl in Hf. by injection Hf as <-. }
  simpl. split; [done|]. split; [done|]. split; [done|]. exact Hs1.
Qed.

Lemma foldl_enqueue msgs s :
  sub_notifications (foldl (fun s msg => sub_enqueue_notification msg s) s msgs) = sub_notifications s ++ msgs
  /\ sub_max_queued_notifications (foldl (fun s msg => sub_enqueue_notification msg s) s msgs) = sub_max_queued_notifications s
  /\ sub_discarded_message_count (foldl (fun s msg => sub_enqueue_notification msg s) s msgs) = sub_discarded_message_count s
  /\ sub_sequence_number (foldl (fun s msg => sub_enqueue_notification msg s) s msgs) = sub_sequence_number s
  /\ sub_state (foldl (fun s msg => sub_enqueue_notification msg s) s msgs) = sub_state s
  /\ sub_monitored_items (foldl (fun s msg => sub_enqueue_notification msg s) s msgs) = sub_monitored_items s
  /\ sub_notified (foldl (fun s msg => sub_enqueue_notification msg s) s msgs) = sub_notified s.
Proof.
  revert s. induction msgs as [|m msgs IH]; intros s; simpl; [by rewrite app_nil_r|].
  destruct (IH (sub_enqueue_notification m s)) as (-> & -> & -> & -> & -> & -> & ->).
  simpl. by rewrite <-app_assoc.
Qed.

(** The oldest messages beyond the limit. *)
Definition excess (limit : Z) {T} (q : list T) : Z := if limit =? 0 then 0 else Z.max 0 (zlen q - limit).

Lemma enforce_spec s :
  sub_notifications (enforce_queued_notification_limit s)
  = drop (Z.to_nat (excess (sub_max_queued_notifications s) (sub_notifications s))) (sub_notifications s)
  /\ sub_sequence_number (enforce_queued_notification_limit s) = sub_sequence_number s
  /\ sub_state (enforce_queued_notification_limit s) = sub_state s
  /\ sub_monitored_items (enforce_queued_notification_limit s) = sub_monitored_items s.
Proof.
  unfold enforce_queued_notification_limit, excess.
  destruct (Z.eqb_spec (sub_max_queued_notifications s) 0); simpl; [done|].
  destruct (Z.leb_spec (zlen (sub_notifications s)) (sub_max_queued_notifications s)); simpl.
  - rewrite Z.max_l by lia. done.
  - rewrite Z.max_r by lia. done.
Qed.

Lemma transition_keeps tr s s' a : handle_state_transition tr s = (s', a) ->
  sub_notifications s' = sub_notifications s /\ sub_sequence_number s' = sub_sequence_number s
  /\ sub_max_queued_notifications s' = sub_max_queued_notifications s
  /\ sub_max_notifications_per_publish s' = sub_max_notifications_per_publish s
  /\ sub_monitored_items s' = sub_monitored_items s /\ sub_notified s' = sub_notified s.
Proof. destruct tr; intros [= <- <-]; done. Qed.

Lemma interval_keeps now s b s' : test_and_set_publishing_interval_elapsed now s = (b, s') ->
  sub_notifications s' = sub_notifications s /\ sub_sequence_number s' = sub_sequence_number s
  /\ sub_max_queued_notifications s' = sub_max_queued_notifications s
  /\ sub_max_notifications_per_publish s' = sub_max_notifications_per_publish s
  /\ sub_monitored_items s' = sub_monitored_items s /\ sub_notified s' = sub_notified s.
Proof. unfold test_and_set_publishing_interval_elapsed. case_match; intros [= <- <-]; done. Qed.

Lemma enforce_times s :
  sub_last_elapsed (enforce_queued_notification_limit s) = sub_last_elapsed s
  /\ sub_publishing_interval (enforce_queued_notification_limit s) = sub_publishing_interval s.
Proof. unfold enforce_queued_notification_limit. by destruct (_ || _). Qed.

(** What a tick enqueues: nothing, one keep-alive with the next number, or messages with data that
    take consecutive numbers. *)
Definition enqueued_by_tick (max now : Z) (h h' : Handle) (msgs : list NotificationMessage) : Prop :=
  (h' = h /\ (msgs = [] \/ exists m, msgs = [m] /\ has_data m = false /\ nm_sequence_number m = peek_next h))
  \/ (map nm_sequence_number msgs = issued (length msgs) h /\ h' = handle_after (length msgs) h
      /\ Forall (fun m => has_data m = true) msgs
      /\ (Forall (msg_ok max now) msgs
          \/ exists m, msgs = [m] /\ nm_notification_data m = Some [StatusChangeNotification BadTimeout])).

Lemma tick_action_enqueues fuel now a s s' r : tick_action fuel now a s = Ret (s', r) ->
  exists msgs, enqueued_by_tick (sub_max_notifications_per_publish s) now (sub_sequence_number s) (sub_sequence_number s') msgs
  /\ (msgs = [] /\ sub_notifications s' = sub_notifications s
      \/ sub_notifications s' = drop (Z.to_nat (excess (sub_max_queued_notifications s) (sub_notifications s ++ msgs)))
                                     (sub_notifications s ++ msgs)).
Proof.
  destruct a; simpl.
  - intros [= <- <-]. exists []. split; [left; split; [done|by left]|by left].
  - intros [= <- <-]. set (m := keep_alive _ _).
    destruct (enforce_spec (sub_enqueue_notification m s)) as (-> & -> & _).
    exists [m]. split; [|by right]. left. split; [done|]. right. by exists m.
  - intros ([s1 msgs] & Ht & [= <- <-])%outcome_bind_ret. exists msgs.
    apply tick_monitored_items_messages in Ht as (Hn & Hh & Hf & Hq & Hm & _). simpl in *.
    destruct (foldl_enqueue msgs s1) as (Hq2 & Hm2 & _ & Hh2 & _).
    destruct (enforce_spec (foldl (fun s msg => sub_enqueue_notification msg s) s1 msgs)) as (-> & -> & _).
    rewrite Hh2, Hm2, Hq2, Hq, Hm. split; [|by right]. right. repeat split; [done..| |by left].
    eapply Forall_impl; [exact Hf|]. by intros m (_ & _ & ? & _).
  - intros [= <- <-]. exists []. split; [left; split; [done|by left]|by left].
  - intros [= <- <-]. set (m := status_change _ _ _).
    match goal with |- context [enforce_queued_notification_limit ?x] => destruct (enforce_spec x) as (-> & -> & _) end.
    exists [m]. split; [|by right]. right. split; [done|]. split; [done|]. split; [by constructor|].
    right. by exists m.
Qed.

Lemma zlen_drop_excess limit {T} (q : list T) : limit > 0 -> zlen (drop (Z.to_nat (excess limit q)) q) <= limit.
Proof.
  intros Hl. unfold excess, zlen. rewrite length_drop. destruct (Z.eqb_spec limit 0); lia.
Qed.

(** C38: a tick appends to the queue of a subscription either nothing, or one keep-alive that carries
    the next sequence number without using it, or messages with data (the status change of an
    expired subscription among them) that use consecutive sequence numbers, are not empty and
    respect the limit of notifications per publish; then the oldest messages beyond the limit of the
    queue are dropped, so the queue stays within its limit. *)
Theorem tick_enqueues (fuel : nat) (now now_instant : Z) (reason : TickReason) (req : bool)
    (s s' : Subscription) (r : TickResult) :
  tick fuel now now_instant reason req s = Ret (s', r) ->
  (exists msgs,
     enqueued_by_tick (sub_max_notifications_per_publish s) now (sub_sequence_number s) (sub_sequence_number s') msgs
     /\ (msgs = [] /\ sub_notifications s' = sub_notifications s
         \/ sub_notifications s' = drop (Z.to_nat (excess (sub_max_queued_notifications s) (sub_notifications s ++ msgs)))
                                        (sub_notifications s ++ msgs)))
  /\ (sub_max_queued_notifications s > 0 -> zlen (sub_notifications s) <= sub_max_queued_notifications s ->
      zlen (sub_notifications s') <= sub_max_queued_notifications s).
Proof.
  intros Ht.
  assert (exists msgs,
     enqueued_by_tick (sub_max_notifications_per_publish s) now (sub_sequence_number s) (sub_sequence_number s') msgs
     /\ (msgs = [] /\ sub_notifications s' = sub_notifications s
         \/ sub_notifications s' = drop (Z.to_nat (excess (sub_max_queued_notifications s) (sub_notifications s ++ msgs)))
                                        (sub_notifications s ++ msgs))) as Hmain.
  { unfold tick in Ht.
    set (p := match reason with TickTimerFired => _ | _ => _ end) in Ht. destruct p as [el s1] eqn:Hp.
    assert (sub_notifications s1 = sub_notifications s /\ sub_sequence_number s1 = sub_sequence_number s
      /\ sub_max_queued_notifications s1 = sub_max_queued_notifications s
      /\ sub_max_notifications_per_publish s1 = sub_max_notifications_per_publish s) as (Hq & Hh & Hm & Hn).
    { unfold p in Hp. destruct reason; [by injection Hp as _ <-..|].
      destruct (bool_decide (sub_state s = Creating)); [by injection Hp as _ <-|].
      by apply interval_keeps in Hp as (? & ? & ? & ? & _). }
    destruct (bool_decide _ && negb el).
    - injection Ht as <- _. exists []. split; [left; split; [done|by left]|by left].
    - destruct (handle_state_transition _ s1) as [s2 a] eqn:Htr.
      apply transition_keeps in Htr as (Hq2 & Hh2 & Hm2 & Hn2 & _).
      apply tick_action_enqueues in Ht as (msgs & He & Hor). exists msgs.
      rewrite Hq2, Hh2, Hm2, Hn2, Hq, Hh, Hm, Hn in *. done. }
  split; [done|]. intros Hl Hle. destruct Hmain as (msgs & _ & [[_ ->]| ->]); [done|].
  by apply zlen_drop_excess.
Qed.

(** ** Subscriptions without publish requests *)

(** Timer ticks at the given (UTC, monotonic) times, with or without a publish request queued. *)
Fixpoint timer_run (fuel : nat) (queued : bool) (times : list (Z * Z)) (s : Subscription) : outcome (Subscription * list TickResult) :=
  match times with
  | [] => Ret (s, [])
  | (now, now_instant) :: times' =>
      let! (s, r) := tick fuel now now_instant TickTimerFired queued s in
      let! (s, rs) := timer_run fuel queued times' s in
      Ret (s, r :: rs)
  end.

(** The publishing interval has elapsed at each of the times. *)
Fixpoint elapses (interval last : Z) (times : list (Z * Z)) : Prop :=
  match times with
  | [] => True
  | (_, t) :: times' => interval <= Z.max 0 (t - last) /\ elapses interval t times'
  end.

(** Nothing new to report, but messages in the queue of a subscription that has sent its first one. *)
Definition stuck (s : Subscription) : Prop :=
  sub_state s = Normal /\ sub_first_message_sent s = true /\ sub_publishing_enabled s = true
  /\ sub_notifications_available (sub_resend_data s) s = false /\ sub_notifications s <> []
  /\ 1 < sub_lifetime_counter s.

(** A bound on the timer ticks a subscription survives without publish requests. *)
Definition rank (s : Subscription) : Z :=
  let l := Z.max 1 (sub_lifetime_counter s) in
  match sub_state s with
  | Late => l
  | KeepAlive => sub_keep_alive_counter s + l
  | Normal => 1 + sub_max_keep_alive_counter s + l
  | _ => 0
  end.

Record live (s : Subscription) : Prop := {
  lv_state : sub_state s = Normal \/ sub_state s = Late \/ sub_state s = KeepAlive;
  lv_not_stuck : ~ stuck s;
  lv_max_keep_alive : 1 <= sub_max_keep_alive_counter s;
  lv_keep_alive : 1 <= sub_keep_alive_counter s;
  lv_lifetime : 0 <= sub_lifetime_counter s;
  lv_limit : 0 <= sub_max_queued_notifications s
}.

(** The subscription has expired, and its last message says so. *)
Definition expired (s : Subscription) : Prop :=
  sub_state s = Closed /\ sub_monitored_items s = ∅
  /\ exists m, last (sub_notifications s) = Some m /\ nm_notification_data m = Some [StatusChangeNotification BadTimeout].

Lemma last_drop_excess limit {T} (q : list T) x : 0 <= limit ->
  last (drop (Z.to_nat (excess limit (q ++ [x]))) (q ++ [x])) = Some x.
Proof.
  intros Hl. assert (Z.to_nat (excess limit (q ++ [x])) <= length q)%nat as Hle.
  { unfold excess, zlen. rewrite length_app. simpl. destruct (Z.eqb_spec limit 0); lia. }
  rewrite drop_app_le by done. apply last_snoc.
Qed.

Lemma timer_tick_transition fuel now t s : sub_state s <> Creating ->
  sub_publishing_interval s <= Z.max 0 (t - sub_last_elapsed s) ->
  exists s1, s1 = sub_set_last_elapsed t s
  /\ tick fuel now t TickTimerFired false s
     = let p := {| notifications_available := sub_notifications_available (sub_resend_data s) s;
                   more_notifications := sub_more_notifications s; publishing_req_queued := false |} in
       let '(s2, a) := handle_state_transition (get_state_transition s1 TickTimerFired p) s1 in
       tick_action fuel now a s2.
Proof.
  intros Hc Hel. eexists. split; [done|]. unfold tick.
  rewrite (bool_decide_eq_false_2 (sub_state s = Creating)) by done.
  unfold test_and_set_publishing_interval_elapsed.
  destruct (Z.leb_spec (sub_publishing_interval s) (Z.max 0 (t - sub_last_elapsed s))); [|lia].
  rewrite andb_false_r. done.
Qed.

(** One elapsed timer tick: the subscription expires, or stays live with a smaller rank. *)
Lemma idle_tick fuel now t s : live s ->
  sub_publishing_interval s <= Z.max 0 (t - sub_last_elapsed s) ->
  exists s' r, tick fuel now t TickTimerFired false s = Ret (s', r)
  /\ sub_last_elapsed s' = t /\ sub_publishing_interval s' = sub_publishing_interval s
  /\ (r = Expired /\ expired s' \/ live s' /\ rank s' < rank s).
Proof.
  intros [Hst Hns Hmk Hk Hl Hlim] Hel.
  destruct (timer_tick_transition fuel now t s) as (s1 & -> & ->); [by destruct Hst as [->|[->| ->]]|done|].
  set (s1 := sub_set_last_elapsed t s). cbv zeta.
  assert (forall s2, s2 = s1 -> exists s' r, tick_action fuel now SubscriptionExpired (sub_set_state Closed s2) = Ret (s', r)
    /\ sub_last_elapsed s' = t /\ sub_publishing_interval s' = sub_publishing_interval s
    /\ (r = Expired /\ expired s' \/ live s' /\ rank s' < rank s)) as Hexp.
  { intros s2 ->. simpl. eexists _, _. split; [done|].
    match goal with |- context [enforce_queued_notification_limit ?x] =>
      destruct (enforce_spec x) as (Hq & _ & Hs & Hi); destruct (enforce_times x) as [-> ->] end.
    split; [done|]. split; [done|]. left. split; [done|]. split; [by rewrite Hs|]. split; [by rewrite Hi|].
    rewrite Hq. simpl. eexists. split; [by apply last_drop_excess|done]. }
  unfold get_state_transition.
  change (sub_state s1) with (sub_state s). change (sub_publishing_enabled s1) with (sub_publishing_enabled s).
  change (sub_first_message_sent s1) with (sub_first_message_sent s).
  change (sub_lifetime_counter s1) with (sub_lifetime_counter s).
  change (sub_keep_alive_counter s1) with (sub_keep_alive_counter s). simpl.
  destruct Hst as [Hst|[Hst|Hst]]; rewrite Hst.
  - destruct (negb (sub_first_message_sent s) || _) eqn:H8.
    { eexists _, _. split; [done|]. split; [done|]. split; [done|]. right. split.
      - split; simpl; try done; [by right; left|by intros (? & _)|int_lia].
      - unfold rank. simpl. rewrite Hst. int_lia. }
    destruct (sub_first_message_sent s && _) eqn:H9.
    { eexists _, _. split; [done|]. split; [done|]. split; [done|]. right. split.
      - split; simpl; try done; [by right; right|by intros (? & _)|int_lia].
      - unfold rank. simpl. rewrite Hst. int_lia. }
    destruct (Z.leb_spec (sub_lifetime_counter s) 1); [by apply Hexp|].
    destruct Hns. repeat split; try done; bool_to_prop; try done;
      destruct (sub_first_message_sent s), (sub_publishing_enabled s); try done.
    intros Hq. unfold sub_more_notifications in H9. by rewrite Hq in H9.
  - destruct (Z.ltb_spec 1 (sub_lifetime_counter s)) as [Hgt|].
    + eexists _, _. split; [done|]. split; [done|]. split; [done|]. right. split.
      * split; simpl; try done; [by right; left|by intros (? & _)|int_lia].
      * unfold rank. simpl. rewrite Hst. int_lia.
    + destruct (Z.leb_spec (sub_lifetime_counter s) 1); [by apply Hexp|lia].
  - rewrite andb_false_r. destruct ((1 <? sub_keep_alive_counter s) && _) eqn:H16.
    { apply andb_true_iff in H16 as [H16 _]. bool_to_prop.
      eexists _, _. split; [done|]. split; [done|]. split; [done|]. right. split.
      - split; simpl; try done; [by right; right; rewrite Hst|by intros (Hs & _); simpl in Hs; congruence|int_lia..].
      - unfold rank. simpl. rewrite Hst. int_lia. }
    destruct ((sub_keep_alive_counter s =? 1) || _) eqn:H17.
    { eexists _, _. split; [done|]. split; [done|]. split; [done|]. right. split.
      - split; simpl; try done; [by right; left|by intros (? & _)|int_lia].
      - unfold rank. simpl. rewrite Hst. int_lia. }
    exfalso. apply orb_false_iff in H17 as [H17 H17']. bool_to_prop.
    destruct (Z.ltb_spec 1 (sub_keep_alive_counter s)); [|lia].
    by destruct (sub_publishing_enabled s), (sub_notifications_available (sub_resend_data s) s).
Qed.

Lemma closed_tick fuel now t s : expired s ->
  exists s', tick fuel now t TickTimerFired false s = Ret (s', TickNone) /\ expired s'.
Proof.
  intros (Hc & Hi & Hn). unfold tick. rewrite (bool_decide_eq_false_2 (sub_state s = Creating)) by congruence.
  destruct (test_and_set_publishing_interval_elapsed t s) as [b s1] eqn:Ht.
  assert (sub_state s1 = Closed) as Hc1.
  { unfold test_and_set_publishing_interval_elapsed in Ht. case_match; by injection Ht as _ <-. }
  apply interval_keeps in Ht as (Hq & _ & _ & _ & Hi1 & _).
  assert (expired s1) by (split; [done|]; split; [congruence|]; by rewrite Hq).
  destruct b; simpl; [|by exists s1]. unfold get_state_transition. rewrite Hc1. simpl. by exists s1.
Qed.

Lemma closed_run fuel times : forall s, expired s ->
  exists s' rs, timer_run fuel false times s = Ret (s', rs) /\ expired s'.
Proof.
  induction times as [|[now t] times IH]; intros s Hs; simpl; [by exists s, []|].
  destruct (closed_tick fuel now t s Hs) as (s1 & -> & Hs1). simpl.
  destruct (IH s1 Hs1) as (s' & rs & -> & ?). simpl. by exists s', (TickNone :: rs).
Qed.

(** C39: a subscription whose timer keeps firing while no publish request arrives expires: within
    [rank] publishing intervals (its lifetime counter, plus the keep-alives it still counts) it is
    closed, its monitored items are gone, and the last message of its queue is the status change
    BadTimeout. The only exception are the states described by [stuck]. *)
Theorem idle_subscription_expires (fuel : nat) (times : list (Z * Z)) (s : Subscription) :
  live s -> elapses (sub_publishing_interval s) (sub_last_elapsed s) times -> rank s <= zlen times ->
  exists s' rs, timer_run fuel false times s = Ret (s', rs) /\ Expired ∈ rs /\ expired s'.
Proof.
  revert s. induction times as [|[now t] times IH]; intros s Hl Hel Hr.
  - exfalso. destruct Hl as [[Hs|[Hs|Hs]] _ ? ? ? _]; unfold rank in Hr; rewrite Hs in Hr;
      unfold zlen in Hr; simpl in Hr; lia.
  - destruct Hel as [Hel Hels]. rewrite zlen_cons in Hr. simpl.
    destruct (idle_tick fuel now t s Hl Hel) as (s1 & r & -> & Ht & Hi & Hcase). simpl.
    destruct Hcase as [[-> Hexp]|[Hl1 Hr1]].
    + destruct (closed_run fuel times s1 Hexp) as (s' & rs & -> & ?). simpl.
      exists s', (Expired :: rs). repeat split; try done; [by left|..]; by destruct H0 as (? & ? & ?).
    + destruct (IH s1 Hl1) as (s' & rs & -> & Hin & Hexp); [by rewrite Ht, Hi|lia|]. simpl.
      exists s', (r :: rs). repeat split; try done; [by right|..]; by destruct Hexp as (? & ? & ?).
Qed.

(** In a state described by [stuck] the lifetime counter is never decremented: however long the
    client stays silent, timer ticks leave the subscription as it is and it never expires. *)
Theorem stuck_never_expires (fuel : nat) (times : list (Z * Z)) (s : Subscription) :
  stuck s ->
  exists s' rs, timer_run fuel false times s = Ret (s', rs)
  /\ stuck s' /\ sub_lifetime_counter s' = sub_lifetime_counter s
  /\ sub_notifications s' = sub_notifications s /\ Forall (eq TickNone) rs.
Proof.
  revert s. induction times as [|[now t] times IH]; intros s Hs; simpl; [exists s, []; split; [done|]; split; [done|]; by repeat split|].
  assert (exists s1, tick fuel now t TickTimerFired false s = Ret (s1, TickNone)
    /\ stuck s1 /\ sub_lifetime_counter s1 = sub_lifetime_counter s
    /\ sub_notifications s1 = sub_notifications s) as (s1 & -> & Hs1 & Hl1 & Hq1).
  { destruct Hs as (Hst & Hf & He & Ha & Hq & Hl). unfold tick.
    rewrite (bool_decide_eq_false_2 (sub_state s = Creating)) by congruence.
    destruct (test_and_set_publishing_interval_elapsed t s) as [b s1] eqn:Ht.
    assert (stuck s1 /\ sub_lifetime_counter s1 = sub_lifetime_counter s
      /\ sub_notifications s1 = sub_notifications s) as (Hs1 & Hl1 & Hq1).
    { unfold test_and_set_publishing_interval_elapsed in Ht. case_match; injection Ht as _ <-; by repeat split. }
    exists s1. destruct b; simpl; [|done]. pose proof Hs1 as Hkeep.
    destruct Hs1 as (Hst1 & Hf1 & He1 & Ha1 & Hq2 & Hlt). unfold get_state_transition.
    rewrite Hst1, Hf1, He1, Ha1. simpl. unfold sub_more_notifications.
    assert (is_nil (sub_notifications s1) = false) as -> by (by destruct (sub_notifications s1)). simpl.
    destruct (Z.leb_spec (sub_lifetime_counter s1) 1); [lia|]. done. }
  simpl. destruct (IH s1 Hs1) as (s' & rs & -> & Hs' & Hl' & Hq' & Hrs). simpl.
  exists s', (TickNone :: rs). repeat split; try apply Hs'; try congruence. by constructor.
Qed.

(** ** Items forgotten by a tick *)

Lemma scan_clears_notified (fuel : nat) (now : Z) (s s' : Subscription) (msgs : list NotificationMessage) :
  tick_monitored_items fuel now false s = Ret (s', msgs) ->
  sub_notified s' = ∅ /\ sub_notifications_available false s' = false.
Proof.
  intros Ht. apply tick_monitored_items_messages in Ht as (_ & _ & _ & _ & _ & _ & _ & Hn).
  rewrite Hn by done. split; [done|]. unfold sub_notifications_available. by rewrite Hn.
Qed.

End facts.

(** ** Witnesses *)

(** Hash tables visited in ascending order. *)
Lemma btree_order_perm (s : gset Z) : btree_order s ≡ₚ elements s.
Proof. apply merge_sort_Permutation. Qed.
#[global] Instance ascending : HashOrder := {| hash_order := btree_order; hash_order_perm := btree_order_perm |}.

(** A subscription with a publishing interval of 100 ms, a lifetime of 30 and a keep-alive count of 10. *)
Definition small_subscription : Subscription := subscription_new 1 true 100000000 30 10 0 5 2 0.
(** One with an item that reports every value, after its creation has been handled. *)
Definition running (s : Subscription) : Subscription :=
  match tick 5 0 0 TickTimerFired false s with Ret (s, _) => s | _ => s end.
Definition busy_subscription : Subscription := running (sub_insert 1 (fresh_item 3 true) small_subscription).

Lemma pop_all_delivers_witness :
  exists i' sc', pop_all 2 0 (fresh_item 3 true) (mkScan (handle_new 1) [] []) = Ret (i', sc')
  /\ has_notifications i' = false.
Proof.
  destruct (pop_all_delivers 2 0 (handle_new 1) (fresh_item 3 true) _ (scan_start_ok 2 0 (handle_new 1)))
    as (i' & sc' & H1 & H2 & _).
  exists i', sc'. split; [exact H1|exact H2].
Defined.

Lemma tick_enqueues_witness :
  exists s' r, tick 5 200000000 200000000 TickTimerFired true busy_subscription = Ret (s', r)
  /\ zlen (sub_notifications s') <= 5.
Proof.
  eassert (H : tick 5 200000000 200000000 TickTimerFired true busy_subscription = Ret (_, _))
    by (vm_compute; reflexivity).
  destruct (tick_enqueues _ _ _ _ _ _ _ _ H) as [_ Hl].
  eexists _, _. split; [exact H|]. apply Hl; vm_compute; [reflexivity|discriminate].
Defined.

(** Publishing intervals that elapse one after the other, from the first one on. *)
Definition intervals (n : nat) : list (Z * Z) :=
  map (fun k => (Z.of_nat k * 100000000, Z.of_nat k * 100000000)) (seq 1 n).

Definition late_subscription : Subscription := sub_set_state Late (sub_set_lifetime_counter 3 busy_subscription).

Lemma idle_subscription_expires_witness :
  exists s' rs, timer_run 5 false (intervals 3) late_subscription = Ret (s', rs) /\ Expired ∈ rs /\ expired s'.
Proof.
  apply idle_subscription_expires.
  - split; try (vm_compute; discriminate); [right; left; vm_compute; reflexivity|].
    intros (Hs & _). vm_compute in Hs. discriminate.
  - vm_compute. repeat split; discriminate.
  - vm_compute. discriminate.
Defined.

(** Three values are waiting and a publish request is queued: the first publishing interval makes two
    messages, of which the request takes one.  After that the client is silent. *)
Definition stuck_subscription : Subscription :=
  match (let! s := sub_notify_data_value 1 (sample 1 10) 10 busy_subscription in
         let! s := sub_notify_data_value 1 (sample 2 20) 20 s in
         tick 5 100000000 100000000 TickTimerFired true s) with
  | Ret (s, _) => (take_notification s).2
  | _ => small_subscription
  end.

Lemma stuck_never_expires_witness :
  stuck stuck_subscription
  /\ exists s' rs, timer_run 5 false (intervals 100) stuck_subscription = Ret (s', rs) /\ stuck s'.
Proof.
  assert (stuck stuck_subscription) as H.
  { split; [vm_compute; reflexivity|]. split; [vm_compute; reflexivity|]. split; [vm_compute; reflexivity|].
    split; [vm_compute; reflexivity|]. split; [vm_compute; discriminate|vm_compute; reflexivity]. }
  split; [exact H|]. destruct (stuck_never_expires 5 (intervals 100) stuck_subscription H) as (s' & rs & Hr & Hs & _).
  exists s', rs. split; [exact Hr|exact Hs].
Defined.

(** An item with a sampling interval of one second, its initial value reported at time 0, that has
    delayed a sample taken at 50 ms to 1 s. *)
Definition delayed_subscription : Subscription :=
  let s := running (sub_insert 1 (item_of (request 3 (f64_of_Z 1000) true FTNone))
                        (subscription_new 1 true 100000000 30 10 0 0 2 0)) in
  match sub_notify_data_value 1 (sample 1 50000000) 50000000 s with Ret s => s | _ => small_subscription end.

(** The session serves the subscription: at each time a publish request is waiting, and takes the
    oldest message after the tick. *)
Fixpoint served_run (fuel : nat) (times : list (Z * Z)) (s : Subscription)
    : outcome (Subscription * list NotificationMessage) :=
  match times with
  | [] => Ret (s, [])
  | (now, now_instant) :: times' =>
      let! (s, _) := tick fuel now now_instant TickTimerFired true s in
      let '(m, s) := take_notification s in
      let! (s, ms) := served_run fuel times' s in
      Ret (s, option_list m ++ ms)
  end.

(** A sample delayed by the sampling interval can stay unreported forever: the scan at 100 ms
    empties the set of notified items although the sample is only due at 1 s, so that fifty
    publishing intervals later the client, which answered each of them with a publish request, has
    received the placeholder for the initial value and keep-alives only, and the item still holds the sample. *)
Theorem delayed_sample_not_reported :
  exists s ms, served_run 5 (intervals 50) delayed_subscription = Ret (s, ms)
  /\ (exists i, sub_monitored_items s !! 1 = Some i
      /\ (v ← mi_skipped i; dv_value v) = Some (VInt32 1)
      /\ (v ← mi_skipped i; source_timestamp v) = Some 1000000000)
  /\ sub_notified s = ∅ /\ sub_notifications s = []
  /\ omap (fun n => dv_value (mn_value n)) (flat_map msg_data ms) = [VEmpty]
  /\ (1 < length ms)%nat.
Proof.
  eexists _, _. split; [vm_compute; reflexivity|].
  split; [eexists; split; [vm_compute; reflexivity|split; vm_compute; reflexivity]|].
  split; [vm_compute; reflexivity|]. split; [vm_compute; reflexivity|]. split; [vm_compute; reflexivity|].
  vm_compute. lia.
Qed.
