(* ===== verification/RetransmissionQueue.v ===== *)
(** * The retransmission queue

    Models [async-opcua-server/src/subscriptions/retransmission_queue.rs]: the sent but not yet
    acknowledged notification messages of a session, in an ordered map from insertion numbers with
    two indexes.  The abstract specification is a plain list of entries in the order of insertion;
    every operation is shown to implement the corresponding list operation.

    Shared messages ([Arc]) are immutable values here, and the return of their vectors to a pool is
    left out. *)

From S2P Require Import Prelude Text Float StatusCode NumericRange Variant Limits DataChangeFilter MonitoredItem.
From S2P Require Import Concrete Subscription.

(** ** Ordered sets *)

Lemma btree_order_sorted s : StronglySorted Z.le (btree_order s).
Proof. apply Sorted_StronglySorted; [intros ???; lia|]. apply Sorted_merge_sort. intros ??; lia. Qed.
Lemma btree_order_elements s : btree_order s ≡ₚ elements s.
Proof. apply merge_sort_Permutation. Qed.
Lemma btree_order_elem s x : x ∈ btree_order s <-> x ∈ s.
Proof. rewrite btree_order_elements. set_solver. Qed.
Lemma btree_order_NoDup s : NoDup (btree_order s).
Proof. rewrite btree_order_elements. apply NoDup_elements. Qed.

Lemma btree_order_unique s l : StronglySorted Z.le l -> NoDup l -> (forall x, x ∈ l <-> x ∈ s) -> btree_order s = l.
Proof.
  intros Hs Hn Hl. apply (StronglySorted_unique Z.le); [apply btree_order_sorted|done|].
  apply NoDup_Permutation; [apply btree_order_NoDup|done|]. intros x. by rewrite btree_order_elem, Hl.
Qed.

Lemma StronglySorted_filter {X} (R : X -> X -> Prop) (P : X -> Prop) `{forall x, Decision (P x)} (l : list X) :
  StronglySorted R l -> StronglySorted R (filter P l).
Proof.
  induction 1 as [|x l Hl IH Hx]; [constructor|]. rewrite filter_cons. case_decide; [|done].
  constructor; [done|]. apply Forall_forall. intros y [_ Hy]%list_elem_of_filter.
  rewrite Forall_forall in Hx. auto.
Qed.

Lemma StronglySorted_snoc l x : StronglySorted Z.le l -> Forall (fun y => y <= x) l -> StronglySorted Z.le (l ++ [x]).
Proof.
  induction 1 as [|y l Hl IH Hy]; intros Hx; simpl; [by repeat constructor|].
  apply Forall_cons in Hx as [Hyx Hx]. constructor; [auto|]. apply Forall_app. by repeat constructor.
Qed.

(** A number above all others comes last. *)
Lemma btree_order_add s x : (forall y, y ∈ s -> y < x) -> btree_order ({[x]} ∪ s) = btree_order s ++ [x].
Proof.
  intros Hx. apply btree_order_unique.
  - apply StronglySorted_snoc; [apply btree_order_sorted|]. apply Forall_forall.
    intros y Hy%btree_order_elem. specialize (Hx y Hy). lia.
  - apply NoDup_app. split; [apply btree_order_NoDup|]. split; [|apply NoDup_singleton].
    intros y Hy%btree_order_elem Hy'%list_elem_of_singleton. subst. specialize (Hx x Hy). lia.
  - intros y. rewrite elem_of_app, btree_order_elem, list_elem_of_singleton, elem_of_union, elem_of_singleton. tauto.
Qed.

(** The order of a subset. *)
Lemma btree_order_filter s (P : Z -> Prop) `{forall x, Decision (P x)} (s' : gset Z) :
  (forall x, x ∈ s' <-> x ∈ s /\ P x) -> btree_order s' = filter P (btree_order s).
Proof.
  intros Hs. apply btree_order_unique.
  - apply StronglySorted_filter, btree_order_sorted.
  - apply NoDup_filter, btree_order_NoDup.
  - intros x. rewrite list_elem_of_filter, btree_order_elem, Hs. tauto.
Qed.

Lemma filter_all {X} (P : X -> Prop) `{forall x, Decision (P x)} (l : list X) : Forall P l -> filter P l = l.
Proof. induction 1 as [|x l Hx Hl IH]; [done|]. rewrite filter_cons_True by done. by rewrite IH. Qed.

Section queue.
Context {D : DynEncodable}.

Record NonAckedPublish := { na_message : NotificationMessage; na_subscription_id : Z }.

Record RetransmissionQueue := mkQueue {
  rq_entries : gmap Z NonAckedPublish;
  rq_index : gmap (Z * Z) Z;
  rq_by_subscription : gmap Z (gset Z);
  rq_next_id : Z
}.

Definition retransmission_new : RetransmissionQueue := mkQueue ∅ ∅ ∅ 0.

Definition rq_len (q : RetransmissionQueue) : Z := Z.of_nat (size (rq_entries q)).
Definition rq_is_empty (q : RetransmissionQueue) : bool := bool_decide (rq_entries q = ∅).

Definition entry_key (e : NonAckedPublish) : Z * Z :=
  (na_subscription_id e, nm_sequence_number (na_message e)).

Definition remove_subscription_id (subscription_id id : Z) (q : RetransmissionQueue) : RetransmissionQueue :=
  match rq_by_subscription q !! subscription_id with
  | None => q
  | Some ids =>
      let ids := ids ∖ {[id]} in
      mkQueue (rq_entries q) (rq_index q)
        (if bool_decide (ids = ∅) then delete subscription_id (rq_by_subscription q)
         else <[subscription_id := ids]> (rq_by_subscription q)) (rq_next_id q)
  end.

Definition remove_indexes (id : Z) (e : NonAckedPublish) (q : RetransmissionQueue) : RetransmissionQueue :=
  remove_subscription_id (na_subscription_id e) id
    (mkQueue (rq_entries q) (delete (entry_key e) (rq_index q)) (rq_by_subscription q) (rq_next_id q)).

(** [BTreeMap::pop_first]. *)
Definition pop_first (m : gmap Z NonAckedPublish) : option (Z * NonAckedPublish) :=
  id ← head (btree_order (dom m)); e ← m !! id; Some (id, e).

(** The code counts the identifiers in 64 bits; that 2^64 messages are queued in one session is not
    modelled. *)
Definition push_existing (e : NonAckedPublish) (q : RetransmissionQueue) : RetransmissionQueue :=
  let id := rq_next_id q in
  mkQueue (<[id := e]> (rq_entries q)) (<[entry_key e := id]> (rq_index q))
    (<[na_subscription_id e := {[id]} ∪ default ∅ (rq_by_subscription q !! na_subscription_id e)]>
       (rq_by_subscription q)) (id + 1).

Definition rq_enqueue (max_len subscription_id : Z) (message : NotificationMessage) (q : RetransmissionQueue)
    : RetransmissionQueue :=
  match nm_notification_data message with
  | None => q
  | Some _ =>
      let q :=
        if max_len <=? rq_len q then
          match pop_first (rq_entries q) with
          | Some (id, e) =>
              remove_indexes id e
                (mkQueue (delete id (rq_entries q)) (rq_index q) (rq_by_subscription q) (rq_next_id q))
          | None => q
          end
        else q in
      push_existing {| na_message := message; na_subscription_id := subscription_id |} q
  end.

Definition rq_ack (subscription_id sequence_number : Z) (q : RetransmissionQueue)
    : option NonAckedPublish * RetransmissionQueue :=
  match rq_index q !! (subscription_id, sequence_number) with
  | None => (None, q)
  | Some id =>
      let q := mkQueue (rq_entries q) (delete (subscription_id, sequence_number) (rq_index q))
                 (rq_by_subscription q) (rq_next_id q) in
      match rq_entries q !! id with
      | None => (None, q)
      | Some e =>
          (Some e, remove_subscription_id subscription_id id
             (mkQueue (delete id (rq_entries q)) (rq_index q) (rq_by_subscription q) (rq_next_id q)))
      end
  end.

(** The loop over the identifiers of a removed subscription. *)
Fixpoint remove_ids (ids : list Z) (q : RetransmissionQueue) : list NonAckedPublish * RetransmissionQueue :=
  match ids with
  | [] => ([], q)
  | id :: ids' =>
      match rq_entries q !! id with
      | None => remove_ids ids' q
      | Some e =>
          let '(removed, q) := remove_ids ids'
            (mkQueue (delete id (rq_entries q)) (delete (entry_key e) (rq_index q))
               (rq_by_subscription q) (rq_next_id q)) in
          (e :: removed, q)
      end
  end.

Definition rq_remove_subscription (subscription_id : Z) (q : RetransmissionQueue)
    : list NonAckedPublish * RetransmissionQueue :=
  match rq_by_subscription q !! subscription_id with
  | None => ([], q)
  | Some ids =>
      remove_ids (btree_order ids)
        (mkQueue (rq_entries q) (rq_index q) (delete subscription_id (rq_by_subscription q)) (rq_next_id q))
  end.

Definition clone_subscription (subscription_id : Z) (q : RetransmissionQueue) : list NonAckedPublish :=
  match rq_by_subscription q !! subscription_id with
  | None => []
  | Some ids => omap (fun id => rq_entries q !! id) (btree_order ids)
  end.

Definition rq_available_sequence_numbers (subscription_id : Z) (q : RetransmissionQueue) : option (list Z) :=
  if rq_is_empty q then None
  else
    ids ← rq_by_subscription q !! subscription_id;
    let sequence_numbers :=
      map (fun e => nm_sequence_number (na_message e)) (omap (fun id => rq_entries q !! id) (btree_order ids)) in
    if is_nil sequence_numbers then None else Some sequence_numbers.

Definition get_message (subscription_id sequence_number : Z) (q : RetransmissionQueue) : option NotificationMessage :=
  id ← rq_index q !! (subscription_id, sequence_number); na_message <$> rq_entries q !! id.

(** ** The specification: a list of entries *)

Definition of_subscription (s : Z) (e : NonAckedPublish) : Prop := na_subscription_id e = s.
#[global] Instance of_subscription_dec s e : Decision (of_subscription s e).
Proof. unfold of_subscription. apply _. Defined.

(** The entries in the order of insertion. *)
Definition queue_list (q : RetransmissionQueue) : list NonAckedPublish :=
  omap (fun id => rq_entries q !! id) (btree_order (dom (rq_entries q))).

Record queue_inv (q : RetransmissionQueue) : Prop := {
  qi_next : forall id, id ∈ dom (rq_entries q) -> id < rq_next_id q;
  qi_index : forall k id, rq_index q !! k = Some id <-> exists e, rq_entries q !! id = Some e /\ entry_key e = k;
  qi_by : forall s id, id ∈ default ∅ (rq_by_subscription q !! s)
            <-> exists e, rq_entries q !! id = Some e /\ na_subscription_id e = s;
  qi_nonempty : forall s, rq_by_subscription q !! s <> Some ∅
}.

Lemma retransmission_new_inv : queue_inv retransmission_new /\ queue_list retransmission_new = [].
Proof.
  split; [|done]. split; simpl.
  - intros id. rewrite dom_empty_L. set_solver.
  - intros k id. rewrite lookup_empty. split; [done|]. intros (e & He & _). by rewrite lookup_empty in He.
  - intros s id. rewrite lookup_empty. simpl. split; [set_solver|]. intros (e & He & _). by rewrite lookup_empty in He.
  - intros s. by rewrite lookup_empty.
Qed.

Lemma omap_unfold {X Y} (f : X -> option Y) x (l : list X) :
  omap f (x :: l) = match f x with Some y => y :: omap f l | None => omap f l end.
Proof. done. Qed.

Lemma omap_filter_ext {X Y} (f g : X -> option Y) (P : X -> Prop) (Q : Y -> Prop)
    `{forall x, Decision (P x)} `{forall y, Decision (Q y)} (l : list X) :
  (forall x, x ∈ l -> P x -> f x = g x /\ forall y, g x = Some y -> Q y) ->
  (forall x y, x ∈ l -> ~ P x -> g x = Some y -> ~ Q y) ->
  omap f (filter P l) = filter Q (omap g l).
Proof.
  intros H1 H2. induction l as [|x l IH]; [done|].
  assert (omap f (filter P l) = filter Q (omap g l)) as IH'.
  { apply IH; intros; [apply H1|eapply H2]; eauto; by right. }
  rewrite filter_cons, omap_unfold. case_decide as HP.
  - rewrite omap_unfold. destruct (H1 x ltac:(left) HP) as [-> HQ].
    destruct (g x) as [y|] eqn:Hg; [|done]. rewrite filter_cons_True by auto. by rewrite IH'.
  - destruct (g x) as [y|] eqn:Hg; [|done]. rewrite filter_cons_False; [done|].
    eapply H2; [left|done|done].
Qed.

Lemma omap_ext {X Y} (f g : X -> option Y) (l : list X) : (forall x, x ∈ l -> f x = g x) -> omap f l = omap g l.
Proof.
  induction l as [|x l IH]; intros Hl; [done|]. rewrite !omap_unfold, Hl by left. rewrite IH; [done|].
  intros y Hy. apply Hl. by right.
Qed.

Lemma queue_list_length q : zlen (queue_list q) = rq_len q.
Proof.
  unfold queue_list, rq_len, zlen. f_equal. rewrite <-size_dom.
  assert (length (omap (fun id => rq_entries q !! id) (btree_order (dom (rq_entries q))))
          = length (btree_order (dom (rq_entries q)))) as ->.
  { assert (forall l, (forall x, x ∈ l -> is_Some (rq_entries q !! x)) ->
              length (omap (fun id => rq_entries q !! id) l) = length l) as Hl.
    { induction l as [|x l IH]; intros Hl; [done|]. rewrite omap_unfold.
      destruct (Hl x ltac:(left)) as [e ->]. simpl. f_equal. apply IH. intros y Hy. apply Hl. by right. }
    apply Hl. intros x Hx%btree_order_elem. by apply elem_of_dom. }
  by rewrite btree_order_elements.
Qed.

Lemma queue_list_elem q e : e ∈ queue_list q <-> exists id, rq_entries q !! id = Some e.
Proof.
  unfold queue_list. rewrite list_elem_of_omap. split.
  - intros (id & _ & He). by exists id.
  - intros (id & He). exists id. split; [|done]. apply btree_order_elem, elem_of_dom. by exists e.
Qed.


Lemma key_unique q id1 id2 e1 e2 : queue_inv q ->
  rq_entries q !! id1 = Some e1 -> rq_entries q !! id2 = Some e2 -> entry_key e1 = entry_key e2 -> id1 = id2.
Proof.
  intros Hq H1 H2 Hk. assert (rq_index q !! entry_key e1 = Some id1) as Hi1 by (apply (qi_index q Hq); eauto).
  assert (rq_index q !! entry_key e1 = Some id2) as Hi2 by (apply (qi_index q Hq); eauto). congruence.
Qed.

Lemma push_existing_refines q e : queue_inv q -> Forall (fun e' => entry_key e' <> entry_key e) (queue_list q) ->
  queue_inv (push_existing e q) /\ queue_list (push_existing e q) = queue_list q ++ [e].
Proof.
  intros Hq Hfresh. rewrite Forall_forall in Hfresh.
  assert (rq_entries q !! rq_next_id q = None) as Hnew.
  { apply not_elem_of_dom. intros Hin. apply (qi_next q Hq) in Hin. lia. }
  assert (forall id e', rq_entries q !! id = Some e' -> id <> rq_next_id q) as Hold by (intros; congruence).
  split.
  - split; simpl.
    + intros id. rewrite dom_insert_L, elem_of_union, elem_of_singleton. intros [->|Hin]; [lia|].
      apply (qi_next q Hq) in Hin. lia.
    + intros k id. rewrite lookup_insert_Some. split.
      * intros [[<- <-]|[Hk Hi]]; [exists e; by rewrite lookup_insert_eq|].
        apply (qi_index q Hq) in Hi as (e' & He' & Hk'). exists e'.
        rewrite lookup_insert_ne by (symmetry; by eapply Hold). done.
      * intros (e' & He' & Hk). rewrite lookup_insert_Some in He'. destruct He' as [[<- <-]|[Hne He']]; [by left|].
        right. split.
        -- subst k. intros Heq. apply (Hfresh e'); [|done]. apply queue_list_elem. by exists id.
        -- apply (qi_index q Hq). eauto.
    + intros s id. destruct (decide (s = na_subscription_id e)) as [->|Hs].
      * rewrite lookup_insert_eq. simpl. rewrite elem_of_union, elem_of_singleton, (qi_by q Hq). split.
        -- intros [->|(e' & He' & Hs')]; [exists e; by rewrite lookup_insert_eq|]. exists e'.
           rewrite lookup_insert_ne by (symmetry; by eapply Hold). done.
        -- intros (e' & He' & Hs'). rewrite lookup_insert_Some in He'. destruct He' as [[-> _]|[_ He']]; [by left|].
           right. eauto.
      * rewrite lookup_insert_ne by done. rewrite (qi_by q Hq). split.
        -- intros (e' & He' & Hs'). exists e'. rewrite lookup_insert_ne by (symmetry; by eapply Hold). done.
        -- intros (e' & He' & Hs'). rewrite lookup_insert_Some in He'. destruct He' as [[_ <-]|[_ He']]; [done|]. eauto.
    + intros s. destruct (decide (s = na_subscription_id e)) as [->|Hs].
      * rewrite lookup_insert_eq. intros [= Hemp]. set_solver.
      * rewrite lookup_insert_ne by done. apply (qi_nonempty q Hq).
  - unfold queue_list, push_existing. simpl. rewrite dom_insert_L, btree_order_add by apply (qi_next q Hq).
    rewrite omap_app. f_equal.
    + apply omap_ext. intros id Hid%btree_order_elem. apply lookup_insert_ne.
      intros <-. by apply not_elem_of_dom in Hnew.
    + rewrite omap_unfold. by rewrite lookup_insert_eq.
Qed.

(** The state without the entry [id]. *)
Definition without_entry (id : Z) (e : NonAckedPublish) (q : RetransmissionQueue) : RetransmissionQueue :=
  remove_subscription_id (na_subscription_id e) id
    (mkQueue (delete id (rq_entries q)) (delete (entry_key e) (rq_index q)) (rq_by_subscription q) (rq_next_id q)).

Lemma remove_subscription_id_fields s id q :
  rq_entries (remove_subscription_id s id q) = rq_entries q
  /\ rq_index (remove_subscription_id s id q) = rq_index q
  /\ rq_next_id (remove_subscription_id s id q) = rq_next_id q.
Proof. unfold remove_subscription_id. by destruct (rq_by_subscription q !! s). Qed.

Lemma remove_subscription_id_by s id q s' :
  (forall s, rq_by_subscription q !! s <> Some ∅) ->
  default ∅ (rq_by_subscription (remove_subscription_id s id q) !! s')
    = default ∅ (rq_by_subscription q !! s') ∖ (if decide (s' = s) then {[id]} else ∅)
  /\ rq_by_subscription (remove_subscription_id s id q) !! s' <> Some ∅.
Proof.
  intros Hne. unfold remove_subscription_id.
  destruct (rq_by_subscription q !! s) as [ids|] eqn:Hs; simpl.
  2: { split; [|apply Hne]. case_decide; [subst; rewrite Hs; simpl; set_solver by eauto|]. by rewrite difference_empty_L. }
  destruct (bool_decide (ids ∖ {[id]} = ∅)) eqn:Hb; bool_to_prop.
  - case_decide; [subst|].
    + rewrite lookup_delete_eq, Hs. simpl. split; [by rewrite Hb|done].
    + rewrite lookup_delete_ne by done. split; [by rewrite difference_empty_L|apply Hne].
  - case_decide; [subst|].
    + rewrite lookup_insert_eq, Hs. simpl. split; [done|congruence].
    + rewrite lookup_insert_ne by done. split; [by rewrite difference_empty_L|apply Hne].
Qed.

Lemma without_entry_refines q id e : queue_inv q -> rq_entries q !! id = Some e ->
  queue_inv (without_entry id e q)
  /\ queue_list (without_entry id e q) = filter (fun e' => entry_key e' <> entry_key e) (queue_list q)
  /\ queue_list (without_entry id e q)
     = omap (fun id => rq_entries q !! id) (filter (fun x => x <> id) (btree_order (dom (rq_entries q)))).
Proof.
  intros Hq He. set (q1 := mkQueue (delete id (rq_entries q)) (delete (entry_key e) (rq_index q))
                             (rq_by_subscription q) (rq_next_id q)).
  destruct (remove_subscription_id_fields (na_subscription_id e) id q1) as (Hent & Hidx & Hnext).
  change (remove_subscription_id (na_subscription_id e) id q1) with (without_entry id e q) in *.
  assert (queue_list (without_entry id e q)
     = omap (fun id => rq_entries q !! id) (filter (fun x => x <> id) (btree_order (dom (rq_entries q))))) as Hl.
  { unfold queue_list. rewrite Hent. simpl.
    rewrite (btree_order_filter (dom (rq_entries q)) (fun x => x <> id)).
    - apply omap_ext. intros x [Hx _]%list_elem_of_filter. by rewrite lookup_delete_ne.
    - intros x. rewrite dom_delete_L. set_solver. }
  split; [|split; [|done]].
  - split; rewrite ?Hent, ?Hidx, ?Hnext; simpl.
    + intros x Hx. apply (qi_next q Hq). rewrite dom_delete_L in Hx. set_solver.
    + intros k x. rewrite lookup_delete_Some. split.
      * intros [Hk Hi]. apply (qi_index q Hq) in Hi as (e' & He' & Hk'). exists e'.
        rewrite lookup_delete_ne; [done|]. intros <-. congruence.
      * intros (e' & He' & Hk). rewrite lookup_delete_Some in He'. destruct He' as [Hne He']. split.
        -- intros Heq. apply Hne. eapply key_unique; [done..|]. congruence.
        -- apply (qi_index q Hq). eauto.
    + intros s x. destruct (remove_subscription_id_by (na_subscription_id e) id q1 s (qi_nonempty q Hq)) as [Hby _].
      change (remove_subscription_id (na_subscription_id e) id q1) with (without_entry id e q) in Hby. rewrite Hby, elem_of_difference. simpl. rewrite (qi_by q Hq). split.
      * intros [(e' & He' & Hs) Hx]. exists e'. rewrite lookup_delete_ne; [done|]. intros <-.
        assert (e' = e) as -> by congruence. rewrite decide_True in Hx by done. set_solver.
      * intros (e' & He' & Hs). rewrite lookup_delete_Some in He'. destruct He' as [Hne He'].
        split; [eauto|]. case_decide; set_solver.
    + intros s. by destruct (remove_subscription_id_by (na_subscription_id e) id q1 s (qi_nonempty q Hq)).
  - rewrite Hl. unfold queue_list. apply omap_filter_ext.
    + intros x Hx Hne. split; [done|]. intros y Hy Hk. apply Hne. by eapply key_unique.
    + intros x y Hx Hnn Hy Hk. apply Hk. assert (x = id) as -> by (destruct (decide (x = id)); tauto). congruence.
Qed.


Lemma rq_enqueue_refines max_len s m q : queue_inv q ->
  nm_notification_data m <> None ->
  Forall (fun e => entry_key e <> (s, nm_sequence_number m)) (queue_list q) ->
  queue_inv (rq_enqueue max_len s m q)
  /\ queue_list (rq_enqueue max_len s m q)
     = (if max_len <=? rq_len q then tail (queue_list q) else queue_list q)
       ++ [{| na_message := m; na_subscription_id := s |}].
Proof.
  intros Hq Hdata Hfresh. unfold rq_enqueue. destruct (nm_notification_data m); [|done]. clear Hdata.
  destruct (max_len <=? rq_len q); [|by apply push_existing_refines].
  unfold pop_first.
  destruct (head (btree_order (dom (rq_entries q)))) as [id|] eqn:Hh; simpl.
  2:{ assert (queue_list q = []) as Hnil by (unfold queue_list; by destruct (btree_order _)).
      destruct (push_existing_refines q {| na_message := m; na_subscription_id := s |} Hq Hfresh) as [? Hl].
      split; [done|]. by rewrite Hl, Hnil. }
  destruct (btree_order (dom (rq_entries q))) as [|id' ids] eqn:Ho; simplify_eq/=.
  assert (id ∈ dom (rq_entries q)) as [e He]%elem_of_dom by (apply btree_order_elem; rewrite Ho; left).
  rewrite He. simpl. fold (without_entry id e q).
  change (remove_indexes id e _) with (without_entry id e q).
  destruct (without_entry_refines q id e Hq He) as (Hq' & Hf & Ht).
  pose proof (btree_order_NoDup (dom (rq_entries q))) as Hnd. rewrite Ho in Hnd.
  apply NoDup_cons in Hnd as [Hni Hnd].
  assert (queue_list (without_entry id e q) = tail (queue_list q)) as Htail.
  { rewrite Ht. unfold queue_list. rewrite Ho, omap_unfold, He. simpl.
    rewrite filter_cons_False by tauto. f_equal. apply filter_all. apply Forall_forall. by intros x Hx ->. }
  rewrite <-Htail. apply push_existing_refines; [done|]. rewrite Hf.
  apply Forall_forall. intros x [_ Hx]%list_elem_of_filter. rewrite Forall_forall in Hfresh. by apply Hfresh.
Qed.

Lemma find_key q s n : queue_inv q ->
  (rq_index q !! (s, n) = None /\ Forall (fun e => entry_key e <> (s, n)) (queue_list q))
  \/ exists id e, rq_index q !! (s, n) = Some id /\ rq_entries q !! id = Some e /\ entry_key e = (s, n)
     /\ e ∈ queue_list q.
Proof.
  intros Hq. destruct (rq_index q !! (s, n)) as [id|] eqn:Hi.
  - right. destruct (proj1 (qi_index q Hq _ _) Hi) as (e & He & Hk). exists id, e. repeat split; try done.
    apply queue_list_elem. eauto.
  - left. split; [done|]. apply Forall_forall. intros e [id He]%queue_list_elem Hk.
    assert (rq_index q !! (s, n) = Some id) by (apply (qi_index q Hq); eauto). congruence.
Qed.

Lemma rq_ack_refines q s n : queue_inv q ->
  let (r, q') := rq_ack s n q in
  queue_inv q' /\ queue_list q' = filter (fun e => entry_key e <> (s, n)) (queue_list q)
  /\ match r with
     | Some e => e ∈ queue_list q /\ entry_key e = (s, n)
     | None => Forall (fun e => entry_key e <> (s, n)) (queue_list q)
     end.
Proof.
  intros Hq. unfold rq_ack. destruct (find_key q s n Hq) as [[-> Hf]|(id & e & Hi & He & Hk & Hin)].
  - repeat split; try apply Hq; [|done]. symmetry. by apply filter_all.
  - rewrite Hi. simpl. rewrite He. injection Hk as <- <-. change (na_subscription_id e, _) with (entry_key e).
    fold (without_entry id e q). destruct (without_entry_refines q id e Hq He) as (? & ? & _). repeat split; try done; apply H.
Qed.

Lemma filter_sub_order q s : queue_inv q ->
  omap (fun id => rq_entries q !! id) (btree_order (default ∅ (rq_by_subscription q !! s)))
  = filter (of_subscription s) (queue_list q).
Proof.
  intros Hq. rewrite (btree_order_filter (dom (rq_entries q)) (fun id => id ∈ default ∅ (rq_by_subscription q !! s))).
  - unfold queue_list. apply omap_filter_ext.
    + intros x _ Hx. split; [done|]. intros y Hy. apply (qi_by q Hq) in Hx as (e & He & Hs).
      unfold of_subscription. congruence.
    + intros x y _ Hx Hy Hs. apply Hx. apply (qi_by q Hq). eauto.
  - intros x. split; [|tauto]. intros Hx. split; [|done].
    apply (qi_by q Hq) in Hx as (e & He & _). apply elem_of_dom. eauto.
Qed.

Lemma clone_subscription_refines q s : queue_inv q ->
  clone_subscription s q = filter (of_subscription s) (queue_list q).
Proof.
  intros Hq. rewrite <-filter_sub_order by done. unfold clone_subscription. by destruct (rq_by_subscription q !! s).
Qed.

Lemma available_refines q s : queue_inv q ->
  rq_available_sequence_numbers s q
  = let l := map (fun e => nm_sequence_number (na_message e)) (filter (of_subscription s) (queue_list q)) in
    if is_nil l then None else Some l.
Proof.
  intros Hq. rewrite <-filter_sub_order by done. unfold rq_available_sequence_numbers, rq_is_empty.
  destruct (bool_decide (rq_entries q = ∅)) eqn:He; bool_to_prop.
  - rewrite He. cbv zeta.
    assert (forall l : list Z, omap (fun id => (∅ : gmap Z NonAckedPublish) !! id) l = []) as ->; [|done].
    induction l as [|x l IH]; [done|]. rewrite omap_unfold, lookup_empty. done.
  - by destruct (rq_by_subscription q !! s).
Qed.

Lemma get_message_refines q s n m : queue_inv q ->
  get_message s n q = Some m <-> exists e, e ∈ queue_list q /\ entry_key e = (s, n) /\ na_message e = m.
Proof.
  intros Hq. unfold get_message. destruct (find_key q s n Hq) as [[-> Hf]|(id & e & Hi & He & Hk & Hin)]; simpl.
  - split; [done|]. intros (e & Hin & Hk & _). rewrite Forall_forall in Hf. by apply Hf in Hin.
  - rewrite Hi. simpl. rewrite He. simpl. split; [intros [= <-]; eauto|].
    intros (e' & [id' He']%queue_list_elem & Hk' & <-). f_equal. f_equal.
    assert (id = id') as -> by (eapply key_unique; [done..|congruence]). congruence.
Qed.

Lemma remove_ids_spec ids : forall q,
  (forall k id, rq_index q !! k = Some id <-> exists e, rq_entries q !! id = Some e /\ entry_key e = k) ->
  NoDup ids -> (forall id, id ∈ ids -> is_Some (rq_entries q !! id)) ->
  exists q', remove_ids ids q = (omap (fun id => rq_entries q !! id) ids, q')
  /\ (forall k id, rq_index q' !! k = Some id <-> exists e, rq_entries q' !! id = Some e /\ entry_key e = k)
  /\ rq_by_subscription q' = rq_by_subscription q /\ rq_next_id q' = rq_next_id q
  /\ forall id, rq_entries q' !! id = if decide (id ∈ ids) then None else rq_entries q !! id.
Proof.
  induction ids as [|i ids IH]; intros q Hidx Hnd Hin.
  - exists q. do 4 (split; [done|]). intros id. by rewrite decide_False by apply not_elem_of_nil.
  - apply NoDup_cons in Hnd as [Hi Hnd]. destruct (Hin i ltac:(left)) as [e He]. simpl. rewrite He.
    set (q1 := mkQueue (delete i (rq_entries q)) (delete (entry_key e) (rq_index q)) (rq_by_subscription q) (rq_next_id q)).
    destruct (IH q1) as (q' & Hr & Hidx' & Hby & Hnx & Hent).
    + intros k id. simpl. rewrite lookup_delete_Some. split.
      * intros [Hk (e' & He' & Hk')%Hidx]. exists e'. rewrite lookup_delete_ne; [done|]. intros <-. congruence.
      * intros (e' & He' & Hk). rewrite lookup_delete_Some in He'. destruct He' as [Hne He']. split.
        -- intros Heq. apply Hne. assert (rq_index q !! entry_key e = Some i) by (apply Hidx; eauto).
           assert (rq_index q !! entry_key e' = Some id) by (apply Hidx; eauto). congruence.
        -- apply Hidx. eauto.
    + done.
    + intros id Hid. simpl. rewrite lookup_delete_ne by (intros <-; done). apply Hin. by right.
    + exists q'. rewrite Hr. split.
      * f_equal. f_equal. simpl. apply omap_ext. intros x Hx. apply lookup_delete_ne. intros <-. done.
      * split; [done|]. split; [done|]. split; [done|]. intros id. rewrite Hent. simpl.
        destruct (decide (id = i)) as [->|Hne].
        -- rewrite (decide_True (P := i ∈ i :: ids)) by left. case_decide; [done|]. apply lookup_delete_eq.
        -- rewrite lookup_delete_ne by done. destruct (decide (id ∈ ids)).
           ++ by rewrite decide_True by (by right).
           ++ by rewrite decide_False by (by apply not_elem_of_cons).
Qed.

Lemma rq_remove_subscription_refines q s : queue_inv q ->
  let (removed, q') := rq_remove_subscription s q in
  queue_inv q' /\ removed = filter (of_subscription s) (queue_list q)
  /\ queue_list q' = filter (fun e => ~ of_subscription s e) (queue_list q).
Proof.
  intros Hq. unfold rq_remove_subscription. pose proof (filter_sub_order q s Hq) as Hfs.
  pose proof (qi_by q Hq s) as Hby. destruct (rq_by_subscription q !! s) as [ids|] eqn:Hs; simpl in *.
  2:{ split; [done|]. split; [done|]. symmetry. apply filter_all. apply Forall_forall.
      intros e [id He]%queue_list_elem Hsub. assert (id ∈ (∅ : gset Z)) by (apply Hby; eauto). set_solver. }
  set (q1 := mkQueue (rq_entries q) (rq_index q) (delete s (rq_by_subscription q)) (rq_next_id q)).
  destruct (remove_ids_spec (btree_order ids) q1) as (q' & -> & Hidx & Hby' & Hnx & Hent).
  - apply (qi_index q Hq).
  - apply btree_order_NoDup.
  - intros id Hid%btree_order_elem. apply Hby in Hid as (e & He & _). by exists e.
  - simpl in *. assert (forall id, rq_entries q' !! id = if decide (id ∈ ids) then None else rq_entries q !! id) as Hent'.
    { intros id. rewrite Hent. destruct (decide (id ∈ ids)) as [Hin|Hni].
      - by rewrite decide_True by (by apply btree_order_elem).
      - rewrite decide_False; [done|]. by rewrite btree_order_elem. }
    split; [|split; [done|]].
    + split.
      * intros id [e He]%elem_of_dom. rewrite Hent' in He. rewrite Hnx. case_decide; [done|].
        apply (qi_next q Hq). apply elem_of_dom. eauto.
      * done.
      * intros s' id. rewrite Hby'. destruct (decide (s' = s)) as [->|Hne].
        -- rewrite lookup_delete_eq. simpl. split; [set_solver|]. intros (e & He & Hse). rewrite Hent' in He.
           case_decide as Hni; [done|]. destruct Hni. apply Hby. eauto.
        -- rewrite lookup_delete_ne by done. rewrite (qi_by q Hq). split.
           ++ intros (e & He & Hse). exists e. rewrite Hent', decide_False; [done|].
              intros (e' & He' & Hse')%Hby. congruence.
           ++ intros (e & He & Hse). rewrite Hent' in He. case_decide; [done|]. eauto.
      * intros s'. rewrite Hby'. destruct (decide (s' = s)) as [->|Hne].
        -- by rewrite lookup_delete_eq.
        -- rewrite lookup_delete_ne by done. apply (qi_nonempty q Hq).
    + unfold queue_list. rewrite (btree_order_filter (dom (rq_entries q)) (fun id => id ∉ ids)).
      * apply omap_filter_ext.
        -- intros x _ Hx. rewrite Hent', decide_False by done. split; [done|]. intros y Hy Hsub. apply Hx, Hby. eauto.
        -- intros x y _ Hx Hy Hsub. apply Hx. intros (e & He & Hse)%Hby. apply Hsub. unfold of_subscription. congruence.
      * intros x. rewrite !elem_of_dom, Hent'. case_decide; [|tauto]. split; [by intros [? ?]|tauto].
Qed.

(** [q] stands for the list [l]. *)
Definition queue_rep (q : RetransmissionQueue) (l : list NonAckedPublish) : Prop := queue_inv q /\ queue_list q = l.

Definition with_key (s n : Z) (e : NonAckedPublish) : Prop := entry_key e = (s, n).
#[global] Instance with_key_dec s n e : Decision (with_key s n e).
Proof. unfold with_key. apply _. Defined.

(** C3: the retransmission queue implements the list of its entries in the order of insertion. A new
    queue is the empty list; an enqueue appends a message with data, dropping the oldest entry when
    the queue is full, and ignores a keep-alive; an acknowledgement finds and removes the entry of
    its subscription and sequence number; the removal of a subscription returns and removes its
    entries; copies, sequence numbers and single messages are read off the list. The keys of new
    messages must be fresh, which the code asserts. *)
Theorem retransmission_refines_list (q : RetransmissionQueue) (l : list NonAckedPublish) :
  queue_rep q l ->
  queue_rep retransmission_new [] /\ rq_len q = zlen l
  /\ (forall max_len s m, Forall (fun e => ~ with_key s (nm_sequence_number m) e) l ->
      queue_rep (rq_enqueue max_len s m q)
        (match nm_notification_data m with
         | None => l
         | Some _ => (if max_len <=? zlen l then tail l else l) ++ [{| na_message := m; na_subscription_id := s |}]
         end))
  /\ (forall s n, let (r, q') := rq_ack s n q in
      queue_rep q' (filter (fun e => ~ with_key s n e) l)
      /\ match r with
         | Some e => e ∈ l /\ with_key s n e
         | None => Forall (fun e => ~ with_key s n e) l
         end)
  /\ (forall s, let (removed, q') := rq_remove_subscription s q in
      removed = filter (of_subscription s) l /\ queue_rep q' (filter (fun e => ~ of_subscription s e) l))
  /\ (forall s, clone_subscription s q = filter (of_subscription s) l)
  /\ (forall s, rq_available_sequence_numbers s q
               = match map (fun e => nm_sequence_number (na_message e)) (filter (of_subscription s) l) with
                 | [] => None
                 | ns => Some ns
                 end)
  /\ (forall s n m, get_message s n q = Some m <-> exists e, e ∈ l /\ with_key s n e /\ na_message e = m).
Proof.
  intros [Hq <-]. split; [apply retransmission_new_inv|]. split; [by rewrite queue_list_length|].
  split; [intros max_len s m Hfresh|split; [intros s n|split; [intros s|split; [intros s|split; [intros s|intros s n m]]]]].
  - rewrite queue_list_length. destruct (nm_notification_data m) eqn:Hd.
    + destruct (rq_enqueue_refines max_len s m q Hq) as [? ?]; [congruence|done|]. by split.
    + unfold rq_enqueue. rewrite Hd. by split.
  - pose proof (rq_ack_refines q s n Hq) as Ha. destruct (rq_ack s n q). destruct Ha as (? & ? & ?). split; [by split|done].
  - pose proof (rq_remove_subscription_refines q s Hq) as Ha. destruct (rq_remove_subscription s q).
    destruct Ha as (? & ? & ?). split; [done|]. by split.
  - by apply clone_subscription_refines.
  - rewrite available_refines by done. cbv zeta. by destruct (map _ _).
  - by apply get_message_refines.
Qed.

End queue.

(** ** Witness *)

Definition message_number (n : Z) : NotificationMessage := status_change n 0 BadTimeout.

Lemma retransmission_refines_list_witness :
  queue_list (rq_ack 7 1 (rq_enqueue 2 7 (message_number 1) retransmission_new)).2 = [].
Proof.
  destruct (retransmission_refines_list (D := unit_dyn) retransmission_new [] retransmission_new_inv)
    as (_ & _ & Henq & _).
  destruct (retransmission_refines_list _ _ (Henq 2 7 (message_number 1) (List.Forall_nil _)))
    as (_ & _ & _ & Hack & _).
  specialize (Hack 7 1). destruct (rq_ack 7 1 _) as [r q']. destruct Hack as [[_ Hl] _]. exact Hl.
Defined.
