(* ===== verification/SessionSubscriptions.v ===== *)
(** * The subscriptions of a session

    Models [async-opcua-server/src/subscriptions/session_subscriptions.rs] (all of its services, the
    publish queue, acknowledgements, retransmission, the tick over all subscriptions) and
    [consume_results] of [node_manager/utils/result.rs].

    The response channel of a publish request is its identifier, and what is sent on the channels is
    recorded in [ss_sent].  The owner, the session object, the type tree and the node managers do not
    change the behaviour modelled here and are left out; the permission check of events is a
    parameter. *)

From S2P Require Import Prelude Text Float StatusCode NumericRange Variant Limits DataChangeFilter MonitoredItem.
From S2P Require Import Subscription RetransmissionQueue.

(** ** Diagnostics *)

Definition OPERATIONAL_LEVEL_SYMBOLIC_ID : Z := 0x20.
Definition OPERATIONAL_LEVEL_LOCALIZED_TEXT : Z := 0x40.
Definition OPERATIONAL_LEVEL_ADDITIONAL_INFO : Z := 0x80.
Definition OPERATIONAL_LEVEL_INNER_STATUS_CODE : Z := 0x100.
Definition OPERATIONAL_LEVEL_INNER_DIAGNOSTICS : Z := 0x200.
(** [DiagnosticBits::contains]. *)
Definition contains_bits (bits flag : Z) : bool := Z.land bits flag =? flag.

Definition keep_if {T} (b : bool) (o : option T) : option T := if b then o else None.

Fixpoint filter_diagnostic_info (bits : Z) (info : DiagnosticInfo) : DiagnosticInfo :=
  match info with
  | DiagInfo symbolic_id namespace_uri locale localized_text additional_info inner_status_code inner =>
      DiagInfo (keep_if (contains_bits bits OPERATIONAL_LEVEL_SYMBOLIC_ID) symbolic_id) namespace_uri locale
        (keep_if (contains_bits bits OPERATIONAL_LEVEL_LOCALIZED_TEXT) localized_text)
        (keep_if (contains_bits bits OPERATIONAL_LEVEL_ADDITIONAL_INFO) additional_info)
        (keep_if (contains_bits bits OPERATIONAL_LEVEL_INNER_STATUS_CODE) inner_status_code)
        (if contains_bits bits OPERATIONAL_LEVEL_INNER_DIAGNOSTICS
         then match inner with Some d => Some (filter_diagnostic_info bits d) | None => None end
         else None)
  end.

Definition consume_results {T} (items : list (T * option DiagnosticInfo)) (bits : Z)
    : option (list T) * option (list DiagnosticInfo) :=
  if bits =? 0 then (Some (map fst items), None)
  else (Some (map fst items),
        Some (map (fun i => filter_diagnostic_info bits (default default_diagnostic_info (snd i))) items)).

(** ** Requests and responses *)

(** A request header: the handle of the request and its diagnostic bits. *)
Record RequestHeader := { request_handle : Z; return_diagnostics : Z }.

Record PublishRequest := {
  pq_header : RequestHeader;
  (** (subscription id, sequence number). *)
  pq_acknowledgements : option (list (Z * Z))
}.
Record PendingPublish := {
  pp_response : Z;
  pp_request : PublishRequest;
  pp_ack_results : option (list StatusCode);
  pp_deadline : Z
}.

Record CreateSubscriptionRequest := {
  cs_requested_publishing_interval : f64;
  cs_requested_lifetime_count : Z;
  cs_requested_max_keep_alive_count : Z;
  cs_max_notifications_per_publish : Z;
  cs_publishing_enabled : bool;
  cs_priority : Z
}.
Record CreateSubscriptionResponse := {
  csr_subscription_id : Z;
  csr_revised_publishing_interval : f64;
  csr_revised_lifetime_count : Z;
  csr_revised_max_keep_alive_count : Z
}.
Record ModifySubscriptionRequest := {
  ms_subscription_id : Z;
  ms_requested_publishing_interval : f64;
  ms_requested_lifetime_count : Z;
  ms_requested_max_keep_alive_count : Z;
  ms_max_notifications_per_publish : Z;
  ms_priority : Z
}.
Record ModifySubscriptionResponse := {
  msr_revised_publishing_interval : f64;
  msr_revised_lifetime_count : Z;
  msr_revised_max_keep_alive_count : Z
}.

(** [as u64] microseconds of [Duration::from_micros], in nanoseconds. *)
Definition duration_of_millis (millis : f64) : Z := f64_as_u64 (f64_mul millis (f64_of_Z 1000)) * 1000.

Definition revise_subscription_values (info : SubscriptionLimits) (requested_publishing_interval : f64)
    (requested_max_keep_alive_count requested_lifetime_count : Z) : f64 * Z * Z :=
  let revised_publishing_interval := f64_max requested_publishing_interval (min_publishing_interval_ms info) in
  let revised_max_keep_alive_count :=
    if max_keep_alive_count info <? requested_max_keep_alive_count then max_keep_alive_count info
    else if requested_max_keep_alive_count =? 0 then default_keep_alive_count info
    else requested_max_keep_alive_count in
  let min_lifetime_count := wrap32 (revised_max_keep_alive_count * 3) in
  let revised_lifetime_count :=
    if requested_lifetime_count <? min_lifetime_count then min_lifetime_count
    else if max_lifetime_count info <? requested_lifetime_count then max_lifetime_count info
    else requested_lifetime_count in
  (revised_publishing_interval, revised_max_keep_alive_count, revised_lifetime_count).

Definition revise_max_notifications_per_publish (limits : SubscriptionLimits) (inp : Z) : Z :=
  if max_notifications_per_publish limits =? 0 then inp
  else if (inp =? 0) || (max_notifications_per_publish limits <? inp) then max_notifications_per_publish limits
  else inp.

(** [MonitoredItem::sampling_interval] as milliseconds. *)
Definition interval_millis (s : SamplingInterval) : f64 :=
  match s with
  | SISubscription => f64_of_Z (-1)
  | SIZero => f64_zero
  | SINonZero d =>
      let micros := Z.quot d 1000 in
      if (- i64_max - 1 <=? micros) && (micros <=? i64_max)
      then f64_div (f64_of_Z micros) (f64_of_Z 1000)
      else f64_of_Z (Z.quot d 1000000)
  end.

Definition publish_ack_diagnostics (ack_results : option (list StatusCode)) (bits : Z)
    : option (list StatusCode) * option (list DiagnosticInfo) :=
  match ack_results with
  | None => (None, None)
  | Some ack_results => consume_results (map (fun status => (status, None)) ack_results) bits
  end.

Section session.
Context {D : DynEncodable} {C : Chrono} {E : EventModel} {A : AggregateEngine} {H : HashOrder}.

Record PublishResponse := {
  pr_subscription_id : Z;
  pr_available_sequence_numbers : option (list Z);
  pr_more_notifications : bool;
  pr_notification_message : NotificationMessage;
  pr_results : option (list StatusCode);
  pr_diagnostic_infos : option (list DiagnosticInfo)
}.
Inductive ResponseMessage : Type :=
| ServiceFault (service_result : StatusCode)
| PublishOk (r : PublishResponse).
(** A message sent on a response channel. *)
Record Sent := { sent_on : Z; sent_message : ResponseMessage }.

Record MonitoredItemRef := { ref_handle : MonitoredItemHandle; ref_node_id : NodeId; ref_attribute : Z }.

Definition item_ref (subscription_id : Z) (i : MonitoredItem) : MonitoredItemRef :=
  {| ref_handle := {| subscription_id := subscription_id; monitored_item_id := mi_id i |};
     ref_node_id := pr_node_id (mi_item_to_monitor i);
     ref_attribute := pr_attribute_id (mi_item_to_monitor i) |}.
(** The reference of the item registered under [id]. *)
Definition item_ref_at (subscription_id id : Z) (i : MonitoredItem) : MonitoredItemRef :=
  {| ref_handle := {| subscription_id := subscription_id; monitored_item_id := id |};
     ref_node_id := pr_node_id (mi_item_to_monitor i);
     ref_attribute := pr_attribute_id (mi_item_to_monitor i) |}.
Definition null_ref (subscription_id id : Z) : MonitoredItemRef :=
  {| ref_handle := {| subscription_id := subscription_id; monitored_item_id := id |};
     ref_node_id := null_node_id; ref_attribute := 1 |}.

(** The values of a hash map in its order. *)
Definition hash_values {V} (m : gmap Z V) : list V := omap (fun k => m !! k) (hash_order (dom m)).

Definition monitored_item_refs (s : Subscription) : list MonitoredItemRef :=
  map (item_ref (sub_id s)) (hash_values (sub_monitored_items s)).

(** ** The session *)

Record SessionSubscriptions := mkSession {
  ss_subscriptions : gmap Z Subscription;
  ss_publish_request_queue : list PendingPublish;
  ss_pending_status_changes : list (Z * NotificationMessage);
  ss_transferring : gset Z;
  ss_retransmission_queue : RetransmissionQueue;
  ss_limits : SubscriptionLimits;
  ss_cached_priority_order : list Z;
  ss_priority_cache_dirty : bool;
  (** What has been sent on the response channels, oldest first. *)
  ss_sent : list Sent
}.

Definition ss_set_subscriptions (v : gmap Z Subscription) (s : SessionSubscriptions) : SessionSubscriptions :=
  mkSession v (ss_publish_request_queue s) (ss_pending_status_changes s) (ss_transferring s)
    (ss_retransmission_queue s) (ss_limits s) (ss_cached_priority_order s)
    (ss_priority_cache_dirty s) (ss_sent s).
Definition ss_set_publish_request_queue (v : list PendingPublish) (s : SessionSubscriptions) : SessionSubscriptions :=
  mkSession (ss_subscriptions s) v (ss_pending_status_changes s) (ss_transferring s)
    (ss_retransmission_queue s) (ss_limits s) (ss_cached_priority_order s)
    (ss_priority_cache_dirty s) (ss_sent s).
Definition ss_set_pending_status_changes (v : list (Z * NotificationMessage)) (s : SessionSubscriptions) : SessionSubscriptions :=
  mkSession (ss_subscriptions s) (ss_publish_request_queue s) v (ss_transferring s)
    (ss_retransmission_queue s) (ss_limits s) (ss_cached_priority_order s)
    (ss_priority_cache_dirty s) (ss_sent s).
Definition ss_set_transferring (v : gset Z) (s : SessionSubscriptions) : SessionSubscriptions :=
  mkSession (ss_subscriptions s) (ss_publish_request_queue s) (ss_pending_status_changes s) v
    (ss_retransmission_queue s) (ss_limits s) (ss_cached_priority_order s)
    (ss_priority_cache_dirty s) (ss_sent s).
Definition ss_set_retransmission_queue (v : RetransmissionQueue) (s : SessionSubscriptions) : SessionSubscriptions :=
  mkSession (ss_subscriptions s) (ss_publish_request_queue s) (ss_pending_status_changes s)
    (ss_transferring s) v (ss_limits s) (ss_cached_priority_order s) (ss_priority_cache_dirty s)
    (ss_sent s).
Definition ss_set_cached_priority_order (v : list Z) (s : SessionSubscriptions) : SessionSubscriptions :=
  mkSession (ss_subscriptions s) (ss_publish_request_queue s) (ss_pending_status_changes s)
    (ss_transferring s) (ss_retransmission_queue s) (ss_limits s) v (ss_priority_cache_dirty s)
    (ss_sent s).
Definition ss_set_priority_cache_dirty (v : bool) (s : SessionSubscriptions) : SessionSubscriptions :=
  mkSession (ss_subscriptions s) (ss_publish_request_queue s) (ss_pending_status_changes s)
    (ss_transferring s) (ss_retransmission_queue s) (ss_limits s) (ss_cached_priority_order s) v
    (ss_sent s).
Definition ss_set_sent (v : list Sent) (s : SessionSubscriptions) : SessionSubscriptions :=
  mkSession (ss_subscriptions s) (ss_publish_request_queue s) (ss_pending_status_changes s)
    (ss_transferring s) (ss_retransmission_queue s) (ss_limits s) (ss_cached_priority_order s)
    (ss_priority_cache_dirty s) v.

Definition session_new (limits : SubscriptionLimits) : SessionSubscriptions :=
  mkSession ∅ [] [] ∅ retransmission_new limits [] true [].

Definition num_subscriptions (s : SessionSubscriptions) : Z := Z.of_nat (size (ss_subscriptions s)).
Definition put_subscription (id : Z) (sub : Subscription) (s : SessionSubscriptions) : SessionSubscriptions :=
  ss_set_subscriptions (<[id := sub]> (ss_subscriptions s)) s.
Definition send (on : Z) (m : ResponseMessage) (s : SessionSubscriptions) : SessionSubscriptions :=
  ss_set_sent (ss_sent s ++ [{| sent_on := on; sent_message := m |}]) s.

Definition max_publish_requests (s : SessionSubscriptions) : Z :=
  Z.max 1 (Z.min (max_pending_publish_requests (ss_limits s))
                 (num_subscriptions s * max_publish_requests_per_subscription (ss_limits s))).
Definition is_ready_to_delete (s : SessionSubscriptions) : bool :=
  bool_decide (ss_subscriptions s = ∅) && is_nil (ss_publish_request_queue s) && is_nil (ss_pending_status_changes s).

(** *** Ownership and transfer *)

Definition insert (subscription : Subscription) (notifs : list NonAckedPublish) (s : SessionSubscriptions)
    : SessionSubscriptions * result unit (StatusCode * Subscription * list NonAckedPublish) :=
  if max_subscriptions_per_session (ss_limits s) <=? num_subscriptions s
  then (s, Err (BadTooManySubscriptions, subscription, notifs))
  else
    let s := ss_set_transferring (ss_transferring s ∖ {[sub_id subscription]}) s in
    let s := ss_set_priority_cache_dirty true (put_subscription (sub_id subscription) subscription s) in
    (ss_set_retransmission_queue (foldl (fun q n => push_existing n q) (ss_retransmission_queue s) notifs) s, Ok tt).

Definition remove (subscription_id : Z) (s : SessionSubscriptions)
    : SessionSubscriptions * (option Subscription * list NonAckedPublish) :=
  let s := ss_set_priority_cache_dirty true (ss_set_transferring (ss_transferring s ∖ {[subscription_id]}) s) in
  let '(notifs, q) := rq_remove_subscription subscription_id (ss_retransmission_queue s) in
  (ss_set_subscriptions (delete subscription_id (ss_subscriptions s)) (ss_set_retransmission_queue q s),
   (ss_subscriptions s !! subscription_id, notifs)).

(** The new owner's subscriptions resend their data. *)
Definition update_owner (s : SessionSubscriptions) : SessionSubscriptions :=
  ss_set_subscriptions (sub_set_resend_data true <$> ss_subscriptions s) s.

Definition clone_for_transfer (subscription_id : Z) (s : SessionSubscriptions)
    : option (Subscription * list NonAckedPublish) :=
  sub ← ss_subscriptions s !! subscription_id;
  Some (sub, clone_subscription subscription_id (ss_retransmission_queue s)).

Definition mark_transferring (subscription_id : Z) (s : SessionSubscriptions)
    : SessionSubscriptions * result unit StatusCode :=
  match ss_subscriptions s !! subscription_id with
  | None => (s, Err BadSubscriptionIdInvalid)
  | Some _ => (ss_set_transferring ({[subscription_id]} ∪ ss_transferring s) s, Ok tt)
  end.

Definition queue_status_change (subscription_id sequence_number : Z) (publish_time : DateTime) (status : StatusCode)
    (s : SessionSubscriptions) : SessionSubscriptions :=
  ss_set_pending_status_changes
    (ss_pending_status_changes s ++ [(subscription_id, status_change sequence_number publish_time status)]) s.

(** [apply_revalidated_values] at time [now]. *)
Fixpoint apply_revalidated_values (values : list (MonitoredItemRef * DataValue)) (now : DateTime)
    (s : SessionSubscriptions) : outcome SessionSubscriptions :=
  match values with
  | [] => Ret s
  | (item, value) :: values' =>
      let handle := ref_handle item in
      let! s :=
        match ss_subscriptions s !! subscription_id handle with
        | None => Ret s
        | Some sub =>
            let! sub := update_monitored_item_value handle value now sub in
            Ret (put_subscription (subscription_id handle) sub s)
        end in
      apply_revalidated_values values' now s
  end.

(** *** Subscription services *)

(** [create_subscription]; [subscription_id] is the next identifier of the server, [now] the clock. *)
Definition create_subscription (request : CreateSubscriptionRequest) (info : SubscriptionLimits)
    (subscription_id now : Z) (s : SessionSubscriptions)
    : SessionSubscriptions * result CreateSubscriptionResponse StatusCode :=
  if max_subscriptions_per_session (ss_limits s) <=? num_subscriptions s then (s, Err BadTooManySubscriptions)
  else
    let '(interval, keep_alive, lifetime) :=
      revise_subscription_values info (cs_requested_publishing_interval request)
        (cs_requested_max_keep_alive_count request) (cs_requested_lifetime_count request) in
    let subscription :=
      subscription_new subscription_id (cs_publishing_enabled request) (duration_of_millis interval) lifetime
        keep_alive (cs_priority request) (max_queued_notifications (ss_limits s))
        (revise_max_notifications_per_publish (ss_limits s) (cs_max_notifications_per_publish request)) now in
    (ss_set_priority_cache_dirty true (put_subscription subscription_id subscription s),
     Ok {| csr_subscription_id := subscription_id; csr_revised_publishing_interval := interval;
           csr_revised_lifetime_count := lifetime; csr_revised_max_keep_alive_count := keep_alive |}).

Definition modify_subscription (request : ModifySubscriptionRequest) (info : SubscriptionLimits)
    (s : SessionSubscriptions) : SessionSubscriptions * result ModifySubscriptionResponse StatusCode :=
  let max_notifications :=
    revise_max_notifications_per_publish (ss_limits s) (ms_max_notifications_per_publish request) in
  match ss_subscriptions s !! ms_subscription_id request with
  | None => (s, Err BadSubscriptionIdInvalid)
  | Some sub =>
      let '(interval, keep_alive, lifetime) :=
        revise_subscription_values info (ms_requested_publishing_interval request)
          (ms_requested_max_keep_alive_count request) (ms_requested_lifetime_count request) in
      let sub := set_publishing_interval (duration_of_millis interval) sub in
      let sub := sub_set_max_keep_alive_counter keep_alive sub in
      let sub := sub_set_max_lifetime_counter lifetime sub in
      let sub := sub_set_priority (ms_priority request) sub in
      let sub := reset_keep_alive_counter (reset_lifetime_counter sub) in
      let sub := sub_set_max_notifications_per_publish max_notifications sub in
      (ss_set_priority_cache_dirty true (put_subscription (ms_subscription_id request) sub s),
       Ok {| msr_revised_publishing_interval := interval; msr_revised_lifetime_count := lifetime;
             msr_revised_max_keep_alive_count := keep_alive |})
  end.

Fixpoint set_publishing_mode_ids (ids : list Z) (enabled : bool) (s : SessionSubscriptions)
    : SessionSubscriptions * list (StatusCode * option DiagnosticInfo) :=
  match ids with
  | [] => (s, [])
  | id :: ids' =>
      let '(s, status) :=
        match ss_subscriptions s !! id with
        | Some sub => (put_subscription id (reset_lifetime_counter (sub_set_publishing_enabled enabled sub)) s, Good)
        | None => (s, BadSubscriptionIdInvalid)
        end in
      let '(s, pairs) := set_publishing_mode_ids ids' enabled s in
      (s, (status, None) :: pairs)
  end.
Definition set_publishing_mode (ids : option (list Z)) (enabled : bool) (diagnostics : Z) (s : SessionSubscriptions)
    : SessionSubscriptions * result (option (list StatusCode) * option (list DiagnosticInfo)) StatusCode :=
  match ids with
  | None | Some [] => (s, Err BadNothingToDo)
  | Some ids =>
      let '(s, pairs) := set_publishing_mode_ids ids enabled s in
      (s, Ok (consume_results pairs diagnostics))
  end.

Definition find_notification_message (subscription_id sequence_number : Z) (s : SessionSubscriptions)
    : result NotificationMessage StatusCode :=
  match ss_subscriptions s !! subscription_id with
  | None => Err BadSubscriptionIdInvalid
  | Some _ => ok_or (get_message subscription_id sequence_number (ss_retransmission_queue s)) BadMessageNotAvailable
  end.

Definition republish (subscription_id retransmit_sequence_number : Z) (s : SessionSubscriptions)
    : SessionSubscriptions * result NotificationMessage StatusCode :=
  match ss_subscriptions s !! subscription_id with
  | None => (s, Err BadSubscriptionIdInvalid)
  | Some sub =>
      let s := put_subscription subscription_id (reset_lifetime_counter sub) s in
      (s, find_notification_message subscription_id retransmit_sequence_number s)
  end.

(** *** Monitored item services *)

Record MonitoredItemCreateResult := {
  icr_status_code : StatusCode;
  icr_monitored_item_id : Z;
  icr_revised_sampling_interval : f64;
  icr_revised_queue_size : Z;
  icr_filter_result : option FilterResult
}.
Record MonitoredItemModifyResult := {
  imr_status_code : StatusCode;
  imr_revised_sampling_interval : f64;
  imr_revised_queue_size : Z;
  imr_filter_result : option FilterResult
}.

Definition sub_len (s : Subscription) : Z := Z.of_nat (size (sub_monitored_items s)).

(** The loop over the requests; the [n]-th item is created at time [clock n]. *)
Fixpoint create_items (cap : Z) (clock : nat -> DateTime) (n : nat) (requests : list CreateMonitoredItem)
    (sub : Subscription) : outcome (Subscription * list MonitoredItemCreateResult) :=
  match requests with
  | [] => Ret (sub, [])
  | item :: requests' =>
      let failed status :=
        {| icr_status_code := status; icr_monitored_item_id := 0;
           icr_revised_sampling_interval := cm_sampling_interval item;
           icr_revised_queue_size := wrap32 (cm_queue_size item); icr_filter_result := cm_filter_res item |} in
      let! (sub, r) :=
        (if is_good (cm_status_code item) then
           if (0 <? cap) && (cap <=? sub_len sub) then Ret (sub, failed BadTooManyMonitoredItems)
           else
             let! new_item := new_monitored_item item (clock n) in
             Ret (sub_insert (mi_id new_item) new_item sub,
                  {| icr_status_code := Good; icr_monitored_item_id := mi_id new_item;
                     icr_revised_sampling_interval := interval_millis (mi_sampling_interval new_item);
                     icr_revised_queue_size := wrap32 (mi_queue_size new_item);
                     icr_filter_result := cm_filter_res item |})
         else Ret (sub, failed (cm_status_code item))) in
      let! (sub, rs) := create_items cap clock (S n) requests' sub in
      Ret (sub, r :: rs)
  end.
Definition create_monitored_items (subscription_id : Z) (requests : list CreateMonitoredItem)
    (clock : nat -> DateTime) (s : SessionSubscriptions)
    : outcome (SessionSubscriptions * result (list MonitoredItemCreateResult) StatusCode) :=
  match ss_subscriptions s !! subscription_id with
  | None => Ret (s, Err BadSubscriptionIdInvalid)
  | Some sub =>
      let! (sub, results) := create_items (max_monitored_items_per_sub (ss_limits s)) clock 0 requests sub in
      Ret (put_subscription subscription_id sub s, Ok results)
  end.

Fixpoint modify_items (subscription_id : Z) (info : SubscriptionLimits) (timestamps_to_return : TimestampsToReturn)
    (requests : list MonitoredItemModifyRequest) (eu_ranges : gmap Z (f64 * f64)) (diagnostics : bool)
    (clock : nat -> DateTime) (n : nat) (sub : Subscription)
    : Subscription * list (MonitoredItemRef * MonitoredItemModifyResult) :=
  match requests with
  | [] => (sub, [])
  | request :: requests' =>
      let id := mr_monitored_item_id request in
      let '(sub, r) :=
        match sub_monitored_items sub !! id with
        | Some item =>
            let '(item, (filter_result, status)) :=
              modify info timestamps_to_return request (eu_ranges !! id) diagnostics (clock n) item in
            (store_item id item false sub,
             (item_ref subscription_id item,
              {| imr_status_code := status;
                 imr_revised_sampling_interval := interval_millis (mi_sampling_interval item);
                 imr_revised_queue_size := wrap32 (mi_queue_size item); imr_filter_result := filter_result |}))
        | None =>
            (sub, (null_ref subscription_id id,
                   {| imr_status_code := BadMonitoredItemIdInvalid; imr_revised_sampling_interval := f64_zero;
                      imr_revised_queue_size := 0; imr_filter_result := None |}))
        end in
      let '(sub, rs) := modify_items subscription_id info timestamps_to_return requests' eu_ranges diagnostics clock (S n) sub in
      (sub, r :: rs)
  end.
Definition modify_monitored_items (subscription_id : Z) (info : SubscriptionLimits)
    (timestamps_to_return : TimestampsToReturn) (requests : list MonitoredItemModifyRequest)
    (eu_ranges : gmap Z (f64 * f64)) (diagnostics : bool) (clock : nat -> DateTime) (s : SessionSubscriptions)
    : SessionSubscriptions * result (list (MonitoredItemRef * MonitoredItemModifyResult)) StatusCode :=
  match ss_subscriptions s !! subscription_id with
  | None => (s, Err BadSubscriptionIdInvalid)
  | Some sub =>
      let '(sub, results) := modify_items subscription_id info timestamps_to_return requests eu_ranges diagnostics clock 0 sub in
      (put_subscription subscription_id sub s, Ok results)
  end.

Definition monitored_item_node_ids (subscription_id : Z) (ids : list Z) (s : SessionSubscriptions)
    : result (gmap Z NodeId) StatusCode :=
  match ss_subscriptions s !! subscription_id with
  | None => Err BadSubscriptionIdInvalid
  | Some sub =>
      Ok (foldl (fun m id => match sub_monitored_items sub !! id with
                             | Some i => <[id := pr_node_id (mi_item_to_monitor i)]> m
                             | None => m
                             end) ∅ ids)
  end.

Fixpoint set_mode_items (subscription_id : Z) (monitoring_mode : MonitoringMode) (ids : list Z) (sub : Subscription)
    : Subscription * list (StatusCode * MonitoredItemRef) :=
  match ids with
  | [] => (sub, [])
  | id :: ids' =>
      let '(sub, r) :=
        match sub_monitored_items sub !! id with
        | Some item =>
            (store_item id (mi_set_monitoring_mode monitoring_mode item) false sub, (Good, item_ref_at subscription_id id item))
        | None => (sub, (BadMonitoredItemIdInvalid, null_ref subscription_id id))
        end in
      let '(sub, rs) := set_mode_items subscription_id monitoring_mode ids' sub in (sub, r :: rs)
  end.
Definition set_monitoring_mode (subscription_id : Z) (monitoring_mode : MonitoringMode) (items : list Z)
    (s : SessionSubscriptions) : SessionSubscriptions * result (list (StatusCode * MonitoredItemRef)) StatusCode :=
  match ss_subscriptions s !! subscription_id with
  | None => (s, Err BadSubscriptionIdInvalid)
  | Some sub =>
      let '(sub, results) := set_mode_items subscription_id monitoring_mode items sub in
      (put_subscription subscription_id sub s, Ok results)
  end.

Definition contains_key (sub : Subscription) (id : Z) : bool :=
  match sub_monitored_items sub !! id with Some _ => true | None => false end.
Definition filter_links (links : list Z) (sub : Subscription) : list Z * list StatusCode :=
  (filter (fun l => contains_key sub l = true) links,
   map (fun l => if contains_key sub l then Good else BadMonitoredItemIdInvalid) links).
Definition session_set_triggering (subscription_id triggering_item_id : Z) (links_to_add links_to_remove : list Z)
    (s : SessionSubscriptions) : SessionSubscriptions * result (list StatusCode * list StatusCode) StatusCode :=
  match ss_subscriptions s !! subscription_id with
  | None => (s, Err BadSubscriptionIdInvalid)
  | Some sub =>
      match sub_monitored_items sub !! triggering_item_id with
      | None => (s, Err BadMonitoredItemIdInvalid)
      | Some item =>
          let '(to_add, add_results) := filter_links links_to_add sub in
          let '(to_remove, remove_results) := filter_links links_to_remove sub in
          (put_subscription subscription_id
             (store_item triggering_item_id (set_triggering to_add to_remove item) false sub) s,
           Ok (add_results, remove_results))
      end
  end.

Fixpoint delete_items (subscription_id : Z) (ids : list Z) (sub : Subscription) : Subscription * list (StatusCode * MonitoredItemRef) :=
  match ids with
  | [] => (sub, [])
  | id :: ids' =>
      let '(r, sub) :=
        match sub_remove id sub with
        | (Some item, sub) => ((Good, item_ref_at subscription_id id item), sub)
        | (None, sub) => ((BadMonitoredItemIdInvalid, null_ref subscription_id id), sub)
        end in
      let '(sub, rs) := delete_items subscription_id ids' sub in (sub, r :: rs)
  end.
Definition delete_monitored_items (subscription_id : Z) (items : list Z) (s : SessionSubscriptions)
    : SessionSubscriptions * result (list (StatusCode * MonitoredItemRef)) StatusCode :=
  match ss_subscriptions s !! subscription_id with
  | None => (s, Err BadSubscriptionIdInvalid)
  | Some sub =>
      let '(sub, results) := delete_items subscription_id items sub in
      (put_subscription subscription_id sub s, Ok results)
  end.

(** The entries of a removed subscription leave the retransmission queue. *)
Definition drop_retransmissions (subscription_id : Z) (s : SessionSubscriptions) : SessionSubscriptions :=
  ss_set_retransmission_queue (rq_remove_subscription subscription_id (ss_retransmission_queue s)).2 s.

Fixpoint delete_subscriptions_loop (ids : list Z) (s : SessionSubscriptions)
    : SessionSubscriptions * list (StatusCode * list MonitoredItemRef) :=
  match ids with
  | [] => (s, [])
  | id :: ids' =>
      let s := ss_set_priority_cache_dirty true s in
      let '(s, r) :=
        match ss_subscriptions s !! id with
        | None => (s, (BadSubscriptionIdInvalid, []))
        | Some sub =>
            (ss_set_subscriptions (delete id (ss_subscriptions s)) s,
             (Good, map (fun item => item_ref id item.2) (sub_drain sub).1))
        end in
      let '(s, rs) := delete_subscriptions_loop ids' s in (s, r :: rs)
  end.
Definition delete_subscriptions (ids : list Z) (s : SessionSubscriptions)
    : SessionSubscriptions * list (StatusCode * list MonitoredItemRef) :=
  let '(s, results) := delete_subscriptions_loop ids s in
  (foldl (fun s id => drop_retransmissions id s) s ids, results).

(** *** Publishing *)

Fixpoint process_acks (acks : list (Z * Z)) (s : SessionSubscriptions) : SessionSubscriptions * list StatusCode :=
  match acks with
  | [] => (s, [])
  | (subscription_id, sequence_number) :: acks' =>
      let '(s, status) :=
        match ss_subscriptions s !! subscription_id with
        | None => (s, BadSubscriptionIdInvalid)
        | Some _ =>
            let '(r, q) := rq_ack subscription_id sequence_number (ss_retransmission_queue s) in
            (ss_set_retransmission_queue q s,
             match r with Some _ => Good | None => BadSequenceNumberUnknown end)
        end in
      let '(s, statuses) := process_acks acks' s in (s, status :: statuses)
  end.
Definition process_subscription_acks (request : PublishRequest) (s : SessionSubscriptions)
    : SessionSubscriptions * option (list StatusCode) :=
  match pq_acknowledgements request with
  | None | Some [] => (s, None)
  | Some acks => let '(s, statuses) := process_acks acks s in (s, Some statuses)
  end.

(** The loop stops when one of the two queues is empty. *)
Fixpoint deliver_status_changes (requests : list PendingPublish) (changes : list (Z * NotificationMessage))
    (sent : list Sent) : list PendingPublish * list (Z * NotificationMessage) * list Sent :=
  match changes, requests with
  | (subscription_id, notification) :: changes', request :: requests' =>
      let '(results, diagnostic_infos) :=
        publish_ack_diagnostics (pp_ack_results request) (return_diagnostics (pq_header (pp_request request))) in
      let response :=
        {| pr_subscription_id := subscription_id; pr_available_sequence_numbers := None;
           pr_more_notifications := false; pr_notification_message := notification;
           pr_results := results; pr_diagnostic_infos := diagnostic_infos |} in
      deliver_status_changes requests' changes'
        (sent ++ [{| sent_on := pp_response request; sent_message := PublishOk response |}])
  | _, _ => (requests, changes, sent)
  end.
Definition deliver_pending_status_changes (s : SessionSubscriptions) : SessionSubscriptions :=
  let '(requests, changes, sent) :=
    deliver_status_changes (ss_publish_request_queue s) (ss_pending_status_changes s) (ss_sent s) in
  ss_set_sent sent (ss_set_pending_status_changes changes (ss_set_publish_request_queue requests s)).

(** A fault sent for each of the requests. *)
Definition fault (status : StatusCode) (r : PendingPublish) : Sent :=
  {| sent_on := pp_response r; sent_message := ServiceFault status |}.

Definition reject_publish_requests_without_subscriptions (s : SessionSubscriptions) : SessionSubscriptions :=
  ss_set_sent (ss_sent s ++ map (fault BadNoSubscription) (ss_publish_request_queue s))
    (ss_set_publish_request_queue [] s).

(** The requests that satisfy [p] are answered with a fault and leave the queue. *)
Definition fault_requests (p : PendingPublish -> bool) (status : StatusCode) (s : SessionSubscriptions)
    : SessionSubscriptions :=
  ss_set_sent (ss_sent s ++ map (fault status) (List.filter p (ss_publish_request_queue s)))
    (ss_set_publish_request_queue (List.filter (fun r => negb (p r)) (ss_publish_request_queue s)) s).

Definition remove_expired_publish_requests (now : Z) (s : SessionSubscriptions) : SessionSubscriptions :=
  fault_requests (fun r => pp_deadline r <? now) BadTimeout s.

Definition cancel_publish_requests (handle : Z) (s : SessionSubscriptions) : SessionSubscriptions * Z :=
  let p r := request_handle (pq_header (pp_request r)) =? handle in
  (fault_requests p BadRequestCancelledByClient s, wrap32 (zlen (List.filter p (ss_publish_request_queue s)))).

Record RemovedSubscription := { removed_id : Z; removed_items : list MonitoredItemRef }.

Definition remove_ready_subscriptions (to_remove : list Z) (s : SessionSubscriptions) : SessionSubscriptions :=
  foldl (fun s id =>
    drop_retransmissions id
      (ss_set_subscriptions (delete id (ss_subscriptions s)) (ss_set_transferring (ss_transferring s ∖ {[id]}) s)))
    (ss_set_priority_cache_dirty true s) to_remove.

Definition removed_if_expired (id : Z) (refs : list MonitoredItemRef) (r : TickResult) : list RemovedSubscription :=
  match r with Expired => [{| removed_id := id; removed_items := refs |}] | _ => [] end.

(** The loop over the hash map of subscriptions: the expired ones, and the ones to remove. *)
Fixpoint tick_all_without (fuel : nat) (now now_instant : Z) (reason : TickReason) (ids : list Z)
    (s : SessionSubscriptions) : outcome (SessionSubscriptions * list RemovedSubscription * list Z) :=
  match ids with
  | [] => Ret (s, [], [])
  | id :: ids' =>
      match ss_subscriptions s !! id with
      | Some sub =>
          if bool_decide (id ∈ ss_transferring s) then tick_all_without fuel now now_instant reason ids' s
          else
            let refs := monitored_item_refs sub in
            let! (sub, r) := tick fuel now now_instant reason false sub in
            let! (s, removed, to_remove) :=
              tick_all_without fuel now now_instant reason ids' (put_subscription id sub s) in
            Ret (s, removed_if_expired id refs r ++ removed, if ready_to_remove sub then id :: to_remove else to_remove)
      | None => tick_all_without fuel now now_instant reason ids' s
      end
  end.
Definition tick_subscriptions_without_publish_requests (fuel : nat) (now now_instant : Z) (reason : TickReason)
    (s : SessionSubscriptions) : outcome (SessionSubscriptions * list RemovedSubscription) :=
  let! (s, removed, to_remove) :=
    tick_all_without fuel now now_instant reason (hash_order (dom (ss_subscriptions s))) s in
  Ret (remove_ready_subscriptions to_remove s, removed).

(** Subscriptions by descending priority, then by ascending identifier. *)
Definition priority_le (a b : Z * Z) : Prop := b.2 < a.2 \/ a.2 = b.2 /\ a.1 <= b.1.
#[global] Instance priority_le_dec a b : Decision (priority_le a b).
Proof. unfold priority_le. apply _. Defined.

Definition subscription_ids_by_priority (s : SessionSubscriptions) : SessionSubscriptions * list Z :=
  let s :=
    if ss_priority_cache_dirty s then
      let order := map (fun v => (sub_id v, sub_priority v)) (hash_values (ss_subscriptions s)) in
      ss_set_priority_cache_dirty false
        (ss_set_cached_priority_order (map fst (merge_sort priority_le order)) s)
    else s in
  (s, ss_cached_priority_order s).

(** A publish request paired with a message of a subscription. *)
Abbreviation PendingPublishResponse := (PendingPublish * NotificationMessage * Z)%type.

(** The loop runs while both queues have entries. *)
Fixpoint take_loop (sub_id : Z) (requests : list PendingPublish) (sub : Subscription)
    : list PendingPublish * Subscription * list PendingPublishResponse :=
  match requests with
  | [] => ([], sub, [])
  | request :: requests' =>
      match take_notification sub with
      | (None, _) => (requests, sub, [])
      | (Some message, sub) =>
          let '(requests, sub, responses) := take_loop sub_id requests' sub in
          (requests, sub, (request, message, sub_id) :: responses)
      end
  end.

Definition tick_subscription_with_publish_requests (fuel : nat) (id now now_instant : Z) (reason : TickReason)
    (s : SessionSubscriptions)
    : outcome (SessionSubscriptions * list RemovedSubscription * bool * list PendingPublishResponse) :=
  let! sub := unwrap (ss_subscriptions s !! id) in
  let refs := monitored_item_refs sub in
  let! (sub, r) := tick fuel now now_instant reason (negb (is_nil (ss_publish_request_queue s))) sub in
  let '(requests, sub, responses) := take_loop id (ss_publish_request_queue s) sub in
  let s := put_subscription id sub (ss_set_publish_request_queue requests s) in
  let more := sub_more_notifications sub in
  let s :=
    if ready_to_remove sub
    then drop_retransmissions id (ss_set_subscriptions (delete id (ss_subscriptions s)) s)
    else s in
  Ret (s, removed_if_expired id refs r, more, responses).

Fixpoint tick_all_with (fuel : nat) (now now_instant : Z) (reason : TickReason) (ids : list Z)
    (s : SessionSubscriptions)
    : outcome (SessionSubscriptions * list RemovedSubscription * bool * list PendingPublishResponse) :=
  match ids with
  | [] => Ret (s, [], false, [])
  | id :: ids' =>
      if bool_decide (id ∈ ss_transferring s) then tick_all_with fuel now now_instant reason ids' s
      else
        let! (s, removed, more, responses) :=
          tick_subscription_with_publish_requests fuel id now now_instant reason s in
        let! (s, removed', more', responses') := tick_all_with fuel now now_instant reason ids' s in
        Ret (s, removed ++ removed', more || more', responses ++ responses')
  end.
Definition tick_subscriptions_with_publish_requests (fuel : nat) (now now_instant : Z) (reason : TickReason)
    (s : SessionSubscriptions)
    : outcome (SessionSubscriptions * list RemovedSubscription * bool * list PendingPublishResponse) :=
  let '(s, ids) := subscription_ids_by_priority s in
  tick_all_with fuel now now_instant reason ids s.

Definition available_sequence_numbers (subscription_id : Z) (s : SessionSubscriptions) : option (list Z) :=
  rq_available_sequence_numbers subscription_id (ss_retransmission_queue s).

Fixpoint send_publish_responses (responses : list PendingPublishResponse) (more_notifications : bool)
    (s : SessionSubscriptions) : SessionSubscriptions :=
  match responses with
  | [] => s
  | (request, notification, subscription_id) :: responses' =>
      let is_last := is_nil responses' in
      let s := ss_set_retransmission_queue
                 (rq_enqueue (max_publish_requests s * 2) subscription_id notification (ss_retransmission_queue s)) s in
      let '(results, diagnostic_infos) :=
        publish_ack_diagnostics (pp_ack_results request) (return_diagnostics (pq_header (pp_request request))) in
      let response :=
        {| pr_subscription_id := subscription_id;
           pr_available_sequence_numbers := available_sequence_numbers subscription_id s;
           pr_more_notifications := is_last && more_notifications;
           pr_notification_message := notification;
           pr_results := results; pr_diagnostic_infos := diagnostic_infos |} in
      send_publish_responses responses' more_notifications (send (pp_response request) (PublishOk response) s)
  end.

Definition session_tick (fuel : nat) (now now_instant : Z) (reason : TickReason) (s : SessionSubscriptions)
    : outcome (SessionSubscriptions * list RemovedSubscription) :=
  let s := deliver_pending_status_changes s in
  if bool_decide (ss_subscriptions s = ∅)
     || (num_subscriptions s =? Z.of_nat (size (ss_transferring s)))
  then Ret (reject_publish_requests_without_subscriptions s, [])
  else
    let s := remove_expired_publish_requests now_instant s in
    if is_nil (ss_publish_request_queue s)
    then tick_subscriptions_without_publish_requests fuel now now_instant reason s
    else
      let! (s, removed, more, responses) :=
        tick_subscriptions_with_publish_requests fuel now now_instant reason s in
      Ret (send_publish_responses responses more s, removed).

Definition process_notification_wake (fuel : nat) (now now_instant : Z) (s : SessionSubscriptions)
    : outcome SessionSubscriptions :=
  if is_nil (ss_publish_request_queue s) then Ret s
  else
    let! (s, _, more, responses) :=
      tick_subscriptions_with_publish_requests fuel now now_instant NotificationAvailable s in
    Ret (send_publish_responses responses more s).

Definition enqueue_publish_request (fuel : nat) (now now_instant : Z) (request : PendingPublish)
    (s : SessionSubscriptions) : outcome SessionSubscriptions :=
  let! (s, _) :=
    (if max_publish_requests s <=? zlen (ss_publish_request_queue s)
     then session_tick fuel now now_instant ReceivePublishRequest s
     else Ret (s, [])) in
  let! s :=
    (if max_publish_requests s <=? zlen (ss_publish_request_queue s) then
       let '(queue, oldest) := pop_front (ss_publish_request_queue s) in
       let! req := unwrap oldest in
       Ret (send (pp_response req) (ServiceFault BadTooManyPublishRequests) (ss_set_publish_request_queue queue s))
     else Ret s) in
  let '(s, ack_results) := process_subscription_acks (pp_request request) s in
  let request := {| pp_response := pp_response request; pp_request := pp_request request;
                    pp_ack_results := ack_results; pp_deadline := pp_deadline request |} in
  let s := ss_set_publish_request_queue (ss_publish_request_queue s ++ [request]) s in
  let! (s, _) := session_tick fuel now now_instant ReceivePublishRequest s in
  Ret s.

Definition has_more_notifications (s : SessionSubscriptions) : bool :=
  existsb sub_more_notifications (hash_values (ss_subscriptions s)).
Definition next_tick_deadline (s : SessionSubscriptions) : option Z :=
  match map next_publish_deadline (hash_values (ss_subscriptions s)) with
  | [] => None
  | d :: ds => Some (foldl Z.min d ds)
  end.

(** *** Notification work items *)

Inductive NotificationWorkItem : Type :=
| WorkData (handle : MonitoredItemHandle) (value : DataValue)
| WorkRangeChanged (handle : MonitoredItemHandle) (low high : f64)
| WorkEvent (handle : MonitoredItemHandle) (e : event)
| WorkRefresh (subscription_id : Z) (monitored_item : option MonitoredItemHandle) (events : list event).

Record PendingRefreshDrain := {
  rd_subscription_id : Z;
  rd_monitored_item : option MonitoredItemHandle;
  rd_events : list event;
  rd_next_event : nat
}.

Section ring.
(** The permission check of an event for this session; what overflow events draw (by the number of
    items processed, the monitored item and the event); the clock. *)
Variable event_receive_allowed : event -> bool.
Variable entropy : nat -> Z -> nat -> list Z * DateTime.
Variable now : DateTime.

Definition drain_pending_refresh (event_limit processed : nat) (refresh : PendingRefreshDrain)
    (s : SessionSubscriptions) : SessionSubscriptions * PendingRefreshDrain * nat :=
  let deliver_count := Nat.min (length (rd_events refresh) - rd_next_event refresh) event_limit in
  match deliver_count with
  | O => (s, refresh, O)
  | _ =>
      let events := List.filter event_receive_allowed
                      (take deliver_count (drop (rd_next_event refresh) (rd_events refresh))) in
      let s :=
        match ss_subscriptions s !! rd_subscription_id refresh with
        | None => s
        | Some sub =>
            if is_nil events then s
            else put_subscription (rd_subscription_id refresh)
                   (refresh_events (entropy processed) (rd_monitored_item refresh) events sub).1 s
        end in
      (s, {| rd_subscription_id := rd_subscription_id refresh; rd_monitored_item := rd_monitored_item refresh;
             rd_events := rd_events refresh; rd_next_event := rd_next_event refresh + deliver_count |}, deliver_count)
  end.

(** One work item other than a refresh. *)
Definition process_work (processed : nat) (item : NotificationWorkItem) (s : SessionSubscriptions)
    : outcome SessionSubscriptions :=
  match item with
  | WorkData handle value =>
      match ss_subscriptions s !! subscription_id handle with
      | None => Ret s
      | Some sub =>
          let! sub := sub_notify_data_value (monitored_item_id handle) value now sub in
          Ret (put_subscription (subscription_id handle) sub s)
      end
  | WorkRangeChanged handle low high =>
      match ss_subscriptions s !! subscription_id handle with
      | None => Ret s
      | Some sub =>
          Ret (put_subscription (subscription_id handle)
                 (sub_notify_eu_range_changed (monitored_item_id handle) low high sub) s)
      end
  | WorkEvent handle e =>
      if negb (event_receive_allowed e) then Ret s
      else
        match ss_subscriptions s !! subscription_id handle with
        | None => Ret s
        | Some sub =>
            let '(random, at_time) := entropy processed (monitored_item_id handle) 0 in
            Ret (put_subscription (subscription_id handle)
                   (sub_notify_event (monitored_item_id handle) e random at_time sub) s)
        end
  | WorkRefresh _ _ _ => Ret s
  end.

(** The ring, the refresh in progress and the number of items processed.  A refresh that does not fit
    in the chunk ends the loop, as does one found at its start. *)
Fixpoint drain_ring (ring : list NotificationWorkItem) (event_chunk processed : nat)
    (s : SessionSubscriptions)
    : outcome (SessionSubscriptions * list NotificationWorkItem * option PendingRefreshDrain * nat) :=
  if (event_chunk <=? processed)%nat then Ret (s, ring, None, processed)
  else
    match ring with
    | [] => Ret (s, [], None, processed)
    | WorkRefresh id monitored_item events :: ring' =>
        let refresh := {| rd_subscription_id := id; rd_monitored_item := monitored_item; rd_events := events;
                          rd_next_event := 0 |} in
        let '(s, refresh, n) := drain_pending_refresh (event_chunk - processed) processed refresh s in
        if (event_chunk <=? processed + n)%nat then Ret (s, ring', Some refresh, processed + n)%nat
        else
          let '(s, refresh, m) := drain_pending_refresh (event_chunk - (processed + n)) (processed + n) refresh s in
          Ret (s, ring', Some refresh, processed + n + m)%nat
    | item :: ring' =>
        let! s := process_work processed item s in
        drain_ring ring' event_chunk (S processed) s
    end.
Definition drain_ring_chunk (ring : list NotificationWorkItem) (event_chunk : nat)
    (pending_refresh : option PendingRefreshDrain) (s : SessionSubscriptions)
    : outcome (SessionSubscriptions * list NotificationWorkItem * option PendingRefreshDrain * nat) :=
  match pending_refresh with
  | Some refresh =>
      if (event_chunk =? 0)%nat then Ret (s, ring, Some refresh, O)
      else
        let '(s, refresh, n) := drain_pending_refresh event_chunk 0 refresh s in
        Ret (s, ring, Some refresh, n)
  | None => drain_ring ring event_chunk 0 s
  end.
End ring.

End session.
