(* ===== verification/SessionFacts.v ===== *)
(** * Facts about the subscriptions of a session

    What [SessionSubscriptions.v] guarantees: every publish request is answered exactly once, the
    revised parameters of a subscription are within the limits, subscriptions are served by
    priority, acknowledgements remove exactly the messages they name; and two states in which a tick
    goes wrong. *)

From S2P Require Import Prelude Text Float StatusCode NumericRange Variant Limits DataChangeFilter MonitoredItem.
From S2P Require Import Concrete MonitoredItemFacts Subscription SubscriptionFacts RetransmissionQueue SessionSubscriptions.

(** ** Revised parameters *)

(** The parameters of a created or modified subscription are within the server's limits: the
    publishing interval is not below the minimum, the keep-alive count is between 1 and its maximum,
    and the lifetime count is at least three keep-alive counts and at most the larger of its maximum
    and three keep-alive counts. *)
Theorem revised_values_bounds (info : SubscriptionLimits) (interval : f64) (keep_alive lifetime : Z) :
  is_u32 keep_alive -> is_u32 lifetime ->
  1 <= default_keep_alive_count info <= max_keep_alive_count info ->
  max_keep_alive_count info * 3 <= u32_max ->
  max_keep_alive_count info * 3 <= max_lifetime_count info ->
  let '(i, k, l) := revise_subscription_values info interval keep_alive lifetime in
  f64_lt i (min_publishing_interval_ms info) = false
  /\ (i = interval \/ i = min_publishing_interval_ms info)
  /\ 1 <= k <= max_keep_alive_count info
  /\ 3 * k <= l /\ l <= max_lifetime_count info
  /\ (1 <= keep_alive <= max_keep_alive_count info -> k = keep_alive)
  /\ (3 * k <= lifetime <= max_lifetime_count info -> l = lifetime).
Proof.
  intros Hk Hl Hd Hm Hml. unfold revise_subscription_values.
  split; [apply f64_max_not_below|]. split; [apply f64_max_cases|].
  set (k := if max_keep_alive_count info <? keep_alive then _ else _).
  assert (1 <= k <= max_keep_alive_count info) as Hkb.
  { subst k. destruct (Z.ltb_spec (max_keep_alive_count info) keep_alive); [lia|].
    destruct (Z.eqb_spec keep_alive 0); [lia|]. unfold is_u32 in Hk. lia. }
  rewrite wrap32_small by (unfold is_u32; lia).
  split; [done|].
  destruct (Z.ltb_spec lifetime (k * 3)), (Z.ltb_spec (max_lifetime_count info) lifetime); simpl;
    (split; [lia|split; [lia|split; [|lia]]]); intros; subst k;
    destruct (Z.ltb_spec (max_keep_alive_count info) keep_alive), (Z.eqb_spec keep_alive 0); lia.
Qed.

Lemma revised_values_bounds_witness :
  let '(i, k, l) := revise_subscription_values default_limits f64_zero 7 0 in
  1 <= k <= 30000 /\ 3 * k <= l.
Proof.
  pose proof (revised_values_bounds default_limits f64_zero 7 0) as H.
  destruct (revise_subscription_values default_limits f64_zero 7 0) as [[i k] l].
  destruct H as (_ & _ & Hk & Hl & _); try (split; vm_compute; discriminate); try (vm_compute; discriminate).
  split; [exact Hk|exact Hl].
Defined.

Section facts.
Context {D : DynEncodable} {C : Chrono} {E : EventModel} {A : AggregateEngine} {H : HashOrder}.

(** ** Publish requests *)

(** The channels of the requests in the queue, and the channels answered. *)
Definition queued (s : SessionSubscriptions) : list Z := map pp_response (ss_publish_request_queue s).
Definition answered (s : SessionSubscriptions) : list Z := map sent_on (ss_sent s).
(** Every request of [s] is queued or answered: the channels, with their multiplicity. *)
Definition channels (s : SessionSubscriptions) : list Z := answered s ++ queued s.
(** Nothing is answered but requests of the queue, and nothing is forgotten. *)
Definition conserves (s s' : SessionSubscriptions) : Prop :=
  channels s' ≡ₚ channels s /\ exists new, ss_sent s' = ss_sent s ++ new.

#[local] Instance conserves_preorder : PreOrder conserves.
Proof.
  split.
  - intros s. split; [done|]. exists []. by rewrite app_nil_r.
  - intros s1 s2 s3 [H1 [n1 E1]] [H2 [n2 E2]]. split; [by rewrite H2|].
    exists (n1 ++ n2). by rewrite E2, E1, app_assoc.
Qed.

(** Operations that touch neither the queue nor the channels. *)
Lemma conserves_same s s' :
  ss_publish_request_queue s' = ss_publish_request_queue s -> ss_sent s' = ss_sent s -> conserves s s'.
Proof.
  intros Hq Hs. unfold conserves, channels, answered, queued. rewrite Hq, Hs. split; [done|].
  exists []. by rewrite app_nil_r.
Qed.

Lemma deliver_status_conserves requests changes sent :
  let '(requests', _, sent') := deliver_status_changes requests changes sent in
  map sent_on sent' ++ map pp_response requests' ≡ₚ map sent_on sent ++ map pp_response requests
  /\ exists new, sent' = sent ++ new.
Proof.
  revert changes sent. induction requests as [|r requests IH]; intros [|[id n] changes] sent; simpl;
    try (split; [done|]; exists []; by rewrite app_nil_r).
  destruct (publish_ack_diagnostics _ _) as [results infos].
  specialize (IH changes (sent ++ [{| sent_on := pp_response r; sent_message := PublishOk
     {| pr_subscription_id := id; pr_available_sequence_numbers := None; pr_more_notifications := false;
        pr_notification_message := n; pr_results := results; pr_diagnostic_infos := infos |} |}])).
  destruct (deliver_status_changes _ _ _) as [[requests' changes'] sent'].
  destruct IH as [IH [new ->]]. split; [|eexists; by rewrite <-app_assoc].
  rewrite IH, map_app. simpl. by rewrite <-app_assoc.
Qed.

Lemma deliver_conserves s : conserves s (deliver_pending_status_changes s).
Proof.
  unfold deliver_pending_status_changes.
  pose proof (deliver_status_conserves (ss_publish_request_queue s) (ss_pending_status_changes s) (ss_sent s)) as Hd.
  destruct (deliver_status_changes _ _ _) as [[requests changes] sent]. exact Hd.
Qed.

Lemma filter_split_perm {T} (p : T -> bool) (l : list T) :
  List.filter p l ++ List.filter (fun x => negb (p x)) l ≡ₚ l.
Proof.
  induction l as [|x l IH]; [done|]. simpl. destruct (p x); simpl; [by rewrite IH|].
  rewrite <-Permutation_middle. by rewrite IH.
Qed.

Lemma map_fault status l : map sent_on (map (fault status) l) = map pp_response l.
Proof. rewrite map_map. done. Qed.

Lemma fault_conserves p status s : conserves s (fault_requests p status s).
Proof.
  split; [|by eexists]. unfold channels, answered, queued. simpl.
  rewrite map_app, map_fault, <-app_assoc, <-map_app. apply Permutation_app_head.
  apply Permutation_map, filter_split_perm.
Qed.

Lemma reject_conserves s : conserves s (reject_publish_requests_without_subscriptions s).
Proof.
  split; [|by eexists]. unfold channels, answered, queued. simpl. by rewrite map_app, map_fault, app_nil_r.
Qed.

Lemma tick_all_without_conserves fuel now t reason ids : forall s s' removed to_remove,
  tick_all_without fuel now t reason ids s = Ret (s', removed, to_remove) -> conserves s s'.
Proof.
  induction ids as [|id ids IH]; intros s s' removed to_remove; simpl; [by intros [= <- _ _]|].
  destruct (ss_subscriptions s !! id) as [sub|]; [|by apply IH].
  destruct (bool_decide _); [by apply IH|].
  intros ([sub' r] & _ & ([[s1 rem] tr] & Hrec & [= <- _ _])%outcome_bind_ret)%outcome_bind_ret.
  apply IH in Hrec. etransitivity; [|exact Hrec]. by apply conserves_same.
Qed.

Lemma remove_ready_conserves ids s : conserves s (remove_ready_subscriptions ids s).
Proof.
  unfold remove_ready_subscriptions. apply conserves_same.
  - change (ss_publish_request_queue s) with (ss_publish_request_queue (ss_set_priority_cache_dirty true s)).
    generalize (ss_set_priority_cache_dirty true s). induction ids as [|id ids IH]; intros s0; simpl; [done|].
    by rewrite IH.
  - change (ss_sent s) with (ss_sent (ss_set_priority_cache_dirty true s)).
    generalize (ss_set_priority_cache_dirty true s). induction ids as [|id ids IH]; intros s0; simpl; [done|].
    by rewrite IH.
Qed.

(** The requests taken by responses not yet sent. *)
Definition pending_channels (responses : list (PendingPublish * NotificationMessage * Z)) : list Z :=
  map (fun r => pp_response r.1.1) responses.

Lemma take_loop_conserves id requests : forall sub,
  let '(requests', _, responses) := take_loop id requests sub in
  map pp_response requests = pending_channels responses ++ map pp_response requests'.
Proof.
  induction requests as [|r requests IH]; intros sub; simpl; [done|].
  destruct (head (sub_notifications sub)) as [m|]; [|done].
  match goal with |- context [take_loop id requests ?x] => specialize (IH x); destruct (take_loop id requests x) as [[requests' sub''] responses] end.
  simpl. by rewrite IH.
Qed.

Lemma tick_one_conserves fuel id now t reason s s' removed more responses :
  tick_subscription_with_publish_requests fuel id now t reason s = Ret (s', removed, more, responses) ->
  ss_sent s' = ss_sent s /\ queued s = pending_channels responses ++ queued s'.
Proof.
  unfold tick_subscription_with_publish_requests.
  intros (sub & _ & ([sub' r] & _ & Ht)%outcome_bind_ret)%outcome_bind_ret.
  pose proof (take_loop_conserves id (ss_publish_request_queue s) sub') as Hl.
  destruct (take_loop id (ss_publish_request_queue s) sub') as [[requests sub''] resp].
  injection Ht as <- _ _ <-. split; [by destruct (ready_to_remove sub'')|].
  unfold queued. rewrite Hl. by destruct (ready_to_remove sub'').
Qed.

Lemma tick_all_with_conserves fuel now t reason ids : forall s s' removed more responses,
  tick_all_with fuel now t reason ids s = Ret (s', removed, more, responses) ->
  ss_sent s' = ss_sent s /\ queued s = pending_channels responses ++ queued s'.
Proof.
  induction ids as [|id ids IH]; intros s s' removed more responses; simpl; [by intros [= <- _ _ <-]|].
  destruct (bool_decide _); [by apply IH|].
  intros ([[[s1 rm1] m1] resp1] & H1 & ([[[s2 rm2] m2] resp2] & H2 & [= <- _ _ <-])%outcome_bind_ret)%outcome_bind_ret.
  apply tick_one_conserves in H1 as [Hs1 Hq1]. apply IH in H2 as [Hs2 Hq2]. split; [congruence|].
  rewrite Hq1, Hq2. unfold pending_channels. by rewrite map_app, app_assoc.
Qed.

Lemma send_responses_sent responses more : forall s, exists new,
  ss_sent (send_publish_responses responses more s) = ss_sent s ++ new
  /\ map sent_on new = pending_channels responses
  /\ ss_publish_request_queue (send_publish_responses responses more s) = ss_publish_request_queue s
  /\ ss_subscriptions (send_publish_responses responses more s) = ss_subscriptions s
  /\ Forall2 (fun m r => exists p, sent_message m = PublishOk p
              /\ pr_notification_message p = r.1.2 /\ pr_subscription_id p = r.2) new responses
  /\ forall k m p, new !! k = Some m -> sent_message m = PublishOk p ->
       pr_more_notifications p = bool_decide (S k = length new) && more.
Proof.
  induction responses as [|[[r n] id] responses IH]; intros s; simpl.
  { exists []. rewrite app_nil_r. repeat split; try done. }
  destruct (publish_ack_diagnostics _ _) as [results infos].
  match goal with |- context [send_publish_responses responses more ?x] => destruct (IH x) as (new & -> & Hc & -> & -> & Hf & Hm) end.
  simpl. rewrite <-app_assoc. eexists (_ :: new). split; [reflexivity|]. simpl. rewrite Hc.
  split; [done|]. split; [done|]. split; [done|]. split.
  - constructor; [|done]. eexists. split; [done|]. done.
  - intros [|k] m p; simpl.
    + intros [= <-] [= <-]. simpl. apply Forall2_length in Hf. destruct responses; simpl in *; destruct new; done.
    + intros Hk Hp. rewrite (Hm k m p Hk Hp). f_equal. apply bool_decide_ext. lia.
Qed.

Lemma ids_by_priority_same s : let '(s', _) := subscription_ids_by_priority s in
  ss_publish_request_queue s' = ss_publish_request_queue s /\ ss_sent s' = ss_sent s
  /\ ss_subscriptions s' = ss_subscriptions s.
Proof. unfold subscription_ids_by_priority. by destruct (ss_priority_cache_dirty s). Qed.

Lemma with_requests_conserves fuel now t reason s s' removed more responses :
  tick_subscriptions_with_publish_requests fuel now t reason s = Ret (s', removed, more, responses) ->
  conserves s (send_publish_responses responses more s').
Proof.
  unfold tick_subscriptions_with_publish_requests. pose proof (ids_by_priority_same s) as Hp.
  destruct (subscription_ids_by_priority s) as [s1 ids]. destruct Hp as (Hq1 & Hs1 & _).
  intros [Hs Hq]%tick_all_with_conserves.
  destruct (send_responses_sent responses more s') as (new & Hsent & Hc & Hqueue & _).
  split; [|exists new; by rewrite Hsent, Hs, Hs1].
  unfold channels, answered, queued in *. rewrite Hsent, Hqueue, map_app, Hc, Hs, Hs1, <-app_assoc, <-Hq, Hq1. done.
Qed.

Lemma session_tick_conserves fuel now t reason s s' removed :
  session_tick fuel now t reason s = Ret (s', removed) -> conserves s s'.
Proof.
  unfold session_tick. set (s1 := deliver_pending_status_changes s).
  assert (conserves s s1) as H1 by apply deliver_conserves.
  destruct (_ || _).
  { intros [= <- _]. etransitivity; [exact H1|apply reject_conserves]. }
  set (s2 := remove_expired_publish_requests t s1).
  assert (conserves s s2) as H2 by (etransitivity; [exact H1|apply fault_conserves]).
  destruct (is_nil _).
  - unfold tick_subscriptions_without_publish_requests.
    intros ([[s3 rem] tr] & Ht & [= <- _])%outcome_bind_ret.
    etransitivity; [exact H2|]. etransitivity; [by eapply tick_all_without_conserves|].
    apply remove_ready_conserves.
  - intros ([[[s3 rem] more] resp] & Ht & [= <- _])%outcome_bind_ret.
    etransitivity; [exact H2|]. by eapply with_requests_conserves.
Qed.

Lemma process_acks_same acks : forall s, let '(s', _) := process_acks acks s in
  ss_publish_request_queue s' = ss_publish_request_queue s /\ ss_sent s' = ss_sent s
  /\ ss_subscriptions s' = ss_subscriptions s.
Proof.
  induction acks as [|[id n] acks IH]; intros s; simpl; [done|].
  destruct (ss_subscriptions s !! id).
  - destruct (rq_ack id n _) as [r q]. specialize (IH (ss_set_retransmission_queue q s)).
    destruct (process_acks acks _). exact IH.
  - specialize (IH s). destruct (process_acks acks s). exact IH.
Qed.

(** C2: publish requests are conserved: a new publish request, whatever happens while it is
    enqueued, and each request that was waiting, is afterwards either still in the queue or has been
    answered on its channel exactly once (with notifications, a keep-alive, a status change or a
    fault); nothing is ever sent on any other channel, and nothing sent is withdrawn. *)
Theorem publish_requests_conserved (fuel : nat) (now now_instant : Z) (request : PendingPublish)
    (s s' : SessionSubscriptions) :
  enqueue_publish_request fuel now now_instant request s = Ret s' ->
  answered s' ++ queued s' ≡ₚ answered s ++ queued s ++ [pp_response request]
  /\ exists new, ss_sent s' = ss_sent s ++ new.
Proof.
  unfold enqueue_publish_request.
  intros ([s1 rem] & H1 & (s2 & H2 & Hrest)%outcome_bind_ret)%outcome_bind_ret.
  assert (conserves s s1) as C1.
  { destruct (_ <=? _); [by eapply session_tick_conserves|by injection H1 as <- _]. }
  assert (conserves s1 s2) as C2.
  { destruct (max_publish_requests s1 <=? _); [|by injection H2 as <-].
    destruct (ss_publish_request_queue s1) as [|r q] eqn:Hq; simpl in H2; [done|]. injection H2 as <-.
    split; [|by eexists]. unfold channels, answered, queued. simpl. rewrite map_app, Hq, <-app_assoc. done. }
  clear H1 H2. destruct (process_subscription_acks (pp_request request) s2) as [s3 acks] eqn:Ha.
  assert (ss_publish_request_queue s3 = ss_publish_request_queue s2 /\ ss_sent s3 = ss_sent s2) as [Hq3 Hs3].
  { unfold process_subscription_acks in Ha.
    destruct (pq_acknowledgements _) as [[|a l]|]; [by injection Ha as <- _| |by injection Ha as <- _].
    pose proof (process_acks_same (a :: l) s2) as Hp. destruct (process_acks (a :: l) s2) as [x y].
    injection Ha as <- _. by destruct Hp as (? & ? & _). }
  apply outcome_bind_ret in Hrest as ([s4 rem'] & Ht & [= <-]). apply session_tick_conserves in Ht as [Hc [n4 Hn4]].
  destruct (transitivity C1 C2) as [Hc2 [n2 Hn2]]. simpl in Hn4. split.
  - unfold channels in *. rewrite Hc. unfold answered, queued in *. simpl. rewrite map_app, Hq3, Hs3. simpl.
    rewrite !app_assoc. by rewrite Hc2.
  - exists (n2 ++ n4). by rewrite Hn4, Hs3, Hn2, app_assoc.
Qed.

(** The responses of a tick are sent on the channels of the requests they were paired with, in
    order, each with its message; all but the last say that no more notifications are waiting, and
    the last one tells whether some subscription still has messages. *)
Theorem publish_responses_spec (responses : list (PendingPublish * NotificationMessage * Z)) (more : bool)
    (s : SessionSubscriptions) :
  exists new, ss_sent (send_publish_responses responses more s) = ss_sent s ++ new
  /\ map sent_on new = map (fun r => pp_response r.1.1) responses
  /\ Forall2 (fun m r => exists p, sent_message m = PublishOk p
              /\ pr_notification_message p = r.1.2 /\ pr_subscription_id p = r.2) new responses
  /\ (forall k m p, new !! k = Some m -> sent_message m = PublishOk p ->
       pr_more_notifications p = bool_decide (S k = length new) && more).
Proof.
  destruct (send_responses_sent responses more s) as (new & H1 & H2 & _ & _ & H3 & H4). exists new. done.
Qed.

(** ** Priorities *)

Lemma Permutation_refl_eq {T} (l k : list T) : l = k -> l ≡ₚ k.
Proof. by intros ->. Qed.

#[local] Instance priority_le_total : Total priority_le.
Proof. intros [a1 a2] [b1 b2]. unfold priority_le. simpl. lia. Qed.
#[local] Instance priority_le_trans : Transitive priority_le.
Proof. intros [a1 a2] [b1 b2] [c1 c2]. unfold priority_le. simpl. lia. Qed.

Lemma dom_list_perm {V} (m : gmap Z V) : elements (dom m) ≡ₚ map fst (map_to_list m).
Proof.
  apply NoDup_Permutation; [apply NoDup_elements|apply NoDup_fst_map_to_list|].
  intros k. rewrite elem_of_elements, elem_of_dom. split.
  - intros [v Hv]. apply list_elem_of_fmap. exists (k, v). by rewrite elem_of_map_to_list.
  - intros ([k' v] & -> & Hin%elem_of_map_to_list)%list_elem_of_fmap. by exists v.
Qed.

Lemma hash_values_perm {V} (m : gmap Z V) : hash_values m ≡ₚ map snd (map_to_list m).
Proof.
  unfold hash_values. rewrite hash_order_perm.
  assert (elements (dom m) ≡ₚ map fst (map_to_list m)) as Hd by apply dom_list_perm.
  rewrite Hd. assert (forall k v, (k, v) ∈ map_to_list m -> m !! k = Some v) as Hl by (intros; by apply elem_of_map_to_list).
  revert Hl. generalize (map_to_list m). induction l as [|[k v] l IH]; intros Hl; [done|].
  simpl map. rewrite omap_unfold, (Hl k v) by left. rewrite IH; [done|]. intros; apply Hl. by right.
Qed.

Lemma StronglySorted_map_fst l : StronglySorted priority_le l -> forall i j a b,
  l !! i = Some a -> l !! j = Some b -> (i < j)%nat -> priority_le a b.
Proof.
  induction 1 as [|x l Hl IH Hx]; intros [|i] [|j] a b; simpl; try done; try lia.
  - intros [= ->] Hb _. rewrite Forall_forall in Hx. apply Hx. by eapply list_elem_of_lookup_2.
  - intros Ha Hb Hij. eapply IH; [done..|lia].
Qed.

(** After a change of the subscriptions, a tick serves each subscription exactly once, a higher
    priority before a lower one, and equal priorities by ascending identifier. *)
Theorem served_by_priority (s : SessionSubscriptions) :
  ss_priority_cache_dirty s = true ->
  (forall id sub, ss_subscriptions s !! id = Some sub -> sub_id sub = id) ->
  let ids := (subscription_ids_by_priority s).2 in
  ids ≡ₚ elements (dom (ss_subscriptions s))
  /\ forall i j a b sa sb, ids !! i = Some a -> ids !! j = Some b -> (i < j)%nat ->
     ss_subscriptions s !! a = Some sa -> ss_subscriptions s !! b = Some sb ->
     sub_priority sb < sub_priority sa \/ sub_priority sa = sub_priority sb /\ a <= b.
Proof.
  intros Hd Hid. unfold subscription_ids_by_priority. rewrite Hd. simpl.
  set (order := map (fun v => (sub_id v, sub_priority v)) (hash_values (ss_subscriptions s))).
  assert (order ≡ₚ map (fun kv => (kv.1, sub_priority kv.2)) (map_to_list (ss_subscriptions s))) as Ho.
  { unfold order. rewrite hash_values_perm, map_map. apply Permutation_refl_eq, map_ext_in.
    intros [k v] Hin%list_elem_of_In%elem_of_map_to_list. simpl. by rewrite (Hid k v). }
  split.
  - rewrite merge_sort_Permutation, Ho, map_map. symmetry. apply dom_list_perm.
  - intros i j a b sa sb Hi Hj Hij Ha Hb.
    apply list_lookup_fmap_Some in Hi as ([a' pa] & -> & Hi). apply list_lookup_fmap_Some in Hj as ([b' pb] & -> & Hj).
    simpl in *. pose proof (StronglySorted_merge_sort priority_le order) as Hss.
    pose proof (StronglySorted_map_fst _ Hss i j _ _ Hi Hj Hij) as Hle.
    assert (forall k p, (k, p) ∈ merge_sort priority_le order -> forall x, ss_subscriptions s !! k = Some x -> p = sub_priority x) as Hp.
    { intros k p. rewrite merge_sort_Permutation, Ho. intros ([k' v] & [= -> ->] & Hin%elem_of_map_to_list)%list_elem_of_fmap.
      intros x Hx. simpl in *. congruence. }
    rewrite <-(Hp a' pa (list_elem_of_lookup_2 _ _ _ Hi) sa Ha), <-(Hp b' pb (list_elem_of_lookup_2 _ _ _ Hj) sb Hb).
    exact Hle.
Qed.


(** ** Acknowledgements *)

(** The acknowledgements on the list of unacknowledged messages. *)
Fixpoint ack_list (known : Z -> bool) (acks : list (Z * Z)) (l : list NonAckedPublish)
    : list NonAckedPublish * list StatusCode :=
  match acks with
  | [] => (l, [])
  | (id, n) :: acks' =>
      if negb (known id) then
        let '(l, r) := ack_list known acks' l in (l, BadSubscriptionIdInvalid :: r)
      else if existsb (fun e => bool_decide (with_key id n e)) l then
        let '(l, r) := ack_list known acks' (filter (fun e => ~ with_key id n e) l) in (l, Good :: r)
      else
        let '(l, r) := ack_list known acks' l in (l, BadSequenceNumberUnknown :: r)
  end.

Definition known_in (s : SessionSubscriptions) (id : Z) : bool :=
  match ss_subscriptions s !! id with Some _ => true | None => false end.

(** The acknowledgements of a publish request act on the list of unacknowledged messages, in
    order: one status for each, Good exactly when its message was in the list (which loses it), the
    other two when the subscription or the message is unknown (and the list stays as it is); nothing
    else in the session changes. *)
Theorem acks_refine_list (acks : list (Z * Z)) (s : SessionSubscriptions) (l : list NonAckedPublish) :
  queue_rep (ss_retransmission_queue s) l ->
  let '(s', statuses) := process_acks acks s in
  queue_rep (ss_retransmission_queue s') (ack_list (known_in s) acks l).1
  /\ statuses = (ack_list (known_in s) acks l).2 /\ length statuses = length acks
  /\ ss_subscriptions s' = ss_subscriptions s /\ queued s' = queued s /\ answered s' = answered s.
Proof.
  revert s l. induction acks as [|[id n] acks IH]; intros s l Hq; simpl; [done|].
  assert (known_in s id = match ss_subscriptions s !! id with Some _ => true | None => false end) as -> by done.
  destruct (ss_subscriptions s !! id) as [sub|] eqn:Hid; simpl.
  2:{ specialize (IH s l Hq). destruct (process_acks acks s) as [s' st]. destruct IH as (? & -> & ? & ?).
      destruct (ack_list (known_in s) acks l). simpl in *. (split; [done|split; [done|split; [congruence|done]]]). }
  pose proof (rq_ack_refines (ss_retransmission_queue s) id n (proj1 Hq)) as Ha.
  destruct (rq_ack id n (ss_retransmission_queue s)) as [r q]. destruct Ha as (Hinv & Hl & Hr).
  destruct Hq as [Hq <-]. set (l := queue_list (ss_retransmission_queue s)) in *.
  specialize (IH (ss_set_retransmission_queue q s) (queue_list q) (conj Hinv eq_refl)).
  destruct (process_acks acks (ss_set_retransmission_queue q s)) as [s' st].
  change (known_in (ss_set_retransmission_queue q s)) with (known_in s) in IH.
  change (queued (ss_set_retransmission_queue q s)) with (queued s) in IH.
  change (answered (ss_set_retransmission_queue q s)) with (answered s) in IH.
  assert (existsb (fun e => bool_decide (with_key id n e)) l = match r with Some _ => true | None => false end) as ->.
  { destruct r as [e|].
    - destruct Hr as [Hin Hk]. apply existsb_exists. exists e.
      split; [by apply list_elem_of_In|]. by apply bool_decide_eq_true.
    - apply not_true_iff_false. intros (e & He%list_elem_of_In & Hk%bool_decide_eq_true)%existsb_exists.
      rewrite Forall_forall in Hr. by apply (Hr e). }
  assert (queue_list q = match r with Some _ => filter (fun e => ~ with_key id n e) l | None => l end) as Hl'.
  { rewrite Hl. destruct r; [done|]. by apply filter_all. }
  rewrite Hl' in IH. destruct IH as (? & -> & ? & ?).
  destruct r; match goal with |- context [ack_list ?k acks ?l] => destruct (ack_list k acks l) end; simpl in *;
    (split; [done|split; [done|split; [congruence|done]]]).
Qed.

End facts.

(** ** Witnesses *)

Definition publish (channel deadline : Z) : PendingPublish :=
  {| pp_response := channel;
     pp_request := {| pq_header := {| request_handle := channel; return_diagnostics := 0 |};
                      pq_acknowledgements := Some [(1, 1)] |};
     pp_ack_results := None; pp_deadline := deadline |}.

Definition subscription_request (keep_alive lifetime : Z) : CreateSubscriptionRequest :=
  {| cs_requested_publishing_interval := f64_of_Z 100; cs_requested_lifetime_count := lifetime;
     cs_requested_max_keep_alive_count := keep_alive; cs_max_notifications_per_publish := 0;
     cs_publishing_enabled := true; cs_priority := 0 |}.

(** A session with subscription 1 of a short lifetime and subscription 2 of a long one. *)
Definition two_subscriptions : SessionSubscriptions :=
  let s := session_new default_limits in
  let s := (create_subscription (subscription_request 1 3) default_limits 1 0 s).1 in
  (create_subscription (subscription_request 10 300) default_limits 2 0 s).1.

(** Timer ticks of the session. *)
Fixpoint session_ticks (times : list (Z * Z)) (s : SessionSubscriptions) : outcome SessionSubscriptions :=
  match times with
  | [] => Ret s
  | (now, t) :: times' =>
      let! (s, _) := session_tick 5 now t TickTimerFired s in
      session_ticks times' s
  end.

Lemma publish_requests_conserved_witness :
  exists s', enqueue_publish_request 5 0 0 (publish 70 1000) two_subscriptions = Ret s'
  /\ answered s' ++ queued s' ≡ₚ [70].
Proof.
  eassert (Hr : enqueue_publish_request 5 0 0 (publish 70 1000) two_subscriptions = Ret _) by (vm_compute; reflexivity).
  destruct (publish_requests_conserved _ _ _ _ _ _ Hr) as [Hp _].
  eexists. split; [exact Hr|exact Hp].
Defined.

Lemma served_by_priority_witness :
  (subscription_ids_by_priority two_subscriptions).2 ≡ₚ elements (dom (ss_subscriptions two_subscriptions)).
Proof.
  apply (served_by_priority two_subscriptions); [vm_compute; reflexivity|].
  assert (map_Forall (fun id sub => sub_id sub = id) (ss_subscriptions two_subscriptions)) as Hall.
  { apply (bool_decide_eq_true _). vm_compute. reflexivity. }
  exact Hall.
Defined.

Lemma acks_refine_list_witness :
  (process_acks [(1, 1); (3, 1)] two_subscriptions).2 = [BadSequenceNumberUnknown; BadSubscriptionIdInvalid].
Proof.
  pose proof (acks_refine_list [(1, 1); (3, 1)] two_subscriptions [] retransmission_new_inv) as Ha.
  destruct (process_acks [(1, 1); (3, 1)] two_subscriptions) as [s' st]. destruct Ha as (_ & Hst & _).
  simpl. rewrite Hst. vm_compute. reflexivity.
Defined.

(** ** Two states in which a tick goes wrong *)

(** Subscription 1 has expired for want of publish requests; its status change is still queued. *)
Definition after_expiry : SessionSubscriptions :=
  match session_ticks ((0, 0) :: intervals 5) two_subscriptions with Ret s => s | _ => two_subscriptions end.

(** A tick that delivers the last message of an expired subscription removes the subscription
    without invalidating the cached order of subscriptions, so the next publish request makes the
    tick look the removed subscription up and panic, although another subscription is alive. *)
Theorem stale_priority_order_panics :
  exists s, enqueue_publish_request 5 600000000 600000000 (publish 70 900000000) after_expiry = Ret s
  /\ ss_subscriptions s !! 1 = None /\ is_Some (ss_subscriptions s !! 2)
  /\ (subscription_ids_by_priority s).2 = [1; 2]
  /\ enqueue_publish_request 5 600000000 600000000 (publish 71 900000000) s = Panic.
Proof.
  eexists. split; [vm_compute; reflexivity|].
  split; [vm_compute; reflexivity|]. split; [vm_compute; eauto|]. split; vm_compute; reflexivity.
Qed.

(** Subscription 1 was staged for a transfer and then deleted. *)
Definition deleted_while_transferring : SessionSubscriptions :=
  (delete_subscriptions [1] (mark_transferring 1 two_subscriptions).1).1.

(** Deleting a subscription that is staged for a transfer leaves its identifier in the set of
    transferring subscriptions; with one other subscription left the two sizes agree, so ticks
    reject every publish request with BadNoSubscription and no longer advance the subscription. *)
Theorem deleted_transfer_starves_session :
  is_Some (ss_subscriptions deleted_while_transferring !! 2)
  /\ ss_transferring deleted_while_transferring = {[1]}
  /\ exists s, enqueue_publish_request 5 0 0 (publish 70 1000) deleted_while_transferring = Ret s
     /\ ss_sent s = [{| sent_on := 70; sent_message := ServiceFault BadNoSubscription |}]
     /\ ss_subscriptions s = ss_subscriptions deleted_while_transferring.
Proof.
  split; [vm_compute; eauto|]. split; [vm_compute; reflexivity|].
  eexists. split; [vm_compute; reflexivity|]. split; vm_compute; reflexivity.
Qed.
