(* ===== verification/References.v ===== *)
(** * References between nodes

    [References] of async-opcua-nodes/src/references.rs: every reference is kept twice, under its
    source and under its target, in hash tables of hash sets.

    The store refines the set of its references: each operation does to the two tables what its
    specification does to the set.  Deleting the references of a node without its mirrored entries
    ([delete_node_references] with [false]) is the exception. *)

From S2P Require Import Prelude Text StatusCode Variant.

(** ** Node identifiers as keys *)

#[export] Instance Identifier_countable : Countable Identifier.
Proof.
  apply (inj_countable'
    (fun i => match i with
              | IdNumeric n => inl (inl n) | IdString s => inl (inr s)
              | IdGuid g => inr (inl g) | IdByteString b => inr (inr b) end)
    (fun c => match c with
              | inl (inl n) => IdNumeric n | inl (inr s) => IdString s
              | inr (inl g) => IdGuid g | inr (inr b) => IdByteString b end)).
  by intros [].
Defined.
#[export] Instance NodeId_countable : Countable NodeId.
Proof.
  apply (inj_countable' (fun n => (namespace n, identifier n))
           (fun c => {| namespace := c.1; identifier := c.2 |})).
  by intros [].
Defined.
#[export] Instance QualifiedName_countable : Countable QualifiedName.
Proof.
  apply (inj_countable' (fun q => (namespace_index q, qname q)) (fun c => {| namespace_index := c.1; qname := c.2 |})).
  by intros [].
Defined.

(** ** Data *)

Record Reference := mkReference { reference_type : NodeId; target_node : NodeId }.
#[export] Instance Reference_eq_dec : EqDecision Reference.
Proof. solve_decision. Defined.
#[export] Instance Reference_countable : Countable Reference.
Proof.
  apply (inj_countable' (fun r => (reference_type r, target_node r)) (fun c => mkReference c.1 c.2)).
  by intros [].
Defined.

Inductive ReferenceDirection : Set := RdForward | RdInverse.
Inductive BrowseDirection : Set := BdForward | BdInverse | BdBoth | BdInvalid.
#[export] Instance BrowseDirection_eq_dec : EqDecision BrowseDirection.
Proof. solve_decision. Defined.

Record ReferenceRef := mkRef { ref_type : NodeId; ref_target : NodeId; ref_direction : ReferenceDirection }.
(** A reference of a node set. *)
Record ImportedReference := { target_id : NodeId; type_id_of : NodeId; is_forward : bool }.

Abbreviation refs_table := (gmap NodeId (gset Reference)).
Record References := mkReferences { by_source : refs_table; by_target : refs_table }.

Definition references_new : References := mkReferences ∅ ∅.

(** The set under a key; absent and empty are told apart only by [delete_node_references]. *)
Definition refs_of (t : refs_table) (n : NodeId) : gset Reference := default ∅ (t !! n).

(** The order in which a hash set is visited: some permutation of its elements. *)
Class RefOrder := {
  ref_order : gset Reference -> list Reference;
  ref_order_perm s : ref_order s ≡ₚ elements s
}.

(** ** Operations *)

(** Panics on a reference of a node to itself. *)
Definition insert_reference (source target rtype : NodeId) (r : References) : outcome References :=
  if bool_decide (source = target) then Panic
  else
    let forward_refs := refs_of (by_source r) source in
    if bool_decide (mkReference rtype target ∈ forward_refs) then Ret r
    else
      let by_source := <[source := {[mkReference rtype target]} ∪ forward_refs]> (by_source r) in
      let inverse_refs := refs_of (by_target r) target in
      Ret (mkReferences by_source (<[target := {[mkReference rtype source]} ∪ inverse_refs]> (by_target r))).

Fixpoint insert_references (l : list (NodeId * NodeId * NodeId)) (r : References) : outcome References :=
  match l with
  | [] => Ret r
  | (source, target, rtype) :: l' => let! r := insert_reference source target rtype r in insert_references l' r
  end.

(** [References::insert]. *)
Fixpoint refs_insert (source : NodeId) (l : list (NodeId * NodeId * ReferenceDirection)) (r : References) : outcome References :=
  match l with
  | [] => Ret r
  | (target, rtype, direction) :: l' =>
      let! r := match direction with
                | RdForward => insert_reference source target rtype r
                | RdInverse => insert_reference target source rtype r
                end in
      refs_insert source l' r
  end.

(** The same steps as [insert_reference], on the ends in the direction of the imported reference. *)
Definition import_reference (source_node : NodeId) (rf : ImportedReference) (r : References) : outcome References :=
  if bool_decide (source_node = target_id rf) then Panic
  else
    let '(source, target) :=
      if negb (is_forward rf) then (target_id rf, source_node) else (source_node, target_id rf) in
    insert_reference source target (type_id_of rf) r.

(** [HashSet::remove] under a key that may be absent; the key stays. *)
Definition remove_ref (n : NodeId) (x : Reference) (t : refs_table) : refs_table * bool :=
  match t !! n with
  | Some s => (<[n := s ∖ {[x]}]> t, bool_decide (x ∈ s))
  | None => (t, false)
  end.

Definition delete_reference (source target rtype : NodeId) (r : References) : References * bool :=
  let '(bs, f1) := remove_ref source (mkReference rtype target) (by_source r) in
  let '(bt, f2) := remove_ref target (mkReference rtype source) (by_target r) in
  (mkReferences bs bt, f1 || f2).

(** Removes the entry of [n] from the sets of the nodes in [s]. *)
Definition remove_mirrors (n : NodeId) (s : gset Reference) (t : refs_table) : refs_table :=
  foldr (fun rf t => (remove_ref (target_node rf) (mkReference (reference_type rf) n) t).1) t (elements s).

Definition delete_node_references (n : NodeId) (delete_target_references : bool) (r : References) : References * bool :=
  let source := by_source r !! n in
  let bs := delete n (by_source r) in
  let bt := if delete_target_references then remove_mirrors n (default ∅ source) (by_target r) else by_target r in
  let target := bt !! n in
  let bt := delete n bt in
  let bs := if delete_target_references then remove_mirrors n (default ∅ target) bs else bs in
  (mkReferences bs bt, is_some source || is_some target).

Definition has_reference (source target rtype : NodeId) (r : References) : bool :=
  bool_decide (mkReference rtype target ∈ refs_of (by_source r) source).

(** [find_references]: the sets of the node in some order, those of the filter only.  [is_subtype_of]
    is the type tree's. *)
Definition matches_filter (is_subtype_of : NodeId -> NodeId -> bool) (filter : option (NodeId * bool)) (rtype : NodeId) : bool :=
  match filter with
  | None => true
  | Some (f, include_subtypes) =>
      negb ((negb include_subtypes && negb (bool_decide (rtype = f)))
            || (include_subtypes && negb (is_subtype_of rtype f)))
  end.

Section find.
Context {O : RefOrder}.
Definition find_references (source : NodeId) (filter : option (NodeId * bool)) (is_subtype_of : NodeId -> NodeId -> bool)
    (direction : BrowseDirection) (r : References) : list ReferenceRef :=
  let iter (d : ReferenceDirection) (t : refs_table) :=
    map (fun x => mkRef (reference_type x) (target_node x) d) (ref_order (refs_of t source)) in
  let iter_s := if bool_decide (direction = BdBoth \/ direction = BdForward) then iter RdForward (by_source r) else [] in
  let iter_t := if bool_decide (direction = BdBoth \/ direction = BdInverse) then iter RdInverse (by_target r) else [] in
  List.filter (fun x => matches_filter is_subtype_of filter (ref_type x)) (iter_s ++ iter_t).
End find.

(** ** The set of references *)

(** A reference as (source, type, target). *)
Abbreviation edge := (NodeId * NodeId * NodeId)%type.
Definition edges := gset edge.

(** The two tables hold exactly the references of the set, each twice. *)
Record represents (r : References) (E : edges) : Prop := {
  rep_source s ty t : mkReference ty t ∈ refs_of (by_source r) s <-> (s, ty, t) ∈ E;
  rep_target s ty t : mkReference ty s ∈ refs_of (by_target r) t <-> (s, ty, t) ∈ E;
  rep_irrefl s ty t : (s, ty, t) ∈ E -> s <> t
}.

(** What the operations do to the set. *)
Definition without_node (n : NodeId) (E : edges) : edges :=
  filter (fun e : edge => e.1.1 <> n /\ e.2 <> n) E.

Lemma refs_of_insert t n s k : refs_of (<[n := s]> t) k = if decide (n = k) then s else refs_of t k.
Proof. unfold refs_of. destruct (decide (n = k)) as [->|Hne]; by rewrite ?lookup_insert_eq, ?lookup_insert_ne. Qed.
Lemma refs_of_delete t n k : refs_of (delete n t) k = if decide (n = k) then ∅ else refs_of t k.
Proof. unfold refs_of. destruct (decide (n = k)) as [->|Hne]; by rewrite ?lookup_delete_eq, ?lookup_delete_ne. Qed.
Lemma refs_of_remove n x t k :
  refs_of (remove_ref n x t).1 k = if decide (n = k) then refs_of t k ∖ {[x]} else refs_of t k.
Proof.
  unfold remove_ref. destruct (t !! n) as [s|] eqn:Hn; cbn [fst].
  - rewrite refs_of_insert. destruct (decide (n = k)) as [->|]; [|done]. unfold refs_of. by rewrite Hn.
  - destruct (decide (n = k)) as [->|]; [|done]. unfold refs_of. rewrite Hn. cbn. set_solver.
Qed.
Lemma remove_ref_found n x t : (remove_ref n x t).2 = bool_decide (x ∈ refs_of t n).
Proof. unfold remove_ref, refs_of. by destruct (t !! n). Qed.

Lemma references_new_represents : represents references_new ∅.
Proof. by split; intros; unfold refs_of; cbn; rewrite ?lookup_empty; cbn; set_solver. Qed.

Lemma represents_ext r E E' : represents r E -> E ≡ E' -> represents r E'.
Proof. intros Hr ->%leibniz_equiv. done. Qed.

(** The ends of an edge stay different under every operation but insertion. *)
Ltac solve_edges := intros; set_unfold; repeat (case_decide || split); naive_solver.

Lemma insert_represents r E s ty t : represents r E -> s <> t ->
  exists r', insert_reference s t ty r = Ret r' /\ represents r' ({[(s, ty, t)]} ∪ E).
Proof.
  intros [Hs Ht Hi] Hne. unfold insert_reference. rewrite bool_decide_false by done.
  destruct (bool_decide_reflect (mkReference ty t ∈ refs_of (by_source r) s)) as [Hin|Hin].
  - exists r. split; [done|]. rewrite Hs in Hin. replace ({[(s, ty, t)]} ∪ E) with E by set_solver. by split.
  - eexists. split; [done|]. split; intros s' ty' t'; cbn [by_source by_target].
    + rewrite refs_of_insert, elem_of_union, elem_of_singleton, <- Hs. clear Hs Ht Hi Hin. case_decide; solve_edges.
    + rewrite refs_of_insert, elem_of_union, elem_of_singleton, <- Ht. clear Hs Ht Hi Hin. case_decide; solve_edges.
    + rewrite elem_of_union, elem_of_singleton. intros [[= -> -> ->]|He]; [done|by eapply Hi].
Qed.

Lemma delete_represents r E s ty t : represents r E ->
  represents (delete_reference s t ty r).1 (E ∖ {[(s, ty, t)]})
  /\ (delete_reference s t ty r).2 = bool_decide ((s, ty, t) ∈ E).
Proof.
  intros [Hs Ht Hi]. unfold delete_reference.
  rewrite (surjective_pairing (remove_ref s _ _)), (surjective_pairing (remove_ref t _ _)). cbn [fst snd]. split.
  - split; intros s' ty' t'; cbn [by_source by_target].
    + rewrite refs_of_remove, elem_of_difference, elem_of_singleton, <- Hs. clear. case_decide; solve_edges.
    + rewrite refs_of_remove, elem_of_difference, elem_of_singleton, <- Ht. clear. case_decide; solve_edges.
    + rewrite elem_of_difference. intros [? _]. by eapply Hi.
  - rewrite !remove_ref_found. apply Bool.eq_true_iff_eq. rewrite orb_true_iff, !bool_decide_eq_true, Hs, Ht. tauto.
Qed.

(** Removing the mirrored entries of the references in [s]. *)
Lemma refs_of_mirrors n s t k x :
  x ∈ refs_of (remove_mirrors n s t) k <->
  x ∈ refs_of t k /\ ~ (mkReference (reference_type x) k ∈ s /\ target_node x = n).
Proof.
  unfold remove_mirrors. rewrite <- (elem_of_elements s). induction (elements s) as [|y l IH]; cbn [foldr].
  - rewrite elem_of_nil. tauto.
  - rewrite refs_of_remove. destruct x as [xt xn], y as [yt yn]. cbn [reference_type target_node] in *.
    case_decide; rewrite ?elem_of_difference, IH; clear IH; set_unfold; naive_solver.
Qed.

Lemma delete_node_represents r E n : represents r E ->
  represents (delete_node_references n true r).1 (without_node n E).
Proof.
  intros [Hs Ht Hi]. unfold delete_node_references, without_node. cbn [fst]. fold (refs_of (by_source r) n).
  fold (refs_of (remove_mirrors n (refs_of (by_source r) n) (by_target r)) n).
  split; intros s' ty' t'; cbn [by_source by_target]; rewrite elem_of_filter; cbn [fst snd].
  - rewrite refs_of_mirrors, refs_of_delete, refs_of_mirrors. cbn [reference_type target_node].
    rewrite Ht, !Hs, <- Hs. specialize (Hi s' ty' t'). rewrite <- Hs in Hi. case_decide; set_unfold; naive_solver.
  - rewrite refs_of_delete. case_decide; [set_solver|]. rewrite refs_of_mirrors. cbn [reference_type target_node].
    rewrite Ht, Hs. naive_solver.
  - intros [_ He]. by eapply Hi.
Qed.

Lemma has_reference_spec r E s ty t : represents r E -> has_reference s t ty r = bool_decide ((s, ty, t) ∈ E).
Proof. intros [Hs _ _]. unfold has_reference. apply bool_decide_ext, Hs. Qed.

(** ** Operations in sequence *)

Inductive RefOp : Type :=
| OpInsert (source target rtype : NodeId)
| OpImport (source : NodeId) (rf : ImportedReference)
| OpDelete (source target rtype : NodeId)
| OpDeleteNode (n : NodeId) (delete_target_references : bool).

Definition exec_op (o : RefOp) (r : References) : outcome References :=
  match o with
  | OpInsert s t ty => insert_reference s t ty r
  | OpImport s rf => import_reference s rf r
  | OpDelete s t ty => Ret (delete_reference s t ty r).1
  | OpDeleteNode n d => Ret (delete_node_references n d r).1
  end.
Fixpoint exec_ops (l : list RefOp) (r : References) : outcome References :=
  match l with [] => Ret r | o :: l' => let! r := exec_op o r in exec_ops l' r end.

(** What an operation does to the set, [None] where it panics. *)
Definition spec_op (o : RefOp) (E : edges) : option edges :=
  match o with
  | OpInsert s t ty => if decide (s = t) then None else Some ({[(s, ty, t)]} ∪ E)
  | OpImport s rf =>
      if decide (s = target_id rf) then None
      else Some ({[if is_forward rf then (s, type_id_of rf, target_id rf) else (target_id rf, type_id_of rf, s)]} ∪ E)
  | OpDelete s t ty => Some (E ∖ {[(s, ty, t)]})
  | OpDeleteNode n _ => Some (without_node n E)
  end.
Fixpoint spec_ops (l : list RefOp) (E : edges) : option edges :=
  match l with [] => Some E | o :: l' => let* E := spec_op o E in spec_ops l' E end.

(** Nodes are deleted together with the mirrored entries. *)
Definition mirrored (o : RefOp) : Prop := match o with OpDeleteNode _ d => d = true | _ => True end.

Definition simulates (m : outcome References) (E : option edges) : Prop :=
  match E with Some E => exists r, m = Ret r /\ represents r E | None => m = Panic end.

Lemma exec_op_simulates o r E : mirrored o -> represents r E -> simulates (exec_op o r) (spec_op o E).
Proof.
  intros Hm Hr. destruct o as [s t ty|s rf|s t ty|n d]; cbn.
  - case_decide as Hd; cbn; [subst; unfold insert_reference; by rewrite bool_decide_true|]. by apply insert_represents.
  - unfold import_reference. case_decide as Hd; cbn; [subst; by rewrite bool_decide_true|].
    rewrite bool_decide_false by done. destruct (is_forward rf); cbn; by apply insert_represents.
  - eexists. split; [done|]. by apply delete_represents.
  - cbn in Hm. subst d. eexists. split; [done|]. by apply delete_node_represents.
Qed.

Lemma exec_ops_simulates l r E : Forall mirrored l -> represents r E -> simulates (exec_ops l r) (spec_ops l E).
Proof.
  intros Hl. revert r E. induction Hl as [|o l Ho Hl IH]; intros r E Hr; cbn; [eauto|].
  pose proof (exec_op_simulates o r E Ho Hr) as Hs. unfold simulates in Hs.
  destruct (spec_op o E) as [E'|]; cbn.
  - destruct Hs as (r' & -> & Hr'). cbn. by apply IH.
  - by rewrite Hs.
Qed.

(** The edges at a node that a browse with this direction and filter returns. *)
Definition browsed (sub : NodeId -> NodeId -> bool) (n : NodeId) (filter : option (NodeId * bool)) (d : BrowseDirection)
    (E : edges) (x : ReferenceRef) : Prop :=
  matches_filter sub filter (ref_type x) = true /\
  match ref_direction x with
  | RdForward => (d = BdBoth \/ d = BdForward) /\ (n, ref_type x, ref_target x) ∈ E
  | RdInverse => (d = BdBoth \/ d = BdInverse) /\ (ref_target x, ref_type x, n) ∈ E
  end.

Section find_facts.
Context {O : RefOrder}.

Lemma ref_order_elem s x : x ∈ ref_order s <-> x ∈ s.
Proof. rewrite ref_order_perm. apply elem_of_elements. Qed.
Lemma ref_order_nodup s : NoDup (ref_order s).
Proof. rewrite ref_order_perm. apply NoDup_elements. Qed.

Lemma find_references_elem r E n filter sub d x : represents r E ->
  x ∈ find_references n filter sub d r <-> browsed sub n filter d E x.
Proof.
  intros [Hs Ht _]. unfold find_references, browsed. rewrite list_elem_of_In, filter_In, <- list_elem_of_In, elem_of_app.
  rewrite (and_comm _ (_ = true)). apply and_iff_compat_l.
  destruct x as [ty t dir]. cbn [ref_type ref_target ref_direction].
  assert (forall (c : bool) (t0 : refs_table) (d0 : ReferenceDirection),
    mkRef ty t dir ∈ (if c then map (fun y => mkRef (reference_type y) (target_node y) d0) (ref_order (refs_of t0 n)) else [])
    <-> c = true /\ dir = d0 /\ mkReference ty t ∈ refs_of t0 n) as Hmap.
  { intros c t0 d0. destruct c; [|set_solver]. rewrite list_elem_of_fmap. setoid_rewrite ref_order_elem. split.
    - intros ([ty' t'] & [= -> -> ->] & Hin). done.
    - intros (_ & -> & Hin). by exists (mkReference ty t). }
  rewrite !Hmap, !bool_decide_eq_true. destruct dir; rewrite ?Hs, ?Ht; naive_solver.
Qed.

Lemma find_references_nodup n filter sub d r : NoDup (find_references n filter sub d r).
Proof.
  unfold find_references. assert (forall p (l : list ReferenceRef), NoDup l -> NoDup (List.filter p l)) as Hf.
  { intros p l. rewrite !NoDup_ListNoDup. apply List.NoDup_filter. }
  apply Hf, NoDup_app.
  assert (forall (c : bool) t0 d0, NoDup (if c then
    map (fun y => mkRef (reference_type y) (target_node y) d0) (ref_order (refs_of t0 n)) else [])) as Hm.
  { intros [] t0 d0; [|constructor]. apply (NoDup_fmap_2_strong _ _); [|apply ref_order_nodup].
    intros [] [] _ _ [= -> ->]. done. }
  split; [apply Hm|]. split; [|apply Hm]. intros x. destruct (bool_decide _), (bool_decide _); set_solver.
Qed.

(** C21: the store of references implements a set of edges.  After every sequence of insertions,
    imports, deletions of references and deletions of nodes with their mirrored entries, the two
    tables hold the edges that the same operations leave in a set: [has_reference] and
    [delete_reference] answer membership, and a browse of any node in any direction with any filter
    returns exactly the edges at the node that match, each once, whatever the order of the hash
    tables.  The sequence panics exactly when it inserts an edge from a node to itself. *)
Theorem references_refine_edges (l : list RefOp) (Hl : Forall mirrored l) :
  match spec_ops l ∅ with
  | None => exec_ops l references_new = Panic
  | Some E => exists r, exec_ops l references_new = Ret r /\
      (forall s ty t, has_reference s t ty r = bool_decide ((s, ty, t) ∈ E)
                      /\ (delete_reference s t ty r).2 = bool_decide ((s, ty, t) ∈ E)) /\
      (forall n filter sub d x, x ∈ find_references n filter sub d r <-> browsed sub n filter d E x) /\
      (forall n filter sub d, NoDup (find_references n filter sub d r)) /\
      (forall e, e ∈ E -> e.1.1 <> e.2)
  end.
Proof.
  pose proof (exec_ops_simulates l references_new ∅ Hl references_new_represents) as Hs. unfold simulates in Hs.
  destruct (spec_ops l ∅) as [E|]; [|done]. destruct Hs as (r & Hr & HE). exists r. split; [done|].
  split; [|split; [|split]].
  - intros s ty t. split; [by apply has_reference_spec|by apply delete_represents].
  - intros n f sub d x. by apply find_references_elem.
  - intros n f sub d. apply find_references_nodup.
  - intros [[s ty] t]. apply HE.
Qed.

End find_facts.

(** A node deleted without its mirrored entries leaves the tables out of step.  The entry that a
    referencing node keeps is still reported by [has_reference], no inverse browse of the node finds
    it, and inserting the reference again (as adding the node again does) returns early and does not
    bring it back. *)
Theorem unmirrored_delete_hides_references r E (HE : represents r E) s ty n (He : (s, ty, n) ∈ E) :
  let r' := (delete_node_references n false r).1 in
  has_reference s n ty r' = true
  /\ insert_reference s n ty r' = Ret r'
  /\ by_target r' !! n = None.
Proof.
  destruct HE as [Hs Ht Hi]. pose proof (Hi _ _ _ He) as Hne. cbn.
  assert (mkReference ty n ∈ refs_of (delete n (by_source r)) s) as Hin.
  { rewrite refs_of_delete. case_decide; [congruence|]. by apply Hs. }
  split; [|split].
  - unfold has_reference. cbn [by_source]. by apply bool_decide_eq_true.
  - unfold insert_reference. cbn [by_source]. by rewrite bool_decide_false, bool_decide_true.
  - apply lookup_delete_eq.
Qed.

(** ** Witnesses *)

Definition elements_order : RefOrder := {| ref_order := elements; ref_order_perm s := reflexivity _ |}.

Definition node (i : Z) : NodeId := {| namespace := 1; identifier := IdNumeric i |}.

Definition example_ops : list RefOp :=
  [OpInsert (node 1) (node 2) (node 47); OpInsert (node 1) (node 3) (node 47);
   OpImport (node 3) {| target_id := node 2; type_id_of := node 35; is_forward := false |};
   OpDelete (node 1) (node 3) (node 47); OpInsert (node 3) (node 4) (node 47); OpDeleteNode (node 3) true].

Lemma references_refine_edges_witness :
  Forall mirrored example_ops /\ spec_ops example_ops ∅ = Some {[(node 1, node 47, node 2)]}
  /\ exists r, exec_ops example_ops references_new = Ret r /\ has_reference (node 1) (node 2) (node 47) r = true.
Proof.
  assert (Forall mirrored example_ops) as Hl by (repeat constructor).
  assert (spec_ops example_ops ∅ = Some {[(node 1, node 47, node 2)]}) as Hs by (vm_compute; reflexivity).
  split; [done|]. split; [done|].
  pose proof (@references_refine_edges elements_order example_ops Hl) as H. rewrite Hs in H.
  destruct H as (r & Hr & Hm & _). exists r. split; [done|].
  destruct (Hm (node 1) (node 47) (node 2)) as [-> _]. reflexivity.
Defined.

Lemma unmirrored_delete_hides_references_witness :
  exists r, insert_reference (node 1) (node 2) (node 47) references_new = Ret r
  /\ (let r' := (delete_node_references (node 2) false r).1 in
      has_reference (node 1) (node 2) (node 47) r' = true
      /\ insert_reference (node 1) (node 2) (node 47) r' = Ret r' /\ by_target r' !! node 2 = None).
Proof.
  destruct (insert_represents references_new ∅ (node 1) (node 47) (node 2) references_new_represents ltac:(done))
    as (r & Hr & HE).
  exists r. split; [done|]. apply (unmirrored_delete_hides_references r _ HE). set_solver.
Defined.
