(* ===== verification/TypeTree.v ===== *)
(** * The type tree

    [DefaultTypeTree] of async-opcua-nodes/src/type_tree.rs and [NamespaceMap] of
    async-opcua-types/src/namespaces.rs.

    A subtype query walks the supertypes; its answers are kept in a [moka] cache that no operation
    invalidates.  While the cache is fresh a query decides the reflexive and transitive closure of
    [subtypes_by_target]; after a registration it may not. *)

From S2P Require Import Prelude Text StatusCode Variant References.
From stdpp Require Import relations.
#[local] Open Scope Z_scope.

(** ** Data *)

Inductive NodeClass : Set :=
| NcUnspecified | NcObject | NcVariable | NcMethod | NcObjectType | NcVariableType | NcReferenceType
| NcDataType | NcView.
#[export] Instance NodeClass_eq_dec : EqDecision NodeClass.
Proof. solve_decision. Defined.

Record TypeProperty := mkTypeProperty { tp_node_id : NodeId; tp_node_class : NodeClass }.
Record TypePropertyInverseRef := mkInverseRef { tpi_type_id : NodeId; tpi_path : list QualifiedName }.

(** URIs of namespaces with their indices. *)
Abbreviation NamespaceMap := (gmap rstr Z).

(** What [moka::sync::Cache] does on its own: entries may be dropped at any time. *)
Class Moka := {
  evict : gmap (NodeId * NodeId) bool -> gmap (NodeId * NodeId) bool;
  evict_sub c : evict c ⊆ c
}.

Record DefaultTypeTree := mkTypeTree {
  nodes : gmap NodeId NodeClass;
  abstract_types : gset NodeId;
  subtypes_by_source : gmap NodeId (gset NodeId);
  subtypes_by_target : gmap NodeId NodeId;
  property_to_type : gmap NodeId TypePropertyInverseRef;
  type_properties : gmap NodeId (gmap (list QualifiedName) TypeProperty);
  namespaces : NamespaceMap;
  subtype_cache : gmap (NodeId * NodeId) bool
}.

Inductive TypeTreeNode : Type :=
| TtType (c : NodeClass) | TtProperty (p : TypePropertyInverseRef).

(** The classes of nodes that are types. *)
Definition is_type_class (c : NodeClass) : bool :=
  match c with NcDataType | NcObjectType | NcReferenceType | NcVariableType => true | _ => false end.

(** ** Namespaces *)

Definition UA_NAMESPACE : rstr := str "http://opcfoundation.org/UA/".
Definition namespace_map_new : NamespaceMap := {[ UA_NAMESPACE := 0 ]}.

Definition wrap16 (z : Z) : Z := z mod (u16_max + 1).
Definition max_index (m : NamespaceMap) : Z := map_fold (fun _ i acc => Z.max i acc) 0 m.

Definition add_namespace (ns : rstr) (m : NamespaceMap) : NamespaceMap * Z :=
  match m !! ns with
  | Some i => (m, i)
  | None => let i := wrap16 (max_index m + 1) in (<[ns := i]> m, i)
  end.
Definition get_index (ns : rstr) (m : NamespaceMap) : option Z := m !! ns.

(** [NodeSetNamespaceMapper]: indices of a node set's file and of the server. *)
Record NodeSetNamespaceMapper := mkMapper { mp_namespaces : NamespaceMap; mp_index_map : gmap Z Z }.
Definition mapper_new (m : NamespaceMap) : NodeSetNamespaceMapper := mkMapper m ∅.
Definition mapper_add_namespace (ns : rstr) (index_in_node_set : Z) (p : NodeSetNamespaceMapper) : NodeSetNamespaceMapper :=
  let '(m, i) := add_namespace ns (mp_namespaces p) in
  mkMapper m (<[index_in_node_set := i]> (mp_index_map p)).
(** The error carries the index that is not initialized. *)
Definition mapper_get_index (index_in_node_set : Z) (p : NodeSetNamespaceMapper) : result Z Z :=
  if index_in_node_set =? 0 then Ok 0 else ok_or (mp_index_map p !! index_in_node_set) index_in_node_set.

(** ** Operations *)

Definition ns0 (i : Z) : NodeId := {| Variant.namespace := 0; identifier := IdNumeric i |}.
Definition BaseObjectType : NodeId := ns0 58.
Definition BaseVariableType : NodeId := ns0 62.
Definition BaseDataType : NodeId := ns0 24.
Definition References_id : NodeId := ns0 31.

Definition type_tree_new : DefaultTypeTree :=
  {| nodes := <[BaseDataType := NcDataType]> (<[BaseVariableType := NcVariableType]>
       (<[References_id := NcReferenceType]> {[ BaseObjectType := NcObjectType ]}));
     abstract_types := ∅; subtypes_by_source := ∅; subtypes_by_target := ∅; property_to_type := ∅;
     type_properties := ∅; namespaces := (add_namespace UA_NAMESPACE namespace_map_new).1;
     subtype_cache := ∅ |}.

(** The loop of [is_subtype_of]. *)
Fixpoint subtype_loop (fuel : nat) (t : DefaultTypeTree) (ancestor node : NodeId) : option bool :=
  match fuel with
  | O => None
  | S fuel' =>
      if bool_decide (node = ancestor) then Some true
      else match nodes t !! node with
           | None => Some false
           | Some class =>
               if negb (is_type_class class) then Some false
               else match subtypes_by_target t !! node with
                    | Some n => subtype_loop fuel' t ancestor n
                    | None => Some false
                    end
           end
  end.

Definition set_subtype_cache (c : gmap (NodeId * NodeId) bool) (t : DefaultTypeTree) : DefaultTypeTree :=
  {| nodes := nodes t; abstract_types := abstract_types t; subtypes_by_source := subtypes_by_source t;
     subtypes_by_target := subtypes_by_target t; property_to_type := property_to_type t;
     type_properties := type_properties t; namespaces := namespaces t; subtype_cache := c |}.

(** One more turn than there are supertypes. *)
Definition subtype_fuel (t : DefaultTypeTree) : nat := S (size (subtypes_by_target t)).

Definition is_subtype_of `{Moka} (child ancestor : NodeId) (t : DefaultTypeTree) : outcome (DefaultTypeTree * bool) :=
  match subtype_cache t !! (child, ancestor) with
  | Some cached => Ret (t, cached)
  | None =>
      let! r := fueled (subtype_loop (subtype_fuel t) t ancestor child) in
      Ret (set_subtype_cache (evict (<[(child, ancestor) := r]> (subtype_cache t))) t, r)
  end.

Definition get_node (n : NodeId) (t : DefaultTypeTree) : option TypeTreeNode :=
  match nodes t !! n with
  | Some c => Some (TtType c)
  | None => match property_to_type t !! n with Some p => Some (TtProperty p) | None => None end
  end.
Definition tt_get (n : NodeId) (t : DefaultTypeTree) : option NodeClass := nodes t !! n.
Definition is_abstract (n : NodeId) (t : DefaultTypeTree) : option bool :=
  if is_some (nodes t !! n) then Some (bool_decide (n ∈ abstract_types t)) else None.
Definition find_type_prop_by_browse_path (ty : NodeId) (path : list QualifiedName) (t : DefaultTypeTree) : option TypeProperty :=
  let* p := type_properties t !! ty in p !! path.
Definition get_supertype (n : NodeId) (t : DefaultTypeTree) : option NodeId := subtypes_by_target t !! n.

Definition add_type_node (id parent : NodeId) (c : NodeClass) (abstract : bool) (t : DefaultTypeTree) : DefaultTypeTree :=
  {| nodes := <[id := c]> (nodes t);
     abstract_types := if abstract then {[id]} ∪ abstract_types t else abstract_types t ∖ {[id]};
     subtypes_by_source := <[parent := {[id]} ∪ default ∅ (subtypes_by_source t !! parent)]> (subtypes_by_source t);
     subtypes_by_target := <[id := parent]> (subtypes_by_target t);
     property_to_type := property_to_type t; type_properties := type_properties t; namespaces := namespaces t;
     subtype_cache := subtype_cache t |}.

Definition add_type_property (id typ : NodeId) (path : list QualifiedName) (c : NodeClass) (t : DefaultTypeTree) : DefaultTypeTree :=
  {| nodes := nodes t; abstract_types := abstract_types t; subtypes_by_source := subtypes_by_source t;
     subtypes_by_target := subtypes_by_target t;
     property_to_type := <[id := mkInverseRef typ path]> (property_to_type t);
     type_properties := <[typ := <[path := mkTypeProperty id c]> (default ∅ (type_properties t !! typ))]> (type_properties t);
     namespaces := namespaces t; subtype_cache := subtype_cache t |}.

(** [remove] of a type and of a property. *)
Definition tt_remove (n : NodeId) (t : DefaultTypeTree) : DefaultTypeTree * bool :=
  match nodes t !! n with
  | Some _ =>
      let props := default ∅ (type_properties t !! n) in
      let sources := match subtypes_by_target t !! n with
        | Some parent => match subtypes_by_source t !! parent with
                         | Some types => <[parent := types ∖ {[n]}]> (subtypes_by_source t)
                         | None => subtypes_by_source t
                         end
        | None => subtypes_by_source t
        end in
      ({| nodes := delete n (nodes t); abstract_types := abstract_types t; subtypes_by_source := sources;
          subtypes_by_target := delete n (subtypes_by_target t);
          property_to_type := map_fold (fun _ p m => delete (tp_node_id p) m) (property_to_type t) props;
          type_properties := delete n (type_properties t);
          namespaces := namespaces t; subtype_cache := subtype_cache t |}, true)
  | None =>
      match property_to_type t !! n with
      | Some prop =>
          let properties := match type_properties t !! tpi_type_id prop with
            | Some props => <[tpi_type_id prop := delete (tpi_path prop) props]> (type_properties t)
            | None => type_properties t
            end in
          ({| nodes := nodes t; abstract_types := abstract_types t; subtypes_by_source := subtypes_by_source t;
              subtypes_by_target := subtypes_by_target t; property_to_type := delete n (property_to_type t);
              type_properties := properties; namespaces := namespaces t; subtype_cache := subtype_cache t |}, true)
      | None => (t, false)
      end
  end.

(** [get_all_children]: the stack holds the last root first; [child_order] is the order of a hash set. *)
Class ChildOrder := {
  child_order : gset NodeId -> list NodeId;
  child_order_perm s : child_order s ≡ₚ elements s
}.

Fixpoint children_loop `{ChildOrder} (fuel : nat) (t : DefaultTypeTree) (roots res : list NodeId) : option (list NodeId) :=
  match roots with
  | [] => Some res
  | root :: roots' =>
      match fuel with
      | O => None
      | S fuel' =>
          let res := res ++ [root] in
          match subtypes_by_source t !! root with
          | None => children_loop fuel' t roots' res
          | Some children => children_loop fuel' t (rev (child_order children) ++ roots') res
          end
      end
  end.
Definition get_all_children `{ChildOrder} (fuel : nat) (t : DefaultTypeTree) (root : NodeId) : option (list NodeId) :=
  children_loop fuel t [root] [].

(** ** Subtypes *)

(** One step of the walk: from a type to its supertype. *)
Definition supertype_step (t : DefaultTypeTree) (x y : NodeId) : Prop :=
  (exists c, nodes t !! x = Some c /\ is_type_class c = true) /\ subtypes_by_target t !! x = Some y.
(** [child] is [ancestor] or connected to it by supertypes. *)
Definition subtype (t : DefaultTypeTree) : NodeId -> NodeId -> Prop := rtc (supertype_step t).
(** No type is among its own supertypes. *)
Definition acyclic (t : DefaultTypeTree) : Prop := forall x, ~ tc (supertype_step t) x x.

Lemma supertype_step_det t x y z : supertype_step t x y -> supertype_step t x z -> y = z.
Proof. intros [_ H1] [_ H2]. congruence. Qed.

Lemma subtype_loop_sound t a fuel : forall n b, subtype_loop fuel t a n = Some b -> (b = true <-> subtype t n a).
Proof.
  induction fuel as [|fuel IH]; intros n b; cbn [subtype_loop]; [done|].
  destruct (bool_decide_reflect (n = a)) as [->|Hne].
  { intros [= <-]. split; [|done]. intros _. apply rtc_refl. }
  assert ((exists y, supertype_step t n y /\ subtype t y a) <-> subtype t n a) as Hinv.
  { split; [intros (y & ? & ?); by eapply rtc_l|]. intros [->|?]%rtc_inv; done. }
  rewrite <- Hinv. unfold supertype_step at 1.
  destruct (nodes t !! n) as [c|] eqn:Hc; [|naive_solver].
  destruct (is_type_class c) eqn:Ht; cbn [negb]; [|naive_solver].
  destruct (subtypes_by_target t !! n) as [p|] eqn:Hp; [|naive_solver].
  intros ->%IH. naive_solver.
Qed.

(** The nodes a walk has passed when its fuel is spent. *)
Lemma subtype_loop_spent t a (Ha : acyclic t) fuel : forall n, subtype_loop fuel t a n = None ->
  exists l, length l = fuel /\ NoDup l /\ forall x, x ∈ l -> subtype t n x /\ x ∈ dom (subtypes_by_target t).
Proof.
  induction fuel as [|fuel IH]; intros n; cbn [subtype_loop].
  { intros _. exists []. split; [done|]. split; [constructor|]. set_solver. }
  destruct (bool_decide (n = a)); [done|].
  destruct (nodes t !! n) as [c|] eqn:Hc; [|done]. destruct (is_type_class c) eqn:Hk; [|done]. cbn [negb].
  destruct (subtypes_by_target t !! n) as [p|] eqn:Hp; [|done].
  intros (l & Hlen & Hnd & Hl)%IH. assert (supertype_step t n p) as Hs by (split; eauto).
  exists (n :: l). split; [cbn; lia|]. split.
  - constructor; [|done]. intros [Hx _]%Hl. apply (Ha n). eapply tc_rtc_r; [by apply tc_once|done].
  - intros x [->|Hx]%elem_of_cons; [split; [apply rtc_refl|by apply elem_of_dom]|].
    apply Hl in Hx as [? ?]. split; [by eapply rtc_l|done].
Qed.

Lemma subtype_loop_enough t a n : acyclic t -> exists b, subtype_loop (subtype_fuel t) t a n = Some b.
Proof.
  intros Ha. destruct (subtype_loop (subtype_fuel t) t a n) as [b|] eqn:Hl; [eauto|].
  apply subtype_loop_spent in Hl as (l & Hlen & Hnd & Hl); [|done].
  assert (size (list_to_set (C := gset NodeId) l) <= size (dom (subtypes_by_target t)))%nat as Hle.
  { apply subseteq_size. intros x. rewrite elem_of_list_to_set. intros Hx. by apply Hl. }
  rewrite size_list_to_set, size_dom in Hle by done. unfold subtype_fuel in Hlen. lia.
Qed.

(** With more fuel a walk that ends ends the same way; one that never ends uses up any fuel. *)
Lemma subtype_loop_on_cycle t a (P : NodeId -> Prop) :
  (forall x, P x -> x <> a /\ exists y, supertype_step t x y /\ P y) ->
  forall fuel n, P n -> subtype_loop fuel t a n = None.
Proof.
  intros HP fuel. induction fuel as [|fuel IH]; intros n Hn; [done|]. cbn [subtype_loop].
  destruct (HP n Hn) as (Hne & y & [(c & -> & Hc) ->] & Hy). rewrite bool_decide_false, Hc by done. cbn. by apply IH.
Qed.

(** Every entry of the cache answers for the tree as it is. *)
Definition cache_fresh (t : DefaultTypeTree) : Prop :=
  forall c a b, subtype_cache t !! (c, a) = Some b -> (b = true <-> subtype t c a).

Section queries.
Context {M : Moka}.

Lemma is_subtype_of_spec t c a : acyclic t -> cache_fresh t ->
  exists t' b, is_subtype_of c a t = Ret (t', b) /\ (b = true <-> subtype t c a)
    /\ cache_fresh t' /\ exists cache, t' = set_subtype_cache cache t.
Proof.
  intros Ha Hf. unfold is_subtype_of. destruct (subtype_cache t !! (c, a)) as [b|] eqn:Hc.
  - exists t, b. split; [done|]. split; [by apply Hf|]. split; [done|]. exists (subtype_cache t). by destruct t.
  - destruct (subtype_loop_enough t a c Ha) as (b & Hb). rewrite Hb. cbn [fueled outcome_bind].
    apply subtype_loop_sound in Hb as Hs. do 2 eexists. split; [done|]. split; [done|]. split; [|eauto].
    intros c' a' b'. cbn [subtype_cache set_subtype_cache]. intros Hl.
    eapply lookup_weaken in Hl; [|apply evict_sub]. change (subtype (set_subtype_cache _ t)) with (subtype t).
    apply lookup_insert_Some in Hl as [[[= <- <-] <-]|[_ Hl]]; [done|by apply Hf].
Qed.

(** A run of queries, with their answers. *)
Fixpoint run_queries (l : list (NodeId * NodeId)) (t : DefaultTypeTree) : outcome (DefaultTypeTree * list bool) :=
  match l with
  | [] => Ret (t, [])
  | (c, a) :: l' =>
      let! (t, b) := is_subtype_of c a t in
      let! (t, bs) := run_queries l' t in Ret (t, b :: bs)
  end.

(** C36: where no type is its own ancestor, and the cache holds only answers that are true of the
    types as they are (as an empty one does), every query [is_subtype_of] of any sequence of queries
    ends, within one turn per supertype, and decides whether the child is the ancestor or connected to
    it by supertypes of registered types, whatever queries came before, whatever the cache kept of them
    and whatever it dropped; the types do not change meanwhile.  Neither condition is kept by
    registering types: [cyclic_types_diverge] and [stale_subtype_answer] show the queries without them. *)
Theorem is_subtype_of_decides t (Ha : acyclic t) (Hf : cache_fresh t) l :
  exists t' bs, run_queries l t = Ret (t', bs)
    /\ Forall2 (fun q b => b = true <-> subtype t q.1 q.2) l bs.
Proof.
  enough (forall t', acyclic t' -> cache_fresh t' -> (forall x y, subtype t' x y <-> subtype t x y) ->
    exists t'' bs, run_queries l t' = Ret (t'', bs) /\ Forall2 (fun q b => b = true <-> subtype t q.1 q.2) l bs) as He.
  { by apply He. }
  induction l as [|[c a] l IH]; intros t' Ha' Hf' Heq; cbn [run_queries].
  - do 2 eexists. split; [done|]. constructor.
  - destruct (is_subtype_of_spec t' c a Ha' Hf') as (t1 & b & -> & Hb & Hf1 & cache & ->). cbn.
    destruct (IH (set_subtype_cache cache t') Ha' Hf1 Heq) as (t2 & bs & -> & Hbs). cbn.
    do 2 eexists. split; [done|]. constructor; [|done]. cbn. by rewrite Hb, Heq.
Qed.

(** Registering a type does not invalidate the cache.  After a query about a type that is not
    registered yet, the type can be registered below the very ancestor and the query still answers
    no, as long as the cache keeps the entry. *)
Theorem stale_subtype_answer t c a k ab (Hc : nodes t !! c = None) (Hne : c <> a)
    (Hcache : subtype_cache t !! (c, a) = None) (Hk : is_type_class k = true) (Hevict : forall m, evict m = m) :
  exists t1, is_subtype_of c a t = Ret (t1, false)
    /\ subtype (add_type_node c a k ab t1) c a
    /\ is_subtype_of c a (add_type_node c a k ab t1) = Ret (add_type_node c a k ab t1, false).
Proof.
  unfold is_subtype_of at 1. rewrite Hcache. unfold subtype_fuel. cbn [subtype_loop].
  rewrite bool_decide_false, Hc by done. cbn [fueled outcome_bind]. eexists. split; [done|]. split.
  - apply rtc_once. split; [exists k; split; [|done]|]; cbn; by rewrite lookup_insert_eq.
  - unfold is_subtype_of. cbn [subtype_cache add_type_node set_subtype_cache].
    by rewrite Hevict, lookup_insert_eq.
Qed.

End queries.

(** A tree whose supertypes have smaller ranks is acyclic. *)
Lemma ranked_acyclic (rank : NodeId -> nat) t :
  map_Forall (fun x y => rank y < rank x)%nat (subtypes_by_target t) -> acyclic t.
Proof.
  intros Hr x Hx. assert (forall y z, tc (supertype_step t) y z -> (rank z < rank y)%nat) as Ht.
  { intros y z Hyz. induction Hyz as [y z [_ H]|y u z [_ H] _ IH]; apply Hr in H; cbn in H; lia. }
  specialize (Ht _ _ Hx). lia.
Qed.
Lemma empty_cache_fresh t : subtype_cache t = ∅ -> cache_fresh t.
Proof. intros Hc c a b. by rewrite Hc, lookup_empty. Qed.

(** Two types registered as each other's supertypes: a query about a third one never ends. *)
Lemma cyclic_types_diverge x y a t : x <> y -> x <> a -> y <> a ->
  let t' := add_type_node y x NcObjectType false (add_type_node x y NcObjectType false t) in
  forall fuel, subtype_loop fuel t' a x = None.
Proof.
  intros Hxy Hx Hy t' fuel. apply (subtype_loop_on_cycle t' a (fun z => z = x \/ z = y)); [|by left].
  assert (supertype_step t' x y) as H1.
  { split; [exists NcObjectType; split; [|done]|]; cbn; by rewrite lookup_insert_ne, lookup_insert_eq. }
  assert (supertype_step t' y x) as H2.
  { split; [exists NcObjectType; split; [|done]|]; cbn; by rewrite lookup_insert_eq. }
  intros z [->| ->]; split; [done| |done|]; [exists y|exists x]; auto.
Qed.

(** ** Registration *)

(** What the tree says about a type, apart from the cache and the properties. *)
Record type_info := mkTypeInfo { ti_class : option NodeClass; ti_abstract : option bool; ti_supertype : option NodeId }.
Definition info (t : DefaultTypeTree) (n : NodeId) : type_info :=
  mkTypeInfo (tt_get n t) (is_abstract n t) (get_supertype n t).

Lemma info_add id p c ab t n :
  info (add_type_node id p c ab t) n = if decide (n = id) then mkTypeInfo (Some c) (Some ab) (Some p) else info t n.
Proof.
  unfold info, tt_get, is_abstract, get_supertype. cbn. case_decide as Hd.
  - subst. rewrite !lookup_insert_eq. cbn. repeat f_equal. destruct ab; [by rewrite bool_decide_true by set_solver|].
    by rewrite bool_decide_false by set_solver.
  - rewrite !lookup_insert_ne by done. f_equal. destruct (nodes t !! n); [|done]. cbn. f_equal.
    apply bool_decide_ext. destruct ab; set_solver.
Qed.

Lemma info_remove id t n : is_Some (nodes t !! id) ->
  info (tt_remove id t).1 n = if decide (n = id) then mkTypeInfo None None None else info t n.
Proof.
  intros [c Hc]. unfold info, tt_get, is_abstract, get_supertype, tt_remove. rewrite Hc. cbn. case_decide as Hd.
  - subst. by rewrite !lookup_delete_eq.
  - by rewrite !lookup_delete_ne by done.
Qed.

(** A supertype's set of subtypes has every type registered under it, and only registered types have
    a supertype. *)
Record tree_wf (t : DefaultTypeTree) : Prop := {
  wf_registered : dom (subtypes_by_target t) ⊆ dom (nodes t);
  wf_children c p : subtypes_by_target t !! c = Some p -> c ∈ default ∅ (subtypes_by_source t !! p)
}.

Lemma type_tree_new_wf : tree_wf type_tree_new.
Proof. split; [cbn; set_solver|]. intros c p. cbn. by rewrite lookup_empty. Qed.
Lemma add_type_node_wf id p c ab t : tree_wf t -> tree_wf (add_type_node id p c ab t).
Proof.
  intros [H1 H2]. split; cbn; [rewrite !dom_insert; set_solver|].
  intros x q. destruct (decide (x = id)) as [->|Hne].
  - rewrite lookup_insert_eq. intros [= <-]. rewrite lookup_insert_eq. cbn. set_solver.
  - rewrite lookup_insert_ne by done. intros Hx%H2. destruct (decide (q = p)) as [->|].
    + rewrite lookup_insert_eq. cbn. set_solver.
    + by rewrite lookup_insert_ne.
Qed.
Lemma tt_remove_wf n t : tree_wf t -> tree_wf (tt_remove n t).1.
Proof.
  intros [H1 H2]. unfold tt_remove. destruct (nodes t !! n) as [k|] eqn:Hk.
  - split; cbn; [rewrite !dom_delete; set_solver|]. intros c p. rewrite lookup_delete_Some. intros [Hne Hc].
    apply H2 in Hc as Hin. destruct (subtypes_by_target t !! n) as [q|] eqn:Hq; [|done].
    destruct (subtypes_by_source t !! q) as [s|] eqn:Hs; [|done].
    destruct (decide (p = q)) as [->|]; [|by rewrite lookup_insert_ne].
    rewrite lookup_insert_eq. rewrite Hs in Hin. cbn in *. set_solver.
  - destruct (property_to_type t !! n) as [q|]; by split.
Qed.

(** ** Witnesses *)

Definition keep_all : Moka := {| evict m := m; evict_sub _ := reflexivity _ |}.

(** Node 2 is a subtype of node 1, which is an object type. *)
Definition example_tree : DefaultTypeTree :=
  add_type_node (node 2) (node 1) NcObjectType false (add_type_node (node 1) BaseObjectType NcObjectType true type_tree_new).
Definition example_rank (n : NodeId) : nat :=
  if decide (n = node 2) then 2 else if decide (n = node 1) then 1 else 0.

Lemma is_subtype_of_decides_witness :
  acyclic example_tree /\ cache_fresh example_tree /\
  exists t' bs, @run_queries keep_all [(node 2, BaseObjectType); (node 1, node 2)] example_tree = Ret (t', bs)
    /\ Forall2 (fun q b => b = true <-> subtype example_tree q.1 q.2) [(node 2, BaseObjectType); (node 1, node 2)] bs.
Proof.
  assert (acyclic example_tree) as Ha by (apply (ranked_acyclic example_rank), (bool_decide_unpack _); vm_compute; exact I).
  assert (cache_fresh example_tree) as Hf by (by apply empty_cache_fresh).
  split; [done|]. split; [done|]. by apply (@is_subtype_of_decides keep_all).
Defined.

Lemma stale_subtype_answer_witness :
  exists t1, @is_subtype_of keep_all (node 3) (node 1) example_tree = Ret (t1, false)
    /\ subtype (add_type_node (node 3) (node 1) NcObjectType false t1) (node 3) (node 1)
    /\ @is_subtype_of keep_all (node 3) (node 1) (add_type_node (node 3) (node 1) NcObjectType false t1)
       = Ret (add_type_node (node 3) (node 1) NcObjectType false t1, false).
Proof. apply (@stale_subtype_answer keep_all); done. Defined.
