(* ===== verification/Nodes.v ===== *)
(** * Nodes

    The node classes of async-opcua-nodes/src (base.rs, object.rs, object_type.rs, reference_type.rs,
    variable.rs, variable_type.rs, view.rs, data_type.rs, method.rs, node.rs), the attributes of an
    AddNodes request (async-opcua-types/src/add_node_attributes.rs) and the building of a node from
    them (server/src/node_manager/memory/manager/crud/node_builder.rs).

    Building a node never loops and returns a node of the requested class, identifier and browse
    name, or an error; for a variable without data type or without browse name it panics. *)

From S2P Require Import Prelude Text Float StatusCode NumericRange Variant References TypeTree.

(** ** Bit flags (crate bitflags) *)

Definition from_bits_truncate (all bits : Z) : Z := Z.land bits all.
Definition from_bits (all bits : Z) : option Z := if Z.land bits (Z.lnot all) =? 0 then Some bits else None.
(** [flags.contains(other)]. *)
Definition contains (flags other : Z) : bool := Z.land flags other =? other.

Module AttributesMask.
Definition ACCESS_LEVEL : Z := 1.
Definition ARRAY_DIMENSIONS : Z := Z.shiftl 1 1.
Definition CONTAINS_NO_LOOPS : Z := Z.shiftl 1 3.
Definition DATA_TYPE : Z := Z.shiftl 1 4.
Definition DESCRIPTION : Z := Z.shiftl 1 5.
Definition DISPLAY_NAME : Z := Z.shiftl 1 6.
Definition EVENT_NOTIFIER : Z := Z.shiftl 1 7.
Definition EXECUTABLE : Z := Z.shiftl 1 8.
Definition HISTORIZING : Z := Z.shiftl 1 9.
Definition INVERSE_NAME : Z := Z.shiftl 1 10.
Definition IS_ABSTRACT : Z := Z.shiftl 1 11.
Definition MINIMUM_SAMPLING_INTERVAL : Z := Z.shiftl 1 12.
Definition SYMMETRIC : Z := Z.shiftl 1 15.
Definition USER_ACCESS_LEVEL : Z := Z.shiftl 1 16.
Definition USER_EXECUTABLE : Z := Z.shiftl 1 17.
Definition USER_WRITE_MASK : Z := Z.shiftl 1 18.
Definition VALUE_RANK : Z := Z.shiftl 1 19.
Definition WRITE_MASK : Z := Z.shiftl 1 20.
Definition VALUE : Z := Z.shiftl 1 21.
Definition all : Z :=
  fold_left Z.lor
    [ACCESS_LEVEL; ARRAY_DIMENSIONS; CONTAINS_NO_LOOPS; DATA_TYPE; DESCRIPTION; DISPLAY_NAME; EVENT_NOTIFIER;
     EXECUTABLE; HISTORIZING; INVERSE_NAME; IS_ABSTRACT; MINIMUM_SAMPLING_INTERVAL; SYMMETRIC; USER_ACCESS_LEVEL;
     USER_EXECUTABLE; USER_WRITE_MASK; VALUE_RANK; WRITE_MASK; VALUE] 0.
End AttributesMask.
Import AttributesMask.

(** All bits of [WriteMask] (bits 0 to 25), of [AccessLevel] (0 to 6) and of [EventNotifier]. *)
Definition write_mask_all : Z := Z.ones 26.
Definition access_level_all : Z := Z.ones 7.
Definition event_notifier_all : Z := 13.
Definition CURRENT_READ : Z := 1.
Definition CURRENT_WRITE : Z := 2.

(** ** Data *)

Record RolePermissionType := mkRolePermission { role_id : NodeId; permissions : Z }.
#[export] Instance RolePermissionType_eq_dec : EqDecision RolePermissionType.
Proof. solve_decision. Defined.

Record Base := mkBase {
  base_node_id : NodeId;
  base_node_class : NodeClass;
  browse_name : QualifiedName;
  display_name : LocalizedText;
  description : option LocalizedText;
  write_mask : option Z;
  user_write_mask : option Z;
  role_permissions : option (list RolePermissionType);
  access_restrictions : option Z
}.

Inductive StructureType : Set :=
| StStructure | StWithOptionalFields | StUnion | StWithSubtypedValues | StUnionWithSubtypedValues.
Record StructureField := {
  sf_name : UAString; sf_description : LocalizedText; sf_data_type : NodeId; sf_value_rank : Z;
  sf_array_dimensions : option (list Z); sf_max_string_length : Z; sf_is_optional : bool }.
Record StructureDefinition := {
  default_encoding_id : NodeId; base_data_type : NodeId; structure_type : StructureType;
  structure_fields : option (list StructureField) }.
Record EnumField := { ef_value : Z; ef_display_name : LocalizedText; ef_description : LocalizedText; ef_name : UAString }.
Record EnumDefinition := { enum_fields : option (list EnumField) }.
Inductive DataTypeDefinition : Type :=
| DtStructure (d : StructureDefinition) | DtEnum (d : EnumDefinition).

Record Object := mkObject { object_base : Base; object_event_notifier : Z }.
Record ObjectType := mkObjectType { object_type_base : Base; object_type_is_abstract : bool }.
Record ReferenceType := mkReferenceType {
  reference_type_base : Base; symmetric : bool; reference_type_is_abstract : bool; inverse_name : option LocalizedText }.
Record View := mkView { view_base : Base; view_event_notifier : Z; contains_no_loops : bool }.
Record DataType := mkDataType {
  data_type_base : Base; data_type_is_abstract : bool; data_type_definition : option DataTypeDefinition }.
Record Method := mkMethod { method_base : Base; executable : bool; user_executable : bool }.

Record VariableOf (V : Type) := mkVariable {
  variable_base : Base;
  variable_data_type : NodeId;
  historizing : bool;
  value_rank : Z;
  value : DataValueOf V;
  access_level : Z;
  access_level_ex_extended : Z;
  user_access_level : Z;
  array_dimensions : option (list Z);
  minimum_sampling_interval : option f64
}.
Arguments mkVariable {V}.
Arguments variable_base {V}. Arguments variable_data_type {V}. Arguments historizing {V}. Arguments value_rank {V}.
Arguments value {V}. Arguments access_level {V}. Arguments access_level_ex_extended {V}.
Arguments user_access_level {V}. Arguments array_dimensions {V}. Arguments minimum_sampling_interval {V}.

Record VariableTypeOf (V : Type) := mkVariableType {
  variable_type_base : Base;
  vt_data_type : NodeId;
  vt_is_abstract : bool;
  vt_value_rank : Z;
  vt_value : option (DataValueOf V);
  vt_array_dimensions : option (list Z)
}.
Arguments mkVariableType {V}.
Arguments variable_type_base {V}. Arguments vt_data_type {V}. Arguments vt_is_abstract {V}. Arguments vt_value_rank {V}.
Arguments vt_value {V}. Arguments vt_array_dimensions {V}.

(** [NodeType]. *)
Inductive NodeType {D : DynEncodable} : Type :=
| NtObject (o : Object) | NtObjectType (o : ObjectType) | NtReferenceType (r : ReferenceType)
| NtVariable (v : VariableOf Variant) | NtVariableType (v : VariableTypeOf Variant)
| NtView (v : View) | NtDataType (d : DataType) | NtMethod (m : Method).

(** The attributes of an AddNodes request, for every class but [Generic]. *)
Record CommonAttributes := {
  specified_attributes : Z; at_display_name : LocalizedText; at_description : LocalizedText;
  at_write_mask : Z; at_user_write_mask : Z }.
Record VariableAttributesOf (V : Type) := {
  va_value : V; va_data_type : NodeId; va_value_rank : Z; va_array_dimensions : option (list Z);
  va_access_level : Z; va_user_access_level : Z; va_minimum_sampling_interval : f64; va_historizing : bool }.
Arguments va_value {V}. Arguments va_data_type {V}. Arguments va_value_rank {V}. Arguments va_array_dimensions {V}.
Arguments va_access_level {V}. Arguments va_user_access_level {V}. Arguments va_minimum_sampling_interval {V}.
Arguments va_historizing {V}.
Record VariableTypeAttributesOf (V : Type) := {
  vta_value : V; vta_data_type : NodeId; vta_value_rank : Z; vta_array_dimensions : option (list Z); vta_is_abstract : bool }.
Arguments vta_value {V}. Arguments vta_data_type {V}. Arguments vta_value_rank {V}. Arguments vta_array_dimensions {V}.
Arguments vta_is_abstract {V}.

(** [AddNodeAttributes]: the fields shared by all classes and those of the class. *)
Inductive AddNodeAttributes {D : DynEncodable} : Type :=
| AaObject (c : CommonAttributes) (event_notifier : Z)
| AaVariable (c : CommonAttributes) (a : VariableAttributesOf Variant)
| AaMethod (c : CommonAttributes) (executable user_executable : bool)
| AaObjectType (c : CommonAttributes) (is_abstract : bool)
| AaVariableType (c : CommonAttributes) (a : VariableTypeAttributesOf Variant)
| AaReferenceType (c : CommonAttributes) (is_abstract symmetric : bool) (inverse_name : LocalizedText)
| AaDataType (c : CommonAttributes) (is_abstract : bool)
| AaView (c : CommonAttributes) (contains_no_loops : bool) (event_notifier : Z)
| AaGeneric (c : CommonAttributes) (attribute_values : option (list (Z * Variant)))
| AaNone.

Definition null_id : NodeId := ns0 0.
Definition is_null_id (n : NodeId) : bool := (namespace n =? 0) && bool_decide (identifier n = IdNumeric 0).
Definition is_null_name (q : QualifiedName) : bool := (namespace_index q =? 0) && negb (is_some (qname q)).

Section nodes.
Context {D : DynEncodable}.

Abbreviation VariableNode := (VariableOf Variant).
Abbreviation VariableTypeNode := (VariableTypeOf Variant).

(** ** Accessors *)

(** [as_node], for what every class has. *)
Definition node_base (n : NodeType) : Base :=
  match n with
  | NtObject o => object_base o | NtObjectType o => object_type_base o | NtReferenceType r => reference_type_base r
  | NtVariable v => variable_base v | NtVariableType v => variable_type_base v | NtView v => view_base v
  | NtDataType d => data_type_base d | NtMethod m => method_base m
  end.
Definition node_class (n : NodeType) : NodeClass :=
  match n with
  | NtObject _ => NcObject | NtObjectType _ => NcObjectType | NtReferenceType _ => NcReferenceType
  | NtVariable _ => NcVariable | NtVariableType _ => NcVariableType | NtView _ => NcView
  | NtDataType _ => NcDataType | NtMethod _ => NcMethod
  end.
Definition type_is_abstract (n : NodeType) : bool :=
  match n with
  | NtObjectType o => object_type_is_abstract o | NtVariableType v => vt_is_abstract v
  | NtReferenceType r => reference_type_is_abstract r | NtDataType d => data_type_is_abstract d
  | _ => false
  end.
Definition node_id_of (n : NodeType) : NodeId := base_node_id (node_base n).
Definition node_name (n : NodeType) : QualifiedName := browse_name (node_base n).

(** ** Base *)

Definition base_new (c : NodeClass) (id : NodeId) (name : QualifiedName) (display : LocalizedText) : Base :=
  mkBase id c name display None None None None None.
Definition base_is_valid (b : Base) : bool := negb (is_null_id (base_node_id b) || is_null_name (browse_name b)).
Definition set_description (d : LocalizedText) (b : Base) : Base :=
  mkBase (base_node_id b) (base_node_class b) (browse_name b) (display_name b) (Some d) (write_mask b)
    (user_write_mask b) (role_permissions b) (access_restrictions b).
Definition set_write_mask (m : Z) (b : Base) : Base :=
  mkBase (base_node_id b) (base_node_class b) (browse_name b) (display_name b) (description b) (Some m)
    (user_write_mask b) (role_permissions b) (access_restrictions b).
Definition set_user_write_mask (m : Z) (b : Base) : Base :=
  mkBase (base_node_id b) (base_node_class b) (browse_name b) (display_name b) (description b) (write_mask b)
    (Some m) (role_permissions b) (access_restrictions b).

(** ** Variables *)

Definition normalized_value_rank (r : Z) : Z := if r <? -3 then -2 else r.

Definition value_array_dimension_count (v : DataValueOf Variant) : option Z :=
  match dv_value v with
  | Some (VArray a) => Some (match dimensions a with Some d => zlen d | None => 1 end)
  | _ => None
  end.
Definition value_rank_matches_array_dimensions (rank : Z) (dims : option (list Z)) (v : DataValueOf Variant) : bool :=
  match dims with
  | Some d =>
      if 1 <=? rank then zlen d =? rank
      else if rank =? -1 then false
      else match value_array_dimension_count v with Some n => zlen d =? n | None => false end
  | None => true
  end.
Definition variable_is_valid (v : VariableNode) : bool :=
  negb (is_null_id (variable_data_type v)) && base_is_valid (variable_base v)
  && value_rank_matches_array_dimensions (value_rank v) (array_dimensions v) (value v).

Definition Byte_id : NodeId := ns0 3.

(** [Variant::to_byte_array]. *)
Definition to_byte_array (v : Variant) : result Variant ArrayError :=
  match v with
  | VByteString None => let? a := array_new TByte [] in Ok (VArray a)
  | VByteString (Some l) => let? a := array_new TByte (map VByte l) in Ok (VArray a)
  | _ => Err ContentMismatch
  end.

(** Fields of a variable that its setters replace. *)
Definition with_base (b : Base) (v : VariableNode) : VariableNode :=
  mkVariable b (variable_data_type v) (historizing v) (value_rank v) (value v) (access_level v)
    (access_level_ex_extended v) (user_access_level v) (array_dimensions v) (minimum_sampling_interval v).
Definition set_variable_value (d : DataValueOf Variant) (v : VariableNode) : VariableNode :=
  mkVariable (variable_base v) (variable_data_type v) (historizing v) (value_rank v) d (access_level v)
    (access_level_ex_extended v) (user_access_level v) (array_dimensions v) (minimum_sampling_interval v).
Definition set_value_rank (r : Z) (v : VariableNode) : VariableNode :=
  mkVariable (variable_base v) (variable_data_type v) (historizing v) (normalized_value_rank r) (value v) (access_level v)
    (access_level_ex_extended v) (user_access_level v) (array_dimensions v) (minimum_sampling_interval v).
Definition set_historizing (h : bool) (v : VariableNode) : VariableNode :=
  mkVariable (variable_base v) (variable_data_type v) h (value_rank v) (value v) (access_level v)
    (access_level_ex_extended v) (user_access_level v) (array_dimensions v) (minimum_sampling_interval v).
Definition set_access_level (l : Z) (v : VariableNode) : VariableNode :=
  mkVariable (variable_base v) (variable_data_type v) (historizing v) (value_rank v) (value v) l
    (access_level_ex_extended v) (user_access_level v) (array_dimensions v) (minimum_sampling_interval v).
Definition set_user_access_level (l : Z) (v : VariableNode) : VariableNode :=
  mkVariable (variable_base v) (variable_data_type v) (historizing v) (value_rank v) (value v) (access_level v)
    (access_level_ex_extended v) l (array_dimensions v) (minimum_sampling_interval v).
Definition set_array_dimensions (d : list Z) (v : VariableNode) : VariableNode :=
  mkVariable (variable_base v) (variable_data_type v) (historizing v) (value_rank v) (value v) (access_level v)
    (access_level_ex_extended v) (user_access_level v) (Some d) (minimum_sampling_interval v).
Definition set_minimum_sampling_interval (i : f64) (v : VariableNode) : VariableNode :=
  mkVariable (variable_base v) (variable_data_type v) (historizing v) (value_rank v) (value v) (access_level v)
    (access_level_ex_extended v) (user_access_level v) (array_dimensions v) (Some i).

Definition set_value_direct (val : Variant) (status : StatusCode) (server_ts source_ts : DateTime) (v : VariableNode) : VariableNode :=
  set_variable_value (mkDataValue (Some val) (Some status) (Some source_ts) (source_picoseconds (value v))
    (Some server_ts) (server_picoseconds (value v))) v.

Definition set_value_range (val : Variant) (range : NumericRange) (status : StatusCode) (server_ts source_ts : DateTime)
    (v : VariableNode) : VariableNode * result unit StatusCode :=
  match range with
  | NRNone => (set_value_direct val status server_ts source_ts v, Ok tt)
  | _ =>
      match dv_value (value v) with
      | Some full_value =>
          let '(full_value, r) := set_range_of full_value range val in
          match r with
          | Err e => (set_variable_value (dv_set_value (value v) (Some full_value)) v, Err e)
          | Ok _ => (set_value_direct full_value status server_ts source_ts v, Ok tt)
          end
      | None => (v, Err BadIndexRangeInvalid)
      end
  end.

Definition has_range (r : NumericRange) : bool := match r with NRNone => false | _ => true end.

(** [Variable::set_value] at time [now]: a byte string written to a variable of bytes becomes an array. *)
Definition set_value (now : DateTime) (range : NumericRange) (val : Variant) (v : VariableNode)
    : VariableNode * result unit StatusCode :=
  let special := ((value_rank v =? -3) || (value_rank v =? -2) || (value_rank v =? 1))
                 && bool_decide (variable_data_type v = Byte_id) in
  let converted := match val with
    | VByteString _ => if special then to_byte_array val else Ok val
    | _ => Ok val
    end in
  match converted with
  | Err _ => (v, Err BadUnexpectedError)
  | Ok val =>
      if has_range range then set_value_range val range Good now now v
      else (set_value_direct val Good now now v, Ok tt)
  end.

(** [Variable::default]. *)
Definition variable_default : VariableNode :=
  mkVariable (base_new NcVariable null_id {| namespace_index := 0; qname := Some [] |} {| locale := None; text := Some [] |})
    null_id false (-1) (mkDataValue (Some VEmpty) None None None None None) CURRENT_READ 0 CURRENT_READ None None.

(** [VariableBuilder::new]. *)
Definition variable_builder (id : NodeId) (name : QualifiedName) (display : LocalizedText) : VariableNode :=
  let b := variable_base variable_default in
  with_base (mkBase id (base_node_class b) name display (description b) (write_mask b) (user_write_mask b)
               (role_permissions b) (access_restrictions b)) variable_default.

(** [VariableBuilder::build] panics on a node that is not valid. *)
Definition variable_build (v : VariableNode) : outcome VariableNode := if variable_is_valid v then Ret v else Panic.

Definition set_variable_data_type (t : NodeId) (v : VariableNode) : VariableNode :=
  mkVariable (variable_base v) t (historizing v) (value_rank v) (value v) (access_level v)
    (access_level_ex_extended v) (user_access_level v) (array_dimensions v) (minimum_sampling_interval v).

(** [Variable::new_data_value]; the builder ignores an error of [set_value]. *)
Definition new_data_value (now : DateTime) (id : NodeId) (name : QualifiedName) (display : LocalizedText) (data_type : NodeId)
    (rank : option Z) (dims : option Z) (val : Variant) : outcome VariableNode :=
  let array_dimensions := match dims with
    | Some d => Some [d]
    | None => match val with
              | VArray a => Some (match dimensions a with Some d => d | None => [wrap32 (zlen (values a))] end)
              | _ => None
              end
    end in
  let rank := match rank with
    | Some r => r
    | None => match array_dimensions with Some d => zlen d | None => -1 end
    end in
  let v := variable_builder id name display in
  let v := set_access_level CURRENT_READ (set_user_access_level CURRENT_READ v) in
  let v := set_value_rank rank (set_historizing false (set_variable_data_type data_type v)) in
  let v := (set_value now NRNone val v).1 in
  let v := match array_dimensions with Some d => set_array_dimensions d v | None => v end in
  variable_build v.

(** ** Building nodes from attributes *)

Definition attributes_mask (specified allowed : Z) : result Z StatusCode :=
  let? mask := ok_or (from_bits AttributesMask.all specified) BadNodeAttributesInvalid in
  if Z.land mask (not32 allowed) =? 0 then Ok mask else Err BadNodeAttributesInvalid.

Definition base_attributes_mask : Z := Z.lor DESCRIPTION (Z.lor DISPLAY_NAME (Z.lor WRITE_MASK USER_WRITE_MASK)).
Definition with_bits (l : list Z) : Z := fold_left Z.lor l base_attributes_mask.
Definition object_attributes_mask : Z := with_bits [EVENT_NOTIFIER].
Definition variable_attributes_mask : Z :=
  with_bits [ACCESS_LEVEL; ARRAY_DIMENSIONS; DATA_TYPE; HISTORIZING; MINIMUM_SAMPLING_INTERVAL; USER_ACCESS_LEVEL; VALUE; VALUE_RANK].
Definition method_attributes_mask : Z := with_bits [EXECUTABLE; USER_EXECUTABLE].
Definition object_type_attributes_mask : Z := with_bits [IS_ABSTRACT].
Definition variable_type_attributes_mask : Z := with_bits [ARRAY_DIMENSIONS; DATA_TYPE; IS_ABSTRACT; VALUE; VALUE_RANK].
Definition reference_type_attributes_mask : Z := with_bits [INVERSE_NAME; IS_ABSTRACT; SYMMETRIC].
Definition data_type_attributes_mask : Z := with_bits [IS_ABSTRACT].
Definition view_attributes_mask : Z := with_bits [CONTAINS_NO_LOOPS; EVENT_NOTIFIER].

(** [Display] of a [UAString]. *)
Definition ua_display (s : UAString) : rstr := match s with Some s => s | None => str "[null]" end.
Definition display_name_or_browse_name (mask : Z) (display : LocalizedText) (name : QualifiedName) : LocalizedText :=
  if contains mask DISPLAY_NAME then display else {| locale := None; text := Some (ua_display (qname name)) |}.

Definition apply_base_attributes (mask : Z) (c : CommonAttributes) (b : Base) : Base :=
  let b := if contains mask DESCRIPTION then set_description (at_description c) b else b in
  let b := if contains mask WRITE_MASK then set_write_mask (from_bits_truncate write_mask_all (at_write_mask c)) b else b in
  if contains mask USER_WRITE_MASK then set_user_write_mask (from_bits_truncate write_mask_all (at_user_write_mask c)) b else b.

Definition validate_array_dimensions (rank : Z) (dims : list Z) : result unit StatusCode :=
  if (1 <=? rank) && negb (zlen dims =? rank) then Err BadNodeAttributesInvalid else Ok tt.

Definition event_notifier_of (mask notifier : Z) : Z :=
  if contains mask EVENT_NOTIFIER then from_bits_truncate event_notifier_all notifier else 0.

Definition build_object (id : NodeId) (name : QualifiedName) (c : CommonAttributes) (notifier : Z) : result Object StatusCode :=
  let? mask := attributes_mask (specified_attributes c) object_attributes_mask in
  let display := display_name_or_browse_name mask (at_display_name c) name in
  Ok (mkObject (apply_base_attributes mask c (base_new NcObject id name display)) (event_notifier_of mask notifier)).

Definition BaseDataType_id : NodeId := BaseDataType.

Definition build_variable (now : DateTime) (id : NodeId) (name : QualifiedName) (c : CommonAttributes)
    (a : VariableAttributesOf Variant) : outcome (result VariableNode StatusCode) :=
  let^ mask := Ret (attributes_mask (specified_attributes c) variable_attributes_mask) in
  let display := display_name_or_browse_name mask (at_display_name c) name in
  let data_type := if contains mask DATA_TYPE then va_data_type a else BaseDataType_id in
  let val := if contains mask VALUE then va_value a else VEmpty in
  let! v := new_data_value now id name display data_type None None val in
  let v := if contains mask VALUE_RANK then set_value_rank (va_value_rank a) v else v in
  let v := if contains mask HISTORIZING then set_historizing (va_historizing a) v else v in
  let v := if contains mask ACCESS_LEVEL then set_access_level (from_bits_truncate access_level_all (va_access_level a)) v else v in
  let v := if contains mask USER_ACCESS_LEVEL
           then set_user_access_level (from_bits_truncate access_level_all (va_user_access_level a)) v else v in
  let^ v := Ret (if contains mask ARRAY_DIMENSIONS
                 then match va_array_dimensions a with
                      | Some d => let? _ := validate_array_dimensions (va_value_rank a) d in Ok (set_array_dimensions d v)
                      | None => Err BadNodeAttributesInvalid
                      end
                 else Ok v) in
  let v := if contains mask MINIMUM_SAMPLING_INTERVAL then set_minimum_sampling_interval (va_minimum_sampling_interval a) v else v in
  Ret (Ok (with_base (apply_base_attributes mask c (variable_base v)) v)).

Definition build_method (id : NodeId) (name : QualifiedName) (c : CommonAttributes) (exec user_exec : bool) : result Method StatusCode :=
  let? mask := attributes_mask (specified_attributes c) method_attributes_mask in
  let display := display_name_or_browse_name mask (at_display_name c) name in
  Ok (mkMethod (apply_base_attributes mask c (base_new NcMethod id name display))
        (if contains mask EXECUTABLE then exec else false)
        (if contains mask USER_EXECUTABLE then user_exec else false)).

Definition build_object_type (id : NodeId) (name : QualifiedName) (c : CommonAttributes) (abstract : bool) : result ObjectType StatusCode :=
  let? mask := attributes_mask (specified_attributes c) object_type_attributes_mask in
  let display := display_name_or_browse_name mask (at_display_name c) name in
  Ok (mkObjectType (apply_base_attributes mask c (base_new NcObjectType id name display))
        (if contains mask IS_ABSTRACT then abstract else false)).

(** The value is stamped with [now]. *)
Definition build_variable_type (now : DateTime) (id : NodeId) (name : QualifiedName) (c : CommonAttributes)
    (a : VariableTypeAttributesOf Variant) : result VariableTypeNode StatusCode :=
  let? mask := attributes_mask (specified_attributes c) variable_type_attributes_mask in
  let display := display_name_or_browse_name mask (at_display_name c) name in
  let data_type := if contains mask DATA_TYPE then vta_data_type a else BaseDataType_id in
  let val := if contains mask VALUE
             then Some (mkDataValue (Some (vta_value a)) (Some Good) (Some now) (Some 0) (Some now) (Some 0)) else None in
  let rank := if contains mask VALUE_RANK then normalized_value_rank (vta_value_rank a) else -1 in
  let? dims := if contains mask ARRAY_DIMENSIONS
               then match vta_array_dimensions a with
                    | Some d => let? _ := validate_array_dimensions (vta_value_rank a) d in Ok (Some d)
                    | None => Err BadNodeAttributesInvalid
                    end
               else Ok None in
  let abstract := if contains mask IS_ABSTRACT then vta_is_abstract a else false in
  Ok (mkVariableType (apply_base_attributes mask c (base_new NcVariableType id name display)) data_type abstract rank val dims).

Definition symmetric_inverse_name_is_valid (r : ReferenceType) : bool := negb (symmetric r && is_some (inverse_name r)).

Definition build_reference_type (id : NodeId) (name : QualifiedName) (c : CommonAttributes) (abstract sym : bool)
    (inverse : LocalizedText) : result ReferenceType StatusCode :=
  let? mask := attributes_mask (specified_attributes c) reference_type_attributes_mask in
  let display := display_name_or_browse_name mask (at_display_name c) name in
  let r := mkReferenceType (base_new NcReferenceType id name display)
             (if contains mask SYMMETRIC then sym else false)
             (if contains mask IS_ABSTRACT then abstract else false)
             (if contains mask INVERSE_NAME then Some inverse else None) in
  if negb (symmetric_inverse_name_is_valid r) then Err BadNodeAttributesInvalid
  else Ok (mkReferenceType (apply_base_attributes mask c (reference_type_base r)) (symmetric r)
             (reference_type_is_abstract r) (inverse_name r)).

Definition build_data_type (id : NodeId) (name : QualifiedName) (c : CommonAttributes) (abstract : bool) : result DataType StatusCode :=
  let? mask := attributes_mask (specified_attributes c) data_type_attributes_mask in
  let display := display_name_or_browse_name mask (at_display_name c) name in
  Ok (mkDataType (apply_base_attributes mask c (base_new NcDataType id name display))
        (if contains mask IS_ABSTRACT then abstract else false) None).

Definition build_view (id : NodeId) (name : QualifiedName) (c : CommonAttributes) (no_loops : bool) (notifier : Z) : result View StatusCode :=
  let? mask := attributes_mask (specified_attributes c) view_attributes_mask in
  let display := display_name_or_browse_name mask (at_display_name c) name in
  Ok (mkView (apply_base_attributes mask c (base_new NcView id name display)) (event_notifier_of mask notifier)
        (if contains mask CONTAINS_NO_LOOPS then no_loops else false)).

(** [Result::map]. *)
Definition result_map {A B E} (f : A -> B) (m : result A E) : result B E := let? a := m in Ok (f a).

Definition build_node (now : DateTime) (class : NodeClass) (name : QualifiedName) (attributes : AddNodeAttributes) (id : NodeId)
    : outcome (result NodeType StatusCode) :=
  match class, attributes with
  | NcObject, AaObject c n => Ret (result_map NtObject (build_object id name c n))
  | NcVariable, AaVariable c a => let^ v := build_variable now id name c a in Ret (Ok (NtVariable v))
  | NcMethod, AaMethod c e u => Ret (result_map NtMethod (build_method id name c e u))
  | NcObjectType, AaObjectType c a => Ret (result_map NtObjectType (build_object_type id name c a))
  | NcVariableType, AaVariableType c a => Ret (result_map NtVariableType (build_variable_type now id name c a))
  | NcReferenceType, AaReferenceType c a s i => Ret (result_map NtReferenceType (build_reference_type id name c a s i))
  | NcDataType, AaDataType c a => Ret (result_map NtDataType (build_data_type id name c a))
  | NcView, AaView c l n => Ret (result_map NtView (build_view id name c l n))
  | NcUnspecified, _ => Ret (Err BadNodeClassInvalid)
  | _, _ => Ret (Err BadNodeAttributesInvalid)
  end.

(** ** Facts *)

Lemma to_byte_array_ok b : exists v, to_byte_array (VByteString b) = Ok v.
Proof.
  assert (forall l, exists v, (let? a := array_new TByte (map VByte l) in Ok (VArray a)) = Ok v) as Hl.
  { intros l. unfold array_new, validate_array_type_to_values.
    assert (values_are_of_type (map VByte l) TByte = true) as -> by (induction l; done). cbn. eauto. }
  destruct b as [l|]; cbn [to_byte_array]; [apply Hl|apply (Hl [])].
Qed.

(** What [new_data_value] needs to return. *)
Definition buildable (id : NodeId) (name : QualifiedName) (data_type : NodeId) : bool :=
  negb (is_null_id data_type) && negb (is_null_id id || is_null_name name).

(** The data type and the names of a variable. *)
Definition same_identity (v : VariableNode) (b : Base) (t : NodeId) : Prop := variable_base v = b /\ variable_data_type v = t.

(** The value of a new variable has the dimensions that it is given. *)
Lemma new_data_value_spec now id name display t val :
  let r := new_data_value now id name display t None None val in
  if buildable id name t
  then exists v, r = Ret v /\ same_identity v (base_new NcVariable id name display) t
  else r = Panic.
Proof.
  unfold new_data_value, variable_build.
  set (dims := match val with VArray a => _ | _ => None end).
  set (rank := match dims with Some d => zlen d | None => -1 end).
  set (v0 := set_value_rank rank _).
  set (v := match dims with Some d => _ | None => _ end).
  assert (variable_base v = base_new NcVariable id name display /\ variable_data_type v = t
    /\ value_rank_matches_array_dimensions (value_rank v) (array_dimensions v) (value v) = true) as (Hb & Ht & Hm).
  { subst v v0 rank dims. destruct val as [ | | | | | | | | | | | | | | | | b | | | | | | | | | | a]; try by cbn.
    split; [done|]. split; [done|]. cbn. destruct (dimensions a) as [d|]; [|done].
    pose proof (zlen_nonneg d). unfold normalized_value_rank. destruct (Z.ltb_spec (zlen d) (-3)); [lia|].
    destruct (Z.leb_spec 1 (zlen d)); [apply Z.eqb_refl|]. by replace (zlen d) with 0 by lia. }
  unfold variable_is_valid, buildable. rewrite Hb, Ht, Hm, andb_true_r. unfold base_is_valid. cbn [base_node_id browse_name base_new].
  destruct (negb (is_null_id t) && _); [|done]. exists v. by split.
Qed.

(** A base that differs from a new one only in the texts and masks that attributes set. *)
Record fresh_base (c : NodeClass) (id : NodeId) (name : QualifiedName) (b : Base) : Prop := {
  fb_id : base_node_id b = id;
  fb_class : base_node_class b = c;
  fb_name : browse_name b = name;
  fb_permissions : role_permissions b = None;
  fb_restrictions : access_restrictions b = None
}.

Lemma apply_base_attributes_fresh mask c cls id name display :
  fresh_base cls id name (apply_base_attributes mask c (base_new cls id name display)).
Proof. unfold apply_base_attributes. by destruct (contains mask DESCRIPTION), (contains mask WRITE_MASK), (contains mask USER_WRITE_MASK). Qed.
#[local] Hint Resolve apply_base_attributes_fresh : core.

(** A variable without data type, identifier or browse name. *)
Definition build_panics (class : NodeClass) (name : QualifiedName) (attributes : AddNodeAttributes) (id : NodeId) : bool :=
  match class, attributes with
  | NcVariable, AaVariable c a =>
      match attributes_mask (specified_attributes c) variable_attributes_mask with
      | Ok mask => negb (buildable id name (if contains mask DATA_TYPE then va_data_type a else BaseDataType_id))
      | Err _ => false
      end
  | _, _ => false
  end.

Lemma build_variable_spec now id name c a :
  if build_panics NcVariable name (AaVariable c a) id then build_variable now id name c a = Panic
  else exists r, build_variable now id name c a = Ret r /\
       forall v, r = Ok v -> fresh_base NcVariable id name (variable_base v).
Proof.
  unfold build_panics, build_variable. destruct (attributes_mask _ _) as [mask|e]; cbn [comp_bind]; [|by eexists].
  set (display := display_name_or_browse_name _ _ _). set (t := if contains mask DATA_TYPE then _ else _).
  set (val := if contains mask VALUE then _ else _).
  pose proof (new_data_value_spec now id name display t val) as Hn. cbn zeta in Hn.
  destruct (buildable id name t); cbn [negb]; [|by rewrite Hn].
  destruct Hn as (v & -> & Hb & _). cbn [outcome_bind].
  set (v1 := if contains mask USER_ACCESS_LEVEL then _ else _).
  assert (variable_base v1 = variable_base v) as H1.
  { subst v1. by destruct (contains mask USER_ACCESS_LEVEL), (contains mask ACCESS_LEVEL), (contains mask HISTORIZING),
      (contains mask VALUE_RANK). }
  assert (forall w, variable_base w = variable_base v ->
    fresh_base NcVariable id name (variable_base (with_base (apply_base_attributes mask c (variable_base w)) w))) as Hw.
  { intros w ->. cbn [variable_base with_base]. rewrite Hb. auto. }
  destruct (contains mask ARRAY_DIMENSIONS); [destruct (va_array_dimensions a) as [d|]|]; cbn [comp_bind]; [|by eexists|].
  - destruct (validate_array_dimensions _ d); cbn [result_bind comp_bind]; [|by eexists]. eexists. split; [done|].
    intros w [= <-]. apply Hw. by destruct (contains mask MINIMUM_SAMPLING_INTERVAL).
  - eexists. split; [done|]. intros w [= <-]. apply Hw. by destruct (contains mask MINIMUM_SAMPLING_INTERVAL).
Qed.

Lemma result_map_ok {A B E} (f : A -> B) (m : result A E) b : result_map f m = Ok b <-> exists a, m = Ok a /\ b = f a.
Proof. destruct m; cbn; naive_solver. Qed.

(** What is promised of a node that was built. *)
Definition built (class : NodeClass) (name : QualifiedName) (id : NodeId) (n : NodeType) : Prop :=
  node_class n = class /\ fresh_base class id name (node_base n)
  /\ (forall r, n = NtReferenceType r -> symmetric_inverse_name_is_valid r = true).

Lemma build_node_cases now class name attributes id :
  if build_panics class name attributes id then build_node now class name attributes id = Panic
  else exists r, build_node now class name attributes id = Ret r /\ forall n, r = Ok n -> built class name id n.
Proof.
  destruct class, attributes; try (eexists; split; [done|]; by intros n [=]); cbn [build_panics].
  all: try (eexists; split; [done|]; intros n (x & Hx & ->)%result_map_ok; split; [done|];
    cbn [node_base] in *; revert Hx; unfold build_object, build_method, build_object_type, build_variable_type,
      build_reference_type, build_data_type, build_view;
    destruct (attributes_mask _ _) as [mask|]; cbn [result_bind]; [|done]).
  - intros [= <-]. split; [apply apply_base_attributes_fresh|done].
  - pose proof (build_variable_spec now id name c a) as Hv. cbn [build_panics build_node] in *.
    destruct (attributes_mask _ _) as [mask|]; [destruct (negb _); [by rewrite Hv|]|];
      destruct Hv as (r & -> & Hr); (destruct r as [v|err]; cbn [comp_bind]; eexists; (split; [done|]); intros n [= <-]);
      (split; [done|]; split; [by apply Hr|done]).
  - intros [= <-]. split; [apply apply_base_attributes_fresh|done].
  - intros [= <-]. split; [apply apply_base_attributes_fresh|done].
  - set (dims := if contains mask ARRAY_DIMENSIONS then _ else _). destruct dims; cbn [result_bind]; [|done].
    intros [= <-]. split; [apply apply_base_attributes_fresh|done].
  - destruct (symmetric_inverse_name_is_valid _) eqn:Hs; cbn [negb]; [|done]. intros [= <-].
    split; [apply apply_base_attributes_fresh|]. by intros r [= <-].
  - intros [= <-]. split; [apply apply_base_attributes_fresh|done].
  - intros [= <-]. split; [apply apply_base_attributes_fresh|done].
Qed.

(** Building a node for an AddNodes item always ends.  It panics exactly when the item is a
    variable whose mask is accepted and whose data type, identifier or browse name is null; otherwise
    it returns an error or a node of the requested class, identifier and browse name, without role
    permissions and access restrictions of its own, and a symmetric reference type has no inverse
    name. *)
Theorem build_node_spec now class name attributes id :
  if build_panics class name attributes id then build_node now class name attributes id = Panic
  else exists r, build_node now class name attributes id = Ret r /\ forall n, r = Ok n -> built class name id n.
Proof. apply build_node_cases. Qed.

End nodes.

(** ** Witnesses *)

(** No extension objects. *)
#[local] Instance no_dyn : DynEncodable := {| dyn := Empty_set; dyn_eqb _ _ := true; dyn_data_type _ := None |}.

Definition no_text : LocalizedText := {| locale := None; text := None |}.
Definition no_attributes : CommonAttributes :=
  {| specified_attributes := 0; at_display_name := no_text; at_description := no_text; at_write_mask := 0; at_user_write_mask := 0 |}.
Definition plain_variable : VariableAttributesOf Variant :=
  {| va_value := VEmpty; va_data_type := null_id; va_value_rank := -1; va_array_dimensions := None; va_access_level := 0;
     va_user_access_level := 0; va_minimum_sampling_interval := f64_zero; va_historizing := false |}.

Lemma build_node_spec_witness :
  build_node 0 NcVariable {| namespace_index := 0; qname := None |} (AaVariable no_attributes plain_variable) (node 5) = Panic.
Proof.
  exact (build_node_spec 0 NcVariable {| namespace_index := 0; qname := None |} (AaVariable no_attributes plain_variable) (node 5)).
Defined.
