(* ===== verification/Rbac.v ===== *)
(** * Access control

    server/src/rbac/decision.rs and defaults.rs, and the checks of server/src/address_space/utils.rs
    and services/node_access.rs that the Read and Write services make.

    Theorems: a permission is granted exactly when the roles of the user grant each of its bits;
    the advertised write mask is what the write path permits. *)

From S2P Require Import Prelude Text StatusCode Variant References TypeTree Nodes.
From S2P Require SecureChannel.
Abbreviation MessageSecurityMode := SecureChannel.MessageSecurityMode.
Abbreviation MsmSign := SecureChannel.ModeSign.
Abbreviation MsmSignAndEncrypt := SecureChannel.ModeSignAndEncrypt.
Abbreviation MsmNone := SecureChannel.ModeNone.
#[export] Existing Instance SecureChannel.MessageSecurityMode_eq_dec.

(** ** Permissions *)

Module PermissionType.
Definition Browse : Z := 1.
Definition ReadRolePermissions : Z := 2.
Definition WriteAttribute : Z := 4.
Definition WriteRolePermissions : Z := 8.
Definition WriteHistorizing : Z := 16.
Definition Read : Z := 32.
Definition Write : Z := 64.
Definition ReadHistory : Z := 128.
Definition InsertHistory : Z := 256.
Definition ModifyHistory : Z := 512.
Definition DeleteHistory : Z := 1024.
Definition ReceiveEvents : Z := 2048.
Definition Call : Z := 4096.
Definition AddReference : Z := 8192.
Definition RemoveReference : Z := 16384.
Definition DeleteNode : Z := 32768.
Definition AddNode : Z := 65536.
End PermissionType.

Definition SigningRequired : Z := 1.
Definition EncryptionRequired : Z := 2.

Inductive AttributeId : Set :=
| AtNodeId | AtNodeClass | AtBrowseName | AtDisplayName | AtDescription | AtWriteMask | AtUserWriteMask | AtIsAbstract
| AtSymmetric | AtInverseName | AtContainsNoLoops | AtEventNotifier | AtValue | AtDataType | AtValueRank
| AtArrayDimensions | AtAccessLevel | AtUserAccessLevel | AtMinimumSamplingInterval | AtHistorizing | AtExecutable
| AtUserExecutable | AtDataTypeDefinition | AtRolePermissions | AtUserRolePermissions | AtAccessRestrictions
| AtAccessLevelEx.
#[export] Instance AttributeId_eq_dec : EqDecision AttributeId.
Proof. solve_decision. Defined.

(** ** Namespace defaults (a [BTreeMap]) *)

Record NamespaceDefaultPermissions := mkNsDefault {
  default_role_permissions : option (list RolePermissionType);
  default_access_restrictions : option Z
}.
Abbreviation NamespaceDefaults := (gmap Z NamespaceDefaultPermissions).
Definition ns_default_empty : NamespaceDefaultPermissions := mkNsDefault None None.

Definition ns_role_permissions (ns : Z) (d : NamespaceDefaults) : option (list RolePermissionType) :=
  let* p := d !! ns in default_role_permissions p.
Definition ns_access_restrictions (ns : Z) (d : NamespaceDefaults) : option Z :=
  let* p := d !! ns in default_access_restrictions p.
Definition ns_set_role_permissions (ns : Z) (l : list RolePermissionType) (d : NamespaceDefaults) : NamespaceDefaults :=
  <[ns := mkNsDefault (Some l) (default_access_restrictions (default ns_default_empty (d !! ns)))]> d.
Definition ns_set_access_restrictions (ns : Z) (r : Z) (d : NamespaceDefaults) : NamespaceDefaults :=
  <[ns := mkNsDefault (default_role_permissions (default ns_default_empty (d !! ns))) (Some r)]> d.

(** ** The context of a request: what these checks read of it *)

Record RequestContext := mkContext {
  user_roles : list NodeId;
  enforce_role_based_access : bool;
  namespace_defaults : NamespaceDefaults;
  security_mode : MessageSecurityMode;
  (** The session's authorization profile, [(can_read, can_write)]. *)
  auth_profile : option (bool * bool);
  (** [AuthManager::effective_user_access_level] for the session's token. *)
  effective_user_access_level : Z -> NodeId -> Z;
  clients_can_modify_address_space : bool
}.

(** ** Decisions *)

Section decision.
Context {D : DynEncodable}.

Definition effective_role_permissions (d : NamespaceDefaults) (n : NodeType) : option (list RolePermissionType) :=
  match role_permissions (node_base n) with
  | Some p => Some p
  | None => ns_role_permissions (namespace (node_id_of n)) d
  end.

Definition holds (roles : list NodeId) (r : NodeId) : bool := existsb (fun x => bool_decide (x = r)) roles.

Definition granted (roles : list NodeId) (l : list RolePermissionType) : Z :=
  fold_left (fun g p => Z.lor g (permissions p)) (List.filter (fun p => holds roles (role_id p)) l) 0.

Definition authorize_with_enforcement (roles : list NodeId) (effective : option (list RolePermissionType)) (required : Z)
    (enforce : bool) : bool :=
  if negb enforce then true
  else match effective with
       | None => false
       | Some l => contains (granted roles l) required
       end.
Definition authorize (roles : list NodeId) (effective : option (list RolePermissionType)) (required : Z) : bool :=
  authorize_with_enforcement roles effective required false.

Definition authorize_ctx (c : RequestContext) (n : NodeType) (required : Z) : bool :=
  authorize_with_enforcement (user_roles c) (effective_role_permissions (namespace_defaults c) n) required
    (enforce_role_based_access c).

Definition effective_access_restrictions (d : NamespaceDefaults) (n : NodeType) : option Z :=
  match access_restrictions (node_base n) with
  | Some r => Some r
  | None => ns_access_restrictions (namespace (node_id_of n)) d
  end.

Definition event_receive_allowed_with_enforcement (roles : list NodeId) (source : option (list RolePermissionType)) (enforce : bool) : bool :=
  authorize_with_enforcement roles source PermissionType.ReceiveEvents enforce.

Definition access_restrictions_ok (restrictions : option Z) (mode : MessageSecurityMode) : result unit StatusCode :=
  match restrictions with
  | None => Ok tt
  | Some r =>
      if contains r EncryptionRequired && negb (bool_decide (mode = MsmSignAndEncrypt)) then Err BadSecurityModeInsufficient
      else if contains r SigningRequired && negb (bool_decide (mode = MsmSign \/ mode = MsmSignAndEncrypt))
      then Err BadSecurityModeInsufficient
      else Ok tt
  end.
Definition access_restrictions_ok_ctx (c : RequestContext) (n : NodeType) : result unit StatusCode :=
  if negb (enforce_role_based_access c) then Ok tt
  else access_restrictions_ok (effective_access_restrictions (namespace_defaults c) n) (security_mode c).

Definition permission_for_read_attribute (a : AttributeId) : Z :=
  match a with
  | AtValue => PermissionType.Read
  | AtRolePermissions | AtUserRolePermissions => PermissionType.ReadRolePermissions
  | _ => PermissionType.Browse
  end.
Definition permission_for_write_attribute (a : AttributeId) : Z :=
  match a with
  | AtValue => PermissionType.Write
  | AtRolePermissions => PermissionType.WriteRolePermissions
  | AtHistorizing => PermissionType.WriteHistorizing
  | _ => PermissionType.WriteAttribute
  end.

(** ** Checks of the Read and Write services (address_space/utils.rs) *)

Definition authenticator_user_access_level (c : RequestContext) (n : NodeType) : Z :=
  let level := match n with
    | NtVariable v => from_bits_truncate access_level_all (user_access_level v)
    | _ => CURRENT_READ
    end in
  effective_user_access_level c level (node_id_of n).

Definition validate_read_access (c : RequestContext) : result unit StatusCode :=
  match auth_profile c with
  | Some (can_read, _) => if negb can_read then Err BadUserAccessDenied else Ok tt
  | None => Ok tt
  end.
Definition validate_write_access (c : RequestContext) : result unit StatusCode :=
  match auth_profile c with
  | Some (_, can_write) => if negb can_write then Err BadUserAccessDenied else Ok tt
  | None => Ok tt
  end.

Definition is_readable (c : RequestContext) (n : NodeType) : result unit StatusCode :=
  let? _ := access_restrictions_ok_ctx c n in
  if negb (contains (authenticator_user_access_level c n) CURRENT_READ) || negb (authorize_ctx c n PermissionType.Read)
  then Err BadUserAccessDenied else Ok tt.

Definition is_attribute_readable (c : RequestContext) (n : NodeType) (a : AttributeId) : result unit StatusCode :=
  let? _ := access_restrictions_ok_ctx c n in
  if negb (contains (authenticator_user_access_level c n) CURRENT_READ) then Err BadUserAccessDenied
  else if bool_decide (a = AtRolePermissions) && negb (authorize_ctx c n PermissionType.ReadRolePermissions)
  then Err BadUserAccessDenied
  else Ok tt.

(** The bit of [WriteMask] of each attribute that clients may write. *)
Definition WRITABLE_ATTRIBUTES : list (AttributeId * Z) :=
  [(AtBrowseName, Z.shiftl 1 2); (AtDisplayName, Z.shiftl 1 6); (AtDescription, Z.shiftl 1 5);
   (AtWriteMask, Z.shiftl 1 20); (AtUserWriteMask, Z.shiftl 1 18); (AtIsAbstract, Z.shiftl 1 11);
   (AtSymmetric, Z.shiftl 1 15); (AtInverseName, Z.shiftl 1 10); (AtContainsNoLoops, Z.shiftl 1 3);
   (AtEventNotifier, Z.shiftl 1 7); (AtValue, Z.shiftl 1 21); (AtDataType, Z.shiftl 1 4); (AtValueRank, Z.shiftl 1 19);
   (AtArrayDimensions, Z.shiftl 1 1); (AtAccessLevel, 1); (AtUserAccessLevel, Z.shiftl 1 16);
   (AtMinimumSamplingInterval, Z.shiftl 1 12); (AtHistorizing, Z.shiftl 1 9); (AtExecutable, Z.shiftl 1 8);
   (AtUserExecutable, Z.shiftl 1 17); (AtDataTypeDefinition, Z.shiftl 1 22); (AtRolePermissions, Z.shiftl 1 23);
   (AtAccessRestrictions, Z.shiftl 1 24); (AtAccessLevelEx, Z.shiftl 1 25)].

Definition write_mask_bit_for_attribute (a : AttributeId) : option Z :=
  from_bits_truncate write_mask_all <$> (snd <$> List.find (fun p => bool_decide (p.1 = a)) WRITABLE_ATTRIBUTES).

(** [NodeBase::write_mask]. *)
Definition node_write_mask (n : NodeType) : option Z := from_bits_truncate write_mask_all <$> write_mask (node_base n).

Definition is_writable (c : RequestContext) (n : NodeType) (a : AttributeId) : result unit StatusCode :=
  let? _ := validate_write_access c in
  match n, a with
  | NtVariable _, AtValue =>
      let? _ := access_restrictions_ok_ctx c n in
      if negb (contains (authenticator_user_access_level c n) CURRENT_WRITE) then Err BadUserAccessDenied
      else if negb (authorize_ctx c n PermissionType.Write) then Err BadUserAccessDenied
      else Ok tt
  | _, _ =>
      match write_mask_bit_for_attribute a with
      | None => Err BadNotWritable
      | Some mask_value =>
          match node_write_mask n with
          | None => Err BadNotWritable
          | Some wm =>
              if negb (contains wm mask_value) then Err BadNotWritable
              else
                let? _ := access_restrictions_ok_ctx c n in
                if negb (authorize_ctx c n (permission_for_write_attribute a)) then Err BadUserAccessDenied else Ok tt
          end
      end
  end.

(** [AccessLevel::remove]. *)
Definition remove_bit (level bit : Z) : Z := Z.ldiff level bit.
Definition user_access_level_of (c : RequestContext) (n : NodeType) : Z :=
  let level := authenticator_user_access_level c n in
  if is_some (role_permissions (node_base n)) then
    let level := if negb (authorize_ctx c n PermissionType.Read) then remove_bit level CURRENT_READ else level in
    if negb (authorize_ctx c n PermissionType.Write) then remove_bit level CURRENT_WRITE else level
  else level.

Definition user_write_mask_of (c : RequestContext) (n : NodeType) : option Z :=
  let* mask := node_write_mask n in
  let bits := fold_left (fun bits p =>
      let '(a, bit) := p in
      if negb (Z.land bits bit =? 0) && negb (authorize_ctx c n (permission_for_write_attribute a))
      then Z.land bits (not32 bit) else bits) WRITABLE_ATTRIBUTES mask in
  Some (from_bits_truncate write_mask_all bits).

(** [merged] holds the entries in the order of their first occurrence. *)
Fixpoint merge_permission (p : RolePermissionType) (merged : list RolePermissionType) : list RolePermissionType :=
  match merged with
  | [] => [p]
  | e :: l => if bool_decide (role_id e = role_id p) then mkRolePermission (role_id e) (Z.lor (permissions e) (permissions p)) :: l
              else e :: merge_permission p l
  end.
Definition compute_user_role_permissions (l : list RolePermissionType) (roles : list NodeId) : list RolePermissionType :=
  fold_left (fun merged p => if negb (holds roles (role_id p)) then merged else merge_permission p merged) l [].

(** ** Facts *)

Lemma contains_spec flags other : 0 <= other -> contains flags other = true <-> forall i, Z.testbit other i = true -> Z.testbit flags i = true.
Proof.
  intros Ho. unfold contains. rewrite Z.eqb_eq. split.
  - intros He i Hi. rewrite <- He, Z.land_spec in Hi. by apply andb_true_iff in Hi as [? _].
  - intros Hi. apply Z.bits_inj'. intros i _. rewrite Z.land_spec. specialize (Hi i).
    destruct (Z.testbit other i); [by rewrite Hi|apply andb_false_r].
Qed.

Lemma holds_spec roles r : holds roles r = true <-> r ∈ roles.
Proof.
  unfold holds. rewrite existsb_exists. split.
  - intros (x & Hx%list_elem_of_In & <-%bool_decide_eq_true). done.
  - intros Hr. exists r. split; [by apply list_elem_of_In|by apply bool_decide_eq_true].
Qed.

(** Some entry of a role that the user holds has the bit. *)
Definition grants (roles : list NodeId) (l : list RolePermissionType) (i : Z) : Prop :=
  exists p, p ∈ l /\ role_id p ∈ roles /\ Z.testbit (permissions p) i = true.

Lemma granted_testbit roles l i : Z.testbit (granted roles l) i = true <-> grants roles l i.
Proof.
  unfold granted. assert (forall l acc, Z.testbit (fold_left (fun g p => Z.lor g (permissions p)) l acc) i = true
    <-> Z.testbit acc i = true \/ exists p, p ∈ l /\ Z.testbit (permissions p) i = true) as Hf.
  { intros k. induction k as [|p k IH]; intros acc; cbn [fold_left].
    { split; [by left|]. intros [?|(p & Hp%elem_of_nil & _)]; done. }
    rewrite IH, Z.lor_spec, orb_true_iff. split.
    - intros [[?|?]|(x & Hx & ?)]; [by left|right; exists p; split; [by left|done]|right; exists x; split; [by right|done]].
    - intros [?|(x & [->|Hx]%elem_of_cons & ?)]; [by left; left|by left; right|right; by exists x]. }
  rewrite Hf, Z.bits_0. unfold grants. setoid_rewrite list_elem_of_In. setoid_rewrite filter_In. setoid_rewrite holds_spec.
  setoid_rewrite list_elem_of_In. naive_solver.
Qed.

(** The decision on a permission.  Without enforcement everything is permitted.  With it, a
    permission is granted exactly when role permissions are configured, on the node or as the default
    of its namespace, and each bit of the permission is granted by an entry of some role that the
    user holds; a node without configuration is denied. *)
Theorem authorize_spec c n required (Hr : 0 <= required) :
  authorize_ctx c n required = true <->
  enforce_role_based_access c = false \/
  exists l, effective_role_permissions (namespace_defaults c) n = Some l
            /\ forall i, Z.testbit required i = true -> grants (user_roles c) l i.
Proof.
  unfold authorize_ctx, authorize_with_enforcement.
  destruct (enforce_role_based_access c); cbn [negb]; [|naive_solver].
  destruct (effective_role_permissions _ n) as [l|]; [|naive_solver].
  rewrite contains_spec by done. setoid_rewrite granted_testbit. naive_solver.
Qed.

(** *** The permissions of the user *)

Lemma merge_permission_ids p m : exists k, map role_id (merge_permission p m) = map role_id m ++ k
  /\ (k = [] /\ role_id p ∈ map role_id m \/ k = [role_id p] /\ role_id p ∉ map role_id m).
Proof.
  induction m as [|e m IH]; cbn [merge_permission map app].
  - exists [role_id p]. split; [done|right; split; [done|set_solver]].
  - case_bool_decide as He; cbn [map].
    + exists []. rewrite app_nil_r. split; [done|left; set_solver].
    + destruct IH as (k & -> & Hk). exists k. split; [done|]. set_solver.
Qed.

(** The entry is of the role and has the bit. *)
Definition has_bit (r : NodeId) (i : Z) (e : RolePermissionType) : Prop := role_id e = r /\ Z.testbit (permissions e) i = true.

Lemma merge_permission_bits p m r i :
  Exists (has_bit r i) (merge_permission p m) <-> Exists (has_bit r i) m \/ has_bit r i p.
Proof.
  induction m as [|e m IH]; cbn [merge_permission]; rewrite ?Exists_cons, ?Exists_nil; [tauto|].
  case_bool_decide as He; rewrite Exists_cons, ?IH; [|tauto].
  unfold has_bit at 1 3 5. cbn. rewrite He, Z.lor_spec, orb_true_iff. tauto.
Qed.

Definition merge_step (roles : list NodeId) (merged : list RolePermissionType) (p : RolePermissionType) : list RolePermissionType :=
  if negb (holds roles (role_id p)) then merged else merge_permission p merged.

Lemma merge_step_ids roles m p : NoDup (map role_id m) ->
  NoDup (map role_id (merge_step roles m p))
  /\ forall r, r ∈ map role_id (merge_step roles m p) <-> r ∈ map role_id m \/ r ∈ roles /\ r = role_id p.
Proof.
  intros Hm. unfold merge_step. destruct (holds roles (role_id p)) eqn:Hh; cbn [negb].
  - apply holds_spec in Hh. destruct (merge_permission_ids p m) as (x & -> & [[-> Hi]|[-> Hi]]).
    + rewrite app_nil_r. split; [done|]. intros r. split; [by left|]. by intros [?|[_ ->]].
    + split; [apply NoDup_app; split; [done|]; split; [set_solver|apply NoDup_singleton]|].
      intros r. rewrite elem_of_app, list_elem_of_singleton. naive_solver.
  - rewrite <- not_true_iff_false, holds_spec in Hh. split; [done|]. intros r. split; [by left|].
    intros [?|[? ->]]; done.
Qed.

Lemma merge_fold roles l : forall m, NoDup (map role_id m) ->
  let u := fold_left (merge_step roles) l m in
  NoDup (map role_id u)
  /\ (forall r, r ∈ map role_id u <-> r ∈ map role_id m \/ r ∈ roles /\ r ∈ map role_id l)
  /\ (forall r i, Exists (has_bit r i) u <-> Exists (has_bit r i) m \/ r ∈ roles /\ Exists (has_bit r i) l).
Proof.
  induction l as [|p l IH]; intros m Hm; cbn [fold_left map].
  { split; [done|]. split; intros; rewrite ?elem_of_nil, ?Exists_nil; tauto. }
  destruct (merge_step_ids roles m p Hm) as [Hn Hi]. destruct (IH _ Hn) as (H1 & H2 & H3). split; [done|]. split.
  - intros r. rewrite H2, Hi, elem_of_cons. tauto.
  - intros r i. rewrite H3, Exists_cons. unfold merge_step. destruct (holds roles (role_id p)) eqn:Hh; cbn [negb].
    + apply holds_spec in Hh. rewrite merge_permission_bits.
      assert (has_bit r i p -> r ∈ roles) by (by intros [<- _]). tauto.
    + rewrite <- not_true_iff_false, holds_spec in Hh.
      assert (has_bit r i p -> r ∉ roles) by (by intros [<- _]). tauto.
Qed.

Lemma exists_bit_unique u e i : NoDup (map role_id u) -> e ∈ u ->
  Exists (has_bit (role_id e) i) u <-> Z.testbit (permissions e) i = true.
Proof.
  intros Hn He. rewrite Exists_exists. split; [|intros Hb; by exists e].
  intros (x & Hx & Hr & Hb). assert (x = e) as <-; [|done].
  apply list_elem_of_lookup in Hx as [j Hj]. apply list_elem_of_lookup in He as [k Hk].
  assert (j = k) as <-; [|congruence].
  apply (NoDup_lookup _ j k (role_id e) Hn); rewrite list_lookup_fmap; [rewrite Hj|rewrite Hk]; cbn; congruence.
Qed.

Lemma grants_exists roles l i : grants roles l i <-> exists r, r ∈ roles /\ Exists (has_bit r i) l.
Proof. unfold grants, has_bit. setoid_rewrite Exists_exists. naive_solver. Qed.

(** The UserRolePermissions of a user have one entry for each role that the user holds and that
    the node's permissions name, in the order in which the roles first occur; its bits are the union
    of the bits of the role's entries.  In particular they permit exactly what the node's permissions
    permit to this user. *)
Theorem user_role_permissions_spec (l : list RolePermissionType) (roles : list NodeId) :
  let u := compute_user_role_permissions l roles in
  NoDup (map role_id u)
  /\ (forall r, r ∈ map role_id u <-> r ∈ roles /\ r ∈ map role_id l)
  /\ (forall e i, e ∈ u -> Z.testbit (permissions e) i = true
         <-> exists p, p ∈ l /\ role_id p = role_id e /\ Z.testbit (permissions p) i = true)
  /\ forall required enforce, 0 <= required ->
        authorize_with_enforcement roles (Some u) required enforce = authorize_with_enforcement roles (Some l) required enforce.
Proof.
  cbn zeta. change (compute_user_role_permissions l roles) with (fold_left (merge_step roles) l []).
  destruct (merge_fold roles l [] NoDup_nil_2) as (H1 & H2 & H3). split; [done|]. split.
  { intros r. rewrite H2. cbn. rewrite elem_of_nil. tauto. }
  split.
  - intros e i He. rewrite <- (exists_bit_unique _ _ _ H1 He), H3, Exists_nil.
    assert (role_id e ∈ roles) as Hr.
    { assert (role_id e ∈ map role_id (fold_left (merge_step roles) l [])) as [Hn|[? _]]%H2; [|by apply elem_of_nil in Hn|done].
      apply list_elem_of_fmap. by exists e. }
    rewrite Exists_exists. unfold has_bit. naive_solver.
  - intros required [] Hr; cbn; [|done]. apply Bool.eq_true_iff_eq. rewrite !contains_spec by done.
    setoid_rewrite granted_testbit. setoid_rewrite grants_exists. setoid_rewrite H3.
    setoid_rewrite (Exists_nil (has_bit _ _)). naive_solver.
Qed.

(** *** The write mask of the user *)

Definition mask_step (ok : AttributeId -> bool) (bits : Z) (p : AttributeId * Z) : Z :=
  if negb (Z.land bits p.2 =? 0) && negb (ok p.1) then Z.land bits (not32 p.2) else bits.

Lemma mask_step_testbit ok bits p i : 0 <= i < 32 ->
  Z.testbit (mask_step ok bits p) i = Z.testbit bits i && (negb (Z.testbit p.2 i) || ok p.1).
Proof.
  intros Hi. unfold mask_step. destruct (ok p.1) eqn:Ho; rewrite ?orb_true_r, ?orb_false_r, ?andb_true_r, ?andb_false_r; [done|].
  destruct (Z.eqb_spec (Z.land bits p.2) 0) as [Hz|Hz]; cbn [negb andb].
  - assert (Z.testbit (Z.land bits p.2) i = false) as Hb by (rewrite Hz; apply Z.bits_0).
    rewrite Z.land_spec in Hb. by destruct (Z.testbit bits i), (Z.testbit p.2 i).
  - rewrite Z.land_spec, not32_spec by lia. destruct (Z.ltb_spec i 32); [|lia]. by rewrite xorb_true_r.
Qed.

Lemma mask_fold_testbit ok l i : 0 <= i < 32 -> forall bits,
  Z.testbit (fold_left (mask_step ok) l bits) i = Z.testbit bits i && forallb (fun p => negb (Z.testbit p.2 i) || ok p.1) l.
Proof.
  intros Hi. induction l as [|p l IH]; intros bits; cbn [fold_left forallb]; [by rewrite andb_true_r|].
  by rewrite IH, mask_step_testbit, andb_assoc.
Qed.

(** The position of the attribute's bit. *)
Definition bit_index (a : AttributeId) : option Z := Z.log2 <$> write_mask_bit_for_attribute a.

Lemma contains_pow2 m k : 0 <= k -> contains m (Z.shiftl 1 k) = Z.testbit m k.
Proof.
  intros Hk. apply Bool.eq_true_iff_eq. rewrite contains_spec by (apply Z.shiftl_nonneg; lia). rewrite Z.shiftl_1_l. split.
  - intros Hi. apply Hi. by apply Z.pow2_bits_true.
  - intros Hm i Hi. rewrite (Z.pow2_bits_eqb k i) in Hi by done.
    apply Z.eqb_eq in Hi as <-. done.
Qed.

(** Every writable attribute has one bit, and no two share it. *)
Lemma writable_bits a b : write_mask_bit_for_attribute a = Some b ->
  exists k, b = Z.shiftl 1 k /\ 0 <= k < 26
  /\ forall ok : AttributeId -> bool, forallb (fun p => negb (Z.testbit p.2 k) || ok p.1) WRITABLE_ATTRIBUTES = ok a.
Proof.
  unfold write_mask_bit_for_attribute. destruct a; cbn [WRITABLE_ATTRIBUTES List.find fst snd bool_decide]; intros [= <-].
  all: match goal with |- context [from_bits_truncate _ ?x] => exists (Z.log2 x) end.
  all: (split; [reflexivity|]); (split; [split; [discriminate|reflexivity]|]); intros ok; cbv; by destruct ok.
Qed.

(** The UserWriteMask that a client reads is what the write path permits.  For every attribute
    but the value of a variable, a session that may write and meets the access restrictions of the
    node is allowed to write the attribute exactly when its bit is set in the mask. *)
Theorem user_write_mask_spec c n a b (Hb : write_mask_bit_for_attribute a = Some b)
    (Hv : forall v, n = NtVariable v -> a <> AtValue)
    (Hw : validate_write_access c = Ok tt) (Hr : access_restrictions_ok_ctx c n = Ok tt) :
  is_writable c n a = Ok tt <-> exists m, user_write_mask_of c n = Some m /\ contains m b = true.
Proof.
  assert (is_writable c n a = match node_write_mask n with
    | None => Err BadNotWritable
    | Some wm => if negb (contains wm b) then Err BadNotWritable
                 else if negb (authorize_ctx c n (permission_for_write_attribute a)) then Err BadUserAccessDenied else Ok tt
    end) as ->.
  { unfold is_writable. rewrite Hw, Hb, Hr. cbn [result_bind]. destruct n; try done. destruct a; try done. by destruct (Hv v). }
  destruct (writable_bits a b Hb) as (k & -> & Hk & Hok). unfold user_write_mask_of.
  destruct (node_write_mask n) as [wm|]; cbn [option_bind mbind]; [|by split; [|intros (m & ? & _)]].
  rewrite contains_pow2 by lia.
  set (ok a' := authorize_ctx c n (permission_for_write_attribute a')).
  match goal with |- context [fold_left ?f _ _] => replace (fold_left f WRITABLE_ATTRIBUTES wm) with (fold_left (mask_step ok) WRITABLE_ATTRIBUTES wm) end.
  2: { clear. generalize WRITABLE_ATTRIBUTES as l, wm. induction l as [|[a' b'] l IH]; intros wm'; [done|]. cbn [fold_left].
       rewrite IH. done. }
  assert (contains (from_bits_truncate write_mask_all (fold_left (mask_step ok) WRITABLE_ATTRIBUTES wm)) (Z.shiftl 1 k)
    = Z.testbit wm k && ok a) as Hc.
  { rewrite contains_pow2 by lia. unfold from_bits_truncate, write_mask_all.
    rewrite Z.land_spec, Z.ones_spec_low, andb_true_r, mask_fold_testbit, Hok by lia. done. }
  fold (ok a). revert Hc. generalize (from_bits_truncate write_mask_all (fold_left (mask_step ok) WRITABLE_ATTRIBUTES wm)) as bits.
  intros bits Hc. split.
  - intros Ho. eexists. split; [reflexivity|]. rewrite Hc. by destruct (Z.testbit wm k), (ok a).
  - intros (m & [= <-] & Hm). rewrite Hc in Hm. by destruct (Z.testbit wm k), (ok a).
Qed.

End decision.

(** ** Witnesses *)

Section witnesses.
Context {D : DynEncodable}.

(** An object whose name and description may be written. *)
Definition example_object (p : option (list RolePermissionType)) : NodeType :=
  NtObject (mkObject (mkBase (node 5) NcObject {| namespace_index := 0; qname := Some [] |} no_text None
    (Some (Z.lor (Z.shiftl 1 6) (Z.shiftl 1 5))) None p None) 0).
End witnesses.
#[local] Existing Instance no_dyn.

(** A user of role 1 with enforcement. *)
Definition example_context : RequestContext :=
  mkContext [node 1] true ∅ MsmSign None (fun level _ => level) false.
Definition example_permissions : list RolePermissionType :=
  [mkRolePermission (node 1) PermissionType.Read; mkRolePermission (node 2) PermissionType.Write;
   mkRolePermission (node 1) PermissionType.WriteAttribute].

Lemma authorize_spec_witness :
  authorize_ctx example_context (example_object (Some example_permissions)) PermissionType.WriteAttribute = true
  /\ authorize_ctx example_context (example_object (Some example_permissions)) PermissionType.Write <> true.
Proof.
  split.
  - apply (authorize_spec example_context (example_object (Some example_permissions)) PermissionType.WriteAttribute); [by vm_compute|].
    right. exists example_permissions. split; [reflexivity|]. intros i Hi. exists (mkRolePermission (node 1) PermissionType.WriteAttribute).
    split; [|split; [|exact Hi]]; apply (bool_decide_unpack _); vm_compute; exact I.
  - vm_compute. discriminate.
Defined.

Lemma user_write_mask_spec_witness :
  is_writable example_context (example_object (Some example_permissions)) AtDisplayName = Ok tt
  /\ is_writable example_context (example_object (Some example_permissions)) AtBrowseName <> Ok tt.
Proof.
  split.
  - apply (user_write_mask_spec example_context (example_object (Some example_permissions)) AtDisplayName (Z.shiftl 1 6)); try reflexivity.
    { discriminate. }
    eexists. split; reflexivity.
  - vm_compute. discriminate.
Defined.
