(* ===== verification/Roles.v ===== *)
(** * Roles

    The well-known roles and the presets of server/src/rbac/mod.rs and preset.rs, the mapping rules of
    rules.rs, the resolver of resolver.rs, and the identity of an activated session
    (server/src/session/manager/lifecycle.rs).

    The resolver grants a role exactly when one of its rules matches the identity and its filters
    allow the application and the endpoint.  Together with the preset permissions this gives what an
    anonymous session may do. *)

From S2P Require Import Prelude Text StatusCode NumericRange Variant References TypeTree Nodes Rbac.

(** ** Well-known roles *)

Inductive WellKnownRole : Set :=
| WkrAnonymous | WkrAuthenticatedUser | WkrObserver | WkrOperator | WkrEngineer | WkrSupervisor | WkrConfigureAdmin
| WkrSecurityAdmin.
#[export] Instance WellKnownRole_eq_dec : EqDecision WellKnownRole.
Proof. solve_decision. Defined.

Definition all_roles : list WellKnownRole :=
  [WkrAnonymous; WkrAuthenticatedUser; WkrObserver; WkrOperator; WkrEngineer; WkrSupervisor; WkrConfigureAdmin; WkrSecurityAdmin].

Definition role_node_id (r : WellKnownRole) : NodeId :=
  ns0 match r with
      | WkrAnonymous => 15644 | WkrAuthenticatedUser => 15656 | WkrObserver => 15668 | WkrOperator => 15680
      | WkrEngineer => 16036 | WkrSupervisor => 15692 | WkrConfigureAdmin => 15716 | WkrSecurityAdmin => 15704
      end.

(** ** Presets *)

Section presets.
Import PermissionType.
Definition anonymous_permissions : Z := Z.lor (Z.lor Browse Read) ReadRolePermissions.
Definition authenticated_user_permissions : Z := anonymous_permissions.
Definition observer_permissions : Z := Z.lor (Z.lor (Z.lor Browse Read) ReadHistory) ReceiveEvents.
Definition operator_permissions : Z := Z.lor (Z.lor observer_permissions Write) Call.
Definition engineer_permissions : Z :=
  Z.lor (Z.lor (Z.lor (Z.lor (Z.lor operator_permissions WriteAttribute) WriteHistorizing) InsertHistory) ModifyHistory) DeleteHistory.
Definition supervisor_permissions : Z := operator_permissions.
Definition configure_admin_permissions : Z :=
  Z.lor (Z.lor (Z.lor (Z.lor (Z.lor (Z.lor (Z.lor Browse Read) Write) WriteAttribute) AddNode) DeleteNode) AddReference) RemoveReference.
Definition security_admin_permissions : Z := Z.lor (Z.lor (Z.lor Browse Read) ReadRolePermissions) WriteRolePermissions.

Definition role_permission (r : WellKnownRole) (p : Z) : RolePermissionType := mkRolePermission (role_node_id r) p.
Definition secure_well_known_permissions : list RolePermissionType :=
  [role_permission WkrAnonymous anonymous_permissions;
   role_permission WkrAuthenticatedUser authenticated_user_permissions;
   role_permission WkrObserver observer_permissions;
   role_permission WkrOperator operator_permissions;
   role_permission WkrEngineer engineer_permissions;
   role_permission WkrSupervisor supervisor_permissions;
   role_permission WkrConfigureAdmin configure_admin_permissions;
   role_permission WkrSecurityAdmin security_admin_permissions].
End presets.

(** ** Rules and identities *)

Inductive IdentityMappingRule : Type :=
| ImrAnonymousIdentity | ImrAuthenticatedUser | ImrUserName (s : rstr) | ImrThumbprint (s : rstr) | ImrRole (n : NodeId)
| ImrGroupId (s : rstr) | ImrApplication (s : rstr).
#[export] Instance IdentityMappingRule_eq_dec : EqDecision IdentityMappingRule.
Proof. solve_decision. Defined.

Inductive ResolvedIdentityKind : Type :=
| RikAnonymous | RikUserName (s : rstr) | RikX509Thumbprint (s : rstr) | RikIssuedToken (group_ids : list rstr) (role_ids : list NodeId).

Record ResolvedIdentity := mkIdentity {
  kind : ResolvedIdentityKind;
  application_uri : option rstr;
  endpoint_url : option rstr
}.

(** [str::eq_ignore_ascii_case]. *)
Definition to_ascii_lowercase (c : Z) : Z := if (65 <=? c) && (c <=? 90) then c + 32 else c.
Definition eq_ignore_ascii_case (a b : rstr) : bool := bool_decide (map to_ascii_lowercase a = map to_ascii_lowercase b).

Definition matches_rule (rule : IdentityMappingRule) (i : ResolvedIdentity) : bool :=
  match rule, kind i with
  | ImrAnonymousIdentity, RikAnonymous => true
  | ImrAuthenticatedUser, RikAnonymous => false
  | ImrAuthenticatedUser, _ => true
  | ImrUserName expected, RikUserName actual => bool_decide (expected = actual)
  | ImrThumbprint expected, RikX509Thumbprint actual => eq_ignore_ascii_case expected actual
  | ImrRole expected, RikIssuedToken _ role_ids => bool_decide (expected ∈ role_ids)
  | ImrGroupId expected, RikIssuedToken group_ids _ => bool_decide (expected ∈ group_ids)
  | ImrApplication expected, _ => bool_decide (application_uri i = Some expected)
  | _, _ => false
  end.

(** The token of a session that is activated; the thumbprint of a certificate, or the error of reading
    it, is given. *)
Inductive IdentityToken : Type :=
| ItAnonymous | ItUserName (user_name : UAString) | ItX509 (thumbprint : result rstr StatusCode) | ItIssuedToken
| ItNone | ItInvalid.
Definition BadIdentityTokenInvalid : StatusCode := 0x80200000.

(** [AsRef<str>] of a [UAString]: a null string is empty. *)
Definition ua_as_ref (s : UAString) : rstr := default [] s.

Definition resolved_identity_from_activation (t : IdentityToken) (claims : option (list rstr)) (app url : option rstr)
    : result ResolvedIdentity StatusCode :=
  match t with
  | ItAnonymous => Ok (mkIdentity RikAnonymous app url)
  | ItUserName user => Ok (mkIdentity (RikUserName (ua_as_ref user)) app url)
  | ItX509 thumbprint => let? s := thumbprint in Ok (mkIdentity (RikX509Thumbprint s) app url)
  | ItIssuedToken => Ok (mkIdentity (RikIssuedToken (default [] claims) []) app url)
  | ItNone | ItInvalid => Err BadIdentityTokenInvalid
  end.

(** ** Filters: [RoleApplicationFilter] and [RoleEndpointFilter] *)

Record RoleFilter := mkFilter { entries : list rstr; exclude : bool }.
Definition filter_default : RoleFilter := mkFilter [] true.

Definition allows (f : RoleFilter) (actual : option rstr) : bool :=
  match entries f with
  | [] => true
  | _ =>
      let matches := match actual with Some a => bool_decide (a ∈ entries f) | None => false end in
      if exclude f then negb matches else matches
  end.
Definition filter_add (s : rstr) (f : RoleFilter) : RoleFilter * bool :=
  if bool_decide (s ∈ entries f) then (f, false) else (mkFilter (entries f ++ [s]) (exclude f), true).

(** [Vec::remove] at the first position that holds the element. *)
Fixpoint remove_first {A} `{EqDecision A} (x : A) (l : list A) : option (list A) :=
  match l with
  | [] => None
  | y :: l' => if bool_decide (y = x) then Some l' else cons y <$> remove_first x l'
  end.
Definition filter_remove (s : rstr) (f : RoleFilter) : RoleFilter * bool :=
  match remove_first s (entries f) with
  | Some l => (mkFilter l (exclude f), true)
  | None => (f, false)
  end.

(** ** The resolver *)

Record RoleRules := mkRules {
  rules_node_id : NodeId;
  identity_rules : list IdentityMappingRule;
  applications : RoleFilter;
  endpoints : RoleFilter
}.
Definition rules_new (n : NodeId) (l : list IdentityMappingRule) : RoleRules := mkRules n l filter_default filter_default.

Record RoleResolver := mkResolver { roles : list RoleRules; runtime_roles : list NodeId }.

Definition resolver_default : RoleResolver :=
  mkResolver (map (fun r => rules_new (role_node_id r)
    match r with WkrAnonymous => [ImrAnonymousIdentity] | WkrAuthenticatedUser => [ImrAuthenticatedUser] | _ => [] end) all_roles) [].

Definition push_unique (l : list NodeId) (n : NodeId) : list NodeId := if bool_decide (n ∈ l) then l else l ++ [n].

Definition is_role (n : NodeId) (r : RoleRules) : bool := bool_decide (rules_node_id r = n).
Definition contains_role (n : NodeId) (s : RoleResolver) : bool := existsb (is_role n) (roles s).
Definition is_runtime_role (n : NodeId) (s : RoleResolver) : bool := bool_decide (n ∈ runtime_roles s).

Definition register_role (n : NodeId) (s : RoleResolver) : RoleResolver :=
  if contains_role n s then mkResolver (roles s) (push_unique (runtime_roles s) n)
  else mkResolver (roles s ++ [rules_new n []]) (push_unique (runtime_roles s) n).

(** Removes the first element that satisfies the test. *)
Fixpoint remove_first_by {A} (p : A -> bool) (l : list A) : option (list A) :=
  match l with
  | [] => None
  | y :: l' => if p y then Some l' else cons y <$> remove_first_by p l'
  end.
Definition remove_role (n : NodeId) (s : RoleResolver) : RoleResolver * bool :=
  if negb (is_runtime_role n s) then (s, false)
  else match remove_first_by (is_role n) (roles s) with
       | None => (s, false)
       | Some l => (mkResolver l (List.filter (fun r => negb (bool_decide (r = n))) (runtime_roles s)), true)
       end.

(** [iter_mut().find]: the first role with the identifier is updated; [None] when there is none. *)
Fixpoint update_role {B} (n : NodeId) (f : RoleRules -> RoleRules * B) (l : list RoleRules) : option (list RoleRules * B) :=
  match l with
  | [] => None
  | r :: l' =>
      if is_role n r then let '(r, b) := f r in Some (r :: l', b)
      else match update_role n f l' with Some (l'', b) => Some (r :: l'', b) | None => None end
  end.

Definition add_mapping (n : NodeId) (rule : IdentityMappingRule) (s : RoleResolver) : RoleResolver :=
  match update_role n (fun r => (mkRules (rules_node_id r) (identity_rules r ++ [rule]) (applications r) (endpoints r), tt)) (roles s) with
  | Some (l, _) => mkResolver l (runtime_roles s)
  | None => mkResolver (roles s ++ [rules_new n [rule]]) (runtime_roles s)
  end.

(** Operations on an existing role, [false] when there is none. *)
Definition on_role (n : NodeId) (f : RoleRules -> RoleRules * bool) (s : RoleResolver) : RoleResolver * bool :=
  match update_role n f (roles s) with
  | Some (l, b) => (mkResolver l (runtime_roles s), b)
  | None => (s, false)
  end.
Definition remove_mapping (n : NodeId) (rule : IdentityMappingRule) : RoleResolver -> RoleResolver * bool :=
  on_role n (fun r => match remove_first rule (identity_rules r) with
                      | Some l => (mkRules (rules_node_id r) l (applications r) (endpoints r), true)
                      | None => (r, false)
                      end).
Definition add_application (n : NodeId) (uri : rstr) : RoleResolver -> RoleResolver * bool :=
  on_role n (fun r => let '(f, b) := filter_add uri (applications r) in (mkRules (rules_node_id r) (identity_rules r) f (endpoints r), b)).
Definition remove_application (n : NodeId) (uri : rstr) : RoleResolver -> RoleResolver * bool :=
  on_role n (fun r => let '(f, b) := filter_remove uri (applications r) in (mkRules (rules_node_id r) (identity_rules r) f (endpoints r), b)).
Definition add_endpoint (n : NodeId) (url : rstr) : RoleResolver -> RoleResolver * bool :=
  on_role n (fun r => let '(f, b) := filter_add url (endpoints r) in (mkRules (rules_node_id r) (identity_rules r) (applications r) f, b)).
Definition remove_endpoint (n : NodeId) (url : rstr) : RoleResolver -> RoleResolver * bool :=
  on_role n (fun r => let '(f, b) := filter_remove url (endpoints r) in (mkRules (rules_node_id r) (identity_rules r) (applications r) f, b)).

(** A user of the configuration: the rule for its name or certificate. *)
Record ServerUserToken := mkUserToken { user : rstr; x509 : option rstr; thumbprint : option rstr; user_token_roles : list NodeId }.
Definition user_token_rule (t : ServerUserToken) : option IdentityMappingRule :=
  match x509 t with None => Some (ImrUserName (user t)) | Some _ => ImrThumbprint <$> thumbprint t end.
Definition from_user_tokens (l : list ServerUserToken) : RoleResolver :=
  fold_left (fun s t => match user_token_rule t with
                        | Some rule => fold_left (fun s r => add_mapping r rule s) (user_token_roles t) s
                        | None => s
                        end)
    (List.filter (fun t => negb (bool_decide (user_token_roles t = []))) l) resolver_default.

(** The role's rules and filters accept the identity. *)
Definition rules_accept (r : RoleRules) (i : ResolvedIdentity) : bool :=
  existsb (fun rule => matches_rule rule i) (identity_rules r)
  && allows (applications r) (application_uri i) && allows (endpoints r) (endpoint_url i).

Definition resolve (s : RoleResolver) (i : ResolvedIdentity) : list NodeId :=
  let authenticated_user := role_node_id WkrAuthenticatedUser in
  let '(granted, grant_authenticated_user) :=
    fold_left (fun acc r =>
        let '(g, a) := acc in
        if rules_accept r i then
          if bool_decide (rules_node_id r = authenticated_user) then (g, true) else (push_unique g (rules_node_id r), a)
        else acc) (roles s) ([], false) in
  if grant_authenticated_user then push_unique granted authenticated_user else granted.

(** ** What the resolver grants *)

Definition accepts_for (i : ResolvedIdentity) (r : NodeId) (rr : RoleRules) : Prop := rules_node_id rr = r /\ rules_accept rr i = true.
Definition accepted (s : RoleResolver) (i : ResolvedIdentity) (r : NodeId) : Prop := Exists (accepts_for i r) (roles s).

Lemma push_unique_elem l n r : r ∈ push_unique l n <-> r ∈ l \/ r = n.
Proof. unfold push_unique. case_bool_decide; set_solver. Qed.
Lemma push_unique_nodup l n : NoDup l -> NoDup (push_unique l n).
Proof.
  intros Hl. unfold push_unique. case_bool_decide; [done|]. apply NoDup_app. split; [done|]. split; [set_solver|apply NoDup_singleton].
Qed.

(** One role of the loop. *)
Definition resolve_step (i : ResolvedIdentity) (acc : list NodeId * bool) (r : RoleRules) : list NodeId * bool :=
  let '(g, a) := acc in
  if rules_accept r i then
    if bool_decide (rules_node_id r = role_node_id WkrAuthenticatedUser) then (g, true) else (push_unique g (rules_node_id r), a)
  else acc.

Lemma resolve_fold i l : forall g a, NoDup g -> role_node_id WkrAuthenticatedUser ∉ g ->
  let '(g', a') := fold_left (resolve_step i) l (g, a) in
  NoDup g' /\ role_node_id WkrAuthenticatedUser ∉ g'
  /\ (forall r, r ∈ g' <-> r ∈ g \/ r <> role_node_id WkrAuthenticatedUser /\ Exists (accepts_for i r) l)
  /\ (a' = true <-> a = true \/ Exists (accepts_for i (role_node_id WkrAuthenticatedUser)) l).
Proof.
  set (au := role_node_id WkrAuthenticatedUser). induction l as [|x l IH]; intros g a Hg Hau; cbn [fold_left].
  { split; [done|]. split; [done|]. split; intros; rewrite Exists_nil; tauto. }
  assert (forall r, accepts_for i r x <-> rules_accept x i = true /\ rules_node_id x = r) as Hx by (unfold accepts_for; tauto).
  unfold resolve_step at 2. fold au. destruct (rules_accept x i); [case_bool_decide as Hid|].
  - specialize (IH g true Hg Hau). destruct (fold_left _ l (g, true)) as [g' a']. destruct IH as (? & ? & H3 & H4).
    split; [done|]. split; [done|]. split; intros; rewrite ?H3, ?H4, Exists_cons, Hx; [|tauto].
    assert (rules_node_id x = r -> r = au) by congruence. tauto.
  - specialize (IH (push_unique g (rules_node_id x)) a (push_unique_nodup _ _ Hg)).
    destruct (fold_left _ l _) as [g' a']. destruct IH as (? & ? & H3 & H4).
    { rewrite push_unique_elem. intros [?|?]; congruence. }
    split; [done|]. split; [done|]. split; intros; rewrite ?H3, ?H4, Exists_cons, Hx, ?push_unique_elem; [|tauto].
    assert (r = rules_node_id x -> r <> au) by congruence. assert (r = rules_node_id x <-> rules_node_id x = r) by done. tauto.
  - specialize (IH g a Hg Hau). destruct (fold_left _ l (g, a)) as [g' a']. destruct IH as (? & ? & H3 & H4).
    split; [done|]. split; [done|]. split; intros; rewrite ?H3, ?H4, Exists_cons, Hx.
    all: assert (false <> true) by done; tauto.
Qed.

Lemma resolve_spec s i :
  NoDup (resolve s i) /\ (forall r, r ∈ resolve s i <-> accepted s i r)
  /\ (role_node_id WkrAuthenticatedUser ∈ resolve s i -> last (resolve s i) = Some (role_node_id WkrAuthenticatedUser)).
Proof.
  unfold resolve, accepted. set (au := role_node_id WkrAuthenticatedUser).
  pose proof (resolve_fold i (roles s) [] false NoDup_nil_2 (not_elem_of_nil _)) as Hf.
  change (fun acc r => _) with (resolve_step i). fold au in Hf.
  destruct (fold_left (resolve_step i) (roles s) ([], false)) as [g a]. destruct Hf as (H1 & H2 & H3 & H4).
  destruct a.
  - unfold push_unique. rewrite bool_decide_false by done. split; [|split].
    + apply NoDup_app. split; [done|]. split; [set_solver|apply NoDup_singleton].
    + intros r. rewrite elem_of_app, list_elem_of_singleton, H3, elem_of_nil.
      destruct (decide (r = au)) as [->|Hr]; [|tauto]. split; [|by right].
      intros _. by destruct (proj1 H4 eq_refl) as [?|?].
    + intros _. apply last_snoc.
  - split; [done|]. split; [|done]. intros r. rewrite H3, elem_of_nil.
    destruct (decide (r = au)) as [->|Hr]; [|tauto]. split; [tauto|].
    intros Hr. assert (false = true); [|done]. apply H4. by right.
Qed.

(** ** Management of the roles refines a map *)

Record role_map := mkRoleMap { rm_roles : gmap NodeId RoleRules; rm_runtime : gset NodeId }.

Inductive RoleOp : Type :=
| RoRegister (n : NodeId) | RoRemove (n : NodeId)
| RoAddMapping (n : NodeId) (r : IdentityMappingRule) | RoRemoveMapping (n : NodeId) (r : IdentityMappingRule)
| RoAddApplication (n : NodeId) (s : rstr) | RoRemoveApplication (n : NodeId) (s : rstr)
| RoAddEndpoint (n : NodeId) (s : rstr) | RoRemoveEndpoint (n : NodeId) (s : rstr).

Definition exec_role_op (o : RoleOp) (s : RoleResolver) : RoleResolver :=
  match o with
  | RoRegister n => register_role n s
  | RoRemove n => (remove_role n s).1
  | RoAddMapping n r => add_mapping n r s
  | RoRemoveMapping n r => (remove_mapping n r s).1
  | RoAddApplication n u => (add_application n u s).1
  | RoRemoveApplication n u => (remove_application n u s).1
  | RoAddEndpoint n u => (add_endpoint n u s).1
  | RoRemoveEndpoint n u => (remove_endpoint n u s).1
  end.

(** What an operation on an existing role does to its rules. *)
Definition role_change (o : RoleOp) (r : RoleRules) : RoleRules :=
  match o with
  | RoAddMapping _ x => mkRules (rules_node_id r) (identity_rules r ++ [x]) (applications r) (endpoints r)
  | RoRemoveMapping _ x =>
      mkRules (rules_node_id r) (default (identity_rules r) (remove_first x (identity_rules r))) (applications r) (endpoints r)
  | RoAddApplication _ u => mkRules (rules_node_id r) (identity_rules r) (filter_add u (applications r)).1 (endpoints r)
  | RoRemoveApplication _ u => mkRules (rules_node_id r) (identity_rules r) (filter_remove u (applications r)).1 (endpoints r)
  | RoAddEndpoint _ u => mkRules (rules_node_id r) (identity_rules r) (applications r) (filter_add u (endpoints r)).1
  | RoRemoveEndpoint _ u => mkRules (rules_node_id r) (identity_rules r) (applications r) (filter_remove u (endpoints r)).1
  | _ => r
  end.

Definition spec_role_op (o : RoleOp) (m : role_map) : role_map :=
  match o with
  | RoRegister n =>
      mkRoleMap (if decide (n ∈ dom (rm_roles m)) then rm_roles m else <[n := rules_new n []]> (rm_roles m)) ({[n]} ∪ rm_runtime m)
  | RoRemove n =>
      if decide (n ∈ rm_runtime m) then mkRoleMap (delete n (rm_roles m)) (rm_runtime m ∖ {[n]}) else m
  | RoAddMapping n x =>
      mkRoleMap (if decide (n ∈ dom (rm_roles m)) then alter (role_change o) n (rm_roles m) else <[n := rules_new n [x]]> (rm_roles m))
        (rm_runtime m)
  | RoRemoveMapping n _ | RoAddApplication n _ | RoRemoveApplication n _ | RoAddEndpoint n _ | RoRemoveEndpoint n _ =>
      mkRoleMap (alter (role_change o) n (rm_roles m)) (rm_runtime m)
  end.

(** The part about the roles: a list with distinct identifiers and the map of its entries. *)
Definition listed (l : list RoleRules) (m : gmap NodeId RoleRules) : Prop :=
  NoDup (map rules_node_id l) /\ (forall r, r ∈ l <-> m !! rules_node_id r = Some r)
  /\ (forall n r, m !! n = Some r -> rules_node_id r = n).

Lemma listed_dom l m n : listed l m -> n ∈ map rules_node_id l <-> n ∈ dom m.
Proof.
  intros (_ & Hl & Hi). rewrite elem_of_dom, list_elem_of_fmap. split.
  - intros (r & -> & Hr%Hl). eauto.
  - intros [r Hr]. exists r. pose proof (Hi _ _ Hr). subst n. split; [done|by apply Hl].
Qed.

Lemma listed_split l1 r l2 m : listed (l1 ++ r :: l2) m ->
  rules_node_id r ∉ map rules_node_id (l1 ++ l2) /\ NoDup (map rules_node_id (l1 ++ l2)) /\ m !! rules_node_id r = Some r.
Proof.
  intros (Hn & Hl & _). rewrite map_app in Hn. cbn in Hn.
  rewrite <- Permutation_middle, <- map_app in Hn. apply NoDup_cons in Hn as [? ?].
  split; [done|]. split; [done|]. apply Hl. set_solver.
Qed.

Lemma listed_other l1 r l2 m x : listed (l1 ++ r :: l2) m -> rules_node_id x <> rules_node_id r ->
  x ∈ l1 ++ l2 <-> m !! rules_node_id x = Some x.
Proof.
  intros (_ & Hl & _) Hne. rewrite <- Hl, !elem_of_app, elem_of_cons. assert (x <> r) by congruence. tauto.
Qed.
Lemma listed_same l1 r l2 m x : listed (l1 ++ r :: l2) m -> x ∈ l1 ++ l2 -> rules_node_id x <> rules_node_id r.
Proof.
  intros (Hn & _)%listed_split Hx He. apply Hn. rewrite <- He. apply list_elem_of_fmap. by exists x.
Qed.

Lemma listed_replace l1 r l2 m r' : listed (l1 ++ r :: l2) m -> rules_node_id r' = rules_node_id r ->
  listed (l1 ++ r' :: l2) (<[rules_node_id r := r']> m).
Proof.
  intros Hm He. pose proof Hm as (Hn & Hl & Hi). split; [|split].
  - rewrite map_app in *. cbn in *. by rewrite He.
  - intros x. rewrite elem_of_app, elem_of_cons. destruct (decide (rules_node_id x = rules_node_id r)) as [Hx|Hx].
    + rewrite Hx, lookup_insert_eq. split; [|intros [= ->]; tauto].
      intros [H|[->|H]]; [|done|]; exfalso; apply (listed_same l1 r l2 m x Hm); set_solver.
    + rewrite lookup_insert_ne by done. rewrite <- (listed_other l1 r l2 m x Hm Hx), elem_of_app.
      assert (x <> r') by congruence. tauto.
  - intros n x [[<- <-]|[_ Hx]]%lookup_insert_Some; [done|by apply Hi].
Qed.

Lemma listed_remove l1 r l2 m : listed (l1 ++ r :: l2) m -> listed (l1 ++ l2) (delete (rules_node_id r) m).
Proof.
  intros Hm. pose proof Hm as (_ & _ & Hi). destruct (listed_split _ _ _ _ Hm) as (Hr & Hn & _). split; [done|split].
  - intros x. destruct (decide (rules_node_id x = rules_node_id r)) as [Hx|Hx].
    + rewrite Hx, lookup_delete_eq. split; [|done]. intros H. by destruct (listed_same l1 r l2 m x Hm).
    + rewrite lookup_delete_ne by done. by apply (listed_other l1 r l2 m x).
  - intros n x [_ Hx]%lookup_delete_Some. by apply Hi.
Qed.

Lemma listed_add l m r : listed l m -> rules_node_id r ∉ dom m -> listed (l ++ [r]) (<[rules_node_id r := r]> m).
Proof.
  intros Hm Hr. pose proof Hm as (Hn & Hl & Hi). split; [|split].
  - rewrite map_app. apply NoDup_app. split; [done|]. split; [|apply NoDup_singleton].
    intros n Hin Hs. apply list_elem_of_singleton in Hs as ->. apply Hr. by apply (listed_dom l m).
  - intros x. rewrite elem_of_app, list_elem_of_singleton. destruct (decide (rules_node_id x = rules_node_id r)) as [Hx|Hx].
    + rewrite Hx, lookup_insert_eq. split; [|intros [= ->]; tauto]. intros [H| ->]; [|done].
      destruct Hr. rewrite <- Hx. apply (listed_dom l m); [done|]. apply list_elem_of_fmap. by exists x.
    + rewrite lookup_insert_ne by done. rewrite <- Hl. assert (x <> r) by congruence. tauto.
  - intros n x [[<- <-]|[_ Hx]]%lookup_insert_Some; [done|by apply Hi].
Qed.

Lemma is_role_spec n r : is_role n r = true <-> rules_node_id r = n.
Proof. apply bool_decide_eq_true. Qed.

Lemma update_role_spec {B} n (f : RoleRules -> RoleRules * B) l :
  match update_role n f l with
  | Some (l', b) => exists l1 r l2, l = l1 ++ r :: l2 /\ rules_node_id r = n /\ l' = l1 ++ (f r).1 :: l2 /\ b = (f r).2
  | None => n ∉ map rules_node_id l
  end.
Proof.
  induction l as [|x l IH]; cbn [update_role map]; [apply not_elem_of_nil|].
  destruct (is_role n x) eqn:Hx.
  - apply is_role_spec in Hx. destruct (f x) as [r b] eqn:Hf. exists [], x, l. by rewrite Hf.
  - rewrite <- not_true_iff_false, is_role_spec in Hx. destruct (update_role n f l) as [[l' b]|].
    + destruct IH as (l1 & r & l2 & -> & Hr & -> & ->). by exists (x :: l1), r, l2.
    + apply not_elem_of_cons. by split; [congruence|].
Qed.

Lemma remove_first_by_spec n l :
  match remove_first_by (is_role n) l with
  | Some l' => exists l1 r l2, l = l1 ++ r :: l2 /\ rules_node_id r = n /\ l' = l1 ++ l2
  | None => n ∉ map rules_node_id l
  end.
Proof.
  induction l as [|x l IH]; cbn [remove_first_by map]; [apply not_elem_of_nil|].
  destruct (is_role n x) eqn:Hx.
  - apply is_role_spec in Hx. by exists [], x, l.
  - rewrite <- not_true_iff_false, is_role_spec in Hx. destruct (remove_first_by _ l) as [l'|]; cbn.
    + destruct IH as (l1 & r & l2 & -> & Hr & ->). by exists (x :: l1), r, l2.
    + apply not_elem_of_cons. by split; [congruence|].
Qed.

Lemma contains_role_spec n s : contains_role n s = true <-> n ∈ map rules_node_id (roles s).
Proof.
  unfold contains_role. rewrite existsb_exists, list_elem_of_fmap. setoid_rewrite is_role_spec.
  setoid_rewrite <- list_elem_of_In. naive_solver.
Qed.

(** The resolver's lists hold the entries of the map, each once. *)
Record represents_roles (s : RoleResolver) (m : role_map) : Prop := {
  rr_listed : listed (roles s) (rm_roles m);
  rr_runtime n : n ∈ runtime_roles s <-> n ∈ rm_runtime m;
  rr_known n : n ∈ rm_runtime m -> n ∈ dom (rm_roles m)
}.

Lemma on_role_listed n (f : RoleRules -> RoleRules * bool) g s m :
  (forall r, rules_node_id (f r).1 = rules_node_id r /\ (f r).1 = g r) -> listed (roles s) m ->
  listed (roles (on_role n f s).1) (alter g n m) /\ runtime_roles (on_role n f s).1 = runtime_roles s.
Proof.
  intros Hf Hm. unfold on_role. pose proof (update_role_spec n f (roles s)) as Hu.
  destruct (update_role n f (roles s)) as [[l b]|]; cbn [fst roles runtime_roles]; (split; [|done]).
  - destruct Hu as (l1 & r & l2 & Hl & <- & -> & _). rewrite Hl in Hm. destruct (listed_split _ _ _ _ Hm) as (_ & _ & Hr).
    destruct (Hf r) as [Hid He]. replace (alter g (rules_node_id r) m) with (<[rules_node_id r := (f r).1]> m).
    + by apply listed_replace.
    + apply map_eq. intros k. destruct (decide (k = rules_node_id r)) as [->|Hk].
      * by rewrite lookup_insert_eq, lookup_alter_eq, Hr, He.
      * by rewrite lookup_insert_ne, lookup_alter_ne.
  - assert (m !! n = None) as Hn. { apply not_elem_of_dom. intros Hd. apply Hu. by apply (listed_dom (roles s) m). }
    replace (alter g n m) with m; [done|]. apply map_eq. intros k. destruct (decide (k = n)) as [->|Hk].
    + by rewrite lookup_alter_eq, Hn.
    + by rewrite lookup_alter_ne.
Qed.

Lemma dom_alter_sub (g : RoleRules -> RoleRules) n (m : gmap NodeId RoleRules) : dom (alter g n m) = dom m.
Proof. apply leibniz_equiv, dom_alter. Qed.

Lemma on_role_represents n f g s m :
  (forall r, rules_node_id (f r).1 = rules_node_id r /\ (f r).1 = g r) -> represents_roles s m ->
  represents_roles (on_role n f s).1 (mkRoleMap (alter g n (rm_roles m)) (rm_runtime m)).
Proof.
  intros Hf [Hl Hr Hk]. destruct (on_role_listed n f g s _ Hf Hl) as [Hl' Hr'].
  split; cbn [rm_roles rm_runtime]; [done|by rewrite Hr'|]. intros x Hx%Hk. by rewrite dom_alter_sub.
Qed.

Lemma add_mapping_on_role n x s : contains_role n s = true ->
  add_mapping n x s = (on_role n (fun r => (role_change (RoAddMapping n x) r, true)) s).1.
Proof.
  rewrite contains_role_spec. intros Hn. unfold add_mapping, on_role.
  assert (forall l, match update_role n (fun r => (role_change (RoAddMapping n x) r, tt)) l with Some (l', _) => Some l' | None => None end
    = match update_role n (fun r => (role_change (RoAddMapping n x) r, true)) l with Some (l', _) => Some l' | None => None end) as He.
  { induction l as [|r l IH]; cbn [update_role]; [done|]. destruct (is_role n r); [done|].
    destruct (update_role n _ l) as [[]|], (update_role n (fun r => (_, true)) l) as [[]|]; naive_solver. }
  specialize (He (roles s)). pose proof (update_role_spec n (fun r => (role_change (RoAddMapping n x) r, true)) (roles s)) as Hu.
  unfold role_change in *.
  destruct (update_role n _ (roles s)) as [[]|], (update_role n (fun r => (_, true)) (roles s)) as [[]|]; naive_solver.
Qed.

Lemma exec_role_op_represents o s m : represents_roles s m -> represents_roles (exec_role_op o s) (spec_role_op o m).
Proof.
  intros HR. pose proof HR as [Hl Hr Hk]. destruct o as [n|n|n x|n x|n u|n u|n u|n u]; cbn [exec_role_op spec_role_op].
  - unfold register_role. assert (forall k, k ∈ push_unique (runtime_roles s) n <-> k ∈ {[n]} ∪ rm_runtime m) as Hp.
    { intros k. rewrite push_unique_elem, Hr. set_solver. }
    destruct (contains_role n s) eqn:Hc; case_decide as Hd.
    + split; cbn; [done|done|]. set_solver.
    + apply contains_role_spec, (listed_dom _ _ _ Hl) in Hc. done.
    + apply (listed_dom _ _ _ Hl), contains_role_spec in Hd. congruence.
    + split; cbn; [by apply (listed_add _ _ (rules_new n []))|done|]. intros k. rewrite dom_insert. set_solver.
  - unfold remove_role, is_runtime_role. case_bool_decide as Hn; cbn [negb fst].
    + apply Hr in Hn as Hn'. rewrite decide_True by done. pose proof (remove_first_by_spec n (roles s)) as Hs.
      destruct (remove_first_by (is_role n) (roles s)) as [l|]; cbn [fst].
      * destruct Hs as (l1 & r & l2 & Hrs & <- & ->). rewrite Hrs in Hl. split; cbn; [by apply listed_remove| |].
        -- intros k. rewrite list_elem_of_In, filter_In, <- list_elem_of_In, Hr, negb_true_iff, bool_decide_eq_false.
           set_solver.
        -- intros k. rewrite dom_delete. set_solver.
      * destruct Hs. by apply (listed_dom _ _ _ Hl), Hk.
    + rewrite decide_False by (by rewrite <- Hr). done.
  - destruct (contains_role n s) eqn:Hc; case_decide as Hd.
    + rewrite add_mapping_on_role by done. by apply on_role_represents.
    + apply contains_role_spec, (listed_dom _ _ _ Hl) in Hc. done.
    + apply (listed_dom _ _ _ Hl), contains_role_spec in Hd. congruence.
    + unfold add_mapping. pose proof (update_role_spec n (fun r => (role_change (RoAddMapping n x) r, tt)) (roles s)) as Hu.
      unfold role_change in Hu. destruct (update_role n _ (roles s)) as [[]|].
      * destruct Hu as (l1 & r & l2 & Hrs & Hid & _). destruct Hd. apply (listed_dom _ _ _ Hl). rewrite Hrs, <- Hid, map_app. set_solver.
      * split; cbn; [by apply (listed_add _ _ (rules_new n [x]))|done|]. intros k. rewrite dom_insert. set_solver.
  - apply on_role_represents; [|done]. intros r. cbn. by destruct (remove_first x (identity_rules r)), r.
  - apply on_role_represents; [|done]. intros r. cbn. by destruct (filter_add u (applications r)).
  - apply on_role_represents; [|done]. intros r. cbn. by destruct (filter_remove u (applications r)).
  - apply on_role_represents; [|done]. intros r. cbn. by destruct (filter_add u (endpoints r)).
  - apply on_role_represents; [|done]. intros r. cbn. by destruct (filter_remove u (endpoints r)).
Qed.

(** ** The configured resolver *)

(** The operations that the configured users amount to. *)
Definition token_ops (l : list ServerUserToken) : list RoleOp :=
  concat (map (fun t => match user_token_rule t with
                        | Some rule => map (fun r => RoAddMapping r rule) (user_token_roles t)
                        | None => []
                        end) l).
Definition exec_role_ops (l : list RoleOp) (s : RoleResolver) : RoleResolver := fold_left (fun s o => exec_role_op o s) l s.
Definition spec_role_ops (l : list RoleOp) (m : role_map) : role_map := fold_left (fun m o => spec_role_op o m) l m.

Lemma exec_role_ops_app l1 l2 s : exec_role_ops (l1 ++ l2) s = exec_role_ops l2 (exec_role_ops l1 s).
Proof. apply fold_left_app. Qed.

Lemma from_user_tokens_ops l : from_user_tokens l = exec_role_ops (token_ops l) resolver_default.
Proof.
  unfold from_user_tokens. generalize resolver_default as s. induction l as [|t l IH]; intros s; [done|].
  unfold token_ops in *. cbn [map concat List.filter]. rewrite exec_role_ops_app, <- IH.
  assert (forall rule, fold_left (fun s r => add_mapping r rule s) (user_token_roles t) s
    = exec_role_ops (map (fun r => RoAddMapping r rule) (user_token_roles t)) s) as He.
  { intros rule. generalize (user_token_roles t) as k, s. clear. induction k as [|r k IHk]; intros s; [done|]. cbn. apply IHk. }
  case_bool_decide as Hr; cbn [negb fold_left].
  - rewrite Hr. by destruct (user_token_rule t).
  - by destruct (user_token_rule t); [rewrite He|].
Qed.

Definition role_map_default : role_map :=
  mkRoleMap (list_to_map (map (fun r => (rules_node_id r, r)) (roles resolver_default))) ∅.

Lemma default_represents : represents_roles resolver_default role_map_default.
Proof.
  assert (NoDup (map rules_node_id (roles resolver_default))) as Hn by (apply (bool_decide_unpack _); vm_compute; exact I).
  split; [split; [done|]|..]; cbn [runtime_roles rm_roles rm_runtime resolver_default role_map_default].
  - assert (forall n r, (list_to_map (map (fun r => (rules_node_id r, r)) (roles resolver_default)) : gmap NodeId RoleRules) !! n = Some r
      <-> r ∈ roles resolver_default /\ rules_node_id r = n) as Hm.
    { intros n r. rewrite <- elem_of_list_to_map.
      - rewrite list_elem_of_fmap. naive_solver.
      - by rewrite <- list_fmap_compose. }
    split; intros; rewrite ?Hm; [tauto|]. by apply Hm in H as [_ ?].
  - set_solver.
  - set_solver.
Qed.

Lemma exec_role_ops_represents l : forall s m, represents_roles s m -> represents_roles (exec_role_ops l s) (spec_role_ops l m).
Proof. induction l as [|o l IH]; intros s m H; [done|]. by apply IH, exec_role_op_represents. Qed.

Lemma represents_accepted s m i r : represents_roles s m ->
  accepted s i r <-> exists rr, rm_roles m !! r = Some rr /\ rules_accept rr i = true.
Proof.
  intros [(_ & Hl & Hi) _ _]. unfold accepted, accepts_for. rewrite Exists_exists. split.
  - intros (rr & Hrr%Hl & <- & Ha). eauto.
  - intros (rr & Hrr & Ha). pose proof (Hi _ _ Hrr). subst r. apply Hl in Hrr. eauto.
Qed.

(** C35: role management refines a map.  After configuring the users and any sequence of role
    operations, an identity is granted exactly the roles whose entry in the map (updated by the
    operations one entry at a time) has a matching rule and filters that allow the application and the
    endpoint; each role once, AuthenticatedUser last; the roles that can be removed are those
    registered at run time. *)
Theorem resolve_refines_map tokens ops i :
  let s := exec_role_ops ops (from_user_tokens tokens) in
  let m := spec_role_ops (token_ops tokens ++ ops) role_map_default in
  NoDup (resolve s i)
  /\ (forall r, r ∈ resolve s i <-> exists rr, rm_roles m !! r = Some rr /\ rules_accept rr i = true)
  /\ (role_node_id WkrAuthenticatedUser ∈ resolve s i -> last (resolve s i) = Some (role_node_id WkrAuthenticatedUser))
  /\ (forall r, (remove_role r s).2 = true <-> r ∈ rm_runtime m).
Proof.
  cbn zeta. rewrite from_user_tokens_ops, <- exec_role_ops_app.
  pose proof (exec_role_ops_represents (token_ops tokens ++ ops) _ _ default_represents) as HR.
  revert HR. generalize (exec_role_ops (token_ops tokens ++ ops) resolver_default) as s,
    (spec_role_ops (token_ops tokens ++ ops) role_map_default) as m. intros s m HR.
  destruct (resolve_spec s i) as (H1 & H2 & H3). split; [done|]. split; [|split; [done|]].
  - intros r. rewrite H2. by apply represents_accepted.
  - intros r. destruct HR as [Hl Hr Hk]. unfold remove_role, is_runtime_role. rewrite <- Hr.
    case_bool_decide as Hn; cbn [negb]; [|naive_solver]. pose proof (remove_first_by_spec r (roles s)) as Hs.
    destruct (remove_first_by _ _); [done|]. destruct Hs. by apply (listed_dom _ _ _ Hl), Hk, Hr.
Qed.

(** ** An anonymous session under the secure preset *)

(** A rule that accepts no anonymous user, whatever the application. *)
Definition names_a_user (r : IdentityMappingRule) : Prop := match r with ImrUserName _ | ImrThumbprint _ => True | _ => False end.
Lemma user_token_rule_names t rule : user_token_rule t = Some rule -> names_a_user rule.
Proof. unfold user_token_rule. destruct (x509 t), (thumbprint t); by intros [= <-]. Qed.

Definition anonymous_only (i : ResolvedIdentity) (s : RoleResolver) : Prop :=
  (forall rr, rr ∈ roles s -> rules_accept rr i = bool_decide (rules_node_id rr = role_node_id WkrAnonymous))
  /\ role_node_id WkrAnonymous ∈ map rules_node_id (roles s).

Lemma add_mapping_anonymous i s r rule : kind i = RikAnonymous -> names_a_user rule -> anonymous_only i s ->
  anonymous_only i (add_mapping r rule s).
Proof.
  intros Hi Hr [Ha Hin]. assert (matches_rule rule i = false) as Hm by (unfold matches_rule; rewrite Hi; by destruct rule).
  unfold add_mapping. match goal with |- context [update_role r ?f _] => pose proof (update_role_spec r f (roles s)) as Hu end.
  destruct (update_role r _ (roles s)) as [[l b]|]; unfold anonymous_only; cbn [roles].
  - destruct Hu as (l1 & x & l2 & Hl & Hx & -> & _). rewrite Hl in *. split.
    + intros rr. rewrite elem_of_app, elem_of_cons. intros [H|[->|H]]; [apply Ha; set_solver| |apply Ha; set_solver].
      cbn [rules_node_id fst]. rewrite <- (Ha x) by set_solver. unfold rules_accept. cbn. by rewrite existsb_app; cbn; rewrite Hm, !orb_false_r.
    + by rewrite map_app in *.
  - split; [|rewrite map_app; set_solver]. intros rr. rewrite elem_of_app, list_elem_of_singleton. intros [H| ->]; [by apply Ha|].
    unfold rules_accept, rules_new. cbn. rewrite Hm. cbn. symmetry. apply bool_decide_eq_false. congruence.
Qed.

Lemma token_ops_anonymous i tokens : kind i = RikAnonymous -> forall s, anonymous_only i s ->
  anonymous_only i (exec_role_ops (token_ops tokens) s).
Proof.
  intros Hi. induction tokens as [|t l IH]; intros s Hs; [done|]. unfold token_ops in *. cbn [map concat].
  rewrite exec_role_ops_app. apply IH. destruct (user_token_rule t) as [rule|] eqn:Ht; [|done].
  apply user_token_rule_names in Ht. revert s Hs. generalize (user_token_roles t) as k.
  induction k as [|r k IHk]; intros s Hs; [done|]. apply IHk. by apply add_mapping_anonymous.
Qed.

Lemma resolver_default_anonymous i : kind i = RikAnonymous -> anonymous_only i resolver_default.
Proof.
  destruct i as [k app url]. cbn. intros ->. split; [|cbn; set_solver]. intros rr. cbn [roles resolver_default]. intros Hr.
  apply list_elem_of_fmap in Hr as (w & -> & _). by destruct w.
Qed.

Lemma anonymous_roles i tokens : kind i = RikAnonymous -> resolve (from_user_tokens tokens) i = [role_node_id WkrAnonymous].
Proof.
  intros Hi. rewrite from_user_tokens_ops. pose proof (token_ops_anonymous i tokens Hi _ (resolver_default_anonymous i Hi)) as [Ha Hin].
  set (s := exec_role_ops _ _) in *. destruct (resolve_spec s i) as (Hn & He & _).
  assert (forall r, r ∈ resolve s i <-> r ∈ [role_node_id WkrAnonymous]) as Hr.
  { intros r. rewrite He, list_elem_of_singleton. unfold accepted, accepts_for. rewrite Exists_exists. split.
    - intros (rr & Hrr & <- & Hacc). rewrite (Ha _ Hrr) in Hacc. by apply bool_decide_eq_true in Hacc.
    - intros ->. apply list_elem_of_fmap in Hin as (rr & Hid & Hrr). exists rr. split; [done|]. split; [done|].
      rewrite (Ha _ Hrr). by apply bool_decide_eq_true. }
  apply Permutation_singleton_r. apply NoDup_Permutation; [done|apply NoDup_singleton|done].
Qed.

Section preset.
Context {D : DynEncodable}.

(** What an anonymous session may do under the secure preset.  Whatever users are configured, an
    anonymous activation resolves to the role Anonymous alone; with enforcement and the preset as the
    default of the node's namespace, the session is permitted exactly Browse, Read and
    ReadRolePermissions on a node without permissions of its own, and can write no attribute of it. *)
Theorem anonymous_secure_preset tokens claims app url i c n d
    (Hi : resolved_identity_from_activation ItAnonymous claims app url = Ok i)
    (Hc : user_roles c = resolve (from_user_tokens tokens) i)
    (He : enforce_role_based_access c = true)
    (Hn : role_permissions (node_base n) = None)
    (Hd : namespace_defaults c !! namespace (node_id_of n) = Some d)
    (Hs : default_role_permissions d = Some secure_well_known_permissions) :
  user_roles c = [role_node_id WkrAnonymous]
  /\ (forall required, authorize_ctx c n required = contains anonymous_permissions required)
  /\ forall a, is_writable c n a <> Ok tt.
Proof.
  injection Hi as <-. rewrite anonymous_roles in Hc by done. split; [done|].
  assert (forall required, authorize_ctx c n required = contains anonymous_permissions required) as Ha.
  { intros required. unfold authorize_ctx, authorize_with_enforcement, effective_role_permissions, ns_role_permissions.
    rewrite He, Hn, Hd. cbn [negb option_bind mbind]. rewrite Hs, Hc. by replace (granted _ _) with anonymous_permissions by reflexivity. }
  split; [done|]. intros a Ho. unfold is_writable in Ho. rewrite !Ha in Ho.
  replace (contains anonymous_permissions (permission_for_write_attribute a)) with false in Ho by (by destruct a).
  destruct (validate_write_access c) as [[]|]; [|done]. cbn [result_bind] in Ho.
  destruct (access_restrictions_ok_ctx c n) as [[]|]; cbn [result_bind] in Ho;
    destruct n, a; cbn in Ho; try done; repeat (case_match; try done).
Qed.
End preset.

(** ** Witness *)

Definition anonymous_identity : ResolvedIdentity := mkIdentity RikAnonymous None None.
Definition bob : ServerUserToken := mkUserToken [98; 111; 98] None None [role_node_id WkrOperator].
Definition secure_context : RequestContext :=
  mkContext (resolve (from_user_tokens [bob]) anonymous_identity) true
    {[1 := mkNsDefault (Some secure_well_known_permissions) None]} MsmNone None (fun level _ => level) false.

Lemma anonymous_secure_preset_witness :
  user_roles secure_context = [role_node_id WkrAnonymous]
  /\ (forall required, @authorize_ctx no_dyn secure_context (@example_object no_dyn None) required = contains anonymous_permissions required)
  /\ forall a, @is_writable no_dyn secure_context (@example_object no_dyn None) a <> Ok tt.
Proof.
  apply (@anonymous_secure_preset no_dyn [bob] None None None anonymous_identity secure_context (example_object None)
    (mkNsDefault (Some secure_well_known_permissions) None)); reflexivity.
Defined.
