(* ===== verification/AddressSpace.v ===== *)
(** * The address space

    [AddressSpace] of server/src/address_space/mod.rs: the nodes, their references, the namespaces and
    the browse name index; and TranslateBrowsePathsToNodeIds of one node manager
    (server/src/node_manager/memory/manager/browse.rs).

    Theorems: the operations keep the space well formed and act on the set of references; the index
    answers what a search through the references answers, so a translated path reaches exactly the
    nodes that match it; and a path that is translated while another request invalidates the index
    panics. *)

From S2P Require Import Prelude Text StatusCode Variant References TypeTree Nodes.
From Stdlib Require Import FunctionalExtensionality.
#[local] Open Scope Z_scope.

(** ** State *)

(** The index: the children of a node with a browse name. *)
Abbreviation BrowseNameIndex := (gmap (NodeId * QualifiedName) (list NodeId)).

Record AddressSpace {D : DynEncodable} := mkSpace {
  node_map : gmap NodeId NodeType;
  references : References;
  browse_name_index : option BrowseNameIndex;
  space_namespaces : gmap Z rstr
}.
Arguments mkSpace {D}.

(** A node of a node set with its references. *)
Record ImportedItem {D : DynEncodable} := mkImported { imported_node : NodeType; imported_references : list ImportedReference }.
Arguments mkImported {D}.

(** A result of a translation: the node, its depth and the name still to be matched. *)
Abbreviation found := (NodeId * nat * option QualifiedName)%type.

Section space.
Context {D : DynEncodable} {M : Moka} {O : RefOrder} {C : ChildOrder}.

Definition space_new : AddressSpace := mkSpace ∅ references_new None ∅.

Definition set_references (r : References) (s : AddressSpace) : AddressSpace :=
  mkSpace (node_map s) r (browse_name_index s) (space_namespaces s).
Definition set_index (i : option BrowseNameIndex) (s : AddressSpace) : AddressSpace :=
  mkSpace (node_map s) (references s) i (space_namespaces s).
Definition put_node (n : NodeType) (s : AddressSpace) : AddressSpace :=
  mkSpace (<[node_id_of n := n]> (node_map s)) (references s) (browse_name_index s) (space_namespaces s).

(** ** Operations *)

Definition space_add_namespace (ns : rstr) (index : Z) (s : AddressSpace) : AddressSpace :=
  mkSpace (node_map s) (references s) (browse_name_index s) (<[index := ns]> (space_namespaces s)).
Definition namespace_exists (index : Z) (s : AddressSpace) : bool := is_some (space_namespaces s !! index).
Definition assert_namespace (n : NodeId) (s : AddressSpace) : outcome unit :=
  if namespace_exists (namespace n) s then Ret tt else Panic.

Definition find_node (n : NodeId) (s : AddressSpace) : option NodeType := node_map s !! n.
Definition node_exists (n : NodeId) (s : AddressSpace) : bool := is_some (node_map s !! n).

(** [insert]: nothing changes when the node exists. *)
Definition insert (n : NodeType) (refs : option (list (NodeId * NodeId * ReferenceDirection))) (s : AddressSpace)
    : outcome (AddressSpace * bool) :=
  let! _ := assert_namespace (node_id_of n) s in
  if node_exists (node_id_of n) s then Ret (s, false)
  else
    let! r := match refs with Some l => refs_insert (node_id_of n) l (references s) | None => Ret (references s) end in
    Ret (put_node n (set_references r s), true).

Fixpoint import_references (id : NodeId) (l : list ImportedReference) (r : References) : outcome References :=
  match l with [] => Ret r | rf :: l' => let! r := import_reference id rf r in import_references id l' r end.
Definition import_node (i : ImportedItem) (s : AddressSpace) : outcome (AddressSpace * bool) :=
  let id := node_id_of (imported_node i) in
  let! _ := assert_namespace id s in
  if node_exists id s then Ret (s, false)
  else
    let! r := import_references id (imported_references i) (references s) in
    Ret (put_node (imported_node i) (set_references r s), true).

Definition space_insert_reference (source target rtype : NodeId) (s : AddressSpace) : outcome AddressSpace :=
  let! r := insert_reference source target rtype (references s) in Ret (set_references r s).
Definition space_delete_reference (source target rtype : NodeId) (s : AddressSpace) : AddressSpace * bool :=
  let '(r, b) := delete_reference source target rtype (references s) in (set_references r s, b).
Definition space_delete_node_references (n : NodeId) (targets : bool) (s : AddressSpace) : AddressSpace * bool :=
  let '(r, b) := delete_node_references n targets (references s) in (set_references r s, b).
Definition space_has_reference (source target rtype : NodeId) (s : AddressSpace) : bool :=
  has_reference source target rtype (references s).

Definition delete (n : NodeId) (targets : bool) (s : AddressSpace) : AddressSpace * option NodeType :=
  let node := node_map s !! n in
  let s := mkSpace (base.delete n (node_map s)) (references s) (browse_name_index s) (space_namespaces s) in
  ((space_delete_node_references n targets s).1, node).

(** [find_references]: the type tree is asked, and its cache changes, only when subtypes count. *)
Definition ref_matches (filter : option (NodeId * bool)) (rtype : NodeId) (t : DefaultTypeTree) : outcome (DefaultTypeTree * bool) :=
  match filter with
  | None => Ret (t, true)
  | Some (f, false) => Ret (t, bool_decide (rtype = f))
  | Some (f, true) => is_subtype_of rtype f t
  end.
Fixpoint filter_refs (filter : option (NodeId * bool)) (l : list ReferenceRef) (t : DefaultTypeTree)
    : outcome (DefaultTypeTree * list ReferenceRef) :=
  match l with
  | [] => Ret (t, [])
  | r :: l' =>
      let! (t, m) := ref_matches filter (ref_type r) t in
      let! (t, l'') := filter_refs filter l' t in
      Ret (t, if m then r :: l'' else l'')
  end.
(** The references at a node, in the order of the tables. *)
Definition all_refs (n : NodeId) (d : BrowseDirection) (s : AddressSpace) : list ReferenceRef :=
  find_references n None (fun _ _ => true) d (references s).
Definition space_find_references (n : NodeId) (filter : option (NodeId * bool)) (d : BrowseDirection) (s : AddressSpace)
    (t : DefaultTypeTree) : outcome (DefaultTypeTree * list ReferenceRef) :=
  filter_refs filter (all_refs n d s) t.

(** The first reference in the list to a node with the name. *)
Definition named (name : QualifiedName) (n : NodeType) : bool := bool_decide (node_name n = name).
Fixpoint first_named (name : QualifiedName) (l : list ReferenceRef) (s : AddressSpace) : option NodeType :=
  match l with
  | [] => None
  | r :: l' =>
      match find_node (ref_target r) s with
      | Some n => if named name n then Some n else first_named name l' s
      | None => first_named name l' s
      end
  end.
Definition find_node_by_browse_name (source : NodeId) (filter : option (NodeId * bool)) (d : BrowseDirection)
    (name : QualifiedName) (s : AddressSpace) (t : DefaultTypeTree) : outcome (DefaultTypeTree * option NodeType) :=
  let! (t, l) := space_find_references source filter d s t in Ret (t, first_named name l s).

Fixpoint find_along (current : NodeId) (n : NodeType) (filter : option (NodeId * bool)) (d : BrowseDirection)
    (path : list QualifiedName) (s : AddressSpace) (t : DefaultTypeTree) : outcome (DefaultTypeTree * option NodeType) :=
  match path with
  | [] => Ret (t, Some n)
  | e :: path' =>
      let! (t, child) := find_node_by_browse_name current filter d e s t in
      match child with
      | Some c => find_along (node_id_of c) c filter d path' s t
      | None => Ret (t, None)
      end
  end.
Definition find_node_by_browse_path (source : NodeId) (filter : option (NodeId * bool)) (d : BrowseDirection)
    (path : list QualifiedName) (s : AddressSpace) (t : DefaultTypeTree) : outcome (DefaultTypeTree * option NodeType) :=
  match find_node source s with
  | Some n => find_along source n filter d path s t
  | None => Ret (t, None)
  end.

(** *** The browse name index *)

(** The children of one node that are entered. *)
Definition index_reference (source : NodeId) (s : AddressSpace) (r : ReferenceRef) (i : BrowseNameIndex) : BrowseNameIndex :=
  if is_null_id (ref_target r) then i
  else match find_node (ref_target r) s with
       | Some n => <[(source, node_name n) := default [] (i !! (source, node_name n)) ++ [ref_target r]]> i
       | None => i
       end.
Definition index_node (s : AddressSpace) (source : NodeId) (i : BrowseNameIndex) : BrowseNameIndex :=
  fold_left (fun i r => index_reference source s r i) (all_refs source BdForward s) i.
(** An index that is there is kept. *)
Definition build_browse_name_index (s : AddressSpace) : AddressSpace :=
  let index := fold_left (fun i source => index_node s source i) (child_order (dom (node_map s))) ∅ in
  match browse_name_index s with
  | Some _ => s
  | None => set_index (Some index) s
  end.
Definition ensure_browse_name_index (s : AddressSpace) : AddressSpace :=
  match browse_name_index s with None => build_browse_name_index s | Some _ => s end.
Definition browse_name_index_is_built (s : AddressSpace) : bool := is_some (browse_name_index s).
Definition get_browse_name_index (s : AddressSpace) : outcome BrowseNameIndex := unwrap (browse_name_index s).
Definition invalidate_browse_name_index (s : AddressSpace) : AddressSpace := set_index None s.

(** ** TranslateBrowsePathsToNodeIds *)

Record RelativePathElement := mkElement {
  el_reference_type : NodeId; el_is_inverse : bool; el_include_subtypes : bool; el_target_name : QualifiedName }.
Record BrowsePathResultElement := mkFound { found_node : NodeId; found_depth : nat; found_unmatched : option QualifiedName }.
Record BrowsePathItem := mkPathItem {
  pi_node : NodeId;
  pi_depth : nat;
  pi_node_manager_index : Z;
  pi_path : list RelativePathElement;
  pi_results : list BrowsePathResultElement;
  pi_unmatched_browse_name : option QualifiedName
}.

Definition add_element (i : BrowsePathItem) (n : NodeId) (relative_depth : nat) (unmatched : option QualifiedName) : BrowsePathItem :=
  mkPathItem (pi_node i) (pi_depth i) (pi_node_manager_index i) (pi_path i)
    (pi_results i ++ [mkFound n (pi_depth i + relative_depth) unmatched]) (pi_unmatched_browse_name i).
Definition set_browse_name_matched (idx : Z) (i : BrowsePathItem) : BrowsePathItem :=
  mkPathItem (pi_node i) (pi_depth i) idx (pi_path i) (pi_results i) None.

Definition null_name : QualifiedName := {| namespace_index := 0; qname := None |}.

Section translate.
(** The address space and the namespaces of its node manager. *)
Variable s : AddressSpace.
Variable owned : gmap Z rstr.

(** The two loops over references: targets that are not nodes of the space are reported with the name
    still to be matched when they belong to another node manager. *)
Fixpoint scan_refs (depth : nat) (accept : NodeType -> bool) (unmatched : QualifiedName) (l : list ReferenceRef)
    (next : gset NodeId) (results : list found) : gset NodeId * list found :=
  match l with
  | [] => (next, results)
  | rf :: l' =>
      if bool_decide (ref_target rf ∈ next) then scan_refs depth accept unmatched l' next results
      else match find_node (ref_target rf) s with
           | None =>
               scan_refs depth accept unmatched l' next
                 (if negb (is_some (owned !! namespace (ref_target rf)))
                  then results ++ [(ref_target rf, depth, Some unmatched)] else results)
           | Some n =>
               if accept n
               then scan_refs depth accept unmatched l' ({[ref_target rf]} ∪ next) (results ++ [(ref_target rf, depth, None)])
               else scan_refs depth accept unmatched l' next results
           end
  end.

(** The loop over the entries of the index. *)
Fixpoint scan_candidates (depth : nat) (l : list NodeId) (next : gset NodeId) (results : list found) : gset NodeId * list found :=
  match l with
  | [] => (next, results)
  | n :: l' =>
      if bool_decide (n ∈ next) then scan_candidates depth l' next results
      else scan_candidates depth l' ({[n]} ∪ next) (results ++ [(n, depth, None)])
  end.

Definition element_filter (e : RelativePathElement) : option (NodeId * bool) :=
  if is_null_id (el_reference_type e) then None else Some (el_reference_type e, el_include_subtypes e).
Definition element_direction (e : RelativePathElement) : BrowseDirection := if el_is_inverse e then BdInverse else BdForward.

(** One node of the layer. *)
Definition translate_node (index : BrowseNameIndex) (depth : nat) (e : RelativePathElement) (n : NodeId) (next : gset NodeId)
    (results : list found) (t : DefaultTypeTree) : outcome (DefaultTypeTree * (gset NodeId * list found)) :=
  if is_null_name (el_target_name e) then
    let! (t, l) := space_find_references n (element_filter e) (element_direction e) s t in
    Ret (t, scan_refs depth (fun _ => true) null_name l next results)
  else if el_is_inverse e || is_some (element_filter e) then
    let! (t, l) := space_find_references n (element_filter e) (element_direction e) s t in
    Ret (t, scan_refs depth (named (el_target_name e)) (el_target_name e) l next results)
  else Ret (t, scan_candidates depth (default [] (index !! (n, el_target_name e))) next results).

Fixpoint translate_layer (index : BrowseNameIndex) (depth : nat) (e : RelativePathElement) (l : list NodeId)
    (next : gset NodeId) (results : list found) (t : DefaultTypeTree) : outcome (DefaultTypeTree * (gset NodeId * list found)) :=
  match l with
  | [] => Ret (t, (next, results))
  | n :: l' =>
      let! (t, x) := translate_node index depth e n next results t in
      let '(next, results) := x in
      translate_layer index depth e l' next results t
  end.

Fixpoint translate_path (index : BrowseNameIndex) (depth : nat) (path : list RelativePathElement) (matching : gset NodeId)
    (results : list found) (t : DefaultTypeTree) : outcome (DefaultTypeTree * list found) :=
  match path with
  | [] => Ret (t, results)
  | e :: path' =>
      let! (t, x) := translate_layer index (S depth) e (child_order matching) ∅ results t in
      let '(matching, results) := x in
      translate_path index (S depth) path' matching results t
  end.

(** [translate_browse_paths] of node manager [idx]. *)
Definition translate_browse_paths (idx : Z) (item : BrowsePathItem) (t : DefaultTypeTree) : outcome (DefaultTypeTree * BrowsePathItem) :=
  let search (item : BrowsePathItem) :=
    let! index := get_browse_name_index s in
    let! (t, results) := translate_path index 0 (pi_path item) {[pi_node item]} [] t in
    Ret (t, fold_left (fun i r => let '(n, d, u) := r in add_element i n d u) results item) in
  match pi_unmatched_browse_name item with
  | None => search item
  | Some name =>
      match find_node (pi_node item) s with
      | Some n => if is_null_name name || named name n then search (set_browse_name_matched idx item) else Ret (t, item)
      | None => Ret (t, item)
      end
  end.

End translate.

(** The service call in its two critical sections; other requests run between them. *)
Definition translate_service (other_requests : AddressSpace -> AddressSpace) (owned : gmap Z rstr) (idx : Z) (item : BrowsePathItem)
    (s : AddressSpace) (t : DefaultTypeTree) : outcome (DefaultTypeTree * BrowsePathItem) :=
  let s := ensure_browse_name_index s in
  translate_browse_paths (other_requests s) owned idx item t.

(** ** Searching the references *)

(** What the type tree answers. *)
Definition answers (t : DefaultTypeTree) (c a : NodeId) : bool := default false (subtype_loop (subtype_fuel t) t a c).

Lemma answers_set_cache cache t : answers (set_subtype_cache cache t) = answers t.
Proof.
  assert (forall fuel a n, subtype_loop fuel (set_subtype_cache cache t) a n = subtype_loop fuel t a n) as Hl.
  { induction fuel as [|fuel IH]; intros a n; cbn [subtype_loop]; [done|]. case_bool_decide; [done|].
    change (nodes (set_subtype_cache cache t)) with (nodes t). change (subtypes_by_target (set_subtype_cache cache t)) with (subtypes_by_target t).
    destruct (nodes t !! n); [|done]. destruct (negb _); [done|]. by destruct (subtypes_by_target t !! n). }
  apply functional_extensionality. intros c. apply functional_extensionality. intros a. unfold answers. by rewrite Hl.
Qed.
Lemma answers_subtype t c a : acyclic t -> answers t c a = true <-> subtype t c a.
Proof.
  intros Ha. unfold answers. destruct (subtype_loop_enough t a c Ha) as [b Hb]. rewrite Hb. by apply subtype_loop_sound in Hb.
Qed.

Lemma answer_of t c a b : acyclic t -> (b = true <-> subtype t c a) -> b = answers t c a.
Proof. intros Ha Hb. apply Bool.eq_true_iff_eq. by rewrite Hb, answers_subtype. Qed.

Lemma filter_refs_spec filter l : forall t, acyclic t -> cache_fresh t ->
  exists cache, filter_refs filter l t
    = Ret (set_subtype_cache cache t, List.filter (fun x => matches_filter (answers t) filter (ref_type x)) l)
  /\ cache_fresh (set_subtype_cache cache t).
Proof.
  assert (forall t, t = set_subtype_cache (subtype_cache t) t) as Hset by (by intros []).
  induction l as [|r l IH]; intros t Ha Hf; cbn [filter_refs List.filter].
  { exists (subtype_cache t). rewrite <- Hset. done. }
  assert (exists cache b, ref_matches filter (ref_type r) t = Ret (set_subtype_cache cache t, b)
    /\ b = matches_filter (answers t) filter (ref_type r) /\ cache_fresh (set_subtype_cache cache t)) as (cache & b & -> & Hb & Hf').
  { unfold ref_matches, matches_filter. destruct filter as [[f []]|].
    - destruct (is_subtype_of_spec t (ref_type r) f Ha Hf) as (t' & b & -> & Hb & Hf' & cache & ->).
      apply (answer_of t _ _ _ Ha) in Hb. exists cache, b. split; [done|]. split; [|done]. rewrite Hb.
      by destruct (answers t (ref_type r) f).
    - exists (subtype_cache t), (bool_decide (ref_type r = f)). rewrite <- Hset. by case_bool_decide.
    - exists (subtype_cache t), true. by rewrite <- Hset. }
  cbn [outcome_bind]. destruct (IH (set_subtype_cache cache t) Ha Hf') as (cache' & -> & Hf''). cbn [outcome_bind].
  exists cache'. split; [|done]. rewrite Hb. rewrite answers_set_cache.
  by destruct (matches_filter _ _ _).
Qed.

Lemma list_filter_true {A} (l : list A) : List.filter (fun _ => true) l = l.
Proof. induction l as [|x l IH]; cbn; [done|by rewrite IH]. Qed.

(** The references that match. *)
Definition refs_at (n : NodeId) (filter : option (NodeId * bool)) (d : BrowseDirection) (s : AddressSpace) (t : DefaultTypeTree)
    : list ReferenceRef := find_references n filter (answers t) d (references s).

Lemma space_find_references_spec n filter d s t : acyclic t -> cache_fresh t ->
  exists cache, space_find_references n filter d s t = Ret (set_subtype_cache cache t, refs_at n filter d s t)
    /\ cache_fresh (set_subtype_cache cache t).
Proof.
  intros Ha Hf. destruct (filter_refs_spec filter (all_refs n d s) t Ha Hf) as (cache & He & Hf'). exists cache. split; [|done].
  unfold space_find_references. rewrite He. unfold refs_at, all_refs, find_references.
  change (fun x : ReferenceRef => matches_filter (fun _ _ => true) None (ref_type x)) with (fun _ : ReferenceRef => true).
  by rewrite list_filter_true.
Qed.

(** Without subtypes the type tree is not asked. *)
Definition plain (filter : option (NodeId * bool)) : Prop := forall f, filter <> Some (f, true).
Lemma filter_refs_plain filter (Hp : plain filter) t : forall l,
  filter_refs filter l t = Ret (t, List.filter (fun x => matches_filter (answers t) filter (ref_type x)) l).
Proof.
  induction l as [|r l IH]; cbn [filter_refs List.filter]; [done|].
  assert (ref_matches filter (ref_type r) t = Ret (t, matches_filter (answers t) filter (ref_type r))) as ->.
  { unfold ref_matches, matches_filter. destruct filter as [[f []]|]; [by destruct (Hp f)| |done]. by case_bool_decide. }
  cbn [outcome_bind]. rewrite IH. cbn [outcome_bind]. by destruct (matches_filter _ _ _).
Qed.
Lemma space_find_references_plain n filter d s t : plain filter ->
  space_find_references n filter d s t = Ret (t, refs_at n filter d s t).
Proof.
  intros Hp. unfold space_find_references. rewrite filter_refs_plain by done. unfold refs_at, all_refs, find_references.
  change (fun x : ReferenceRef => matches_filter (fun _ _ => true) None (ref_type x)) with (fun _ : ReferenceRef => true).
  by rewrite list_filter_true.
Qed.

(** ** The index *)

(** The index holds the children by name, for the nodes of the space. *)
Definition index_ok (s : AddressSpace) (i : BrowseNameIndex) : Prop :=
  forall p name m, m ∈ default [] (i !! (p, name)) <->
    p ∈ dom (node_map s) /\ m <> null_id
    /\ (exists n, node_map s !! m = Some n /\ node_name n = name)
    /\ (exists r, r ∈ all_refs p BdForward s /\ ref_target r = m).

Definition index_valid (s : AddressSpace) : Prop :=
  match browse_name_index s with Some i => index_ok s i | None => True end.

Lemma is_null_id_spec n : is_null_id n = true <-> n = null_id.
Proof.
  unfold is_null_id, null_id, ns0. rewrite andb_true_iff, Z.eqb_eq, bool_decide_eq_true. destruct n as [ns i]. cbn.
  split; [by intros [-> ->]|by intros [= -> ->]].
Qed.

(** The entry of a reference. *)
Definition enters (s : AddressSpace) (p : NodeId) (name : QualifiedName) (m : NodeId) (r : ReferenceRef) : Prop :=
  ref_target r = m /\ m <> null_id /\ exists n, node_map s !! m = Some n /\ node_name n = name.

Lemma index_reference_elem s src r i p name m :
  m ∈ default [] (index_reference src s r i !! (p, name)) <-> m ∈ default [] (i !! (p, name)) \/ src = p /\ enters s p name m r.
Proof.
  unfold index_reference, enters, find_node. destruct (is_null_id (ref_target r)) eqn:Hn.
  { apply is_null_id_spec in Hn. naive_solver. }
  assert (ref_target r <> null_id) by (rewrite <- is_null_id_spec; congruence).
  destruct (node_map s !! ref_target r) as [x|] eqn:Hx; [|naive_solver].
  destruct (decide ((src, node_name x) = (p, name))) as [[= -> <-]|Hne].
  - rewrite lookup_insert_eq. cbn. rewrite elem_of_app, list_elem_of_singleton. naive_solver.
  - rewrite lookup_insert_ne by done. split; [tauto|]. intros [?|(He & Ht & _ & n & Hm & Hnm)]; [done|].
    destruct Hne. subst m. rewrite Hx in Hm. congruence.
Qed.

Lemma index_node_elem s src p name m : forall i,
  m ∈ default [] (index_node s src i !! (p, name)) <->
  m ∈ default [] (i !! (p, name)) \/ src = p /\ exists r, r ∈ all_refs p BdForward s /\ enters s p name m r.
Proof.
  unfold index_node. assert (forall l i, m ∈ default [] (fold_left (fun i r => index_reference src s r i) l i !! (p, name)) <->
    m ∈ default [] (i !! (p, name)) \/ src = p /\ exists r, r ∈ l /\ enters s p name m r) as Hf.
  { induction l as [|r l IH]; intros i; cbn [fold_left].
    - split; [by left|]. intros [?|(_ & r & Hr%elem_of_nil & _)]; done.
    - rewrite IH, index_reference_elem. setoid_rewrite elem_of_cons. naive_solver. }
  intros i. rewrite Hf. split; (intros [?|[-> ?]]; [by left|by right]).
Qed.

Lemma build_index_ok s : browse_name_index s = None -> exists i, build_browse_name_index s = set_index (Some i) s /\ index_ok s i.
Proof.
  intros Hi. unfold build_browse_name_index. rewrite Hi. eexists. split; [done|]. intros p name m.
  assert (forall l i, m ∈ default [] (fold_left (fun i src => index_node s src i) l i !! (p, name)) <->
    m ∈ default [] (i !! (p, name)) \/ p ∈ l /\ exists r, r ∈ all_refs p BdForward s /\ enters s p name m r) as Hf.
  { induction l as [|x l IH]; intros i; cbn [fold_left].
    - split; [by left|]. intros [?|[Hp%elem_of_nil _]]; done.
    - rewrite IH, index_node_elem, elem_of_cons. naive_solver. }
  rewrite Hf, lookup_empty. cbn. rewrite elem_of_nil, (child_order_perm (dom (node_map s))), elem_of_elements.
  unfold enters. naive_solver.
Qed.

Lemma ensure_index_valid s : index_valid s ->
  exists i, ensure_browse_name_index s = set_index (Some i) s /\ index_ok s i.
Proof.
  unfold index_valid, ensure_browse_name_index. destruct (browse_name_index s) as [i|] eqn:Hi.
  - intros Hok. exists i. split; [|done]. destruct s. cbn in *. by subst.
  - intros _. by apply build_index_ok.
Qed.

(** ** Translated paths *)

Section translation.
Variable s : AddressSpace.
Variable owned : gmap Z rstr.
Variable t0 : DefaultTypeTree.

(** The element is looked up in the index: forward, by name, of any reference type. *)
Definition uses_index (e : RelativePathElement) : Prop :=
  is_null_name (el_target_name e) = false /\ el_is_inverse e = false /\ element_filter e = None.
Definition accepts (e : RelativePathElement) (n : NodeType) : Prop :=
  is_null_name (el_target_name e) = true \/ node_name n = el_target_name e.
Definition candidate (e : RelativePathElement) (n m : NodeId) : Prop :=
  exists r, r ∈ refs_at n (element_filter e) (element_direction e) s t0 /\ ref_target r = m.

(** [m] is a node of the space that matches the element from [n]. *)
Definition matched (e : RelativePathElement) (n m : NodeId) : Prop :=
  candidate e n m /\ (exists x, node_map s !! m = Some x /\ accepts e x)
  /\ (uses_index e -> n ∈ dom (node_map s) /\ m <> null_id).
(** [m] belongs to another node manager, which must match the name. *)
Definition external (e : RelativePathElement) (n m : NodeId) : Prop :=
  ~ uses_index e /\ candidate e n m /\ node_map s !! m = None /\ owned !! namespace m = None.
Definition reported_name (e : RelativePathElement) : QualifiedName :=
  if is_null_name (el_target_name e) then null_name else el_target_name e.

Fixpoint reach (path : list RelativePathElement) (n m : NodeId) : Prop :=
  match path with [] => n = m | e :: path' => exists k, matched e n k /\ reach path' k m end.

(** What a part of the search adds to the layer and to the results. *)
Definition unique_matches (l : list found) : Prop := NoDup (List.filter (fun x => negb (is_some x.2)) l).
Definition scanned (depth : nat) (name : QualifiedName) (F X : NodeId -> Prop) (a b : gset NodeId * list found) : Prop :=
  exists R, b.2 = a.2 ++ R
    /\ (forall m, m ∈ b.1 <-> m ∈ a.1 \/ F m)
    /\ (forall m d, (m, d, None) ∈ R <-> d = depth /\ m ∈ b.1 /\ m ∉ a.1)
    /\ unique_matches R
    /\ (forall m d v, (m, d, Some v) ∈ R <-> d = depth /\ v = name /\ X m).

Lemma unique_matches_app l k : unique_matches l -> unique_matches k ->
  (forall m d, (m, d, None) ∈ l -> (m, d, None) ∈ k -> False) -> unique_matches (l ++ k).
Proof.
  unfold unique_matches. rewrite List.filter_app. intros Hl Hk Hd. apply NoDup_app. split; [done|]. split; [|done].
  intros [[m d] [u|]]; rewrite !list_elem_of_In, !filter_In, <- !list_elem_of_In; cbn; [by intros [_ ?]|].
  intros [Hm _] [Hm' _]. by eapply Hd.
Qed.

Lemma scanned_same depth name (F X : NodeId -> Prop) a :
  (forall m, F m -> m ∈ a.1) -> (forall m, ~ X m) -> scanned depth name F X a a.
Proof.
  intros HF HX. exists []. rewrite app_nil_r. split; [done|]. split; [naive_solver|]. split; [set_solver|].
  split; [constructor|]. set_solver.
Qed.

Lemma reported_trans depth name F X F' X' a b c : scanned depth name F X a b -> scanned depth name F' X' b c ->
  scanned depth name (fun m => F m \/ F' m) (fun m => X m \/ X' m) a c.
Proof.
  intros (R & Hr & Hn & Hm & Hu & Hx) (R' & Hr' & Hn' & Hm' & Hu' & Hx'). exists (R ++ R').
  split; [by rewrite Hr', Hr, app_assoc|]. split; [intros m; rewrite Hn', Hn; tauto|]. split; [|split].
  - intros m d. rewrite elem_of_app, Hm, Hm', Hn', Hn. destruct (decide (m ∈ a.1)); [tauto|].
    destruct (decide (m ∈ b.1)) as [Hb|Hb]; rewrite Hn in Hb; tauto.
  - apply unique_matches_app; [done|done|]. intros m d [_ [? _]]%Hm [_ [_ ?]]%Hm'. done.
  - intros m d v. rewrite elem_of_app, Hx, Hx'. tauto.
Qed.

Lemma scanned_ext depth name F X F' X' a b : (forall m, F m <-> F' m) -> (forall m, X m <-> X' m) ->
  scanned depth name F X a b -> scanned depth name F' X' a b.
Proof.
  intros HF HX (R & Hr & Hn & Hm & Hu & Hx). exists R. split; [done|].
  split; [intros m; by rewrite Hn, HF|]. split; [done|]. split; [done|]. intros m d v. by rewrite Hx, HX.
Qed.

(** One more match, one more external target. *)
Lemma scanned_match depth name n next results : n ∉ next ->
  scanned depth name (fun m => m = n) (fun _ => False) (next, results) ({[n]} ∪ next, results ++ [(n, depth, None)]).
Proof.
  intros Hn. exists [(n, depth, None)]. cbn. split; [done|]. split; [set_solver|]. split; [|split].
  - intros m d. rewrite list_elem_of_singleton. split; [intros [= -> ->]; set_solver|]. intros (-> & Hm & Hm').
    assert (m = n) by set_solver. by subst.
  - apply NoDup_singleton.
  - intros m d v. rewrite list_elem_of_singleton. naive_solver.
Qed.
Lemma scanned_external depth name n next results :
  scanned depth name (fun _ => False) (fun m => m = n) (next, results) (next, results ++ [(n, depth, Some name)]).
Proof.
  exists [(n, depth, Some name)]. cbn. split; [done|]. split; [tauto|]. split; [|split].
  - intros m d. rewrite list_elem_of_singleton. naive_solver.
  - constructor.
  - intros m d v. rewrite list_elem_of_singleton. naive_solver.
Qed.

Lemma scan_refs_spec depth accept name l : forall next results, (forall m, m ∈ next -> m ∈ dom (node_map s)) ->
  scanned depth name
    (fun m => (exists r, r ∈ l /\ ref_target r = m) /\ exists x, node_map s !! m = Some x /\ accept x = true)
    (fun m => (exists r, r ∈ l /\ ref_target r = m) /\ node_map s !! m = None /\ owned !! namespace m = None)
    (next, results) (scan_refs s owned depth accept name l next results).
Proof.
  induction l as [|r l IH]; intros next results Hdom; cbn [scan_refs].
  { apply scanned_same; intros m [(r & Hr%elem_of_nil & _) _]; done. }
  enough (exists a, (forall m, m ∈ a.1 -> m ∈ dom (node_map s))
    /\ scanned depth name (fun m => ref_target r = m /\ exists x, node_map s !! m = Some x /\ accept x = true)
         (fun m => ref_target r = m /\ node_map s !! m = None /\ owned !! namespace m = None) (next, results) a
    /\ scan_refs s owned depth accept name (r :: l) next results = scan_refs s owned depth accept name l a.1 a.2) as ([n' r'] & Hd & Hs & He).
  { cbn [scan_refs] in He. rewrite He. cbn in Hd |- *. eapply scanned_ext; [| |eapply reported_trans; [exact Hs|by apply IH]];
      intros m; setoid_rewrite elem_of_cons; naive_solver. }
  cbn [scan_refs]. unfold find_node. case_bool_decide as Hin.
  { exists (next, results). split; [done|]. split; [|done]. apply scanned_same; [by intros m [<- _]|].
    intros m (<- & Hm & _). apply Hdom, elem_of_dom in Hin as [x Hx]. congruence. }
  destruct (node_map s !! ref_target r) as [x|] eqn:Hx; [destruct (accept x) eqn:Ha|].
  - exists ({[ref_target r]} ∪ next, results ++ [(ref_target r, depth, None)]). cbn. split; [|split; [|done]].
    + intros m [->%elem_of_singleton|Hm]%elem_of_union; [by apply elem_of_dom|by apply Hdom].
    + eapply scanned_ext; [| |by apply scanned_match]; intros m; naive_solver.
  - exists (next, results). split; [done|]. split; [|done]. apply scanned_same; intros m; [|naive_solver].
    intros (<- & y & Hy & Hay). congruence.
  - destruct (is_some (owned !! namespace (ref_target r))) eqn:Ho; cbn [negb].
    + exists (next, results). split; [done|]. split; [|done]. apply scanned_same; intros m; [naive_solver|].
      intros (<- & _ & Hn). by rewrite Hn in Ho.
    + exists (next, results ++ [(ref_target r, depth, Some name)]). split; [done|]. split; [|done].
      assert (owned !! namespace (ref_target r) = None) by (by destruct (owned !! namespace (ref_target r))).
      eapply scanned_ext; [| |apply scanned_external]; intros m; naive_solver.
Qed.

Lemma scan_candidates_spec depth name l : forall next results,
  scanned depth name (fun m => m ∈ l) (fun _ => False) (next, results) (scan_candidates depth l next results).
Proof.
  induction l as [|n l IH]; intros next results; cbn [scan_candidates].
  { apply scanned_same; [set_solver|tauto]. }
  case_bool_decide as Hin.
  - eapply scanned_ext; [| |eapply reported_trans; [|apply IH]];
      [..|apply (scanned_same _ _ (fun m => m = n) (fun _ => False)); naive_solver]; intros m; rewrite ?elem_of_cons; tauto.
  - eapply scanned_ext; [| |eapply reported_trans; [by apply scanned_match|apply IH]]; intros m; rewrite ?elem_of_cons; tauto.
Qed.

Section with_index.
Variable index : BrowseNameIndex.
Hypothesis Hindex : index_ok s index.
Hypothesis Hacyclic : acyclic t0.

Lemma refs_at_set_cache n f d cache : refs_at n f d s (set_subtype_cache cache t0) = refs_at n f d s t0.
Proof. unfold refs_at. by rewrite answers_set_cache. Qed.

(** The tree during the search: only the cache differs. *)
Definition same_types (t : DefaultTypeTree) : Prop := (exists cache, t = set_subtype_cache cache t0) /\ cache_fresh t.

Lemma search_refs n f d t : same_types t -> exists t', space_find_references n f d s t = Ret (t', refs_at n f d s t0) /\ same_types t'.
Proof.
  intros [[cache ->] Hf]. destruct (space_find_references_spec n f d s (set_subtype_cache cache t0) Hacyclic Hf) as (c' & He & Hf').
  rewrite refs_at_set_cache in He. eexists. split; [exact He|]. split; [|done]. by exists c'.
Qed.

Lemma matched_dom e n m : matched e n m -> m ∈ dom (node_map s).
Proof. intros (_ & (x & Hx & _) & _). by apply elem_of_dom. Qed.

Lemma translate_node_spec depth e n next results t : same_types t -> (forall m, m ∈ next -> m ∈ dom (node_map s)) ->
  exists t' x, translate_node s owned index depth e n next results t = Ret (t', x) /\ same_types t'
    /\ scanned depth (reported_name e) (matched e n) (external e n) (next, results) x.
Proof.
  intros Ht Hd. unfold translate_node, reported_name, matched, external, accepts, uses_index.
  destruct (is_null_name (el_target_name e)) eqn:Hnull.
  - destruct (search_refs n (element_filter e) (element_direction e) t Ht) as (t' & -> & Ht'). cbn [outcome_bind].
    do 2 eexists. split; [done|]. split; [done|]. eapply scanned_ext; [| |by apply scan_refs_spec]; intros m; unfold candidate; naive_solver.
  - destruct (el_is_inverse e || is_some (element_filter e)) eqn:Hu.
    + destruct (search_refs n (element_filter e) (element_direction e) t Ht) as (t' & -> & Ht'). cbn [outcome_bind].
      assert (~ (false = false /\ el_is_inverse e = false /\ element_filter e = None)) as Hno.
      { intros (_ & H1 & H2). by rewrite H1, H2 in Hu. }
      do 2 eexists. split; [done|]. split; [done|]. eapply scanned_ext; [| |by apply scan_refs_spec]; intros m;
        unfold candidate, named; try setoid_rewrite bool_decide_eq_true; naive_solver.
    + apply orb_false_iff in Hu as [Hinv Hf]. assert (element_filter e = None) as Hnone by (by destruct (element_filter e)).
      do 2 eexists. split; [done|]. split; [done|]. eapply scanned_ext; [| |apply scan_candidates_spec]; intros m; [|naive_solver].
      rewrite (Hindex n (el_target_name e) m). unfold candidate, element_direction. rewrite Hinv, Hnone.
      assert (refs_at n None BdForward s t0 = all_refs n BdForward s) as ->.
      { unfold refs_at, all_refs, find_references. done. }
      naive_solver.
Qed.

Lemma translate_layer_spec depth e l : forall next results t, same_types t -> (forall m, m ∈ next -> m ∈ dom (node_map s)) ->
  exists t' x, translate_layer s owned index depth e l next results t = Ret (t', x) /\ same_types t'
    /\ scanned depth (reported_name e) (fun m => exists n, n ∈ l /\ matched e n m) (fun m => exists n, n ∈ l /\ external e n m)
         (next, results) x.
Proof.
  induction l as [|n l IH]; intros next results t Ht Hd; cbn [translate_layer].
  { do 2 eexists. split; [done|]. split; [done|]. apply scanned_same; intros m (n & Hn%elem_of_nil & _); done. }
  destruct (translate_node_spec depth e n next results t Ht Hd) as (t1 & [next1 results1] & -> & Ht1 & Hs1). cbn [outcome_bind].
  destruct (IH next1 results1 t1 Ht1) as (t2 & x & -> & Ht2 & Hs2).
  { destruct Hs1 as (_ & _ & Hn & _). intros m Hm%Hn. destruct Hm as [Hm|Hm]; [by apply Hd|by eapply matched_dom]. }
  do 2 eexists. split; [done|]. split; [done|].
  eapply scanned_ext; [| |by eapply reported_trans]; intros m; setoid_rewrite elem_of_cons; naive_solver.
Qed.

(** What the search of a path adds to the results. *)
Definition path_found (depth : nat) (path : list RelativePathElement) (from : gset NodeId) (R : list found) : Prop :=
  (forall m d, (m, d, None) ∈ R <->
     exists j n, (0 < j <= length path)%nat /\ d = (depth + j)%nat /\ n ∈ from /\ reach (take j path) n m)
  /\ unique_matches R
  /\ (forall m d v, (m, d, Some v) ∈ R <->
        exists j n k e, path !! j = Some e /\ d = (depth + S j)%nat /\ n ∈ from /\ reach (take j path) n k
                        /\ external e k m /\ v = reported_name e).

Lemma translate_path_spec path : forall depth matching results t, same_types t ->
  exists t' R, translate_path s owned index depth path matching results t = Ret (t', results ++ R) /\ same_types t'
    /\ path_found depth path matching R.
Proof.
  induction path as [|e path IH]; intros depth matching results t Ht; cbn [translate_path].
  { exists t, []. rewrite app_nil_r. split; [done|]. split; [done|]. split; [|split].
    - intros m d. rewrite elem_of_nil. cbn. split; [done|]. intros (j & n & Hj & _). lia.
    - constructor.
    - intros m d v. rewrite elem_of_nil. split; [done|]. intros (j & n & k & e & He & _). by rewrite lookup_nil in He. }
  destruct (translate_layer_spec (S depth) e (child_order matching) ∅ results t Ht) as (t1 & [next r1] & -> & Ht1 & Hs).
  { set_solver. }
  cbn [outcome_bind]. destruct Hs as (R1 & Hr1 & Hn & Hm & Hu & Hx). cbn [fst snd] in *. cbn beta in *. subst r1.
  assert (forall k, k ∈ child_order matching <-> k ∈ matching) as Hord.
  { intros k. rewrite (child_order_perm matching). apply elem_of_elements. }
  assert (forall m, (exists n, n ∈ child_order matching /\ matched e n m) <-> exists n, n ∈ matching /\ matched e n m) as Hm1.
  { intros m. by setoid_rewrite Hord. }
  assert (forall m, (exists n, n ∈ child_order matching /\ external e n m) <-> exists n, n ∈ matching /\ external e n m) as Hx1.
  { intros m. by setoid_rewrite Hord. }
  setoid_rewrite Hm1 in Hn. setoid_rewrite Hx1 in Hx. clear Hord Hm1 Hx1.
  destruct (IH (S depth) next (results ++ R1) t1 Ht1) as (t2 & R2 & -> & Ht2 & Hf1 & Hf2 & Hf3).
  exists t2, (R1 ++ R2). rewrite app_assoc. split; [done|]. split; [done|]. split; [|split].
  - intros m d. rewrite elem_of_app, Hm, Hf1. split.
    + intros [(-> & Hin & _)|(j & n & Hj & -> & Hnx & Hre)].
      * apply Hn in Hin as [?|(n & Hnm & Hma)]; [set_solver|]. exists 1%nat, n. split; [cbn; lia|]. split; [lia|]. split; [done|]. by exists m.
      * apply Hn in Hnx as [?|(n0 & Hnm & Hma)]; [set_solver|]. exists (S j), n0. split; [cbn; lia|]. split; [lia|]. split; [done|]. by exists n.
    + intros (j & n & Hj & -> & Hnm & Hre). destruct j as [|[|j]]; [lia| |]; cbn in Hre, Hj.
      * left. split; [lia|]. split; [|set_solver]. apply Hn. destruct Hre as (k & Hma & Hk). rewrite take_0 in Hk. cbn in Hk. subst k.
        right. by exists n.
      * right. destruct Hre as (k & Hma & Hre). exists (S j), k. split; [lia|]. split; [lia|]. split; [|done]. apply Hn. right. by exists n.
  - apply unique_matches_app; [done|done|]. intros m d [-> _]%Hm (j & n & Hj & He & _)%Hf1. lia.
  - intros m d v. rewrite elem_of_app, Hx, Hf3. split.
    + intros [(-> & -> & n & Hnm & He)|(j & n & k & e' & Hj & -> & Hnx & Hre & He & ->)].
      * exists 0%nat, n, n, e. cbn. split; [done|]. split; [lia|]. done.
      * apply Hn in Hnx as [?|(n0 & Hnm & Hma)]; [set_solver|]. exists (S j), n0, k, e'. cbn. split; [done|]. split; [lia|].
        split; [done|]. split; [|done]. by exists n.
    + intros (j & n & k & e' & Hj & -> & Hnm & Hre & He & ->). destruct j as [|j]; cbn in Hj, Hre.
      * left. injection Hj as <-. subst k. split; [lia|]. split; [done|]. by exists n.
      * right. destruct Hre as (n1 & Hma & Hre). exists j, n1, k, e'. split; [done|]. split; [lia|]. split; [|done]. apply Hn. right. by exists n.
Qed.

End with_index.
End translation.

Lemma add_elements R : forall item,
  pi_results (fold_left (fun i r => let '(n, d, u) := r in add_element i n d u) R item)
  = pi_results item ++ map (fun x : found => mkFound x.1.1 (pi_depth item + x.1.2) x.2) R.
Proof.
  induction R as [|[[n d] u] R IH]; intros item; cbn [fold_left map]; [by rewrite app_nil_r|].
  rewrite IH. cbn. by rewrite <- app_assoc.
Qed.

(** C34: a path that one node manager translates without interference from other requests reaches
    exactly what it should, with a valid index or none, whatever the orders of the hash tables. The
    search ends; at every depth the results without a name are exactly the nodes of the space that
    match the path up to there, each once; the results with a name are exactly the targets in other
    node managers, by elements that are not looked up in the index. (An element without reference
    type is looked up in the index, and does not leave the space.)  The types have no cycle and
    their cache is up to date. *)
Theorem translate_reaches_matches owned idx item s t (Hm : pi_unmatched_browse_name item = None) (Hi : index_valid s)
    (Ha : acyclic t) (Hf : cache_fresh t) :
  exists t' item' R, translate_service (fun s => s) owned idx item s t = Ret (t', item')
    /\ pi_results item' = pi_results item ++ map (fun x : found => mkFound x.1.1 (pi_depth item + x.1.2) x.2) R
    /\ path_found s owned t 0 (pi_path item) {[pi_node item]} R.
Proof.
  destruct (ensure_index_valid s Hi) as (i & He & Hok). unfold translate_service. rewrite He. unfold translate_browse_paths.
  rewrite Hm. cbn [get_browse_name_index browse_name_index set_index unwrap outcome_bind].
  destruct (translate_path_spec (set_index (Some i) s) owned t i Hok Ha (pi_path item) 0 {[pi_node item]} [] t) as (t' & R & Hr & _ & Hp).
  { split; [|done]. exists (subtype_cache t). by destruct t. }
  unfold get_browse_name_index. cbn [browse_name_index set_index unwrap outcome_bind]. rewrite Hr. cbn [outcome_bind app].
  do 2 eexists. exists R. split; [done|]. split; [|exact Hp]. apply add_elements.
Qed.

(** The index is made and used in two critical sections.  When a request that invalidates the index
    runs between them, the translation of every path from a node without name to match panics. *)
Theorem invalidated_translation_panics (other_requests : AddressSpace -> AddressSpace) owned idx item s t
    (Hm : pi_unmatched_browse_name item = None)
    (Ho : browse_name_index (other_requests (ensure_browse_name_index s)) = None) :
  translate_service other_requests owned idx item s t = Panic.
Proof. unfold translate_service, translate_browse_paths. rewrite Hm. unfold get_browse_name_index. by rewrite Ho. Qed.

Lemma forward_refs n s r :
  r ∈ all_refs n BdForward s <->
  ref_direction r = RdForward /\ mkReference (ref_type r) (ref_target r) ∈ refs_of (by_source (references s)) n.
Proof.
  unfold all_refs, find_references.
  change (fun x : ReferenceRef => matches_filter (fun _ _ => true) None (ref_type x)) with (fun _ : ReferenceRef => true).
  rewrite list_filter_true, bool_decide_true, bool_decide_false by naive_solver.
  rewrite app_nil_r, list_elem_of_fmap. setoid_rewrite ref_order_elem. split.
  - intros ([ty m] & -> & Hx). done.
  - destruct r as [ty m d]. cbn. intros [-> Hx]. by exists (mkReference ty m).
Qed.

Lemma insert_reference_found p n ty r r' : insert_reference p n ty r = Ret r' ->
  mkReference ty n ∈ refs_of (by_source r') p.
Proof.
  unfold insert_reference. destruct (bool_decide (p = n)); [done|]. case_bool_decide as Hin; intros [= <-]; [done|].
  cbn. rewrite refs_of_insert, decide_True by done. set_solver.
Qed.

(** A path of one name, of any reference type. *)
Definition by_name (name : QualifiedName) : RelativePathElement := mkElement null_id false false name.
Definition child_path (p : NodeId) (name : QualifiedName) : BrowsePathItem := mkPathItem p 0 0 [by_name name] [] None.

(** [insert] does not invalidate the index.  A node that is inserted as the child of a node while
    the index is built, as the server does for roles that are added at run time, matches the path of
    its browse name, and the translation of this path does not report it. *)
Theorem inserted_child_not_translated p ty n owned s s' i t (Hi : browse_name_index s = Some i) (Hok : index_ok s i)
    (Hins : insert n (Some [(p, ty, RdInverse)]) s = Ret (s', true)) (Hp : p ∈ dom (node_map s))
    (Hn : is_null_id (node_id_of n) = false) (Hname : is_null_name (node_name n) = false) :
  matched s' t (by_name (node_name n)) p (node_id_of n)
  /\ exists t' item, translate_service (fun s => s) owned 0 (child_path p (node_name n)) s' t = Ret (t', item)
       /\ forall x, x ∈ pi_results item -> found_node x <> node_id_of n.
Proof.
  unfold insert in Hins. apply outcome_bind_ret in Hins as ([] & _ & Hins).
  destruct (node_exists (node_id_of n) s) eqn:Hex; [done|].
  apply outcome_bind_ret in Hins as (r & Hr & [= <-]). cbn [refs_insert] in Hr. apply outcome_bind_ret in Hr as (r0 & Hr & [= ->]).
  assert (node_id_of n ∉ dom (node_map s)) as Hnew.
  { unfold node_exists in Hex. apply not_elem_of_dom. by destruct (node_map s !! node_id_of n). }
  split.
  - split; [|split].
    + exists (mkRef ty (node_id_of n) RdForward). split; [|done]. change (refs_at p _ _ ?x t) with (all_refs p BdForward x).
      apply forward_refs. split; [done|]. by apply insert_reference_found in Hr.
    + exists n. split; [apply lookup_insert_eq|by right].
    + intros _. split; [cbn; rewrite dom_insert; set_solver|]. rewrite <- is_null_id_spec. congruence.
  - unfold translate_service, translate_browse_paths, child_path, ensure_browse_name_index, get_browse_name_index.
    cbn [browse_name_index put_node set_references pi_unmatched_browse_name pi_path pi_node]. rewrite Hi.
    cbn [browse_name_index put_node set_references unwrap outcome_bind translate_path]. rewrite Hi. cbn [unwrap outcome_bind].
    assert (child_order {[p]} = [p]) as ->.
    { apply Permutation_singleton_r. rewrite (child_order_perm {[p]}). by rewrite elements_singleton. }
    cbn [translate_layer]. unfold translate_node. cbn [el_target_name by_name el_is_inverse]. rewrite Hname.
    cbn [element_filter el_reference_type by_name]. cbn [is_null_id null_id ns0 orb is_some]. unfold element_filter. cbn [outcome_bind].
    pose proof (scan_candidates_spec 1 (node_name n) (default [] (i !! (p, node_name n))) ∅ []) as Hs.
    destruct (scan_candidates _ _ _ _) as [next results]. do 2 eexists. split; [reflexivity|].
    destruct Hs as (R & HR & Hnx & HRm & _ & HRx). cbn [fst snd app] in *. subst results.
    intros x. rewrite add_elements. cbn [pi_results app]. rewrite list_elem_of_fmap. intros ([[m d] u] & -> & Hin) Hm. cbn in Hm. subst m.
    destruct u as [u|]; [by apply HRx in Hin as (_ & _ & [])|]. apply HRm in Hin as (_ & Hin & _).
    apply Hnx in Hin as [Hin|Hin]; [set_solver|]. apply Hok in Hin as (_ & _ & (y & Hy & _) & _).
    apply Hnew. by apply elem_of_dom.
Qed.

End space.

(** ** Witnesses *)

#[local] Existing Instances no_dyn keep_all elements_order.
#[local] Instance elements_children : ChildOrder := {| child_order := elements; child_order_perm s := reflexivity _ |}.

Definition object_named (i : Z) (name : rstr) : NodeType :=
  NtObject (mkObject (base_new NcObject (node i) {| namespace_index := 1; qname := Some name |} no_text) 0).
Definition name_of (name : rstr) : QualifiedName := {| namespace_index := 1; qname := Some name |}.

(** A node with a child, and a reference to a node of another manager. *)
Definition parent_only : AddressSpace := space_add_namespace (str "urn:test") 1 (put_node (object_named 1 (str "parent")) space_new).
Definition small_space : AddressSpace :=
  set_references
    (default references_new
       (match insert_references [(node 1, node 2, ns0 47); (node 1, {| namespace := 7; identifier := IdNumeric 1 |}, ns0 47)] references_new with
        | Ret r => Some r | _ => None end))
    (put_node (object_named 2 (str "child")) parent_only).

Lemma translate_reaches_matches_witness :
  exists t' item' R, translate_service (fun s => s) (space_namespaces small_space) 0 (child_path (node 1) (name_of (str "child")))
      small_space type_tree_new = Ret (t', item')
    /\ pi_results item' = map (fun x : found => mkFound x.1.1 (0 + x.1.2) x.2) R
    /\ path_found small_space (space_namespaces small_space) type_tree_new 0 [by_name (name_of (str "child"))] {[node 1]} R.
Proof.
  apply (translate_reaches_matches (space_namespaces small_space) 0 (child_path (node 1) (name_of (str "child"))) small_space type_tree_new).
  - reflexivity.
  - exact I.
  - apply (ranked_acyclic (fun _ => O)), (bool_decide_unpack _). vm_compute. exact I.
  - by apply empty_cache_fresh.
Defined.

Lemma invalidated_translation_panics_witness :
  translate_service invalidate_browse_name_index (space_namespaces small_space) 0 (child_path (node 1) (name_of (str "child")))
    small_space type_tree_new = Panic.
Proof.
  apply (invalidated_translation_panics invalidate_browse_name_index (space_namespaces small_space) 0
    (child_path (node 1) (name_of (str "child"))) small_space type_tree_new); reflexivity.
Defined.

Lemma inserted_child_not_translated_witness :
  exists s', insert (object_named 2 (str "child")) (Some [(node 1, ns0 47, RdInverse)]) (ensure_browse_name_index parent_only) = Ret (s', true)
    /\ matched s' type_tree_new (by_name (name_of (str "child"))) (node 1) (node 2).
Proof.
  eexists. split; [vm_compute; reflexivity|].
  eapply (inserted_child_not_translated (node 1) (ns0 47) (object_named 2 (str "child")) ∅ (ensure_browse_name_index parent_only));
    [reflexivity| |vm_compute; reflexivity| |reflexivity|reflexivity].
  - destruct (build_index_ok parent_only eq_refl) as (i & Hi & Hok). injection Hi as <-. exact Hok.
  - apply (bool_decide_unpack _). vm_compute. exact I.
Defined.
