(* ===== verification/NodeManagement.v ===== *)
(** * Node management

    AddNodes, DeleteNodes, AddReferences and DeleteReferences of the in-memory node manager:
    the items of server/src/node_manager/node_management.rs and the services of
    server/src/node_manager/memory/manager (crud.rs and references.rs) with the gates and the
    invalidation of memory/mod.rs.

    Theorems: every item is either refused and changes nothing, or does to the nodes and references
    exactly what it asks for, under the conditions that the code checks. *)

From S2P Require Import Prelude Text StatusCode NumericRange Variant References TypeTree Nodes Rbac AddressSpace.
#[local] Open Scope Z_scope.

(** ** Standard reference types (generated/node_ids.rs) *)

Definition abstract_reference_types : list Z := [31; 32; 33; 34; 44].
Definition standard_reference_types : list Z :=
  [31; 32; 33; 34; 35; 36; 37; 38; 39; 40; 41; 44; 45; 46; 47; 48; 49; 51; 52; 53; 54; 56; 117; 129; 131; 3065; 9004; 9005;
   9006; 14476; 14936; 15112; 15296; 15297; 16361; 16362; 17276; 17597; 17603; 17604; 17983; 17984; 17985; 18804; 18805;
   23469; 23562; 24136; 24137; 25237; 25238; 25253; 25254; 25255; 25256; 25257; 25258; 25259; 25260; 25261; 25262; 25263;
   25264; 25265; 25345; 32059; 32407; 32558; 32559; 32633; 32634; 32679].
(** [as_reference_type_id]. *)
Definition as_reference_type_id (n : NodeId) : option Z :=
  match identifier n with
  | IdNumeric i => if (namespace n =? 0) && bool_decide (i ∈ standard_reference_types) then Some i else None
  | _ => None
  end.
Definition HasTypeDefinition : NodeId := ns0 40.
Definition HasSubtype : NodeId := ns0 45.
Definition HasProperty : NodeId := ns0 46.

(** ** Items *)

Record AddNodeItem {D : DynEncodable} := mkAddNode {
  an_parent_node_id : ExpandedNodeId;
  an_reference_type_id : NodeId;
  an_requested_new_node_id : NodeId;
  an_browse_name : QualifiedName;
  an_node_class : NodeClass;
  an_node_attributes : AddNodeAttributes;
  an_type_definition_id : ExpandedNodeId;
  an_result_node_id : NodeId;
  an_status : StatusCode
}.
Arguments mkAddNode {D}.

Record DeleteNodeItem := mkDeleteNode { dn_node_id : NodeId; dn_delete_target_references : bool; dn_status : StatusCode }.

(** What AddReferences and DeleteReferences items share. *)
Record ReferenceItem := mkReferenceItem {
  ri_source_node_id : NodeId;
  ri_reference_type_id : NodeId;
  ri_is_forward : bool;
  ri_target_node_id : ExpandedNodeId;
  ri_source_status : StatusCode;
  ri_target_status : StatusCode
}.
Record AddReferenceItem := mkAddReference { ar_item : ReferenceItem; ar_target_server_uri : UAString; ar_target_node_class : NodeClass }.
Record DeleteReferenceItem := mkDeleteReference { dr_item : ReferenceItem; dr_delete_bidirectional : bool }.

Definition null_expanded (n : ExpandedNodeId) : bool := is_null_id (node_id n).

Definition delete_node_item_new (n : NodeId) (targets : bool) : DeleteNodeItem :=
  mkDeleteNode n targets (if is_null_id n then BadNodeIdInvalid else BadNodeIdUnknown).
Definition dn_set_result (st : StatusCode) (i : DeleteNodeItem) : DeleteNodeItem :=
  mkDeleteNode (dn_node_id i) (dn_delete_target_references i) st.

(** The status of a new reference item; the last check that fails decides. *)
Definition reference_item_status (source rtype : NodeId) (target : ExpandedNodeId) (remote : bool) : StatusCode :=
  let st := BadNotSupported in
  let st := if is_null_id source then BadSourceNodeIdInvalid else st in
  let st := if null_expanded target then BadTargetNodeIdInvalid else st in
  let st := if is_null_id rtype then BadReferenceTypeIdInvalid else st in
  if remote then BadReferenceLocalOnly else st.
Definition reference_item_new (source rtype : NodeId) (forward : bool) (target : ExpandedNodeId) (remote : bool) : ReferenceItem :=
  let st := reference_item_status source rtype target remote in mkReferenceItem source rtype forward target st st.
Definition add_reference_item_new (source rtype : NodeId) (forward : bool) (uri : UAString) (target : ExpandedNodeId) (class : NodeClass)
    : AddReferenceItem :=
  mkAddReference (reference_item_new source rtype forward target (is_some uri || negb (server_index target =? 0))) uri class.
Definition delete_reference_item_new (source rtype : NodeId) (forward : bool) (target : ExpandedNodeId) (bidirectional : bool)
    : DeleteReferenceItem :=
  mkDeleteReference (reference_item_new source rtype forward target (negb (server_index target =? 0))) bidirectional.

Definition set_source_result (st : StatusCode) (i : ReferenceItem) : ReferenceItem :=
  mkReferenceItem (ri_source_node_id i) (ri_reference_type_id i) (ri_is_forward i) (ri_target_node_id i) st (ri_target_status i).
Definition set_target_result (st : StatusCode) (i : ReferenceItem) : ReferenceItem :=
  mkReferenceItem (ri_source_node_id i) (ri_reference_type_id i) (ri_is_forward i) (ri_target_node_id i) (ri_source_status i) st.
(** Sets the ends that are given. *)
Definition refuse (source target : bool) (st : StatusCode) (i : ReferenceItem) : ReferenceItem :=
  let i := if source then set_source_result st i else i in if target then set_target_result st i else i.
Definition result_status (i : ReferenceItem) : StatusCode :=
  if is_good (ri_source_status i) then ri_source_status i
  else if is_good (ri_target_status i) then ri_target_status i else ri_source_status i.

Definition target_of (i : ReferenceItem) : NodeId := node_id (ri_target_node_id i).
(** The ends in the direction of the reference. *)
Definition ends (i : ReferenceItem) : NodeId * NodeId :=
  if ri_is_forward i then (ri_source_node_id i, target_of i) else (target_of i, ri_source_node_id i).

(** [ModelChangeStructureDataType]: the node and the verb. *)
Abbreviation model_change := (NodeId * Z)%type.

Section management.
Context {D : DynEncodable} {M : Moka} {RO : RefOrder} {CO : ChildOrder}.

(** [validate_attributes]: the status is kept where the attributes are of the class or are to be
    refused later. *)
Definition validate_attributes (class : NodeClass) (attributes : AddNodeAttributes) (st : StatusCode) : StatusCode :=
  match class, attributes with
  | NcObject, AaObject _ _ | NcVariable, AaVariable _ _ | NcMethod, AaMethod _ _ _ | NcObjectType, AaObjectType _ _
  | NcVariableType, AaVariableType _ _ | NcReferenceType, AaReferenceType _ _ _ _ | NcDataType, AaDataType _ _
  | NcView, AaView _ _ _ => st
  | NcUnspecified, _ => BadNodeClassInvalid
  | _, AaNone | _, AaGeneric _ _ => st
  | _, _ => BadNodeAttributesInvalid
  end.

(** [AddNodeItem::new]; [attributes] is what [from_extension_object] gives. *)
Definition add_node_item_new (parent : ExpandedNodeId) (rtype : NodeId) (requested : ExpandedNodeId) (name : QualifiedName)
    (class : NodeClass) (attributes : result AddNodeAttributes StatusCode) (type_definition : ExpandedNodeId) : AddNodeItem :=
  let '(attributes, st) := match attributes with Ok a => (a, BadNotSupported) | Err e => (AaNone, e) end in
  let st := if negb (server_index requested =? 0) then BadNodeIdRejected else st in
  let st := validate_attributes class attributes st in
  let st := if is_null_id rtype then BadReferenceTypeIdInvalid else st in
  let st := if null_expanded parent then BadParentNodeIdInvalid else st in
  let st := match class, null_expanded type_definition with
            | NcObject, true | NcVariable, true => BadTypeDefinitionInvalid
            | NcObject, false | NcVariable, false => st
            | _, false => BadTypeDefinitionInvalid
            | _, _ => st
            end in
  mkAddNode parent rtype (node_id requested) name class attributes type_definition null_id st.

Definition an_set_result (id : NodeId) (st : StatusCode) (i : AddNodeItem) : AddNodeItem :=
  mkAddNode (an_parent_node_id i) (an_reference_type_id i) (an_requested_new_node_id i) (an_browse_name i) (an_node_class i)
    (an_node_attributes i) (an_type_definition_id i) id st.
Definition an_parent (i : AddNodeItem) : NodeId := node_id (an_parent_node_id i).
Definition an_type (i : AddNodeItem) : NodeId := node_id (an_type_definition_id i).

(** ** Shared checks *)

Definition authorize_node_management_permission (c : RequestContext) (s : AddressSpace) (n : NodeId) (required : Z) : bool :=
  match find_node n s with Some x => authorize_ctx c x required | None => true end.

Definition reference_type_is_known (t : DefaultTypeTree) (rtype : NodeId) : bool :=
  bool_decide (tt_get rtype t = Some NcReferenceType) || is_some (as_reference_type_id rtype).

Definition standard_reference_type_is_abstract (rtype : NodeId) : bool :=
  match as_reference_type_id rtype with Some i => bool_decide (i ∈ abstract_reference_types) | None => false end.
Definition reference_type_is_abstract_in (s : AddressSpace) (rtype : NodeId) : bool :=
  match find_node rtype s with
  | Some (NtReferenceType r) => reference_type_is_abstract r
  | Some _ => false
  | None => standard_reference_type_is_abstract rtype
  end.

Definition resolve_node_class (s : AddressSpace) (t : DefaultTypeTree) (n : NodeId) : option NodeClass :=
  match find_node n s with Some x => Some (node_class x) | None => tt_get n t end.

Definition reference_is_structurally_allowed (s : AddressSpace) (rtype source target : NodeId) (t : DefaultTypeTree)
    : outcome (DefaultTypeTree * bool) :=
  let! (t, property) := is_subtype_of rtype HasProperty t in
  if property then
    Ret (t, match find_node target s with Some (NtVariable _) => true | Some _ => false | None => true end)
  else
    let! (t, subtype) := is_subtype_of rtype HasSubtype t in
    if subtype then
      Ret (t, match resolve_node_class s t source, resolve_node_class s t target with
              | Some a, Some b => negb (negb (is_type_class a) || negb (bool_decide (a = b)))
              | _, _ => true
              end)
    else Ret (t, true).

(** *** Checks of AddNodes *)

(** The type definition against the class it must have. *)
Definition check_type_definition (s : AddressSpace) (t : DefaultTypeTree) (type_definition : NodeId) (expected : NodeClass)
    : result unit StatusCode :=
  match find_node type_definition s with
  | Some n =>
      match expected, n with
      | NcObjectType, NtObjectType o => if object_type_is_abstract o then Err BadTypeDefinitionInvalid else Ok tt
      | NcVariableType, NtVariableType v => if vt_is_abstract v then Err BadTypeDefinitionInvalid else Ok tt
      | _, _ => Err BadTypeDefinitionInvalid
      end
  | None =>
      if bool_decide (tt_get type_definition t = Some expected)
      then if bool_decide (is_abstract type_definition t = Some true) then Err BadTypeDefinitionInvalid else Ok tt
      else Err BadTypeDefinitionInvalid
  end.
Definition validate_type_definition (s : AddressSpace) (t : DefaultTypeTree) (i : AddNodeItem) : result unit StatusCode :=
  if is_null_id (an_type i) then Ok tt
  else match an_node_class i with
       | NcObject => check_type_definition s t (an_type i) NcObjectType
       | NcVariable => check_type_definition s t (an_type i) NcVariableType
       | _ => Ok tt
       end.

Definition value_rank_is_restriction_of (parent child : Z) : bool :=
  if parent =? -2 then true
  else if parent =? -3 then (child =? -3) || (child =? -1) || (child =? 1)
  else if parent =? 0 then (child =? 0) || (1 <=? child)
  else if parent =? -1 then child =? -1
  else child =? parent.

Definition validate_type_refinement (s : AddressSpace) (i : AddNodeItem) (n : NodeType) (t : DefaultTypeTree)
    : outcome (DefaultTypeTree * result unit StatusCode) :=
  match n with
  | NtVariableType child =>
      let! (t, sub) := is_subtype_of (an_reference_type_id i) HasSubtype t in
      if negb sub then Ret (t, Ok tt)
      else match find_node (an_parent i) s with
           | Some (NtVariableType parent) =>
               let! (t, widens) :=
                 match tt_get (vt_data_type child) t with
                 | Some _ => let! (t, b) := is_subtype_of (vt_data_type child) (vt_data_type parent) t in Ret (t, negb b)
                 | None => Ret (t, false)
                 end in
               if widens then Ret (t, Err BadNodeAttributesInvalid)
               else if negb (value_rank_is_restriction_of (vt_value_rank parent) (vt_value_rank child))
               then Ret (t, Err BadNodeAttributesInvalid)
               else Ret (t, Ok tt)
           | _ => Ret (t, Ok tt)
           end
  | _ => Ret (t, Ok tt)
  end.

(** [NodeId::next_numeric] counts in a 32-bit atomic; the loop looks for a number that is not in use. *)
Fixpoint next_unused_loop (fuel : nat) (s : AddressSpace) (ns next : Z) : option (Z * NodeId) :=
  match fuel with
  | O => None
  | S fuel' =>
      let id := {| namespace := ns; identifier := IdNumeric next |} in
      let next := wrap32 (next + 1) in
      if node_exists id s then next_unused_loop fuel' s ns next else Some (next, id)
  end.
(** One more turn than there are nodes. *)
Definition next_unused_node_id (s : AddressSpace) (ns next : Z) : outcome (Z * NodeId) :=
  fueled (next_unused_loop (S (size (node_map s))) s ns next).

(** ** AddNodes *)

(** What the services read and write: the address space, the type tree (its cache) and the counter of
    numeric identifiers. *)
Record Mgmt := mkMgmt { mg_space : AddressSpace; mg_tree : DefaultTypeTree; mg_next : Z }.

Definition NODE_ADDED : Z := 1.
Definition NODE_DELETED : Z := 2.
Definition REFERENCE_ADDED : Z := 4.
Definition REFERENCE_DELETED : Z := 8.

(** The checks made before the gate. *)
Definition validate_add_node (batch_new_ids : list NodeId) (s : AddressSpace) (t : DefaultTypeTree) (i : AddNodeItem) : AddNodeItem :=
  if negb (an_status i =? BadNotSupported) then i
  else if (is_null_id (an_parent i) || negb (node_exists (an_parent i) s)) && negb (bool_decide (an_parent i ∈ batch_new_ids))
  then an_set_result null_id BadParentNodeIdInvalid i
  else if negb (is_null_id (an_requested_new_node_id i)) && node_exists (an_requested_new_node_id i) s
  then an_set_result null_id BadNodeIdExists i
  else if negb (reference_type_is_known t (an_reference_type_id i)) then an_set_result null_id BadReferenceTypeIdInvalid i
  else match validate_type_definition s t i with
       | Err st => an_set_result null_id st i
       | Ok _ => i
       end.

Definition add_references_of (i : AddNodeItem) : list (NodeId * NodeId * ReferenceDirection) :=
  (an_parent i, an_reference_type_id i, RdInverse)
  :: if is_null_id (an_type i) then [] else [(an_type i, HasTypeDefinition, RdForward)].

Definition refused (w : Mgmt) (st : StatusCode) (i : AddNodeItem) : outcome (Mgmt * AddNodeItem * list model_change) :=
  Ret (w, an_set_result null_id st i, []).

(** One item of the second loop; [now] is the time that values are stamped with. *)
Definition add_node (c : RequestContext) (now : DateTime) (i : AddNodeItem) (w : Mgmt) : outcome (Mgmt * AddNodeItem * list model_change) :=
  let s := mg_space w in
  if is_bad (an_status i) && negb (an_status i =? BadNotSupported) then Ret (w, i, [])
  else if is_null_id (an_parent i) || negb (node_exists (an_parent i) s) then refused w BadParentNodeIdInvalid i
  else if negb (authorize_node_management_permission c s (an_parent i) PermissionType.AddNode) then refused w BadUserAccessDenied i
  else if is_null_id (an_reference_type_id i) then refused w BadReferenceTypeIdInvalid i
  else
    let! (t, sibling) := find_node_by_browse_name (an_parent i) (Some (an_reference_type_id i, false)) BdForward (an_browse_name i) s (mg_tree w) in
    let w := mkMgmt s t (mg_next w) in
    if is_some sibling then refused w BadBrowseNameDuplicated i
    else match validate_type_definition s t i with
    | Err st => refused w st i
    | Ok _ =>
        let! (next, assigned) :=
          if is_null_id (an_requested_new_node_id i) then
            let! (next, id) := next_unused_node_id s (namespace (an_parent i)) (mg_next w) in Ret (next, Ok id)
          else if negb (namespace_exists (namespace (an_requested_new_node_id i)) s) then Ret (mg_next w, Err BadNodeIdRejected)
          else if node_exists (an_requested_new_node_id i) s then Ret (mg_next w, Err BadNodeIdExists)
          else Ret (mg_next w, Ok (an_requested_new_node_id i)) in
        let w := mkMgmt s t next in
        match assigned with
        | Err st => refused w st i
        | Ok id =>
            let! built := build_node now (an_node_class i) (an_browse_name i) (an_node_attributes i) id in
            match built with
            | Err st => refused w st i
            | Ok n =>
                let! (t, refinement) := validate_type_refinement s i n t in
                let w := mkMgmt s t next in
                match refinement with
                | Err st => refused w st i
                | Ok _ =>
                    let! (s, added) := insert n (Some (add_references_of i)) s in
                    if (added : bool) then Ret (mkMgmt s t next, an_set_result id Good i, [(id, NODE_ADDED)])
                    else refused (mkMgmt s t next) BadNodeIdExists i
                end
            end
        end
    end.

(** A loop over the items of a request. *)
Fixpoint each_item {I : Type} (f : I -> Mgmt -> outcome (Mgmt * I * list model_change)) (l : list I) (w : Mgmt)
    : outcome (Mgmt * list I * list model_change) :=
  match l with
  | [] => Ret (w, [], [])
  | i :: l' =>
      let! (x, changes) := f i w in
      let '(w, i) := x in
      let! (y, changes') := each_item f l' w in
      let '(w, l'') := y in
      Ret (w, i :: l'', changes ++ changes')
  end.

Definition new_ids (l : list AddNodeItem) : list NodeId :=
  List.filter (fun n => negb (is_null_id n)) (map an_requested_new_node_id (List.filter (fun i => an_status i =? BadNotSupported) l)).

Definition add_nodes_impl (c : RequestContext) (now : DateTime) (l : list AddNodeItem) (w : Mgmt)
    : outcome (Mgmt * list AddNodeItem * list model_change) :=
  let l := map (validate_add_node (new_ids l) (mg_space w) (mg_tree w)) l in
  if negb (clients_can_modify_address_space c) then
    Ret (w, map (fun i => if an_status i =? BadNotSupported then an_set_result null_id BadServiceUnsupported i else i) l, [])
  else each_item (add_node c now) l w.

(** ** DeleteNodes *)

Definition validate_delete_node (c : RequestContext) (s : AddressSpace) (i : DeleteNodeItem) : DeleteNodeItem :=
  if negb (dn_status i =? BadNodeIdUnknown) then i
  else if node_exists (dn_node_id i) s then
    if negb (authorize_node_management_permission c s (dn_node_id i) PermissionType.DeleteNode)
    then dn_set_result BadUserAccessDenied i
    else dn_set_result BadNotSupported i
  else i.

Definition delete_node (c : RequestContext) (i : DeleteNodeItem) (w : Mgmt) : outcome (Mgmt * DeleteNodeItem * list model_change) :=
  let s := mg_space w in
  if is_bad (dn_status i) && negb (dn_status i =? BadNotSupported) then Ret (w, i, [])
  else if is_null_id (dn_node_id i) then Ret (w, dn_set_result BadNodeIdInvalid i, [])
  else if negb (authorize_node_management_permission c s (dn_node_id i) PermissionType.DeleteNode)
  then Ret (w, dn_set_result BadUserAccessDenied i, [])
  else
    let '(s, n) := delete (dn_node_id i) (dn_delete_target_references i) s in
    let w := mkMgmt s (mg_tree w) (mg_next w) in
    match n with
    | Some _ => Ret (w, dn_set_result Good i, [(dn_node_id i, NODE_DELETED)])
    | None => Ret (w, dn_set_result BadNodeIdUnknown i, [])
    end.

Definition delete_nodes_impl (c : RequestContext) (l : list DeleteNodeItem) (w : Mgmt)
    : outcome (Mgmt * list DeleteNodeItem * list model_change) :=
  let l := map (validate_delete_node c (mg_space w)) l in
  if negb (clients_can_modify_address_space c) then
    Ret (w, map (fun i => if dn_status i =? BadNotSupported then dn_set_result BadServiceUnsupported i else i) l, [])
  else each_item (delete_node c) l w.

(** ** AddReferences and DeleteReferences *)

Definition owns (s : AddressSpace) (n : NodeId) : bool := namespace_exists (namespace n) s.
Definition source_pending (i : ReferenceItem) : bool := ri_source_status i =? BadNotSupported.
Definition target_pending (i : ReferenceItem) : bool := ri_target_status i =? BadNotSupported.
Definition handle_source (s : AddressSpace) (i : ReferenceItem) : bool := owns s (ri_source_node_id i) && source_pending i.
Definition handle_target (s : AddressSpace) (i : ReferenceItem) : bool := owns s (target_of i) && target_pending i.
(** The ends of an item that are handled here and still pending. *)
Definition refuse_pending (hs ht : bool) (st : StatusCode) (i : ReferenceItem) : ReferenceItem :=
  refuse (hs && source_pending i) (ht && target_pending i) st i.
Definition is_reference_type (t : DefaultTypeTree) (rtype : NodeId) : bool := bool_decide (tt_get rtype t = Some NcReferenceType).

(** The checks before the gate that both services make. *)
Definition missing_ends (hs ht : bool) (s : AddressSpace) (i : ReferenceItem) : ReferenceItem :=
  let i := if hs && negb (node_exists (ri_source_node_id i) s) then set_source_result BadSourceNodeIdInvalid i else i in
  if ht && negb (node_exists (target_of i) s) then set_target_result BadTargetNodeIdInvalid i else i.

Definition validate_add_reference (s : AddressSpace) (t : DefaultTypeTree) (i : ReferenceItem) : ReferenceItem :=
  if negb (source_pending i) && negb (target_pending i) then i
  else
    let hs := handle_source s i in let ht := handle_target s i in
    if negb hs && negb ht then i
    else
      let i := missing_ends hs ht s i in
      if negb (is_reference_type t (ri_reference_type_id i)) then refuse_pending hs ht BadReferenceTypeIdInvalid i
      else if node_exists (ri_source_node_id i) s && node_exists (target_of i) s then
        let '(source, target) := ends i in
        if bool_decide (source = target) then refuse_pending hs ht BadInvalidSelfReference i
        else if space_has_reference source target (ri_reference_type_id i) s
        then refuse_pending hs ht BadDuplicateReferenceNotAllowed i
        else i
      else i.

Definition validate_delete_reference (s : AddressSpace) (t : DefaultTypeTree) (i : ReferenceItem) : ReferenceItem :=
  if negb (source_pending i) && negb (target_pending i) then i
  else
    let hs := handle_source s i in let ht := handle_target s i in
    if negb hs && negb ht then i
    else
      let i := missing_ends hs ht s i in
      if negb (is_reference_type t (ri_reference_type_id i)) then refuse_pending hs ht BadReferenceTypeIdInvalid i else i.

(** Closing the gate. *)
Definition unsupported (i : ReferenceItem) : ReferenceItem :=
  let i := if source_pending i then set_source_result BadServiceUnsupported i else i in
  if target_pending i then set_target_result BadServiceUnsupported i else i.

(** The head of the second loop of both services: the item is dropped with new statuses, or goes on
    with the ends that are handled. *)
Definition start_reference (c : RequestContext) (required : Z) (s : AddressSpace) (i : ReferenceItem) : ReferenceItem + (bool * bool) :=
  let hs := handle_source s i in let ht := handle_target s i in
  if negb hs && negb ht then inl i
  else if owns s (ri_source_node_id i) && (ri_source_status i =? BadSourceNodeIdInvalid) then
    inl (if ht then set_target_result BadSourceNodeIdInvalid i else i)
  else if owns s (target_of i) && (ri_target_status i =? BadTargetNodeIdInvalid) then
    inl (if hs then set_source_result BadTargetNodeIdInvalid i else i)
  else if node_exists (ri_source_node_id i) s
          && negb (authorize_node_management_permission c s (ri_source_node_id i) required)
  then inl (refuse true true BadUserAccessDenied i)
  else inr (hs, ht).

(** The check of the ends in the second loop: the item with its statuses, and whether to go on. *)
Definition ready (hs ht : bool) (s : AddressSpace) (i : ReferenceItem) : ReferenceItem * bool :=
  (missing_ends hs ht s i,
   negb ((hs && negb (node_exists (ri_source_node_id i) s)) || (ht && negb (node_exists (target_of i) s)))).

Definition target_class_differs (s : AddressSpace) (class : NodeClass) (n : NodeId) : bool :=
  match find_node n s with
  | Some x => negb (bool_decide (class = NcUnspecified)) && negb (bool_decide (node_class x = class))
  | None => false
  end.

Definition has_type_definition (s : AddressSpace) (n : NodeId) (t : DefaultTypeTree) : outcome (DefaultTypeTree * bool) :=
  let! (t, l) := space_find_references n (Some (HasTypeDefinition, false)) BdForward s t in
  Ret (t, match l with [] => false | _ => true end).

Definition dropped (w : Mgmt) (i : ReferenceItem) : outcome (Mgmt * ReferenceItem * list model_change) := Ret (w, i, []).

Definition add_reference_body (c : RequestContext) (class : NodeClass) (i : ReferenceItem) (w : Mgmt)
    : outcome (Mgmt * ReferenceItem * list model_change) :=
  let s := mg_space w in let t := mg_tree w in
  match start_reference c PermissionType.AddReference s i with
  | inl i => dropped w i
  | inr (hs, ht) =>
      if negb (is_reference_type t (ri_reference_type_id i)) then dropped w (refuse hs ht BadReferenceTypeIdInvalid i)
      else if reference_type_is_abstract_in s (ri_reference_type_id i) then dropped w (refuse hs ht BadReferenceTypeIdInvalid i)
      else
        let '(i, go) := ready hs ht s i in
        if negb go then dropped w i
        else if bool_decide (ri_source_node_id i = target_of i) then dropped w (refuse hs ht BadInvalidSelfReference i)
        else if target_class_differs s class (target_of i) then dropped w (refuse hs ht BadNodeClassInvalid i)
        else
          let '(source, target) := ends i in
          let! (t, allowed) := reference_is_structurally_allowed s (ri_reference_type_id i) source target t in
          let w := mkMgmt s t (mg_next w) in
          if negb allowed then dropped w (refuse hs ht BadReferenceNotAllowed i)
          else
            let! (t, second) := if bool_decide (ri_reference_type_id i = HasTypeDefinition) then has_type_definition s source t
                                else Ret (t, false) in
            let w := mkMgmt s t (mg_next w) in
            if (second : bool) then dropped w (refuse hs ht BadReferenceNotAllowed i)
            else if space_has_reference source target (ri_reference_type_id i) s
            then dropped w (refuse hs ht BadDuplicateReferenceNotAllowed i)
            else
              let! s := space_insert_reference source target (ri_reference_type_id i) s in
              Ret (mkMgmt s t (mg_next w), refuse hs ht Good i, [(ri_source_node_id i, REFERENCE_ADDED)])
  end.

Definition delete_reference_body (c : RequestContext) (bidirectional : bool) (i : ReferenceItem) (w : Mgmt)
    : outcome (Mgmt * ReferenceItem * list model_change) :=
  let s := mg_space w in
  match start_reference c PermissionType.RemoveReference s i with
  | inl i => dropped w i
  | inr (hs, ht) =>
      if negb (is_reference_type (mg_tree w) (ri_reference_type_id i)) then dropped w (refuse hs ht BadReferenceTypeIdInvalid i)
      else
        let '(i, go) := ready hs ht s i in
        if negb go then dropped w i
        else
          let '(source, target) := ends i in
          let s := (space_delete_reference source target (ri_reference_type_id i) s).1 in
          let s := if bidirectional then (space_delete_reference target source (ri_reference_type_id i) s).1 else s in
          Ret (mkMgmt s (mg_tree w) (mg_next w), refuse hs ht Good i, [(ri_source_node_id i, REFERENCE_DELETED)])
  end.

Definition on_item {I} (get : I -> ReferenceItem) (put : ReferenceItem -> I -> I) (body : I -> ReferenceItem -> Mgmt ->
    outcome (Mgmt * ReferenceItem * list model_change)) (i : I) (w : Mgmt) : outcome (Mgmt * I * list model_change) :=
  let! (x, changes) := body i (get i) w in let '(w, r) := x in Ret (w, put r i, changes).
Definition put_ar (r : ReferenceItem) (i : AddReferenceItem) : AddReferenceItem :=
  mkAddReference r (ar_target_server_uri i) (ar_target_node_class i).
Definition put_dr (r : ReferenceItem) (i : DeleteReferenceItem) : DeleteReferenceItem := mkDeleteReference r (dr_delete_bidirectional i).

Definition add_references_impl (c : RequestContext) (l : list AddReferenceItem) (w : Mgmt)
    : outcome (Mgmt * list AddReferenceItem * list model_change) :=
  let l := map (fun i => put_ar (validate_add_reference (mg_space w) (mg_tree w) (ar_item i)) i) l in
  if negb (clients_can_modify_address_space c) then Ret (w, map (fun i => put_ar (unsupported (ar_item i)) i) l, [])
  else each_item (on_item ar_item put_ar (fun i => add_reference_body c (ar_target_node_class i))) l w.

Definition delete_references_impl (c : RequestContext) (l : list DeleteReferenceItem) (w : Mgmt)
    : outcome (Mgmt * list DeleteReferenceItem * list model_change) :=
  let l := map (fun i => put_dr (validate_delete_reference (mg_space w) (mg_tree w) (dr_item i)) i) l in
  if negb (clients_can_modify_address_space c) then Ret (w, map (fun i => put_dr (unsupported (dr_item i)) i) l, [])
  else each_item (on_item dr_item put_dr (fun i => delete_reference_body c (dr_delete_bidirectional i))) l w.

(** The node manager invalidates the index after each of them (memory/mod.rs). *)
Definition with_invalidation {I} (m : outcome (Mgmt * list I * list model_change)) : outcome (Mgmt * list I * list model_change) :=
  let! (x, changes) := m in
  let '(w, l) := x in
  Ret (mkMgmt (invalidate_browse_name_index (mg_space w)) (mg_tree w) (mg_next w), l, changes).
Definition manager_add_nodes (c : RequestContext) (now : DateTime) (l : list AddNodeItem) (w : Mgmt) :=
  with_invalidation (add_nodes_impl c now l w).
Definition manager_delete_nodes (c : RequestContext) (l : list DeleteNodeItem) (w : Mgmt) := with_invalidation (delete_nodes_impl c l w).
Definition manager_add_references (c : RequestContext) (l : list AddReferenceItem) (w : Mgmt) := with_invalidation (add_references_impl c l w).
Definition manager_delete_references (c : RequestContext) (l : list DeleteReferenceItem) (w : Mgmt) :=
  with_invalidation (delete_references_impl c l w).


(** The other half of DeleteNodes: the managers drop the references of nodes that another one has
    deleted. *)
Definition delete_good_references (s : AddressSpace) (i : DeleteNodeItem) : AddressSpace :=
  if is_good (dn_status i) then (space_delete_node_references (dn_node_id i) (dn_delete_target_references i) s).1 else s.
Definition manager_delete_node_references (l : list DeleteNodeItem) (w : Mgmt) : Mgmt :=
  mkMgmt (invalidate_browse_name_index (fold_left delete_good_references l (mg_space w))) (mg_tree w) (mg_next w).

End management.
