(* ===== verification/NodeManagementFacts.v ===== *)
(** * Facts on node management

    The services of NodeManagement.v act on a graph of nodes and references: a chain of items, each
    of which is refused or has exactly the effect that it asks for. *)

From S2P Require Import Prelude Text StatusCode NumericRange Variant References TypeTree Nodes Rbac AddressSpace NodeManagement.
#[local] Open Scope Z_scope.

Section facts.
Context {D : DynEncodable} {M : Moka} {RO : RefOrder} {CO : ChildOrder}.

(** ** The abstract state *)

Record graph := mkGraph { g_nodes : gmap NodeId NodeType; g_edges : edges; g_namespaces : gmap Z rstr }.

(** The nodes are entered under their identifiers, in registered namespaces, and the tables hold the
    edges. *)
Record abstracts (s : AddressSpace) (g : graph) : Prop := {
  ab_nodes : node_map s = g_nodes g;
  ab_namespaces : space_namespaces s = g_namespaces g;
  ab_edges : represents (references s) (g_edges g);
  ab_keys k n : g_nodes g !! k = Some n -> node_id_of n = k /\ is_Some (g_namespaces g !! namespace k)
}.

(** The tree during a request: only its cache differs. *)
Definition same_tree (t t' : DefaultTypeTree) : Prop := exists cache, t' = set_subtype_cache cache t.

Lemma same_tree_refl t : same_tree t t.
Proof. exists (subtype_cache t). by destruct t. Qed.
Lemma same_tree_trans t1 t2 t3 : same_tree t1 t2 -> same_tree t2 t3 -> same_tree t1 t3.
Proof. intros [c ->] [c' ->]. by exists c'. Qed.

(** With acyclic types every query ends, whatever the cache holds. *)
Lemma query_ends t c a : acyclic t -> exists t' b, is_subtype_of c a t = Ret (t', b) /\ same_tree t t'.
Proof.
  intros Ha. unfold is_subtype_of. destruct (subtype_cache t !! (c, a)) as [b|].
  - exists t, b. split; [done|apply same_tree_refl].
  - destruct (subtype_loop_enough t a c Ha) as [b ->]. cbn. do 2 eexists. split; [done|]. by eexists.
Qed.

(** ** Unused identifiers *)

Definition numeric (ns i : Z) : NodeId := {| namespace := ns; identifier := IdNumeric i |}.

Lemma next_unused_loop_cases s ns fuel : forall next, is_u32 next ->
  match next_unused_loop fuel s ns next with
  | Some (next', id) => node_exists id s = false /\ (exists i, id = numeric ns i) /\ is_u32 next'
  | None => forall k, (k < fuel)%nat -> node_exists (numeric ns (wrap32 (next + Z.of_nat k))) s = true
  end.
Proof.
  induction fuel as [|fuel IH]; intros next Hn; cbn [next_unused_loop]; [intros k; lia|].
  fold (numeric ns next). destruct (node_exists (numeric ns next) s) eqn:He.
  2: { split; [done|]. split; [by exists next|apply wrap32_range]. }
  specialize (IH (wrap32 (next + 1)) (wrap32_range _)). destruct (next_unused_loop _ _ _ _) as [[next' id]|]; [done|].
  intros [|k] Hk.
  - rewrite Z.add_0_r, wrap32_small by done. done.
  - specialize (IH k ltac:(lia)). replace (wrap32 (next + Z.of_nat (S k))) with (wrap32 (wrap32 (next + 1) + Z.of_nat k)); [done|].
    unfold wrap32. rewrite Zplus_mod_idemp_l. f_equal. lia.
Qed.

Lemma wrap32_add_inj a j k : 0 <= j <= u32_max -> 0 <= k <= u32_max -> wrap32 (a + j) = wrap32 (a + k) -> j = k.
Proof.
  unfold wrap32. intros Hj Hk He. pose proof (Z.div_mod (a + j) (u32_max + 1) ltac:(int_lia)).
  pose proof (Z.div_mod (a + k) (u32_max + 1) ltac:(int_lia)). unfold u32_max in *. nia.
Qed.

(** With fewer than 2^32 nodes an unused identifier is found. *)
Lemma next_unused_found s ns next : Z.of_nat (size (node_map s)) <= u32_max -> is_u32 next ->
  exists next' id, next_unused_node_id s ns next = Ret (next', id) /\ node_exists id s = false
    /\ (exists i, id = numeric ns i) /\ is_u32 next'.
Proof.
  intros Hsize Hn. unfold next_unused_node_id. pose proof (next_unused_loop_cases s ns (S (size (node_map s))) next Hn) as Hc.
  destruct (next_unused_loop _ _ _ _) as [[next' id]|]; [by exists next', id|]. exfalso.
  set (l := map (fun k => numeric ns (wrap32 (next + Z.of_nat k))) (seq 0 (S (size (node_map s))))).
  assert (NoDup l) as Hnd.
  { apply (NoDup_fmap_2_strong _ _); [|apply NoDup_seq]. intros j k Hj%elem_of_seq Hk%elem_of_seq [= He].
    apply wrap32_add_inj in He; lia. }
  assert (size (list_to_set (C := gset NodeId) l) <= size (dom (node_map s)))%nat as Hle.
  { apply subseteq_size. intros x. rewrite elem_of_list_to_set. intros Hx. apply list_elem_of_fmap in Hx as (k & -> & Hk%elem_of_seq).
    specialize (Hc k ltac:(lia)). unfold node_exists in Hc. apply elem_of_dom. by destruct (node_map s !! _). }
  rewrite size_list_to_set, size_dom in Hle by done. unfold l in Hle. rewrite length_map, length_seq in Hle. lia.
Qed.

(** ** AddNodes *)

(** The request part of an item. *)
Definition same_request (i i' : AddNodeItem) : Prop := i' = an_set_result (an_result_node_id i') (an_status i') i.

Definition parent_edge (i : AddNodeItem) (id : NodeId) : edge := (an_parent i, an_reference_type_id i, id).
Definition new_edges (i : AddNodeItem) (id : NodeId) : edges :=
  {[parent_edge i id]} ∪ (if is_null_id (an_type i) then ∅ else {[(id, HasTypeDefinition, an_type i)]}).

(** The class of the type definition of an object or a variable. *)
Definition type_class (c : NodeClass) : option NodeClass :=
  match c with NcObject => Some NcObjectType | NcVariable => Some NcVariableType | _ => None end.
(** The type definition is a concrete type of the right class, a node of the space or known to the
    type tree only. *)
Definition type_definition_ok (t : DefaultTypeTree) (g : graph) (i : AddNodeItem) : Prop :=
  is_null_id (an_type i) = true \/ forall k, type_class (an_node_class i) = Some k ->
    match g_nodes g !! an_type i with
    | Some n => node_class n = k /\ type_is_abstract n = false
    | None => tt_get (an_type i) t = Some k /\ is_abstract (an_type i) t = Some false
    end.

(** What must hold for an item to add the node [n] as [id]. *)
Record can_add (c : RequestContext) (t : DefaultTypeTree) (g : graph) (i : AddNodeItem) (id : NodeId) (n : NodeType) : Prop := {
  ca_new : g_nodes g !! id = None;
  ca_namespace : is_Some (g_namespaces g !! namespace id);
  ca_id : if is_null_id (an_requested_new_node_id i) then namespace id = namespace (an_parent i) else id = an_requested_new_node_id i;
  ca_built : built (an_node_class i) (an_browse_name i) id n;
  ca_parent : exists p, g_nodes g !! an_parent i = Some p /\ authorize_ctx c p PermissionType.AddNode = true;
  ca_reference_type : is_null_id (an_reference_type_id i) = false;
  ca_sibling m x : (an_parent i, an_reference_type_id i, m) ∈ g_edges g -> g_nodes g !! m = Some x -> node_name x <> an_browse_name i;
  ca_type : type_definition_ok t g i
}.

Definition g_add (n : NodeType) (E : edges) (g : graph) : graph :=
  mkGraph (<[node_id_of n := n]> (g_nodes g)) (E ∪ g_edges g) (g_namespaces g).

(** The item is refused, or its node and its references are added. *)
Inductive add_outcome (c : RequestContext) (t : DefaultTypeTree) (i : AddNodeItem) (g : graph) :
    AddNodeItem -> graph -> list model_change -> Prop :=
| add_refused i' : same_request i i' -> is_bad (an_status i') = true -> add_outcome c t i g i' g []
| add_done id n :
    an_status i = BadNotSupported -> can_add c t g i id n ->
    add_outcome c t i g (an_set_result id Good i) (g_add n (new_edges i id) g) [(id, NODE_ADDED)].

(** Items that crash the request: a variable that cannot be built, or a type definition that is known
    to the type tree only and whose identifier the new node gets. *)
Definition hazardous (i : AddNodeItem) : Prop :=
  (exists id, build_panics (an_node_class i) (an_browse_name i) (an_node_attributes i) id = true)
  \/ is_null_id (an_type i) = false
     /\ if is_null_id (an_requested_new_node_id i)
        then namespace (an_type i) = namespace (an_parent i) else an_type i = an_requested_new_node_id i.

Lemma validate_type_definition_spec s t g i : abstracts s g ->
  match validate_type_definition s t i with
  | Ok _ => type_definition_ok t g i
  | Err st => st = BadTypeDefinitionInvalid
  end.
Proof.
  intros Hs. unfold validate_type_definition, type_definition_ok.
  destruct (is_null_id (an_type i)) eqn:Hn; [by left|].
  assert (forall k, k = NcObjectType \/ k = NcVariableType -> match check_type_definition s t (an_type i) k with
    | Ok _ => match g_nodes g !! an_type i with
        | Some n => node_class n = k /\ type_is_abstract n = false
        | None => tt_get (an_type i) t = Some k /\ is_abstract (an_type i) t = Some false
        end
    | Err st => st = BadTypeDefinitionInvalid end) as Hc.
  { intros k Hk. unfold check_type_definition, find_node. rewrite (ab_nodes s g Hs). destruct (g_nodes g !! an_type i) as [n|].
    - destruct Hk as [-> | ->], n; try reflexivity; cbn [node_class type_is_abstract].
      + by destruct (object_type_is_abstract _).
      + by destruct (vt_is_abstract _).
    - case_bool_decide as Hg; [|reflexivity]. case_bool_decide as Ha; [reflexivity|]. split; [done|].
      unfold is_abstract, tt_get in *. rewrite Hg in *. cbn in *. by case_bool_decide. }
  destruct (an_node_class i) eqn:Hcl; cbn [type_class].
  all: try (right; by intros k [=]).
  - specialize (Hc NcObjectType ltac:(tauto)). destruct (check_type_definition _ _ _ NcObjectType); [|done]. right. by intros k [= <-].
  - specialize (Hc NcVariableType ltac:(tauto)). destruct (check_type_definition _ _ _ NcVariableType); [|done]. right. by intros k [= <-].
Qed.

Lemma first_named_none name l s : first_named name l s = None ->
  forall r x, r ∈ l -> node_map s !! ref_target r = Some x -> node_name x <> name.
Proof.
  induction l as [|y l IH]; cbn [first_named]; [intros _ r x Hr; by apply elem_of_nil in Hr|].
  unfold find_node, named. intros Hn r x [->|Hr]%elem_of_cons Hx.
  - rewrite Hx in Hn. by case_bool_decide.
  - eapply IH; [|exact Hr|exact Hx]. destruct (node_map s !! ref_target y); [|done]. by case_bool_decide.
Qed.

Lemma find_sibling s g t parent rtype name : abstracts s g ->
  exists x, find_node_by_browse_name parent (Some (rtype, false)) BdForward name s t = Ret (t, x)
    /\ (x = None -> forall m n, (parent, rtype, m) ∈ g_edges g -> g_nodes g !! m = Some n -> node_name n <> name).
Proof.
  intros Hs. unfold find_node_by_browse_name. rewrite space_find_references_plain by (by intros f). cbn [outcome_bind].
  eexists. split; [done|]. intros Hx m n Hm Hn. eapply (first_named_none _ _ _ Hx (mkRef rtype m RdForward)).
  - apply (find_references_elem _ (g_edges g)); [apply Hs|]. split; [cbn; by rewrite bool_decide_true|]. cbn. tauto.
  - cbn. by rewrite (ab_nodes s g Hs).
Qed.

Lemma insert_new s g n i (Hs : abstracts s g) (Hnew : g_nodes g !! node_id_of n = None)
    (Hns : is_Some (g_namespaces g !! namespace (node_id_of n))) (Hp : is_Some (g_nodes g !! an_parent i)) :
  match insert n (Some (add_references_of i)) s with
  | Ret (s', added) => added = true /\ abstracts s' (g_add n (new_edges i (node_id_of n)) g)
  | Panic => is_null_id (an_type i) = false /\ an_type i = node_id_of n
  | OutOfFuel => False
  end.
Proof.
  destruct Hs as [Hn Hm He Hk]. unfold insert, assert_namespace, namespace_exists, node_exists. rewrite Hn, Hm, Hnew.
  destruct Hns as [ns Hns]. rewrite Hns. cbn [is_some outcome_bind].
  assert (an_parent i <> node_id_of n) as Hne by (intros Heq; rewrite Heq, Hnew in Hp; by destruct Hp).
  assert (forall r, represents r (new_edges i (node_id_of n) ∪ g_edges g) ->
    abstracts (put_node n (set_references r s)) (g_add n (new_edges i (node_id_of n)) g)) as Hdone.
  { intros r Hr. split; cbn [g_add g_nodes g_edges g_namespaces put_node set_references node_map references space_namespaces];
      [by rewrite Hn|done|done|]. intros k x [[<- <-]|[_ Hx]]%lookup_insert_Some; [by split; [|exists ns]|by apply Hk]. }
  unfold add_references_of, new_edges, parent_edge in *. cbn [refs_insert].
  destruct (insert_represents (references s) (g_edges g) (an_parent i) (an_reference_type_id i) (node_id_of n) He Hne) as (r & -> & Hr).
  cbn [outcome_bind]. destruct (is_null_id (an_type i)); cbn [refs_insert].
  - cbn [outcome_bind]. split; [done|]. apply Hdone. by rewrite union_empty_r_L.
  - destruct (decide (node_id_of n = an_type i)) as [Heq|Hne'].
    + assert (insert_reference (node_id_of n) (an_type i) HasTypeDefinition r = Panic) as ->; [|done].
      unfold insert_reference. by rewrite bool_decide_true.
    + destruct (insert_represents r _ (node_id_of n) HasTypeDefinition (an_type i) Hr Hne') as (r' & -> & Hr').
      cbn [outcome_bind]. split; [done|]. apply Hdone. replace (_ ∪ _ ∪ g_edges g) with
        ({[(node_id_of n, HasTypeDefinition, an_type i)]} ∪ ({[(an_parent i, an_reference_type_id i, node_id_of n)]} ∪ g_edges g)); [done|].
      rewrite (assoc_L (∪)). f_equal. apply (comm_L (∪)).
Qed.

Lemma result_map_err {A B E} (f : A -> B) (m : result A E) e : result_map f m = Err e -> m = Err e.
Proof. by destruct m; intros [=]; subst. Qed.

(** The errors of building are bad. *)
Lemma attributes_mask_error sp al e : attributes_mask sp al = Err e -> is_bad e = true.
Proof.
  unfold attributes_mask. destruct (from_bits _ _); cbn; [|by intros [= <-]]. destruct (_ =? 0); [done|by intros [= <-]].
Qed.
Lemma validate_array_dimensions_error r d e : validate_array_dimensions r d = Err e -> is_bad e = true.
Proof. unfold validate_array_dimensions. by destruct (_ && _); intros [= <-]. Qed.
#[local] Hint Resolve attributes_mask_error validate_array_dimensions_error : core.

Lemma build_variable_error now id name c a e : build_variable now id name c a = Ret (Err e) -> is_bad e = true.
Proof.
  unfold build_variable. destruct (attributes_mask _ _) as [mask|] eqn:Hm; cbn [comp_bind]; [|intros [= <-]; eauto].
  destruct (new_data_value _ _ _ _ _ _ _ _); cbn [outcome_bind]; [|done|done].
  destruct (contains mask AttributesMask.ARRAY_DIMENSIONS); [destruct (va_array_dimensions a)|]; cbn [comp_bind]; [|by intros [= <-]|done].
  destruct (validate_array_dimensions _ _) eqn:Hv; cbn [result_bind comp_bind]; [done|]. intros [= <-]. eauto.
Qed.

Lemma build_node_error now class name attributes id e : build_node now class name attributes id = Ret (Err e) -> is_bad e = true.
Proof.
  destruct class, attributes; cbn [build_node]; try (by intros [= <-]).
  2: { destruct (build_variable _ _ _ _ _) as [[v|e']| |] eqn:Hb; cbn [comp_bind]; try done. intros [= <-]. by eapply build_variable_error. }
  all: intros [= He%result_map_err]; revert He;
    unfold build_object, build_method, build_object_type, build_variable_type, build_reference_type, build_data_type, build_view;
    destruct (attributes_mask _ _) as [mask|] eqn:Hm; cbn [result_bind]; try (intros [= <-]; by eauto).
  - destruct (contains mask AttributesMask.ARRAY_DIMENSIONS); [destruct (vta_array_dimensions a) as [d|]|]; cbn [result_bind]; [|by intros [= <-]|done].
    destruct (validate_array_dimensions _ _) eqn:Hv; cbn [result_bind]; [done|]. intros [= <-]. eauto.
  - destruct (symmetric_inverse_name_is_valid _); [done|by intros [= <-]].
Qed.

Lemma validate_type_refinement_ends s i n t : acyclic t ->
  exists t' r, validate_type_refinement s i n t = Ret (t', r) /\ same_tree t t' /\ forall st, r = Err st -> is_bad st = true.
Proof.
  intros Ha. assert (exists t' r, Ret (t, @Ok unit StatusCode tt) = Ret (t', r) /\ same_tree t t' /\ forall st, r = Err st -> is_bad st = true) as Hok.
  { do 2 eexists. split; [done|]. split; [apply same_tree_refl|done]. }
  unfold validate_type_refinement. destruct n; try exact Hok. clear Hok.
  destruct (query_ends t (an_reference_type_id i) HasSubtype Ha) as (t1 & sub & -> & [c1 ->]). cbn [outcome_bind].
  destruct sub; cbn [negb]; [|do 2 eexists; split; [done|]; split; [by exists c1|done]].
  destruct (find_node _ s) as [[| | | |parent| | |]|]; try (do 2 eexists; split; [done|]; split; [by exists c1|done]).
  assert (exists t2 b, match tt_get (vt_data_type v) (set_subtype_cache c1 t) with
    | Some _ => let! (t, b) := is_subtype_of (vt_data_type v) (vt_data_type parent) (set_subtype_cache c1 t) in Ret (t, negb b)
    | None => Ret (set_subtype_cache c1 t, false) end = Ret (t2, b) /\ same_tree t t2) as (t2 & b & -> & Ht2).
  { destruct (tt_get _ _).
    - destruct (query_ends (set_subtype_cache c1 t) (vt_data_type v) (vt_data_type parent) Ha) as (t2 & b & -> & [c2 ->]).
      cbn. do 2 eexists. split; [done|]. by exists c2.
    - do 2 eexists. split; [done|]. by exists c1. }
  cbn [outcome_bind]. destruct b; [|destruct (value_rank_is_restriction_of _ _)]; cbn [negb]; do 2 eexists; (split; [done|]); (split; [done|]);
    by intros st [= <-].
Qed.

(** The state between two items. *)
Record item_inv (t0 : DefaultTypeTree) (k : nat) (w : Mgmt) (g : graph) : Prop := {
  ii_space : abstracts (mg_space w) g;
  ii_tree : same_tree t0 (mg_tree w);
  ii_next : is_u32 (mg_next w);
  ii_size : Z.of_nat (size (g_nodes g)) + Z.of_nat k <= u32_max
}.

Lemma refused_outcome c t i g st : is_bad st = true -> add_outcome c t i g (an_set_result null_id st i) g [].
Proof. intros Hst. by apply add_refused. Qed.

Lemma item_inv_weaken t0 k w g t next : item_inv t0 (S k) w g -> same_tree t0 t -> is_u32 next ->
  item_inv t0 k (mkMgmt (mg_space w) t next) g.
Proof. intros [H1 H2 H3 H4] Ht Hn. split; [done|done|done|lia]. Qed.

Lemma add_node_outcome c now i t0 k w g : acyclic t0 -> item_inv t0 (S k) w g ->
  (is_bad (an_status i) = true) ->
  match add_node c now i w with
  | Ret (w', i', changes) => exists g', add_outcome c t0 i g i' g' changes /\ item_inv t0 k w' g'
  | Panic => hazardous i
  | OutOfFuel => False
  end.
Proof.
  intros Ha Hinv Hbad. destruct w as [s tr nx]. pose proof Hinv as [Hs Ht Hn Hsz]. cbn [mg_space mg_tree mg_next] in *. pose proof Hs as [Hnm Hns He Hk].
  assert (forall st t next, is_bad st = true -> same_tree t0 t -> is_u32 next ->
    match refused (mkMgmt s t next) st i with
    | Ret (w', i', changes) => exists g', add_outcome c t0 i g i' g' changes /\ item_inv t0 k w' g'
    | Panic => hazardous i | OutOfFuel => False end) as Href.
  { intros st t next Hst Htt Hnx. exists g. split; [by apply refused_outcome|]. by eapply (item_inv_weaken _ _ (mkMgmt s tr nx)). }
  unfold add_node. rewrite Hbad. destruct (Z.eqb_spec (an_status i) BadNotSupported) as [Hst|Hst]; cbn [andb negb].
  2: { exists g. split; [by apply add_refused; [destruct i|]|]. by eapply (item_inv_weaken _ _ (mkMgmt s tr nx)). }
  cbn [mg_space mg_tree mg_next]. unfold node_exists at 1. rewrite Hnm.
  destruct (is_null_id (an_parent i)) eqn:Hpn; [by apply Href|]. cbn [orb].
  destruct (g_nodes g !! an_parent i) as [p|] eqn:Hp; [|by apply Href]. cbn [is_some negb].
  unfold authorize_node_management_permission, find_node. rewrite Hnm, Hp.
  destruct (authorize_ctx c p PermissionType.AddNode) eqn:Hauth; [|by apply Href]. cbn [negb].
  destruct (is_null_id (an_reference_type_id i)) eqn:Hrt; [by apply Href|].
  destruct (find_sibling s g tr (an_parent i) (an_reference_type_id i) (an_browse_name i) Hs) as (sib & -> & Hsib).
  cbn [outcome_bind mg_next]. destruct sib as [x|]; [by apply Href|]. specialize (Hsib eq_refl). cbn [is_some].
  pose proof (validate_type_definition_spec s tr g i Hs) as Htd.
  destruct (validate_type_definition _ _ _) as [[]|st]; [|by subst st; apply Href].
  assert (type_definition_ok t0 g i) as Htd' by (by destruct Ht as [cc ->]).
  (* the identifier *)
  assert (exists next r, (if is_null_id (an_requested_new_node_id i)
      then let! (next, id) := next_unused_node_id s (namespace (an_parent i)) nx in Ret (next, Ok id)
      else if negb (namespace_exists (namespace (an_requested_new_node_id i)) s) then Ret (nx, Err BadNodeIdRejected)
      else if node_exists (an_requested_new_node_id i) s then Ret (nx, Err BadNodeIdExists)
      else Ret (nx, Ok (an_requested_new_node_id i))) = Ret (next, r) /\ is_u32 next /\
    match r with
    | Err st => is_bad st = true
    | Ok id => g_nodes g !! id = None /\ is_Some (g_namespaces g !! namespace id)
        /\ if is_null_id (an_requested_new_node_id i) then namespace id = namespace (an_parent i) else id = an_requested_new_node_id i
    end) as (next & r & -> & Hnx & Hr).
  { destruct (is_null_id (an_requested_new_node_id i)).
    - destruct (next_unused_found s (namespace (an_parent i)) nx) as (nx' & id & -> & Hfree & [j ->] & Hnx).
      { rewrite Hnm. lia. } { done. }
      cbn [outcome_bind]. do 2 eexists. split; [done|]. split; [done|]. unfold node_exists in Hfree. rewrite Hnm in Hfree.
      split; [by destruct (g_nodes g !! numeric _ _)|]. split; [|done]. cbn. by apply (Hk _ p).
    - unfold namespace_exists, node_exists. rewrite Hns, Hnm. destruct (g_namespaces g !! _) as [ns|] eqn:Hx; cbn [is_some negb].
      + destruct (g_nodes g !! an_requested_new_node_id i) eqn:Hy; cbn [is_some]; do 2 eexists; (split; [done|]); (split; [done|]); [done|].
        split; [done|]. split; [|done]. by rewrite Hx.
      + do 2 eexists. split; [done|]. by split. }
  cbn [outcome_bind]. destruct r as [id|st]; [|by apply Href].
  destruct Hr as (Hnew & Hidns & Hid).
  pose proof (build_node_cases now (an_node_class i) (an_browse_name i) (an_node_attributes i) id) as Hb.
  destruct (build_panics _ _ _ _) eqn:Hbp; [rewrite Hb; left; by exists id|]. destruct Hb as (b & Hbr & Hb). rewrite Hbr. cbn [outcome_bind].
  destruct b as [n|st]; [|apply Href; [by eapply build_node_error|done|done]]. specialize (Hb n eq_refl).
  destruct (validate_type_refinement_ends s i n tr) as (t2 & r & -> & Ht2 & Hre).
  { by destruct Ht as [cc ->]. }
  cbn [outcome_bind]. assert (same_tree t0 t2) by (by eapply same_tree_trans).
  destruct r as [[]|st]; [|apply Href; [by apply Hre|done|done]].
  assert (node_id_of n = id) as Hnid by apply Hb.
  pose proof (insert_new s g n i Hs) as Hins. rewrite Hnid in Hins.
  specialize (Hins Hnew Hidns (mk_is_Some _ _ Hp)).
  destruct (insert n _ s) as [[s' added]| |]; cbn [outcome_bind]; [|right|done].
  - destruct Hins as [-> Hs']. exists (g_add n (new_edges i id) g). split.
    + apply add_done; [done|]. split; try done. by exists p.
    + split; cbn [mg_space mg_tree mg_next]; [exact Hs'|done|done|]. cbn [g_add g_nodes].
      rewrite map_size_insert_None by (by rewrite Hnid). lia.
  - destruct Hins as [Htn Hti]. split; [done|]. rewrite Hti. by destruct (is_null_id (an_requested_new_node_id i)).
Qed.

(** *** Chains of items *)

(** The items of a request, each from the graph that the one before it leaves. *)
Inductive chain {I : Type} (R : I -> graph -> I -> graph -> list model_change -> Prop) :
    list I -> graph -> list I -> graph -> list model_change -> Prop :=
| chain_nil g : chain R [] g [] g []
| chain_cons i l g i' g1 changes l' g' changes' :
    R i g i' g1 changes -> chain R l g1 l' g' changes' -> chain R (i :: l) g (i' :: l') g' (changes ++ changes').

Lemma each_item_chain {I : Type} (f : I -> Mgmt -> outcome (Mgmt * I * list model_change))
    (R : I -> graph -> I -> graph -> list model_change -> Prop) (Inv : nat -> Mgmt -> graph -> Prop) (ok hazard : I -> Prop) :
  (forall i k w g, ok i -> Inv (S k) w g ->
     match f i w with
     | Ret (w', i', changes) => exists g', R i g i' g' changes /\ Inv k w' g'
     | Panic => hazard i
     | OutOfFuel => False
     end) ->
  forall l w g, Forall ok l -> Inv (length l) w g ->
    match each_item f l w with
    | Ret (w', l', changes) => exists g', chain R l g l' g' changes /\ Inv 0%nat w' g'
    | Panic => Exists hazard l
    | OutOfFuel => False
    end.
Proof.
  intros Hf l. induction l as [|i l IH]; intros w g Hl Hinv; cbn [each_item].
  { exists g. split; [constructor|done]. }
  apply Forall_cons in Hl as [Hi Hl]. specialize (Hf i (length l) w g Hi Hinv).
  destruct (f i w) as [[[w1 i'] changes]| |]; cbn [outcome_bind]; [|by left|done]. destruct Hf as (g1 & HR & Hinv1).
  specialize (IH w1 g1 Hl Hinv1). destruct (each_item f l w1) as [[[w2 l'] changes']| |]; cbn [outcome_bind]; [|by right|done].
  destruct IH as (g2 & Hc & Hinv2). exists g2. split; [by econstructor|done].
Qed.

Lemma chain_map {I : Type} (h : I -> I) (R R' : I -> graph -> I -> graph -> list model_change -> Prop) l :
  (forall i g i' g' changes, i ∈ l -> R (h i) g i' g' changes -> R' i g i' g' changes) ->
  forall g l' g' changes, chain R (map h l) g l' g' changes -> chain R' l g l' g' changes.
Proof.
  induction l as [|i l IH]; intros HR g l' g' changes Hc; inversion Hc; subst; [constructor|].
  econstructor; [apply HR; [set_solver|done]|]. apply IH; [|done]. intros. apply HR; [set_solver|done].
Qed.

(** Items that are all refused. *)
Lemma chain_refused {I : Type} (R : I -> graph -> I -> graph -> list model_change -> Prop) (h : I -> I) g l :
  (forall i, i ∈ l -> R i g (h i) g []) -> chain R l g (map h l) g [].
Proof.
  induction l as [|i l IH]; intros HR; [constructor|]. cbn. apply (chain_cons R i l g (h i) g [] (map h l) g []).
  - apply HR. set_solver.
  - apply IH. intros. apply HR. set_solver.
Qed.

Lemma validate_add_node_spec ids s t g i : abstracts s g ->
  validate_add_node ids s t i = i
  \/ exists st, validate_add_node ids s t i = an_set_result null_id st i /\ is_bad st = true /\ st <> BadNotSupported.
Proof.
  intros Hs. unfold validate_add_node. destruct (an_status i =? BadNotSupported); cbn [negb]; [|by left].
  destruct (_ && negb (bool_decide _)); [right; by eexists|]. destruct (_ && _); [right; by eexists|].
  destruct (reference_type_is_known _ _); cbn [negb]; [|right; by eexists].
  pose proof (validate_type_definition_spec s t g i Hs) as Hv. destruct (validate_type_definition s t i); [by left|]. subst. right. by eexists.
Qed.

Lemma same_request_set i id st i' : same_request (an_set_result id st i) i' -> same_request i i'.
Proof. unfold same_request. by intros ->. Qed.

Definition bad_status (i : AddNodeItem) : Prop := is_bad (an_status i) = true.

(** The checks before the gate do not change what an item can do. *)
Lemma validated_outcome c t0 ids s t g0 : abstracts s g0 -> forall i g i' g' changes,
  add_outcome c t0 (validate_add_node ids s t i) g i' g' changes -> add_outcome c t0 i g i' g' changes.
Proof.
  intros Hs i g i' g' changes Ho. destruct (validate_add_node_spec ids s t g0 i Hs) as [He|(st & He & Hb & Hne)]; rewrite He in Ho; [done|].
  inversion Ho as [i1 Hr Hb1|id n Hst]; subst; [|done]. apply add_refused; [by eapply same_request_set|done].
Qed.

(** The gate refuses what the checks left. *)
Lemma gated_outcome c t0 ids s t g0 g i : abstracts s g0 -> bad_status i ->
  add_outcome c t0 i g
    (let v := validate_add_node ids s t i in if an_status v =? BadNotSupported then an_set_result null_id BadServiceUnsupported v else v) g [].
Proof.
  unfold bad_status. intros Hs Hb. destruct (validate_add_node_spec ids s t g0 i Hs) as [He|(st & He & Hbs & Hne)]; rewrite He; cbn zeta.
  - destruct (_ =? _); apply add_refused; [done|done|by destruct i|done].
  - destruct (_ =? _); by apply add_refused.
Qed.

Lemma hazardous_set id st i : hazardous (an_set_result id st i) -> hazardous i.
Proof. done. Qed.

Lemma abstracts_invalidate s g : abstracts s g -> abstracts (invalidate_browse_name_index s) g.
Proof. by intros [H1 H2 H3 H4]. Qed.

(** C22: AddNodes does to the graph of nodes and references a chain of its items, in order: each is
    refused with a bad status and changes nothing, or gets a new identifier (the requested one, or
    an unused one in the parent's namespace), its node is of the requested class and name, and
    exactly its parent reference and its type definition reference are added, under the conditions
    that [can_add] lists, one NODE_ADDED event each; the browse name index is invalidated, the gate
    refuses all, and only a hazardous item crashes the request. The types have no cycle and there
    are fewer nodes than numbers for them. *)
Theorem add_nodes_refines_graph c now l w g (Hs : abstracts (mg_space w) g) (Ha : acyclic (mg_tree w)) (Hn : is_u32 (mg_next w))
    (Hsize : Z.of_nat (size (g_nodes g)) + Z.of_nat (length l) <= u32_max) (Hl : Forall bad_status l) :
  match manager_add_nodes c now l w with
  | Ret (w', l', changes) =>
      exists g', abstracts (mg_space w') g' /\ browse_name_index (mg_space w') = None /\ same_tree (mg_tree w) (mg_tree w')
        /\ chain (add_outcome c (mg_tree w)) l g l' g' changes
        /\ (clients_can_modify_address_space c = false -> g' = g /\ changes = [])
  | Panic => Exists hazardous l
  | OutOfFuel => False
  end.
Proof.
  unfold manager_add_nodes, with_invalidation, add_nodes_impl. set (h := validate_add_node _ _ _).
  destruct (clients_can_modify_address_space c); cbn [negb outcome_bind].
  2: { exists g. cbn [mg_space mg_tree]. split; [by apply abstracts_invalidate|]. split; [done|]. split; [apply same_tree_refl|].
    split; [|done]. rewrite map_map. apply (chain_refused _ (fun i => if an_status (h i) =? BadNotSupported then _ else h i)).
    intros i Hi. eapply gated_outcome; [exact Hs|]. by eapply (proj1 (Forall_forall _ _) Hl). }
  pose proof (each_item_chain (add_node c now) (add_outcome c (mg_tree w)) (item_inv (mg_tree w)) bad_status hazardous) as He.
  specialize (He (fun i k w' g' Hb Hi => add_node_outcome c now i (mg_tree w) k w' g' Ha Hi Hb) (map h l) w g).
  assert (forall i, bad_status i -> bad_status (h i)) as Hh.
  { intros i Hb. unfold h. destruct (validate_add_node_spec (new_ids l) _ (mg_tree w) g i Hs) as [->|(st & -> & Hb' & _)]; done. }
  specialize (He ltac:(apply List.Forall_map; eapply Forall_impl; [exact Hl|exact Hh])).
  specialize (He ltac:(split; [done|apply same_tree_refl|done|by rewrite length_map])).
  destruct (each_item _ _ _) as [[[w' l'] changes]| |]; cbn [outcome_bind]; [|apply (Exists_fmap h) in He|done].
  - destruct He as (g' & Hc & [Hs' Ht' _ _]). exists g'. cbn [mg_space mg_tree]. split; [by apply abstracts_invalidate|].
    split; [done|]. split; [done|]. split; [|done]. eapply chain_map; [|exact Hc]. intros i gg i' gg' ch _ Ho. exact (validated_outcome _ _ _ _ _ _ Hs _ _ _ _ _ Ho).
  - eapply Exists_impl; [exact He|]. intros i Hz. unfold h in Hz.
    destruct (validate_add_node_spec (new_ids l) _ (mg_tree w) g i Hs) as [Hv|(st & Hv & _)]; cbn in Hz; rewrite Hv in Hz; [done|by apply hazardous_set in Hz].
Qed.

(** ** DeleteNodes *)

Definition g_delete (n : NodeId) (g : graph) : graph :=
  mkGraph (base.delete n (g_nodes g)) (without_node n (g_edges g)) (g_namespaces g).

(** The item is refused; or its node is deleted with all its references; or an earlier item of the
    request has deleted the node, and only references that have come back go. *)
Inductive delete_outcome (c : RequestContext) (i : DeleteNodeItem) (g : graph) : DeleteNodeItem -> graph -> list model_change -> Prop :=
| delete_refused st : is_bad st = true -> delete_outcome c i g (dn_set_result st i) g []
| delete_done n :
    g_nodes g !! dn_node_id i = Some n -> authorize_ctx c n PermissionType.DeleteNode = true ->
    delete_outcome c i g (dn_set_result Good i) (g_delete (dn_node_id i) g) [(dn_node_id i, NODE_DELETED)]
| delete_gone : g_nodes g !! dn_node_id i = None ->
    delete_outcome c i g (dn_set_result BadNodeIdUnknown i) (g_delete (dn_node_id i) g) [].

Definition delete_ok (i : DeleteNodeItem) : Prop := is_bad (dn_status i) = true /\ dn_delete_target_references i = true.

Lemma delete_abstracts s g n : abstracts s g ->
  abstracts (delete n true s).1 (g_delete n g) /\ (delete n true s).2 = g_nodes g !! n.
Proof.
  intros [Hn Hm He Hk]. unfold delete, space_delete_node_references. cbn [fst snd references].
  pose proof (delete_node_represents (references s) (g_edges g) n He) as Hr.
  destruct (delete_node_references n true (references s)) as [r b]. cbn [fst snd] in *. split; [|by rewrite Hn].
  split; cbn [g_delete g_nodes g_edges g_namespaces node_map references space_namespaces set_references]; [by rewrite Hn|done|done|].
  intros k x [_ Hx]%lookup_delete_Some. by apply Hk.
Qed.

Lemma delete_node_outcome c i w g : delete_ok i -> abstracts (mg_space w) g ->
  match delete_node c i w with
  | Ret (w', i', changes) => exists g', delete_outcome c i g i' g' changes
      /\ (abstracts (mg_space w') g' /\ mg_tree w' = mg_tree w /\ mg_next w' = mg_next w)
  | _ => False
  end.
Proof.
  intros [Hb Ht] Hs. unfold delete_node. rewrite Hb, Ht. destruct (dn_status i =? BadNotSupported); cbn [andb negb].
  2: { exists g. split; [|done]. destruct i as [id tr st]. by apply (delete_refused c (mkDeleteNode id tr st) g st). }
  destruct (is_null_id (dn_node_id i)); [exists g; split; [by apply delete_refused|done]|].
  destruct (authorize_node_management_permission _ _ _ _) eqn:Ha; cbn [negb]; [|exists g; split; [by apply delete_refused|done]].
  destruct (delete_abstracts (mg_space w) g (dn_node_id i) Hs) as [Hd Hn]. destruct (delete (dn_node_id i) true (mg_space w)) as [s' n].
  cbn [fst snd] in Hd, Hn. unfold authorize_node_management_permission, find_node in Ha. rewrite (ab_nodes _ _ Hs), <- Hn in Ha.
  symmetry in Hn. destruct n as [n|]; exists (g_delete (dn_node_id i) g); (split; [|done]); [by eapply delete_done|by apply delete_gone].
Qed.

Lemma validate_delete_node_spec c s i :
  validate_delete_node c s i = i \/ exists st, validate_delete_node c s i = dn_set_result st i /\ is_bad st = true.
Proof.
  unfold validate_delete_node. destruct (_ =? _); cbn [negb]; [|by left]. destruct (node_exists _ _); [|by left]. right.
  destruct (negb _); by eexists.
Qed.

Lemma delete_outcome_set c i g st i' g' changes : delete_outcome c (dn_set_result st i) g i' g' changes -> delete_outcome c i g i' g' changes.
Proof.
  destruct 1 as [st' Hb|n Hn Ha|Hn].
  - by apply (delete_refused c i g).
  - by eapply (delete_done c i g).
  - by apply (delete_gone c i g).
Qed.

(** C23: DeleteNodes with target references does to the graph a chain of its items: each is refused and
    changes nothing, or its node exists, the user may delete it, and it goes together with every
    reference to or from it, with one NODE_DELETED event; a node that an earlier item of the request
    has deleted is reported unknown.  The request always returns, the gate refuses all, and the
    browse name index is invalidated. *)
Theorem delete_nodes_refines_graph c l w g (Hs : abstracts (mg_space w) g) (Hl : Forall delete_ok l) :
  exists w' l' changes g', manager_delete_nodes c l w = Ret (w', l', changes)
    /\ abstracts (mg_space w') g' /\ browse_name_index (mg_space w') = None /\ mg_tree w' = mg_tree w
    /\ chain (delete_outcome c) l g l' g' changes
    /\ (clients_can_modify_address_space c = false -> g' = g /\ changes = []).
Proof.
  unfold manager_delete_nodes, with_invalidation, delete_nodes_impl. set (h := validate_delete_node _ _).
  assert (forall i, delete_ok i -> delete_ok (h i)) as Hh.
  { intros i [Hb Ht]. unfold h. by destruct (validate_delete_node_spec c (mg_space w) i) as [->|(st & -> & Hb')]. }
  assert (forall i g i' g' changes, delete_outcome c (h i) g i' g' changes -> delete_outcome c i g i' g' changes) as Hout.
  { intros i g0 i' g' changes. unfold h. destruct (validate_delete_node_spec c (mg_space w) i) as [->|(st & -> & _)]; [done|].
    apply delete_outcome_set. }
  destruct (clients_can_modify_address_space c); cbn [negb outcome_bind].
  2: { do 4 eexists. split; [done|]. cbn [mg_space mg_tree]. split; [by apply abstracts_invalidate|]. split; [done|]. split; [done|].
    split; [|done]. rewrite map_map. apply (chain_refused _ (fun i => if dn_status (h i) =? BadNotSupported then _ else h i)).
    intros i Hi. apply Hout. pose proof (proj1 (Forall_forall _ _) Hl i Hi) as Hi'. apply Hh in Hi' as [Hb _].
    destruct (_ =? _); [by apply delete_refused|]. destruct (h i) as [id tr st]. by apply (delete_refused c (mkDeleteNode id tr st) g st). }
  pose proof (each_item_chain (delete_node c) (delete_outcome c)
    (fun _ w' g' => abstracts (mg_space w') g' /\ mg_tree w' = mg_tree w /\ mg_next w' = mg_next w) delete_ok (fun _ => False)) as He.
  specialize (He ltac:(intros i k w1 g1 Hi (Hs1 & Ht1 & Hn1); pose proof (delete_node_outcome c i w1 g1 Hi Hs1) as Hd;
    destruct (delete_node c i w1) as [[[w2 i'] ch]| |]; [rewrite Ht1, Hn1 in Hd|..]; done)).
  specialize (He (map h l) w g ltac:(apply List.Forall_map; eapply Forall_impl; [exact Hl|exact Hh]) ltac:(done)).
  destruct (each_item _ _ _) as [[[w' l'] changes]| |]; [|by apply Exists_exists in He as (? & _ & [])|done].
  destruct He as (g' & Hc & Hs' & Ht' & _). do 4 eexists. split; [done|]. cbn [mg_space mg_tree].
  split; [by apply abstracts_invalidate|]. split; [done|]. split; [done|]. split; [|done].
  eapply chain_map; [|exact Hc]. intros i g1 i1 g2 ch _. apply Hout.
Qed.

(** The other managers then know no reference of the nodes that were deleted. *)
Lemma delete_node_references_abstracts l : forall w g, abstracts (mg_space w) g -> Forall (fun i => dn_delete_target_references i = true) l ->
  abstracts (mg_space (manager_delete_node_references l w))
    (mkGraph (g_nodes g) (fold_left (fun E i => if is_good (dn_status i) then without_node (dn_node_id i) E else E) l (g_edges g))
       (g_namespaces g)).
Proof.
  intros w g Hs Hl. apply abstracts_invalidate. cbn [mg_space]. revert g Hs. generalize (mg_space w).
  induction Hl as [|i l Hi Hl IH]; intros s g Hs; [by destruct g|]. cbn [fold_left].
  set (E := if is_good (dn_status i) then _ else _). apply (IH _ (mkGraph (g_nodes g) E (g_namespaces g))).
  unfold delete_good_references. subst E. rewrite Hi. destruct (is_good (dn_status i)); [|by destruct g].
  destruct Hs as [Hn Hm He Hk]. unfold space_delete_node_references.
  pose proof (delete_node_represents (references s) (g_edges g) (dn_node_id i) He) as Hr.
  destruct (delete_node_references _ _ _) as [r b]. by split.
Qed.

End facts.

(** ** Witnesses *)

#[local] Existing Instances no_dyn keep_all elements_order.
#[local] Instance elements_children : ChildOrder := {| child_order := elements; child_order_perm s := reflexivity _ |}.

(** Two linked nodes, a tree that knows a reference type, and a user without restrictions. *)
Definition linked_references : References :=
  match insert_reference (node 1) (node 2) (ns0 35) references_new with Ret r => r | _ => references_new end.
Definition two_nodes : AddressSpace :=
  set_references linked_references (put_node (object_named 2 (str "child")) parent_only).
Definition two_edges : edges := {[(node 1, ns0 35, node 2)]} ∪ ∅.
Definition two_graph : graph := mkGraph (node_map two_nodes) two_edges (space_namespaces two_nodes).
Definition organizing_tree : DefaultTypeTree := add_type_node (ns0 35) References_id NcReferenceType false type_tree_new.
Definition free_user : RequestContext := mkContext [] false ∅ MsmNone None (fun level _ => level) true.
Definition example_mgmt : Mgmt := mkMgmt two_nodes organizing_tree 7.

Lemma two_nodes_abstracts : abstracts two_nodes two_graph.
Proof.
  split; [done|done| |].
  - cbn [two_nodes set_references references]. unfold linked_references.
    destruct (insert_represents references_new ∅ (node 1) (ns0 35) (node 2) references_new_represents ltac:(done)) as (r & Hr & Hrep).
    cbn [two_graph g_edges]. rewrite Hr. exact Hrep.
  - intros k n Hn. change (g_nodes two_graph) with (node_map two_nodes) in Hn.
    assert (map_Forall (fun k n => node_id_of n = k /\ is_some (g_namespaces two_graph !! namespace k) = true) (node_map two_nodes)) as Hall.
    { unfold two_nodes, parent_only, put_node, set_references, space_add_namespace, space_new. cbn [node_map].
      apply map_Forall_insert_2; [split; vm_compute; reflexivity|]. apply map_Forall_insert_2; [split; vm_compute; reflexivity|].
      apply map_Forall_empty. }
    destruct (Hall k n Hn) as [-> Hs]. split; [done|]. by destruct (g_namespaces two_graph !! namespace k).
Qed.
Lemma organizing_tree_acyclic : acyclic organizing_tree.
Proof.
  apply (ranked_acyclic (fun n => if decide (n = ns0 35) then 1 else 0)%nat), (bool_decide_unpack _). vm_compute. exact I.
Qed.

Definition local_id (n : NodeId) : ExpandedNodeId := {| node_id := n; namespace_uri := None; server_index := 0 |}.
Definition new_object (name : rstr) : AddNodeItem :=
  add_node_item_new (local_id (node 1)) (ns0 35) (local_id null_id) (name_of name) NcObject
    (Ok (AaObject no_attributes 0)) (local_id BaseObjectType).

(** Of two items with one name the first is added and the second refused. *)
Example second_name_refused :
  match manager_add_nodes free_user 0 [new_object (str "a"); new_object (str "a")] example_mgmt with
  | Ret (w, l, changes) =>
      map (fun i => (an_result_node_id i, an_status i)) l = [(node 7, Good); (null_id, BadBrowseNameDuplicated)]
      /\ changes = [(node 7, NODE_ADDED)] /\ mg_next w = 8
  | _ => False
  end.
Proof. vm_compute. repeat split. Qed.

(** A node that is its own type, which only the type tree knows, crashes the request. *)
Example own_type_panics :
  manager_add_nodes free_user 0
    [add_node_item_new (local_id (node 1)) (ns0 35) (local_id BaseObjectType) (name_of (str "a")) NcObject
       (Ok (AaObject no_attributes 0)) (local_id BaseObjectType)]
    (mkMgmt (space_add_namespace (str "urn:zero") 0 two_nodes) organizing_tree 7) = Panic.
Proof. vm_compute. reflexivity. Qed.

Lemma add_nodes_refines_graph_witness :
  match manager_add_nodes free_user 0 [new_object (str "a")] example_mgmt with
  | Ret (w', l', changes) =>
      exists g', abstracts (mg_space w') g' /\ browse_name_index (mg_space w') = None /\ same_tree organizing_tree (mg_tree w')
        /\ chain (add_outcome free_user organizing_tree) [new_object (str "a")] two_graph l' g' changes
        /\ (true = false -> g' = two_graph /\ changes = [])
  | Panic => Exists hazardous [new_object (str "a")]
  | OutOfFuel => False
  end.
Proof.
  apply (add_nodes_refines_graph free_user 0 [new_object (str "a")] example_mgmt two_graph two_nodes_abstracts organizing_tree_acyclic).
  - by apply (bool_decide_unpack _).
  - vm_compute. intros [=].
  - constructor; [reflexivity|constructor].
Defined.

Lemma delete_nodes_refines_graph_witness :
  exists w' l' changes g', manager_delete_nodes free_user [delete_node_item_new (node 2) true] example_mgmt = Ret (w', l', changes)
    /\ abstracts (mg_space w') g' /\ browse_name_index (mg_space w') = None /\ mg_tree w' = organizing_tree
    /\ chain (delete_outcome free_user) [delete_node_item_new (node 2) true] two_graph l' g' changes
    /\ (true = false -> g' = two_graph /\ changes = []).
Proof.
  apply (delete_nodes_refines_graph free_user [delete_node_item_new (node 2) true] example_mgmt two_graph two_nodes_abstracts).
  constructor; [by split|constructor].
Defined.
