(* ===== verification/ReferenceServiceFacts.v ===== *)
(** * Facts on the reference services

    AddReferences and DeleteReferences act on the edges of the graph of NodeManagementFacts.v: a chain
    of items that are dropped or add or remove exactly their edge. *)

From S2P Require Import Prelude Text StatusCode NumericRange Variant References TypeTree Nodes Rbac AddressSpace NodeManagement NodeManagementFacts.
#[local] Open Scope Z_scope.

Section facts.
Context {D : DynEncodable} {M : Moka} {RO : RefOrder} {CO : ChildOrder}.

(** ** Items *)

Definition same_reference (i i' : ReferenceItem) : Prop :=
  ri_source_node_id i' = ri_source_node_id i /\ ri_reference_type_id i' = ri_reference_type_id i
  /\ ri_is_forward i' = ri_is_forward i /\ ri_target_node_id i' = ri_target_node_id i.
(** No end turns good. *)
Definition not_better (i i' : ReferenceItem) : Prop :=
  (is_good (ri_source_status i') = true -> is_good (ri_source_status i) = true)
  /\ (is_good (ri_target_status i') = true -> is_good (ri_target_status i) = true).
(** The same request, no better. *)
Definition dropped_to (i i' : ReferenceItem) : Prop := same_reference i i' /\ not_better i i'.

Lemma dropped_to_refl i : dropped_to i i.
Proof. by split. Qed.
Lemma dropped_to_trans i1 i2 i3 : dropped_to i1 i2 -> dropped_to i2 i3 -> dropped_to i1 i3.
Proof. unfold dropped_to, same_reference, not_better. intros ((-> & -> & -> & ->) & H1 & H2) ((-> & -> & -> & ->) & H3 & H4). tauto. Qed.
Lemma dropped_to_refuse a b st i : is_good st = false -> dropped_to i (refuse a b st i).
Proof. intros Hst. unfold dropped_to, same_reference, not_better, refuse. destruct a, b; cbn; rewrite ?Hst; naive_solver. Qed.
Lemma dropped_to_refuse_pending hs ht st i : is_good st = false -> dropped_to i (refuse_pending hs ht st i).
Proof. apply dropped_to_refuse. Qed.
Lemma dropped_to_missing hs ht s i : dropped_to i (missing_ends hs ht s i).
Proof.
  unfold missing_ends. set (i1 := if hs && _ then _ else _).
  assert (dropped_to i i1) as H1.
  { subst i1. destruct (hs && _); [by apply (dropped_to_refuse true false)|apply dropped_to_refl]. }
  destruct (ht && _); [|done]. eapply dropped_to_trans; [exact H1|]. by apply (dropped_to_refuse false true).
Qed.
Lemma dropped_to_unsupported i : dropped_to i (unsupported i).
Proof.
  assert (unsupported i = refuse_pending true true BadServiceUnsupported i) as ->
    by (unfold unsupported, refuse_pending, refuse, source_pending, target_pending; cbn [andb];
        destruct (ri_source_status i =? _); reflexivity).
  by apply dropped_to_refuse_pending.
Qed.

Lemma validate_add_dropped s t i : dropped_to i (validate_add_reference s t i).
Proof.
  unfold validate_add_reference. destruct (negb _ && negb _); [apply dropped_to_refl|].
  destruct (negb _ && negb _); [apply dropped_to_refl|].
  set (i1 := missing_ends _ _ _ _). assert (dropped_to i i1) as H1 by apply dropped_to_missing.
  assert (forall st, is_good st = false -> dropped_to i (refuse_pending (handle_source s i) (handle_target s i) st i1)) as H2.
  { intros st Hst. eapply dropped_to_trans; [exact H1|]. by apply dropped_to_refuse_pending. }
  destruct (negb _); [by apply H2|]. destruct (_ && _); [|done]. destruct (ends i1). case_bool_decide; [by apply H2|].
  destruct (space_has_reference _ _ _ _); [by apply H2|done].
Qed.
Lemma validate_delete_dropped s t i : dropped_to i (validate_delete_reference s t i).
Proof.
  unfold validate_delete_reference. destruct (negb _ && negb _); [apply dropped_to_refl|].
  destruct (negb _ && negb _); [apply dropped_to_refl|]. destruct (negb _); [|apply dropped_to_missing].
  eapply dropped_to_trans; [apply dropped_to_missing|]. by apply dropped_to_refuse_pending.
Qed.

(** ** Outcomes *)

Definition edge_of (i : ReferenceItem) : edge := let '(source, target) := ends i in (source, ri_reference_type_id i, target).
Definition edge_back (i : ReferenceItem) : edge := let '(source, target) := ends i in (target, ri_reference_type_id i, source).
Definition g_set_edges (E : edges) (g : graph) : graph := mkGraph (g_nodes g) E (g_namespaces g).

(** What holds when an item reaches the tables: an end exists, and the user may change the references of
    the source. *)
Record reachable_ends (c : RequestContext) (required : Z) (g : graph) (i : ReferenceItem) : Prop := {
  re_exists : is_Some (g_nodes g !! ri_source_node_id i) \/ is_Some (g_nodes g !! target_of i);
  re_authorized n : g_nodes g !! ri_source_node_id i = Some n -> authorize_ctx c n required = true
}.

(** The class of a node, in the space or in the tree. *)
Definition class_of (t : DefaultTypeTree) (g : graph) (n : NodeId) : option NodeClass :=
  match g_nodes g !! n with Some x => Some (node_class x) | None => tt_get n t end.
(** Properties are variables; subtypes are types of one class. *)
Definition structure_ok (t : DefaultTypeTree) (g : graph) (e : edge) : Prop :=
  let '(source, ty, target) := e in
  (subtype t ty HasProperty -> forall n, g_nodes g !! target = Some n -> node_class n = NcVariable)
  /\ (~ subtype t ty HasProperty -> subtype t ty HasSubtype ->
      forall a b, class_of t g source = Some a -> class_of t g target = Some b -> a = b /\ is_type_class a = true).

Record can_reference (c : RequestContext) (t : DefaultTypeTree) (g : graph) (class : NodeClass) (i : ReferenceItem) : Prop := {
  cr_ends : reachable_ends c PermissionType.AddReference g i;
  cr_type : tt_get (ri_reference_type_id i) t = Some NcReferenceType;
  cr_concrete : match g_nodes g !! ri_reference_type_id i with
                | Some (NtReferenceType r) => reference_type_is_abstract r = false
                | Some _ => True
                | None => standard_reference_type_is_abstract (ri_reference_type_id i) = false
                end;
  cr_no_loop : ri_source_node_id i <> target_of i;
  cr_class n : g_nodes g !! target_of i = Some n -> class = NcUnspecified \/ node_class n = class;
  cr_structure : structure_ok t g (edge_of i);
  cr_one_type m : ri_reference_type_id i = HasTypeDefinition -> ((edge_of i).1.1, HasTypeDefinition, m) ∉ g_edges g;
  cr_new : edge_of i ∉ g_edges g
}.

Inductive add_reference_outcome (c : RequestContext) (t : DefaultTypeTree) (class : NodeClass) (i : ReferenceItem) (g : graph) :
    ReferenceItem -> graph -> list model_change -> Prop :=
| reference_dropped i' : dropped_to i i' -> add_reference_outcome c t class i g i' g []
| reference_added i' : same_reference i i' -> is_good (result_status i') = true -> can_reference c t g class i ->
    add_reference_outcome c t class i g i' (g_set_edges ({[edge_of i]} ∪ g_edges g) g) [(ri_source_node_id i, REFERENCE_ADDED)].

Inductive delete_reference_outcome (c : RequestContext) (t : DefaultTypeTree) (bidirectional : bool) (i : ReferenceItem) (g : graph) :
    ReferenceItem -> graph -> list model_change -> Prop :=
| reference_kept i' : dropped_to i i' -> delete_reference_outcome c t bidirectional i g i' g []
| reference_deleted i' : same_reference i i' -> is_good (result_status i') = true ->
    reachable_ends c PermissionType.RemoveReference g i -> tt_get (ri_reference_type_id i) t = Some NcReferenceType ->
    delete_reference_outcome c t bidirectional i g i'
      (g_set_edges (if bidirectional then (g_edges g ∖ {[edge_of i]}) ∖ {[edge_back i]} else g_edges g ∖ {[edge_of i]}) g)
      [(ri_source_node_id i, REFERENCE_DELETED)].

(** The conditions only read the request. *)
Lemma same_reference_fields i i' : same_reference i i' ->
  ri_source_node_id i' = ri_source_node_id i /\ ri_reference_type_id i' = ri_reference_type_id i /\ target_of i' = target_of i
  /\ edge_of i' = edge_of i /\ edge_back i' = edge_back i.
Proof.
  destruct i, i'. unfold same_reference, edge_of, edge_back, ends, target_of. cbn. intros (-> & -> & -> & ->). done.
Qed.
Lemma reachable_ends_same c required g i i' : same_reference i i' -> reachable_ends c required g i' -> reachable_ends c required g i.
Proof. intros (Hs & Hr & Ht & _)%same_reference_fields [H1 H2]. rewrite Hs, Ht in *. by split. Qed.
Lemma can_reference_same c t g class i i' : same_reference i i' -> can_reference c t g class i' -> can_reference c t g class i.
Proof.
  intros Hsame. pose proof (same_reference_fields i i' Hsame) as (Hs & Hr & Ht & He & _). intros [H1 H2 H3 H4 H5 H6 H7 H8].
  apply (reachable_ends_same _ _ _ _ _ Hsame) in H1. rewrite ?Hs, ?Hr, ?Ht, ?He in *. by split.
Qed.
Lemma dropped_to_same i i' : dropped_to i i' -> same_reference i i'.
Proof. by intros []. Qed.
Lemma same_reference_trans i1 i2 i3 : same_reference i1 i2 -> same_reference i2 i3 -> same_reference i1 i3.
Proof. unfold same_reference. by intros (-> & -> & -> & ->) (-> & -> & -> & ->). Qed.

Lemma add_reference_outcome_dropped c t class i0 i g i' g' changes : dropped_to i0 i ->
  add_reference_outcome c t class i g i' g' changes -> add_reference_outcome c t class i0 g i' g' changes.
Proof.
  intros Hd. pose proof (dropped_to_same _ _ Hd) as Hsame. destruct 1 as [i' Hi|i' Hi Hgood Hc].
  - apply reference_dropped. by eapply dropped_to_trans.
  - destruct (same_reference_fields _ _ Hsame) as (-> & _ & _ & -> & _).
    apply reference_added; [by eapply same_reference_trans|done|by eapply can_reference_same].
Qed.
Lemma delete_reference_outcome_dropped c t b i0 i g i' g' changes : dropped_to i0 i ->
  delete_reference_outcome c t b i g i' g' changes -> delete_reference_outcome c t b i0 g i' g' changes.
Proof.
  intros Hd. pose proof (dropped_to_same _ _ Hd) as Hsame. destruct 1 as [i' Hi|i' Hi Hgood He Ht].
  - apply reference_kept. by eapply dropped_to_trans.
  - destruct (same_reference_fields _ _ Hsame) as (-> & Hr & _ & -> & ->). rewrite Hr in Ht.
    apply reference_deleted; [by eapply same_reference_trans|done|by eapply reachable_ends_same|done].
Qed.

(** ** One item *)

(** The tree during a request, when the answers of its cache are right. *)
Definition tree_ok (t0 t : DefaultTypeTree) : Prop := same_tree t0 t /\ cache_fresh t.

Lemma query_ok t0 t c a : acyclic t0 -> tree_ok t0 t ->
  exists t' b, is_subtype_of c a t = Ret (t', b) /\ (b = true <-> subtype t0 c a) /\ tree_ok t0 t'.
Proof.
  intros Ha [[c1 ->] Hf]. destruct (is_subtype_of_spec (set_subtype_cache c1 t0) c a Ha Hf) as (t' & b & He & Hb & Hf' & c2 & ->).
  do 2 eexists. split; [exact He|]. split; [exact Hb|]. split; [by exists c2|done].
Qed.

Lemma structure_spec s g t0 t rtype source target : abstracts s g -> acyclic t0 -> tree_ok t0 t ->
  exists t' b, reference_is_structurally_allowed s rtype source target t = Ret (t', b) /\ tree_ok t0 t'
    /\ (b = true -> structure_ok t0 g (source, rtype, target)).
Proof.
  intros Hs Ha Ht. unfold reference_is_structurally_allowed, structure_ok, find_node. rewrite (ab_nodes _ _ Hs).
  destruct (query_ok t0 t rtype HasProperty Ha Ht) as (t1 & p & -> & Hp & Ht1). cbn [outcome_bind]. destruct p.
  { do 2 eexists. split; [done|]. split; [done|]. intros Hb. split; [|tauto]. intros _ n Hn. rewrite Hn in Hb. by destruct n. }
  destruct (query_ok t0 t1 rtype HasSubtype Ha Ht1) as (t2 & q & -> & Hq & Ht2). cbn [outcome_bind].
  assert (~ subtype t0 rtype HasProperty) as Hnp by (intros H; by apply Hp in H).
  destruct q; do 2 eexists; (split; [done|]); (split; [done|]); intros Hb; split; try tauto.
  assert (forall n, resolve_node_class s t2 n = class_of t0 g n) as Hr.
  { intros n. unfold resolve_node_class, class_of, find_node. rewrite (ab_nodes _ _ Hs). by destruct Ht2 as [[cc ->] _]. }
  rewrite !Hr in Hb. intros _ _ a b Hca Hcb. rewrite Hca, Hcb in Hb.
  rewrite negb_orb, !negb_involutive, andb_true_iff, bool_decide_eq_true in Hb. tauto.
Qed.

Lemma second_type_spec s g n t : abstracts s g ->
  exists b, has_type_definition s n t = Ret (t, b) /\ (b = false -> forall m, (n, HasTypeDefinition, m) ∉ g_edges g).
Proof.
  intros Hs. unfold has_type_definition. rewrite space_find_references_plain by (by intros f). cbn [outcome_bind].
  eexists. split; [done|]. intros Hb m Hm.
  assert (mkRef HasTypeDefinition m RdForward ∈ refs_at n (Some (HasTypeDefinition, false)) BdForward s t) as Hin.
  { apply (find_references_elem _ (g_edges g)); [apply Hs|]. split; [done|]. cbn. tauto. }
  destruct (refs_at _ _ _ _ _); [by apply elem_of_nil in Hin|done].
Qed.

Lemma node_exists_spec s g n : abstracts s g -> node_exists n s = true <-> is_Some (g_nodes g !! n).
Proof. intros Hs. unfold node_exists. rewrite (ab_nodes _ _ Hs). destruct (g_nodes g !! n); cbn; split; try done. Qed.

Lemma start_reference_spec c required s g i : abstracts s g ->
  match start_reference c required s i with
  | inl i' => dropped_to i i'
  | inr (hs, ht) => hs || ht = true
      /\ (forall n, g_nodes g !! ri_source_node_id i = Some n -> authorize_ctx c n required = true)
  end.
Proof.
  intros Hs. unfold start_reference. destruct (handle_source s i) eqn:Hhs, (handle_target s i) eqn:Hht; cbn [negb andb]; try apply dropped_to_refl.
  all: destruct (_ && _); [first [by apply (dropped_to_refuse false true)|apply dropped_to_refl]|].
  all: destruct (_ && _); [first [by apply (dropped_to_refuse true false)|apply dropped_to_refl]|].
  all: destruct (node_exists _ _ && _) eqn:Hauth; [by apply (dropped_to_refuse true true)|]; (split; [done|]); intros n Hn;
    assert (node_exists (ri_source_node_id i) s = true) as He by (apply (node_exists_spec _ _ _ Hs); by exists n);
    rewrite He in Hauth; unfold authorize_node_management_permission, find_node in Hauth; rewrite (ab_nodes _ _ Hs), Hn in Hauth;
    by destruct (authorize_ctx c n required).
Qed.

Lemma ready_spec hs ht s g i : abstracts s g -> hs || ht = true ->
  let '(i', go) := ready hs ht s i in
  dropped_to i i'
  /\ (go = true -> i' = i /\ (is_Some (g_nodes g !! ri_source_node_id i) \/ is_Some (g_nodes g !! target_of i))).
Proof.
  intros Hs Hor. unfold ready. split; [apply dropped_to_missing|]. unfold missing_ends.
  destruct hs, ht; cbn [andb orb negb] in *; try done.
  all: destruct (node_exists (ri_source_node_id i) s) eqn:He; cbn [negb orb]; try done.
  all: try (apply (node_exists_spec _ _ _ Hs) in He).
  all: try (destruct (node_exists (target_of i) s) eqn:Ht; cbn [negb]; [|done]; apply (node_exists_spec _ _ _ Hs) in Ht).
  all: tauto.
Qed.

Lemma good_refuse hs ht i : hs || ht = true -> is_good (result_status (refuse hs ht Good i)) = true.
Proof.
  unfold result_status, refuse. destruct hs, ht; cbn; try done. intros _. by destruct (is_good (ri_source_status i)) eqn:He.
Qed.
Lemma refuse_same hs ht st i : same_reference i (refuse hs ht st i).
Proof. by destruct hs, ht. Qed.

Lemma abstracts_set_edges s g r E : abstracts s g -> represents r E -> abstracts (set_references r s) (g_set_edges E g).
Proof. intros [H1 H2 H3 H4] Hr. by split. Qed.

Definition ref_inv (t0 : DefaultTypeTree) (w : Mgmt) (g : graph) : Prop := abstracts (mg_space w) g /\ tree_ok t0 (mg_tree w).

Lemma abstract_spec s g rtype : abstracts s g -> reference_type_is_abstract_in s rtype = false ->
  match g_nodes g !! rtype with
  | Some (NtReferenceType r) => reference_type_is_abstract r = false
  | Some _ => True
  | None => standard_reference_type_is_abstract rtype = false
  end.
Proof. intros Hs. unfold reference_type_is_abstract_in, find_node. rewrite (ab_nodes _ _ Hs). by destruct (g_nodes g !! rtype) as [[]|]. Qed.

Lemma class_spec s g class n : abstracts s g -> target_class_differs s class n = false ->
  forall x, g_nodes g !! n = Some x -> class = NcUnspecified \/ node_class x = class.
Proof.
  intros Hs. unfold target_class_differs, find_node. rewrite (ab_nodes _ _ Hs). intros Hd x Hx. rewrite Hx in Hd.
  case_bool_decide; [by left|]. case_bool_decide; [by right|done].
Qed.

Lemma add_reference_body_outcome c t0 class i w g : acyclic t0 -> ref_inv t0 w g ->
  match add_reference_body c class i w with
  | Ret (w', i', changes) => exists g', add_reference_outcome c t0 class i g i' g' changes /\ ref_inv t0 w' g'
  | _ => False
  end.
Proof.
  intros Ha [Hs Ht]. destruct w as [s t nx]. cbn [mg_space mg_tree] in *. unfold add_reference_body. cbn [mg_space mg_tree mg_next].
  assert (forall i' t', dropped_to i i' -> tree_ok t0 t' -> match dropped (mkMgmt s t' nx) i' with
    | Ret (w', i', changes) => exists g', add_reference_outcome c t0 class i g i' g' changes /\ ref_inv t0 w' g'
    | _ => False end) as Hdrop by (intros i' t' Hi' Ht'; exists g; by split; [apply reference_dropped|]).
  pose proof (start_reference_spec c PermissionType.AddReference s g i Hs) as Hst.
  destruct (start_reference _ _ _ _) as [i'|[hs ht]]; [by apply Hdrop|]. destruct Hst as [Hor Hauth].
  assert (forall st t', is_good st = false -> tree_ok t0 t' -> match dropped (mkMgmt s t' nx) (refuse hs ht st i) with
    | Ret (w', i', changes) => exists g', add_reference_outcome c t0 class i g i' g' changes /\ ref_inv t0 w' g'
    | _ => False end) as Href by (intros; apply Hdrop; [by apply dropped_to_refuse|done]).
  destruct (is_reference_type t _) eqn:Hrt; cbn [negb]; [|by apply Href].
  destruct (reference_type_is_abstract_in _ _) eqn:Habs; [by apply Href|].
  pose proof (ready_spec hs ht s g i Hs Hor) as Hr. destruct (ready hs ht s i) as [i' go]. destruct Hr as [Hd Hgo].
  destruct go; cbn [negb]; [|by apply Hdrop]. destruct (Hgo eq_refl) as [-> Hex]. clear Hd Hgo.
  case_bool_decide as Hloop; [by apply Href|]. destruct (target_class_differs _ _ _) eqn:Hcl; [by apply Href|].
  destruct (ends i) as [source target] eqn:Hends.
  destruct (structure_spec s g t0 t (ri_reference_type_id i) source target Hs Ha Ht) as (t1 & b & -> & Ht1 & Hb). cbn [outcome_bind].
  destruct b; cbn [negb]; [|by apply Href]. specialize (Hb eq_refl).
  assert (edge_of i = (source, ri_reference_type_id i, target)) as He by (unfold edge_of; by rewrite Hends).
  assert (exists second, (if bool_decide (ri_reference_type_id i = HasTypeDefinition) then has_type_definition s source t1 else Ret (t1, false))
    = Ret (t1, second) /\ (second = false -> forall m, ri_reference_type_id i = HasTypeDefinition -> (source, HasTypeDefinition, m) ∉ g_edges g))
    as (second & -> & Hone).
  { case_bool_decide; [|by exists false]. destruct (second_type_spec s g source t1 Hs) as (b & -> & Hm). exists b. split; [done|]. intros Hb' m _. by apply Hm. }
  cbn [outcome_bind]. destruct second; [by apply Href|]. specialize (Hone eq_refl).
  unfold space_has_reference. rewrite (has_reference_spec _ (g_edges g)) by apply Hs. case_bool_decide as Hnew; [by apply Href|].
  assert (source <> target) as Hne by (unfold ends in Hends; destruct (ri_is_forward i); injection Hends as <- <-; congruence).
  unfold space_insert_reference. destruct (insert_represents (references s) (g_edges g) source (ri_reference_type_id i) target) as (r & -> & Hrep);
    [apply Hs|done|]. cbn [outcome_bind]. exists (g_set_edges ({[edge_of i]} ∪ g_edges g) g). split.
  - apply reference_added; [apply refuse_same|by apply good_refuse|]. split; try done.
    + unfold is_reference_type in Hrt. apply bool_decide_eq_true in Hrt. by destruct Ht as [[cc ->] _].
    + by apply (abstract_spec s).
    + by apply (class_spec s).
    + by rewrite He.
    + by rewrite He.
    + by rewrite He.
  - split; [|done]. rewrite He. by apply abstracts_set_edges.
Qed.

Lemma delete_reference_abstracts s g a ty b : abstracts s g ->
  abstracts (space_delete_reference a b ty s).1 (g_set_edges (g_edges g ∖ {[(a, ty, b)]}) g).
Proof.
  intros Hs. unfold space_delete_reference. pose proof (delete_represents (references s) (g_edges g) a ty b (ab_edges _ _ Hs)) as [Hr _].
  destruct (delete_reference _ _ _ _) as [r f]. by apply abstracts_set_edges.
Qed.

Lemma delete_reference_body_outcome c t0 bidirectional i w g : ref_inv t0 w g ->
  match delete_reference_body c bidirectional i w with
  | Ret (w', i', changes) => exists g', delete_reference_outcome c t0 bidirectional i g i' g' changes /\ ref_inv t0 w' g'
  | _ => False
  end.
Proof.
  intros [Hs Ht]. destruct w as [s t nx]. cbn [mg_space mg_tree] in *. unfold delete_reference_body. cbn [mg_space mg_tree mg_next].
  assert (forall i', dropped_to i i' -> match dropped (mkMgmt s t nx) i' with
    | Ret (w', i', changes) => exists g', delete_reference_outcome c t0 bidirectional i g i' g' changes /\ ref_inv t0 w' g'
    | _ => False end) as Hdrop by (intros i' Hi'; exists g; by split; [apply reference_kept|]).
  pose proof (start_reference_spec c PermissionType.RemoveReference s g i Hs) as Hst.
  destruct (start_reference _ _ _ _) as [i'|[hs ht]]; [by apply Hdrop|]. destruct Hst as [Hor Hauth].
  destruct (is_reference_type t _) eqn:Hrt; cbn [negb]; [|by apply Hdrop, dropped_to_refuse].
  pose proof (ready_spec hs ht s g i Hs Hor) as Hr. destruct (ready hs ht s i) as [i' go]. destruct Hr as [Hd Hgo].
  destruct go; cbn [negb]; [|by apply Hdrop]. destruct (Hgo eq_refl) as [-> Hex].
  destruct (ends i) as [source target] eqn:Hends. eexists. split.
  - apply reference_deleted; [apply refuse_same|by apply good_refuse|by split|].
    unfold is_reference_type in Hrt. apply bool_decide_eq_true in Hrt. by destruct Ht as [[cc ->] _].
  - split; [|done]. cbn [mg_space]. unfold edge_of, edge_back. rewrite Hends.
    pose proof (delete_reference_abstracts s g source (ri_reference_type_id i) target Hs) as H1.
    destruct bidirectional; [|done]. exact (delete_reference_abstracts _ _ target (ri_reference_type_id i) source H1).
Qed.

(** ** The services *)

(** The items of a service are validated, stopped by the gate, or executed; the same argument serves both. *)
Lemma reference_service {I} (get : I -> ReferenceItem) (put : ReferenceItem -> I -> I) (validate : ReferenceItem -> ReferenceItem)
    (body : I -> ReferenceItem -> Mgmt -> outcome (Mgmt * ReferenceItem * list model_change))
    (R : I -> ReferenceItem -> graph -> ReferenceItem -> graph -> list model_change -> Prop) t0 (gate : bool) l w g :
  (forall i r, get (put r i) = r /\ forall r', put r' (put r i) = put r' i /\ body (put r i) = body i /\ R (put r i) = R i) ->
  (forall r, dropped_to r (validate r)) ->
  (forall i r g r', dropped_to r r' -> R i r g r' g []) ->
  (forall i r0 r g r' g' changes, dropped_to r0 r -> R i r g r' g' changes -> R i r0 g r' g' changes) ->
  (forall i r w g, ref_inv t0 w g -> match body i r w with
     | Ret (w', r', changes) => exists g', R i r g r' g' changes /\ ref_inv t0 w' g'
     | _ => False end) ->
  ref_inv t0 w g ->
  exists w' l' changes g',
    with_invalidation (let l := map (fun i => put (validate (get i)) i) l in
      if negb gate then Ret (w, map (fun i => put (unsupported (get i)) i) l, []) else each_item (on_item get put body) l w)
      = Ret (w', l', changes)
    /\ abstracts (mg_space w') g' /\ browse_name_index (mg_space w') = None /\ tree_ok t0 (mg_tree w')
    /\ chain (fun i g i' g' changes => exists r', i' = put r' i /\ R i (get i) g r' g' changes) l g l' g' changes
    /\ (gate = false -> g' = g /\ changes = []).
Proof.
  intros Hput Hval Hdrop Htrans Hbody Hinv. unfold with_invalidation. destruct gate; cbn [negb outcome_bind].
  2: { do 4 eexists. split; [done|]. cbn [mg_space mg_tree]. destruct Hinv as [Hs Ht]. split; [by apply abstracts_invalidate|].
    split; [done|]. split; [done|]. split; [|done]. rewrite map_map.
    apply (chain_refused _ (fun i => put (unsupported (get (put (validate (get i)) i))) (put (validate (get i)) i))).
    intros i _. destruct (Hput i (validate (get i))) as [-> Hp]. destruct (Hp (unsupported (validate (get i)))) as [-> _].
    eexists. split; [done|]. apply Hdrop. eapply dropped_to_trans; [apply Hval|apply dropped_to_unsupported]. }
  pose proof (each_item_chain (on_item get put body) (fun i g i' g' changes => exists r', i' = put r' i /\ R i (get i) g r' g' changes)
    (fun _ => ref_inv t0) (fun _ => True) (fun _ => False)) as He.
  assert (forall (i : I) (k : nat) w1 g1, True -> ref_inv t0 w1 g1 -> match on_item get put body i w1 with
    | Ret (w', i', changes) => exists g', (exists r', i' = put r' i /\ R i (get i) g1 r' g' changes) /\ ref_inv t0 w' g'
    | Panic => False | OutOfFuel => False end) as Hone.
  { intros i _ w1 g1 _ Hi. specialize (Hbody i (get i) w1 g1 Hi). unfold on_item.
    destruct (body i (get i) w1) as [[[w2 r'] ch]| |]; cbn [outcome_bind]; try done. destruct Hbody as (g2 & HR & Hi2). exists g2. eauto. }
  specialize (He Hone (map (fun i => put (validate (get i)) i) l) w g ltac:(by apply Forall_true) Hinv).
  destruct (each_item _ _ _) as [[[w' l'] changes]| |]; [|by apply Exists_exists in He as (? & _ & [])|done].
  destruct He as (g' & Hc & Hs' & Ht'). do 4 eexists. split; [done|]. cbn [mg_space mg_tree].
  split; [by apply abstracts_invalidate|]. split; [done|]. split; [done|]. split; [|done].
  eapply chain_map; [|exact Hc]. intros i g1 i1 g2 ch _ (r' & -> & HR). destruct (Hput i (validate (get i))) as [Hg Hp].
  destruct (Hp r') as (-> & _ & HRi). rewrite Hg, HRi in HR. exists r'. split; [done|]. by eapply Htrans.
Qed.

(** What the items of the services do. *)
Definition add_reference_step (c : RequestContext) (t : DefaultTypeTree) (i : AddReferenceItem) (g : graph) (i' : AddReferenceItem) (g' : graph)
    (changes : list model_change) : Prop :=
  exists r, i' = put_ar r i /\ add_reference_outcome c t (ar_target_node_class i) (ar_item i) g r g' changes.
Definition delete_reference_step (c : RequestContext) (t : DefaultTypeTree) (i : DeleteReferenceItem) (g : graph) (i' : DeleteReferenceItem)
    (g' : graph) (changes : list model_change) : Prop :=
  exists r, i' = put_dr r i /\ delete_reference_outcome c t (dr_delete_bidirectional i) (dr_item i) g r g' changes.

(** C24: AddReferences always returns and does to the references a chain of its items: each is
    dropped, no end turning good, and changes nothing, or exactly its edge, in the direction asked
    for, is new in the graph, with one REFERENCE_ADDED event, under the conditions that
    [can_reference] lists (a known and concrete reference type, an end that exists, permission on
    the source, no loop, the class asked for, variables as properties, types of one class as
    subtypes, one type definition). The types have no cycle and their cache is up to date. *)
Theorem add_references_refines_graph c l w g (Hs : abstracts (mg_space w) g) (Ha : acyclic (mg_tree w)) (Hf : cache_fresh (mg_tree w)) :
  exists w' l' changes g', manager_add_references c l w = Ret (w', l', changes)
    /\ abstracts (mg_space w') g' /\ browse_name_index (mg_space w') = None /\ tree_ok (mg_tree w) (mg_tree w')
    /\ chain (add_reference_step c (mg_tree w)) l g l' g' changes
    /\ (clients_can_modify_address_space c = false -> g' = g /\ changes = []).
Proof.
  apply (reference_service ar_item put_ar (validate_add_reference (mg_space w) (mg_tree w))
    (fun i => add_reference_body c (ar_target_node_class i)) (fun i => add_reference_outcome c (mg_tree w) (ar_target_node_class i)) (mg_tree w)).
  - done.
  - apply validate_add_dropped.
  - intros. by apply reference_dropped.
  - intros. by eapply add_reference_outcome_dropped.
  - intros. by apply add_reference_body_outcome.
  - split; [done|]. split; [apply same_tree_refl|done].
Qed.

(** DeleteReferences always returns and does to the references a chain of its items: each is dropped and
    changes nothing, or exactly its edge is removed, and the edge back when it asks for both
    directions, with one REFERENCE_DELETED event, when an end exists, the user may remove references
    of the source and the reference type is known. *)
Theorem delete_references_refines_graph c l w g (Hs : abstracts (mg_space w) g) (Hf : cache_fresh (mg_tree w)) :
  exists w' l' changes g', manager_delete_references c l w = Ret (w', l', changes)
    /\ abstracts (mg_space w') g' /\ browse_name_index (mg_space w') = None /\ tree_ok (mg_tree w) (mg_tree w')
    /\ chain (delete_reference_step c (mg_tree w)) l g l' g' changes
    /\ (clients_can_modify_address_space c = false -> g' = g /\ changes = []).
Proof.
  apply (reference_service dr_item put_dr (validate_delete_reference (mg_space w) (mg_tree w))
    (fun i => delete_reference_body c (dr_delete_bidirectional i)) (fun i => delete_reference_outcome c (mg_tree w) (dr_delete_bidirectional i))
    (mg_tree w)).
  - done.
  - apply validate_delete_dropped.
  - intros. by apply reference_kept.
  - intros. by eapply delete_reference_outcome_dropped.
  - intros. by apply delete_reference_body_outcome.
  - split; [done|]. split; [apply same_tree_refl|done].
Qed.

End facts.

(** ** Witnesses *)

#[local] Existing Instances no_dyn keep_all elements_order.
#[local] Instance elements_children : ChildOrder := {| child_order := elements; child_order_perm s := reflexivity _ |}.

Definition organizes_back : AddReferenceItem :=
  add_reference_item_new (node 1) (ns0 35) false None (local_id (node 2)) NcObject.

(** The reference back is added; the one that is there is refused. *)
Example one_added_one_refused :
  match manager_add_references free_user
          [organizes_back; add_reference_item_new (node 1) (ns0 35) true None (local_id (node 2)) NcObject] example_mgmt with
  | Ret (w, l, changes) =>
      map (fun i => result_status (ar_item i)) l = [Good; BadDuplicateReferenceNotAllowed] /\ changes = [(node 1, REFERENCE_ADDED)]
  | _ => False
  end.
Proof. vm_compute. by split. Qed.

Lemma add_references_refines_graph_witness :
  exists w' l' changes g', manager_add_references free_user [organizes_back] example_mgmt = Ret (w', l', changes)
    /\ abstracts (mg_space w') g' /\ browse_name_index (mg_space w') = None /\ tree_ok organizing_tree (mg_tree w')
    /\ chain (add_reference_step free_user organizing_tree) [organizes_back] two_graph l' g' changes
    /\ (true = false -> g' = two_graph /\ changes = []).
Proof.
  apply (add_references_refines_graph free_user [organizes_back] example_mgmt two_graph two_nodes_abstracts organizing_tree_acyclic).
  by apply empty_cache_fresh.
Defined.

Definition unlink : DeleteReferenceItem := delete_reference_item_new (node 1) (ns0 35) true (local_id (node 2)) true.
Lemma delete_references_refines_graph_witness :
  exists w' l' changes g', manager_delete_references free_user [unlink] example_mgmt = Ret (w', l', changes)
    /\ abstracts (mg_space w') g' /\ browse_name_index (mg_space w') = None /\ tree_ok organizing_tree (mg_tree w')
    /\ chain (delete_reference_step free_user organizing_tree) [unlink] two_graph l' g' changes
    /\ (true = false -> g' = two_graph /\ changes = []).
Proof.
  apply (delete_references_refines_graph free_user [unlink] example_mgmt two_graph two_nodes_abstracts).
  by apply empty_cache_fresh.
Defined.
