(* ===== verification/Browse.v ===== *)
(** * Browsing

    Browse and BrowseNext: the nodes of a request with their filters and continuation points
    (server/src/node_manager/view.rs), browsing by the in-memory node manager
    (node_manager/memory/manager/browse.rs), the services over all node managers
    (session/services/view.rs) and the continuation points that a session keeps
    (session/instance.rs).  Diagnostics are left out, and the expiry of continuation points. *)

From S2P Require Import Prelude Text StatusCode NumericRange Variant References TypeTree Nodes Rbac AddressSpace NodeManagement.
#[local] Open Scope Z_scope.

(** ** Masks (types/src/lib.rs) *)

Definition RESULT_MASK_REFERENCE_TYPE : Z := 1.
Definition RESULT_MASK_NODE_CLASS : Z := Z.shiftl 1 2.
Definition RESULT_MASK_BROWSE_NAME : Z := Z.shiftl 1 3.
Definition RESULT_MASK_DISPLAY_NAME : Z := Z.shiftl 1 4.
Definition RESULT_MASK_TYPE_DEFINITION : Z := Z.shiftl 1 5.
Definition browse_result_mask_all : Z := 63.
Definition node_class_mask_all : Z := 255.
(** [node_class as u32]. *)
Definition node_class_bits (c : NodeClass) : Z :=
  match c with
  | NcUnspecified => 0 | NcObject => 1 | NcVariable => 2 | NcMethod => 4 | NcObjectType => 8 | NcVariableType => 16
  | NcReferenceType => 32 | NcDataType => 64 | NcView => 128
  end.
Definition ApplyRestrictionsToBrowse : Z := 8.

Definition BadTooManyOperations : Z := 0x80100000.
Definition BadContinuationPointInvalid : Z := 0x804A0000.
Definition BadNoContinuationPoints : Z := 0x804B0000.
Definition BadBrowseDirectionInvalid : Z := 0x804D0000.
Definition BadViewIdUnknown : Z := 0x806B0000.

(** ** Data *)

Record NodeMetadata := mkMetadata {
  nm_node_id : ExpandedNodeId;
  nm_type_definition : ExpandedNodeId;
  nm_browse_name : QualifiedName;
  nm_display_name : LocalizedText;
  nm_node_class : NodeClass
}.
Record ReferenceDescription := mkDescription {
  rd_reference_type_id : NodeId;
  rd_is_forward : bool;
  rd_node_id : ExpandedNodeId;
  rd_browse_name : QualifiedName;
  rd_display_name : LocalizedText;
  rd_node_class : NodeClass;
  rd_type_definition : ExpandedNodeId
}.
Record ExternalReferenceRequest := mkRequest { xr_node_id : NodeId; xr_result_mask : Z; xr_item : option NodeMetadata }.
Record ExternalReference := mkExternal {
  er_target_id : ExpandedNodeId; er_reference_type_id : NodeId; er_direction : ReferenceDirection
}.

Definition expanded_new (n : NodeId) : ExpandedNodeId := {| node_id := n; namespace_uri := None; server_index := 0 |}.
Definition expanded_null : ExpandedNodeId := expanded_new null_id.
Definition qualified_null : QualifiedName := {| namespace_index := 0; qname := None |}.
Definition text_null : LocalizedText := {| locale := None; text := None |}.

Definition into_ref_desc (m : NodeMetadata) (is_forward : bool) (rtype : NodeId) : ReferenceDescription :=
  mkDescription rtype is_forward (nm_node_id m) (nm_browse_name m) (nm_display_name m) (nm_node_class m) (nm_type_definition m).
Definition into_reference (r : ExternalReference) (m : NodeMetadata) : ReferenceDescription :=
  mkDescription (er_reference_type_id r) (match er_direction r with RdForward => true | RdInverse => false end) (er_target_id r)
    (nm_browse_name m) (nm_display_name m) (nm_node_class m) (nm_type_definition m).

(** The payloads of continuation points: the rest of the in-memory node manager, the external
    references that are resolved, and the one that only names the next node manager. *)
Inductive ContinuationPoint : Type :=
| CpNodes (nodes : list ReferenceDescription)
| CpExternal (items : list ReferenceDescription)
| CpEmpty.

Record BrowseDescription := mkBrowseDescription {
  bd_node_id : NodeId; bd_browse_direction : BrowseDirection; bd_reference_type_id : NodeId; bd_include_subtypes : bool;
  bd_node_class_mask : Z; bd_result_mask : Z
}.
(** The fields that a node and its continuation point share. *)
Record BrowseQuery := mkQuery {
  bq_node_id : NodeId;
  bq_browse_direction : BrowseDirection;
  bq_reference_type_id : NodeId;
  bq_include_subtypes : bool;
  bq_node_class_mask : Z;
  bq_result_mask : Z;
  bq_max_references_per_node : nat
}.
Record BrowseNode := mkNode {
  bn_query : BrowseQuery;
  bn_references : list ReferenceDescription;
  bn_status_code : StatusCode;
  bn_input_continuation_point : option ContinuationPoint;
  bn_next_continuation_point : option ContinuationPoint;
  bn_input_index : nat;
  bn_start_node_manager : nat;
  bn_external_references : list ExternalReference
}.
Record BrowseContinuationPoint := mkPoint {
  bp_node_manager_index : nat;
  bp_continuation_point : ContinuationPoint;
  bp_id : option (list Z);
  bp_query : BrowseQuery;
  bp_external_references : list ExternalReference
}.
Record BrowseResult := mkResult {
  br_status_code : StatusCode; br_continuation_point : option (list Z); br_references : option (list ReferenceDescription)
}.

(** The results of a request while it is processed. *)
Abbreviation results := (list (option BrowseResult)).

(** ** Nodes of a request *)

Definition browse_node_new (d : BrowseDescription) (max_references input_index : nat) : BrowseNode :=
  mkNode (mkQuery (bd_node_id d) (bd_browse_direction d) (bd_reference_type_id d) (bd_include_subtypes d)
            (from_bits_truncate node_class_mask_all (bd_node_class_mask d)) (from_bits_truncate browse_result_mask_all (bd_result_mask d))
            max_references)
    [] BadNodeIdUnknown None None input_index 0 [].
Definition from_continuation_point (p : BrowseContinuationPoint) (input_index : nat) : BrowseNode :=
  mkNode (bp_query p) [] BadNodeIdUnknown (Some (bp_continuation_point p)) None input_index (bp_node_manager_index p)
    (bp_external_references p).

Definition set_status (st : StatusCode) (n : BrowseNode) : BrowseNode :=
  mkNode (bn_query n) (bn_references n) st (bn_input_continuation_point n) (bn_next_continuation_point n) (bn_input_index n)
    (bn_start_node_manager n) (bn_external_references n).
Definition set_references (l : list ReferenceDescription) (n : BrowseNode) : BrowseNode :=
  mkNode (bn_query n) l (bn_status_code n) (bn_input_continuation_point n) (bn_next_continuation_point n) (bn_input_index n)
    (bn_start_node_manager n) (bn_external_references n).
Definition set_next_continuation_point (p : ContinuationPoint) (n : BrowseNode) : BrowseNode :=
  mkNode (bn_query n) (bn_references n) (bn_status_code n) (bn_input_continuation_point n) (Some p) (bn_input_index n)
    (bn_start_node_manager n) (bn_external_references n).
Definition set_external_references (l : list ExternalReference) (n : BrowseNode) : BrowseNode :=
  mkNode (bn_query n) (bn_references n) (bn_status_code n) (bn_input_continuation_point n) (bn_next_continuation_point n)
    (bn_input_index n) (bn_start_node_manager n) l.
(** [take_continuation_point]: the point is taken whatever its type is. *)
Definition take_input (n : BrowseNode) : BrowseNode * option ContinuationPoint :=
  (mkNode (bn_query n) (bn_references n) (bn_status_code n) None (bn_next_continuation_point n) (bn_input_index n)
     (bn_start_node_manager n) (bn_external_references n), bn_input_continuation_point n).
Definition take_nodes_point (n : BrowseNode) : BrowseNode * option (list ReferenceDescription) :=
  let '(n, p) := take_input n in (n, match p with Some (CpNodes l) => Some l | _ => None end).
Definition take_external_point (n : BrowseNode) : BrowseNode * option (list ReferenceDescription) :=
  let '(n, p) := take_input n in (n, match p with Some (CpExternal l) => Some l | _ => None end).

Definition remaining (n : BrowseNode) : nat := bq_max_references_per_node (bn_query n) - length (bn_references n).
Definition is_completed (n : BrowseNode) : bool := (remaining n =? 0)%nat || is_some (bn_next_continuation_point n).
Definition push_external_reference (r : ExternalReference) (n : BrowseNode) : BrowseNode :=
  set_external_references (bn_external_references n ++ [r]) n.

(** The fields that the result mask does not ask for are cleared. *)
Definition clear_fields (mask : Z) (r : ReferenceDescription) : ReferenceDescription :=
  mkDescription
    (if contains mask RESULT_MASK_REFERENCE_TYPE then rd_reference_type_id r else null_id)
    (rd_is_forward r) (rd_node_id r)
    (if contains mask RESULT_MASK_BROWSE_NAME then rd_browse_name r else qualified_null)
    (if contains mask RESULT_MASK_DISPLAY_NAME then rd_display_name r else text_null)
    (if contains mask RESULT_MASK_NODE_CLASS then rd_node_class r else NcUnspecified)
    (if contains mask RESULT_MASK_TYPE_DEFINITION then rd_type_definition r else expanded_null).
Definition push_reference (r : ReferenceDescription) (n : BrowseNode) : BrowseNode := set_references (bn_references n ++ [r]) n.
Definition add_unchecked (r : ReferenceDescription) (n : BrowseNode) : BrowseNode :=
  push_reference (clear_fields (bq_result_mask (bn_query n)) r) n.

Inductive AddReferenceResult : Type := ArAdded | ArRejected | ArFull (r : ReferenceDescription).

Section browsing.
Context {D : DynEncodable} {M : Moka} {RO : RefOrder}.

Definition allows_reference_type (q : BrowseQuery) (ty : NodeId) (t : DefaultTypeTree) : outcome (DefaultTypeTree * bool) :=
  if is_null_id (bq_reference_type_id q) then Ret (t, true)
  else if negb (bool_decide (tt_get (bq_reference_type_id q) t = Some NcReferenceType)) then Ret (t, false)
  else if bq_include_subtypes q then is_subtype_of ty (bq_reference_type_id q) t
  else Ret (t, bool_decide (ty = bq_reference_type_id q)).
Definition allows_node_class (q : BrowseQuery) (c : NodeClass) : bool :=
  (bq_node_class_mask q =? 0) || contains (bq_node_class_mask q) (from_bits_truncate node_class_mask_all (node_class_bits c)).

Definition matches_filter (q : BrowseQuery) (r : ReferenceDescription) (t : DefaultTypeTree) : outcome (DefaultTypeTree * bool) :=
  if null_expanded (rd_node_id r) then Ret (t, false)
  else if bool_decide (rd_node_class r = NcUnspecified) then Ret (t, false)
  else if negb (is_null_id (rd_reference_type_id r))
          && negb (bool_decide (tt_get (rd_reference_type_id r) t = Some NcReferenceType)) then Ret (t, false)
  else if negb (allows_node_class q (rd_node_class r)) then Ret (t, false)
  else allows_reference_type q (rd_reference_type_id r) t.

(** [BrowseNode::add]. *)
Definition add (r : ReferenceDescription) (n : BrowseNode) (t : DefaultTypeTree)
    : outcome (DefaultTypeTree * BrowseNode * AddReferenceResult) :=
  let! (t, ok) := matches_filter (bn_query n) r t in
  if negb ok then Ret (t, n, ArRejected)
  else
    let r := clear_fields (bq_result_mask (bn_query n)) r in
    if (0 <? remaining n)%nat then Ret (t, push_reference r n, ArAdded) else Ret (t, n, ArFull r).

(** [BrowseNode::resolve_external_references]. *)
Fixpoint resolve_loop (refs : list ExternalReference) (resolved : gmap NodeId NodeMetadata) (n : BrowseNode)
    (cont_point : list ReferenceDescription) (t : DefaultTypeTree) : outcome (DefaultTypeTree * BrowseNode * list ReferenceDescription) :=
  match refs with
  | [] => Ret (t, n, cont_point)
  | rf :: refs' =>
      match resolved !! node_id (er_target_id rf) with
      | None => resolve_loop refs' resolved n cont_point t
      | Some meta =>
          let rf := into_reference rf meta in
          let! (t, ok) := matches_filter (bn_query n) rf t in
          if negb ok then resolve_loop refs' resolved n cont_point t
          else if (0 <? remaining n)%nat then resolve_loop refs' resolved (add_unchecked rf n) cont_point t
          else resolve_loop refs' resolved n (cont_point ++ [rf]) t
      end
  end.
Definition resolve_external_references (resolved : gmap NodeId NodeMetadata) (n : BrowseNode) (t : DefaultTypeTree)
    : outcome (DefaultTypeTree * BrowseNode) :=
  let refs := bn_external_references n in
  let! (x, cont_point) := resolve_loop refs resolved (set_external_references [] n) [] t in
  let '(t, n) := x in
  Ret (t, match cont_point with [] => n | _ => set_next_continuation_point (CpExternal cont_point) n end).

(** ** The in-memory node manager *)

Definition get_reference (s : AddressSpace) (n : NodeType) (mask : Z) (t : DefaultTypeTree) : outcome (DefaultTypeTree * NodeMetadata) :=
  let! (t, type_definition) :=
    if contains mask RESULT_MASK_TYPE_DEFINITION then
      match node_class n with
      | NcObject | NcVariable =>
          let! (t, l) := space_find_references (node_id_of n) (Some (HasTypeDefinition, false)) BdForward s t in
          Ret (t, match l with r :: _ => expanded_new (ref_target r) | [] => expanded_null end)
      | _ => Ret (t, expanded_null)
      end
    else Ret (t, expanded_null) in
  Ret (t, mkMetadata (expanded_new (node_id_of n)) type_definition (node_name n) (display_name (node_base n)) (node_class n)).

Definition can_browse_target (c : RequestContext) (n : NodeType) : bool :=
  if negb (authorize_ctx c n PermissionType.Browse) then false
  else match access_restrictions (node_base n) with
       | Some r => if contains r ApplyRestrictionsToBrowse
                   then match access_restrictions_ok_ctx c n with Ok _ => true | Err _ => false end
                   else true
       | None => true
       end.

(** The filter that is passed to the reference store; other types are left to [matches_filter]. *)
Definition browse_filter (q : BrowseQuery) : option (NodeId * bool) :=
  if is_null_id (bq_reference_type_id q) then None
  else match as_reference_type_id (bq_reference_type_id q) with
       | Some _ => Some (bq_reference_type_id q, bq_include_subtypes q)
       | None => None
       end.

(** The loop of [browse_node]; [cont_point] gathers what does not fit. *)
Fixpoint browse_loop (c : RequestContext) (s : AddressSpace) (namespaces : gmap Z rstr) (l : list ReferenceRef) (n : BrowseNode)
    (cont_point : list ReferenceDescription) (t : DefaultTypeTree) : outcome (DefaultTypeTree * BrowseNode * list ReferenceDescription) :=
  match l with
  | [] => Ret (t, n, cont_point)
  | rf :: l' =>
      if is_null_id (ref_target rf) then browse_loop c s namespaces l' n cont_point t
      else match find_node (ref_target rf) s with
           | None =>
               if is_some (namespaces !! Variant.namespace (ref_target rf)) then browse_loop c s namespaces l' n cont_point t
               else browse_loop c s namespaces l'
                      (push_external_reference (mkExternal (expanded_new (ref_target rf)) (ref_type rf) (ref_direction rf)) n) cont_point t
           | Some target =>
               if negb (can_browse_target c target) then browse_loop c s namespaces l' n cont_point t
               else
                 let! (t, meta) := get_reference s target (bq_result_mask (bn_query n)) t in
                 let desc := into_ref_desc meta (match ref_direction rf with RdForward => true | RdInverse => false end) (ref_type rf) in
                 let! (x, added) := add desc n t in
                 let '(t, n) := x in
                 browse_loop c s namespaces l' n (match added with ArFull r => cont_point ++ [r] | _ => cont_point end) t
           end
  end.
Definition browse_node (c : RequestContext) (s : AddressSpace) (namespaces : gmap Z rstr) (n : BrowseNode) (t : DefaultTypeTree)
    : outcome (DefaultTypeTree * BrowseNode) :=
  let! (t, l) := space_find_references (bq_node_id (bn_query n)) (browse_filter (bn_query n)) (bq_browse_direction (bn_query n)) s t in
  let! (x, cont_point) := browse_loop c s namespaces l n [] t in
  let '(t, n) := x in
  Ret (t, match cont_point with [] => n | _ => set_next_continuation_point (CpNodes cont_point) n end).

(** Taking references out of a point, the last one first. *)
Fixpoint resume_loop (fuel : nat) (point : list ReferenceDescription) (n : BrowseNode) : BrowseNode * list ReferenceDescription :=
  match fuel with
  | O => (n, point)
  | S fuel' =>
      if (remaining n =? 0)%nat then (n, point)
      else match pop_back point with
           | (_, None) => (n, point)
           | (point', Some r) => resume_loop fuel' point' (add_unchecked r n)
           end
  end.
(** Every turn but the last takes a reference. *)
Definition resume (point : list ReferenceDescription) (n : BrowseNode) : BrowseNode :=
  let '(n, rest) := resume_loop (S (length point)) point n in
  match rest with [] => n | _ => set_next_continuation_point (CpNodes rest) n end.

Definition memory_browse_one (c : RequestContext) (s : AddressSpace) (namespaces : gmap Z rstr) (n : BrowseNode) (t : DefaultTypeTree)
    : outcome (DefaultTypeTree * BrowseNode) :=
  if is_null_id (bq_node_id (bn_query n)) then Ret (t, n)
  else
    let n := set_status Good n in
    let '(n, point) := take_nodes_point n in
    match point with
    | Some point => Ret (t, resume point n)
    | None => browse_node c s namespaces n t
    end.

(** ** Node managers *)

(** What the services call; [nm_resolve] is called for each request of an owned node in turn. *)
Record NodeManager := mkManager {
  owns_node : NodeId -> bool;
  nm_browse : DefaultTypeTree -> list BrowseNode -> outcome (DefaultTypeTree * list BrowseNode * result unit StatusCode);
  nm_resolve : DefaultTypeTree -> ExternalReferenceRequest -> outcome (DefaultTypeTree * ExternalReferenceRequest)
}.

Fixpoint tree_map {A} (f : A -> DefaultTypeTree -> outcome (DefaultTypeTree * A)) (l : list A) (t : DefaultTypeTree)
    : outcome (DefaultTypeTree * list A) :=
  match l with
  | [] => Ret (t, [])
  | x :: l' => let! (t, x) := f x t in let! (t, l'') := tree_map f l' t in Ret (t, x :: l'')
  end.

Definition memory_resolve (c : RequestContext) (s : AddressSpace) (t : DefaultTypeTree) (r : ExternalReferenceRequest)
    : outcome (DefaultTypeTree * ExternalReferenceRequest) :=
  match find_node (xr_node_id r) s with
  | None => Ret (t, r)
  | Some n =>
      if negb (can_browse_target c n) then Ret (t, r)
      else let! (t, meta) := get_reference s n (xr_result_mask r) t in Ret (t, mkRequest (xr_node_id r) (xr_result_mask r) (Some meta))
  end.

(** [InMemoryNodeManager]: its address space and its namespaces. *)
Definition memory_manager (c : RequestContext) (s : AddressSpace) (namespaces : gmap Z rstr) : NodeManager :=
  mkManager (fun n => is_some (namespaces !! Variant.namespace n))
    (fun t l => let! (t, l) := tree_map (memory_browse_one c s namespaces) l t in Ret (t, l, Ok tt))
    (memory_resolve c s).

(** ** Sessions *)

Record BrowseSession := mkSession {
  browse_continuation_points : gmap (list Z) BrowseContinuationPoint;
  max_browse_continuation_points : nat;
  (** The random strings that are drawn next. *)
  session_random : nat -> list Z;
  session_drawn : nat
}.
Definition random_id (s : BrowseSession) : BrowseSession * list Z :=
  (mkSession (browse_continuation_points s) (max_browse_continuation_points s) (session_random s) (S (session_drawn s)),
   session_random s (session_drawn s)).
Definition set_points (p : gmap (list Z) BrowseContinuationPoint) (s : BrowseSession) : BrowseSession :=
  mkSession p (max_browse_continuation_points s) (session_random s) (session_drawn s).
(** Fails when the session has as many points as it may. *)
Definition add_browse_continuation_point (id : list Z) (p : BrowseContinuationPoint) (s : BrowseSession) : BrowseSession * bool :=
  if (max_browse_continuation_points s <=? size (browse_continuation_points s))%nat then (s, false)
  else (set_points (<[id := p]> (browse_continuation_points s)) s, true).
Definition remove_browse_continuation_point (id : option (list Z)) (s : BrowseSession) : BrowseSession * option BrowseContinuationPoint :=
  match id with
  | None => (s, None)
  | Some id => (set_points (base.delete id (browse_continuation_points s)) s, browse_continuation_points s !! id)
  end.

(** [into_result]; without node managers the difference wraps and ends in the same branch. *)
Definition into_result (index count : nat) (n : BrowseNode) (s : BrowseSession) : BrowseResult * nat * BrowseSession :=
  let inner := match bn_next_continuation_point n with
               | Some c => Some (c, index)
               | None => if (index <? count - 1)%nat then Some (CpEmpty, S index) else None
               end in
  match inner with
  | None => (mkResult (bn_status_code n) None (Some (bn_references n)), bn_input_index n, s)
  | Some (p, index) =>
      let '(s, id) := random_id s in
      let '(s, stored) :=
        add_browse_continuation_point id (mkPoint index p (Some id) (bn_query n) (bn_external_references n)) s in
      (if stored then mkResult (bn_status_code n) (Some id) (Some (bn_references n))
       else mkResult BadNoContinuationPoints None (Some (bn_references n)), bn_input_index n, s)
  end.

(** ** The services *)

Definition set_result (i : nat) (r : BrowseResult) (l : results) : outcome results :=
  if (i <? length l)%nat then Ret (<[i := Some r]> l) else Panic.

(** [Vec::swap_remove] at an index of the vector. *)
Definition swap_remove {A} (i : nat) (l : list A) : list A :=
  match last l with
  | None => l
  | Some x => if (S i =? length l)%nat then removelast l else removelast (<[i := x]> l)
  end.

(** The loop that takes out the nodes that are completed. *)
Fixpoint drain_completed (fuel : nat) (index count i : nat) (nodes : list BrowseNode) (rs : results) (s : BrowseSession)
    : outcome (list BrowseNode * results * BrowseSession) :=
  match nodes !! i with
  | None => Ret (nodes, rs, s)
  | Some n =>
      match fuel with
      | O => OutOfFuel
      | S fuel' =>
          if is_completed n then
            let '(r, input_index, s) := into_result index count n s in
            let! rs := set_result input_index r rs in
            drain_completed fuel' index count i (swap_remove i nodes) rs s
          else drain_completed fuel' index count (S i) nodes rs s
      end
  end.

Definition fail_owned (m : NodeManager) (r : result unit StatusCode) (nodes : list BrowseNode) : list BrowseNode :=
  match r with
  | Ok _ => nodes
  | Err e => map (fun n => if owns_node m (bq_node_id (bn_query n)) then set_status e n else n) nodes
  end.

Fixpoint browse_managers (count index : nat) (managers : list NodeManager) (nodes : list BrowseNode) (rs : results) (s : BrowseSession)
    (t : DefaultTypeTree) : outcome (DefaultTypeTree * list BrowseNode * results * BrowseSession) :=
  match managers with
  | [] => Ret (t, nodes, rs, s)
  | m :: managers' =>
      let! (x, r) := nm_browse m t nodes in
      let '(t, nodes) := x in
      let nodes := fail_owned m r nodes in
      let! (y, s) := drain_completed (length nodes) index count 0 nodes rs s in
      let '(nodes, rs) := y in
      match nodes with
      | [] => Ret (t, nodes, rs, s)
      | _ => browse_managers count (S index) managers' nodes rs s t
      end
  end.

(** References that are kept in a point of external references. *)
Fixpoint resume_external_loop (items : list ReferenceDescription) (n : BrowseNode) (t : DefaultTypeTree)
    : outcome (DefaultTypeTree * BrowseNode * list ReferenceDescription) :=
  match items with
  | [] => Ret (t, n, [])
  | rf :: items' =>
      if (0 <? remaining n)%nat then
        let! (x, _) := add rf n t in
        let '(t, n) := x in resume_external_loop items' n t
      else Ret (t, n, items)
  end.
Definition resume_external (n : BrowseNode) (t : DefaultTypeTree) : outcome (DefaultTypeTree * BrowseNode) :=
  let '(n, p) := take_external_point n in
  match p with
  | None => Ret (t, n)
  | Some items =>
      let! (x, rest) := resume_external_loop items n t in
      let '(t, n) := x in
      Ret (t, match rest with [] => n | _ => set_next_continuation_point (CpExternal rest) n end)
  end.

(** The external references of the nodes, each with the union of the masks. *)
Definition gather_one (mask : Z) (refs : gmap NodeId Z) (r : ExternalReference) : gmap NodeId Z :=
  let id := node_id (er_target_id r) in
  match refs !! id with
  | Some m => <[id := Z.lor m mask]> refs
  | None => <[id := mask]> refs
  end.
Definition gather_external (nodes : list BrowseNode) : gmap NodeId Z :=
  fold_left (fun refs n => fold_left (gather_one (bq_result_mask (bn_query n))) (bn_external_references n) refs) nodes ∅.

Fixpoint resolve_managers (managers : list NodeManager) (rs : list ExternalReferenceRequest) (t : DefaultTypeTree)
    : outcome (DefaultTypeTree * list ExternalReferenceRequest) :=
  match managers with
  | [] => Ret (t, rs)
  | m :: managers' =>
      let! (t, rs) := tree_map (fun r t => if owns_node m (xr_node_id r) then nm_resolve m t r else Ret (t, r)) rs t in
      resolve_managers managers' rs t
  end.
(** The requests in some order (each is resolved by itself), and the map of what was found. *)
Definition resolve_all (managers : list NodeManager) (refs : gmap NodeId Z) (t : DefaultTypeTree)
    : outcome (DefaultTypeTree * gmap NodeId NodeMetadata) :=
  let! (t, rs) := resolve_managers managers (map (fun x => mkRequest x.1 x.2 None) (map_to_list refs)) t in
  Ret (t, fold_left (fun m r => match xr_item r with Some meta => <[node_id (nm_node_id meta) := meta]> m | None => m end) rs ∅).

(** The nodes that are left: their external references are resolved, then they are completed. *)
Fixpoint finish_nodes (count : nat) (resolved : gmap NodeId NodeMetadata) (nodes : list BrowseNode) (rs : results) (s : BrowseSession)
    (t : DefaultTypeTree) : outcome (DefaultTypeTree * results * BrowseSession) :=
  match nodes with
  | [] => Ret (t, rs, s)
  | n :: nodes' =>
      let! (t, n) := resolve_external_references resolved n t in
      let '(r, input_index, s) := into_result (count - 1) count n s in
      let! rs := set_result input_index r rs in
      finish_nodes count resolved nodes' rs s t
  end.

Definition finish (managers : list NodeManager) (nodes : list BrowseNode) (rs : results) (s : BrowseSession) (t : DefaultTypeTree)
    : outcome (DefaultTypeTree * results * BrowseSession) :=
  let! (t, resolved) := resolve_all managers (gather_external nodes) t in
  finish_nodes (length managers) resolved nodes rs s t.

Fixpoint unwrap_results (rs : results) : outcome (list BrowseResult) :=
  match rs with
  | [] => Ret []
  | r :: rs' => let! r := unwrap r in let! l := unwrap_results rs' in Ret (r :: l)
  end.

(** [take_service_items]. *)
Definition take_service_items {A} (items : option (list A)) (limit : nat) : result (list A) StatusCode :=
  match items with
  | None => Err BadNothingToDo
  | Some [] => Err BadNothingToDo
  | Some l => if (limit <? length l)%nat then Err BadTooManyOperations else Ok l
  end.

(** What is refused before browsing, and the nodes that are browsed. *)
Fixpoint prepare_nodes (max_references i : nat) (l : list BrowseDescription) (t : DefaultTypeTree) : results * list BrowseNode :=
  match l with
  | [] => ([], [])
  | r :: l' =>
      let '(rs, nodes) := prepare_nodes max_references (S i) l' t in
      if bool_decide (bd_browse_direction r = BdInvalid) then (Some (mkResult BadBrowseDirectionInvalid None None) :: rs, nodes)
      else if negb (is_null_id (bd_reference_type_id r)) && negb (bool_decide (tt_get (bd_reference_type_id r) t = Some NcReferenceType))
      then (Some (mkResult BadReferenceTypeIdInvalid None None) :: rs, nodes)
      else (None :: rs, browse_node_new r max_references i :: nodes)
  end.

Record BrowseRequest := mkBrowseRequest {
  nodes_to_browse : option (list BrowseDescription); view_id : NodeId; requested_max_references_per_node : nat
}.
Record BrowseLimits := mkBrowseLimits { max_nodes_per_browse : nat; max_references_per_browse_node : nat }.

Definition max_references (limits : BrowseLimits) (r : BrowseRequest) : nat :=
  if (requested_max_references_per_node r =? 0)%nat then max_references_per_browse_node limits
  else Nat.min (max_references_per_browse_node limits) (requested_max_references_per_node r).

(** The service fault, or the results. *)
Definition browse (limits : BrowseLimits) (managers : list NodeManager) (r : BrowseRequest) (s : BrowseSession) (t : DefaultTypeTree)
    : outcome (DefaultTypeTree * BrowseSession * result (list BrowseResult) StatusCode) :=
  match take_service_items (nodes_to_browse r) (max_nodes_per_browse limits) with
  | Err e => Ret (t, s, Err e)
  | Ok l =>
      if negb (is_null_id (view_id r)) then Ret (t, s, Err BadViewIdUnknown)
      else
        let '(rs, nodes) := prepare_nodes (max_references limits r) 0 l t in
        let! (x, s) := browse_managers (length managers) 0 managers nodes rs s t in
        let '(t, nodes, rs) := x in
        let! (t, nodes) := tree_map resume_external nodes t in
        let! (y, s) := finish managers nodes rs s t in
        let '(t, rs) := y in
        let! l := unwrap_results rs in
        Ret (t, s, Ok l)
  end.

(** *** BrowseNext *)

Fixpoint take_points (i : nat) (ids : list (option (list Z))) (s : BrowseSession) : results * list BrowseNode * BrowseSession :=
  match ids with
  | [] => ([], [], s)
  | id :: ids' =>
      let '(s, p) := remove_browse_continuation_point id s in
      let '(rs, nodes, s) := take_points (S i) ids' s in
      match p with
      | Some p => (None :: rs, from_continuation_point p i :: nodes, s)
      | None => (Some (mkResult BadContinuationPointInvalid None None) :: rs, nodes, s)
      end
  end.

(** The nodes that start at a node manager join the batch. *)
Fixpoint collect_batch (fuel : nat) (index i : nat) (nodes batch : list BrowseNode) : outcome (list BrowseNode * list BrowseNode) :=
  match nodes !! i with
  | None => Ret (nodes, batch)
  | Some n =>
      match fuel with
      | O => OutOfFuel
      | S fuel' =>
          if (bn_start_node_manager n =? index)%nat then collect_batch fuel' index i (swap_remove i nodes) (batch ++ [n])
          else collect_batch fuel' index (S i) nodes batch
      end
  end.

(** An error is set on the nodes that have not started, not on the batch. *)
Fixpoint next_managers (count index : nat) (managers : list NodeManager) (nodes batch : list BrowseNode) (rs : results) (s : BrowseSession)
    (t : DefaultTypeTree) : outcome (DefaultTypeTree * list BrowseNode * list BrowseNode * results * BrowseSession) :=
  match managers with
  | [] => Ret (t, nodes, batch, rs, s)
  | m :: managers' =>
      let! (nodes, batch) := collect_batch (length nodes) index 0 nodes batch in
      let! (x, r) := nm_browse m t batch in
      let '(t, batch) := x in
      let nodes := fail_owned m r nodes in
      let! (y, s) := drain_completed (length batch) index count 0 batch rs s in
      let '(batch, rs) := y in
      match nodes, batch with
      | [], [] => Ret (t, nodes, batch, rs, s)
      | _, _ => next_managers count (S index) managers' nodes batch rs s t
      end
  end.

Definition browse_next (limits : BrowseLimits) (managers : list NodeManager) (continuation_points : option (list (option (list Z))))
    (release : bool) (s : BrowseSession) (t : DefaultTypeTree)
    : outcome (DefaultTypeTree * BrowseSession * result (list BrowseResult) StatusCode) :=
  match take_service_items continuation_points (max_nodes_per_browse limits) with
  | Err e => Ret (t, s, Err e)
  | Ok ids =>
      let '(rs, nodes, s) := take_points 0 ids s in
      if release then Ret (t, s, Ok [])
      else
        let! (x, s) := next_managers (length managers) 0 managers nodes [] rs s t in
        let '(t, nodes, batch, rs) := x in
        let! (t, nodes) := tree_map resume_external nodes t in
        let! (y, s) := finish managers (nodes ++ batch) rs s t in
        let '(t, rs) := y in
        let! l := unwrap_results rs in
        Ret (t, s, Ok l)
  end.

End browsing.
