(* ===== verification/BrowseFacts.v ===== *)
(** * Facts on browsing

    Browse followed by BrowseNext delivers every reference of a node exactly once, as long as no
    reference leads out of the node managers; every reference that is shown leads to a node that the
    user may browse. *)

From S2P Require Import Prelude Text StatusCode NumericRange Variant References TypeTree Nodes Rbac AddressSpace NodeManagement NodeManagementFacts Browse.
#[local] Open Scope Z_scope.

(** A node manager in memory: its address space and its namespaces. *)
Abbreviation memory := (AddressSpace * gmap Z rstr)%type.

Section facts.
Context {D : DynEncodable} {M : Moka} {RO : RefOrder}.
Variables (c : RequestContext) (t0 : DefaultTypeTree).
Hypothesis Hacyclic : acyclic t0.

Lemma query_types t x a : same_types t0 t ->
  exists t', is_subtype_of x a t = Ret (t', answers t0 x a) /\ same_types t0 t'.
Proof.
  intros [[cache ->] Hf]. destruct (is_subtype_of_spec (set_subtype_cache cache t0) x a Hacyclic Hf) as (t' & b & He & Hb & Hf' & c2 & ->).
  apply (answer_of t0 _ _ _ Hacyclic) in Hb. subst b. eexists. split; [exact He|]. split; [by exists c2|done].
Qed.
Lemma same_types_get t n : same_types t0 t -> tt_get n t = tt_get n t0.
Proof. by intros [[cache ->] _]. Qed.

(** ** One reference *)

(** What the filters of a query accept. *)
Definition accepted (q : BrowseQuery) (d : ReferenceDescription) : bool :=
  negb (null_expanded (rd_node_id d)) && negb (bool_decide (rd_node_class d = NcUnspecified))
  && (is_null_id (rd_reference_type_id d) || bool_decide (tt_get (rd_reference_type_id d) t0 = Some NcReferenceType))
  && allows_node_class q (rd_node_class d)
  && (is_null_id (bq_reference_type_id q)
      || bool_decide (tt_get (bq_reference_type_id q) t0 = Some NcReferenceType)
         && if bq_include_subtypes q then answers t0 (rd_reference_type_id d) (bq_reference_type_id q)
            else bool_decide (rd_reference_type_id d = bq_reference_type_id q)).

Lemma matches_filter_spec q d t : same_types t0 t -> exists t', matches_filter q d t = Ret (t', accepted q d) /\ same_types t0 t'.
Proof.
  intros Ht. unfold matches_filter, accepted, allows_reference_type. rewrite !(same_types_get t) by done.
  destruct (null_expanded _); [by eexists|]. case_bool_decide; [by eexists|].
  destruct (is_null_id (rd_reference_type_id d)) eqn:Hrt; cbn [negb andb orb].
  2: destruct (bool_decide (tt_get (rd_reference_type_id d) t0 = Some NcReferenceType)); cbn [negb andb orb]; [|by eexists].
  all: destruct (allows_node_class _ _); cbn [negb andb]; [|by eexists].
  all: destruct (is_null_id (bq_reference_type_id q)); cbn [orb]; [by eexists|].
  all: destruct (bool_decide (tt_get (bq_reference_type_id q) t0 = _)); cbn [negb andb]; [|by eexists].
  all: destruct (bq_include_subtypes q); [by apply query_types|by eexists].
Qed.

(** The metadata of a node. *)
Definition metadata (s : AddressSpace) (n : NodeType) (mask : Z) : NodeMetadata :=
  mkMetadata (expanded_new (node_id_of n))
    (if contains mask RESULT_MASK_TYPE_DEFINITION then
       match node_class n with
       | NcObject | NcVariable =>
           match refs_at (node_id_of n) (Some (HasTypeDefinition, false)) BdForward s t0 with
           | r :: _ => expanded_new (ref_target r) | [] => expanded_null
           end
       | _ => expanded_null
       end
     else expanded_null)
    (node_name n) (display_name (node_base n)) (node_class n).
Lemma get_reference_spec s n mask t : same_types t0 t -> get_reference s n mask t = Ret (t, metadata s n mask).
Proof.
  intros Ht. unfold get_reference, metadata.
  assert (space_find_references (node_id_of n) (Some (HasTypeDefinition, false)) BdForward s t
    = Ret (t, refs_at (node_id_of n) (Some (HasTypeDefinition, false)) BdForward s t0)) as Hs.
  { rewrite space_find_references_plain by (by intros f). destruct Ht as [[cache ->] _]. by rewrite refs_at_set_cache. }
  destruct (contains _ _); [|done]. destruct (node_class n); try done; by rewrite Hs.
Qed.

(** A reference of a node as it is shown, if it is. *)
Definition describe (s : AddressSpace) (q : BrowseQuery) (r : ReferenceRef) : option ReferenceDescription :=
  if is_null_id (ref_target r) then None
  else match find_node (ref_target r) s with
       | None => None
       | Some n =>
           if negb (can_browse_target c n) then None
           else
             let d := into_ref_desc (metadata s n (bq_result_mask q)) (match ref_direction r with RdForward => true | RdInverse => false end)
                        (ref_type r) in
             if accepted q d then Some (clear_fields (bq_result_mask q) d) else None
       end.
(** A reference that leads out of the node manager. *)
Definition leaving (s : AddressSpace) (namespaces : gmap Z rstr) (r : ReferenceRef) : option ExternalReference :=
  if is_null_id (ref_target r) then None
  else match find_node (ref_target r) s with
       | Some _ => None
       | None => if is_some (namespaces !! Variant.namespace (ref_target r)) then None
                 else Some (mkExternal (expanded_new (ref_target r)) (ref_type r) (ref_direction r))
       end.

Lemma clear_fields_idem mask d : clear_fields mask (clear_fields mask d) = clear_fields mask d.
Proof. unfold clear_fields. cbn. by repeat case_match. Qed.

(** [n] with more references. *)
Definition with_references (l : list ReferenceDescription) (e : list ExternalReference) (n : BrowseNode) : BrowseNode :=
  set_external_references (bn_external_references n ++ e) (set_references (bn_references n ++ l) n).

Lemma with_references_nil n : with_references [] [] n = n.
Proof. unfold with_references. destruct n. cbn. by rewrite !app_nil_r. Qed.
Lemma with_references_app l1 e1 l2 e2 n : with_references l2 e2 (with_references l1 e1 n) = with_references (l1 ++ l2) (e1 ++ e2) n.
Proof. unfold with_references. destruct n. cbn. by rewrite <- !app_assoc. Qed.
Lemma remaining_with l e n : remaining (with_references l e n) = (remaining n - length l)%nat.
Proof. unfold remaining. cbn. rewrite length_app. lia. Qed.

Lemma browse_loop_spec s namespaces l : forall n cp t, same_types t0 t ->
  let F := omap (describe s (bn_query n)) l in
  exists t', browse_loop c s namespaces l n cp t
    = Ret (t', with_references (take (remaining n) F) (omap (leaving s namespaces) l) n, cp ++ drop (remaining n) F)
  /\ same_types t0 t'.
Proof.
  induction l as [|r l IH]; intros n cp t Ht; cbn [browse_loop omap list_omap].
  { exists t. by rewrite take_nil, drop_nil, with_references_nil, app_nil_r. }
  pose proof (eq_refl (describe s (bn_query n) r)) as Hd. pose proof (eq_refl (leaving s namespaces r)) as Hl.
  unfold describe at 2 in Hd. unfold leaving at 2 in Hl.
  destruct (is_null_id (ref_target r)); [rewrite Hd, Hl; by apply IH|].
  destruct (find_node (ref_target r) s) as [x|].
  2: { destruct (is_some _); rewrite Hd, Hl; [by apply IH|].
    destruct (IH (push_external_reference (mkExternal (expanded_new (ref_target r)) (ref_type r) (ref_direction r)) n) cp t Ht)
      as (t' & -> & Ht'). exists t'. split; [|done]. do 3 f_equal.
    change (push_external_reference ?e n) with (set_external_references (bn_external_references n ++ [e]) n).
    replace (set_external_references (bn_external_references n ++ [_]) n) with
      (with_references [] [mkExternal (expanded_new (ref_target r)) (ref_type r) (ref_direction r)] n)
      by (unfold with_references; destruct n; cbn; by rewrite app_nil_r).
    by rewrite with_references_app, remaining_with, Nat.sub_0_r. }
  rewrite Hl. destruct (can_browse_target c x); cbn [negb] in Hd |- *; [|rewrite Hd; by apply IH].
  rewrite get_reference_spec by done. cbn [outcome_bind]. unfold add.
  cbv zeta in Hd. set (d := into_ref_desc _ _ _) in *. destruct (matches_filter_spec (bn_query n) d t Ht) as (t1 & -> & Ht1). cbn [outcome_bind].
  destruct (accepted (bn_query n) d); cbn [negb outcome_bind]; rewrite Hd; [|by apply IH].
  set (d' := clear_fields _ d). destruct (remaining n) as [|k] eqn:Hr; cbn [Nat.ltb Nat.leb outcome_bind].
  - destruct (IH n (cp ++ [d']) t1 Ht1) as (t' & He & Ht'). rewrite Hr in He. exists t'. split; [|done].
    rewrite He. by rewrite <- app_assoc.
  - destruct (IH (push_reference d' n) cp t1 Ht1) as (t' & He & Ht'). exists t'. split; [|done].
    change (push_reference d' n) with (set_references (bn_references n ++ [d']) n) in *.
    assert (set_references (bn_references n ++ [d']) n = with_references [d'] [] n) as Hp
      by (unfold with_references; destruct n; cbn; by rewrite app_nil_r).
    rewrite Hp in *. rewrite He, with_references_app, remaining_with, Hr. cbn [length bn_query with_references set_external_references set_references].
    rewrite Nat.sub_1_r. done.
Qed.

(** ** One node at one node manager *)

Definition managers_of (ms : list memory) : list NodeManager := map (fun m => memory_manager c m.1 m.2) ms.

Definition matching_refs (m : memory) (q : BrowseQuery) : list ReferenceRef :=
  refs_at (bq_node_id q) (browse_filter q) (bq_browse_direction q) m.1 t0.
(** The references of a node that a node manager shows, and those that lead out of it. *)
Definition shown_refs (q : BrowseQuery) (m : memory) : list ReferenceDescription := omap (describe m.1 q) (matching_refs m q).
Definition leaving_refs (q : BrowseQuery) (m : memory) : list ExternalReference := omap (leaving m.1 m.2) (matching_refs m q).

(** A node that is not full, without a point. *)
Definition fresh (n : BrowseNode) : Prop :=
  is_null_id (bq_node_id (bn_query n)) = false /\ bn_next_continuation_point n = None.

(** What fits is added, the rest is the next point. *)
Definition filled (F : list ReferenceDescription) (e : list ExternalReference) (n : BrowseNode) : BrowseNode :=
  let n' := with_references (take (remaining n) F) e (set_status Good (take_input n).1) in
  match drop (remaining n) F with [] => n' | rest => set_next_continuation_point (CpNodes rest) n' end.

Lemma browse_one_spec (m : memory) n t : same_types t0 t -> fresh n ->
  (forall l, bn_input_continuation_point n <> Some (CpNodes l)) ->
  exists t', memory_browse_one c m.1 m.2 n t = Ret (t', filled (shown_refs (bn_query n) m) (leaving_refs (bn_query n) m) n) /\ same_types t0 t'.
Proof.
  intros Ht [Hn Hnext] Hin. unfold memory_browse_one. rewrite Hn.
  assert (take_nodes_point (set_status Good n) = (set_status Good (take_input n).1, None)) as ->.
  { unfold take_nodes_point. cbn. destruct (bn_input_continuation_point n) as [[l| |]|]; try done. by destruct (Hin l). }
  unfold browse_node. set (n1 := set_status Good (take_input n).1).
  destruct (search_refs m.1 t0 Hacyclic (bq_node_id (bn_query n1)) (browse_filter (bn_query n1)) (bq_browse_direction (bn_query n1)) t Ht)
    as (t1 & -> & Ht1). cbn [outcome_bind].
  destruct (browse_loop_spec m.1 m.2 (matching_refs m (bn_query n)) n1 [] t1 Ht1) as (t2 & He & Ht2).
  change (bn_query n1) with (bn_query n). unfold matching_refs in He at 1. rewrite He. cbn [outcome_bind app].
  exists t2. split; [|done]. unfold filled. change (remaining n1) with (remaining n).
  fold (shown_refs (bn_query n) m). fold (leaving_refs (bn_query n) m). by destruct (drop _ _).
Qed.

(** Taking from the back of a point. *)
Lemma resume_loop_spec fuel : forall point n, (length point < fuel)%nat ->
  exists taken rest, resume_loop fuel point n = (with_references (map (clear_fields (bq_result_mask (bn_query n))) taken) [] n, rest)
    /\ point ≡ₚ taken ++ rest /\ length taken = Nat.min (remaining n) (length point).
Proof.
  induction fuel as [|fuel IH]; intros point n Hf; [lia|]. cbn [resume_loop]. destruct (Nat.eqb_spec (remaining n) 0) as [Hr|Hr].
  { exists [], point. cbn [map]. rewrite with_references_nil, Hr. done. }
  unfold pop_back. destruct (last point) as [d|] eqn:Hl.
  2: { apply last_None in Hl. subst. exists [], []. cbn [map]. rewrite with_references_nil. split; [done|]. split; [done|]. cbn. lia. }
  apply last_Some in Hl as [point' ->]. rewrite removelast_last. rewrite length_app in Hf. cbn in Hf.
  assert (add_unchecked d n = with_references [clear_fields (bq_result_mask (bn_query n)) d] [] n) as Ha
    by (unfold with_references; destruct n; cbn; by rewrite app_nil_r).
  rewrite Ha. destruct (IH point' (with_references [clear_fields (bq_result_mask (bn_query n)) d] [] n) ltac:(lia)) as (taken & rest & -> & Hp & Hlen).
  exists (d :: taken), rest. rewrite with_references_app. split; [done|]. split.
  - rewrite Hp. by rewrite (Permutation_app_comm _ [d]).
  - cbn [length]. rewrite remaining_with in Hlen. rewrite Hlen, length_app. cbn [length]. lia.
Qed.

Definition cleared (q : BrowseQuery) (l : list ReferenceDescription) : Prop := Forall (fun d => clear_fields (bq_result_mask q) d = d) l.

Lemma map_cleared q l : cleared q l -> map (clear_fields (bq_result_mask q)) l = l.
Proof. induction 1 as [|d l Hd Hl IH]; cbn; [done|by rewrite Hd, IH]. Qed.

Lemma resume_one_spec (m : memory) n point t : fresh n -> bn_input_continuation_point n = Some (CpNodes point) -> cleared (bn_query n) point ->
  exists taken rest, memory_browse_one c m.1 m.2 n t
    = Ret (t, let n' := with_references taken [] (set_status Good (take_input n).1) in
              match rest with [] => n' | _ => set_next_continuation_point (CpNodes rest) n' end)
  /\ point ≡ₚ taken ++ rest /\ length taken = Nat.min (remaining n) (length point).
Proof.
  intros [Hn _] Hin Hc. unfold memory_browse_one. rewrite Hn. unfold take_nodes_point. cbn [take_input set_status bn_input_continuation_point].
  rewrite Hin. set (n1 := mkNode _ _ _ _ _ _ _ _).
  destruct (resume_loop_spec (S (length point)) point n1 ltac:(lia)) as (taken & rest & He & Hp & Hlen).
  exists taken, rest. unfold resume. rewrite He. split; [|done]. do 2 f_equal.
  rewrite map_cleared; [done|]. unfold cleared in *. rewrite Hp in Hc. by apply Forall_app in Hc as [Hc _].
Qed.

Lemma shown_refs_cleared q m : cleared q (shown_refs q m).
Proof.
  unfold cleared, shown_refs. apply Forall_forall. intros d (r & _ & Hr)%list_elem_of_omap. unfold describe in Hr.
  destruct (is_null_id _); [done|]. destruct (find_node _ _); [|done]. destruct (negb _); [done|]. cbv zeta in Hr.
  destruct (accepted _ _); [|done]. injection Hr as <-. apply clear_fields_idem.
Qed.

(** ** One node at all node managers *)

Section query.
Variables (ms : list memory) (q : BrowseQuery).
Abbreviation max := (bq_max_references_per_node q).
Hypothesis Hnode : is_null_id (bq_node_id q) = false.
(** No reference leads out of the node managers. *)
Hypothesis Hclosed : forall m, m ∈ ms -> leaving_refs q m = [].

(** The references from a node manager on. *)
Definition shown_from (k : nat) : list ReferenceDescription := concat (map (shown_refs q) (drop k ms)).

Lemma shown_from_lookup k m : ms !! k = Some m -> shown_from k = shown_refs q m ++ shown_from (S k).
Proof. intros Hm. unfold shown_from. by rewrite (drop_S _ m) by done. Qed.
Lemma shown_from_end k : (length ms <= k)%nat -> shown_from k = [].
Proof. intros Hk. unfold shown_from. by rewrite drop_ge. Qed.

(** What a point still has to deliver. *)
Definition pending (p : option (nat * ContinuationPoint)) : list ReferenceDescription :=
  match p with
  | Some (k, CpNodes l) => l ++ shown_from (S k)
  | Some (k, CpEmpty) => shown_from k
  | _ => []
  end.
Definition good_point (p : nat * ContinuationPoint) : Prop :=
  (p.1 < length ms)%nat /\ match p.2 with CpNodes l => cleared q l | CpEmpty => True | CpExternal _ => False end.

(** The answer to a node with these references and this point. *)
Definition reply (s : BrowseSession) (acc : list ReferenceDescription) (p : option (nat * ContinuationPoint)) : BrowseResult * BrowseSession :=
  match p with
  | None => (mkResult Good None (Some acc), s)
  | Some (k, cp) =>
      let '(s, id) := random_id s in
      (mkResult Good (Some id) (Some acc), set_points (<[id := mkPoint k cp (Some id) q []]> (browse_continuation_points s)) s)
  end.

Definition room (s : BrowseSession) : Prop := (size (browse_continuation_points s) < max_browse_continuation_points s)%nat.

Record clean (n : BrowseNode) : Prop := {
  cl_query : bn_query n = q;
  cl_next : bn_next_continuation_point n = None;
  cl_external : bn_external_references n = [];
  cl_index : bn_input_index n = 0%nat
}.

(** After the node managers the node has been answered, or is left without a point. *)
Inductive passed (s : BrowseSession) (acc : list ReferenceDescription) (p : option (nat * ContinuationPoint)) :
    list BrowseNode -> results -> BrowseSession -> Prop :=
| passed_answered r s' : reply s acc p = (r, s') -> passed s acc p [] [Some r] s'
| passed_left n : p = None -> bn_references n = acc -> bn_status_code n = Good -> bn_input_continuation_point n = None -> clean n ->
    passed s acc p [n] [None] s.

Definition answer (start : BrowseNode) (todo : list ReferenceDescription) (s : BrowseSession) (acc : list ReferenceDescription)
    (p : option (nat * ContinuationPoint)) : Prop :=
  acc ++ pending p ≡ₚ bn_references start ++ todo /\ (length acc <= max)%nat
  /\ forall x, p = Some x -> length acc = max /\ good_point x.

Lemma into_result_reply n s index acc : clean n -> bn_status_code n = Good -> bn_references n = acc -> room s ->
  into_result index (length ms) n s =
    let '(r, s') := reply s acc (if (index <? length ms - 1)%nat then Some (S index, CpEmpty) else None) in (r, 0%nat, s').
Proof.
  intros [Hq Hnx He Hi] Hst <- Hroom. unfold into_result. rewrite Hnx. destruct (index <? length ms - 1)%nat; cbn [reply]; [|by rewrite Hst, Hi].
  unfold random_id, add_browse_continuation_point. cbn [browse_continuation_points max_browse_continuation_points].
  unfold room in Hroom. destruct (Nat.leb_spec (max_browse_continuation_points s) (size (browse_continuation_points s))); [lia|].
  by rewrite Hst, Hi, Hq, He.
Qed.
Lemma into_result_point n s index acc cp : bn_next_continuation_point n = Some cp -> bn_query n = q -> bn_external_references n = [] ->
  bn_input_index n = 0%nat -> bn_status_code n = Good -> bn_references n = acc -> room s ->
  into_result index (length ms) n s = let '(r, s') := reply s acc (Some (index, cp)) in (r, 0%nat, s').
Proof.
  intros Hnx Hq He Hi Hst <- Hroom. unfold into_result. rewrite Hnx. cbn [reply].
  unfold random_id, add_browse_continuation_point. cbn [browse_continuation_points max_browse_continuation_points].
  unfold room in Hroom. destruct (Nat.leb_spec (max_browse_continuation_points s) (size (browse_continuation_points s))); [lia|].
  by rewrite Hst, Hi, Hq, He.
Qed.

Lemma browse_managers_step (m : memory) managers index n n1 s t t1 :
  memory_browse_one c m.1 m.2 n t = Ret (t1, n1) ->
  browse_managers (length ms) index (memory_manager c m.1 m.2 :: managers) [n] [None] s t =
    if is_completed n1 then
      let '(r, i, s') := into_result index (length ms) n1 s in
      let! rs := set_result i r [None] in Ret (t1, [], rs, s')
    else browse_managers (length ms) (S index) managers [n1] [None] s t1.
Proof.
  intros He. cbn [browse_managers nm_browse memory_manager tree_map]. rewrite He. cbn [outcome_bind fail_owned length drain_completed lookup list_lookup].
  destruct (is_completed n1); [|done]. destruct (into_result _ _ _ _) as [[r i] s'].
  destruct (set_result i r [None]); [|done|done]. cbn [outcome_bind swap_remove last length Nat.eqb removelast drain_completed lookup list_lookup]. done.
Qed.

Lemma remaining_clean n : bn_query n = q -> remaining n = (max - length (bn_references n))%nat.
Proof. intros <-. done. Qed.

(** From a node manager on, with a node that is not full. *)
Lemma pass_managers ms' : forall k n s t, drop k ms = ms' -> same_types t0 t -> clean n ->
  (forall l, bn_input_continuation_point n <> Some (CpNodes l)) -> (ms' = [] -> bn_status_code n = Good /\ bn_input_continuation_point n = None) ->
  (length (bn_references n) < max)%nat -> room s ->
  exists t' acc p nodes rs s', browse_managers (length ms) k (managers_of ms') [n] [None] s t = Ret (t', nodes, rs, s')
    /\ same_types t0 t' /\ passed s acc p nodes rs s' /\ answer n (shown_from k) s acc p.
Proof.
  induction ms' as [|m ms' IH]; intros k n s t Hk Ht Hcl Hin Hend Hlen Hroom.
  { destruct (Hend eq_refl) as [Hst Hin']. exists t, (bn_references n), None, [n], [None], s. split; [done|]. split; [done|]. split; [by apply passed_left|].
    split; [|split; [lia|done]]. rewrite shown_from_end; [done|]. apply (f_equal length) in Hk. rewrite length_drop in Hk. cbn in Hk. lia. }
  assert (ms !! k = Some m) as Hm by (rewrite <- (Nat.add_0_r k), <- lookup_drop, Hk; done).
  assert (drop (S k) ms = ms') as Hk' by (rewrite <- Nat.add_1_r, <- drop_drop, Hk; done).
  pose proof (lookup_lt_Some _ _ _ Hm) as Hklt. pose proof (Hclosed m ltac:(by eapply list_elem_of_lookup_2)) as Hleave.
  destruct Hcl as [Hq Hnx He Hi].
  destruct (browse_one_spec m n t Ht) as (t1 & Hone & Ht1); [split; [by rewrite Hq|done]|done|].
  rewrite Hq, Hleave in Hone. cbn [managers_of map]. fold (managers_of ms').
  rewrite (browse_managers_step m (managers_of ms') k n _ s t t1 Hone). rewrite (shown_from_lookup k m Hm).
  set (F := shown_refs q m) in *. unfold filled. rewrite (remaining_clean n Hq).
  set (n1 := with_references _ _ _). set (r := (max - length (bn_references n))%nat) in *.
  assert (bn_references n1 = bn_references n ++ take r F) as Hrefs by done.
  assert (clean n1) as Hcl1 by (split; cbn; [done|done|by rewrite He|done]).
  assert (length (bn_references n1) = (length (bn_references n) + Nat.min r (length F))%nat) as Hlen1
    by (by rewrite Hrefs, length_app, length_take).
  destruct (drop r F) as [|d rest] eqn:Hdrop.
  - assert (take r F = F) as Htake by (rewrite <- (take_drop r F) at 2; by rewrite Hdrop, app_nil_r).
    assert (length F <= r)%nat as HF by (apply (f_equal length) in Hdrop; rewrite length_drop in Hdrop; cbn in Hdrop; lia).
    unfold is_completed. rewrite (cl_next _ Hcl1). cbn [is_some]. rewrite orb_false_r, (remaining_clean n1 (cl_query _ Hcl1)).
    destruct (Nat.eqb_spec (max - length (bn_references n1)) 0) as [Hfull|Hfree].
    + rewrite (into_result_reply n1 s k _ Hcl1 eq_refl eq_refl Hroom). destruct (reply _ _ _) as [res s'] eqn:Hrep.
      cbn [set_result length Nat.ltb Nat.leb outcome_bind insert list_insert]. do 6 eexists. split; [done|]. split; [done|].
      split; [by apply passed_answered, Hrep|]. rewrite Hrefs, Htake in *. split; [|split; [lia|]].
      * rewrite app_assoc. apply Permutation_app_head. destruct (Nat.ltb_spec k (length ms - 1)); cbn [pending]; [done|].
        by rewrite shown_from_end by lia.
      * intros x Hx. split; [lia|]. destruct (Nat.ltb_spec k (length ms - 1)); [|done]. injection Hx as <-. split; [cbn; lia|done].
    + destruct (IH (S k) n1 s t1 Hk' Ht1 Hcl1) as (t' & acc & p & nodes & rs & s' & Hrun & Ht' & Hpass & Hp & Hmax & Hpt);
        [by intros l [=]|done|lia|done|].
      do 6 eexists. split; [exact Hrun|]. split; [done|]. split; [exact Hpass|]. split; [|done].
      rewrite Hp, Hrefs, Htake. by rewrite <- app_assoc.
  - assert (r < length F)%nat as HF by (apply (f_equal length) in Hdrop; rewrite length_drop in Hdrop; cbn in Hdrop; lia).
    set (n2 := set_next_continuation_point _ n1). unfold is_completed. cbn [n2 bn_next_continuation_point set_next_continuation_point is_some].
    rewrite orb_true_r. rewrite (into_result_point n2 s k (bn_references n1) (CpNodes (d :: rest))); try done; [|by cbn; rewrite He].
    destruct (reply _ _ _) as [res s'] eqn:Hrep. cbn [set_result length Nat.ltb Nat.leb outcome_bind insert list_insert].
    do 6 eexists. split; [done|]. split; [done|]. split; [by apply passed_answered, Hrep|]. split; [|split; [lia|]].
    + cbn [pending]. rewrite Hrefs, <- app_assoc. apply Permutation_app_head. rewrite app_assoc. apply Permutation_app_tail.
      by rewrite <- Hdrop, take_drop.
    + intros x [= <-]. split; [lia|]. split; [done|]. unfold cleared. rewrite <- Hdrop. apply Forall_drop, shown_refs_cleared.
Qed.

(** From the node manager of a point. *)
Lemma pass_from_point k cp n s t : good_point (k, cp) -> same_types t0 t -> clean n -> bn_input_continuation_point n = Some cp ->
  bn_references n = [] -> (0 < max)%nat -> room s ->
  exists t' acc p nodes rs s', browse_managers (length ms) k (managers_of (drop k ms)) [n] [None] s t = Ret (t', nodes, rs, s')
    /\ same_types t0 t' /\ passed s acc p nodes rs s' /\ answer n (pending (Some (k, cp))) s acc p.
Proof.
  intros [Hk Hcp] Ht Hcl Hin Hrefs Hmax Hroom. cbn [fst snd] in *.
  destruct (lookup_lt_is_Some_2 ms k Hk) as [m Hm]. pose proof (drop_S ms m k Hm) as Hdrop.
  destruct cp as [point| |]; [|done|].
  2: { apply (pass_managers (drop k ms)); rewrite ?Hrefs; try done; [by rewrite Hin|by rewrite Hdrop]. }
  pose proof Hcl as [Hq Hnx He Hi].
  destruct (resume_one_spec m n point t) as (taken & rest & Hone & Hperm & Hlen); [by split; [rewrite Hq|]|done|by rewrite Hq|].
  rewrite Hdrop. cbn [managers_of map]. fold (managers_of (drop (S k) ms)).
  rewrite (browse_managers_step m (managers_of (drop (S k) ms)) k n _ s t t Hone). cbn [pending]. rewrite (remaining_clean n Hq), Hrefs in Hlen.
  cbv zeta. set (n1 := with_references _ _ _). cbn [length] in Hlen. rewrite Nat.sub_0_r in Hlen.
  assert (bn_references n1 = taken) as Hrefs1 by (cbn; by rewrite Hrefs).
  assert (clean n1) as Hcl1 by (split; cbn; [done|done|by rewrite He|done]).
  destruct rest as [|d rest].
  - rewrite app_nil_r in Hperm. unfold is_completed. rewrite (cl_next _ Hcl1). cbn [is_some].
    rewrite orb_false_r, (remaining_clean n1 (cl_query _ Hcl1)), Hrefs1.
    destruct (Nat.eqb_spec (max - length taken) 0) as [Hfull|Hfree].
    + rewrite (into_result_reply n1 s k _ Hcl1 eq_refl Hrefs1 Hroom). destruct (reply _ _ _) as [res s'] eqn:Hrep.
      cbn [set_result length Nat.ltb Nat.leb outcome_bind insert list_insert]. do 6 eexists. split; [done|]. split; [done|].
      split; [by apply passed_answered, Hrep|]. unfold answer. rewrite Hrefs. split; [|split; [lia|]].
      * cbn [app]. rewrite Hperm. apply Permutation_app_head. destruct (Nat.ltb_spec k (length ms - 1)); cbn [pending]; [done|].
        by rewrite shown_from_end by lia.
      * intros x Hx. split; [lia|]. destruct (Nat.ltb_spec k (length ms - 1)); [|done]. injection Hx as <-. split; [cbn; lia|done].
    + destruct (pass_managers (drop (S k) ms) (S k) n1 s t eq_refl Ht Hcl1) as (t' & acc & p & nodes & rs & s' & Hrun & Ht' & Hpass & Hp & Hm' & Hpt);
        [by intros l [=]|done|rewrite Hrefs1; lia|done|].
      do 6 eexists. split; [exact Hrun|]. split; [done|]. split; [exact Hpass|]. split; [|done]. rewrite Hp, Hrefs1, Hrefs. cbn [app]. by rewrite Hperm.
  - set (n2 := set_next_continuation_point _ n1). unfold is_completed. cbn [n2 bn_next_continuation_point set_next_continuation_point is_some].
    rewrite orb_true_r. assert (length point = length taken + S (length rest))%nat as Hlp by (rewrite Hperm, length_app; done).
    rewrite (into_result_point n2 s k taken (CpNodes (d :: rest))); try done; [|by cbn; rewrite He].
    destruct (reply _ _ _) as [res s'] eqn:Hrep. cbn [set_result length Nat.ltb Nat.leb outcome_bind insert list_insert].
    do 6 eexists. split; [done|]. split; [done|]. split; [by apply passed_answered, Hrep|]. unfold answer. rewrite Hrefs. split; [|split; [lia|]].
    + cbn [pending app]. rewrite Hperm. by rewrite <- app_assoc.
    + intros x [= <-]. split; [lia|]. split; [done|]. cbn. unfold cleared in *. rewrite Hperm in Hcp. by apply Forall_app in Hcp as [_ ?].
Qed.

(** What is left after the node managers is finished with the same answer. *)
Lemma finish_passed s acc p nodes rs s' t : passed s acc p nodes rs s' -> same_types t0 t ->
  exists t' r, finish (managers_of ms) nodes rs s' t = Ret (t', [Some r], (reply s acc p).2) /\ r = (reply s acc p).1 /\ same_types t0 t'.
Proof.
  intros Hpass Ht. assert (forall l, resolve_managers (managers_of l) [] t = Ret (t, [])) as Hres.
  { induction l as [|m l IH]; cbn; [done|exact IH]. }
  destruct Hpass as [r s' Hrep|n -> <- Hst Hin [Hq Hnx He Hi]]; unfold finish, resolve_all, gather_external; cbn [fold_left].
  - change (map _ (map_to_list ∅)) with (@nil ExternalReferenceRequest). rewrite Hres. cbn [outcome_bind fold_left finish_nodes].
    exists t, r. by rewrite Hrep.
  - rewrite He. cbn [fold_left]. change (map _ (map_to_list ∅)) with (@nil ExternalReferenceRequest). rewrite Hres. cbn [outcome_bind fold_left finish_nodes].
    unfold resolve_external_references. rewrite He. cbn [resolve_loop outcome_bind]. exists t, (mkResult Good None (Some (bn_references n))).
    unfold into_result. cbn [set_external_references bn_next_continuation_point bn_status_code bn_references bn_input_index]. rewrite Hnx, Hst, Hi.
    rewrite Nat.ltb_irrefl. done.
Qed.

Lemma resume_external_passed s acc p nodes rs s' t : passed s acc p nodes rs s' -> tree_map resume_external nodes t = Ret (t, nodes).
Proof.
  intros [r s'' _|n -> _ _ Hin _]; cbn [tree_map]; [done|]. unfold resume_external, take_external_point, take_input. rewrite Hin.
  cbn [outcome_bind]. destruct n. cbn in Hin. by rewrite Hin.
Qed.

(** BrowseNext with the batch started is the loop of Browse. *)
Lemma next_managers_batch l : forall index batch rs s t,
  next_managers (length ms) index (managers_of l) [] batch rs s t =
    let! (x, s) := browse_managers (length ms) index (managers_of l) batch rs s t in let '(t, batch, rs) := x in Ret (t, [], batch, rs, s).
Proof.
  induction l as [|m l IH]; intros index batch rs s t; cbn [managers_of map next_managers browse_managers]; [done|]. fold (managers_of l).
  cbn [collect_batch length lookup list_lookup outcome_bind].
  destruct (nm_browse _ t batch) as [[[t1 b] r]| |] eqn:Hb; cbn [outcome_bind]; try done.
  assert (r = Ok tt) as ->.
  { cbn in Hb. destruct (tree_map _ _ _) as [[? ?]| |]; cbn in Hb; congruence. }
  cbn [fail_owned]. destruct (drain_completed _ _ _ _ _ _ _) as [[[b' rs'] s']| |]; cbn [outcome_bind]; try done.
  destruct b'; [done|apply IH].
Qed.
(** Before the node manager of the point nothing happens. *)
Lemma next_managers_skip l : forall index n rs s t, (bn_start_node_manager n < index + length l)%nat -> (index <= bn_start_node_manager n)%nat ->
  next_managers (length ms) index (managers_of l) [n] [] rs s t =
    next_managers (length ms) (bn_start_node_manager n) (managers_of (drop (bn_start_node_manager n - index) l)) [] [n] rs s t.
Proof.
  induction l as [|m l IH]; intros index n rs s t Hn Hi; cbn [length] in Hn; [lia|].
  destruct (Nat.eq_dec (bn_start_node_manager n) index) as [He|He].
  - rewrite He, Nat.sub_diag. cbn [drop managers_of map next_managers collect_batch length lookup list_lookup]. rewrite He, Nat.eqb_refl.
    cbn [swap_remove last length Nat.eqb removelast app collect_batch lookup list_lookup outcome_bind]. done.
  - rewrite <- Nat.eqb_neq in He. cbn [managers_of map next_managers collect_batch length lookup list_lookup]. rewrite He.
    cbn [collect_batch lookup list_lookup outcome_bind nm_browse memory_manager tree_map fail_owned length drain_completed].
    fold (managers_of l). apply Nat.eqb_neq in He. rewrite IH by lia.
    replace (bn_start_node_manager n - index)%nat with (S (bn_start_node_manager n - S index)) by lia. done.
Qed.

(** *** The conversation *)

(** A client asks with every continuation point it gets, until there is none: the pages. *)
Inductive pages (limits : BrowseLimits) : BrowseResult -> BrowseSession -> DefaultTypeTree -> list (list ReferenceDescription) -> Prop :=
| last_page r s t refs :
    br_status_code r = Good -> br_continuation_point r = None -> br_references r = Some refs -> pages limits r s t [refs]
| next_page r s t refs id t' s' r' l :
    br_status_code r = Good -> br_continuation_point r = Some id -> br_references r = Some refs ->
    browse_next limits (managers_of ms) (Some [Some id]) false s t = Ret (t', s', Ok [r']) -> pages limits r' s' t' l ->
    pages limits r s t (refs :: l).

(** Every page is full but the last one. *)
Definition paged (l : list (list ReferenceDescription)) : Prop :=
  exists full rest, l = full ++ [rest] /\ Forall (fun p => length p = max) full /\ (length rest <= max)%nat.

Lemma pages_of_reply limits (Hl : (0 < max_nodes_per_browse limits)%nat) (Hmax : (0 < max)%nat) k : forall acc p s t,
  (length (pending p) <= k)%nat -> room s -> same_types t0 t -> (length acc <= max)%nat ->
  (forall x, p = Some x -> length acc = max /\ good_point x) ->
  exists l, pages limits (reply s acc p).1 (reply s acc p).2 t l /\ concat l ≡ₚ acc ++ pending p /\ paged l.
Proof.
  induction k as [k IH] using lt_wf_ind. intros acc p s t Hk Hroom Ht Hacc Hp. destruct p as [[i cp]|].
  2: { exists [acc]. cbn [reply fst snd]. split; [by apply last_page|]. split; [by cbn; rewrite !app_nil_r|]. by exists [], acc. }
  destruct (Hp _ eq_refl) as [Hfull Hgood]. cbn [reply]. unfold random_id. cbn [browse_continuation_points].
  set (id := session_random s (session_drawn s)). set (s1 := set_points _ _). set (r1 := mkResult _ _ _).
  set (n := from_continuation_point (mkPoint i cp (Some id) q []) 0).
  set (s2 := set_points (base.delete id (browse_continuation_points s1)) s1).
  assert (room s2) as Hroom2.
  { unfold room, s2, s1, set_points in *. cbn [browse_continuation_points max_browse_continuation_points].
    rewrite delete_insert_eq. pose proof (map_size_delete id (browse_continuation_points s)) as Hsz. rewrite Hsz.
    destruct (browse_continuation_points s !! id); unfold Datatypes.id; lia. }
  destruct (pass_from_point i cp n s2 t Hgood Ht) as (t2 & acc2 & p2 & nodes & rs & s3 & Hrun & Ht2 & Hpass & Hperm & Hacc2 & Hp2);
    [by split|done|done|done|done|].
  destruct (finish_passed s2 acc2 p2 nodes rs s3 t2 Hpass Ht2) as (t3 & r & Hfin & -> & Ht3).
  assert (remove_browse_continuation_point (Some id) s1 = (s2, Some (mkPoint i cp (Some id) q []))) as Hrem.
  { unfold remove_browse_continuation_point. fold s2. f_equal. unfold s1, set_points. cbn [browse_continuation_points]. apply lookup_insert_eq. }
  assert (browse_next limits (managers_of ms) (Some [Some id]) false s1 t = Ret (t3, (reply s2 acc2 p2).2, Ok [(reply s2 acc2 p2).1])) as Hnext.
  { unfold browse_next, take_service_items. destruct (Nat.ltb_spec (max_nodes_per_browse limits) (length [Some id])); [cbn in *; lia|].
    cbn [take_points]. rewrite Hrem. fold n. 
    assert (length (managers_of ms) = length ms) as -> by apply length_map.
    rewrite (next_managers_skip ms 0 n); [|cbn; destruct Hgood; cbn in *; lia|lia].
    rewrite next_managers_batch. change (bn_start_node_manager n) with i. rewrite Nat.sub_0_r, Hrun. cbn [outcome_bind tree_map app].
    rewrite Hfin. cbn [outcome_bind unwrap_results unwrap]. done. }
  change (bn_references n ++ pending (Some (i, cp))) with (pending (Some (i, cp))) in Hperm.
  pose proof (Permutation_length Hperm) as Hplen. rewrite length_app in Hplen.
  destruct p2 as [x2|].
  - destruct (Hp2 x2 eq_refl) as [Hfull2 _].
    destruct (IH (length (pending (Some x2))) ltac:(lia) acc2 (Some x2) s2 t3 ltac:(lia) Hroom2 Ht3 Hacc2 Hp2) as (l & Hpages & Hconcat & (full & rest & -> & Hf & Hr)).
    exists (acc :: full ++ [rest]). split; [by eapply next_page|]. split.
    + cbn [concat]. by rewrite Hconcat, Hperm.
    + exists (acc :: full), rest. split; [done|]. split; [by constructor|done].
  - exists [acc; acc2]. split; [eapply next_page; [done|done|done|exact Hnext|]; by apply last_page|]. split.
    + cbn [concat]. rewrite app_nil_r. apply Permutation_app_head. cbn [pending] in Hperm. by rewrite <- Hperm, app_nil_r.
    + exists [acc], acc2. split; [done|]. split; [by constructor|done].
Qed.

End query.

(** C30: browsing a node delivers every reference exactly once. In a server of in-memory node
    managers whose references of the node do not leave them, Browse for one node answers Good, and a
    client that asks with each continuation point it gets comes to an end: every page but the last
    has as many references as were asked for, and together they are the references that the user may
    see, each node manager's as its tables hold them. The types have no cycle, their cache is up to
    date, the limits of the server are not zero and the session has room for a continuation point.
    *)
Theorem browse_delivers_references ms limits d requested s t (Ht : same_types t0 t)
    (Hdir : bd_browse_direction d <> BdInvalid) (Hnode : is_null_id (bd_node_id d) = false)
    (Htype : is_null_id (bd_reference_type_id d) = true \/ tt_get (bd_reference_type_id d) t0 = Some NcReferenceType)
    (Hms : ms <> []) (Hlimit : (0 < max_nodes_per_browse limits)%nat) (Hmax : (0 < max_references_per_browse_node limits)%nat)
    (Hroom : room s) :
  let request := mkBrowseRequest (Some [d]) null_id requested in
  let q := bn_query (browse_node_new d (max_references limits request) 0) in
  (forall m, m ∈ ms -> leaving_refs q m = []) ->
  exists t' s' r l, browse limits (managers_of ms) request s t = Ret (t', s', Ok [r])
    /\ pages ms limits r s' t' l /\ concat l ≡ₚ concat (map (shown_refs q) ms) /\ paged q l.
Proof.
  intros request q Hclosed. assert (0 < bq_max_references_per_node q)%nat as Hq.
  { cbn. unfold max_references. cbn. destruct (Nat.eqb_spec requested 0); lia. }
  set (n := browse_node_new d (max_references limits request) 0).
  destruct (pass_managers ms q Hnode Hclosed ms 0 n s t) as (t2 & acc & p & nodes & rs & s3 & Hrun & Ht2 & Hpass & Hperm & Hacc & Hp);
    try done.
  destruct (finish_passed ms q s acc p nodes rs s3 t2 Hpass Ht2) as (t3 & r & Hfin & -> & Ht3).
  assert (browse limits (managers_of ms) request s t = Ret (t3, (reply q s acc p).2, Ok [(reply q s acc p).1])) as Hbrowse.
  { unfold browse, take_service_items. cbn [request nodes_to_browse view_id]. destruct (Nat.ltb_spec (max_nodes_per_browse limits) (length [d])); [cbn in *; lia|].
    cbn [negb is_null_id null_id ns0]. cbn [prepare_nodes]. rewrite bool_decide_false by done. rewrite (same_types_get t) by done.
    assert (negb (is_null_id (bd_reference_type_id d)) && negb (bool_decide (tt_get (bd_reference_type_id d) t0 = Some NcReferenceType)) = false) as ->.
    { destruct Htype as [->| ->]; [done|]. rewrite bool_decide_true by done. apply andb_false_r. }
    fold n. change (is_null_id {| Variant.namespace := 0; identifier := IdNumeric 0 |}) with true. cbn [negb].
    assert (length (managers_of ms) = length ms) as -> by apply length_map. rewrite Hrun. cbn [outcome_bind].
    rewrite (resume_external_passed _ _ _ _ _ _ _ _ Hpass). cbn [outcome_bind]. rewrite Hfin. done. }
  destruct (pages_of_reply ms q Hnode Hclosed limits Hlimit Hq (length (pending ms q p)) acc p s t3) as (l & Hpages & Hconcat & Hpaged); try done.
  do 4 eexists. split; [exact Hbrowse|]. split; [exact Hpages|]. split; [|done]. rewrite Hconcat, Hperm. done.
Qed.

End facts.

(** ** Two servers *)

#[local] Existing Instances no_dyn keep_all elements_order.

Definition object_at (n : NodeId) (name : rstr) : NodeType := NtObject (mkObject (base_new NcObject n (name_of name) no_text) 0).
Definition links (l : list (NodeId * NodeId)) (s : AddressSpace) : AddressSpace :=
  match insert_references (map (fun x => (x.1, x.2, ns0 35)) l) references_new with Ret r => AddressSpace.set_references r s | _ => s end.

(** A folder with two children, in one node manager, and the same folder with its children in another. *)
Definition one_space : AddressSpace :=
  links [(node 1, node 2); (node 1, node 3)]
    (put_node (object_named 3 (str "b")) (put_node (object_named 2 (str "a")) parent_only)).
Definition foreign (i : Z) : NodeId := {| namespace := 2; identifier := IdNumeric i |}.
Definition first_space : AddressSpace := links [(node 1, foreign 1); (node 1, foreign 2)] parent_only.
Definition second_space : AddressSpace :=
  put_node (object_at (foreign 2) (str "b")) (put_node (object_at (foreign 1) (str "a")) (space_add_namespace (str "urn:two") 2 space_new)).
Definition of_spaces : list AddressSpace -> list memory := map (fun s => (s, space_namespaces s)).

Definition empty_session : BrowseSession := mkSession ∅ 5 (fun n => [Z.of_nat n]) 0.
Definition browse_limits : BrowseLimits := mkBrowseLimits 10 100.
Definition browse_all (n : NodeId) : BrowseDescription := mkBrowseDescription n BdForward null_id true 0 63.
Definition organizing_query : BrowseQuery := bn_query (browse_node_new (browse_all (node 1)) 1 0).
Definition browse_of (spaces : list AddressSpace) (n : NodeId) (requested : nat) :=
  browse browse_limits (managers_of free_user (of_spaces spaces)) (mkBrowseRequest (Some [browse_all n]) null_id requested) empty_session organizing_tree.

(** What a client reads off a response: the statuses, the continuation points and the targets. *)
Definition read_response (x : outcome (DefaultTypeTree * BrowseSession * result (list BrowseResult) StatusCode)) :=
  match x with
  | Ret (_, _, Ok l) => map (fun r => (br_status_code r, br_continuation_point r, option_map (map (fun d => node_id (rd_node_id d))) (br_references r))) l
  | _ => []
  end.

(** The first of two pages; a hash set has no order of its own. *)
Example two_pages : read_response (browse_of [one_space] (node 1) 1) = [(Good, Some [0], Some [node 3])].
Proof. vm_compute. reflexivity. Qed.

(** The references to another node manager are shown in one page, *)
Example external_in_one_page :
  read_response (browse_of [first_space; second_space] (node 1) 0) = [(Good, None, Some [foreign 1; foreign 2])].
Proof. vm_compute. reflexivity. Qed.
(** and what does not fit on the first page is lost: BrowseNext answers Good, without references and
    without a continuation point. *)
Example external_lost_in_two_pages :
  read_response (browse_of [first_space; second_space] (node 1) 1) = [(Good, Some [0], Some [foreign 1])]
  /\ match browse_of [first_space; second_space] (node 1) 1 with
     | Ret (t, s, _) =>
         read_response (browse_next browse_limits (managers_of free_user (of_spaces [first_space; second_space])) (Some [Some [0]]) false s t)
         = [(Good, None, Some [])]
     | _ => False
     end.
Proof. vm_compute. by split. Qed.

(** A node that no node manager has is browsed with success. *)
Example unknown_node_is_good : read_response (browse_of [one_space] (node 99) 0) = [(Good, None, Some [])].
Proof. vm_compute. reflexivity. Qed.

Lemma organizing_tree_fresh : same_types organizing_tree organizing_tree.
Proof. split; [by exists (subtype_cache organizing_tree); vm_compute|]. by apply empty_cache_fresh. Qed.

Lemma browse_delivers_references_witness :
  exists t' s' r l, browse_of [one_space] (node 1) 1 = Ret (t', s', Ok [r])
    /\ pages free_user (of_spaces [one_space]) browse_limits r s' t' l
    /\ concat l ≡ₚ concat (map (shown_refs free_user organizing_tree organizing_query) (of_spaces [one_space])) /\ paged organizing_query l.
Proof.
  apply (browse_delivers_references free_user organizing_tree organizing_tree_acyclic (of_spaces [one_space]) browse_limits
           (browse_all (node 1)) 1 empty_session organizing_tree organizing_tree_fresh); try done.
  - by left.
  - cbn. lia.
  - cbn. lia.
  - vm_compute. lia.
  - intros m Hm. apply list_elem_of_singleton in Hm as ->. vm_compute. reflexivity.
Defined.
