(* ===== verification/BrowseAccess.v ===== *)
(** * Browsing and permissions

    Whatever is browsed, and however it is continued: a reference is shown only when it leads to a node
    that exists and that the user may browse.  The argument follows the code of Browse.v for requests
    of any number of nodes, with external references. *)

From S2P Require Import Prelude Text StatusCode NumericRange Variant References TypeTree Nodes Rbac AddressSpace NodeManagement NodeManagementFacts Browse BrowseFacts.
#[local] Open Scope Z_scope.

Section access.
Context {D : DynEncodable} {M : Moka} {RO : RefOrder}.
Variables (c : RequestContext) (ms : list memory) (t0 : DefaultTypeTree).
Hypothesis Hacyclic : acyclic t0.
(** Nodes are stored under their identifiers. *)
Hypothesis Hkeyed : forall m k n, m ∈ ms -> node_map m.1 !! k = Some n -> node_id_of n = k.

(** ** What may be shown *)

Definition may_see (n : NodeId) : Prop := exists m x, m ∈ ms /\ node_map m.1 !! n = Some x /\ can_browse_target c x = true.
Definition seen (d : ReferenceDescription) : Prop := may_see (node_id (rd_node_id d)).
Definition point_seen (p : ContinuationPoint) : Prop :=
  match p with CpNodes l | CpExternal l => Forall seen l | CpEmpty => True end.
Definition from_option_point (p : option ContinuationPoint) : Prop := match p with Some p => point_seen p | None => True end.
Record node_seen (n : BrowseNode) : Prop := {
  ns_references : Forall seen (bn_references n);
  ns_input : from_option_point (bn_input_continuation_point n);
  ns_next : from_option_point (bn_next_continuation_point n)
}.
Definition session_seen (s : BrowseSession) : Prop := map_Forall (fun _ p => point_seen (bp_continuation_point p)) (browse_continuation_points s).
Definition result_seen (r : BrowseResult) : Prop := match br_references r with Some l => Forall seen l | None => True end.
Definition results_seen (rs : results) : Prop := Forall (fun r => match r with Some r => result_seen r | None => True end) rs.
Definition resolved_seen (m : gmap NodeId NodeMetadata) : Prop := map_Forall (fun k _ => may_see k) m.

(** A call returns, and what it returns. *)
Definition returns {A} (P : A -> Prop) (m : outcome A) : Prop := match m with Ret a => P a | _ => False end.
Lemma returns_bind {A B} (P : A -> Prop) (Q : B -> Prop) m (k : A -> outcome B) :
  returns P m -> (forall a, P a -> returns Q (k a)) -> returns Q (outcome_bind m k).
Proof. destruct m; cbn; auto; done. Qed.
Lemma tree_map_returns {A} (P : A -> Prop) (Q : A -> A -> Prop) f l :
  (forall x t, P x -> same_types t0 t -> returns (fun y => same_types t0 y.1 /\ Q x y.2) (f x t)) ->
  forall t, Forall P l -> same_types t0 t -> returns (fun y => same_types t0 y.1 /\ Forall2 Q l y.2) (tree_map f l t).
Proof.
  intros Hf. induction l as [|x l IH]; intros t Hl Ht; cbn [tree_map]; [by split; [|constructor]|]. apply Forall_cons in Hl as [Hx Hl].
  apply (returns_bind (fun y => same_types t0 y.1 /\ Q x y.2)); [by apply Hf|]. intros [t1 y] [Ht1 Hy].
  apply (returns_bind (fun y => same_types t0 y.1 /\ Forall2 Q l y.2)); [by apply IH|]. intros [t2 l'] [Ht2 Hl']. cbn in *.
  by split; [|constructor].
Qed.

(** ** Steps on a node *)

Lemma seen_clear mask d : seen d -> seen (clear_fields mask d).
Proof. done. Qed.
Lemma push_seen d n : seen d -> node_seen n -> node_seen (push_reference d n).
Proof. intros Hd [H1 H2 H3]. split; [|done|done]. apply Forall_app. split; [done|by constructor]. Qed.
Lemma add_unchecked_seen d n : seen d -> node_seen n -> node_seen (add_unchecked d n).
Proof. intros Hd Hn. by apply push_seen. Qed.
Lemma next_seen p n : point_seen p -> node_seen n -> node_seen (set_next_continuation_point p n).
Proof. intros Hp [H1 H2 H3]. by split. Qed.
Lemma take_input_seen n : node_seen n -> node_seen (take_input n).1 /\ from_option_point (take_input n).2.
Proof. intros [H1 H2 H3]. split; [by split|done]. Qed.

(** The same place in the request, and still nothing forbidden. *)
Definition after (n n' : BrowseNode) : Prop := bn_input_index n' = bn_input_index n /\ node_seen n'.

Lemma add_seen d n t : same_types t0 t -> seen d -> node_seen n ->
  returns (fun y => same_types t0 y.1.1 /\ after n y.1.2 /\ forall r, y.2 = ArFull r -> seen r) (add d n t).
Proof.
  intros Ht Hd Hn. unfold add. destruct (matches_filter_spec t0 Hacyclic (bn_query n) d t Ht) as (t' & -> & Ht'). cbn [outcome_bind].
  destruct (accepted _ _ _); cbn [negb]; [|done].
  destruct (0 <? remaining n)%nat; cbn; (split; [done|]); (split; [split; [done|by try apply push_seen]|]); [done|]. by intros r [= <-].
Qed.

Lemma get_reference_seen m x mask t k : m ∈ ms -> node_map m.1 !! k = Some x -> can_browse_target c x = true -> same_types t0 t ->
  returns (fun y => same_types t0 y.1 /\ node_id (nm_node_id y.2) = k /\ may_see k) (get_reference m.1 x mask t).
Proof.
  intros Hm Hk Hx Ht. rewrite (get_reference_spec t0) by done. cbn. split; [done|]. split; [by apply (Hkeyed m)|by exists m, x].
Qed.

Lemma browse_loop_seen m l : m ∈ ms -> forall n cp t, node_seen n -> Forall seen cp -> same_types t0 t ->
  returns (fun y => same_types t0 y.1.1 /\ after n y.1.2 /\ Forall seen y.2) (browse_loop c m.1 m.2 l n cp t).
Proof.
  intros Hm. induction l as [|r l IH]; intros n cp t Hn Hcp Ht; cbn [browse_loop]; [done|].
  destruct (is_null_id _); [by apply IH|]. destruct (find_node (ref_target r) m.1) as [x|] eqn:Hx.
  2: { destruct (is_some _); [by apply IH|].
    assert (forall e, node_seen (push_external_reference e n)) as Hpush by (by destruct Hn). by apply (IH (push_external_reference _ n)). }
  destruct (can_browse_target c x) eqn:Hb; cbn [negb]; [|by apply IH].
  eapply returns_bind; [by apply (get_reference_seen m x _ t (ref_target r))|]. intros [t1 meta] (Ht1 & Hid & Hsee). cbn [fst snd] in *.
  eapply returns_bind; [apply add_seen; [done| |exact Hn]; unfold seen; cbn; by rewrite Hid|].
  intros [[t2 n2] added] (Ht2 & [Hi2 Hn2] & Hfull). cbn [fst snd] in *. unfold after. rewrite <- Hi2.
  apply IH; [done| |done]. destruct added; try done. apply Forall_app. split; [done|]. constructor; [by apply Hfull|done].
Qed.

Lemma resume_loop_seen fuel : forall point n, Forall seen point -> node_seen n ->
  after n (resume_loop fuel point n).1 /\ Forall seen (resume_loop fuel point n).2.
Proof.
  induction fuel as [|fuel IH]; intros point n Hp Hn; cbn [resume_loop]; [done|]. destruct (_ =? 0)%nat; [done|].
  unfold pop_back. destruct (last point) as [d|] eqn:Hl; [|done]. apply last_Some in Hl as [point' ->]. rewrite removelast_last.
  apply Forall_app in Hp as [Hp Hd]. rewrite Forall_singleton in Hd. apply (IH point' (add_unchecked d n)); [done|by apply add_unchecked_seen].
Qed.

Lemma rest_after (mk : list ReferenceDescription -> ContinuationPoint) l n0 n : (forall l, Forall seen l -> point_seen (mk l)) ->
  after n0 n -> Forall seen l -> after n0 (match l with [] => n | _ => set_next_continuation_point (mk l) n end).
Proof. intros Hmk [Hi Hn] Hl. destruct l; [done|]. split; [done|]. apply next_seen; [by apply Hmk|done]. Qed.

Lemma browse_one_seen m n t : m ∈ ms -> node_seen n -> same_types t0 t ->
  returns (fun y => same_types t0 y.1 /\ after n y.2) (memory_browse_one c m.1 m.2 n t).
Proof.
  intros Hm Hn Ht. unfold memory_browse_one. destruct (is_null_id _); [done|].
  assert (node_seen (set_status Good n)) as Hn1 by (by destruct Hn). unfold take_nodes_point.
  destruct (take_input_seen _ Hn1) as [Hn2 Hp]. change (bn_input_index n) with (bn_input_index (take_input (set_status Good n)).1).
  assert (bn_input_index n = bn_input_index (take_input (set_status Good n)).1) as Hi by done.
  destruct (take_input (set_status Good n)) as [n2 p]. cbn [fst snd] in *.
  assert (returns (fun y => same_types t0 y.1 /\ after n2 y.2) (browse_node c m.1 m.2 n2 t)) as Hb.
  { unfold browse_node.
    destruct (search_refs m.1 t0 Hacyclic (bq_node_id (bn_query n2)) (browse_filter (bn_query n2)) (bq_browse_direction (bn_query n2)) t Ht) as (t1 & -> & Ht1).
    cbn [outcome_bind]. eapply returns_bind; [by apply browse_loop_seen|].
    intros [[t2 n3] cp] (Ht2 & Hn3 & Hcp). cbn in *. split; [done|]. by apply (rest_after CpNodes). }
  unfold after in *. rewrite Hi. destruct p as [[l| |]|]; try exact Hb. cbn. unfold resume.
  destruct (resume_loop_seen (S (length l)) l n2 Hp Hn2) as [H1 H2].
  destruct (resume_loop _ l n2). split; [done|]. by apply (rest_after CpNodes).
Qed.

Lemma resume_external_seen n t : node_seen n -> same_types t0 t -> returns (fun y => same_types t0 y.1 /\ after n y.2) (resume_external n t).
Proof.
  intros Hn Ht. unfold resume_external, take_external_point. destruct (take_input_seen _ Hn) as [Hn1 Hp].
  assert (bn_input_index n = bn_input_index (take_input n).1) as Hi by done. unfold after. rewrite Hi. clear Hi.
  destruct (take_input n) as [n1 p]. cbn [fst snd] in *. destruct p as [[|l|]|]; try done. cbn in Hp. clear Hn n.
  eapply (returns_bind (fun y => same_types t0 y.1.1 /\ after n1 y.1.2 /\ Forall seen y.2)).
  2: { intros [[t1 n2] rest] (Ht1 & Hn2 & Hr). split; [done|]. by apply (rest_after CpExternal). }
  revert n1 t Hn1 Ht. induction Hp as [|d l Hd Hl IH]; intros n t Hn Ht; cbn [resume_external_loop]; [done|].
  destruct (0 <? remaining n)%nat; [|split; [done|]; split; [done|by constructor]]. eapply returns_bind; [by apply add_seen|].
  intros [[t1 n2] a] (Ht1 & [Hi2 Hn2] & _). cbn [fst snd] in *. unfold after. rewrite <- Hi2. by apply IH.
Qed.

Lemma resolve_external_seen resolved n t : resolved_seen resolved -> node_seen n -> same_types t0 t ->
  returns (fun y => same_types t0 y.1 /\ after n y.2) (resolve_external_references resolved n t).
Proof.
  intros Hr Hn Ht. unfold resolve_external_references.
  assert (node_seen (set_external_references [] n)) as Hn1 by (by destruct Hn).
  change (after n) with (after (set_external_references [] n)).
  eapply (returns_bind (fun y => same_types t0 y.1.1 /\ after (set_external_references [] n) y.1.2 /\ Forall seen y.2)).
  2: { intros [[t1 n2] rest] (Ht2 & Hn2 & Hrest). split; [done|]. by apply (rest_after CpExternal). }
  revert Hn1. generalize (set_external_references [] n). assert (Forall seen []) as Hcp by done. revert Hcp. generalize (@nil ReferenceDescription).
  revert t Ht. generalize (bn_external_references n). clear n Hn.
  intros refs. induction refs as [|rf refs IH]; intros t Ht cp Hcp n Hn; cbn [resolve_loop]; [done|].
  destruct (resolved !! node_id (er_target_id rf)) as [meta|] eqn:Hm; [|by apply IH].
  assert (seen (into_reference rf meta)) as Hs by exact (Hr _ _ Hm).
  destruct (matches_filter_spec t0 Hacyclic (bn_query n) (into_reference rf meta) t Ht) as (t' & -> & Ht'). cbn [outcome_bind].
  destruct (accepted _ _ _); cbn [negb]; [|by apply IH]. destruct (0 <? remaining n)%nat.
  - apply (IH t' Ht' cp Hcp (add_unchecked (into_reference rf meta) n)). by apply add_unchecked_seen.
  - apply IH; [done| |done]. apply Forall_app. split; [done|by constructor].
Qed.

(** ** The services *)

(** The open slots of the results are those of the nodes, each node has its own. *)
Record slots (nodes : list BrowseNode) (rs : results) : Prop := {
  sl_nodup : NoDup (map bn_input_index nodes);
  sl_open i : rs !! i = Some None <-> i ∈ map bn_input_index nodes
}.
Record kept (nodes : list BrowseNode) (rs : results) (s : BrowseSession) : Prop := {
  kp_nodes : Forall node_seen nodes;
  kp_slots : slots nodes rs;
  kp_results : results_seen rs;
  kp_session : session_seen s
}.

Lemma slots_perm l k rs : map bn_input_index l ≡ₚ map bn_input_index k -> slots l rs -> slots k rs.
Proof. intros Hp [H1 H2]. split; [by rewrite <- Hp|]. intros i. by rewrite H2, Hp. Qed.
Lemma kept_perm l k rs s : l ≡ₚ k -> kept l rs s -> kept k rs s.
Proof. intros Hp [H1 H2 H3 H4]. split; [by rewrite <- Hp| |done|done]. eapply slots_perm; [|exact H2]. by rewrite Hp. Qed.
Lemma kept_after l k rs s : Forall2 after l k -> kept l rs s -> kept k rs s.
Proof.
  intros Hf [H1 H2 H3 H4]. split; [|eapply slots_perm; [|exact H2]|done|done].
  - clear -Hf. induction Hf as [|x y l k [_ Hy] _ IH]; by constructor.
  - clear -Hf. induction Hf as [|x y l k [Hy _] _ IH]; cbn; [done|]. by rewrite Hy, IH.
Qed.

Lemma into_result_seen index count n s : node_seen n -> session_seen s ->
  let '(r, i, s') := into_result index count n s in i = bn_input_index n /\ result_seen r /\ session_seen s'.
Proof.
  intros [Hrefs _ Hnext] Hs. unfold into_result.
  assert (forall j p, point_seen p -> let '(r, i, s') :=
    (let '(s, id) := random_id s in
     let '(s, stored) := add_browse_continuation_point id (mkPoint j p (Some id) (bn_query n) (bn_external_references n)) s in
     (if stored then mkResult (bn_status_code n) (Some id) (Some (bn_references n))
      else mkResult BadNoContinuationPoints None (Some (bn_references n)), bn_input_index n, s))
    in i = bn_input_index n /\ result_seen r /\ session_seen s') as Hadd.
  { intros j p Hp. unfold random_id, add_browse_continuation_point. cbn [browse_continuation_points max_browse_continuation_points].
    destruct (_ <=? _)%nat; [done|]. split; [done|]. split; [done|]. unfold session_seen. cbn. by apply map_Forall_insert_2. }
  destruct (bn_next_continuation_point n) as [p|]; [by apply Hadd|]. destruct (_ <? _)%nat; [by apply Hadd|done].
Qed.

(** Answering a node closes its slot. *)
Lemma answer_seen n nodes rs s r s' : kept (n :: nodes) rs s -> result_seen r -> session_seen s' ->
  returns (fun rs' => kept nodes rs' s') (set_result (bn_input_index n) r rs).
Proof.
  intros [Hn [Hnd Ho] Hrs Hs] Hr Hs'. cbn in Hnd, Ho. apply NoDup_cons in Hnd as [Hni Hnd].
  assert (rs !! bn_input_index n = Some None) as Hi by (apply Ho; by left).
  unfold set_result. pose proof (lookup_lt_Some _ _ _ Hi) as Hlt. destruct (Nat.ltb_spec (bn_input_index n) (length rs)); [|lia].
  split; [by apply Forall_cons in Hn as []| |by apply Forall_insert|done]. split; [done|]. intros i.
  destruct (decide (i = bn_input_index n)) as [->|Hne].
  - rewrite list_lookup_insert_eq by done. split; [done|intros Hin; by destruct Hni].
  - rewrite list_lookup_insert_ne by done. rewrite Ho, elem_of_cons. tauto.
Qed.

Lemma removelast_app_one {A} (l : list A) x : removelast (l ++ [x]) = l.
Proof. apply removelast_last. Qed.
Lemma swap_remove_perm {A} i (l : list A) x : l !! i = Some x -> l ≡ₚ x :: swap_remove i l.
Proof.
  intros Hi. destruct l as [|z l _] using rev_ind; [done|]. unfold swap_remove. rewrite last_snoc, length_app. cbn [length].
  destruct (Nat.eqb_spec (S i) (length l + 1)) as [He|He].
  - rewrite removelast_app_one. replace i with (length l) in Hi by lia. rewrite list_lookup_middle in Hi by done. injection Hi as ->.
    apply Permutation_app_comm.
  - pose proof (lookup_lt_Some _ _ _ Hi) as Hlt. rewrite length_app in Hlt. cbn in Hlt. rewrite lookup_app_l in Hi by lia.
    rewrite insert_app_l by lia. rewrite removelast_app_one, insert_take_drop by lia.
    transitivity ((take i l ++ x :: drop (S i) l) ++ [z]); [by rewrite take_drop_middle|].
    rewrite <- Permutation_cons_append, <- !Permutation_middle. apply Permutation_swap.
Qed.
Lemma swap_remove_length {A} i (l : list A) x : l !! i = Some x -> length l = S (length (swap_remove i l)).
Proof. intros Hi. by rewrite (swap_remove_perm i l x Hi) at 1. Qed.

Lemma drain_seen fuel : forall index count i nodes rs s, (length nodes - i <= fuel)%nat -> kept nodes rs s ->
  returns (fun y => kept y.1.1 y.1.2 y.2) (drain_completed fuel index count i nodes rs s).
Proof.
  induction fuel as [|fuel IH]; intros index count i nodes rs s Hf Hk; cbn [drain_completed]; (destruct (nodes !! i) as [n|] eqn:Hi; [|done]);
    pose proof (lookup_lt_Some _ _ _ Hi) as Hlt; [lia|].
  destruct (is_completed n); [|apply IH; [lia|done]]. pose proof (kept_perm _ _ _ _ (swap_remove_perm i nodes n Hi) Hk) as Hk'.
  pose proof (into_result_seen index count n s (Forall_inv (kp_nodes _ _ _ Hk')) (kp_session _ _ _ Hk)) as Hr.
  destruct (into_result index count n s) as [[r j] s']. destruct Hr as (-> & Hr & Hs').
  eapply returns_bind; [by apply (answer_seen n (swap_remove i nodes) rs s r s')|]. intros rs' Hk''. apply IH; [|done].
  rewrite (swap_remove_length i nodes n Hi) in Hf. lia.
Qed.

Lemma memory_browse_seen m nodes t : m ∈ ms -> Forall node_seen nodes -> same_types t0 t ->
  returns (fun y => same_types t0 y.1.1 /\ Forall2 after nodes y.1.2 /\ y.2 = Ok tt) (nm_browse (memory_manager c m.1 m.2) t nodes).
Proof.
  intros Hm Hn Ht. cbn [nm_browse memory_manager]. eapply returns_bind; [apply (tree_map_returns node_seen after); [|exact Hn|exact Ht]|].
  - intros x t' Hx Ht'. by apply browse_one_seen.
  - intros [t' l] [Ht' Hl]. done.
Qed.

Lemma browse_managers_seen count l : (forall m, m ∈ l -> m ∈ ms) -> forall index nodes rs s t, kept nodes rs s -> same_types t0 t ->
  returns (fun y => same_types t0 y.1.1.1 /\ kept y.1.1.2 y.1.2 y.2) (browse_managers count index (managers_of c l) nodes rs s t).
Proof.
  induction l as [|m l IH]; intros Hl index nodes rs s t Hk Ht; cbn [managers_of map browse_managers]; [done|]. fold (managers_of c l).
  eapply returns_bind; [apply memory_browse_seen; [apply Hl; set_solver|exact (kp_nodes _ _ _ Hk)|done]|].
  intros [[t1 nodes1] r] (Ht1 & Hn1 & Hr). cbn [fst snd] in *. subst r. cbn [fail_owned].
  eapply returns_bind; [apply drain_seen; [lia|by eapply kept_after]|]. intros [[nodes2 rs2] s2] Hk2. cbn [fst snd] in *.
  destruct nodes2; [done|]. apply IH; [set_solver|done|done].
Qed.

Lemma collect_batch_perm fuel : forall index i nodes batch, (length nodes - i <= fuel)%nat ->
  returns (fun y => nodes ++ batch ≡ₚ y.1 ++ y.2) (collect_batch fuel index i nodes batch).
Proof.
  induction fuel as [|fuel IH]; intros index i nodes batch Hf; cbn [collect_batch]; (destruct (nodes !! i) as [n|] eqn:Hi; [|cbn; reflexivity]);
    pose proof (lookup_lt_Some _ _ _ Hi) as Hlt; [lia|].
  destruct (_ =? _)%nat; [|apply IH; lia]. pose proof (swap_remove_length i nodes n Hi) as Hlen.
  specialize (IH index i (swap_remove i nodes) (batch ++ [n]) ltac:(lia)). destruct (collect_batch _ _ _ _ _) as [y| |]; [|done|done].
  cbn in *. rewrite <- IH, (swap_remove_perm i nodes n Hi) at 1. by rewrite (Permutation_app_comm batch), app_assoc, (Permutation_app_comm _ [n]).
Qed.

Lemma Forall2_after_refl l : Forall node_seen l -> Forall2 after l l.
Proof. induction 1; by constructor. Qed.

Lemma drain_batch nodes batch index count rs s : kept (nodes ++ batch) rs s ->
  returns (fun y => kept (nodes ++ y.1.1) y.1.2 y.2) (drain_completed (length batch) index count 0 batch rs s).
Proof.
  intros Hk. assert (forall fuel i batch rs s, (length batch - i <= fuel)%nat -> kept (nodes ++ batch) rs s ->
    returns (fun y => kept (nodes ++ y.1.1) y.1.2 y.2) (drain_completed fuel index count i batch rs s)) as Hd; [|apply Hd; [lia|done]].
  clear. induction fuel as [|fuel IH]; intros i batch rs s Hf Hk; cbn [drain_completed]; (destruct (batch !! i) as [n|] eqn:Hi; [|done]);
    pose proof (lookup_lt_Some _ _ _ Hi) as Hlt; [lia|].
  destruct (is_completed n); [|apply IH; [lia|done]].
  assert (kept (n :: nodes ++ swap_remove i batch) rs s) as Hk'.
  { eapply kept_perm; [|exact Hk]. rewrite (swap_remove_perm i batch n Hi) at 1. by rewrite <- Permutation_middle. }
  pose proof (into_result_seen index count n s (Forall_inv (kp_nodes _ _ _ Hk')) (kp_session _ _ _ Hk)) as Hr.
  destruct (into_result index count n s) as [[r j] s']. destruct Hr as (-> & Hr & Hs').
  eapply returns_bind; [by apply (answer_seen n (nodes ++ swap_remove i batch) rs s r s')|]. intros rs' Hk''. apply IH; [|done].
  rewrite (swap_remove_length i batch n Hi) in Hf. lia.
Qed.

Lemma next_managers_seen count l : (forall m, m ∈ l -> m ∈ ms) -> forall index nodes batch rs s t,
  kept (nodes ++ batch) rs s -> same_types t0 t ->
  returns (fun y => same_types t0 y.1.1.1.1 /\ kept (y.1.1.1.2 ++ y.1.1.2) y.1.2 y.2)
    (next_managers count index (managers_of c l) nodes batch rs s t).
Proof.
  induction l as [|m l IH]; intros Hl index nodes batch rs s t Hk Ht; cbn [managers_of map next_managers]; [done|]. fold (managers_of c l).
  eapply returns_bind; [apply collect_batch_perm; lia|]. intros [nodes0 batch0] Hp. cbn [fst snd] in *.
  pose proof (kept_perm _ _ _ _ Hp Hk) as Hk0. pose proof (kp_nodes _ _ _ Hk0) as Hn0. apply Forall_app in Hn0 as [Hn0 Hb0].
  eapply returns_bind; [apply memory_browse_seen; [apply Hl; set_solver|exact Hb0|done]|].
  intros [[t1 batch1] r] (Ht1 & Hb1 & Hr). cbn [fst snd] in *. subst r. cbn [fail_owned].
  eapply returns_bind; [apply (drain_batch nodes0); eapply kept_after; [|exact Hk0]; apply Forall2_app; [by apply Forall2_after_refl|done]|].
  intros [[batch2 rs2] s2] Hk2. cbn [fst snd] in *. destruct nodes0, batch2; try done; apply IH; try done; set_solver.
Qed.

Definition request_seen (r : ExternalReferenceRequest) : Prop :=
  match xr_item r with Some meta => may_see (node_id (nm_node_id meta)) | None => True end.

Lemma resolve_managers_seen l : (forall m, m ∈ l -> m ∈ ms) -> forall rs t, Forall request_seen rs -> same_types t0 t ->
  returns (fun y => same_types t0 y.1 /\ Forall request_seen y.2) (resolve_managers (managers_of c l) rs t).
Proof.
  induction l as [|m l IH]; intros Hl rs t Hrs Ht; cbn [managers_of map resolve_managers]; [done|]. fold (managers_of c l).
  eapply returns_bind; [apply (tree_map_returns request_seen (fun _ => request_seen)); [|exact Hrs|exact Ht]|].
  - intros r t' Hr Ht'. destruct (owns_node _ _); [|done]. cbn [nm_resolve memory_manager]. unfold memory_resolve.
    destruct (find_node (xr_node_id r) m.1) as [x|] eqn:Hx; [|done]. destruct (can_browse_target c x) eqn:Hb; cbn [negb]; [|done].
    eapply returns_bind; [apply (get_reference_seen m x _ t' (xr_node_id r)); [apply Hl; set_solver|done|done|done]|].
    intros [t1 meta] (Ht1 & Hid & Hsee). cbn in *. unfold request_seen. cbn. by rewrite Hid.
  - intros [t1 rs1] [Ht1 Hrs1]. apply IH; [set_solver| |done]. clear -Hrs1. cbn in Hrs1. induction Hrs1; by constructor.
Qed.
Lemma resolve_all_seen refs t : same_types t0 t ->
  returns (fun y => same_types t0 y.1 /\ resolved_seen y.2) (resolve_all (managers_of c ms) refs t).
Proof.
  intros Ht. unfold resolve_all. eapply returns_bind; [apply resolve_managers_seen; [done| |done]|].
  - apply Forall_fmap, Forall_true. done.
  - intros [t1 rs] [Ht1 Hrs]. split; [done|]. cbn. assert (resolved_seen ∅) as Hm by apply map_Forall_empty.
    revert Hm. generalize (∅ : gmap NodeId NodeMetadata). cbn in Hrs. clear Ht1.
    induction Hrs as [|r rs Hr Hrs IH]; intros m Hm; cbn [fold_left]; [done|]. apply IH. unfold request_seen in Hr.
    destruct (xr_item r); [|done]. by apply map_Forall_insert_2.
Qed.

Lemma finish_seen nodes rs s t : kept nodes rs s -> same_types t0 t ->
  returns (fun y => kept [] y.1.2 y.2) (finish (managers_of c ms) nodes rs s t).
Proof.
  intros Hk Ht. unfold finish. eapply returns_bind; [by apply resolve_all_seen|]. intros [t1 resolved] [Ht1 Hr]. cbn in Ht1, Hr.
  generalize (length (managers_of c ms)). intros count. revert rs s t1 Hk Ht1.
  induction nodes as [|n nodes IH]; intros rs s t1 Hk Ht1; cbn [finish_nodes]; [done|].
  pose proof (kp_nodes _ _ _ Hk) as Hn. apply Forall_cons in Hn as [Hn Hns].
  eapply returns_bind; [by apply resolve_external_seen|]. intros [t2 n2] (Ht2 & Hi2 & Hn2). cbn in Ht2, Hi2, Hn2.
  pose proof (into_result_seen (count - 1) count n2 s Hn2 (kp_session _ _ _ Hk)) as Hi. destruct (into_result _ count n2 s) as [[r j] s'].
  destruct Hi as (-> & Hres & Hs'). rewrite Hi2.
  eapply returns_bind; [by apply (answer_seen n nodes rs s r s')|]. intros rs' Hk'. by apply IH.
Qed.

Lemma unwrap_seen rs : results_seen rs -> (forall i, rs !! i <> Some None) -> returns (Forall result_seen) (unwrap_results rs).
Proof.
  induction 1 as [|r rs Hr Hrs IH]; intros Ho; cbn; [constructor|]. destruct r as [r|]; [|by destruct (Ho 0%nat)]. cbn [unwrap outcome_bind].
  eapply returns_bind; [apply IH; intros i; exact (Ho (S i))|]. intros l Hl. by constructor.
Qed.

Definition answered (y : DefaultTypeTree * BrowseSession * result (list BrowseResult) StatusCode) : Prop :=
  session_seen y.1.2 /\ match y.2 with Ok l => Forall result_seen l | Err _ => True end.

(** The end of both services. *)
Lemma finished_seen nodes rs s t : kept nodes rs s -> same_types t0 t ->
  returns answered (let! (y, s) := finish (managers_of c ms) nodes rs s t in
                    let '(t, rs) := y in let! l := unwrap_results rs in Ret (t, s, Ok l)).
Proof.
  intros Hk Ht. eapply returns_bind; [by apply finish_seen|]. intros [[t3 rs3] s3] [_ [_ Ho] Hrs Hs]. cbn [fst snd] in *.
  eapply returns_bind; [apply unwrap_seen; [done|]|].
  - intros i Hi. apply Ho in Hi. by apply elem_of_nil in Hi.
  - intros l Hl. by split.
Qed.
Lemma resume_kept nodes rest rs s t : kept (nodes ++ rest) rs s -> same_types t0 t ->
  returns (fun y => same_types t0 y.1 /\ kept (y.2 ++ rest) rs s) (tree_map resume_external nodes t).
Proof.
  intros Hk Ht. pose proof (kp_nodes _ _ _ Hk) as Hn. apply Forall_app in Hn as [Hn Hr].
  pose proof (tree_map_returns node_seen after resume_external nodes) as Hm. specialize (Hm (fun x t Hx Ht => resume_external_seen x t Hx Ht) t Hn Ht).
  destruct (tree_map _ _ _) as [[t1 nodes1]| |]; try done. destruct Hm as [Ht1 Hn1]. split; [done|].
  eapply kept_after; [|exact Hk]. apply Forall2_app; [done|by apply Forall2_after_refl].
Qed.

(** Slots of the nodes from a position on. *)
Definition slots_from (i : nat) (nodes : list BrowseNode) (rs : results) : Prop :=
  NoDup (map bn_input_index nodes) /\ forall j, (exists k, j = (i + k)%nat /\ rs !! k = Some None) <-> j ∈ map bn_input_index nodes.
Lemma slots_from_closed i nodes rs r : slots_from (S i) nodes rs -> slots_from i nodes (Some r :: rs).
Proof.
  intros [H1 H2]. split; [done|]. intros j. rewrite <- H2. split; intros (k & -> & Hk).
  - destruct k as [|k]; [done|]. exists k. split; [lia|done].
  - exists (S k). split; [lia|done].
Qed.
Lemma slots_from_open i n nodes rs : bn_input_index n = i -> slots_from (S i) nodes rs -> slots_from i (n :: nodes) (None :: rs).
Proof.
  intros Hn [H1 H2]. assert (forall j, j ∈ map bn_input_index nodes -> (S i <= j)%nat) as Hge by (intros j (k & -> & _)%H2; lia).
  split; cbn [map]; rewrite Hn.
  - constructor; [|done]. intros Hi. apply Hge in Hi. lia.
  - intros j. rewrite elem_of_cons, <- H2. split.
    + intros ([|k] & -> & Hk); [left; lia|]. right. exists k. split; [lia|done].
    + intros [->|(k & -> & Hk)]; [by exists 0%nat; split; [lia|]|]. exists (S k). split; [lia|done].
Qed.
Lemma slots_from_start nodes rs : slots_from 0 nodes rs -> slots nodes rs.
Proof. intros [H1 H2]. split; [done|]. intros i. rewrite <- H2. split; [by exists i|by intros (k & -> & Hk)]. Qed.

Lemma prepare_seen k l t : forall i,
  results_seen (prepare_nodes k i l t).1 /\ Forall node_seen (prepare_nodes k i l t).2
  /\ slots_from i (prepare_nodes k i l t).2 (prepare_nodes k i l t).1.
Proof.
  induction l as [|d l IH]; intros i; cbn [prepare_nodes].
  { split; [constructor|]. split; [constructor|]. split; [constructor|]. intros j. split; [by intros (? & _ & ?)|intros Hj; by apply elem_of_nil in Hj]. }
  specialize (IH (S i)). destruct (prepare_nodes k (S i) l t) as [rs nodes]. destruct IH as (IH1 & IH2 & IH3). unfold results_seen in *. cbn [fst snd] in *.
  case_bool_decide; [split_and!; [by constructor|done|by apply slots_from_closed]|].
  destruct (_ && _); [split_and!; [by constructor|done|by apply slots_from_closed]|]. split_and!; [by constructor|by constructor|by apply slots_from_open].
Qed.
Lemma take_points_seen l : forall i s, session_seen s ->
  let '(rs, nodes, s') := take_points i l s in results_seen rs /\ Forall node_seen nodes /\ slots_from i nodes rs /\ session_seen s'.
Proof.
  induction l as [|id l IH]; intros i s Hs; cbn [take_points].
  { split; [constructor|]. split; [constructor|]. split; [|done]. split; [constructor|].
    intros j. split; [by intros (? & _ & ?)|intros Hj; by apply elem_of_nil in Hj]. }
  assert (session_seen (remove_browse_continuation_point id s).1
    /\ forall p, (remove_browse_continuation_point id s).2 = Some p -> point_seen (bp_continuation_point p)) as [Hs1 Hp].
  { destruct id as [id|]; cbn; [|done]. split; [by apply map_Forall_delete|]. intros p Hp. exact (Hs _ _ Hp). }
  destruct (remove_browse_continuation_point id s) as [s1 p]. cbn [fst snd] in *. specialize (IH (S i) s1 Hs1).
  destruct (take_points (S i) l s1) as [[rs nodes] s2]. destruct IH as (H1 & H2 & H3 & H4). unfold results_seen in *.
  destruct p as [p|]; split_and!; try done; try (by constructor); [|by apply slots_from_open|by apply slots_from_closed].
  constructor; [|done]. split; cbn; [done|by apply Hp|done].
Qed.

(** C29: every Browse and BrowseNext returns, for any number of nodes, and a reference is shown only
    when its target exists in the node managers and the user may browse it, external references
    included. The continuation points that a session keeps hold only such references, so that this
    goes on for as long as the address spaces and the permissions stay as they are. The types have
    no cycle, their cache is up to date and nodes are stored under their own ids. *)
Theorem browse_shows_permitted (limits : BrowseLimits) request ids release s t (Hs : session_seen s) (Ht : same_types t0 t) :
  returns answered (browse limits (managers_of c ms) request s t)
  /\ returns answered (browse_next limits (managers_of c ms) ids release s t).
Proof.
  split.
  - unfold browse. destruct (take_service_items _ _) as [l|]; [|done]. destruct (negb _); [done|].
    pose proof (prepare_seen (max_references limits request) l t 0) as (Hrs & Hn & Hsl).
    destruct (prepare_nodes _ 0 l t) as [rs nodes]. cbn [fst snd] in *.
    eapply returns_bind; [apply browse_managers_seen; [done|split; [done|by apply slots_from_start|done|done]|done]|].
    intros [[[t1 nodes1] rs1] s1] [Ht1 Hk1]. cbn [fst snd] in *.
    eapply returns_bind; [apply (resume_kept nodes1 [] rs1 s1); [by rewrite app_nil_r|done]|]. intros [t2 nodes2] [Ht2 Hk2]. cbn [fst snd] in *.
    rewrite app_nil_r in Hk2. by apply finished_seen.
  - unfold browse_next. destruct (take_service_items _ _) as [l|]; [|done]. pose proof (take_points_seen l 0 s Hs) as Htake.
    destruct (take_points 0 l s) as [[rs nodes] s']. destruct Htake as (Hrs & Hn & Hsl & Hs'). destruct release; [by split; [|constructor]|].
    eapply returns_bind; [apply (next_managers_seen (length (managers_of c ms)) ms); [done|rewrite app_nil_r; split; [done|by apply slots_from_start|done|done]|done]|].
    intros [[[[t1 nodes1] batch1] rs1] s1] [Ht1 Hk1]. cbn [fst snd] in *.
    eapply returns_bind; [by apply (resume_kept nodes1 batch1 rs1 s1)|]. intros [t2 nodes2] [Ht2 Hk2]. by apply finished_seen.
Qed.

End access.

(** ** Two servers *)

#[local] Existing Instances no_dyn keep_all elements_order.

Lemma two_spaces_keyed (m : memory) k n : m ∈ of_spaces [first_space; second_space] -> node_map m.1 !! k = Some n -> node_id_of n = k.
Proof.
  assert (map_Forall (fun k n => node_id_of n = k) (node_map first_space)) as H1 by (by apply (bool_decide_unpack _)).
  assert (map_Forall (fun k n => node_id_of n = k) (node_map second_space)) as H2 by (by apply (bool_decide_unpack _)).
  intros Hm Hk. cbn in Hm. apply elem_of_cons in Hm as [->|Hm]; [exact (H1 _ _ Hk)|].
  apply list_elem_of_singleton in Hm as ->. exact (H2 _ _ Hk).
Qed.


Lemma browse_shows_permitted_witness :
  let ms := of_spaces [first_space; second_space] in
  returns (answered free_user ms) (browse_of [first_space; second_space] (node 1) 1)
  /\ returns (answered free_user ms) (browse_next browse_limits (managers_of free_user ms) (Some [Some [0]]) false empty_session organizing_tree).
Proof.
  apply (browse_shows_permitted free_user (of_spaces [first_space; second_space]) organizing_tree organizing_tree_acyclic two_spaces_keyed
           browse_limits _ (Some [Some [0]]) false empty_session organizing_tree); [apply map_Forall_empty|exact organizing_tree_fresh].
Defined.
