(* ===== verification/SessionManager.v ===== *)
(** * Sessions and their manager

    A session (server/src/session/instance.rs), the session manager with its registries, counters and
    heaps (session/manager/mod.rs, types.rs, lifecycle.rs, expiry.rs), the actor of a session as far as
    it ends sessions (session/actor.rs) and the check of the signature of a client
    (crypto/src/lib.rs).  Sessions are shared by reference counting and locked: [arcs] holds them, the
    registries hold indexes into it.  The services that give up the locks while they wait are cut
    into the parts between the waits, and [locked] tells which sessions another task has locked for
    writing.  One call reads the clock once.  Audit events, diagnostics, firmware updates, the ECC
    keys of user tokens and the continuation points are left out. *)

From S2P Require Import Prelude Text StatusCode Float NumericRange Variant Wire Crypto Chunk SecureChannel AsymmetricSecurity References TypeTree Nodes Rbac Roles.
#[local] Open Scope Z_scope.

Definition BadIdentityTokenRejected : StatusCode := 0x80210000.
Definition BadNonceInvalid : StatusCode := 0x80240000.
Definition BadSessionIdInvalid : StatusCode := 0x80250000.
Definition BadSessionClosed : StatusCode := 0x80260000.
Definition BadSessionNotActivated : StatusCode := 0x80270000.
Definition BadTooManySessions : StatusCode := 0x80560000.
Definition BadUserSignatureInvalid : StatusCode := 0x80570000.
Definition BadTcpEndpointUrlInvalid : StatusCode := 0x80830000.
Definition BadConfigurationError : StatusCode := 0x80890000.

(** ** Time: instants and durations in nanoseconds *)

Definition from_millis (ms : Z) : Z := ms * 1000000.
Definition wrap64 (x : Z) : Z := x mod 2 ^ 64.

(** A [BinaryHeap] of [Reverse]: what is taken is least, and which one of several is not said. *)
Class MinHeap := {
  heap_pop : forall {A : Type}, (A -> Z) -> list A -> option (A * list A);
  heap_pop_nil A (key : A -> Z) : heap_pop key [] = None;
  heap_pop_cons A (key : A -> Z) x l : exists y l', heap_pop key (x :: l) = Some (y, l') /\ x :: l ≡ₚ y :: l' /\ Forall (fun z => key y <= key z) l'
}.

(** ** The signature of a client (crypto/src/lib.rs) *)

Record SignatureData := mkSignature { algorithm : option rstr; signature : ByteString }.

Definition DSIG_RSA_SHA1 : rstr := str "http://www.w3.org/2000/09/xmldsig#rsa-sha1".
Definition DSIG_RSA_SHA256 : rstr := str "http://www.w3.org/2001/04/xmldsig-more#rsa-sha256".
Definition DSIG_RSA_PSS_SHA2_256 : rstr := str "http://opcfoundation.org/UA/security/rsa-pss-sha2-256".
Definition DSIG_ECDSA_SHA256 : rstr := str "http://www.w3.org/2001/04/xmldsig-more#ecdsa-sha256".
Definition DSIG_ECDSA_SHA384 : rstr := str "http://www.w3.org/2001/04/xmldsig-more#ecdsa-sha384".
Definition signature_uri (s : AsymmetricSignature) : rstr :=
  match s with DsigRsaSha1 => DSIG_RSA_SHA1 | DsigRsaSha256 => DSIG_RSA_SHA256 | DsigRsaPssSha256 => DSIG_RSA_PSS_SHA2_256 end.

Definition concat_data_and_nonce (data nonce : bytes) : bytes := data ++ nonce.

Section signatures.
Context {FT : Features} {CL : CryptoLib} {PK : Pki} {AL : AsymmetricLib}.

Definition asymmetric_signature_algorithm (p : SecurityPolicy) : outcome rstr :=
  match p with
  | EccNistP256 => Ret DSIG_ECDSA_SHA256
  | EccNistP384 => Ret DSIG_ECDSA_SHA384
  | _ => call_with_policy p (fun i =>
           match i with NonePolicy => str "None" | AesPolicy c => signature_uri (Crypto.asymmetric_signature c) end)
  end.

Definition verify_signature_data (s : SignatureData) (p : SecurityPolicy) (signing_cert contained_cert : X509) (contained_nonce : bytes)
    : outcome (result unit StatusCode) :=
  match public_key signing_cert with
  | None => Ret (Err BadUnexpectedError)
  | Some key =>
      let data := concat_data_and_nonce (to_der contained_cert) contained_nonce in
      let! wrong :=
        match p with
        | PolicyNone | PolicyUnknown => Ret false
        | _ => let! expected := asymmetric_signature_algorithm p in
               Ret (match default [] (algorithm s) with [] => false | a => negb (bool_decide (a = expected)) end)
        end in
      if (wrong : bool) then Ret (Err BadSecurityChecksFailed)
      else asymmetric_verify_signature p key data (default [] (signature s))
  end.
End signatures.

(** ** Sessions *)

Record SessionConfig := mkSessionConfig {
  max_sessions : nat;
  max_unactivated_sessions_per_channel : Z;
  unactivated_session_timeout_ms : Z;
  max_session_timeout_ms : Z;
  min_session_timeout_ms : Z;
  session_nonce_length : Z;
  max_message_size : Z
}.

Record Session `{Pki} := mkSession {
  se_session_id : NodeId;
  se_session_id_numeric : Z;
  se_security_policy_uri : rstr;
  se_secure_channel_id : Z;
  se_client_certificate : option X509;
  se_authentication_token : NodeId;
  se_session_nonce : bytes;
  se_session_name : UAString;
  se_session_timeout : Z;
  se_user_identity : IdentityToken;
  se_locale_ids : option (list UAString);
  se_max_request_message_size : Z;
  se_max_response_message_size : Z;
  se_endpoint_url : UAString;
  se_application_uri : UAString;
  se_message_security_mode : MessageSecurityMode;
  se_created_at : Z;
  se_last_service_request_nanos : Z;
  se_user_token : option rstr;
  se_roles : list NodeId;
  se_claims : option (list rstr);
  se_is_closed : bool
}.

Section sessions.
Context `{PK : Pki}.

Definition se_set_last (n : Z) (s : Session) : Session :=
  mkSession _ (se_session_id s) (se_session_id_numeric s) (se_security_policy_uri s) (se_secure_channel_id s) (se_client_certificate s)
    (se_authentication_token s) (se_session_nonce s) (se_session_name s) (se_session_timeout s) (se_user_identity s) (se_locale_ids s)
    (se_max_request_message_size s) (se_max_response_message_size s) (se_endpoint_url s) (se_application_uri s)
    (se_message_security_mode s) (se_created_at s) n (se_user_token s) (se_roles s) (se_claims s) (se_is_closed s).

(** [validate_timed_out] moves the time of the last request also when it refuses. *)
Definition validate_timed_out (now : Z) (s : Session) : Session * result unit StatusCode :=
  let now_nanos := wrap64 (saturating_sub now (se_created_at s)) in
  let elapsed := saturating_sub now_nanos (se_last_service_request_nanos s) in
  (se_set_last now_nanos s, if se_session_timeout s <? elapsed then Err BadSessionIdInvalid else Ok tt).
Definition deadline (s : Session) : Z := se_created_at s + se_last_service_request_nanos s + se_session_timeout s.

Definition validate_activated (s : Session) : result rstr StatusCode :=
  if se_is_closed s then Err BadSessionClosed else ok_or (se_user_token s) BadSessionNotActivated.
Definition validate_secure_channel_id (channel : Z) (s : Session) : result unit StatusCode :=
  if negb (channel =? se_secure_channel_id s) then Err BadSecureChannelIdInvalid else Ok tt.
Definition is_activated (s : Session) : bool := is_some (se_user_token s) && negb (se_is_closed s).

(** [Session::activate]. *)
Definition activate (channel : Z) (server_nonce : bytes) (identity : IdentityToken) (locale_ids : option (list UAString))
    (user_token : rstr) (claims : option (list rstr)) (roles : list NodeId) (s : Session) : Session :=
  mkSession _ (se_session_id s) (se_session_id_numeric s) (se_security_policy_uri s) channel (se_client_certificate s)
    (se_authentication_token s) server_nonce (se_session_name s) (se_session_timeout s) identity locale_ids
    (se_max_request_message_size s) (se_max_response_message_size s) (se_endpoint_url s) (se_application_uri s)
    (se_message_security_mode s) (se_created_at s) (se_last_service_request_nanos s) (Some user_token) roles claims (se_is_closed s).
Definition close (s : Session) : Session :=
  mkSession _ (se_session_id s) (se_session_id_numeric s) (se_security_policy_uri s) (se_secure_channel_id s) (se_client_certificate s)
    (se_authentication_token s) (se_session_nonce s) (se_session_name s) (se_session_timeout s) (se_user_identity s) (se_locale_ids s)
    (se_max_request_message_size s) (se_max_response_message_size s) (se_endpoint_url s) (se_application_uri s)
    (se_message_security_mode s) (se_created_at s) (se_last_service_request_nanos s) (se_user_token s) (se_roles s) (se_claims s) true.

#[export] Instance Session_inhabited : Inhabited Session :=
  populate (mkSession _ null_id 0 [] 0 None null_id [] None 0 ItNone None 0 0 None None ModeNone 0 0 None [] None false).

(** ** The manager *)

(** [SessionExpiryEntry] and [UnactivatedSessionEntry], which are ordered by their times alone. *)
Record SessionExpiryEntry := mkExpiry { ex_deadline : Z; ex_session_id : NodeId }.
Record UnactivatedSessionEntry := mkUnactivated { un_created_at : Z; un_session_id : NodeId }.

Record SessionManager := mkSessionManager {
  (** What is behind the [Arc]s of the sessions. *)
  arcs : list Session;
  sessions : gmap NodeId nat;
  auth_tokens : gmap NodeId nat;
  (** The queue of the actor of a session; a session has one actor. *)
  actor_senders : gmap NodeId nat;
  closed_auth_tokens : gmap NodeId Z;
  unactivated_by_channel : gmap Z Z;
  channel_body_limits : gmap Z Z;
  expiry_heap : list SessionExpiryEntry;
  unactivated_heap : list UnactivatedSessionEntry;
  (** Of the server's information. *)
  next_session_id : Z;
  session_locale_ids : gmap Z (list UAString);
  (** The random strings that are drawn next. *)
  random_bytes : nat -> Z -> bytes;
  random_drawn : nat
}.

Definition sm_update (m : SessionManager) a s t ac c u e h l : SessionManager :=
  mkSessionManager a s t ac c u (channel_body_limits m) e h (next_session_id m) l (random_bytes m) (random_drawn m).
Definition set_arcs a m := sm_update m a (sessions m) (auth_tokens m) (actor_senders m) (closed_auth_tokens m) (unactivated_by_channel m)
  (expiry_heap m) (unactivated_heap m) (session_locale_ids m).
Definition set_sessions s m := sm_update m (arcs m) s (auth_tokens m) (actor_senders m) (closed_auth_tokens m) (unactivated_by_channel m)
  (expiry_heap m) (unactivated_heap m) (session_locale_ids m).
Definition set_auth_tokens t m := sm_update m (arcs m) (sessions m) t (actor_senders m) (closed_auth_tokens m) (unactivated_by_channel m)
  (expiry_heap m) (unactivated_heap m) (session_locale_ids m).
Definition set_actor_senders ac m := sm_update m (arcs m) (sessions m) (auth_tokens m) ac (closed_auth_tokens m) (unactivated_by_channel m)
  (expiry_heap m) (unactivated_heap m) (session_locale_ids m).
Definition set_closed_auth_tokens c m := sm_update m (arcs m) (sessions m) (auth_tokens m) (actor_senders m) c (unactivated_by_channel m)
  (expiry_heap m) (unactivated_heap m) (session_locale_ids m).
Definition set_unactivated_by_channel u m := sm_update m (arcs m) (sessions m) (auth_tokens m) (actor_senders m) (closed_auth_tokens m) u
  (expiry_heap m) (unactivated_heap m) (session_locale_ids m).
Definition set_expiry_heap e m := sm_update m (arcs m) (sessions m) (auth_tokens m) (actor_senders m) (closed_auth_tokens m)
  (unactivated_by_channel m) e (unactivated_heap m) (session_locale_ids m).
Definition set_unactivated_heap h m := sm_update m (arcs m) (sessions m) (auth_tokens m) (actor_senders m) (closed_auth_tokens m)
  (unactivated_by_channel m) (expiry_heap m) h (session_locale_ids m).
Definition set_locale_map l m := sm_update m (arcs m) (sessions m) (auth_tokens m) (actor_senders m) (closed_auth_tokens m)
  (unactivated_by_channel m) (expiry_heap m) (unactivated_heap m) l.
Definition remove_channel_body_limit ch m : SessionManager :=
  mkSessionManager (arcs m) (sessions m) (auth_tokens m) (actor_senders m) (closed_auth_tokens m) (unactivated_by_channel m)
    (base.delete ch (channel_body_limits m)) (expiry_heap m) (unactivated_heap m) (next_session_id m) (session_locale_ids m)
    (random_bytes m) (random_drawn m).

(** Reading and writing behind an [Arc]. *)
Definition arc (m : SessionManager) (i : nat) : Session := arcs m !!! i.
Definition arc_write (i : nat) (f : Session -> Session) (m : SessionManager) : SessionManager := set_arcs (alter f i (arcs m)) m.

Definition find_by_token (token : NodeId) (m : SessionManager) : option nat := auth_tokens m !! token.
Definition actor_sender (token : NodeId) (m : SessionManager) : option nat := actor_senders m !! token.

Definition CLOSED_SESSION_TOKEN_TOMBSTONE_SECS : Z := 300.
Definition prune_closed_tokens (now : Z) (m : SessionManager) : SessionManager :=
  let cutoff := now - CLOSED_SESSION_TOKEN_TOMBSTONE_SECS * 1000000000 in
  set_closed_auth_tokens (base.filter (fun x => cutoff <= x.2) (closed_auth_tokens m)) m.
Definition remember_closed_token (now : Z) (token : NodeId) (m : SessionManager) : SessionManager :=
  let m := prune_closed_tokens now m in set_closed_auth_tokens (<[token := now]> (closed_auth_tokens m)) m.
Definition is_closed_token (now : Z) (token : NodeId) (m : SessionManager) : SessionManager * bool :=
  let m := prune_closed_tokens now m in (m, is_some (closed_auth_tokens m !! token)).
Definition register_token (token : NodeId) (i : nat) (m : SessionManager) : SessionManager :=
  let m := set_closed_auth_tokens (base.delete token (closed_auth_tokens m)) m in
  set_auth_tokens (<[token := i]> (auth_tokens m)) m.
Definition deregister_token (now : Z) (token : NodeId) (m : SessionManager) : SessionManager :=
  let m := set_actor_senders (base.delete token (actor_senders m)) m in
  let m := set_auth_tokens (base.delete token (auth_tokens m)) m in
  remember_closed_token now token m.

Definition set_session_locale_ids (id : Z) (locale_ids : option (list UAString)) (m : SessionManager) : SessionManager :=
  match locale_ids with
  | Some (_ :: _ as l) => set_locale_map (<[id := l]> (session_locale_ids m)) m
  | _ => set_locale_map (base.delete id (session_locale_ids m)) m
  end.
Definition clear_session_locale_ids (id : Z) (m : SessionManager) : SessionManager :=
  set_locale_map (base.delete id (session_locale_ids m)) m.
Definition clear_session_locale_ids_for_node_id (n : NodeId) (m : SessionManager) : SessionManager :=
  match identifier n with IdNumeric id => clear_session_locale_ids id m | _ => m end.

(** [fetch_add] and [fetch_sub] on the counter of a channel wrap around. *)
Definition fetch_add (channel : Z) (m : SessionManager) : SessionManager :=
  set_unactivated_by_channel (<[channel := wrap_usize (default 0 (unactivated_by_channel m !! channel) + 1)]> (unactivated_by_channel m)) m.
Definition fetch_sub (channel : Z) (m : SessionManager) : SessionManager :=
  match unactivated_by_channel m !! channel with
  | Some n => set_unactivated_by_channel (<[channel := wrap_usize (n - 1)]> (unactivated_by_channel m)) m
  | None => m
  end.

(** [refresh_client_response_body_limit_for_channel]: the limit, unless the channel has none yet. *)
Definition least_positive (l : list Z) : Z :=
  match List.filter (fun x => 0 <? x) l with [] => 0 | x :: l' => fold_left Z.min l' x end.
Definition channel_limits (channel : Z) (m : SessionManager) : list Z :=
  map (fun x => se_max_response_message_size (arc m x.2))
    (List.filter (fun x => (se_secure_channel_id (arc m x.2) =? channel) && negb (se_is_closed (arc m x.2))) (map_to_list (sessions m))).
Definition refresh_limit (channel : Z) (m : SessionManager) : option Z :=
  if channel =? 0 then None
  else Some (match channel_body_limits m !! channel with Some l => l | None => least_positive (channel_limits channel m) end).

(** ** CreateSession *)

Record CreateSessionDraft := mkDraft {
  dr_secure_channel_id : Z;
  dr_authentication_token : NodeId;
  dr_session : Session;
  dr_session_timeout : Z
}.
Record CreateSessionResponse := mkCreated {
  cr_session_id : NodeId; cr_authentication_token : NodeId; cr_revised_session_timeout : Z; cr_server_nonce : bytes;
  cr_max_request_message_size : Z
}.

Section create.
Context `{MinHeap}.
Variables (config : SessionConfig) (locked : nat -> bool) (now : Z).

(** The entry of a session that is not activated and not locked; the entries before it are lost. *)
Fixpoint eviction_candidate (fuel : nat) (m : SessionManager) (heap : list UnactivatedSessionEntry)
    : outcome (list UnactivatedSessionEntry * option NodeId) :=
  match heap_pop un_created_at heap with
  | None => Ret (heap, None)
  | Some (e, heap) =>
      match fuel with
      | O => OutOfFuel
      | S fuel' =>
          match sessions m !! un_session_id e with
          | None => eviction_candidate fuel' m heap
          | Some i =>
              if locked i then eviction_candidate fuel' m heap
              else if is_activated (arc m i) then eviction_candidate fuel' m heap
              else Ret (heap, Some (un_session_id e))
          end
      end
  end.

Definition evict (id : NodeId) (m : SessionManager) : SessionManager :=
  match sessions m !! id with
  | None => m
  | Some i =>
      let m := set_sessions (base.delete id (sessions m)) m in
      let token := se_authentication_token (arc m i) in
      let channel := se_secure_channel_id (arc m i) in
      let m := arc_write i close m in
      let m := set_auth_tokens (base.delete token (auth_tokens m)) m in
      let m := set_actor_senders (base.delete token (actor_senders m)) m in
      let m := set_closed_auth_tokens (<[token := now]> (closed_auth_tokens m)) m in
      let m := clear_session_locale_ids_for_node_id id m in
      fetch_sub channel m
  end.

(** The deadline of a session for the expiry, and of one that is not activated. *)
Definition unactivated_deadline (s : Session) : Z := se_created_at s + from_millis (unactivated_session_timeout_ms config).

(** Publishing the session of a draft. *)
Definition publish_session (d : CreateSessionDraft) (m : SessionManager) : SessionManager :=
  let i := length (arcs m) in
  let s := dr_session d in
  let m := set_arcs (arcs m ++ [s]) m in
  let m := set_sessions (<[se_session_id s := i]> (sessions m)) m in
  let m := fetch_add (dr_secure_channel_id d) m in
  let m := register_token (dr_authentication_token d) i m in
  let m :=
    if negb (is_activated s) then
      let m := set_unactivated_heap (mkUnactivated (se_created_at s) (se_session_id s) :: unactivated_heap m) m in
      set_expiry_heap (mkExpiry (Z.min (deadline s) (unactivated_deadline s)) (se_session_id s) :: expiry_heap m) m
    else set_expiry_heap (mkExpiry (deadline s) (se_session_id s) :: expiry_heap m) m in
  set_actor_senders (<[dr_authentication_token d := i]> (actor_senders m)) m.

(** [commit_create_session_draft], with the new limit of the channel. *)
Definition commit_create_session_draft (d : CreateSessionDraft) (channel : Z) (m : SessionManager)
    : outcome (SessionManager * result (CreateSessionResponse * option Z) StatusCode) :=
  let! (m, ok) :=
    if (max_sessions config <=? size (sessions m))%nat then
      let! (heap, oldest) := eviction_candidate (length (unactivated_heap m)) m (unactivated_heap m) in
      let m := set_unactivated_heap heap m in
      Ret (match oldest with Some id => (evict id m, true) | None => (m, false) end)
    else Ret (m, true) in
  if negb ok then Ret (m, Err BadTooManySessions)
  else
    let count := default 0 (unactivated_by_channel m !! dr_secure_channel_id d) in
    let m := set_unactivated_by_channel (<[dr_secure_channel_id d := count]> (unactivated_by_channel m)) m in
    if max_unactivated_sessions_per_channel config <=? count then Ret (m, Err BadTooManySessions)
    else if negb (channel =? dr_secure_channel_id d) then Ret (m, Err BadSecureChannelIdInvalid)
    else
      let m := publish_session d m in
      let s := dr_session d in
      Ret (m, Ok (mkCreated (se_session_id s) (dr_authentication_token d) (dr_session_timeout d) (se_session_nonce s)
                    (se_max_request_message_size s), refresh_limit channel m)).
End create.

(** *** Preparing a draft *)

(** What the server's configuration and its certificates tell. *)
Class ServerInfo := {
  server_endpoints_for : rstr -> bool;
  validate_endpoint_hostname : rstr -> result unit StatusCode;
  endpoint_exists : rstr -> SecurityPolicy -> MessageSecurityMode -> bool;
  server_certificate : option X509;
  validate_client_certificate : X509 -> SecurityPolicy -> option rstr -> result unit StatusCode;
  (** Signing the client's certificate and nonce with the server's key. *)
  server_signature : SecurityPolicy -> ByteString -> ByteString -> result SignatureData StatusCode
}.

Record CreateSessionRequest := mkCreateRequest {
  rq_endpoint_url : UAString;
  rq_client_nonce : ByteString;
  rq_client_certificate : ByteString;
  rq_application_uri : UAString;
  rq_session_name : UAString;
  rq_requested_session_timeout : f64;
  rq_max_response_message_size : Z
}.

Definition ua_empty (s : UAString) : bool := match default [] s with [] => true | _ => false end.
(** [next_session_id]. *)
Definition take_session_id (m : SessionManager) : SessionManager * (NodeId * Z) :=
  let id := next_session_id m in
  (mkSessionManager (arcs m) (sessions m) (auth_tokens m) (actor_senders m) (closed_auth_tokens m) (unactivated_by_channel m)
     (channel_body_limits m) (expiry_heap m) (unactivated_heap m) (wrap32 (id + 1)) (session_locale_ids m) (random_bytes m) (random_drawn m),
   ({| Variant.namespace := 1; identifier := IdNumeric id |}, id)).
Definition draw (len : Z) (m : SessionManager) : SessionManager * bytes :=
  (mkSessionManager (arcs m) (sessions m) (auth_tokens m) (actor_senders m) (closed_auth_tokens m) (unactivated_by_channel m)
     (channel_body_limits m) (expiry_heap m) (unactivated_heap m) (next_session_id m) (session_locale_ids m) (random_bytes m)
     (S (random_drawn m)), random_bytes m (random_drawn m) len).

Section prepare.
Context {FT : Features} {SI : ServerInfo}.
Variables (config : SessionConfig) (now : Z).

Definition select_endpoint (r : CreateSessionRequest) : result unit StatusCode :=
  if ua_empty (rq_endpoint_url r) then Err BadTcpEndpointUrlInvalid
  else if negb (server_endpoints_for (default [] (rq_endpoint_url r))) then Err BadTcpEndpointUrlInvalid
  else validate_endpoint_hostname (default [] (rq_endpoint_url r)).
Definition client_nonce_ok (p : SecurityPolicy) (r : CreateSessionRequest) : bool :=
  match p with
  | PolicyNone => true
  | _ => let len := match rq_client_nonce r with Some n => zlen n | None => 0 end in
         negb ((len <? Z.max (session_nonce_length config) 32) || (128 <? len))
  end.
Definition client_certificate_of (p : SecurityPolicy) (r : CreateSessionRequest) : result (option X509) StatusCode :=
  match p with
  | PolicyNone => Ok None
  | _ =>
      let? cert := x509_from_byte_string (rq_client_certificate r) in
      let? _ := validate_client_certificate cert p (if ua_empty (rq_application_uri r) then None else rq_application_uri r) in
      Ok (Some cert)
  end.

(** [requested.floor() as u64], in milliseconds: both round towards the smaller number from zero on. *)
Definition requested_timeout (r : CreateSessionRequest) : Z := Z.min (max_session_timeout_ms config) (f64_as_u64 (rq_requested_session_timeout r)).
Definition session_timeout_nanos (t : Z) : Z :=
  from_millis (Z.max (if t =? 0 then max_session_timeout_ms config else t) (min_session_timeout_ms config)).

(** [Session::create]. *)
Definition session_create (token : NodeId) (channel timeout max_request max_response : Z) (url : UAString) (uri : rstr)
    (client_certificate : option X509) (nonce : bytes) (name application_uri : UAString) (mode : MessageSecurityMode) (m : SessionManager)
    : SessionManager * Session :=
  let '(m, (id, numeric)) := take_session_id m in
  (m, mkSession _ id numeric uri channel client_certificate token nonce name (session_timeout_nanos timeout) ItNone None
        max_request max_response url application_uri mode now 0 None [] None false).

(** [CreateSessionActorConstruction::prepare]. *)
Definition prepare_session (policy : SecurityPolicy) (mode : MessageSecurityMode) (channel : Z) (r : CreateSessionRequest)
    (client_certificate : option X509) (m : SessionManager) : outcome (SessionManager * result CreateSessionDraft StatusCode) :=
  let nonce_len := session_nonce_length config in
  if negb ((32 <=? nonce_len) && (nonce_len <=? 128)) then Ret (m, Err BadConfigurationError)
  else
    let '(m, token) := draw 32 m in
    let '(m, nonce) := draw nonce_len m in
    let token := {| Variant.namespace := 0; identifier := IdByteString (Some token) |} in
    let timeout := requested_timeout r in
    let! uri := to_uri policy in
    let name := if ua_empty (rq_session_name r) then Some (str "UnnamedSession") else rq_session_name r in
    let '(m, s) := session_create token channel timeout (wrap32 (max_message_size config)) (rq_max_response_message_size r) (rq_endpoint_url r)
                     uri client_certificate nonce name (rq_application_uri r) mode m in
    Ret (m, Ok (mkDraft channel token s timeout)).

(** [prepare_endpoint_preflight]. *)
Definition prepare_endpoint_preflight (policy : SecurityPolicy) (mode : MessageSecurityMode) (channel : Z) (r : CreateSessionRequest)
    (m : SessionManager) : outcome (SessionManager * result CreateSessionDraft StatusCode) :=
  let checked :=
    let? _ := select_endpoint r in
    let? _ := (if client_nonce_ok policy r then Ok tt else Err BadNonceInvalid) in
    let? cert := client_certificate_of policy r in
    let? _ := server_signature policy (rq_client_certificate r) (rq_client_nonce r) in
    Ok cert in
  match checked with
  | Err e => Ret (m, Err e)
  | Ok cert => prepare_session policy mode channel r cert m
  end.
End prepare.

(** ** Expiry *)

Section expiry.
Context `{MinHeap}.
Variables (config : SessionConfig) (now : Z).

Definition expire_session (id : NodeId) (m : SessionManager) : SessionManager :=
  match sessions m !! id with
  | None => m
  | Some i =>
      let m := set_sessions (base.delete id (sessions m)) m in
      let s := arc m i in
      let m := if negb (is_activated s) then fetch_sub (se_secure_channel_id s) m else m in
      let m := remove_channel_body_limit (se_secure_channel_id s) m in
      let m := deregister_token now (se_authentication_token s) m in
      let m := clear_session_locale_ids (se_session_id_numeric s) m in
      arc_write i close m
  end.

(** When a session expires. *)
Definition effective_deadline (s : Session) : Z :=
  if negb (is_activated s) then Z.min (deadline s) (unactivated_deadline config s) else deadline s.

(** The loop of [check_session_expiry]; every turn takes an entry of which only later ones come back. *)
Fixpoint check_loop (fuel : nat) (locked : nat -> bool) (m : SessionManager) (heap : list SessionExpiryEntry) (next_expiry : Z)
    (expired : list NodeId) : outcome (list SessionExpiryEntry * Z * list NodeId) :=
  match heap_pop ex_deadline heap with
  | None => Ret (heap, next_expiry, expired)
  | Some (e, heap) =>
      match fuel with
      | O => OutOfFuel
      | S fuel' =>
          if now <? ex_deadline e then Ret (e :: heap, Z.min next_expiry (ex_deadline e), expired)
          else
            match sessions m !! ex_session_id e with
            | None => check_loop fuel' locked m heap next_expiry expired
            | Some i =>
                if locked i then check_loop fuel' locked m heap next_expiry expired
                else
                  let d := effective_deadline (arc m i) in
                  if now <? d then
                    check_loop fuel' locked m (mkExpiry d (ex_session_id e) :: heap) (Z.min next_expiry d) expired
                  else check_loop fuel' locked m heap next_expiry (expired ++ [ex_session_id e])
            end
      end
  end.
Definition check_session_expiry (locked : nat -> bool) (m : SessionManager) : outcome (SessionManager * (Z * list NodeId)) :=
  let! (x, expired) :=
    check_loop (S (length (expiry_heap m))) locked m (expiry_heap m) (now + from_millis (max_session_timeout_ms config)) [] in
  let '(heap, next_expiry) := x in
  Ret (set_expiry_heap heap m, (next_expiry, expired)).

(** One turn of [run_session_expiry] (server/src/server.rs). *)
Definition expiry_turn (locked : nat -> bool) (m : SessionManager) : outcome (SessionManager * Z) :=
  let! (m, x) := check_session_expiry locked m in
  Ret (fold_left (fun m id => expire_session id m) x.2 m, x.1).
End expiry.

(** ** CloseSession *)

(** What is read before the actor is told to end. *)
Record Closing := mkClosing { cl_arc : nat; cl_id : Z; cl_actor : nat; cl_was_unactivated : bool; cl_channel : Z }.
Definition close_begin (channel : Z) (token : NodeId) (m : SessionManager) : result Closing StatusCode :=
  match find_by_token token m with
  | None => Err BadSessionIdInvalid
  | Some i =>
      let s := arc m i in
      if negb (is_activated s) && negb (se_secure_channel_id s =? channel) then Err BadSecureChannelIdInvalid
      else match actor_sender (se_authentication_token s) m with
           | None => Err BadSessionClosed
           | Some a => Ok (mkClosing i (se_session_id_numeric s) a (negb (is_activated s)) (se_secure_channel_id s))
           end
  end.
(** The actor of a session ends: it closes the session, then its tokens are cleaned up. *)
Definition actor_close (i : nat) (m : SessionManager) : SessionManager := arc_write i close m.
Definition termination_cleanup (now : Z) (i : nat) (m : SessionManager) : SessionManager :=
  let token := se_authentication_token (arc m i) in
  let m := set_auth_tokens (base.delete token (auth_tokens m)) m in
  let m := set_actor_senders (base.delete token (actor_senders m)) m in
  let m := set_closed_auth_tokens (<[token := now]> (closed_auth_tokens m)) m in
  clear_session_locale_ids_for_node_id (se_session_id (arc m i)) m.
(** After the acknowledgement of the actor. *)
Definition close_finish (channel : Z) (c : Closing) (m : SessionManager) : SessionManager * option Z :=
  let m := if cl_was_unactivated c then fetch_sub (cl_channel c) m else m in
  let m := set_sessions (base.delete (se_session_id (arc m (cl_actor c))) (sessions m)) m in
  let m := clear_session_locale_ids (cl_id c) m in
  (m, refresh_limit channel m).

(** All of it, when nothing else happens in between. *)
Definition close_session (now channel : Z) (token : NodeId) (m : SessionManager) : SessionManager * result (option Z) StatusCode :=
  match close_begin channel token m with
  | Err e => (m, Err e)
  | Ok c =>
      let m := termination_cleanup now (cl_actor c) (actor_close (cl_actor c) m) in
      let '(m, limit) := close_finish channel c m in (m, Ok limit)
  end.

(** ** ActivateSession *)

Record ActivateSessionRequest := mkActivateRequest {
  aq_authentication_token : NodeId;
  aq_client_signature : SignatureData;
  aq_identity : IdentityToken;
  (** The signature of the user token is null. *)
  aq_user_signature_null : bool;
  aq_locale_ids : option (list UAString)
}.
Record EndpointAuthentication := mkAuthentication { au_user_token : rstr; au_claims : option (list rstr) }.

(** What [activate_session] keeps while it waits, after the first reading of the session. *)
Record Activation := mkActivation {
  ac_arc : nat;
  ac_endpoint_url : UAString;
  ac_session_nonce : bytes;
  ac_previous_secure_channel_id : Z;
  ac_was_unactivated : bool;
  ac_verify_data : option (option X509 * option X509 * bytes * SignatureData)
}.

Section activate.
Context {FT : Features} {CL : CryptoLib} {AL : AsymmetricLib} {SI : ServerInfo}.
Variables (config : SessionConfig) (now : Z) (channel : SecureChannel) (request : ActivateSessionRequest).

Definition policy_none : bool := bool_decide (security_policy channel = PolicyNone).

Definition is_anonymous (t : IdentityToken) : bool := match t with ItAnonymous => true | _ => false end.

(** The checks under the first lock on the session. *)
Definition activate_checks (s : Session) : result unit StatusCode :=
  let cross := negb (se_secure_channel_id s =? secure_channel_id channel) in
  if negb (endpoint_exists (default [] (se_endpoint_url s)) (security_policy channel) (SecureChannel.security_mode channel)) then
    Err BadTcpEndpointUrlInvalid
  else if cross && negb (bool_decide (se_message_security_mode s = SecureChannel.security_mode channel)) then Err BadSecureChannelIdInvalid
  else if cross && negb (bool_decide (from_uri (se_security_policy_uri s) = security_policy channel)) then
    Err BadSecureChannelIdInvalid
  else if match aq_identity request with ItX509 _ => aq_user_signature_null request | _ => false end then Err BadUserSignatureInvalid
  else if cross && bool_decide (SecureChannel.security_mode channel = ModeSign) && is_anonymous (aq_identity request)
          && match se_user_identity s with ItAnonymous | ItNone => false | _ => true end then Err BadIdentityTokenRejected
  else Ok tt.

(** From the lookup of the session to the first wait. *)
Definition activate_begin (m : SessionManager) : SessionManager * result Activation StatusCode :=
  match find_by_token (aq_authentication_token request) m with
  | None => (m, Err BadSessionIdInvalid)
  | Some i =>
      let '(s, timely) := validate_timed_out now (arc m i) in
      let m := arc_write i (fun _ => s) m in
      (m, let? _ := timely in
          let? _ := activate_checks s in
          Ok (mkActivation i (se_endpoint_url s) (se_session_nonce s) (se_secure_channel_id s) (negb (is_activated s))
                (if policy_none then None
                 else Some (se_client_certificate s, server_certificate, se_session_nonce s, aq_client_signature request))))
  end.

(** The signature of the client, checked on a worker thread: a panic there is an error here. *)
Definition activate_verify (a : Activation) : result unit StatusCode :=
  match ac_verify_data a with
  | None => Ok tt
  | Some (client_cert, server_cert, nonce, s) =>
      let? client_cert := ok_or client_cert BadUnexpectedError in
      let? server_cert := ok_or server_cert BadUnexpectedError in
      match verify_signature_data s (security_policy channel) client_cert server_cert nonce with
      | Ret (Ok _) => Ok tt
      | Ret (Err _) => Err BadSecurityChecksFailed
      | _ => Err BadUnexpectedError
      end
  end.

Definition is_cross_channel_transfer_forbidden (session_channel request_channel : Z) (activated : bool) (p : SecurityPolicy) : bool :=
  negb (session_channel =? request_channel) && (negb activated || bool_decide (p = PolicyNone)).
(** The certificates are compared by their thumbprints. *)
Definition is_client_certificate_channel_mismatch (session_cert channel_cert : option X509) (p : SecurityPolicy) : bool :=
  if bool_decide (p = PolicyNone) then false
  else match session_cert, channel_cert with
       | Some a, Some b => negb (bool_decide (sha1_digest a = sha1_digest b))
       | _, _ => true
       end.

Definition random_nonce_length : outcome Z :=
  match security_policy channel with
  | PolicyNone => Ret (session_nonce_length config)
  | p => secure_channel_nonce_length p
  end.

(** Under the second lock on the session, once the user is authenticated. *)
Definition activate_commit (resolver : RoleResolver) (authentication : EndpointAuthentication) (server_nonce : bytes) (a : Activation)
    (m : SessionManager) : SessionManager * result unit StatusCode :=
  let s := arc m (ac_arc a) in
  if is_cross_channel_transfer_forbidden (ac_previous_secure_channel_id a) (secure_channel_id channel) (negb (ac_was_unactivated a))
       (security_policy channel) then (m, Err BadSecureChannelIdInvalid)
  else if is_client_certificate_channel_mismatch (se_client_certificate s) (remote_cert channel) (security_policy channel) then
    (m, Err BadSecurityChecksFailed)
  else if negb (bool_decide (se_session_nonce s = ac_session_nonce a)) then (m, Err BadNonceInvalid)
  else
    match resolved_identity_from_activation (aq_identity request) (au_claims authentication)
            (if ua_empty (se_application_uri s) then None else se_application_uri s) (Some (default [] (ac_endpoint_url a))) with
    | Err e => (m, Err e)
    | Ok identity =>
        let roles := resolve resolver identity in
        let locale_ids := match aq_locale_ids request with Some (_ :: _ as l) => Some l | _ => se_locale_ids s end in
        let m := arc_write (ac_arc a) (activate (secure_channel_id channel) server_nonce (aq_identity request) locale_ids
                                         (au_user_token authentication) (au_claims authentication) roles) m in
        (set_session_locale_ids (se_session_id_numeric s) locale_ids m, Ok tt)
    end.

(** The counters and the heap, and the limit of the channel. *)
Definition activate_finish (a : Activation) (m : SessionManager) : SessionManager * option Z :=
  let m :=
    if ac_was_unactivated a then
      let m := fetch_sub (ac_previous_secure_channel_id a) m in
      let s := arc m (ac_arc a) in
      set_expiry_heap (mkExpiry (deadline s) (se_session_id s) :: expiry_heap m) m
    else m in
  (m, refresh_limit (secure_channel_id channel) m).

(** All of it, when nothing else happens in between; [authenticate] is the check of the user token
    against the endpoint and the nonce. *)
Definition activate_session (resolver : RoleResolver)
    (authenticate : UAString -> SecurityPolicy -> MessageSecurityMode -> IdentityToken -> bytes -> result EndpointAuthentication StatusCode)
    (m : SessionManager) : outcome (SessionManager * result bytes StatusCode) :=
  let '(m, begun) := activate_begin m in
  match begun with
  | Err e => Ret (m, Err e)
  | Ok a =>
      let! nonce_len := random_nonce_length in
      let '(m, server_nonce) := draw nonce_len m in
      match activate_verify a with
      | Err e => Ret (m, Err e)
      | Ok _ =>
          match authenticate (ac_endpoint_url a) (security_policy channel) (SecureChannel.security_mode channel) (aq_identity request)
                  (ac_session_nonce a) with
          | Err e => Ret (m, Err e)
          | Ok authentication =>
              let '(m, r) := activate_commit resolver authentication server_nonce a m in
              match r with
              | Err e => Ret (m, Err e)
              | Ok _ => Ret ((activate_finish a m).1, Ok server_nonce)
              end
          end
      end
  end.
End activate.

End sessions.
