(* ===== verification/SessionConcrete.v ===== *)
(** * Concrete sessions

    Instances of the interfaces of the session manager and a server that holds at most two sessions,
    to run its operations on. *)

From S2P Require Import Prelude Text StatusCode Float NumericRange Variant Wire Crypto Chunk SecureChannel AsymmetricSecurity ConcreteChannel References TypeTree Nodes Rbac Roles SessionManager.
#[local] Open Scope Z_scope.

(** The first least element. *)
Fixpoint take_least {A} (key : A -> Z) (x : A) (l : list A) : A * list A :=
  match l with
  | [] => (x, [])
  | y :: l' => let '(z, r) := take_least key y l' in if key x <=? key z then (x, y :: l') else (z, x :: r)
  end.
Lemma take_least_spec {A} (key : A -> Z) l : forall x, x :: l ≡ₚ (take_least key x l).1 :: (take_least key x l).2
  /\ Forall (fun z => key (take_least key x l).1 <= key z) (take_least key x l).2.
Proof.
  induction l as [|y l IH]; intros x; cbn; [by split|]. destruct (IH y) as [Hp Hmin]. destruct (take_least key y l) as [z r]. cbn in *.
  destruct (Z.leb_spec (key x) (key z)); cbn.
  - split; [done|]. rewrite Hp. constructor; [done|]. eapply Forall_impl; [exact Hmin|]. cbn. intros. lia.
  - split; [by rewrite Hp, perm_swap|]. constructor; [lia|done].
Qed.
Definition pop_least {A} (key : A -> Z) (l : list A) : option (A * list A) := match l with [] => None | x :: l' => Some (take_least key x l') end.
Lemma pop_least_cons {A} (key : A -> Z) x l : exists y l', pop_least key (x :: l) = Some (y, l') /\ x :: l ≡ₚ y :: l' /\ Forall (fun z => key y <= key z) l'.
Proof. cbn. destruct (take_least_spec key l x) as [Hp Hmin]. destruct (take_least key x l) as [y l']. by exists y, l'. Qed.
#[global] Instance least_heap : MinHeap :=
  {| heap_pop A := pop_least; heap_pop_nil A key := eq_refl; heap_pop_cons A key x l := pop_least_cons key x l |}.

(** One certificate for the server, and every client is known. *)
#[global] Instance toy_server : ServerInfo :=
  {| server_endpoints_for _ := true; validate_endpoint_hostname _ := Ok tt; endpoint_exists _ _ _ := true; server_certificate := Some 2;
     validate_client_certificate _ _ _ := Ok tt; server_signature _ _ _ := Ok (mkSignature None None) |}.

Definition config : SessionConfig :=
  {| max_sessions := 2; max_unactivated_sessions_per_channel := 2; unactivated_session_timeout_ms := 10000; max_session_timeout_ms := 60000;
     min_session_timeout_ms := 10; SessionManager.session_nonce_length := 32; max_message_size := 65536 |}.
Definition random (n : nat) (len : Z) : bytes := repeat (Z.of_nat n) (Z.to_nat len).
Lemma random_distinct n n' len len' : (n < 256)%nat -> (n' < 256)%nat -> 16 <= len -> 16 <= len' -> random n len = random n' len' -> n = n'.
Proof.
  intros _ _ H1 H2 Heq. unfold random in Heq. destruct (Z.to_nat len) eqn:E1; [lia|]. destruct (Z.to_nat len') eqn:E2; [lia|].
  cbn in Heq. injection Heq as ? _. lia.
Qed.
Definition empty_manager : SessionManager := mkSessionManager [] ∅ ∅ ∅ ∅ ∅ ∅ [] [] 1 ∅ random 0.

(** What an operation gave that succeeds. *)
Definition ran {A B} `{Inhabited A} `{Inhabited B} (o : outcome (A * result B StatusCode)) : A * B :=
  match o with Ret (a, Ok b) => (a, b) | _ => inhabitant end.
#[export] Instance manager_inhabited : Inhabited SessionManager := populate empty_manager.
#[export] Instance draft_inhabited : Inhabited CreateSessionDraft := populate (mkDraft 0 null_id inhabitant 0).
#[export] Instance response_inhabited : Inhabited CreateSessionResponse := populate (mkCreated null_id null_id 0 [] 0).
#[export] Instance activation_inhabited : Inhabited Activation := populate (mkActivation 0 None [] 0 false None).

Definition create_request : CreateSessionRequest :=
  {| rq_endpoint_url := Some (str "opc.tcp://host"); rq_client_nonce := Some (repeat 9 32); rq_client_certificate := Some [1];
     rq_application_uri := Some (str "urn:client"); rq_session_name := Some (str "session"); rq_requested_session_timeout := f64_of_Z 20000;
     rq_max_response_message_size := 0 |}.
(** A request to activate with the signature of the client over the server's certificate and a nonce. *)
Definition activate_request (token : NodeId) (nonce : bytes) (identity : IdentityToken) : ActivateSessionRequest :=
  {| aq_authentication_token := token;
     aq_client_signature := mkSignature None (rsa_sign DsigRsaSha256 1 0 (concat_data_and_nonce [2] nonce));
     aq_identity := identity; aq_user_signature_null := false; aq_locale_ids := None |}.
Definition authenticate (url : UAString) (p : SecurityPolicy) (m : MessageSecurityMode) (t : IdentityToken) (nonce : bytes)
    : result EndpointAuthentication StatusCode :=
  match t with
  | ItAnonymous => Ok (mkAuthentication (str "anonymous") None)
  | ItUserName user => Ok (mkAuthentication (ua_as_ref user) None)
  | _ => Err BadIdentityTokenRejected
  end.

(** A session on a channel of which the client has certificate 1, and its token and nonce. *)
Definition prepared (now : Z) (m : SessionManager) : SessionManager * CreateSessionDraft :=
  ran (prepare_endpoint_preflight config now Basic256Sha256 ModeSignAndEncrypt 7 create_request m).
Definition created (now : Z) (m : SessionManager) : SessionManager * (CreateSessionResponse * option Z) :=
  let '(m, d) := prepared now m in ran (commit_create_session_draft config (fun _ => false) now d 7 m).
Definition one_session : SessionManager := (created 5 empty_manager).1.
Definition first_token : NodeId := cr_authentication_token (created 5 empty_manager).2.1.
Definition first_nonce : bytes := cr_server_nonce (created 5 empty_manager).2.1.
Definition first_request : ActivateSessionRequest := activate_request first_token first_nonce ItAnonymous.

(** The session is activated while it expires: the counter of the channel wraps around, and no session
    can be made on the channel any more. *)
Definition begun : SessionManager * Activation := ran (Ret (activate_begin 6 server_channel first_request one_session)).
Definition user_anonymous : EndpointAuthentication := mkAuthentication (str "anonymous") None.
Definition expired_meanwhile : SessionManager :=
  let m := expire_session 6 (se_session_id (arc one_session 0)) begun.1 in
  let '(m, nonce) := draw 32 m in
  let '(m, _) := activate_commit server_channel first_request resolver_default user_anonymous nonce begun.2 m in
  (activate_finish server_channel begun.2 m).1.
Example counter_wraps : unactivated_by_channel expired_meanwhile !! 7 = Some usize_max /\ sessions expired_meanwhile = ∅.
Proof. split; vm_compute; reflexivity. Qed.
Example channel_is_locked : let '(m, d) := prepared 7 expired_meanwhile in
  exists m', commit_create_session_draft config (fun _ => false) 7 d 7 m = Ret (m', Err BadTooManySessions).
Proof. eexists. vm_compute. reflexivity. Qed.
(** A session that is locked when its time has come is not looked at again. *)
Example locked_is_forgotten : exists m n, expiry_turn config 20000000000 (fun i => (i =? 0)%nat) one_session = Ret (m, n)
  /\ expiry_heap m = [] /\ size (sessions m) = 1%nat.
Proof. eexists _, _. split; [vm_compute; reflexivity|]. split; vm_compute; reflexivity. Qed.
