(* ===== verification/SessionManagerFacts.v ===== *)
(** * Facts on sessions

    Operations that run one after the other keep the registries, counters and heaps of the session
    manager in agreement with the sessions, and a pass of the expiry removes exactly the sessions
    whose time has passed. *)

From S2P Require Import Prelude Text StatusCode Float NumericRange Variant Wire Crypto Chunk SecureChannel AsymmetricSecurity References TypeTree Nodes Rbac Roles ConcreteChannel SessionManager SessionConcrete.
#[local] Open Scope Z_scope.

(** ** The sessions that a manager knows *)

Section view.
Context `{PK : Pki}.

Definition view (m : SessionManager) : gmap NodeId Session := arc m <$> sessions m.
(** Sessions that count against the limit of a channel. *)
Definition idle (ch : Z) (s : Session) : bool := negb (is_activated s) && (se_secure_channel_id s =? ch).
Definition idle_count (v : gmap NodeId Session) (ch : Z) : Z := Z.of_nat (size (base.filter (fun x => idle ch x.2 = true) v)).
Definition count_if (b : bool) : Z := if b then 1 else 0.

Lemma idle_count_empty ch : idle_count ∅ ch = 0.
Proof. unfold idle_count. by rewrite map_filter_empty, map_size_empty. Qed.
Lemma idle_count_new v k s ch : v !! k = None -> idle_count (<[k := s]> v) ch = idle_count v ch + count_if (idle ch s).
Proof.
  intros Hk. unfold idle_count, count_if. destruct (idle ch s) eqn:Hi.
  - rewrite map_filter_insert_True by done. rewrite map_size_insert_None; [lia|]. by apply map_lookup_filter_None_2; left.
  - rewrite map_filter_insert_False by (cbn; congruence). rewrite delete_id by done. lia.
Qed.
Lemma idle_count_delete v k s ch : v !! k = Some s -> idle_count (base.delete k v) ch = idle_count v ch - count_if (idle ch s).
Proof.
  intros Hk. rewrite <- (insert_delete_id v k s Hk) at 2. rewrite idle_count_new by apply lookup_delete_eq. lia.
Qed.
Lemma idle_count_update v k s s' ch : v !! k = Some s ->
  idle_count (<[k := s']> v) ch = idle_count v ch - count_if (idle ch s) + count_if (idle ch s').
Proof.
  intros Hk. rewrite <- insert_delete_eq, idle_count_new by apply lookup_delete_eq. by rewrite (idle_count_delete v k s).
Qed.
Lemma idle_count_bounds v ch : 0 <= idle_count v ch <= Z.of_nat (size v).
Proof. unfold idle_count. pose proof (map_size_filter (fun x => idle ch x.2 = true) v). lia. Qed.

Lemma arc_write_arc m i j f : (i < length (arcs m))%nat -> arc (arc_write i f m) j = if decide (j = i) then f (arc m i) else arc m j.
Proof.
  intros Hi. unfold arc, arc_write. cbn [arcs set_arcs sm_update]. destruct (decide (j = i)) as [->|Hj].
  - by rewrite list_lookup_total_alter_eq.
  - by rewrite list_lookup_total_alter_ne.
Qed.
Lemma view_lookup m k s : view m !! k = Some s <-> exists i, sessions m !! k = Some i /\ arc m i = s.
Proof. unfold view. rewrite lookup_fmap_Some. naive_solver. Qed.

(** ** The invariant *)

Section invariant.
Variables (config : SessionConfig) (now : Z).

(** When a session expires, and the times of a session. *)
Definition timely (s : Session) : Prop :=
  0 <= se_created_at s <= now /\ 0 <= se_last_service_request_nanos s <= now - se_created_at s /\ 0 <= se_session_timeout s.

Record registered (m : SessionManager) : Prop := {
  (** Each session is known under its identifier, *)
  rg_arcs k i : sessions m !! k = Some i -> (i < length (arcs m))%nat /\ se_session_id (arc m i) = k;
  (** its token finds it, and no other token finds a session, *)
  rg_tokens t i : auth_tokens m !! t = Some i <-> (exists k, sessions m !! k = Some i) /\ se_authentication_token (arc m i) = t;
  rg_actors : actor_senders m = auth_tokens m;
  rg_open : map_Forall (fun _ s => se_is_closed s = false) (view m);
  rg_times : map_Forall (fun _ => timely) (view m);
  (** there are not more than there may be, *)
  rg_size : (size (sessions m) <= max_sessions config)%nat;
  (** and the counters count what they should. *)
  rg_counts ch : default 0 (unactivated_by_channel m !! ch) = idle_count (view m) ch
}.
(** The heaps will find every session in time. *)
Definition expiry_covered (h : list SessionExpiryEntry) (v : gmap NodeId Session) : Prop :=
  map_Forall (fun k s => exists e, e ∈ h /\ ex_session_id e = k /\ ex_deadline e <= effective_deadline config s) v.
Definition unactivated_covered (h : list UnactivatedSessionEntry) (v : gmap NodeId Session) : Prop :=
  map_Forall (fun k s => is_activated s = false -> exists e, e ∈ h /\ un_session_id e = k /\ un_created_at e = se_created_at s) v.
Record manager_inv (m : SessionManager) : Prop := {
  mi_registered : registered m;
  mi_expiry : expiry_covered (expiry_heap m) (view m);
  mi_unactivated : unactivated_covered (unactivated_heap m) (view m)
}.

(** A session is the only one behind its [Arc], and the only one with its token. *)
Lemma same_arc m k k' i : registered m -> sessions m !! k = Some i -> sessions m !! k' = Some i -> k = k'.
Proof. intros Hm Hk Hk'. apply (rg_arcs m Hm) in Hk as [_ <-], Hk' as [_ <-]. done. Qed.
Lemma view_size m : size (view m) = size (sessions m).
Proof. unfold view. apply map_size_fmap. Qed.
Lemma view_write m k i f : registered m -> sessions m !! k = Some i -> view (arc_write i f m) = <[k := f (arc m i)]> (view m).
Proof.
  intros Hm Hk. destruct (rg_arcs m Hm k i Hk) as [Hi _]. apply map_eq. intros k'. unfold view. change (sessions (arc_write i f m)) with (sessions m).
  rewrite lookup_fmap. destruct (decide (k' = k)) as [->|Hne].
  - rewrite lookup_insert_eq, Hk. cbn. f_equal. rewrite arc_write_arc by done. by rewrite decide_True.
  - rewrite lookup_insert_ne, lookup_fmap by done. destruct (sessions m !! k') as [j|] eqn:Hj; [|done]. cbn. f_equal.
    rewrite arc_write_arc by done. rewrite decide_False; [done|]. intros ->. by apply Hne, (same_arc m k' k i).
Qed.

(** *** Changing, removing and adding a session *)

Lemma view_some m k i : sessions m !! k = Some i -> view m !! k = Some (arc m i).
Proof. intros Hk. apply view_lookup. by exists i. Qed.

Definition same_identity (s s' : Session) : Prop :=
  se_session_id s' = se_session_id s /\ se_authentication_token s' = se_authentication_token s /\ se_is_closed s' = se_is_closed s.

Lemma registered_write m m' k i f : registered m -> sessions m !! k = Some i -> same_identity (arc m i) (f (arc m i)) -> timely (f (arc m i)) ->
  sessions m' = sessions m -> arcs m' = arcs (arc_write i f m) -> auth_tokens m' = auth_tokens m -> actor_senders m' = actor_senders m ->
  (forall ch, default 0 (unactivated_by_channel m' !! ch) =
    default 0 (unactivated_by_channel m !! ch) - count_if (idle ch (arc m i)) + count_if (idle ch (f (arc m i)))) ->
  registered m' /\ view m' = <[k := f (arc m i)]> (view m).
Proof.
  intros Hm Hk (Hid & Htok & Hcl) Htime Es Ea Et Eac Hc. destruct (rg_arcs m Hm k i Hk) as [Hi Hik].
  assert (forall j, arc m' j = arc (arc_write i f m) j) as Harc by (intros j; unfold arc; by rewrite Ea).
  assert (forall j, se_session_id (arc m' j) = se_session_id (arc m j) /\ se_authentication_token (arc m' j) = se_authentication_token (arc m j)) as Hsame.
  { intros j. rewrite Harc, arc_write_arc by done. by destruct (decide (j = i)) as [->|]. }
  assert (view m' = <[k := f (arc m i)]> (view m)) as Hv.
  { rewrite <- (view_write m k i f) by done. unfold view. rewrite Es. apply map_fmap_ext. intros k' j Hj. apply Harc. }
  split; [|done]. split.
  - intros k' j Hj. rewrite Es in Hj. destruct (rg_arcs m Hm k' j Hj) as [Hj1 Hj2]. rewrite (proj1 (Hsame j)). split; [|done].
    rewrite Ea. unfold arc_write. cbn. by rewrite length_alter.
  - intros t j. rewrite Et, Es, (proj2 (Hsame j)). apply (rg_tokens m Hm).
  - rewrite Eac, Et. apply (rg_actors m Hm).
  - rewrite Hv. apply map_Forall_insert_2; [|apply (rg_open m Hm)]. rewrite Hcl. apply (rg_open m Hm k). by apply view_some.
  - rewrite Hv. apply map_Forall_insert_2; [done|apply (rg_times m Hm)].
  - rewrite Es. apply (rg_size m Hm).
  - intros ch. rewrite Hc, Hv, (idle_count_update (view m) k (arc m i)), (rg_counts m Hm); [done|]. by apply view_some.
Qed.

Lemma registered_remove m m' k i f : registered m -> sessions m !! k = Some i ->
  sessions m' = base.delete k (sessions m) -> arcs m' = arcs (arc_write i f m) ->
  auth_tokens m' = base.delete (se_authentication_token (arc m i)) (auth_tokens m) ->
  actor_senders m' = base.delete (se_authentication_token (arc m i)) (actor_senders m) ->
  (forall ch, default 0 (unactivated_by_channel m' !! ch) = default 0 (unactivated_by_channel m !! ch) - count_if (idle ch (arc m i))) ->
  registered m' /\ view m' = base.delete k (view m).
Proof.
  intros Hm Hk Es Ea Et Eac Hc. destruct (rg_arcs m Hm k i Hk) as [Hi Hik].
  assert (forall j, sessions m' !! k <> Some j) as Hgone by (intros j; rewrite Es; by rewrite lookup_delete_eq).
  assert (forall k' j, sessions m' !! k' = Some j -> sessions m !! k' = Some j /\ j <> i /\ arc m' j = arc m j) as Hold.
  { intros k' j Hj. rewrite Es in Hj. apply lookup_delete_Some in Hj as [Hne Hj]. split; [done|].
    assert (j <> i) as Hji by (intros ->; apply Hne; by apply (same_arc m k k' i)). split; [done|].
    unfold arc. rewrite Ea. change (arc (arc_write i f m) j = arc m j). rewrite arc_write_arc by done. by rewrite decide_False. }
  assert (view m' = base.delete k (view m)) as Hv.
  { unfold view. rewrite <- fmap_delete, <- Es. apply map_fmap_ext. intros k' j Hj. by apply Hold in Hj as (_ & _ & ->). }
  assert (auth_tokens m !! se_authentication_token (arc m i) = Some i) as Hti by (apply (rg_tokens m Hm); eauto).
  split; [|done]. split.
  - intros k' j Hj. destruct (Hold k' j Hj) as (Hj' & _ & ->). destruct (rg_arcs m Hm k' j Hj') as [Hj1 Hj2]. split; [|done].
    rewrite Ea. unfold arc_write. cbn. by rewrite length_alter.
  - intros t j. rewrite Et, lookup_delete_Some. split.
    + intros [Hne Hj]. pose proof Hj as Hj'. apply (rg_tokens m Hm) in Hj' as [(k' & Hk') Ht].
      assert (sessions m' !! k' = Some j) as Hj'. { rewrite Es, lookup_delete_ne; [done|]. intros <-. congruence. }
      destruct (Hold k' j Hj') as (_ & _ & ->). eauto.
    + intros [(k' & Hk') Ht]. destruct (Hold k' j Hk') as (Hj & Hji & Harc). rewrite Harc in Ht.
      assert (auth_tokens m !! t = Some j) as Htj by (apply (rg_tokens m Hm); eauto). split; [|done]. intros <-. congruence.
  - by rewrite Eac, Et, (rg_actors m Hm).
  - rewrite Hv. apply map_Forall_delete, (rg_open m Hm).
  - rewrite Hv. apply map_Forall_delete, (rg_times m Hm).
  - rewrite Es. pose proof (map_size_delete_Some k (sessions m) ltac:(eauto)). pose proof (rg_size m Hm). lia.
  - intros ch. rewrite Hc, Hv, (idle_count_delete (view m) k (arc m i)), (rg_counts m Hm); [done|]. by apply view_some.
Qed.

Lemma registered_add m m' s : registered m -> sessions m !! se_session_id s = None -> auth_tokens m !! se_authentication_token s = None ->
  se_is_closed s = false -> timely s -> (size (sessions m) < max_sessions config)%nat ->
  sessions m' = <[se_session_id s := length (arcs m)]> (sessions m) -> arcs m' = arcs m ++ [s] ->
  auth_tokens m' = <[se_authentication_token s := length (arcs m)]> (auth_tokens m) ->
  actor_senders m' = <[se_authentication_token s := length (arcs m)]> (actor_senders m) ->
  (forall ch, default 0 (unactivated_by_channel m' !! ch) = default 0 (unactivated_by_channel m !! ch) + count_if (idle ch s)) ->
  registered m' /\ view m' = <[se_session_id s := s]> (view m).
Proof.
  intros Hm Hid Htok Hcl Htime Hsize Es Ea Et Eac Hc.
  assert (arc m' (length (arcs m)) = s) as Hnew. { unfold arc. rewrite Ea. by rewrite lookup_total_app_r, Nat.sub_diag. }
  assert (forall k j, sessions m !! k = Some j -> (j < length (arcs m))%nat /\ arc m' j = arc m j) as Hold.
  { intros k j Hj. destruct (rg_arcs m Hm k j Hj) as [Hj1 _]. split; [done|]. unfold arc. rewrite Ea. by rewrite lookup_total_app_l. }
  assert (view m' = <[se_session_id s := s]> (view m)) as Hv.
  { unfold view. rewrite Es, fmap_insert, Hnew. f_equal. apply map_fmap_ext. intros k j Hj. by apply Hold in Hj as [_ ->]. }
  split; [|done]. split.
  - intros k j Hj. rewrite Es, lookup_insert_Some in Hj. rewrite Ea, length_app. cbn. destruct Hj as [[<- <-]|[Hne Hj]].
    + rewrite Hnew. split; [lia|done].
    + destruct (Hold k j Hj) as [Hlt ->]. split; [lia|]. by apply (rg_arcs m Hm).
  - intros t j. rewrite Et, lookup_insert_Some. split.
    + intros [[<- <-]|[Hne Hj]]; [rewrite Hnew; split; [|done]; exists (se_session_id s); by rewrite Es, lookup_insert_eq|].
      apply (rg_tokens m Hm) in Hj as [(k & Hk) Ht]. destruct (Hold k j Hk) as [_ ->]. split; [|done]. exists k. rewrite Es, lookup_insert_ne; [done|]. congruence.
    + intros [(k & Hk) Ht]. rewrite Es, lookup_insert_Some in Hk. destruct Hk as [[<- <-]|[Hne Hk]]; [left; split; [congruence|done]|].
      destruct (Hold k j Hk) as [_ Harc]. rewrite Harc in Ht. right. assert (auth_tokens m !! t = Some j) as Htj by (apply (rg_tokens m Hm); eauto).
      split; [|done]. congruence.
  - by rewrite Eac, Et, (rg_actors m Hm).
  - rewrite Hv. apply map_Forall_insert_2; [done|apply (rg_open m Hm)].
  - rewrite Hv. apply map_Forall_insert_2; [done|apply (rg_times m Hm)].
  - rewrite Es, map_size_insert_None by done. lia.
  - intros ch. rewrite Hc, Hv, idle_count_new, (rg_counts m Hm); [done|]. unfold view. by rewrite lookup_fmap, Hid.
Qed.

(** ** The operations *)

Hypothesis Hmax : Z.of_nat (max_sessions config) <= usize_max.

Lemma count_if_bounds b : 0 <= count_if b <= 1.
Proof. by destruct b. Qed.
Lemma idle_one m k i : registered m -> sessions m !! k = Some i -> is_activated (arc m i) = false ->
  1 <= default 0 (unactivated_by_channel m !! se_secure_channel_id (arc m i)) <= usize_max.
Proof.
  intros Hm Hk Ha. rewrite (rg_counts m Hm). set (ch := se_secure_channel_id (arc m i)).
  pose proof (idle_count_delete (view m) k (arc m i) ch (view_some m k i Hk)) as Hd.
  assert (idle ch (arc m i) = true) as Hi by (unfold idle, ch; by rewrite Ha, Z.eqb_refl). rewrite Hi in Hd. cbn in Hd.
  pose proof (idle_count_bounds (base.delete k (view m)) ch). pose proof (idle_count_bounds (view m) ch) as Hb. rewrite view_size in Hb.
  pose proof (rg_size m Hm). lia.
Qed.
Lemma idle_if ch s : is_activated s = false -> idle ch s = (ch =? se_secure_channel_id s).
Proof. intros Ha. unfold idle. by rewrite Ha, Z.eqb_sym. Qed.
Lemma idle_not ch s : is_activated s = true -> idle ch s = false.
Proof. intros Ha. unfold idle. by rewrite Ha. Qed.
Lemma fetch_sub_counts ch m c : 1 <= default 0 (unactivated_by_channel m !! ch) <= usize_max ->
  default 0 (unactivated_by_channel (fetch_sub ch m) !! c) = default 0 (unactivated_by_channel m !! c) - count_if (c =? ch).
Proof.
  intros Hn. unfold fetch_sub. destruct (unactivated_by_channel m !! ch) as [n|] eqn:Hch; cbn in Hn; [|lia]. cbn.
  destruct (Z.eqb_spec c ch) as [->|Hne].
  - rewrite lookup_insert_eq, Hch. cbn. unfold wrap_usize. rewrite Z.mod_small; lia.
  - rewrite lookup_insert_ne by done. cbn. lia.
Qed.
Lemma fetch_add_counts ch m c : 0 <= default 0 (unactivated_by_channel m !! ch) < usize_max ->
  default 0 (unactivated_by_channel (fetch_add ch m) !! c) = default 0 (unactivated_by_channel m !! c) + count_if (c =? ch).
Proof.
  intros Hn. unfold fetch_add. cbn. destruct (Z.eqb_spec c ch) as [->|Hne].
  - rewrite lookup_insert_eq. cbn. unfold wrap_usize. rewrite Z.mod_small; lia.
  - rewrite lookup_insert_ne by done. cbn. lia.
Qed.

(** Heaps are left alone. *)
Definition same_heaps (m m' : SessionManager) : Prop := expiry_heap m' = expiry_heap m /\ unactivated_heap m' = unactivated_heap m.

Lemma fetch_sub_fields ch m : sessions (fetch_sub ch m) = sessions m /\ arcs (fetch_sub ch m) = arcs m /\ auth_tokens (fetch_sub ch m) = auth_tokens m
  /\ actor_senders (fetch_sub ch m) = actor_senders m /\ same_heaps m (fetch_sub ch m).
Proof. unfold fetch_sub. by destruct (_ !! _). Qed.

Lemma expire_registered k m : registered m ->
  registered (expire_session now k m) /\ view (expire_session now k m) = base.delete k (view m) /\ same_heaps m (expire_session now k m).
Proof.
  intros Hm. unfold expire_session. destruct (sessions m !! k) as [i|] eqn:Hk.
  2: { split; [done|]. split; [|done]. rewrite delete_id; [done|]. unfold view. by rewrite lookup_fmap, Hk. }
  set (m1 := set_sessions (base.delete k (sessions m)) m).
  set (m2 := if negb (is_activated (arc m1 i)) then fetch_sub (se_secure_channel_id (arc m1 i)) m1 else m1).
  assert (sessions m2 = base.delete k (sessions m) /\ arcs m2 = arcs m /\ auth_tokens m2 = auth_tokens m /\ actor_senders m2 = actor_senders m
    /\ same_heaps m m2) as (E1 & E2 & E3 & E4 & E5).
  { unfold m2. destruct (negb _); [|done]. destruct (fetch_sub_fields (se_secure_channel_id (arc m1 i)) m1) as (-> & -> & -> & -> & [F1 F2]). done. }
  assert (forall ch, default 0 (unactivated_by_channel m2 !! ch) = default 0 (unactivated_by_channel m !! ch) - count_if (idle ch (arc m i))) as Hc.
  { intros ch. unfold m2. change (arc m1 i) with (arc m i). destruct (is_activated (arc m i)) eqn:Ha; cbn [negb].
    - rewrite idle_not by done. cbn. lia.
    - rewrite fetch_sub_counts by (by apply (idle_one m k)). by rewrite idle_if. }
  match goal with |- registered ?m' /\ _ => assert (registered m' /\ view m' = base.delete k (view m)) as [Hr Hv] end.
  { assert (arc m2 i = arc m i) as Harc by (unfold arc; by rewrite E2).
    apply (registered_remove m _ k i close); try done; cbn; rewrite ?E1, ?E2, ?E3, ?E4; try done; by rewrite ?Harc. }
  split; [done|]. split; [done|]. by destruct E5.
Qed.

Lemma evict_registered k i m : registered m -> sessions m !! k = Some i -> is_activated (arc m i) = false ->
  registered (evict now k m) /\ view (evict now k m) = base.delete k (view m) /\ same_heaps m (evict now k m)
  /\ sessions (evict now k m) = base.delete k (sessions m).
Proof.
  intros Hm Hk Ha. unfold evict. rewrite Hk.
  assert (forall c m1, unactivated_by_channel m1 = unactivated_by_channel m ->
    default 0 (unactivated_by_channel (fetch_sub (se_secure_channel_id (arc m i)) m1) !! c) =
    default 0 (unactivated_by_channel m !! c) - count_if (idle c (arc m i))) as Hc.
  { intros c m1 E. rewrite fetch_sub_counts by (rewrite E; by apply (idle_one m k)). by rewrite E, idle_if. }
  match goal with |- registered (fetch_sub ?c ?m1) /\ _ => change c with (se_secure_channel_id (arc m i)); set (m' := m1) end.
  assert (sessions m' = base.delete k (sessions m) /\ arcs m' = arcs (arc_write i close m)
    /\ auth_tokens m' = base.delete (se_authentication_token (arc m i)) (auth_tokens m)
    /\ actor_senders m' = base.delete (se_authentication_token (arc m i)) (actor_senders m)
    /\ same_heaps m m' /\ unactivated_by_channel m' = unactivated_by_channel m) as (F1 & F2 & F3 & F4 & [F5 F5'] & F6)
    by (unfold m', clear_session_locale_ids_for_node_id; by destruct (identifier k)).
  clearbody m'. destruct (fetch_sub_fields (se_secure_channel_id (arc m i)) m') as (E1 & E2 & E3 & E4 & [E5 E5']).
  destruct (registered_remove m (fetch_sub (se_secure_channel_id (arc m i)) m') k i close) as [Hr Hv]; try done; try congruence.
  - intros c. by apply Hc.
  - split; [done|]. split; [done|]. split; [split; congruence|congruence].
Qed.

Section heaps.
Context {MH : MinHeap}.

Lemma pop_spec {A} (key : A -> Z) l : match heap_pop key l with
  | None => l = []
  | Some (x, l') => l ≡ₚ x :: l' /\ Forall (fun y => key x <= key y) l'
  end.
Proof.
  destruct l as [|x l]; [by rewrite heap_pop_nil|]. destruct (heap_pop_cons A key x l) as (y & l' & -> & Hp & Hmin). done.
Qed.

Lemma unactivated_popped e h h' m : h ≡ₚ e :: h' -> unactivated_covered h (view m) ->
  (forall s, view m !! un_session_id e = Some s -> is_activated s = true) -> unactivated_covered h' (view m).
Proof.
  intros Hp Hc He k s Hk Ha. destruct (Hc k s Hk Ha) as (e' & Hin & Hid & Hcr). rewrite Hp in Hin. apply elem_of_cons in Hin as [->|Hin]; [|by exists e'].
  rewrite Hid in He. specialize (He s Hk). congruence.
Qed.

Lemma eviction_candidate_spec m fuel : forall heap, (length heap <= fuel)%nat -> unactivated_covered heap (view m) ->
  exists heap' r, eviction_candidate (fun _ => false) fuel m heap = Ret (heap', r) /\
    match r with
    | None => map_Forall (fun _ s => is_activated s = true) (view m)
    | Some id => exists i, sessions m !! id = Some i /\ is_activated (arc m i) = false /\ unactivated_covered heap' (base.delete id (view m))
    end.
Proof.
  induction fuel as [|fuel IH]; intros heap Hf Hc; cbn [eviction_candidate]; pose proof (pop_spec un_created_at heap) as Hpop;
    destruct (heap_pop un_created_at heap) as [[e h]|].
  - destruct Hpop as [Hp _]. apply Permutation_length in Hp. cbn in Hp. lia.
  - subst. exists [], None. split; [done|]. intros k s Hk. destruct (is_activated s) eqn:Ha; [done|].
    destruct (Hc k s Hk Ha) as (e & He & _). by apply elem_of_nil in He.
  - destruct Hpop as [Hp _]. pose proof (Permutation_length Hp) as Hlen. cbn in Hlen.
    destruct (sessions m !! un_session_id e) as [i|] eqn:Hi.
    + destruct (is_activated (arc m i)) eqn:Ha.
      * apply IH; [lia|]. eapply unactivated_popped; [exact Hp|done|]. intros s Hs. apply view_lookup in Hs as (j & Hj & <-). congruence.
      * exists h, (Some (un_session_id e)). split; [done|]. exists i. split; [done|]. split; [done|].
        intros k s Hk Hsa. apply lookup_delete_Some in Hk as [Hne Hk]. destruct (Hc k s Hk Hsa) as (e' & Hin & Hid & Hcr).
        rewrite Hp in Hin. apply elem_of_cons in Hin as [->|Hin]; [done|by exists e'].
    + apply IH; [lia|]. eapply unactivated_popped; [exact Hp|done|]. intros s Hs. apply view_lookup in Hs as (j & Hj & _). congruence.
  - subst. exists [], None. split; [done|]. intros k s Hk. destruct (is_activated s) eqn:Ha; [done|].
    destruct (Hc k s Hk Ha) as (e & He & _). by apply elem_of_nil in He.
Qed.
End heaps.

(** *** CreateSession *)

Record draft_ok (d : CreateSessionDraft) (m : SessionManager) : Prop := {
  do_channel : se_secure_channel_id (dr_session d) = dr_secure_channel_id d;
  do_token : se_authentication_token (dr_session d) = dr_authentication_token d;
  do_user : se_user_token (dr_session d) = None;
  do_open : se_is_closed (dr_session d) = false;
  do_timely : timely (dr_session d);
  do_fresh_id : sessions m !! se_session_id (dr_session d) = None;
  do_fresh_token : auth_tokens m !! dr_authentication_token d = None
}.

Lemma expiry_covered_sub h h' v v' : (forall e, e ∈ h -> e ∈ h') -> v' ⊆ v -> expiry_covered h v -> expiry_covered h' v'.
Proof.
  intros Hh Hv Hc k s Hk. destruct (Hc k s) as (e & He & ?); [by eapply lookup_weaken|]. exists e. auto.
Qed.
Lemma unactivated_covered_sub h h' v v' : (forall e, e ∈ h -> e ∈ h') -> v' ⊆ v -> unactivated_covered h v -> unactivated_covered h' v'.
Proof.
  intros Hh Hv Hc k s Hk Ha. destruct (Hc k s) as (e & He & ?); [by eapply lookup_weaken|done|]. exists e. auto.
Qed.

Lemma publish_inv d m : manager_inv m -> draft_ok d m -> (size (sessions m) < max_sessions config)%nat ->
  manager_inv (publish_session config d m) /\ view (publish_session config d m) = <[se_session_id (dr_session d) := dr_session d]> (view m).
Proof.
  intros [Hm He Hu] [Hch Htok Huser Hopen Htime Hid Hft] Hsize.
  assert (is_activated (dr_session d) = false) as Ha by (unfold is_activated; by rewrite Huser).
  assert (registered (publish_session config d m) /\ view (publish_session config d m) = <[se_session_id (dr_session d) := dr_session d]> (view m)) as [Hr Hv].
  { assert (registered m) as Hm' by done. unfold publish_session. rewrite Ha. cbn [negb].
    apply (registered_add m); try done; try (by rewrite Htok); try (cbn; by rewrite Htok).
    intros c. cbn. assert (idle c (dr_session d) = (c =? dr_secure_channel_id d)) as -> by (by rewrite idle_if, Hch).
    rewrite <- fetch_add_counts; [done|]. rewrite (rg_counts m Hm). pose proof (idle_count_bounds (view m) (dr_secure_channel_id d)) as Hb.
    rewrite view_size in Hb. lia. }
  split; [|done]. split; [done| |].
  - rewrite Hv. unfold publish_session. rewrite Ha. cbn [negb]. cbn [expiry_heap set_actor_senders set_expiry_heap sm_update].
    apply map_Forall_insert_2.
    + eexists. split; [by left|]. split; [done|]. unfold effective_deadline. rewrite Ha. cbn. lia.
    + eapply expiry_covered_sub; [|done|exact He]. intros e Hin. by right.
  - rewrite Hv. unfold publish_session. rewrite Ha. cbn [negb]. cbn [unactivated_heap set_actor_senders set_expiry_heap set_unactivated_heap sm_update].
    apply map_Forall_insert_2.
    + intros _. eexists. split; [by left|]. done.
    + eapply unactivated_covered_sub; [|done|exact Hu]. intros e Hin. by right.
Qed.

(** Room for one more session: there is some, or a session that is not activated goes. *)
Definition room_made (v v' : gmap NodeId Session) : Prop :=
  (size v < max_sessions config)%nat /\ v' = v
  \/ (max_sessions config <= size v)%nat /\ exists k s, v !! k = Some s /\ is_activated s = false /\ v' = base.delete k v.

Context {MH : MinHeap}.

Lemma evicted_inv d k i m h : manager_inv m -> draft_ok d m -> sessions m !! k = Some i -> is_activated (arc m i) = false ->
  unactivated_covered h (base.delete k (view m)) ->
  let m1 := evict now k (set_unactivated_heap h m) in
  manager_inv m1 /\ draft_ok d m1 /\ view m1 = base.delete k (view m) /\ (size (sessions m1) < max_sessions config)%nat.
Proof.
  intros Hm Hd Hk Ha Hcov. assert (registered (set_unactivated_heap h m)) as Hreg by (destruct (mi_registered m Hm); by split).
  destruct (evict_registered k i (set_unactivated_heap h m) Hreg Hk Ha) as (Hr1 & Hv1 & [Hh1 Hh2] & Hs1).
  set (m1 := evict now k (set_unactivated_heap h m)) in *. change (view (set_unactivated_heap h m)) with (view m) in Hv1.
  change (sessions (set_unactivated_heap h m)) with (sessions m) in Hs1. cbn zeta. split; [|split; [|split; [done|]]].
  - split; [done| |]; rewrite Hv1.
    + rewrite Hh1. eapply expiry_covered_sub; [intros e He; exact He|apply delete_subseteq|apply (mi_expiry m Hm)].
    + rewrite Hh2. exact Hcov.
  - destruct Hd. split; try done.
    + rewrite Hs1. by apply lookup_delete_None; right.
    + destruct (auth_tokens m1 !! dr_authentication_token d) as [j|] eqn:Hj; [|done]. exfalso.
      apply (rg_tokens m1 Hr1) in Hj as [(k' & Hk') Ht]. pose proof Hk' as Hk1. rewrite Hs1 in Hk'. apply lookup_delete_Some in Hk' as [Hne Hk'].
      assert (view m1 !! k' = view m !! k') as Heq by (rewrite Hv1; by rewrite lookup_delete_ne).
      rewrite (view_some m1 k' j Hk1), (view_some m k' j Hk') in Heq. injection Heq as Heq. rewrite Heq in Ht.
      assert (auth_tokens m !! dr_authentication_token d = Some j) as Hx by (apply (rg_tokens m (mi_registered m Hm)); eauto). congruence.
  - rewrite Hs1. pose proof (map_size_delete_Some k (sessions m) ltac:(eauto)). pose proof (rg_size m (mi_registered m Hm)).
    assert (size (sessions m) <> 0)%nat by (intros Hz; apply map_size_empty_inv in Hz; rewrite Hz in Hk; done). lia.
Qed.

Lemma commit_outcome d ch m : manager_inv m -> draft_ok d m ->
  exists m' r, commit_create_session_draft config (fun _ => false) now d ch m = Ret (m', r) /\ manager_inv m' /\
    ((max_sessions config <= size (view m))%nat /\ map_Forall (fun _ s => is_activated s = true) (view m)
       /\ view m' = view m /\ r = Err BadTooManySessions
     \/ exists v, room_made (view m) v /\
          if max_unactivated_sessions_per_channel config <=? idle_count v (dr_secure_channel_id d) then view m' = v /\ r = Err BadTooManySessions
          else if negb (ch =? dr_secure_channel_id d) then view m' = v /\ r = Err BadSecureChannelIdInvalid
          else view m' = <[se_session_id (dr_session d) := dr_session d]> v /\ exists x, r = Ok x).
Proof.
  intros Hm Hd. unfold commit_create_session_draft. rewrite <- (view_size m).
  assert (forall m1, manager_inv m1 -> draft_ok d m1 -> (size (sessions m1) < max_sessions config)%nat ->
    exists m' r,
      (let count := default 0 (unactivated_by_channel m1 !! dr_secure_channel_id d) in
       let m2 := set_unactivated_by_channel (<[dr_secure_channel_id d := count]> (unactivated_by_channel m1)) m1 in
       if max_unactivated_sessions_per_channel config <=? count then Ret (m2, Err BadTooManySessions)
       else if negb (ch =? dr_secure_channel_id d) then Ret (m2, Err BadSecureChannelIdInvalid)
       else
         let m3 := publish_session config d m2 in
         let s := dr_session d in
         Ret (m3, Ok (mkCreated (se_session_id s) (dr_authentication_token d) (dr_session_timeout d) (se_session_nonce s)
                        (se_max_request_message_size s), refresh_limit ch m3))) = Ret (m', r) /\ manager_inv m' /\
      (if max_unactivated_sessions_per_channel config <=? idle_count (view m1) (dr_secure_channel_id d) then view m' = view m1 /\ r = Err BadTooManySessions
       else if negb (ch =? dr_secure_channel_id d) then view m' = view m1 /\ r = Err BadSecureChannelIdInvalid
       else view m' = <[se_session_id (dr_session d) := dr_session d]> (view m1) /\ exists x, r = Ok x)) as Hrest.
  { intros m1 [H1 H2 H3] Hd1 Hs. cbn zeta. rewrite (rg_counts m1 H1). set (n := idle_count (view m1) (dr_secure_channel_id d)).
    set (m2 := set_unactivated_by_channel _ m1). assert (manager_inv m2) as Hm2.
    { split; [|done|done]. destruct H1 as [R1 R2 R3 R4 R5 R6 R7]. split; try done. intros c. cbn.
      destruct (decide (c = dr_secure_channel_id d)) as [->|Hne]; [by rewrite lookup_insert_eq|by rewrite lookup_insert_ne]. }
    assert (draft_ok d m2) as Hd2 by (destruct Hd1; by split).
    destruct (_ <=? n); [by eexists _, _|]. destruct (negb _); [by eexists _, _|].
    destruct (publish_inv d m2 Hm2 Hd2 Hs) as [Hp1 Hp2]. eexists _, _. split; [done|]. split; [done|]. split; [done|by eexists]. }
  destruct (Nat.leb_spec (max_sessions config) (size (view m))) as [Hfull|Hroom].
  - destruct (eviction_candidate_spec m (length (unactivated_heap m)) (unactivated_heap m)) as (h & r & -> & Hr);
      [done|by apply mi_unactivated|]. cbn [outcome_bind]. destruct r as [k|]; cbn [negb outcome_bind].
    + destruct Hr as (i & Hk & Ha & Hcov). destruct (evicted_inv d k i m h Hm Hd Hk Ha Hcov) as (Hm1 & Hd1 & Hv1 & Hs1).
      destruct (Hrest _ Hm1 Hd1 Hs1) as (m' & r & He & Hm' & Hcase). exists m', r. split; [exact He|]. split; [done|]. right.
      eexists. split; [|exact Hcase]. right. split; [done|]. exists k, (arc m i). split; [by apply view_some|]. done.
    + eexists _, _. split; [done|]. split; [|by left]. split; [destruct (mi_registered m Hm); by split|apply (mi_expiry m Hm)|].
      intros k s Hk Ha. cbn in Hk. change (view (set_unactivated_heap h m)) with (view m) in Hk. specialize (Hr k s Hk). cbn in Hr. congruence.
  - cbn [negb outcome_bind]. destruct (Hrest m Hm Hd ltac:(by rewrite <- view_size)) as (m' & r & He & Hm' & Hcase). exists m', r. split; [exact He|].
    split; [done|]. right. exists (view m). split; [by left|done].
Qed.

(** *** Expiry *)

(** An open session that another task has locked. *)
Definition held (locked : nat -> bool) (m : SessionManager) (k : NodeId) : Prop :=
  exists i, sessions m !! k = Some i /\ locked i = true.

(** Sessions that are found by the heap, that expire, or that are passed over. *)
Definition covered_but (skipped : NodeId -> Prop) (expired : list NodeId) (h : list SessionExpiryEntry) (v : gmap NodeId Session) : Prop :=
  map_Forall (fun k s => skipped k \/ k ∈ expired \/ exists e, e ∈ h /\ ex_session_id e = k /\ ex_deadline e <= effective_deadline config s) v.
Definition due (v : gmap NodeId Session) (k : NodeId) : Prop := exists s, v !! k = Some s /\ effective_deadline config s <= now.
(** The turns that are left: only entries that are due are taken for good. *)
Definition due_entries (h : list SessionExpiryEntry) : nat := length (List.filter (fun e => ex_deadline e <=? now) h).

Lemma filter_perm {A} (f : A -> bool) l l' : l ≡ₚ l' -> List.filter f l ≡ₚ List.filter f l'.
Proof.
  induction 1 as [|x l l' _ IH|x y l|l1 l2 l3 _ IH1 _ IH2]; cbn; [done| | |by etransitivity].
  - destruct (f x); [by constructor|done].
  - destruct (f x), (f y); try done. apply Permutation_swap.
Qed.
Lemma check_loop_spec locked m fuel : forall h next_expiry expired, registered m -> (due_entries h < fuel)%nat ->
  let due_free k := due (view m) k /\ ~ held locked m k in
  covered_but (held locked m) expired h (view m) -> Forall due_free expired ->
  exists h' n' expired', check_loop config now fuel locked m h next_expiry expired = Ret (h', n', expired')
    /\ covered_but (held locked m) expired' h' (view m) /\ Forall due_free expired' /\ Forall (fun e => n' <= ex_deadline e /\ now < ex_deadline e) h' /\ n' <= next_expiry.
Proof.
  induction fuel as [|fuel IH]; intros h next_expiry expired Hm Hf due_free Hc Hd; [lia|]. cbn [check_loop].
  pose proof (pop_spec ex_deadline h) as Hpop. destruct (heap_pop ex_deadline h) as [[e l]|].
  2: { subst. exists [], next_expiry, expired. split; [done|]. split; [done|]. split; [done|]. split; [constructor|lia]. }
  destruct Hpop as [Hp Hmin]. destruct (Z.ltb_spec now (ex_deadline e)) as [Hlate|Hdue].
  - eexists _, _, _. split; [done|]. split; [|split; [done|split; [|lia]]].
    + intros k s Hk. destruct (Hc k s Hk) as [?|[?|(e' & He' & ?)]]; [by left|by right; left|right; right]. exists e'. by rewrite <- Hp.
    + constructor; [lia|]. eapply Forall_impl; [exact Hmin|]. intros e' He'. cbn in He'. lia.
  - assert (due_entries h = S (due_entries l)) as Hlen.
    { unfold due_entries. rewrite (Permutation_length (filter_perm (fun e => ex_deadline e <=? now) _ _ Hp)). cbn.
      destruct (Z.leb_spec (ex_deadline e) now); [done|lia]. }
    assert (forall expired', expired ⊆ expired' ->
      (held locked m (ex_session_id e) \/ ex_session_id e ∈ expired' \/ sessions m !! ex_session_id e = None) ->
      covered_but (held locked m) expired' l (view m)) as Hdrop.
    { intros expired' Hsub Hor k s Hk. destruct (Hc k s Hk) as [?|[?|(e' & He' & Hid & Hdl)]]; [by left|right; left; by apply Hsub|].
      rewrite Hp in He'. apply elem_of_cons in He' as [->|He']; [|right; right; by exists e']. rewrite Hid in Hor.
      destruct Hor as [?|[?|Hno]]; [by left|by right; left|]. apply view_lookup in Hk as (i & Hk & _). congruence. }
    destruct (sessions m !! ex_session_id e) as [i|] eqn:Hi.
    + destruct (locked i) eqn:Hlock; [apply IH; [done|lia|apply Hdrop; [done|left; by exists i]|done]|].
      destruct (Z.ltb_spec now (effective_deadline config (arc m i))) as [Hl|Hd'].
      * destruct (IH (mkExpiry (effective_deadline config (arc m i)) (ex_session_id e) :: l) (Z.min next_expiry (effective_deadline config (arc m i))) expired Hm)
          as (h' & n' & ex' & H1 & H2 & H3 & H4 & H5); [| |done|].
        -- unfold due_entries in *. cbn. destruct (Z.leb_spec (effective_deadline config (arc m i)) now); [lia|]. cbn in Hlen. lia.
        -- intros k s Hk. destruct (Hc k s Hk) as [?|[?|(e' & He' & Hid & Hdl)]]; [by left|by right; left|right; right]. rewrite Hp in He'.
           apply elem_of_cons in He' as [->|He']; [|exists e'; split; [by right|done]]. eexists. split; [by left|]. split; [done|]. cbn.
           rewrite Hid in Hi. rewrite (view_some m k i Hi) in Hk. injection Hk as ->. lia.
        -- exists h', n', ex'. split; [done|]. split; [done|]. split; [done|]. split; [done|lia].
      * apply IH; [done|lia|apply Hdrop; [set_solver|right; left; set_solver]|]. apply Forall_app. split; [done|]. constructor; [|done].
        split; [|intros (j & Hj & Hlj); congruence]. exists (arc m i). split; [by apply view_some|done].
    + apply IH; [done|lia|apply Hdrop; [done|by right; right]|done].
Qed.

Lemma expire_all l : forall m, registered m -> let m' := fold_left (fun m id => expire_session now id m) l m in
  registered m' /\ same_heaps m m' /\ forall k s, view m' !! k = Some s <-> view m !! k = Some s /\ k ∉ l.
Proof.
  induction l as [|k l IH]; intros m Hm; cbn.
  - split; [done|]. split; [done|]. intros k s. split; [intros H; split; [done|apply not_elem_of_nil]|tauto].
  - destruct (expire_registered k m Hm) as (H1 & H2 & [H3 H4]). destruct (IH _ H1) as (I1 & [I2 I3] & I4). split; [done|]. split; [split; congruence|].
    intros k' s. rewrite I4, H2, lookup_delete_Some, not_elem_of_cons. naive_solver.
Qed.

(** A turn of the expiry: a session that is locked stays. *)
Lemma expiry_turn_outcome locked m : manager_inv m -> exists m' next, expiry_turn config now locked m = Ret (m', next)
  /\ ((forall i, locked i = false) -> manager_inv m')
  /\ (forall k s, view m' !! k = Some s <-> view m !! k = Some s /\ (now < effective_deadline config s \/ held locked m k))
  /\ map_Forall (fun k s => held locked m k \/ next <= effective_deadline config s) (view m').
Proof.
  intros [Hm He Hu]. unfold expiry_turn, check_session_expiry.
  destruct (check_loop_spec locked m (S (length (expiry_heap m))) (expiry_heap m) (now + from_millis (max_session_timeout_ms config)) [] Hm)
    as (h & n & expired & -> & Hc & Hd & Hh & _).
  - unfold due_entries. pose proof (filter_length_le (fun e => ex_deadline e <=? now) (expiry_heap m)). lia.
  - intros k s Hk. right; right. by apply He.
  - constructor.
  - cbn [outcome_bind fst snd]. assert (registered (set_expiry_heap h m)) as Hm1 by (destruct Hm; by split).
    destruct (expire_all expired _ Hm1) as (H1 & [H2 H3] & H4). set (m' := fold_left _ _ _) in *. change (view (set_expiry_heap h m)) with (view m) in H4.
    change (expiry_heap (set_expiry_heap h m)) with h in H2. change (unactivated_heap (set_expiry_heap h m)) with (unactivated_heap m) in H3.
    rewrite Forall_forall in Hh. rewrite Forall_forall in Hd.
    assert (forall k s, view m' !! k = Some s -> held locked m k \/ exists e, e ∈ h /\ ex_session_id e = k
        /\ ex_deadline e <= effective_deadline config s) as Hcov.
    { intros k s Hk. apply H4 in Hk as [Hk Hnot]. destruct (Hc k s Hk) as [?|[?|?]]; [by left|done|by right]. }
    exists m', n. split; [done|]. split; [|split].
    + intros Hfree. split; [done| |].
      * rewrite H2. intros k s Hk. destruct (Hcov k s Hk) as [(i & _ & Hi)|?]; [congruence|done].
      * rewrite H3. intros k s Hk. apply H4 in Hk as [Hk _]. by apply Hu.
    + intros k s. rewrite H4. split; intros [Hk Hx]; (split; [done|]).
      * destruct (Hc k s Hk) as [?|[?|(e & Hin & _ & Hle)]]; [by right|done|]. specialize (Hh e Hin) as [_ Hlt]. left. lia.
      * intros Hin. destruct (Hd k Hin) as [(s' & Hs' & Hle) Hfree]. rewrite Hk in Hs'. injection Hs' as <-. destruct Hx; [lia|done].
    + intros k s Hk. destruct (Hcov k s Hk) as [?|(e & Hin & _ & Hle)]; [by left|right]. specialize (Hh e Hin) as [Hle' _]. lia.
Qed.

(** *** CloseSession *)

Lemma inv_delete m m' k : manager_inv m -> registered m' /\ view m' = base.delete k (view m) -> same_heaps m m' -> manager_inv m'.
Proof.
  intros Hm [Hr Hv] [E1 E2]. split; [done| |]; rewrite Hv.
  - rewrite E1. eapply expiry_covered_sub; [intros e He; exact He|apply delete_subseteq|apply (mi_expiry m Hm)].
  - rewrite E2. eapply unactivated_covered_sub; [intros e He; exact He|apply delete_subseteq|apply (mi_unactivated m Hm)].
Qed.

Lemma token_session m t i : registered m -> auth_tokens m !! t = Some i ->
  sessions m !! se_session_id (arc m i) = Some i /\ se_authentication_token (arc m i) = t /\ view m !! se_session_id (arc m i) = Some (arc m i).
Proof.
  intros Hm Ht. apply (rg_tokens m Hm) in Ht as [(k & Hk) Ht]. destruct (rg_arcs m Hm k i Hk) as [_ ->]. split; [done|]. split; [done|]. by apply view_some.
Qed.

Lemma close_outcome ch t m : manager_inv m -> exists m' r, close_session now ch t m = (m', r) /\ manager_inv m' /\
  match auth_tokens m !! t with
  | None => r = Err BadSessionIdInvalid /\ m' = m
  | Some i =>
      if negb (is_activated (arc m i)) && negb (se_secure_channel_id (arc m i) =? ch) then r = Err BadSecureChannelIdInvalid /\ m' = m
      else (exists l, r = Ok l) /\ view m' = base.delete (se_session_id (arc m i)) (view m) /\ auth_tokens m' !! t = None
  end.
Proof.
  intros Hm. pose proof (mi_registered m Hm) as Hreg. unfold close_session, close_begin, find_by_token, actor_sender.
  destruct (auth_tokens m !! t) as [i|] eqn:Ht; [|by eexists _, _]. destruct (token_session m t i Hreg Ht) as (Hk & Htok & Hvk).
  set (s := arc m i) in *. set (k := se_session_id s) in *. destruct (negb (is_activated s) && negb _); [by eexists _, _|].
  rewrite (rg_actors m Hreg), Htok, Ht. cbn [cl_actor]. unfold close_finish. cbn [cl_was_unactivated cl_channel cl_actor cl_id].
  set (m1 := termination_cleanup now i (actor_close i m)).
  assert (sessions m1 = sessions m /\ arcs m1 = arcs (arc_write i close m) /\ auth_tokens m1 = base.delete t (auth_tokens m)
    /\ actor_senders m1 = base.delete t (actor_senders m) /\ same_heaps m m1 /\ unactivated_by_channel m1 = unactivated_by_channel m) as (F1 & F2 & F3 & F4 & F5 & F6).
  { assert (arc (actor_close i m) i = close s) as Hs. { unfold actor_close. rewrite arc_write_arc by (by apply (rg_arcs m Hreg k)). by rewrite decide_True. }
    unfold m1, termination_cleanup, clear_session_locale_ids_for_node_id. rewrite Hs. cbn [se_authentication_token close se_session_id]. rewrite Htok.
    by destruct (identifier _). }
  set (m2 := if negb (is_activated s) then fetch_sub (se_secure_channel_id s) m1 else m1).
  assert (sessions m2 = sessions m /\ arcs m2 = arcs (arc_write i close m) /\ auth_tokens m2 = base.delete t (auth_tokens m)
    /\ actor_senders m2 = base.delete t (actor_senders m) /\ same_heaps m m2) as (G1 & G2 & G3 & G4 & G5).
  { unfold m2. destruct (negb _); [|done]. destruct (fetch_sub_fields (se_secure_channel_id s) m1) as (-> & -> & -> & -> & [E5 E6]).
    destruct F5. split_and!; try done. split; congruence. }
  assert (forall c, default 0 (unactivated_by_channel m2 !! c) = default 0 (unactivated_by_channel m !! c) - count_if (idle c s)) as Hc.
  { intros c. unfold m2. destruct (is_activated s) eqn:Ha; cbn [negb].
    - rewrite idle_not, F6 by done. cbn. lia.
    - rewrite fetch_sub_counts by (rewrite F6; by apply (idle_one m k)). by rewrite F6, idle_if. }
  assert (se_session_id (arc m2 i) = k) as Hid.
  { unfold arc. rewrite G2. change (se_session_id (arc (arc_write i close m) i) = k). rewrite arc_write_arc by (by apply (rg_arcs m Hreg k)).
    by rewrite decide_True. }
  rewrite Hid. set (m' := clear_session_locale_ids _ (set_sessions _ m2)).
  assert (registered m' /\ view m' = base.delete k (view m)) as [Hr Hv].
  { apply (registered_remove m m' k i close); try done; cbn; fold s; rewrite ?Htok, ?G1; done. }
  eexists _, _. split; [done|]. split; [by apply (inv_delete m m' k)|]. split; [by eexists|]. split; [done|].
  change (auth_tokens m') with (auth_tokens m2). rewrite G3. apply lookup_delete_eq.
Qed.

(** *** Requests *)

Lemma touch_timely s : now < 2 ^ 64 -> timely s -> timely (validate_timed_out now s).1 /\ deadline s <= deadline (validate_timed_out now s).1
  /\ se_last_service_request_nanos (validate_timed_out now s).1 = now - se_created_at s.
Proof.
  intros Hn ((H1 & H2) & (H3 & H4) & H5). unfold validate_timed_out, timely, deadline, wrap64, saturating_sub. cbn -[Z.pow].
  rewrite Z.mod_small by lia. rewrite Z.max_r by lia. lia.
Qed.
Lemma effective_deadline_touch s : now < 2 ^ 64 -> timely s -> effective_deadline config s <= effective_deadline config (validate_timed_out now s).1.
Proof.
  intros Hn Hs. destruct (touch_timely s Hn Hs) as (_ & Hd & _). unfold effective_deadline.
  change (is_activated (validate_timed_out now s).1) with (is_activated s). change (unactivated_deadline config (validate_timed_out now s).1) with (unactivated_deadline config s).
  destruct (negb _); lia.
Qed.

(** A session that a token finds is changed in place. *)
Lemma inv_write m m' k i f : manager_inv m -> sessions m !! k = Some i -> same_identity (arc m i) (f (arc m i)) -> timely (f (arc m i)) ->
  effective_deadline config (arc m i) <= effective_deadline config (f (arc m i)) ->
  (is_activated (f (arc m i)) = false -> is_activated (arc m i) = false /\ se_created_at (f (arc m i)) = se_created_at (arc m i)) ->
  sessions m' = sessions m -> arcs m' = arcs (arc_write i f m) -> auth_tokens m' = auth_tokens m -> actor_senders m' = actor_senders m ->
  (forall ch, default 0 (unactivated_by_channel m' !! ch) =
    default 0 (unactivated_by_channel m !! ch) - count_if (idle ch (arc m i)) + count_if (idle ch (f (arc m i)))) ->
  (forall e, e ∈ expiry_heap m -> e ∈ expiry_heap m') -> unactivated_heap m' = unactivated_heap m ->
  manager_inv m' /\ view m' = <[k := f (arc m i)]> (view m).
Proof.
  intros Hm Hk Hid Ht Hdl Hact E1 E2 E3 E4 Hc Hh Hu. pose proof (view_some m k i Hk) as Hvk.
  destruct (registered_write m m' k i f (mi_registered m Hm)) as [Hr Hv]; try done. split; [|done]. split; [done| |]; rewrite Hv.
  - apply map_Forall_insert_2.
    + destruct (mi_expiry m Hm k _ Hvk) as (e & He & Hek & Hed). exists e. split; [by apply Hh|]. split; [done|lia].
    + eapply expiry_covered_sub; [exact Hh|done|apply (mi_expiry m Hm)].
  - rewrite Hu. apply map_Forall_insert_2; [|apply (mi_unactivated m Hm)]. intros Ha. destruct (Hact Ha) as [Ha' Hcr]. rewrite Hcr.
    by apply (mi_unactivated m Hm k).
Qed.

Lemma touch_inv m k i : now < 2 ^ 64 -> manager_inv m -> sessions m !! k = Some i ->
  manager_inv (arc_write i (fun s => (validate_timed_out now s).1) m)
  /\ view (arc_write i (fun s => (validate_timed_out now s).1) m) = <[k := (validate_timed_out now (arc m i)).1]> (view m).
Proof.
  intros Hn Hm Hk. pose proof (rg_times m (mi_registered m Hm) k _ (view_some m k i Hk)) as Ht. cbn in Ht.
  apply (inv_write m _ k i (fun s => (validate_timed_out now s).1)); try done.
  - by apply touch_timely.
  - by apply effective_deadline_touch.
  - intros c. change (idle c (validate_timed_out now (arc m i)).1) with (idle c (arc m i)). change (unactivated_by_channel (arc_write i _ m)) with (unactivated_by_channel m). lia.
Qed.

(** *** ActivateSession *)

Lemma draw_inv len m : manager_inv m -> manager_inv (draw len m).1.
Proof. intros [[] ? ?]. by split; [split|..]. Qed.

Section activation.
Context {FT : Features} {CL : CryptoLib} {AL : AsymmetricLib} {SI : ServerInfo}.

(** Taking the session as activated. *)
Definition activated_by (channel : SecureChannel) (request : ActivateSessionRequest) (resolver : RoleResolver)
    (authentication : EndpointAuthentication) (nonce : bytes) (s : Session) : Session :=
  activate (secure_channel_id channel) nonce (aq_identity request)
    (match aq_locale_ids request with Some (_ :: _ as l) => Some l | _ => se_locale_ids s end)
    (au_user_token authentication) (au_claims authentication)
    (match resolved_identity_from_activation (aq_identity request) (au_claims authentication)
             (if ua_empty (se_application_uri s) then None else se_application_uri s) (Some (default [] (se_endpoint_url s))) with
     | Ok identity => resolve resolver identity | Err _ => [] end) s.

Lemma commit_activation channel request resolver authentication nonce a m k m' r : manager_inv m -> sessions m !! k = Some (ac_arc a) ->
  ac_endpoint_url a = se_endpoint_url (arc m (ac_arc a)) ->
  ac_previous_secure_channel_id a = se_secure_channel_id (arc m (ac_arc a)) -> ac_was_unactivated a = negb (is_activated (arc m (ac_arc a))) ->
  activate_commit channel request resolver authentication nonce a m = (m', r) ->
  match r with
  | Err _ => m' = m
  | Ok _ =>
      manager_inv (activate_finish channel a m').1 /\
      view (activate_finish channel a m').1 = <[k := activated_by channel request resolver authentication nonce (arc m (ac_arc a))]> (view m)
  end.
Proof.
  intros Hm Hk Hurl Hprev Hwas. pose proof (mi_registered m Hm) as Hreg. set (i := ac_arc a) in *. set (s := arc m i) in *. unfold activate_commit. fold i. fold s.
  destruct (is_cross_channel_transfer_forbidden _ _ _ _); [by intros [= <- <-]|]. destruct (is_client_certificate_channel_mismatch _ _ _); [by intros [= <- <-]|].
  destruct (negb (bool_decide _)); [by intros [= <- <-]|]. rewrite Hurl.
  destruct (resolved_identity_from_activation _ _ _ _) as [identity|e] eqn:Hid; [|by intros [= <- <-]]. intros [= <- <-].
  set (f := activated_by channel request resolver authentication nonce).
  match goal with |- context [activate_finish channel a ?x] => set (m1 := x) end.
  assert (arcs m1 = arcs (arc_write i f m) /\ sessions m1 = sessions m /\ auth_tokens m1 = auth_tokens m /\ actor_senders m1 = actor_senders m
    /\ same_heaps m m1 /\ unactivated_by_channel m1 = unactivated_by_channel m) as (F1 & F2 & F3 & F4 & [F5 F6] & F7).
  { assert (arcs (arc_write i (activate (secure_channel_id channel) nonce (aq_identity request)
        (match aq_locale_ids request with Some (_ :: _ as l) => Some l | _ => se_locale_ids s end)
        (au_user_token authentication) (au_claims authentication) (resolve resolver identity)) m) = arcs (arc_write i f m)) as Ha.
    { unfold arc_write. cbn. apply list_alter_ext; [|done]. intros s' Hs'. assert (s = s') as -> by (unfold s, arc; by apply list_lookup_total_correct).
      unfold f, activated_by. by rewrite Hid. }
    rewrite <- Ha. unfold m1, set_session_locale_ids. by destruct (match aq_locale_ids request with Some (_ :: _ as l) => Some l | _ => se_locale_ids s end) as [[]|]. }
  clearbody m1. destruct (rg_arcs m Hreg k i Hk) as [Hi Hik]. assert (arc m1 i = f s) as Hs1.
  { unfold arc. rewrite F1. change (arc (arc_write i f m) i = f s). rewrite arc_write_arc by done. by rewrite decide_True. }
  assert (is_activated (f s) = true) as Hact.
  { assert (se_is_closed s = false) as Hcl by (apply (rg_open m Hreg k); by apply view_some).
    unfold is_activated, f, activated_by, activate. cbn [se_user_token se_is_closed]. by rewrite Hcl. }
  apply (inv_write m _ k i f); try done.
  - pose proof (rg_times m Hreg k _ (view_some m k i Hk)) as Ht. exact Ht.
  - unfold effective_deadline. fold s. rewrite Hact. change (deadline (f s)) with (deadline s). destruct (negb (is_activated s)); cbn [negb]; lia.
  - fold s. rewrite Hact. done.
  - unfold activate_finish. cbn [fst]. destruct (ac_was_unactivated a); cbn; [|done]. by rewrite (proj1 (fetch_sub_fields _ m1)).
  - unfold activate_finish. cbn [fst]. destruct (ac_was_unactivated a); cbn; [|done].
    destruct (fetch_sub_fields (ac_previous_secure_channel_id a) m1) as (_ & -> & _). done.
  - unfold activate_finish. cbn [fst]. destruct (ac_was_unactivated a); cbn; [|done].
    destruct (fetch_sub_fields (ac_previous_secure_channel_id a) m1) as (_ & _ & -> & _). done.
  - unfold activate_finish. cbn [fst]. destruct (ac_was_unactivated a); cbn; [|done].
    destruct (fetch_sub_fields (ac_previous_secure_channel_id a) m1) as (_ & _ & _ & -> & _). done.
  - intros c. fold s. rewrite (idle_not c (f s)) by done. unfold activate_finish. cbn [fst]. rewrite Hwas. destruct (is_activated s) eqn:Ha; cbn [negb].
    + rewrite F7, idle_not by done. cbn. lia.
    + cbn. rewrite Hprev, fetch_sub_counts, F7, idle_if by (done || (rewrite F7; by apply (idle_one m k))). cbn. lia.
  - intros e He. unfold activate_finish. cbn [fst]. destruct (ac_was_unactivated a); cbn; [|by rewrite F5]. right.
    destruct (fetch_sub_fields (ac_previous_secure_channel_id a) m1) as (_ & _ & _ & _ & [-> _]). by rewrite F5.
  - unfold activate_finish. cbn [fst]. destruct (ac_was_unactivated a); cbn; [|done].
    destruct (fetch_sub_fields (ac_previous_secure_channel_id a) m1) as (_ & _ & _ & _ & [_ ->]). by rewrite F6.
Qed.

Lemma activate_outcome channel request resolver authenticate m m' r : now < 2 ^ 64 -> manager_inv m ->
  activate_session config now channel request resolver authenticate m = Ret (m', r) ->
  manager_inv m' /\
  match r with
  | Err _ => dom (view m') = dom (view m)
  | Ok nonce => exists i authentication, auth_tokens m !! aq_authentication_token request = Some i
      /\ view m' = <[se_session_id (arc m i) := activated_by channel request resolver authentication nonce (validate_timed_out now (arc m i)).1]> (view m)
  end.
Proof.
  intros Hn Hm. unfold activate_session, activate_begin, find_by_token.
  destruct (auth_tokens m !! aq_authentication_token request) as [i|] eqn:Ht; [|by intros [= <- <-]].
  destruct (token_session m _ i (mi_registered m Hm) Ht) as (Hk & Htok & Hvk). set (k := se_session_id (arc m i)) in *.
  set (m1 := arc_write i (fun s => (validate_timed_out now s).1) m).
  assert (arc_write i (fun _ => (validate_timed_out now (arc m i)).1) m = m1) as Hm1.
  { unfold m1, arc_write. f_equal. apply list_alter_ext; [|done]. intros s Hs. unfold arc. by rewrite (list_lookup_total_correct _ _ _ Hs). }
  destruct (touch_inv m k i Hn Hm Hk) as [Hi1 Hv1]. fold m1 in Hi1, Hv1.
  assert (arc m1 i = (validate_timed_out now (arc m i)).1) as Harc1.
  { unfold m1. rewrite arc_write_arc by (by apply (rg_arcs m (mi_registered m Hm) k)). by rewrite decide_True. }
  assert (dom (view m1) = dom (view m)) as Hdom.
  { rewrite Hv1, dom_insert_lookup_L; [done|by rewrite Hvk]. }
  destruct (validate_timed_out now (arc m i)) as [s ok] eqn:Hvt. cbn [fst] in *. rewrite Hm1.
  destruct (let? _ := ok in _) as [a|e] eqn:Ha; [|by intros [= <- <-]].
  assert (ac_arc a = i /\ ac_endpoint_url a = se_endpoint_url s /\ ac_previous_secure_channel_id a = se_secure_channel_id s
    /\ ac_was_unactivated a = negb (is_activated s)) as (A1 & A2 & A3 & A4).
  { destruct ok; [|done]. cbn in Ha. destruct (activate_checks _ _ _); [|done]. by injection Ha as <-. }
  clear Ha. destruct (random_nonce_length config channel) as [len| |]; [|done|done]. cbn [outcome_bind].
  pose proof (draw_inv len m1 Hi1) as Hi2. destruct (draw len m1) as [m2 nonce] eqn:Hdraw. cbn [fst] in Hi2.
  assert (view m2 = view m1 /\ arc m2 i = s /\ sessions m2 = sessions m) as (V2 & S2 & E2).
  { unfold draw in Hdraw. injection Hdraw as <- <-. split; [done|]. split; [exact Harc1|done]. }
  destruct (activate_verify _ a); [|intros [= <- <-]; split; [done|by rewrite V2]].
  destruct (authenticate _ _ _ _ _) as [authentication|e]; [|intros [= <- <-]; split; [done|by rewrite V2]].
  destruct (activate_commit channel request resolver authentication nonce a m2) as [m3 res] eqn:Hc.
  pose proof (commit_activation channel request resolver authentication nonce a m2 k m3 res Hi2) as Hcommit.
  rewrite A1, S2, E2 in Hcommit. specialize (Hcommit Hk A2 A3 A4 Hc). destruct res as [[]|e].
  - intros [= <- <-]. destruct Hcommit as [H1 H2]. split; [done|]. exists i, authentication. split; [done|]. etransitivity; [exact H2|].
    rewrite V2, Hv1, insert_insert_eq, Hvt. done.
  - intros [= <- <-]. rewrite Hcommit. split; [done|by rewrite V2].
Qed.
End activation.

End invariant.

(** ** Runs *)

Section runs.
Context {MH : MinHeap} {FT : Features} {CL : CryptoLib} {AL : AsymmetricLib} {SI : ServerInfo}.
Variable config : SessionConfig.

(** What happens to a manager, one thing after the other, with the time. *)
Inductive run : Z -> SessionManager -> Prop :=
| run_start now m : 0 <= now < 2 ^ 64 -> sessions m = ∅ -> auth_tokens m = ∅ -> actor_senders m = ∅ -> unactivated_by_channel m = ∅ -> run now m
| run_wait now now' m : run now m -> now <= now' < 2 ^ 64 -> run now' m
| run_prepare now policy mode channel request m m' r : run now m ->
    prepare_endpoint_preflight config now policy mode channel request m = Ret (m', r) -> run now m'
| run_commit now d channel m m' r : run now m -> draft_ok now d m ->
    commit_create_session_draft config (fun _ => false) now d channel m = Ret (m', r) -> run now m'
| run_activate now channel request resolver authenticate m m' r : run now m ->
    activate_session config now channel request resolver authenticate m = Ret (m', r) -> run now m'
| run_request now token i m : run now m -> find_by_token token m = Some i -> run now (arc_write i (fun s => (validate_timed_out now s).1) m)
| run_close now channel token m m' r : run now m -> close_session now channel token m = (m', r) -> run now m'
| run_expiry now m m' next : run now m -> expiry_turn config now (fun _ => false) m = Ret (m', next) -> run now m'.

Lemma manager_inv_later now now' m : now <= now' -> manager_inv config now m -> manager_inv config now' m.
Proof.
  intros Hle [[H1 H2 H3 H4 H5 H6 H7] He Hu]. split; [split|..]; try done. eapply map_Forall_impl; [exact H5|].
  intros k s ((? & ?) & (? & ?) & ?). unfold timely. lia.
Qed.
Lemma run_time now m : run now m -> 0 <= now < 2 ^ 64.
Proof. induction 1; lia. Qed.

(** Preparing a session takes an identifier and random strings. *)
Definition same_sessions (m m' : SessionManager) : Prop :=
  arcs m' = arcs m /\ sessions m' = sessions m /\ auth_tokens m' = auth_tokens m /\ actor_senders m' = actor_senders m
  /\ unactivated_by_channel m' = unactivated_by_channel m /\ same_heaps m m'.
Lemma inv_same_sessions now m m' : same_sessions m m' -> manager_inv config now m -> manager_inv config now m'.
Proof.
  intros (E1 & E2 & E3 & E4 & E5 & E6 & E7) [[H1 H2 H3 H4 H5 H6 H7] He Hu].
  assert (forall i, arc m' i = arc m i) as Ha by (intros i; unfold arc; by rewrite E1).
  assert (view m' = view m) as Hv by (unfold view; rewrite E2; apply map_fmap_ext; intros; apply Ha).
  split; [split|..]; rewrite ?Hv, ?E1, ?E2, ?E3, ?E4, ?E5, ?E6, ?E7; try done.
  - intros k i. rewrite Ha. apply H1.
  - intros t i. rewrite Ha. apply H2.
Qed.
Lemma prepare_same now policy mode channel request m m' r :
  prepare_endpoint_preflight config now policy mode channel request m = Ret (m', r) -> same_sessions m m'.
Proof.
  unfold prepare_endpoint_preflight. destruct (let? _ := select_endpoint request in _) as [cert|e]; [|by intros [= <- <-]].
  unfold prepare_session. destruct (negb _); [by intros [= <- <-]|]. unfold draw, take_session_id. cbn.
  destruct (to_uri policy); [|done|done]. cbn. by intros [= <- <-].
Qed.

Lemma run_inv now m : Z.of_nat (max_sessions config) <= usize_max -> run now m -> manager_inv config now m.
Proof.
  intros Hmax Hrun. induction Hrun as [now m Hn E1 E2 E3 E4|now now' m Hr IH Hle|now policy mode channel request m m' r Hr IH He
    |now d channel m m' r Hr IH Hd He|now channel request resolver authenticate m m' r Hr IH He|now token i m Hr IH Ht
    |now channel token m m' r Hr IH He|now m m' next Hr IH He].
  - assert (view m = ∅) as Hv by (unfold view; rewrite E1; apply fmap_empty). split; [split|..]; rewrite ?Hv, ?E1, ?E2, ?E3, ?E4; try done.
    + intros t i. rewrite lookup_empty. split; [done|intros [(k & Hk) _]]. by rewrite lookup_empty in Hk.
    + rewrite map_size_empty. lia.
  - apply (manager_inv_later now); [lia|done].
  - eapply inv_same_sessions; [by eapply prepare_same|done].
  - destruct (commit_outcome config now Hmax d channel m IH Hd) as (m1 & r1 & He1 & Hi & _). congruence.
  - apply run_time in Hr. by destruct (activate_outcome config now Hmax channel request resolver authenticate m m' r ltac:(lia) IH He).
  - apply run_time in Hr. destruct (token_session config now m token i (mi_registered config now m IH) Ht) as (Hk & _ & _).
    by destruct (touch_inv config now m _ i ltac:(lia) IH Hk).
  - destruct (close_outcome config now Hmax channel token m IH) as (m1 & r1 & He1 & Hi & _). congruence.
  - destruct (expiry_turn_outcome config now Hmax (fun _ => false) m IH) as (m1 & n & He1 & Hi & _). rewrite He in He1.
    injection He1 as <- <-. by apply Hi.
Qed.

(** C32: one after the other, preparing, creating, activating, using, closing and expiring sessions
    keeps the manager's books: each session is known under its identifier and found by its token and
    no other, every token that finds something finds an open session, there are never more sessions
    than the limit, the counter of each channel is the number of its sessions that are not
    activated, and the heaps have an entry for every session no later than it expires. The
    identifiers and tokens of new sessions are fresh, and no session is locked meanwhile. *)
Theorem sessions_accounted now m : Z.of_nat (max_sessions config) <= usize_max -> run now m -> manager_inv config now m.
Proof. exact (run_inv now m). Qed.

(** C33: after any run in which things happened one after the other (so that no earlier pass found a
    session locked), a pass of the session expiry returns and removes exactly the sessions whose deadline
    has passed (the earlier one of a session that was never activated) and that no other task holds
    locked at that time; of a session that is not locked it asks to be woken no later than it expires.
    A locked session stays, and its entry may be gone from the heap with nothing to look at it again. *)
Theorem expiry_removes_due locked now m : Z.of_nat (max_sessions config) <= usize_max -> run now m ->
  exists m' next, expiry_turn config now locked m = Ret (m', next)
    /\ (forall k s, view m' !! k = Some s <-> view m !! k = Some s /\ (now < effective_deadline config s \/ held locked m k))
    /\ map_Forall (fun k s => held locked m k \/ next <= effective_deadline config s) (view m').
Proof.
  intros Hmax Hrun. destruct (expiry_turn_outcome config now Hmax locked m (run_inv now m Hmax Hrun)) as (m' & next & He & _ & Hv & Hn).
  by exists m', next.
Qed.

(** Creating a session with fresh identifiers always returns.  It is refused for the number of sessions
    only when all of them are activated and there are as many as allowed, or when the channel of the
    request has as many sessions that are not activated as allowed; otherwise the session is
    published, and at most one other session goes: one that is not activated, in a full server. *)
Theorem create_session_outcome now d channel m : Z.of_nat (max_sessions config) <= usize_max -> run now m -> draft_ok now d m ->
  exists m' r, commit_create_session_draft config (fun _ => false) now d channel m = Ret (m', r) /\
    ((max_sessions config <= size (view m))%nat /\ map_Forall (fun _ s => is_activated s = true) (view m)
       /\ view m' = view m /\ r = Err BadTooManySessions
     \/ exists v, room_made config (view m) v /\
          if max_unactivated_sessions_per_channel config <=? idle_count v (dr_secure_channel_id d) then view m' = v /\ r = Err BadTooManySessions
          else if negb (channel =? dr_secure_channel_id d) then view m' = v /\ r = Err BadSecureChannelIdInvalid
          else view m' = <[se_session_id (dr_session d) := dr_session d]> v /\ exists x, r = Ok x).
Proof.
  intros Hmax Hrun Hd. destruct (commit_outcome config now Hmax d channel m (run_inv now m Hmax Hrun) Hd) as (m' & r & He & _ & Hcase).
  by exists m', r.
Qed.
End runs.
End view.

(** ** A run *)

Lemma empty_run : run config 5 empty_manager.
Proof. by apply run_start. Qed.
Lemma prepared_run : run config 5 (prepared 5 empty_manager).1.
Proof. eapply (run_prepare config 5 Basic256Sha256 ModeSignAndEncrypt 7 create_request empty_manager); [exact empty_run|vm_compute; reflexivity]. Qed.
Lemma prepared_ok : draft_ok 5 (prepared 5 empty_manager).2 (prepared 5 empty_manager).1.
Proof. split; try (vm_compute; reflexivity). vm_compute. repeat split; discriminate. Qed.
Lemma one_session_run : run config 5 one_session.
Proof.
  eapply (run_commit config 5 (prepared 5 empty_manager).2 7 (prepared 5 empty_manager).1); [exact prepared_run|exact prepared_ok|vm_compute; reflexivity].
Qed.
Definition activated_session : SessionManager :=
  match activate_session config 6 server_channel first_request resolver_default authenticate one_session with Ret (m, _) => m | _ => empty_manager end.
Lemma activated_run : run config 6 activated_session.
Proof.
  eapply (run_activate config 6 server_channel first_request resolver_default authenticate one_session); [|vm_compute; reflexivity].
  eapply run_wait; [exact one_session_run|vm_compute; split; [discriminate|reflexivity]].
Qed.

Lemma sessions_accounted_witness : Z.of_nat (max_sessions config) <= usize_max /\ size (sessions activated_session) = 1%nat
  /\ manager_inv config 6 activated_session.
Proof.
  split; [vm_compute; discriminate|]. split; [vm_compute; reflexivity|]. apply (sessions_accounted config 6 activated_session); [vm_compute; discriminate|exact activated_run].
Defined.
Lemma expiry_removes_due_witness : exists m' next, expiry_turn config 20000000000 (fun i => (i =? 7)%nat) one_session = Ret (m', next)
  /\ (forall k s, view m' !! k = Some s <-> view one_session !! k = Some s
        /\ (20000000000 < effective_deadline config s \/ held (fun i => (i =? 7)%nat) one_session k))
  /\ map_Forall (fun k s => held (fun i => (i =? 7)%nat) one_session k \/ next <= effective_deadline config s) (view m').
Proof.
  apply (expiry_removes_due config (fun i => (i =? 7)%nat) 20000000000 one_session); [vm_compute; discriminate|].
  eapply run_wait; [exact one_session_run|vm_compute; split; [discriminate|reflexivity]].
Defined.
Lemma create_session_outcome_witness : let m := (prepared 5 empty_manager).1 in let d := (prepared 5 empty_manager).2 in
  exists m' r, commit_create_session_draft config (fun _ => false) 5 d 7 m = Ret (m', r) /\
    ((max_sessions config <= size (view m))%nat /\ map_Forall (fun _ s => is_activated s = true) (view m)
       /\ view m' = view m /\ r = Err BadTooManySessions
     \/ exists v, room_made config (view m) v /\
          if max_unactivated_sessions_per_channel config <=? idle_count v (dr_secure_channel_id d) then view m' = v /\ r = Err BadTooManySessions
          else if negb (7 =? dr_secure_channel_id d) then view m' = v /\ r = Err BadSecureChannelIdInvalid
          else view m' = <[se_session_id (dr_session d) := dr_session d]> v /\ exists x, r = Ok x).
Proof.
  cbv zeta. apply (create_session_outcome config 5 (prepared 5 empty_manager).2 7 (prepared 5 empty_manager).1);
    [vm_compute; discriminate|exact prepared_run|exact prepared_ok].
Defined.
