(* ===== verification/SessionSecurity.v ===== *)
(** * The security of activation

    Activations, closings, evictions and expiries of many connections interleave at every point where
    the code gives up its locks.  In every such run the user, the roles and the channel of a session
    change only by an activation whose checks held for the session as it was. *)

From S2P Require Import Prelude Text StatusCode Float NumericRange Variant Wire Crypto Chunk SecureChannel AsymmetricSecurity References TypeTree Nodes Rbac Roles ConcreteChannel SessionManager SessionConcrete.
#[local] Open Scope Z_scope.

Section security.
Context {FT : Features} {CL : CryptoLib} {PK : Pki} {AL : AsymmetricLib} {SI : ServerInfo} {MH : MinHeap}.
Variables (config : SessionConfig) (resolver : RoleResolver).
(** The check of the user token: the endpoint, its security, the token and the nonce it was made for. *)
Variable authenticate : UAString -> SecurityPolicy -> MessageSecurityMode -> IdentityToken -> bytes -> result EndpointAuthentication StatusCode.
(** The random strings of a run: nonces are long enough that no two of those that are drawn are the same. *)
Variables (random : nat -> Z -> bytes) (draws : nat).
Hypothesis Hlength : 16 <= session_nonce_length config.
Hypothesis Hrandom : forall n n' len len', (n < draws)%nat -> (n' < draws)%nat -> 16 <= len -> 16 <= len' -> random n len = random n' len' -> n = n'.

(** ** Interleavings *)

(** An activation in flight, with the nonce that was drawn for it and how far it got. *)
Inductive Stage : Type := Begun | Verified | Authenticated (a : EndpointAuthentication).
Record Pending := mkPending {
  pe_channel : SecureChannel; pe_request : ActivateSessionRequest; pe_activation : Activation; pe_nonce : bytes; pe_stage : Stage
}.
Record System := mkSystem {
  sy_manager : SessionManager;
  sy_drafts : list CreateSessionDraft;
  sy_pending : list Pending;
  (** Activations whose counters are still to be settled, and closings. *)
  sy_committed : list (SecureChannel * Activation);
  sy_closings : list Closing
}.
Definition with_manager (m : SessionManager) (S : System) : System := mkSystem m (sy_drafts S) (sy_pending S) (sy_committed S) (sy_closings S).
Definition with_stage (st : Stage) (p : Pending) : Pending := mkPending (pe_channel p) (pe_request p) (pe_activation p) (pe_nonce p) st.

(** One critical section, or one wait that ends. *)
Inductive step : System -> System -> Prop :=
| step_prepare S now policy mode channel request m' r :
    prepare_endpoint_preflight config now policy mode channel request (sy_manager S) = Ret (m', r) ->
    step S (mkSystem m' (match r with Ok d => d :: sy_drafts S | Err _ => sy_drafts S end) (sy_pending S) (sy_committed S) (sy_closings S))
| step_create S now locked d drafts channel m' r :
    sy_drafts S ≡ₚ d :: drafts -> commit_create_session_draft config locked now d channel (sy_manager S) = Ret (m', r) ->
    step S (mkSystem m' drafts (sy_pending S) (sy_committed S) (sy_closings S))
| step_request S now token i : find_by_token token (sy_manager S) = Some i ->
    step S (with_manager (arc_write i (fun s => (validate_timed_out now s).1) (sy_manager S)) S)
| step_begin S now channel request m' a len :
    activate_begin now channel request (sy_manager S) = (m', Ok a) -> random_nonce_length config channel = Ret len ->
    step S (mkSystem (draw len m').1 (sy_drafts S) (mkPending channel request a (draw len m').2 Begun :: sy_pending S) (sy_committed S) (sy_closings S))
| step_begin_refused S now channel request m' e : activate_begin now channel request (sy_manager S) = (m', Err e) -> step S (with_manager m' S)
| step_verify S p pending : sy_pending S ≡ₚ p :: pending -> pe_stage p = Begun -> activate_verify (pe_channel p) (pe_activation p) = Ok tt ->
    step S (mkSystem (sy_manager S) (sy_drafts S) (with_stage Verified p :: pending) (sy_committed S) (sy_closings S))
| step_authenticate S p pending a : sy_pending S ≡ₚ p :: pending -> pe_stage p = Verified ->
    authenticate (ac_endpoint_url (pe_activation p)) (security_policy (pe_channel p)) (SecureChannel.security_mode (pe_channel p))
      (aq_identity (pe_request p)) (ac_session_nonce (pe_activation p)) = Ok a ->
    step S (mkSystem (sy_manager S) (sy_drafts S) (with_stage (Authenticated a) p :: pending) (sy_committed S) (sy_closings S))
| step_refused S p pending : sy_pending S ≡ₚ p :: pending ->
    step S (mkSystem (sy_manager S) (sy_drafts S) pending (sy_committed S) (sy_closings S))
| step_commit S p pending a m' r : sy_pending S ≡ₚ p :: pending -> pe_stage p = Authenticated a ->
    activate_commit (pe_channel p) (pe_request p) resolver a (pe_nonce p) (pe_activation p) (sy_manager S) = (m', r) ->
    step S (mkSystem m' (sy_drafts S) pending
              (match r with Ok _ => (pe_channel p, pe_activation p) :: sy_committed S | Err _ => sy_committed S end) (sy_closings S))
| step_finish S channel a committed : sy_committed S ≡ₚ (channel, a) :: committed ->
    step S (mkSystem (activate_finish channel a (sy_manager S)).1 (sy_drafts S) (sy_pending S) committed (sy_closings S))
| step_close_begin S channel token c : close_begin channel token (sy_manager S) = Ok c ->
    step S (mkSystem (sy_manager S) (sy_drafts S) (sy_pending S) (sy_committed S) (c :: sy_closings S))
| step_actor_close S i : step S (with_manager (actor_close i (sy_manager S)) S)
| step_cleanup S now i : step S (with_manager (termination_cleanup now i (sy_manager S)) S)
| step_close_finish S channel c closings : sy_closings S ≡ₚ c :: closings ->
    step S (mkSystem (close_finish channel c (sy_manager S)).1 (sy_drafts S) (sy_pending S) (sy_committed S) closings)
| step_check S now locked m' x : check_session_expiry config now locked (sy_manager S) = Ret (m', x) -> step S (with_manager m' S)
| step_expire S now id : step S (with_manager (expire_session now id (sy_manager S)) S).

Inductive reachable : System -> Prop :=
| reach_start S : arcs (sy_manager S) = [] -> auth_tokens (sy_manager S) = ∅ -> random_bytes (sy_manager S) = random -> sy_drafts S = [] -> sy_pending S = [] -> reachable S
| reach_step S S' : reachable S -> step S S' -> reachable S'.

(** ** What is kept of a session *)

Definition binding (s : Session) := (se_secure_channel_id s, se_session_nonce s, se_user_token s, se_roles s, se_user_identity s, se_claims s).
Definition fixed (s : Session) :=
  (se_client_certificate s, se_message_security_mode s, se_security_policy_uri s, se_endpoint_url s, se_application_uri s, se_authentication_token s).
Definition kept (s s' : Session) : Prop := binding s' = binding s /\ fixed s' = fixed s.
Definition arcs_kept (l l' : list Session) : Prop := Forall2 kept l l'.

Lemma arcs_kept_refl l : arcs_kept l l.
Proof. apply Forall2_same_length_lookup_2; [done|]. intros i x y Hx Hy. rewrite Hx in Hy. by injection Hy as ->. Qed.
Lemma arcs_kept_write i f l : (forall s, kept s (f s)) -> arcs_kept l (alter f i l).
Proof.
  intros Hf. apply Forall2_same_length_lookup_2; [by rewrite length_alter|]. intros j x y Hx Hy. destruct (decide (j = i)) as [->|Hne].
  - rewrite list_lookup_alter_eq, Hx in Hy. by injection Hy as <-.
  - rewrite list_lookup_alter_ne, Hx in Hy by done. by injection Hy as <-.
Qed.
Lemma arcs_kept_trans l1 l2 l3 : arcs_kept l1 l2 -> arcs_kept l2 l3 -> arcs_kept l1 l3.
Proof.
  unfold arcs_kept. intros H1 H2. revert l3 H2. induction H1 as [|x y l l' [? ?] _ IH]; intros l3 H2; inversion H2 as [|? z ? ? [? ?] ?]; subst; constructor.
  - split; congruence.
  - by apply IH.
Qed.

Lemma fetch_sub_arcs ch m : arcs (fetch_sub ch m) = arcs m /\ random_bytes (fetch_sub ch m) = random_bytes m
  /\ random_drawn (fetch_sub ch m) = random_drawn m /\ auth_tokens (fetch_sub ch m) = auth_tokens m.
Proof. unfold fetch_sub. by destruct (_ !! _). Qed.
(** Sessions, tokens and the random source. *)
Definition undisturbed (m m' : SessionManager) : Prop :=
  arcs_kept (arcs m) (arcs m') /\ random_bytes m' = random_bytes m /\ random_drawn m' = random_drawn m /\ auth_tokens m' ⊆ auth_tokens m.
Lemma undisturbed_write i f m : (forall s, kept s (f s)) -> undisturbed m (arc_write i f m).
Proof. intros Hf. split; [by apply arcs_kept_write|done]. Qed.
Lemma undisturbed_refl m : undisturbed m m.
Proof. split; [apply arcs_kept_refl|done]. Qed.
Lemma undisturbed_trans m1 m2 m3 : undisturbed m1 m2 -> undisturbed m2 m3 -> undisturbed m1 m3.
Proof. intros (H1 & H2 & H3 & H4) (H5 & H6 & H7 & H8). split; [by eapply arcs_kept_trans|split; [congruence|split; [congruence|by transitivity (auth_tokens m2)]]]. Qed.
Lemma undisturbed_same m m' : arcs m' = arcs m -> random_bytes m' = random_bytes m -> random_drawn m' = random_drawn m ->
  auth_tokens m' ⊆ auth_tokens m -> undisturbed m m'.
Proof. intros E1 E2 E3 E4. split; [rewrite E1; apply arcs_kept_refl|done]. Qed.

(** The registries and counters that change say nothing on the sessions. *)
Ltac quiet := solve [apply undisturbed_same; [done..|]; cbn; first [done|apply delete_subseteq]].
Ltac quiet_as E := solve [apply undisturbed_same; [done..|]; apply (reflexive_eq (R := subseteq)); exact E].

Lemma expire_undisturbed now id m : undisturbed m (expire_session now id m).
Proof.
  unfold expire_session. destruct (sessions m !! id) as [i|]; [|by apply undisturbed_refl].
  set (m1 := if negb _ then fetch_sub _ _ else _). assert (undisturbed m m1) as H1.
  { unfold m1. destruct (negb _); [|quiet]. destruct (fetch_sub_arcs (se_secure_channel_id (arc (set_sessions (base.delete id (sessions m)) m) i))
      (set_sessions (base.delete id (sessions m)) m)) as (E1 & E2 & E3 & E4). quiet_as E4. }
  apply (undisturbed_trans _ m1); [done|]. match goal with |- undisturbed m1 (arc_write i close ?x) => apply (undisturbed_trans _ x) end;
    [quiet|by apply undisturbed_write].
Qed.
Lemma evict_undisturbed now id m : undisturbed m (evict now id m).
Proof.
  unfold evict. destruct (sessions m !! id) as [i|]; [|by apply undisturbed_refl].
  match goal with |- undisturbed m (fetch_sub ?c ?x) => apply (undisturbed_trans _ x);
    [|destruct (fetch_sub_arcs c x) as (E1 & E2 & E3 & E4); quiet_as E4] end.
  apply (undisturbed_trans _ (arc_write i close m)); [by apply undisturbed_write|].
  unfold clear_session_locale_ids_for_node_id. destruct (identifier id); quiet.
Qed.
Lemma cleanup_undisturbed now i m : undisturbed m (termination_cleanup now i m).
Proof. unfold termination_cleanup, clear_session_locale_ids_for_node_id. destruct (identifier _); quiet. Qed.
Lemma close_finish_undisturbed channel c m : undisturbed m (close_finish channel c m).1.
Proof.
  unfold close_finish. destruct (cl_was_unactivated c); cbn; [|quiet].
  destruct (fetch_sub_arcs (cl_channel c) m) as (E1 & E2 & E3 & E4). quiet_as E4.
Qed.
Lemma activate_finish_undisturbed channel a m : undisturbed m (activate_finish channel a m).1.
Proof.
  unfold activate_finish. destruct (ac_was_unactivated a); cbn; [|quiet].
  destruct (fetch_sub_arcs (ac_previous_secure_channel_id a) m) as (E1 & E2 & E3 & E4). quiet_as E4.
Qed.
Lemma check_undisturbed now locked m m' x : check_session_expiry config now locked m = Ret (m', x) -> undisturbed m m'.
Proof.
  unfold check_session_expiry. destruct (check_loop _ _ _ _ _ _ _ _) as [[[h n] l]| |]; [|done|done]. cbn. intros [= <- _]. quiet.
Qed.
Lemma touch_kept now s : kept s (validate_timed_out now s).1.
Proof. done. Qed.
Lemma activate_begin_undisturbed now channel request m m' r : activate_begin now channel request m = (m', r) -> undisturbed m m'.
Proof.
  unfold activate_begin, find_by_token. destruct (auth_tokens m !! _) as [i|]; [|intros [= <- _]; quiet].
  destruct (validate_timed_out now (arc m i)) as [s ok] eqn:Hv. intros [= <- _].
  assert (arcs_kept (arcs m) (alter (fun _ => s) i (arcs m))) as Hk; [|by split].
  assert (alter (fun _ => s) i (arcs m) = alter (fun s => (validate_timed_out now s).1) i (arcs m)) as ->; [|by apply arcs_kept_write].
  apply list_alter_ext; [|done]. intros s' Hs'. unfold arc in Hv. rewrite (list_lookup_total_correct _ _ _ Hs') in Hv. by rewrite Hv.
Qed.

(** A session that is published is the one of the draft. *)
Lemma commit_create_arcs now locked d channel m m' r : commit_create_session_draft config locked now d channel m = Ret (m', r) ->
  exists l, arcs_kept (arcs m) l /\ (arcs m' = l /\ auth_tokens m' ⊆ auth_tokens m
      \/ arcs m' = l ++ [dr_session d] /\ auth_tokens m' ⊆ <[dr_authentication_token d := length l]> (auth_tokens m))
    /\ random_bytes m' = random_bytes m /\ random_drawn m' = random_drawn m.
Proof.
  unfold commit_create_session_draft. set (room := if (_ <=? _)%nat then _ else _).
  assert (forall m1 ok, room = Ret (m1, ok) -> undisturbed m m1) as Hroom.
  { intros m1 ok. unfold room. destruct (_ <=? _)%nat; [|intros [= <- _]; quiet].
    destruct (eviction_candidate _ _ _ _) as [[h o]| |]; [|done|done]. cbn. destruct o as [id|]; intros [= <- _]; [|quiet].
    apply (undisturbed_trans _ (set_unactivated_heap h m)); [quiet|apply evict_undisturbed]. }
  destruct room as [[m1 ok]| |]; [|done|done]. destruct (Hroom m1 ok eq_refl) as (H1 & H2 & H3 & H4). cbn [outcome_bind].
  destruct (negb ok); [intros [= <- _]; exists (arcs m1); auto|]. destruct (_ <=? default 0 _); [intros [= <- _]; exists (arcs m1); auto|].
  destruct (negb _); [intros [= <- _]; exists (arcs m1); auto|]. intros [= <- _]. exists (arcs m1). split; [done|].
  split; [|unfold publish_session; by destruct (negb (is_activated _))]. right. split; [unfold publish_session; by destruct (negb (is_activated _))|].
  transitivity (<[dr_authentication_token d := length (arcs m1)]> (auth_tokens m1)); [unfold publish_session; by destruct (negb (is_activated _))|].
  by apply insert_mono.
Qed.

(** ** The invariant *)

Definition known (m : SessionManager) (x : bytes) : Prop := exists n len, (n < random_drawn m)%nat /\ 16 <= len /\ x = random n len.
Definition pending_checked (p : Pending) : Prop :=
  let a := pe_activation p in
  match pe_stage p with
  | Begun => True
  | Verified => activate_verify (pe_channel p) a = Ok tt
  | Authenticated b => activate_verify (pe_channel p) a = Ok tt
      /\ authenticate (ac_endpoint_url a) (security_policy (pe_channel p)) (SecureChannel.security_mode (pe_channel p))
           (aq_identity (pe_request p)) (ac_session_nonce a) = Ok b
  end.
(** What was read holds as long as the nonce is the one that was read. *)
Record still_read (s : Session) (p : Pending) : Prop := {
  st_url : ac_endpoint_url (pe_activation p) = se_endpoint_url s;
  st_verify : ac_verify_data (pe_activation p) = if policy_none (pe_channel p) then None
    else Some (se_client_certificate s, server_certificate, ac_session_nonce (pe_activation p), aq_client_signature (pe_request p));
  st_nonce : se_session_nonce s = ac_session_nonce (pe_activation p) ->
    ac_previous_secure_channel_id (pe_activation p) = se_secure_channel_id s
    /\ (ac_was_unactivated (pe_activation p) = false -> is_some (se_user_token s) = true)
    /\ activate_checks (pe_channel p) (pe_request p) s = Ok tt
}.
Definition pending_ok (m : SessionManager) (p : Pending) : Prop :=
  known m (ac_session_nonce (pe_activation p)) /\ pending_checked p
  /\ exists s, arcs m !! ac_arc (pe_activation p) = Some s /\ still_read s p.
(** The nonces that wait to be given to a session. *)
Definition draft_nonce (d : CreateSessionDraft) : bytes := se_session_nonce (dr_session d).
Definition reserved (S : System) : list bytes := map pe_nonce (sy_pending S) ++ map draft_nonce (sy_drafts S).
Definition unused (m : SessionManager) (pending : list Pending) (x : bytes) : Prop :=
  known m x /\ (forall i s, arcs m !! i = Some s -> se_session_nonce s <> x)
  /\ Forall (fun p => ac_session_nonce (pe_activation p) <> x) pending.
Record sys_inv (S : System) : Prop := {
  si_random : random_bytes (sy_manager S) = random;
  si_tokens t i : auth_tokens (sy_manager S) !! t = Some i -> (i < length (arcs (sy_manager S)))%nat;
  si_known i s : arcs (sy_manager S) !! i = Some s -> known (sy_manager S) (se_session_nonce s);
  si_pending : Forall (pending_ok (sy_manager S)) (sy_pending S);
  si_nodup : NoDup (reserved S);
  si_unused : Forall (unused (sy_manager S) (sy_pending S)) (reserved S)
}.

Lemma kept_checks channel request s s' : kept s s' -> activate_checks channel request s' = activate_checks channel request s.
Proof.
  unfold kept, binding, fixed. intros [Hb Hf]. injection Hb. injection Hf. intros. unfold activate_checks.
  repeat match goal with H : _ s' = _ s |- _ => rewrite H; clear H end. done.
Qed.
Lemma kept_nonce s s' : kept s s' -> se_session_nonce s' = se_session_nonce s.
Proof. unfold kept, binding. intros [Hb _]. by injection Hb. Qed.
Lemma kept_read s s' p : kept s s' -> still_read s p -> still_read s' p.
Proof.
  intros Hk [H1 H2 H3]. pose proof (kept_checks (pe_channel p) (pe_request p) s s' Hk) as Hc. pose proof (kept_nonce s s' Hk) as Hn.
  unfold kept, binding, fixed in Hk. destruct Hk as [Hb Hf]. injection Hb. injection Hf. intros E1 E2 E3 E4 E5 E6 E7 E8 E9 E10 E11 E12.
  split; [congruence|rewrite H2; by repeat match goal with H : _ s' = _ s |- _ => rewrite H; clear H end|].
  rewrite Hn, Hc. intros Heq. destruct (H3 Heq) as (I1 & I2 & I3). by repeat match goal with H : _ s' = _ s |- _ => rewrite H; clear H end.
Qed.

(** Sessions may be touched, tokens removed and random strings drawn. *)
Definition calm (m m' : SessionManager) : Prop :=
  arcs_kept (arcs m) (arcs m') /\ random_bytes m' = random_bytes m /\ (random_drawn m <= random_drawn m')%nat /\ auth_tokens m' ⊆ auth_tokens m.
Lemma undisturbed_calm m m' : undisturbed m m' -> calm m m'.
Proof. intros (H1 & H2 & H3 & H4). repeat split; try done. lia. Qed.
Lemma calm_known m m' x : calm m m' -> known m x -> known m' x.
Proof. intros (_ & _ & Hd & _) (n & len & Hn & ?). exists n, len. split; [lia|done]. Qed.
Lemma calm_back m m' i s' : calm m m' -> arcs m' !! i = Some s' -> exists s, arcs m !! i = Some s /\ kept s s'.
Proof. intros (Hk & _) Hi. destruct (Forall2_lookup_r _ _ _ _ _ Hk Hi) as (s & Hs & ?). by exists s. Qed.
Lemma calm_pending m m' p : calm m m' -> pending_ok m p -> pending_ok m' p.
Proof.
  intros Hc (Hn & Hp & s & Hs & Hr). split; [by eapply calm_known|]. split; [done|]. destruct Hc as (Hk & _).
  destruct (Forall2_lookup_l _ _ _ _ _ Hk Hs) as (s' & Hs' & Hss). exists s'. split; [done|]. by eapply kept_read.
Qed.
Lemma calm_unused m m' l x : calm m m' -> unused m l x -> unused m' l x.
Proof.
  intros Hc (H1 & H2 & H3). split; [by eapply calm_known|]. split; [|done]. intros i s' Hs'. destruct (calm_back m m' i s' Hc Hs') as (s & Hs & Hk).
  rewrite (kept_nonce s s' Hk). by eapply H2.
Qed.

(** A nonce that is drawn is new. *)
Lemma draw_new m len x : 16 <= len -> (random_drawn m < draws)%nat -> random_bytes m = random -> known m x -> x <> (draw len m).2.
Proof. intros Hl Hd Hr (n & len' & Hn & Hl' & ->). cbn. rewrite Hr. intros Heq. apply Hrandom in Heq; lia. Qed.
Lemma draw_known m len : 16 <= len -> random_bytes m = random -> known (draw len m).1 (draw len m).2.
Proof. intros Hl Hr. exists (random_drawn m), len. cbn. rewrite Hr. split; [lia|done]. Qed.
Lemma draw_calm m len : calm m (draw len m).1.
Proof. split; [apply arcs_kept_refl|]. split; [done|]. split; [cbn; lia|done]. Qed.

Lemma inv_calm S m' : calm (sy_manager S) m' -> sys_inv S -> sys_inv (with_manager m' S).
Proof.
  intros Hc [H1 H2 H3 H4 H5 H6]. split.
  - destruct Hc as (_ & Hr & _). cbn. congruence.
  - intros t i Hi. cbn in *. destruct Hc as (Hk & _ & _ & Ht). rewrite <- (Forall2_length _ _ _ Hk). apply (H2 t). by eapply lookup_weaken.
  - intros i s' Hs'. cbn in *. destruct (calm_back _ _ i s' Hc Hs') as (s & Hs & Hk). rewrite (kept_nonce s s' Hk). eapply calm_known; [exact Hc|]. by eapply H3.
  - cbn. eapply Forall_impl; [exact H4|]. intros p. by apply calm_pending.
  - done.
  - cbn. eapply Forall_impl; [exact H6|]. intros x. by apply calm_unused.
Qed.
(** What is in flight in another order, further, or less of it. *)
Lemma inv_pending S drafts drafts' pending pending' committed closings : sys_inv S ->
  sy_pending S ≡ₚ pending ++ pending' -> sy_drafts S ≡ₚ drafts ++ drafts' -> sys_inv (mkSystem (sy_manager S) drafts pending committed closings).
Proof.
  intros [H1 H2 H3 H4 H5 H6] Hp Hd.
  assert (reserved S ≡ₚ reserved (mkSystem (sy_manager S) drafts pending committed closings) ++ map pe_nonce pending' ++ map draft_nonce drafts') as Hr.
  { unfold reserved. cbn. rewrite Hp, Hd, !map_app. rewrite <- !app_assoc. apply Permutation_app_head. rewrite !app_assoc. apply Permutation_app_tail.
    apply Permutation_app_comm. }
  rewrite Hp in H4. apply Forall_app in H4 as [H4 _]. rewrite Hr in H5, H6. apply NoDup_app in H5 as [H5 _]. apply Forall_app in H6 as [H6 _].
  split; try done. eapply Forall_impl; [exact H6|]. intros x (I1 & I2 & I3). split; [done|]. split; [done|]. rewrite Hp in I3. by apply Forall_app in I3 as [I3 _].
Qed.

Lemma inv_stage S p pending st : sys_inv S -> sy_pending S ≡ₚ p :: pending -> pending_checked (with_stage st p) ->
  sys_inv (mkSystem (sy_manager S) (sy_drafts S) (with_stage st p :: pending) (sy_committed S) (sy_closings S)).
Proof.
  intros [H1 H2 H3 H4 H5 H6] Hp Hst. rewrite Hp in H4. apply Forall_cons in H4 as [(I1 & _ & I3) H4].
  assert (reserved (mkSystem (sy_manager S) (sy_drafts S) (with_stage st p :: pending) (sy_committed S) (sy_closings S)) ≡ₚ reserved S) as Hr.
  { unfold reserved. cbn. by rewrite Hp. }
  split; try done; cbn.
  - constructor; [|done]. split; [done|]. split; [done|]. destruct I3 as (s & Hs & []). by exists s.
  - by rewrite Hr.
  - rewrite Hr. eapply Forall_impl; [exact H6|]. intros x (K1 & K2 & K3). split; [done|]. split; [done|]. rewrite Hp in K3.
    apply Forall_cons in K3 as [K3 K4]. by constructor.
Qed.

(** A new nonce is reserved: nothing that is known is equal to it. *)
Lemma fresh_unused S m len : 16 <= len -> (random_drawn m < draws)%nat -> sys_inv S -> calm (sy_manager S) m ->
  unused (draw len m).1 (sy_pending S) (draw len m).2 /\ (draw len m).2 ∉ reserved S.
Proof.
  intros Hl Hd Hi Hc. destruct (inv_calm S m Hc Hi) as [H1 H2 H3 H4 H5 H6]. cbn in H1, H3, H4, H6. split; [split; [|split]|].
  - by apply draw_known.
  - intros i s Hs. apply draw_new; [done..|]. by eapply H3.
  - eapply Forall_impl; [exact H4|]. intros p (Hk & _). by apply draw_new.
  - intros Hin. rewrite Forall_forall in H6. destruct (H6 _ Hin) as (Hk & _). by apply (draw_new m len (draw len m).2).
Qed.
(** Drawing a nonce and reserving it. *)
Lemma calm_trans m1 m2 m3 : calm m1 m2 -> calm m2 m3 -> calm m1 m3.
Proof.
  intros (K1 & K2 & K3 & K4) (L1 & L2 & L3 & L4). split; [by eapply arcs_kept_trans|]. split; [congruence|]. split; [lia|]. by etransitivity.
Qed.
Lemma take_calm m : calm m (take_session_id m).1.
Proof. split; [apply arcs_kept_refl|done]. Qed.

Lemma prepare_drawn now policy mode channel request m m' r : prepare_endpoint_preflight config now policy mode channel request m = Ret (m', r) ->
  m' = m /\ (exists e, r = Err e)
  \/ 32 <= session_nonce_length config /\ m' = (take_session_id (draw (session_nonce_length config) (draw 32 m).1).1).1
     /\ exists d, r = Ok d /\ draft_nonce d = (draw (session_nonce_length config) (draw 32 m).1).2.
Proof.
  unfold prepare_endpoint_preflight. destruct (let? _ := select_endpoint request in _) as [cert|e]; [|intros [= <- <-]; left; split; [done|by eexists]].
  unfold prepare_session. destruct (negb _) eqn:Hlen; [intros [= <- <-]; left; split; [done|by eexists]|].
  destruct (to_uri policy) as [uri| |]; [|done|done]. intros [= <- <-]. right. split; [lia|]. split; [done|]. by eexists.
Qed.

Lemma inv_prepare S now policy mode channel request m' r : sys_inv S -> (random_drawn m' <= draws)%nat ->
  prepare_endpoint_preflight config now policy mode channel request (sy_manager S) = Ret (m', r) ->
  sys_inv (mkSystem m' (match r with Ok d => d :: sy_drafts S | Err _ => sy_drafts S end) (sy_pending S) (sy_committed S) (sy_closings S)).
Proof.
  intros Hi Hd Hr. apply prepare_drawn in Hr as [[-> [e ->]]|(Hl & -> & d & -> & Hn)]; [by destruct S|]. cbn [random_drawn take_session_id draw fst] in Hd.
  set (m1 := (draw 32 (sy_manager S)).1) in *. set (m2 := (draw (session_nonce_length config) m1).1) in *.
  assert (calm (sy_manager S) m1) as Hc1 by apply draw_calm. assert (calm m1 m2) as Hc2 by apply draw_calm.
  destruct (fresh_unused S m1 (session_nonce_length config)) as [Hu Hnew]; [done|cbn; lia|done|done|]. rewrite <- Hn in Hu, Hnew.
  destruct (inv_calm S (take_session_id m2).1) as [H1 H2 H3 H4 H5 H6]; [|done|].
  { eapply calm_trans; [exact Hc1|]. eapply calm_trans; [exact Hc2|apply take_calm]. }
  match goal with |- sys_inv ?S' => assert (reserved S' ≡ₚ draft_nonce d :: reserved S) as Hp by (unfold reserved; cbn; by rewrite Permutation_middle) end.
  split; try done.
  - rewrite Hp. by constructor.
  - rewrite Hp. constructor; [|done]. eapply calm_unused; [apply take_calm|exact Hu].
Qed.

Lemma inv_create S now locked d drafts channel m' r : sys_inv S -> sy_drafts S ≡ₚ d :: drafts ->
  commit_create_session_draft config locked now d channel (sy_manager S) = Ret (m', r) ->
  sys_inv (mkSystem m' drafts (sy_pending S) (sy_committed S) (sy_closings S)).
Proof.
  intros Hi Hd He. destruct (commit_create_arcs now locked d channel (sy_manager S) m' r He) as (l & Hk & Hcase & Hr1 & Hr2).
  pose proof Hi as Hi'. apply (inv_pending S drafts [d] (sy_pending S) [] (sy_committed S) (sy_closings S)) in Hi;
    [|by rewrite app_nil_r|rewrite Hd; apply Permutation_cons_append].
  destruct Hcase as [[Ha Ht]|[Ha Ht]].
  - match type of Hi with sys_inv ?S1 => apply (inv_calm S1 m') in Hi; [exact Hi|] end. cbn. rewrite <- Ha in Hk. repeat split; [done|done|lia|done].
  - assert (unused (sy_manager S) (sy_pending S) (draft_nonce d) /\ draft_nonce d ∉ map pe_nonce (sy_pending S) ++ map draft_nonce drafts) as [Hu Hnd].
    { assert (reserved S ≡ₚ draft_nonce d :: map pe_nonce (sy_pending S) ++ map draft_nonce drafts) as Hr.
      { unfold reserved. rewrite Hd. cbn. by rewrite Permutation_middle. }
      destruct Hi' as [_ _ _ _ H5 H6]. rewrite Hr in H5, H6. apply NoDup_cons in H5 as [? _]. by apply Forall_cons in H6 as [? _]. }
    clear Hi'. destruct Hi as [H1 H2 H3 H4 H5 H6]. cbn in *. assert (length l = length (arcs (sy_manager S))) as Hlen by (symmetry; by eapply Forall2_length).
    assert (forall x, known (sy_manager S) x -> known m' x) as Hkn.
    { intros x (n & len & Hn & ?). exists n, len. split; [lia|done]. }
    assert (forall i s', arcs m' !! i = Some s' -> (exists s, arcs (sy_manager S) !! i = Some s /\ kept s s') \/ s' = dr_session d) as Hback.
    { intros i s' Hs'. rewrite Ha in Hs'. apply lookup_app_Some in Hs' as [Hs'|[_ Hs']].
      - left. destruct (Forall2_lookup_r _ _ _ _ _ Hk Hs') as (s & Hs & ?). by exists s.
      - right. by apply list_lookup_singleton_Some in Hs' as [_ <-]. }
    split; cbn.
    + congruence.
    + intros t i Hti. rewrite Ha, length_app. cbn. apply (lookup_weaken _ _ _ _ Hti) in Ht. apply lookup_insert_Some in Ht as [[_ <-]|[_ Ht]]; [lia|].
      apply H2 in Ht. lia.
    + intros i s' Hs'. destruct (Hback i s' Hs') as [(s & Hs & Hks)| ->].
      * rewrite (kept_nonce s s' Hks). apply Hkn. by eapply H3.
      * apply Hkn. apply Hu.
    + eapply Forall_impl; [exact H4|]. intros p (I1 & I2 & s & Hs & I3). split; [by apply Hkn|]. split; [done|].
      destruct (Forall2_lookup_l _ _ _ _ _ Hk Hs) as (s' & Hs' & Hks). exists s'. split; [rewrite Ha; by apply lookup_app_l_Some|by eapply kept_read].
    + done.
    + unfold reserved in *. cbn in *. rewrite Forall_forall in H6 |- *. intros x Hx. destruct (H6 x Hx) as (I1 & I2 & I3). split; [by apply Hkn|]. split; [|done].
      intros i s' Hs'. destruct (Hback i s' Hs') as [(s & Hs & Hks)| ->]; [rewrite (kept_nonce s s' Hks); by eapply I2|]. intros <-. by apply Hnd.
Qed.

(** ** Activations *)

Lemma nonce_length_16 channel len : random_nonce_length config channel = Ret len -> 16 <= len.
Proof.
  unfold random_nonce_length, secure_channel_nonce_length, call_with_policy.
  destruct (security_policy channel); cbn; try destruct legacy_crypto; intros Hl; try discriminate Hl; injection Hl as <-; lia.
Qed.

Lemma begin_spec now channel request m m' a : activate_begin now channel request m = (m', Ok a) ->
  (forall t i, auth_tokens m !! t = Some i -> (i < length (arcs m))%nat) ->
  exists s, arcs m' !! ac_arc a = Some s /\ ac_session_nonce a = se_session_nonce s
    /\ forall x st, still_read s (mkPending channel request a x st).
Proof.
  unfold activate_begin, find_by_token. destruct (auth_tokens m !! _) as [i|] eqn:Hi; [|done].
  destruct (validate_timed_out now (arc m i)) as [s ok] eqn:Hv. intros [= <- Hr] Ht. exists s.
  destruct ok as [[]|e]; cbn in Hr; [|done]. destruct (activate_checks channel request s) as [[]|e] eqn:Hc; cbn in Hr; [|done].
  injection Hr as <-. cbn. split; [|split; [done|]].
  - rewrite list_lookup_alter_eq. destruct (lookup_lt_is_Some_2 _ _ (Ht _ _ Hi)) as [s0 ->]. done.
  - intros x st. split; [done|done|]. cbn. intros _. split; [done|]. split; [|done]. unfold is_activated. by destruct (is_some (se_user_token s)).
Qed.

Lemma inv_begin S now channel request m' a len : sys_inv S -> activate_begin now channel request (sy_manager S) = (m', Ok a) ->
  random_nonce_length config channel = Ret len -> (random_drawn (draw len m').1 <= draws)%nat ->
  sys_inv (mkSystem (draw len m').1 (sy_drafts S) (mkPending channel request a (draw len m').2 Begun :: sy_pending S) (sy_committed S) (sy_closings S)).
Proof.
  intros Hi Hb Hlen Hd. apply nonce_length_16 in Hlen. cbn [random_drawn draw fst] in Hd.
  assert (calm (sy_manager S) m') as Hc by (by eapply undisturbed_calm, activate_begin_undisturbed).
  destruct (begin_spec now channel request (sy_manager S) m' a Hb) as (s & Hs & Hn & Hread); [by apply si_tokens|].
  destruct (fresh_unused S m' len) as [Hu Hnew]; [done|lia|done|done|].
  pose proof (inv_calm S m' Hc Hi) as Hi'. assert (calm (sy_manager S) (draw len m').1) as Hc' by (eapply calm_trans; [exact Hc|apply draw_calm]).
  destruct (inv_calm S (draw len m').1 Hc' Hi) as [H1 H2 H3 H4 H5 H6]. set (x := (draw len m').2) in *. clearbody x.
  assert (known m' (ac_session_nonce a)) as Hk. { rewrite Hn. by eapply (si_known _ Hi'). }
  match goal with |- sys_inv ?S' => change (reserved S') with (x :: reserved S) in *; split end; try done.
  - cbn. constructor; [|done]. split; [exact (calm_known _ _ _ (draw_calm m' len) Hk)|]. split; [done|]. by exists s.
  - by constructor.
  - cbn. constructor.
    + destruct Hu as (I1 & I2 & I3). split; [done|]. split; [done|]. constructor; [|done]. cbn. rewrite Hn. by apply (I2 (ac_arc a)).
    + eapply Forall_impl; [|intros y Hy; exact Hy]. rewrite Forall_forall in H6 |- *. intros y Hy. destruct (H6 y Hy) as (I1 & I2 & I3). split; [done|].
      split; [done|]. constructor; [|done]. cbn. rewrite Hn. by apply (I2 (ac_arc a)).
Qed.

(** What an activation that is committed has checked, and what it makes of the session. *)
Record committed (channel : SecureChannel) (request : ActivateSessionRequest) (b : EndpointAuthentication) (nonce : bytes) (a : Activation)
    (s s' : Session) : Prop := {
  co_transfer : is_cross_channel_transfer_forbidden (ac_previous_secure_channel_id a) (secure_channel_id channel) (negb (ac_was_unactivated a))
    (security_policy channel) = false;
  co_certificate : is_client_certificate_channel_mismatch (se_client_certificate s) (remote_cert channel) (security_policy channel) = false;
  co_nonce : se_session_nonce s = ac_session_nonce a;
  co_session : exists identity locale_ids,
    resolved_identity_from_activation (aq_identity request) (au_claims b) (if ua_empty (se_application_uri s) then None else se_application_uri s)
      (Some (default [] (ac_endpoint_url a))) = Ok identity
    /\ s' = activate (secure_channel_id channel) nonce (aq_identity request) locale_ids (au_user_token b) (au_claims b) (resolve resolver identity) s
}.
Lemma commit_spec channel request b nonce a m m' : activate_commit channel request resolver b nonce a m = (m', Ok tt) ->
  exists s', committed channel request b nonce a (arc m (ac_arc a)) s' /\ arcs m' = <[ac_arc a := s']> (arcs m)
    /\ random_bytes m' = random_bytes m /\ random_drawn m' = random_drawn m /\ auth_tokens m' = auth_tokens m.
Proof.
  intros Hc. unfold activate_commit in Hc. set (s := arc m (ac_arc a)) in *.
  destruct (is_cross_channel_transfer_forbidden _ _ _ _) eqn:H1; [done|]. destruct (is_client_certificate_channel_mismatch _ _ _) eqn:H2; [done|].
  destruct (bool_decide (se_session_nonce s = _)) eqn:H3; [|done]. apply bool_decide_eq_true in H3. cbn [negb] in Hc.
  destruct (resolved_identity_from_activation _ _ _ _) as [identity|e] eqn:H4; [|done]. cbv zeta in Hc.
  set (locale_ids := match aq_locale_ids request with Some (_ :: _ as l) => Some l | _ => se_locale_ids s end) in Hc.
  set (s' := activate (secure_channel_id channel) nonce (aq_identity request) locale_ids (au_user_token b) (au_claims b) (resolve resolver identity) s).
  exists s'. injection Hc as <-. assert (forall id m1, arcs (set_session_locale_ids id locale_ids m1) = arcs m1
    /\ random_bytes (set_session_locale_ids id locale_ids m1) = random_bytes m1 /\ random_drawn (set_session_locale_ids id locale_ids m1) = random_drawn m1
    /\ auth_tokens (set_session_locale_ids id locale_ids m1) = auth_tokens m1) as Hset by (intros id m1; by destruct locale_ids as [[|? ?]|]).
  match goal with |- _ /\ arcs (set_session_locale_ids ?id _ ?m1) = _ /\ _ => destruct (Hset id m1) as (-> & -> & -> & ->) end.
  split; [split; [done..|by exists identity, locale_ids]|]. split; [|done]. cbn. apply list_eq. intros j. destruct (decide (j = ac_arc a)) as [->|Hne].
  - rewrite list_lookup_alter_eq. destruct (arcs m !! ac_arc a) as [s0|] eqn:Hs; cbn.
    + rewrite list_lookup_insert_eq by (by eapply lookup_lt_Some). unfold s', s, arc. by rewrite (list_lookup_total_correct _ _ _ Hs).
    + symmetry. apply lookup_ge_None_2. rewrite length_insert. by apply lookup_ge_None_1.
  - by rewrite list_lookup_alter_ne, list_lookup_insert_ne.
Qed.
Lemma commit_refused channel request b nonce a m m' e : activate_commit channel request resolver b nonce a m = (m', Err e) -> m' = m.
Proof.
  unfold activate_commit. destruct (is_cross_channel_transfer_forbidden _ _ _ _); [by intros [= <- _]|].
  destruct (is_client_certificate_channel_mismatch _ _ _); [by intros [= <- _]|]. destruct (negb _); [by intros [= <- _]|].
  destruct (resolved_identity_from_activation _ _ _ _); [done|by intros [= <- _]].
Qed.
(** The rest of a session stays. *)
Lemma committed_fixed channel request b nonce a s s' : committed channel request b nonce a s s' -> fixed s' = fixed s /\ se_session_nonce s' = nonce.
Proof. intros [_ _ _ (identity & l & _ & ->)]. done. Qed.

Lemma inv_commit S p pending b m' r : sys_inv S -> sy_pending S ≡ₚ p :: pending ->
  activate_commit (pe_channel p) (pe_request p) resolver b (pe_nonce p) (pe_activation p) (sy_manager S) = (m', r) ->
  forall committed, sys_inv (mkSystem m' (sy_drafts S) pending committed (sy_closings S)).
Proof.
  intros Hi Hp Hc committed.
  assert (sys_inv (mkSystem (sy_manager S) (sy_drafts S) pending committed (sy_closings S))) as Hrest.
  { eapply (inv_pending S _ [] pending [p]); [done|by rewrite Hp; apply Permutation_cons_append|by rewrite app_nil_r]. }
  destruct r as [[]|e]; [|apply commit_refused in Hc as ->; exact Hrest].
  assert (reserved S ≡ₚ pe_nonce p :: map pe_nonce pending ++ map draft_nonce (sy_drafts S)) as Hr by (unfold reserved; by rewrite Hp).
  destruct Hi as [_ _ _ Hpend Hnd Hun]. rewrite Hp in Hpend. apply Forall_cons in Hpend as [(_ & _ & s & Hs & _) _].
  rewrite Hr in Hnd, Hun. apply NoDup_cons in Hnd as [Hnew _]. apply Forall_cons in Hun as [(U1 & U2 & U3) _]. rewrite Hp in U3.
  apply Forall_cons in U3 as [_ U3].
  destruct (commit_spec _ _ _ _ _ _ _ Hc) as (s' & Hco & Ha & Hb & Hd & Ht).
  assert (arc (sy_manager S) (ac_arc (pe_activation p)) = s) as Harc by (by apply list_lookup_total_correct). rewrite Harc in Hco.
  destruct (committed_fixed _ _ _ _ _ _ _ Hco) as [Hf Hn].
  destruct Hrest as [H1 H2 H3 H4 H5 H6]. cbn in *.
  assert (forall x, known (sy_manager S) x -> known m' x) as Hkn.
  { intros x (n & len & Hlt & ?). exists n, len. split; [lia|done]. }
  assert (forall i s1, arcs m' !! i = Some s1 -> s1 = s' \/ arcs (sy_manager S) !! i = Some s1) as Hback.
  { intros i s1. rewrite Ha. intros H. apply list_lookup_insert_Some in H as [(_ & <- & _)|[_ H]]; auto. }
  split; cbn.
  - congruence.
  - intros t i. rewrite Ht, Ha, length_insert. apply H2.
  - intros i s1 Hs1. apply Hkn. destruct (Hback i s1 Hs1) as [->|Hs1']; [by rewrite Hn|by eapply H3].
  - rewrite Forall_forall in H4, U3 |- *. intros q Hq. destruct (H4 q Hq) as (I1 & I2 & sq & I3 & I4). split; [by apply Hkn|]. split; [done|].
    rewrite Ha. destruct (decide (ac_arc (pe_activation q) = ac_arc (pe_activation p))) as [Heq|Hne].
    + exists s'. rewrite Heq, list_lookup_insert_eq by (by eapply lookup_lt_Some). split; [done|]. rewrite Heq, Hs in I3. injection I3 as <-.
      destruct I4 as [J1 J2 _]. unfold fixed in Hf. injection Hf as E1 E2 E3 E4 E5 E6. split; [congruence|by rewrite E1|].
      rewrite Hn. intros Hx. exfalso. by apply (U3 q Hq).
    + exists sq. by rewrite list_lookup_insert_ne.
  - done.
  - rewrite Forall_forall in H6 |- *. intros x Hx.
    destruct (H6 x Hx) as (I1 & I2 & I3). split; [by apply Hkn|]. split; [|done]. intros i s1 Hs1.
    destruct (Hback i s1 Hs1) as [->|Hs1']; [|by eapply I2]. rewrite Hn. intros Heq. apply Hnew. by rewrite Heq.
Qed.

(** ** The runs *)

Lemma commit_drawn channel request b nonce a m m' r : activate_commit channel request resolver b nonce a m = (m', r) -> random_drawn m' = random_drawn m.
Proof.
  destruct r as [[]|e]; [|by intros ->%commit_refused]. unfold activate_commit. destruct (is_cross_channel_transfer_forbidden _ _ _ _); [done|].
  destruct (is_client_certificate_channel_mismatch _ _ _); [done|]. destruct (negb _); [done|].
  destruct (resolved_identity_from_activation _ _ _ _); [|done]. intros [= <-]. unfold set_session_locale_ids. by repeat case_match.
Qed.
Lemma undisturbed_drawn m m' : undisturbed m m' -> random_drawn m' = random_drawn m.
Proof. by intros (_ & _ & ? & _). Qed.
Lemma step_drawn S S' : step S S' -> (random_drawn (sy_manager S) <= random_drawn (sy_manager S'))%nat.
Proof.
  destruct 1 as [S now policy mode channel request m' r Hr|S now locked d drafts channel m' r _ Hr| |S now channel request m' a len Hb _
    |S now channel request m' e Hb| | | |S p pending a m' r _ _ Hc|S channel a c _| | | |S channel c l _|S now locked m' x Hc|]; cbn [sy_manager with_manager]; try (cbn; lia).
  - apply prepare_drawn in Hr as [[-> _]|(_ & -> & _)]; cbn; lia.
  - apply commit_create_arcs in Hr as (_ & _ & _ & _ & ->). lia.
  - apply activate_begin_undisturbed, undisturbed_drawn in Hb. cbn. lia.
  - apply activate_begin_undisturbed, undisturbed_drawn in Hb. lia.
  - apply commit_drawn in Hc. lia.
  - rewrite (undisturbed_drawn _ _ (activate_finish_undisturbed channel a (sy_manager S))). lia.
  - rewrite (undisturbed_drawn _ _ (cleanup_undisturbed now i (sy_manager S))). lia.
  - rewrite (undisturbed_drawn _ _ (close_finish_undisturbed channel c (sy_manager S))). lia.
  - apply check_undisturbed, undisturbed_drawn in Hc. lia.
  - rewrite (undisturbed_drawn _ _ (expire_undisturbed now id (sy_manager S))). lia.
Qed.

(** Steps that leave what is in flight and the bindings alone. *)
Lemma inv_undisturbed S m' : undisturbed (sy_manager S) m' -> sys_inv S ->
  forall committed closings, sys_inv (mkSystem m' (sy_drafts S) (sy_pending S) committed closings).
Proof. intros Hu Hi committed closings. apply (inv_calm (mkSystem (sy_manager S) (sy_drafts S) (sy_pending S) committed closings)); [by apply undisturbed_calm|].
  by destruct Hi.
Qed.

Lemma step_inv S S' : sys_inv S -> step S S' -> (random_drawn (sy_manager S') <= draws)%nat -> sys_inv S'.
Proof.
  intros Hi Hstep. destruct Hstep as [S now policy mode channel request m' r Hr|S now locked d drafts channel m' r Hd Hr|S now token i _
    |S now channel request m' a len Hb Hlen|S now channel request m' e Hb|S p pending Hp _ Hv|S p pending a Hp Hst Ha|S p pending Hp|S p pending a m' r Hp _ Hc
    |S channel a c _|S channel token c _|S i|S now i|S channel c l _|S now locked m' x Hc|S now id]; intros Hd'; cbn in Hd'.
  - by eapply inv_prepare.
  - by eapply inv_create.
  - apply inv_undisturbed; [by apply undisturbed_write|done].
  - by eapply inv_begin.
  - apply inv_undisturbed; [by eapply activate_begin_undisturbed|done].
  - by apply inv_stage.
  - apply inv_stage; [done..|]. pose proof (si_pending _ Hi) as Hpend. rewrite Hp in Hpend. apply Forall_cons in Hpend as [(_ & Hck & _) _].
    unfold pending_checked in *. rewrite Hst in Hck. done.
  - eapply (inv_pending S _ [] pending [p]); [done|by rewrite Hp; apply Permutation_cons_append|by rewrite app_nil_r].
  - by eapply inv_commit.
  - apply inv_undisturbed; [apply activate_finish_undisturbed|done].
  - apply inv_undisturbed; [apply undisturbed_refl|done].
  - apply inv_undisturbed; [by apply undisturbed_write|done].
  - apply inv_undisturbed; [apply cleanup_undisturbed|done].
  - apply inv_undisturbed; [apply close_finish_undisturbed|done].
  - apply inv_undisturbed; [by eapply check_undisturbed|done].
  - apply inv_undisturbed; [apply expire_undisturbed|done].
Qed.
Lemma start_inv S : arcs (sy_manager S) = [] -> auth_tokens (sy_manager S) = ∅ -> random_bytes (sy_manager S) = random -> sy_drafts S = [] ->
  sy_pending S = [] -> sys_inv S.
Proof.
  intros Ha Ht Hr Hd Hp. split; rewrite ?Ha, ?Ht, ?Hp; try done.
  - unfold reserved. rewrite Hd, Hp. by constructor.
  - unfold reserved. rewrite Hd, Hp. by constructor.
Qed.
Lemma reachable_inv S : reachable S -> (random_drawn (sy_manager S) <= draws)%nat -> sys_inv S.
Proof.
  induction 1 as [S|S S' _ IH Hstep]; intros Hd; [by apply start_inv|]. apply (step_inv S); [|done..]. apply IH. apply step_drawn in Hstep. lia.
Qed.

(** Only the commit of an activation changes the binding of a session. *)
Lemma undisturbed_at m m' i s s' : undisturbed m m' -> arcs m !! i = Some s -> arcs m' !! i = Some s' -> kept s s'.
Proof. intros (Hk & _) Hs Hs'. by eapply Forall2_lookup_lr. Qed.
Lemma step_binding S S' i s s' : step S S' -> arcs (sy_manager S) !! i = Some s -> arcs (sy_manager S') !! i = Some s' ->
  kept s s' \/ exists p b pending, sy_pending S ≡ₚ p :: pending /\ sy_pending S' = pending /\ pe_stage p = Authenticated b
    /\ ac_arc (pe_activation p) = i /\ committed (pe_channel p) (pe_request p) b (pe_nonce p) (pe_activation p) s s'.
Proof.
  intros Hstep Hs Hs'. destruct Hstep as [S now policy mode channel request m' r Hr|S now locked d drafts channel m' r Hd Hr|S now token j _
    |S now channel request m' a len Hb Hlen|S now channel request m' e Hb|S p pending Hp _ Hv|S p pending a Hp Hst Ha|S p pending Hp|S p pending a m' r Hp Hst Hc
    |S channel a c _|S channel token c _|S j|S now j|S channel c l _|S now locked m' x Hc|S now id]; cbn [sy_manager with_manager] in Hs, Hs';
    try (left; eapply undisturbed_at; cycle 1; [exact Hs|exact Hs'|]; first [apply undisturbed_refl|by apply undisturbed_write|by eapply activate_begin_undisturbed
      |apply activate_finish_undisturbed|apply cleanup_undisturbed|apply close_finish_undisturbed|by eapply check_undisturbed|apply expire_undisturbed]).
  - left. apply prepare_drawn in Hr as [[-> _]|(_ & -> & _)]; cbn in Hs'; rewrite Hs in Hs'; by injection Hs' as ->.
  - left. apply commit_create_arcs in Hr as (l & Hk & Hcase & _). destruct (Forall2_lookup_l _ _ _ _ _ Hk Hs) as (s1 & Hs1 & Hk1).
    assert (arcs m' !! i = Some s1) as Hs1' by (destruct Hcase as [[-> _]|[-> _]]; [done|by apply lookup_app_l_Some]). congruence.
  - left. apply (undisturbed_at (sy_manager S) m' i); [by eapply activate_begin_undisturbed|done..].
  - destruct r as [[]|e]; [|apply commit_refused in Hc as ->; left; rewrite Hs in Hs'; by injection Hs' as ->].
    destruct (commit_spec _ _ _ _ _ _ _ Hc) as (s1 & Hco & Ha & _). rewrite Ha in Hs'. apply list_lookup_insert_Some in Hs' as [(<- & <- & _)|[_ Hs']].
    + right. unfold arc in Hco. rewrite (list_lookup_total_correct _ _ _ Hs) in Hco. by exists p, a, pending.
    + left. rewrite Hs in Hs'. by injection Hs' as ->.
Qed.

(** The client proved that it holds the key of the session's certificate, which is the one of the channel. *)
Definition signed_by_client (channel : SecureChannel) (request : ActivateSessionRequest) (s : Session) : Prop :=
  exists cert server_cert channel_cert, se_client_certificate s = Some cert /\ server_certificate = Some server_cert
    /\ verify_signature_data (aq_client_signature request) (security_policy channel) cert server_cert (se_session_nonce s) = Ret (Ok tt)
    /\ remote_cert channel = Some channel_cert /\ sha1_digest cert = sha1_digest channel_cert.
(** A session that moves to another channel was activated, and the channels have the same security. *)
Definition may_move (channel : SecureChannel) (s : Session) : Prop :=
  is_some (se_user_token s) = true /\ security_policy channel <> PolicyNone
  /\ se_message_security_mode s = SecureChannel.security_mode channel /\ from_uri (se_security_policy_uri s) = security_policy channel.

Lemma committed_signed channel request b nonce a s s' : committed channel request b nonce a s s' -> security_policy channel <> PolicyNone ->
  ac_verify_data a = Some (se_client_certificate s, server_certificate, ac_session_nonce a, aq_client_signature request) ->
  activate_verify channel a = Ok tt -> signed_by_client channel request s.
Proof.
  intros [_ Hm Hn _] Hp Hd Hv. unfold activate_verify in Hv. rewrite Hd, <- Hn in Hv. unfold is_client_certificate_channel_mismatch in Hm.
  rewrite bool_decide_false in Hm by done. destruct (se_client_certificate s) as [cert|] eqn:Hcert; [|done].
  destruct (remote_cert channel) as [rc|] eqn:Hrc; [|done]. apply negb_false_iff, bool_decide_eq_true in Hm.
  destruct server_certificate as [sc|] eqn:Hsc; [|done]. cbn in Hv. exists cert, sc, rc. split; [done|]. split; [done|]. split; [|done].
  destruct (verify_signature_data _ _ _ _ _) as [[[]|e]| |]; done.
Qed.

Lemma committed_moves channel request b nonce a s s' : committed channel request b nonce a s s' -> secure_channel_id channel <> se_secure_channel_id s ->
  ac_previous_secure_channel_id a = se_secure_channel_id s -> (ac_was_unactivated a = false -> is_some (se_user_token s) = true) ->
  activate_checks channel request s = Ok tt -> may_move channel s.
Proof.
  intros [Ht _ _ _] Hne Hprev Hact Hck. unfold is_cross_channel_transfer_forbidden in Ht. rewrite Hprev in Ht.
  assert ((se_secure_channel_id s =? secure_channel_id channel) = false) as Hf by (apply Z.eqb_neq; congruence). rewrite Hf in Ht.
  cbn in Ht. rewrite negb_involutive in Ht. apply orb_false_iff in Ht as [Hu Hp]. apply bool_decide_eq_false in Hp.
  unfold activate_checks in Hck. rewrite Hf in Hck. destruct (negb _) in Hck; [done|].
  destruct (bool_decide (se_message_security_mode s = _)) eqn:Hm; [|done]. destruct (bool_decide (from_uri _ = _)) eqn:Hpol; [|done].
  apply bool_decide_eq_true in Hm, Hpol. split; [by apply Hact|]. done.
Qed.

(** C31: for every interleaving of session requests on all channels (creation, activation cut at each of
    its waits, closing, eviction and expiry) a step that changes the channel, the user, the roles or the
    nonce of a session is the end of an activation: the user token was accepted for the endpoint and the
    nonce that the session had just then, the roles are those of that user, under a policy other than None
    the signature over that nonce was made with the key of the session's certificate, which is also the
    certificate of the channel, the session changes to another channel only if it had been activated and
    the security is the same, and every other activation that is under way was begun with another nonce,
    so that the same proofs are not taken twice. *)
Theorem binding_changes_by_activation S S' i s s' : reachable S -> step S S' -> (random_drawn (sy_manager S') <= draws)%nat ->
  arcs (sy_manager S) !! i = Some s -> arcs (sy_manager S') !! i = Some s' -> binding s' <> binding s ->
  exists p b identity locale_ids, p ∈ sy_pending S /\ let channel := pe_channel p in let request := pe_request p in
    authenticate (se_endpoint_url s) (security_policy channel) (SecureChannel.security_mode channel) (aq_identity request) (se_session_nonce s) = Ok b
    /\ resolved_identity_from_activation (aq_identity request) (au_claims b) (if ua_empty (se_application_uri s) then None else se_application_uri s)
         (Some (default [] (se_endpoint_url s))) = Ok identity
    /\ s' = activate (secure_channel_id channel) (pe_nonce p) (aq_identity request) locale_ids (au_user_token b) (au_claims b)
              (resolve resolver identity) s
    /\ (security_policy channel <> PolicyNone -> signed_by_client channel request s)
    /\ (secure_channel_id channel <> se_secure_channel_id s -> may_move channel s)
    /\ Forall (fun q => ac_session_nonce (pe_activation q) <> se_session_nonce s') (sy_pending S').
Proof.
  intros HS Hstep Hd Hs Hs' Hb.
  assert (sys_inv S) as Hi by (apply reachable_inv; [done|]; apply step_drawn in Hstep; lia).
  destruct (step_binding S S' i s s' Hstep Hs Hs') as [[Hk _]|(p & b & pending & Hp & Hp' & Hst & Ha & Hco)]; [done|].
  destruct Hi as [_ _ _ Hpend _ Hun]. rewrite Hp in Hpend. apply Forall_cons in Hpend as [(_ & Hck & s0 & Hs0 & [Hurl Hver Hn]) _].
  rewrite Ha, Hs in Hs0. injection Hs0 as <-. unfold pending_checked in Hck. rewrite Hst in Hck. destruct Hck as [Hv Hau].
  pose proof (co_nonce _ _ _ _ _ _ _ Hco) as Heq. destruct (Hn Heq) as (Hprev & Hact & Hcks).
  destruct (committed_fixed _ _ _ _ _ _ _ Hco) as [_ Hnonce]. destruct (co_session _ _ _ _ _ _ _ Hco) as (identity & locale_ids & Hid & Hs1).
  exists p, b, identity, locale_ids. split; [rewrite Hp; by left|]. cbn zeta. rewrite Hurl in Hid, Hau. rewrite Heq. split; [done|]. split; [done|]. split; [done|].
  split; [|split].
  - intros Hpol. eapply committed_signed; [exact Hco|done| |exact Hv]. rewrite Hver. unfold policy_none. by rewrite bool_decide_false.
  - intros Hne. by eapply committed_moves.
  - rewrite Hp', Hnonce. assert (reserved S ≡ₚ pe_nonce p :: map pe_nonce pending ++ map draft_nonce (sy_drafts S)) as Hr by (unfold reserved; by rewrite Hp).
    rewrite Hr in Hun. apply Forall_cons in Hun as [(_ & _ & Hun) _]. rewrite Hp in Hun.
    by apply Forall_cons in Hun as [_ Hun].
Qed.

End security.

(** ** A run *)

(** The session is prepared, created and activated under its channel. *)
Definition s0 : System := mkSystem empty_manager [] [] [] [].
Definition s1 : System := mkSystem (prepared 5 empty_manager).1 [(prepared 5 empty_manager).2] [] [] [].
Definition s2 : System := mkSystem one_session [] [] [] [].
Definition fresh : SessionManager * bytes := draw 32 begun.1.
Definition first_pending (st : Stage) : Pending := mkPending server_channel first_request begun.2 fresh.2 st.
Definition s3 (st : Stage) : System := mkSystem fresh.1 [] [first_pending st] [] [].
Definition activated : SessionManager := (activate_commit server_channel first_request resolver_default user_anonymous fresh.2 begun.2 fresh.1).1.
Definition s4 : System := mkSystem activated [] [] [(server_channel, begun.2)] [].

Lemma s3_reachable : reachable config resolver_default authenticate random (s3 (Authenticated user_anonymous)).
Proof.
  apply (reach_step _ _ _ _ (s3 Verified)); [apply (reach_step _ _ _ _ (s3 Begun)); [apply (reach_step _ _ _ _ s2); [apply (reach_step _ _ _ _ s1);
    [apply (reach_step _ _ _ _ s0)|]|]|]|].
  - by apply reach_start.
  - eapply (step_prepare _ _ _ s0 5 Basic256Sha256 ModeSignAndEncrypt 7 create_request _ (Ok (prepared 5 empty_manager).2)). vm_compute. reflexivity.
  - eapply (step_create _ _ _ s1 5 (fun _ => false) (prepared 5 empty_manager).2 [] 7 one_session); [done|vm_compute; reflexivity].
  - apply (step_begin _ _ _ s2 6 server_channel first_request begun.1 begun.2 32); vm_compute; reflexivity.
  - apply (step_verify _ _ _ (s3 Begun) (first_pending Begun) []); [done|done|vm_compute; reflexivity].
  - apply (step_authenticate _ _ _ (s3 Verified) (first_pending Verified) [] user_anonymous); [done|done|vm_compute; reflexivity].
Qed.
Lemma s4_step : step config resolver_default authenticate (s3 (Authenticated user_anonymous)) s4.
Proof.
  apply (step_commit _ _ _ (s3 (Authenticated user_anonymous)) (first_pending (Authenticated user_anonymous)) [] user_anonymous activated (Ok tt));
    [done|done|vm_compute; reflexivity].
Qed.

Lemma binding_changes_by_activation_witness : let s := arc fresh.1 0 in let s' := arc activated 0 in binding s' <> binding s /\
  exists p b identity locale_ids, p ∈ sy_pending (s3 (Authenticated user_anonymous)) /\ let channel := pe_channel p in let request := pe_request p in
    authenticate (se_endpoint_url s) (security_policy channel) (SecureChannel.security_mode channel) (aq_identity request) (se_session_nonce s) = Ok b
    /\ resolved_identity_from_activation (aq_identity request) (au_claims b) (if ua_empty (se_application_uri s) then None else se_application_uri s)
         (Some (default [] (se_endpoint_url s))) = Ok identity
    /\ s' = activate (secure_channel_id channel) (pe_nonce p) (aq_identity request) locale_ids (au_user_token b) (au_claims b)
              (resolve resolver_default identity) s
    /\ (security_policy channel <> PolicyNone -> signed_by_client channel request s)
    /\ (secure_channel_id channel <> se_secure_channel_id s -> may_move channel s)
    /\ Forall (fun q => ac_session_nonce (pe_activation q) <> se_session_nonce s') (sy_pending s4).
Proof.
  cbv zeta. assert (binding (arc activated 0) <> binding (arc fresh.1 0)) as Hb by (vm_compute; discriminate). split; [exact Hb|].
  apply (binding_changes_by_activation config resolver_default authenticate random 256 ltac:(vm_compute; discriminate) random_distinct
           (s3 (Authenticated user_anonymous)) s4 0);
    [exact s3_reachable|exact s4_step|vm_compute; repeat constructor|vm_compute; reflexivity|vm_compute; reflexivity|exact Hb].
Defined.
