(* ===== verification/KeyDerivation.v ===== *)
(** * Key derivation

    The keys of a secure channel from the nonces of its handshake: the pseudo random function P_SHA
    (crypto/src/hash.rs), [derive_secure_channel_keys] of the AES policies (policy/aes.rs,
    security_policy.rs) and, for the ECC policies, the Diffie-Hellman exchange and the key schedule of
    ecc.rs.  The curves and HKDF are libraries: [EccLib] is their interface and [EccLaws] what is
    relied on.  A private scalar is drawn by the library; it is an argument here.

    The keys are consecutive parts of one stream, in the order and with the lengths that the
    specification's table tells. *)

From S2P Require Import Prelude Text StatusCode NumericRange Wire Crypto.
#[local] Open Scope Z_scope.

(** ** P_SHA (hash.rs) *)

Section prf.
Context {FT : Features} {CL : CryptoLib}.

(** The loop of [p_sha1] and [p_sha256], which differ in the digest. *)
Fixpoint p_sha_loop (fuel : nat) (a : DigestAlg) (secret seed a_last result : bytes) (length : Z) : outcome bytes :=
  if zlen result <? length then
    match fuel with
    | O => OutOfFuel
    | S fuel' =>
        let a_next := hmac a secret a_last in
        p_sha_loop fuel' a secret seed a_next (result ++ hmac a secret (a_next ++ seed)) length
    end
  else Ret result.
Definition p_sha (a : DigestAlg) (secret seed : bytes) (length : Z) : outcome bytes :=
  let! r := p_sha_loop (Z.to_nat length) a secret seed seed [] length in Ret (take (Z.to_nat length) r).
Definition p_sha1 : bytes -> bytes -> Z -> outcome bytes := p_sha Sha1.
Definition p_sha256 : bytes -> bytes -> Z -> outcome bytes := p_sha Sha256.

(** ** The AES policies *)

(** [prf] of the asymmetric signature algorithms. *)
Definition signature_prf (s : AsymmetricSignature) : bytes -> bytes -> Z -> outcome bytes :=
  match s with DsigRsaSha1 => p_sha1 | DsigRsaSha256 | DsigRsaPssSha256 => p_sha256 end.
(** [AesPolicy::prf]: the slice panics when the function gives too little. *)
Definition prf (c : AesSecurityPolicy) (secret seed : bytes) (length offset : Z) : outcome bytes :=
  let! r := signature_prf (asymmetric_signature c) secret seed (length + offset) in
  if offset + length <=? zlen r then Ret (take (Z.to_nat length) (drop (Z.to_nat offset) r)) else Panic.
Definition derive_secure_channel_keys (c : AesSecurityPolicy) (secret seed : bytes) : outcome AesDerivedKeys :=
  let! signing := signature_prf (asymmetric_signature c) secret seed (DERIVED_SIGNATURE_KEY_LENGTH c) in
  let! encrypting := prf c secret seed (key_length (symmetric_encryption c)) (DERIVED_SIGNATURE_KEY_LENGTH c) in
  let! iv := prf c secret seed (block_size (symmetric_encryption c))
               (DERIVED_SIGNATURE_KEY_LENGTH c + key_length (symmetric_encryption c)) in
  Ret {| signing_key := signing; encryption_key := encrypting; initialization_vector := iv |}.
(** [make_secure_channel_keys]: the ECC policies and None have no keys from nonces. *)
Definition make_secure_channel_keys (p : SecurityPolicy) (secret seed : bytes) : outcome AesDerivedKeys :=
  match p with
  | EccNistP256 | EccNistP384 => Panic
  | _ => let! k := call_with_policy p (fun i =>
           match i with NonePolicy => Panic | AesPolicy c => derive_secure_channel_keys c secret seed end) in k
  end.
End prf.

(** ** ECC (ecc.rs) *)

Inductive EccCurve : Set := P256 | P384.
#[export] Instance EccCurve_eq_dec : EqDecision EccCurve.
Proof. solve_decision. Defined.

(** The crates p256, p384 and hkdf: is a scalar a private key, the public key of one as an uncompressed
    point, is an encoded point on the curve, the x-coordinate of the product, and extraction with expansion. *)
Class EccLib := {
  secret_from_slice : EccCurve -> bytes -> bool;
  public_point : EccCurve -> bytes -> bytes;
  public_from_sec1 : EccCurve -> bytes -> bool;
  diffie_hellman : EccCurve -> bytes -> bytes -> bytes;
  hkdf : EccCurve -> bytes -> bytes -> bytes -> Z -> option bytes
}.

Definition curve_from_security_policy (p : SecurityPolicy) : result EccCurve StatusCode :=
  match p with EccNistP256 => Ok P256 | EccNistP384 => Ok P384 | _ => Err BadSecurityPolicyRejected end.
Definition encoded_public_key_len (c : EccCurve) : Z := match c with P256 => 64 | P384 => 96 end.
Definition scalar_len (c : EccCurve) : Z := match c with P256 => 32 | P384 => 48 end.

(** A private key is a curve with a scalar, a public key a curve with the coordinates of a point. *)
Record EphemeralPrivateKey := mkEphemeralPrivate { private_curve : EccCurve; scalar : bytes }.
Record EphemeralPublicKey := mkEphemeralPublic { public_curve : EccCurve; encoded : bytes }.
Record SecurityKeys := mkSecurityKeys { client_keys : AesDerivedKeys; server_keys : AesDerivedKeys }.

Section ecc.
Context {EL : EccLib}.

Definition sec1_from_xy (c : EccCurve) (xy : bytes) : result bytes StatusCode :=
  if negb (zlen xy =? encoded_public_key_len c) then Err BadInvalidArgument
  else let sec1 := 4 :: xy in if public_from_sec1 c sec1 then Ok sec1 else Err BadInvalidArgument.
Definition derive_public_key (c : EccCurve) (s : bytes) : result bytes StatusCode :=
  if secret_from_slice c s then
    match public_point c s with _ :: xy => Ok xy | [] => Err BadInvalidArgument end
  else Err BadInvalidArgument.
Definition private_public_key (k : EphemeralPrivateKey) : result EphemeralPublicKey StatusCode :=
  let? xy := derive_public_key (private_curve k) (scalar k) in Ok (mkEphemeralPublic (private_curve k) xy).
(** [generate_ephemeral_keypair] with the scalar that the library draws. *)
Definition generate_ephemeral_keypair (c : EccCurve) (drawn : bytes) : result (EphemeralPrivateKey * EphemeralPublicKey) StatusCode :=
  let k := mkEphemeralPrivate c drawn in
  let? pub := private_public_key k in Ok (k, pub).
Definition decode_public_key (c : EccCurve) (xy : bytes) : result EphemeralPublicKey StatusCode :=
  let? _ := sec1_from_xy c xy in Ok (mkEphemeralPublic c xy).
Definition ecdh_shared_secret (k : EphemeralPrivateKey) (peer : EphemeralPublicKey) : result bytes StatusCode :=
  if negb (bool_decide (private_curve k = public_curve peer)) then Err BadInvalidArgument
  else
    let? sec1 := sec1_from_xy (public_curve peer) (encoded peer) in
    if negb (secret_from_slice (private_curve k) (scalar k)) then Err BadInvalidArgument
    else if negb (public_from_sec1 (private_curve k) sec1) then Err BadInvalidArgument
    else Ok (diffie_hellman (private_curve k) (scalar k) sec1).

(** The lengths of the signing key, the encryption key and the initialization vector. *)
Definition ecc_key_lengths (c : EccCurve) : Z * Z * Z := match c with P256 => (32, 16, 16) | P384 => (48, 32, 16) end.
Definition key_material_len (c : EccCurve) : Z := let '(s, e, i) := ecc_key_lengths c in s + e + i.
Definition build_hkdf_salt (c : EccCurve) (label first_nonce second_nonce : bytes) : result bytes StatusCode :=
  if key_material_len c <=? 65535 then Ok (le_bytes 2 (key_material_len c) ++ label ++ first_nonce ++ second_nonce)
  else Err BadInvalidArgument.
(** [<[u8]>::get] of a range. *)
Definition get_range (start stop : Z) (l : bytes) : option bytes :=
  if (start <=? stop) && (stop <=? zlen l) then Some (take (Z.to_nat (stop - start)) (drop (Z.to_nat start) l)) else None.
Definition split_derived_keys (c : EccCurve) (m : bytes) : result AesDerivedKeys StatusCode :=
  let '(s, e, i) := ecc_key_lengths c in
  let? signing := ok_or (get_range 0 s m) BadInvalidArgument in
  let? encrypting := ok_or (get_range s (s + e) m) BadInvalidArgument in
  let? iv := ok_or (get_range (s + e) (s + e + i) m) BadInvalidArgument in
  Ok {| signing_key := signing; encryption_key := encrypting; initialization_vector := iv |}.
(** [hkdf_expand_sha256] and [hkdf_expand_sha384]: the salt is also the info. *)
Definition hkdf_expand (c : EccCurve) (shared_secret salt : bytes) (output_len : Z) : result bytes StatusCode :=
  ok_or (hkdf c shared_secret salt salt output_len) BadInvalidArgument.

(** [ecc::derive_keys]. *)
Definition ecc_derive_keys (p : SecurityPolicy) (shared_secret client_nonce server_nonce : bytes) : result SecurityKeys StatusCode :=
  let? c := curve_from_security_policy p in
  if negb (zlen shared_secret =? scalar_len c) then Err BadInvalidArgument
  else
    let? client_salt := build_hkdf_salt c (str "opcua-client") client_nonce server_nonce in
    let? server_salt := build_hkdf_salt c (str "opcua-server") server_nonce client_nonce in
    let? client := hkdf_expand c shared_secret client_salt (key_material_len c) in
    let? server := hkdf_expand c shared_secret server_salt (key_material_len c) in
    let? client := split_derived_keys c client in
    let? server := split_derived_keys c server in
    Ok (mkSecurityKeys client server).
End ecc.

(** What the libraries promise: public keys are points, both sides compute the same product, which is a
    coordinate, and the output has the length that was asked for. *)
Class EccLaws (EL : EccLib) : Prop := {
  public_point_encoded c s : secret_from_slice c s = true ->
    exists xy, public_point c s = 4 :: xy /\ zlen xy = encoded_public_key_len c /\ public_from_sec1 c (4 :: xy) = true;
  diffie_hellman_agrees c s t : secret_from_slice c s = true -> secret_from_slice c t = true ->
    diffie_hellman c s (public_point c t) = diffie_hellman c t (public_point c s);
  diffie_hellman_len c s t : secret_from_slice c s = true -> secret_from_slice c t = true ->
    zlen (diffie_hellman c s (public_point c t)) = scalar_len c;
  hkdf_len c ikm salt info n : 0 <= n <= 255 * 32 -> exists out, hkdf c ikm salt info n = Some out /\ zlen out = n
}.

(** ** Lemmas *)

Section prf_facts.
Context {FT : Features} {CL : CryptoLib} {SL : SymmetricLaws CL}.

Lemma digest_size_pos a : 20 <= digest_size a.
Proof. by destruct a. Qed.

(** The first [k] blocks of the stream that follows [a_last]. *)
Fixpoint sha_blocks (a : DigestAlg) (secret seed a_last : bytes) (k : nat) : bytes :=
  match k with
  | O => []
  | S k' => let a_next := hmac a secret a_last in hmac a secret (a_next ++ seed) ++ sha_blocks a secret seed a_next k'
  end.
Lemma sha_blocks_len a secret seed k : forall a_last, zlen (sha_blocks a secret seed a_last k) = Z.of_nat k * digest_size a.
Proof. induction k as [|k IH]; intros a_last; cbn [sha_blocks]; [done|]. rewrite zlen_app, IH, hmac_size. lia. Qed.
Lemma sha_blocks_prefix a secret seed j k : forall a_last, (j <= k)%nat ->
  exists rest, sha_blocks a secret seed a_last k = sha_blocks a secret seed a_last j ++ rest.
Proof.
  revert k. induction j as [|j IH]; intros k a_last Hjk; [by eexists|]. destruct k as [|k]; [lia|]. cbn [sha_blocks].
  destruct (IH k (hmac a secret a_last) ltac:(lia)) as [rest ->]. exists rest. by rewrite app_assoc.
Qed.

Lemma p_sha_loop_spec a secret seed len fuel : forall a_last result, len - zlen result <= Z.of_nat fuel * digest_size a ->
  exists k, p_sha_loop fuel a secret seed a_last result len = Ret (result ++ sha_blocks a secret seed a_last k)
    /\ len <= zlen result + Z.of_nat k * digest_size a.
Proof.
  induction fuel as [|fuel IH]; intros a_last result Hf; cbn [p_sha_loop]; destruct (Z.ltb_spec (zlen result) len).
  - lia.
  - exists 0%nat. cbn. rewrite app_nil_r. split; [done|lia].
  - destruct (IH (hmac a secret a_last) (result ++ hmac a secret (hmac a secret a_last ++ seed))) as (k & -> & Hk).
    { rewrite zlen_app, hmac_size. lia. }
    exists (S k). cbn [sha_blocks]. rewrite <- app_assoc. split; [done|]. rewrite zlen_app, hmac_size in Hk. lia.
  - exists 0%nat. cbn. rewrite app_nil_r. split; [done|lia].
Qed.

(** P_SHA returns, and gives the front of the stream. *)
Lemma p_sha_spec a secret seed len k : 0 <= len <= Z.of_nat k * digest_size a ->
  p_sha a secret seed len = Ret (take (Z.to_nat len) (sha_blocks a secret seed seed k)).
Proof.
  intros Hk. unfold p_sha. pose proof (digest_size_pos a) as Ha.
  destruct (p_sha_loop_spec a secret seed len (Z.to_nat len) seed []) as (j & -> & Hj); [change (zlen []) with 0; rewrite Z2Nat.id by lia; nia|].
  cbn [outcome_bind app]. f_equal. change (zlen []) with 0 in Hj.
  assert (forall i n, (i <= n)%nat -> len <= Z.of_nat i * digest_size a ->
    take (Z.to_nat len) (sha_blocks a secret seed seed i) = take (Z.to_nat len) (sha_blocks a secret seed seed n)) as Hsame.
  { intros i n Hin Hi. destruct (sha_blocks_prefix a secret seed i n seed Hin) as [rest ->]. rewrite take_app_le; [done|].
    pose proof (sha_blocks_len a secret seed i seed). unfold zlen in *. lia. }
  destruct (Nat.le_ge_cases j k); [apply Hsame|symmetry; apply Hsame]; lia.
Qed.
Lemma p_sha_len a secret seed len r : 0 <= len -> p_sha a secret seed len = Ret r -> zlen r = len.
Proof.
  intros Hl. pose proof (digest_size_pos a). rewrite (p_sha_spec a secret seed len (Z.to_nat len)) by nia. intros [= <-].
  pose proof (sha_blocks_len a secret seed (Z.to_nat len) seed). unfold zlen in *. rewrite length_take. nia.
Qed.
(** A longer output starts with a shorter one. *)
Lemma p_sha_prefix a secret seed m n : 0 <= m <= n -> exists s, p_sha a secret seed n = Ret s /\ zlen s = n /\ p_sha a secret seed m = Ret (take (Z.to_nat m) s).
Proof.
  intros Hmn. pose proof (digest_size_pos a). eexists. split; [apply (p_sha_spec a secret seed n (Z.to_nat n)); nia|].
  split; [eapply p_sha_len; [lia|]; apply (p_sha_spec a secret seed n (Z.to_nat n)); nia|].
  rewrite (p_sha_spec a secret seed m (Z.to_nat n)) by nia. by rewrite take_take, Nat.min_l by lia.
Qed.

Definition prf_digest (s : AsymmetricSignature) : DigestAlg := match s with DsigRsaSha1 => Sha1 | _ => Sha256 end.
Lemma signature_prf_sha s secret seed len : signature_prf s secret seed len = p_sha (prf_digest s) secret seed len.
Proof. by destruct s. Qed.

Definition total_key_len (c : AesSecurityPolicy) : Z :=
  DERIVED_SIGNATURE_KEY_LENGTH c + key_length (symmetric_encryption c) + block_size (symmetric_encryption c).
(** The keys cut the stream. *)
Lemma derive_keys_cut c secret seed : 0 <= DERIVED_SIGNATURE_KEY_LENGTH c ->
  exists ks, derive_secure_channel_keys c secret seed = Ret ks
    /\ p_sha (prf_digest (asymmetric_signature c)) secret seed (total_key_len c)
       = Ret (signing_key ks ++ encryption_key ks ++ initialization_vector ks)
    /\ zlen (signing_key ks) = DERIVED_SIGNATURE_KEY_LENGTH c
    /\ zlen (encryption_key ks) = key_length (symmetric_encryption c)
    /\ zlen (initialization_vector ks) = block_size (symmetric_encryption c).
Proof.
  intros Hs. unfold derive_secure_channel_keys, prf. rewrite !signature_prf_sha. set (a := prf_digest _).
  set (n := DERIVED_SIGNATURE_KEY_LENGTH c) in *. set (e := key_length _). set (b := block_size _).
  assert (0 <= e /\ 0 <= b) as [He Hb] by (unfold e, b; by destruct (symmetric_encryption c)).
  destruct (p_sha_prefix a secret seed n (n + e + b) ltac:(lia)) as (s & Hs1 & Hl & ->).
  destruct (p_sha_prefix a secret seed (e + n) (n + e + b) ltac:(lia)) as (s2 & Hs2 & _ & ->). rewrite Hs1 in Hs2. injection Hs2 as <-.
  replace (b + (n + e)) with (n + e + b) by lia. rewrite Hs1. cbn [outcome_bind].
  assert (zlen (take (Z.to_nat (e + n)) s) = e + n) as Hl2 by (unfold zlen in *; rewrite length_take; lia). rewrite Hl2, Hl.
  destruct (Z.leb_spec (n + e) (e + n)) as [_|Hx]; [|lia]. destruct (Z.leb_spec (n + e + b) (n + e + b)) as [_|Hx]; [|lia]. cbn [outcome_bind].
  eexists. split; [done|]. cbn [signing_key encryption_key initialization_vector]. unfold total_key_len. fold n e b. rewrite Hs1.
  assert (take (Z.to_nat b) (drop (Z.to_nat (n + e)) s) = drop (Z.to_nat (n + e)) s) as Hiv.
  { apply take_ge. unfold zlen in Hl. rewrite length_drop. lia. }
  assert (take (Z.to_nat e) (drop (Z.to_nat n) (take (Z.to_nat (e + n)) s)) = take (Z.to_nat e) (drop (Z.to_nat n) s)) as Hen.
  { replace (Z.to_nat (e + n)) with (Z.to_nat n + Z.to_nat e)%nat by lia. rewrite <- take_drop_commute. rewrite take_take, Nat.min_id. done. }
  rewrite Hiv, Hen. unfold zlen in *. split; [|rewrite !length_take, ?length_drop; lia].
  f_equal. replace (Z.to_nat (n + e)) with (Z.to_nat n + Z.to_nat e)%nat by lia. rewrite <- drop_drop, take_drop, take_drop. done.
Qed.
End prf_facts.

(** ** The function of the specification *)

(** P_HASH of RFC 5246: A(0) is the seed, A(i) = HMAC(secret, A(i-1)), and the stream is
    HMAC(secret, A(1) + seed) + HMAC(secret, A(2) + seed) + ..., of which the first [n] bytes are taken. *)
Section p_hash.
Context {CL : CryptoLib} {SL : SymmetricLaws CL}.
Definition p_hash_a (a : DigestAlg) (secret seed : bytes) (i : nat) : bytes := Nat.iter i (hmac a secret) seed.
Definition p_hash (a : DigestAlg) (secret seed : bytes) (n : Z) : bytes :=
  take (Z.to_nat n) (concat (map (fun i => hmac a secret (p_hash_a a secret seed (S i) ++ seed)) (seq 0 (Z.to_nat n)))).

Lemma sha_blocks_p_hash a secret seed k : forall i,
  sha_blocks a secret seed (p_hash_a a secret seed i) k
  = concat (map (fun i => hmac a secret (p_hash_a a secret seed (S i) ++ seed)) (seq i k)).
Proof. induction k as [|k IH]; intros i; [done|]. cbn [sha_blocks seq map concat]. f_equal. apply (IH (S i)). Qed.
Lemma p_sha_p_hash {FT : Features} a secret seed n : 0 <= n -> p_sha a secret seed n = Ret (p_hash a secret seed n).
Proof.
  intros Hn. pose proof (digest_size_pos a). rewrite (p_sha_spec a secret seed n (Z.to_nat n)) by nia. unfold p_hash.
  by rewrite <- (sha_blocks_p_hash a secret seed (Z.to_nat n) 0).
Qed.
End p_hash.
(** The digest, the length of the signing key and the length of the encryption key of each RSA policy in
    the specification (Part 7); the initialization vector has 16 bytes. *)
Definition key_table (p : SecurityPolicy) : option (DigestAlg * Z * Z) :=
  match p with
  | Basic128Rsa15 => Some (Sha1, 16, 16)
  | Basic256 => Some (Sha1, 24, 32)
  | Basic256Sha256 => Some (Sha256, 32, 32)
  | Aes128Sha256RsaOaep => Some (Sha256, 32, 16)
  | Aes256Sha256RsaPss => Some (Sha256, 32, 32)
  | _ => None
  end.
