(* ===== verification/ChannelTokens.v ===== *)
(** * The tokens of a secure channel

    Opening and renewing a secure channel: the state of a channel beyond framing with its tokens,
    nonces and derived keys (core/src/comms/secure_channel/state.rs), OpenSecureChannel in the server
    (server/src/session/controller.rs, secure_channel_state.rs) and the two halves of it in the client
    (client/src/transport/state.rs).  Times are nanoseconds; one call reads the clock once.  The random
    bytes that a call draws are an argument, as is the validation of certificates against the store.
    Audits, metrics and the encoding context are left out. *)

From S2P Require Import Prelude Text StatusCode Float NumericRange Variant Wire Crypto Chunk SecureChannel AsymmetricSecurity KeyDerivation.
#[local] Open Scope Z_scope.

Definition BadProtocolVersionUnsupported : StatusCode := 0x80BE0000.
Definition BadNonceInvalid : StatusCode := 0x80240000.

(** ** State *)

Record TokenChannel `{Pki} := mkTokenChannel {
  channel : SecureChannel;
  token_created_at : Z;
  token_lifetime : Z;
  local_nonce : bytes;
  remote_nonce : bytes;
  local_ephemeral_key : option EphemeralPrivateKey
}.
Record ChannelSecurityToken := mkToken { channel_id : Z; ct_token_id : Z; created_at : Z; revised_lifetime : Z }.

Definition millis (ms : Z) : Z := ms * 1000000.

Section state.
Context `{PK : Pki}.

(** The fields of the framing state that the handshake sets. *)
Definition update_channel (r : Role) (mode : MessageSecurityMode) (id token : Z) (remote : option X509) (local : option AesDerivedKeys)
    (thumbprint : bool) (keys : gmap Z RemoteKeys) (sc : SecureChannel) : SecureChannel :=
  {| role := r; allow_deprecated := allow_deprecated sc; security_policy := security_policy sc;
     security_policy_valid := security_policy_valid sc; security_mode := mode; secure_channel_id := id; token_id := token;
     cert := cert sc; private_key := private_key sc; remote_cert := remote; local_keys := local;
     first_request_signature := first_request_signature sc; apply_channel_thumbprint := thumbprint; remote_keys := keys;
     peer_max_response_body_size := peer_max_response_body_size sc; decoding_options := decoding_options sc |}.
Definition set_role r sc := update_channel r (security_mode sc) (secure_channel_id sc) (token_id sc) (remote_cert sc) (local_keys sc)
  (apply_channel_thumbprint sc) (remote_keys sc) sc.
Definition set_security_mode m sc := update_channel (role sc) m (secure_channel_id sc) (token_id sc) (remote_cert sc) (local_keys sc)
  (apply_channel_thumbprint sc) (remote_keys sc) sc.
Definition set_secure_channel_id id sc := update_channel (role sc) (security_mode sc) id (token_id sc) (remote_cert sc) (local_keys sc)
  (apply_channel_thumbprint sc) (remote_keys sc) sc.
Definition set_token_id t sc := update_channel (role sc) (security_mode sc) (secure_channel_id sc) t (remote_cert sc) (local_keys sc)
  (apply_channel_thumbprint sc) (remote_keys sc) sc.
Definition set_remote_cert c sc := update_channel (role sc) (security_mode sc) (secure_channel_id sc) (token_id sc) c (local_keys sc)
  (apply_channel_thumbprint sc) (remote_keys sc) sc.
Definition set_local_keys k sc := update_channel (role sc) (security_mode sc) (secure_channel_id sc) (token_id sc) (remote_cert sc) k
  (apply_channel_thumbprint sc) (remote_keys sc) sc.
Definition set_apply_channel_thumbprint b sc := update_channel (role sc) (security_mode sc) (secure_channel_id sc) (token_id sc) (remote_cert sc)
  (local_keys sc) b (remote_keys sc) sc.
Definition set_remote_keys k sc := update_channel (role sc) (security_mode sc) (secure_channel_id sc) (token_id sc) (remote_cert sc) (local_keys sc)
  (apply_channel_thumbprint sc) k sc.

Definition on_channel (f : SecureChannel -> SecureChannel) (t : TokenChannel) : TokenChannel :=
  mkTokenChannel _ (f (channel t)) (token_created_at t) (token_lifetime t) (local_nonce t) (remote_nonce t) (local_ephemeral_key t).
Definition set_token_lifetime n t : TokenChannel :=
  mkTokenChannel _ (channel t) (token_created_at t) n (local_nonce t) (remote_nonce t) (local_ephemeral_key t).
Definition set_token_created_at n t : TokenChannel :=
  mkTokenChannel _ (channel t) n (token_lifetime t) (local_nonce t) (remote_nonce t) (local_ephemeral_key t).
Definition set_local_nonce n t : TokenChannel :=
  mkTokenChannel _ (channel t) (token_created_at t) (token_lifetime t) n (remote_nonce t) (local_ephemeral_key t).
Definition set_remote_nonce n t : TokenChannel :=
  mkTokenChannel _ (channel t) (token_created_at t) (token_lifetime t) (local_nonce t) n (local_ephemeral_key t).
Definition set_local_ephemeral_key k t : TokenChannel :=
  mkTokenChannel _ (channel t) (token_created_at t) (token_lifetime t) (local_nonce t) (remote_nonce t) (Some k).

Definition clear_security_token (now : Z) (t : TokenChannel) : TokenChannel :=
  set_token_lifetime 0 (set_token_created_at now (on_channel (fun sc => set_token_id 0 (set_secure_channel_id 0 sc)) t)).
Definition set_security_token (k : ChannelSecurityToken) (t : TokenChannel) : TokenChannel :=
  set_token_lifetime (revised_lifetime k) (set_token_created_at (created_at k)
    (on_channel (fun sc => set_token_id (ct_token_id k) (set_secure_channel_id (channel_id k) sc)) t)).

(** Three quarters of the lifetime; the product is of [u32]. *)
Definition should_renew_security_token (now : Z) (t : TokenChannel) : bool :=
  if token_id (channel t) =? 0 then false
  else millis (wrap32 (token_lifetime t * 3) / 4) <? now - token_created_at t.
(** The deadline of the server for a renewal, an instant of its clock; the lifetime counts as seconds. *)
Definition token_renewal_deadline (now : Z) (t : TokenChannel) : Z :=
  let deadline := token_created_at t + millis (token_lifetime t * 4 / 3 * 1000) in
  let until_expiration := Z.quot (deadline - now) 1000000 in
  if until_expiration <? 0 then now else now + millis until_expiration.

(** [local_nonce_as_byte_string]. *)
Definition nonce_byte_string (n : bytes) : ByteString := match n with [] => None | _ => Some n end.

Definition set_remote_cert_from_byte_string (b : ByteString) (t : TokenChannel) : TokenChannel * result unit StatusCode :=
  match b with
  | None | Some [] => (on_channel (set_remote_cert None) t, Ok tt)
  | _ => match x509_from_byte_string b with
         | Ok c => (on_channel (set_remote_cert (Some c)) t, Ok tt)
         | Err e => (t, Err e)
         end
  end.

(** *** Nonces *)

Context {FT : Features} {CL : CryptoLib} {EL : EccLib}.

Definition len_of (b : ByteString) : Z := match b with Some l => zlen l | None => 0 end.
Definition validate_secure_channel_nonce_length (nonce : ByteString) (t : TokenChannel) : outcome (result unit StatusCode) :=
  match security_policy (channel t) with
  | PolicyNone => Ret (Ok tt)
  | p => let! n := secure_channel_nonce_length p in Ret (if len_of nonce =? n then Ok tt else Err BadNonceInvalid)
  end.
Definition set_remote_nonce_from_byte_string (nonce : ByteString) (t : TokenChannel) : TokenChannel * result unit StatusCode :=
  match nonce with
  | Some n => (set_remote_nonce n t, Ok tt)
  | None => (t, match security_policy (channel t) with PolicyNone => Ok tt | _ => Err BadNonceInvalid end)
  end.
(** [create_local_nonce]: [random] gives the bytes for a nonce or the scalar of an ECC key. *)
Definition create_local_nonce (random : Z -> bytes) (t : TokenChannel) : outcome (TokenChannel * result unit StatusCode) :=
  let p := security_policy (channel t) in
  if ecc && is_ecc p then
    Ret match curve_from_security_policy p with
        | Err e => (t, Err e)
        | Ok c => match generate_ephemeral_keypair c (random (scalar_len c)) with
                  | Err e => (t, Err e)
                  | Ok (k, pub) => (set_local_ephemeral_key k (set_local_nonce (encoded pub) t), Ok tt)
                  end
        end
  else let! n := secure_channel_nonce_length p in Ret (set_local_nonce (random n) t, Ok tt).

(** *** Keys *)

(** [(self.token_lifetime as f32 * 1.25).ceil() as i64]: how long keys are kept, in milliseconds. *)
Definition f32_ceil (a : f32) : Z :=
  match a with
  | S754_finite s m e => let v := (if s then -1 else 1) * Zpos m in if 0 <=? e then v * 2 ^ e else - ((- v) / 2 ^ (- e))
  | _ => 0
  end.
Definition key_grace_ms (lifetime : Z) : Z := f32_ceil (SFmul 24 128 (f32_make lifetime 0) (f32_make 5 (-2))).

Definition insert_remote_keys (now : Z) (ks : AesDerivedKeys) (t : TokenChannel) : TokenChannel :=
  on_channel (fun sc =>
    let kept := base.filter (fun x => now < expires_at x.2) (remote_keys sc) in
    set_remote_keys (<[token_id sc := {| keys := ks; expires_at := token_created_at t + millis (key_grace_ms (token_lifetime t)) |}]> kept) sc) t.

(** [derive_ecc_keys]: without a key of its own the channel is left as it is, on any other failure it loses its keys. *)
Definition derive_ecc_keys (now : Z) (t : TokenChannel) : TokenChannel :=
  match local_ephemeral_key t with
  | None => t
  | Some own =>
      let derived :=
        let? c := curve_from_security_policy (security_policy (channel t)) in
        let? peer := decode_public_key c (remote_nonce t) in
        let? secret := ecdh_shared_secret own peer in
        if is_client_role (channel t) then ecc_derive_keys (security_policy (channel t)) secret (local_nonce t) (remote_nonce t)
        else ecc_derive_keys (security_policy (channel t)) secret (remote_nonce t) (local_nonce t) in
      match derived with
      | Ok ks =>
          if is_client_role (channel t) then insert_remote_keys now (server_keys ks) (on_channel (set_local_keys (Some (client_keys ks))) t)
          else insert_remote_keys now (client_keys ks) (on_channel (set_local_keys (Some (server_keys ks))) t)
      | Err _ => on_channel (set_local_keys None) t
      end
  end.
Definition derive_keys (now : Z) (t : TokenChannel) : outcome TokenChannel :=
  let p := security_policy (channel t) in
  if ecc && is_ecc p then Ret (derive_ecc_keys now t)
  else
    let! remote := make_secure_channel_keys p (local_nonce t) (remote_nonce t) in
    let t := insert_remote_keys now remote t in
    let! local := make_secure_channel_keys p (remote_nonce t) (local_nonce t) in
    Ret (on_channel (set_local_keys (Some local)) t).
End state.

(** ** OpenSecureChannel *)

Inductive SecurityTokenRequestType : Set := Issue | Renew.
#[export] Instance SecurityTokenRequestType_eq_dec : EqDecision SecurityTokenRequestType.
Proof. solve_decision. Defined.
Record OpenSecureChannelRequest := mkOpenRequest {
  client_protocol_version : Z; request_type : SecurityTokenRequestType; oq_security_mode : MessageSecurityMode;
  client_nonce : ByteString; requested_lifetime : Z
}.
Record OpenSecureChannelResponse := mkOpenResponse { security_token : ChannelSecurityToken; server_nonce : ByteString }.
(** The answer of a service: a response or a fault. *)
Inductive OpenReply := Opened (r : OpenSecureChannelResponse) | Fault (s : StatusCode).

(** *** The server *)

(** [AtomicHandle]; alone, [next] starts again at [first] after the overflow. *)
Record AtomicHandle := mkAtomicHandle { ah_next : Z; ah_first : Z }.
Definition atomic_handle_next (h : AtomicHandle) : AtomicHandle * Z :=
  let val := ah_next h in
  if val <? ah_first h then (mkAtomicHandle (ah_first h + 1) (ah_first h), ah_first h)
  else (mkAtomicHandle (wrap32 (val + 1)) (ah_first h), val).

(** [SecureChannelState]; the handle is shared by all connections. *)
Record SecureChannelState := mkChannelState { issued : bool; renew_count : Z; channel_ids : AtomicHandle; last_token_id : Z }.
Definition create_secure_channel_id (s : SecureChannelState) : SecureChannelState * Z :=
  let '(h, id) := atomic_handle_next (channel_ids s) in (mkChannelState (issued s) (renew_count s) h (last_token_id s), id).
Definition create_token_id (s : SecureChannelState) : SecureChannelState * Z :=
  let n := wrap32 (last_token_id s + 1) in (mkChannelState (issued s) (renew_count s) (channel_ids s) n, n).
Definition set_issued (s : SecureChannelState) : SecureChannelState := mkChannelState true (renew_count s) (channel_ids s) (last_token_id s).
Definition count_renewal (s : SecureChannelState) : SecureChannelState :=
  mkChannelState (issued s) (wrap_usize (renew_count s + 1)) (channel_ids s) (last_token_id s).

Definition DEFAULT_SECURE_CHANNEL_LIFETIME_BACKSTOP_MS : Z := 300000.
Definition revise_secure_channel_lifetime (requested max : Z) : Z :=
  let revised := if max =? 0 then requested else if requested =? 0 then max else Z.min requested max in
  if revised =? 0 then DEFAULT_SECURE_CHANNEL_LIFETIME_BACKSTOP_MS else revised.

Section open.
Context `{PK : Pki} {FT : Features} {CL : CryptoLib} {EL : EccLib}.

Record ServerConnection := mkServer { sv_channel : TokenChannel; sv_state : SecureChannelState }.

(** The configured maximum and the check of a certificate against the store. *)
Variable max_lifetime : Z.
Variable validate_certificate : X509 -> SecurityPolicy -> result unit StatusCode.

(** Which channel the request is for. *)
Definition requested_channel (request : OpenSecureChannelRequest) (c : ServerConnection) : ServerConnection * result (OpenReply + Z) StatusCode :=
  match request_type request with
  | Issue => let '(s, id) := create_secure_channel_id (sv_state c) in (mkServer (sv_channel c) s, Ok (inr id))
  | Renew =>
      if negb (bool_decide (security_policy (channel (sv_channel c)) = PolicyNone))
         && bool_decide (default [] (client_nonce request) = remote_nonce (sv_channel c)) then (c, Ok (inl (Fault BadNonceInvalid)))
      else if negb (issued (sv_state c)) then (c, Err BadSecureChannelIdInvalid)
      else (mkServer (sv_channel c) (count_renewal (sv_state c)), Ok (inr (secure_channel_id (channel (sv_channel c)))))
  end.
Definition certificate_accepted (t : TokenChannel) : bool :=
  match security_policy (channel t), remote_cert (channel t) with
  | PolicyNone, _ | _, None => true
  | p, Some c => match validate_certificate c p with Ok _ => true | Err _ => false end
  end.

(** From the revised lifetime to the response. *)
Definition issue_token (now : Z) (random : Z -> bytes) (request : OpenSecureChannelRequest) (s : SecureChannelState) (t : TokenChannel)
    : outcome (ServerConnection * result OpenReply StatusCode) :=
  let lifetime := revise_secure_channel_lifetime (requested_lifetime request) max_lifetime in
  let t := set_token_lifetime lifetime t in
  let! valid := validate_secure_channel_nonce_length (client_nonce request) t in
  match valid with
  | Err e => Ret (mkServer t s, Err e)
  | Ok _ =>
      let '(t, r) := set_remote_nonce_from_byte_string (client_nonce request) t in
      match r with
      | Err e => Ret (mkServer t s, Err e)
      | Ok _ =>
          let p := security_policy (channel t) in
          let t := if ecc && is_ecc p then on_channel (set_apply_channel_thumbprint (bool_decide (request_type request = Issue))) t else t in
          let! (t, r) := create_local_nonce random t in
          match r with
          | Err e => Ret (mkServer t s, Err e)
          | Ok _ =>
              let! t :=
                if negb (bool_decide (p = PolicyNone)) && match oq_security_mode request with ModeSign | ModeSignAndEncrypt => true | _ => false end
                then derive_keys now t else Ret t in
              Ret (mkServer t s, Ok (Opened (mkOpenResponse
                     (mkToken (secure_channel_id (channel t)) (token_id (channel t)) now lifetime) (nonce_byte_string (local_nonce t)))))
          end
      end
  end.

(** [SessionController::open_secure_channel]. *)
Definition open_secure_channel (now : Z) (random : Z -> bytes) (header : SecurityHeader) (hello_version : Z) (request : OpenSecureChannelRequest)
    (c : ServerConnection) : outcome (ServerConnection * result OpenReply StatusCode) :=
  match header with
  | Symmetric _ => Ret (c, Err BadUnexpectedError)
  | Asymmetric h =>
      if negb (client_protocol_version request =? hello_version) then Ret (c, Ok (Fault BadProtocolVersionUnsupported))
      else
        let '(c, r) := requested_channel request c in
        match r with
        | Err e => Ret (c, Err e)
        | Ok (inl f) => Ret (c, Ok f)
        | Ok (inr id) =>
            if bool_decide (oq_security_mode request = ModeInvalid) then Ret (c, Ok (Fault BadSecurityModeRejected))
            else
              let '(s, token) := create_token_id (set_issued (sv_state c)) in
              let t := on_channel (fun sc => set_secure_channel_id id (set_token_id token (set_security_mode (oq_security_mode request) sc))) (sv_channel c) in
              let '(t, r) := set_remote_cert_from_byte_string (sender_certificate h) t in
              match r with
              | Err e => Ret (mkServer t s, Err e)
              | Ok _ =>
                  if negb (certificate_accepted t) then Ret (mkServer t s, Ok (Fault BadSecurityChecksFailed))
                  else issue_token now random request s t
              end
        end
  end.

(** *** The client *)

(** [begin_issue_or_renew_secure_channel]. *)
Definition begin_issue_or_renew (random : Z -> bytes) (type : SecurityTokenRequestType) (lifetime : Z) (t : TokenChannel)
    : outcome (TokenChannel * result OpenSecureChannelRequest StatusCode) :=
  let! (t, r) := create_local_nonce random (on_channel (set_role RoleClient) t) in
  match r with
  | Err e => Ret (t, Err e)
  | Ok _ =>
      let nonce := nonce_byte_string (local_nonce t) in
      let t := if ecc && is_ecc (security_policy (channel t)) then on_channel (set_apply_channel_thumbprint (bool_decide (type = Issue))) t else t in
      Ret (t, Ok (mkOpenRequest 0 type (security_mode (channel t)) nonce lifetime))
  end.
(** [end_issue_or_renew_secure_channel]; [skew] is the difference of the clocks when the client compensates for it. *)
Definition end_issue_or_renew (now : Z) (skew : option Z) (response : OpenSecureChannelResponse) (t : TokenChannel)
    : outcome (TokenChannel * result unit StatusCode) :=
  let token := security_token response in
  let token := match skew with
               | Some offset => mkToken (channel_id token) (ct_token_id token) (created_at token - offset) (revised_lifetime token)
               | None => token end in
  let existing := secure_channel_id (channel t) in
  if negb (existing =? 0) && negb (existing =? channel_id token) then Ret (t, Err BadSecureChannelIdInvalid)
  else
    let t := set_security_token token t in
    if is_secure_connection (channel t) then
      let! valid := validate_secure_channel_nonce_length (server_nonce response) t in
      match valid with
      | Err e => Ret (t, Err e)
      | Ok _ =>
          let '(t, r) := set_remote_nonce_from_byte_string (server_nonce response) t in
          match r with
          | Err e => Ret (t, Err e)
          | Ok _ => let! t := derive_keys now t in Ret (t, Ok tt)
          end
      end
    else Ret (t, Ok tt).
End open.
