(* ===== verification/ChannelTokensFacts.v ===== *)
(** * Facts on the tokens of a secure channel

    A client and a server that exchange OpenSecureChannel, to open or to renew a channel, derive the
    same keys, for the RSA policies and for the ECC policies, so that every message either of them
    secures under the new token is accepted by the other; what becomes of the keys of the previous
    tokens. *)

From S2P Require Import Prelude Text StatusCode Float NumericRange Variant Wire Crypto Chunk SecureChannel AsymmetricSecurity SecureChannelFacts ConcreteChannel KeyDerivation ChannelTokens.
#[local] Open Scope Z_scope.

Section facts.
Context `{PK : Pki} {FT : Features} {CL : CryptoLib} {AL : AsymmetricLib} {EL : EccLib} {SL : SymmetricLaws CL} {LE : EccLaws EL}.

(** ** Derived keys *)

Definition has_key_lengths (p : SecurityPolicy) (ks : AesDerivedKeys) : Prop :=
  zlen (encryption_key ks) = key_length (symmetric_encryption (symmetric_policy p)) /\ zlen (initialization_vector ks) = 16.

Lemma make_keys_ok p secret seed : channel_policy p = true -> is_supported p = true -> is_ecc p = false ->
  exists ks, make_secure_channel_keys p secret seed = Ret ks /\ has_key_lengths p ks.
Proof.
  intros Hp Hs He.
  assert (make_secure_channel_keys p secret seed = derive_secure_channel_keys (symmetric_policy p) secret seed) as ->.
  { destruct p; try done; cbn in Hs |- *; by rewrite ?Hs. }
  destruct (derive_keys_cut (symmetric_policy p) secret seed) as (ks & Hk & _ & _ & H1 & H2); [by destruct p|].
  exists ks. split; [done|]. split; [done|]. by rewrite H2; destruct p.
Qed.

(** C6: for each RSA policy that is compiled in, the keys of a channel are consecutive parts of the P_HASH
    stream of RFC 5246 under the policy's digest, with the lengths that the specification lists. *)
Theorem keys_are_p_hash p a n e secret seed : key_table p = Some (a, n, e) -> is_supported p = true ->
  exists ks, make_secure_channel_keys p secret seed = Ret ks
    /\ signing_key ks ++ encryption_key ks ++ initialization_vector ks = p_hash a secret seed (n + e + 16)
    /\ zlen (signing_key ks) = n /\ zlen (encryption_key ks) = e /\ zlen (initialization_vector ks) = 16.
Proof.
  intros Ht Hs. assert (make_secure_channel_keys p secret seed = derive_secure_channel_keys (symmetric_policy p) secret seed
    /\ prf_digest (asymmetric_signature (symmetric_policy p)) = a /\ DERIVED_SIGNATURE_KEY_LENGTH (symmetric_policy p) = n
    /\ key_length (symmetric_encryption (symmetric_policy p)) = e /\ block_size (symmetric_encryption (symmetric_policy p)) = 16 /\ 0 <= n /\ 0 <= e)
    as (-> & <- & <- & <- & Hb & Hn & He).
  { destruct p; try discriminate Ht; injection Ht as <- <- <-; cbn in Hs |- *; rewrite ?Hs; repeat split; lia. }
  destruct (derive_keys_cut (symmetric_policy p) secret seed Hn) as (ks & Hk & Hcut & H1 & H2 & H3).
  exists ks. split; [done|]. rewrite <- Hb. split; [|done]. unfold total_key_len in Hcut. rewrite p_sha_p_hash in Hcut by lia. by injection Hcut.
Qed.

Lemma get_range_ok start stop l : 0 <= start -> start <= stop <= zlen l -> exists r, get_range start stop l = Some r /\ zlen r = stop - start.
Proof.
  intros H0 Hr. unfold get_range. destruct (Z.leb_spec start stop); [|lia]. destruct (Z.leb_spec stop (zlen l)); [|lia]. cbn [andb].
  eexists. split; [done|]. unfold zlen in *. rewrite length_take, length_drop. lia.
Qed.
Lemma split_ok c m : zlen m = key_material_len c -> exists ks, split_derived_keys c m = Ok ks
  /\ zlen (encryption_key ks) = (ecc_key_lengths c).1.2 /\ zlen (initialization_vector ks) = 16.
Proof.
  intros Hm. unfold split_derived_keys. unfold key_material_len in Hm. destruct (ecc_key_lengths c) as [[s e] i] eqn:Hl.
  assert (0 <= s /\ 0 <= e /\ i = 16) as (Hs & He & Hi) by (destruct c; injection Hl as <- <- <-; lia).
  destruct (get_range_ok 0 s m) as (a & -> & _); [lia..|]. destruct (get_range_ok s (s + e) m) as (b & -> & Hb); [lia..|].
  destruct (get_range_ok (s + e) (s + e + i) m) as (d & -> & Hd); [lia..|]. cbn. eexists. split; [done|]. cbn. lia.
Qed.
Lemma ecc_keys_ok p c secret cn sn : curve_from_security_policy p = Ok c -> zlen secret = scalar_len c ->
  exists ks, ecc_derive_keys p secret cn sn = Ok ks /\ has_key_lengths p (client_keys ks) /\ has_key_lengths p (server_keys ks).
Proof.
  intros Hc Hl. unfold ecc_derive_keys. rewrite Hc. cbn [result_bind]. rewrite Hl, Z.eqb_refl. cbn [negb].
  unfold build_hkdf_salt. assert (key_material_len c <=? 65535 = true) as -> by (by destruct c). cbn [result_bind]. unfold hkdf_expand.
  assert (0 <= key_material_len c <= 255 * 32) as Hn by (destruct c; cbn; lia).
  destruct (hkdf_len c secret (le_bytes 2 (key_material_len c) ++ str "opcua-client" ++ cn ++ sn)
              (le_bytes 2 (key_material_len c) ++ str "opcua-client" ++ cn ++ sn) _ Hn) as (m1 & -> & H1).
  destruct (hkdf_len c secret (le_bytes 2 (key_material_len c) ++ str "opcua-server" ++ sn ++ cn)
              (le_bytes 2 (key_material_len c) ++ str "opcua-server" ++ sn ++ cn) _ Hn) as (m2 & -> & H2).
  cbn [ok_or result_bind]. destruct (split_ok c m1 H1) as (k1 & -> & E1 & I1). destruct (split_ok c m2 H2) as (k2 & -> & E2 & I2).
  cbn [result_bind]. eexists. split; [done|]. cbn [client_keys server_keys].
  assert ((ecc_key_lengths c).1.2 = key_length (symmetric_encryption (symmetric_policy p))) as He by (destruct p; try done; by injection Hc as <-).
  rewrite He in E1, E2. by repeat split.
Qed.

(** ** Nonces and shares *)

(** A nonce under an ECC policy is the public key of the key that is kept. *)
Definition share (p : SecurityPolicy) (t : TokenChannel) : Prop :=
  match curve_from_security_policy p with
  | Ok c => exists s, local_ephemeral_key t = Some (mkEphemeralPrivate c s) /\ secret_from_slice c s = true /\ public_point c s = 4 :: local_nonce t
  | Err _ => True
  end.
Definition good_random (random : Z -> bytes) : Prop :=
  (forall n, 0 <= n -> zlen (random n) = n) /\ forall c, secret_from_slice c (random (scalar_len c)) = true.

Lemma is_ecc_curve p : is_ecc p = true <-> exists c, curve_from_security_policy p = Ok c.
Proof. destruct p; cbn; split; try done; try (by intros [? ?]); by eexists. Qed.
Lemma supported_ecc p : is_supported p = true -> is_ecc p = true -> ecc = true.
Proof. by destruct p. Qed.

Lemma create_nonce_spec p random t : security_policy (channel t) = p -> channel_policy p = true -> is_supported p = true -> good_random random ->
  exists t' n, create_local_nonce random t = Ret (t', Ok tt)
    /\ channel t' = channel t /\ token_created_at t' = token_created_at t /\ token_lifetime t' = token_lifetime t /\ remote_nonce t' = remote_nonce t
    /\ secure_channel_nonce_length p = Ret n /\ 0 < n /\ zlen (local_nonce t') = n /\ share p t'.
Proof.
  intros <- Hp Hs [Hlen Hsec]. unfold create_local_nonce, share. destruct (is_ecc (security_policy (channel t))) eqn:He.
  - pose proof (supported_ecc _ Hs He) as ->. apply is_ecc_curve in He as [c Hc]. rewrite Hc. cbn [andb].
    destruct (public_point_encoded c (random (scalar_len c)) (Hsec c)) as (xy & Hpub & Hxy & _).
    unfold generate_ephemeral_keypair, private_public_key, derive_public_key. cbn [private_curve scalar]. rewrite Hsec, Hpub. cbn [result_bind].
    eexists _, (encoded_public_key_len c). split; [done|]. cbn. repeat (split; [done|]).
    split; [destruct (security_policy (channel t)); try done; by injection Hc as <-|]. split; [by destruct c|]. split; [done|]. by eexists.
  - rewrite andb_false_r. assert (exists n, secure_channel_nonce_length (security_policy (channel t)) = Ret n /\ 0 < n) as (n & Hn & H0).
    { unfold secure_channel_nonce_length. destruct (security_policy (channel t)); try done; cbn in Hs |- *; rewrite ?Hs; by eexists. }
    rewrite Hn. cbn [outcome_bind]. eexists _, n. split; [done|]. cbn. repeat (split; [done|]). split; [apply Hlen; lia|].
    destruct (curve_from_security_policy _) as [c|e] eqn:Hc; [|done]. assert (is_ecc (security_policy (channel t)) = true) by (apply is_ecc_curve; by exists c). congruence.
Qed.

(** ** Both sides derive the same keys *)

Definition keyed (now : Z) (own other : AesDerivedKeys) (t : TokenChannel) : TokenChannel :=
  insert_remote_keys now other (on_channel (set_local_keys (Some own)) t).

Lemma derive_nonce_keys now t own other : is_ecc (security_policy (channel t)) = false ->
  make_secure_channel_keys (security_policy (channel t)) (local_nonce t) (remote_nonce t) = Ret other ->
  make_secure_channel_keys (security_policy (channel t)) (remote_nonce t) (local_nonce t) = Ret own -> derive_keys now t = Ret (keyed now own other t).
Proof.
  intros He H1 H2. unfold derive_keys. rewrite He, andb_false_r, H1. cbn [outcome_bind].
  change (remote_nonce (insert_remote_keys now other t)) with (remote_nonce t). change (local_nonce (insert_remote_keys now other t)) with (local_nonce t).
  rewrite H2. done.
Qed.
Lemma derive_keys_agree p now now' t t' : security_policy (channel t) = p -> security_policy (channel t') = p ->
  channel_policy p = true -> is_supported p = true -> is_client_role (channel t) = true -> is_client_role (channel t') = false ->
  remote_nonce t = local_nonce t' -> remote_nonce t' = local_nonce t -> share p t -> share p t' ->
  exists kc ks, derive_keys now t = Ret (keyed now kc ks t) /\ derive_keys now' t' = Ret (keyed now' ks kc t')
    /\ has_key_lengths p kc /\ has_key_lengths p ks.
Proof.
  intros Hp Hp' Hch Hs Hr Hr' Hn Hn' Hsh Hsh'. destruct (is_ecc p) eqn:He.
  - unfold derive_keys. rewrite Hp, Hp', He. pose proof (supported_ecc _ Hs He) as ->. cbn [andb]. unfold derive_ecc_keys, share in *. apply is_ecc_curve in He as [c Hc].
    rewrite Hc in Hsh, Hsh'. destruct Hsh as (s & -> & Hsec & Hpub), Hsh' as (s' & -> & Hsec' & Hpub'). rewrite Hp, Hp', Hr, Hr', Hc, Hn, Hn'.
    cbn [result_bind]. unfold decode_public_key, ecdh_shared_secret, sec1_from_xy. cbn [private_curve public_curve scalar encoded].
    destruct (public_point_encoded c s Hsec) as (xy & Hxy & Hlen & Hok). destruct (public_point_encoded c s' Hsec') as (xy' & Hxy' & Hlen' & Hok').
    rewrite Hpub in Hxy. injection Hxy as <-. rewrite Hpub' in Hxy'. injection Hxy' as <-.
    rewrite !Hlen, !Hlen', Z.eqb_refl. cbn [negb]. rewrite !Hok, !Hok'. cbn [result_bind public_curve encoded]. rewrite bool_decide_true by done.
    cbn [negb]. rewrite !Hlen, !Hlen', Z.eqb_refl. cbn [negb]. rewrite !Hok, !Hok'. cbn [result_bind]. rewrite Hsec, Hsec'. cbn [negb]. rewrite Hok, Hok'. cbn [negb result_bind].
    pose proof (diffie_hellman_agrees c s s' Hsec Hsec') as Hdh. rewrite Hpub, Hpub' in Hdh. rewrite <- Hdh.
    pose proof (diffie_hellman_len c s s' Hsec Hsec') as Hdl. rewrite Hpub' in Hdl.
    destruct (ecc_keys_ok p c (diffie_hellman c s (4 :: local_nonce t')) (local_nonce t) (local_nonce t') Hc Hdl) as (ks & -> & K1 & K2).
    exists (client_keys ks), (server_keys ks). done.
  - destruct (make_keys_ok p (local_nonce t) (local_nonce t') Hch Hs He) as (ks & H1 & K1).
    destruct (make_keys_ok p (local_nonce t') (local_nonce t) Hch Hs He) as (kc & H2 & K2).
    exists kc, ks. split; [|split; [|done]]; apply derive_nonce_keys; rewrite ?Hp, ?Hp', ?Hn, ?Hn'; done.
Qed.
(** ** The handshake *)

(** What one side secures the other side accepts. *)
Definition delivers (a b : SecureChannel) : Prop :=
  forall rng n request t fin data dst_len, is_open_secure_channel t = false -> is_u32 n -> is_u32 request ->
    secured_len a (zlen data) <= u32_max -> secured_len a (zlen data) + 16 <= dst_len ->
    exists chunk secured, chunk_new n request t fin a data = Ret chunk /\ apply_security a rng chunk dst_len = Ret (Ok (secured, a))
      /\ verify_and_remove_security b secured = Ret (Ok (chunk, b)).
Lemma delivers_keys a b ks : established a -> security_policy_valid b = true -> local_keys a = Some ks -> has_key_lengths (security_policy a) ks ->
  matching a b (token_id a) ks -> is_u32 (token_id a) -> is_u32 (secure_channel_id a) -> delivers a b.
Proof. intros He Hv Hk Hl Hm Ht Hid rng n request t fin data dst_len Ho Hn Hr Hu Hd. by apply (symmetric_round_trip a b ks). Qed.

(** The two ends before an exchange: the same supported policy, and a channel that is new for the client
    or the one to renew. *)
Record ready_ends (type : SecurityTokenRequestType) (t : TokenChannel) (c : ServerConnection) : Prop := {
  re_established : established (channel t);
  re_policy : security_policy (channel (sv_channel c)) = security_policy (channel t);
  re_valid : security_policy_valid (channel (sv_channel c)) = true;
  re_role : is_client_role (channel (sv_channel c)) = false;
  re_ids : is_u32 (ah_next (channel_ids (sv_state c))) /\ is_u32 (ah_first (channel_ids (sv_state c)));
  re_type : match type with
            | Issue => secure_channel_id (channel t) = 0
            | Renew => issued (sv_state c) = true /\ secure_channel_id (channel t) = secure_channel_id (channel (sv_channel c))
                       /\ is_u32 (secure_channel_id (channel t))
            end
}.
(** The request comes with a certificate that is accepted. *)
Definition accepted_header (validate : X509 -> SecurityPolicy -> result unit StatusCode) (p : SecurityPolicy) (h : AsymmetricSecurityHeader) : Prop :=
  exists c, x509_from_byte_string (sender_certificate h) = Ok c /\ validate c p = Ok tt.

Lemma set_cert_accepted h c t : x509_from_byte_string (sender_certificate h) = Ok c ->
  set_remote_cert_from_byte_string (sender_certificate h) t = (on_channel (set_remote_cert (Some c)) t, Ok tt).
Proof. intros Hc. unfold set_remote_cert_from_byte_string. by destruct (sender_certificate h) as [[|]|]; try done; rewrite Hc. Qed.

Lemma begin_issue_spec random type lifetime t : established (channel t) -> good_random random ->
  exists t1 nonce n, begin_issue_or_renew random type lifetime t = Ret (t1, Ok (mkOpenRequest 0 type (security_mode (channel t)) (Some nonce) lifetime))
    /\ local_nonce t1 = nonce /\ secure_channel_nonce_length (security_policy (channel t)) = Ret n /\ zlen nonce = n
    /\ share (security_policy (channel t)) t1 /\ is_client_role (channel t1) = true /\ established (channel t1)
    /\ security_policy (channel t1) = security_policy (channel t) /\ security_mode (channel t1) = security_mode (channel t)
    /\ secure_channel_id (channel t1) = secure_channel_id (channel t).
Proof.
  intros He Hr. pose proof He as (Hp & Hs & _).
  destruct (create_nonce_spec (security_policy (channel t)) random (on_channel (set_role RoleClient) t) eq_refl Hp Hs Hr)
    as (t' & n & Hc & Hch & _ & _ & _ & Hn & H0 & Hl & Hsh).
  unfold begin_issue_or_renew. rewrite Hc. cbn [outcome_bind].
  assert (nonce_byte_string (local_nonce t') = Some (local_nonce t')) as -> by (destruct (local_nonce t') ; [change (zlen []) with 0 in Hl; lia|done]).
  set (t1 := if ecc && _ then _ else t').
  assert (channel t1 = channel t' \/ channel t1 = set_apply_channel_thumbprint (bool_decide (type = Issue)) (channel t')) as Ht1
    by (unfold t1; destruct (ecc && _); auto).
  assert (local_nonce t1 = local_nonce t' /\ local_ephemeral_key t1 = local_ephemeral_key t') as [Hln Hek] by (unfold t1; by destruct (ecc && _)).
  exists t1, (local_nonce t'), n. rewrite Hch in Ht1. unfold share in *. rewrite Hln, Hek. clearbody t1.
  destruct Ht1 as [-> | ->]; repeat (split; [done|]); done.
Qed.

(** The state of the server when the request has been taken. *)
Lemma issue_spec max_lifetime now random request s t : channel_policy (security_policy (channel t)) = true -> is_supported (security_policy (channel t)) = true ->
  good_random random -> (exists nonce n, client_nonce request = Some nonce /\ secure_channel_nonce_length (security_policy (channel t)) = Ret n /\ zlen nonce = n) ->
  (oq_security_mode request = ModeSign \/ oq_security_mode request = ModeSignAndEncrypt) ->
  exists t1, issue_token max_lifetime now random request s t = (let! t2 := derive_keys now t1 in
      Ret (mkServer t2 s, Ok (Opened (mkOpenResponse (mkToken (secure_channel_id (channel t2)) (token_id (channel t2)) now
        (revise_secure_channel_lifetime (requested_lifetime request) max_lifetime)) (nonce_byte_string (local_nonce t2))))))
    /\ Some (remote_nonce t1) = client_nonce request /\ share (security_policy (channel t)) t1 /\ is_client_role (channel t1) = is_client_role (channel t)
    /\ security_policy (channel t1) = security_policy (channel t) /\ security_policy_valid (channel t1) = security_policy_valid (channel t)
    /\ security_mode (channel t1) = security_mode (channel t) /\ secure_channel_id (channel t1) = secure_channel_id (channel t)
    /\ token_id (channel t1) = token_id (channel t)
    /\ exists n, secure_channel_nonce_length (security_policy (channel t)) = Ret n /\ zlen (local_nonce t1) = n /\ 0 < n.
Proof.
  intros Hp Hs Hr (nonce & n & Hcn & Hn & Hl) Hm. unfold issue_token. set (lt := revise_secure_channel_lifetime _ _).
  set (t0 := set_token_lifetime lt t).
  assert (validate_secure_channel_nonce_length (client_nonce request) t0 = Ret (Ok tt)) as ->.
  { unfold validate_secure_channel_nonce_length. change (channel t0) with (channel t). rewrite Hcn. cbn [len_of]. rewrite Hl.
    destruct (security_policy (channel t)); try done; rewrite Hn; cbn [outcome_bind]; by rewrite Z.eqb_refl. }
  cbn [outcome_bind]. rewrite Hcn. cbn [set_remote_nonce_from_byte_string].
  set (t1 := if ecc && _ then _ else set_remote_nonce nonce t0).
  assert (security_policy (channel t1) = security_policy (channel t) /\ is_client_role (channel t1) = is_client_role (channel t)
    /\ security_policy_valid (channel t1) = security_policy_valid (channel t) /\ security_mode (channel t1) = security_mode (channel t)
    /\ secure_channel_id (channel t1) = secure_channel_id (channel t) /\ token_id (channel t1) = token_id (channel t) /\ remote_nonce t1 = nonce)
    as (E1 & E2 & E3 & E4 & E5 & E6 & E7) by (unfold t1; by destruct (ecc && _)).
  destruct (create_nonce_spec (security_policy (channel t)) random t1 E1 Hp Hs Hr) as (t2 & n' & Hc & Hch & _ & _ & Hrn & Hn' & H0 & Hl' & Hsh).
  rewrite Hc. cbn [outcome_bind]. rewrite bool_decide_false by (change (channel (set_remote_nonce nonce t0)) with (channel t); by destruct (security_policy (channel t))).
  exists t2. split; [by destruct Hm as [-> | ->]|]. rewrite Hch, Hrn, E1, E2, E3, E4, E5, E6, E7. repeat (split; [done|]). by exists n'.
Qed.

Lemma keyed_fields now own other t : let sc := channel (keyed now own other t) in security_policy sc = security_policy (channel t)
  /\ security_policy_valid sc = security_policy_valid (channel t) /\ security_mode sc = security_mode (channel t) /\ token_id sc = token_id (channel t)
  /\ secure_channel_id sc = secure_channel_id (channel t) /\ local_keys sc = Some own /\ get_remote_keys (token_id sc) sc = Some other.
Proof. cbn. repeat (split; [done|]). unfold get_remote_keys. cbn. by rewrite lookup_insert_eq. Qed.
Lemma keyed_delivers now now' own other t t' : established (channel t) -> established (channel t') ->
  security_policy (channel t') = security_policy (channel t) -> security_mode (channel t') = security_mode (channel t) ->
  token_id (channel t') = token_id (channel t) -> is_u32 (token_id (channel t)) -> is_u32 (secure_channel_id (channel t)) ->
  has_key_lengths (security_policy (channel t)) own -> delivers (channel (keyed now own other t)) (channel (keyed now' other own t')).
Proof.
  intros (He1 & He2 & He3 & He4) (_ & _ & He3' & _) Hp Hm Ht Hu1 Hu2 Hl.
  destruct (keyed_fields now own other t) as (F1 & F2 & F3 & F4 & F5 & F6 & _). destruct (keyed_fields now' other own t') as (G1 & G2 & G3 & G4 & _ & _ & G7).
  apply (delivers_keys _ _ own); rewrite ?F1, ?F2, ?F3, ?F4, ?F5; try done.
  split; [congruence|]. split; [congruence|]. by rewrite <- Ht, <- G4.
Qed.

Lemma requested_spec type request t c : ready_ends type t c -> request_type request = type -> channel_policy (security_policy (channel t)) = true ->
  (type = Renew -> default [] (client_nonce request) <> remote_nonce (sv_channel c)) ->
  exists s id, requested_channel request c = (mkServer (sv_channel c) s, Ok (inr id)) /\ is_u32 id
    /\ (secure_channel_id (channel t) = 0 \/ secure_channel_id (channel t) = id).
Proof.
  intros [_ Hpol _ _ [Hn Hf] Hty] Hreq Hp Hnew. unfold requested_channel. rewrite Hreq. destruct type.
  - unfold create_secure_channel_id, atomic_handle_next. destruct (_ <? _); eexists _, _; split; [done| |done|]; auto.
  - destruct Hty as (Hi & Hid & Hu). rewrite bool_decide_false by (rewrite Hpol; by destruct (security_policy (channel t))).
    rewrite (bool_decide_false (default [] (client_nonce request) = _)) by (by apply Hnew). cbn [negb andb]. rewrite Hi. cbn [negb].
    eexists _, _. split; [done|]. rewrite <- Hid. auto.
Qed.

(** Both ends when the response has been sent and taken. *)
Lemma exchange_spec max_lifetime validate type random_c random_s lifetime t : established (channel t) -> good_random random_c -> good_random random_s ->
  exists t1 request, begin_issue_or_renew random_c type lifetime t = Ret (t1, Ok request) /\
    forall now now' skew h c, ready_ends type t c -> accepted_header validate (security_policy (channel t)) h ->
      (type = Renew -> default [] (client_nonce request) <> remote_nonce (sv_channel c)) ->
      exists c2 response t2, open_secure_channel max_lifetime validate now random_s (Asymmetric h) 0 request c = Ret (c2, Ok (Opened response))
        /\ end_issue_or_renew now' skew response t1 = Ret (t2, Ok tt)
        /\ delivers (channel t2) (channel (sv_channel c2)) /\ delivers (channel (sv_channel c2)) (channel t2)
        /\ secure_channel_id (channel t2) = secure_channel_id (channel (sv_channel c2)) /\ token_id (channel t2) = token_id (channel (sv_channel c2))
        /\ revised_lifetime (security_token response) = revise_secure_channel_lifetime lifetime max_lifetime.
Proof.
  intros He Hrc Hrs. destruct (begin_issue_spec random_c type lifetime t He Hrc) as (t1 & nonce & n & Hb & Hln & Hn & Hl & Hsh & Hrole & He1 & Hp1 & Hm1 & Hid1).
  exists t1, (mkOpenRequest 0 type (security_mode (channel t)) (Some nonce) lifetime). split; [done|]. intros now now' skew h c Hends (crt & Hcrt & Hval) Hnew.
  pose proof He as (Hch & Hsup & _ & Hmode). set (p := security_policy (channel t)) in *.
  set (request := mkOpenRequest 0 type (security_mode (channel t)) (Some nonce) lifetime) in *.
  destruct (requested_spec type request t c Hends eq_refl Hch Hnew) as (s & id & Hreq & Huid & Hexisting).
  unfold open_secure_channel. cbn [client_protocol_version request negb Z.eqb]. fold request. rewrite Hreq. cbn [oq_security_mode request].
  rewrite bool_decide_false by (by destruct Hmode as [-> | ->]). cbn [sv_state sv_channel]. unfold create_token_id. cbn [last_token_id set_issued].
  set (tok := wrap32 (last_token_id s + 1)). assert (is_u32 tok) as Htok by apply wrap32_range. rewrite (set_cert_accepted h crt) by done.
  match goal with |- context [certificate_accepted _ ?x] => set (t0 := x) end.
  assert (security_policy (channel t0) = p) as Hp0 by apply (re_policy _ _ _ Hends).
  assert (certificate_accepted validate t0 = true) as ->.
  { unfold certificate_accepted. rewrite Hp0. change (remote_cert (channel t0)) with (Some crt). clearbody p. destruct p; try done; by rewrite Hval. }
  cbn [negb]. match goal with |- context [issue_token _ _ _ _ ?x] => set (s' := x) end.
  destruct (issue_spec max_lifetime now random_s request s' t0) as (ts & Hissue & Hrem & Hshs & Hroles & Hps & Hvs & Hms & Hids & Htoks & ns & Hns & Hlns & Hpos);
    rewrite ?Hp0; try done; [by exists nonce, n|].
  rewrite Hp0 in Hshs, Hps, Hns. cbn [client_nonce request] in Hrem. injection Hrem as Hrem.
  set (token := mkToken id tok now (revise_secure_channel_lifetime lifetime max_lifetime)).
  set (token' := match skew with Some offset => mkToken (channel_id token) (ct_token_id token) (created_at token - offset) (revised_lifetime token) | None => token end).
  assert (channel_id token' = id /\ ct_token_id token' = tok) as [Hti Htt] by (unfold token'; by destruct skew).
  set (tc := set_remote_nonce (local_nonce ts) (set_security_token token' t1)).
  destruct (derive_keys_agree p now' now tc ts) as (kc & ks & Hdc & Hds & Kc & Ks); try done.
  { rewrite Hroles. exact (re_role _ _ _ Hends). }
  { by rewrite Hrem. }
  rewrite Hissue, Hds. cbn [outcome_bind].
  assert (established (channel tc)) as Hetc by (unfold established in *; cbn; by rewrite Hp1, Hm1; destruct He1 as (? & ? & ? & ?)).
  assert (established (channel ts)) as Hets.
  { unfold established. rewrite Hps, Hvs, Hms. split; [done|]. split; [done|]. split; [exact (re_valid _ _ _ Hends)|exact Hmode]. }
  assert (token_id (channel tc) = tok /\ secure_channel_id (channel tc) = id /\ token_id (channel ts) = tok /\ secure_channel_id (channel ts) = id)
    as (X1 & X2 & X3 & X4) by (cbn; rewrite Hti, Htt, Htoks, Hids; done).
  assert (security_policy (channel tc) = p /\ security_mode (channel tc) = security_mode (channel t) /\ security_mode (channel ts) = security_mode (channel t))
    as (Y1 & Y2 & Y3) by (cbn; rewrite Hms; done).
  destruct (keyed_fields now ks kc ts) as (_ & _ & _ & G4 & G5 & _).
  eexists _, _, (keyed now' kc ks tc). split; [done|]. cbn [sv_channel security_token revised_lifetime requested_lifetime request]. rewrite G4, G5, X3, X4. fold token.
  change (local_nonce (keyed now ks kc ts)) with (local_nonce ts). assert (nonce_byte_string (local_nonce ts) = Some (local_nonce ts)) as ->.
  { destruct (local_nonce ts); [change (zlen []) with 0 in Hlns; lia|done]. }
  split.
  - unfold end_issue_or_renew. cbn [security_token server_nonce]. fold token'.
    assert (negb (secure_channel_id (channel t1) =? 0) && negb (secure_channel_id (channel t1) =? channel_id token') = false) as ->.
    { rewrite Hid1, Hti. destruct Hexisting as [-> | ->]; [done|]. rewrite Z.eqb_refl. by rewrite andb_false_r. }
    assert (is_secure_connection (channel (set_security_token token' t1)) = true) as ->.
    { unfold is_secure_connection. cbn. rewrite Hp1, Hm1, bool_decide_false by (by destruct p). by destruct Hmode as [-> | ->]. }
    assert (validate_secure_channel_nonce_length (Some (local_nonce ts)) (set_security_token token' t1) = Ret (Ok tt)) as ->.
    { unfold validate_secure_channel_nonce_length. cbn [len_of]. rewrite Hlns. change (security_policy (channel (set_security_token token' t1))) with (security_policy (channel t1)).
      rewrite Hp1. destruct p; try done; rewrite Hns; cbn [outcome_bind]; by rewrite Z.eqb_refl. }
    cbn [outcome_bind set_remote_nonce_from_byte_string]. fold tc. by rewrite Hdc.
  - split; [apply keyed_delivers; rewrite ?X1, ?X2, ?X3, ?X4, ?Y1; try done; congruence|].
    split; [apply keyed_delivers; rewrite ?X1, ?X2, ?X3, ?X4, ?Hps, ?Y1; try done; congruence|]. by cbn; rewrite Hti, Htt.
Qed.

(** C5: a client and a server with the same policy of the channel, RSA or ECC, that exchange OpenSecureChannel
    (to open a channel, or to renew one with a nonce that is new) both succeed, whatever their clocks say;
    they agree on the channel and the token, the token has a lifetime greater than zero, and every message
    either end then secures, the other end accepts as it was. *)
Theorem handshake_keys_agree max_lifetime validate type random_c random_s lifetime t : established (channel t) -> good_random random_c -> good_random random_s ->
  0 <= lifetime -> 0 <= max_lifetime ->
  exists t1 request, begin_issue_or_renew random_c type lifetime t = Ret (t1, Ok request) /\
    forall now now' skew h c, ready_ends type t c -> accepted_header validate (security_policy (channel t)) h ->
      (type = Renew -> default [] (client_nonce request) <> remote_nonce (sv_channel c)) ->
      exists c2 response t2, open_secure_channel max_lifetime validate now random_s (Asymmetric h) 0 request c = Ret (c2, Ok (Opened response))
        /\ end_issue_or_renew now' skew response t1 = Ret (t2, Ok tt)
        /\ delivers (channel t2) (channel (sv_channel c2)) /\ delivers (channel (sv_channel c2)) (channel t2)
        /\ secure_channel_id (channel t2) = secure_channel_id (channel (sv_channel c2)) /\ token_id (channel t2) = token_id (channel (sv_channel c2))
        /\ 0 < revised_lifetime (security_token response).
Proof.
  intros He Hc Hs Hl Hm. destruct (exchange_spec max_lifetime validate type random_c random_s lifetime t He Hc Hs) as (t1 & request & Hb & Hx).
  exists t1, request. split; [done|]. intros now now' skew h c H1 H2 H3.
  destruct (Hx now now' skew h c H1 H2 H3) as (c2 & response & t2 & X1 & X2 & X3 & X4 & X5 & X6 & X7).
  exists c2, response, t2. repeat (split; [done|]). rewrite X7. unfold revise_secure_channel_lifetime, DEFAULT_SECURE_CHANNEL_LIFETIME_BACKSTOP_MS.
  repeat case_match; lia.
Qed.

(** ** The keys of previous tokens *)

Section previous.
Variables (max_lifetime : Z) (validate : X509 -> SecurityPolicy -> result unit StatusCode).

(** The keys that a renewal keeps, and the new ones. *)
Definition renewed_keys (now lifetime token : Z) (t : TokenChannel) (keys : gmap Z RemoteKeys) : Prop :=
  exists ks, keys = <[token := {| keys := ks; expires_at := token_created_at t + millis (key_grace_ms lifetime) |}]>
                      (base.filter (fun x => now < expires_at x.2) (remote_keys (channel t))).

Lemma derive_nonce_spec now t t' : is_ecc (security_policy (channel t)) = false -> derive_keys now t = Ret t' ->
  token_created_at t' = token_created_at t /\ security_policy (channel t') = security_policy (channel t)
  /\ token_id (channel t') = token_id (channel t) /\ renewed_keys now (token_lifetime t) (token_id (channel t)) t (remote_keys (channel t')).
Proof.
  intros He Hd. unfold derive_keys in Hd. rewrite He, andb_false_r in Hd. apply outcome_bind_ret in Hd as (ks & _ & Hd).
  apply outcome_bind_ret in Hd as (own & _ & Hd). injection Hd as <-. repeat (split; [done|]). by exists ks.
Qed.

(** What a request does to the times and the keys of a server's channel. *)
Definition keys_after (now : Z) (request : OpenSecureChannelRequest) (t t' : TokenChannel) (r : result OpenReply StatusCode) : Prop :=
  token_created_at t' = token_created_at t /\ security_policy (channel t') = security_policy (channel t) /\
  (remote_keys (channel t') = remote_keys (channel t)
     /\ (forall x, r = Ok (Opened x) -> is_secure_connection (channel t') = true -> False)
   \/ renewed_keys now (revise_secure_channel_lifetime (requested_lifetime request) max_lifetime) (token_id (channel t')) t (remote_keys (channel t'))).

Lemma issue_keys now random request s t c' r : is_ecc (security_policy (channel t)) = false ->
  security_mode (channel t) = oq_security_mode request -> issue_token max_lifetime now random request s t = Ret (c', r) ->
  keys_after now request t (sv_channel c') r.
Proof.
  intros He Hm. unfold issue_token. set (t0 := set_token_lifetime _ t). intros H.
  assert (forall e, keys_after now request t t0 (Err e)) as H0 by (split; [done|split; [done|by left]]).
  apply outcome_bind_ret in H as ([[]|e] & _ & H); [|by injection H as <- <-].
  destruct (set_remote_nonce_from_byte_string (client_nonce request) t0) as [t1 [[]|e]] eqn:Hn.
  2: { injection H as <- <-. unfold set_remote_nonce_from_byte_string in Hn. destruct (client_nonce request); [discriminate Hn|injection Hn as <- _]; done. }
  assert (channel t1 = channel t /\ token_created_at t1 = token_created_at t /\ token_lifetime t1 = token_lifetime t0) as (E1 & E2 & E3).
  { unfold set_remote_nonce_from_byte_string in Hn. destruct (client_nonce request); injection Hn as <-; done. }
  rewrite E1, He, andb_false_r in H. unfold create_local_nonce in H. rewrite E1, He, andb_false_r in H.
  apply outcome_bind_ret in H as ([t2 r2] & H2 & H). apply outcome_bind_ret in H2 as (n & _ & H2). injection H2 as <- <-.
  apply outcome_bind_ret in H as (t3 & H3 & H). injection H as <- <-.
  destruct (negb (bool_decide (security_policy (channel t) = PolicyNone)) && _) eqn:Hsec.
  - apply derive_nonce_spec in H3 as (D1 & D2 & D3 & ks & D4); [|change (channel (set_local_nonce (random n) t1)) with (channel t1); by rewrite E1].
    cbn [sv_channel]. split; [rewrite D1; exact E2|]. split; [rewrite D2; cbn; by rewrite E1|]. right. exists ks. rewrite D4, D3. cbn. by rewrite E1, E2, E3.
  - injection H3 as <-. cbn [sv_channel]. split; [exact E2|]. split; [cbn; by rewrite E1|]. left. split; [cbn; by rewrite E1|]. intros x _ Hx.
    unfold is_secure_connection in Hx. cbn in Hx. rewrite E1, Hm, Hsec in Hx. done.
Qed.

Lemma open_keys now random header version request c c' r : is_ecc (security_policy (channel (sv_channel c))) = false ->
  open_secure_channel max_lifetime validate now random header version request c = Ret (c', r) -> keys_after now request (sv_channel c) (sv_channel c') r.
Proof.
  intros He. unfold open_secure_channel.
  assert (forall e, keys_after now request (sv_channel c) (sv_channel c) (Err e)) as Herr by (intros e; split; [done|split; [done|by left]]).
  assert (forall e, keys_after now request (sv_channel c) (sv_channel c) (Ok (Fault e))) as Hfault by (intros e; split; [done|split; [done|by left]]).
  destruct header as [h|]; [|by intros [= <- <-]]. destruct (negb _); [by intros [= <- <-]|].
  destruct (requested_channel request c) as [c1 r1] eqn:Hreq. assert (sv_channel c1 = sv_channel c) as Hc1.
  { unfold requested_channel in Hreq. destruct (request_type request); [destruct (create_secure_channel_id _); by injection Hreq as <- _|].
    destruct (_ && _); [by injection Hreq as <- _|]. destruct (negb _); by injection Hreq as <- _. }
  destruct r1 as [[f|id]|e]; [..|intros [= <- <-]; by rewrite Hc1].
  { intros [= <- <-]. rewrite Hc1. unfold requested_channel in Hreq. destruct (request_type request); [by destruct (create_secure_channel_id _)|].
    destruct (_ && _); [by injection Hreq as _ <-|]. by destruct (negb _). }
  destruct (bool_decide _); [intros [= <- <-]; by rewrite Hc1|]. destruct (create_token_id _) as [s token].
  set (t := on_channel _ (sv_channel c1)). destruct (set_remote_cert_from_byte_string (sender_certificate h) t) as [t1 r1] eqn:Hcert.
  assert (token_created_at t1 = token_created_at (sv_channel c) /\ security_policy (channel t1) = security_policy (channel (sv_channel c))
    /\ remote_keys (channel t1) = remote_keys (channel (sv_channel c)) /\ security_mode (channel t1) = oq_security_mode request) as (E1 & E2 & E3 & E4).
  { unfold set_remote_cert_from_byte_string in Hcert. destruct (sender_certificate h) as [[|b l]|]; [injection Hcert as <- _| |injection Hcert as <- _];
      try (unfold t; cbn; by rewrite Hc1). destruct (x509_from_byte_string _); injection Hcert as <- _; unfold t; cbn; by rewrite Hc1. }
  destruct r1 as [[]|e].
  2: { intros [= <- <-]. split; [done|]. split; [done|]. by left. }
  destruct (negb _). { intros [= <- <-]. split; [done|]. split; [done|]. by left. }
  intros Hi. apply issue_keys in Hi as (K1 & K2 & K3); [|by rewrite E2|done]. split; [congruence|]. split; [congruence|].
  unfold renewed_keys in *. by rewrite <- E1, <- E3.
Qed.

(** The life of a server's channel whose client always asks for the same lifetime. *)
Inductive serves (start lifetime : Z) : ServerConnection -> Prop :=
| serves_start c : token_created_at (sv_channel c) = start -> is_ecc (security_policy (channel (sv_channel c))) = false ->
    remote_keys (channel (sv_channel c)) = ∅ -> serves start lifetime c
| serves_open c now random header version request c' r : serves start lifetime c -> requested_lifetime request = lifetime ->
    open_secure_channel max_lifetime validate now random header version request c = Ret (c', r) -> serves start lifetime c'.
Definition key_expiry (start lifetime : Z) : Z := start + millis (key_grace_ms (revise_secure_channel_lifetime lifetime max_lifetime)).

Lemma serves_keys start lifetime c : serves start lifetime c -> token_created_at (sv_channel c) = start
  /\ is_ecc (security_policy (channel (sv_channel c))) = false
  /\ map_Forall (fun _ k => expires_at k = key_expiry start lifetime) (remote_keys (channel (sv_channel c))).
Proof.
  induction 1 as [c Hs He Hk|c now random header version request c' r Hserves (IH1 & IH2 & IH3) Hl Ho].
  - split; [done|]. split; [done|]. rewrite Hk. apply map_Forall_empty.
  - apply open_keys in Ho as (K1 & K2 & K3); [|done]. split; [congruence|]. split; [congruence|]. destruct K3 as [[-> _]|[ks ->]]; [done|].
    apply map_Forall_insert_2; [cbn; unfold key_expiry; by rewrite IH1, Hl|]. intros k x Hx. apply map_lookup_filter_Some in Hx as [Hx _]. by apply (IH3 k).
Qed.

(** C40: the server never renews the creation time of the token, so that once a channel is older than the time
    its first keys are kept, a request that renews the token throws the keys of all previous tokens
    away at once: what the client sent under them before it knows the new token is refused, although
    they should be kept for a quarter of their lifetime more. *)
Theorem renewal_drops_previous_keys start lifetime c now random header version request c' x : serves start lifetime c ->
  requested_lifetime request = lifetime -> key_expiry start lifetime <= now ->
  open_secure_channel max_lifetime validate now random header version request c = Ret (c', Ok (Opened x)) ->
  is_secure_connection (channel (sv_channel c')) = true ->
  forall token, get_remote_keys token (channel (sv_channel c')) <> None -> token = token_id (channel (sv_channel c')).
Proof.
  intros Hs Hl Hnow Ho Hsec token. destruct (serves_keys start lifetime c Hs) as (H1 & H2 & H3).
  apply open_keys in Ho as (K1 & K2 & [[_ K3]|[ks K3]]); [by destruct (K3 x)| |done].
  unfold get_remote_keys. rewrite K3. destruct (decide (token = token_id (channel (sv_channel c')))) as [|Hne]; [done|].
  rewrite lookup_insert_ne by done. intros Hx. exfalso. apply Hx. rewrite map_lookup_filter_None_2; [done|]. right.
  intros k Hk. cbn. rewrite (H3 token k Hk). lia.
Qed.
End previous.

End facts.

(** ** A run *)

(** Private keys are scalars of the right length, a product is the difference of bits. *)
#[export] Instance toy_ecc : EccLib :=
  {| secret_from_slice c s := zlen s =? scalar_len c; public_point c s := 4 :: s ++ s;
     public_from_sec1 c p := zlen p =? encoded_public_key_len c + 1;
     diffie_hellman c s p := zip_with Z.lxor s (take (Z.to_nat (scalar_len c)) (drop 1 p));
     hkdf c ikm salt info n := Some (repeat (foldr Z.add 0 (ikm ++ salt ++ info) mod 256) (Z.to_nat n)) |}.
#[export] Instance toy_ecc_laws : EccLaws toy_ecc.
Proof.
  split; cbn.
  - intros c s Hs. exists (s ++ s). split; [done|]. apply Z.eqb_eq in Hs. rewrite zlen_cons, zlen_app. split; [by destruct c; cbn in *; lia|].
    apply Z.eqb_eq. destruct c; cbn in *; lia.
  - intros c s t Hs Ht. apply Z.eqb_eq in Hs, Ht. rewrite !drop_0, !take_app_le, !take_ge by (unfold zlen in *; lia).
    clear Hs Ht. revert t. induction s as [|a s IH]; intros [|b t]; [done..|]. cbn [zip_with]. by rewrite Z.lxor_comm, (IH t).
  - intros c s t Hs Ht. apply Z.eqb_eq in Hs, Ht. rewrite drop_0, take_app_le, take_ge by (unfold zlen in *; lia). unfold zlen in *. rewrite length_zip_with. lia.
  - intros c ikm salt info n Hn. eexists. split; [done|]. unfold zlen. rewrite repeat_length. lia.
Qed.
Definition drawn (b : Z) (n : Z) : bytes := repeat b (Z.to_nat n).
Lemma drawn_good b : good_random (drawn b).
Proof.
  split; [intros n Hn; unfold zlen, drawn; rewrite repeat_length; lia|]. intros c. cbn. unfold zlen, drawn. rewrite repeat_length. by destruct c.
Qed.

Definition token_channel (r : Role) (p : SecurityPolicy) : TokenChannel := mkTokenChannel _ (channel_of r p ModeSignAndEncrypt) 0 0 [] [] None.
Definition new_client : TokenChannel := clear_security_token 0 (token_channel RoleClient EccNistP256).
Definition new_server : ServerConnection := mkServer (token_channel RoleServer EccNistP256) (mkChannelState false 0 (mkAtomicHandle 1 1) 0).
Definition client_header : AsymmetricSecurityHeader :=
  {| Chunk.security_policy_uri := Some SECURITY_POLICY_ECC_NIST_P256_URI; sender_certificate := Some [1]; receiver_certificate_thumbprint := None |}.

Lemma keys_are_p_hash_witness : exists ks, make_secure_channel_keys Basic256Sha256 [1; 2] [3; 4] = Ret ks
  /\ signing_key ks ++ encryption_key ks ++ initialization_vector ks = p_hash Sha256 [1; 2] [3; 4] (32 + 32 + 16)
  /\ zlen (signing_key ks) = 32 /\ zlen (encryption_key ks) = 32 /\ zlen (initialization_vector ks) = 16.
Proof. apply (keys_are_p_hash Basic256Sha256 Sha256 32 32 [1; 2] [3; 4]); reflexivity. Defined.

Lemma handshake_keys_agree_witness : exists t1 request, begin_issue_or_renew (drawn 5) Issue 60000 new_client = Ret (t1, Ok request) /\
  exists c2 response t2,
    open_secure_channel 3600000 (fun _ _ => Ok tt) 1000 (drawn 6) (Asymmetric client_header) 0 request new_server = Ret (c2, Ok (Opened response))
    /\ end_issue_or_renew 900 None response t1 = Ret (t2, Ok tt)
    /\ delivers (channel t2) (channel (sv_channel c2)) /\ delivers (channel (sv_channel c2)) (channel t2)
    /\ secure_channel_id (channel t2) = secure_channel_id (channel (sv_channel c2)) /\ token_id (channel t2) = token_id (channel (sv_channel c2))
    /\ 0 < revised_lifetime (security_token response).
Proof.
  assert (established (channel new_client)) as He by (repeat split; try done; by right).
  destruct (handshake_keys_agree 3600000 (fun _ _ => Ok tt) Issue (drawn 5) (drawn 6) 60000 new_client He (drawn_good 5) (drawn_good 6)
              ltac:(lia) ltac:(lia)) as (t1 & request & Hb & H).
  exists t1, request. split; [exact Hb|]. apply (H 1000 900 None client_header new_server).
  - split; try done; by vm_compute.
  - exists 1. by split.
  - discriminate.
Defined.

(** The channel is opened at time 0; at 80 seconds, more than 125% of the lifetime of 60 seconds, it is renewed,
    and its keys of the first token, renewed at 60 seconds the last time, are gone. *)
Definition rsa_request (type : SecurityTokenRequestType) (b : Z) : OpenSecureChannelRequest :=
  mkOpenRequest 0 type ModeSignAndEncrypt (Some (repeat b 32)) 60000.
Definition rsa_server : ServerConnection :=
  mkServer (on_channel (set_remote_keys ∅) (token_channel RoleServer Basic256Sha256)) (mkChannelState false 0 (mkAtomicHandle 1 1) 0).
Definition opened (now : Z) (request : OpenSecureChannelRequest) (c : ServerConnection) : ServerConnection :=
  match open_secure_channel 3600000 (fun _ _ => Ok tt) now (drawn 6) (Asymmetric client_header) 0 request c with Ret (c', _) => c' | _ => c end.
Definition at_0 : ServerConnection := opened 0 (rsa_request Issue 7) rsa_server.
Definition at_60 : ServerConnection := opened (millis 60000) (rsa_request Renew 8) at_0.
Definition at_80 : ServerConnection := opened (millis 80000) (rsa_request Renew 9) at_60.
Example overlap_then_none : map fst (map_to_list (remote_keys (channel (sv_channel at_60)))) = [2; 1]
  /\ map fst (map_to_list (remote_keys (channel (sv_channel at_80)))) = [3].
Proof. split; vm_compute; reflexivity. Qed.

Lemma renewal_drops_previous_keys_witness : is_some (get_remote_keys 2 (channel (sv_channel at_60))) = true /\
  forall token, get_remote_keys token (channel (sv_channel at_80)) <> None -> token = token_id (channel (sv_channel at_80)).
Proof.
  split; [vm_compute; reflexivity|].
  assert (exists x, open_secure_channel 3600000 (fun _ _ => Ok tt) (millis 80000) (drawn 6) (Asymmetric client_header) 0 (rsa_request Renew 9) at_60
    = Ret (at_80, Ok (Opened x))) as [x Hx] by (eexists; vm_compute; reflexivity).
  refine (renewal_drops_previous_keys 3600000 (fun _ _ => Ok tt) 0 60000 at_60 (millis 80000) (drawn 6) (Asymmetric client_header) 0 (rsa_request Renew 9) at_80 x _ _ _ Hx _).
  2: reflexivity.
  2: vm_compute; discriminate.
  2: vm_compute; reflexivity.
  assert (forall b now type c, serves 3600000 (fun _ _ => Ok tt) 0 60000 c ->
    match open_secure_channel 3600000 (fun _ _ => Ok tt) now (drawn 6) (Asymmetric client_header) 0 (mkOpenRequest 0 type ModeSignAndEncrypt (Some (repeat b 32)) 60000) c with
    | Ret _ => True | _ => False end ->
    serves 3600000 (fun _ _ => Ok tt) 0 60000 (opened now (mkOpenRequest 0 type ModeSignAndEncrypt (Some (repeat b 32)) 60000) c)) as Hopen.
  { intros b now type c Hc. unfold opened, rsa_request. destruct (open_secure_channel _ _ _ _ _ _ _ c) as [[c' r]| |] eqn:Ho; [intros _|done..].
    exact (serves_open 3600000 (fun _ _ => Ok tt) 0 60000 _ _ _ _ _ (mkOpenRequest 0 type ModeSignAndEncrypt (Some (repeat b 32)) 60000) _ _ Hc eq_refl Ho). }
  apply (Hopen 8 (millis 60000) Renew at_0); [|vm_compute; exact I]. apply (Hopen 7 0 Issue rsa_server); [|vm_compute; exact I].
  by apply (serves_start 3600000 (fun _ _ => Ok tt) 0 60000 rsa_server).
Defined.
