(* ===== verification/NodeIdText.v ===== *)
(** * Node identifiers as text

    [Display] and [FromStr] of [Identifier], [NodeId] and [ExpandedNodeId] (types/src/node_id,
    expanded_node_id.rs) and the string form of a [NodeId] in JSON (node_id/json.rs).  The crates for
    UUIDs and base64 are [TextCodecs] with their laws; the regular expression engine on the constant
    pattern of the file is [NodeIdRegex].  A slice of a string inside a character panics. *)

From S2P Require Import Prelude Text StatusCode NumericRange Variant TypeTree.
#[local] Open Scope Z_scope.

(** ** Libraries *)

(** UUIDs in their hyphenated form, and base64 with the standard alphabet. *)
Class TextCodecs := {
  uuid_display : list Z -> rstr;
  uuid_from_str : rstr -> option (list Z);
  base64_encode : list Z -> rstr;
  base64_decode : rstr -> option (list Z)
}.
Definition NEWLINE : Z := 10.
Definition octet (b : Z) : Prop := 0 <= b < 256.
(** A text that [.+] matches. *)
Definition one_line (s : rstr) : Prop := s <> [] /\ NEWLINE ∉ s.
Class TextCodecLaws (TC : TextCodecs) : Prop := {
  uuid_text g : length g = 16%nat -> Forall octet g -> uuid_from_str (uuid_display g) = Some g /\ one_line (uuid_display g);
  base64_text b : Forall octet b -> base64_decode (base64_encode b) = Some b /\ NEWLINE ∉ base64_encode b /\ (b <> [] -> base64_encode b <> [])
}.

(** [^(ns=(?P<ns>[0-9]+);)?(?P<t>[isgb]=.+)$] with its groups. *)
Definition type_text (t : rstr) : Prop := exists k v, t = k :: str "=" ++ v /\ k ∈ str "isgb" /\ one_line v.
Inductive NodeIdMatch : rstr -> option rstr -> rstr -> Prop :=
| match_bare t : type_text t -> NodeIdMatch t None t
| match_ns ns t : ns <> [] -> forallb is_digit ns = true -> type_text t -> NodeIdMatch (str "ns=" ++ ns ++ str ";" ++ t) (Some ns) t.
Class NodeIdRegex := {
  node_id_captures : rstr -> option (option rstr * rstr);
  node_id_captures_spec s ns t : node_id_captures s = Some (ns, t) <-> NodeIdMatch s ns t
}.

(** ** Functions of the standard library *)

Definition is_prefix (p s : rstr) : bool := bool_decide (take (length p) s = p).
Definition strip_prefix (p s : rstr) : option rstr := if is_prefix p s then Some (drop (length p) s) else None.
(** [split_once] on a character. *)
Fixpoint split_once (sep : Z) (s : rstr) : option (rstr * rstr) :=
  match s with
  | [] => None
  | c :: s' => if c =? sep then Some ([], s') else match split_once sep s' with Some (a, b) => Some (c :: a, b) | None => None end
  end.
(** [replace] of a character, and of a text: [skip] characters of a match are left. *)
Definition replace_char (c : Z) (r : rstr) (s : rstr) : rstr := concat (map (fun x => if x =? c then r else [x]) s).
Fixpoint replace_from (skip : nat) (p r s : rstr) : rstr :=
  match s with
  | [] => []
  | c :: s' =>
      match skip with
      | S k => replace_from k p r s'
      | O => if is_prefix p (c :: s') then r ++ replace_from (length p - 1) p r s' else c :: replace_from 0 p r s'
      end
  end.
Definition replace (p r s : rstr) : rstr := replace_from 0 p r s.
(** [FromStr] of an integer type: a sign is allowed where the type has it, [+] always. *)
Definition int_from_str (min max : Z) (s : rstr) : option Z :=
  let value (negative : bool) (ds : rstr) :=
    match ds with
    | [] => None
    | _ => if forallb is_digit ds then
             let v := if negative then - digits_value ds else digits_value ds in
             if (min <=? v) && (v <=? max) then Some v else None
           else None
    end in
  match s with
  | c :: ds => if c =? 43 then value false ds else if (c =? 45) && (min <? 0) then value true ds else value false s
  | [] => None
  end.

Section text.
Context {TC : TextCodecs} {RE : NodeIdRegex}.

(** ** Identifiers and node ids *)

Definition ua_display (s : UAString) : rstr := match s with Some v => v | None => str "[null]" end.
Definition as_base64 (b : ByteString) : rstr := base64_encode (default [] b).
Definition identifier_display (i : Identifier) : rstr :=
  match i with
  | IdNumeric v => str "i=" ++ decimal v
  | IdString s => str "s=" ++ ua_display s
  | IdGuid g => str "g=" ++ uuid_display g
  | IdByteString b => str "b=" ++ as_base64 b
  end.
Definition node_id_display (n : NodeId) : rstr :=
  if namespace n =? 0 then identifier_display (identifier n)
  else str "ns=" ++ decimal (namespace n) ++ str ";" ++ identifier_display (identifier n).

(** The slices cut at the second byte. *)
Definition identifier_from_str (s : rstr) : outcome (result Identifier unit) :=
  if utf8_len s <? 2 then Ret (Err tt)
  else
    match s with
    | a :: s' =>
        if utf8_len_char a =? 2 then Ret (Err tt)
        else if negb (utf8_len_char a =? 1) then Panic
        else
          match s' with
          | b :: v =>
              if negb (utf8_len_char b =? 1) then Panic
              else
                let k := [a; b] in
                Ret (if bool_decide (k = str "i=") then match int_from_str 0 u32_max v with Some n => Ok (IdNumeric n) | None => Err tt end
                     else if bool_decide (k = str "s=") then Ok (IdString (Some v))
                     else if bool_decide (k = str "g=") then match uuid_from_str v with Some g => Ok (IdGuid g) | None => Err tt end
                     else if bool_decide (k = str "b=") then match base64_decode v with Some b => Ok (IdByteString (Some b)) | None => Err tt end
                     else Err tt)
          | [] => Ret (Err tt)
          end
    | [] => Ret (Err tt)
    end.
Definition node_id_from_str (s : rstr) : outcome (result NodeId StatusCode) :=
  match node_id_captures s with
  | None => Ret (Err BadNodeIdInvalid)
  | Some (ns, t) =>
      match (match ns with Some ns => int_from_str 0 u16_max ns | None => Some 0 end) with
      | None => Ret (Err BadNodeIdInvalid)
      | Some ns =>
          let! r := identifier_from_str t in
          Ret match r with Ok i => Ok {| namespace := ns; identifier := i |} | Err _ => Err BadNodeIdInvalid end
      end
  end.

(** ** Expanded node ids *)

Definition ua_is_empty (s : UAString) : bool := match s with None | Some [] => true | _ => false end.
Definition escape_namespace_uri (uri : rstr) : rstr := replace_char 59 (str "%3b") (replace_char 37 (str "%25") uri).
Definition unescape_namespace_uri (uri : rstr) : rstr := replace (str "%25") (str "%") (replace (str "%3b") (str ";") uri).
Definition expanded_display (e : ExpandedNodeId) : rstr :=
  if ua_is_empty (namespace_uri e) then str "svr=" ++ decimal (server_index e) ++ str ";" ++ node_id_display (node_id e)
  else str "svr=" ++ decimal (server_index e) ++ str ";nsu=" ++ escape_namespace_uri (ua_as_ref (namespace_uri e)) ++ str ";"
         ++ identifier_display (identifier (node_id e)).
Definition parse_server (s : rstr) : option (Z * rstr) :=
  match strip_prefix (str "svr=") s with
  | None => Some (0, s)
  | Some after =>
      match split_once 59 after with
      | None => None
      | Some (digits, tail) => match int_from_str 0 u32_max digits with Some n => Some (n, tail) | None => None end
      end
  end.
Definition parse_uri (s : rstr) : option (UAString * rstr) :=
  match strip_prefix (str "nsu=") s with
  | None => Some (None, s)
  | Some after =>
      match split_once 59 after with
      | None => None
      | Some (uri, tail) =>
          match uri with
          | [] => None
          | _ => if is_prefix (str "ns=") tail then None else Some (Some (unescape_namespace_uri uri), tail)
          end
      end
  end.
Definition expanded_from_str (s : rstr) : outcome (result ExpandedNodeId StatusCode) :=
  match parse_server s with
  | None => Ret (Err BadNodeIdInvalid)
  | Some (server, rest) =>
      match parse_uri rest with
      | None => Ret (Err BadNodeIdInvalid)
      | Some (uri, rest) =>
          let! r := node_id_from_str rest in
          Ret match r with
              | Ok n => Ok {| node_id := n; namespace_uri := uri; server_index := server |}
              | Err e => Err e
              end
      end
  end.

(** ** Node ids in JSON *)

(** [known] are the registered namespaces in the order in which the map gives them. *)
Fixpoint namespace_uri_for_index (known : list (rstr * Z)) (i : Z) : option rstr :=
  match known with
  | [] => None
  | (uri, j) :: known' => if j =? i then Some uri else namespace_uri_for_index known' i
  end.
Definition json_node_id_string (known : list (rstr * Z)) (n : NodeId) : rstr :=
  if namespace n =? 0 then identifier_display (identifier n)
  else
    match namespace_uri_for_index known (namespace n) with
    | Some uri => if bool_decide (uri = UA_NAMESPACE) then identifier_display (identifier n)
                  else str "nsu=" ++ escape_namespace_uri uri ++ str ";" ++ identifier_display (identifier n)
    | None => node_id_display n
    end.
Definition decode_node_id_string (m : NamespaceMap) (value : rstr) : outcome (result NodeId StatusCode) :=
  match strip_prefix (str "nsu=") value with
  | None => let! r := node_id_from_str value in Ret match r with Ok n => Ok n | Err _ => Err BadNodeIdInvalid end
  | Some rest =>
      match split_once 59 rest with
      | None => Ret (Err BadNodeIdInvalid)
      | Some (uri, id) =>
          if bool_decide (uri = []) || is_prefix (str "ns=") id then Ret (Err BadNodeIdInvalid)
          else
            match get_index (unescape_namespace_uri uri) m with
            | None => Ret (Ok {| namespace := 0; identifier := IdString (Some value) |})
            | Some ns =>
                let! r := identifier_from_str id in
                Ret match r with Ok i => Ok {| namespace := ns; identifier := i |} | Err _ => Err BadNodeIdInvalid end
            end
      end
  end.
End text.

(** ** Round trips *)

(** Identifiers whose text parses: others, such as a string with a line break, do not. *)
Definition printable (i : Identifier) : Prop :=
  match i with
  | IdNumeric n => is_u32 n
  | IdString s => exists v, s = Some v /\ one_line v
  | IdGuid g => length g = 16%nat /\ Forall octet g
  | IdByteString b => exists v, b = Some v /\ v <> [] /\ Forall octet v
  end.
Definition printable_id (n : NodeId) : Prop := 0 <= namespace n <= u16_max /\ printable (identifier n).

Lemma is_digit_ascii c : is_digit c = true -> 48 <= c <= 57.
Proof. unfold is_digit. lia. Qed.
Lemma int_from_digits min max s : s <> [] -> forallb is_digit s = true -> min <= digits_value s <= max -> int_from_str min max s = Some (digits_value s).
Proof.
  intros Hne Hd Hv. destruct s as [|c s]; [done|]. unfold int_from_str. pose proof Hd as Hc. cbn [forallb] in Hc. apply andb_prop in Hc as [Hc%is_digit_ascii _].
  assert ((c =? 43) = false) as -> by lia. assert ((c =? 45) = false) as -> by lia. cbn [andb]. rewrite Hd.
  assert ((min <=? digits_value (c :: s)) && (digits_value (c :: s) <=? max) = true) as -> by lia. done.
Qed.
Lemma decimal_text n : 0 <= n <= u64_max -> decimal n <> [] /\ forallb is_digit (decimal n) = true /\ digits_value (decimal n) = n.
Proof. intros H. split; [by apply decimal_ne; left; lia|]. split; [by apply decimal_digits|by apply decimal_value]. Qed.
Lemma int_from_decimal max n : 0 <= n <= max -> max <= u64_max -> int_from_str 0 max (decimal n) = Some n.
Proof. intros Hn Hm. destruct (decimal_text n) as (H1 & H2 & H3); [lia|]. rewrite int_from_digits; rewrite ?H3; try done; lia. Qed.
Lemma digits_not_in c s : forallb is_digit s = true -> is_digit c = false -> c ∉ s.
Proof. intros Hs Hc Hin. rewrite forallb_forall in Hs. apply list_elem_of_In, Hs in Hin. congruence. Qed.

Lemma is_prefix_other a b p s : b <> a -> is_prefix (a :: p) (b :: s) = false.
Proof. intros H. unfold is_prefix. apply bool_decide_false. change (take (length (a :: p)) (b :: s)) with (b :: take (length p) s). congruence. Qed.
Lemma strip_prefix_app p s : strip_prefix p (p ++ s) = Some s.
Proof. unfold strip_prefix, is_prefix. rewrite take_app_length, bool_decide_true by done. by rewrite drop_app_length. Qed.
Lemma split_once_app sep a b : sep ∉ a -> split_once sep (a ++ sep :: b) = Some (a, b).
Proof.
  induction a as [|x a IH]; intros Ha; cbn.
  - by rewrite Z.eqb_refl.
  - apply not_elem_of_cons in Ha as [Hx Ha]. destruct (Z.eqb_spec x sep); [congruence|]. by rewrite IH.
Qed.

(** *** Escaping *)

Lemma replace_other c q r s x : x <> c -> replace_from 0 (c :: q) r (x :: s) = x :: replace_from 0 (c :: q) r s.
Proof. intros Hx. cbn [replace_from]. unfold is_prefix. rewrite bool_decide_false; [done|]. cbn. congruence. Qed.
Lemma escape_cons x u : escape_namespace_uri (x :: u) =
  (if x =? 37 then str "%25" else if x =? 59 then str "%3b" else [x]) ++ escape_namespace_uri u.
Proof.
  unfold escape_namespace_uri, replace_char. cbn [map concat]. rewrite map_app, concat_app. f_equal.
  destruct (Z.eqb_spec x 37) as [->|H]; [done|]. cbn. by destruct (x =? 59).
Qed.
Lemma escape_no_semicolon u : 59 ∉ escape_namespace_uri u.
Proof.
  induction u as [|x u IH]; [apply not_elem_of_nil|]. rewrite escape_cons. apply not_elem_of_app. split; [|done].
  destruct (Z.eqb_spec x 37); [cbn; set_solver by lia|]. destruct (Z.eqb_spec x 59); cbn; set_solver by lia.
Qed.
Lemma unescape_semicolons u : replace (str "%3b") (str ";") (escape_namespace_uri u) = replace_char 37 (str "%25") u.
Proof.
  induction u as [|x u IH]; [done|]. rewrite escape_cons. unfold replace_char. cbn [map concat]. fold (replace_char 37 (str "%25") u). rewrite <- IH. unfold replace.
  destruct (Z.eqb_spec x 37) as [->|H].
  - change (replace_from 0 [37; 51; 98] [59] (37 :: 50 :: 53 :: escape_namespace_uri u)
            = 37 :: 50 :: 53 :: replace_from 0 [37; 51; 98] [59] (escape_namespace_uri u)).
    cbn [replace_from]. unfold is_prefix at 1. rewrite bool_decide_false by (cbn; discriminate).
    done.
  - destruct (Z.eqb_spec x 59) as [->|H']; [done|]. change (str "%3b") with [37; 51; 98]. cbn [app]. by apply replace_other.
Qed.
Lemma unescape_percents u : replace (str "%25") (str "%") (replace_char 37 (str "%25") u) = u.
Proof.
  induction u as [|x u IH]; [done|]. unfold replace_char in *. cbn [map concat]. unfold replace in *. destruct (Z.eqb_spec x 37) as [->|H].
  - cbn [str app]. cbn. f_equal. exact IH.
  - change (str "%25") with [37; 50; 53] in *. cbn [app]. rewrite replace_other by done. by f_equal.
Qed.
Lemma unescape_escape u : unescape_namespace_uri (escape_namespace_uri u) = u.
Proof. unfold unescape_namespace_uri. by rewrite unescape_semicolons, unescape_percents. Qed.
Lemma escape_ne u : u <> [] -> escape_namespace_uri u <> [].
Proof. destruct u as [|x u]; [done|]. intros _. rewrite escape_cons. by destruct (x =? 37), (x =? 59). Qed.

Section round_trip.
Context {TC : TextCodecs} {RE : NodeIdRegex} {TL : TextCodecLaws TC}.

Lemma digits_one_line n : 0 <= n <= u64_max -> one_line (decimal n).
Proof. intros Hn. destruct (decimal_text n Hn) as (H1 & H2 & _). split; [done|]. by apply (digits_not_in NEWLINE). Qed.
Lemma identifier_type_text i : printable i -> type_text (identifier_display i).
Proof.
  destruct i as [n|s|g|b]; cbn [printable identifier_display].
  - intros Hn. exists 105, (decimal n). split; [done|]. split; [cbn; set_solver|]. apply digits_one_line. unfold is_u32 in Hn. int_lia.
  - intros (v & -> & Hv). exists 115, v. split; [done|]. split; [cbn; set_solver|done].
  - intros [Hl Ho]. exists 103, (uuid_display g). split; [done|]. split; [cbn; set_solver|]. by apply uuid_text.
  - intros (v & -> & Hne & Ho). exists 98, (base64_encode v). destruct (base64_text v Ho) as (_ & H1 & H2).
    split; [done|]. split; [cbn; set_solver|]. split; auto.
Qed.
Lemma type_text_total t : type_text t -> exists r, identifier_from_str t = Ret r.
Proof.
  intros (k & v & -> & Hk & Hv). assert (utf8_len_char k = 1) as H1 by (cbn in Hk; by repeat (apply elem_of_cons in Hk as [->|Hk]; [done|]); apply elem_of_nil in Hk).
  unfold identifier_from_str. destruct (_ <? 2); [eauto|]. cbn [str app]. rewrite H1. cbn. eauto.
Qed.
Lemma utf8_len_nonneg v : 0 <= utf8_len v.
Proof. induction v as [|c v IH]; [done|]. cbn [utf8_len foldr]. fold (utf8_len v). unfold utf8_len_char. repeat case_match; lia. Qed.
Lemma identifier_round_trip i : printable i -> identifier_from_str (identifier_display i) = Ret (Ok i).
Proof.
  assert (forall k v, utf8_len_char k = 1 -> utf8_len (k :: 61 :: v) <? 2 = false) as Hlen.
  { intros k v Hk. cbn [utf8_len foldr]. rewrite Hk. change (utf8_len_char 61) with 1.
    pose proof (utf8_len_nonneg v). unfold utf8_len in *. lia. }
  destruct i as [n|s|g|b]; cbn [printable identifier_display]; unfold identifier_from_str; intros H; cbn [str app]; rewrite Hlen by done; cbn -[int_from_str decimal].
  - unfold is_u32 in H. rewrite int_from_decimal by int_lia. done.
  - destruct H as (v & -> & _). done.
  - destruct H as [Hl Ho]. destruct (uuid_text g Hl Ho) as [-> _]. done.
  - destruct H as (v & -> & _ & Ho). unfold as_base64. cbn. destruct (base64_text v Ho) as [-> _]. done.
Qed.
Lemma type_text_not_ns t : type_text t -> is_prefix (str "ns=") t = false /\ strip_prefix (str "nsu=") t = None.
Proof.
  intros (k & v & -> & Hk & _). assert (k <> 110) as Hne by (cbn in Hk; intros ->; repeat (apply elem_of_cons in Hk as [Hk|Hk]; [discriminate Hk|]); by apply elem_of_nil in Hk).
  unfold strip_prefix. cbn [str app]. by rewrite !is_prefix_other.
Qed.

Lemma node_id_match n : printable_id n ->
  exists ns, NodeIdMatch (node_id_display n) ns (identifier_display (identifier n))
    /\ (match ns with Some ns => int_from_str 0 u16_max ns | None => Some 0 end) = Some (namespace n).
Proof.
  intros [Hns Hp%identifier_type_text]. unfold node_id_display. destruct (Z.eqb_spec (namespace n) 0) as [->|H].
  - exists None. split; [by constructor|done].
  - destruct (decimal_text (namespace n)) as (H1 & H2 & _); [int_lia|]. exists (Some (decimal (namespace n))).
    split; [by constructor|]. by rewrite int_from_decimal by int_lia.
Qed.
Lemma node_id_parses_back n : printable_id n -> node_id_from_str (node_id_display n) = Ret (Ok n).
Proof.
  intros Hp. destruct (node_id_match n Hp) as (ns & Hm & Hns). unfold node_id_from_str. apply node_id_captures_spec in Hm as ->.
  rewrite Hns, identifier_round_trip by apply Hp. by destruct n.
Qed.
Lemma node_id_total s : exists r, node_id_from_str s = Ret r.
Proof.
  unfold node_id_from_str. destruct (node_id_captures s) as [[ns t]|] eqn:Hc; [|eauto]. apply node_id_captures_spec in Hc.
  destruct (match ns with Some _ => _ | None => _ end); [|eauto].
  destruct (type_text_total t) as [r ->]; [by destruct Hc|]. cbn. eauto.
Qed.
Lemma node_id_no_uri n : printable_id n -> strip_prefix (str "nsu=") (node_id_display n) = None.
Proof.
  intros [_ Hp%identifier_type_text]. unfold node_id_display. destruct (namespace n =? 0); [by apply type_text_not_ns|]. done.
Qed.

(** An expanded node id has a namespace index or a URI. *)
Definition printable_expanded (e : ExpandedNodeId) : Prop :=
  is_u32 (server_index e) /\ printable_id (node_id e)
  /\ match namespace_uri e with None => True | Some uri => uri <> [] /\ namespace (node_id e) = 0 end.
Lemma parse_uri_escape u tail : u <> [] -> is_prefix (str "ns=") tail = false ->
  parse_uri (str "nsu=" ++ escape_namespace_uri u ++ 59 :: tail) = Some (Some u, tail).
Proof.
  intros Hu Ht. unfold parse_uri. rewrite strip_prefix_app, split_once_app by apply escape_no_semicolon.
  pose proof (unescape_escape u) as Hun. pose proof (escape_ne u Hu) as Hne. destruct (escape_namespace_uri u); [done|]. by rewrite Ht, Hun.
Qed.
Lemma expanded_round_trip e : printable_expanded e -> expanded_from_str (expanded_display e) = Ret (Ok e).
Proof.
  intros (Hs & Hn & Hu). unfold is_u32 in Hs. destruct (decimal_text (server_index e)) as (D1 & D2 & _); [int_lia|].
  assert (forall rest, parse_server (str "svr=" ++ decimal (server_index e) ++ 59 :: rest) = Some (server_index e, rest)) as Hsv.
  { intros rest. unfold parse_server. rewrite strip_prefix_app, split_once_app by by apply (digits_not_in 59).
    by rewrite int_from_decimal by int_lia. }
  unfold expanded_from_str, expanded_display. destruct e as [n uri sv]. cbn [server_index node_id namespace_uri] in *. destruct uri as [uri|]; cbn [ua_is_empty].
  - destruct Hu as [Hne Hz]. destruct uri as [|x uri]; [done|]. cbn [ua_as_ref default]. match goal with |- context [str ";nsu=" ++ ?r] => change (str ";nsu=" ++ r) with (59 :: (str "nsu=" ++ r)) end. rewrite Hsv.
    set (u := x :: uri) in *. change (str ";" ++ identifier_display (identifier n)) with (59 :: identifier_display (identifier n)).
    pose proof (identifier_type_text _ (proj2 Hn)) as Ht. rewrite parse_uri_escape by (try done; by apply type_text_not_ns).
    replace (identifier_display (identifier n)) with (node_id_display n) by (unfold node_id_display; by rewrite Hz).
    by rewrite node_id_parses_back.
  - change (str ";" ++ node_id_display n) with (59 :: node_id_display n). rewrite Hsv. unfold parse_uri. rewrite node_id_no_uri by done.
    by rewrite node_id_parses_back.
Qed.

Lemma known_uri known i uri : namespace_uri_for_index known i = Some uri -> (uri, i) ∈ known.
Proof.
  induction known as [|[u j] known IH]; cbn; [done|]. destruct (Z.eqb_spec j i) as [->|]; [intros [= ->]; left|intros H; right; auto].
Qed.
Lemma json_round_trip m known n : printable_id n -> known ≡ₚ map_to_list m ->
  (forall uri i, m !! uri = Some i -> uri <> [] /\ (uri = UA_NAMESPACE -> i = 0)) ->
  decode_node_id_string m (json_node_id_string known n) = Ret (Ok n).
Proof.
  intros Hp Hk Hm. pose proof (identifier_type_text _ (proj2 Hp)) as Ht. destruct (type_text_not_ns _ Ht) as [Hns Hnsu].
  assert (strip_prefix (str "nsu=") (node_id_display n) = None -> decode_node_id_string m (node_id_display n) = Ret (Ok n)) as Hplain.
  { intros H. unfold decode_node_id_string. rewrite H, node_id_parses_back by done. done. }
  unfold json_node_id_string. destruct (Z.eqb_spec (namespace n) 0) as [Hz|Hz].
  { replace (identifier_display (identifier n)) with (node_id_display n) by (unfold node_id_display; by rewrite Hz). apply Hplain, node_id_no_uri, Hp. }
  destruct (namespace_uri_for_index known (namespace n)) as [uri|] eqn:Hf; [|apply Hplain, node_id_no_uri, Hp].
  apply known_uri in Hf. rewrite Hk in Hf. apply elem_of_map_to_list in Hf. destruct (Hm uri _ Hf) as [Hne Hua].
  rewrite bool_decide_false by (intros ->; by apply Hz, Hua). unfold decode_node_id_string.
  change (str ";" ++ identifier_display (identifier n)) with (59 :: identifier_display (identifier n)).
  rewrite strip_prefix_app, split_once_app by apply escape_no_semicolon. rewrite bool_decide_false by by apply escape_ne.
  rewrite Hns, unescape_escape. cbn [orb]. unfold get_index. rewrite Hf, identifier_round_trip by apply Hp. by destruct n.
Qed.

(** C16: parsing a node id never panics; node ids and expanded node ids whose identifier can be parsed back
    (a non-empty one-line string, bytes that are not empty, an integer or a GUID) come back from their text
    as they were, also with a namespace URI that has percent signs and semicolons; and so does a node id
    from its JSON string when the namespaces of both ends are the same. *)
Theorem node_id_text_round_trip :
  (forall s, exists r, node_id_from_str s = Ret r)
  /\ (forall n, printable_id n -> node_id_from_str (node_id_display n) = Ret (Ok n))
  /\ (forall e, printable_expanded e -> expanded_from_str (expanded_display e) = Ret (Ok e))
  /\ (forall m known n, printable_id n -> known ≡ₚ map_to_list m ->
        (forall uri i, m !! uri = Some i -> uri <> [] /\ (uri = UA_NAMESPACE -> i = 0)) ->
        decode_node_id_string m (json_node_id_string known n) = Ret (Ok n)).
Proof.
  split; [apply node_id_total|]. split; [apply node_id_parses_back|]. split; [apply expanded_round_trip|apply json_round_trip].
Qed.
End round_trip.

(** ** An instance *)

(** The pattern is decided: the digits up to the first semicolon, then the type text. *)
Definition type_text_b (t : rstr) : bool :=
  match t with
  | k :: e :: v => existsb (Z.eqb k) (str "isgb") && (e =? 61) && negb (bool_decide (v = [])) && negb (existsb (Z.eqb NEWLINE) v)
  | _ => false
  end.
Definition match_node_id (s : rstr) : option (option rstr * rstr) :=
  if type_text_b s then Some (None, s)
  else match strip_prefix (str "ns=") s with
       | None => None
       | Some rest => match split_once 59 rest with
                      | Some (ns, t) => if negb (bool_decide (ns = [])) && forallb is_digit ns && type_text_b t then Some (Some ns, t) else None
                      | None => None
                      end
       end.
Lemma existsb_elem c l : existsb (Z.eqb c) l = true <-> c ∈ l.
Proof.
  rewrite existsb_exists. split; [intros (x & Hx & ->%Z.eqb_eq); by apply list_elem_of_In|intros H; exists c; split; [by apply list_elem_of_In|apply Z.eqb_refl]].
Qed.
Lemma type_text_decided t : type_text_b t = true <-> type_text t.
Proof.
  split.
  - destruct t as [|k [|e v]]; [done..|]. cbn [type_text_b]. intros [[[Hk ->%Z.eqb_eq]%andb_prop Hv]%andb_prop Hn]%andb_prop.
    exists k, v. split; [done|]. split; [by apply existsb_elem|]. split; [by intros ->|]. intros Hin. apply existsb_elem in Hin. by rewrite Hin in Hn.
  - intros (k & v & -> & Hk%existsb_elem & Hne & Hn). change (k :: str "=" ++ v) with (k :: 61 :: v). unfold type_text_b. rewrite Hk, bool_decide_false by done. cbn [andb negb Z.eqb Pos.eqb].
    destruct (existsb (Z.eqb NEWLINE) v) eqn:E; [by apply existsb_elem in E|done].
Qed.
Lemma split_once_Some sep s a b : split_once sep s = Some (a, b) -> s = a ++ sep :: b.
Proof.
  revert a. induction s as [|c s IH]; intros a; cbn; [done|]. destruct (Z.eqb_spec c sep) as [->|H]; [by intros [= <- <-]|].
  destruct (split_once sep s) as [[a' b']|]; [|done]. intros [= <- <-]. cbn. f_equal. by apply IH.
Qed.
Lemma strip_prefix_Some p s r : strip_prefix p s = Some r -> s = p ++ r.
Proof. unfold strip_prefix, is_prefix. case_bool_decide as H; [|done]. intros [= <-]. rewrite <- H at 1. by rewrite take_drop. Qed.
Lemma match_node_id_spec s ns t : match_node_id s = Some (ns, t) <-> NodeIdMatch s ns t.
Proof.
  unfold match_node_id. split.
  - destruct (type_text_b s) eqn:Ht; [intros [= <- <-]; constructor; by apply type_text_decided|].
    destruct (strip_prefix _ s) as [rest|] eqn:Hp; [|done]. apply strip_prefix_Some in Hp as ->.
    destruct (split_once 59 rest) as [[d u]|] eqn:Hs; [|done]. apply split_once_Some in Hs as ->.
    destruct (_ && _) eqn:Hb; [|done]. intros [= <- <-]. apply andb_prop in Hb as [[Hd Hf]%andb_prop Hu%type_text_decided].
    apply (match_ns d u); [by intros ->|done|done].
  - destruct 1 as [t Ht|ns t Hne Hd Ht]; [by apply type_text_decided in Ht as ->|].
    change (type_text_b (str "ns=" ++ ns ++ str ";" ++ t)) with false. cbv iota.
    change (str ";" ++ t) with (59 :: t). rewrite strip_prefix_app, split_once_app by by apply (digits_not_in 59).
    apply type_text_decided in Ht as ->. rewrite bool_decide_false by done. by rewrite Hd.
Qed.
#[export] Instance node_id_regex : NodeIdRegex := {| node_id_captures := match_node_id; node_id_captures_spec := match_node_id_spec |}.

(** Codecs that shift each byte past the line breaks. *)
#[export] Instance toy_codecs : TextCodecs :=
  {| uuid_display g := map (Z.add 1000) g; uuid_from_str s := Some (map (fun c => c - 1000) s);
     base64_encode b := map (Z.add 1000) b; base64_decode s := Some (map (fun c => c - 1000) s) |}.
Lemma shift_back b : map (fun c => c - 1000) (map (Z.add 1000) b) = b.
Proof. rewrite map_map. rewrite <- (map_id b) at 2. apply map_ext. intros. lia. Qed.
Lemma shifted_no_newline b : Forall octet b -> NEWLINE ∉ map (Z.add 1000) b.
Proof. intros Hb Hin. apply list_elem_of_In, in_map_iff in Hin as (x & Hx & Hin). rewrite Forall_forall in Hb. apply list_elem_of_In, Hb in Hin. unfold NEWLINE, octet in *. lia. Qed.
#[export] Instance toy_codec_laws : TextCodecLaws toy_codecs.
Proof.
  split; cbn.
  - intros g Hl Ho. rewrite shift_back. split; [done|]. split; [by destruct g|by apply shifted_no_newline].
  - intros b Ho. rewrite shift_back. split; [done|]. split; [by apply shifted_no_newline|]. by destruct b.
Qed.

Definition plant : rstr := str "urn:plant;50%3b".
Definition tag : NodeId := {| namespace := 7; identifier := IdString (Some (str "tag 1")) |}.
Definition opaque_tag : ExpandedNodeId := {| node_id := {| namespace := 0; identifier := IdByteString (Some [1; 2]) |}; namespace_uri := Some plant; server_index := 3 |}.
Example texts : node_id_display tag = str "ns=7;s=tag 1" /\ json_node_id_string [(plant, 7)] tag = str "nsu=urn:plant%3b50%253b;s=tag 1".
Proof. split; reflexivity. Qed.
(** A character that crosses the second byte ends the decoder of JSON. *)
Example json_identifier_panics : decode_node_id_string {[ plant := 7 ]} (str "nsu=urn:plant%3b50%253b;" ++ [97; 233]) = Panic.
Proof. reflexivity. Qed.
Example string_lost : node_id_from_str (node_id_display {| namespace := 1; identifier := IdString (Some [97; NEWLINE]) |}) = Ret (Err BadNodeIdInvalid).
Proof. reflexivity. Qed.

Lemma node_id_text_round_trip_witness :
  node_id_from_str (node_id_display tag) = Ret (Ok tag) /\ expanded_from_str (expanded_display opaque_tag) = Ret (Ok opaque_tag)
  /\ decode_node_id_string {[ plant := 7 ]} (json_node_id_string [(plant, 7)] tag) = Ret (Ok tag).
Proof.
  destruct node_id_text_round_trip as (_ & H1 & H2 & H3).
  assert (printable_id tag) as Htag by (split; [cbn; int_lia|]; exists (str "tag 1"); split; [done|]; split; [done|]; apply (bool_decide_unpack _); reflexivity).
  split; [by apply H1|]. split.
  - apply H2. split; [cbn; int_lia|]. split; [|by split]. split; [cbn; int_lia|]. exists [1; 2]. repeat split; try done; by repeat constructor.
  - apply H3; [done|by rewrite map_to_list_singleton|]. intros uri i Hi. apply lookup_singleton_Some in Hi as [<- <-]. split; discriminate.
Defined.
