(* ===== verification/VariantConvert.v ===== *)
(** * Conversions of variants

    [Variant::convert] (the implicit conversions) and [Variant::cast] (the explicit ones) of
    types/src/variant/mod.rs, the precedence of types and the types that a node id names
    (variant/type_id.rs), with the functions of the standard library they use: [as] casts, parsing of
    integers and floats, printing of floats.  Dates in text are chrono's, [DateText]. *)

From S2P Require Import Prelude Text Float StatusCode NumericRange Variant NodeIdText.
#[local] Open Scope Z_scope.

#[export] Instance VariantTypeId_eq_dec : EqDecision VariantTypeId.
Proof. solve_decision. Defined.

#[export] Instance spec_float_eq_dec : EqDecision spec_float.
Proof. solve_decision. Defined.

Class DateText := { datetime_display : DateTime -> rstr; datetime_from_str : rstr -> option DateTime }.

(** ** The standard library *)

(** [as iN] of an integer. *)
Definition as_signed (bits z : Z) : Z := (z + 2 ^ (bits - 1)) mod 2 ^ bits - 2 ^ (bits - 1).
Definition as_unsigned (bits z : Z) : Z := z mod 2 ^ bits.
Definition f32_of_Z (z : Z) : f32 := binary_normalize 24 128 z 0 false.
(** [f64 as f32]. *)
Definition f32_of_f64 (a : f64) : f32 :=
  match a with S754_finite s m e => binary_normalize 24 128 (cond_Zopp s (Zpos m)) e s | _ => a end.

(** *** Floats in text *)

(** The float nearest to [m * 10^e]. *)
Definition float_of_decimal (prec emax : Z) (negative : bool) (m e : Z) : spec_float :=
  if m =? 0 then S754_zero negative
  else if 0 <=? e then binary_normalize prec emax (cond_Zopp negative (m * 10 ^ e)) 0 negative
  else SFdiv prec emax (S754_finite negative (Z.to_pos m) 0) (S754_finite false (Z.to_pos (10 ^ (- e))) 0).
Definition lowercase (c : Z) : Z := if (65 <=? c) && (c <=? 90) then c + 32 else c.
Fixpoint span_digits (s : rstr) : rstr * rstr :=
  match s with
  | c :: s' => if is_digit c then let '(d, r) := span_digits s' in (c :: d, r) else ([], s)
  | [] => ([], [])
  end.
Definition sign_of (s : rstr) : bool * rstr :=
  match s with c :: s' => if c =? 45 then (true, s') else if c =? 43 then (false, s') else (false, s) | [] => (false, s) end.
Definition exponent_of (s : rstr) : option Z :=
  match s with
  | [] => Some 0
  | c :: s' =>
      if lowercase c =? 101 then
        let '(neg, ds) := sign_of s' in
        match ds with [] => None | _ => if forallb is_digit ds then Some (if neg then - digits_value ds else digits_value ds) else None end
      else None
  end.
Definition float_from_str (prec emax : Z) (s : rstr) : option spec_float :=
  let '(neg, body) := sign_of s in
  let word := map lowercase body in
  if bool_decide (word = str "inf") || bool_decide (word = str "infinity") then Some (S754_infinity neg)
  else if bool_decide (word = str "nan") then Some S754_nan
  else
    let '(whole, r) := span_digits body in
    let '(frac, r) := match r with c :: r' => if c =? 46 then span_digits r' else ([], r) | [] => ([], r) end in
    if bool_decide (whole ++ frac = []) then None
    else match exponent_of r with
         | Some e => Some (float_of_decimal prec emax neg (digits_value (whole ++ frac)) (e - zlen frac))
         | None => None
         end.

(** [Display]: the shortest digits that read back, nearest to the number, written without an exponent. *)
Fixpoint log10_up (fuel : nat) (num den : Z) : Z :=
  match fuel with O => 0 | S f => if 10 * den <=? num then 1 + log10_up f num (10 * den) else 0 end.
Fixpoint log10_down (fuel : nat) (num den : Z) : Z :=
  match fuel with O => 0 | S f => if num <? den then log10_down f (10 * num) den - 1 else 0 end.
Definition log10_floor (num den : Z) : Z := if den <=? num then log10_up 400 num den else log10_down 400 num den.
Fixpoint shortest (fuel : nat) (prec emax num den log n : Z) (v : spec_float) : Z * Z :=
  let k := log - (n - 1) in
  let '(a, b) := if 0 <=? k then (num, den * 10 ^ k) else (num * 10 ^ (- k), den) in
  let d := a / b in
  let '(near, far) := if 2 * (a mod b) <=? b then (d, d + 1) else (d + 1, d) in
  match fuel with
  | O => (near, k)
  | S fuel' =>
      if bool_decide (float_of_decimal prec emax false near k = v) then (near, k)
      else if bool_decide (float_of_decimal prec emax false far k = v) then (far, k)
      else shortest fuel' prec emax num den log (n + 1) v
  end.
Definition place_point (ds : rstr) (k : Z) : rstr :=
  if 0 <=? k then ds ++ repeat 48 (Z.to_nat k)
  else if - k <? zlen ds then take (Z.to_nat (zlen ds + k)) ds ++ 46 :: drop (Z.to_nat (zlen ds + k)) ds
  else str "0." ++ repeat 48 (Z.to_nat (- k - zlen ds)) ++ ds.
Definition float_display (prec emax : Z) (v : spec_float) : rstr :=
  match v with
  | S754_nan => str "NaN"
  | S754_infinity s => if s then str "-inf" else str "inf"
  | S754_zero s => if s then str "-0" else str "0"
  | S754_finite s m e =>
      let '(num, den) := if 0 <=? e then (Zpos m * 2 ^ e, 1) else (Zpos m, 2 ^ (- e)) in
      let '(d, k) := shortest 17 prec emax num den (log10_floor num den) 1 (S754_finite false m e) in
      (if s then [45] else []) ++ place_point (decimal d) k
  end.
Definition f64_display : f64 -> rstr := float_display 53 1024.
Definition f32_display : f32 -> rstr := float_display 24 128.
Definition f64_from_str : rstr -> option f64 := float_from_str 53 1024.
Definition f32_from_str : rstr -> option f32 := float_from_str 24 128.
(** [Display] of a signed integer. *)
Definition int_display (z : Z) : rstr := if z <? 0 then 45 :: decimal (- z) else decimal z.

Example float_texts : f64_display (f64_make 1 (-1)) = str "0.5" /\ option_map f64_display (f64_from_str (str "-0.1e1")) = Some (str "-1")
  /\ option_map f64_display (f64_from_str (str "0.1")) = Some (str "0.1") /\ option_map f64_display (f64_from_str (str "1e21")) = Some (str "1000000000000000000000")
  /\ option_map f64_display (f64_from_str (str "1.7976931348623157E308")) = option_map f64_display (f64_from_str (str "17976931348623157e292"))
  /\ option_map f32_display (f32_from_str (str "16777217")) = Some (str "16777216") /\ f64_from_str (str ".") = None.
Proof. repeat split; vm_compute; reflexivity. Qed.

(** ** Types (type_id.rs) *)

Definition scalar_precedence (t : VariantScalarTypeId) : Z :=
  match t with
  | TDouble => 1 | TFloat => 2 | TInt64 => 3 | TUInt64 => 4 | TInt32 => 5 | TUInt32 => 6 | TStatusCode => 7
  | TInt16 => 8 | TUInt16 => 9 | TSByte => 10 | TByte => 11 | TBoolean => 12 | TGuid => 13 | TString => 14
  | TExpandedNodeId => 15 | TNodeId => 16 | TLocalizedText => 17 | TQualifiedName => 18 | _ => 100
  end.
Definition precedence (t : VariantTypeId) : Z :=
  match t with TyScalar s => scalar_precedence s | TyArray s _ => scalar_precedence s | TyEmpty => 100 end.
(** [TryFrom<&NodeId>]: the identifiers of the data types; [SByte] and [Structure] are not among them. *)
Definition scalar_type_of_node_id (n : NodeId) : option VariantScalarTypeId :=
  match identifier n with
  | IdNumeric i =>
      if negb (namespace n =? 0) then None
      else
        match i with
        | 1 => Some TBoolean | 3 => Some TByte | 4 => Some TInt16 | 5 => Some TUInt16 | 6 => Some TInt32 | 7 => Some TUInt32
        | 8 => Some TInt64 | 9 => Some TUInt64 | 10 => Some TFloat | 11 => Some TDouble | 12 => Some TString | 13 => Some TDateTime
        | 14 => Some TGuid | 15 => Some TByteString | 16 => Some TXmlElement | 17 => Some TNodeId | 18 => Some TExpandedNodeId
        | 19 => Some TStatusCode | 20 => Some TQualifiedName | 21 => Some TLocalizedText | 23 => Some TDataValue | 24 => Some TVariant
        | 25 => Some TDiagnosticInfo | _ => None
        end
  | _ => None
  end.

Section convert.
Context {D : DynEncodable} {TC : TextCodecs} {RE : NodeIdRegex} {DT : DateText}.

Definition is_empty (v : Variant) : bool := match v with VEmpty => true | _ => false end.
Definition or_empty {A} (f : A -> Variant) (o : option A) : Variant := match o with Some x => f x | None => VEmpty end.
(** A parser that may panic in principle; the parser of node ids never does. *)
Definition parsed {A} (f : A -> Variant) (o : outcome (result A StatusCode)) : outcome Variant :=
  let! r := o in Ret match r with Ok x => f x | Err _ => VEmpty end.

(** ** Implicit conversion *)

Definition convert_boolean (b : bool) (t : VariantScalarTypeId) : Variant :=
  let z := if b then 1 else 0 in
  match t with
  | TByte => VByte z | TDouble => VDouble (f64_of_Z z) | TFloat => VFloat (f32_of_Z z) | TInt16 => VInt16 z | TInt32 => VInt32 z
  | TInt64 => VInt64 z | TSByte => VSByte z | TUInt16 => VUInt16 z | TUInt32 => VUInt32 z | TUInt64 => VUInt64 z | _ => VEmpty
  end.
Definition convert_byte (z : Z) (t : VariantScalarTypeId) : Variant :=
  match t with
  | TDouble => VDouble (f64_of_Z z) | TFloat => VFloat (f32_of_Z z) | TInt16 => VInt16 z | TInt32 => VInt32 z | TInt64 => VInt64 z
  | TSByte => VSByte (as_signed 8 z) | TUInt16 => VUInt16 z | TUInt32 => VUInt32 z | TUInt64 => VUInt64 z | _ => VEmpty
  end.
Definition non_negative (f : Z -> Variant) (z : Z) : Variant := if z <? 0 then VEmpty else f z.
Definition convert_sbyte (z : Z) (t : VariantScalarTypeId) : Variant :=
  match t with
  | TDouble => VDouble (f64_of_Z z) | TFloat => VFloat (f32_of_Z z) | TInt16 => VInt16 z | TInt32 => VInt32 z | TInt64 => VInt64 z
  | TUInt16 => non_negative VUInt16 z | TUInt32 => non_negative VUInt32 z | TUInt64 => non_negative VUInt64 z | _ => VEmpty
  end.
Definition convert_int16 (z : Z) (t : VariantScalarTypeId) : Variant :=
  match t with
  | TDouble => VDouble (f64_of_Z z) | TFloat => VFloat (f32_of_Z z) | TInt32 => VInt32 z | TInt64 => VInt64 z
  | TUInt32 => non_negative VUInt32 z | TUInt64 => non_negative VUInt64 z | _ => VEmpty
  end.
Definition convert_int32 (z : Z) (t : VariantScalarTypeId) : Variant :=
  match t with
  | TDouble => VDouble (f64_of_Z z) | TFloat => VFloat (f32_of_Z z) | TInt64 => VInt64 z | TUInt64 => non_negative VUInt64 z | _ => VEmpty
  end.
Definition convert_int64 (z : Z) (t : VariantScalarTypeId) : Variant :=
  match t with TDouble => VDouble (f64_of_Z z) | TFloat => VFloat (f32_of_Z z) | _ => VEmpty end.
Definition convert_uint16 (z : Z) (t : VariantScalarTypeId) : Variant :=
  match t with
  | TDouble => VDouble (f64_of_Z z) | TFloat => VFloat (f32_of_Z z) | TInt16 => VInt16 (as_signed 16 z) | TInt32 => VInt32 z | TInt64 => VInt64 z
  | TStatusCode => VStatusCode (as_unsigned 32 (Z.shiftl z 16)) | TUInt32 => VUInt32 z | TUInt64 => VUInt64 z | _ => VEmpty
  end.
Definition convert_uint32 (z : Z) (t : VariantScalarTypeId) : Variant :=
  match t with
  | TDouble => VDouble (f64_of_Z z) | TFloat => VFloat (f32_of_Z z) | TInt32 => VInt32 (as_signed 32 z) | TInt64 => VInt64 z | TUInt64 => VUInt64 z
  | _ => VEmpty
  end.
Definition convert_uint64 (z : Z) (t : VariantScalarTypeId) : Variant :=
  match t with TDouble => VDouble (f64_of_Z z) | TFloat => VFloat (f32_of_Z z) | TInt64 => VInt64 (as_signed 64 z) | _ => VEmpty end.
Definition convert_status (s : StatusCode) (t : VariantScalarTypeId) : Variant :=
  match t with TInt32 => VInt32 (as_signed 32 s) | TInt64 => VInt64 s | TUInt32 => VUInt32 s | TUInt64 => VUInt64 s | _ => VEmpty end.
Definition convert_string (v : rstr) (t : VariantScalarTypeId) : outcome Variant :=
  match t with
  | TBoolean => Ret (if bool_decide (v = str "true") || bool_decide (v = str "1") then VBoolean true
                     else if bool_decide (v = str "false") || bool_decide (v = str "0") then VBoolean false else VEmpty)
  | TByte => Ret (or_empty VByte (int_from_str 0 255 v))
  | TDouble => Ret (or_empty VDouble (f64_from_str v))
  | TFloat => Ret (or_empty VFloat (f32_from_str v))
  | TGuid => Ret (or_empty VGuid (uuid_from_str v))
  | TInt16 => Ret (or_empty VInt16 (int_from_str (-32768) 32767 v))
  | TInt32 => Ret (or_empty VInt32 (int_from_str (- i32_max - 1) i32_max v))
  | TInt64 => Ret (or_empty VInt64 (int_from_str (- i64_max - 1) i64_max v))
  | TNodeId => parsed VNodeId (node_id_from_str v)
  | TSByte => Ret (or_empty VSByte (int_from_str (-128) 127 v))
  | TUInt16 => Ret (or_empty VUInt16 (int_from_str 0 u16_max v))
  | TUInt32 => Ret (or_empty VUInt32 (int_from_str 0 u32_max v))
  | TUInt64 => Ret (or_empty VUInt64 (int_from_str 0 u64_max v))
  | _ => Ret VEmpty
  end.
Definition qualified_is_null (q : QualifiedName) : bool := (namespace_index q =? 0) && bool_decide (qname q = None).
Definition convert_qualified (q : QualifiedName) (t : VariantScalarTypeId) : Variant :=
  match t with
  | TString => if qualified_is_null q then VString None else VString (qname q)
  | TLocalizedText => if qualified_is_null q then VLocalizedText {| locale := None; text := None |}
                      else VLocalizedText {| locale := Some []; text := Some (ua_as_ref (qname q)) |}
  | _ => VEmpty
  end.

(** [convert_scalar], on the one element of an array with the check of its type in [convert]. *)
Fixpoint convert_scalar (v : Variant) (t : VariantScalarTypeId) : outcome Variant :=
  match v with
  | VBoolean b => Ret (convert_boolean b t)
  | VByte z => Ret (convert_byte z t)
  | VExpandedNodeId e => Ret match t with TString => VString (Some (expanded_display e)) | _ => VEmpty end
  | VFloat f => Ret match t with TDouble => VDouble (f64_of_f32 f) | _ => VEmpty end
  | VInt16 z => Ret (convert_int16 z t)
  | VInt32 z => Ret (convert_int32 z t)
  | VInt64 z => Ret (convert_int64 z t)
  | VNodeId n => Ret match t with
                     | TExpandedNodeId => VExpandedNodeId {| node_id := n; namespace_uri := None; server_index := 0 |}
                     | TString => VString (Some (node_id_display n))
                     | _ => VEmpty
                     end
  | VSByte z => Ret (convert_sbyte z t)
  | VStatusCode s => Ret (convert_status s t)
  | VString s => if ua_is_empty s then Ret VEmpty else convert_string (ua_as_ref s) t
  | VLocalizedText l => Ret match t with TString => VString (text l) | _ => VEmpty end
  | VQualifiedName q => Ret (convert_qualified q t)
  | VUInt16 z => Ret (convert_uint16 z t)
  | VUInt32 z => Ret (convert_uint32 z t)
  | VUInt64 z => Ret (convert_uint64 z t)
  | VArray a => match values a with
                | [x] => if bool_decide (type_id x = TyScalar t) then Ret x else convert_scalar x t
                | _ => Ret VEmpty
                end
  | _ => Ret VEmpty
  end.
(** [convert] to a scalar type. *)
Definition convert_to (v : Variant) (t : VariantScalarTypeId) : outcome Variant :=
  if bool_decide (type_id v = TyScalar t) then Ret v else convert_scalar v t.
(** The values of an array, none when one of them has no conversion. *)
Fixpoint all_values (f : Variant -> outcome Variant) (vs : list Variant) : outcome (option (list Variant)) :=
  match vs with
  | [] => Ret (Some [])
  | v :: vs' =>
      let! c := f v in
      if is_empty c then Ret None else let! cs := all_values f vs' in Ret (option_map (cons c) cs)
  end.
(** A scalar as an array of one. *)
Definition one_value (f : Variant -> outcome Variant) (v : Variant) (t : VariantScalarTypeId) (dims : option (list Z)) : outcome Variant :=
  if match dims with Some d => negb (bool_decide (d = [1])) | None => false end then Ret VEmpty
  else let! c := f v in Ret (if is_empty c then c else VArray (mkArray t [c] dims)).
Definition convert_array (v : Variant) (t : VariantScalarTypeId) (dims : option (list Z)) : outcome Variant :=
  match v with
  | VArray a =>
      if is_some dims && negb (bool_decide (dims = dimensions a)) then Ret VEmpty
      else let! r := all_values (fun x => convert_to x t) (values a) in Ret (or_empty (fun vs => VArray (mkArray t vs (dimensions a))) r)
  | _ => one_value (fun x => convert_to x t) v t dims
  end.
Definition convert (v : Variant) (t : VariantTypeId) : outcome Variant :=
  if bool_decide (type_id v = t) then Ret v
  else match t with TyEmpty => Ret VEmpty | TyScalar s => convert_scalar v s | TyArray s d => convert_array v s d end.

(** ** Explicit cast *)

(** [cast_to_bool!] and [cast_to_integer!], the latter from an integer and from a float that was truncated. *)
Definition cast_to_bool (z : Z) : Variant := if z =? 1 then VBoolean true else if z =? 0 then VBoolean false else VEmpty.
Definition cast_integer (min max : Z) (f : Z -> Variant) (z : Z) : Variant :=
  if (if z <? 0 then negb (min =? 0) && (min <=? z) else z <=? max) then f z else VEmpty.
Definition float_trunc (prec emax : Z) (a : spec_float) : spec_float :=
  match a with S754_finite s _ _ => binary_normalize prec emax (f64_trunc a) 0 s | _ => a end.
Definition cast_float (min max : Z) (f : Z -> Variant) (a : spec_float) : Variant :=
  if (if f64_lt a f64_zero then negb (min =? 0) && (min <=? f64_as_i64 a) else f64_as_u64 a <=? max) then f (f64_as_int min max a) else VEmpty.
Definition float_to_integer (a : spec_float) (t : VariantScalarTypeId) : Variant :=
  match t with
  | TByte => cast_float 0 255 VByte a | TSByte => cast_float (-128) 127 VSByte a
  | TInt16 => cast_float (-32768) 32767 VInt16 a | TUInt16 => cast_float 0 u16_max VUInt16 a
  | TInt32 => cast_float (- i32_max - 1) i32_max VInt32 a | TUInt32 => cast_float 0 u32_max VUInt32 a
  | TInt64 => cast_float (- i64_max - 1) i64_max VInt64 a | TUInt64 => cast_float 0 u64_max VUInt64 a
  | _ => VEmpty
  end.
Definition text_of_int (z : Z) : Variant := VString (Some (int_display z)).

Definition cast_boolean (b : bool) (t : VariantScalarTypeId) : Variant :=
  match t with
  | TString => VString (Some (if b then str "true" else str "false"))
  | _ => convert_boolean b t
  end.
Definition cast_double (v : f64) (t : VariantScalarTypeId) : Variant :=
  match t with
  | TBoolean => cast_to_bool (f64_as_i64 v)
  | TFloat => VFloat (f32_of_f64 v)
  | TString => VString (Some (f64_display v))
  | _ => float_to_integer (float_trunc 53 1024 (f64_add v (f64_make 1 (-1)))) t
  end.
Definition cast_single (v : f32) (t : VariantScalarTypeId) : Variant :=
  match t with
  | TBoolean => cast_to_bool (f64_as_i64 v)
  | TString => VString (Some (f32_display v))
  | _ => float_to_integer (float_trunc 24 128 (SFadd 24 128 v (f32_make 1 (-1)))) t
  end.
Definition cast_int (z : Z) (targets : list VariantScalarTypeId) (t : VariantScalarTypeId) : Variant :=
  if bool_decide (t ∈ targets) then
    match t with
    | TBoolean => cast_to_bool z
    | TByte => cast_integer 0 255 VByte z | TSByte => cast_integer (-128) 127 VSByte z
    | TInt16 => cast_integer (-32768) 32767 VInt16 z | TUInt16 => cast_integer 0 u16_max VUInt16 z
    | TInt32 => cast_integer (- i32_max - 1) i32_max VInt32 z | TUInt32 => cast_integer 0 u32_max VUInt32 z
    | TUInt64 => cast_integer 0 u64_max VUInt64 z
    | TStatusCode => VStatusCode (as_unsigned 32 z)
    | TString => text_of_int z
    | _ => VEmpty
    end
  else VEmpty.
Definition cast_string (s : UAString) (t : VariantScalarTypeId) : outcome Variant :=
  match t with
  | TNodeId => match s with None => Ret VEmpty | Some v => parsed VNodeId (node_id_from_str v) end
  | TExpandedNodeId => match s with None => Ret VEmpty | Some v => parsed VExpandedNodeId (expanded_from_str v) end
  | TDateTime => Ret match s with None => VEmpty | Some v => or_empty VDateTime (datetime_from_str v) end
  | TLocalizedText => Ret (VLocalizedText match s with None => {| locale := None; text := None |} | Some v => {| locale := Some []; text := Some v |} end)
  | TQualifiedName => Ret (VQualifiedName {| namespace_index := 0; qname := s |})
  | _ => Ret VEmpty
  end.

Definition cast_scalar (v : Variant) (t : VariantScalarTypeId) : outcome Variant :=
  match v with
  | VBoolean b => Ret (cast_boolean b t)
  | VByte z | VSByte z => Ret (cast_int z (if bool_decide (type_id v = TyScalar TSByte) then [TBoolean; TByte; TString] else [TBoolean; TString]) t)
  | VDouble f => Ret (cast_double f t)
  | VByteString b => Ret match t, b with TGuid, Some g => if zlen g =? 16 then VGuid g else VEmpty | _, _ => VEmpty end
  | VDateTime d => Ret match t with TString => VString (Some (datetime_display d)) | _ => VEmpty end
  | VExpandedNodeId e => Ret match t with TNodeId => VNodeId (node_id e) | _ => VEmpty end
  | VFloat f => Ret (cast_single f t)
  | VGuid g => Ret match t with TString => VString (Some (uuid_display g)) | TByteString => VByteString (Some g) | _ => VEmpty end
  | VInt16 z => Ret (cast_int z [TBoolean; TByte; TSByte; TString; TUInt16] t)
  | VInt32 z => Ret (cast_int z [TBoolean; TByte; TInt16; TSByte; TStatusCode; TString; TUInt16; TUInt32] t)
  | VInt64 z => Ret (cast_int z [TBoolean; TByte; TInt16; TInt32; TSByte; TStatusCode; TString; TUInt16; TUInt32; TUInt64] t)
  | VStatusCode s => Ret match t with TUInt16 => VUInt16 (Z.shiftr (Z.land s 0xffff0000) 16) | _ => VEmpty end
  | VString s => cast_string s t
  | VUInt16 z => Ret (cast_int z [TBoolean; TByte; TSByte; TString] t)
  | VUInt32 z => Ret (cast_int z [TBoolean; TByte; TInt16; TSByte; TStatusCode; TString; TUInt16] t)
  | VUInt64 z => Ret (cast_int z [TBoolean; TByte; TInt16; TSByte; TStatusCode; TString; TUInt16; TUInt32] t)
  | _ => Ret VEmpty
  end.
(** [cast] to a scalar type. *)
Definition cast_to (v : Variant) (t : VariantScalarTypeId) : outcome Variant :=
  if bool_decide (type_id v = TyScalar t) then Ret v
  else let! r := convert_to v t in if is_empty r then cast_scalar v t else Ret r.
Definition dims_product (dims : list Z) : Z :=
  match dims with [] => 0 | d :: ds => fold_left (fun a b => (a * b) mod (usize_max + 1)) ds d end.
Definition cast_array (v : Variant) (t : VariantScalarTypeId) (dims : option (list Z)) : outcome Variant :=
  match v with
  | VArray a =>
      if match dims with Some d => negb (dims_product d =? zlen (values a)) | None => false end then Ret VEmpty
      else
        let! r := all_values (fun x => cast_to x t) (values a) in
        Ret (or_empty (fun vs => VArray (mkArray t vs (match dims with Some d => Some d | None => dimensions a end))) r)
  | _ => one_value (fun x => cast_to x t) v t dims
  end.
Definition cast (v : Variant) (t : VariantTypeId) : outcome Variant :=
  if bool_decide (type_id v = t) then Ret v
  else
    let! r := convert v t in
    if is_empty r then match t with TyEmpty => Ret VEmpty | TyScalar s => cast_scalar v s | TyArray s d => cast_array v s d end
    else Ret r.
End convert.
