(* ===== verification/VariantConvertFacts.v ===== *)
(** * Facts on conversions of variants

    Conversions and casts always return, and give nothing or a value of the type that was asked for, with
    its integers within their ranges. *)

From S2P Require Import Prelude Text Float StatusCode NumericRange Variant TypeTree NodeIdText VariantConvert Concrete.
#[local] Open Scope Z_scope.

Section facts.
Context {D : DynEncodable} {TC : TextCodecs} {RE : NodeIdRegex} {DT : DateText}.

(** ** Conversions return *)

Definition returns {A} (o : outcome A) : Prop := exists a, o = Ret a.
Lemma returns_ret {A} (a : A) : returns (Ret a).
Proof. by exists a. Qed.
Lemma bind_returns {A B} (o : outcome A) (k : A -> outcome B) : returns o -> (forall a, returns (k a)) -> returns (outcome_bind o k).
Proof. intros [a ->] Hk. apply Hk. Qed.
#[local] Hint Resolve returns_ret : core.

Lemma identifier_captured t ns s : NodeIdMatch s ns t -> returns (identifier_from_str t).
Proof. destruct 1; by apply type_text_total. Qed.
Lemma node_id_from_str_returns s : returns (node_id_from_str s).
Proof. apply node_id_total. Qed.
Lemma expanded_from_str_returns s : returns (expanded_from_str s).
Proof.
  unfold expanded_from_str. destruct (parse_server s) as [[sv rest]|]; [|auto]. destruct (parse_uri rest) as [[u r]|]; [|auto].
  apply bind_returns; [apply node_id_from_str_returns|auto].
Qed.
Lemma convert_string_returns s t : returns (convert_string s t).
Proof. destruct t; cbn [convert_string]; auto. apply bind_returns; [apply node_id_from_str_returns|auto]. Qed.
Lemma convert_scalar_returns t : forall v, returns (convert_scalar v t).
Proof.
  fix IH 1. intros v. destruct v; cbn [convert_scalar]; auto.
  - destruct (ua_is_empty s); [auto|apply convert_string_returns].
  - destruct a as [vt vs dims]. cbn [values]. destruct vs as [|x [|y vs]]; [auto| |auto]. destruct (bool_decide _); [auto|apply IH].
Qed.
Lemma convert_to_returns v t : returns (convert_to v t).
Proof. unfold convert_to. destruct (bool_decide _); [auto|apply convert_scalar_returns]. Qed.
Lemma all_values_returns f vs : (forall v, returns (f v)) -> returns (all_values f vs).
Proof.
  intros Hf. induction vs as [|v vs IH]; cbn [all_values]; [auto|]. apply bind_returns; [auto|]. intros c. destruct (is_empty c); [auto|].
  apply bind_returns; auto.
Qed.
Lemma one_value_returns f v t d : (forall v, returns (f v)) -> returns (one_value f v t d).
Proof. intros Hf. unfold one_value. destruct (match d with Some _ => _ | None => _ end); [auto|]. apply bind_returns; auto. Qed.
Lemma convert_array_returns v t d : returns (convert_array v t d).
Proof.
  assert (forall v, returns ((fun x => convert_to x t) v)) as Hf by (intros; apply convert_to_returns).
  unfold convert_array. destruct v; try (by apply one_value_returns). destruct (_ && _); [auto|]. apply bind_returns; [by apply all_values_returns|auto].
Qed.
Lemma convert_returns v t : returns (convert v t).
Proof. unfold convert. destruct (bool_decide _); [auto|]. destruct t; [auto|apply convert_scalar_returns|apply convert_array_returns]. Qed.
Lemma cast_string_returns s t : returns (cast_string s t).
Proof.
  destruct t; cbn [cast_string]; auto; destruct s; auto; apply bind_returns; auto; [apply node_id_from_str_returns|apply expanded_from_str_returns].
Qed.
Lemma cast_scalar_returns v t : returns (cast_scalar v t).
Proof. destruct v; cbn [cast_scalar]; auto. apply cast_string_returns. Qed.
Lemma cast_to_returns v t : returns (cast_to v t).
Proof.
  unfold cast_to. destruct (bool_decide _); [auto|]. apply bind_returns; [apply convert_to_returns|]. intros r. destruct (is_empty r); [apply cast_scalar_returns|auto].
Qed.
Lemma cast_returns v t : returns (cast v t).
Proof.
  unfold cast. destruct (bool_decide _); [auto|]. apply bind_returns; [apply convert_returns|]. intros r. destruct (is_empty r); [|auto].
  destruct t as [|s|s d]; [auto|apply cast_scalar_returns|]. assert (forall v, returns ((fun x => cast_to x s) v)) as Hf by (intros; apply cast_to_returns).
  unfold cast_array. destruct v; try (by apply one_value_returns). destruct (match d with Some _ => _ | None => _ end); [auto|].
  apply bind_returns; [by apply all_values_returns|auto].
Qed.

(** ** Integers and their types *)

(** The width of an integer, whether its type has a sign, and its value. *)
Definition integer_of (v : Variant) : option (Z * bool * Z) :=
  match v with
  | VSByte z => Some (8, true, z) | VByte z => Some (8, false, z) | VInt16 z => Some (16, true, z) | VUInt16 z => Some (16, false, z)
  | VInt32 z => Some (32, true, z) | VUInt32 z => Some (32, false, z) | VInt64 z => Some (64, true, z) | VUInt64 z => Some (64, false, z)
  | _ => None
  end.
Definition fits (w : Z) (signed : bool) (z : Z) : Prop := if signed then - 2 ^ (w - 1) <= z < 2 ^ (w - 1) else 0 <= z < 2 ^ w.
Lemma as_signed_fits w z : 0 < w -> - 2 ^ (w - 1) <= z < 2 ^ (w - 1) -> as_signed w z = z.
Proof.
  intros Hw Hz. unfold as_signed. assert (2 ^ w = 2 * 2 ^ (w - 1)) as Hp by (rewrite <- Z.pow_succ_r by lia; f_equal; lia).
  rewrite Z.mod_small by lia. lia.
Qed.

(** ** Casts *)

Fixpoint ints_fit (v : Variant) : Prop :=
  match v with
  | VArray a => (fix all l := match l with [] => True | x :: l' => ints_fit x /\ all l' end) (values a)
  | VStatusCode s => is_u32 s
  | _ => match integer_of v with Some (w, s, z) => fits w s z | None => True end
  end.
Definition typed_as (t : VariantScalarTypeId) (r : Variant) : Prop := r = VEmpty \/ type_id r = TyScalar t /\ ints_fit r.
Lemma typed_empty t : typed_as t VEmpty.
Proof. by left. Qed.
Lemma typed_value t r : type_id r = TyScalar t -> ints_fit r -> typed_as t r.
Proof. by right. Qed.
Hint Resolve typed_empty : core.

Lemma as_signed_range w z : 0 < w -> - 2 ^ (w - 1) <= as_signed w z < 2 ^ (w - 1).
Proof.
  intros Hw. unfold as_signed. assert (2 ^ w = 2 * 2 ^ (w - 1)) as Hp by (rewrite <- Z.pow_succ_r by lia; f_equal; lia).
  pose proof (Z.mod_pos_bound (z + 2 ^ (w - 1)) (2 ^ w) ltac:(lia)). lia.
Qed.
Lemma as_unsigned_range z : is_u32 (as_unsigned 32 z).
Proof. unfold as_unsigned, is_u32. pose proof (Z.mod_pos_bound z (2 ^ 32) ltac:(lia)). int_lia. Qed.
Lemma int_from_str_range min max s z : int_from_str min max s = Some z -> min <= z <= max.
Proof.
  unfold int_from_str. destruct s as [|c s]; [done|]. intros H. repeat case_match; try discriminate; injection H as <-; bool_to_prop; lia.
Qed.
Lemma f64_as_int_range lo hi a : lo <= 0 <= hi -> lo <= f64_as_int lo hi a <= hi.
Proof. intros H. unfold f64_as_int. destruct a as [s|[]| |s m e]; lia. Qed.
Ltac typed := first [apply typed_empty|apply typed_value; [done|cbn; unfold fits, is_u32 in *; try done; try int_lia]].

Lemma typed_non_negative t f z : (0 <= z -> typed_as t (f z)) -> typed_as t (non_negative f z).
Proof. intros H. unfold non_negative. destruct (Z.ltb_spec z 0); [typed|by apply H]. Qed.
Lemma typed_or_empty {A} t (f : A -> Variant) o : (forall x, o = Some x -> typed_as t (f x)) -> typed_as t (or_empty f o).
Proof. destruct o; cbn; [auto|intros; typed]. Qed.
Ltac converted t := destruct t; cbn -[as_signed as_unsigned Z.shiftl]; try typed; try (apply typed_non_negative; intros; typed).
Lemma convert_string_typed t s r : convert_string s t = Ret r -> typed_as t r.
Proof.
  assert (forall (lo hi : Z) (f : Z -> Variant) u, (forall z, lo <= z <= hi -> typed_as u (f z)) -> typed_as u (or_empty f (int_from_str lo hi s))) as Hint
    by (intros lo hi f u H; apply typed_or_empty; intros z Hz; by apply H, int_from_str_range in Hz || apply H; by apply (int_from_str_range lo hi s)).
  destruct t; cbn [convert_string]; try (intros [= <-]; first [typed|apply Hint; intros; typed|apply typed_or_empty; intros; typed]).
  - intros [= <-]. repeat case_match; typed.
  - intros H. apply outcome_bind_ret in H as ([n|e] & _ & [= <-]); typed.
Qed.
Lemma convert_scalar_typed t : forall v, ints_fit v -> forall r, convert_scalar v t = Ret r -> typed_as t r.
Proof.
  fix IH 1. intros v Hv r.
  assert (forall w z, 0 < w -> - 2 ^ (w - 1) <= as_signed w z < 2 ^ (w - 1)) as Has by apply as_signed_range.
  destruct v; only 1-26: clear IH; cbn [convert_scalar]; cbn [ints_fit integer_of] in Hv; unfold fits in Hv; only 1-26: try (intros [= <-]; typed).
  - intros [= <-]. destruct b; converted t.
  - intros [= <-]. converted t.
  - intros [= <-]. pose proof (Has 8 z). converted t.
  - intros [= <-]. converted t.
  - intros [= <-]. pose proof (Has 16 z). pose proof (as_unsigned_range (Z.shiftl z 16)). converted t.
  - intros [= <-]. converted t.
  - intros [= <-]. pose proof (Has 32 z). converted t.
  - intros [= <-]. converted t.
  - intros [= <-]. pose proof (Has 64 z). converted t.
  - intros [= <-]. converted t.
  - destruct (ua_is_empty s); [intros [= <-]; typed|apply convert_string_typed].
  - intros [= <-]. pose proof (Has 32 s). converted t.
  - intros [= <-]. unfold convert_qualified. destruct (qualified_is_null q); converted t.
  - intros [= <-]. converted t.
  - intros [= <-]. converted t.
  - intros [= <-]. converted t.
  - destruct a as [vt vs dims]. cbn [values] in Hv |- *. destruct vs as [|x [|y vs]]; [intros [= <-]; apply typed_empty| |intros [= <-]; apply typed_empty].
    destruct Hv as [Hx _]. specialize (IH x Hx r). case_bool_decide as Ht; [intros [= <-]; by right|exact IH].
Qed.

Lemma cast_to_bool_typed z : typed_as TBoolean (cast_to_bool z).
Proof. unfold cast_to_bool. repeat case_match; typed. Qed.
Lemma cast_integer_typed lo hi f t z : (forall z, lo <= z <= hi -> typed_as t (f z)) -> lo <= 0 <= hi -> typed_as t (cast_integer lo hi f z).
Proof. intros H Hlo. unfold cast_integer. destruct (if z <? 0 then _ else _) eqn:E; [|apply typed_empty]. apply H. destruct (Z.ltb_spec z 0); bool_to_prop; lia. Qed.
Lemma cast_float_typed lo hi f t a : (forall z, lo <= z <= hi -> typed_as t (f z)) -> lo <= 0 <= hi -> typed_as t (cast_float lo hi f a).
Proof. intros H Hlo. unfold cast_float. destruct (if f64_lt _ _ then _ else _); [|apply typed_empty]. apply H. by apply f64_as_int_range. Qed.
Lemma float_to_integer_typed a t : typed_as t (float_to_integer a t).
Proof. destruct t; cbn [float_to_integer]; try apply typed_empty; (apply cast_float_typed; [intros; typed|int_lia]). Qed.
Lemma cast_int_typed z targets t : typed_as t (cast_int z targets t).
Proof.
  unfold cast_int. destruct (bool_decide _); [|apply typed_empty]. pose proof (as_unsigned_range z).
  destruct t; try apply typed_empty; try apply cast_to_bool_typed; try (apply cast_integer_typed; [intros; typed|int_lia]); typed.
Qed.
Lemma cast_string_typed s t r : cast_string s t = Ret r -> typed_as t r.
Proof.
  destruct t; cbn [cast_string]; try (intros [= <-]; typed); destruct s as [s|]; try (intros [= <-]; typed).
  - intros [= <-]. apply typed_or_empty. intros; typed.
  - intros H. apply outcome_bind_ret in H as ([n|e] & _ & [= <-]); typed.
  - intros H. apply outcome_bind_ret in H as ([n|e] & _ & [= <-]); typed.
Qed.
Lemma status_high s : 0 <= Z.shiftr (Z.land s 0xffff0000) 16 < 2 ^ 16.
Proof. rewrite Z.shiftr_land. change (Z.shiftr 0xffff0000 16) with (Z.ones 16). rewrite Z.land_ones by lia. apply Z.mod_pos_bound. lia. Qed.
Lemma cast_scalar_typed v t r : ints_fit v -> cast_scalar v t = Ret r -> typed_as t r.
Proof.
  intros Hv. destruct v; cbn [cast_scalar]; try (intros [= <-]; first [apply typed_empty|apply cast_int_typed]).
  - intros [= <-]. destruct b, t; cbn [cast_boolean convert_boolean]; typed.
  - intros [= <-]. unfold cast_single. destruct t; try apply float_to_integer_typed; first [apply cast_to_bool_typed|typed].
  - intros [= <-]. unfold cast_double. destruct t; try apply float_to_integer_typed; first [apply cast_to_bool_typed|typed].
  - apply cast_string_typed.
  - intros [= <-]. destruct t; typed.
  - intros [= <-]. destruct t; typed.
  - intros [= <-]. pose proof (status_high s). destruct t; typed.
  - intros [= <-]. destruct t; try typed; destruct b as [g|]; [destruct (zlen g =? 16)|]; typed.
  - intros [= <-]. destruct t; typed.
Qed.

(** A cast of a variant to a scalar type always returns, and gives nothing or a value of that type;
    integers that were within the range of their types stay so, whatever number, text or flag they come from. *)
Theorem cast_typed v t : ints_fit v -> exists r, cast_to v t = Ret r /\ (r = VEmpty \/ type_id r = TyScalar t /\ ints_fit r).
Proof.
  intros Hv. destruct (cast_to_returns v t) as [r Hr]. exists r. split; [done|]. change (typed_as t r). unfold cast_to in Hr.
  case_bool_decide as Ht; [injection Hr as <-; by right|]. apply outcome_bind_ret in Hr as (c & Hc & Hr).
  destruct (is_empty c); [by apply (cast_scalar_typed v)|]. injection Hr as <-. unfold convert_to in Hc. rewrite bool_decide_false in Hc by done.
  by apply (convert_scalar_typed t v).
Qed.

End facts.

#[export] Instance no_dates : DateText := {| datetime_display _ := str "now"; datetime_from_str _ := None |}.

Lemma cast_typed_witness : exists r, cast_to (VDouble (f64_make 2999 (-1))) TUInt16 = Ret r /\ r = VUInt16 1500
  /\ (r = VEmpty \/ type_id r = TyScalar TUInt16 /\ ints_fit r).
Proof.
  destruct (cast_typed (VDouble (f64_make 2999 (-1))) TUInt16 I) as (r & Hr & Ht). exists r. split; [exact Hr|]. split; [|exact Ht].
  vm_compute in Hr. injection Hr as <-. reflexivity.
Defined.
