(* ===== verification/EventFilter.v ===== *)
(** * Event filters

    The event filters of subscriptions: their validation (nodes/src/events/validation.rs), which checks
    the operands, the select clauses against the type tree and that the elements have no cycles, and
    their evaluation on an event (nodes/src/events/evaluate.rs).  An event is its trait object
    [EventItem], the type tree the trait object [TypeTreeView]; the regular expression engine for the Like
    operator is [LikeRegex].  A NaN counts as positive in the total order of floats. *)

From S2P Require Import Prelude Text Float StatusCode NumericRange Variant TypeTree NodeIdText VariantConvert.
#[local] Open Scope Z_scope.

Definition BadFilterOperatorUnsupported : StatusCode := 0x80C20000.
Definition BadFilterOperandCountMismatch : StatusCode := 0x80C30000.
Definition BadFilterOperandInvalid : StatusCode := 0x80490000.
Definition BadEventFilterInvalid : StatusCode := 0x80470000.

(** ** Data *)

Inductive FilterOperator : Set :=
| FoEquals | FoIsNull | FoGreaterThan | FoLessThan | FoGreaterThanOrEqual | FoLessThanOrEqual | FoLike | FoNot | FoBetween
| FoInList | FoAnd | FoOr | FoCast | FoInView | FoOfType | FoRelatedTo | FoBitwiseAnd | FoBitwiseOr.
#[export] Instance FilterOperator_eq_dec : EqDecision FilterOperator.
Proof. solve_decision. Defined.

Record RelativePathStep := mkStep { st_reference_type : NodeId; st_is_inverse : bool; st_include_subtypes : bool; st_target_name : QualifiedName }.
Record AttributeOperand := mkAttributeOperand {
  ao_node_id : NodeId; ao_alias : UAString; ao_browse_path : list RelativePathStep; ao_attribute_id : Z; ao_index_range : NumericRange
}.
Record SimpleAttributeOperand := mkSimpleOperand {
  so_type_definition_id : NodeId; so_browse_path : option (list QualifiedName); so_attribute_id : Z; so_index_range : NumericRange
}.
Record ParsedSimpleAttributeOperand := mkParsedSimple {
  ps_type_definition_id : NodeId; ps_browse_path : list QualifiedName; ps_attribute_id : Z; ps_index_range : NumericRange
}.

(** The traits [Event] and [TypeTree]. *)
Record EventItem `{DynEncodable} := mkItem {
  get_attribute : NodeId -> list QualifiedName -> Z -> NumericRange -> Variant;
  event_type : NodeId
}.
Record TypeTreeView := mkTreeView {
  view_is_subtype_of : NodeId -> NodeId -> bool;
  view_find_type_prop : NodeId -> list QualifiedName -> option NodeClass
}.
(** The type tree of the server behind the trait; a query of an acyclic tree ends. *)
Definition default_view `{Moka} (t : DefaultTypeTree) : TypeTreeView :=
  mkTreeView (fun child ancestor => match is_subtype_of child ancestor t with Ret (_, b) => b | _ => false end)
    (fun ty path => option_map tp_node_class (find_type_prop_by_browse_path ty path t)).

(** The crate regex on the text of a pattern. *)
Class LikeRegex := { Regex : Type; regex_new : rstr -> option Regex; is_match : Regex -> rstr -> bool }.

Section filters.
Context {D : DynEncodable} {TC : TextCodecs} {RE : NodeIdRegex} {DT : DateText} {LR : LikeRegex}.

Inductive Operand :=
| ElementOperand (index : Z) | LiteralOperand (v : Variant) | OtherAttribute (a : AttributeOperand) | SimpleAttribute (a : SimpleAttributeOperand).
Inductive ParsedOperand :=
| PElement (index : Z) | PLiteral (v : Variant) | PAttribute (a : AttributeOperand) | PSimple (a : ParsedSimpleAttributeOperand).
(** An operand arrives in an extension object, which may hold something else. *)
Record ContentFilterElement := mkElement { filter_operator : FilterOperator; filter_operands : option (list (option Operand)) }.
Record ParsedContentFilterElement := mkParsedElement { operator : FilterOperator; operands : list ParsedOperand }.
Record EventFilter := mkEventFilter { select_clauses : option (list SimpleAttributeOperand); where_clause : option (list ContentFilterElement) }.
Record ParsedEventFilter := mkParsedFilter { content_filter : list ParsedContentFilterElement; parsed_select : list ParsedSimpleAttributeOperand }.
Record ContentFilterElementResult := mkElementResult { element_status : StatusCode; operand_status_codes : option (list StatusCode) }.
Record EventFilterResult := mkFilterResult {
  select_clause_results : option (list StatusCode);
  where_clause_result : option (list ContentFilterElementResult)
}.

(** ** Validation *)

Definition BaseEventType : NodeId := ns0 2041.
Definition attribute_from_u32 (a : Z) : option Z := if (1 <=? a) && (a <=? 27) then Some a else None.
Definition validate_select_clause (clause : SimpleAttributeOperand) (tree : TypeTreeView) : result ParsedSimpleAttributeOperand StatusCode :=
  match so_browse_path clause with
  | None => Err BadNodeIdUnknown
  | Some path =>
      match attribute_from_u32 (so_attribute_id clause) with
      | None => Err BadAttributeIdInvalid
      | Some a =>
          let parsed := mkParsedSimple (so_type_definition_id clause) path a (so_index_range clause) in
          if bool_decide (so_type_definition_id clause = BaseEventType) then
            if negb (a =? 1) && negb (a =? 13) then Err BadAttributeIdInvalid else Ok parsed
          else
            match view_find_type_prop tree (so_type_definition_id clause) path with
            | None => Err BadNodeIdUnknown
            | Some class =>
                if match class with NcObject => a =? 1 | NcVariable => a =? 13 | _ => false end then Ok parsed else Err BadAttributeIdInvalid
            end
      end
  end.

Definition parse_operand (operand : Operand) (num_elements : Z) (tree : TypeTreeView) (allow_attribute_operands : bool) : result ParsedOperand StatusCode :=
  match operand with
  | ElementOperand i => if num_elements <=? i then Err BadFilterOperandInvalid else Ok (PElement i)
  | LiteralOperand v => Ok (PLiteral v)
  | OtherAttribute a =>
      if negb allow_attribute_operands then Err BadFilterOperandInvalid
      else match attribute_from_u32 (ao_attribute_id a) with Some _ => Ok (PAttribute a) | None => Err BadAttributeIdInvalid end
  | SimpleAttribute a => let? p := validate_select_clause a tree in Ok (PSimple p)
  end.
Definition operand_count_mismatch (o : FilterOperator) (n : Z) : bool :=
  match o with
  | FoIsNull | FoNot | FoInView | FoOfType => negb (n =? 1)
  | FoBetween => negb (n =? 3)
  | FoInList => n <? 2
  | FoRelatedTo => negb (n =? 6)
  | _ => negb (n =? 2)
  end.
Definition element_refs (ops : list ParsedOperand) : list Z := omap (fun o => match o with PElement i => Some i | _ => None end) ops.
Definition parsed_operands (rs : list (result ParsedOperand StatusCode)) : list ParsedOperand := omap (fun r => match r with Ok o => Some o | Err _ => None end) rs.

(** One element: its result, what was parsed of it, and the elements that its valid operands refer to. *)
Definition validate_element (num_elements : Z) (tree : TypeTreeView) (allow : bool) (banned : list FilterOperator) (e : ContentFilterElement)
    : ContentFilterElementResult * option ParsedContentFilterElement * list Z :=
  match filter_operands e with
  | None => (mkElementResult BadFilterOperandCountMismatch None, None, [])
  | Some ops =>
      if bool_decide (filter_operator e ∈ banned) then (mkElementResult BadFilterOperatorUnsupported None, None, [])
      else
        let rs := map (fun o => match o with Some o => parse_operand o num_elements tree allow | None => Err BadFilterOperandInvalid end) ops in
        let valid := parsed_operands rs in
        let status := if operand_count_mismatch (filter_operator e) (zlen ops) then BadFilterOperandCountMismatch
                      else if negb (zlen valid =? zlen ops) then BadFilterOperandInvalid else Good in
        (mkElementResult status (Some (map (fun r => match r with Ok _ => Good | Err s => s end) rs)),
         (if is_good status then Some (mkParsedElement (filter_operator e) valid) else None), element_refs valid)
  end.

(** [has_cycles]: the [path] from the first element; the state of the set after an error is not used. *)
Fixpoint each_child (visit : Z -> gset Z -> outcome (result (gset Z) unit)) (refs : list Z) (path : gset Z) : outcome (result (gset Z) unit) :=
  match refs with
  | [] => Ret (Ok path)
  | c :: refs' => let! r := visit c path in match r with Ok path => each_child visit refs' path | Err e => Ret (Err e) end
  end.
Fixpoint has_cycles (fuel : nat) (children : gmap Z (list Z)) (id : Z) (path : gset Z) : outcome (result (gset Z) unit) :=
  match children !! id with
  | None => Ret (Ok path)
  | Some refs =>
      if bool_decide (id ∈ path) then Ret (Err tt)
      else
        match fuel with
        | O => OutOfFuel
        | S fuel' =>
            let! r := each_child (has_cycles fuel' children) refs ({[id]} ∪ path) in
            Ret match r with Ok path => Ok (path ∖ {[id]}) | Err e => Err e end
        end
  end.
(** The map of the elements with element operands. *)
Fixpoint refs_map (i : Z) (refs : list (list Z)) : gmap Z (list Z) :=
  match refs with
  | [] => ∅
  | r :: rs => match r with [] => refs_map (i + 1) rs | _ => <[i := r]> (refs_map (i + 1) rs) end
  end.

Definition validate_where_clause (elements : option (list ContentFilterElement)) (tree : TypeTreeView) (allow : bool) (banned : list FilterOperator)
    : outcome (option (list ContentFilterElementResult) * result (list ParsedContentFilterElement) StatusCode) :=
  match elements with
  | None => Ret (None, Ok [])
  | Some elements =>
      let rs := map (validate_element (zlen elements) tree allow banned) elements in
      let results := map (fun r => r.1.1) rs in
      let valid := omap (fun r => r.1.2) rs in
      let children := refs_map 0 (map snd rs) in
      let! c := has_cycles (S (length elements)) children 0 ∅ in
      Ret (Some results, if (zlen valid =? zlen elements) && is_some (result_ok c) then Ok valid else Err BadEventFilterInvalid)
  end.

(** [ParsedEventFilter::new]. *)
Definition validate (f : EventFilter) (tree : TypeTreeView) : outcome (EventFilterResult * result ParsedEventFilter StatusCode) :=
  let rs := map (fun c => validate_select_clause c tree) (default [] (select_clauses f)) in
  let statuses := map (fun r => match r with Ok _ => Good | Err s => s end) rs in
  let! (where_result, parsed) := validate_where_clause (where_clause f) tree false [FoRelatedTo] in
  Ret (mkFilterResult (match statuses with [] => None | _ => Some statuses end) where_result,
       match parsed with
       | Ok elements => Ok (mkParsedFilter elements (omap (fun r => match r with Ok c => Some c | Err _ => None end) rs))
       | Err e => Err e
       end).

(** ** Evaluation *)

(** [f64::total_cmp]. *)
Definition total_cmp (a b : spec_float) : comparison :=
  match a, b with
  | S754_nan, S754_nan => Eq
  | S754_nan, _ => Gt
  | _, S754_nan => Lt
  | S754_zero x, S754_zero y => match x, y with true, false => Lt | false, true => Gt | _, _ => Eq end
  | _, _ => default Eq (SFcompare a b)
  end.
Definition bool_cmp (a b : bool) : comparison := match a, b with false, true => Lt | true, false => Gt | _, _ => Eq end.

(** [ParsedContentFilter::convert]: both to the type that precedes. *)
Definition convert_pair (l r : Variant) : outcome (Variant * Variant) :=
  match precedence (type_id l) ?= precedence (type_id r) with
  | Lt => let! c := convert r (type_id l) in Ret (l, c)
  | Eq => Ret (l, r)
  | Gt => let! c := convert l (type_id r) in Ret (c, r)
  end.
Definition compare_values (l r : Variant) : option comparison :=
  match l, r with
  | VSByte a, VSByte b | VByte a, VByte b | VInt16 a, VInt16 b | VInt32 a, VInt32 b | VInt64 a, VInt64 b
  | VUInt16 a, VUInt16 b | VUInt32 a, VUInt32 b | VUInt64 a, VUInt64 b => Some (a ?= b)
  | VDouble a, VDouble b | VFloat a, VFloat b => Some (total_cmp a b)
  | VBoolean a, VBoolean b => Some (bool_cmp a b)
  | _, _ => None
  end.
Definition compare_op (l r : Variant) : outcome (option comparison) := let! (l, r) := convert_pair l r in Ret (compare_values l r).
Definition is_one_of (cs : list comparison) (c : option comparison) : bool :=
  existsb (fun x => match x, c with Eq, Some Eq | Lt, Some Lt | Gt, Some Gt => true | _, _ => false end) cs.

Inductive BitOperation : Set := BitAnd | BitOr.
Definition bw_op (o : BitOperation) (a b : Z) : Z := match o with BitAnd => Z.land a b | BitOr => Z.lor a b end.
Definition bitwise_op (o : BitOperation) (l r : Variant) : outcome Variant :=
  let! (l, r) := convert_pair l r in
  Ret match l, r with
      | VSByte a, VSByte b => VSByte (bw_op o a b) | VByte a, VByte b => VByte (bw_op o a b) | VInt16 a, VInt16 b => VInt16 (bw_op o a b)
      | VInt32 a, VInt32 b => VInt32 (bw_op o a b) | VInt64 a, VInt64 b => VInt64 (bw_op o a b) | VUInt16 a, VUInt16 b => VUInt16 (bw_op o a b)
      | VUInt32 a, VUInt32 b => VUInt32 (bw_op o a b) | VUInt64 a, VUInt64 b => VUInt64 (bw_op o a b) | _, _ => VEmpty
      end.

(** [as_type!] for the types that are used. *)
Definition as_boolean (v : Variant) : outcome (option bool) := let! c := convert v (TyScalar TBoolean) in Ret match c with VBoolean b => Some b | _ => None end.
Definition as_string (v : Variant) : outcome (option UAString) := let! c := convert v (TyScalar TString) in Ret match c with VString s => Some s | _ => None end.
Definition as_node_id (v : Variant) : outcome (option NodeId) := let! c := convert v (TyScalar TNodeId) in Ret match c with VNodeId n => Some n | _ => None end.

Definition filter_not (v : Variant) : outcome Variant := let! b := as_boolean v in Ret match b with Some b => VBoolean (negb b) | None => VEmpty end.
Definition filter_and (l r : Variant) : outcome Variant :=
  let! a := as_boolean l in
  match a with
  | None => Ret VEmpty
  | Some a => let! b := as_boolean r in Ret match b with Some b => VBoolean (a && b) | None => VEmpty end
  end.
Definition filter_or (l r : Variant) : outcome Variant :=
  let! a := as_boolean l in
  match a with
  | None => Ret VEmpty
  | Some a => let! b := as_boolean r in Ret match b with Some b => VBoolean (a || b) | None => VEmpty end
  end.
Definition between (it gte lte : Variant) : outcome bool :=
  let! a := compare_op it gte in
  if is_one_of [Gt; Eq] a then let! b := compare_op it lte in Ret (is_one_of [Lt; Eq] b) else Ret false.

(** [like_to_regex]: each character with the one before it; an escaped underscore takes the escape back. *)
Definition BACKSLASH : Z := 92.
Definition escaped_in_list (c : Z) : bool := existsb (Z.eqb c) (str "$().+*?").
Definition escaped_outside (c : Z) : bool := existsb (Z.eqb c) (str "$^().+*?").
Definition like_char (in_list : bool) (after_escape : bool) (c : Z) (pattern : rstr) : bool * rstr :=
  if in_list then
    if (c =? 93) && negb after_escape then (false, pattern ++ [c])
    else (true, pattern ++ (if escaped_in_list c then [BACKSLASH; c] else [c]))
  else if escaped_outside c then (false, pattern ++ [BACKSLASH; c])
  else if c =? 91 then (negb after_escape, pattern ++ [c])
  else if (c =? 37) && negb after_escape then (false, pattern ++ str ".*")
  else if c =? 95 then (false, if after_escape then (pop_back pattern).1 ++ [c] else pattern ++ str "?")
  else (false, pattern ++ [c]).
Fixpoint like_chars (in_list : bool) (previous : option Z) (s pattern : rstr) : rstr :=
  match s with
  | [] => pattern
  | c :: s' =>
      let '(in_list, pattern) := like_char in_list (bool_decide (previous = Some BACKSLASH)) c pattern in
      like_chars in_list (Some c) s' pattern
  end.
Definition like_pattern (s : rstr) : rstr := like_chars false None s (str "^") ++ str "$".
Definition like_to_regex (s : rstr) : option Regex := regex_new (like_pattern s).
Definition like (l r : Variant) : outcome bool :=
  let! a := as_string l in
  match a with
  | None => Ret false
  | Some a =>
      let! b := as_string r in
      match b with
      | None => Ret false
      | Some b => Ret match like_to_regex (ua_as_ref b) with Some re => is_match re (ua_as_ref a) | None => false end
      end
  end.

Definition filter_cast (l r : Variant) : outcome Variant :=
  match (match r with VNodeId n => scalar_type_of_node_id n | VExpandedNodeId n => scalar_type_of_node_id (node_id n) | _ => None end) with
  | Some t => cast l (TyScalar t)
  | None => Ret VEmpty
  end.
Definition of_type (v : Variant) (item : EventItem) (tree : TypeTreeView) : outcome bool :=
  let! t := as_node_id v in Ret match t with Some t => view_is_subtype_of tree (event_type item) t | None => false end.
Definition node_is_null (n : NodeId) : bool := (namespace n =? 0) && bool_decide (identifier n = IdNumeric 0).
Definition in_view (v : Variant) : bool := match v with VNodeId n => node_is_null n | VExpandedNodeId n => node_is_null (node_id n) | _ => false end.

Section evaluate.
Variables (item : EventItem) (tree : TypeTreeView).

(** [in_list]: the operands are evaluated until one is equal. *)
Fixpoint in_list (value : ParsedOperand -> outcome Variant) (l : Variant) (ops : list ParsedOperand) : outcome bool :=
  match ops with
  | [] => Ret false
  | o :: ops' => let! v := value o in let! c := compare_op l v in if is_one_of [Eq] c then Ret true else in_list value l ops'
  end.

(** What an operator does with its operands; [arg] evaluates one, by its index. *)
Definition apply_operator (value : ParsedOperand -> outcome Variant) (op : ParsedContentFilterElement) : outcome Variant :=
  let arg (n : Z) := match zlookup (operands op) n with Some o => value o | None => Panic end in
  let compared (cs : list comparison) := let! a := arg 0 in let! b := arg 1 in let! c := compare_op a b in Ret (VBoolean (is_one_of cs c)) in
  match operator op with
  | FoEquals => compared [Eq]
  | FoIsNull => let! a := arg 0 in Ret (VBoolean (variant_eqb a VEmpty))
  | FoGreaterThan => compared [Gt]
  | FoLessThan => compared [Lt]
  | FoGreaterThanOrEqual => compared [Eq; Gt]
  | FoLessThanOrEqual => compared [Eq; Lt]
  | FoLike => let! a := arg 0 in let! b := arg 1 in let! r := like a b in Ret (VBoolean r)
  | FoNot => let! a := arg 0 in filter_not a
  | FoBetween => let! a := arg 0 in let! b := arg 1 in let! c := arg 2 in let! r := between a b c in Ret (VBoolean r)
  | FoInList => let! a := arg 0 in let! r := in_list value a (drop 1 (operands op)) in Ret (VBoolean r)
  | FoAnd => let! a := arg 0 in let! b := arg 1 in filter_and a b
  | FoOr => let! a := arg 0 in let! b := arg 1 in filter_or a b
  | FoCast => let! a := arg 0 in let! b := arg 1 in filter_cast a b
  | FoBitwiseAnd => let! a := arg 0 in let! b := arg 1 in bitwise_op BitAnd a b
  | FoBitwiseOr => let! a := arg 0 in let! b := arg 1 in bitwise_op BitOr a b
  | FoOfType => let! a := arg 0 in let! r := of_type a item tree in Ret (VBoolean r)
  | FoInView => let! a := arg 0 in Ret (VBoolean (in_view a))
  | FoRelatedTo => Ret VEmpty
  end.
Definition get_field (a : ParsedSimpleAttributeOperand) : Variant := get_attribute item (ps_type_definition_id a) (ps_browse_path a) (ps_attribute_id a) (ps_index_range a).

(** [evulate_element] and [evaluate_operand]. *)
Fixpoint evaluate_element (fuel : nat) (elements : list ParsedContentFilterElement) (index : Z) : outcome Variant :=
  match zlookup elements index with
  | None => Ret VEmpty
  | Some op =>
      match fuel with
      | O => OutOfFuel
      | S fuel' =>
          apply_operator (fun o => match o with
                                   | PElement i => evaluate_element fuel' elements i
                                   | PLiteral v => Ret v
                                   | PAttribute _ => Panic
                                   | PSimple a => Ret (get_field a)
                                   end) op
      end
  end.
(** A chain of element operands has no element twice. *)
Definition evaluate_filter (elements : list ParsedContentFilterElement) : outcome bool :=
  match elements with
  | [] => Ret true
  | _ => let! v := evaluate_element (S (S (length elements))) elements 0 in Ret match v with VBoolean b => b | _ => false end
  end.
(** [ParsedEventFilter::evaluate]: the fields of an event that the filter accepts. *)
Definition evaluate (f : ParsedEventFilter) : outcome (option (list Variant)) :=
  let! accepted := evaluate_filter (content_filter f) in
  Ret (if accepted then Some (map get_field (parsed_select f)) else None).
End evaluate.
End filters.
