(* ===== verification/EventFilterFacts.v ===== *)
(** * Facts on event filters

    What the validation accepts, and what the evaluation of an accepted filter means: the filter unfolds
    to a finite expression, whose value the evaluation gives without a panic; and how integers of
    different types compare. *)

From S2P Require Import Prelude Text Float StatusCode NumericRange Variant TypeTree NodeIdText VariantConvert VariantConvertFacts EventFilter Concrete.
#[local] Open Scope Z_scope.

Section facts.
Context {D : DynEncodable} {TC : TextCodecs} {RE : NodeIdRegex} {DT : DateText} {LR : LikeRegex}.

#[local] Hint Resolve returns_ret : core.

Lemma convert_pair_returns l r : returns (convert_pair l r).
Proof. unfold convert_pair. destruct (_ ?= _); [auto| |]; apply bind_returns; auto; apply convert_returns. Qed.
Lemma compare_op_returns l r : returns (compare_op l r).
Proof. apply bind_returns; [apply convert_pair_returns|]. intros []; auto. Qed.
Lemma bitwise_op_returns o l r : returns (bitwise_op o l r).
Proof. apply bind_returns; [apply convert_pair_returns|]. intros []; auto. Qed.
Lemma as_boolean_returns v : returns (as_boolean v).
Proof. apply bind_returns; [apply convert_returns|auto]. Qed.
Lemma as_string_returns v : returns (as_string v).
Proof. apply bind_returns; [apply convert_returns|auto]. Qed.
Lemma as_node_id_returns v : returns (as_node_id v).
Proof. apply bind_returns; [apply convert_returns|auto]. Qed.

(** ** The meaning of an expression *)

(** The operators on values: comparisons that are not defined are false, and the logic has three values. *)
Definition order (a b : Variant) : option comparison := match compare_op a b with Ret c => c | _ => None end.
Definition truth (v : Variant) : option bool := match as_boolean v with Ret b => b | _ => None end.
Definition text_value (v : Variant) : option UAString := match as_string v with Ret s => s | _ => None end.
Definition type_value (v : Variant) : option NodeId := match as_node_id v with Ret n => n | _ => None end.
Definition of_truth (b : option bool) : Variant := match b with Some b => VBoolean b | None => VEmpty end.
Definition equal (a b : Variant) : bool := bool_decide (order a b = Some Eq).
Definition below (a b : Variant) : bool := bool_decide (order a b = Some Lt).
Definition above (a b : Variant) : bool := bool_decide (order a b = Some Gt).
Definition matches (text pattern : UAString) : bool :=
  match regex_new (like_pattern (ua_as_ref pattern)) with Some re => is_match re (ua_as_ref text) | None => false end.
Definition value_of (o : outcome Variant) : Variant := match o with Ret v => v | _ => VEmpty end.

Definition meaning (item : EventItem) (tree : TypeTreeView) (o : FilterOperator) (vs : list Variant) : Variant :=
  match o, vs with
  | FoEquals, [a; b] => VBoolean (equal a b)
  | FoIsNull, [a] => VBoolean (variant_eqb a VEmpty)
  | FoGreaterThan, [a; b] => VBoolean (above a b)
  | FoLessThan, [a; b] => VBoolean (below a b)
  | FoGreaterThanOrEqual, [a; b] => VBoolean (above a b || equal a b)
  | FoLessThanOrEqual, [a; b] => VBoolean (below a b || equal a b)
  | FoLike, [a; b] => VBoolean (match text_value a, text_value b with Some s, Some p => matches s p | _, _ => false end)
  | FoNot, [a] => of_truth (option_map negb (truth a))
  | FoBetween, [a; lo; hi] => VBoolean ((above a lo || equal a lo) && (below a hi || equal a hi))
  | FoInList, a :: bs => VBoolean (existsb (equal a) bs)
  | FoAnd, [a; b] => of_truth (match truth a, truth b with Some x, Some y => Some (x && y) | _, _ => None end)
  | FoOr, [a; b] => of_truth (match truth a, truth b with Some x, Some y => Some (x || y) | _, _ => None end)
  | FoCast, [a; b] => value_of (filter_cast a b)
  | FoBitwiseAnd, [a; b] => value_of (bitwise_op BitAnd a b)
  | FoBitwiseOr, [a; b] => value_of (bitwise_op BitOr a b)
  | FoOfType, [a] => VBoolean (match type_value a with Some t => view_is_subtype_of tree (event_type item) t | None => false end)
  | FoInView, [a] => VBoolean (in_view a)
  | _, _ => VEmpty
  end.

(** Expressions, and the finite expression that an element stands for. *)
Inductive expr := XLiteral (v : Variant) | XField (a : ParsedSimpleAttributeOperand) | XApply (o : FilterOperator) (args : list expr).
Fixpoint denote (item : EventItem) (tree : TypeTreeView) (e : expr) : Variant :=
  match e with
  | XLiteral v => v
  | XField a => get_field item a
  | XApply o args => meaning item tree o (map (denote item tree) args)
  end.
Inductive unfolds (elements : list ParsedContentFilterElement) : ParsedOperand -> expr -> Prop :=
| unfolds_literal v : unfolds elements (PLiteral v) (XLiteral v)
| unfolds_field a : unfolds elements (PSimple a) (XField a)
| unfolds_element i op args : zlookup elements i = Some op -> Forall2 (unfolds elements) (operands op) args ->
    unfolds elements (PElement i) (XApply (operator op) args).

Lemma order_spec a b : compare_op a b = Ret (order a b).
Proof. unfold order. by destruct (compare_op_returns a b) as [c ->]. Qed.
Lemma truth_spec v : as_boolean v = Ret (truth v).
Proof. unfold truth. by destruct (as_boolean_returns v) as [c ->]. Qed.
Lemma text_spec v : as_string v = Ret (text_value v).
Proof. unfold text_value. by destruct (as_string_returns v) as [c ->]. Qed.
Lemma type_spec v : as_node_id v = Ret (type_value v).
Proof. unfold type_value. by destruct (as_node_id_returns v) as [c ->]. Qed.
Lemma is_eq a b : is_one_of [Eq] (order a b) = equal a b.
Proof. unfold equal. by destruct (order a b) as [[]|]. Qed.
Lemma is_lt a b : is_one_of [Lt] (order a b) = below a b.
Proof. unfold below. by destruct (order a b) as [[]|]. Qed.
Lemma is_gt a b : is_one_of [Gt] (order a b) = above a b.
Proof. unfold above. by destruct (order a b) as [[]|]. Qed.
Lemma is_ge a b : is_one_of [Gt; Eq] (order a b) = above a b || equal a b /\ is_one_of [Eq; Gt] (order a b) = above a b || equal a b.
Proof. unfold above, equal. by destruct (order a b) as [[]|]. Qed.
Lemma is_le a b : is_one_of [Lt; Eq] (order a b) = below a b || equal a b /\ is_one_of [Eq; Lt] (order a b) = below a b || equal a b.
Proof. unfold below, equal. by destruct (order a b) as [[]|]. Qed.

Section operators.
Variables (item : EventItem) (tree : TypeTreeView) (value : ParsedOperand -> outcome Variant).

Lemma in_list_spec a ops vs : Forall2 (fun o v => value o = Ret v) ops vs -> in_list value a ops = Ret (existsb (equal a) vs).
Proof.
  induction 1 as [|o v ops vs Hv _ IH]; [done|]. cbn [in_list existsb]. rewrite Hv. cbn [outcome_bind]. rewrite order_spec. cbn [outcome_bind].
  rewrite is_eq. by destruct (equal a v).
Qed.
Lemma not_spec a : filter_not a = Ret (of_truth (option_map negb (truth a))).
Proof. unfold filter_not. rewrite truth_spec. by destruct (truth a). Qed.
Lemma and_spec a b : filter_and a b = Ret (of_truth (match truth a, truth b with Some x, Some y => Some (x && y) | _, _ => None end)).
Proof. unfold filter_and. rewrite truth_spec. cbn [outcome_bind]. destruct (truth a); [|done]. rewrite truth_spec. by destruct (truth b). Qed.
Lemma or_spec a b : filter_or a b = Ret (of_truth (match truth a, truth b with Some x, Some y => Some (x || y) | _, _ => None end)).
Proof. unfold filter_or. rewrite truth_spec. cbn [outcome_bind]. destruct (truth a); [|done]. rewrite truth_spec. by destruct (truth b). Qed.
Lemma cast_spec a b : filter_cast a b = Ret (value_of (filter_cast a b)).
Proof.
  assert (returns (filter_cast a b)) as [v ->]; [|done]. unfold filter_cast. destruct (match b with VNodeId _ => _ | _ => _ end); [apply cast_returns|auto].
Qed.
Lemma bitwise_spec o a b : bitwise_op o a b = Ret (value_of (bitwise_op o a b)).
Proof. by destruct (bitwise_op_returns o a b) as [v ->]. Qed.
Lemma like_spec a b : like a b = Ret (match text_value a, text_value b with Some s, Some p => matches s p | _, _ => false end).
Proof. unfold like. rewrite text_spec. cbn [outcome_bind]. destruct (text_value a); [|done]. rewrite text_spec. by destruct (text_value b). Qed.
Lemma of_type_spec a : of_type a item tree = Ret (match type_value a with Some t => view_is_subtype_of tree (event_type item) t | None => false end).
Proof. unfold of_type. by rewrite type_spec. Qed.
Lemma between_spec a lo hi : between a lo hi = Ret ((above a lo || equal a lo) && (below a hi || equal a hi)).
Proof.
  unfold between. rewrite !order_spec. cbn [outcome_bind]. destruct (is_ge a lo) as [-> _], (is_le a hi) as [-> _].
  by destruct (above a lo || equal a lo).
Qed.

Lemma zlookup_first {A} (a : A) l : zlookup (a :: l) 0 = Some a.
Proof. done. Qed.
Lemma zlookup_second {A} (a b : A) l : zlookup (a :: b :: l) 1 = Some b.
Proof. done. Qed.
Lemma zlookup_third {A} (a b c : A) l : zlookup (a :: b :: c :: l) 2 = Some c.
Proof. done. Qed.

(** An operator with the operands that validation asks for has its meaning. *)
Lemma apply_meaning op vs : operand_count_mismatch (operator op) (zlen (operands op)) = false -> operator op <> FoRelatedTo ->
  Forall2 (fun o v => value o = Ret v) (operands op) vs -> apply_operator item tree value op = Ret (meaning item tree (operator op) vs).
Proof.
  intros Hn Hrel Hvs. destruct op as [o ops]. cbn [operator operands] in *.
  assert (forall n, zlen ops = Z.of_nat n -> length ops = n) as Hlen by (unfold zlen; lia).
  destruct o; cbn [operand_count_mismatch] in Hn; [..|done| |];
    match type of Hn with
    | (zlen ops <? 2) = false => apply Z.ltb_ge in Hn
    | negb (zlen ops =? ?n) = false => apply negb_false_iff, Z.eqb_eq in Hn
    end;
    (destruct Hvs as [|o1 v1 ops vs Hv1 Hvs]; [by unfold zlen in Hn; cbn in Hn|]); try
    (destruct Hvs as [|o2 v2 ops vs Hv2 Hvs]; [try (by unfold zlen in Hn; cbn in Hn)|]); try
    (destruct Hvs as [|o3 v3 ops vs Hv3 Hvs]; [try (by unfold zlen in Hn; cbn in Hn)|]); try
    (destruct Hvs; [|unfold zlen in Hn; cbn [length] in Hn; lia]);
    try (unfold zlen in Hn; cbn [length] in Hn; lia).
  all: unfold apply_operator; cbn [operator operands]; cbv beta zeta;
    repeat first [rewrite zlookup_first|rewrite zlookup_second|rewrite zlookup_third|rewrite Hv1|rewrite Hv2|rewrite Hv3|progress cbn [outcome_bind]|rewrite order_spec];
    cbn [meaning]; rewrite ?is_eq, ?is_lt, ?is_gt, ?(proj2 (is_ge _ _)), ?(proj2 (is_le _ _)), ?between_spec; try done.
  - by rewrite like_spec.
  - by rewrite not_spec.
  - change (drop 1 [o1; o2]) with [o2]. rewrite (in_list_spec v1 [o2] [v2]) by auto. done.
  - change (drop 1 (o1 :: o2 :: o3 :: ops)) with (o2 :: o3 :: ops). rewrite (in_list_spec v1 _ (v2 :: v3 :: vs)) by auto. done.
  - by rewrite and_spec.
  - by rewrite or_spec.
  - by rewrite <- cast_spec.
  - by rewrite of_type_spec.
  - by rewrite <- bitwise_spec.
  - by rewrite <- bitwise_spec.
Qed.
End operators.

(** ** The search for cycles *)

Section cycles.
Variable children : gmap Z (list Z).
Definition child (i j : Z) : Prop := exists refs, children !! i = Some refs /\ j ∈ refs.

(** The search ends within one turn per element with references, and gives the path back. *)
Lemma each_child_returns visit (P : gset Z) refs : (forall c, visit c P = Ret (Ok P) \/ visit c P = Ret (Err tt)) ->
  each_child visit refs P = Ret (Ok P) \/ each_child visit refs P = Ret (Err tt).
Proof.
  induction refs as [|c refs IH]; intros Hv; cbn [each_child]; [by left|].
  destruct (Hv c) as [-> | ->]; [|by right]. by apply IH.
Qed.
Lemma has_cycles_returns fuel : forall id path, path ⊆ dom children -> (size (dom children) <= fuel + size path)%nat ->
  has_cycles fuel children id path = Ret (Ok path) \/ has_cycles fuel children id path = Ret (Err tt).
Proof.
  induction fuel as [|fuel IH]; intros id path Hp Hf; cbn [has_cycles]; (destruct (children !! id) as [refs|] eqn:Hid; [|by left]);
    case_bool_decide as Hin; try (by right).
  all: assert (size ({[id]} ∪ path) = S (size path)) as Hs by (rewrite size_union by set_solver; by rewrite size_singleton).
  all: assert ({[id]} ∪ path ⊆ dom children) as Hsub by (apply union_subseteq; split; [apply singleton_subseteq_l, elem_of_dom; eauto|done]).
  - apply subseteq_size in Hsub. lia.
  - destruct (each_child_returns (has_cycles fuel children) ({[id]} ∪ path) refs) as [-> | ->].
    + intros c. apply IH; [done|lia].
    + left. cbn [outcome_bind]. do 2 f_equal. set_solver.
    + by right.
Qed.

(** What it visits without an error is finite. *)
Lemma each_child_ok visit refs : forall path p, each_child visit refs path = Ret (Ok p) -> forall c, c ∈ refs -> exists p1 p2, visit c p1 = Ret (Ok p2).
Proof.
  induction refs as [|d refs IH]; intros path p; cbn [each_child]; [intros _ c Hc; by apply elem_of_nil in Hc|].
  intros H. apply outcome_bind_ret in H as ([p'|] & Hd & H); [|discriminate H]. intros c [->|Hc]%elem_of_cons; [eauto|]. eapply IH; eauto.
Qed.
Lemma has_cycles_ok fuel id path p : has_cycles fuel children id path = Ret (Ok p) -> forall j, child id j ->
  exists fuel' p1 p2, fuel = S fuel' /\ has_cycles fuel' children j p1 = Ret (Ok p2).
Proof.
  intros H j (refs & Hid & Hj). destruct fuel as [|fuel]; cbn [has_cycles] in H; rewrite Hid in H; case_bool_decide; try discriminate H.
  apply outcome_bind_ret in H as ([p'|] & Hc & Hx); [|discriminate Hx].
  destruct (each_child_ok _ _ _ _ Hc j Hj) as (p1 & p2 & Hv). by exists fuel, p1, p2.
Qed.
Lemma has_cycles_acc fuel : forall id path p, has_cycles fuel children id path = Ret (Ok p) -> Acc (flip child) id.
Proof.
  induction fuel as [|fuel IH]; intros id path p H; constructor; intros j Hj; destruct (has_cycles_ok _ _ _ _ H j Hj) as (f & p1 & p2 & Hf & Hj'); [discriminate|].
  injection Hf as <-. by eapply IH.
Qed.
(** An error is a cycle, or a way back to the path. *)
Lemma each_child_path visit refs : (forall c p p', visit c p = Ret (Ok p') -> p' ⊆ p) ->
  forall path r, each_child visit refs path = Ret r ->
    match r with Ok p => p ⊆ path | Err tt => exists c p', c ∈ refs /\ p' ⊆ path /\ visit c p' = Ret (Err tt) end.
Proof.
  intros Hv. induction refs as [|c refs IH]; intros path r; cbn [each_child]; [by intros [= <-]|].
  intros H. apply outcome_bind_ret in H as ([p|[]] & Hc & H); [|injection H as <-; exists c, path; split; [by left|done]].
  apply Hv in Hc. apply IH in H. destruct r as [p'|[]]; [set_solver|]. destruct H as (d & p' & Hd & Hp & He). exists d, p'. split; [by right|]. split; [set_solver|done].
Qed.
Lemma has_cycles_path fuel : forall id path p, has_cycles fuel children id path = Ret (Ok p) -> p ⊆ path.
Proof.
  induction fuel as [|fuel IH]; intros id path p; cbn [has_cycles]; (destruct (children !! id) as [refs|]; [|by intros [= <-]]); case_bool_decide as Hin; try done.
  intros H. apply outcome_bind_ret in H as (r & Hc & H). apply each_child_path in Hc; [|exact IH]. destruct r as [p'|]; [|done]. injection H as <-. set_solver.
Qed.
Lemma has_cycles_err fuel : forall id path, has_cycles fuel children id path = Ret (Err tt) ->
  (exists q, q ∈ path /\ rtc child id q) \/ (exists i, rtc child id i /\ tc child i i).
Proof.
  induction fuel as [|fuel IH]; intros id path; cbn [has_cycles]; (destruct (children !! id) as [refs|] eqn:Hid; [|done]);
    case_bool_decide as Hin; try (intros _; left; by exists id); [done|].
  intros H. apply outcome_bind_ret in H as (r & Hc & Hr). destruct r as [|[]]; [discriminate|].
  apply each_child_path in Hc as (c & p & Hcr & Hp & Hc); [|apply has_cycles_path]. assert (child id c) as Hchild by (exists refs; by split).
  apply IH in Hc as [(q & Hq & Hreach)|(i & Hi & Hcyc)]; [|right; exists i; split; [by eapply rtc_l|done]].
  apply Hp, elem_of_union in Hq as [->%elem_of_singleton|Hq]; [right; exists id; split; [done|by eapply tc_rtc_r, Hreach; apply tc_once]|].
  left. exists q. split; [done|by eapply rtc_l].
Qed.
Lemma acc_no_cycle i j : Acc (flip child) i -> rtc child i j -> ~ tc child j j.
Proof.
  intros Ha Hr. assert (Acc (flip child) j) as Hj by (clear - Ha Hr; induction Hr as [|a b c Hab _ IH]; [done|apply IH; by apply Ha]). clear Ha Hr i.
  induction Hj as [j _ IH]. intros Hc. inversion Hc as [x y Hjj|x k y Hjk Hkj]; subst.
  - by apply (IH j Hjj).
  - apply (IH k Hjk). by eapply tc_r.
Qed.
End cycles.

(** ** Elements *)

Section elements.
Variables (tree : TypeTreeView) (allow : bool) (banned : list FilterOperator).

(** An element that the validation accepts, among [n]. *)
Definition operand_ok (n : Z) (o : option Operand) : Prop := exists o' p, o = Some o' /\ parse_operand o' n tree allow = Ok p.
Definition element_ok (n : Z) (e : ContentFilterElement) : Prop :=
  exists ops, filter_operands e = Some ops /\ filter_operator e ∉ banned /\ operand_count_mismatch (filter_operator e) (zlen ops) = false
    /\ Forall (operand_ok n) ops.
(** The elements that an element refers to. *)
Definition refers (elements : list ContentFilterElement) (i j : Z) : Prop :=
  exists e, zlookup elements i = Some e /\ j ∈ (validate_element (zlen elements) tree allow banned e).2.

Abbreviation parse n := (fun o => match o with Some o => parse_operand o n tree allow | None => Err BadFilterOperandInvalid end).
Lemma parsed_len n ops : (zlen (parsed_operands (map (parse n) ops)) <= zlen ops)
  /\ (zlen (parsed_operands (map (parse n) ops)) = zlen ops <-> Forall (operand_ok n) ops)
  /\ (Forall (operand_ok n) ops -> Forall2 (fun o p => exists o', o = Some o' /\ parse_operand o' n tree allow = Ok p) ops (parsed_operands (map (parse n) ops))).
Proof.
  unfold zlen, parsed_operands. induction ops as [|o ops (IH1 & IH2 & IH3)]; cbn [map omap list_omap]; [done|].
  destruct (match o with Some o => _ | None => _ end) as [p|s] eqn:Ho; cbn [length].
  - assert (exists o', o = Some o' /\ parse_operand o' n tree allow = Ok p) as Hp by (destruct o as [o|]; [by exists o|discriminate Ho]).
    assert (operand_ok n o) as Hok by (destruct Hp as (o' & ? & ?); by exists o', p). split; [unfold omap in *; lia|]. split.
    + rewrite Forall_cons, <- IH2. unfold omap. split; [intros; split; [done|lia]|intros [_ ?]; lia].
    + intros [_ Hops]%Forall_cons. constructor; [done|by apply IH3].
  - assert (~ operand_ok n o) as Hno by (intros (o' & p & -> & Hp); congruence). split; [unfold omap in *; lia|]. split.
    + rewrite Forall_cons. unfold omap in *. split; [lia|by intros [? _]].
    + by intros [? _]%Forall_cons.
Qed.

Lemma validate_element_spec n e :
  match (validate_element n tree allow banned e).1.2 with
  | Some p => element_ok n e /\ operator p = filter_operator e /\ operator p ∉ banned
      /\ operand_count_mismatch (operator p) (zlen (operands p)) = false /\ (validate_element n tree allow banned e).2 = element_refs (operands p)
      /\ Forall2 (fun o p => exists o', o = Some o' /\ parse_operand o' n tree allow = Ok p) (default [] (filter_operands e)) (operands p)
  | None => ~ element_ok n e
  end.
Proof.
  unfold validate_element, element_ok. destruct (filter_operands e) as [ops|]; cbn [fst snd default]; [|intros (ops & ? & _); discriminate].
  case_bool_decide as Hb; cbn [fst snd]; [by intros (ops' & _ & Hb' & _)|].
  destruct (parsed_len n ops) as (H1 & H2 & H3). destruct (operand_count_mismatch (filter_operator e) (zlen ops)) eqn:Hc; cbn [negb].
  { change (is_good BadFilterOperandCountMismatch) with false. cbn [fst snd]. intros (ops' & [= <-] & _ & Hc' & _). congruence. }
  destruct (Z.eqb_spec (zlen (parsed_operands (map (parse n) ops))) (zlen ops)) as [He|He]; cbn [negb].
  - change (is_good Good) with true. cbn [fst snd operator operands]. apply H2 in He as Hall. split; [by exists ops|].
    repeat (split; [done|]). rewrite He. split; [done|]. split; [done|]. by apply H3.
  - change (is_good BadFilterOperandInvalid) with false. cbn [fst snd]. intros (ops' & [= <-] & _ & _ & Hall). by apply He, H2.
Qed.

Lemma omap_full {A B} (f : A -> option B) l : zlen (omap f l) <= zlen l /\ (zlen (omap f l) = zlen l <-> Forall (fun x => f x <> None) l)
  /\ (Forall (fun x => f x <> None) l -> forall i x, l !! i = Some x -> exists y, f x = Some y /\ omap f l !! i = Some y).
Proof.
  unfold zlen. induction l as [|a l (IH1 & IH2 & IH3)]; cbn [omap list_omap length]; [split; [lia|split; [done|by intros _ []]]|].
  unfold omap in *. destruct (f a) as [b|] eqn:Hf; cbn [length].
  - split; [lia|]. rewrite Forall_cons, <- IH2. split; [split; [intros; split; [by rewrite Hf|lia]|intros [_ ?]; lia]|].
    intros [_ Hl] [|i] x; cbn; [intros [= <-]; by exists b|]. apply IH3. by apply IH2.
  - split; [lia|]. rewrite Forall_cons. split; [split; [lia|by intros [? _]]|by intros [? _]].
Qed.
Lemma zlookup_Some {A} (l : list A) i x : zlookup l i = Some x <-> 0 <= i /\ l !! Z.to_nat i = Some x.
Proof. unfold zlookup. destruct (Z.ltb_spec i 0); [split; [done|lia]|]. split; [by split; [lia|]|by intros [_ ?]]. Qed.

(** The references in a map. *)
Lemma refs_map_lookup rs : forall k i r, refs_map k rs !! i = Some r <-> k <= i /\ rs !! Z.to_nat (i - k) = Some r /\ r <> [].
Proof.
  induction rs as [|r0 rs IH]; intros k i r; cbn [refs_map]; [rewrite lookup_empty, lookup_nil; naive_solver|].
  assert (i <> k -> (refs_map (k + 1) rs !! i = Some r <-> k <= i /\ (r0 :: rs) !! Z.to_nat (i - k) = Some r /\ r <> [])) as Hne.
  { intros Hik. rewrite IH. destruct (Z.le_gt_cases k i); [|naive_solver lia].
    replace (Z.to_nat (i - k)) with (S (Z.to_nat (i - (k + 1)))) by lia. cbn. naive_solver lia. }
  assert (refs_map (k + 1) rs !! k = None) as Hk by (apply eq_None_not_Some; intros [x Hx]; apply IH in Hx; lia).
  destruct r0 as [|c r0]; destruct (decide (i = k)) as [->|Hik]; rewrite ?lookup_insert_eq, ?lookup_insert_ne by done; auto.
  - rewrite Hk, Z.sub_diag. cbn. naive_solver.
  - rewrite Z.sub_diag. cbn. naive_solver lia.
Qed.
Lemma refs_map_size rs k : (size (dom (refs_map k rs)) <= length rs)%nat.
Proof.
  revert k. induction rs as [|r rs IH]; intros k; cbn [refs_map length]; [by rewrite dom_empty, size_empty|].
  specialize (IH (k + 1)). destruct r; [lia|]. rewrite dom_insert, size_union_alt, size_singleton.
  assert (size (dom (refs_map (k + 1) rs) ∖ {[k]}) <= size (dom (refs_map (k + 1) rs)))%nat by (apply subseteq_size; set_solver). lia.
Qed.
End elements.

(** ** What the validation accepts *)

Section decided.
Variables (tree : TypeTreeView) (allow : bool) (banned : list FilterOperator) (elements : list ContentFilterElement).
Let checked : list (ContentFilterElementResult * option ParsedContentFilterElement * list Z) := map (validate_element (zlen elements) tree allow banned) elements.
Let children : gmap Z (list Z) := refs_map 0 (map snd checked).

Lemma child_refers i j : child children i j <-> refers tree allow banned elements i j.
Proof.
  unfold child, refers, children. split.
  - intros (r & Hr & Hj). apply refs_map_lookup in Hr as (Hi & Hr & _). rewrite Z.sub_0_r in Hr. unfold checked in Hr. rewrite !list_lookup_fmap in Hr.
    destruct (elements !! Z.to_nat i) as [e|] eqn:He; [|discriminate]. injection Hr as <-. exists e. split; [by apply zlookup_Some|done].
  - intros (e & [Hi He]%zlookup_Some & Hj). exists (validate_element (zlen elements) tree allow banned e).2. split; [|done].
    apply refs_map_lookup. split; [done|]. rewrite Z.sub_0_r. unfold checked. rewrite !list_lookup_fmap, He. split; [done|]. intros H0. rewrite H0 in Hj. by apply elem_of_nil in Hj.
Qed.
Lemma search_returns : has_cycles (S (length elements)) children 0 ∅ = Ret (Ok ∅) \/ has_cycles (S (length elements)) children 0 ∅ = Ret (Err tt).
Proof.
  apply has_cycles_returns; [set_solver|]. pose proof (refs_map_size (map snd checked) 0) as Hs. unfold checked in Hs. rewrite !length_map in Hs. fold checked children in Hs. lia.
Qed.
Lemma search_acyclic : has_cycles (S (length elements)) children 0 ∅ = Ret (Ok ∅) <->
  ~ exists i, rtc (refers tree allow banned elements) 0 i /\ tc (refers tree allow banned elements) i i.
Proof.
  assert (forall i j, rtc (child children) i j <-> rtc (refers tree allow banned elements) i j) as Hrtc
    by (intros; split; apply rtc_subrel; intros ???; by apply child_refers).
  assert (forall i j, tc (child children) i j <-> tc (refers tree allow banned elements) i j) as Htc
    by (intros; split; (induction 1 as [x y Hxy|x y z Hxy _ IH]; [apply tc_once|eapply tc_l; [|exact IH]]; by apply child_refers)).
  split.
  - intros H (i & Hi & Hc). apply has_cycles_acc in H. apply Hrtc in Hi. apply Htc in Hc. by apply (acc_no_cycle children 0 i).
  - intros Hno. destruct search_returns as [H|H]; [done|]. exfalso. apply has_cycles_err in H as [(q & Hq & _)|(i & Hi & Hc)]; [set_solver|].
    apply Hno. exists i. split; [by apply Hrtc|by apply Htc].
Qed.
Lemma valid_elements : zlen (omap (fun r => r.1.2) checked) = zlen elements <-> Forall (element_ok tree allow banned (zlen elements)) elements.
Proof.
  replace (zlen elements) with (zlen checked) at 1 by (unfold checked, zlen; by rewrite length_map).
  rewrite (proj1 (proj2 (omap_full _ _))). unfold checked. rewrite Forall_map. apply Forall_iff. intros e.
  pose proof (validate_element_spec tree allow banned (zlen elements) e) as He. destruct (validate_element _ _ _ _ e).1.2; [|naive_solver].
  split; [by intros _; apply He|done].
Qed.
End decided.

(** C15: the validation of a where clause always ends; it accepts a filter exactly when each element has the
    operands that its operator takes, all of them valid, none of the banned operators occurs, and no
    cycle of references can be reached from the first element. *)
Theorem where_clause_decided tree allow banned elements :
  exists results r, validate_where_clause (Some elements) tree allow banned = Ret (Some results, r)
    /\ length results = length elements
    /\ ((exists f, r = Ok f) <-> Forall (element_ok tree allow banned (zlen elements)) elements
          /\ ~ exists i, rtc (refers tree allow banned elements) 0 i /\ tc (refers tree allow banned elements) i i)
    /\ (forall e, r = Err e -> e = BadEventFilterInvalid).
Proof.
  unfold validate_where_clause. set (checked := map (validate_element _ _ _ _) elements).
  pose proof (valid_elements tree allow banned elements) as Hv. pose proof (search_acyclic tree allow banned elements) as Hs. fold checked in Hv, Hs.
  destruct (search_returns tree allow banned elements) as [H|H]; fold checked in H; rewrite H; cbn [outcome_bind result_ok is_some]; eexists _, _; (split; [done|]);
    (split; [unfold checked; by rewrite !length_map|]).
  - rewrite andb_true_r. destruct (Z.eqb_spec (zlen (omap (fun r => r.1.2) checked)) (zlen elements)) as [He|He].
    + split; [|done]. split; [intros _; split; [by apply Hv|by apply Hs]|eauto].
    + split; [|by intros e [= <-]]. split; [by intros [f Hf]|]. intros [Hok _]. by apply Hv in Hok.
  - rewrite andb_false_r. split; [|by intros e [= <-]]. split; [by intros [f Hf]|]. intros [_ Hok]. apply Hs in Hok. congruence.
Qed.

(** ** What an accepted filter means *)

Definition refs_u32 (e : ContentFilterElement) : Prop :=
  Forall (fun o => match o with Some (ElementOperand i) => is_u32 i | _ => True end) (default [] (filter_operands e)).

Section accepted.
Variables (tree : TypeTreeView) (banned : list FilterOperator) (elements : list ContentFilterElement) (f : list ParsedContentFilterElement).
Hypothesis Hu32 : Forall refs_u32 elements.
Hypothesis Hrelated : FoRelatedTo ∈ banned.
Let checked : list (ContentFilterElementResult * option ParsedContentFilterElement * list Z) := map (validate_element (zlen elements) tree false banned) elements.
Let children : gmap Z (list Z) := refs_map 0 (map snd checked).
Hypothesis Hf : f = omap (fun r => r.1.2) checked.
Hypothesis Hall : zlen f = zlen elements.

Lemma parsed_element i : 0 <= i < zlen elements -> exists p, zlookup f i = Some p /\ operator p <> FoRelatedTo
  /\ operand_count_mismatch (operator p) (zlen (operands p)) = false
  /\ (forall o, o ∈ operands p -> match o with PElement j => 0 <= j < zlen elements /\ child children i j | PAttribute _ => False | _ => True end).
Proof.
  intros Hi. destruct (elements !! Z.to_nat i) as [e|] eqn:He; [|apply lookup_ge_None in He; unfold zlen in Hi; lia].
  assert (zlen f = zlen checked) as Hlen by (rewrite Hall; unfold checked, zlen; by rewrite length_map).
  rewrite Hf in Hlen. apply (omap_full (fun r : ContentFilterElementResult * option ParsedContentFilterElement * list Z => r.1.2)) in Hlen.
  destruct (proj2 (proj2 (omap_full (fun r : ContentFilterElementResult * option ParsedContentFilterElement * list Z => r.1.2) checked)) Hlen
              (Z.to_nat i) (validate_element (zlen elements) tree false banned e)) as (p & Hp & Hpf); [unfold checked; by rewrite list_lookup_fmap, He|].
  rewrite <- Hf in Hpf. pose proof (validate_element_spec tree false banned (zlen elements) e) as Hspec. rewrite Hp in Hspec.
  destruct Hspec as (_ & _ & Hban & Hcount & Hrefs & Hops). exists p. split; [apply zlookup_Some; split; [lia|done]|]. split; [by intros Hr; rewrite Hr in Hban|]. split; [done|].
  intros o Ho. apply list_elem_of_lookup in Ho as [k Hk]. destruct (Forall2_lookup_r _ _ _ _ _ Hops Hk) as (r & Hr & o' & -> & Hparse).
  destruct o as [j|v|a|a]; [|done| |done].
  - destruct o' as [j'|v|a|a]; cbn [parse_operand] in Hparse; [|discriminate..|by destruct (validate_select_clause a tree)].
    destruct (Z.leb_spec (zlen elements) j'); [discriminate|]. injection Hparse as ->.
    assert (is_u32 j) as [Hj _].
    { rewrite Forall_lookup in Hu32. pose proof (Hu32 _ _ He) as Hre. unfold refs_u32 in Hre. rewrite Forall_lookup in Hre. exact (Hre _ _ Hr). }
    split; [done|]. apply child_refers. exists e. split; [apply zlookup_Some; split; [lia|done]|]. rewrite Hrefs. unfold element_refs. apply list_elem_of_omap. exists (PElement j).
    split; [by apply list_elem_of_lookup; exists k|done].
  - destruct o' as [j'|v|a'|a']; cbn [parse_operand negb] in Hparse; [by destruct (_ <=? _)|discriminate..|by destruct (validate_select_clause a' tree)].
Qed.

Lemma choose_operands {A B} (P : A -> B -> Prop) l : (forall a, a ∈ l -> exists b, P a b) -> exists bs, Forall2 P l bs.
Proof.
  induction l as [|a l IH]; intros H; [by exists []|]. destruct (H a) as [b Hb]; [by left|]. destruct IH as [bs Hbs]; [intros x Hx; apply H; by right|].
  exists (b :: bs). by constructor.
Qed.

(** An element whose operands have their values. *)
Lemma element_step fuel i : 0 <= i < zlen elements ->
  (forall j, 0 <= j < zlen elements -> child children i j ->
    exists e, unfolds f (PElement j) e /\ forall item t, evaluate_element item t fuel f j = Ret (denote item t e)) ->
  exists e, unfolds f (PElement i) e /\ forall item t, evaluate_element item t (S fuel) f i = Ret (denote item t e).
Proof.
  intros Hi Hsub. destruct (parsed_element i Hi) as (op & Hop & Hrel & Hcount & Hops).
  destruct (choose_operands (fun o x => unfolds f o x /\ forall item t,
    match o with PElement j => evaluate_element item t fuel f j | PLiteral v => Ret v | PAttribute _ => Panic | PSimple a => Ret (get_field item a) end
    = Ret (denote item t x)) (operands op)) as [xs Hxs].
  { intros o Ho. apply Hops in Ho. destruct o as [j|v|a|a]; [|exists (XLiteral v)|done|exists (XField a)]; [|split; [constructor|done]..].
    destruct Ho as [Hj Hc]. by apply Hsub. }
  exists (XApply (operator op) xs). split.
  - apply (unfolds_element f i op); [done|]. eapply Forall2_impl; [exact Hxs|]. by intros o x [H _].
  - intros item t. cbn [evaluate_element denote]. rewrite Hop. apply apply_meaning; [done|done|].
    apply Forall2_fmap_r. eapply Forall2_impl; [exact Hxs|]. intros o x [_ H]. apply H.
Qed.
Lemma element_denotes fuel : forall i path p, 0 <= i < zlen elements -> has_cycles fuel children i path = Ret (Ok p) ->
  exists e, unfolds f (PElement i) e /\ forall item t, evaluate_element item t (S fuel) f i = Ret (denote item t e).
Proof.
  induction fuel as [|fuel IH]; intros i path p Hi Hok; apply element_step; try done; intros j Hj Hc;
    destruct (has_cycles_ok _ _ _ _ _ Hok j Hc) as (fuel' & p1 & p2 & Hfuel & Hj'); [discriminate|].
  injection Hfuel as <-. by apply (IH j p1 p2).
Qed.
End accepted.

Definition holds (v : Variant) : bool := match v with VBoolean b => b | _ => false end.
Definition fields (item : EventItem) (p : ParsedEventFilter) : list Variant := map (get_field item) (parsed_select p).

(** C14: every filter that the validation accepts unfolds to a finite expression over literals and fields of
    the event, and evaluating the filter on any event, with any type tree, returns without a panic the
    selected fields exactly when the expression is true; an empty filter accepts every event. *)
Theorem accepted_filter_denotes raw tree res p : Forall refs_u32 (default [] (where_clause raw)) -> validate raw tree = Ret (res, Ok p) ->
  (content_filter p = [] /\ forall item t, evaluate item t p = Ret (Some (fields item p)))
  \/ exists e, unfolds (content_filter p) (PElement 0) e
       /\ forall item t, evaluate item t p = Ret (if holds (denote item t e) then Some (fields item p) else None).
Proof.
  intros Hu Hv. unfold validate in Hv. apply outcome_bind_ret in Hv as ([results parsed] & Hw & Hv). destruct parsed as [elements|]; [|discriminate Hv].
  injection Hv as <- <-. unfold fields. cbn [content_filter parsed_select]. unfold validate_where_clause in Hw.
  destruct (where_clause raw) as [es|]; cbn [default] in Hu; [|injection Hw as <- <-; by left].
  set (checked := map (validate_element (zlen es) tree false [FoRelatedTo]) es) in *. apply outcome_bind_ret in Hw as (c & Hc & Hw).
  injection Hw as _ Hw. destruct (_ && _) eqn:Hok; [|discriminate Hw]. injection Hw as <-. apply andb_prop in Hok as [Hlen%Z.eqb_eq Hcyc].
  destruct c as [path|]; [|discriminate Hcyc]. set (f := omap (fun r => r.1.2) checked) in *. unfold evaluate. cbn [content_filter parsed_select].
  destruct f as [|x f'] eqn:Hf; [by left|]. rewrite <- Hf in *. right.
  destruct (element_denotes tree [FoRelatedTo] es f Hu (list_elem_of_here _ _) eq_refl Hlen (S (length es)) 0 ∅ path) as (e & He & Hev);
    [rewrite <- Hlen, Hf; unfold zlen; cbn; lia|exact Hc|].
  exists e. split; [done|]. intros item t. unfold evaluate_filter. rewrite Hf. rewrite <- Hf.
  assert (length f = length es) as -> by (unfold zlen in Hlen; lia). rewrite Hev. done.
Qed.

(** ** Integers of different types *)

(** The type in which two integers are compared: the wider one, and of the same width the signed one. *)
Definition common_type (wl : Z) (sl : bool) (wr : Z) (sr : bool) : Z * bool :=
  if wl <? wr then (wr, sr) else if wr <? wl then (wl, sl) else (wl, sl || sr).

(** Comparing integers of different types in a filter is comparing their values when both are values of
    the common type; otherwise, when the widths differ a negative number has no order to an unsigned one,
    and when they are the same the unsigned number is read as a negative one, which is wrong. *)
Theorem integers_compare l r wl sl a wr sr b : integer_of l = Some (wl, sl, a) -> integer_of r = Some (wr, sr, b) -> fits wl sl a -> fits wr sr b ->
  let '(w, s) := common_type wl sl wr sr in
  (fits w s a -> fits w s b -> compare_op l r = Ret (Some (a ?= b)))
  /\ (~ fits w s a \/ ~ fits w s b -> compare_op l r = Ret (if wl =? wr then Some (as_signed w a ?= as_signed w b) else None)).
Proof.
  intros Hl Hr Ha Hb. destruct l; try discriminate Hl; injection Hl as <- <- <-; destruct r; try discriminate Hr; injection Hr as <- <- <-;
    unfold common_type, fits in *; cbn [Z.ltb Z.eqb Pos.eqb Pos.compare Pos.compare_cont Z.compare orb] in *; split.
  all: unfold compare_op, convert_pair;
    match goal with |- context [precedence ?x ?= precedence ?y] => let c := eval vm_compute in (precedence x ?= precedence y) in change (precedence x ?= precedence y) with c end;
    cbv beta iota; unfold convert; rewrite ?bool_decide_false by discriminate;
    cbn [type_id convert_scalar convert_sbyte convert_byte convert_int16 convert_uint16 convert_int32 convert_uint32 convert_int64 convert_uint64 outcome_bind compare_values];
    unfold non_negative; repeat match goal with |- context [?z <? 0] => destruct (Z.ltb_spec z 0) end; cbn [outcome_bind compare_values].
  all: intros; try (exfalso; lia); repeat match goal with |- context [as_signed ?w ?x] => rewrite (as_signed_fits w x) by lia end; done.
Qed.
End facts.

(** ** A filter *)

#[export] Instance toy_regex : LikeRegex := {| Regex := rstr; regex_new := Some; is_match re s := bool_decide (re = str "^" ++ s ++ str "$") |}.

(** Severity at least 500 and not (the message is "test" or the severity is null): the third element is used twice. *)
Definition severity : SimpleAttributeOperand := mkSimpleOperand BaseEventType (Some [{| namespace_index := 0; qname := Some (str "Severity") |}]) 13 NRNone.
Definition message : SimpleAttributeOperand := mkSimpleOperand BaseEventType (Some [{| namespace_index := 0; qname := Some (str "Message") |}]) 13 NRNone.
Definition elem (o : FilterOperator) (ops : list Operand) : ContentFilterElement := mkElement o (Some (map Some ops)).
Definition raw_filter : EventFilter := mkEventFilter (Some [severity])
  (Some [elem FoAnd [ElementOperand 1; ElementOperand 2]; elem FoGreaterThanOrEqual [SimpleAttribute severity; LiteralOperand (VInt32 500)];
         elem FoNot [ElementOperand 3]; elem FoOr [ElementOperand 4; ElementOperand 4];
         elem FoLike [SimpleAttribute message; LiteralOperand (VString (Some (str "test")))]]).
Definition empty_view : TypeTreeView := mkTreeView (fun _ _ => false) (fun _ _ => None).
Definition an_event (sev : Z) (m : rstr) : EventItem :=
  mkItem _ (fun _ path _ _ => if bool_decide (path = default [] (so_browse_path severity)) then VUInt16 sev else VString (Some m)) BaseEventType.
Definition parsed_filter : option ParsedEventFilter := match validate raw_filter empty_view with Ret (_, Ok p) => Some p | _ => None end.
Example events_filtered :
  option_map (fun p => (evaluate (an_event 500 (str "alarm")) empty_view p, evaluate (an_event 499 (str "alarm")) empty_view p, evaluate (an_event 700 (str "test")) empty_view p)) parsed_filter
  = Some (Ret (Some [VUInt16 500]), Ret None, Ret None).
Proof. vm_compute. reflexivity. Qed.
(** The patterns: an underscore becomes a quantifier, and a bar is left as it is. *)
Example like_patterns : like_pattern (str "a_%") = str "^a?.*$" /\ like_pattern (str "a|b") = str "^a|b$" /\ like_pattern [97; 92; 95] = str "^a_$".
Proof. repeat split; vm_compute; reflexivity. Qed.

Definition cyclic : list ContentFilterElement := [elem FoNot [ElementOperand 1]; elem FoNot [ElementOperand 0]].
Lemma where_clause_decided_witness : exists results r, validate_where_clause (Some cyclic) empty_view false [] = Ret (Some results, r)
  /\ length results = 2%nat /\ r = Err BadEventFilterInvalid.
Proof.
  destruct (where_clause_decided empty_view false [] cyclic) as (results & r & H & Hl & _ & He). exists results, r. split; [exact H|]. split; [exact Hl|].
  vm_compute in H. injection H as <- <-. reflexivity.
Defined.

Lemma accepted_filter_denotes_witness : exists p, parsed_filter = Some p /\
  ((content_filter p = [] /\ forall item t, evaluate item t p = Ret (Some (fields item p)))
   \/ exists e, unfolds (content_filter p) (PElement 0) e
        /\ forall item t, evaluate item t p = Ret (if holds (denote item t e) then Some (fields item p) else None)).
Proof.
  destruct (validate raw_filter empty_view) as [[res [p|e]]| |] eqn:Hv; try (vm_compute in Hv; discriminate Hv).
  exists p. split; [unfold parsed_filter; by rewrite Hv|]. apply (accepted_filter_denotes raw_filter empty_view res p); [|exact Hv].
  unfold refs_u32. cbn. repeat first [apply List.Forall_nil|apply List.Forall_cons|exact I|unfold is_u32; int_lia].
Defined.

Lemma integers_compare_witness : compare_op (VInt16 (-3)) (VByte 200) = Ret (Some Lt) /\ compare_op (VInt32 (-1)) (VUInt64 5) = Ret None
  /\ compare_op (VUInt32 3000000000) (VInt32 5) = Ret (Some Lt).
Proof.
  pose proof (integers_compare (VInt16 (-3)) (VByte 200) 16 true (-3) 8 false 200 eq_refl eq_refl ltac:(cbn; lia) ltac:(cbn; lia)) as H1.
  pose proof (integers_compare (VInt32 (-1)) (VUInt64 5) 32 true (-1) 64 false 5 eq_refl eq_refl ltac:(cbn; lia) ltac:(cbn; lia)) as H2.
  pose proof (integers_compare (VUInt32 3000000000) (VInt32 5) 32 false 3000000000 32 true 5 eq_refl eq_refl ltac:(cbn; lia) ltac:(cbn; lia)) as H3.
  split; [apply H1; cbn; lia|]. split; [apply H2; left; cbn; lia|]. apply H3. left. cbn. lia.
Defined.
