(* ===== verification/Uadp.v ===== *)
(** * The UADP network messages of PubSub

    async-opcua-pubsub/src/codec/uadp.rs: publisher ids, data set messages, security headers and
    network messages, with their encoders and decoders, and the round trip of a message.

    [PubSubOptions] has the limits that only the PubSub decoders read, beside those of
    [DecodingOptions]. *)

From S2P Require Import Prelude Text Float StatusCode NumericRange Variant Wire BinaryTypes BinaryVariant BinaryVariantFacts.

(** ** Constants *)

Definition UADP_VERSION : Z := 1.
Definition UADP_FLAG_PUBLISHER_ID : Z := 0x10.
Definition UADP_FLAG_GROUP_HEADER : Z := 0x20.
Definition UADP_FLAG_PAYLOAD_HEADER : Z := 0x40.
Definition UADP_FLAG_EXTENDED_FLAGS1 : Z := 0x80.
Definition UADP_EXTENDED_FLAGS1_SECURITY_HEADER : Z := 0x10.
Definition UADP_EXTENDED_FLAGS1_TIMESTAMP : Z := 0x20.
Definition UADP_EXTENDED_FLAGS1_PICOSECONDS : Z := 0x40.
Definition UADP_EXTENDED_FLAGS1_PUBLISHER_ID_TYPE : Z := 0x07.
Definition SECURITY_FLAG_ENCRYPTED : Z := 0x02.
Definition SECURITY_FLAG_FOOTER : Z := 0x04.
Definition SECURITY_FLAGS_RESERVED : Z := 0xF0.
Definition ENCRYPTED_MESSAGE_NONCE_LEN : Z := 8.

Definition MAX_DATASET_FIELDS : Z := 4096.
Definition MAX_DATASET_MESSAGES : Z := 256.
Definition MAX_SECURED_PAYLOAD_LEN : Z := MAX_MESSAGE_SIZE.

Record PubSubOptions := {
  ps_decoding : DecodingOptions;
  max_dataset_fields : Z;
  max_dataset_messages : Z;
  max_secured_payload_len : Z
}.
Definition default_pubsub_options : PubSubOptions :=
  {| ps_decoding := default_options; max_dataset_fields := MAX_DATASET_FIELDS;
     max_dataset_messages := MAX_DATASET_MESSAGES; max_secured_payload_len := MAX_SECURED_PAYLOAD_LEN |}.

(** [flags & mask != 0]. *)
Definition is_set (flags mask : Z) : bool := negb (Z.land flags mask =? 0).
Definition flag_if (b : bool) (mask flags : Z) : Z := if b then Z.lor flags mask else flags.

(** ** Publisher ids *)

Inductive PublisherId : Set :=
| PubNone | PubByte (v : Z) | PubUInt16 (v : Z) | PubUInt32 (v : Z) | PubUInt64 (v : Z) | PubString (v : rstr).
#[export] Instance PublisherId_eq_dec : EqDecision PublisherId.
Proof. solve_decision. Defined.
#[export] Instance PublisherId_countable : Countable PublisherId.
Proof.
  refine (inj_countable'
    (fun p => match p with
              | PubNone => (0, [0], 0) | PubByte v => (1, [], v) | PubUInt16 v => (2, [], v) | PubUInt32 v => (3, [], v)
              | PubUInt64 v => (4, [], v) | PubString s => (5, s, 0) end)
    (fun c => match c with
              | (1, _, v) => PubByte v | (2, _, v) => PubUInt16 v | (3, _, v) => PubUInt32 v
              | (4, _, v) => PubUInt64 v | (5, s, _) => PubString s | _ => PubNone end) _).
  by intros [].
Defined.

Definition is_pub_none (p : PublisherId) : bool := match p with PubNone => true | _ => false end.
Definition ext1_type_bits (p : PublisherId) : Z :=
  match p with PubNone | PubByte _ => 0 | PubUInt16 _ => 1 | PubUInt32 _ => 2 | PubUInt64 _ => 3 | PubString _ => 4 end.
Definition value_byte_len (p : PublisherId) : Z :=
  match p with
  | PubNone => 0 | PubByte _ => 1 | PubUInt16 _ => 2 | PubUInt32 _ => 4 | PubUInt64 _ => 8
  | PubString v => ua_string_encoded_len (Some v)
  end.
Definition publisher_encode_value (p : PublisherId) : list bytes :=
  match p with
  | PubNone => []
  | PubByte v => write_u8 v | PubUInt16 v => write_u16 v | PubUInt32 v => write_u32 v | PubUInt64 v => write_u64 v
  | PubString v => ua_string_encode (Some v)
  end.
(** [UAString::to_string]: a null string is shown as a text. *)
Definition ua_string_display (s : UAString) : rstr := match s with Some v => v | None => str "[null]" end.
Definition publisher_decode_value (o : DecodingOptions) (type_bits : Z) : parser PublisherId :=
  match type_bits with
  | 0 => let% v := read_u8 in PRet (PubByte v)
  | 1 => let% v := read_u16 in PRet (PubUInt16 v)
  | 2 => let% v := read_u32 in PRet (PubUInt32 v)
  | 3 => let% v := read_u64 in PRet (PubUInt64 v)
  | 4 => let% s := ua_string_decode o in PRet (PubString (ua_string_display s))
  | _ => PFail BadDecodingError
  end.

(** ** Messages *)

Record SecurityHeader := {
  security_flags : Z;
  security_token_id : Z;
  message_nonce : bytes
}.
(** *** Security headers *)

Definition sec_byte_len (h : SecurityHeader) : Z :=
  1 + 4 + 1 + zlen (message_nonce h) + (if is_set (security_flags h) SECURITY_FLAG_FOOTER then 2 else 0).
Definition sec_encode (h : SecurityHeader) : writes :=
  if u8_max <? zlen (message_nonce h) then Err BadEncodingError
  else Ok (write_u8 (security_flags h) ++ write_u32 (security_token_id h) ++ write_u8 (zlen (message_nonce h))
           ++ [message_nonce h] ++ if is_set (security_flags h) SECURITY_FLAG_FOOTER then write_u16 0 else []).
Definition sec_decode : parser SecurityHeader :=
  let% flags := read_u8 in
  if is_set flags SECURITY_FLAGS_RESERVED then PFail BadDecodingError
  else
    let% token := read_u32 in
    let% nonce_len := read_u8 in
    if is_set flags SECURITY_FLAG_ENCRYPTED && negb (nonce_len =? ENCRYPTED_MESSAGE_NONCE_LEN) then PFail BadDecodingError
    else
      let% nonce := read_exact nonce_len in
      let% _ := if is_set flags SECURITY_FLAG_FOOTER then read_u16 else PRet 0 in
      PRet {| security_flags := flags; security_token_id := token; message_nonce := nonce |}.

Section uadp.
Context {D : DynEncodable} {C : Context}.

Record UadpDataSetMessage := {
  dataset_writer_id : Z;
  ds_sequence_number : Z;
  ds_timestamp : option DateTime;
  ds_status : option StatusCode;
  ds_fields : list Variant
}.
Record UadpNetworkMessage := {
  publisher_id : PublisherId;
  writer_group_id : Z;
  network_message_number : Z;
  nm_sequence_number : Z;
  dataset_messages : list UadpDataSetMessage
}.
Record UadpHeaderRegion := {
  hr_publisher_id : PublisherId;
  hr_writer_group_id : Z;
  hr_network_message_number : Z;
  hr_sequence_number : Z;
  hr_dataset_writer_ids : list Z
}.
Definition set_dataset_writer_id (id : Z) (m : UadpDataSetMessage) : UadpDataSetMessage :=
  {| dataset_writer_id := id; ds_sequence_number := ds_sequence_number m; ds_timestamp := ds_timestamp m;
     ds_status := ds_status m; ds_fields := ds_fields m |}.

(** *** Data set messages *)

Definition sum_by {A} (f : A -> Z) (l : list A) : Z := fold_right (fun x s => f x + s) 0 l.
Definition ds_byte_len (m : UadpDataSetMessage) : Z :=
  1 + 2 + (if is_some (ds_timestamp m) then 8 else 0) + (if is_some (ds_status m) then 2 else 0) + 2
  + sum_by variant_byte_len (ds_fields m).
Definition ds_flags1 (m : UadpDataSetMessage) : Z :=
  flag_if (is_some (ds_status m)) 0x10 (flag_if (is_some (ds_timestamp m)) 0x40 (Z.lor 0x01 0x08)).
Definition status_high (s : StatusCode) : Z := Z.shiftr s 16.
(** The number of fields is cast to 16 bits: [le_bytes] keeps the low bytes. *)
Definition ds_encode (m : UadpDataSetMessage) : writes :=
  let? fields := writes_all variant_encode (ds_fields m) in
  Ok (write_u8 (ds_flags1 m) ++ write_u16 (ds_sequence_number m)
      ++ write_opt datetime_encode (ds_timestamp m)
      ++ write_opt (fun s => write_u16 (status_high s)) (ds_status m)
      ++ write_u16 (zlen (ds_fields m)) ++ fields).
Definition ds_decode (o : PubSubOptions) (depth : nat) : parser UadpDataSetMessage :=
  let% flags1 := read_u8 in
  let% sequence_number := if is_set flags1 0x08 then read_u16 else PRet 0 in
  let% timestamp := read_opt (is_set flags1 0x40) (datetime_decode (ps_decoding o)) in
  let% status := read_opt (is_set flags1 0x10) (let% s := read_u16 in PRet (Z.shiftl s 16)) in
  let% field_count := read_u16 in
  if max_dataset_fields o <? field_count then PFail BadDecodingError
  else
    let% fields := read_n (Z.to_nat field_count) (variant_decode (ps_decoding o) depth) in
    PRet {| dataset_writer_id := 0; ds_sequence_number := sequence_number; ds_timestamp := timestamp;
            ds_status := status; ds_fields := fields |}.

(** *** Network messages *)

Definition extended_flags1 (m : UadpNetworkMessage) (has_security_header : bool) : Z :=
  flag_if has_security_header UADP_EXTENDED_FLAGS1_SECURITY_HEADER
    (if is_pub_none (publisher_id m) then 0 else Z.lor 0 (ext1_type_bits (publisher_id m))).
Definition header_region_byte_len (m : UadpNetworkMessage) (sec : option SecurityHeader) : Z :=
  1 + (if extended_flags1 m (is_some sec) =? 0 then 0 else 1)
  + (if is_pub_none (publisher_id m) then 0 else value_byte_len (publisher_id m))
  + 1 + 2 + 4 + 2 + 2 + 1 + zlen (dataset_messages m) * 2
  + match sec with Some h => sec_byte_len h | None => 0 end.
Definition payload_region_byte_len (m : UadpNetworkMessage) : Z := sum_by ds_byte_len (dataset_messages m).

Definition uadp_flags (m : UadpNetworkMessage) (has_security_header : bool) : Z :=
  flag_if (negb (extended_flags1 m has_security_header =? 0)) UADP_FLAG_EXTENDED_FLAGS1
    (Z.lor (flag_if (negb (is_pub_none (publisher_id m))) UADP_FLAG_PUBLISHER_ID UADP_VERSION)
       (Z.lor UADP_FLAG_GROUP_HEADER UADP_FLAG_PAYLOAD_HEADER)).
Definition encode_header_region (m : UadpNetworkMessage) (sec : option SecurityHeader) : writes :=
  let ext := extended_flags1 m (is_some sec) in
  if u8_max <? zlen (dataset_messages m) then Err BadEncodingError
  else
    let? security := match sec with Some h => sec_encode h | None => Ok [] end in
    Ok (write_u8 (uadp_flags m (is_some sec))
        ++ (if negb (ext =? 0) then write_u8 ext else [])
        ++ (if negb (is_pub_none (publisher_id m)) then publisher_encode_value (publisher_id m) else [])
        ++ write_u8 0x0F ++ write_u16 (writer_group_id m) ++ write_u32 0
        ++ write_u16 (network_message_number m) ++ write_u16 (nm_sequence_number m)
        ++ write_u8 (zlen (dataset_messages m))
        ++ concat (map (fun d => write_u16 (dataset_writer_id d)) (dataset_messages m)) ++ security).
Definition encode_payload_region (m : UadpNetworkMessage) : writes := writes_all ds_encode (dataset_messages m).

Definition decode_header_region (o : PubSubOptions) : parser (UadpHeaderRegion * option SecurityHeader) :=
  let% flags := read_u8 in
  if negb (Z.land flags 0x0F =? UADP_VERSION) then PFail BadDecodingError
  else
    let% ext := if is_set flags UADP_FLAG_EXTENDED_FLAGS1 then read_u8 else PRet 0 in
    if is_set ext UADP_EXTENDED_FLAGS1_PICOSECONDS && (Z.land ext UADP_EXTENDED_FLAGS1_TIMESTAMP =? 0)
    then PFail BadDecodingError
    else
      let% publisher := if is_set flags UADP_FLAG_PUBLISHER_ID
        then publisher_decode_value (ps_decoding o) (Z.land ext UADP_EXTENDED_FLAGS1_PUBLISHER_ID_TYPE)
        else PRet PubNone in
      if negb (is_set flags UADP_FLAG_GROUP_HEADER) then PFail BadDecodingError
      else
        let% group_flags := read_u8 in
        if is_set group_flags 0xF0 then PFail BadDecodingError
        else
          let% group := if is_set group_flags 0x01 then read_u16 else PRet 0 in
          let% _ := if is_set group_flags 0x02 then read_u32 else PRet 0 in
          let% number := if is_set group_flags 0x04 then read_u16 else PRet 0 in
          let% sequence_number := if is_set group_flags 0x08 then read_u16 else PRet 0 in
          let% ids := if is_set flags UADP_FLAG_PAYLOAD_HEADER
            then let% count := read_u8 in
                 if max_dataset_messages o <? count then PFail BadDecodingError
                 else read_n (Z.to_nat count) read_u16
            else PRet [] in
          let% security := read_opt (is_set ext UADP_EXTENDED_FLAGS1_SECURITY_HEADER) sec_decode in
          PRet ({| hr_publisher_id := publisher; hr_writer_group_id := group; hr_network_message_number := number;
                   hr_sequence_number := sequence_number; hr_dataset_writer_ids := ids |}, security).

Fixpoint decode_messages (o : PubSubOptions) (depth : nat) (ids : list Z) : parser (list UadpDataSetMessage) :=
  match ids with
  | [] => PRet []
  | id :: ids' =>
      let% m := ds_decode o depth in
      let% l := decode_messages o depth ids' in
      PRet (set_dataset_writer_id id m :: l)
  end.
Definition decode_payload_region (o : PubSubOptions) (depth : nat) (h : UadpHeaderRegion) : parser (list UadpDataSetMessage) :=
  decode_messages o depth (hr_dataset_writer_ids h).

Definition rebuild_message (h : UadpHeaderRegion) (ms : list UadpDataSetMessage) : UadpNetworkMessage :=
  {| publisher_id := hr_publisher_id h; writer_group_id := hr_writer_group_id h;
     network_message_number := hr_network_message_number h; nm_sequence_number := hr_sequence_number h;
     dataset_messages := ms |}.

Definition network_byte_len (m : UadpNetworkMessage) : Z := header_region_byte_len m None + payload_region_byte_len m.
Definition network_encode (m : UadpNetworkMessage) : writes :=
  let? h := encode_header_region m None in
  let? p := encode_payload_region m in
  Ok (h ++ p).
Definition network_decode (o : PubSubOptions) (depth : nat) : parser UadpNetworkMessage :=
  let% r := decode_header_region o in
  let% ms := decode_payload_region o depth r.1 in
  PRet (rebuild_message r.1 ms).

(** [encode_to_vec] drops the error of the encoder and returns what was written before it: [None]
    stands for those bytes. *)
Definition encode_to_vec (w : writes) : option bytes := match w with Ok bs => Some (concat bs) | Err _ => None end.
End uadp.

(** ** Messages that can be sent *)

Definition publisher_ok (o : DecodingOptions) (p : PublisherId) : Prop :=
  match p with
  | PubNone => True
  | PubByte v => is_uint 1 v | PubUInt16 v => is_uint 2 v | PubUInt32 v => is_u32 v | PubUInt64 v => is_uint 8 v
  | PubString s => string_ok o (Some s)
  end.
Definition sec_ok (h : SecurityHeader) : Prop :=
  is_uint 1 (security_flags h) /\ is_set (security_flags h) SECURITY_FLAGS_RESERVED = false
  /\ is_u32 (security_token_id h) /\ zlen (message_nonce h) <= u8_max
  /\ (is_set (security_flags h) SECURITY_FLAG_ENCRYPTED = true -> zlen (message_nonce h) = ENCRYPTED_MESSAGE_NONCE_LEN).
Section sent.
Context {D : DynEncodable}.
Definition header_ok (o : PubSubOptions) (m : UadpNetworkMessage) : Prop :=
  publisher_ok (ps_decoding o) (publisher_id m) /\ is_uint 2 (writer_group_id m)
  /\ is_uint 2 (network_message_number m) /\ is_uint 2 (nm_sequence_number m)
  /\ Forall (fun d => is_uint 2 (dataset_writer_id d)) (dataset_messages m)
  /\ zlen (dataset_messages m) <= Z.min u8_max (max_dataset_messages o).
Definition region_of (m : UadpNetworkMessage) : UadpHeaderRegion :=
  {| hr_publisher_id := publisher_id m; hr_writer_group_id := writer_group_id m;
     hr_network_message_number := network_message_number m; hr_sequence_number := nm_sequence_number m;
     hr_dataset_writer_ids := map dataset_writer_id (dataset_messages m) |}.
End sent.

(** The length of what the writers of integers write. *)
Ltac wire_len :=
  unfold write_u8, write_u16, write_u32, write_u64; rewrite ?zlen_one; cbn [concat]; rewrite ?app_nil_r;
  change (zlen (@nil Z)) with 0; int_lia.

Lemma flag_bits (p : PublisherId) (sec : bool) :
  let ext := flag_if sec UADP_EXTENDED_FLAGS1_SECURITY_HEADER (if is_pub_none p then 0 else Z.lor 0 (ext1_type_bits p)) in
  let fl := flag_if (negb (ext =? 0)) UADP_FLAG_EXTENDED_FLAGS1
    (Z.lor (flag_if (negb (is_pub_none p)) UADP_FLAG_PUBLISHER_ID UADP_VERSION)
       (Z.lor UADP_FLAG_GROUP_HEADER UADP_FLAG_PAYLOAD_HEADER)) in
  is_uint 1 fl /\ is_uint 1 ext /\ Z.land fl 0x0F = UADP_VERSION /\ is_set fl UADP_FLAG_EXTENDED_FLAGS1 = negb (ext =? 0)
  /\ is_set ext UADP_EXTENDED_FLAGS1_PICOSECONDS = false /\ is_set fl UADP_FLAG_PUBLISHER_ID = negb (is_pub_none p)
  /\ is_set fl UADP_FLAG_GROUP_HEADER = true /\ is_set fl UADP_FLAG_PAYLOAD_HEADER = true
  /\ is_set ext UADP_EXTENDED_FLAGS1_SECURITY_HEADER = sec
  /\ (is_pub_none p = false -> Z.land ext UADP_EXTENDED_FLAGS1_PUBLISHER_ID_TYPE = ext1_type_bits p).
Proof. destruct p, sec; done. Qed.

Lemma reads_publisher o p : publisher_ok o p -> is_pub_none p = false ->
  reads (publisher_decode_value o (ext1_type_bits p)) (concat (publisher_encode_value p)) p.
Proof.
  destruct p as [|v|v|v|v|s]; cbn [publisher_ok is_pub_none ext1_type_bits publisher_decode_value publisher_encode_value];
    intros Hp Hn; [done|..].
  - by apply (reads_map _ PubByte), reads_one, reads_u8.
  - by apply (reads_map _ PubUInt16), reads_one, reads_u16.
  - by apply (reads_map _ PubUInt32), reads_one, reads_u32.
  - by apply (reads_map _ PubUInt64), reads_one, reads_uint.
  - by apply (reads_map _ (fun s => PubString (ua_string_display s)) _ (Some s)), reads_string.
Qed.
Lemma publisher_len p : zlen (concat (publisher_encode_value p)) = value_byte_len p.
Proof. destruct p; try apply ua_string_len; try apply zlen_one. done. Qed.

Lemma reads_skip {A B} (p : parser A) (f : A -> parser B) a bs b : reads p bs a -> reads (f a) [] b -> reads (parser_bind p f) bs b.
Proof. intros H1 H2. rewrite <- (app_nil_r bs). by eapply reads_bind. Qed.
Lemma reads_if {A} (c : bool) (p : parser A) (e : list bytes) d a :
  (c = true -> reads p (concat e) a) -> (c = false -> a = d) -> reads (if c then p else PRet d) (concat (if c then e else [])) a.
Proof. apply reads_field. Qed.
Lemma reads_each {A} (p : parser A) (e : A -> list bytes) n l : Forall (fun x => reads p (concat (e x)) x) l -> n = length l ->
  reads (read_n n p) (concat (concat (map e l))) l.
Proof. intros Hl ->. by apply reads_n, Forall2_map_reads. Qed.

Lemma sec_encodes h : sec_ok h -> encodes (sec_encode h) (sec_byte_len h) sec_decode h.
Proof.
  intros (Hf & Hr & Ht & Hn & He). unfold sec_encode, sec_byte_len, sec_decode. pose proof (zlen_nonneg (message_nonce h)).
  decide_test. apply encodes_ok; rewrite !concat_app.
  - rewrite !zlen_app. destruct (is_set (security_flags h) SECURITY_FLAG_FOOTER); wire_len.
  - eapply reads_bind; [by apply reads_one, reads_u8|]. rewrite Hr.
    eapply reads_bind; [by apply reads_one, reads_u32|].
    eapply reads_bind; [apply reads_one, reads_u8; unfold is_uint; change (256 ^ Z.of_nat 1) with (u8_max + 1); lia|].
    assert (is_set (security_flags h) SECURITY_FLAG_ENCRYPTED
              && negb (zlen (message_nonce h) =? ENCRYPTED_MESSAGE_NONCE_LEN) = false) as ->.
    { destruct (is_set (security_flags h) SECURITY_FLAG_ENCRYPTED); [by rewrite He|done]. }
    eapply reads_bind; [by apply reads_one, reads_exact|].
    eapply (reads_skip _ _ 0); [|destruct h; apply reads_ret].
    apply reads_if; [intros _; by apply reads_one, reads_u16|done].
Qed.

Section round_trip.
Context {D : DynEncodable} {C : Context} {L : ContextLaws C}.

(** The receiver gets the high half of a status. *)
Definition canonical_ds (m : UadpDataSetMessage) : UadpDataSetMessage :=
  {| dataset_writer_id := dataset_writer_id m; ds_sequence_number := ds_sequence_number m;
     ds_timestamp := ds_timestamp m; ds_status := option_map (fun s => Z.shiftl (status_high s) 16) (ds_status m);
     ds_fields := ds_fields m |}.
Definition canonical (m : UadpNetworkMessage) : UadpNetworkMessage :=
  {| publisher_id := publisher_id m; writer_group_id := writer_group_id m;
     network_message_number := network_message_number m; nm_sequence_number := nm_sequence_number m;
     dataset_messages := map canonical_ds (dataset_messages m) |}.

Definition ds_ok (o : PubSubOptions) (depth : nat) (m : UadpDataSetMessage) : Prop :=
  is_uint 2 (ds_sequence_number m) /\ opt_ok (datetime_ok (ps_decoding o)) (ds_timestamp m)
  /\ opt_ok is_u32 (ds_status m) /\ Forall (variant_ok (ps_decoding o) depth) (ds_fields m)
  /\ zlen (ds_fields m) <= Z.min u16_max (max_dataset_fields o).
Definition network_ok (o : PubSubOptions) (depth : nat) (m : UadpNetworkMessage) : Prop :=
  header_ok o m /\ Forall (ds_ok o depth) (dataset_messages m).

Lemma ids_len (l : list UadpDataSetMessage) : zlen (concat (concat (map (fun d => write_u16 (dataset_writer_id d)) l))) = zlen l * 2.
Proof.
  induction l as [|d l IH]; [done|]. cbn [map concat]. rewrite concat_app, zlen_app, IH, zlen_cons.
  unfold write_u16. rewrite zlen_one. lia.
Qed.

Lemma header_encodes o m sec : header_ok o m -> opt_ok sec_ok sec ->
  encodes (encode_header_region m sec) (header_region_byte_len m sec) (decode_header_region o) (region_of m, sec).
Proof.
  intros (Hp & Hg & Hn & Hs & Hids & Hlen) Hsec. pose proof (zlen_nonneg (dataset_messages m)).
  unfold encode_header_region, header_region_byte_len, decode_header_region. decide_test.
  assert (exists bs, match sec with Some h => sec_encode h | None => Ok [] end = Ok bs
    /\ zlen (concat bs) = match sec with Some h => sec_byte_len h | None => 0 end
    /\ reads (read_opt (is_some sec) sec_decode) (concat bs) sec) as (bs & -> & Hbs & Hread).
  { destruct sec as [h|]; cbn [opt_ok] in Hsec; [|by exists []].
    destruct (sec_encodes h Hsec) as (bs & -> & Hbs & Hr). exists bs. split; [done|split; [done|by apply (reads_map _ Some)]]. }
  pose proof (flag_bits (publisher_id m) (is_some sec)) as Hbits.
  unfold uadp_flags. cbn zeta in Hbits. fold (extended_flags1 m (is_some sec)) in Hbits |- *.
  destruct Hbits as (Hfl & Hext & Hver & Hset & Hpico & Hpub & Hgroup & Hpay & Hsecb & Htype).
  set (ext := extended_flags1 m (is_some sec)) in *. set (fl := flag_if (negb (ext =? 0)) _ _) in *.
  cbn [result_bind]. apply encodes_ok; rewrite !concat_app.
  - rewrite !zlen_app, Hbs, ids_len.
    destruct (ext =? 0), (is_pub_none (publisher_id m)); cbn [negb]; rewrite ?publisher_len; wire_len.
  - eapply reads_bind; [by apply reads_one, reads_u8|]. rewrite Hver, Hset. cbn [Z.eqb UADP_VERSION Pos.eqb negb].
    eapply (reads_bind _ _ _ _ ext); [apply reads_if; [intros _; by apply reads_one, reads_u8|intros Hz%negb_false_iff; by apply Z.eqb_eq in Hz]|].
    rewrite Hpico, Hpub. cbn [andb].
    eapply (reads_bind _ _ _ _ (publisher_id m)).
    { apply reads_if; [intros Hpn%negb_true_iff; rewrite Htype by done; by apply reads_publisher|by destruct (publisher_id m)]. }
    rewrite Hgroup. cbn [negb]. eapply (reads_bind _ _ _ _ 0x0F); [by apply reads_one, reads_u8|].
    change (is_set 15 0xF0) with false. change (is_set 15 0x01) with true. change (is_set 15 0x02) with true.
    change (is_set 15 0x04) with true. change (is_set 15 0x08) with true. cbn iota.
    eapply reads_bind; [by apply reads_one, reads_u16|]. eapply (reads_bind _ _ _ _ 0); [by apply reads_one, reads_u32|].
    eapply reads_bind; [by apply reads_one, reads_u16|]. eapply reads_bind; [by apply reads_one, reads_u16|].
    rewrite Hpay, Hsecb. rewrite (app_assoc (concat (write_u8 _))).
    eapply (reads_bind _ _ _ _ (map dataset_writer_id (dataset_messages m))).
    { eapply reads_bind; [apply reads_one, reads_u8; unfold is_uint; change (256 ^ Z.of_nat 1) with (u8_max + 1); lia|].
      decide_test. rewrite <- (map_map dataset_writer_id write_u16). apply reads_each.
      - apply Forall_map. eapply Forall_impl; [exact Hids|]. intros d Hd. by apply reads_one, reads_u16.
      - unfold zlen. by rewrite Nat2Z.id, length_map. }
    by apply (reads_map _ (fun s => (region_of m, s))).
Qed.

Lemma fields_encode o depth l : Forall (variant_ok o depth) l ->
  encodes (writes_all variant_encode l) (sum_by variant_byte_len l) (read_n (length l) (variant_decode o depth)) l.
Proof.
  induction 1 as [|v l Hv Hl (bs & He & Hlen & Hr)]; [by apply encodes_ok; [|apply reads_ret]|].
  destruct (all_encode o depth v Hv) as (b & Hb & Hblen & Hbr). cbn [writes_all sum_by fold_right length read_n].
  rewrite Hb, He. cbn [result_bind]. apply encodes_ok; rewrite concat_app.
  - rewrite zlen_app, Hblen, Hlen. done.
  - eapply reads_bind; [exact Hbr|]. by apply (reads_map _ (cons v)).
Qed.

Lemma ds_flag_bits (s t : bool) :
  let f := flag_if s 0x10 (flag_if t 0x40 (Z.lor 0x01 0x08)) in
  is_uint 1 f /\ is_set f 0x08 = true /\ is_set f 0x40 = t /\ is_set f 0x10 = s.
Proof. by destruct s, t. Qed.

Lemma ds_encodes o depth m : ds_ok o depth m ->
  encodes (ds_encode m) (ds_byte_len m) (ds_decode o depth) (set_dataset_writer_id 0 (canonical_ds m)).
Proof.
  intros (Hseq & Ht & Hs & Hf & Hlen). unfold ds_encode, ds_byte_len, ds_decode. pose proof (zlen_nonneg (ds_fields m)).
  destruct (fields_encode _ _ _ Hf) as (bs & -> & Hbs & Hr). cbn [result_bind].
  destruct (ds_flag_bits (is_some (ds_status m)) (is_some (ds_timestamp m))) as (Hfl & H8 & H40 & H10).
  fold (ds_flags1 m) in *. apply encodes_ok; rewrite !concat_app.
  - rewrite !zlen_app, Hbs. destruct (ds_timestamp m), (ds_status m); cbn [write_opt is_some]; unfold datetime_encode, write_i64; wire_len.
  - eapply reads_bind; [by apply reads_one, reads_u8|]. rewrite H8, H40, H10.
    eapply reads_bind; [by apply reads_one, reads_u16|].
    eapply reads_bind; [apply reads_opt; destruct (ds_timestamp m); [by apply reads_datetime|done]|].
    eapply (reads_bind _ _ _ _ (option_map (fun s => Z.shiftl (status_high s) 16) (ds_status m))).
    { destruct (ds_status m) as [s|]; [|apply reads_ret]. cbn [is_some read_opt write_opt option_map].
      apply (reads_map _ Some), (reads_map _ (fun s => Z.shiftl s 16)), reads_one, reads_u16.
      change (is_u32 s) in Hs. unfold is_uint, status_high. rewrite Z.shiftr_div_pow2 by lia. change (256 ^ Z.of_nat 2) with 65536.
      change (2 ^ 16) with 65536. split; [apply Z.div_pos|apply Z.div_lt_upper_bound]; int_lia. }
    eapply reads_bind; [apply reads_one, reads_u16; unfold is_uint; change (256 ^ Z.of_nat 2) with (u16_max + 1); lia|].
    decide_test. unfold zlen. rewrite Nat2Z.id.
    apply (reads_map _ (fun fields => {| dataset_writer_id := 0; ds_sequence_number := ds_sequence_number m;
      ds_timestamp := ds_timestamp m; ds_status := _; ds_fields := fields |})), Hr.
Qed.

Lemma messages_encode o depth ms : Forall (ds_ok o depth) ms ->
  encodes (writes_all ds_encode ms) (sum_by ds_byte_len ms) (decode_messages o depth (map dataset_writer_id ms)) (map canonical_ds ms).
Proof.
  induction 1 as [|m l Hm Hl (bs & He & Hlen & Hr)]; [by apply encodes_ok; [|apply reads_ret]|].
  destruct (ds_encodes o depth m Hm) as (b & Hb & Hblen & Hbr). cbn [writes_all sum_by fold_right map decode_messages].
  rewrite Hb, He. cbn [result_bind]. apply encodes_ok; rewrite concat_app.
  - rewrite zlen_app, Hblen, Hlen. done.
  - eapply reads_bind; [exact Hbr|]. apply (reads_map _ (cons (canonical_ds m))), Hr.
Qed.
Lemma payload_encodes o depth m : network_ok o depth m ->
  encodes (encode_payload_region m) (payload_region_byte_len m) (decode_payload_region o depth (region_of m)) (map canonical_ds (dataset_messages m)).
Proof. intros [_ Hm]. by apply messages_encode. Qed.

Lemma network_encodes o depth m : network_ok o depth m ->
  encodes (network_encode m) (network_byte_len m) (network_decode o depth) (canonical m).
Proof.
  intros Hm. destruct (header_encodes o m None (proj1 Hm) I) as (h & Hh & Hhl & Hhr).
  destruct (payload_encodes o depth m Hm) as (p & Hp & Hpl & Hpr). unfold network_encode, network_byte_len, network_decode.
  rewrite Hh, Hp. cbn [result_bind]. apply encodes_ok; rewrite concat_app.
  - by rewrite zlen_app, Hhl, Hpl.
  - eapply reads_bind; [exact Hhr|]. cbn [fst]. apply (reads_map _ (rebuild_message (region_of m))), Hpr.
Qed.
End round_trip.
