(* ===== verification/PubSubSecurity.v ===== *)
(** * Security of PubSub network messages

    async-opcua-pubsub/src/security/ (codec.rs, group.rs, rotation.rs, replay.rs) and the security half
    of engine.rs and engine/security.rs: key sets and their rotation, messages that are signed and
    encrypted with AES-CTR, the window that rejects replayed sequence numbers, and the processor of a
    subscriber that puts them together.

    AES-CTR is behind [CryptoLib], with the laws [CtrLaws].  A security group is shared between the
    engine and the task that rotates it: where a function reads the group twice, the model takes the
    group of either moment. *)

From S2P Require Import Prelude Text Float StatusCode NumericRange Variant Wire BinaryTypes BinaryVariant Crypto SecureChannel Uadp.

(** ** Key sets and groups (group.rs) *)

Definition DEFAULT_SIGNING_KEY_LENGTH : Z := 32.
Definition DEFAULT_ENCRYPTION_KEY_LENGTH : Z := 32.
Definition DEFAULT_KEY_NONCE_LENGTH : Z := 32.

Record SecurityKeySet := {
  ks_token_id : Z;
  ks_signing_key : bytes;
  ks_encryption_key : bytes;
  key_nonce : bytes
}.
#[export] Instance SecurityKeySet_eq_dec : EqDecision SecurityKeySet.
Proof. solve_decision. Defined.

Definition is_nil {A} (l : list A) : bool := match l with [] => true | _ => false end.
Definition ks_from_parts (token : Z) (signing encryption nonce : bytes) : result SecurityKeySet StatusCode :=
  if is_nil signing then Err BadInvalidArgument
  else if is_nil encryption then Err BadInvalidArgument
  else if is_nil nonce then Err BadInvalidArgument
  else Ok {| ks_token_id := token; ks_signing_key := signing; ks_encryption_key := encryption; key_nonce := nonce |}.
(** [random i n] are the bytes of the [i]th call of the random generator, of which [n] are asked for. *)
Definition ks_generate (random : nat -> Z -> bytes) (token : Z) : SecurityKeySet :=
  {| ks_token_id := token; ks_signing_key := random 0%nat DEFAULT_SIGNING_KEY_LENGTH;
     ks_encryption_key := random 1%nat DEFAULT_ENCRYPTION_KEY_LENGTH; key_nonce := random 2%nat DEFAULT_KEY_NONCE_LENGTH |}.

(** [key_lifetime] is a number of nanoseconds. *)
Record SecurityGroup := {
  group_id : rstr;
  current_key_set : SecurityKeySet;
  next_key_set : SecurityKeySet;
  key_lifetime : Z
}.
Definition with_key_sets (id : rstr) (current next : SecurityKeySet) (lifetime : Z) : result SecurityGroup StatusCode :=
  if forallb is_white id then Err BadInvalidArgument
  else if lifetime =? 0 then Err BadInvalidArgument
  else Ok {| group_id := id; current_key_set := current; next_key_set := next; key_lifetime := lifetime |}.
Definition group_new (random : nat -> Z -> bytes) (id : rstr) (lifetime : Z) : result SecurityGroup StatusCode :=
  with_key_sets id (ks_generate random 1) (ks_generate (fun i => random (3 + i)%nat) 2) lifetime.
Definition key_set_for_token (g : SecurityGroup) (token : Z) : option SecurityKeySet :=
  if ks_token_id (current_key_set g) =? token then Some (current_key_set g)
  else if ks_token_id (next_key_set g) =? token then Some (next_key_set g)
  else None.
(** [next.token_id() + 1] overflows at the last token: a panic in builds that check it. *)
Definition rotate_key_sets (random : nat -> Z -> bytes) (g : SecurityGroup) : SecurityGroup :=
  {| group_id := group_id g; current_key_set := next_key_set g;
     next_key_set := ks_generate random (wrap32 (ks_token_id (next_key_set g) + 1)); key_lifetime := key_lifetime g |}.

(** ** The window of sequence numbers (replay.rs) *)

Definition WINDOW : Z := 64.
Record ReplayWindow := { current_token : option Z; highest : Z; bitmap : Z }.
Definition window_new : ReplayWindow := {| current_token := None; highest := 0; bitmap := 0 |}.
Definition wrapping_sub16 (a b : Z) : Z := (a - b) mod (u16_max + 1).
Definition shl64 (a n : Z) : Z := Z.land (Z.shiftl a n) u64_max.

Definition window_check (w : ReplayWindow) (token sequence_number : Z) : ReplayWindow * result unit StatusCode :=
  if negb (bool_decide (current_token w = Some token)) then
    ({| current_token := Some token; highest := sequence_number; bitmap := 1 |}, Ok tt)
  else
    let ahead := wrapping_sub16 sequence_number (highest w) in
    let behind := wrapping_sub16 (highest w) sequence_number in
    if negb (ahead =? 0) && (ahead <=? u16_max / 2) then
      let bitmap' := if WINDOW <=? ahead then 0 else shl64 (bitmap w) ahead in
      ({| current_token := current_token w; highest := sequence_number; bitmap := Z.lor bitmap' 1 |}, Ok tt)
    else if WINDOW <=? behind then (w, Err BadSecurityChecksFailed)
    else
      let bit := Z.shiftl 1 behind in
      if negb (Z.land (bitmap w) bit =? 0) then (w, Err BadSecurityChecksFailed)
      else ({| current_token := current_token w; highest := highest w; bitmap := Z.lor (bitmap w) bit |}, Ok tt).

(** ** Secured messages (codec.rs) *)

Definition SECURITY_FLAG_SIGNED : Z := 0x01.
Definition SIGNATURE_SIZE : Z := 32.
Definition KEY_NONCE_COUNTER_PREFIX_LEN : Z := 4.
Definition MESSAGE_NONCE_LEN : Z := 8.

Record UadpSecurityCodec := { codec_mode : MessageSecurityMode; codec_policy : SecurityPolicy; key_sets : list SecurityKeySet }.

(** Four random bytes and the sequence number. *)
Definition message_nonce_of (random : Z -> bytes) (sequence_number : Z) : bytes := random 4 ++ le_bytes 4 sequence_number.
Definition counter_block (k : SecurityKeySet) (nonce : bytes) : result bytes StatusCode :=
  if zlen (key_nonce k) <? KEY_NONCE_COUNTER_PREFIX_LEN then Err BadSecurityChecksFailed
  else if negb (zlen nonce =? MESSAGE_NONCE_LEN) then Err BadSecurityChecksFailed
  else Ok (take 4 (key_nonce k) ++ nonce ++ [0; 0; 0; 1]).

Definition signing_keys (k : SecurityKeySet) : AesDerivedKeys :=
  {| signing_key := ks_signing_key k; encryption_key := ks_encryption_key k; initialization_vector := [] |}.
Definition ensure_secure_policy (c : UadpSecurityCodec) : result unit StatusCode :=
  match codec_policy c with PubSubAes128Ctr | PubSubAes256Ctr => Ok tt | _ => Err BadSecurityChecksFailed end.
Definition encoding_key_set (c : UadpSecurityCodec) : result SecurityKeySet StatusCode :=
  ok_or (head (key_sets c)) BadSecurityChecksFailed.
Definition verify_security_flags (c : UadpSecurityCodec) (flags : Z) : result unit StatusCode :=
  match codec_mode c with
  | ModeSign => if flags =? SECURITY_FLAG_SIGNED then Ok tt else Err BadSecurityChecksFailed
  | ModeSignAndEncrypt =>
      if flags =? Z.lor SECURITY_FLAG_SIGNED SECURITY_FLAG_ENCRYPTED then Ok tt else Err BadSecurityChecksFailed
  | ModeNone | ModeInvalid => Err BadSecurityChecksFailed
  end.
Definition is_mode (a b : MessageSecurityMode) : bool := bool_decide (a = b).
Definition decode_key_set (c : UadpSecurityCodec) (h : SecurityHeader) : result SecurityKeySet StatusCode :=
  match find (fun k => ks_token_id k =? security_token_id h) (key_sets c) with
  | Some k => Ok k
  | None =>
      if is_mode (codec_mode c) ModeSign && (security_token_id h =? 0)
      then ok_or (head (key_sets c)) BadSecurityChecksFailed
      else Err BadSecurityChecksFailed
  end.

Section codec.
Context {FT : Features} {CL : CryptoLib}.

Definition encryption_keys (c : UadpSecurityCodec) (k : SecurityKeySet) (nonce : bytes) : outcome (result AesDerivedKeys StatusCode) :=
  if negb (zlen nonce =? MESSAGE_NONCE_LEN) then Ret (Err BadSecurityChecksFailed)
  else if zlen (key_nonce k) <? KEY_NONCE_COUNTER_PREFIX_LEN then Ret (Err BadSecurityChecksFailed)
  else
    let! len := encrypting_key_length (codec_policy c) in
    if negb (zlen (ks_encryption_key k) =? len) then Ret (Err BadSecurityChecksFailed)
    else
      let^ block := Ret (counter_block k nonce) in
      Ret (Ok {| signing_key := ks_signing_key k; encryption_key := ks_encryption_key k; initialization_vector := block |}).

(** The signature that [append_signature] appends. *)
Definition signature_of (c : UadpSecurityCodec) (keys : AesDerivedKeys) (out : bytes) : outcome (result bytes StatusCode) :=
  let! size := symmetric_signature_size (codec_policy c) in
  symmetric_sign (codec_policy c) keys out size.

Context {D : DynEncodable} {C : Context}.

Definition encode_signed_message (c : UadpSecurityCodec) (m : UadpNetworkMessage) : outcome (result bytes StatusCode) :=
  let^ _ := Ret (ensure_secure_policy c) in
  let^ k := Ret (encoding_key_set c) in
  let keys := signing_keys k in
  let sec := {| security_flags := SECURITY_FLAG_SIGNED; security_token_id := 0; message_nonce := [] |} in
  let^ header := Ret (encode_header_region m (Some sec)) in
  let^ payload := Ret (encode_payload_region m) in
  let out := concat header ++ concat payload in
  let^ signature := signature_of c keys out in
  Ret (Ok (out ++ signature)).

Definition encode_signed_and_encrypted_message (random : Z -> bytes) (c : UadpSecurityCodec) (m : UadpNetworkMessage)
    : outcome (result bytes StatusCode) :=
  let^ _ := Ret (ensure_secure_policy c) in
  let^ k := Ret (encoding_key_set c) in
  let nonce := message_nonce_of random (nm_sequence_number m) in
  let sec := {| security_flags := Z.lor SECURITY_FLAG_SIGNED SECURITY_FLAG_ENCRYPTED; security_token_id := ks_token_id k;
                message_nonce := nonce |} in
  let^ keys := encryption_keys c k nonce in
  let^ header := Ret (encode_header_region m (Some sec)) in
  let^ payload := Ret (encode_payload_region m) in
  let^ cipher := symmetric_encrypt (codec_policy c) keys (concat payload) (zlen (concat payload)) in
  if negb (zlen cipher =? zlen (concat payload)) then Ret (Err BadSecurityChecksFailed)
  else
    let out := concat header ++ cipher in
    let^ signature := signature_of c keys out in
    Ret (Ok (out ++ signature)).

(** Without security an error of the encoder is dropped: [Ok None] is the message cut off where it
    failed (see [encode_to_vec]). *)
Definition encode_network_message (random : Z -> bytes) (c : UadpSecurityCodec) (m : UadpNetworkMessage)
    : outcome (result (option bytes) StatusCode) :=
  match codec_mode c with
  | ModeNone => Ret (Ok (encode_to_vec (network_encode m)))
  | ModeSign => let^ bs := encode_signed_message c m in Ret (Ok (Some bs))
  | ModeSignAndEncrypt => let^ bs := encode_signed_and_encrypted_message random c m in Ret (Ok (Some bs))
  | ModeInvalid => Ret (Err BadSecurityChecksFailed)
  end.

Definition decode_secured_message (o : PubSubOptions) (depth : nat) (c : UadpSecurityCodec) (payload : bytes)
    : outcome (result (UadpNetworkMessage * Z) StatusCode) :=
  let^ _ := Ret (ensure_secure_policy c) in
  let^ r := Ret (run (decode_header_region o) payload) in
  let '((region, security), rest) := r in
  let^ sec := Ret (ok_or security BadSecurityChecksFailed) in
  let^ _ := Ret (verify_security_flags c (security_flags sec)) in
  let header_len := zlen payload - zlen rest in
  if zlen payload <? header_len + SIGNATURE_SIZE then Ret (Err BadSecurityChecksFailed)
  else
    let signature_start := Z.to_nat (zlen payload - SIGNATURE_SIZE) in
    let signature := drop signature_start payload in
    let signed_region := take signature_start payload in
    let body := drop (Z.to_nat header_len) signed_region in
    let^ k := Ret (decode_key_set c sec) in
    let^ keys := if is_mode (codec_mode c) ModeSignAndEncrypt then encryption_keys c k (message_nonce sec)
                 else Ret (Ok (signing_keys k)) in
    let^ _ := symmetric_verify_signature (codec_policy c) keys signed_region signature in
    let^ plaintext :=
      if is_mode (codec_mode c) ModeSignAndEncrypt then
        let^ plain := symmetric_decrypt (codec_policy c) keys body (zlen body) in
        if negb (zlen plain =? zlen body) then Ret (Err BadSecurityChecksFailed) else Ret (Ok plain)
      else Ret (Ok body) in
    let^ decoded := Ret (run (decode_payload_region o depth region) plaintext) in
    if negb (is_nil decoded.2) then Ret (Err BadSecurityChecksFailed)
    else Ret (Ok (rebuild_message region decoded.1, ks_token_id k)).

Definition enforce_secured_payload_len (o : PubSubOptions) (len : Z) : result unit StatusCode :=
  if max_secured_payload_len o <? len then Err BadSecurityChecksFailed else Ok tt.
Definition decode_network_message_with_token (o : PubSubOptions) (depth : nat) (c : UadpSecurityCodec) (payload : bytes)
    : outcome (result (UadpNetworkMessage * option Z) StatusCode) :=
  let^ _ := Ret (enforce_secured_payload_len o (zlen payload)) in
  match codec_mode c with
  | ModeNone => let^ r := Ret (run (network_decode o depth) payload) in Ret (Ok (r.1, None))
  | ModeSign | ModeSignAndEncrypt => let^ r := decode_secured_message o depth c payload in Ret (Ok (r.1, Some r.2))
  | ModeInvalid => Ret (Err BadSecurityChecksFailed)
  end.
End codec.

(** ** Windows per security group (engine.rs) *)

Definition BadResourceUnavailable : StatusCode := 0x80040000.
Definition MAX_REPLAY_STREAMS_PER_SECURITY_GROUP : Z := 1024.

(** [ReplayStreamIdentity] and [CandidateTokenSnapshot]. *)
Abbreviation StreamIdentity := (PublisherId * Z)%type.
Abbreviation CandidateTokens := (Z * Z)%type.
Definition stream_identity {D : DynEncodable} (m : UadpNetworkMessage) : StreamIdentity := (publisher_id m, writer_group_id m).
Definition candidates_contain (c : CandidateTokens) (token : Z) : bool := (token =? c.1) || (token =? c.2).
Definition candidates_of (g : SecurityGroup) : CandidateTokens :=
  (ks_token_id (current_key_set g), ks_token_id (next_key_set g)).

Inductive ReplayGroupKey : Set :=
| Global (security_group_id : rstr)
| Connection (security_group_id connection_id : rstr).
#[export] Instance ReplayGroupKey_eq_dec : EqDecision ReplayGroupKey.
Proof. solve_decision. Defined.
#[export] Instance ReplayGroupKey_countable : Countable ReplayGroupKey.
Proof.
  refine (inj_countable' (fun k => match k with Global g => (g, None) | Connection g c => (g, Some c) end)
    (fun p => match p with (g, None) => Global g | (g, Some c) => Connection g c end) _).
  by intros [].
Defined.
Definition replay_group_of (k : ReplayGroupKey) : rstr := match k with Global g | Connection g _ => g end.

Record ReplayGroupState := {
  candidate_tokens : option CandidateTokens;
  streams : gmap StreamIdentity (gmap Z ReplayWindow)
}.
Definition replay_group_default : ReplayGroupState := {| candidate_tokens := None; streams := ∅ |}.

Definition reconcile_candidate_tokens (c : CandidateTokens) (s : ReplayGroupState) : ReplayGroupState :=
  if bool_decide (candidate_tokens s = Some c) then s
  else {| candidate_tokens := Some c;
          streams := omap (fun ws : gmap Z ReplayWindow =>
            let ws' := base.filter (fun p : Z * ReplayWindow => candidates_contain c p.1 = true) ws in
            if bool_decide (ws' = ∅) then None else Some ws') (streams s) |}.
Definition stream_windows (id : StreamIdentity) (s : ReplayGroupState) : result (gmap Z ReplayWindow) StatusCode :=
  match streams s !! id with
  | Some ws => Ok ws
  | None => if Z.of_nat (size (streams s)) <? MAX_REPLAY_STREAMS_PER_SECURITY_GROUP then Ok ∅ else Err BadResourceUnavailable
  end.
(** Reconciling, finding the windows of the stream and checking the number, as [decode] and
    [check_authenticated_replay] do under their locks. *)
Definition check_replay (c : CandidateTokens) (id : StreamIdentity) (token sequence_number : Z) (s : ReplayGroupState)
    : ReplayGroupState * result unit StatusCode :=
  let s := reconcile_candidate_tokens c s in
  match stream_windows id s with
  | Err e => (s, Err e)
  | Ok ws =>
      let '(w, r) := window_check (default window_new (ws !! token)) token sequence_number in
      ({| candidate_tokens := candidate_tokens s; streams := <[id := <[token := w]> ws]> (streams s) |}, r)
  end.

(** ** The engine and the processor of a subscriber (engine/security.rs) *)

Record SubscriberSecurityMaterial := { material_mode : MessageSecurityMode; material_policy : SecurityPolicy }.
Definition candidates_codec (mat : SubscriberSecurityMaterial) (g : SecurityGroup) : UadpSecurityCodec :=
  {| codec_mode := material_mode mat; codec_policy := material_policy mat; key_sets := [current_key_set g; next_key_set g] |}.

Record PubSubSecurity := {
  security_groups : gmap rstr SecurityGroup;
  replay_windows : gmap ReplayGroupKey ReplayGroupState
}.

(** The tokens of the group at the check, which may have been rotated since the message was decoded. *)
Definition live_candidate_tokens (g : SecurityGroup) (authenticated : CandidateTokens) (token : Z) : result CandidateTokens StatusCode :=
  if negb (candidates_contain authenticated token) then Err BadSecurityChecksFailed
  else if negb (candidates_contain (candidates_of g) token) then Err BadSecurityChecksFailed
  else Ok (candidates_of g).

Definition clear_replay_windows (id : rstr) (ws : gmap ReplayGroupKey ReplayGroupState) : gmap ReplayGroupKey ReplayGroupState :=
  base.filter (fun p : ReplayGroupKey * ReplayGroupState => replay_group_of p.1 <> id) ws.
Definition register_security_group (g : SecurityGroup) (e : PubSubSecurity) : PubSubSecurity :=
  {| security_groups := <[group_id g := g]> (security_groups e); replay_windows := clear_replay_windows (group_id g) (replay_windows e) |}.
Definition remove_security_group (id : rstr) (e : PubSubSecurity) : PubSubSecurity * option SecurityGroup :=
  ({| security_groups := base.delete id (security_groups e); replay_windows := clear_replay_windows id (replay_windows e) |},
   security_groups e !! id).
(** What the rotator does to a group that the engine shares. *)
Definition rotate_once (random : nat -> Z -> bytes) (id : rstr) (e : PubSubSecurity) : PubSubSecurity :=
  {| security_groups := alter (rotate_key_sets random) id (security_groups e); replay_windows := replay_windows e |}.

Section engine.
Context {FT : Features} {CL : CryptoLib} {D : DynEncodable} {C : Context}.

Definition decode_candidate (o : PubSubOptions) (depth : nat) (mat : SubscriberSecurityMaterial) (g : SecurityGroup) (payload : bytes)
    : outcome (result (UadpNetworkMessage * option Z * CandidateTokens) StatusCode) :=
  let^ r := decode_network_message_with_token o depth (candidates_codec mat g) payload in
  Ret (Ok (r, candidates_of g)).

(** [SubscriberSecurityProcessor::decode]: [g] is the group when the message is decoded, [g'] when
    its number is checked. *)
Definition processor_decode (o : PubSubOptions) (depth : nat) (mat : SubscriberSecurityMaterial) (g g' : SecurityGroup)
    (payload : bytes) (s : ReplayGroupState) : outcome (ReplayGroupState * result UadpNetworkMessage StatusCode) :=
  let! r := decode_candidate o depth mat g payload in
  match r with
  | Err e => Ret (s, Err e)
  | Ok (m, None, _) => Ret (s, Ok m)
  | Ok (m, Some token, authenticated) =>
      match live_candidate_tokens g' authenticated token with
      | Err e => Ret (s, Err e)
      | Ok c =>
          let '(s', r) := check_replay c (stream_identity m) token (nm_sequence_number m) s in
          Ret (s', let? _ := r in Ok m)
      end
  end.

Definition encode_publisher_uadp_message (random : Z -> bytes) (id : rstr) (mode : MessageSecurityMode) (policy : SecurityPolicy)
    (m : UadpNetworkMessage) (e : PubSubSecurity) : outcome (result (option bytes) StatusCode) :=
  let^ g := Ret (ok_or (security_groups e !! id) BadSecurityChecksFailed) in
  encode_network_message random {| codec_mode := mode; codec_policy := policy; key_sets := [current_key_set g] |} m.

(** [between] is what the rotator does to the group after the message was decoded. *)
Definition decode_subscriber_uadp_message_scoped (o : PubSubOptions) (depth : nat) (key : ReplayGroupKey)
    (mat : SubscriberSecurityMaterial) (between : SecurityGroup -> SecurityGroup) (payload : bytes) (e : PubSubSecurity)
    : outcome (PubSubSecurity * result UadpNetworkMessage StatusCode) :=
  match security_groups e !! replay_group_of key with
  | None => Ret (e, Err BadSecurityChecksFailed)
  | Some g =>
      let! r := decode_candidate o depth mat g payload in
      let e' := {| security_groups := <[replay_group_of key := between g]> (security_groups e); replay_windows := replay_windows e |} in
      match r with
      | Err err => Ret (e', Err err)
      | Ok (m, None, _) => Ret (e', Ok m)
      | Ok (m, Some token, authenticated) =>
          match live_candidate_tokens (between g) authenticated token with
          | Err err => Ret (e', Err err)
          | Ok c =>
              let '(s', r) := check_replay c (stream_identity m) token (nm_sequence_number m)
                                (default replay_group_default (replay_windows e !! key)) in
              Ret ({| security_groups := security_groups e'; replay_windows := <[key := s']> (replay_windows e) |}, let? _ := r in Ok m)
          end
      end
  end.
Definition decode_subscriber_uadp_message (o : PubSubOptions) (depth : nat) (id : rstr) :=
  decode_subscriber_uadp_message_scoped o depth (Global id).
Definition decode_connection_subscriber_uadp_message (o : PubSubOptions) (depth : nat) (connection id : rstr) :=
  decode_subscriber_uadp_message_scoped o depth (Connection id connection).
End engine.
