(* ===== verification/PubSubSecurityFacts.v ===== *)
(** * Properties of PubSub security

    The replay window against numbers that do not wrap, sequences of received messages with the
    rotations of the keys between them, and the round trip of secured messages. *)

From S2P Require Import Prelude Text Float StatusCode NumericRange Variant Wire BinaryTypes BinaryVariant BinaryVariantFacts Crypto SecureChannel AsymmetricSecurity ConcreteChannel Uadp PubSubSecurity.

(** ** The window

    Sequence numbers that do not wrap: the one nearest to the highest so far, at most 32767 ahead. *)

Definition nearest (top n : Z) : Z :=
  let d := (n - top) mod (u16_max + 1) in if d <=? u16_max / 2 then top + d else top + d - (u16_max + 1).
(** The window holds the numbers [seen], the last accepted first, the highest of them [top]. *)
Record window_is (w : ReplayWindow) (token top : Z) (seen : list Z) : Prop := {
  wi_token : current_token w = Some token;
  wi_highest : highest w = top mod (u16_max + 1);
  wi_bound : Forall (fun a => a <= top) seen;
  wi_top : top ∈ seen;
  wi_nodup : NoDup seen;
  wi_bits i : 0 <= i < WINDOW -> Z.testbit (bitmap w) i = bool_decide (top - i ∈ seen)
}.
(** What an unbounded window accepts. *)
Definition acceptable (top : Z) (seen : list Z) (a : Z) : bool :=
  (top <? a) || ((top - WINDOW <? a) && negb (bool_decide (a ∈ seen))).

Lemma nearest_mod top n : 0 <= n <= u16_max -> nearest top n mod (u16_max + 1) = n.
Proof.
  intros Hn. unfold nearest. assert (n = (top + (n - top) mod (u16_max + 1)) mod (u16_max + 1)) as Hm.
  { rewrite Zplus_mod_idemp_r. replace (top + (n - top)) with n by lia. rewrite Z.mod_small; [done|int_lia]. }
  destruct (_ <=? _); [done|]. rewrite Hm at 2. symmetry.
  replace (top + _ - _) with (top + (n - top) mod (u16_max + 1) + (-1) * (u16_max + 1)) by lia. by rewrite Z.mod_add.
Qed.
Lemma nearest_range top n : top - 32768 <= nearest top n <= top + 32767.
Proof.
  unfold nearest. pose proof (Z.mod_pos_bound (n - top) (u16_max + 1) ltac:(done)) as Hb.
  change (u16_max / 2) with 32767. unfold u16_max in *. destruct (Z.leb_spec ((n - top) mod (65535 + 1)) 32767); lia.
Qed.
Lemma distances top n : let d := (n - top) mod (u16_max + 1) in
  wrapping_sub16 n (top mod (u16_max + 1)) = d
  /\ wrapping_sub16 (top mod (u16_max + 1)) n = if d =? 0 then 0 else u16_max + 1 - d.
Proof.
  intros d. unfold wrapping_sub16. rewrite Zminus_mod_idemp_r, Zminus_mod_idemp_l. split; [done|].
  replace (top - n) with (- (n - top)) by lia. destruct (Z.eqb_spec d 0) as [H|H].
  - by rewrite Z.mod_opp_l_z.
  - by rewrite Z.mod_opp_l_nz.
Qed.

Lemma shl64_bit b n i : 0 <= n -> 0 <= i < 64 -> Z.testbit (shl64 b n) i = (if i <? n then false else Z.testbit b (i - n)).
Proof.
  intros Hn Hi. unfold shl64. rewrite Z.land_spec, Z.shiftl_spec by lia. change u64_max with (Z.ones 64).
  rewrite Z.testbit_ones_nonneg by lia. decide_test. rewrite andb_true_r.
  destruct (Z.ltb_spec i n); [apply Z.testbit_neg_r; lia|done].
Qed.
Lemma one_bit i j : 0 <= i -> 0 <= j -> Z.testbit (Z.shiftl 1 i) j = (i =? j).
Proof. intros Hi Hj. rewrite Z.shiftl_1_l, Z.pow2_bits_eqb by lia. done. Qed.
Lemma masked_bit b i : 0 <= i -> negb (Z.land b (Z.shiftl 1 i) =? 0) = Z.testbit b i.
Proof.
  intros Hi. destruct (Z.testbit b i) eqn:Hb.
  - apply negb_true_iff, Z.eqb_neq. intros H. assert (Z.testbit (Z.land b (Z.shiftl 1 i)) i = false) as H' by by rewrite H, Z.bits_0.
    rewrite Z.land_spec, Hb, one_bit, Z.eqb_refl in H' by lia. done.
  - apply negb_false_iff, Z.eqb_eq, Z.bits_inj'. intros j Hj. rewrite Z.land_spec, one_bit, Z.bits_0 by lia.
    destruct (Z.eqb_spec i j); [subst; by rewrite Hb|by rewrite andb_false_r].
Qed.

Lemma window_starts w token n : current_token w <> Some token -> 0 <= n <= u16_max ->
  exists w', window_check w token n = (w', Ok tt) /\ window_is w' token n [n].
Proof.
  intros Ht Hn. unfold window_check. rewrite bool_decide_eq_false_2 by done. cbn [negb]. eexists. split; [done|].
  split; cbn; [done| |by repeat constructor|by apply list_elem_of_singleton|apply NoDup_singleton|].
  - rewrite Z.mod_small; [done|int_lia].
  - intros i Hi. rewrite (bool_decide_ext _ (i = 0)) by (rewrite list_elem_of_singleton; lia).
    destruct i as [|i|i]; [done| |lia]. by destruct i.
Qed.

Lemma window_steps w token top seen n : window_is w token top seen -> 0 <= n <= u16_max ->
  let a := nearest top n in
  if acceptable top seen a
  then exists w', window_check w token n = (w', Ok tt) /\ window_is w' token (Z.max top a) (a :: seen)
  else window_check w token n = (w, Err BadSecurityChecksFailed).
Proof.
  intros [Ht Hh Hb Htop Hnd Hbits] Hn a. unfold window_check. rewrite bool_decide_eq_true_2 by done. cbn [negb].
  rewrite Hh. destruct (distances top n) as [-> ->]. pose proof (nearest_mod top n Hn) as Hmod. fold a in Hmod.
  pose proof (Z.mod_pos_bound (n - top) (u16_max + 1) ltac:(done)) as Hd. unfold a, nearest in *. clear a.
  set (d := (n - top) mod (u16_max + 1)) in *. change (u16_max / 2) with 32767 in *. unfold acceptable, WINDOW in *.
  change (u16_max + 1) with 65536 in *. destruct (Z.eqb_spec d 0) as [H0|H0]; cbn [negb andb].
  - (* the highest again *)
    rewrite H0, Z.add_0_r in *. change (0 <=? 32767) with true in *. cbn iota in *.
    rewrite Z.ltb_irrefl, (bool_decide_eq_true_2 (top ∈ seen)) by done. cbn [negb orb]. rewrite andb_false_r.
    change (64 <=? 0) with false. cbn iota. by rewrite masked_bit, Hbits, Z.sub_0_r, bool_decide_eq_true_2 by (done || lia).
  - destruct (Z.leb_spec d 32767).
    + (* ahead *)
      assert (top <? top + d = true) as -> by (apply Z.ltb_lt; lia). cbn [orb]. eexists. split; [done|].
      assert (forall i, top + d - i > top -> bool_decide (top + d - i ∈ top + d :: seen) = (i =? 0)) as Hnew.
      { intros i Hi. rewrite (bool_decide_ext _ (i = 0)); [by destruct (Z.eqb_spec i 0); [apply bool_decide_eq_true_2|apply bool_decide_eq_false_2]|].
        rewrite elem_of_cons, Forall_forall in *. split; [|lia]. intros [?|Hin]; [lia|]. apply Hb in Hin. lia. }
      split; cbn; [done|rewrite Z.max_r by lia; by rewrite <- Hmod| | | |].
      * rewrite Z.max_r by lia. constructor; [lia|]. eapply Forall_impl; [exact Hb|cbn; lia].
      * rewrite Z.max_r by lia. apply list_elem_of_here.
      * constructor; [|done]. intros Hin. rewrite Forall_forall in Hb. apply Hb in Hin. lia.
      * intros i Hi. change (0 <= i < 64) in Hi. rewrite Z.max_r, Z.lor_spec by lia. change 1 with (Z.shiftl 1 0). rewrite one_bit by lia.
        destruct (Z.ltb_spec i d) as [Hid|Hid].
        -- rewrite Hnew, (Z.eqb_sym 0 i) by lia. destruct (Z.leb_spec 64 d); [by rewrite Z.bits_0|].
           rewrite shl64_bit by lia. by decide_test.
        -- decide_test. rewrite shl64_bit by lia. decide_test. rewrite Hbits by (change WINDOW with 64; lia).
           replace (0 =? i) with false by (symmetry; apply Z.eqb_neq; lia). rewrite orb_false_r. apply bool_decide_ext.
           rewrite elem_of_cons. replace (top + d - i) with (top - (i - d)) by lia. split; [by right|]. intros [?|?]; [lia|done].
    + (* behind *)
      cbn [andb]. destruct (Z.leb_spec 64 (65536 - d)); [by repeat decide_test|].
      repeat decide_test. cbn [orb andb]. rewrite masked_bit, Hbits by (change WINDOW with 64; lia).
        replace (top - (65536 - d)) with (top + d - 65536) by lia.
        destruct (bool_decide_reflect (top + d - 65536 ∈ seen)) as [Hin|Hin]; cbn [negb]; [done|].
        eexists. split; [done|]. rewrite Z.max_l by lia. split; cbn; [done..| | | |].
        -- constructor; [lia|done].
        -- by right.
        -- by constructor.
        -- intros i Hi. change (0 <= i < 64) in Hi. rewrite Z.lor_spec, one_bit, Hbits by (done || lia). rewrite orb_comm.
           destruct (Z.eqb_spec (65536 - d) i) as [<-|Hi']; cbn [orb].
           ++ symmetry. apply bool_decide_eq_true_2. rewrite elem_of_cons. left. lia.
           ++ apply bool_decide_ext. rewrite elem_of_cons. split; [by right|]. intros [?|?]; [lia|done].
Qed.

(** ** Numbers accepted in a stream

    The accepted numbers of one token and stream, the last first, as numbers that do not wrap: none
    twice, none more than the window behind one accepted before it. *)

Fixpoint in_window (abs : list Z) : Prop :=
  match abs with
  | [] => True
  | a :: earlier =>
      a ∉ earlier
      /\ (earlier = [] \/ (forall b, b ∈ earlier -> b - WINDOW < a) /\ exists b, b ∈ earlier /\ a <= b + u16_max / 2)
      /\ in_window earlier
  end.
Definition numbering (l abs : list Z) : Prop := map (fun a => a mod (u16_max + 1)) abs = l /\ in_window abs.

Lemma acceptable_in_window w token top seen a : window_is w token top seen -> acceptable top seen a = true -> a <= top + 32767 ->
  in_window seen -> in_window (a :: seen).
Proof.
  intros [_ _ Hb Htop _ _] Ha Hmax Hw. rewrite Forall_forall in Hb. unfold acceptable in Ha.
  assert (a ∉ seen /\ top - WINDOW < a) as [Hnew Hlow].
  { apply orb_true_iff in Ha as [Ha|Ha]; bool_to_prop; unfold WINDOW; [|done]. split; [|lia]. intros Hin. apply Hb in Hin. lia. }
  split; [done|split; [|done]]. right. split; [intros b Hin; apply Hb in Hin; lia|]. exists top. change (u16_max / 2) with 32767. auto.
Qed.

Abbreviation Accepted := (Z * StreamIdentity * Z)%type.
Definition numbers_of (token : Z) (id : StreamIdentity) (log : list Accepted) : list Z :=
  map snd (List.filter (fun e : Accepted => bool_decide (e.1 = (token, id))) log).
Definition window_of (s : ReplayGroupState) (token : Z) (id : StreamIdentity) : option ReplayWindow :=
  match streams s !! id with Some ws => ws !! token | None => None end.

(** The windows of a replay state hold what [log] says was accepted under the tokens still in use,
    of which the lowest is at least [c]. *)
Definition tracks (c : Z) (log : list Accepted) (s : ReplayGroupState) : Prop :=
  (candidate_tokens s = None \/ candidate_tokens s = Some (c, c + 1))
  /\ Forall (fun e : Accepted => e.1.1 <= c + 1) log
  /\ forall token id, exists abs, numbering (numbers_of token id log) abs
       /\ match window_of s token id with
          | Some w => exists top, window_is w token top abs
          | None => abs = [] \/ token < c
          end.

Lemma numbers_of_cons token id e log :
  numbers_of token id (e :: log) = (if bool_decide (e.1 = (token, id)) then [e.2] else []) ++ numbers_of token id log.
Proof. unfold numbers_of. cbn [List.filter]. by case_bool_decide. Qed.
Lemma numbers_of_ne token id log n l : numbers_of token id log = n :: l -> exists e, e ∈ log /\ e.1 = (token, id).
Proof.
  induction log as [|e log IH]; [done|]. rewrite numbers_of_cons. case_bool_decide as He.
  - intros _. exists e. split; [by left|done].
  - intros H. destruct (IH H) as (e' & ? & ?). exists e'. split; [by right|done].
Qed.

Lemma reconcile_window c s token id :
  window_of (reconcile_candidate_tokens c s) token id
  = if bool_decide (candidate_tokens s = Some c) || candidates_contain c token then window_of s token id else None.
Proof.
  unfold reconcile_candidate_tokens, window_of. destruct (bool_decide (candidate_tokens s = Some c)) eqn:Hc; [done|]. cbn [orb streams].
  rewrite lookup_omap. destruct (streams s !! id) as [ws|]; cbn [mbind option_bind]; [|by destruct (candidates_contain c token)].
  set (f := base.filter _ ws). assert (f !! token = if candidates_contain c token then ws !! token else None) as Hf.
  { subst f. destruct (ws !! token) as [w|] eqn:Hw.
    - destruct (candidates_contain c token) eqn:Ht.
      + by apply map_lookup_filter_Some.
      + apply map_lookup_filter_None. right. intros w' _. cbn. by rewrite Ht.
    - rewrite map_lookup_filter_None_2 by (left; done). by destruct (candidates_contain c token). }
  destruct (bool_decide_reflect (f = ∅)) as [He|He]; [|exact Hf]. rewrite <- Hf, He. by rewrite lookup_empty.
Qed.

Lemma reconcile_tracks c c' log s : tracks c log s -> c <= c' -> tracks c' log (reconcile_candidate_tokens (c', c' + 1) s)
  /\ candidate_tokens (reconcile_candidate_tokens (c', c' + 1) s) = Some (c', c' + 1).
Proof.
  intros (Hc & Hlog & Hw) Hle. assert (candidate_tokens (reconcile_candidate_tokens (c', c' + 1) s) = Some (c', c' + 1)) as Heq.
  { unfold reconcile_candidate_tokens. by case_bool_decide. }
  split; [|done]. split; [by right|]. split; [eapply Forall_impl; [exact Hlog|cbn; lia]|].
  intros token id. destruct (Hw token id) as (abs & Hn & Habs). exists abs. split; [done|]. rewrite reconcile_window.
  case_bool_decide as Hd; cbn [orb].
  - destruct (window_of s token id); [done|]. destruct Habs; [by left|right; lia].
  - destruct (candidates_contain (c', c' + 1) token) eqn:Ht.
    + destruct (window_of s token id); [done|]. destruct Habs; [by left|right; lia].
    + destruct (window_of s token id) as [w|]; [|destruct Habs; [by left|right; lia]].
      destruct abs as [|a abs]; [by left|right]. destruct Hn as [Hn _]. symmetry in Hn. apply numbers_of_ne in Hn as (e & He & Hid).
      rewrite Forall_forall in Hlog. apply Hlog in He. rewrite Hid in He. cbn in He.
      unfold candidates_contain in Ht. cbn in Ht. apply orb_false_iff in Ht as [?%Z.eqb_neq ?%Z.eqb_neq]. lia.
Qed.

Lemma check_replay_tracks c c' log s token id n : tracks c log s -> c <= c' -> candidates_contain (c', c' + 1) token = true ->
  0 <= n <= u16_max ->
  match check_replay (c', c' + 1) id token n s with
  | (s', Ok _) => tracks c' ((token, id, n) :: log) s'
  | (s', Err _) => tracks c' log s'
  end.
Proof.
  intros Ht Hle Hcand Hn. destruct (reconcile_tracks c c' log s Ht Hle) as [(Hc & Hlog & Hw) Heq]. unfold check_replay.
  set (s1 := reconcile_candidate_tokens (c', c' + 1) s) in *. clear Ht.
  assert (token = c' \/ token = c' + 1) as Htok.
  { apply orb_true_iff in Hcand as [?%Z.eqb_eq|?%Z.eqb_eq]; cbn in *; auto. }
  destruct (stream_windows id s1) as [ws|e] eqn:Hs; [|done].
  assert (window_of s1 token id = ws !! token) as Hwin.
  { unfold window_of, stream_windows in *. destruct (streams s1 !! id); [by injection Hs as ->|].
    destruct (_ <? _); [|done]. injection Hs as <-. by rewrite lookup_empty. }
  destruct (Hw token id) as (abs & [Hmap Habs] & Hstate). rewrite Hwin in Hstate.
  assert (forall w, (forall t i, (t, i) <> (token, id) ->
      window_of {| candidate_tokens := candidate_tokens s1; streams := <[id:=<[token:=w]> ws]> (streams s1) |} t i = window_of s1 t i)
    /\ window_of {| candidate_tokens := candidate_tokens s1; streams := <[id:=<[token:=w]> ws]> (streams s1) |} token id = Some w) as Hset.
  { intros w. unfold window_of. cbn [streams]. split; [|by rewrite !lookup_insert_eq]. intros t i Hne.
    destruct (decide (i = id)) as [->|]; [|by rewrite lookup_insert_ne]. rewrite lookup_insert_eq.
    assert (t <> token) by congruence. rewrite lookup_insert_ne by done. unfold stream_windows in Hs.
    destruct (streams s1 !! id); [by injection Hs as ->|]. destruct (_ <? _); [|done]. injection Hs as <-. by rewrite lookup_empty. }
  assert (forall w seen top, window_is w token top seen -> numbering (n :: numbers_of token id log) seen ->
    tracks c' ((token, id, n) :: log) {| candidate_tokens := candidate_tokens s1; streams := <[id:=<[token:=w]> ws]> (streams s1) |}) as Hgo.
  { intros w seen top Hwi Hnum. destruct (Hset w) as [Hother Hsame]. split; [by right|]. split; [constructor; [cbn; lia|done]|].
    intros t i. rewrite numbers_of_cons. cbn [fst snd]. case_bool_decide as He.
    - injection He as <- <-. exists seen. split; [done|]. rewrite Hsame. by exists top.
    - rewrite Hother by congruence. apply Hw. }
  destruct (ws !! token) as [w|] eqn:Hwt.
  - change (default window_new (Some w)) with w. destruct Hstate as (top & Hwi). pose proof (window_steps w token top abs n Hwi Hn) as Hstep. cbn zeta in Hstep.
    destruct (acceptable top abs (nearest top n)) eqn:Ha.
    + destruct Hstep as (w' & -> & Hwi'). eapply Hgo; [exact Hwi'|]. split; [cbn [map]; by rewrite nearest_mod, Hmap|].
      eapply acceptable_in_window; [exact Hwi|done|apply nearest_range|done].
    + rewrite Hstep. split; [by right|split; [done|]]. intros t i. destruct (decide ((t, i) = (token, id))) as [[= -> ->]|Hne].
      * exists abs. split; [done|]. destruct (Hset w) as [_ ->]. by exists top.
      * destruct (Hset w) as [Hother _]. rewrite (Hother t i Hne). apply Hw.
  - change (default window_new None) with window_new. destruct Hstate as [->|]; [|lia]. cbn in Hmap. destruct (window_starts window_new token n) as (w' & -> & Hwi'); [done..|].
    eapply Hgo; [exact Hwi'|]. rewrite <- Hmap. split; [|split; [by intros ?%elem_of_nil|by split; [left|]]].
    cbn [map]. rewrite Z.mod_small; [done|int_lia].
Qed.

(** ** Decoding bytes

    The numbers a decoder reads from bytes are in the range of their width. *)

Fixpoint byte_yields {A} (P : A -> Prop) (p : parser A) : Prop :=
  match p with
  | PRet a => P a
  | PFail _ => True
  | PRead n k => forall bs, length bs = n -> Forall is_byte bs -> byte_yields P (k bs)
  end.
Lemma byte_yields_run {A} (P : A -> Prop) p bs a rest : byte_yields P p -> Forall is_byte bs -> run p bs = Ok (a, rest) -> P a.
Proof.
  revert bs. induction p as [b|e|n k IH]; intros bs Hp Hbs; cbn [run byte_yields] in *; [by intros [= <- _]|done|].
  destruct (Nat.leb_spec n (length bs)); [|done]. apply IH; [|by apply Forall_drop]. apply Hp; [rewrite length_take; lia|by apply Forall_take].
Qed.
Lemma byte_yields_bind {A B} (P : A -> Prop) (Q : B -> Prop) (p : parser A) f :
  byte_yields P p -> (forall a, P a -> byte_yields Q (f a)) -> byte_yields Q (parser_bind p f).
Proof. intros Hp Hf. induction p as [b|e|n k IH]; cbn [parser_bind byte_yields] in *; auto. Qed.
Lemma byte_yields_any {A} (p : parser A) : byte_yields (fun _ => True) p.
Proof. induction p as [b|e|n k IH]; cbn [byte_yields]; auto. Qed.
Lemma byte_yields_then {A B} (Q : B -> Prop) (p : parser A) f : (forall a, byte_yields Q (f a)) -> byte_yields Q (parser_bind p f).
Proof. intros Hf. eapply byte_yields_bind; [apply byte_yields_any|auto]. Qed.
Lemma byte_yields_u16 : byte_yields (fun z => 0 <= z <= u16_max) read_u16.
Proof.
  intros bs Hl Hb. cbn. pose proof (of_le_bound bs Hb) as H. unfold zlen in H. rewrite Hl in H.
  change (256 ^ Z.of_nat 2) with (u16_max + 1) in H. lia.
Qed.

Lemma header_sequence_range o : byte_yields (fun r => 0 <= hr_sequence_number r.1 <= u16_max) (decode_header_region o).
Proof.
  unfold decode_header_region. apply byte_yields_then. intros flags. destruct (negb _); [done|].
  apply byte_yields_then. intros ext. destruct (_ && _); [done|]. apply byte_yields_then. intros publisher.
  destruct (negb _); [done|]. apply byte_yields_then. intros group_flags. destruct (is_set _ _); [done|].
  do 3 (apply byte_yields_then; intros ?).
  apply (byte_yields_bind (fun z => 0 <= z <= u16_max)); [destruct (is_set _ _); [apply byte_yields_u16|done]|].
  intros n Hn. do 2 (apply byte_yields_then; intros ?). exact Hn.
Qed.

(** ** Runs of a receiver *)

Section receiver.
Context {FT : Features} {CL : CryptoLib} {D : DynEncodable} {C : Context}.
Context (o : PubSubOptions) (depth : nat) (mat : SubscriberSecurityMaterial).

(** The keys are rotated, or a datagram is received; the keys may be rotated while it is processed. *)
Inductive rx_event : Type :=
| Rotate (random : nat -> Z -> bytes)
| Receive (payload : bytes) (between : list (nat -> Z -> bytes)).
Definition rotations (rs : list (nat -> Z -> bytes)) (g : SecurityGroup) : SecurityGroup := fold_left (fun g r => rotate_key_sets r g) rs g.
Record Receiver := { rx_group : SecurityGroup; rx_replay : ReplayGroupState; rx_log : list Accepted }.
(** What was accepted under a token. *)
Definition acceptance (r : outcome (result (UadpNetworkMessage * option Z * CandidateTokens) StatusCode))
    (m : result UadpNetworkMessage StatusCode) : list Accepted :=
  match r, m with
  | Ret (Ok (m, Some token, _)), Ok _ => [(token, stream_identity m, nm_sequence_number m)]
  | _, _ => []
  end.
Definition rx_step (r : Receiver) (e : rx_event) : outcome Receiver :=
  match e with
  | Rotate random => Ret {| rx_group := rotate_key_sets random (rx_group r); rx_replay := rx_replay r; rx_log := rx_log r |}
  | Receive payload between =>
      let g' := rotations between (rx_group r) in
      let! d := processor_decode o depth mat (rx_group r) g' payload (rx_replay r) in
      Ret {| rx_group := g'; rx_replay := d.1;
             rx_log := acceptance (decode_candidate o depth mat (rx_group r) payload) d.2 ++ rx_log r |}
  end.
Fixpoint rx_run (es : list rx_event) (r : Receiver) : outcome Receiver :=
  match es with [] => Ret r | e :: es' => let! r' := rx_step r e in rx_run es' r' end.

Definition event_rotations (e : rx_event) : nat := match e with Rotate _ => 1 | Receive _ between => length between end.
Definition event_bytes (e : rx_event) : Prop := match e with Rotate _ => True | Receive payload _ => Forall is_byte payload end.

(** The tokens of a group that was rotated from its start. *)
Definition consecutive (g : SecurityGroup) : Prop := ks_token_id (next_key_set g) = ks_token_id (current_key_set g) + 1.
Definition current_token_of (g : SecurityGroup) : Z := ks_token_id (current_key_set g).

Lemma rotations_consecutive rs g : consecutive g -> 0 <= current_token_of g -> current_token_of g + 1 + Z.of_nat (length rs) <= u32_max ->
  consecutive (rotations rs g) /\ current_token_of (rotations rs g) = current_token_of g + Z.of_nat (length rs).
Proof.
  revert g. induction rs as [|r rs IH]; intros g Hg H0 Hmax; cbn [rotations fold_left length] in *; [split; [done|lia]|].
  unfold consecutive, current_token_of in *. destruct (IH (rotate_key_sets r g)) as [H1 H2]; cbn [rotate_key_sets current_key_set next_key_set ks_generate ks_token_id].
  - rewrite wrap32_small; [done|unfold is_u32; lia].
  - lia.
  - lia.
  - split; [done|]. unfold rotations in H2. rewrite H2. cbn [rotate_key_sets current_key_set]. lia.
Qed.

Lemma secured_sequence_range c payload m token : Forall is_byte payload ->
  decode_network_message_with_token o depth c payload = Ret (Ok (m, Some token)) -> 0 <= nm_sequence_number m <= u16_max.
Proof.
  intros Hb. unfold decode_network_message_with_token. intros (? & _ & H)%comp_bind_ok.
  assert (exists r, decode_secured_message o depth c payload = Ret (Ok r) /\ r.1 = m) as ([m' t] & Hs & <-).
  { destruct (codec_mode c); [done| | |]; [by apply comp_bind_ok in H as ([? ?] & _ & [= ])|..];
      apply comp_bind_ok in H as (r & Hr & [= <- _]); eauto. }
  clear H. unfold decode_secured_message in Hs. apply comp_bind_ok in Hs as (? & _ & Hs).
  apply comp_bind_ok in Hs as ([[region security] rest] & [= Hrun] & Hs).
  apply (byte_yields_run _ _ _ _ _ (header_sequence_range o) Hb) in Hrun. cbn [fst] in *.
  apply comp_bind_ok in Hs as (? & _ & Hs). apply comp_bind_ok in Hs as (? & _ & Hs). destruct (_ <? _); [done|].
  do 5 apply comp_bind_ok in Hs as (? & _ & Hs). destruct (negb _); [done|]. by injection Hs as <- _.
Qed.

(** The invariant of a run. *)
Definition rx_inv (r : Receiver) : Prop :=
  consecutive (rx_group r) /\ 0 <= current_token_of (rx_group r)
  /\ exists c, c <= current_token_of (rx_group r) /\ tracks c (rx_log r) (rx_replay r).

Lemma candidates_consecutive g : consecutive g -> candidates_of g = (current_token_of g, current_token_of g + 1).
Proof. unfold candidates_of, current_token_of. by intros ->. Qed.

Lemma rx_step_inv r e r' : rx_inv r -> event_bytes e -> rx_step r e = Ret r' ->
  current_token_of (rx_group r) + 1 + Z.of_nat (event_rotations e) <= u32_max ->
  rx_inv r' /\ current_token_of (rx_group r') = current_token_of (rx_group r) + Z.of_nat (event_rotations e).
Proof.
  intros (Hg & H0 & c & Hc & Ht) He Hstep Hmax. destruct e as [random|payload between]; cbn [rx_step event_rotations event_bytes] in *.
  - injection Hstep as <-. destruct (rotations_consecutive [random] (rx_group r) Hg H0 Hmax) as [Hg' Hc'].
    split; [|exact Hc']. split; [exact Hg'|]. cbn [rx_group rx_log rx_replay].
    change (current_token_of (rotations [random] (rx_group r))) with (current_token_of (rotate_key_sets random (rx_group r))) in Hc'.
    split; [cbn [length] in *; lia|]. exists c. split; [cbn [length] in *; lia|done].
  - apply outcome_bind_ret in Hstep as ([s' m] & Hd & [= <-]). cbn [rx_group rx_log rx_replay fst snd].
    destruct (rotations_consecutive between (rx_group r) Hg H0 Hmax) as [Hg' Hc']. split; [|exact Hc']. split; [exact Hg'|]. split; [cbn; lia|].
    unfold processor_decode in Hd. apply outcome_bind_ret in Hd as (d & Hcand & Hd). cbn [rx_group]. rewrite Hcand.
    assert (tracks c (rx_log r) s' -> exists c', c' <= current_token_of (rotations between (rx_group r)) /\ tracks c' (rx_log r) s') as Hsame
      by (intros ?; exists c; split; [lia|done]).
    destruct d as [[[m' [token|]] authenticated]|err]; cbn [acceptance].
    + destruct (live_candidate_tokens _ _ _) as [cs|err] eqn:Hlive; [|injection Hd as <- <-; by apply Hsame].
      unfold live_candidate_tokens in Hlive. destruct (negb _); [done|]. destruct (candidates_contain (candidates_of _) token) eqn:Hin; [|done].
      injection Hlive as <-. rewrite candidates_consecutive in Hin, Hd by done.
      apply comp_bind_ok in Hcand as ([m2 t2] & Hcand & [= -> -> _]).
      apply secured_sequence_range in Hcand; [|done].
      pose proof (check_replay_tracks c (current_token_of (rotations between (rx_group r))) _ _ token (stream_identity m') (nm_sequence_number m') Ht ltac:(rewrite Hc'; lia) Hin Hcand) as Hcheck.
      destruct (check_replay _ _ _ _ _) as [s2 [[]|err]]; injection Hd as <- <-; (eexists; split; [reflexivity|exact Hcheck]).
    + injection Hd as <- <-. by apply Hsame.
    + injection Hd as <- <-. by apply Hsame.
Qed.

Lemma rx_run_inv es r r' : rx_inv r -> Forall event_bytes es -> rx_run es r = Ret r' ->
  current_token_of (rx_group r) + 1 + Z.of_nat (list_sum (map event_rotations es)) <= u32_max -> rx_inv r'.
Proof.
  revert r. induction es as [|e es IH]; intros r Hr Hb Hrun Hmax; cbn [rx_run map list_sum] in *; [by injection Hrun as <-|].
  apply outcome_bind_ret in Hrun as (r1 & Hstep & Hrun). apply Forall_cons in Hb as [He Hb].
  change (list_sum (event_rotations e :: map event_rotations es)) with (event_rotations e + list_sum (map event_rotations es))%nat in Hmax.
  destruct (rx_step_inv r e r1 Hr He Hstep) as [Hr1 Hc]; [lia|]. eapply IH; [done|done|exact Hrun|lia].
Qed.
End receiver.

Lemma check_replay_fresh c id token n : exists s, check_replay c id token n replay_group_default = (s, Ok tt).
Proof.
  unfold check_replay, stream_windows, reconcile_candidate_tokens. rewrite bool_decide_eq_false_2 by done.
  cbn [streams replay_group_default candidate_tokens]. rewrite omap_empty, lookup_empty, map_size_empty. cbn [Z.of_nat].
  change (0 <? MAX_REPLAY_STREAMS_PER_SECURITY_GROUP) with true. by eexists.
Qed.

(** ** Messages of a publisher *)

(** AES in counter mode keeps the length, and is its own inverse. *)
Class CtrLaws (CL : CryptoLib) : Prop := {
  ctr_inverse key iv src len : zlen key = 16 \/ zlen key = 32 -> zlen iv = 16 -> zlen src <= Z.min len u32_max ->
    exists c, aes_ctr key iv src len = Some c /\ zlen c = zlen src /\ aes_ctr key iv c (zlen c) = Some src
}.

Definition ctr_policy (p : SecurityPolicy) : Prop := p = PubSubAes128Ctr \/ p = PubSubAes256Ctr.
Definition secured (mode : MessageSecurityMode) : Prop := mode = ModeSign \/ mode = ModeSignAndEncrypt.
Definition key_ok (p : SecurityPolicy) (k : SecurityKeySet) : Prop :=
  is_u32 (ks_token_id k) /\ 4 <= zlen (key_nonce k)
  /\ zlen (ks_encryption_key k) = key_length (symmetric_encryption (symmetric_policy p)).
(** The subscriber takes [k] for a message of the publisher that uses [k]: a message that is only
    signed does not name its key. *)
Definition selects (mode : MessageSecurityMode) (g : SecurityGroup) (k : SecurityKeySet) : Prop :=
  match mode with
  | ModeSign => current_key_set g = k /\ (ks_token_id k = 0 \/ ks_token_id (next_key_set g) <> 0)
  | _ => current_key_set g = k \/ (next_key_set g = k /\ ks_token_id (current_key_set g) <> ks_token_id k)
  end.

Section messages.
Context {FT : Features} {CL : CryptoLib} {SL : SymmetricLaws CL} {RL : CtrLaws CL} {D : DynEncodable} {C : Context} {L : ContextLaws C}.

Lemma ctr_dispatch {A} p (k : PolicyImpl -> outcome (result A StatusCode)) : ctr_policy p ->
  call_with_symmetric p k = k (AesPolicy (symmetric_policy p)).
Proof. by intros [-> | ->]. Qed.
Lemma ctr_sizes p : ctr_policy p -> symmetric_signature_size p = Ret SIGNATURE_SIZE
  /\ symmetric_signature (symmetric_policy p) = Sha256
  /\ encrypting_key_length p = Ret (key_length (symmetric_encryption (symmetric_policy p)))
  /\ (symmetric_encryption (symmetric_policy p) = Aes128Ctr \/ symmetric_encryption (symmetric_policy p) = Aes256Ctr).
Proof. intros [-> | ->]; cbn; auto. Qed.

(** Signing and verifying with a counter policy. *)
Lemma signature_spec c keys out : ctr_policy (codec_policy c) -> signature_of c keys out = Ret (Ok (hmac Sha256 (signing_key keys) out)).
Proof.
  intros Hp. unfold signature_of, symmetric_sign. destruct (ctr_sizes _ Hp) as (-> & Hs & _). cbn [outcome_bind].
  rewrite ctr_dispatch by done. unfold hmac_sign. by rewrite Hs.
Qed.
Lemma verify_spec p keys data s : ctr_policy p ->
  symmetric_verify_signature p keys data s
  = Ret (if (zlen s =? 32) && bool_decide (hmac Sha256 (signing_key keys) data = s) then Ok tt else Err BadSecurityChecksFailed).
Proof.
  intros Hp. unfold symmetric_verify_signature. rewrite ctr_dispatch by done. destruct (ctr_sizes _ Hp) as (_ & -> & _). done.
Qed.
(** [counter_block] gives a vector of 16 bytes. *)
Lemma encryption_keys_spec c k nonce : ctr_policy (codec_policy c) -> key_ok (codec_policy c) k -> zlen nonce = 8 ->
  exists iv, zlen iv = 16 /\ encryption_keys c k nonce
    = Ret (Ok {| signing_key := ks_signing_key k; encryption_key := ks_encryption_key k; initialization_vector := iv |}).
Proof.
  intros Hp (_ & Hn & Hk) Hnonce. unfold encryption_keys, counter_block, KEY_NONCE_COUNTER_PREFIX_LEN, MESSAGE_NONCE_LEN.
  destruct (ctr_sizes _ Hp) as (_ & _ & -> & _). rewrite Hnonce, Hk. cbn [outcome_bind negb Z.eqb Pos.eqb]. decide_test. rewrite Z.eqb_refl. cbn [negb].
  eexists. split; [|reflexivity]. rewrite !zlen_app, Hnonce. unfold zlen in *. rewrite length_take_le by lia. done.
Qed.
Lemma crypt_spec p k s iv src : ctr_policy p -> key_ok p k -> zlen iv = 16 -> zlen src <= u32_max ->
  let keys := {| signing_key := s; encryption_key := ks_encryption_key k; initialization_vector := iv |} in
  exists ct, zlen ct = zlen src /\ symmetric_encrypt p keys src (zlen src) = Ret (Ok ct) /\ symmetric_decrypt p keys ct (zlen ct) = Ret (Ok src).
Proof.
  intros Hp (_ & _ & Hk) Hiv Hlen keys. destruct (ctr_sizes _ Hp) as (_ & _ & _ & He).
  destruct (ctr_inverse (ks_encryption_key k) iv src (zlen src)) as (ct & Hct & Hl & Hinv); [|done|lia|].
  { rewrite Hk. destruct He as [-> | ->]; [by left|by right]. }
  exists ct. split; [done|]. unfold symmetric_encrypt, symmetric_decrypt. rewrite !ctr_dispatch by done. unfold aes_crypt, validate_args, run_cipher.
  destruct He as [-> | ->]; cbn [keys encryption_key initialization_vector]; rewrite Hiv, !Z.ltb_irrefl, Hct, Hinv; done.
Qed.

Lemma parts_of_message (h body s : bytes) : zlen s = SIGNATURE_SIZE ->
  let payload := h ++ body ++ s in
  let start := Z.to_nat (zlen payload - SIGNATURE_SIZE) in
  zlen payload - zlen (body ++ s) = zlen h /\ (zlen payload <? zlen h + SIGNATURE_SIZE) = false
  /\ drop start payload = s /\ take start payload = h ++ body /\ drop (Z.to_nat (zlen h)) (h ++ body) = body.
Proof.
  intros Hs payload start. assert (zlen payload = zlen h + zlen body + SIGNATURE_SIZE) as Hlen by (unfold payload; rewrite !zlen_app; lia).
  pose proof (zlen_nonneg body) as Hbn. assert (start = length (h ++ body)) as Hstart.
  { unfold start. rewrite Hlen. rewrite length_app. unfold zlen. lia. }
  split; [rewrite Hlen, zlen_app; lia|]. split; [apply Z.ltb_ge; rewrite Hlen; lia|].
  unfold payload. rewrite Hstart, app_assoc, drop_app_length, take_app_length. do 2 (split; [done|]).
  unfold zlen. by rewrite Nat2Z.id, drop_app_length.
Qed.

(** What a message that was received secured carries: a signature of everything before it. *)
Definition authentic (g : SecurityGroup) (payload : bytes) (token : Z) : Prop :=
  exists k signed signature, k ∈ [current_key_set g; next_key_set g] /\ ks_token_id k = token
    /\ payload = signed ++ signature /\ zlen signature = SIGNATURE_SIZE /\ hmac Sha256 (ks_signing_key k) signed = signature.

Lemma decode_key_set_in c h k : decode_key_set c h = Ok k -> k ∈ key_sets c.
Proof.
  unfold decode_key_set. destruct (find _ _) as [k'|] eqn:Hf.
  - intros [= <-]. apply find_some in Hf as [Hin _]. by apply list_elem_of_In.
  - destruct (_ && _); [|done]. destruct (key_sets c) as [|k' l]; [done|]. intros [= <-]. by left.
Qed.
Lemma encryption_keys_sign c k nonce keys : encryption_keys c k nonce = Ret (Ok keys) -> signing_key keys = ks_signing_key k.
Proof.
  unfold encryption_keys. destruct (negb _); [done|]. destruct (_ <? _); [done|]. intros (n & _ & H)%outcome_bind_ret.
  destruct (negb _); [done|]. apply comp_bind_ok in H as (b & _ & [= <-]). done.
Qed.

Lemma secured_is_authentic o depth mat g payload m token :
  decode_candidate o depth mat g payload = Ret (Ok (m, Some token, candidates_of g)) -> authentic g payload token.
Proof.
  unfold decode_candidate. intros ([m' t] & H & [= -> ->])%comp_bind_ok.
  unfold decode_network_message_with_token in H. apply comp_bind_ok in H as (? & _ & H). cbn [candidates_codec codec_mode] in H.
  assert (exists r, decode_secured_message o depth (candidates_codec mat g) payload = Ret (Ok r) /\ r.2 = token) as ([m'' t] & Hs & <-).
  { destruct (material_mode mat); [done| | |]; [by apply comp_bind_ok in H as ([? ?] & _ & [= ])|..];
      apply comp_bind_ok in H as (r & Hr & [= _ <-]); eauto. }
  clear H. unfold decode_secured_message in Hs. apply comp_bind_ok in Hs as (? & Hpol & Hs).
  assert (ctr_policy (material_policy mat)) as Hp.
  { unfold ensure_secure_policy, ctr_policy in *. cbn in Hpol. destruct (material_policy mat); try done; auto. }
  apply comp_bind_ok in Hs as ([[region security] rest] & [= Hrun] & Hs). apply comp_bind_ok in Hs as (sec & _ & Hs).
  apply comp_bind_ok in Hs as (? & _ & Hs). destruct (_ <? _) eqn:Hlen; [done|]. apply comp_bind_ok in Hs as (k & [= Hk] & Hs).
  apply comp_bind_ok in Hs as (keys & Hkeys & Hs). apply comp_bind_ok in Hs as (? & Hv & Hs).
  apply decode_key_set_in in Hk. cbn [candidates_codec key_sets codec_policy codec_mode] in *. rewrite verify_spec in Hv by done.
  destruct (_ && _) eqn:Hsig; [|done]. bool_to_prop.
  assert (ks_token_id k = t) as <-.
  { apply comp_bind_ok in Hs as (? & _ & Hs). apply comp_bind_ok in Hs as (d & _ & Hs). destruct (is_nil d.2); cbn [negb] in Hs; [|done]. by injection Hs as _ <-. }
  exists k, (take (Z.to_nat (zlen payload - SIGNATURE_SIZE)) payload), (drop (Z.to_nat (zlen payload - SIGNATURE_SIZE)) payload).
  split; [done|split; [done|]]. split; [by rewrite take_drop|split; [done|]].
  replace (ks_signing_key k) with (signing_key keys); [done|]. destruct (is_mode _ _); [by eapply encryption_keys_sign|by injection Hkeys as <-].
Qed.

Lemma decode_key_set_selects mode policy g k h : secured mode -> selects mode g k ->
  security_token_id h = (if is_mode mode ModeSignAndEncrypt then ks_token_id k else 0) ->
  decode_key_set {| codec_mode := mode; codec_policy := policy; key_sets := [current_key_set g; next_key_set g] |} h = Ok k.
Proof.
  intros [-> | ->] Hsel Ht; unfold decode_key_set; cbn [selects codec_mode key_sets find head] in *; rewrite Ht.
  - change (is_mode ModeSign ModeSignAndEncrypt) with false. change (is_mode ModeSign ModeSign) with true. cbn iota.
    destruct Hsel as [<- Hz]. destruct (Z.eqb_spec (ks_token_id (current_key_set g)) 0); [done|].
    destruct Hz as [?|Hz]; [done|]. destruct (Z.eqb_spec (ks_token_id (next_key_set g)) 0); done.
  - change (is_mode ModeSignAndEncrypt ModeSignAndEncrypt) with true. cbn iota.
    destruct Hsel as [<- | [<- Hne]]; [by rewrite Z.eqb_refl|].
    destruct (Z.eqb_spec (ks_token_id (current_key_set g)) (ks_token_id (next_key_set g))); [done|]. by rewrite Z.eqb_refl.
Qed.

Definition sent_header (random : Z -> bytes) (mode : MessageSecurityMode) (k : SecurityKeySet) (m : UadpNetworkMessage) : SecurityHeader :=
  if is_mode mode ModeSignAndEncrypt
  then {| security_flags := Z.lor SECURITY_FLAG_SIGNED SECURITY_FLAG_ENCRYPTED; security_token_id := ks_token_id k;
          message_nonce := message_nonce_of random (nm_sequence_number m) |}
  else {| security_flags := SECURITY_FLAG_SIGNED; security_token_id := 0; message_nonce := [] |}.
Lemma sent_header_ok random mode k m : zlen (random 4) = 4 -> is_u32 (ks_token_id k) ->
  sec_ok (sent_header random mode k m) /\ (mode = ModeSignAndEncrypt -> zlen (message_nonce (sent_header random mode k m)) = 8).
Proof.
  intros Hr Hk. unfold sent_header, is_mode. case_bool_decide as Hm; [|by split; [split_and!; done|]].
  assert (zlen (message_nonce_of random (nm_sequence_number m)) = 8) as Hn by (unfold message_nonce_of; by rewrite zlen_app, Hr, zlen_le_bytes).
  split; [|done]. split_and!; cbn [security_flags security_token_id message_nonce]; try done. by rewrite Hn.
Qed.

(** A message that is cut into a header that names [k], a body that is the payload under [k] and the
    signature of both is decoded under [k]. *)
Lemma decode_parts o depth mat g k m h sec body keys :
  ctr_policy (material_policy mat) -> secured (material_mode mat) -> selects (material_mode mat) g k ->
  network_ok o depth m -> encode_header_region m (Some sec) = Ok h -> sec_ok sec ->
  verify_security_flags (candidates_codec mat g) (security_flags sec) = Ok tt ->
  security_token_id sec = (if is_mode (material_mode mat) ModeSignAndEncrypt then ks_token_id k else 0) ->
  (if is_mode (material_mode mat) ModeSignAndEncrypt then encryption_keys (candidates_codec mat g) k (message_nonce sec)
   else Ret (Ok (signing_keys k))) = Ret (Ok keys) ->
  (forall p, encode_payload_region m = Ok p ->
    (if is_mode (material_mode mat) ModeSignAndEncrypt
     then (let^ plain := symmetric_decrypt (material_policy mat) keys body (zlen body) in
           if negb (zlen plain =? zlen body) then Ret (Err BadSecurityChecksFailed) else Ret (Ok plain))
     else Ret (Ok body)) = Ret (Ok (concat p))) ->
  decode_secured_message o depth (candidates_codec mat g) (concat h ++ body ++ hmac Sha256 (signing_key keys) (concat h ++ body))
  = Ret (Ok (canonical m, ks_token_id k)).
Proof.
  intros Hp Hmode Hsel Hm Hh Hsec Hflags Htok Hkeys Hbody. set (s := hmac Sha256 _ _).
  assert (zlen s = SIGNATURE_SIZE) as Hs by apply hmac_size.
  destruct (header_encodes o m (Some sec) (proj1 Hm) Hsec) as (h' & Hh' & Hhl & Hread). rewrite Hh in Hh'. injection Hh' as <-.
  destruct (payload_encodes o depth m Hm) as (p & Hpe & _ & Hpread). unfold decode_secured_message.
  assert (ensure_secure_policy (candidates_codec mat g) = Ok tt) as -> by (unfold ensure_secure_policy; cbn; by destruct Hp as [-> | ->]).
  cbn [comp_bind]. rewrite Hread. cbn [comp_bind ok_or]. rewrite Hflags. cbn [comp_bind].
  destruct (parts_of_message (concat h) body s Hs) as (-> & -> & -> & -> & ->).
  unfold candidates_codec at 1. rewrite (decode_key_set_selects _ _ g k sec Hmode Hsel Htok). cbn [comp_bind].
  cbn [candidates_codec codec_mode codec_policy] in *. rewrite Hkeys. cbn [comp_bind]. rewrite verify_spec by done.
  fold s. rewrite Hs. change (SIGNATURE_SIZE =? 32) with true. rewrite bool_decide_eq_true_2 by done. cbn [andb comp_bind].
  rewrite (Hbody p Hpe). cbn [comp_bind]. rewrite <- (app_nil_r (concat p)), Hpread. done.
Qed.
End messages.

(** ** Properties *)

Section properties.
Context {FT : Features} {CL : CryptoLib} {SL : SymmetricLaws CL} {RL : CtrLaws CL} {D : DynEncodable} {C : Context} {L : ContextLaws C}.

(** C17: a message that a publisher signs, or signs and encrypts, with the current key of its group
    is accepted by a fresh subscriber whose group selects that key, and is the message sent (of a
    status the high half); signed messages do not name their key, so there the key must be the
    current one of the subscriber too. The message is within the receiver's limits and one that its
    codec can show ([network_ok]; among others, arrays in its fields have at least one element). *)
Theorem secured_message_round_trip o depth mat random g g' m
    (Hp : ctr_policy (material_policy mat)) (Hmode : secured (material_mode mat))
    (Hk : key_ok (material_policy mat) (current_key_set g)) (Hsel : selects (material_mode mat) g' (current_key_set g))
    (Hr : zlen (random 4) = 4) (Hm : network_ok o depth m) (Hlen : payload_region_byte_len m <= u32_max) :
  exists bs,
    encode_network_message random {| codec_mode := material_mode mat; codec_policy := material_policy mat; key_sets := [current_key_set g] |} m
      = Ret (Ok (Some bs))
    /\ (zlen bs <= max_secured_payload_len o ->
        exists s, processor_decode o depth mat g' g' bs replay_group_default = Ret (s, Ok (canonical m))).
Proof.
  set (c := {| codec_mode := _ |}). set (k := current_key_set g) in *.
  destruct (sent_header_ok random (material_mode mat) k m Hr (proj1 Hk)) as [Hsec Hnonce].
  set (sec := sent_header random (material_mode mat) k m) in *.
  destruct (header_encodes o m (Some sec) (proj1 Hm) Hsec) as (h & Hh & _). destruct (payload_encodes o depth m Hm) as (p & Hpe & Hpl & _).
  assert (forall bs, zlen bs <= max_secured_payload_len o ->
    decode_secured_message o depth (candidates_codec mat g') bs = Ret (Ok (canonical m, ks_token_id k)) ->
    exists s, processor_decode o depth mat g' g' bs replay_group_default = Ret (s, Ok (canonical m))) as Hdone.
  { intros bs Hbs Hdec. unfold processor_decode, decode_candidate, decode_network_message_with_token, enforce_secured_payload_len.
    assert (max_secured_payload_len o <? zlen bs = false) as -> by (by apply Z.ltb_ge). cbn [comp_bind]. rewrite Hdec.
    assert (candidates_contain (candidates_of g') (ks_token_id k) = true) as Hin.
    { unfold candidates_contain, candidates_of. cbn [fst snd]. destruct Hmode as [He|He]; rewrite He in Hsel; cbn [selects] in Hsel.
      - destruct Hsel as [-> _]. by rewrite Z.eqb_refl.
      - destruct Hsel as [-> |[-> _]]; rewrite Z.eqb_refl; [done|by rewrite orb_true_r]. }
    destruct Hmode as [He|He]; unfold candidates_codec; rewrite He; cbn [comp_bind outcome_bind codec_mode fst snd];
      unfold live_candidate_tokens; rewrite Hin; cbn [negb];
      edestruct check_replay_fresh as (s & ->); by exists s. }
  assert (candidates_codec mat g' = {| codec_mode := material_mode mat; codec_policy := material_policy mat; key_sets := [current_key_set g'; next_key_set g'] |}) as Hcodec by done.
  unfold encode_network_message. cbn [c codec_mode]. destruct Hmode as [He|He]; unfold sec, sent_header in *; rewrite He in *.
  - change (is_mode ModeSign ModeSignAndEncrypt) with false in *. cbn iota in *. unfold encode_signed_message.
    assert (ensure_secure_policy c = Ok tt) as -> by (unfold ensure_secure_policy; cbn; by destruct Hp as [-> | ->]).
    cbn [comp_bind encoding_key_set key_sets c head ok_or]. rewrite Hh, Hpe. cbn [comp_bind]. rewrite signature_spec by done. cbn [comp_bind].
    eexists. split; [reflexivity|]. rewrite <- app_assoc. intros Hbs. apply (Hdone _ Hbs).
    eapply decode_parts; rewrite ?He; [done|by left|done|done|exact Hh|done|rewrite Hcodec; done|done|done|].
    intros p' Hp'. rewrite Hpe in Hp'. by injection Hp' as <-.
  - change (is_mode ModeSignAndEncrypt ModeSignAndEncrypt) with true in *. cbn iota in *. cbn [message_nonce] in Hnonce.
    unfold encode_signed_and_encrypted_message.
    assert (ensure_secure_policy c = Ok tt) as -> by (unfold ensure_secure_policy; cbn; by destruct Hp as [-> | ->]).
    cbn [comp_bind encoding_key_set key_sets c head ok_or]. fold k c.
    destruct (encryption_keys_spec c k (message_nonce_of random (nm_sequence_number m)) Hp Hk (Hnonce eq_refl)) as (iv & Hiv & Hkeys).
    rewrite Hkeys. cbn [comp_bind]. rewrite Hh, Hpe. cbn [comp_bind]. set (keys := {| signing_key := _ |}) in *.
    destruct (crypt_spec (material_policy mat) k (ks_signing_key k) iv (concat p) Hp Hk Hiv) as (ct & Hctl & Henc & Hdec).
    { unfold payload_region_byte_len in Hlen. by rewrite Hpl. }
    fold keys in Henc, Hdec. cbn [c codec_policy]. rewrite Henc. cbn [comp_bind]. rewrite Hctl, Z.eqb_refl. cbn [negb].
    rewrite signature_spec by done. cbn [comp_bind]. eexists. split; [reflexivity|]. rewrite <- app_assoc. intros Hbs. apply (Hdone _ Hbs).
    eapply decode_parts; rewrite ?He; [done|by right|done|done|exact Hh|done|rewrite Hcodec; done|done| |].
    + change (is_mode ModeSignAndEncrypt ModeSignAndEncrypt) with true. cbn iota. rewrite Hcodec. exact Hkeys.
    + intros p' Hp'. rewrite Hpe in Hp'. injection Hp' as <-. change (is_mode ModeSignAndEncrypt ModeSignAndEncrypt) with true. cbn iota.
      rewrite Hdec. cbn [comp_bind]. by rewrite Hctl, Z.eqb_refl.
Qed.

(** C18: whatever a secured subscriber delivers carries, over all of its bytes, a signature under a key
    that was current or next when it was decoded and whose token still is when its number is checked. *)
Theorem delivered_is_authentic o depth mat g g' payload s s' m
    (Hmode : secured (material_mode mat)) (Hd : processor_decode o depth mat g g' payload s = Ret (s', Ok m)) :
  exists token, authentic g payload token /\ candidates_contain (candidates_of g') token = true.
Proof.
  unfold processor_decode in Hd. apply outcome_bind_ret in Hd as (r & Hc & Hd). destruct r as [[[m' [token|]] auth]|e]; [| |done].
  - destruct (live_candidate_tokens _ _ _) as [cs|e] eqn:Hl; [|done]. unfold live_candidate_tokens in Hl.
    destruct (negb (candidates_contain auth token)); [done|]. destruct (candidates_contain (candidates_of g') token) eqn:Hin; [|done].
    assert (auth = candidates_of g) as -> by (unfold decode_candidate in Hc; by apply comp_bind_ok in Hc as (? & _ & [= _ <-])).
    exists token. split; [by eapply secured_is_authentic|done].
  - exfalso. unfold decode_candidate in Hc. apply comp_bind_ok in Hc as ([m2 t2] & Hc & [= -> -> _]).
    unfold decode_network_message_with_token in Hc. apply comp_bind_ok in Hc as (? & _ & Hc). cbn [candidates_codec codec_mode] in Hc.
    destruct Hmode as [He|He]; rewrite He in Hc; by apply comp_bind_ok in Hc as (? & _ & [= ]).
Qed.

(** C19: however datagrams and rotations of the keys are interleaved, also while a datagram is being
    processed, the numbers accepted under one token from one writer group are, counted without
    wrap-around, all different, and none is more than the window behind another accepted before it.
    The tokens of the keys stay within 32 bits over the run. *)
Theorem datagrams_accepted_once o depth mat g es r
    (Hg : consecutive g) (H0 : 0 <= current_token_of g) (Hb : Forall event_bytes es)
    (Hmax : current_token_of g + 1 + Z.of_nat (list_sum (map event_rotations es)) <= u32_max)
    (Hrun : rx_run o depth mat es {| rx_group := g; rx_replay := replay_group_default; rx_log := [] |} = Ret r) token id :
  exists abs, numbering (numbers_of token id (rx_log r)) abs.
Proof.
  eapply rx_run_inv in Hrun; [|split; [exact Hg|split; [exact H0|]]|done|done].
  - destruct Hrun as (_ & _ & c & _ & _ & _ & Hw). destruct (Hw token id) as (abs & Hn & _). by exists abs.
  - exists (current_token_of g). split; [done|]. split; [by left|split; [done|]].
    intros t i. exists []. split; [done|]. by left.
Qed.
End properties.

(** ** The window against an unbounded one *)

Fixpoint window_run (w : ReplayWindow) (token : Z) (ns : list Z) : list bool :=
  match ns with
  | [] => []
  | n :: ns' => let '(w', r) := window_check w token n in match r with Ok _ => true | Err _ => false end :: window_run w' token ns'
  end.
(** The unbounded window remembers every number it accepted. *)
Fixpoint unbounded_run (top : Z) (seen : list Z) (ns : list Z) : list bool :=
  match ns with
  | [] => []
  | n :: ns' =>
      let a := nearest top n in
      if acceptable top seen a then true :: unbounded_run (Z.max top a) (a :: seen) ns' else false :: unbounded_run top seen ns'
  end.

Lemma window_run_from w token top seen ns : window_is w token top seen -> Forall (fun n => 0 <= n <= u16_max) ns ->
  window_run w token ns = unbounded_run top seen ns.
Proof.
  intros Hw Hns. revert w top seen Hw. induction Hns as [|n ns Hn Hns IH]; intros w top seen Hw; [done|].
  cbn [window_run unbounded_run]. pose proof (window_steps w token top seen n Hw Hn) as Hs. cbn zeta in Hs.
  destruct (acceptable top seen (nearest top n)).
  - destruct Hs as (w' & -> & Hw'). f_equal. by apply IH.
  - rewrite Hs. f_equal. by apply IH.
Qed.

(** C20: the window of 64 bits and a wrapping 16-bit counter decides, number by number, like a window
    over numbers that never wrap and that remembers every number it accepted. *)
Theorem replay_window_unbounded w token n ns (Hfresh : current_token w <> Some token)
    (Hns : Forall (fun n => 0 <= n <= u16_max) (n :: ns)) :
  window_run w token (n :: ns) = true :: unbounded_run n [n] ns.
Proof.
  inversion Hns as [|? ? Hn Hns']; subst. cbn [window_run]. destruct (window_starts w token n Hfresh Hn) as (w' & -> & Hw').
  f_equal. by apply window_run_from with (1 := Hw').
Qed.

(** ** Concrete inputs *)

#[global] Instance toy_ctr : CtrLaws toy_crypto.
Proof. split. intros key iv src len _ _ _. by exists src. Qed.

Definition sample_key (token : Z) : SecurityKeySet :=
  {| ks_token_id := token; ks_signing_key := repeat token 32; ks_encryption_key := repeat 7 16; key_nonce := repeat 9 8 |}.
Definition sample_group : SecurityGroup :=
  {| group_id := str "group"; current_key_set := sample_key 1; next_key_set := sample_key 2; key_lifetime := 1 |}.
Definition sample_material (mode : MessageSecurityMode) : SubscriberSecurityMaterial :=
  {| material_mode := mode; material_policy := PubSubAes128Ctr |}.
Definition sample_message (n : Z) : UadpNetworkMessage :=
  {| publisher_id := PubString (str "pub"); writer_group_id := 7; network_message_number := 0; nm_sequence_number := n;
     dataset_messages := [{| dataset_writer_id := 10; ds_sequence_number := 3; ds_timestamp := None; ds_status := Some 0x80020000;
                             ds_fields := [VUInt32 5; VBoolean true] |}] |}.
Definition sample_random (n : Z) : bytes := repeat 0 (Z.to_nat n).
Definition sample_datagram (mode : MessageSecurityMode) (n : Z) : bytes :=
  match encode_network_message sample_random {| codec_mode := mode; codec_policy := PubSubAes128Ctr; key_sets := [sample_key 1] |}
          (sample_message n) with
  | Ret (Ok (Some bs)) => bs
  | _ => []
  end.

Lemma sample_message_ok n : is_uint 2 n -> network_ok default_pubsub_options 10 (sample_message n).
Proof.
  intros Hn. split.
  - split; [split; [repeat constructor|by vm_compute]|]. do 3 (split; [exact Hn || by vm_compute|]).
    split; [constructor; [by vm_compute|constructor]|by vm_compute].
  - constructor; [|constructor]. split; [by vm_compute|]. split; [exact I|]. split; [by vm_compute|]. split; [|by vm_compute].
    constructor; [by vm_compute|]. constructor; [exact I|constructor].
Qed.
Lemma secured_message_round_trip_witness :
  exists bs, sample_datagram ModeSignAndEncrypt 5 = bs /\ bs <> []
    /\ exists s, processor_decode default_pubsub_options 10 (sample_material ModeSignAndEncrypt) sample_group sample_group bs
                   replay_group_default = Ret (s, Ok (canonical (sample_message 5))).
Proof.
  assert (network_ok default_pubsub_options 10 (sample_message 5)) as Hm by (by apply sample_message_ok).
  destruct (secured_message_round_trip default_pubsub_options 10 (sample_material ModeSignAndEncrypt) sample_random sample_group sample_group
    (sample_message 5) (or_introl eq_refl) (or_intror eq_refl) ltac:(by vm_compute) (or_introl eq_refl) eq_refl Hm ltac:(by vm_compute))
    as (bs & Hbs & Hd).
  exists bs. assert (sample_datagram ModeSignAndEncrypt 5 = bs) as Heq by (unfold sample_datagram; cbn [sample_material sample_group current_key_set material_mode material_policy] in Hbs; by rewrite Hbs).
  split; [exact Heq|]. split; [rewrite <- Heq; by vm_compute|]. apply Hd. rewrite <- Heq. by vm_compute.
Defined.

Lemma delivered_is_authentic_witness :
  exists s m, processor_decode default_pubsub_options 10 (sample_material ModeSign) sample_group sample_group
                (sample_datagram ModeSign 5) replay_group_default = Ret (s, Ok m)
    /\ exists token, authentic sample_group (sample_datagram ModeSign 5) token /\ candidates_contain (candidates_of sample_group) token = true.
Proof.
  eexists _, _. assert (processor_decode default_pubsub_options 10 (sample_material ModeSign) sample_group sample_group
                (sample_datagram ModeSign 5) replay_group_default = _) as Hd by (vm_compute; reflexivity).
  split; [exact Hd|]. exact (delivered_is_authentic default_pubsub_options 10 (sample_material ModeSign) _ _ _ _ _ _ (or_introl eq_refl) Hd).
Defined.

(** The same datagram twice, one before it that arrives late, and a rotation. *)
Definition sample_events : list rx_event :=
  [Receive (sample_datagram ModeSign 5) []; Receive (sample_datagram ModeSign 5) []; Receive (sample_datagram ModeSign 4) [];
   Rotate (fun _ n => repeat 1 (Z.to_nat n))].
Definition sample_start : Receiver := {| rx_group := sample_group; rx_replay := replay_group_default; rx_log := [] |}.
Definition sample_end : Receiver :=
  match rx_run default_pubsub_options 10 (sample_material ModeSign) sample_events sample_start with Ret r => r | _ => sample_start end.
Lemma datagrams_accepted_once_witness :
  rx_run default_pubsub_options 10 (sample_material ModeSign) sample_events sample_start = Ret sample_end
    /\ numbers_of 1 (PubString (str "pub"), 7) (rx_log sample_end) = [4; 5]
    /\ exists abs, numbering (numbers_of 1 (PubString (str "pub"), 7) (rx_log sample_end)) abs.
Proof.
  assert (rx_run default_pubsub_options 10 (sample_material ModeSign) sample_events sample_start = Ret sample_end) as Hrun by (vm_compute; reflexivity).
  split; [exact Hrun|]. split; [vm_compute; reflexivity|].
  refine (datagrams_accepted_once default_pubsub_options 10 (sample_material ModeSign) sample_group sample_events _ _ _ _ _ Hrun _ _); [reflexivity|by vm_compute| |by vm_compute].
  assert (forall n, n = 4 \/ n = 5 -> Forall is_byte (sample_datagram ModeSign n)) as Hb
    by (intros n [-> | ->]; vm_compute; repeat constructor; discriminate).
  constructor; [apply Hb; auto|]. constructor; [apply Hb; auto|]. constructor; [apply Hb; auto|]. by repeat constructor.
Defined.

Lemma replay_window_unbounded_witness :
  window_run window_new 1 [65535; 0; 65534; 0; 200; 65000] = true :: unbounded_run 65535 [65535] [0; 65534; 0; 200; 65000]
  /\ window_run window_new 1 [65535; 0; 65534; 0; 200; 65000] = [true; true; true; false; true; false].
Proof.
  split; [|vm_compute; reflexivity]. apply replay_window_unbounded; [done|]. repeat constructor; done.
Defined.
