(* ===== verification/FanOut.v ===== *)
(** * The distribution of a request over the node managers

    [invoke_service_concurrently_mut] of server/src/session/services/mod.rs: the items of a request
    are handed to the first node manager that takes them.  The facts say that the groups are disjoint,
    that a manager's group holds exactly the items that it is the first to take, and what picking the
    items of a group and putting them back does. *)

From S2P Require Import Prelude.
#[local] Open Scope Z_scope.

(** [refs] are the positions of the items; for each manager in turn, those it takes are swapped to
    the front and split off. *)

Definition swap {A} (i j : nat) (l : list A) : list A :=
  match l !! i, l !! j with Some x, Some y => <[i := y]> (<[j := x]> l) | _, _ => l end.
Fixpoint partition_loop {A} (f : A -> bool) (n i end_idx : nat) (refs : list A) : list A * nat :=
  match n with
  | O => (refs, end_idx)
  | S n' =>
      match refs !! i with
      | Some x => if f x then partition_loop f n' (S i) (S end_idx) (swap end_idx i refs) else partition_loop f n' (S i) end_idx refs
      | None => (refs, end_idx)
      end
  end.
Definition split_group {A} (f : A -> bool) (refs : list A) : list A * list A :=
  let '(refs, end_idx) := partition_loop f (length refs) 0 0 refs in (take end_idx refs, drop end_idx refs).
Fixpoint groups {A T} (filter : A -> T -> bool) (managers : list T) (i : nat) (refs : list A) : list (nat * list A) :=
  match managers with
  | [] => []
  | m :: managers' =>
      let '(group, refs) := split_group (fun r => filter r m) refs in
      match group with [] => [] | _ => [(i, group)] end ++ groups filter managers' (S i) refs
  end.
(** The items at the positions of a group, and putting them back. *)
Fixpoint pick {A} (items : list A) (refs : list nat) : list A :=
  match refs with [] => [] | r :: refs' => match items !! r with Some x => x :: pick items refs' | None => pick items refs' end end.
Fixpoint put_back {A} (items : list A) (refs : list nat) (new : list A) : list A :=
  match refs, new with r :: refs', x :: new' => put_back (<[r := x]> items) refs' new' | _, _ => items end.

(** The first manager that takes an item. *)
Fixpoint first_taker {A T} (filter : A -> T -> bool) (managers : list T) (i : nat) (r : A) : option nat :=
  match managers with [] => None | m :: managers' => if filter r m then Some i else first_taker filter managers' (S i) r end.
Definition refs_of {A} (gs : list (nat * list A)) : list A := concat (map snd gs).

(** ** Partitioning *)

Lemma swap_front {A} (l l' : list A) (x y : A) (rest : list A) :
  swap (length l) (length l + S (length l')) (l ++ y :: l' ++ x :: rest) = l ++ x :: l' ++ y :: rest.
Proof.
  unfold swap.
  assert ((l ++ y :: l' ++ x :: rest) !! (length l) = Some y) as -> by apply list_lookup_middle, eq_refl.
  assert ((l ++ y :: l' ++ x :: rest) !! (length l + S (length l'))%nat = Some x) as ->.
  { rewrite lookup_app_r by lia. replace (_ - _)%nat with (S (length l')) by lia. simpl. by apply list_lookup_middle. }
  rewrite insert_app_r. simpl. replace (length l') with (length l' + 0)%nat by lia. rewrite insert_app_r. simpl.
  replace (length l) with (length l + 0)%nat at 1 by lia. by rewrite insert_app_r.
Qed.

Lemma partition_loop_spec {A} (f : A -> bool) (rest : list A) : forall taken others,
  Forall (fun x => f x = true) taken -> Forall (fun x => f x = false) others ->
  exists taken' others',
    partition_loop f (length rest) (length taken + length others) (length taken) (taken ++ others ++ rest)
    = (taken' ++ others', length taken')
    /\ Forall (fun x => f x = true) taken' /\ Forall (fun x => f x = false) others'
    /\ taken' ++ others' ≡ₚ taken ++ others ++ rest.
Proof.
  induction rest as [|x rest IH]; intros taken others Ht Ho; simpl.
  { exists taken, others. by rewrite app_nil_r. }
  rewrite app_assoc, list_lookup_middle by by rewrite length_app.
  destruct (f x) eqn:Hx.
  - destruct others as [|y others].
    + rewrite app_nil_r. simpl. rewrite Nat.add_0_r.
      assert (swap (length taken) (length taken) (taken ++ x :: rest) = taken ++ [] ++ x :: rest) as ->.
      { unfold swap. rewrite list_lookup_middle by done. rewrite list_insert_insert_eq.
        by rewrite list_insert_id by by apply list_lookup_middle. }
      destruct (IH (taken ++ [x]) []) as (t' & o' & Heq & H1 & H2 & Hp).
      { apply Forall_app; auto. } { done. }
      exists t', o'. rewrite length_app in Heq. simpl in Heq. rewrite Nat.add_0_r, Nat.add_1_r in Heq.
      simpl in Heq. rewrite <-app_assoc in Heq. split; [exact Heq|]. split_and!; [done..|]. rewrite Hp. simpl.
      by rewrite <-app_assoc.
    + inversion Ho; subst. rewrite <-app_assoc. simpl.
      rewrite swap_front.
      destruct (IH (taken ++ [x]) (others ++ [y])) as (t' & o' & Heq & H3 & H4 & Hp).
      { apply Forall_app; auto. } { apply Forall_app; auto. }
      exists t', o'. rewrite !length_app in Heq. simpl in Heq.
      replace (length taken + 1 + (length others + 1))%nat with (S (length taken + S (length others))) in Heq by lia.
      rewrite Nat.add_1_r, <-!app_assoc in Heq. simpl in Heq. split; [exact Heq|]. split_and!; [done..|].
      rewrite Hp, <-!app_assoc. simpl. f_equiv. rewrite <-!Permutation_middle, (Permutation_swap y x). simpl. f_equiv.
  - destruct (IH taken (others ++ [x])) as (t' & o' & Heq & H1 & H2 & Hp); [done|apply Forall_app; auto|].
    exists t', o'. rewrite length_app in Heq. simpl in Heq.
    replace (length taken + (length others + 1))%nat with (S (length taken + length others)) in Heq by lia.
    rewrite <-!app_assoc in Heq. simpl in Heq. rewrite <-app_assoc. split; [exact Heq|]. split_and!; [done..|].
    by rewrite Hp, <-!app_assoc.
Qed.

Lemma split_group_spec {A} (f : A -> bool) (refs g rest : list A) : split_group f refs = (g, rest) ->
  Forall (fun x => f x = true) g /\ Forall (fun x => f x = false) rest /\ g ++ rest ≡ₚ refs.
Proof.
  unfold split_group. destruct (partition_loop_spec f refs [] []) as (t & o & Heq & Ht & Ho & Hp); [done..|].
  simpl in Heq, Hp. rewrite Heq. rewrite take_app_length, drop_app_length. by intros [= <- <-].
Qed.

(** ** Groups *)

Section groups.
Context {A T : Type} (f : A -> T -> bool).

Lemma first_taker_ge managers i r k : first_taker f managers i r = Some k -> (i <= k)%nat.
Proof.
  revert i. induction managers as [|m ms IH]; intros i; simpl; [done|].
  destruct (f r m); [by intros [= <-]|]. intros H%IH. lia.
Qed.
Lemma first_taker_takes managers i r k : first_taker f managers i r = Some k ->
  exists m, managers !! (k - i)%nat = Some m /\ f r m = true.
Proof.
  revert i. induction managers as [|m ms IH]; intros i; simpl; [done|].
  destruct (f r m) eqn:Hf; [intros [= <-]; rewrite Nat.sub_diag; eauto|].
  intros H. pose proof (first_taker_ge _ _ _ _ H). destruct (IH _ H) as (m' & Hm & Hf').
  exists m'. by replace (k - i)%nat with (S (k - S i)) by lia.
Qed.

Lemma groups_spec managers : forall i refs, NoDup refs ->
  let gs := groups f managers i refs in
  (forall k g r, (k, g) ∈ gs -> (r ∈ g <-> r ∈ refs /\ first_taker f managers i r = Some k))
  /\ (forall r k, r ∈ refs -> first_taker f managers i r = Some k -> exists g, (k, g) ∈ gs /\ r ∈ g)
  /\ NoDup (map fst gs) /\ NoDup (refs_of gs) /\ (forall k g, (k, g) ∈ gs -> (i <= k < i + length managers)%nat).
Proof.
  induction managers as [|m ms IH]; intros i refs Hnd; simpl.
  { split_and!; [by intros ??? ?%not_elem_of_nil|done|constructor|constructor|by intros ?? ?%not_elem_of_nil]. }
  destruct (split_group (fun r => f r m) refs) as [g rest] eqn:Hs.
  destruct (split_group_spec _ _ _ _ Hs) as (Hg & Hrest & Hp). rewrite Forall_forall in Hg, Hrest.
  rewrite <-Hp in Hnd. apply NoDup_app in Hnd as (Hndg & Hdis & Hndr).
  destruct (IH (S i) rest Hndr) as (H1 & H2 & H3 & H4 & H5).
  assert (forall r, r ∈ refs <-> r ∈ g \/ r ∈ rest) as Hin by (intros r; by rewrite <-Hp, elem_of_app).
  set (here := match g with [] => [] | _ => [(i, g)] end).
  assert (forall k l, (k, l) ∈ here <-> k = i /\ l = g /\ g <> []) as Hhere.
  { intros k l. unfold here. destruct g; [rewrite elem_of_nil; naive_solver|]. rewrite list_elem_of_singleton. naive_solver. }
  split_and!.
  - intros k l r [(-> & -> & _)%Hhere|Hl]%elem_of_app.
    + destruct (f r m) eqn:Hf.
      * split; [intros Hr; split; [apply Hin; by left|done]|]. intros [[?|?%Hrest]%Hin _]; [done|congruence].
      * split; [intros ?%Hg; congruence|]. intros [_ ?%first_taker_ge]. lia.
    + rewrite (H1 _ _ _ Hl). pose proof (H5 _ _ Hl). destruct (f r m) eqn:Hf.
      * split; [intros [?%Hrest _]; congruence|intros [_ [= ->]]; lia].
      * split; [intros [Hr ->]; split; [apply Hin; by right|done]|]. intros [[?%Hg|?]%Hin ?]; [congruence|done].
  - intros r k Hr. destruct (f r m) eqn:Hf.
    + intros [= <-]. exists g. assert (r ∈ g) by (apply Hin in Hr as [?|?%Hrest]; [done|congruence]).
      split; [|done]. apply elem_of_app. left. apply Hhere. split_and!; [done..|]. by intros ->; apply not_elem_of_nil in H.
    + intros Hk. apply Hin in Hr as [?%Hg|Hr]; [congruence|]. destruct (H2 _ _ Hr Hk) as (l & Hl & Hrl).
      exists l. split; [|done]. apply elem_of_app. by right.
  - rewrite map_app. apply NoDup_app. split_and!; [unfold here; destruct g; [constructor|apply NoDup_singleton]| |done].
    intros k ([k' l] & -> & (Hk & _ & _)%Hhere)%list_elem_of_fmap ([k2 l2] & Heq & ?%H5)%list_elem_of_fmap. simpl in *. lia.
  - unfold refs_of. rewrite map_app, concat_app. apply NoDup_app.
    assert (concat (map snd here) = g) as -> by (unfold here; destruct g; simpl; by rewrite ?app_nil_r).
    split_and!; [done| |done].
    intros r Hr (l & ([k l'] & -> & Hl)%list_elem_of_In%list_elem_of_fmap & Hrl%list_elem_of_In)%list_elem_of_In%in_concat. by apply (H1 _ _ _ Hl) in Hrl as [?%(Hdis _ Hr) _].
  - intros k l [[-> _]%Hhere|?%H5]%elem_of_app; lia.
Qed.
End groups.

(** ** Picking and putting back *)

Lemma groups_nil {A T} (f : A -> T -> bool) managers i : groups f managers i [] = [].
Proof. revert i. induction managers as [|m ms IH]; intros i; simpl; [done|]. apply IH. Qed.
Lemma groups_single {A T} (f : A -> T -> bool) managers i (r : A) :
  groups f managers i [r] = match first_taker f managers i r with Some k => [(k, [r])] | None => [] end.
Proof.
  revert i. induction managers as [|m ms IH]; intros i; simpl; [done|]. unfold split_group. simpl.
  destruct (f r m); simpl; [by rewrite groups_nil|apply IH].
Qed.

(** The manager of an item, found. *)
Lemma first_taker_find {A T} (f : A -> T -> bool) (h : T -> bool) managers r i : (forall m, f r m = h m) ->
  match first_taker f managers i r with
  | Some k => exists m, managers !! (k - i)%nat = Some m /\ find h managers = Some m
  | None => find h managers = None
  end.
Proof.
  intros Hh. revert i. induction managers as [|m ms IH]; intros i; simpl; [done|]. rewrite <-Hh.
  destruct (f r m); [exists m; by rewrite Nat.sub_diag|]. specialize (IH (S i)).
  destruct (first_taker f ms (S i) r) as [k|] eqn:Hk; [|done]. destruct IH as (m' & Hm & Hf).
  apply first_taker_ge in Hk. exists m'. by replace (k - i)%nat with (S (k - S i)) by lia.
Qed.
Lemma find_replaced {A T} (f : A -> T -> bool) (h : T -> bool) managers r i k m : (forall m, f r m = h m) ->
  first_taker f managers i r = Some k -> h m = true -> find h (<[(k - i)%nat := m]> managers) = Some m.
Proof.
  intros Hh. revert i. induction managers as [|m' ms IH]; intros i; simpl; [done|]. rewrite Hh. destruct (h m') eqn:Hm'.
  - intros [= <-] Hm. rewrite Nat.sub_diag. simpl. by rewrite Hm.
  - intros Hk Hm. pose proof (first_taker_ge _ _ _ _ _ Hk). specialize (IH _ Hk Hm).
    replace (k - i)%nat with (S (k - S i)) by lia. simpl. by rewrite Hm'.
Qed.

Section items.
Context {A : Type}.
Implicit Types (items new : list A) (refs : list nat).

Lemma pick_spec items refs : Forall (fun r => (r < length items)%nat) refs ->
  Forall2 (fun r x => items !! r = Some x) refs (pick items refs).
Proof. induction 1 as [|r refs Hr _ IH]; simpl; [constructor|]. apply lookup_lt_is_Some_2 in Hr as [x Hx]. rewrite Hx. by constructor. Qed.
Lemma pick_of items refs l : Forall2 (fun r x => items !! r = Some x) refs l -> pick items refs = l.
Proof. induction 1 as [|r x refs l Hx _ IH]; simpl; [done|]. by rewrite Hx, IH. Qed.
Lemma pick_same items items' refs : (forall r, r ∈ refs -> items !! r = items' !! r) -> pick items refs = pick items' refs.
Proof.
  induction refs as [|r refs IH]; intros H; simpl; [done|]. rewrite (H r) by left. by rewrite IH by (intros; apply H; by right).
Qed.

Lemma put_back_other items refs new r : r ∉ refs -> put_back items refs new !! r = items !! r.
Proof.
  revert items new. induction refs as [|q refs IH]; intros items [|x new] H; simpl; try done.
  apply not_elem_of_cons in H as [Hq H]. rewrite IH by done. by apply list_lookup_insert_ne.
Qed.
Lemma put_back_length items refs new : length (put_back items refs new) = length items.
Proof. revert items new. induction refs as [|q refs IH]; intros items [|x new]; simpl; try done. by rewrite IH, length_insert. Qed.
Lemma put_back_at items refs new : NoDup refs -> Forall (fun r => (r < length items)%nat) refs -> length new = length refs ->
  Forall2 (fun r x => put_back items refs new !! r = Some x) refs new.
Proof.
  intros Hnd. revert items new. induction Hnd as [|r refs Hr _ IH]; intros items [|x new] Hb Hl; simpl; try done.
  inversion Hb; subst. constructor.
  - rewrite put_back_other by done. by apply list_lookup_insert_eq.
  - apply IH; [|simpl in Hl; lia]. by rewrite length_insert.
Qed.
Lemma pick_put_back items refs new : NoDup refs -> Forall (fun r => (r < length items)%nat) refs -> length new = length refs ->
  pick (put_back items refs new) refs = new.
Proof. intros. by apply pick_of, put_back_at. Qed.
Lemma elem_of_pick items refs x : x ∈ pick items refs -> exists r, r ∈ refs /\ items !! r = Some x.
Proof.
  induction refs as [|r refs IH]; simpl; [by intros ?%not_elem_of_nil|].
  destruct (items !! r) as [y|] eqn:Hy; [intros [->|H]%elem_of_cons; [exists r; split; [left|done]|]|intros H];
    destruct (IH H) as (q & Hq & Hx); exists q; (split; [by right|done]).
Qed.

Lemma pick_related (R : A -> A -> Prop) items items' refs :
  Forall (fun r => (r < length items)%nat) refs -> length items' = length items ->
  Forall2 R (pick items refs) (pick items' refs) <->
  (forall r x y, r ∈ refs -> items !! r = Some x -> items' !! r = Some y -> R x y).
Proof.
  intros H Hl. induction H as [|r refs Hr _ IH]; simpl.
  { split; [by intros _ ??? ?%not_elem_of_nil|constructor]. }
  destruct (lookup_lt_is_Some_2 items r Hr) as [x Hx]. destruct (lookup_lt_is_Some_2 items' r) as [y Hy]; [lia|].
  rewrite Hx, Hy, Forall2_cons, IH. split.
  - intros [Hxy Hrest] q x' y' [->|Hq]%elem_of_cons; [congruence|by apply Hrest].
  - intros Hall. split; [apply (Hall r); [left|done..]|intros q x' y' Hq; apply (Hall q); by right].
Qed.
End items.

(** The groups of the items of a request: everything the services need of them. *)
Record distribution {T} (filter : nat -> T -> bool) (managers : list T) (n : nat) (gs : list (nat * list nat)) : Prop := {
  dist_bound k g : (k, g) ∈ gs -> Forall (fun r => (r < n)%nat) g;
  dist_member k g r : (k, g) ∈ gs -> (r ∈ g <-> (r < n)%nat /\ first_taker filter managers 0 r = Some k);
  dist_some r k : (r < n)%nat -> first_taker filter managers 0 r = Some k -> exists g, (k, g) ∈ gs /\ r ∈ g;
  dist_manager k g : (k, g) ∈ gs -> is_Some (managers !! k);
  dist_keys : NoDup (map fst gs);
  dist_refs : NoDup (refs_of gs)
}.
Lemma dist_find {T} (filter : nat -> T -> bool) managers n gs (h : T -> bool) r m :
  distribution filter managers n gs -> (r < n)%nat -> (forall m, filter r m = h m) ->
  (exists k g, (k, g) ∈ gs /\ r ∈ g /\ managers !! k = Some m) <-> find h managers = Some m.
Proof.
  intros Hd Hr Hh. pose proof (first_taker_find filter h managers r 0 Hh) as Hf. split.
  - intros (k & g & Hin & [_ Hk]%(dist_member _ _ _ _ Hd _ _ _ Hin) & Hm). rewrite Hk in Hf.
    destruct Hf as (m' & Hm' & ->). rewrite Nat.sub_0_r in Hm'. congruence.
  - intros Hfind. destruct (first_taker filter managers 0 r) as [k|] eqn:Hk; [|congruence].
    destruct Hf as (m' & Hm' & Hf'). rewrite Nat.sub_0_r in Hm'. destruct (dist_some _ _ _ _ Hd r k Hr Hk) as (g & Hin & Hg).
    exists k, g. split_and!; [done..|]. congruence.
Qed.
Lemma dist_none {T} (filter : nat -> T -> bool) managers n gs (h : T -> bool) r :
  distribution filter managers n gs -> (r < n)%nat -> (forall m, filter r m = h m) -> r ∉ refs_of gs <-> find h managers = None.
Proof.
  intros Hd Hr Hh. pose proof (first_taker_find filter h managers r 0 Hh) as Hf.
  assert (r ∈ refs_of gs <-> is_Some (first_taker filter managers 0 r)) as ->.
  { split.
    - intros (l & ([k l'] & -> & Hl)%list_elem_of_In%list_elem_of_fmap & Hrl%list_elem_of_In)%list_elem_of_In%in_concat.
      apply (dist_member _ _ _ _ Hd _ _ _ Hl) in Hrl as [_ ->]. by eexists.
    - intros [k Hk]. destruct (dist_some _ _ _ _ Hd r k Hr Hk) as (g & Hin & Hg).
      apply list_elem_of_In, in_concat. exists g. split; [|by apply list_elem_of_In].
      apply list_elem_of_In, list_elem_of_fmap. by exists (k, g). }
  destruct (first_taker filter managers 0 r) as [k|]; [destruct Hf as (m & _ & ->)|]; naive_solver.
Qed.
Lemma groups_distribution {T} (filter : nat -> T -> bool) managers n :
  distribution filter managers n (groups filter managers 0 (seq 0 n)).
Proof.
  destruct (groups_spec filter managers 0 (seq 0 n)) as (H1 & H2 & H3 & H4 & H5); [apply NoDup_seq|].
  assert (forall r, r ∈ seq 0 n <-> (r < n)%nat) as Hin by (intros r; rewrite elem_of_seq; lia).
  split; [| |intros ?? ?%Hin; by apply H2| |done..].
  - intros k g Hg. apply Forall_forall. intros r Hr. by apply (H1 _ _ _ Hg) in Hr as [?%Hin _].
  - intros k g r Hg. by rewrite (H1 _ _ _ Hg), Hin.
  - intros k g Hg%H5. apply lookup_lt_is_Some. lia.
Qed.
