(* ===== verification/Attributes.v ===== *)
(** * Attributes of nodes

    The [Node] implementations of async-opcua-nodes/src (base.rs and a file per node class): reading an
    attribute with [get_attribute_max_age] and replacing one with [set_attribute], the value of a
    variable in the encodings a client may ask for.

    What extension objects hold is behind [Bodies]: the bodies of role permissions, of data type
    definitions and of ranges, and the encoders of the generated types. *)

From S2P Require Import Prelude Text Float StatusCode NumericRange Variant NodeIdText VariantConvert TypeTree Nodes Rbac MonitoredItem.
#[local] Open Scope Z_scope.

Definition BadDataTypeIdUnknown : StatusCode := 0x80110000.
Definition BadDataEncodingUnsupported : StatusCode := 0x80390000.

(** ** Bodies of extension objects *)

Inductive BuiltInDataEncoding : Set := EncBinary | EncXML | EncJSON.

Class Bodies {D : DynEncodable} := {
  role_permission_body : RolePermissionType -> dyn;
  (** [inner_as::<T>()]: the body when it is one of this type. *)
  body_role_permission : dyn -> option RolePermissionType;
  structure_body : StructureDefinition -> dyn;
  enum_body : EnumDefinition -> dyn;
  body_structure : dyn -> option StructureDefinition;
  body_enum : dyn -> option EnumDefinition;
  body_range : dyn -> option (f64 * f64);
  body_data_type : dyn -> ExpandedNodeId;
  override_encoding : dyn -> option BuiltInDataEncoding;
  (** The body of the text that the generated encoder writes, unless it fails. *)
  encoded_as_xml : dyn -> option dyn;
  encoded_as_json : dyn -> option dyn;
  feature_xml : bool;
  feature_json : bool
}.
(** A body is of the type it was made of. *)
Class BodiesLaws {D : DynEncodable} (B : Bodies) := {
  body_role_permission_of r : body_role_permission (role_permission_body r) = Some r;
  body_structure_of s : body_structure (structure_body s) = Some s;
  body_enum_of e : body_structure (enum_body e) = None /\ body_enum (enum_body e) = Some e
}.

Section attributes.
Context {D : DynEncodable} {B : Bodies} {TC : TextCodecs} {RE : NodeIdRegex} {DT : DateText}.

(** [DataValue::value_only] and [DataValue::new_now]. *)
Definition value_only (v : Variant) : DataValue := mkDataValue (Some v) None None None None None.
Definition new_now (now : DateTime) (v : Variant) : DataValue :=
  mkDataValue (Some v) (Some Good) (Some now) (Some 0) (Some now) (Some 0).

(** ** Conversions *)

Definition node_class_number (c : NodeClass) : Z :=
  match c with
  | NcUnspecified => 0 | NcObject => 1 | NcVariable => 2 | NcMethod => 4 | NcObjectType => 8 | NcVariableType => 16
  | NcReferenceType => 32 | NcDataType => 64 | NcView => 128
  end.
Definition node_class_of (z : Z) : option NodeClass :=
  match z with
  | 1 => Some NcObject | 2 => Some NcVariable | 4 => Some NcMethod | 8 => Some NcObjectType | 16 => Some NcVariableType
  | 32 => Some NcReferenceType | 64 => Some NcDataType | 128 => Some NcView | _ => None
  end.
Definition role_permissions_variant (l : list RolePermissionType) : Variant :=
  VArray (mkArray TExtensionObject (map (fun r => VExtensionObject (Some (role_permission_body r))) l) None).
Definition role_permission_of (v : Variant) : result RolePermissionType StatusCode :=
  match v with
  | VExtensionObject b => ok_or (let* d := b in body_role_permission d) BadTypeMismatch
  | _ => Err BadTypeMismatch
  end.
Fixpoint collect {A B E} (f : A -> result B E) (l : list A) : result (list B) E :=
  match l with [] => Ok [] | x :: l' => let? y := f x in let? ys := collect f l' in Ok (y :: ys) end.

Definition from_extension_object (b : option dyn) : result DataTypeDefinition StatusCode :=
  match b with
  | None => Err BadDataTypeIdUnknown
  | Some d =>
      match body_structure d, body_enum d with
      | Some s, _ => Ok (DtStructure s)
      | None, Some e => Ok (DtEnum e)
      | None, None => Err BadDataTypeIdUnknown
      end
  end.
Definition into_extension_object (d : DataTypeDefinition) : option dyn :=
  Some (match d with DtStructure s => structure_body s | DtEnum e => enum_body e end).

(** [<Vec<u32>>::try_from_variant]. *)
Definition u32_try_from_variant (v : Variant) : outcome (result Z StatusCode) :=
  let! c := cast_to v TUInt32 in Ret (match c with VUInt32 z => Ok z | _ => Err BadTypeMismatch end).
Fixpoint u32s_try_from (l : list Variant) : outcome (result (list Z) StatusCode) :=
  match l with
  | [] => Ret (Ok [])
  | v :: l' => let^ z := u32_try_from_variant v in let^ zs := u32s_try_from l' in Ret (Ok (z :: zs))
  end.
Definition vec_u32_try_from_variant (v : Variant) : outcome (result (list Z) StatusCode) :=
  match v with
  | VEmpty => Ret (Err BadTypeMismatch)
  | VArray a => u32s_try_from (values a)
  | _ => let^ z := u32_try_from_variant v in Ret (Ok [z])
  end.

(** ** The value of a variable *)

Definition encode_extension_object (kind : BuiltInDataEncoding) (encode : dyn -> option dyn) (b : option dyn)
    : result (option dyn) StatusCode :=
  match b with
  | None => Ok None
  | Some body =>
      match override_encoding body, kind with
      | Some EncXML, EncXML | Some EncJSON, EncJSON => Ok (Some body)
      | Some _, _ => Err BadDataEncodingUnsupported
      | None, _ => let? e := ok_or (encode body) BadDataEncodingUnsupported in Ok (Some e)
      end
  end.
Definition encode_extension_object_values (encode : option dyn -> result (option dyn) StatusCode) (v : Variant) : result Variant StatusCode :=
  match v with
  | VExtensionObject b => let? e := encode b in Ok (VExtensionObject e)
  | VArray a =>
      if bool_decide (value_type a = TExtensionObject) then
        let? l := collect (fun v => match v with
                                    | VExtensionObject b => let? e := encode b in Ok (VExtensionObject e)
                                    | _ => Err BadDataEncodingUnsupported
                                    end) (values a) in
        Ok (VArray (mkArray (value_type a) l (dimensions a)))
      else Err BadDataEncodingUnsupported
  | _ => Err BadDataEncodingUnsupported
  end.
Definition encode_value_for_data_encoding (v : Variant) (e : DataEncoding) : result Variant StatusCode :=
  match e with
  | DEBinary => Ok v
  | DEXML => if feature_xml then encode_extension_object_values (encode_extension_object EncXML encoded_as_xml) v
             else Err BadDataEncodingUnsupported
  | DEJSON => if feature_json then encode_extension_object_values (encode_extension_object EncJSON encoded_as_json) v
              else Err BadDataEncodingUnsupported
  | DEOther _ => Err BadDataEncodingUnsupported
  end.

(** [Variable::value]. *)
Definition strip_timestamps (t : TimestampsToReturn) (d : DataValue) : DataValue :=
  match t with
  | Source => mkDataValue (dv_value d) (dv_status d) (source_timestamp d) (source_picoseconds d) None None
  | Server => mkDataValue (dv_value d) (dv_status d) None None (server_timestamp d) (server_picoseconds d)
  | Neither => mkDataValue (dv_value d) (dv_status d) None None None None
  | Both | InvalidTimestamps => d
  end.
Definition with_times_of (d : DataValue) (v : option Variant) (s : option StatusCode) : DataValue :=
  mkDataValue v s (source_timestamp d) (source_picoseconds d) (server_timestamp d) (server_picoseconds d).
Definition variable_value (t : TimestampsToReturn) (r : NumericRange) (e : DataEncoding) (v : VariableOf Variant) : outcome DataValue :=
  let d := value v in
  let! result :=
    match dv_value d with
    | None => Ret (with_times_of d None None)
    | Some val =>
        let! part := range_of val r in
        Ret (match (let? val := part in encode_value_for_data_encoding val e) with
             | Ok val => with_times_of d (Some val) (dv_status d)
             | Err s => with_times_of d None (Some s)
             end)
    end in
  Ret (strip_timestamps t result).

Definition access_level_ex (v : VariableOf Variant) : Z :=
  Z.lor (Z.land (Z.shiftl (access_level_ex_extended v) 8) u32_max) (access_level v).
Definition set_access_level_ex_attribute (x : Z) (v : VariableOf Variant) : VariableOf Variant :=
  mkVariable (variable_base v) (variable_data_type v) (historizing v) (value_rank v) (value v) (x mod (u8_max + 1))
    (Z.shiftr x 8) (user_access_level v) (array_dimensions v) (minimum_sampling_interval v).

(** ** Reading attributes *)

Definition base_get (a : AttributeId) (b : Base) : option DataValue :=
  match a with
  | AtNodeClass => Some (value_only (VInt32 (node_class_number (base_node_class b))))
  | AtNodeId => Some (value_only (VNodeId (base_node_id b)))
  | AtBrowseName => Some (value_only (VQualifiedName (browse_name b)))
  | AtDisplayName => Some (value_only (VLocalizedText (display_name b)))
  | AtDescription => option_map (fun d => value_only (VLocalizedText d)) (description b)
  | AtWriteMask => option_map (fun m => value_only (VUInt32 m)) (write_mask b)
  | AtUserWriteMask => option_map (fun m => value_only (VUInt32 m)) (user_write_mask b)
  | AtRolePermissions => option_map (fun l => value_only (role_permissions_variant l)) (role_permissions b)
  | AtAccessRestrictions => option_map (fun r => value_only (VUInt16 (r mod (u16_max + 1)))) (access_restrictions b)
  | _ => None
  end.
Definition variable_get (t : TimestampsToReturn) (a : AttributeId) (r : NumericRange) (e : DataEncoding) (v : VariableOf Variant)
    : outcome (option DataValue) :=
  match a with
  | AtValue => let! d := variable_value t r e v in Ret (Some d)
  | AtDataType => Ret (Some (value_only (VNodeId (variable_data_type v))))
  | AtHistorizing => Ret (Some (value_only (VBoolean (historizing v))))
  | AtValueRank => Ret (Some (value_only (VInt32 (value_rank v))))
  | AtAccessLevel => Ret (Some (value_only (VByte (from_bits_truncate access_level_all (access_level v)))))
  | AtAccessLevelEx => Ret (Some (value_only (VUInt32 (access_level_ex v))))
  | AtUserAccessLevel => Ret (Some (value_only (VByte (from_bits_truncate access_level_all (user_access_level v)))))
  | AtArrayDimensions => Ret (option_map (fun d => value_only (VArray (mkArray TUInt32 (map VUInt32 d) None))) (array_dimensions v))
  | AtMinimumSamplingInterval => Ret (option_map (fun i => value_only (VDouble i)) (minimum_sampling_interval v))
  | _ => Ret (base_get a (variable_base v))
  end.
Definition variable_type_get (a : AttributeId) (v : VariableTypeOf Variant) : option DataValue :=
  match a with
  | AtValue => vt_value v
  | AtDataType => Some (value_only (VNodeId (vt_data_type v)))
  | AtIsAbstract => Some (value_only (VBoolean (vt_is_abstract v)))
  | AtValueRank => Some (value_only (VInt32 (vt_value_rank v)))
  | AtArrayDimensions => option_map (fun d => value_only (VArray (mkArray TUInt32 (map VUInt32 d) None))) (vt_array_dimensions v)
  | _ => base_get a (variable_type_base v)
  end.

Definition object_get (a : AttributeId) (o : Object) : option DataValue :=
  match a with
  | AtEventNotifier => Some (value_only (VByte (object_event_notifier o)))
  | _ => base_get a (object_base o)
  end.
Definition object_type_get (a : AttributeId) (o : ObjectType) : option DataValue :=
  match a with
  | AtIsAbstract => Some (value_only (VBoolean (object_type_is_abstract o)))
  | _ => base_get a (object_type_base o)
  end.
Definition reference_type_get (a : AttributeId) (r : ReferenceType) : option DataValue :=
  match a with
  | AtSymmetric => Some (value_only (VBoolean (symmetric r)))
  | AtIsAbstract => Some (value_only (VBoolean (reference_type_is_abstract r)))
  | AtInverseName => option_map (fun x => value_only (VLocalizedText x)) (inverse_name r)
  | _ => base_get a (reference_type_base r)
  end.
Definition view_get (a : AttributeId) (v : View) : option DataValue :=
  match a with
  | AtEventNotifier => Some (value_only (VByte (view_event_notifier v)))
  | AtContainsNoLoops => Some (value_only (VBoolean (contains_no_loops v)))
  | _ => base_get a (view_base v)
  end.
Definition data_type_get (a : AttributeId) (d : DataType) : option DataValue :=
  match a with
  | AtIsAbstract => Some (value_only (VBoolean (data_type_is_abstract d)))
  | AtDataTypeDefinition => option_map (fun x => value_only (VExtensionObject (into_extension_object x))) (data_type_definition d)
  | _ => base_get a (data_type_base d)
  end.
Definition method_get (a : AttributeId) (m : Method) : option DataValue :=
  match a with
  | AtExecutable => Some (value_only (VBoolean (executable m)))
  | AtUserExecutable => Some (value_only (VBoolean (user_executable m)))
  | _ => base_get a (method_base m)
  end.

(** [get_attribute_max_age] of each class; the maximum age is not used. *)
Definition get_attribute (t : TimestampsToReturn) (a : AttributeId) (r : NumericRange) (e : DataEncoding) (n : NodeType)
    : outcome (option DataValue) :=
  match n with
  | NtVariable v => variable_get t a r e v
  | NtVariableType v => Ret (variable_type_get a v)
  | NtObject o => Ret (object_get a o)
  | NtObjectType o => Ret (object_type_get a o)
  | NtReferenceType x => Ret (reference_type_get a x)
  | NtView v => Ret (view_get a v)
  | NtDataType d => Ret (data_type_get a d)
  | NtMethod m => Ret (method_get a m)
  end.

(** ** Replacing attributes *)

Definition mismatch {A} : result A StatusCode := Err BadTypeMismatch.
Definition base_set (a : AttributeId) (v : Variant) (b : Base) : result Base StatusCode :=
  let 'mkBase id class name display desc mask user_mask roles restrictions := b in
  match a with
  | AtNodeClass => match v with
      | VInt32 z => Ok (mkBase id (default class (node_class_of z)) name display desc mask user_mask roles restrictions)
      | _ => mismatch end
  | AtNodeId => match v with VNodeId i => Ok (mkBase i class name display desc mask user_mask roles restrictions) | _ => mismatch end
  | AtBrowseName => match v with
      | VQualifiedName q => Ok (mkBase id class q display desc mask user_mask roles restrictions) | _ => mismatch end
  | AtDisplayName => match v with
      | VLocalizedText x => Ok (mkBase id class name x desc mask user_mask roles restrictions) | _ => mismatch end
  | AtDescription => match v with
      | VLocalizedText x => Ok (mkBase id class name display (Some x) mask user_mask roles restrictions) | _ => mismatch end
  | AtWriteMask => match v with
      | VUInt32 m => Ok (mkBase id class name display desc (Some m) user_mask roles restrictions) | _ => mismatch end
  | AtUserWriteMask => match v with
      | VUInt32 m => Ok (mkBase id class name display desc mask (Some m) roles restrictions) | _ => mismatch end
  | AtRolePermissions => match v with
      | VArray l => let? p := collect role_permission_of (values l) in
                    Ok (mkBase id class name display desc mask user_mask (Some p) restrictions)
      | _ => mismatch end
  | _ => Err BadAttributeIdInvalid
  end.

Definition boolean {A} (f : bool -> A) (v : Variant) : result A StatusCode := match v with VBoolean b => Ok (f b) | _ => mismatch end.
Definition byte {A} (f : Z -> A) (v : Variant) : result A StatusCode := match v with VByte z => Ok (f z) | _ => mismatch end.

Definition with_rank (r : Z) (v : VariableOf Variant) : VariableOf Variant :=
  mkVariable (variable_base v) (variable_data_type v) (historizing v) r (value v) (access_level v)
    (access_level_ex_extended v) (user_access_level v) (array_dimensions v) (minimum_sampling_interval v).
Definition variable_set (now : DateTime) (a : AttributeId) (x : Variant) (v : VariableOf Variant)
    : outcome (result (VariableOf Variant) StatusCode) :=
  match a with
  | AtDataType => Ret (match x with VNodeId t => Ok (set_variable_data_type t v) | _ => mismatch end)
  | AtHistorizing => Ret (boolean (fun h => set_historizing h v) x)
  | AtValueRank => Ret (match x with
      | VInt32 z =>
          let rank := normalized_value_rank z in
          if negb (value_rank_matches_array_dimensions rank (array_dimensions v) (value v)) then Err BadNodeAttributesInvalid
          else Ok (with_rank rank v)
      | _ => mismatch end)
  | AtValue => Ret (let '(v', r) := set_value now NRNone x v in let? _ := r in Ok v')
  | AtAccessLevel => Ret (byte (fun l => set_access_level (from_bits_truncate access_level_all l) v) x)
  | AtAccessLevelEx => Ret (match x with VUInt32 l => Ok (set_access_level_ex_attribute l v) | _ => mismatch end)
  | AtUserAccessLevel => Ret (byte (fun l => set_user_access_level (from_bits_truncate access_level_all l) v) x)
  | AtArrayDimensions =>
      let! dims := vec_u32_try_from_variant x in
      Ret (match dims with
           | Ok d => if negb (value_rank_matches_array_dimensions (value_rank v) (Some d) (value v)) then Err BadNodeAttributesInvalid
                     else Ok (set_array_dimensions d v)
           | Err _ => mismatch
           end)
  | AtMinimumSamplingInterval => Ret (match x with VDouble i => Ok (set_minimum_sampling_interval i v) | _ => mismatch end)
  | _ => Ret (let? b := base_set a x (variable_base v) in Ok (with_base b v))
  end.

(** [value_rank_matches_array_dimensions] of variable types. *)
Definition type_rank_matches (rank : Z) (dims : option (list Z)) : bool :=
  match dims with Some d => if rank <=? 0 then false else zlen d =? rank | None => true end.
Definition variable_type_set (now : DateTime) (a : AttributeId) (x : Variant) (v : VariableTypeOf Variant)
    : outcome (result (VariableTypeOf Variant) StatusCode) :=
  let 'mkVariableType b t abstract rank val dims := v in
  match a with
  | AtDataType => Ret (match x with VNodeId t' => Ok (mkVariableType b t' abstract rank val dims) | _ => mismatch end)
  | AtIsAbstract => Ret (boolean (fun y => mkVariableType b t y rank val dims) x)
  | AtValueRank => Ret (match x with
      | VInt32 z =>
          let rank' := normalized_value_rank z in
          if negb (type_rank_matches rank' dims) then Err BadNodeAttributesInvalid else Ok (mkVariableType b t abstract rank' val dims)
      | _ => mismatch end)
  | AtValue => Ret (Ok (mkVariableType b t abstract rank (Some (new_now now x)) dims))
  | AtArrayDimensions =>
      let! d := vec_u32_try_from_variant x in
      Ret (match d with
           | Ok d => if negb (type_rank_matches rank (Some d)) then Err BadNodeAttributesInvalid
                     else Ok (mkVariableType b t abstract rank val (Some d))
           | Err _ => mismatch
           end)
  | _ => Ret (let? b' := base_set a x b in Ok (mkVariableType b' t abstract rank val dims))
  end.

Definition object_set (a : AttributeId) (x : Variant) (o : Object) : result Object StatusCode :=
  match a with
  | AtEventNotifier => byte (fun e => mkObject (object_base o) (from_bits_truncate event_notifier_all e)) x
  | _ => let? b := base_set a x (object_base o) in Ok (mkObject b (object_event_notifier o))
  end.
Definition object_type_set (a : AttributeId) (x : Variant) (o : ObjectType) : result ObjectType StatusCode :=
  match a with
  | AtIsAbstract => boolean (fun y => mkObjectType (object_type_base o) y) x
  | _ => let? b := base_set a x (object_type_base o) in Ok (mkObjectType b (object_type_is_abstract o))
  end.
Definition reference_type_set (a : AttributeId) (x : Variant) (r : ReferenceType) : result ReferenceType StatusCode :=
  let 'mkReferenceType b sym abstract inverse := r in
  match a with
  | AtSymmetric => boolean (fun y => mkReferenceType b y abstract inverse) x
  | AtIsAbstract => boolean (fun y => mkReferenceType b sym y inverse) x
  | AtInverseName => match x with VLocalizedText y => Ok (mkReferenceType b sym abstract (Some y)) | _ => mismatch end
  | _ => let? b' := base_set a x b in Ok (mkReferenceType b' sym abstract inverse)
  end.
Definition view_set (a : AttributeId) (x : Variant) (v : View) : result View StatusCode :=
  let 'mkView b notifier no_loops := v in
  match a with
  | AtEventNotifier => byte (fun e => mkView b (from_bits_truncate event_notifier_all e) no_loops) x
  | AtContainsNoLoops => boolean (fun y => mkView b notifier y) x
  | _ => let? b' := base_set a x b in Ok (mkView b' notifier no_loops)
  end.
Definition data_type_set (a : AttributeId) (x : Variant) (d : DataType) : result DataType StatusCode :=
  let 'mkDataType b abstract def := d in
  match a with
  | AtIsAbstract => boolean (fun y => mkDataType b y def) x
  | AtDataTypeDefinition => match x with
      | VEmpty => Ok (mkDataType b abstract None)
      | VExtensionObject o => let? y := from_extension_object o in Ok (mkDataType b abstract (Some y))
      | _ => mismatch end
  | _ => let? b' := base_set a x b in Ok (mkDataType b' abstract def)
  end.
Definition method_set (a : AttributeId) (x : Variant) (m : Method) : result Method StatusCode :=
  let 'mkMethod b exec user_exec := m in
  match a with
  | AtExecutable => boolean (fun y => mkMethod b y user_exec) x
  | AtUserExecutable => boolean (fun y => mkMethod b exec y) x
  | _ => let? b' := base_set a x b in Ok (mkMethod b' exec user_exec)
  end.

Definition on_result {A B E} (f : A -> B) (r : outcome (result A E)) : outcome (result B E) := let^ a := r in Ret (Ok (f a)).
(** [set_attribute] of each class: the node with the attribute, or an error and the node as it was. *)
Definition set_attribute (now : DateTime) (a : AttributeId) (x : Variant) (n : NodeType) : outcome (result NodeType StatusCode) :=
  match n with
  | NtVariable v => on_result NtVariable (variable_set now a x v)
  | NtVariableType v => on_result NtVariableType (variable_type_set now a x v)
  | NtObject o => on_result NtObject (Ret (object_set a x o))
  | NtObjectType o => on_result NtObjectType (Ret (object_type_set a x o))
  | NtReferenceType r => on_result NtReferenceType (Ret (reference_type_set a x r))
  | NtView v => on_result NtView (Ret (view_set a x v))
  | NtDataType d => on_result NtDataType (Ret (data_type_set a x d))
  | NtMethod m => on_result NtMethod (Ret (method_set a x m))
  end.
End attributes.
