(* ===== verification/AttributeService.v ===== *)
(** * The Read and Write services

    server/src/address_space (utils.rs, write_validation.rs and the reads and writes of mod.rs), the
    in-memory node manager (node_manager/memory/mod.rs) with its implementation
    [SimpleNodeManagerImpl] (memory/simple.rs), node_manager/attributes.rs, the distribution of a
    request over the node managers (session/services/mod.rs) and the services of
    session/message_handler.rs and session/actor.rs.

    The callbacks that an application registers are functions of their arguments.  A call of a node
    manager is one step: the in-memory managers do not wait in it.  Diagnostics, audit events and the
    alarms that a write may raise are left out; the changes that subscriptions are told are results. *)

From S2P Require Import Prelude Text Float StatusCode NumericRange Variant NodeIdText VariantConvert BinaryVariant References TypeTree Nodes Rbac AddressSpace MonitoredItem Attributes FanOut.
#[local] Open Scope Z_scope.

Definition BadInternalError : StatusCode := 0x80020000.
Definition BadNothingToDo : StatusCode := 0x800F0000.
Definition BadTooManyOperations : StatusCode := 0x80100000.
Definition BadSessionClosed : StatusCode := 0x80260000.
Definition BadNodeIdInvalid : StatusCode := 0x80330000.
Definition BadTimestampsToReturnInvalid : StatusCode := 0x802B0000.
Definition BadMaxAgeInvalid : StatusCode := 0x80700000.
Definition BadOutOfRange : StatusCode := 0x803C0000.
Definition BadLocaleNotSupported : StatusCode := 0x80ED0000.

(** ** Attribute numbers *)

Definition attribute_numbers : list AttributeId :=
  [AtNodeId; AtNodeClass; AtBrowseName; AtDisplayName; AtDescription; AtWriteMask; AtUserWriteMask; AtIsAbstract;
   AtSymmetric; AtInverseName; AtContainsNoLoops; AtEventNotifier; AtValue; AtDataType; AtValueRank;
   AtArrayDimensions; AtAccessLevel; AtUserAccessLevel; AtMinimumSamplingInterval; AtHistorizing; AtExecutable;
   AtUserExecutable; AtDataTypeDefinition; AtRolePermissions; AtUserRolePermissions; AtAccessRestrictions;
   AtAccessLevelEx].
(** [AttributeId::from_u32]. *)
Definition attribute_of (z : Z) : option AttributeId := if z <=? 0 then None else attribute_numbers !! Z.to_nat (z - 1).
Definition attribute_number (a : AttributeId) : nat := default 0%nat (fst <$> list_find (eq a) attribute_numbers).
#[export] Instance AttributeId_countable : Countable AttributeId.
Proof. refine (inj_countable attribute_number (fun n => attribute_numbers !! n) _). by intros []. Defined.

(** ** Requests *)

Section requests.
Context {D : DynEncodable}.

Record WriteValue := mkWriteValue {
  wv_node_id : NodeId; wv_attribute_id : Z; wv_index_range : NumericRange; wv_value : DataValueOf Variant }.
Record ParsedWriteValue := mkParsedWrite {
  pw_node_id : NodeId; pw_attribute_id : AttributeId; pw_index_range : NumericRange; pw_value : DataValueOf Variant }.

Definition parse_write_value (w : WriteValue) : result ParsedWriteValue StatusCode :=
  let? a := ok_or (attribute_of (wv_attribute_id w)) BadAttributeIdInvalid in
  Ok (mkParsedWrite (wv_node_id w) a (wv_index_range w) (wv_value w)).
Definition dv_null : DataValue := mkDataValue None None None None None None.
Definition null_write_value : ParsedWriteValue := mkParsedWrite null_id AtNodeId NRNone dv_null.
(** A parsed read names its attribute by a number that [from_u32] accepted. *)
Definition read_attribute (r : ParsedReadValueId) : AttributeId := default AtNodeId (attribute_of (pr_attribute_id r)).
Definition error_value (now : DateTime) (s : StatusCode) : DataValue := mkDataValue None (Some s) None None (Some now) None.
Definition status_only (s : StatusCode) : DataValue := mkDataValue None (Some s) None None None None.
Definition dv_status_of (d : DataValue) : StatusCode := default Good (dv_status d).

Record ReadNode := mkReadNode { rn_node : ParsedReadValueId; rn_result : DataValue }.
Definition new_status (parsed : option StatusCode) (id : NodeId) : StatusCode :=
  match parsed with
  | Some e => if is_null_id id && (e =? BadNodeIdUnknown) then BadNodeIdInvalid else e
  | None => if is_null_id id then BadNodeIdInvalid else BadNodeIdUnknown
  end.
Definition read_node_new (now : DateTime) (r : ReadValueId) : ReadNode :=
  let '(node, status) :=
    match parse_read_value_id r with
    | Ok p => (p, new_status None (pr_node_id p))
    | Err e => (null_read_value_id, new_status (Some e) null_id)
    end in
  mkReadNode node (error_value now status).
Definition rn_status (r : ReadNode) : StatusCode := dv_status_of (rn_result r).
Definition set_result (d : DataValue) (r : ReadNode) : ReadNode := mkReadNode (rn_node r) d.
Definition set_error (now : DateTime) (s : StatusCode) (r : ReadNode) : ReadNode := mkReadNode (rn_node r) (error_value now s).

Record WriteNode := mkWriteNode { wn_value : ParsedWriteValue; wn_status : StatusCode }.
Definition write_node_new (w : WriteValue) : WriteNode :=
  match parse_write_value w with
  | Ok p => mkWriteNode p (new_status None (pw_node_id p))
  | Err e => mkWriteNode null_write_value (new_status (Some e) null_id)
  end.
Definition set_write_status (s : StatusCode) (w : WriteNode) : WriteNode := mkWriteNode (wn_value w) s.
End requests.

(** ** Localized texts

    Texts that were written, per node and attribute, with at most one for each locale. *)

Abbreviation LocalizedTexts := (gmap (NodeId * AttributeId) (list LocalizedText)).

Definition normalized_locale_id (l : rstr) : rstr := ascii_lowercase (map (fun c => if c =? 95 then 45 else c) (trim l)).
Definition text_starts_with (p s : rstr) : bool := bool_decide (p `prefix_of` s).
Definition is_neutral (l : rstr) : bool := negb (existsb (Z.eqb 45) l).
Definition locale_id_matches (supported requested : rstr) : bool :=
  let s := normalized_locale_id supported in
  let r := normalized_locale_id requested in
  if bool_decide (s = []) || bool_decide (r = []) then bool_decide (r = [])
  else if bool_decide (s = r) then true
  else (is_neutral s && text_starts_with (s ++ str "-") r) || (is_neutral r && text_starts_with (r ++ str "-") s).
Definition is_special_write_locale_id (l : rstr) : bool :=
  let first := head (split_on 45 (normalized_locale_id l)) in
  bool_decide (first = Some (str "mul")) || bool_decide (first = Some (str "qst")).
Definition ua_is_empty (s : UAString) : bool := bool_decide (ua_as_ref s = []).
Definition locale_of (t : LocalizedText) : rstr := ua_as_ref (locale t).

Definition is_localized_text_attribute (a : AttributeId) : bool :=
  match a with AtDisplayName | AtDescription | AtInverseName => true | _ => false end.
Fixpoint put_text (t : LocalizedText) (l : list LocalizedText) : list LocalizedText :=
  match l with
  | [] => [t]
  | e :: l' => if bool_decide (normalized_locale_id (locale_of e) = normalized_locale_id (locale_of t)) then t :: l' else e :: put_text t l'
  end.
Definition remember_localized_text_attribute_value {D : DynEncodable} (id : NodeId) (a : AttributeId) (v : Variant)
    (texts : LocalizedTexts) : LocalizedTexts :=
  if negb (is_localized_text_attribute a) then texts
  else
    match v with
    | VLocalizedText t =>
        if ua_is_empty (locale t) then (if ua_is_empty (text t) then base.delete (id, a) texts else texts)
        else if ua_is_empty (text t) then
          match texts !! (id, a) with
          | Some l =>
              let kept := List.filter (fun e => negb (bool_decide (normalized_locale_id (locale_of e) = normalized_locale_id (locale_of t)))) l in
              if bool_decide (kept = []) then base.delete (id, a) texts else <[(id, a) := kept]> texts
          | None => texts
          end
        else <[(id, a) := put_text t (default [] (texts !! (id, a)))]> texts
    | _ => texts
    end.

(** ** The context of a request *)

Record AttributeContext := mkAttributeContext {
  access : RequestContext;
  (** The locales the session asked for, and those the server is configured with. *)
  session_locales : option (list UAString);
  server_locales : list rstr;
  is_user_executable : NodeId -> bool
}.

Definition localized_text_for_session (c : AttributeContext) (texts : LocalizedTexts) (id : NodeId) (a : AttributeId) (fallback : LocalizedText)
    : LocalizedText :=
  match session_locales c, texts !! (id, a) with
  | Some requested, Some variants =>
      default fallback (head (omap (fun r => find (fun t => locale_id_matches (locale_of t) (ua_as_ref r)) variants) requested))
  | _, _ => fallback
  end.
Definition apply_session_locale {D : DynEncodable} (c : AttributeContext) (texts : LocalizedTexts) (id : NodeId) (a : AttributeId)
    (v : option Variant) : option Variant :=
  if negb (is_localized_text_attribute a) then v
  else match v with
       | Some (VLocalizedText t) => Some (VLocalizedText (localized_text_for_session c texts id a t))
       | _ => v
       end.
Definition validate_write_locale {D : DynEncodable} (c : AttributeContext) (a : AttributeId) (v : Variant) : result unit StatusCode :=
  if negb (is_localized_text_attribute a) then Ok tt
  else
    match v with
    | VLocalizedText t =>
        if ua_is_empty (locale t) then Ok tt
        else if bool_decide (normalized_locale_id (locale_of t) = []) || is_special_write_locale_id (locale_of t)
                || negb (existsb (fun s => locale_id_matches s (locale_of t)) (server_locales c))
        then Err BadLocaleNotSupported else Ok tt
    | _ => Ok tt
    end.

(** The value that subscriptions are told after a write. *)
Abbreviation WriteNotification := (DataValueOf Variant * NodeId * AttributeId)%type.

Section service.
Context {D : DynEncodable} {B : Bodies} {TC : TextCodecs} {RE : NodeIdRegex} {DT : DateText} {M : Moka} {O : RefOrder}.

(** ** Reading (address_space/utils.rs) *)

Definition is_other_encoding (e : DataEncoding) : bool := match e with DEXML | DEJSON => true | _ => false end.
Definition is_supported_data_encoding (e : DataEncoding) : bool := match e with DEOther _ => false | _ => true end.
Definition is_value (a : AttributeId) : bool := bool_decide (a = AtValue).
Definition validate_node_read (c : AttributeContext) (n : NodeType) (r : ParsedReadValueId) : result unit StatusCode :=
  let a := read_attribute r in
  let? _ := validate_read_access (access c) in
  let? _ := if is_value a then is_readable (access c) n else is_attribute_readable (access c) n a in
  if negb (is_value a) && is_other_encoding (pr_data_encoding r) then Err BadDataEncodingInvalid
  else if negb (is_value a) && has_range (pr_index_range r) then Err BadIndexRangeDataMismatch
  else if negb (is_supported_data_encoding (pr_data_encoding r)) then Err BadDataEncodingInvalid
  else Ok tt.

Definition is_variable (n : NodeType) : bool := match n with NtVariable _ => true | _ => false end.
Definition read_node_value (c : AttributeContext) (texts : LocalizedTexts) (n : NodeType) (r : ParsedReadValueId) (t : TimestampsToReturn)
    : outcome DataValue :=
  let a := read_attribute r in
  match a with
  | AtUserRolePermissions =>
      Ret (mkDataValue (option_map (fun l => role_permissions_variant (compute_user_role_permissions l (user_roles (access c))))
                          (role_permissions (node_base n))) None None None None None)
  | AtUserWriteMask => Ret (value_only (VUInt32 (default 0 (user_write_mask_of (access c) n))))
  | _ =>
      let! attribute := get_attribute t a (pr_index_range r) (pr_data_encoding r) n in
      Ret (match attribute with
           | None => status_only BadAttributeIdInvalid
           | Some d =>
               let v := match a, dv_value d with
                 | AtUserAccessLevel, Some (VByte _) => Some (VByte (user_access_level_of (access c) n))
                 | AtUserExecutable, Some (VBoolean b) =>
                     Some (VBoolean (b && is_user_executable c (node_id_of n) && authorize_ctx (access c) n PermissionType.Call))
                 | _, v => v
                 end in
               let v := apply_session_locale c texts (node_id_of n) a v in
               let times := if is_variable n && is_value a then apply_timestamps t d else dv_null in
               with_times_of times v (dv_status d)
           end)
  end.

Definition space_validate_node_read (c : AttributeContext) (r : ParsedReadValueId) (s : AddressSpace) : result NodeType StatusCode :=
  let? n := ok_or (find_node (pr_node_id r) s) BadNodeIdUnknown in
  let? _ := validate_node_read c n r in Ok n.
(** [AddressSpace::read]. *)
Definition space_read (c : AttributeContext) (texts : LocalizedTexts) (r : ParsedReadValueId) (t : TimestampsToReturn) (s : AddressSpace)
    : outcome DataValue :=
  match space_validate_node_read c r s with
  | Err e => Ret (status_only e)
  | Ok n => read_node_value c texts n r t
  end.

(** ** Checking a write (write_validation.rs) *)

Definition validate_value_rank_to_write (rank : Z) (is_array has_index_range : bool) : result unit StatusCode :=
  if has_index_range then Ok tt
  else if (if (rank =? -3) || (rank =? -2) then true else if rank =? -1 then negb is_array else is_array) then Ok tt
  else Err BadTypeMismatch.
Definition is_array (v : Variant) : bool := match v with VArray _ => true | _ => false end.
(** [Variant::data_type]. *)
Fixpoint value_data_type (v : Variant) : option ExpandedNodeId :=
  match v with
  | VExtensionObject b => option_map body_data_type b
  | VArray a => match values a with [] => None | x :: _ => value_data_type x end
  | _ => option_map (fun z => {| node_id := ns0 z; namespace_uri := None; server_index := 0 |}) (data_type v)
  end.
Definition byte_string_fits (rank : Z) : bool := (rank =? -2) || (rank =? -3) || (rank =? 1).
Definition validate_value_data_type_to_write (node_data_type : NodeId) (rank : Z) (v : Variant) (has_index_range : bool) (t : DefaultTypeTree)
    : outcome (DefaultTypeTree * result unit StatusCode) :=
  match v with
  | VEmpty => Ret (t, Ok tt)
  | _ =>
      match (let* e := value_data_type v in try_resolve (fun uri => get_index uri (TypeTree.namespaces t)) e) with
      | None => Ret (t, Err BadTypeMismatch)
      | Some data_type =>
          let! (t, matches) := is_subtype_of data_type node_data_type t in
          Ret (t,
            if negb matches then
              if is_array v then Err BadTypeMismatch
              else match v with
                   | VByteString _ =>
                       if bool_decide (node_data_type = Byte_id) && byte_string_fits rank then Ok tt else Err BadTypeMismatch
                   | _ => Err BadTypeMismatch
                   end
            else validate_value_rank_to_write rank (is_array v) has_index_range)
      end
  end.
Definition validate_value_to_write (var : VariableOf Variant) (v : Variant) (has_index_range : bool) (t : DefaultTypeTree) :=
  validate_value_data_type_to_write (variable_data_type var) (value_rank var) v has_index_range t.

Definition is_scalar_attribute_value (v : Variant) (expected : VariantScalarTypeId) : bool :=
  match type_id v with TyScalar s => bool_decide (s = expected) | _ => false end.
Definition is_array_attribute_value (v : Variant) (expected : VariantScalarTypeId) : bool :=
  match type_id v with TyArray s _ => bool_decide (s = expected) | _ => false end.
Definition attribute_value_ok (a : AttributeId) (v : Variant) : bool :=
  match a with
  | AtValue => true
  | AtNodeId | AtDataType => is_scalar_attribute_value v TNodeId
  | AtNodeClass | AtValueRank => is_scalar_attribute_value v TInt32
  | AtBrowseName => is_scalar_attribute_value v TQualifiedName
  | AtDisplayName | AtDescription | AtInverseName => is_scalar_attribute_value v TLocalizedText
  | AtWriteMask | AtUserWriteMask | AtAccessLevelEx => is_scalar_attribute_value v TUInt32
  | AtIsAbstract | AtSymmetric | AtContainsNoLoops | AtHistorizing | AtExecutable | AtUserExecutable =>
      is_scalar_attribute_value v TBoolean
  | AtEventNotifier | AtAccessLevel | AtUserAccessLevel => is_scalar_attribute_value v TByte
  | AtArrayDimensions => is_array_attribute_value v TUInt32
  | AtMinimumSamplingInterval => is_scalar_attribute_value v TDouble
  | AtDataTypeDefinition => match v with VEmpty => true | _ => is_scalar_attribute_value v TExtensionObject end
  | AtRolePermissions | AtUserRolePermissions => is_array_attribute_value v TExtensionObject
  | AtAccessRestrictions => is_scalar_attribute_value v TUInt16
  end.
Definition validate_attribute_value_to_write (a : AttributeId) (v : Variant) : result unit StatusCode :=
  if attribute_value_ok a v then Ok tt else Err BadTypeMismatch.

(** Enumerations: the integer of a value, none when it is not one, an error when it is too large. *)
Definition modeled_enum_value_set (s : AddressSpace) (var : VariableOf Variant) : option (list Z) :=
  match find_node (variable_data_type var) s with
  | Some (NtDataType d) =>
      match data_type_definition d with
      | Some (DtEnum e) => match enum_fields e with Some (_ :: _ as l) => Some (map ef_value l) | _ => None end
      | _ => None
      end
  | _ => None
  end.
Definition scalar_integer_value_as_i64 (v : Variant) : result (option Z) unit :=
  match v with
  | VSByte z | VByte z | VInt16 z | VUInt16 z | VInt32 z | VUInt32 z | VInt64 z => Ok (Some z)
  | VUInt64 z => if z <=? i64_max then Ok (Some z) else Err tt
  | _ => Ok None
  end.
Fixpoint all_in_enum_set (l : list Variant) (valid : list Z) (so_far : bool) : option bool :=
  match l with
  | [] => Some so_far
  | v :: l' =>
      match scalar_integer_value_as_i64 v with
      | Ok (Some z) => all_in_enum_set l' valid (so_far && existsb (Z.eqb z) valid)
      | Ok None => None
      | Err _ => Some false
      end
  end.
Definition integer_values_are_in_enum_set (v : Variant) (valid : list Z) : option bool :=
  match v with
  | VArray a => match values a with [] => None | l => all_in_enum_set l valid true end
  | _ => all_in_enum_set [v] valid true
  end.
Definition validate_modeled_enum_value_to_write (s : AddressSpace) (var : VariableOf Variant) (v : Variant) (has_index_range : bool)
    : result bool StatusCode :=
  match (let* valid := modeled_enum_value_set s var in integer_values_are_in_enum_set v valid) with
  | None => Ok false
  | Some valid =>
      let? _ := validate_value_rank_to_write (value_rank var) (is_array v) has_index_range in
      if valid then Ok true else Err BadOutOfRange
  end.

(** The range of engineering units: the property EURange of the variable. *)
Definition EURange_name : QualifiedName := {| namespace_index := 0; qname := Some (str "EURange") |}.
Definition HasProperty_id : NodeId := ns0 46.
Definition read_variable_eurange (s : AddressSpace) (id : NodeId) (t : DefaultTypeTree) : outcome (DefaultTypeTree * option (f64 * f64)) :=
  let! (t, node) := find_node_by_browse_name id (Some (HasProperty_id, false)) BdForward EURange_name s t in
  match node with
  | None => Ret (t, None)
  | Some n =>
      let! d := get_attribute Neither AtValue NRNone DEBinary n in
      Ret (t, match (let* d := d in dv_value d) with
              | Some (VExtensionObject (Some b)) =>
                  match body_range b with Some (low, high) => if f64_le low high then Some (low, high) else None | None => None end
              | _ => None
              end)
  end.
Definition scalar_numeric_value_is_in_range (v : Variant) (low high : f64) : bool :=
  match as_f64 v with Some x => f64_le low x && f64_le x high | None => true end.
Definition numeric_values_are_in_range (v : Variant) (low high : f64) : bool :=
  match v with
  | VArray a => forallb (fun e => scalar_numeric_value_is_in_range e low high) (values a)
  | _ => scalar_numeric_value_is_in_range v low high
  end.
Definition validate_value_against_eurange (s : AddressSpace) (var : VariableOf Variant) (v : Variant) (t : DefaultTypeTree)
    : outcome (DefaultTypeTree * result unit StatusCode) :=
  let! (t, range) := read_variable_eurange s (base_node_id (variable_base var)) t in
  Ret (t, match range with
          | None => Ok tt
          | Some (low, high) => if numeric_values_are_in_range v low high then Ok tt else Err BadOutOfRange
          end).

Definition WriteFullArrayOnly : Z := Z.shiftl 1 10.
(** The checks of a value for the variable or variable type it is written to. *)
Definition validate_value_of_node (s : AddressSpace) (n : NodeType) (v : Variant) (has_index_range : bool) (t : DefaultTypeTree)
    : outcome (DefaultTypeTree * result unit StatusCode) :=
  match n with
  | NtVariable var =>
      if has_index_range && negb (Z.land (access_level_ex var) WriteFullArrayOnly =? 0) then Ret (t, Err BadWriteNotSupported)
      else
        match validate_modeled_enum_value_to_write s var v has_index_range with
        | Err e => Ret (t, Err e)
        | Ok checked =>
            let! (t, r) := if (checked : bool) then Ret (t, Ok tt) else validate_value_to_write var v has_index_range t in
            match r with Err e => Ret (t, Err e) | Ok _ => validate_value_against_eurange s var v t end
        end
  | NtVariableType vt => validate_value_data_type_to_write (vt_data_type vt) (vt_value_rank vt) v has_index_range t
  | _ => Ret (t, Ok tt)
  end.

(** What the writes of a request share: the type tree with its cache and the localized texts. *)
Record Shared := mkShared { sh_tree : DefaultTypeTree; sh_texts : LocalizedTexts }.

Definition validate_node_write (c : AttributeContext) (s : AddressSpace) (n : NodeType) (w : ParsedWriteValue) (sh : Shared)
    : outcome (Shared * result unit StatusCode) :=
  let a := pw_attribute_id w in
  match
    (let? _ := is_writable (access c) n a in
     if negb (is_value a) && has_range (pw_index_range w) then Err BadWriteNotSupported
     else
       let? v := ok_or (dv_value (pw_value w)) BadTypeMismatch in
       let? _ := validate_attribute_value_to_write a v in
       let? _ := validate_write_locale c a v in Ok v)
  with
  | Err e => Ret (sh, Err e)
  | Ok v =>
      let! (t, r) := if is_value a then validate_value_of_node s n v (has_range (pw_index_range w)) (sh_tree sh) else Ret (sh_tree sh, Ok tt) in
      match r with
      | Err e => Ret (mkShared t (sh_texts sh), Err e)
      | Ok _ => Ret (mkShared t (remember_localized_text_attribute_value (node_id_of n) a v (sh_texts sh)), Ok tt)
      end
  end.
Definition space_validate_node_write (c : AttributeContext) (w : ParsedWriteValue) (s : AddressSpace) (sh : Shared)
    : outcome (Shared * result NodeType StatusCode) :=
  match find_node (pw_node_id w) s with
  | None => Ret (sh, Err BadNodeIdUnknown)
  | Some n => let! (sh, r) := validate_node_write c s n w sh in Ret (sh, let? _ := r in Ok n)
  end.

(** ** Writing (address_space/utils.rs) *)

(** A byte string becomes an array where the variable holds bytes. *)
Definition value_to_store (var : VariableOf Variant) (v : Variant) : result Variant ArrayError :=
  match v with
  | VByteString _ => if byte_string_fits (value_rank var) && bool_decide (variable_data_type var = Byte_id) then to_byte_array v else Ok v
  | _ => Ok v
  end.
Definition write_node_value (now : DateTime) (n : NodeType) (w : ParsedWriteValue) (texts : LocalizedTexts)
    : outcome (NodeType * LocalizedTexts * result unit StatusCode) :=
  let d := pw_value w in
  let v := default VEmpty (dv_value d) in
  match n, is_value (pw_attribute_id w) with
  | NtVariable var, true =>
      match value_to_store var v with
      | Err _ => Ret (n, texts, Err BadUnexpectedError)
      | Ok v =>
          let '(var, r) := set_value_range v (pw_index_range w) (default Good (dv_status d)) (default now (server_timestamp d))
                             (default now (source_timestamp d)) var in
          Ret (NtVariable var, texts, r)
      end
  | _, _ =>
      match validate_attribute_value_to_write (pw_attribute_id w) v with
      | Err e => Ret (n, texts, Err e)
      | Ok _ =>
          let! r := set_attribute now (pw_attribute_id w) v n in
          Ret (match r with
               | Err e => (n, texts, Err e)
               | Ok n' => (n', remember_localized_text_attribute_value (node_id_of n) (pw_attribute_id w) v texts, Ok tt)
               end)
      end
  end.

(** ** The node manager (memory/simple.rs) *)

Abbreviation ReadCallback := (NumericRange -> TimestampsToReturn -> f64 -> result DataValue StatusCode).
Abbreviation WriteCallback := (DataValue -> NumericRange -> StatusCode).
Record SimpleNodeManager := mkSimpleNodeManager {
  nm_space : AddressSpace;
  nm_namespaces : gset Z;
  read_cbs : gmap NodeId ReadCallback;
  write_cbs : gmap NodeId WriteCallback
}.
Definition set_space (s : AddressSpace) (m : SimpleNodeManager) : SimpleNodeManager :=
  mkSimpleNodeManager s (nm_namespaces m) (read_cbs m) (write_cbs m).
(** Replacing a node in place: [find_mut] finds it by the id it was asked for. *)
Definition replace_node (id : NodeId) (n : NodeType) (s : AddressSpace) : AddressSpace :=
  mkSpace (<[id := n]> (node_map s)) (AddressSpace.references s) (browse_name_index s) (space_namespaces s).
Definition owns_node (m : SimpleNodeManager) (id : NodeId) : bool := bool_decide (Variant.namespace id ∈ nm_namespaces m).

(** [prepare_read_node_value], and the callback when there is one. *)
Definition prepare_read_node_value (c : AttributeContext) (texts : LocalizedTexts) (max_age : f64) (t : TimestampsToReturn)
    (m : SimpleNodeManager) (r : ParsedReadValueId) : outcome DataValue :=
  match space_validate_node_read c r (nm_space m) with
  | Err e => Ret (status_only e)
  | Ok n =>
      match read_cbs m !! pr_node_id r with
      | Some cb => Ret (match cb (pr_index_range r) t max_age with Ok d => d | Err e => status_only e end)
      | None => read_node_value c texts n r t
      end
  end.
Fixpoint outcome_map {A A'} (f : A -> outcome A') (l : list A) : outcome (list A') :=
  match l with [] => Ret [] | x :: l' => let! y := f x in let! ys := outcome_map f l' in Ret (y :: ys) end.
Definition read_values (c : AttributeContext) (texts : LocalizedTexts) (max_age : f64) (t : TimestampsToReturn) (m : SimpleNodeManager)
    (nodes : list ParsedReadValueId) : outcome (list DataValue) :=
  outcome_map (prepare_read_node_value c texts max_age t m) nodes.

(** [InMemoryNodeManager::read]: first the other attributes, then the values together. *)
Definition reads_value (r : ReadNode) : bool := is_value (read_attribute (rn_node r)).
Definition read_other (c : AttributeContext) (texts : LocalizedTexts) (t : TimestampsToReturn) (m : SimpleNodeManager) (r : ReadNode)
    : outcome ReadNode :=
  if reads_value r then Ret r else let! d := space_read c texts (rn_node r) t (nm_space m) in Ret (set_result d r).
Fixpoint zip_values (items : list ReadNode) (values : list DataValue) : list ReadNode :=
  match items with
  | [] => []
  | r :: items' =>
      if reads_value r then
        match values with d :: values' => set_result d r :: zip_values items' values' | [] => r :: zip_values items' [] end
      else r :: zip_values items' values
  end.
Definition manager_read (c : AttributeContext) (texts : LocalizedTexts) (max_age : f64) (t : TimestampsToReturn) (m : SimpleNodeManager)
    (items : list ReadNode) : outcome (list ReadNode * result unit StatusCode) :=
  let! items := outcome_map (read_other c texts t m) items in
  let! values := read_values c texts max_age t m (map rn_node (List.filter reads_value items)) in
  Ret (zip_values items values, Ok tt).

Definition write_notification_from_node (n : NodeType) (a : AttributeId) : outcome (option WriteNotification) :=
  let! d := get_attribute Both a NRNone DEBinary n in Ret (let* d := d in Some (d, node_id_of n, a)).

(** [prepare_write_node_value] and [finish_prepared_write]. *)
Definition write_one (now : DateTime) (c : AttributeContext) (w : WriteNode) (m : SimpleNodeManager) (sh : Shared)
    : outcome (SimpleNodeManager * Shared * WriteNode * option WriteNotification) :=
  let p := wn_value w in
  let a := pw_attribute_id p in
  let! (sh, found) := space_validate_node_write c p (nm_space m) sh in
  match found with
  | Err e => Ret (m, sh, set_write_status e w, None)
  | Ok n =>
      if (is_value a && negb (is_variable n)) || negb (is_value a || bool_decide (a = AtRolePermissions)) then
        Ret (m, sh, set_write_status BadNotWritable w, None)
      else
        match (if is_value a then write_cbs m !! node_id_of n else None) with
        | Some cb =>
            let status := cb (pw_value p) (pw_index_range p) in
            Ret (m, sh, set_write_status status w, if is_good status then Some (pw_value p, node_id_of n, a) else None)
        | None =>
            match dv_value (pw_value p) with
            | None => Ret (m, sh, set_write_status BadNothingToDo w, None)
            | Some _ =>
                let! (x, r) := write_node_value now n p (sh_texts sh) in
                let '(n', texts) := x in
                let m := set_space (replace_node (pw_node_id p) n' (nm_space m)) m in
                let sh := mkShared (sh_tree sh) texts in
                match r with
                | Err e => Ret (m, sh, set_write_status e w, None)
                | Ok _ => let! note := write_notification_from_node n' a in Ret (m, sh, set_write_status Good w, note)
                end
            end
        end
  end.
Fixpoint manager_write (now : DateTime) (c : AttributeContext) (items : list WriteNode) (m : SimpleNodeManager) (sh : Shared)
    : outcome (SimpleNodeManager * Shared * list WriteNode * list WriteNotification) :=
  match items with
  | [] => Ret (m, sh, [], [])
  | w :: items' =>
      let! (x, note) := write_one now c w m sh in
      let '(m, sh, w) := x in
      let! (x, notes) := manager_write now c items' m sh in
      let '(m, sh, ws) := x in
      Ret (m, sh, w :: ws, match note with Some n => n :: notes | None => notes end)
  end.
End service.

Section services.
Context {D : DynEncodable} {B : Bodies} {TC : TextCodecs} {RE : NodeIdRegex} {DT : DateText} {M : Moka} {O : RefOrder}.

(** ** The services (session/message_handler.rs, session/actor.rs) *)

Definition takes_read (items : list ReadNode) (r : nat) (m : SimpleNodeManager) : bool :=
  match items !! r with
  | Some x => owns_node m (pr_node_id (rn_node x)) && (rn_status x =? BadNodeIdUnknown)
  | None => false
  end.
Fixpoint read_groups (now : DateTime) (c : AttributeContext) (texts : LocalizedTexts) (max_age : f64) (t : TimestampsToReturn)
    (managers : list SimpleNodeManager) (gs : list (nat * list nat)) (items : list ReadNode) : outcome (list ReadNode) :=
  match gs with
  | [] => Ret items
  | (i, refs) :: gs' =>
      match managers !! i with
      | None => read_groups now c texts max_age t managers gs' items
      | Some m =>
          let! (new, r) := manager_read c texts max_age t m (pick items refs) in
          let new := match r with Ok _ => new | Err e => map (set_error now e) new end in
          read_groups now c texts max_age t managers gs' (put_back items refs new)
      end
  end.
(** [SessionActor::read_nodes]: a panic of a node manager is the error of the request. *)
Definition read_nodes (now : DateTime) (c : AttributeContext) (texts : LocalizedTexts) (max_age : f64) (t : TimestampsToReturn)
    (managers : list SimpleNodeManager) (nodes : list ReadValueId) : outcome (result (list DataValue) StatusCode) :=
  let items := map (read_node_new now) nodes in
  match read_groups now c texts max_age t managers (groups (takes_read items) managers 0 (seq 0 (length items))) items with
  | Ret items => Ret (Ok (map rn_result items))
  | Panic => Ret (Err BadInternalError)
  | OutOfFuel => OutOfFuel
  end.
Definition read_request (now : DateTime) (limit : Z) (session_open : bool) (c : AttributeContext) (texts : LocalizedTexts) (max_age : f64)
    (t : TimestampsToReturn) (managers : list SimpleNodeManager) (nodes : option (list ReadValueId))
    : outcome (result (list DataValue) StatusCode) :=
  if f64_lt max_age f64_zero then Ret (Err BadMaxAgeInvalid)
  else match t with InvalidTimestamps => Ret (Err BadTimestampsToReturnInvalid) | _ =>
    match nodes with
    | None | Some [] => Ret (Err BadNothingToDo)
    | Some l =>
        if limit <? zlen l then Ret (Err BadTooManyOperations)
        else if negb session_open then Ret (Err BadSessionClosed)
        else read_nodes now c texts max_age t managers l
    end end.

Definition takes_write (items : list WriteNode) (r : nat) (m : SimpleNodeManager) : bool :=
  match items !! r with
  | Some x => owns_node m (pw_node_id (wn_value x)) && (wn_status x =? BadNodeIdUnknown)
  | None => false
  end.
Fixpoint write_groups (now : DateTime) (c : AttributeContext) (gs : list (nat * list nat)) (managers : list SimpleNodeManager) (sh : Shared)
    (items : list WriteNode) : outcome (list SimpleNodeManager * Shared * list WriteNode * list WriteNotification) :=
  match gs with
  | [] => Ret (managers, sh, items, [])
  | (i, refs) :: gs' =>
      match managers !! i with
      | None => write_groups now c gs' managers sh items
      | Some m =>
          let! (x, notes) := manager_write now c (pick items refs) m sh in
          let '(m, sh, new) := x in
          let! (x, notes') := write_groups now c gs' (<[i := m]> managers) sh (put_back items refs new) in
          Ret (x, notes ++ notes')
      end
  end.
(** [SessionActor::write]; a panic leaves what was written before it. *)
Definition write_nodes (now : DateTime) (c : AttributeContext) (managers : list SimpleNodeManager) (sh : Shared) (values : list WriteValue)
    : outcome (list SimpleNodeManager * Shared * list StatusCode * list WriteNotification) :=
  let items := map write_node_new values in
  let! (x, notes) := write_groups now c (groups (takes_write items) managers 0 (seq 0 (length items))) managers sh items in
  let '(managers, sh, items) := x in
  Ret (managers, sh, map wn_status items, notes).
Definition write_request (now : DateTime) (limit : Z) (session_open : bool) (c : AttributeContext) (managers : list SimpleNodeManager)
    (sh : Shared) (values : option (list WriteValue))
    : outcome (list SimpleNodeManager * Shared * result (list StatusCode) StatusCode * list WriteNotification) :=
  match values with
  | None | Some [] => Ret (managers, sh, Err BadNothingToDo, [])
  | Some l =>
      if limit <? zlen l then Ret (managers, sh, Err BadTooManyOperations, [])
      else if negb session_open then Ret (managers, sh, Err BadSessionClosed, [])
      else
        let! (x, notes) := write_nodes now c managers sh l in
        let '(managers, sh, statuses) := x in Ret (managers, sh, Ok statuses, notes)
  end.
End services.
