(* ===== verification/AttributeFacts.v ===== *)
(** * The Read service: what it guarantees

    The facts about the reads of [AttributeService]: each item of a Read is answered on its own by the
    first node manager that owns the node, and values are only shown where they may be read. *)

From S2P Require Import Prelude Text Float StatusCode NumericRange Variant RangeFacts NodeIdText VariantConvert BinaryVariant References TypeTree Nodes Rbac AddressSpace MonitoredItem Attributes FanOut AttributeService.
#[local] Open Scope Z_scope.

Lemma outcome_map_ret {A A'} (f : A -> outcome A') (l : list A) (l' : list A') :
  outcome_map f l = Ret l' <-> Forall2 (fun x y => f x = Ret y) l l'.
Proof.
  revert l'. induction l as [|x l IH]; intros l'; simpl.
  - split; [by intros [= <-]|]. by inversion 1.
  - rewrite outcome_bind_ret. setoid_rewrite outcome_bind_ret. split.
    + intros (y & Hy & ys & Hys%IH & [= <-]). by constructor.
    + inversion 1 as [|? y ? ys Hy Hys]; subst. apply IH in Hys. eauto.
Qed.

Section read.
Context {D : DynEncodable} {B : Bodies} {TC : TextCodecs} {RE : NodeIdRegex} {DT : DateText} {M : Moka} {O : RefOrder}.
Context (now : DateTime) (c : AttributeContext) (texts : LocalizedTexts) (max_age : f64) (t : TimestampsToReturn).

(** ** The reference: one item, one manager *)

Definition read_one (m : SimpleNodeManager) (r : ParsedReadValueId) : outcome DataValue :=
  if is_value (read_attribute r) then prepare_read_node_value c texts max_age t m r else space_read c texts r t (nm_space m).
Definition first_owner (managers : list SimpleNodeManager) (id : NodeId) : option SimpleNodeManager := find (fun m => owns_node m id) managers.
Definition read_item (managers : list SimpleNodeManager) (r : ReadValueId) : outcome DataValue :=
  match parse_read_value_id r with
  | Err e => Ret (error_value now (if e =? BadNodeIdUnknown then BadNodeIdInvalid else e))
  | Ok p =>
      if is_null_id (pr_node_id p) then Ret (error_value now BadNodeIdInvalid)
      else match first_owner managers (pr_node_id p) with
           | None => Ret (error_value now BadNodeIdUnknown)
           | Some m => read_one m p
           end
  end.

(** ** One manager *)

Definition answered (m : SimpleNodeManager) (r r' : ReadNode) : Prop := exists d, read_one m (rn_node r) = Ret d /\ r' = set_result d r.

Lemma read_two_phases m items items1 vals :
  Forall2 (fun x y => read_other c texts t m x = Ret y) items items1 ->
  Forall2 (fun x y => prepare_read_node_value c texts max_age t m x = Ret y) (map rn_node (List.filter reads_value items1)) vals ->
  Forall2 (answered m) items (zip_values items1 vals).
Proof.
  intros H. revert vals. induction H as [|r r1 items items1 Hr _ IH]; intros vals Hv; simpl in *; [constructor|].
  unfold read_other in Hr. destruct (reads_value r) eqn:Hrv.
  - injection Hr as <-. rewrite Hrv in Hv |- *. simpl in Hv. inversion Hv as [|? d ? vals' Hd Hv']; subst.
    constructor; [|by apply IH]. exists d. split; [|done]. unfold read_one. unfold reads_value in Hrv. by rewrite Hrv.
  - apply outcome_bind_ret in Hr as (d & Hd & [= <-]).
    assert (reads_value (set_result d r) = false) as Hrv' by done. rewrite Hrv' in Hv |- *.
    constructor; [|by apply IH]. exists d. split; [|done]. unfold read_one. unfold reads_value in Hrv. by rewrite Hrv.
Qed.
Lemma read_phases_of m items new : Forall2 (answered m) items new ->
  exists items1 vals, Forall2 (fun x y => read_other c texts t m x = Ret y) items items1
  /\ Forall2 (fun x y => prepare_read_node_value c texts max_age t m x = Ret y) (map rn_node (List.filter reads_value items1)) vals
  /\ zip_values items1 vals = new.
Proof.
  induction 1 as [|r r' items new (d & Hd & ->) _ (items1 & vals & H1 & H2 & <-)]; [by exists [], []|].
  destruct (reads_value r) eqn:Hrv.
  - exists (r :: items1), (d :: vals). simpl. rewrite Hrv. split_and!; [|simpl|done].
    + constructor; [|done]. unfold read_other. by rewrite Hrv.
    + constructor; [|done]. unfold read_one in Hd. unfold reads_value in Hrv. by rewrite Hrv in Hd.
  - exists (set_result d r :: items1), vals. simpl. assert (reads_value (set_result d r) = false) as -> by done.
    split_and!; [|done..]. constructor; [|done]. unfold read_other. rewrite Hrv. apply outcome_bind_ret. exists d.
    unfold read_one in Hd. unfold reads_value in Hrv. by rewrite Hrv in Hd.
Qed.
Lemma manager_read_spec m items x :
  manager_read c texts max_age t m items = Ret x <-> exists new, x = (new, Ok tt) /\ Forall2 (answered m) items new.
Proof.
  unfold manager_read, read_values. rewrite outcome_bind_ret. setoid_rewrite outcome_bind_ret. setoid_rewrite outcome_map_ret. split.
  - intros (items1 & H1 & vals & H2 & [= <-]). eexists. split; [done|]. by eapply read_two_phases.
  - intros (new & -> & (items1 & vals & H1 & H2 & <-)%read_phases_of). exists items1. split; [done|]. by exists vals.
Qed.

(** ** The groups *)

Definition group_of (managers : list SimpleNodeManager) (gs : list (nat * list nat)) (m : SimpleNodeManager) (i : nat) : Prop :=
  exists k g, (k, g) ∈ gs /\ i ∈ g /\ managers !! k = Some m.

Lemma read_groups_spec managers gs : forall items items',
  NoDup (refs_of gs) -> (forall k g, (k, g) ∈ gs -> Forall (fun i => (i < length items)%nat) g /\ is_Some (managers !! k)) ->
  read_groups now c texts max_age t managers gs items = Ret items' <->
  length items' = length items
  /\ (forall i x y, items !! i = Some x -> items' !! i = Some y ->
        (i ∉ refs_of gs -> y = x) /\ (forall m, group_of managers gs m i -> answered m x y)).
Proof.
  induction gs as [|[k g] gs IH]; intros items items' Hnd Hok.
  { simpl. split.
    - intros [= <-]. split; [done|]. intros i x y Hx Hy. split; [congruence|]. by intros m (? & ? & ?%not_elem_of_nil & _).
    - intros [Hl Hi]. f_equal. apply list_eq_same_length with (length items); [done..|]. intros i x y _ Hx Hy.
      symmetry. apply (Hi i); [done..|apply not_elem_of_nil]. }
  destruct (Hok k g) as [Hg [m Hm]]; [by left|]. unfold refs_of in Hnd. simpl in Hnd. apply NoDup_app in Hnd as (Hndg & Hdis & Hnd).
  assert (forall k' g' i, (k', g') ∈ gs -> i ∈ g' -> i ∈ refs_of gs) as Hrefs.
  { intros k' g' i Hin Hi. apply list_elem_of_In, in_concat. exists g'. split; [|by apply list_elem_of_In].
    apply list_elem_of_In, list_elem_of_fmap. by exists (k', g'). }
  assert (forall new items', length new = length g -> read_groups now c texts max_age t managers gs (put_back items g new) = Ret items' <->
    length items' = length items /\ (forall i x y, put_back items g new !! i = Some x -> items' !! i = Some y ->
        (i ∉ refs_of gs -> y = x) /\ (forall m, group_of managers gs m i -> answered m x y))) as IH'.
  { intros new l Hnew. rewrite IH; [by rewrite put_back_length|done|]. intros k' g' Hin. rewrite put_back_length. apply Hok. by right. }
  clear IH. simpl. rewrite Hm, outcome_bind_ret. setoid_rewrite manager_read_spec.
  assert (forall m' i, i ∈ g -> group_of managers ((k, g) :: gs) m' i -> m' = m) as Hhere.
  { intros m' i Hi (k' & g' & [[= -> ->]|Hin]%elem_of_cons & Hi' & Hm'); [congruence|]. by destruct (Hdis i Hi); apply (Hrefs k' g'). }
  assert (forall m' i, i ∉ g -> group_of managers ((k, g) :: gs) m' i <-> group_of managers gs m' i) as Hthere.
  { intros m' i Hi. unfold group_of. setoid_rewrite elem_of_cons. naive_solver. }
  assert (forall i, i ∉ refs_of ((k, g) :: gs) <-> i ∉ g /\ i ∉ refs_of gs) as Hnot.
  { intros i. unfold refs_of. simpl. rewrite elem_of_app. naive_solver. }
  assert (forall i, i ∈ g -> forall m', ~ group_of managers gs m' i) as Hnone.
  { intros i Hi m' (k' & g' & Hin & Hi' & _). by apply (Hdis i Hi), (Hrefs k' g'). }
  split.
  - intros (? & (new & -> & Hnew) & Hrest).
    assert (length new = length g) as Hl.
    { rewrite <-(Forall2_length _ _ _ Hnew). symmetry. eapply Forall2_length, pick_spec, Hg. }
    apply IH' in Hrest as [Hlen Hi]; [|done]. split; [done|]. intros i x y Hx Hy.
    destruct (decide (i ∈ g)) as [Hin|Hin].
    + split; [by intros [? _]%Hnot|]. intros m' Hm'. rewrite (Hhere m' i Hin Hm').
      rewrite <-(pick_put_back items g new) in Hnew by done.
      apply (proj1 (pick_related _ items (put_back items g new) g Hg (put_back_length _ _ _)) Hnew i); [done..|].
      destruct (lookup_lt_is_Some_2 (put_back items g new) i) as [z Hz]; [rewrite put_back_length; by eapply lookup_lt_Some|].
      rewrite Hz. f_equal. symmetry. by apply (Hi i), Hdis.
    + rewrite <-(put_back_other items g new) in Hx by done. destruct (Hi i x y Hx Hy) as [H1 H2].
      split; [intros [_ ?]%Hnot; auto|]. intros m' Hm'%Hthere; auto.
  - intros [Hlen Hi]. exists (pick items' g, Ok tt). split.
    + exists (pick items' g). split; [done|]. apply pick_related; [done..|]. intros i x y Hin Hx Hy. apply (Hi i x y Hx Hy).
      exists k, g. split_and!; [by left|done..].
    + assert (length (pick items' g) = length g) as Hl.
      { symmetry. eapply Forall2_length, pick_spec. by rewrite Hlen. }
      apply IH'; [done|]. split; [done|]. intros i x y Hx Hy. destruct (decide (i ∈ g)) as [Hin|Hin].
      * split; [|intros m' Hm'; by apply Hnone in Hm']. intros _.
        assert (pick (put_back items g (pick items' g)) g = pick items' g) as Hp by by apply pick_put_back.
        assert (Forall2 eq (pick (put_back items g (pick items' g)) g) (pick items' g)) as H2 by (rewrite Hp; reflexivity).
        rewrite pick_related in H2; [symmetry; by apply (H2 i)|by rewrite put_back_length|by rewrite put_back_length].
      * rewrite put_back_other in Hx by done. destruct (Hi i x y Hx Hy) as [H1 H2]. split; [|naive_solver].
        intros ?. apply H1. by apply Hnot.
Qed.
(** ** The items *)

(** The manager of an item: none when it was refused before. *)
Definition manager_of (managers : list SimpleNodeManager) (r : ReadValueId) : option SimpleNodeManager :=
  match parse_read_value_id r with
  | Err _ => None
  | Ok p => if is_null_id (pr_node_id p) then None else first_owner managers (pr_node_id p)
  end.
Definition wants (r : ReadValueId) (m : SimpleNodeManager) : bool :=
  match parse_read_value_id r with Err _ => false | Ok p => negb (is_null_id (pr_node_id p)) && owns_node m (pr_node_id p) end.
Lemma find_none {A} (l : list A) : find (fun _ => false) l = None.
Proof. by induction l. Qed.
Lemma find_wants managers r : find (wants r) managers = manager_of managers r.
Proof.
  unfold wants, manager_of, first_owner. destruct (parse_read_value_id r) as [p|]; [|apply find_none].
  destruct (is_null_id (pr_node_id p)); simpl; [apply find_none|done].
Qed.
Lemma takes_wants nodes i r m : nodes !! i = Some r -> takes_read (map (read_node_new now) nodes) i m = wants r m.
Proof.
  intros Hi. unfold takes_read. change (map (read_node_new now) nodes) with (read_node_new now <$> nodes).
  rewrite list_lookup_fmap, Hi. simpl. unfold read_node_new, wants, rn_status.
  destruct (parse_read_value_id r) as [p|e]; simpl; unfold new_status.
  - destruct (is_null_id (pr_node_id p)); simpl; by rewrite ?andb_false_r, ?andb_true_r.
  - change (is_null_id null_id) with true. cbn -[Z.eqb BadNodeIdUnknown BadNodeIdInvalid]. destruct (Z.eqb_spec e BadNodeIdUnknown) as [->|He]; simpl.
    + by rewrite andb_false_r.
    + apply Z.eqb_neq in He. by rewrite He, andb_false_r.
Qed.
Lemma read_item_cases managers r y :
  (manager_of managers r = None -> y = read_node_new now r) /\ (forall m, manager_of managers r = Some m -> answered m (read_node_new now r) y) <->
  exists d, read_item managers r = Ret d /\ y = set_result d (read_node_new now r).
Proof.
  unfold manager_of, read_item, answered, read_node_new. destruct (parse_read_value_id r) as [p|e]; simpl.
  - unfold new_status. destruct (is_null_id (pr_node_id p)); simpl.
    + split; [intros [H _]; rewrite (H eq_refl); by eexists|intros (d & [= <-] & ->); done].
    + destruct (first_owner managers (pr_node_id p)) as [m|].
      * split; [intros [_ H]; destruct (H m eq_refl) as (d & Hd & ->); by exists d|]. intros (d & Hd & ->). split; [done|]. intros m' [= <-]. by exists d.
      * split; [intros [H _]; rewrite (H eq_refl); by eexists|intros (d & [= <-] & ->); done].
  - unfold new_status. change (is_null_id null_id) with true. simpl.
    split; [intros [H _]; rewrite (H eq_refl); by eexists|intros (d & [= <-] & ->); done].
Qed.

Lemma read_nodes_spec managers nodes l :
  read_nodes now c texts max_age t managers nodes = Ret (Ok l) <-> Forall2 (fun r d => read_item managers r = Ret d) nodes l.
Proof.
  unfold read_nodes. set (items := map (read_node_new now) nodes). set (gs := groups _ _ _ _).
  pose proof (groups_distribution (takes_read items) managers (length items)) as Hd. fold gs in Hd.
  assert (length items = length nodes) as Hlen by apply length_map.
  assert (forall items', read_groups now c texts max_age t managers gs items = Ret items' <->
    Forall2 (fun r y => exists d, read_item managers r = Ret d /\ y = set_result d (read_node_new now r)) nodes items') as Hr.
  { intros items'. rewrite read_groups_spec;
      [|apply (dist_refs _ _ _ _ Hd)|intros k g Hg; split; [by eapply dist_bound|by eapply dist_manager]].
    assert (forall i r, nodes !! i = Some r -> items !! i = Some (read_node_new now r)
      /\ (i ∉ refs_of gs <-> manager_of managers r = None) /\ (forall m, group_of managers gs m i <-> manager_of managers r = Some m)) as Hi.
    { intros i r Hi. assert (i < length items)%nat by (rewrite Hlen; by eapply lookup_lt_Some). rewrite <-find_wants. split_and!.
      - unfold items. change (map _ nodes) with (read_node_new now <$> nodes). by rewrite list_lookup_fmap, Hi.
      - apply (dist_none _ _ _ _ _ _ Hd); [done|]. intros m. by apply takes_wants.
      - intros m. apply (dist_find _ _ _ _ _ _ _ Hd); [done|]. intros m'. by apply takes_wants. }
    rewrite Forall2_same_length_lookup, Hlen. split; intros [Hl H]; (split; [done|]).
    - intros i r y Hr Hy. destruct (Hi i r Hr) as (Hx & Hnone & Hgrp). apply read_item_cases.
      destruct (H i _ y Hx Hy) as [H1 H2]. split; [intros ?; by apply H1, Hnone|intros m ?; by apply H2, Hgrp].
    - intros i x y Hx Hy. destruct (lookup_lt_is_Some_2 nodes i) as [r Hr]; [rewrite <-Hlen; by eapply lookup_lt_Some|].
      destruct (Hi i r Hr) as (Hx' & Hnone & Hgrp). rewrite Hx' in Hx. injection Hx as <-.
      destruct (proj2 (read_item_cases managers r y) (H i r y Hr Hy)) as [H1 H2].
      split; [intros ?; by apply H1, Hnone|intros m ?; by apply H2, Hgrp]. }
  split.
  - destruct (read_groups now c texts max_age t managers gs items) as [items'| |] eqn:He; intros [= <-].
    clear He. pose proof (proj1 (Hr items') eq_refl) as He.
    clear -He. induction He as [|r y nodes' items'' (d & Hd' & ->) _ IH]; by constructor.
  - intros Hl. assert (read_groups now c texts max_age t managers gs items
        = Ret (zip_with (fun d r => set_result d (read_node_new now r)) l nodes)) as ->.
    { apply Hr. clear -Hl. induction Hl; simpl; constructor; eauto. }
    do 2 f_equal. clear -Hl. induction Hl; simpl; f_equal; done.
Qed.

(** ** Permissions *)

Definition may_read (n : NodeType) (a : AttributeId) : Prop :=
  validate_read_access (access c) = Ok tt
  /\ (if is_value a then is_readable (access c) n else is_attribute_readable (access c) n a) = Ok tt.
Lemma validate_read_permits r s n : space_validate_node_read c r s = Ok n ->
  find_node (pr_node_id r) s = Some n /\ may_read n (read_attribute r).
Proof.
  unfold space_validate_node_read, may_read, validate_node_read. destruct (find_node _ _) as [n'|]; simpl; [|done].
  destruct (validate_read_access _) as [[]|]; simpl; [|done].
  destruct (if is_value _ then _ else _) as [[]|] eqn:Hr; simpl; [|done].
  repeat match goal with |- context [if ?b then _ else _] => destruct b; [try done|] end; simpl; try done; by intros [= <-].
Qed.
Definition shown_to (managers : list SimpleNodeManager) (r : ReadValueId) : Prop :=
  exists p m n, parse_read_value_id r = Ok p /\ first_owner managers (pr_node_id p) = Some m
  /\ find_node (pr_node_id p) (nm_space m) = Some n /\ may_read n (read_attribute p).
Lemma read_item_shown managers r d : read_item managers r = Ret d -> dv_value d <> None -> shown_to managers r.
Proof.
  unfold read_item, read_one, prepare_read_node_value, space_read. destruct (parse_read_value_id r) as [p|] eqn:Hp; [|by intros [= <-]].
  destruct (is_null_id _); [by intros [= <-]|]. destruct (first_owner managers _) as [m|] eqn:Hm; [|by intros [= <-]].
  destruct (space_validate_node_read c p (nm_space m)) as [n|] eqn:Hn; [|by destruct (is_value _); intros [= <-]].
  intros _ _. apply validate_read_permits in Hn as [Hn Hmay]. by exists p, m, n.
Qed.
End read.

(** C25: The Read service answers a request exactly when its parameters are acceptable, its session is
    open and every item can be read on its own, and the answer is item by item: each attribute comes from
    the first node manager that owns the node, whatever the order in which the managers are asked and the
    values are fetched; an item without such a manager, with a null node id or a bad attribute, encoding
    or range has its own error.  A value is only shown where the session may read the attribute. *)
Theorem read_item_by_item {D : DynEncodable} {B : Bodies} {TC : TextCodecs} {RE : NodeIdRegex} {DT : DateText} {M : Moka} {O : RefOrder}
    now limit session_open c texts max_age t managers nodes l :
  read_request now limit session_open c texts max_age t managers nodes = Ret (Ok l) <->
  f64_lt max_age f64_zero = false /\ t <> InvalidTimestamps /\ session_open = true
  /\ exists items, nodes = Some items /\ 0 < zlen items <= limit
  /\ Forall2 (fun r d => read_item now c texts max_age t managers r = Ret d /\ (dv_value d <> None -> shown_to c managers r)) items l.
Proof.
  unfold read_request. destruct (f64_lt max_age f64_zero); [naive_solver|].
  assert (t = InvalidTimestamps \/ t <> InvalidTimestamps) as [->|Ht] by (destruct t; auto); [naive_solver|].
  transitivity (match nodes with
    | None | Some [] => Ret (Err BadNothingToDo)
    | Some l => if limit <? zlen l then Ret (Err BadTooManyOperations)
                else if negb session_open then Ret (Err BadSessionClosed)
                else read_nodes now c texts max_age t managers l
    end = Ret (Ok l)); [by destruct t|].
  destruct nodes as [[|r nodes]|]; [|set (items := r :: nodes)|].
  - split; [done|]. intros (_ & _ & _ & items & [= <-] & H & _). change (zlen (@nil ReadValueId)) with 0 in H. lia.
  - assert (0 < zlen items) by (unfold zlen, items; simpl; lia).
    destruct (Z.ltb_spec limit (zlen items)).
    { split; [done|]. intros (_ & _ & _ & items' & [= <-] & H' & _). lia. }
    destruct session_open; simpl; [|naive_solver]. rewrite read_nodes_spec. split.
    + intros H'. split_and!; [done..|]. exists items. split_and!; [done|lia..|].
      eapply Forall2_impl; [done|]. intros r' d Hd. split; [done|]. intros Hv. exact (read_item_shown _ _ _ _ _ _ _ _ Hd Hv).
    + intros (_ & _ & _ & items' & [= <-] & _ & H'). eapply Forall2_impl; [done|]. by intros ?? [? _].
  - naive_solver.
Qed.
