(* ===== verification/AttributeWriteFacts.v ===== *)
(** * The Write service: what it guarantees

    The facts about the writes of [AttributeService]: what a Write changes and what it may change, that
    a refusal has a bad status, what a Read returns after a Write, and what becomes of the localized
    texts of refused writes. *)

From S2P Require Import Prelude Text Float StatusCode NumericRange Variant RangeFacts NodeIdText VariantConvert BinaryVariant References TypeTree Nodes Rbac AddressSpace MonitoredItem Attributes FanOut AttributeService AttributeFacts.
#[local] Open Scope Z_scope.

(** ** Writing *)

Section write.
Context {D : DynEncodable} {B : Bodies} {TC : TextCodecs} {RE : NodeIdRegex} {DT : DateText} {M : Moka} {O : RefOrder}.

Definition range_numbers_u32 (r : NumericRange) : Prop := match r with NRMultiple rs => Forall range_u32 rs | _ => range_u32 r end.

Lemma set_range_of_multiple_error (a : Array) ranges others vs' e : Forall range_u32 ranges ->
  set_range_of_multiple a ranges others = (vs', Err e) -> vs' = values a.
Proof.
  intros Hr. unfold set_range_of_multiple. cbv zeta. set (dims := default _ _). clearbody dims.
  destruct (checked_dimension_product dims) as [n|] eqn:Hn; simpl; [|by intros [= <- _]].
  destruct (Z.eqb_spec n (zlen (values a))) as [->|]; simpl; [|by intros [= <- _]].
  destruct (Z.eqb_spec (zlen ranges) (zlen dims)) as [Hlen|]; simpl; [|by intros [= <- _]].
  assert (length ranges = length dims) as Hl by (unfold zlen in Hlen; lia).
  destruct (write_selections ranges dims) as [sels|] eqn:Hsels; simpl; [|by intros [= <- _]].
  pose proof (write_selections_in_dim _ _ _ Hr Hl Hsels) as Hin.
  destruct dims as [|d dims]; [inversion Hin; subst; simpl; destruct (negb _); by intros [= <- _]|].
  assert (sels <> []) as Hsne by (by intros ->; inversion Hin).
  pose proof (try_product_max 1 (d :: dims) _ ltac:(done) Hn) as Hmax. apply try_product_spec in Hn.
  assert (product (d :: dims) = zlen (values a)) as Hprod by lia.
  rewrite (selection_count_total _ _ Hsne Hin) by lia. cbn [ok_or result_bind].
  destruct (Z.eqb_spec (product (extents sels)) (zlen others)) as [Hext|]; simpl; [|by intros [= <- _]].
  rewrite row_major_indices_eq by (done || lia). cbn [ok_or].
  destruct (write_indices_spec others (selected (d :: dims) sels) (values a) 0) as (w & Hw & _); [done|by apply selected_NoDup| | |].
  - apply Forall_forall. intros i Hi. rewrite <-Hprod. by eapply selected_bound.
  - rewrite selected_length by done. lia.
  - intros H. unfold selected in Hw. rewrite Hw in H. done.
Qed.
Lemma set_range_error v r other v' e : range_numbers_u32 r -> set_range_of v r other = (v', Err e) -> v' = v.
Proof.
  intros Hr. unfold set_range_of. destruct (bool_decide _); cbn [negb]; [|by intros [= <- _]].
  destruct v; try (by intros [= <- _]).
  - unfold set_string_substring. destruct other; try (by intros [= <- _]). destruct s as [l|]; [|by intros [= <- _]].
    destruct (substring_write_bounds _ _) as [[lo hi]|]; [|by intros [= <- _]]. destruct (negb _); by intros [= <- _].
  - unfold set_bytestring_substring. destruct other; try (by intros [= <- _]). destruct b as [l|]; [|by intros [= <- _]].
    destruct (substring_write_bounds _ _) as [[lo hi]|]; [|by intros [= <- _]]. destruct (negb _); by intros [= <- _].
  - destruct other as [| | | | | | | | | | | | | | | | | | | | | | | | | |b]; try (by intros [= <- _]).
    destruct r as [|i|lo hi|rs|x]; try (by intros [= <- _]).
    + destruct (_ || _); [by intros [= <- _]|]. destruct (zlookup _ _), (head (values b)); by intros [= <- _].
    + destruct (_ <=? _); by intros [= <- _].
    + destruct (set_range_of_multiple a rs (values b)) as [vs [|]] eqn:Hs; intros [= <- <-].
      apply set_range_of_multiple_error in Hs as ->; [|done]. by destruct a.
Qed.

(** *** What a write leaves alone *)

(** A node without its value and without its role permissions. *)
Definition map_base (f : Base -> Base) (n : NodeType) : NodeType :=
  match n with
  | NtObject o => NtObject (mkObject (f (object_base o)) (object_event_notifier o))
  | NtVariable v => NtVariable (with_base (f (variable_base v)) v)
  | NtMethod m => NtMethod (mkMethod (f (method_base m)) (executable m) (user_executable m))
  | NtObjectType o => NtObjectType (mkObjectType (f (object_type_base o)) (object_type_is_abstract o))
  | NtVariableType v => NtVariableType (mkVariableType (f (variable_type_base v)) (vt_data_type v) (vt_is_abstract v) (vt_value_rank v)
                                          (vt_value v) (vt_array_dimensions v))
  | NtReferenceType r => NtReferenceType (mkReferenceType (f (reference_type_base r)) (symmetric r) (reference_type_is_abstract r) (inverse_name r))
  | NtDataType d => NtDataType (mkDataType (f (data_type_base d)) (data_type_is_abstract d) (data_type_definition d))
  | NtView v => NtView (mkView (f (view_base v)) (view_event_notifier v) (contains_no_loops v))
  end.
Definition with_roles (l : option (list RolePermissionType)) (b : Base) : Base :=
  mkBase (base_node_id b) (base_node_class b) (browse_name b) (display_name b) (description b) (write_mask b) (user_write_mask b) l
    (access_restrictions b).
Definition erase_value (n : NodeType) : NodeType :=
  match n with NtVariable v => NtVariable (set_variable_value dv_null v) | _ => n end.
Definition erase_roles : NodeType -> NodeType := map_base (with_roles None).
Definition core (n : NodeType) : NodeType := erase_roles (erase_value n).
Definition roles_of (n : NodeType) : option (list RolePermissionType) := role_permissions (node_base n).

Lemma erase_value_of n : erase_value n = map_base (with_roles (roles_of n)) (core n).
Proof. destruct n as [[[]]|[[]]|[[]]|[[]]|[[]]|[[]]|[[]]|[[]]]; reflexivity. Qed.
Lemma get_attribute_core t a r e n : a <> AtValue -> a <> AtRolePermissions -> get_attribute t a r e n = get_attribute t a r e (core n).
Proof.
  intros Hv Hr. destruct n as [[[]]|[[]]|[[]]|[[]]|[[]]|[[]]|[[]]|[[]]];
    destruct a; try done; reflexivity.
Qed.
Lemma get_attribute_value t r e n : get_attribute t AtRolePermissions r e n = get_attribute t AtRolePermissions r e (erase_value n).
Proof. by destruct n. Qed.
Lemma get_attribute_roles t r e n : get_attribute t AtValue r e n = get_attribute t AtValue r e (erase_roles n).
Proof. by destruct n. Qed.
Lemma is_writable_erase c n a : is_writable c n a = is_writable c (erase_value n) a.
Proof. by destruct n. Qed.
Lemma is_writable_same c n n' a : core n' = core n -> roles_of n' = roles_of n -> is_writable c n' a = is_writable c n a.
Proof. intros Hc Hr. by rewrite (is_writable_erase c n), (is_writable_erase c n'), !erase_value_of, Hc, Hr. Qed.
Lemma core_value n n' : erase_value n' = erase_value n -> core n' = core n /\ roles_of n' = roles_of n.
Proof.
  intros H. split; [by unfold core; rewrite H|]. assert (forall m, roles_of m = roles_of (erase_value m)) as Hr by by destruct m.
  by rewrite (Hr n), (Hr n'), H.
Qed.
Lemma core_roles n n' : erase_roles n' = erase_roles n -> core n' = core n.
Proof.
  intros H. assert (forall m, core m = erase_value (erase_roles m)) as Hc by by destruct m. by rewrite !Hc, H.
Qed.

(** *** One write *)

Lemma set_value_range_frame val r status s1 s2 var var' res : range_numbers_u32 r ->
  set_value_range val r status s1 s2 var = (var', res) ->
  erase_value (NtVariable var') = erase_value (NtVariable var) /\ (forall e, res = Err e -> var' = var).
Proof.
  intros Hr. unfold set_value_range.
  assert (forall full e0, set_range_of full r val = (full, Err e0) -> dv_value (value var) = Some full ->
    set_variable_value (dv_set_value (value var) (Some full)) var = var) as Hsame.
  { intros full e0 _ Hv. destruct var as [? ? ? ? [] ? ? ? ? ?]. simpl in *. by rewrite <-Hv. }
  destruct r; try (by intros [= <- <-]);
    (destruct (dv_value (value var)) as [full|]; [|by intros [= <- <-]];
     destruct (set_range_of full _ val) as [full' [|e]] eqn:Hs; intros [= <- <-]; [done|];
     split; [done|]; intros e' _; pose proof (set_range_error _ _ _ _ _ Hr Hs) as ->; by eapply Hsame).
Qed.
Lemma base_set_roles v b b' : base_set AtRolePermissions v b = Ok b' -> with_roles None b' = with_roles None b.
Proof.
  destruct b. simpl. destruct v; try done. destruct (collect _ _) as [l|]; simpl; [|done]. by intros [= <-].
Qed.
Lemma set_attribute_roles now v n n' : set_attribute now AtRolePermissions v n = Ret (Ok n') -> erase_roles n' = erase_roles n.
Proof.
  assert (forall b b', base_set AtRolePermissions v b = Ok b' -> with_roles None b' = with_roles None b) as Hb
    by (intros; by apply (base_set_roles v)).
  destruct n as [x|x|x|x|x|x|x|x]; unfold erase_roles;
    (destruct x as [b]; cbn -[base_set]; destruct (base_set AtRolePermissions v b) as [b'|] eqn:H; cbn -[base_set]; [|done];
    apply Hb in H; intros [= <-]; simpl; by rewrite H).
Qed.

Lemma write_node_value_other now n p texts : is_value (pw_attribute_id p) = false ->
  write_node_value now n p texts =
  let v := default VEmpty (dv_value (pw_value p)) in
  match validate_attribute_value_to_write (pw_attribute_id p) v with
  | Err e => Ret (n, texts, Err e)
  | Ok _ =>
      let! r := set_attribute now (pw_attribute_id p) v n in
      Ret (match r with
           | Err e => (n, texts, Err e)
           | Ok n' => (n', remember_localized_text_attribute_value (node_id_of n) (pw_attribute_id p) v texts, Ok tt)
           end)
  end.
Proof. intros H. unfold write_node_value. rewrite H. by destruct n. Qed.
Lemma write_node_value_frame now n p texts n' texts' res : range_numbers_u32 (pw_index_range p) ->
  (if is_value (pw_attribute_id p) then is_variable n = true else pw_attribute_id p = AtRolePermissions) ->
  write_node_value now n p texts = Ret (n', texts', res) ->
  (forall e, res = Err e -> n' = n)
  /\ (if is_value (pw_attribute_id p) then erase_value n' = erase_value n else erase_roles n' = erase_roles n).
Proof.
  intros Hr Ha. destruct (is_value (pw_attribute_id p)) eqn:Hv.
  - unfold write_node_value. rewrite Hv. destruct n as [| | |var| | | |]; try done.
    destruct (value_to_store _ _) as [v|]; [|by intros [= <- <- <-]].
    destruct (set_value_range _ _ _ _ _ _) as [var' r] eqn:Hs. intros [= <- <- <-].
    destruct (set_value_range_frame _ _ _ _ _ _ _ _ Hr Hs) as [H1 H2]. split; [|done]. intros e ->. by rewrite (H2 e).
  - rewrite write_node_value_other, Ha by done. cbv zeta.
    destruct (validate_attribute_value_to_write _ _) as [[]|]; [|by intros [= <- <- <-]].
    destruct (set_attribute now AtRolePermissions _ n) as [[n1|e1]| |] eqn:Hs; intros [= <- <- <-]; [|done].
    split; [done|]. by eapply set_attribute_roles.
Qed.

Lemma validate_write_permits c p s sh sh' n : space_validate_node_write c p s sh = Ret (sh', Ok n) ->
  find_node (pw_node_id p) s = Some n /\ is_writable (access c) n (pw_attribute_id p) = Ok tt
  /\ (is_value (pw_attribute_id p) = false -> has_range (pw_index_range p) = false)
  /\ exists v, dv_value (pw_value p) = Some v /\ validate_write_locale c (pw_attribute_id p) v = Ok tt
     /\ sh_texts sh' = remember_localized_text_attribute_value (node_id_of n) (pw_attribute_id p) v (sh_texts sh).
Proof.
  unfold space_validate_node_write, validate_node_write. destruct (find_node _ s) as [n0|]; [|done]. cbv zeta.
  destruct (is_writable (access c) n0 _) as [[]|] eqn:Hw; simpl; [|done].
  destruct (negb (is_value _) && has_range _) eqn:Hr; simpl; [done|].
  destruct (dv_value (pw_value p)) as [v|]; simpl; [|done].
  destruct (validate_attribute_value_to_write _ v) as [[]|]; simpl; [|done].
  destruct (validate_write_locale c _ v) as [[]|] eqn:Ha; simpl; [|done].
  destruct (if is_value _ then _ else _) as [[t [[]|]]| |]; simpl; try done. intros [= <- <-].
  split_and!; [done..| |by exists v].
  intros Hv. by rewrite Hv in Hr.
Qed.

Lemma validate_write_refused c p s sh sh' e : space_validate_node_write c p s sh = Ret (sh', Err e) -> sh_texts sh' = sh_texts sh.
Proof.
  unfold space_validate_node_write, validate_node_write. destruct (find_node _ s) as [n|]; [|by intros [= <- _]]. cbv zeta.
  match goal with |- context [match ?m with Err _ => _ | Ok _ => _ end] => destruct m as [v|e0]; [|by intros [= <- _]] end.
  destruct (if is_value _ then _ else _) as [[t [[]|]]| |]; simpl; try done. by intros [= <- _].
Qed.

(** *** Localized texts *)

(** Texts are recorded under the attribute that was written, only for a localized one. *)
Lemma remember_other id a v texts id' a' :
  remember_localized_text_attribute_value id a v texts !! (id', a') = texts !! (id', a')
  \/ id' = id /\ a' = a /\ is_localized_text_attribute a = true /\ exists x, v = VLocalizedText x.
Proof.
  unfold remember_localized_text_attribute_value. destruct (is_localized_text_attribute a); simpl; [|by left].
  destruct v as [| | | | | | | | | | | | | | | | | | | | |x| | | | |]; try (by left).
  destruct (decide ((id, a) = (id', a'))) as [[= <- <-]|Hne]; [right; by eauto|left].
  repeat case_match; by rewrite ?lookup_delete_ne, ?lookup_insert_ne by done.
Qed.
(** An item that names an attribute of a node that has this id, which the session may write. *)
Definition tried (allowed : NodeType -> AttributeId -> Prop) (m : SimpleNodeManager) (p : ParsedWriteValue) (id : NodeId) (a : AttributeId) : Prop :=
  exists n x, find_node (pw_node_id p) (nm_space m) = Some n /\ node_id_of n = id /\ pw_attribute_id p = a
  /\ is_localized_text_attribute a = true /\ dv_value (pw_value p) = Some (VLocalizedText x) /\ allowed n a.
Definition may_write (c : AttributeContext) (n : NodeType) (a : AttributeId) : Prop := is_writable (access c) n a = Ok tt.
Lemma ret_shared {A B' C E} (a a' : A) (b b' : B') (x x' : C) (y y' : E) : Ret (a, b, x, y) = Ret (a', b', x', y') -> b' = b.
Proof. by intros [= _ <- _ _]. Qed.
Lemma write_one_texts now c w m sh m' sh' w' note id a : write_one now c w m sh = Ret (m', sh', w', note) ->
  sh_texts sh' !! (id, a) = sh_texts sh !! (id, a) \/ tried (may_write c) m (wn_value w) id a.
Proof.
  unfold write_one. rewrite outcome_bind_ret. intros ([sh1 [n|e]] & Hv & H).
  2:{ apply validate_write_refused in Hv. apply ret_shared in H as ->. left. by rewrite Hv. }
  apply validate_write_permits in Hv as (Hn & Hw & _ & v & Hval & _ & Ht). set (p := wn_value w) in *.
  assert (sh_texts sh1 !! (id, a) = sh_texts sh !! (id, a) \/ tried (may_write c) m p id a) as Hfirst.
  { rewrite Ht. destruct (remember_other (node_id_of n) (pw_attribute_id p) v (sh_texts sh) id a) as [?|(-> & -> & Ha & x & ->)]; [by left|].
    right. by exists n, x. }
  destruct (_ || _) eqn:Hskip; [apply ret_shared in H as ->; exact Hfirst|].
  set (callback := if is_value (pw_attribute_id p) then write_cbs m !! node_id_of n else None) in H.
  destruct callback as [cb|]; [apply ret_shared in H as ->; exact Hfirst|].
  destruct (dv_value (pw_value p)); [|apply ret_shared in H as ->; exact Hfirst].
  apply outcome_bind_ret in H as ([[n' texts] r] & Hwn & H).
  assert (texts = sh_texts sh1) as ->.
  { apply orb_false_iff in Hskip as [Hvar Hroles]. destruct (is_value (pw_attribute_id p)) eqn:Hval'; simpl in Hvar, Hroles.
    - unfold write_node_value in Hwn. rewrite Hval' in Hwn. destruct n; try done. destruct (value_to_store _ _); [|by injection Hwn as _ <- _].
      destruct (set_value_range _ _ _ _ _ _). by injection Hwn as _ <- _.
    - rewrite write_node_value_other in Hwn by done. apply negb_false_iff, bool_decide_eq_true in Hroles. rewrite Hroles in Hwn. cbv zeta in Hwn.
      destruct (validate_attribute_value_to_write _ _); [|by injection Hwn as _ <- _].
      destruct (set_attribute _ _ _ _) as [[]| |]; try done; by injection Hwn as _ <- _. }
  destruct r as [[]|]; [apply outcome_bind_ret in H as (? & _ & H)|]; apply ret_shared in H as ->; exact Hfirst.
Qed.

Definition wrote (c : AttributeContext) (p : ParsedWriteValue) (m m' : SimpleNodeManager) : Prop :=
  exists n n', find_node (pw_node_id p) (nm_space m) = Some n
  /\ m' = set_space (replace_node (pw_node_id p) n' (nm_space m)) m
  /\ is_writable (access c) n (pw_attribute_id p) = Ok tt
  /\ ((pw_attribute_id p = AtValue /\ erase_value n' = erase_value n)
      \/ (pw_attribute_id p = AtRolePermissions /\ erase_roles n' = erase_roles n)).

Lemma replace_same id n m : find_node id (nm_space m) = Some n -> set_space (replace_node id n (nm_space m)) m = m.
Proof.
  destruct m as [[nodes refs index ns] ? ? ?]. unfold set_space, replace_node, find_node. simpl. intros H. by rewrite insert_id.
Qed.
Lemma write_one_frame now c w m sh m' sh' w' note : range_numbers_u32 (pw_index_range (wn_value w)) ->
  write_one now c w m sh = Ret (m', sh', w', note) ->
  wn_value w' = wn_value w /\ (m' = m \/ wn_status w' = Good /\ wrote c (wn_value w) m m').
Proof.
  intros Hr. unfold write_one. set (goal := _ /\ _).
  assert (forall sh1 s note1, Ret (m, sh1, set_write_status s w, note1) = Ret (m', sh', w', note) -> goal) as Hsame.
  { intros sh1 s note1 [= <- <- <- <-]. split; [reflexivity|left; reflexivity]. }
  rewrite outcome_bind_ret. intros ([sh1 [n|e]] & Hv & H); [|by eapply Hsame].
  apply validate_write_permits in Hv as (Hn & Hw & _ & _). set (p := wn_value w) in *. set (a := pw_attribute_id p) in *.
  destruct (_ || _) eqn:Hskip; [by eapply Hsame|].
  apply orb_false_iff in Hskip as [Hvar Hroles].
  assert (if is_value a then is_variable n = true else a = AtRolePermissions) as Ha.
  { destruct (is_value a) eqn:Hval; simpl in Hvar, Hroles; [by apply negb_false_iff in Hvar|].
    apply negb_false_iff in Hroles. by apply bool_decide_eq_true in Hroles. }
  set (callback := if is_value a then write_cbs m !! node_id_of n else None) in H.
  destruct callback as [cb|]; [by eapply Hsame|]. destruct (dv_value (pw_value p)); [|by eapply Hsame].
  apply outcome_bind_ret in H as ([[n' texts] r] & Hwn & H).
  destruct (write_node_value_frame _ _ _ _ _ _ _ Hr Ha Hwn) as [Herr Hok].
  destruct r as [[]|e]; unfold goal; clear Hsame goal.
  - apply outcome_bind_ret in H as (note' & _ & [= <- <- <- <-]). split; [done|]. right. split; [done|].
    exists n, n'. split; [exact Hn|]. split; [reflexivity|]. split; [exact Hw|]. fold p a in Hok |- *.
    destruct (is_value a) eqn:Hval; [left|right; by split]. split; [by apply bool_decide_eq_true in Hval|exact Hok].
  - injection H as <- <- <- <-. split; [done|]. left. rewrite (Herr e) by done. by apply replace_same.
Qed.

(** *** The writes of a manager *)

Definition asked (items : list WriteNode) (id : NodeId) (a : AttributeId) : Prop :=
  exists w, w ∈ items /\ wn_status w = Good /\ pw_node_id (wn_value w) = id /\ pw_attribute_id (wn_value w) = a.
(** How a node that was [n0] has become [n] by writes of the attributes [asks]. *)
Definition node_changed (c : AttributeContext) (asks : AttributeId -> Prop) (n0 n : NodeType) : Prop :=
  let roles := asks AtRolePermissions /\ may_write c n0 AtRolePermissions in
  core n = core n0 /\ (roles_of n = roles_of n0 \/ roles)
  /\ (erase_roles n = erase_roles n0 \/ asks AtValue /\ (may_write c n0 AtValue \/ roles)).
Definition node_changes (c : AttributeContext) (items : list WriteNode) (id : NodeId) : NodeType -> NodeType -> Prop :=
  node_changed c (asked items id).
(** An attribute the session may write in the state before, or after it wrote the role permissions. *)
Definition allowed (c : AttributeContext) (asks : AttributeId -> Prop) (n : NodeType) (a : AttributeId) : Prop :=
  may_write c n a \/ asks AtRolePermissions /\ may_write c n AtRolePermissions.
Definition changes (c : AttributeContext) (items : list WriteNode) (m0 m : SimpleNodeManager) : Prop :=
  m = set_space (mkSpace (node_map (nm_space m)) (AddressSpace.references (nm_space m0)) (browse_name_index (nm_space m0))
                   (space_namespaces (nm_space m0))) m0
  /\ forall id, option_relation (node_changes c items id) (fun _ => False) (fun _ => False) (find_node id (nm_space m0)) (find_node id (nm_space m)).

Lemma asked_mono items items' id a : items ⊆ items' -> asked items id a -> asked items' id a.
Proof. intros Hs (w & Hw & H). exists w. split; [by apply Hs|done]. Qed.
Lemma node_changed_mono c (asks asks' : AttributeId -> Prop) n0 n : (forall a, asks a -> asks' a) -> node_changed c asks n0 n -> node_changed c asks' n0 n.
Proof. intros Ha (Hc & Hr & Hv). split; [done|]. naive_solver. Qed.
Lemma node_changes_mono c items items' id n0 n : items ⊆ items' -> node_changes c items id n0 n -> node_changes c items' id n0 n.
Proof. intros Hs. apply node_changed_mono. intros a. by apply asked_mono. Qed.
(** What may be written after some items could be written before them, or after the role permissions were. *)
Lemma changed_allowed c asks n0 n a : node_changed c asks n0 n -> may_write c n a -> node_id_of n = node_id_of n0 /\ allowed c asks n0 a.
Proof.
  intros (Hc & Hr & _) Hm. split.
  - assert (forall n, node_id_of n = node_id_of (core n)) as Hid by by destruct n1. by rewrite (Hid n), Hc, <-Hid.
  - destruct Hr as [Hr|Hr]; [left|by right]. unfold may_write in *. by rewrite <-(is_writable_same _ n0 n).
Qed.
Lemma changes_refl c m : changes c [] m m.
Proof.
  split; [by destruct m as [[] ? ? ?]|]. intros id. destruct (find_node id (nm_space m)); simpl; [|done].
  split; [done|]. split; by left.
Qed.
Lemma node_changes_step c items id w n0 n n' :
  node_changes c items id n0 n -> may_write c n (pw_attribute_id (wn_value w)) -> wn_status w = Good -> pw_node_id (wn_value w) = id ->
  (pw_attribute_id (wn_value w) = AtValue /\ erase_value n' = erase_value n)
  \/ (pw_attribute_id (wn_value w) = AtRolePermissions /\ erase_roles n' = erase_roles n) ->
  node_changes c (items ++ [w]) id n0 n'.
Proof.
  intros (Hc & Hr & Hv) Hm Hg Hid Ha.
  assert (items ⊆ items ++ [w]) as Hsub by set_solver.
  assert (asked (items ++ [w]) id (pw_attribute_id (wn_value w))) as Hw by (exists w; split; [set_solver|done]).
  pose proof (fun a => asked_mono _ _ id a Hsub) as Hmono. unfold may_write in *. split; [|split].
  - destruct Ha as [[_ H]|[_ H]]; [apply core_value in H as [-> _]|apply core_roles in H as ->]; done.
  - destruct Ha as [[Ha H]|[Ha H]].
    + apply core_value in H as [_ ->]. destruct Hr as [Hr|[? ?]]; [by left|right; auto].
    + right. rewrite Ha in Hm, Hw. destruct Hr as [Hr|[? ?]]; [|auto]. split; [done|]. unfold may_write; by rewrite <-(is_writable_same _ n0 n).
  - destruct Ha as [[Ha H]|[Ha H]].
    + right. rewrite Ha in Hm, Hw. split; [done|]. destruct Hr as [Hr|[? ?]]; [|right; auto].
      left. unfold may_write; by rewrite <-(is_writable_same _ n0 n).
    + rewrite H. destruct Hv as [?|[? [?|[? ?]]]]; [by left|right..]; auto.
Qed.

Lemma changes_step c items m0 m m' w w' :
  changes c items m0 m -> wn_value w' = wn_value w -> m' = m \/ wn_status w' = Good /\ wrote c (wn_value w) m m' ->
  changes c (items ++ [w']) m0 m'.
Proof.
  intros [Hm Hn] Hv H. assert (items ⊆ items ++ [w']) as Hsub by set_solver.
  assert (forall id, option_relation (node_changes c (items ++ [w']) id) (fun _ => False) (fun _ => False)
    (find_node id (nm_space m0)) (find_node id (nm_space m))) as Hn'.
  { intros id. specialize (Hn id). destruct (find_node id (nm_space m0)), (find_node id (nm_space m)); simpl in *; try done.
    by eapply node_changes_mono. }
  destruct H as [->|[Hg (n & n' & Hf & -> & Hw & Ha)]]; [by split|]. split.
  - rewrite Hm. reflexivity.
  - intros id. unfold set_space, replace_node, find_node. simpl. destruct (decide (id = pw_node_id (wn_value w))) as [->|Hne].
    + rewrite lookup_insert_eq. specialize (Hn (pw_node_id (wn_value w))). rewrite Hf in Hn. unfold find_node in Hn.
      destruct (node_map (nm_space m0) !! _) as [n0|]; simpl in *; [|done]. rewrite <-Hv in *. by eapply node_changes_step.
    + rewrite lookup_insert_ne by done. apply Hn'.
Qed.

Lemma changes_mono c items items' m0 m : items ⊆ items' -> changes c items m0 m -> changes c items' m0 m.
Proof.
  intros Hs [Hm Hn]. split; [done|]. intros id. specialize (Hn id).
  destruct (find_node id (nm_space m0)), (find_node id (nm_space m)); simpl in *; try done. by eapply node_changes_mono.
Qed.
(** The texts that were recorded by the items [ws] of the request, while those of [items] were performed. *)
Definition texts_changed (c : AttributeContext) (items ws : list WriteNode) (m0 : SimpleNodeManager) (texts texts' : LocalizedTexts) : Prop :=
  forall id a, texts' !! (id, a) = texts !! (id, a)
    \/ exists w, w ∈ ws /\ tried (allowed c (asked items (pw_node_id (wn_value w)))) m0 (wn_value w) id a.
Lemma tried_before c items m0 m p id a : changes c items m0 m -> tried (may_write c) m p id a ->
  tried (allowed c (asked items (pw_node_id p))) m0 p id a.
Proof.
  intros [_ Hn] (n & x & Hf & Hid & Ha & Hl & Hx & Hm). specialize (Hn (pw_node_id p)). rewrite Hf in Hn.
  destruct (find_node (pw_node_id p) (nm_space m0)) as [n0|] eqn:Hf0; simpl in Hn; [|done].
  destruct (changed_allowed _ _ _ _ _ Hn Hm) as [Hid0 Hall]. exists n0, x. by split_and!; [|congruence|..].
Qed.
Lemma manager_write_changes now c items m0 : forall l m sh m' sh' ws notes,
  Forall (fun w => range_numbers_u32 (pw_index_range (wn_value w))) l -> changes c items m0 m ->
  manager_write now c l m sh = Ret (m', sh', ws, notes) ->
  Forall2 (fun w w' => wn_value w' = wn_value w) l ws /\ changes c (items ++ ws) m0 m'
  /\ texts_changed c (items ++ ws) ws m0 (sh_texts sh) (sh_texts sh').
Proof.
  revert items. intros items l. revert items. induction l as [|w l IH]; intros items m sh m' sh' ws notes Hr Hc; simpl.
  { intros [= <- <- <- <-]. split; [constructor|]. rewrite app_nil_r. split; [done|]. by left. }
  inversion Hr as [|? ? Hw Hl]; subst. rewrite outcome_bind_ret. intros ([[[m1 sh1] w1] note] & H1 & H).
  apply outcome_bind_ret in H as ([[[m2 sh2] ws2] notes2] & H2 & [= <- <- <- <-]).
  destruct (write_one_frame _ _ _ _ _ _ _ _ _ Hw H1) as [Hv Hcase].
  destruct (IH (items ++ [w1]) m1 sh1 m2 sh2 ws2 notes2) as (Hvs & Hch & Htx); [done| |done|].
  - by eapply changes_step.
  - rewrite <-app_assoc in Hch, Htx. split; [by constructor|]. split; [done|]. intros id a.
    destruct (Htx id a) as [->|(w' & Hw' & ?)]; [|right; exists w'; split; [by right|done]].
    destruct (write_one_texts _ _ _ _ _ _ _ _ _ id a H1) as [->|Ht]; [by left|right]. exists w1. split; [by left|].
    rewrite Hv. eapply tried_before; [|exact Ht]. eapply changes_mono; [|exact Hc]. set_solver.
Qed.

(** *** The groups *)

Definition ranges_ok (items : list WriteNode) : Prop := Forall (fun w => range_numbers_u32 (pw_index_range (wn_value w))) items.
Lemma pick_forall (P : WriteNode -> Prop) items refs : Forall P items -> Forall P (pick items refs).
Proof.
  intros H. rewrite Forall_forall in H. induction refs as [|r refs IH]; simpl; [constructor|].
  destruct (items !! r) as [x|] eqn:Hx; [|done]. constructor; [|done]. apply H. by eapply list_elem_of_lookup_2.
Qed.
Lemma ranges_ok_values items items' : Forall2 (fun w w' => wn_value w' = wn_value w) items items' -> ranges_ok items -> ranges_ok items'.
Proof.
  unfold ranges_ok. induction 1 as [|w w' items items' Hw _ IH]; [constructor|].
  inversion 1; subst. constructor; [by rewrite Hw|auto].
Qed.
Lemma put_back_values items g new : NoDup g -> Forall (fun i => (i < length items)%nat) g ->
  Forall2 (fun w w' => wn_value w' = wn_value w) (pick items g) new ->
  Forall2 (fun w w' => wn_value w' = wn_value w) items (put_back items g new).
Proof.
  intros Hnd Hb H. assert (length new = length g) as Hl.
  { rewrite <-(Forall2_length _ _ _ H). symmetry. eapply Forall2_length, pick_spec, Hb. }
  rewrite <-(pick_put_back items g new) in H by done.
  rewrite pick_related in H by (done || apply put_back_length). apply Forall2_same_length_lookup. split; [by rewrite put_back_length|].
  intros i x y Hx Hy. destruct (decide (i ∈ g)) as [Hi|Hi]; [by apply (H i)|].
  rewrite put_back_other in Hy by done. congruence.
Qed.

Lemma write_groups_spec now c gs : forall managers sh items managers' sh' items' notes,
  NoDup (map fst gs) -> NoDup (refs_of gs) -> (forall k g, (k, g) ∈ gs -> Forall (fun i => (i < length items)%nat) g) ->
  ranges_ok items -> write_groups now c gs managers sh items = Ret (managers', sh', items', notes) ->
  length managers' = length managers /\ Forall2 (fun w w' => wn_value w' = wn_value w) items items'
  /\ (forall i, i ∉ refs_of gs -> items' !! i = items !! i)
  /\ (forall k, k ∉ map fst gs -> managers' !! k = managers !! k)
  /\ (forall k g m, (k, g) ∈ gs -> managers !! k = Some m -> exists m', managers' !! k = Some m' /\ changes c (pick items' g) m m')
  /\ (forall id a, sh_texts sh' !! (id, a) = sh_texts sh !! (id, a) \/ exists k g m w, (k, g) ∈ gs /\ managers !! k = Some m
        /\ w ∈ pick items' g /\ tried (allowed c (asked (pick items' g) (pw_node_id (wn_value w)))) m (wn_value w) id a).
Proof.
  induction gs as [|[k g] gs IH]; intros managers sh items managers' sh' items' notes Hk Hnd Hb Hr; simpl.
  { intros [= <- <- <- <-]. split_and!; [done| |done..|by intros ??? ?%not_elem_of_nil|by left]. by apply Forall_Forall2_diag, Forall_true. }
  unfold refs_of in Hnd. simpl in Hk, Hnd. apply NoDup_cons in Hk as [Hk Hks]. apply NoDup_app in Hnd as (Hndg & Hdis & Hnd).
  assert (forall k' g', (k', g') ∈ gs -> k' <> k) as Hkeys by (intros k' g' Hin ->; apply Hk, list_elem_of_fmap; by exists (k, g')).
  assert (Hg : Forall (fun i => (i < length items)%nat) g) by (apply (Hb k); by left).
  assert (Hb' : forall k' g', (k', g') ∈ gs -> Forall (fun i => (i < length items)%nat) g') by (intros; eapply Hb; by right).
  destruct (managers !! k) as [m|] eqn:Hm.
  - rewrite outcome_bind_ret. intros ([[[m1 sh1] new] note1] & H1 & H).
    apply outcome_bind_ret in H as ([[[ms2 sh2] items2] notes2] & H2 & [= <- <- <- <-]).
    destruct (manager_write_changes now c [] m _ m sh m1 sh1 new note1 (pick_forall _ items g Hr) (changes_refl c m) H1) as (Hvals & Hch & Htx).
    pose proof (put_back_values items g new Hndg Hg Hvals) as Hput.
    destruct (IH (<[k:=m1]> managers) sh1 (put_back items g new) ms2 sh2 items2 notes2) as (Hl & Hv & Hoth & Hmo & Hch2 & Htx2);
      [done|done| |by eapply ranges_ok_values|done|].
    { intros k' g' Hin. rewrite put_back_length. by eapply Hb'. }
    assert (pick items2 g = new) as Hpick.
    { rewrite (pick_same items2 (put_back items g new)); [|intros r Hr'; apply Hoth; auto].
      rewrite pick_put_back; [done..|]. rewrite <-(Forall2_length _ _ _ Hvals). symmetry. eapply Forall2_length, pick_spec, Hg. }
    split; [by rewrite Hl, length_insert|]. split; [|split; [|split; [|split]]].
    + apply Forall2_same_length_lookup. apply Forall2_same_length_lookup in Hput as [Hpl Hput]. apply Forall2_same_length_lookup in Hv as [Hvl Hv].
      split; [lia|]. intros i x y Hx Hy.
      destruct (lookup_lt_is_Some_2 (put_back items g new) i) as [z Hz]; [rewrite <-Hpl; by eapply lookup_lt_Some|].
      by rewrite (Hv i z y Hz Hy), (Hput i x z Hx Hz).
    + intros i. unfold refs_of. simpl. rewrite elem_of_app. intros Hi. rewrite Hoth by auto. apply put_back_other; auto.
    + intros k'. rewrite elem_of_cons. intros Hk'. rewrite Hmo by auto. apply list_lookup_insert_ne. auto.
    + intros k' g' m' [[= -> ->]|Hin]%elem_of_cons Hm'.
      * rewrite Hm in Hm'. injection Hm' as <-. exists m1. rewrite Hmo by done. split; [apply list_lookup_insert_eq; by eapply lookup_lt_Some|].
        by rewrite Hpick.
      * apply (Hch2 k'); [done|]. rewrite list_lookup_insert_ne; [done|]. intros ->. by apply (Hkeys k' g').
    + intros id a. destruct (Htx2 id a) as [->|(k' & g' & m' & w & Hin & Hm' & Hw)].
      * destruct (Htx id a) as [->|(w & Hw & Ht)]; [by left|right]. exists k, g, m, w. rewrite Hpick. split; [by left|]. by split.
      * right. exists k', g', m', w. rewrite list_lookup_insert_ne in Hm' by (intros ->; by apply (Hkeys k' g')). split; [by right|]. by split.
  - intros H. destruct (IH managers sh items managers' sh' items' notes) as (Hl & Hv & Hoth & Hmo & Hch2 & Htx2); [done..|].
    split_and!; [done..| | | |].
    + intros i. unfold refs_of. simpl. rewrite elem_of_app. intros Hi. apply Hoth; auto.
    + intros k'. rewrite elem_of_cons. intros Hk'. apply Hmo; auto.
    + intros k' g' m' [[= -> ->]|Hin]%elem_of_cons Hm'; [congruence|by eapply Hch2].
    + intros id a. destruct (Htx2 id a) as [?|(k' & g' & m' & w & Hin & Hw)]; [by left|right]. exists k', g', m', w. split; [by right|done].
Qed.

(** *** The request *)

(** An item of the request for the attribute of the node that was answered with [Good]. *)
Definition written (values : option (list WriteValue)) (res : result (list StatusCode) StatusCode) (id : NodeId) (a : AttributeId) : Prop :=
  exists l statuses j w p, values = Some l /\ res = Ok statuses /\ l !! j = Some w /\ statuses !! j = Some Good
  /\ parse_write_value w = Ok p /\ pw_node_id p = id /\ pw_attribute_id p = a.

Lemma takes_write_parsed l j w m : l !! j = Some w ->
  takes_write (map write_node_new l) j m
  = match parse_write_value w with Err _ => false | Ok p => negb (is_null_id (pw_node_id p)) && owns_node m (pw_node_id p) end.
Proof.
  intros Hj. unfold takes_write. change (map write_node_new l) with (write_node_new <$> l).
  rewrite list_lookup_fmap, Hj. simpl. unfold write_node_new. destruct (parse_write_value w) as [p|e]; simpl; unfold new_status.
  - destruct (is_null_id (pw_node_id p)); simpl; by rewrite ?andb_false_r, ?andb_true_r.
  - change (is_null_id null_id) with true. destruct (Z.eqb_spec e BadNodeIdUnknown) as [->|He]; cbn -[Z.eqb owns_node].
    + by rewrite andb_false_r.
    + apply Z.eqb_neq in He. by rewrite He, andb_false_r.
Qed.
Lemma taken_item l j m : takes_write (map write_node_new l) j m = true ->
  exists w p, l !! j = Some w /\ parse_write_value w = Ok p /\ wn_value (write_node_new w) = p
  /\ forall m, takes_write (map write_node_new l) j m = owns_node m (pw_node_id p).
Proof.
  intros H. destruct (l !! j) as [w|] eqn:Hj.
  2:{ unfold takes_write in H. change (map write_node_new l) with (write_node_new <$> l) in H. by rewrite list_lookup_fmap, Hj in H. }
  exists w. pose proof (takes_write_parsed l j w m Hj) as Hm. rewrite H in Hm.
  destruct (parse_write_value w) as [p|e] eqn:Hp; [|done]. exists p. split_and!; [done..| |].
  - unfold write_node_new. by rewrite Hp.
  - intros m'. rewrite (takes_write_parsed l j w m' Hj), Hp. by destruct (is_null_id (pw_node_id p)).
Qed.
Lemma ranges_ok_new l : Forall (fun w => range_numbers_u32 (wv_index_range w)) l -> ranges_ok (map write_node_new l).
Proof.
  unfold ranges_ok. induction 1 as [|w l Hw _ IH]; simpl; constructor; [|done].
  unfold write_node_new, parse_write_value. destruct (attribute_of _); simpl; done.
Qed.

(** What a changed attribute means. *)
Definition change_allowed (c : AttributeContext) (asks : AttributeId -> Prop) (n : NodeType) (a : AttributeId) : Prop :=
  asks a /\ (a = AtValue \/ a = AtRolePermissions)
  /\ (may_write c n a \/ asks AtRolePermissions /\ may_write c n AtRolePermissions).
Lemma node_changed_allowed c asks n0 n t a r e : node_changed c asks n0 n ->
  get_attribute t a r e n <> get_attribute t a r e n0 -> change_allowed c asks n0 a.
Proof.
  intros (Hc & Hr & Hv) Hne. unfold change_allowed.
  destruct (decide (a = AtValue)) as [->|Hnv]; [|destruct (decide (a = AtRolePermissions)) as [->|Hnr]].
  - destruct Hv as [Hv|[? ?]]; [|naive_solver]. by rewrite get_attribute_roles, (get_attribute_roles _ _ _ n0), Hv in Hne.
  - destruct Hr as [Hr|[? ?]]; [|naive_solver].
    by rewrite get_attribute_value, (get_attribute_value _ _ _ n0), !erase_value_of, Hc, Hr in Hne.
  - by rewrite (get_attribute_core _ _ _ _ n), (get_attribute_core _ _ _ _ n0), Hc in Hne.
Qed.
Definition only_values_changed (m m' : SimpleNodeManager) : Prop :=
  m' = set_space (mkSpace (node_map (nm_space m')) (AddressSpace.references (nm_space m)) (browse_name_index (nm_space m))
                    (space_namespaces (nm_space m))) m.
(** What a request does to a node manager. *)
Definition manager_changed (c : AttributeContext) (managers : list SimpleNodeManager) (values : option (list WriteValue))
    (res : result (list StatusCode) StatusCode) (m m' : SimpleNodeManager) : Prop :=
  only_values_changed m m'
  /\ forall id, option_relation (node_changed c (fun a => first_owner managers id = Some m /\ written values res id a))
       (fun _ => False) (fun _ => False) (find_node id (nm_space m)) (find_node id (nm_space m')).
(** An item of the request that gives a text for a localized attribute of a node with this id, which the session
    may write, whatever the item was answered with. *)
Definition attempted (c : AttributeContext) (managers : list SimpleNodeManager) (values : option (list WriteValue))
    (res : result (list StatusCode) StatusCode) (id : NodeId) (a : AttributeId) : Prop :=
  exists l w p m, values = Some l /\ w ∈ l /\ parse_write_value w = Ok p /\ first_owner managers (pw_node_id p) = Some m
  /\ tried (allowed c (written values res (pw_node_id p))) m p id a.

Lemma node_changed_refl c asks n : node_changed c asks n n.
Proof. split; [done|]. split; by left. Qed.
Lemma manager_changed_refl c managers values res m : manager_changed c managers values res m m.
Proof.
  split; [by destruct m as [[] ? ? ?]|]. intros id. destruct (find_node id (nm_space m)); simpl; [apply node_changed_refl|done].
Qed.

(** An item that a group was given, and the status it got. *)
Lemma picked_item managers (l : list WriteValue) (items' : list WriteNode) k g m w' : let items := map write_node_new l in
  Forall2 (fun w w' => wn_value w' = wn_value w) items items' ->
  (k, g) ∈ groups (takes_write items) managers 0 (seq 0 (length items)) -> managers !! k = Some m -> w' ∈ pick items' g ->
  exists j w p, l !! j = Some w /\ items' !! j = Some w' /\ parse_write_value w = Ok p /\ wn_value w' = p
  /\ first_owner managers (pw_node_id p) = Some m.
Proof.
  cbv zeta. set (items := map write_node_new l). intros Hv Hin Hm (j & Hj & Hw')%elem_of_pick.
  pose proof (groups_distribution (takes_write items) managers (length items)) as Hd. set (gs := groups _ _ _ _) in *.
  pose proof Hj as Hj'. apply (dist_member _ _ _ _ Hd _ _ _ Hin) in Hj' as [Hlt Hj'].
  apply first_taker_takes in Hj' as (m2 & Hm2 & Ht). rewrite Nat.sub_0_r in Hm2. assert (m2 = m) as -> by congruence.
  destruct (taken_item l j m Ht) as (w & p & Hw & Hp & Hwn & Hown). exists j, w, p. split; [done|]. split; [done|]. split; [done|].
  assert (wn_value w' = p) as Hwp.
  { apply Forall2_same_length_lookup in Hv as [_ Hv]. rewrite (Hv j (write_node_new w) w'); [done| |done].
    unfold items. change (map write_node_new l) with (write_node_new <$> l). by rewrite list_lookup_fmap, Hw. }
  split; [done|]. apply (dist_find _ _ _ _ (fun m => owns_node m (pw_node_id p)) j m Hd); [done|done|by exists k, g].
Qed.

Lemma write_nodes_spec now c managers sh l managers' sh' statuses notes :
  Forall (fun w => range_numbers_u32 (wv_index_range w)) l ->
  write_nodes now c managers sh l = Ret (managers', sh', statuses, notes) ->
  length statuses = length l /\ Forall2 (manager_changed c managers (Some l) (Ok statuses)) managers managers'
  /\ forall id a, sh_texts sh' !! (id, a) = sh_texts sh !! (id, a) \/ attempted c managers (Some l) (Ok statuses) id a.
Proof.
  intros Hr. unfold write_nodes. cbv zeta. rewrite outcome_bind_ret. set (items := map write_node_new l). set (gs := groups _ _ _ _).
  intros ([[[ms sh1] items'] notes'] & H & [= <- <- <- <-]).
  pose proof (groups_distribution (takes_write items) managers (length items)) as Hd. fold gs in Hd.
  destruct (write_groups_spec now c gs managers sh items ms sh1 items' notes') as (Hl & Hv & _ & Hk & Hch & Htx);
    [apply (dist_keys _ _ _ _ Hd)|apply (dist_refs _ _ _ _ Hd)|apply (dist_bound _ _ _ _ Hd)|by apply ranges_ok_new|done|].
  assert (forall k g m id b, (k, g) ∈ gs -> managers !! k = Some m -> asked (pick items' g) id b ->
    first_owner managers id = Some m /\ written (Some l) (Ok (map wn_status items')) id b) as Hask.
  { intros k g m id b Hin Hm (w' & Hw' & Hg & Hid & Hb).
    destruct (picked_item managers l items' k g m w' Hv Hin Hm Hw') as (j & w & p & Hw & Hj & Hp & <- & Hown). split; [by rewrite <-Hid|].
    exists l, (map wn_status items'), j, w, (wn_value w'). split_and!; [done..| |done|done|done].
    change (map wn_status items') with (wn_status <$> items'). by rewrite list_lookup_fmap, Hj, <-Hg. }
  split; [rewrite length_map, <-(Forall2_length _ _ _ Hv); apply length_map|]. split.
  - apply Forall2_same_length_lookup. split; [done|]. intros k m m' Hm Hm'.
    destruct (decide (k ∈ map fst gs)) as [([k' g] & -> & Hin)%list_elem_of_fmap|Hnk].
    + simpl in *. destruct (Hch k' g m Hin Hm) as (m1 & Hm1 & Hsp & Hnodes). assert (m1 = m') as -> by congruence.
      split; [exact Hsp|]. intros id. specialize (Hnodes id).
      destruct (find_node id (nm_space m)) as [n|], (find_node id (nm_space m')) as [n'|]; simpl in *; try done.
      eapply node_changed_mono; [|exact Hnodes]. intros a Ha. by eapply Hask.
    + rewrite Hk, Hm in Hm' by done. injection Hm' as <-. apply manager_changed_refl.
  - intros id a. destruct (Htx id a) as [?|(k & g & m & w' & Hin & Hm & Hw' & Ht)]; [by left|right].
    destruct (picked_item managers l items' k g m w' Hv Hin Hm Hw') as (j & w & p & Hw & Hj & Hp & <- & Hown).
    exists l, w, (wn_value w'), m. split; [done|]. split; [by eapply list_elem_of_lookup_2|]. split; [done|]. split; [done|].
    destruct Ht as (n & x & Hf & Hid & Ha & Hloc & Hx & Hall). exists n, x. split_and!; try done.
    destruct Hall as [?|[Hask' ?]]; [by left|right]. split; [|done]. by eapply Hask.
Qed.

Lemma write_request_spec now limit session_open c managers sh values managers' sh' res notes :
  (forall l, values = Some l -> Forall (fun w => range_numbers_u32 (wv_index_range w)) l) ->
  write_request now limit session_open c managers sh values = Ret (managers', sh', res, notes) ->
  Forall2 (manager_changed c managers values res) managers managers'
  /\ forall id a, sh_texts sh' !! (id, a) = sh_texts sh !! (id, a) \/ attempted c managers values res id a.
Proof.
  intros Hr. assert (forall r, Ret (managers, sh, Err r, []) = Ret (managers', sh', res, notes) ->
    Forall2 (manager_changed c managers values res) managers managers'
    /\ forall id a, sh_texts sh' !! (id, a) = sh_texts sh !! (id, a) \/ attempted c managers values res id a) as Hsame.
  { intros r [= <- <- _ _]. split; [|by left]. apply Forall_Forall2_diag, Forall_forall. intros m _. apply manager_changed_refl. }
  unfold write_request. destruct values as [[|w l]|]; [apply Hsame| |apply Hsame].
  destruct (limit <? zlen (w :: l)); [apply Hsame|]. destruct session_open; [|apply Hsame]. cbn [negb].
  rewrite outcome_bind_ret. intros ([[[ms sh1] statuses] notes1] & Hw & [= <- <- <- <-]).
  destruct (write_nodes_spec _ _ _ _ _ _ _ _ _ (Hr _ eq_refl) Hw) as (_ & H & Ht). by split.
Qed.
End write.

(** ** Refusals are bad *)

Section refusals.
Context {D : DynEncodable} {B : Bodies} {TC : TextCodecs} {RE : NodeIdRegex} {DT : DateText} {M : Moka} {O : RefOrder}.

Definition bad_errors {A} (r : result A StatusCode) : Prop := forall e, r = Err e -> e <> Good.
Lemma bad_ok {A} (x : A) : bad_errors (Ok x).
Proof. by intros e [=]. Qed.
Lemma bad_err {A} e : e <> Good -> bad_errors (A := A) (Err e).
Proof. by intros H e' [= <-]. Qed.
Lemma bad_ok_or {A} (o : option A) e : e <> Good -> bad_errors (ok_or o e).
Proof. destruct o; [intros _; apply bad_ok|apply bad_err]. Qed.
Lemma bad_bind {A A'} (m : result A StatusCode) (k : A -> result A' StatusCode) :
  bad_errors m -> (forall x, bad_errors (k x)) -> bad_errors (result_bind m k).
Proof. intros Hm Hk. destruct m as [x|e]; simpl; [apply Hk|]. intros e' [= <-]. by apply Hm. Qed.
Ltac bad_step := first
  [ apply bad_ok | apply bad_err; discriminate | apply bad_ok_or; discriminate | apply bad_bind; [|intros ?] | case_match ].
Ltac bad := repeat bad_step.

Lemma restrictions_bad r mode : bad_errors (access_restrictions_ok r mode).
Proof. unfold access_restrictions_ok. bad. Qed.
Lemma restrictions_ctx_bad c n : bad_errors (access_restrictions_ok_ctx c n).
Proof. unfold access_restrictions_ok_ctx. case_match; [apply bad_ok|apply restrictions_bad]. Qed.
Lemma is_writable_bad c n a : bad_errors (is_writable c n a).
Proof.
  unfold is_writable. apply bad_bind; [unfold validate_write_access; bad|intros _].
  assert (forall r : result unit StatusCode, bad_errors r -> bad_errors (let? _ := access_restrictions_ok_ctx c n in r)) as Hr
    by (intros r H; apply bad_bind; [apply restrictions_ctx_bad|done]).
  destruct n, a; try (apply Hr; bad); destruct (write_mask_bit_for_attribute _); try (apply bad_err; done);
    (destruct (node_write_mask _); [|by apply bad_err]); (case_match; [by apply bad_err|]); apply Hr; bad.
Qed.
Lemma write_locale_bad c a v : bad_errors (validate_write_locale c a v).
Proof. unfold validate_write_locale. bad. Qed.
Lemma rank_bad rank arr r : bad_errors (validate_value_rank_to_write rank arr r).
Proof. unfold validate_value_rank_to_write. bad. Qed.
Lemma data_type_bad ty rank v r t t' res : validate_value_data_type_to_write ty rank v r t = Ret (t', res) -> bad_errors res.
Proof.
  unfold validate_value_data_type_to_write.
  destruct v; try (intros [= _ <-]; apply bad_ok);
    (destruct (option_bind _ _ _ _) as [ty'|]; [|intros [= _ <-]; by apply bad_err]);
    rewrite outcome_bind_ret; intros ([t1 b1] & _ & [= _ <-]); bad; try apply rank_bad.
Qed.
Lemma value_of_node_bad s n v r t t' res : validate_value_of_node s n v r t = Ret (t', res) -> bad_errors res.
Proof.
  unfold validate_value_of_node. destruct n as [o|o|rt|var|vt|w|d|m]; try (intros [= _ <-]; apply bad_ok); [|apply data_type_bad].
  destruct (_ && _); [intros [= _ <-]; by apply bad_err|].
  destruct (validate_modeled_enum_value_to_write s var v r) as [checked|e] eqn:He.
  2:{ intros [= _ <-]. apply bad_err. revert He. unfold validate_modeled_enum_value_to_write.
      destruct (option_bind _ _ _ _) as [valid|]; [|done]. revert e.
      change (bad_errors (let? _ := validate_value_rank_to_write (value_rank var) (is_array v) r in if valid then Ok true else Err BadOutOfRange)).
      apply bad_bind; [apply rank_bad|intros _; bad]. }
  rewrite outcome_bind_ret. intros ([t1 [[]|e1]] & H1 & H).
  - revert H. unfold validate_value_against_eurange. rewrite outcome_bind_ret. intros ([t2 range] & _ & [= _ <-]). bad.
  - injection H as _ <-. destruct checked; [done|]. apply bad_err. by eapply data_type_bad in H1; apply H1.
Qed.
Lemma refusals_bad c p s sh sh' res : space_validate_node_write c p s sh = Ret (sh', res) -> bad_errors res.
Proof.
  unfold space_validate_node_write. destruct (find_node _ s) as [n|]; [|intros [= _ <-]; by apply bad_err].
  rewrite outcome_bind_ret. intros ([sh1 r] & H & [= _ <-]). apply bad_bind; [|intros ?; apply bad_ok]. revert H.
  unfold validate_node_write. cbv zeta.
  match goal with |- match ?m with Err _ => _ | Ok _ => _ end = _ -> _ => assert (bad_errors m) as Hm; [|destruct m as [v|e]] end.
  - apply bad_bind; [apply is_writable_bad|intros _]. case_match; [by apply bad_err|].
    apply bad_bind; [by apply bad_ok_or|intros v]. apply bad_bind; [unfold validate_attribute_value_to_write; bad|intros _].
    apply bad_bind; [apply write_locale_bad|intros _; apply bad_ok].
  - rewrite outcome_bind_ret. intros ([t [[]|e]] & H & [= _ <-]); [apply bad_ok|]. destruct (is_value _); [|done].
    by eapply value_of_node_bad.
  - intros [= _ <-]. by apply bad_err, Hm.
Qed.

(** *** Index ranges *)

Lemma write_selections_bad ranges dims : bad_errors (write_selections ranges dims).
Proof.
  revert dims. induction ranges as [|r ranges IH]; intros [|d dims]; simpl; try apply bad_ok.
  case_match; [by apply bad_err|]. apply bad_bind; [by apply bad_ok_or|intros [lo hi]].
  case_match; [by apply bad_err|]. case_match; [by apply bad_err|]. apply bad_bind; [apply IH|intros ?; apply bad_ok].
Qed.
Lemma write_indices_bad others indices : forall (vs : list Variant) k, bad_errors (snd (write_indices vs indices k others)).
Proof.
  induction indices as [|i indices IH]; intros vs k; simpl; [apply bad_ok|].
  destruct (zlookup vs i); [|by apply bad_err]. destruct (zlookup others k); [apply IH|by apply bad_err].
Qed.
Lemma set_range_bad v r other : bad_errors (snd (set_range_of v r other)).
Proof.
  unfold set_range_of. destruct (bool_decide _); simpl; [|by apply bad_err].
  assert (forall len, bad_errors (substring_write_bounds r len)) as Hb.
  { intros len. unfold substring_write_bounds. apply bad_bind; [|intros [lo hi]]; bad. }
  destruct v; try (by apply bad_err).
  - unfold set_string_substring. destruct other; try (by apply bad_err). destruct s as [l|]; [|by apply bad_err].
    specialize (Hb (zlen l)). destruct (substring_write_bounds _ _) as [[lo hi]|e]; [|by apply bad_err, Hb].
    destruct (negb _); [by apply bad_err|apply bad_ok].
  - unfold set_bytestring_substring. destruct other; try (by apply bad_err). destruct b as [l|]; [|by apply bad_err].
    specialize (Hb (zlen l)). destruct (substring_write_bounds _ _) as [[lo hi]|e]; [|by apply bad_err, Hb].
    destruct (negb _); [by apply bad_err|apply bad_ok].
  - destruct other; try (by apply bad_err). destruct r as [|i|lo hi|rs|x]; try (by apply bad_err).
    + destruct (_ || _); [by apply bad_err|]. destruct (zlookup _ _), (head (values a0)); try (by apply bad_err). apply bad_ok.
    + destruct (_ <=? _); [by apply bad_err|apply bad_ok].
    + destruct (set_range_of_multiple a rs (values a0)) as [vs res] eqn:Hs. simpl. assert (res = snd (set_range_of_multiple a rs (values a0))) as -> by by rewrite Hs.
      unfold set_range_of_multiple. cbv zeta.
      match goal with |- context [match ?m with Err _ => _ | Ok _ => _ end] => assert (bad_errors m) as Hm; [|destruct m as [ix|e]] end.
      * apply bad_bind; [by apply bad_ok_or|intros ?]. do 2 (case_match; [by apply bad_err|]). apply bad_bind; [apply write_selections_bad|intros ?].
        apply bad_bind; [by apply bad_ok_or|intros ?]. case_match; [by apply bad_err|by apply bad_ok_or].
      * apply write_indices_bad.
      * by apply bad_err, Hm.
Qed.
Lemma set_value_range_bad val r status s1 s2 var : bad_errors (snd (set_value_range val r status s1 s2 var)).
Proof.
  unfold set_value_range. destruct r; try apply bad_ok;
    (destruct (dv_value (value var)) as [full|]; [|by apply bad_err]);
    match goal with |- context [set_range_of ?f ?r ?v] => pose proof (set_range_bad f r v) as Hb; destruct (set_range_of f r v) as [? [[]|]] end;
    try apply bad_ok; by apply bad_err, Hb.
Qed.
End refusals.

(** ** Reading what was written *)

Section read_back.
Context {D : DynEncodable} {B : Bodies} {TC : TextCodecs} {RE : NodeIdRegex} {DT : DateText} {M : Moka} {O : RefOrder}.

(** The same elements, whatever the dimensions. *)
Definition same_content (x y : Variant) : Prop :=
  match x, y with VArray a, VArray b => value_type a = value_type b /\ values a = values b | _, _ => x = y end.
(** A written value that fills its range of the old value. *)
Definition fills (r : NumericRange) (old v : Variant) : Prop :=
  range_numbers_u32 r /\ well_typed v /\ scalar_type_id old = scalar_type_id v
  /\ match r, old, v with
     | NRIndex _, VArray a, VArray b => is_multi_dimensional a = false /\ zlen (values b) = 1
     | NRRange lo hi, VArray a, VArray b =>
         is_multi_dimensional a = false /\ lo <= hi < zlen (values a) /\ zlen (values b) = hi - lo + 1
     | NRMultiple rs, VArray a, VArray b => rs <> [] /\ zlen (values b) <= u32_max
     | _, _, _ => True
     end.

Lemma written_text_nonempty r other len lo hi : substring_write_bounds r len = Ok (lo, hi) -> zlen other = hi - lo + 1 -> other <> ([] : list Z).
Proof.
  unfold substring_write_bounds. destruct (match r with NRIndex _ => _ | _ => _ end) as [[a b]|]; simpl; [|done].
  destruct (_ || _) eqn:H; [done|]. intros [= -> ->] Hl ->. apply orb_false_iff in H as [_ H]. change (zlen (@nil Z)) with 0 in Hl. lia.
Qed.
Lemma set_then_get_text v other v' r l : range_u32 r -> text_of v = Some l -> scalar_type_id v = scalar_type_id other ->
  set_range_of v r other = (v', Ok tt) -> range_of v' r = Ret (Ok other).
Proof.
  intros Hr Hl Hty Hs. destruct (substring_write_read v other v' r l Hr Hl Hs) as (lo & hi & rep & _ & Hv' & Hrep & Hz & Hty' & w & Hw & Hwt).
  rewrite Hw. do 2 f_equal.
  assert (well_typed v') as Hwt' by (destruct v; simpl in Hl; try done; destruct v'; simpl in Hv'; done).
  destruct (range_of_typed v' r Hwt') as (res & Hres & Hok). rewrite Hw in Hres. injection Hres as <-.
  destruct (Hok w eq_refl) as [_ Hwty]. rewrite Hty', Hty in Hwty.
  unfold set_range_of in Hs. destruct (bool_decide _); simpl in Hs; [|done].
  destruct v; simpl in Hl; try done; subst; destruct other; simpl in Hty; try done; destruct w; simpl in Hwty, Hwt; try done; subst; simpl in Hz, Hs;
  (destruct (substring_write_bounds r _) as [[a1 b1]|] eqn:Hb; [|done]);
  (match type of Hs with context [?x =? _] => destruct (Z.eqb_spec x (b1 - a1 + 1)) as [He|]; simpl in Hs; [|done] end); pose proof (written_text_nonempty _ _ _ _ _ Hb He) as Hne;
  match goal with H : default [] ?x <> [] |- _ => destruct x end; done.
Qed.

Lemma set_range_array_index (a b : Array) i full : values_are_of_type (values b) (value_type a) = true ->
  is_multi_dimensional a = false -> zlen (values b) = 1 -> range_u32 (NRIndex i) ->
  set_range_of (VArray a) (NRIndex i) (VArray b) = (full, Ok tt) ->
  range_of full (NRIndex i) = Ret (Ok (VArray (mkArray (value_type a) (values b) None))).
Proof.
  intros Ht Hm Hl Hi. unfold set_range_of. destruct (bool_decide _); simpl; [|done].
  destruct (values b) as [|o [|o' l]] eqn:Hb; [done| |unfold zlen in Hl; simpl in Hl; lia]. clear Hl.
  change (zlen [o]) with 1. change (1 =? 0) with false. rewrite orb_false_r.
  destruct (Z.leb_spec (zlen (values a)) i); [done|]. destruct (zlookup (values a) i) eqn:Hz; simpl; [|done]. intros [= <-].
  simpl. unfold is_multi_dimensional in *. simpl. rewrite Hm. unfold range_u32, is_u32 in Hi. simpl in Hi.
  rewrite zlookup_insert_eq by lia. rewrite variant_of_values_ok by done. done.
Qed.
Lemma set_range_array_range (a b : Array) lo hi full : values_are_of_type (values b) (value_type a) = true ->
  is_multi_dimensional a = false -> lo <= hi < zlen (values a) -> zlen (values b) = hi - lo + 1 -> range_u32 (NRRange lo hi) ->
  set_range_of (VArray a) (NRRange lo hi) (VArray b) = (full, Ok tt) ->
  range_of full (NRRange lo hi) = Ret (Ok (VArray (mkArray (value_type a) (values b) None))).
Proof.
  intros Ht Hm Hlh Hl Hr. unfold range_u32, is_u32 in Hr. simpl in Hr. unfold set_range_of. destruct (bool_decide _); simpl; [|done].
  destruct (Z.leb_spec (zlen (values a)) lo); [done|]. intros [= <-]. simpl. unfold is_multi_dimensional in *. simpl. rewrite Hm.
  rewrite copy_range_spec by lia. set (n := Z.to_nat (Z.min _ _)).
  assert (n = length (values b)) as Hn by (unfold n, zlen in *; lia). rewrite Hn, (take_ge (values b)) by lia.
  set (vs := take _ _ ++ _ ++ _). assert (zlen vs = zlen (values a)) as Hvs.
  { unfold vs, zlen in *. rewrite !length_app, length_take, length_drop. lia. }
  rewrite Hvs. destruct (Z.leb_spec (zlen (values a)) lo); [lia|]. destruct (Z.leb_spec (zlen (values a)) hi); [lia|].
  unfold get_inclusive. rewrite Hvs. destruct (Z.ltb_spec (hi + 1) lo); [lia|]. destruct (Z.ltb_spec (zlen (values a)) (hi + 1)); [lia|]. simpl.
  assert (take (Z.to_nat (hi + 1 - lo)) (drop (Z.to_nat lo) vs) = values b) as ->.
  { unfold vs. rewrite drop_app_length' by (rewrite length_take; unfold zlen in *; lia).
    apply take_app_length'. unfold zlen in *. lia. }
  rewrite variant_of_values_ok by done. done.
Qed.

Lemma set_then_get r old v full : has_range r = true -> fills r old v -> set_range_of old r v = (full, Ok tt) ->
  exists x, range_of full r = Ret (Ok x) /\ same_content x v.
Proof.
  intros Hh (Hr & Hwt & Hty & Hf) Hs. pose proof Hs as Hs'. unfold set_range_of in Hs'. destruct (bool_decide _); simpl in Hs'; [|done].
  assert (forall l, text_of old = Some l -> range_u32 r -> exists x, range_of full r = Ret (Ok x) /\ same_content x v) as Htext.
  { intros l Hl Hu. exists v. split; [by eapply set_then_get_text|]. destruct old; simpl in Hl; try done; by destruct v. }
  destruct old as [| | | | | | | | | | | |s| | | |bs| | | | | | | | | |a]; try done.
  - destruct r; try (destruct s as [l|]; [by apply (Htext l)|destruct v; done]); destruct s, v; done.
  - destruct r; try (destruct bs as [l|]; [by apply (Htext l)|destruct v; done]); destruct bs, v; done.
  - destruct v as [| | | | | | | | | | | | | | | | | | | | | | | | | |b]; try done. injection Hty as Hty.
    assert (values_are_of_type (values b) (value_type a) = true) as Hvt by (rewrite Hty; exact Hwt).
    destruct r as [|i|lo hi|rs|x]; try done.
    + eexists. split; [apply (set_range_array_index a b i full Hvt); [apply Hf|apply Hf|done|exact Hs]|]. by split.
    + eexists. split; [apply (set_range_array_range a b lo hi full Hvt); [apply Hf|apply Hf|apply Hf|done|exact Hs]|]. by split.
    + destruct (multi_write_read a b rs full) as (vs & ix & exts & _ & Hx & _); [apply Hf|done|done|apply Hf|exact Hs|].
      eexists. split; [exact Hx|]. by split.
Qed.

(** *** One write of a value *)

(** What a variable of bytes keeps of a byte string that is written to it: an array of its bytes, where the
    rank allows one of one dimension; any other value is kept as it was written. *)
Definition stored_as (var : VariableOf Variant) (v : Variant) : Variant :=
  match v with
  | VByteString b =>
      if decide (variable_data_type var = Byte_id /\ value_rank var ∈ [-3; -2; 1]) then VArray (mkArray TByte (map VByte (default [] b)) None)
      else v
  | _ => v
  end.
Lemma value_stored var v : value_to_store var v = Ok (stored_as var v).
Proof.
  destruct v as [| | | | | | | | | | | | | | | |b| | | | | | | | | |]; try done. unfold value_to_store, stored_as.
  assert (byte_string_fits (value_rank var) && bool_decide (variable_data_type var = Byte_id)
    = bool_decide (variable_data_type var = Byte_id /\ value_rank var ∈ [-3; -2; 1])) as ->.
  { apply eq_true_iff_eq. unfold byte_string_fits. rewrite andb_true_iff, !orb_true_iff, !Z.eqb_eq, !bool_decide_eq_true. set_solver. }
  case_bool_decide as Hb; [rewrite decide_True by done|by rewrite decide_False].
  assert (forall l, array_new TByte (map VByte l) = Ok (mkArray TByte (map VByte l) None)) as Hl.
  { intros l. unfold array_new, validate_array_type_to_values.
    by assert (values_are_of_type (map VByte l) TByte = true) as -> by (induction l; done). }
  destruct b as [l|]; cbn [to_byte_array default]; [by rewrite Hl|]. specialize (Hl []). cbn [map] in Hl. by rewrite Hl.
Qed.

Lemma write_one_value now c w m sh m1 sh1 w1 note var : let p := wn_value w in
  pw_attribute_id p = AtValue -> find_node (pw_node_id p) (nm_space m) = Some (NtVariable var) ->
  write_cbs m !! node_id_of (NtVariable var) = None -> write_one now c w m sh = Ret (m1, sh1, w1, note) -> wn_status w1 = Good ->
  exists v var', dv_value (pw_value p) = Some v
  /\ set_value_range (stored_as var v) (pw_index_range p) (default Good (dv_status (pw_value p))) (default now (server_timestamp (pw_value p)))
       (default now (source_timestamp (pw_value p))) var = (var', Ok tt)
  /\ m1 = set_space (replace_node (pw_node_id p) (NtVariable var') (nm_space m)) m.
Proof.
  intros p Ha Hn Hcb. unfold write_one. fold p. rewrite outcome_bind_ret. intros ([sh2 [n|e]] & Hv & H) Hg.
  2:{ injection H as _ _ <- _. destruct (refusals_bad _ _ _ _ _ _ Hv e eq_refl). exact Hg. }
  apply validate_write_permits in Hv as (Hn' & _ & _ & v & Hval & _). rewrite Hn in Hn'. injection Hn' as <-.
  rewrite Ha in H. change (is_value AtValue) with true in H. cbn [is_variable negb andb orb] in H. rewrite Hcb, Hval in H.
  apply outcome_bind_ret in H as ([[n' texts] r] & Hw & H). unfold write_node_value in Hw. rewrite Ha, Hval in Hw.
  change (is_value AtValue) with true in Hw. cbn [default from_option id] in Hw. exists v.
  rewrite value_stored in Hw. set (stored := stored_as var v) in *.
  destruct (set_value_range stored _ _ _ _ var) as [var' res] eqn:Hs. injection Hw as <- <- <-.
  pose proof (set_value_range_bad stored (pw_index_range p) (default Good (dv_status (pw_value p))) (default now (server_timestamp (pw_value p)))
    (default now (source_timestamp (pw_value p))) var) as Hb.
  destruct res as [[]|e].
  - exists var'. split; [done|]. split; [done|].
    apply outcome_bind_ret in H as (note' & _ & H). by injection H as <- _ _ _.
  - rewrite Hs in Hb. injection H as _ _ <- _. by destruct (Hb e eq_refl).
Qed.

Lemma set_value_range_read stored r status s1 s2 var var' :
  set_value_range stored r status s1 s2 var = (var', Ok tt) ->
  (has_range r = true -> exists old, dv_value (value var) = Some old /\ fills r old stored) ->
  exists full x, value var' = mkDataValue (Some full) (Some status) (Some s2) (source_picoseconds (value var)) (Some s1) (server_picoseconds (value var))
  /\ range_of full r = Ret (Ok x) /\ (if has_range r then same_content x stored else x = stored).
Proof.
  unfold set_value_range. intros H Hf. destruct (has_range r) eqn:Hr.
  - destruct (Hf eq_refl) as (old & Ho & Hfill). rewrite Ho in H.
    destruct (set_range_of old r stored) as [full res] eqn:Hs.
    destruct res as [[]|e]; [|destruct r; done].
    destruct (set_then_get r old stored full Hr Hfill Hs) as (x & Hx & Hc). exists full, x. split; [|by split].
    destruct r; try done; by injection H as <-.
  - destruct r; try done. injection H as <-. exists stored, stored. by split_and!.
Qed.

Lemma read_one_value c texts age t m p var d full x : read_attribute p = AtValue -> pr_data_encoding p = DEBinary ->
  find_node (pr_node_id p) (nm_space m) = Some (NtVariable var) -> read_cbs m !! pr_node_id p = None ->
  validate_node_read c (NtVariable var) p = Ok tt -> value var = d -> dv_value d = Some full -> range_of full (pr_index_range p) = Ret (Ok x) ->
  read_one c texts age t m p = Ret (apply_timestamps t (with_times_of d (Some x) (dv_status d))).
Proof.
  intros Ha He Hn Hcb Hv Hd Hf Hx. unfold read_one. rewrite Ha. change (is_value AtValue) with true. cbv iota.
  unfold prepare_read_node_value, space_validate_node_read. rewrite Hn. cbn [ok_or result_bind]. rewrite Hv. cbn [result_bind]. rewrite Hcb.
  unfold read_node_value. rewrite Ha, He. cbn [get_attribute variable_get]. unfold variable_value. rewrite Hd, Hf, Hx. simpl.
  by destruct t.
Qed.
Lemma validate_read_erase c n n' p : erase_value n' = erase_value n -> validate_node_read c n' p = validate_node_read c n p.
Proof.
  intros H. assert (forall n, validate_node_read c n p = validate_node_read c (erase_value n) p) as Hn by by destruct n0.
  by rewrite (Hn n'), H, <-Hn.
Qed.

(** *** A request of one write *)

Lemma write_nodes_single now c managers sh w p m managers' sh' statuses notes :
  parse_write_value w = Ok p -> first_owner managers (pw_node_id p) = Some m ->
  write_nodes now c managers sh [w] = Ret (managers', sh', statuses, notes) ->
  (is_null_id (pw_node_id p) = true /\ statuses = [BadNodeIdInvalid])
  \/ exists k m1 w1 note, write_one now c (write_node_new w) m sh = Ret (m1, sh', w1, note) /\ statuses = [wn_status w1]
     /\ is_null_id (pw_node_id p) = false /\ managers !! k = Some m /\ managers' = <[k := m1]> managers
     /\ (nm_namespaces m1 = nm_namespaces m -> first_owner managers' (pw_node_id p) = Some m1).
Proof.
  intros Hp Hm. unfold write_nodes. cbv zeta. change (length (map write_node_new [w])) with 1%nat. change (seq 0 1) with [0%nat].
  rewrite groups_single. pose proof (takes_write_parsed [w] 0 w) as Ht.
  set (f := takes_write (map write_node_new [w])) in *.
  destruct (is_null_id (pw_node_id p)) eqn:Hnull.
  { pose proof (first_taker_find f (fun _ => false) managers 0%nat 0) as Hf. intros H. left. split; [done|]. revert H.
    destruct (first_taker f managers 0 0%nat) as [k|].
    - destruct Hf as (? & _ & Hf); [|by rewrite find_none in Hf]. intros m'. by rewrite (Ht m' eq_refl), Hp, Hnull.
    - simpl. unfold write_node_new. rewrite Hp. unfold new_status. rewrite Hnull. by intros [= _ _ <- _]. }
  assert (forall m', f 0%nat m' = owns_node m' (pw_node_id p)) as Hown by (intros m'; by rewrite (Ht m' eq_refl), Hp, Hnull).
  pose proof (first_taker_find f (fun m => owns_node m (pw_node_id p)) managers 0%nat 0 Hown) as Hf.
  pose proof (find_replaced f (fun m => owns_node m (pw_node_id p)) managers 0%nat 0) as Hrep.
  destruct (first_taker f managers 0 0%nat) as [k|] eqn:Hk; [|unfold first_owner in Hm; congruence].
  destruct Hf as (m' & Hm' & Hf). unfold first_owner in Hm. rewrite Hm in Hf. injection Hf as <-. rewrite Nat.sub_0_r in Hm'.
  cbn [write_groups map pick lookup list_lookup]. rewrite Hm'. cbn [manager_write]. rewrite outcome_bind_ret.
  intros ([[[ms sh1] items1] notes1] & H & Hres). apply outcome_bind_ret in H as ([[[m1 sh2] new] notes2] & H & Hg).
  apply outcome_bind_ret in H as ([[[m2 sh3] w1] note] & H1 & H). simpl in H, Hg. injection H as <- <- <- <-.
  injection Hg as <- <- <- <-. injection Hres as <- <- Hst _. symmetry in Hst. right. exists k, m2, w1, note.
  split; [done|]. split; [exact Hst|]. split; [done|]. split; [done|]. split; [done|].
  intros Hns. unfold first_owner. specialize (Hrep k m2 Hown eq_refl). rewrite Nat.sub_0_r in Hrep. apply Hrep.
  apply find_some in Hm as [_ Hm]. unfold owns_node in *. by rewrite Hns.
Qed.

(** *** Localized texts *)

Lemma get_display_name t r e n : get_attribute t AtDisplayName r e n = Ret (Some (value_only (VLocalizedText (display_name (node_base n))))).
Proof. by destruct n. Qed.
Lemma locale_matches_itself l : normalized_locale_id l <> [] -> locale_id_matches l l = true.
Proof.
  intros H. unfold locale_id_matches. destruct (bool_decide (normalized_locale_id l = [])) eqn:He; [by apply bool_decide_eq_true in He|].
  simpl. by rewrite bool_decide_true.
Qed.
Lemma remembered_shown c texts id x rest fallback : ua_is_empty (locale x) = false -> ua_is_empty (text x) = false ->
  normalized_locale_id (locale_of x) <> [] -> texts !! (id, AtDisplayName) = None -> session_locales c = Some (locale x :: rest) ->
  localized_text_for_session c (remember_localized_text_attribute_value id AtDisplayName (VLocalizedText x) texts) id AtDisplayName fallback = x.
Proof.
  intros Hl Ht Hn Hnone Hs. unfold localized_text_for_session, remember_localized_text_attribute_value. simpl. rewrite Hl, Ht, Hs, Hnone.
  rewrite lookup_insert_eq. simpl. change (ua_as_ref (locale x)) with (locale_of x). by rewrite locale_matches_itself.
Qed.
Lemma read_display_name c texts age t m p n : read_attribute p = AtDisplayName -> space_validate_node_read c p (nm_space m) = Ok n ->
  read_one c texts age t m p
  = Ret (value_only (VLocalizedText (localized_text_for_session c texts (node_id_of n) AtDisplayName (display_name (node_base n))))).
Proof.
  intros Ha Hv. unfold read_one, space_read. rewrite Ha, Hv. change (is_value AtDisplayName) with false. cbv iota.
  unfold read_node_value. rewrite Ha, get_display_name. simpl. by rewrite andb_false_r.
Qed.
Lemma write_display_name now c w m sh sh1 n : pw_attribute_id (wn_value w) = AtDisplayName ->
  space_validate_node_write c (wn_value w) (nm_space m) sh = Ret (sh1, Ok n) ->
  write_one now c w m sh = Ret (m, sh1, set_write_status BadNotWritable w, None).
Proof. intros Ha Hv. unfold write_one. rewrite Hv. cbn [outcome_bind]. rewrite Ha. reflexivity. Qed.
Lemma validate_write_locale_text c a x : validate_write_locale c a (VLocalizedText x) = Ok tt -> is_localized_text_attribute a = true ->
  ua_is_empty (locale x) = false -> normalized_locale_id (locale_of x) <> [].
Proof.
  unfold validate_write_locale. intros H Ha Hl. rewrite Ha, Hl in H. simpl in H. intros Hn. by rewrite bool_decide_true in H.
Qed.
(** *** What a Read shows after a Write *)

(** The attributes other than the value do not depend on it. *)
Lemma get_attribute_erase t a r e n : a <> AtValue -> get_attribute t a r e n = get_attribute t a r e (erase_value n).
Proof.
  intros Ha. destruct (decide (a = AtRolePermissions)) as [->|Hr]; [apply get_attribute_value|].
  rewrite (get_attribute_core _ _ _ _ n), (get_attribute_core _ _ _ _ (erase_value n)) by done. by destruct n.
Qed.
Lemma read_node_value_erase c texts n n' p t : is_value (read_attribute p) = false -> erase_value n' = erase_value n ->
  read_node_value c texts n' p t = read_node_value c texts n p t.
Proof.
  intros Hv He. assert (read_attribute p <> AtValue) as Ha by (intros H; by rewrite H in Hv).
  assert (forall n, read_node_value c texts n p t = read_node_value c texts (erase_value n) p t) as H; [|by rewrite (H n'), He, <-H].
  clear n n' He. intros n. unfold read_node_value. rewrite Hv, (get_attribute_erase _ _ _ _ n Ha), !andb_false_r. by destruct n.
Qed.
(** Recorded texts only matter under the attribute that is read. *)
Lemma read_node_value_texts c texts texts' n p t :
  (is_localized_text_attribute (read_attribute p) = true -> texts' !! (node_id_of n, read_attribute p) = texts !! (node_id_of n, read_attribute p)) ->
  read_node_value c texts' n p t = read_node_value c texts n p t.
Proof.
  intros H. unfold read_node_value.
  assert (forall v, apply_session_locale c texts' (node_id_of n) (read_attribute p) v = apply_session_locale c texts (node_id_of n) (read_attribute p) v) as Hv.
  { intros v. unfold apply_session_locale. destruct (is_localized_text_attribute _); [|done]. unfold localized_text_for_session.
    by rewrite H. }
  destruct (get_attribute t (read_attribute p) (pr_index_range p) (pr_data_encoding p) n) as [[d|]| |]; simpl; try done. by rewrite Hv.
Qed.
Lemma Forall2_impl_forall {A A'} (P : A -> Prop) (Q R : A -> A' -> Prop) l l' : Forall2 Q l l' -> Forall P l ->
  (forall x y, Q x y -> P x -> R x y) -> Forall2 R l l'.
Proof. intros H HP HR. induction H; inversion HP; subst; constructor; auto. Qed.
Lemma same_node n n' : erase_roles n' = erase_roles n -> roles_of n' = roles_of n -> n' = n.
Proof.
  intros He Hr. assert (forall n, n = map_base (with_roles (roles_of n)) (erase_roles n)) as H
    by (intros m; destruct m as [[[]]|[[]]|[[]]|[[]]|[[]]|[[]]|[[]]|[[]]]; reflexivity).
  by rewrite (H n), (H n'), He, Hr.
Qed.

Lemma owner_kept c managers values res ms ms' id : Forall2 (manager_changed c managers values res) ms ms' ->
  option_relation (manager_changed c managers values res) (fun _ => False) (fun _ => False) (first_owner ms id) (first_owner ms' id).
Proof.
  induction 1 as [|m m' ms ms' Hm _ IH]; simpl; [done|].
  assert (owns_node m' id = owns_node m id) as -> by (destruct Hm as [-> _]; done). by destruct (owns_node m id).
Qed.

(** Why a Read of this item may show something else after a request: the role permissions of the node
    were written; or its value was, and is what is read; or a localized text is read for which the
    request held a text. *)
Definition shown_change (c : AttributeContext) (managers : list SimpleNodeManager) (values : option (list WriteValue))
    (res : result (list StatusCode) StatusCode) (r : ReadValueId) : Prop :=
  exists p m n, parse_read_value_id r = Ok p /\ first_owner managers (pr_node_id p) = Some m
  /\ find_node (pr_node_id p) (nm_space m) = Some n
  /\ (written values res (pr_node_id p) AtRolePermissions /\ may_write c n AtRolePermissions
      \/ read_attribute p = AtValue /\ written values res (pr_node_id p) AtValue /\ may_write c n AtValue
      \/ is_localized_text_attribute (read_attribute p) = true /\ attempted c managers values res (node_id_of n) (read_attribute p)).

Lemma read_one_after c managers values res texts texts' c' age t m m' p :
  first_owner managers (pr_node_id p) = Some m -> manager_changed c managers values res m m' ->
  (forall id a, texts' !! (id, a) = texts !! (id, a) \/ attempted c managers values res id a) ->
  read_one c' texts' age t m' p = read_one c' texts age t m p
  \/ exists n, find_node (pr_node_id p) (nm_space m) = Some n
      /\ (written values res (pr_node_id p) AtRolePermissions /\ may_write c n AtRolePermissions
          \/ read_attribute p = AtValue /\ written values res (pr_node_id p) AtValue /\ may_write c n AtValue
          \/ is_localized_text_attribute (read_attribute p) = true /\ attempted c managers values res (node_id_of n) (read_attribute p)).
Proof.
  intros Hown [Hm Hn] Ht. specialize (Hn (pr_node_id p)).
  assert (read_cbs m' = read_cbs m) as Hcb by by rewrite Hm.
  unfold read_one, prepare_read_node_value, space_read, space_validate_node_read. rewrite Hcb. clear Hm Hcb.
  destruct (find_node (pr_node_id p) (nm_space m)) as [n|], (find_node (pr_node_id p) (nm_space m')) as [n'|]; simpl in Hn; try done; [|by left].
  cbn [ok_or result_bind]. destruct Hn as (Hc & [Hr|[[_ ?] ?]] & Hv); [|right; exists n; auto].
  assert (erase_value n' = erase_value n) as He by by rewrite !erase_value_of, Hc, Hr.
  rewrite (validate_read_erase c' n n' p He). destruct (validate_node_read c' n p) as [[]|e]; cbn [result_bind]; [|by left].
  destruct (is_value (read_attribute p)) eqn:Ha.
  - pose proof Ha as Hval. apply bool_decide_eq_true in Hval.
    destruct Hv as [Hv|[[_ Hw] [?|[[_ ?] ?]]]]; [|right; exists n; split; [done|]; right; left; by split_and!|right; exists n; split; [done|]; left; by split].
    rewrite (same_node n n' Hv Hr). left. destruct (read_cbs m !! _); [done|]. apply read_node_value_texts. by rewrite Hval.
  - rewrite (read_node_value_erase c' texts' n n' p t Ha He).
    destruct (is_localized_text_attribute (read_attribute p)) eqn:Hloc.
    + destruct (Ht (node_id_of n) (read_attribute p)) as [Hsame|?]; [left; by apply read_node_value_texts|right; exists n; by auto].
    + left. apply read_node_value_texts. by rewrite Hloc.
Qed.
Lemma read_item_after c managers managers' values res texts texts' now c' age t r :
  Forall2 (manager_changed c managers values res) managers managers' ->
  (forall id a, texts' !! (id, a) = texts !! (id, a) \/ attempted c managers values res id a) ->
  read_item now c' texts' age t managers' r = read_item now c' texts age t managers r \/ shown_change c managers values res r.
Proof.
  intros Hm Ht. unfold read_item, shown_change. destruct (parse_read_value_id r) as [p|e]; [|by left].
  destruct (is_null_id _); [by left|]. pose proof (owner_kept _ _ _ _ _ _ (pr_node_id p) Hm) as Ho.
  destruct (first_owner managers (pr_node_id p)) as [m|] eqn:Hown, (first_owner managers' (pr_node_id p)) as [m'|]; simpl in Ho; try done; [|by left].
  destruct (read_one_after c managers values res texts texts' c' age t m m' p Hown Ho Ht) as [?|(n & Hn & ?)]; [by left|right].
  by exists p, m, n.
Qed.
Lemma read_request_ok now limit session_open c texts age t managers items l :
  read_request now limit session_open c texts age t managers (Some items) = Ret (Ok l) ->
  Forall2 (fun r d => read_item now c texts age t managers r = Ret d) items l
  /\ forall texts' managers' l', Forall2 (fun r d => read_item now c texts' age t managers' r = Ret d) items l' ->
      read_request now limit session_open c texts' age t managers' (Some items) = Ret (Ok l').
Proof.
  unfold read_request. destruct (f64_lt age f64_zero); [done|]. intros H.
  assert (t <> InvalidTimestamps) as Ht by by intros ->.
  destruct items as [|r items]; [by destruct t|]. destruct (limit <? zlen (r :: items)); [by destruct t|].
  destruct session_open; [|by destruct t]. cbn [negb] in *. split; [apply read_nodes_spec; by destruct t|].
  intros texts' managers' l' Hl. apply read_nodes_spec in Hl. by destruct t.
Qed.
End read_back.

(** C27: Whatever a Write request that is answered does, in whatever order the node managers take its items, it
    changes only what it asks for and is permitted. In the node managers: each keeps its nodes and
    everything beside them, and an attribute that is stored differently afterwards is the value or
    the role permissions of a node that this manager is the first to own, was asked for by an item
    that was answered with [Good], and the session was allowed to write it in the state before the
    request, or to write the role permissions and did. In what Reads show, to any session: an answer
    differs only where role permissions were written that the session may write (they decide who may
    read); or for a value that was written and that it may write; or for a localized text of a node
    for which the request held a text that the session was allowed to write at that time. Such a
    text may be one of an item that was refused for another reason (C28), but never one that the
    permissions refuse. A Read of other items is answered as before. (The numbers of the index
    ranges fit 32 bits, as their type says.) *)
Theorem write_changes_permitted {D : DynEncodable} {B : Bodies} {TC : TextCodecs} {RE : NodeIdRegex} {DT : DateText} {M : Moka} {O : RefOrder}
    now limit session_open c managers sh values managers' sh' res notes :
  (forall l, values = Some l -> Forall (fun w => range_numbers_u32 (wv_index_range w)) l) ->
  write_request now limit session_open c managers sh values = Ret (managers', sh', res, notes) ->
  (length managers' = length managers
   /\ forall k m m', managers !! k = Some m -> managers' !! k = Some m' ->
     only_values_changed m m'
     /\ forall id, option_relation (fun n n' => forall t a r e, get_attribute t a r e n' <> get_attribute t a r e n ->
          first_owner managers id = Some m /\ change_allowed c (written values res id) n a)
          (fun _ => False) (fun _ => False) (find_node id (nm_space m)) (find_node id (nm_space m')))
  /\ forall now' limit' session_open' c' age t items l,
     read_request now' limit' session_open' c' (sh_texts sh) age t managers (Some items) = Ret (Ok l) ->
     (Forall (fun r => ~ shown_change c managers values res r) items ->
      read_request now' limit' session_open' c' (sh_texts sh') age t managers' (Some items) = Ret (Ok l))
     /\ forall l' i r, read_request now' limit' session_open' c' (sh_texts sh') age t managers' (Some items) = Ret (Ok l') ->
        items !! i = Some r -> l' !! i = l !! i \/ shown_change c managers values res r.
Proof.
  intros Hr Hw. destruct (write_request_spec _ _ _ _ _ _ _ _ _ _ _ Hr Hw) as [Hm Ht]. split.
  - split; [by rewrite (Forall2_length _ _ _ Hm)|]. intros k m m' Hk Hk'.
    destruct (proj2 (proj1 (Forall2_same_length_lookup _ _ _) Hm) k m m' Hk Hk') as [Hs Hn]. split; [exact Hs|]. intros id.
    specialize (Hn id). destruct (find_node id (nm_space m)), (find_node id (nm_space m')); simpl in *; try done.
    intros t a r e Hne. apply (node_changed_allowed _ _ _ _ _ _ _ _ Hn) in Hne as ([? ?] & ? & Hmay). split; [done|]. unfold change_allowed. naive_solver.
  - intros now' limit' session_open' c' age t items l Hl. apply read_request_ok in Hl as [Hl Hok].
    assert (forall r, read_item now' c' (sh_texts sh') age t managers' r = read_item now' c' (sh_texts sh) age t managers r
      \/ shown_change c managers values res r) as Hitem by (intros r; by apply read_item_after).
    split.
    + intros Hno. apply Hok. eapply Forall2_impl_forall; [exact Hl|exact Hno|]. intros r d Hd Hns. by destruct (Hitem r) as [->|?].
    + intros l' i r [Hl' _]%read_request_ok Hi.
      destruct (Forall2_lookup_l _ _ _ _ _ Hl Hi) as (d & -> & Hd), (Forall2_lookup_l _ _ _ _ _ Hl' Hi) as (d' & -> & Hd').
      destruct (Hitem r) as [He|?]; [left|by right]. congruence.
Qed.

(** The read that asks for what a write wrote. *)
Definition reads_same {D : DynEncodable} (p : ParsedWriteValue) (p' : ParsedReadValueId) : Prop :=
  pr_node_id p' = pw_node_id p /\ read_attribute p' = AtValue /\ pr_index_range p' = pw_index_range p /\ pr_data_encoding p' = DEBinary.
Definition wants_source (t : TimestampsToReturn) : bool := match t with Source | Both => true | _ => false end.
Definition wants_server (t : TimestampsToReturn) : bool := match t with Server | Both => true | _ => false end.

(** C26: What a Write request stores is what a later Read request shows: after a value was written
    with [Good] to a variable without callbacks, whole or in an index range of strings, byte strings
    and arrays of any dimensions that it fills, every session that may read the variable and asks
    for the same range, in the binary encoding, is answered with the content that was written (a
    byte string as an array of its bytes, where the variable holds bytes), the status and the
    timestamps that were written (the time of the write where none were given), and only with the
    timestamps it asks for. Both requests have one item. *)
Theorem write_then_read {D : DynEncodable} {B : Bodies} {TC : TextCodecs} {RE : NodeIdRegex} {DT : DateText} {M : Moka} {O : RefOrder}
    now limit c managers sh w p m var managers' sh' notes now' limit' c' texts max_age t r p' :
  parse_write_value w = Ok p -> pw_attribute_id p = AtValue ->
  first_owner managers (pw_node_id p) = Some m -> find_node (pw_node_id p) (nm_space m) = Some (NtVariable var) ->
  write_cbs m !! node_id_of (NtVariable var) = None -> read_cbs m !! pw_node_id p = None ->
  (forall v, dv_value (pw_value p) = Some v -> has_range (pw_index_range p) = true ->
     exists old, dv_value (value var) = Some old /\ fills (pw_index_range p) old (stored_as var v)) ->
  write_request now limit true c managers sh (Some [w]) = Ret (managers', sh', Ok [Good], notes) ->
  parse_read_value_id r = Ok p' -> reads_same p p' -> validate_node_read c' (NtVariable var) p' = Ok tt ->
  f64_lt max_age f64_zero = false -> t <> InvalidTimestamps -> 1 <= limit' ->
  exists v x d, dv_value (pw_value p) = Some v
  /\ read_request now' limit' true c' texts max_age t managers' (Some [r]) = Ret (Ok [d])
  /\ dv_value d = Some x /\ (if has_range (pw_index_range p) then same_content x (stored_as var v) else x = stored_as var v)
  /\ dv_status d = Some (default Good (dv_status (pw_value p)))
  /\ source_timestamp d = (if wants_source t then Some (default now (source_timestamp (pw_value p))) else None)
  /\ server_timestamp d = (if wants_server t then Some (default now (server_timestamp (pw_value p))) else None).
Proof.
  intros Hp Ha Hm Hn Hwcb Hrcb Hfill Hwr Hp' (Hid & Ha' & Hrg & Henc) Hread Hage Ht Hlim.
  unfold write_request in Hwr. change (zlen [w]) with 1 in Hwr. destruct (limit <? 1); [done|]. cbn [negb] in Hwr.
  apply outcome_bind_ret in Hwr as ([[[ms sh1] statuses] notes1] & Hwn & Hwr). injection Hwr as <- <- -> <-.
  destruct (write_nodes_single _ _ _ _ _ _ _ _ _ _ _ Hp Hm Hwn) as [[_ [=]]|(k & m1 & w1 & note & Hone & [= Hg] & Hnull & _ & _ & Howner)].
  symmetry in Hg.
  assert (wn_value (write_node_new w) = p) as Hwp by (unfold write_node_new; by rewrite Hp).
  destruct (write_one_value now c (write_node_new w) m sh m1 sh1 w1 note var) as (v & var' & Hv & Hset & Hm1);
    [by rewrite ?Hwp..|]. rewrite Hwp in *.
  destruct (set_value_range_read _ _ _ _ _ _ _ Hset) as (full & x & Hval & Hx & Hc); [by apply (Hfill v)|].
  assert (erase_value (NtVariable var') = erase_value (NtVariable var)) as Herase.
  { revert Hset. clear. unfold set_value_range. destruct (pw_index_range p); try (by intros [= <-]);
      (destruct (dv_value _); [|done]); destruct (set_range_of _ _ _) as [? [[]|]]; try done; by intros [= <-]. }
  assert (nm_namespaces m1 = nm_namespaces m) as Hns by by rewrite Hm1.
  specialize (Howner Hns).
  set (d := apply_timestamps t (with_times_of (value var') (Some x) (dv_status (value var')))).
  exists v, x, d. split; [done|]. split.
  - unfold read_request. rewrite Hage. change (zlen [r]) with 1. destruct (Z.ltb_spec limit' 1); [lia|]. cbn [negb].
    assert (read_nodes now' c' texts max_age t ms [r] = Ret (Ok [d])) as ->; [|by destruct t].
    apply read_nodes_spec. constructor; [|constructor]. unfold read_item. rewrite Hp', Hid, Hnull, Howner.
    apply (read_one_value _ _ _ _ _ _ var' _ full); [done|done| | | |done|by rewrite Hval|by rewrite Hrg].
    + rewrite Hid, Hm1. apply lookup_insert_eq.
    + by rewrite Hid, Hm1.
    + by rewrite (validate_read_erase _ _ _ _ Herase).
  - unfold d. rewrite Hval. by destruct t.
Qed.

(** C28: A refused write still changes what is read: the in-memory node managers answer
    [BadNotWritable] to every write of a display name, but the check of the write has already
    recorded the text, so that from then on every session that prefers its locale is shown the
    refused text instead of the name of the node. No text was recorded for it before. *)
Theorem refused_text_shown {D : DynEncodable} {B : Bodies} {TC : TextCodecs} {RE : NodeIdRegex} {DT : DateText} {M : Moka} {O : RefOrder}
    now limit c managers sh w p x m n sh1 managers' sh' res notes :
  parse_write_value w = Ok p -> pw_attribute_id p = AtDisplayName -> is_null_id (pw_node_id p) = false ->
  dv_value (pw_value p) = Some (VLocalizedText x) -> ua_is_empty (locale x) = false -> ua_is_empty (text x) = false ->
  first_owner managers (pw_node_id p) = Some m -> space_validate_node_write c p (nm_space m) sh = Ret (sh1, Ok n) ->
  sh_texts sh !! (node_id_of n, AtDisplayName) = None -> 1 <= limit ->
  write_request now limit true c managers sh (Some [w]) = Ret (managers', sh', res, notes) ->
  managers' = managers /\ res = Ok [BadNotWritable]
  /\ forall c' rest r p' age t, session_locales c' = Some (locale x :: rest) ->
     parse_read_value_id r = Ok p' -> pr_node_id p' = pw_node_id p -> read_attribute p' = AtDisplayName ->
     space_validate_node_read c' p' (nm_space m) = Ok n ->
     read_nodes now c' (sh_texts sh) age t managers' [r] = Ret (Ok [value_only (VLocalizedText (display_name (node_base n)))])
     /\ read_nodes now c' (sh_texts sh') age t managers' [r] = Ret (Ok [value_only (VLocalizedText x)]).
Proof.
  intros Hp Ha Hnull Hx Hl Ht Hm Hv Hnone Hlim Hwr.
  unfold write_request in Hwr. change (zlen [w]) with 1 in Hwr. destruct (Z.ltb_spec limit 1); [lia|]. cbn [negb] in Hwr.
  apply outcome_bind_ret in Hwr as ([[[ms shw] statuses] notes1] & Hwn & Hwr). injection Hwr as <- <- <- <-.
  destruct (write_nodes_single _ _ _ _ _ _ _ _ _ _ _ Hp Hm Hwn) as [[? _]|(k & m1 & w1 & note & Hone & -> & _ & Hk & -> & Howner)]; [congruence|].
  assert (wn_value (write_node_new w) = p) as Hwp by (unfold write_node_new; by rewrite Hp).
  rewrite (write_display_name now c _ m sh sh1 n) in Hone by (by rewrite Hwp). injection Hone as <- <- <- <-.
  apply validate_write_permits in Hv as (Hn & _ & _ & v & Hval & Hloc & Htexts). rewrite Hx in Hval. injection Hval as <-.
  rewrite Ha in Hloc, Htexts. pose proof (validate_write_locale_text _ _ _ Hloc eq_refl Hl) as Hnorm.
  rewrite list_insert_id in * by done. split; [done|]. split; [done|]. intros c' rest r p' age t Hs Hp' Hid Ha' Hread.
  assert (forall texts, read_nodes now c' texts age t managers [r]
    = Ret (Ok [value_only (VLocalizedText (localized_text_for_session c' texts (node_id_of n) AtDisplayName (display_name (node_base n))))])) as Hr.
  { intros texts. apply read_nodes_spec. constructor; [|constructor]. unfold read_item. rewrite Hp', Hid, Hnull, Hm. by apply read_display_name. }
  rewrite !Hr. split.
  - do 4 f_equal. unfold localized_text_for_session. by rewrite Hs, Hnone.
  - rewrite Htexts. by erewrite remembered_shown.
Qed.

(** ** A server *)

#[local] Existing Instances keep_all elements_order toy_codecs node_id_regex.
#[local] Instance role_dyn : DynEncodable := {| dyn := RolePermissionType; dyn_eqb a b := bool_decide (a = b); dyn_data_type _ := None |}.
#[local] Instance no_dates : DateText := {| datetime_display _ := []; datetime_from_str _ := None |}.
#[local] Instance role_bodies : Bodies := {|
  role_permission_body r := r; body_role_permission := Some;
  structure_body _ := {| role_id := null_id; permissions := 0 |}; enum_body _ := {| role_id := null_id; permissions := 0 |};
  body_structure _ := None; body_enum _ := None; body_range _ := None;
  body_data_type _ := {| node_id := null_id; namespace_uri := None; server_index := 0 |};
  override_encoding _ := None; encoded_as_xml _ := None; encoded_as_json _ := None; feature_xml := false; feature_json := false |}.

(** A variable of integers that everyone may read and write. *)
Definition sample_text (locale text : rstr) : LocalizedText := {| locale := Some locale; text := Some text |}.
Definition sample_base : Base :=
  mkBase (node 5) NcVariable {| namespace_index := 1; qname := Some (str "levels") |} (sample_text (str "en") (str "Levels")) None
    (Some write_mask_all) None None None.
Definition sample_variable : VariableOf Variant :=
  mkVariable sample_base (ns0 6) false 1 (new_now 0 (VArray (mkArray TInt32 (map VInt32 [1; 2; 3]) None)))
    (Z.lor CURRENT_READ CURRENT_WRITE) 0 (Z.lor CURRENT_READ CURRENT_WRITE) None None.
Definition sample_manager : SimpleNodeManager :=
  mkSimpleNodeManager (put_node (NtVariable sample_variable) space_new) {[1]} ∅ ∅.
Definition sample_context : AttributeContext :=
  mkAttributeContext (mkContext [] false ∅ SecureChannel.ModeNone None (fun level _ => level) true) None [str "en"; str "de"] (fun _ => true).
Definition sample_tree : DefaultTypeTree := mkTypeTree ∅ ∅ ∅ ∅ ∅ ∅ ∅ ∅.
Definition sample_shared : Shared := mkShared sample_tree ∅.
Definition sample_write : WriteValue :=
  mkWriteValue (node 5) 13 (NRIndex 1) (value_only (VArray (mkArray TInt32 [VInt32 9] None))).

(** What the sample write leaves, and the read that follows it. *)
Definition sample_after : list SimpleNodeManager * Shared * result (list StatusCode) StatusCode * list WriteNotification :=
  match write_request 7 10 true sample_context [sample_manager] sample_shared (Some [sample_write]) with
  | Ret x => x
  | _ => ([], sample_shared, Err Good, [])
  end.
Definition sample_parsed : ParsedWriteValue :=
  mkParsedWrite (node 5) AtValue (NRIndex 1) (value_only (VArray (mkArray TInt32 [VInt32 9] None))).

Definition managers_after : list SimpleNodeManager := let '(managers, _, _, _) := sample_after in managers.
Definition shared_after : Shared := let '(_, sh, _, _) := sample_after in sh.
Definition notes_after : list WriteNotification := let '(_, _, _, notes) := sample_after in notes.
Definition manager_after : SimpleNodeManager := match managers_after with m :: _ => m | [] => sample_manager end.
(** A second user, who reads in German. *)
Definition german_context : AttributeContext :=
  mkAttributeContext (access sample_context) (Some [Some (str "de")]) (server_locales sample_context) (fun _ => true).
Definition no_encoding : QualifiedName := {| namespace_index := 0; qname := None |}.
Definition sample_read : ReadValueId :=
  {| rv_node_id := node 5; rv_attribute_id := 13; rv_index_range := NRIndex 1; rv_data_encoding := no_encoding |}.
Definition sample_read_parsed : ParsedReadValueId :=
  {| pr_node_id := node 5; pr_attribute_id := 13; pr_index_range := NRIndex 1; pr_data_encoding := DEBinary |}.
(** A write of the display name. *)
Definition name_write : WriteValue := mkWriteValue (node 5) 4 NRNone (value_only (VLocalizedText (sample_text (str "de") (str "Pegel")))).
Definition name_parsed : ParsedWriteValue :=
  mkParsedWrite (node 5) AtDisplayName NRNone (value_only (VLocalizedText (sample_text (str "de") (str "Pegel")))).
Definition name_read : ReadValueId :=
  {| rv_node_id := node 5; rv_attribute_id := 4; rv_index_range := NRNone; rv_data_encoding := no_encoding |}.
Definition name_read_parsed : ParsedReadValueId :=
  {| pr_node_id := node 5; pr_attribute_id := 4; pr_index_range := NRNone; pr_data_encoding := DEBinary |}.
Definition name_texts : LocalizedTexts :=
  remember_localized_text_attribute_value (node 5) AtDisplayName (VLocalizedText (sample_text (str "de") (str "Pegel"))) ∅.
Definition name_shared : Shared := mkShared sample_tree name_texts.

(** Evaluation without writing out the result. *)
Ltac by_vm := match goal with |- _ = ?b => vm_cast_no_check (@eq_refl _ b) end.

Lemma sample_written res id a : written (Some [sample_write]) res id a -> a = AtValue.
Proof.
  intros (l & statuses & j & w & p & [= <-] & _ & Hw & _ & Hp & _ & <-). destruct j as [|j]; [|done]. injection Hw as <-. by injection Hp as <-.
Qed.
Lemma sample_attempted c managers res id a : attempted c managers (Some [sample_write]) res id a -> a = AtValue.
Proof.
  intros (l & w & p & m & [= <-] & Hw & Hp & _ & (n & x & _ & _ & <- & _)). apply list_elem_of_singleton in Hw as ->. by injection Hp as <-.
Qed.
Lemma write_changes_permitted_witness :
  write_request 7 10 true sample_context [sample_manager] sample_shared (Some [sample_write]) = Ret (managers_after, shared_after, Ok [Good], notes_after)
  /\ only_values_changed sample_manager manager_after
  /\ (forall id n n' t a r e, find_node id (nm_space sample_manager) = Some n -> find_node id (nm_space manager_after) = Some n' ->
     get_attribute t a r e n' <> get_attribute t a r e n -> change_allowed sample_context (written (Some [sample_write]) (Ok [Good]) id) n a)
  /\ forall c' age t l, read_request 9 10 true c' (sh_texts sample_shared) age t [sample_manager] (Some [name_read]) = Ret (Ok l) ->
     read_request 9 10 true c' (sh_texts shared_after) age t managers_after (Some [name_read]) = Ret (Ok l).
Proof.
  split; [by_vm|].
  destruct (write_changes_permitted 7 10 true sample_context [sample_manager] sample_shared (Some [sample_write])
    managers_after shared_after (Ok [Good]) notes_after) as [[_ H] Hread].
  - intros l [= <-]. constructor; [|constructor]. vm_compute. repeat split; discriminate.
  - by_vm.
  - destruct (H 0%nat sample_manager manager_after eq_refl) as [Hs Hn]; [by_vm|]. split; [exact Hs|]. split.
    + intros id n n' t a r e Hf Hf' Hne. specialize (Hn id). rewrite Hf, Hf' in Hn. exact (proj2 (Hn t a r e Hne)).
    + intros c' age t l Hl. apply (Hread 9 10 true c' age t [name_read] l Hl). constructor; [|constructor].
      intros (p & m & n & Hp & _ & _ & [[Hw _]|[(Ha & _)|[_ Ha]]]).
      * apply sample_written in Hw. discriminate.
      * injection Hp as <-. discriminate Ha.
      * apply sample_attempted in Ha. injection Hp as <-. discriminate Ha.
Defined.

Lemma write_then_read_witness :
  exists x d, read_request 9 10 true german_context ∅ f64_zero Both managers_after (Some [sample_read]) = Ret (Ok [d])
  /\ dv_value d = Some x /\ same_content x (VArray (mkArray TInt32 [VInt32 9] None)) /\ source_timestamp d = Some 7.
Proof.
  destruct (write_then_read 7 10 sample_context [sample_manager] sample_shared sample_write sample_parsed sample_manager sample_variable
    managers_after shared_after notes_after 9 10 german_context ∅ f64_zero Both sample_read sample_read_parsed)
    as (v & x & d & Hv & Hr & Hx & Hc & _ & Hsrc & _).
  1-6: by_vm.
  - intros v [= <-] _. eexists. split; [reflexivity|]. repeat split; (by_vm || (vm_compute; discriminate)).
  - by_vm.
  - by_vm.
  - repeat split; by_vm.
  - by_vm.
  - by_vm.
  - discriminate.
  - discriminate.
  - injection Hv as <-. exists x, d. split; [exact Hr|]. split; [exact Hx|]. split; [exact Hc|exact Hsrc].
Defined.

Lemma refused_text_shown_witness :
  exists managers' sh' notes, write_request 7 10 true sample_context [sample_manager] sample_shared (Some [name_write]) = Ret (managers', sh', Ok [BadNotWritable], notes)
  /\ read_nodes 7 german_context (sh_texts sh') f64_zero Both managers' [name_read]
     = Ret (Ok [value_only (VLocalizedText (sample_text (str "de") (str "Pegel")))]).
Proof.
  exists [sample_manager], name_shared, []. split; [by_vm|].
  destruct (refused_text_shown 7 10 sample_context [sample_manager] sample_shared name_write name_parsed
    (sample_text (str "de") (str "Pegel")) sample_manager (NtVariable sample_variable) name_shared [sample_manager] name_shared (Ok [BadNotWritable]) [])
    as (_ & _ & H).
  1-9: by_vm.
  - discriminate.
  - by_vm.
  - apply (H german_context [] name_read name_read_parsed); by_vm.
Defined.

(** Distributing the items may reverse them: of two writes to a node of the second manager, the first one is performed last. *)
Definition second_variable : VariableOf Variant :=
  with_base (mkBase {| namespace := 2; identifier := IdNumeric 5 |} NcVariable {| namespace_index := 2; qname := Some (str "count") |}
    (sample_text (str "en") (str "Count")) None None None None None) (set_value_direct (VArray (mkArray TInt32 [VInt32 0] None)) Good 0 0 sample_variable).
Definition second_manager : SimpleNodeManager := mkSimpleNodeManager (put_node (NtVariable second_variable) space_new) {[2]} ∅ ∅.
Definition second_write (z : Z) : WriteValue :=
  mkWriteValue {| namespace := 2; identifier := IdNumeric 5 |} 13 NRNone (value_only (VArray (mkArray TInt32 [VInt32 z] None))).
Example writes_reordered :
  match write_request 7 10 true sample_context [sample_manager; second_manager] sample_shared (Some [second_write 1; second_write 2; sample_write]) with
  | Ret (_, _, res, notes) =>
      res = Ok [Good; Good; Good]
      /\ omap (fun n : WriteNotification => dv_value n.1.1) notes
         = [VArray (mkArray TInt32 (map VInt32 [1; 9; 3]) None); VArray (mkArray TInt32 [VInt32 2] None); VArray (mkArray TInt32 [VInt32 1] None)]
  | _ => False
  end.
Proof. vm_compute. split; reflexivity. Qed.
